(* ===== verification/_CoqProject ===== *)
-Q . S2P
Prelude.v
Ids.v
Table.v
Geometry.v
Packets.v
PortalPackets.v
Errors.v
VisualState.v
EngineCommit.v
Outputs.v
Frames.v
Rendering.v
WmPolicy.v
WmShortcuts.v
WmLayout.v
Supervisor.v
Session.v
Text.v
Codec.v
IpcWm.v
IpcPortal.v
WmDemo.v
Floats.v
Input.v
Lifecycle.v
PortalServer.v
Portals.v
Chrome.v
Driver.v
Production.v
Namespaces.v
XAtoms.v
XTables.v
XProperties.v
XSelections.v
XInputGrabs.v
XSoftware.v
XPainting.v
XState.v
XRuntime.v
XResources.v
XRelease.v
XDraws.v
XOps.v
XSystem.v
XProtocol.v
XWire.v
XDecode.v
XKeyboard.v
XDispatch.v
XServing.v
XAnswers.v
XSetup.v
XClients.v
XEncode.v
XMessages.v
XFocus.v
XRouting.v
XRoutes.v
XFrontend.v
XWriters.v
XService.v
XWriting.v
XCommands.v
XConnections.v
LiveSources.v
LiveCpu.v
LiveComposition.v
