(* ===== verification/Prelude.v ===== *)
(** * Sophia: a verification library

    Sophia is a display system whose parts are separate processes.  Authorities
    (the X authority, in [src/crates/sophia-x-authority]) own clients and describe
    what their surfaces should look like; the engine ([sophia-engine]) owns the
    committed visual truth, the outputs and the frames; a window manager proposes
    layouts over a framed IPC protocol ([sophia-protocol/src/ipc]); portal brokers
    ([sophia-portal]) decide every transfer between namespaces; and the runtime
    ([sophia-runtime]) drives the session's ticks, supervises the processes and
    keeps the registry of namespaces.  This library models the core of these
    crates and of the demonstration window manager (paths below are under
    [src/crates/]) and proves what each part promises to the others.

    ** How the code is modelled

    - [u8] ... [u64], [usize] (64 bits) and [i32] are integers [Z]; saturating,
      checked and wrapping operations are written where the source has them, and
      the range of a field is a hypothesis ([u32_ok], [id_ok], ...) where a theorem
      depends on it.  [f32] and [f64] are their IEEE-754 bit patterns; arithmetic on
      them (file Floats) goes through [SpecFloat].
    - A [BTreeMap] is a [gmap], iterated by [btree_entries] in ascending key order;
      a [BTreeSet] is a [gset]; a [Vec] is a list.  A [String] is the list of its
      UTF-8 bytes (file Text), a [&'static str] a [string].
    - [Result] is [result], a [?] is [let?], an early [return Err] is [ensure!];
      a method on [&mut self] returns the new state beside its result, also on the
      error paths.  [None] marks a panic where one is possible.  The operations of
      the X authority runtime are written in a state-error monad (XState) in which a
      failure keeps the changes made before it, as in the source.
    - Definitions have the source's names, with a prefix where two parts use the
      same one ([clipboard_deny], [dnd_deny]).  Loops over collections are folds over
      a named body ([plan_command], [check_transaction], [expire_entry]).
    - Loops of the source without a bound of their own take fuel, and a theorem says
      which fuel is enough: serving a stream at most one round per byte of it
      ([serve_terminates]), the driver's command loop seven commands
      ([driver_tick_ends]), drawing a line its longer side and one ([draw_line_ends]),
      reading a property back its length and one ([property_written_is_read]), the
      items of a text request its bytes ([decoded_requests_fit]).
    - A byte stream is the list of bytes still to come beside the bytes written; a
      socket client is what it sends and whether it can be written to.
    - Outside the model: logging and tracing; [Display] texts; sockets, processes
      and DRM.  What such code answers is an argument: the operating system's answers
      to the supervisor ([Supervisor.Os]), the exchange with the window manager
      ([ipc] in WmLayout, [write] in IpcWm), the text of an I/O error.

    ** The files

    Protocol ([sophia-protocol]):
    - Ids: identifiers and the allocator ([ids.rs]).
    - Table: the generational slot table ([table.rs]), a refinement of a map.
    - Geometry: rectangles, regions, cursor images, the output topology check
      ([geometry.rs], [cursor.rs], [packets/output.rs]).
    - Packets: surface, layout, authority and window-manager packets, the DMA-BUF
      check ([packets/{surface/*,authority,wm}.rs]).
    - PortalPackets: namespaces, capabilities, portal transfers and grants, chrome
      and broker health ([packets/{namespace,portal,chrome}.rs]).
    - Codec: cursor, primitives and frames ([ipc/{types,cursor,frame}.rs],
      [ipc/primitives/]); the classes [Reads] and [Exact] are the interface each
      codec offers: the decoder reads every encoding, and reads nothing else.
    - IpcWm: the window-manager messages ([ipc/wm.rs]) and the stream exchange
      ([sophia-engine/src/wm.rs]), proved from the instances of Codec.
    - IpcPortal: the portal-broker messages and broker health
      ([ipc/{portal,broker}.rs]), proved the same way.

    Engine ([sophia-engine/src]):
    - VisualState ([visual_state.rs]): committed and pending state per surface, and
      the readiness test of an authority transaction.
    - EngineCommit ([engine/layout/authority_transaction.rs],
      [runtime_driver/live_adapter/intake.rs]): preparing, applying and committing
      batches of transactions.
    - Outputs ([drm.rs], [output.rs]): the output registry, the extended desktop
      and the projection of damage.
    - Frames ([frame/*.rs]): clocks, layout epochs, the page-flip gate,
      presentation.
    - Rendering ([engine/{core,rendering}.rs], [engine/layout/projection.rs],
      [render.rs]): planning, replaying and rendering a frame.
    - WmPolicy ([wm_policy.rs]): workspaces, focus and the checking of responses.
    - WmShortcuts ([wm.rs]): hello negotiation, shortcut registry and router.
    - WmLayout ([engine/layout/wm_transaction.rs], [engine/{wm_transaction,
      session_tick}.rs], [session.rs], [chrome/action.rs]): layout transactions,
      the last committed layout, session ticks, chrome actions.
    - Input ([input/*.rs], [packets/input.rs]): focus, hit testing, libinput events,
      the motion coalescer and routing, over the arithmetic of Floats.
    - Chrome ([chrome/{metadata,notification}.rs]): metadata and notifications.
    - Driver ([runtime_driver/]): the command loop against the adapter interface,
      the headless and the live adapter.
    - Production ([runtime_driver/production.rs]): authority batches, prepared
      retirements, presentation cycles and the asynchronous service.

    Runtime ([sophia-runtime/src]):
    - Supervisor ([supervisor/*.rs]): restart policy, child processes, the
      authority's health observations.
    - Session ([session/{types,reducer,observation,loop_}.rs]): the session reducer.
    - Namespaces ([session/namespace.rs]): the registry of namespaces and clients.

    Portals ([sophia-portal/src]):
    - Lifecycle ([lifecycle.rs], [broker.rs]): requests, grants, the broker.
    - Portals (the six portal modules): validation and the reducers, over the class
      [PortalReducer] of what a portal module is, with [PortalLaws] its laws.
    - PortalServer ([socket.rs]): both server loops over the broker, and the client
      side of the two exchanges.

    X authority ([sophia-x-authority/src]):
    - XAtoms ([atom.rs]): atoms and their names.
    - XTables ([resource], [window], [shm], [graphics_context], [event],
      [close_target], [pointer], [drawing]): the tables of resources, windows, shared
      segments, graphics contexts and subscriptions; drawing transactions.
    - XProperties ([property.rs]): the properties of windows, and reading them.
    - XSelections ([selection.rs], [clipboard.rs]): owners of selections, and where a
      request for one goes: to its owner, or to the clipboard portal of Portals.
    - XInputGrabs ([input_authority.rs]): grabs of pointer, keyboard and server.
    - XSoftware, XPainting ([software.rs]): the software buffers of drawables and
      their updates, and what painting does to their pixels.
    - XState, XRuntime ([packet.rs], [runtime.rs]): the state of the authority,
      requests, and the clipboard transfers the broker approved.
    - XResources, XRelease, XDraws ([runtime.rs]): what clients create, change and
      free, what is reclaimed when a client goes, and the drawing operations.
    - XOps, XSystem: every operation of the runtime as a step, and their runs.
    - XProtocol, XWire, XDecode ([wire.rs], types of [client_output.rs]): the X11
      protocol's constants and messages, the request decoders, what they guarantee.
    - XKeyboard ([keyboard.rs]): the core keyboard mapper and the compiled keymap.
    - XDispatch, XServing, XAnswers ([dispatch.rs]): a request as a step of the
      server, what every step keeps, and what it answers.
    - XSetup, XClients ([setup.rs], [x11_socket.rs]): the setup exchange and its
      authorization, the leases of identities and identifier ranges.
    - XEncode, XMessages ([client_output.rs]): the encoders of replies, events and
      errors; what a client that reads what they wrote finds.
    - XFocus ([close_target.rs], [x11_socket.rs]): stacking, selected events, the
      targets of keys and close requests.
    - XRouting, XRoutes ([x11_socket.rs]): the bounded queues of the clients, the
      routes of surfaces, input, presentations and topology, and their bounds.
    - XFrontend, XService, XConnections ([x11_socket.rs]): the frontend shared by the
      workers, a turn of a client from bytes to answers, connecting, disconnecting;
      the calculus its steps are proved in; its runs.
    - XWriters, XWriting, XCommands ([x11_socket.rs]): the writers of protocol events,
      input and the engine's commands; what input becomes on the way to a client, and
      what becomes of a command.

    Live renderer ([sophia-renderer-live/src]):
    - LiveSources ([buffer_registry.rs]): registered buffers, the lifetimes of CPU
      buffers, and presentations with the sources and fences they refer to; duplicating
      a descriptor and polling a fence are answers of the operating system
      ([LiveFdOs]).
    - LiveCpu ([cpu_buffer_registry.rs]): CPU buffers, whole updates and patches; what
      the live session makes of an update of the X authority
      ([renderer_cpu_buffer_update] of [sophia-cli]).
    - LiveComposition ([cpu_composition.rs], [production_cpu_scene.rs]): composing
      layers and the cursor, the scene of the committed surfaces.

    Demonstration window manager ([sophia-wm-demo/src]):
    - WmDemo ([policy.rs], [socket.rs]): the tiling policy and serving the engine.

    This file holds the [result] type and its notations, machine integers, ordered
    iteration over maps, the lemmas on lists the components share, and automation.
    Errors holds the error types more than one component uses.

    ** What is proved

    - Commits: a batch is atomic, a prepared batch is serializable with respect to
      whatever was committed in between, and a stale one is refused
      ([commit_atomic], [prepared_commit_serializable],
      [stale_prepared_commit_rejected], [intake_commit_spec]); a staged batch shows
      only at the page flip of its output ([page_flip_gate_spec]).
    - Frames: the epoch barrier, the presentation protocol of every output, planned
      frames render and import what they draw ([epoch_barrier],
      [presentation_follows_protocol], [planned_frame_renders],
      [planned_frame_imports]).
    - Window manager: accepted responses are sound and the workspace invariant holds
      over any session; layouts are all or nothing; the display survives any
      behaviour of the window manager; shortcuts ([plan_response_sound],
      [policy_reachable_ok], [layout_commit_spec], [wm_run_shows_last_committed],
      [from_hello_spec], [route_key_spec]).  The demonstration policy tiles exactly
      and its answers are accepted by the engine ([tiles_partition],
      [demo_response_accepted], [serve_terminates], [serve_answers_each]).
    - Driver: a tick ends, runs its commands in order, renders what the session
      would, and both adapters agree ([driver_tick_ends], [headless_tick_exact],
      [live_drives_as_headless], [live_tick_errors]); a presentation is completed
      exactly while it is current, cycles and services keep their phases
      ([retirement_completed_when_current], [cycle_phases], [service_phases]).
    - Input and chrome: pointer events go to the topmost surface under the pixel, key
      events to the focus, the coalescer drops only motions that were overtaken
      ([hit_test_pixels], [keyboard_follows_focus], [queue_delivers]); metadata and
      notifications ([metadata_sound], [notifications_shown]).
    - Session and supervision: a tick runs to completion in order, telemetry does
      not steer it, counters and health are exact, restarts between two refills of
      their budget, a start request or a healthy report, are bounded
      ([tick_runs_in_order], [telemetry_does_not_steer], [scanout_accounting],
      [authority_health_followed], [restart_budget], [one_child_at_a_time]).
    - Portals and namespaces: grants are backed, bounded and final, revocation is
      exact, the broker fails closed, each portal answers once, validation is safe,
      a revoked admission stays revoked ([portal_grants_backed] and the theorems
      after it, [portal_answers_once], [accepted_requests_safe],
      [revocation_is_final]); the socket server answers as the broker, executes only
      granted transfers and hands payloads over intact ([portal_server_answers],
      [clipboard_executions_granted], [clipboard_handoff]).
    - X clients: atoms and window generations are stable, properties bounded and read
      back as written ([atoms_are_stable], [window_generations_consecutive],
      [properties_bounded], [property_written_is_read]); selections stay within their
      namespace but for the portal, each request is answered, each approved transfer
      is executed once ([selection_dispatch_confined], [selection_request_answered],
      [clipboard_executed_once]); of every table exactly what a client owned is reclaimed
      when it goes, no run of operations breaks the tables, and no namespace touches
      what another owns in them ([release_reclaims_range], [runtime_well_formed], [namespaces_isolated]);
      over the whole frontend: no client makes it panic, every request is answered
      under its sequence number, a turn leaves the tables, grabs and properties of the
      other namespaces alone (not the pixels of their software buffers, nor their
      selections: [XSystem.foreign_draw_paints],
      [XConnections.selection_cleared_across_namespaces]), a client that goes is
      forgotten and its range released ([frontend_never_panics], [requests_answered],
      [turns_stay_in_namespace], [disconnect_forgets]), commands of the engine are
      acknowledged once with what became of them ([commands_acknowledged]), clients
      read back the messages they are sent, and input comes to them as it was routed,
      until an item whose target is not the client's ends its writer
      ([outputs_read_back], [input_session_told]); the setup is read as written,
      queues stay bounded, input stays in its namespace and keys reach who selected
      them ([setup_exchange], [routes_bounded], [input_stays_in_namespace],
      [keyboard_target_first]);
      a request decodes without panic to values of its width, naming as new only
      identifiers of its client ([decoded_requests_fit]);
      grabs are exclusive, a conflicting one is refused, and they are released with their owner
      ([passive_grabs_exclusive], [cleanup_releases_exactly]); painting is exact to
      the pixel ([paint_damage_exact], [patch_reproduces_buffer], [draw_line_ends]).
    - Live renderer: every source, fence and presentation taken in goes exactly once,
      and not while it is used ([live_resources_accounted]); CPU buffers are what the
      updates say, and what the authority's painting drew ([cpu_update_exact],
      [renderer_follows_authority]); the composed frame shows the committed surfaces,
      pixel by pixel ([scene_shows_committed]).
    - Messages: frames and messages are decoded exactly as they are encoded
      ([frame_exact], [wm_request_roundtrip], [wm_messages_exact],
      [portal_messages_exact], [stream_exchange_spec]).
    - Data: the slot table refines a map until its generations wrap, topology and DMA-BUF checks accept exactly
      the well-formed values, damage projection loses and invents nothing
      ([table_refines_map], [topology_validate_spec], [dma_buf_validate_spec],
      [project_damage_exact], [extended_desktop_sound]).

    State machines are given as runs of the operations (lists of calls, or a
    reachability relation); invariants are proved by induction over them, with
    failed calls included.

    ** Not modelled

    - Of the X authority, the sockets and threads around the turns of
      [x11_socket.rs], the time its input writer waits for a key's window, and the
      keymap compiler of a C library, which is a parameter.  The turns of the frontend
      are atomic, as its locks make them; the writes to a client are taken to succeed,
      and what the observer of a dispatch answers is a parameter.
    - The live backend, and of the live renderer importing buffers and scanning them
      out (DRM, libinput, EGL, GBM); the shared-memory crates: device I/O and foreign
      functions.
    - The command-line program (but for [renderer_cpu_buffer_update]) and the bridge for X11 window managers: glue around
      the other crates.
    - Of the engine and the portals, removing, binding and restricting socket files
      and the sysfs discovery of outputs; of the demonstration window manager, its
      line-based process protocol. *)

From Stdlib Require Export ZArith Lia.
From stdpp Require Export sorting.
From stdpp Require Export prelude gmap.
From stdpp Require Export list_relations.

Set Default Proof Using "Type".
Local Open Scope Z_scope.

(** ** Results: Rust's [Result<T, E>] *)

Inductive result (A E : Type) : Type :=
| Ok (a : A)
| Err (e : E).
Arguments Ok {A E} a.
Arguments Err {A E} e.

Definition res_bind {A B E} (r : result A E) (k : A → result B E) : result B E :=
  match r with Ok a => k a | Err e => Err e end.

Definition ok_or {A E} (o : option A) (e : E) : result A E :=
  match o with Some a => Ok a | None => Err e end.

Definition map_err {A E F} (f : E → F) (r : result A E) : result A F :=
  match r with Ok a => Ok a | Err e => Err (f e) end.

Definition is_ok {A E} (r : result A E) : bool :=
  match r with Ok _ => true | Err _ => false end.

Definition res_ok {A E} (r : result A E) : option A :=
  match r with Ok a => Some a | Err _ => None end.

Declare Scope sophia_scope.
Delimit Scope sophia_scope with sophia.
(** [let? x := e in k] is Rust's [let x = e?; k]. *)
Notation "'let?' x ':=' e 'in' k" := (res_bind e (λ x, k))
  (at level 200, x name, e at level 100, k at level 200, right associativity,
   only parsing) : sophia_scope.
Notation "'let?' ' p ':=' e 'in' k" := (res_bind e (λ x, match x with p => k end))
  (at level 200, p pattern, e at level 100, k at level 200, right associativity,
   only parsing) : sophia_scope.
(** [ensure! c else e in k] is the early return [if !c { return Err(e); } k]. *)
Notation "'ensure!' c 'else' e 'in' k" := (if decide c then k else Err e)
  (at level 200, c at level 100, e at level 100, k at level 200, right associativity,
   only parsing) : sophia_scope.
Open Scope sophia_scope.

#[export] Instance result_eq_dec {A E} `{EqDecision A, EqDecision E} :
  EqDecision (result A E).
Proof. solve_decision. Defined.

Lemma res_bind_ok {A B E} (r : result A E) (k : A → result B E) b :
  res_bind r k = Ok b ↔ ∃ a, r = Ok a ∧ k a = Ok b.
Proof. destruct r; simpl; naive_solver. Qed.

Lemma res_bind_err {A B E} (r : result A E) (k : A → result B E) e :
  res_bind r k = Err e ↔ r = Err e ∨ ∃ a, r = Ok a ∧ k a = Err e.
Proof. destruct r; simpl; naive_solver. Qed.

Lemma ok_or_ok {A E} (o : option A) (e : E) a : ok_or o e = Ok a ↔ o = Some a.
Proof. destruct o; simpl; naive_solver. Qed.

Lemma ok_or_err {A E} (o : option A) (e e' : E) :
  ok_or o e = Err e' ↔ o = None ∧ e = e'.
Proof. destruct o; simpl; naive_solver. Qed.

(** Walks through a hypothesis [H : handler = Ok _ / Err _]. *)
Ltac res_inv H :=
  repeat first
    [ progress simplify_eq/=
    | rewrite res_bind_ok in H; destruct H as (?&?&H)
    | rewrite ok_or_ok in H
    | progress (case_decide; simplify_eq/=) ].

(** ** Machine integers

    A [w]-bit unsigned integer is a [Z] in [0, 2^w); a signed one is a [Z] in
    [-2^(w-1), 2^(w-1)).  [usize] is 64 bits wide. *)

Definition u8_MAX : Z := 255.
Definition u16_MAX : Z := 65535.
Definition u32_MAX : Z := 4294967295.
Definition u64_MAX : Z := 18446744073709551615.
Definition usize_MAX : Z := u64_MAX.
Definition i32_MAX : Z := 2147483647.
Definition i32_MIN : Z := -2147483648.

Definition u8_ok (z : Z) : Prop := 0 ≤ z ≤ u8_MAX.
Definition u16_ok (z : Z) : Prop := 0 ≤ z ≤ u16_MAX.
Definition u32_ok (z : Z) : Prop := 0 ≤ z ≤ u32_MAX.
Definition u64_ok (z : Z) : Prop := 0 ≤ z ≤ u64_MAX.
Definition i32_ok (z : Z) : Prop := i32_MIN ≤ z ≤ i32_MAX.

#[export] Instance u8_ok_dec z : Decision (u8_ok z).
Proof. unfold u8_ok; apply _. Defined.
#[export] Instance u16_ok_dec z : Decision (u16_ok z).
Proof. unfold u16_ok; apply _. Defined.
#[export] Instance u32_ok_dec z : Decision (u32_ok z).
Proof. unfold u32_ok; apply _. Defined.
#[export] Instance u64_ok_dec z : Decision (u64_ok z).
Proof. unfold u64_ok; apply _. Defined.
#[export] Instance i32_ok_dec z : Decision (i32_ok z).
Proof. unfold i32_ok; apply _. Defined.

Ltac unfold_widths :=
  unfold u8_ok, u16_ok, u32_ok, u64_ok, i32_ok, u8_MAX, u16_MAX, u32_MAX,
    usize_MAX, u64_MAX, i32_MAX, i32_MIN in *.
(** Linear arithmetic over machine ranges. *)
Ltac word_lia := unfold_widths; lia.

(** [checked_add] and friends of an unsigned type with maximum [m]. *)
Definition checked_add (m a b : Z) : option Z :=
  if decide (a + b ≤ m) then Some (a + b) else None.
Definition checked_mul (m a b : Z) : option Z :=
  if decide (a * b ≤ m) then Some (a * b) else None.
Definition checked_sub (a b : Z) : option Z :=
  if decide (b ≤ a) then Some (a - b) else None.
Definition saturating_add (m a b : Z) : Z := Z.min (a + b) m.
Definition saturating_mul (m a b : Z) : Z := Z.min (a * b) m.
Definition saturating_sub (a b : Z) : Z := Z.max (a - b) 0.
Definition wrapping_add (m a b : Z) : Z := (a + b) mod (m + 1).

(** The signed 32-bit forms. *)
Definition i32_clamp (z : Z) : Z := Z.max i32_MIN (Z.min z i32_MAX).
Definition i32_saturating_add (a b : Z) : Z := i32_clamp (a + b).
Definition i32_saturating_sub (a b : Z) : Z := i32_clamp (a - b).
Definition i32_saturating_mul (a b : Z) : Z := i32_clamp (a * b).
Definition i32_checked_add (a b : Z) : option Z :=
  if decide (i32_ok (a + b)) then Some (a + b) else None.

(** [u64::saturating_add] on counters, the commonest case. *)
Definition u64_succ (z : Z) : Z := saturating_add u64_MAX z 1.

Lemma checked_add_Some m a b c : checked_add m a b = Some c ↔ c = a + b ∧ a + b ≤ m.
Proof. unfold checked_add; case_decide; naive_solver. Qed.
Lemma checked_mul_Some m a b c : checked_mul m a b = Some c ↔ c = a * b ∧ a * b ≤ m.
Proof. unfold checked_mul; case_decide; naive_solver. Qed.
(** Within the range. *)
Lemma checked_add_within m a b : a + b ≤ m → checked_add m a b = Some (a + b).
Proof. intros. unfold checked_add. by rewrite decide_True. Qed.
Lemma checked_mul_within m a b : a * b ≤ m → checked_mul m a b = Some (a * b).
Proof. intros. unfold checked_mul. by rewrite decide_True. Qed.
Lemma checked_sub_within a b : b ≤ a → checked_sub a b = Some (a - b).
Proof. intros. unfold checked_sub. by rewrite decide_True. Qed.
Lemma i32_checked_add_Some a b c :
  i32_checked_add a b = Some c ↔ c = a + b ∧ i32_ok (a + b).
Proof. unfold i32_checked_add; case_decide; naive_solver. Qed.

Lemma u64_succ_ok z : u64_ok z → u64_ok (u64_succ z).
Proof. unfold u64_succ, saturating_add; word_lia. Qed.
Lemma u64_succ_ge z : u64_ok z → z ≤ u64_succ z.
Proof. unfold u64_succ, saturating_add; word_lia. Qed.
Lemma u64_succ_lt z : u64_ok z → z ≠ u64_MAX → u64_succ z = z + 1.
Proof. unfold u64_succ, saturating_add; word_lia. Qed.

(** ** Ranges of bytes *)

(** [bytes.get(a..b)] of a [usize] range. *)
Definition slice_range (bytes : list Z) (a b : Z) : option (list Z) :=
  if decide (a ≤ b ∧ b ≤ Z.of_nat (length bytes)) then
    Some (take (Z.to_nat (b - a)) (drop (Z.to_nat a) bytes))
  else None.
Lemma slice_range_in bytes a n :
  0 ≤ a → 0 ≤ n → a + n ≤ Z.of_nat (length bytes) →
  slice_range bytes a (a + n) = Some (take (Z.to_nat n) (drop (Z.to_nat a) bytes)).
Proof. intros. unfold slice_range. rewrite decide_True by lia. do 3 f_equal. lia. Qed.

(** ** Little-endian bytes: [to_le_bytes] and [from_le_bytes] *)

Fixpoint to_le_bytes (n : nat) (z : Z) : list Z :=
  match n with
  | O => []
  | S n => z mod 256 :: to_le_bytes n (z / 256)
  end.

Fixpoint from_le_bytes (bs : list Z) : Z :=
  match bs with
  | [] => 0
  | b :: bs => b + 256 * from_le_bytes bs
  end.

(** The two's-complement reading of a [w]-bit word. *)
Definition as_unsigned (w z : Z) : Z := z mod 2 ^ w.
Definition as_signed (w z : Z) : Z := if decide (z < 2 ^ (w - 1)) then z else z - 2 ^ w.

Lemma length_to_le_bytes n z : length (to_le_bytes n z) = n.
Proof. revert z; induction n; intros; simpl; auto. Qed.

Lemma to_le_bytes_u8 n z : Forall u8_ok (to_le_bytes n z).
Proof.
  revert z; induction n as [|n IH]; intros z; simpl; constructor; auto.
  pose proof (Z.mod_pos_bound z 256). word_lia.
Qed.

Lemma from_to_le_bytes n z :
  0 ≤ z < 256 ^ Z.of_nat n → from_le_bytes (to_le_bytes n z) = z.
Proof.
  revert z; induction n as [|n IH]; intros z Hz.
  - change (256 ^ Z.of_nat 0) with 1 in Hz; simpl; lia.
  - rewrite Nat2Z.inj_succ, Z.pow_succ_r in Hz by lia; cbn [to_le_bytes from_le_bytes].
    rewrite IH.
    + pose proof (Z.div_mod z 256); lia.
    + split; [apply Z.div_pos; lia | apply Z.div_lt_upper_bound; lia].
Qed.

Lemma from_le_bytes_bound bs :
  Forall u8_ok bs → 0 ≤ from_le_bytes bs < 256 ^ Z.of_nat (length bs).
Proof.
  induction 1 as [|b bs Hb _ IH]; [simpl; lia|].
  cbn [from_le_bytes length]. rewrite Nat2Z.inj_succ, Z.pow_succ_r by lia. word_lia.
Qed.

Lemma to_from_le_bytes bs :
  Forall u8_ok bs → to_le_bytes (length bs) (from_le_bytes bs) = bs.
Proof.
  induction 1 as [|b bs Hb _ IH]; [done|]. simpl. f_equal.
  - rewrite (Z.mul_comm 256), Z.mod_add, Z.mod_small by (try word_lia); word_lia.
  - rewrite (Z.mul_comm 256), Z.div_add, Z.div_small by (try word_lia).
    by rewrite Z.add_0_l, IH.
Qed.

Lemma as_signed_unsigned w z :
  0 < w → - 2 ^ (w - 1) ≤ z < 2 ^ (w - 1) → as_signed w (as_unsigned w z) = z.
Proof.
  intros Hw Hz. unfold as_signed, as_unsigned.
  assert (2 ^ w = 2 * 2 ^ (w - 1)) as Hp.
  { rewrite <-Z.pow_succ_r by lia. f_equal; lia. }
  destruct (decide (0 ≤ z)).
  - rewrite Z.mod_small by lia. case_decide; lia.
  - rewrite <-(Z.mod_add z 1), Z.mod_small by lia. case_decide; lia.
Qed.

Lemma as_unsigned_signed w z :
  0 < w → 0 ≤ z < 2 ^ w → as_unsigned w (as_signed w z) = z.
Proof.
  intros Hw Hz. unfold as_signed, as_unsigned. case_decide.
  - by rewrite Z.mod_small.
  - rewrite <-(Z.mod_add _ 1) by lia. rewrite Z.mod_small; lia.
Qed.

(** ** Loops *)

(** [for a in l { s = f(s, a)?; }]. *)
Fixpoint try_fold {S A E} (f : S → A → result S E) (s : S) (l : list A) : result S E :=
  match l with
  | [] => Ok s
  | a :: l => let? s' := f s a in try_fold f s' l
  end.

(** [l.iter().map(f).collect::<Result<Vec<_>, _>>()]. *)
Fixpoint try_map {A B E} (f : A → result B E) (l : list A) : result (list B) E :=
  match l with
  | [] => Ok []
  | a :: l => let? b := f a in let? bs := try_map f l in Ok (b :: bs)
  end.

(** [l.iter().find_map(f)]. *)
Fixpoint find_map {A B} (f : A → option B) (l : list A) : option B :=
  match l with
  | [] => None
  | a :: l => match f a with Some b => Some b | None => find_map f l end
  end.

(** [l.iter().find(p)] and [l.iter().position(p)]. *)
Definition find_first {A} (P : A → Prop) `{∀ x, Decision (P x)} (l : list A) : option A :=
  snd <$> list_find P l.
Definition position {A} (P : A → Prop) `{∀ x, Decision (P x)} (l : list A) : option nat :=
  fst <$> list_find P l.

Lemma try_fold_app {S A E} (f : S → A → result S E) s l1 l2 :
  try_fold f s (l1 ++ l2) = res_bind (try_fold f s l1) (λ s', try_fold f s' l2).
Proof. revert s; induction l1 as [|a l1 IH]; intros s; simpl; [done|]. destruct (f s a); simpl; auto. Qed.

(** The loop rule: an invariant of the visited prefix and the state. *)
Lemma try_fold_ind {S A E} (f : S → A → result S E) (P : list A → S → Prop) s0 l s :
  P [] s0 →
  (∀ pre a s s', pre ++ [a] `prefix_of` l → P pre s → f s a = Ok s' → P (pre ++ [a]) s') →
  try_fold f s0 l = Ok s → P l s.
Proof.
  intros H0 Hstep. revert s. induction l as [|a l IH] using rev_ind; simpl.
  - naive_solver.
  - intros s. rewrite try_fold_app, res_bind_ok; simpl.
    intros (s1&H1&H2). rewrite res_bind_ok in H2; destruct H2 as (s2&H2&[= <-]).
    eapply Hstep; [done| |done]. apply IH; [|done].
    intros pre b t t' Hpre. apply Hstep. by apply prefix_app_r.
Qed.

Lemma try_fold_inv {S A E} (f : S → A → result S E) (I : S → Prop) s0 l s :
  I s0 → (∀ a s s', a ∈ l → I s → f s a = Ok s' → I s') → try_fold f s0 l = Ok s → I s.
Proof.
  intros H0 Hstep. apply (try_fold_ind f (λ _ s, I s)); [done|].
  intros pre a t t' [k ->] Ht Hf. apply (Hstep a t); [|done|done].
  rewrite !elem_of_app, list_elem_of_singleton. auto.
Qed.

Lemma try_map_ok {A B E} (f : A → result B E) l bs :
  try_map f l = Ok bs ↔ Forall2 (λ a b, f a = Ok b) l bs.
Proof.
  revert bs; induction l as [|a l IH]; intros bs; simpl.
  - split; [intros [= <-]; constructor | by inversion 1].
  - rewrite res_bind_ok. setoid_rewrite res_bind_ok. setoid_rewrite IH. split.
    + intros (b & Hb & bs' & Hbs & [= <-]). by constructor.
    + inversion 1; subst; eauto.
Qed.

Lemma find_map_Some {A B} (f : A → option B) l b :
  find_map f l = Some b → ∃ a, a ∈ l ∧ f a = Some b.
Proof.
  induction l as [|a l IH]; simpl; [done|]. destruct (f a) eqn:E.
  - intros [= <-]. exists a. split; [left|done].
  - intros H. destruct (IH H) as (x&?&?). exists x. split; [by right|done].
Qed.

Lemma find_map_None {A B} (f : A → option B) l :
  find_map f l = None ↔ ∀ a, a ∈ l → f a = None.
Proof.
  induction l as [|a l IH]; simpl; [set_solver|].
  destruct (f a) eqn:E; setoid_rewrite elem_of_cons.
  - split; [done|]. intros H. specialize (H a). rewrite E in H. naive_solver.
  - rewrite IH. naive_solver.
Qed.

Section find_first.
Context {A : Type} (P : A → Prop) `{∀ x, Decision (P x)}.

Lemma find_first_Some l x : find_first P l = Some x → x ∈ l ∧ P x.
Proof.
  unfold find_first. intros Hf. apply fmap_Some in Hf as ([i y]&Hf&->); simpl.
  apply list_find_Some in Hf as (Hl&Hp&_). split; [|done].
  by eapply list_elem_of_lookup_2.
Qed.
Lemma find_first_None l : find_first P l = None ↔ Forall (λ x, ¬ P x) l.
Proof. unfold find_first. by rewrite fmap_None, list_find_None. Qed.
Lemma position_find_first l :
  position P l = None ↔ find_first P l = None.
Proof. unfold position, find_first. by rewrite !fmap_None. Qed.
Lemma position_Some l i :
  position P l = Some i → ∃ x, l !! i = Some x ∧ P x ∧ find_first P l = Some x.
Proof.
  unfold position, find_first. intros Hf. apply fmap_Some in Hf as ([j y]&Hf&->); simpl.
  exists y. rewrite Hf. apply list_find_Some in Hf as (?&?&_). done.
Qed.
Lemma find_first_cons x l :
  find_first P (x :: l) = if decide (P x) then Some x else find_first P l.
Proof.
  unfold find_first. simpl. case_decide; [done|]. by destruct (list_find P l) as [[]|].
Qed.
Lemma find_first_app l1 l2 :
  find_first P (l1 ++ l2) =
    match find_first P l1 with Some x => Some x | None => find_first P l2 end.
Proof.
  induction l1 as [|x l1 IH]; simpl; [done|].
  rewrite !find_first_cons, IH. by case_decide.
Qed.
Lemma find_first_split l x :
  find_first P l = Some x → ∃ pre post, l = pre ++ x :: post ∧ P x ∧ Forall (λ y, ¬ P y) pre.
Proof.
  induction l as [|y l IH]; [done|]. rewrite find_first_cons. case_decide as Hy.
  - intros [= ->]. by exists [], l.
  - intros (pre & post & -> & Hx & Hpre)%IH. exists (y :: pre), post. auto.
Qed.
End find_first.

Lemma find_first_ext {A} (P Q : A → Prop) `{∀ x, Decision (P x), ∀ x, Decision (Q x)} l :
  (∀ x, P x ↔ Q x) → find_first P l = find_first Q l.
Proof.
  intros HPQ. induction l as [|x l IH]; [done|].
  rewrite !find_first_cons, IH. destruct (decide (P x)), (decide (Q x)); naive_solver.
Qed.

Lemma filter_none {A} (P : A → Prop) `{∀ x, Decision (P x)} l :
  (∀ x, x ∈ l → ¬ P x) → filter P l = [].
Proof.
  induction l as [|x l IH]; intros Hl; [done|]. rewrite filter_cons, decide_False by (apply Hl; left).
  apply IH. intros y Hy. apply Hl. by right.
Qed.

Lemma NoDup_fmap_filter {A B} (f : A → B) (P : A → Prop) `{∀ x, Decision (P x)} l :
  NoDup (f <$> l) → NoDup (f <$> filter P l).
Proof.
  induction l as [|c l IH]; [done|]. csimpl.
  intros [Hc Hl]%NoDup_cons. rewrite filter_cons. case_decide; [|auto]. csimpl.
  apply NoDup_cons. split; [|auto]. contradict Hc.
  apply list_elem_of_fmap in Hc as (d&->&Hd). apply list_elem_of_filter in Hd as [_ Hd].
  by apply list_elem_of_fmap_2.
Qed.

Lemma StronglySorted_fmap_filter {A B} (R : relation B) (f : A → B) (P : A → Prop)
    `{∀ x, Decision (P x)} l :
  StronglySorted R (f <$> l) → StronglySorted R (f <$> filter P l).
Proof.
  induction l as [|c l IH]; [done|]. csimpl. intros [Hs HF]%StronglySorted_inv.
  rewrite filter_cons. case_decide; [|auto]. csimpl. constructor; [auto|].
  rewrite Forall_fmap, Forall_forall in *. intros d [_ Hd]%list_elem_of_filter. by apply HF.
Qed.

Lemma filter_ext_in {A} (P Q : A → Prop) `{∀ x, Decision (P x), ∀ x, Decision (Q x)} (l : list A) :
  (∀ x, x ∈ l → P x ↔ Q x) → filter P l = filter Q l.
Proof.
  induction l as [|x l IH]; intros H1; [done|].
  assert (P x ↔ Q x) by (apply H1; left).
  assert (filter P l = filter Q l) by (apply IH; intros; apply H1; by right).
  destruct (decide (P x)); [rewrite !filter_cons_True by tauto|rewrite !filter_cons_False by tauto];
    congruence.
Qed.

(** Membership tests of a list one element longer. *)
Lemma decide_elem_head {A B} `{EqDecision A} (x : A) (l : list A) (a b : B) :
  (if decide (x ∈ x :: l) then a else b) = a.
Proof. rewrite decide_True; [done|left]. Qed.
Lemma decide_elem_tail {A B} `{EqDecision A} (x y : A) (l : list A) (a b : B) :
  y ≠ x → (if decide (y ∈ x :: l) then a else b) = (if decide (y ∈ l) then a else b).
Proof.
  intros Hne. destruct (decide (y ∈ x :: l)) as [Hd|Hd].
  - rewrite decide_True; [done|]. by apply elem_of_cons in Hd as [?|?].
  - rewrite decide_False; [done|]. intros ?. apply Hd. by right.
Qed.

(** ** [slice::sort_by_key]: the stable sort by an integer key *)

Section sort_by_key.
Context {A : Type} (key : A → Z).

Fixpoint insert_by_key (x : A) (l : list A) : list A :=
  match l with
  | [] => [x]
  | y :: l => if decide (key x ≤ key y) then x :: y :: l else y :: insert_by_key x l
  end.
Definition sort_by_key (l : list A) : list A := foldr insert_by_key [] l.

Lemma insert_by_key_perm x l : insert_by_key x l ≡ₚ x :: l.
Proof.
  induction l as [|y l IH]; simpl; [done|]. case_decide; [done|]. rewrite IH. apply Permutation_swap.
Qed.

Lemma sort_by_key_perm l : sort_by_key l ≡ₚ l.
Proof. induction l as [|x l IH]; simpl; [done|]. by rewrite insert_by_key_perm, IH. Qed.

Lemma sort_by_key_sorted l : StronglySorted (λ x y, key x ≤ key y) (sort_by_key l).
Proof.
  induction l as [|x l IH]; simpl; [constructor|]. induction IH as [|y l' Hs IHs Hf]; simpl.
  { by repeat constructor. }
  case_decide as Hle.
  - constructor; [by constructor|]. constructor; [done|]. eapply Forall_impl; [done|].
    intros z Hz. simpl in *. lia.
  - constructor; [done|]. rewrite insert_by_key_perm. constructor; [lia|done].
Qed.

Lemma insert_by_key_filter x l k :
  filter (λ y, key y = k) (insert_by_key x l) = filter (λ y, key y = k) (x :: l).
Proof.
  induction l as [|y l IH]; [done|]. cbn [insert_by_key]. case_decide as Hle; [done|].
  rewrite filter_cons, IH, !filter_cons. destruct (decide (key y = k)), (decide (key x = k)); try done; lia.
Qed.

(** Elements with equal keys keep their order. *)
Lemma sort_by_key_stable l k : filter (λ y, key y = k) (sort_by_key l) = filter (λ y, key y = k) l.
Proof.
  induction l as [|x l IH]; [done|]. simpl. rewrite insert_by_key_filter, !filter_cons.
  by rewrite IH.
Qed.
End sort_by_key.

(** ** Ordered maps: Rust's [BTreeMap]

    The map is a [gmap]; iteration is by ascending key, as [BTreeMap::iter]. *)

Class BTreeKey (K : Type) := {
  key_le : relation K;
  key_le_dec :: RelDecision key_le;
  key_le_trans :: Transitive key_le;
  key_le_total :: Total key_le;
  key_le_antisym :: AntiSymm (=) key_le;
}.

#[export] Program Instance btree_key_Z : BTreeKey Z := {| key_le := Z.le |}.

Program Definition btree_key_inj {A B} `{BTreeKey B} (f : A → B) `{!Inj (=) (=) f} :
  BTreeKey A := {| key_le := λ x y, key_le (f x) (f y) |}.
Next Obligation. intros. solve_decision. Defined.
Next Obligation. intros A B ? f ? x y z; simpl. apply transitivity. Qed.
Next Obligation. intros A B ? f ? x y; simpl. apply total; apply _. Qed.
Next Obligation. intros A B ? f ? x y; simpl. intros. apply (inj f). by apply (anti_symm key_le). Qed.

Definition lex_le {A B} `{BTreeKey A, BTreeKey B} (x y : A * B) : Prop :=
  key_le x.1 y.1 ∧ (key_le y.1 x.1 → key_le x.2 y.2).

#[export] Program Instance btree_key_prod {A B} `{BTreeKey A, BTreeKey B} :
  BTreeKey (A * B) := {| key_le := lex_le |}.
Next Obligation. intros A B HA HB [a b] [c d]. unfold lex_le; simpl. solve_decision. Defined.
Next Obligation.
  intros A B HA HB [a b] [c d] [e f]. unfold lex_le; simpl. intros [? Hb] [? Hd]. split.
  - by transitivity c.
  - intros. transitivity d; [apply Hb; by transitivity e | apply Hd; by transitivity a].
Qed.
Next Obligation.
  intros A B HA HB [a b] [c d]. unfold lex_le; simpl.
  destruct (total key_le a c), (total key_le b d); destruct (decide (key_le c a)),
    (decide (key_le a c)); naive_solver.
Qed.
Next Obligation.
  intros A B HA HB [a b] [c d]. unfold lex_le; simpl. intros [? Hb] [? Hd].
  f_equal; [by apply (anti_symm key_le)|]. apply (anti_symm key_le); auto.
Qed.

Section btree.
Context {K : Type} `{Countable K, !BTreeKey K} {V : Type}.
Implicit Types m : gmap K V.

Definition entry_le (x y : K * V) : Prop := key_le x.1 y.1.
#[global] Instance entry_le_dec : RelDecision entry_le.
Proof. unfold entry_le. intros x y. apply _. Defined.
#[local] Instance entry_le_total : Total entry_le.
Proof. intros x y. apply (total key_le x.1 y.1). Qed.
#[local] Instance entry_le_trans : Transitive entry_le.
Proof. intros x y z. unfold entry_le. apply transitivity. Qed.

Definition btree_entries m : list (K * V) := merge_sort entry_le (map_to_list m).
Definition btree_keys m : list K := (btree_entries m).*1.
Definition btree_values m : list V := (btree_entries m).*2.

Lemma btree_entries_perm m : btree_entries m ≡ₚ map_to_list m.
Proof. apply merge_sort_Permutation. Qed.

Lemma elem_of_btree_entries m k v : (k, v) ∈ btree_entries m ↔ m !! k = Some v.
Proof. by rewrite btree_entries_perm, elem_of_map_to_list. Qed.

Lemma elem_of_btree_keys m k : k ∈ btree_keys m ↔ is_Some (m !! k).
Proof.
  unfold btree_keys. rewrite list_elem_of_fmap. split.
  - intros ([k' v]&->&Hin). apply elem_of_btree_entries in Hin. eauto.
  - intros [v Hv]. exists (k, v). by rewrite elem_of_btree_entries.
Qed.

Lemma elem_of_btree_values m v : v ∈ btree_values m ↔ ∃ k, m !! k = Some v.
Proof.
  unfold btree_values. rewrite list_elem_of_fmap. split.
  - intros ([k v']&->&Hin). apply elem_of_btree_entries in Hin. eauto.
  - intros [k Hv]. exists (k, v). by rewrite elem_of_btree_entries.
Qed.

Lemma NoDup_btree_keys m : NoDup (btree_keys m).
Proof. unfold btree_keys. rewrite btree_entries_perm. apply NoDup_fst_map_to_list. Qed.

(** Tables whose values carry their key. *)
Lemma btree_values_keyed m (f : V → K) :
  (∀ k v, m !! k = Some v → f v = k) → f <$> btree_values m = btree_keys m.
Proof.
  intros Hf. unfold btree_values, btree_keys. rewrite <-list_fmap_compose. apply list_fmap_ext.
  intros i [k v] Hi. apply list_elem_of_lookup_2, elem_of_btree_entries, Hf in Hi. done.
Qed.
Lemma NoDup_keyed_ids m (f : V → K) (P : V → Prop) `{!∀ v, Decision (P v)} :
  (∀ k v, m !! k = Some v → f v = k) → NoDup (f <$> filter P (btree_values m)).
Proof.
  intros Hf. eapply sublist_NoDup; [apply NoDup_btree_keys|]. rewrite <-(btree_values_keyed m f Hf).
  apply fmap_sublist, sublist_filter.
Qed.
Lemma elem_of_keyed_ids m (f : V → K) (P : V → Prop) `{!∀ v, Decision (P v)} k :
  (∀ k v, m !! k = Some v → f v = k) →
  k ∈ f <$> filter P (btree_values m) ↔ ∃ v, m !! k = Some v ∧ P v.
Proof.
  intros Hf. rewrite list_elem_of_fmap. split.
  - intros (v & -> & [HP [k' Hk]%elem_of_btree_values]%list_elem_of_filter). exists v. by rewrite (Hf k' v Hk).
  - intros (v & Hk & HP). exists v. rewrite (Hf k v Hk), list_elem_of_filter, elem_of_btree_values. naive_solver.
Qed.
Lemma btree_entries_sorted m : StronglySorted entry_le (btree_entries m).
Proof. apply StronglySorted_merge_sort; apply _. Qed.

Lemma btree_keys_sorted m : StronglySorted key_le (btree_keys m).
Proof.
  unfold btree_keys. pose proof (btree_entries_sorted m) as Hs.
  induction Hs as [|x l _ IH Hf]; simpl; constructor; [done|].
  rewrite Forall_fmap. eapply Forall_impl; [done|]. done.
Qed.

Lemma length_btree_entries m : length (btree_entries m) = size m.
Proof. rewrite btree_entries_perm. apply length_map_to_list. Qed.

Lemma btree_entries_nil m : btree_entries m = [] ↔ m = ∅.
Proof.
  rewrite <-map_to_list_empty_iff. split; intros Heq.
  - apply Permutation_nil_r. by rewrite <-Heq, btree_entries_perm.
  - unfold btree_entries. by rewrite Heq.
Qed.

(** [for (k, v) in m.iter_mut() { *v = ..; out.extend(..); }] *)
Definition btree_loop {C} (step : K → V → V * list C) m : gmap K V * list C :=
  foldl (λ acc kv, let r := step kv.1 kv.2 in (<[kv.1 := r.1]> acc.1, acc.2 ++ r.2))
    (m, []) (btree_entries m).

Lemma btree_loop_foldl {C} (step : K → V → V * list C) l m out :
  NoDup l.*1 → (∀ k v, (k, v) ∈ l → m !! k = Some v) →
  let r := foldl (λ acc kv, let r := step kv.1 kv.2 in
                   (<[kv.1 := r.1]> acc.1, acc.2 ++ r.2)) (m, out) l in
  (∀ k, r.1 !! k = if decide (k ∈ l.*1) then (λ v, (step k v).1) <$> m !! k else m !! k) ∧
  r.2 = out ++ (l ≫= λ kv, (step kv.1 kv.2).2).
Proof.
  revert m out. induction l as [|[k v] l IH]; intros m out Hnd Hl; simpl.
  { split; [done | by rewrite app_nil_r]. }
  apply NoDup_cons in Hnd as [Hk Hnd]. simpl in *.
  destruct (IH (<[k:=(step k v).1]> m) (out ++ (step k v).2) Hnd) as [IH1 IH2].
  { intros k' v' Hin. rewrite lookup_insert_ne; [apply Hl; by right|].
    intros ->. apply Hk, list_elem_of_fmap. by exists (k', v'). }
  split; [|by rewrite IH2, <-(assoc_L (++))].
  intros k'. rewrite IH1. destruct (decide (k = k')) as [->|Hne].
  - rewrite lookup_insert_eq, (Hl k' v) by left.
    destruct (decide (k' ∈ l.*1)); [done|]. case_decide as Hin; [done|].
    destruct Hin; left.
  - rewrite lookup_insert_ne by done. repeat case_decide; set_solver.
Qed.

Lemma btree_loop_lookup {C} (step : K → V → V * list C) m k :
  (btree_loop step m).1 !! k = (λ v, (step k v).1) <$> m !! k.
Proof.
  destruct (btree_loop_foldl step (btree_entries m) m []) as [H1 _].
  - apply NoDup_btree_keys.
  - intros; by apply elem_of_btree_entries.
  - unfold btree_loop. rewrite H1. case_decide as Hin; [done|].
    destruct (m !! k) eqn:E; [|done]. destruct Hin. apply elem_of_btree_keys. eauto.
Qed.

Lemma btree_loop_out {C} (step : K → V → V * list C) m :
  (btree_loop step m).2 = btree_entries m ≫= λ kv, (step kv.1 kv.2).2.
Proof.
  destruct (btree_loop_foldl step (btree_entries m) m []) as [_ H2].
  - apply NoDup_btree_keys.
  - intros; by apply elem_of_btree_entries.
  - apply H2.
Qed.

(** [m.values().filter(p).count()]. *)
Definition count_values (P : V → Prop) `{∀ v, Decision (P v)} m : Z :=
  Z.of_nat (length (filter P (btree_values m))).

Section count.
Context (P : V → Prop) `{∀ v, Decision (P v)}.

Lemma btree_values_perm m : btree_values m ≡ₚ (map_to_list m).*2.
Proof. unfold btree_values. by rewrite btree_entries_perm. Qed.

Lemma count_values_fresh m k v : m !! k = None →
  count_values P (<[k := v]> m) = count_values P m + (if decide (P v) then 1 else 0).
Proof.
  intros Hk. unfold count_values.
  assert (length (filter P (btree_values (<[k := v]> m)))
          = length (filter P (v :: btree_values m))) as ->.
  { apply Permutation_length, filter_Permutation. rewrite !btree_values_perm.
    by rewrite map_to_list_insert. }
  case_decide; [rewrite filter_cons_True by done|rewrite filter_cons_False by done]; simpl; lia.
Qed.

Lemma count_values_replace m k v0 v : m !! k = Some v0 →
  count_values P (<[k := v]> m) + (if decide (P v0) then 1 else 0) =
  count_values P m + (if decide (P v) then 1 else 0).
Proof.
  intros Hk. rewrite <-(insert_id m k v0 Hk) at 2. rewrite <-!(insert_delete_eq m).
  rewrite !count_values_fresh by apply lookup_delete_eq. lia.
Qed.

Lemma count_values_empty : count_values P ∅ = 0.
Proof. unfold count_values, btree_values. by rewrite (proj2 (btree_entries_nil ∅)) by done. Qed.

Lemma count_values_zero m : (∀ k v, m !! k = Some v → ¬ P v) → count_values P m = 0.
Proof.
  intros Hm. unfold count_values. rewrite filter_none; [done|].
  intros v [k Hk]%elem_of_btree_values. by apply (Hm k).
Qed.

Lemma count_values_nonneg m : 0 ≤ count_values P m.
Proof. unfold count_values. lia. Qed.

Lemma count_values_size m : count_values P m = Z.of_nat (size (filter (λ kv : K * V, P kv.2) m)).
Proof.
  induction m as [|k v m Hk IH] using map_ind.
  - rewrite count_values_empty, map_filter_empty. by rewrite map_size_empty.
  - rewrite count_values_fresh by done. case_decide as Hd.
    + rewrite map_filter_insert_True, map_size_insert_None by (done || (apply map_lookup_filter_None; auto)).
      lia.
    + rewrite map_filter_insert_not' by naive_solver. lia.
Qed.

(** Rewriting the values without making more of them satisfy [P]. *)
Lemma count_values_mono m m' (f : K → V → V) :
  (∀ k, m' !! k = f k <$> m !! k) → (∀ k v, m !! k = Some v → P (f k v) → P v) →
  count_values P m' ≤ count_values P m.
Proof.
  intros Hm HP. rewrite !count_values_size. apply inj_le.
  rewrite <-!(size_dom (D := gset K)). apply subseteq_size. intros k.
  rewrite !elem_of_dom. intros [v Hv%map_lookup_filter_Some]. simpl in Hv. destruct Hv as [Hv HPv].
  rewrite Hm in Hv. destruct (m !! k) as [v0|] eqn:E; simplify_eq/=.
  exists v0. apply map_lookup_filter_Some. split; [done|]. simpl. eauto.
Qed.
End count.

End btree.

#[export] Typeclasses Opaque entry_le.

(** [BTreeSet]: a [gset]; iteration is by ascending element. *)
Section btree_set.
Context {K : Type} `{Countable K, !BTreeKey K}.
Implicit Types s : gset K.

Definition btree_elements s : list K := merge_sort key_le (elements s).

Lemma elem_of_btree_elements s k : k ∈ btree_elements s ↔ k ∈ s.
Proof. unfold btree_elements. by rewrite merge_sort_Permutation, elem_of_elements. Qed.

Lemma NoDup_btree_elements s : NoDup (btree_elements s).
Proof. unfold btree_elements. rewrite merge_sort_Permutation. apply NoDup_elements. Qed.

Lemma btree_elements_sorted s : StronglySorted key_le (btree_elements s).
Proof. apply StronglySorted_merge_sort; apply _. Qed.

Lemma btree_elements_nil s : btree_elements s = [] ↔ s = ∅.
Proof.
  split.
  - intros Hs. apply set_eq. intros k. rewrite <-elem_of_btree_elements, Hs. set_solver.
  - intros ->. unfold btree_elements. by rewrite elements_empty.
Qed.
End btree_set.

(** ** Step relations *)

Lemma rtc_invariant {A} (R : relation A) (I : A → Prop) x y :
  (∀ a b, R a b → I a → I b) → rtc R x y → I x → I y.
Proof. intros HR. induction 1; eauto. Qed.

(** ** Reading from a stream

    The bytes a stream still delivers.  [read_exact] of [n] bytes: [None] is
    [UnexpectedEof]. *)
Definition stream_read_exact (n : Z) (input : list Z) : option (list Z * list Z) :=
  if decide (n ≤ Z.of_nat (length input))
  then Some (take (Z.to_nat n) input, drop (Z.to_nat n) input) else None.
Lemma stream_read_exact_inv n input bs rest :
  0 ≤ n → stream_read_exact n input = Some (bs, rest) → input = bs ++ rest ∧ Z.of_nat (length bs) = n.
Proof.
  intros Hn. unfold stream_read_exact. case_decide; [|done]. intros [= <- <-].
  rewrite take_drop, length_take. split; [done|lia].
Qed.
Lemma stream_read_exact_app n bs rest :
  Z.of_nat (length bs) = n → stream_read_exact n (bs ++ rest) = Some (bs, rest).
Proof.
  intros <-. unfold stream_read_exact. rewrite length_app, decide_True by lia.
  by rewrite Nat2Z.id, take_app_length, drop_app_length.
Qed.

Create HintDb sophia.
#[export] Hint Resolve u64_succ_ok u64_succ_ge : sophia.
#[export] Hint Extern 4 (u64_ok _) => word_lia : sophia.
#[export] Hint Extern 4 (u32_ok _) => word_lia : sophia.
#[export] Hint Extern 4 (i32_ok _) => word_lia : sophia.
#[export] Hint Rewrite @res_bind_ok @ok_or_ok : sophia.
