(* ===== verification/Ids.v ===== *)
(** * Identifiers ([sophia-protocol/src/ids.rs])

    The [simple_id!] newtypes are one record [Id] indexed by a phantom kind, so
    that a namespace ID is not an output ID; [SurfaceId], [XWindowId] and
    [AuthorityLocalId] are their own records.  [IdAllocator] is the monotone
    counter; [None] is its overflow panic. *)

From S2P Require Import Prelude.
Local Open Scope Z_scope.

Inductive IdKind : Type :=
| NamespaceKind | ClientAdmissionKind | OutputKind | SeatKind | DeviceKind
| TransactionKind | PortalTransferKind_ | WorkspaceKind | IconTokenKind
| BufferKind | FenceKind | WmActionKind.

Record Id (k : IdKind) : Type := from_raw { raw : Z }.
Arguments from_raw {k} raw.
Arguments raw {k} _.

Notation NamespaceId := (Id NamespaceKind).
Notation ClientAdmissionId := (Id ClientAdmissionKind).
Notation OutputId := (Id OutputKind).
Notation SeatId := (Id SeatKind).
Notation DeviceId := (Id DeviceKind).
Notation TransactionId := (Id TransactionKind).
Notation PortalTransferId := (Id PortalTransferKind_).
Notation WorkspaceId := (Id WorkspaceKind).
Notation IconTokenId := (Id IconTokenKind).
Notation BufferHandle := (Id BufferKind).
Notation FenceHandle := (Id FenceKind).
Notation WmActionId := (Id WmActionKind).

Definition INVALID {k} : Id k := from_raw 0.
Definition id_valid {k} (i : Id k) : Prop := raw i ≠ 0.
Definition id_ok {k} (i : Id k) : Prop := u64_ok (raw i).

#[export] Instance id_eq_dec k : EqDecision (Id k).
Proof. solve_decision. Defined.
#[export] Instance raw_inj k : Inj (=) (=) (@raw k).
Proof. by intros [x] [y] [= ->]. Qed.
#[export] Program Instance id_countable k : Countable (Id k) :=
  inj_countable' (@raw k) from_raw _.
Next Obligation. by intros k []. Qed.
#[export] Instance id_btree_key k : BTreeKey (Id k) := btree_key_inj raw.
#[export] Instance id_valid_dec k (i : Id k) : Decision (id_valid i).
Proof. unfold id_valid; apply _. Defined.

(** ** Surface, X window and authority-local IDs *)

Record SurfaceId : Type := surface_id { si_index : Z; si_generation : Z }.

Definition SURFACE_INVALID : SurfaceId := surface_id u32_MAX 0.
Definition surface_valid (s : SurfaceId) : Prop := si_index s ≠ u32_MAX ∧ si_generation s ≠ 0.
Definition surface_id_ok (s : SurfaceId) : Prop := u32_ok (si_index s) ∧ u32_ok (si_generation s).

#[export] Instance surface_id_eq_dec : EqDecision SurfaceId.
Proof. solve_decision. Defined.
Definition surface_id_pair (s : SurfaceId) : Z * Z := (si_index s, si_generation s).
#[export] Instance surface_id_pair_inj : Inj (=) (=) surface_id_pair.
Proof. by intros [] [] [= -> ->]. Qed.
#[export] Program Instance surface_id_countable : Countable SurfaceId :=
  inj_countable' surface_id_pair (λ p, surface_id p.1 p.2) _.
Next Obligation. by intros []. Qed.
#[export] Instance surface_id_btree_key : BTreeKey SurfaceId := btree_key_inj surface_id_pair.
#[export] Instance surface_valid_dec s : Decision (surface_valid s).
Proof. unfold surface_valid; apply _. Defined.

Record XWindowId : Type := xwindow_id { xw_xid : Z; xw_generation : Z }.
Definition XWINDOW_NONE : XWindowId := xwindow_id 0 0.
Definition xwindow_valid (w : XWindowId) : Prop := xw_xid w ≠ 0 ∧ xw_generation w ≠ 0.
#[export] Instance xwindow_eq_dec : EqDecision XWindowId.
Proof. solve_decision. Defined.

Record AuthorityLocalId : Type := authority_local_id { al_raw : Z; al_generation : Z }.
Definition AUTHORITY_LOCAL_NONE : AuthorityLocalId := authority_local_id 0 0.
Definition authority_local_valid (a : AuthorityLocalId) : Prop :=
  al_raw a ≠ 0 ∧ al_generation a ≠ 0.
Definition authority_local_from_window (w : XWindowId) : AuthorityLocalId :=
  authority_local_id (xw_xid w) (xw_generation w).
#[export] Instance authority_local_eq_dec : EqDecision AuthorityLocalId.
Proof. solve_decision. Defined.

(** ** The allocator *)

Record IdAllocator : Type := { next : Z }.

Definition allocator_new : IdAllocator := {| next := 1 |}.

(** [next_raw]; [None] is the [expect("Sophia ID counter overflow")] panic. *)
Definition next_raw (a : IdAllocator) : option (Z * IdAllocator) :=
  id ← Some (next a);
  next' ← checked_add u64_MAX (next a) 1;
  Some (id, {| next := next' |}).

Definition next_id {k} (a : IdAllocator) : option (Id k * IdAllocator) :=
  p ← next_raw a; Some (from_raw p.1, p.2).

(** The IDs [n] consecutive calls of [next_id] hand out. *)
Fixpoint alloc_many {k} (n : nat) (a : IdAllocator) : option (list (Id k) * IdAllocator) :=
  match n with
  | O => Some ([], a)
  | S n => p ← next_id a; q ← alloc_many n p.2; Some (p.1 :: q.1, q.2)
  end.

Lemma next_id_Some {k} a (i : Id k) a' :
  next_id a = Some (i, a') ↔ i = from_raw (next a) ∧ next a' = next a + 1 ∧ next a < u64_MAX.
Proof.
  unfold next_id, next_raw, checked_add. destruct a as [n], a' as [n']; simpl.
  case_decide; simpl; split.
  - intros [= <- <-]. auto with lia.
  - by intros (->&->&_).
  - done.
  - lia.
Qed.

Lemma next_id_None {k} a : next_id (k:=k) a = None ↔ u64_MAX ≤ next a.
Proof.
  unfold next_id, next_raw, checked_add. destruct a as [n]; simpl.
  case_decide; simpl; split; intros; try done; unfold u64_MAX in *; lia.
Qed.

Lemma alloc_many_seq {k} n a (ids : list (Id k)) a' :
  alloc_many n a = Some (ids, a') →
  ids = from_raw <$> seqZ (next a) (Z.of_nat n) ∧ next a' = next a + Z.of_nat n.
Proof.
  revert a ids a'. induction n as [|n IH]; intros a ids a' Ha.
  { simplify_eq/=. split; [done|lia]. }
  cbn [alloc_many] in Ha.
  destruct (next_id a) as [[i a1]|] eqn:E1; [|done].
  apply next_id_Some in E1 as (->&Hn&?). cbn [mbind option_bind fst snd] in Ha.
  destruct (alloc_many n a1) as [[js a2]|] eqn:E2; simplify_eq/=.
  apply IH in E2 as [-> ->]. rewrite (seqZ_cons (next a)), fmap_cons, Hn by lia. split; [|lia].
  do 3 f_equal; lia.
Qed.

Lemma alloc_many_total {k} n a :
  next a ≤ u64_MAX →
  is_Some (alloc_many (k:=k) n a) ↔ next a + Z.of_nat n ≤ u64_MAX.
Proof.
  revert a. induction n as [|n IH]; intros a Ha.
  { simpl. split; [lia|eauto]. }
  cbn [alloc_many]. destruct (next_id a) as [[i a1]|] eqn:E1.
  - apply next_id_Some in E1 as (->&Hn&?). cbn [mbind option_bind fst snd].
    specialize (IH a1 ltac:(lia)). rewrite Hn in IH.
    transitivity (is_Some (alloc_many (k:=k) n a1)); [|rewrite IH; lia].
    destruct (alloc_many n a1) as [[]|]; simpl; split; intros []; eauto; done.
  - apply next_id_None in E1. split; [intros []; done|lia].
Qed.

Lemma from_raw_seqZ_sorted {k} m (n : nat) :
  StronglySorted key_le (from_raw (k:=k) <$> seqZ m (Z.of_nat n)).
Proof.
  revert m. induction n as [|n IH]; intros m; [constructor|].
  rewrite seqZ_cons, fmap_cons by lia. constructor.
  - replace (Z.pred (Z.of_nat (S n))) with (Z.of_nat n) by lia. apply IH.
  - apply Forall_fmap, Forall_forall. intros x Hx. apply elem_of_seqZ in Hx. simpl. lia.
Qed.

(** ID allocation.  Any number of IDs drawn from a fresh allocator are valid,
    in ascending order and pairwise distinct, and the counter panics (rather
    than wrapping to an ID already handed out) once it would pass [u64::MAX]:
    exactly the runs of fewer than [u64::MAX] draws succeed. *)
Theorem alloc_unique {k} (n : nat) :
  match alloc_many (k:=k) n allocator_new with
  | Some (ids, a') =>
      NoDup ids ∧ Forall id_valid ids ∧ Forall id_ok ids ∧ StronglySorted key_le ids ∧
      length ids = n ∧ Z.of_nat n < u64_MAX
  | None => u64_MAX ≤ Z.of_nat n
  end.
Proof.
  pose proof (alloc_many_total (k:=k) n allocator_new) as Ht; simpl in Ht.
  destruct (alloc_many n allocator_new) as [[ids a']|] eqn:E.
  - assert (1 + Z.of_nat n ≤ u64_MAX) as Hb by (apply Ht; [done|eauto]).
    apply alloc_many_seq in E as [-> _]; simpl. split_and!; [| | | | |lia].
    + apply NoDup_fmap; [by intros ?? [= ->]|]. apply NoDup_seqZ.
    + apply Forall_fmap, Forall_forall. intros x Hx. apply elem_of_seqZ in Hx.
      unfold id_valid; simpl; lia.
    + apply Forall_fmap, Forall_forall. intros x Hx. apply elem_of_seqZ in Hx.
      unfold id_ok; simpl; word_lia.
    + apply from_raw_seqZ_sorted.
    + rewrite length_fmap, length_seqZ. lia.
  - destruct (decide (1 + Z.of_nat n ≤ u64_MAX)) as [Hle|?]; [|lia].
    apply Ht in Hle as [? ?]; done.
Qed.
