(* ===== verification/Table.v ===== *)
(** * The generational slot table ([sophia-protocol/src/table.rs])

    [SurfaceTable] hands out [(index, generation)] handles.  [slots] is the
    [Vec] of slots; [free] is the [free] vector written with its end first, so
    that [pop] and [push] work at the head.  [insert] is [None] where the code
    panics ([slots\[index\]] out of range, or more than [u32::MAX + 1] slots). *)

From S2P Require Import Prelude Ids.
Local Open Scope Z_scope.

Inductive TableError : Type := StaleId | InvalidId.

Record Slot (T : Type) : Type := mk_slot { slot_generation : Z; slot_value : option T }.
Arguments mk_slot {T} _ _.
Arguments slot_generation {T} _.
Arguments slot_value {T} _.

Record SurfaceTable (T : Type) : Type := mk_table { slots : list (Slot T); free : list Z }.
Arguments mk_table {T} _ _.
Arguments slots {T} _.
Arguments free {T} _.

Section table.
Context {T : Type}.
Implicit Types (t : SurfaceTable T) (id : SurfaceId) (v : T).

Definition table_new : SurfaceTable T := mk_table [] [].

(** [slot.generation.wrapping_add(1).max(1)] *)
Definition next_generation (g : Z) : Z := Z.max (wrapping_add u32_MAX g 1) 1.

Definition table_insert (v : T) t : option (SurfaceId * SurfaceTable T) :=
  match free t with
  | index :: free' =>
      slot ← slots t !! Z.to_nat index;
      let generation := next_generation (slot_generation slot) in
      Some (surface_id index generation,
            mk_table (<[Z.to_nat index := mk_slot generation (Some v)]> (slots t)) free')
  | [] =>
      if decide (Z.of_nat (length (slots t)) ≤ u32_MAX) then
        Some (surface_id (Z.of_nat (length (slots t))) 1,
              mk_table (slots t ++ [mk_slot 1 (Some v)]) [])
      else None
  end.

(** [slot] and [slot_mut]: the checked access both lookups go through. *)
Definition table_slot t id : result (Slot T) TableError :=
  ensure! surface_valid id else InvalidId in
  let? slot := ok_or (slots t !! Z.to_nat (si_index id)) InvalidId in
  ensure! slot_generation slot = si_generation id else StaleId in
  Ok slot.

Definition table_get t id : option T := slot ← res_ok (table_slot t id); slot_value slot.

(** [get_mut], then writing [f] of the value through the reference. *)
Definition table_update (f : T → T) t id : SurfaceTable T :=
  match table_slot t id with
  | Ok slot =>
      mk_table (<[Z.to_nat (si_index id) := mk_slot (slot_generation slot) (f <$> slot_value slot)]>
        (slots t)) (free t)
  | Err _ => t
  end.

Definition table_remove t id : result (T * SurfaceTable T) TableError :=
  let? slot := table_slot t id in
  let? value := ok_or (slot_value slot) StaleId in
  Ok (value, mk_table (<[Z.to_nat (si_index id) := mk_slot (slot_generation slot) None]> (slots t))
               (si_index id :: free t)).

(** ** The invariant: the free list names exactly the empty slots. *)
Record table_ok t : Prop := {
  ok_bound : Z.of_nat (length (slots t)) ≤ u32_MAX + 1;
  ok_nodup : NoDup (free t);
  ok_free : ∀ i, i ∈ free t → 0 ≤ i ∧ ∃ s, slots t !! Z.to_nat i = Some s ∧ slot_value s = None;
  ok_live : ∀ i s, slots t !! i = Some s → slot_value s = None → Z.of_nat i ∈ free t;
  ok_generation : ∀ i s, slots t !! i = Some s → 1 ≤ slot_generation s ≤ u32_MAX;
}.

Lemma next_generation_range g : 1 ≤ g ≤ u32_MAX →
  1 ≤ next_generation g ≤ u32_MAX ∧ next_generation g ≠ g ∧
  (g < u32_MAX → next_generation g = g + 1).
Proof.
  intros Hg. unfold next_generation, wrapping_add.
  destruct (decide (g = u32_MAX)) as [->|].
  - by vm_compute.
  - rewrite Z.mod_small by word_lia. word_lia.
Qed.

Lemma table_slot_ok t id s :
  table_slot t id = Ok s ↔
    surface_valid id ∧ slots t !! Z.to_nat (si_index id) = Some s ∧
    slot_generation s = si_generation id.
Proof.
  unfold table_slot. case_decide; [|naive_solver].
  destruct (slots t !! _); simpl; [|naive_solver]. case_decide; naive_solver.
Qed.

Lemma table_get_Some t id v :
  table_get t id = Some v ↔
    surface_valid id ∧ slots t !! Z.to_nat (si_index id) = Some (mk_slot (si_generation id) (Some v)).
Proof.
  unfold table_get. destruct (table_slot t id) as [[g o]|] eqn:E; simpl.
  - apply table_slot_ok in E as (?&Hs&Hg); simpl in *; subst g. rewrite Hs. naive_solver.
  - split; [done|]. intros [Hv Hs].
    assert (table_slot t id = Ok (mk_slot (si_generation id) (Some v))); [|congruence].
    by apply table_slot_ok.
Qed.

Lemma table_new_ok : table_ok table_new.
Proof. split; simpl; try set_solver; [word_lia | constructor]. Qed.

(** Both branches of [insert] in one shape: slot [i] (empty or one past the
    end) becomes the live slot of the handle. *)
Lemma table_insert_cases v t id t' :
  table_ok t → table_insert v t = Some (id, t') →
  ∃ i g, id = surface_id (Z.of_nat i) g ∧ 1 ≤ g ≤ u32_MAX ∧ Z.of_nat i ≤ u32_MAX ∧
    slots t' !! i = Some (mk_slot g (Some v)) ∧
    (∀ j, i ≠ j → slots t' !! j = slots t !! j) ∧
    match slots t !! i with
    | Some s => slot_value s = None ∧ g = next_generation (slot_generation s) ∧
                free t = Z.of_nat i :: free t' ∧ length (slots t') = length (slots t)
    | None => i = length (slots t) ∧ g = 1 ∧ free t = [] ∧ free t' = [] ∧
              length (slots t') = S (length (slots t))
    end.
Proof.
  intros Hok. unfold table_insert. destruct (free t) as [|ix fr] eqn:Hf.
  - case_decide; [|done]. intros [= <- <-]. exists (length (slots t)), 1; simpl.
    rewrite (lookup_ge_None_2 (slots t) (length (slots t))) by lia.
    split_and!; try done; try word_lia.
    + by apply list_lookup_middle.
    + intros j Hj. destruct (decide (j < length (slots t))%nat).
      * by rewrite lookup_app_l.
      * rewrite (lookup_ge_None_2 (slots t)) by lia.
        apply lookup_ge_None_2. rewrite length_app; simpl; lia.
    + rewrite length_app; simpl; lia.
  - destruct (ok_free t Hok ix) as (H0&s&Hs&Hv); [rewrite Hf; left|].
    rewrite Hs; simpl. intros [= <- <-]. exists (Z.to_nat ix), (next_generation (slot_generation s)).
    apply lookup_lt_Some in Hs as Hlt. pose proof (ok_bound t Hok).
    destruct (next_generation_range (slot_generation s)) as (?&?&?); [by eapply ok_generation|].
    rewrite Hs; simpl. rewrite Z2Nat.id by done. split_and!; try done; try lia.
    + by apply list_lookup_insert_eq.
    + intros. by apply list_lookup_insert_ne.
    + apply length_insert.
Qed.

Lemma table_insert_ok v t id t' :
  table_ok t → table_insert v t = Some (id, t') → table_ok t'.
Proof.
  intros Hok Hins.
  destruct (table_insert_cases _ _ _ _ Hok Hins) as (i&g&->&Hg&Hi&Hnew&Hold&Hcase).
  destruct Hok as [Hb Hn Hfr Hl Hge]. destruct (slots t !! i) as [s|] eqn:Hs.
  - destruct Hcase as (Hv&->&Hf&Hlen). rewrite Hf in Hn, Hfr, Hl.
    apply NoDup_cons in Hn as [Hni Hn]. split; rewrite ?Hlen; try done.
    + intros j Hj. destruct (Hfr j) as (?&s'&?&?); [by right|]. split; [done|].
      exists s'. rewrite Hold; [done|]. intros ->. by rewrite Z2Nat.id in Hni.
    + intros j s' Hj Hv'. destruct (decide (i = j)) as [<-|Hne]; [naive_solver|].
      rewrite Hold in Hj by done. specialize (Hl j s' Hj Hv').
      apply elem_of_cons in Hl as [?|?]; [lia|done].
    + intros j s' Hj. destruct (decide (i = j)) as [<-|Hne]; [by simplify_eq|].
      rewrite Hold in Hj by done. eauto.
  - destruct Hcase as (->&->&Hf&Hf'&Hlen). split; rewrite ?Hf', ?Hlen; try lia.
    + constructor.
    + set_solver.
    + intros j s' Hj Hv'. destruct (decide (length (slots t) = j)) as [<-|Hne]; [naive_solver|].
      rewrite Hold in Hj by done. rewrite <-Hf. eauto.
    + intros j s' Hj. destruct (decide (length (slots t) = j)) as [<-|Hne]; [by simplify_eq|].
      rewrite Hold in Hj by done. eauto.
Qed.

Lemma table_insert_get v t id t' id' :
  table_ok t → table_insert v t = Some (id, t') → surface_id_ok id' →
  table_get t' id' =
    if decide (id' = id) then if decide (surface_valid id) then Some v else None
    else table_get t id'.
Proof.
  intros Hok Hins Hid'. apply option_eq. intros w.
  destruct (table_insert_cases _ _ _ _ Hok Hins) as (i&g&->&Hg&Hi&Hnew&Hold&Hcase).
  destruct id' as [i' g']. destruct Hid' as [Hi' Hg']; simpl in *.
  rewrite table_get_Some; simpl. destruct (decide (Z.to_nat i' = i)) as [<-|Hne].
  - rewrite Hnew. rewrite Z2Nat.id by word_lia. destruct (decide (g' = g)) as [->|].
    + rewrite decide_True by done. case_decide; naive_solver.
    + rewrite decide_False by congruence. rewrite table_get_Some; simpl.
      destruct (slots t !! Z.to_nat i') as [s|]; naive_solver.
  - rewrite Hold by done. rewrite decide_False; [by rewrite table_get_Some|].
    intros [= -> ->]. lia.
Qed.

Lemma table_insert_None v t :
  table_ok t → table_insert v t = None →
  free t = [] ∧ Z.of_nat (length (slots t)) = u32_MAX + 1.
Proof.
  intros Hok. unfold table_insert. destruct (free t) as [|ix fr] eqn:Hf.
  - case_decide; [done|]. pose proof (ok_bound t Hok). intros; split; [done|lia].
  - destruct (ok_free t Hok ix) as (H0&s&Hs&Hv); [rewrite Hf; left|]. by rewrite Hs.
Qed.

Lemma table_remove_Ok t id v t' :
  table_remove t id = Ok (v, t') ↔
    table_get t id = Some v ∧
    t' = mk_table (<[Z.to_nat (si_index id) := mk_slot (si_generation id) None]> (slots t))
           (si_index id :: free t).
Proof.
  unfold table_remove, table_get. destruct (table_slot t id) as [s|] eqn:E; simpl; [|naive_solver].
  apply table_slot_ok in E as (?&?&<-). destruct (slot_value s); simpl; naive_solver.
Qed.

Lemma table_remove_ok t id v t' :
  table_ok t → surface_id_ok id → table_remove t id = Ok (v, t') → table_ok t'.
Proof.
  intros [Hb Hn Hfr Hl Hge] [Hid _] Hrm.
  apply table_remove_Ok in Hrm as [Hget ->]. apply table_get_Some in Hget as [_ Hs].
  apply lookup_lt_Some in Hs as Hlt.
  assert (Hi : Z.of_nat (Z.to_nat (si_index id)) = si_index id) by word_lia.
  split; simpl; rewrite ?length_insert; try done.
  - constructor; [|done]. intros (?&s&Hs'&Hv)%Hfr. naive_solver.
  - intros j [->|Hj]%elem_of_cons.
    + split; [word_lia|]. eexists; split; [by apply list_lookup_insert_eq|done].
    + destruct (Hfr j Hj) as (?&s&Hs'&?). split; [done|]. exists s. split; [|done].
      rewrite list_lookup_insert_ne; [done|]. intros Heq. rewrite Heq in Hs. naive_solver.
  - intros j s Hj Hv. rewrite elem_of_cons.
    destruct (decide (Z.to_nat (si_index id) = j)) as [<-|]; [left; lia|right].
    rewrite list_lookup_insert_ne in Hj by done. eauto.
  - intros j s Hj. destruct (decide (Z.to_nat (si_index id) = j)) as [<-|].
    + rewrite list_lookup_insert_eq in Hj by done. simplify_eq/=. apply (Hge _ _ Hs).
    + rewrite list_lookup_insert_ne in Hj by done. eauto.
Qed.

Lemma table_remove_get t id v t' id' :
  surface_id_ok id → table_remove t id = Ok (v, t') → surface_id_ok id' →
  table_get t' id' = if decide (id' = id) then None else table_get t id'.
Proof.
  intros [Hid _] Hrm [Hid' _].
  apply table_remove_Ok in Hrm as [Hget ->]. apply table_get_Some in Hget as [_ Hs].
  apply lookup_lt_Some in Hs as Hlt. apply option_eq. intros w.
  destruct id as [i g], id' as [i' g']; simpl in *. rewrite table_get_Some; simpl.
  destruct (decide (i = i')) as [<-|Hne].
  - rewrite list_lookup_insert_eq by done. case_decide as Heq; [naive_solver|].
    rewrite table_get_Some; simpl. rewrite Hs. naive_solver.
  - rewrite list_lookup_insert_ne by word_lia. rewrite decide_False by congruence.
    by rewrite table_get_Some.
Qed.

(** ** Runs of the table against a map

[table_run issued m t]: [t] is reached from the empty table by operations
that issued the handles [issued], while the same operations on a map keyed
by handle lead to [m]. *)
Inductive table_run : list SurfaceId → gmap SurfaceId T → SurfaceTable T → Prop :=
| run_new : table_run [] ∅ table_new
| run_insert issued m t v id t' :
    table_run issued m t → table_insert v t = Some (id, t') →
    table_run (id :: issued) (<[id := v]> m) t'
| run_update issued m t f id :
    table_run issued m t → surface_id_ok id →
    table_run issued (alter f id m) (table_update f t id)
| run_remove issued m t id v t' :
    table_run issued m t → surface_id_ok id → table_remove t id = Ok (v, t') →
    table_run issued (delete id m) t'.

Definition run_inv (issued : list SurfaceId) (m : gmap SurfaceId T) t : Prop :=
  (length (slots t) ≤ length issued)%nat ∧
  (∀ i s, slots t !! i = Some s → slot_generation s ≤ Z.of_nat (length issued)) ∧
  (∀ id, id ∈ issued → surface_id_ok id ∧ ∃ s, slots t !! Z.to_nat (si_index id) = Some s ∧
     si_generation id ≤ slot_generation s) ∧
  (∀ id, surface_id_ok id → table_get t id = m !! id).

Lemma table_update_ok f t id :
  table_ok t → table_ok (table_update f t id).
Proof.
  intros Hok. unfold table_update. destruct (table_slot t id) as [s|] eqn:E; [|done].
  apply table_slot_ok in E as (_&Hs&Hg). apply lookup_lt_Some in Hs as Hlt.
  destruct Hok as [Hb Hn Hfr Hl Hge]. split; simpl; rewrite ?length_insert; try done.
  - intros j Hj. destruct (Hfr j Hj) as (?&s'&Hs'&Hv). split; [done|].
    destruct (decide (Z.to_nat (si_index id) = Z.to_nat j)) as [Heq|].
    + rewrite Heq, list_lookup_insert_eq by (rewrite <-Heq; done).
      rewrite Heq in Hs. simplify_eq. eexists; split; [done|]. simpl. by rewrite Hv.
    + rewrite list_lookup_insert_ne by done. eauto.
  - intros j s' Hj Hv. destruct (decide (Z.to_nat (si_index id) = j)) as [<-|].
    + rewrite list_lookup_insert_eq in Hj by done. simplify_eq/=.
      apply fmap_None in Hv. eauto.
    + rewrite list_lookup_insert_ne in Hj by done. eauto.
  - intros j s' Hj. destruct (decide (Z.to_nat (si_index id) = j)) as [<-|].
    + rewrite list_lookup_insert_eq in Hj by done. simplify_eq/=. eauto.
    + rewrite list_lookup_insert_ne in Hj by done. eauto.
Qed.

(** Writing through [get_mut] changes no slot's generation. *)
Lemma table_update_generation f t id i s' :
  slots (table_update f t id) !! i = Some s' →
  ∃ s, slots t !! i = Some s ∧ slot_generation s = slot_generation s'.
Proof.
  unfold table_update. destruct (table_slot t id) as [s|] eqn:E; [|eauto]; simpl.
  apply table_slot_ok in E as (_&Hs&Hg). apply lookup_lt_Some in Hs as Hlt.
  destruct (decide (Z.to_nat (si_index id) = i)) as [<-|].
  - rewrite list_lookup_insert_eq by done. intros [= <-]. eauto.
  - rewrite list_lookup_insert_ne by done. eauto.
Qed.

Lemma length_table_update f t id : length (slots (table_update f t id)) = length (slots t).
Proof. unfold table_update. destruct (table_slot t id); simpl; [apply length_insert|done]. Qed.

Lemma table_update_lookup f t id i s :
  slots t !! i = Some s →
  ∃ s', slots (table_update f t id) !! i = Some s' ∧ slot_generation s' = slot_generation s.
Proof.
  intros Hs. assert (i < length (slots (table_update f t id)))%nat as Hlt.
  { rewrite length_table_update. by eapply lookup_lt_Some. }
  apply lookup_lt_is_Some in Hlt as [s' Hs']. exists s'. split; [done|].
  apply table_update_generation in Hs' as (?&?&?). by simplify_eq.
Qed.

Lemma table_update_get f t id id' :
  surface_id_ok id → surface_id_ok id' →
  table_get (table_update f t id) id' =
    if decide (id' = id) then f <$> table_get t id else table_get t id'.
Proof.
  intros [Hid _] [Hid' _]. apply option_eq. intros w. rewrite table_get_Some.
  unfold table_update. destruct (table_slot t id) as [s|] eqn:E.
  - apply table_slot_ok in E as (Hv&Hs&Hg). apply lookup_lt_Some in Hs as Hlt. simpl.
    destruct id as [i g], id' as [i' g']; simpl in *. destruct (decide (i = i')) as [<-|].
    + rewrite list_lookup_insert_eq by done. case_decide as Heq.
      * simplify_eq. rewrite fmap_Some. setoid_rewrite table_get_Some; simpl. rewrite Hs.
        destruct s as [g o]; simpl in *. destruct o; naive_solver.
      * rewrite table_get_Some; simpl. rewrite Hs. naive_solver.
    + rewrite list_lookup_insert_ne by word_lia. rewrite decide_False by congruence.
      by rewrite table_get_Some.
  - rewrite <-table_get_Some. case_decide as Heq; [subst id'|done].
    unfold table_get. rewrite E. done.
Qed.

Lemma table_run_inv issued m t :
  table_run issued m t → Z.of_nat (length issued) ≤ u32_MAX →
  table_ok t ∧ run_inv issued m t ∧ NoDup issued.
Proof.
  induction 1 as [|issued m t v id t' _ IH Hins|issued m t f id _ IH Hid
                 |issued m t id v t' _ IH Hid Hrm]; intros Hlen.
  - split; [apply table_new_ok|]. split; [|constructor].
    split_and!; try (simpl; done); [set_solver|].
    intros id _. rewrite lookup_empty. unfold table_get. simpl.
    unfold table_slot. by case_decide.
  - simpl in Hlen. destruct IH as (Hok&(Hn&Hg&Hi&Hm)&Hnd); [lia|].
    split; [by eapply table_insert_ok|].
    destruct (table_insert_cases _ _ _ _ Hok Hins) as (i&g&Eid&Hgr&Hir&Hnew&Hold&Hcase).
    assert (Z.of_nat i < u32_MAX) as Hiu.
    { destruct (slots t !! i) as [s|] eqn:Hs; [apply lookup_lt_Some in Hs|]; lia. }
    assert (g ≤ Z.of_nat (S (length issued)) ∧
      (∀ s, slots t !! i = Some s → slot_generation s < g)) as [Hgl Hfresh].
    { destruct (slots t !! i) as [s|] eqn:Hs; [|naive_solver lia].
      destruct Hcase as (_&->&_). specialize (Hg _ _ Hs).
      destruct (next_generation_range (slot_generation s)) as (_&_&Hnext);
        [by eapply ok_generation|]. rewrite Hnext by lia. split; [lia|]. intros ? [= <-]. lia. }
    split; [split_and!|].
    + simpl. destruct (slots t !! i); destruct_and!; lia.
    + simpl. intros j s Hs. destruct (decide (i = j)) as [<-|].
      * rewrite Hnew in Hs. by simplify_eq/=.
      * rewrite Hold in Hs by done. specialize (Hg _ _ Hs). lia.
    + intros id' [->|Hin]%elem_of_cons.
      * subst id. split; [split; simpl; word_lia|]. simpl. rewrite Nat2Z.id.
        eexists; split; [done|]. simpl; lia.
      * destruct (Hi id' Hin) as (?&s&Hs&Hle). split; [done|].
        destruct (decide (i = Z.to_nat (si_index id'))) as [->|].
        -- specialize (Hfresh _ Hs). eexists; split; [done|]. simpl; lia.
        -- rewrite Hold by done. eauto.
    + intros id' Hid'. rewrite (table_insert_get _ _ _ _ id' Hok Hins Hid').
      destruct (decide (id' = id)) as [->|]; [|rewrite lookup_insert_ne by done; auto].
      rewrite decide_True by (subst id; unfold surface_valid; simpl; word_lia).
      by rewrite lookup_insert_eq.
    + apply NoDup_cons. split; [|done]. intros Hin. destruct (Hi id Hin) as (_&s&Hs&Hle).
      subst id; simpl in *. rewrite Nat2Z.id in Hs. specialize (Hfresh _ Hs). lia.
  - destruct (IH Hlen) as (Hok&(Hn&Hg&Hi&Hm)&Hnd). split; [by apply table_update_ok|].
    split; [split_and!|done].
    + by rewrite length_table_update.
    + intros i s (s'&?&<-)%table_update_generation. eauto.
    + intros id' Hin. destruct (Hi id' Hin) as (?&s&Hs&Hle). split; [done|].
      destruct (table_update_lookup f t id _ _ Hs) as (s'&?&Hgen). rewrite <-Hgen in Hle. eauto.
    + intros id' Hid'. rewrite table_update_get by done. case_decide.
      * subst. rewrite lookup_alter_eq, Hm; done.
      * rewrite lookup_alter_ne by done. auto.
  - destruct (IH Hlen) as (Hok&(Hn&Hg&Hi&Hm)&Hnd). split; [by eapply table_remove_ok|].
    pose proof Hrm as [Hget ->]%table_remove_Ok. apply table_get_Some in Hget as [_ Hs].
    apply lookup_lt_Some in Hs as Hlt. split; [split_and!|done]; simpl.
    + by rewrite length_insert.
    + intros i s Hsi. destruct (decide (Z.to_nat (si_index id) = i)) as [<-|].
      * rewrite list_lookup_insert_eq in Hsi by done. simplify_eq/=. apply (Hg _ _ Hs).
      * rewrite list_lookup_insert_ne in Hsi by done. eauto.
    + intros id' Hin. destruct (Hi id' Hin) as (?&s&Hs'&Hle). split; [done|].
      destruct (decide (Z.to_nat (si_index id) = Z.to_nat (si_index id'))) as [Heq|].
      * rewrite Heq, list_lookup_insert_eq by (by rewrite <-Heq). rewrite Heq in Hs.
        simplify_eq. eauto.
      * rewrite list_lookup_insert_ne by done. eauto.
    + intros id' Hid'. rewrite (table_remove_get _ _ _ _ id' Hid Hrm Hid'). case_decide.
      * subst. by rewrite lookup_delete_eq.
      * rewrite lookup_delete_ne by done. auto.
Qed.

(** C36: the surface table refines a map keyed by handle.  After any run of
    inserts, in-place updates and removals that issued at most [u32::MAX]
    handles, [get] answers exactly what the map of the same operations holds,
    every issued handle is distinct from every other, and a handle that was
    removed resolves to nothing.  The bound is needed: the generations of a slot
    wrap around, and then it hands out a removed handle again ([handle_reissued]). *)
Theorem table_refines_map issued m t :
  table_run issued m t → Z.of_nat (length issued) ≤ u32_MAX →
  (∀ id, surface_id_ok id → table_get t id = m !! id) ∧
  NoDup issued ∧
  (∀ id, id ∈ issued → m !! id = None → table_get t id = None).
Proof.
  intros Hrun Hlen. destruct (table_run_inv _ _ _ Hrun Hlen) as (_&(_&_&Hi&Hm)&Hnd).
  split_and!; [done|done|]. intros id Hin <-. apply Hm. by apply Hi.
Qed.

(** A slot taken and given back [n] times, up to its last generation. *)
Lemma slot_reused v n : (0 < n)%nat → Z.of_nat n ≤ u32_MAX →
  ∃ issued, length issued = n ∧ surface_id 0 1 ∈ issued ∧
    table_run issued ∅ (mk_table [mk_slot (Z.of_nat n) None] [0]).
Proof.
  intros Hn. induction n as [|[|n] IH]; intros Hmax; [lia|..].
  - exists [surface_id 0 1]. split; [done|]. split; [left|].
    rewrite <-(delete_singleton_eq (surface_id 0 1) v).
    eapply (run_remove _ _ (mk_table [mk_slot 1 (Some v)] []) _ v); [|split; simpl; word_lia|reflexivity].
    rewrite <-insert_empty. by eapply (run_insert _ _ table_new); [constructor|].
  - destruct IH as (issued & Hlen & Hin & Hrun); [lia..|]. set (g := Z.of_nat (S (S n))) in *.
    assert (next_generation (Z.of_nat (S n)) = g) as Hg.
    { destruct (next_generation_range (Z.of_nat (S n))) as (_ & _ & ->); lia. }
    exists (surface_id 0 g :: issued). split; [by f_equal/=|]. split; [by right|].
    rewrite <-(delete_singleton_eq (surface_id 0 g) v).
    eapply (run_remove _ _ (mk_table [mk_slot g (Some v)] []) _ v); [|split; simpl; word_lia|].
    + rewrite <-insert_empty. eapply run_insert; [exact Hrun|]. unfold table_insert. simpl. by rewrite Hg.
    + apply table_remove_Ok. split; [|done]. apply table_get_Some. split; [unfold surface_valid; simpl; word_lia|done].
Qed.
(** After [u32::MAX] handles of one slot the next one is the first again. *)
Lemma handle_reissued v : ∃ issued t t',
  table_run issued ∅ t ∧ surface_id 0 1 ∈ issued ∧ table_get t (surface_id 0 1) = None ∧
  table_insert v t = Some (surface_id 0 1, t') ∧ table_get t' (surface_id 0 1) = Some v.
Proof.
  destruct (slot_reused v (Z.to_nat u32_MAX)) as (issued & Hlen & Hin & Hrun); [word_lia..|].
  rewrite Z2Nat.id in Hrun by word_lia. exists issued. do 2 eexists. split; [exact Hrun|]. split; [done|].
  split; [by vm_compute|]. unfold table_insert. simpl. assert (next_generation u32_MAX = 1) as -> by (by vm_compute).
  split; [done|]. by vm_compute.
Qed.
End table.

(** A table that inserted, removed and inserted again: the old handle is dead. *)
Lemma table_refines_map_witness :
  let t := mk_table [mk_slot 2 (Some true)] [] in
  table_run [surface_id 0 2; surface_id 0 1] (<[surface_id 0 2 := true]> (delete (surface_id 0 1)
    (<[surface_id 0 1 := false]> ∅))) t ∧
  table_get t (surface_id 0 1) = None ∧ table_get t (surface_id 0 2) = Some true.
Proof.
  assert (Hrun : table_run [surface_id 0 2; surface_id 0 1] (<[surface_id 0 2 := true]>
    (delete (surface_id 0 1) (<[surface_id 0 1 := false]> ∅)))
    (mk_table [mk_slot 2 (Some true)] [])).
  { eapply (run_insert _ _ (mk_table [mk_slot 1 None] [0])); [|reflexivity].
    eapply (run_remove _ _ (mk_table [mk_slot 1 (Some false)] []) _ false); [| |reflexivity].
    - by eapply (run_insert _ _ table_new); [constructor|].
    - split; simpl; word_lia. }
  destruct (table_refines_map _ _ _ Hrun) as (Hm&_&_); [vm_compute; congruence|].
  split; [done|]. split; [rewrite Hm by (split; simpl; word_lia); vm_compute; reflexivity|].
  rewrite Hm by (split; simpl; word_lia); vm_compute; reflexivity.
Defined.
