(* ===== verification/Geometry.v ===== *)
(** * Geometry, cursor images and the output topology
    ([sophia-protocol/src/{geometry,cursor,packets/output}.rs])

    [i32] fields are integers; [f32] and [f64] fields hold their IEEE-754 bit
    pattern.  [validate] is the whole topology check, loop included. *)

From S2P Require Import Prelude Ids.
Local Open Scope Z_scope.

(** [Point] carries two [f64]s. *)
Record Point : Type := mk_point { pt_x : Z; pt_y : Z }.
Record Size : Type := mk_size { sz_width : Z; sz_height : Z }.
Record Rect : Type := mk_rect { rx : Z; ry : Z; rwidth : Z; rheight : Z }.

#[export] Instance Point_eq_dec : EqDecision Point.
Proof. solve_decision. Defined.
#[export] Instance Size_eq_dec : EqDecision Size.
Proof. solve_decision. Defined.
#[export] Instance Rect_eq_dec : EqDecision Rect.
Proof. solve_decision. Defined.

Definition rect_is_empty (r : Rect) : Prop := rwidth r ≤ 0 ∨ rheight r ≤ 0.
#[export] Instance rect_is_empty_dec r : Decision (rect_is_empty r).
Proof. unfold rect_is_empty; apply _. Defined.

(** The pixels of a rectangle, for statements about coverage. *)
Definition in_rect (x y : Z) (r : Rect) : Prop :=
  rx r ≤ x < rx r + rwidth r ∧ ry r ≤ y < ry r + rheight r.
#[export] Instance in_rect_dec x y r : Decision (in_rect x y r).
Proof. unfold in_rect; apply _. Defined.

Record Region : Type := mk_region { rects : list Rect }.
#[export] Instance Region_eq_dec : EqDecision Region.
Proof. solve_decision. Defined.

Definition region_empty : Region := mk_region [].
Definition region_single (r : Rect) : Region :=
  if decide (rect_is_empty r) then region_empty else mk_region [r].
Definition region_is_empty (r : Region) : Prop := rects r = [].
Definition region_extend (r other : Region) : Region :=
  mk_region (rects r ++ filter (λ q, ¬ rect_is_empty q) (rects other)).
Definition region_push (r : Region) (q : Rect) : Region :=
  if decide (rect_is_empty q) then r else mk_region (rects r ++ [q]).
#[export] Instance region_is_empty_dec r : Decision (region_is_empty r).
Proof. unfold region_is_empty; apply _. Defined.

Definition in_region (x y : Z) (r : Region) : Prop := Exists (in_rect x y) (rects r).
(** No rectangle of the region is degenerate. *)
Definition region_ok (r : Region) : Prop := Forall (λ q, ¬ rect_is_empty q) (rects r).

(** A row-major 3x3 [f32] matrix; [IDENTITY] uses the pattern of [1.0f32]. *)
Definition f32_one : Z := 1065353216.
Record Transform : Type := mk_transform { matrix : list Z }.
Definition IDENTITY : Transform :=
  mk_transform [f32_one; 0; 0; 0; f32_one; 0; 0; 0; f32_one].
#[export] Instance Transform_eq_dec : EqDecision Transform.
Proof. solve_decision. Defined.

Lemma in_rect_not_empty x y r : in_rect x y r → ¬ rect_is_empty r.
Proof. unfold in_rect, rect_is_empty. lia. Qed.

Lemma in_region_extend x y r other :
  in_region x y (region_extend r other) ↔ in_region x y r ∨ in_region x y other.
Proof.
  unfold in_region, region_extend; simpl. rewrite Exists_app, !Exists_exists.
  setoid_rewrite list_elem_of_filter.
  pose proof (in_rect_not_empty x y). naive_solver.
Qed.

Lemma in_region_push x y r q :
  in_region x y (region_push r q) ↔ in_region x y r ∨ in_rect x y q.
Proof.
  unfold in_region, region_push. case_decide as He; simpl.
  - pose proof (in_rect_not_empty x y q). naive_solver.
  - rewrite Exists_app, Exists_cons, Exists_nil. tauto.
Qed.

Lemma in_region_single x y q : in_region x y (region_single q) ↔ in_rect x y q.
Proof.
  unfold in_region, region_single. case_decide as He; simpl.
  - rewrite Exists_nil. pose proof (in_rect_not_empty x y q). naive_solver.
  - rewrite Exists_cons, Exists_nil. tauto.
Qed.

Lemma region_extend_ok r other : region_ok r → region_ok (region_extend r other).
Proof.
  intros. apply Forall_app; split; [done|]. apply Forall_forall.
  intros q Hq. by apply list_elem_of_filter in Hq as [? _].
Qed.

(** ** Cursor images *)

Definition CURSOR_IMAGE_MAX_EDGE : Z := 256.

Record CursorSnapshot : Type := mk_cursor {
  cur_visible : bool; cur_position : Point; cur_hotspot : Point;
  cur_image_size : Size; cur_argb8888 : list Z; cur_generation : Z;
}.

Definition usize_try_from (z : Z) : option Z := if decide (0 ≤ z) then Some z else None.

Definition image_is_valid (c : CursorSnapshot) : Prop :=
  let w := sz_width (cur_image_size c) in let h := sz_height (cur_image_size c) in
  0 < w ∧ 0 < h ∧ w ≤ CURSOR_IMAGE_MAX_EDGE ∧ h ≤ CURSOR_IMAGE_MAX_EDGE ∧
  (width ← usize_try_from w; height ← usize_try_from h;
   pixels ← checked_mul usize_MAX width height; checked_mul usize_MAX pixels 4)
   = Some (Z.of_nat (length (cur_argb8888 c))).
#[export] Instance image_is_valid_dec c : Decision (image_is_valid c).
Proof. unfold image_is_valid; apply _. Defined.

Lemma checked_mul_le m a b : a * b ≤ m → checked_mul m a b = Some (a * b).
Proof. intros. by apply checked_mul_Some. Qed.

(** The multiplication never overflows within the edge bound: a valid image
    has exactly four bytes per pixel. *)
Lemma image_is_valid_iff c :
  image_is_valid c ↔
    let w := sz_width (cur_image_size c) in let h := sz_height (cur_image_size c) in
    0 < w ≤ CURSOR_IMAGE_MAX_EDGE ∧ 0 < h ≤ CURSOR_IMAGE_MAX_EDGE ∧
    Z.of_nat (length (cur_argb8888 c)) = 4 * w * h.
Proof.
  unfold image_is_valid, usize_try_from, CURSOR_IMAGE_MAX_EDGE.
  set (w := sz_width _); set (h := sz_height _). cbv zeta. split.
  - intros (?&?&?&?&Heq). rewrite decide_True in Heq by lia; simpl in Heq.
    rewrite decide_True in Heq by lia; simpl in Heq.
    assert (w * h ≤ 65536) by nia.
    rewrite checked_mul_le in Heq by word_lia. simpl in Heq.
    rewrite checked_mul_le in Heq by word_lia. split_and!; try lia. simplify_eq. lia.
  - intros ([? ?]&[? ?]&Heq). split_and!; try lia.
    assert (w * h ≤ 65536) by nia.
    rewrite !decide_True by lia; simpl.
    rewrite checked_mul_le by word_lia. simpl.
    rewrite checked_mul_le by word_lia. f_equal. lia.
Qed.

(** ** The output topology *)

Definition MAX_OUTPUT_TOPOLOGY_ENTRIES : nat := 16.

Record OutputTopologyEntry : Type := mk_topology_entry {
  ote_output : OutputId; ote_logical : Rect; ote_pixel_size : Size;
  ote_scale : Z; ote_refresh_millihz : Z;
}.
Record OutputTopologySnapshot : Type := mk_topology {
  ots_generation : Z; ots_primary : OutputId; ots_outputs : list OutputTopologyEntry;
}.
Inductive OutputTopologyError : Type :=
| OteInvalidGeneration | OteInvalidPrimary | OteEmpty | OteCapacityExceeded | OteInvalidOutput
| OteDuplicateOutput | OteInvalidGeometry | OteInvalidMode | OteRootSizeExceeded.

#[export] Instance OutputTopologyEntry_eq_dec : EqDecision OutputTopologyEntry.
Proof. solve_decision. Defined.
#[export] Instance OutputTopologyError_eq_dec : EqDecision OutputTopologyError.
Proof. solve_decision. Defined.

(** One iteration of the loop: the IDs seen, the right and the bottom edge. *)
Definition validate_entry (s : gset OutputId * Z * Z) (entry : OutputTopologyEntry) :
    result (gset OutputId * Z * Z) OutputTopologyError :=
  let '(ids, right', bottom') := s in
  ensure! id_valid (ote_output entry) else OteInvalidOutput in
  ensure! ote_output entry ∉ ids else OteDuplicateOutput in
  ensure! ¬ rect_is_empty (ote_logical entry) ∧ 0 ≤ rx (ote_logical entry) ∧
          0 ≤ ry (ote_logical entry) else OteInvalidGeometry in
  ensure! 0 < sz_width (ote_pixel_size entry) ∧ 0 < sz_height (ote_pixel_size entry) ∧
          ote_scale entry ≠ 0 ∧ ote_refresh_millihz entry ≠ 0 else OteInvalidMode in
  let? entry_right := ok_or (i32_checked_add (rx (ote_logical entry)) (rwidth (ote_logical entry)))
                        OteRootSizeExceeded in
  let? entry_bottom := ok_or (i32_checked_add (ry (ote_logical entry)) (rheight (ote_logical entry)))
                         OteRootSizeExceeded in
  Ok ({[ote_output entry]} ∪ ids, Z.max right' entry_right, Z.max bottom' entry_bottom).

Definition topology_validate (t : OutputTopologySnapshot) : result Size OutputTopologyError :=
  ensure! ots_generation t ≠ 0 else OteInvalidGeneration in
  ensure! ots_outputs t ≠ [] else OteEmpty in
  ensure! (length (ots_outputs t) ≤ MAX_OUTPUT_TOPOLOGY_ENTRIES)%nat else OteCapacityExceeded in
  let? ' (ids, right', bottom') := try_fold validate_entry (∅, 0, 0) (ots_outputs t) in
  ensure! ots_primary t ∈ ids else OteInvalidPrimary in
  ensure! 0 < right' ∧ 0 < bottom' ∧ right' ≤ u16_MAX ∧ bottom' ≤ u16_MAX else OteRootSizeExceeded in
  Ok (mk_size right' bottom').

Definition topology_deterministic : OutputTopologySnapshot :=
  mk_topology 1 (from_raw 1)
    [mk_topology_entry (from_raw 1) (mk_rect 0 0 1280 720) (mk_size 1280 720) 1 60000].

(** What one accepted output looks like. *)
Definition entry_ok (e : OutputTopologyEntry) : Prop :=
  id_valid (ote_output e) ∧ 0 < rwidth (ote_logical e) ∧ 0 < rheight (ote_logical e) ∧
  0 ≤ rx (ote_logical e) ∧ 0 ≤ ry (ote_logical e) ∧
  0 < sz_width (ote_pixel_size e) ∧ 0 < sz_height (ote_pixel_size e) ∧
  ote_scale e ≠ 0 ∧ ote_refresh_millihz e ≠ 0.

Lemma validate_entry_ok ids r b e s' :
  validate_entry (ids, r, b) e = Ok s' ↔
    entry_ok e ∧ ote_output e ∉ ids ∧
    i32_ok (rx (ote_logical e) + rwidth (ote_logical e)) ∧
    i32_ok (ry (ote_logical e) + rheight (ote_logical e)) ∧
    s' = ({[ote_output e]} ∪ ids, Z.max r (rx (ote_logical e) + rwidth (ote_logical e)),
          Z.max b (ry (ote_logical e) + rheight (ote_logical e))).
Proof.
  unfold validate_entry, entry_ok, rect_is_empty, i32_checked_add.
  case_decide; [|naive_solver]. case_decide; [|naive_solver].
  case_decide; [|split; [done|lia]]. case_decide; [|split; [done|lia]].
  case_decide; simpl; [|split; [done|naive_solver]].
  case_decide; simpl; [|split; [done|naive_solver]].
  split; [intros [= <-]; split_and!; done || lia | by intros (_&_&_&_&->)].
Qed.

(** The loop accepts exactly the lists of well-formed, pairwise distinct
    outputs, and folds the two edges into maxima. *)
Lemma validate_loop l ids r b s' :
  try_fold validate_entry (ids, r, b) l = Ok s' ↔
    Forall entry_ok l ∧ NoDup (ote_output <$> l) ∧ (∀ e, e ∈ l → ote_output e ∉ ids) ∧
    Forall (λ e, i32_ok (rx (ote_logical e) + rwidth (ote_logical e)) ∧
                 i32_ok (ry (ote_logical e) + rheight (ote_logical e))) l ∧
    s' = (list_to_set (ote_output <$> l) ∪ ids,
          foldl (λ r e, Z.max r (rx (ote_logical e) + rwidth (ote_logical e))) r l,
          foldl (λ b e, Z.max b (ry (ote_logical e) + rheight (ote_logical e))) b l).
Proof.
  revert ids r b. induction l as [|e l IH]; intros ids r b; cbn [try_fold foldl fmap list_fmap].
  { split; [intros [= <-]|intros (_&_&_&_&->)]; simpl; rewrite ?(left_id_L ∅ (∪));
      [split_and!; try done; [constructor|set_solver]|done]. }
  rewrite res_bind_ok. split.
  - intros (s&Hs&Hl). apply validate_entry_ok in Hs as (?&?&?&?&->).
    apply IH in Hl as (?&?&Hids&?&->). split_and!; try (by constructor).
    + apply NoDup_cons; split; [|done]. rewrite list_elem_of_fmap. intros (e'&Heq&Hin).
      specialize (Hids e' Hin). rewrite Heq in Hids. set_solver.
    + intros e' [->|Hin]%elem_of_cons; [done|]. specialize (Hids e' Hin). set_solver.
    + do 2 f_equal. simpl. set_solver.
  - intros ([Hok Hoks]%Forall_cons&[Hni Hnd]%NoDup_cons&Hids&[[Hr Hb] Hf]%Forall_cons&->).
    eexists. split; [apply validate_entry_ok; split_and!; try done; apply Hids; left|].
    apply IH. split_and!; try done.
    + intros e' Hin. rewrite not_elem_of_union. split; [|apply Hids; by right].
      intros Heq%elem_of_singleton. apply Hni. rewrite <-Heq. by apply list_elem_of_fmap_2.
    + do 2 f_equal. simpl. set_solver.
Qed.

Lemma foldl_max_spec {A} (f : A → Z) l a :
  a ≤ foldl (λ r e, Z.max r (f e)) a l ∧
  (∀ e, e ∈ l → f e ≤ foldl (λ r e, Z.max r (f e)) a l) ∧
  (foldl (λ r e, Z.max r (f e)) a l = a ∨ ∃ e, e ∈ l ∧ foldl (λ r e, Z.max r (f e)) a l = f e).
Proof.
  revert a. induction l as [|x l IH]; intros a; simpl.
  { split_and!; [lia|set_solver|by left]. }
  destruct (IH (Z.max a (f x))) as (H1&H2&H3). split_and!; [lia| |].
  - intros e [->|He]%elem_of_cons; [lia|auto].
  - destruct H3 as [->|(e&?&->)].
    + destruct (Z.max_spec a (f x)) as [[_ ->]|[_ ->]]; [right|by left]. exists x. by split; [left|].
    + right. exists e. by split; [right|].
Qed.

(** The maximum over a non-empty list of positive values, from 0. *)
Lemma foldl_max_eq {A} (f : A → Z) l m :
  0 < m →
  (foldl (λ r e, Z.max r (f e)) 0 l = m ↔ (∀ e, e ∈ l → f e ≤ m) ∧ ∃ e, e ∈ l ∧ m = f e).
Proof.
  intros Hm. destruct (foldl_max_spec f l 0) as (H1&H2&H3). split.
  - intros Heq. rewrite Heq in *. split; [done|]. destruct H3 as [?|(e&?&?)]; [lia|eauto].
  - intros [Hle (e&He&->)]. specialize (H2 e He).
    destruct H3 as [?|(e'&He'&Heq)]; [lia|]. specialize (Hle e' He'). lia.
Qed.

(** [validate] accepts exactly the well-formed topologies: a non-zero
    generation, between one and sixteen well-formed outputs with distinct IDs,
    the primary among them, every right and bottom edge at most [u16::MAX].
    The root size it returns is the smallest box from the origin that covers
    every output. *)
Theorem topology_validate_spec t s :
  topology_validate t = Ok s ↔
    ots_generation t ≠ 0 ∧ 1 ≤ Z.of_nat (length (ots_outputs t)) ≤ 16 ∧
    Forall entry_ok (ots_outputs t) ∧ NoDup (ote_output <$> ots_outputs t) ∧
    ots_primary t ∈ (ote_output <$> ots_outputs t) ∧
    sz_width s ≤ u16_MAX ∧ sz_height s ≤ u16_MAX ∧
    (∀ e, e ∈ ots_outputs t → rx (ote_logical e) + rwidth (ote_logical e) ≤ sz_width s ∧
                              ry (ote_logical e) + rheight (ote_logical e) ≤ sz_height s) ∧
    (∃ e, e ∈ ots_outputs t ∧ sz_width s = rx (ote_logical e) + rwidth (ote_logical e)) ∧
    (∃ e, e ∈ ots_outputs t ∧ sz_height s = ry (ote_logical e) + rheight (ote_logical e)).
Proof.
  set (R := λ e, rx (ote_logical e) + rwidth (ote_logical e)).
  set (B := λ e, ry (ote_logical e) + rheight (ote_logical e)).
  unfold topology_validate. split.
  - intros H. res_inv H. destruct x as [[ids r] b]. simpl in H. res_inv H.
    match goal with Hl : try_fold _ _ _ = Ok _ |- _ => apply validate_loop in Hl end.
    destruct_and!; simplify_eq/=. fold R B.
    assert (length (ots_outputs t) ≠ 0%nat) by (by rewrite length_zero_iff_nil).
    destruct (foldl_max_eq R (ots_outputs t) (foldl (λ r e, Z.max r (R e)) 0 (ots_outputs t)))
      as [[HR1 HR2] _]; [done|done|].
    destruct (foldl_max_eq B (ots_outputs t) (foldl (λ r e, Z.max r (B e)) 0 (ots_outputs t)))
      as [[HB1 HB2] _]; [done|done|].
    unfold MAX_OUTPUT_TOPOLOGY_ENTRIES in *. split_and!; try done; try lia.
    + match goal with Hp : ots_primary _ ∈ _ |- _ => by rewrite (right_id_L ∅ (∪)), elem_of_list_to_set in Hp end.
    + intros e He. split; [by apply HR1|by apply HB1].
  - intros (Hg&Hlen&Hok&Hnd&Hp&Hw&Hh&Hcov&Hr&Hb).
    rewrite decide_True by done. rewrite decide_True by (intros Heq; rewrite Heq in Hlen; simpl in Hlen; lia).
    rewrite decide_True by (unfold MAX_OUTPUT_TOPOLOGY_ENTRIES; lia).
    rewrite Forall_forall in Hok. unfold entry_ok in Hok.
    assert (0 < sz_width s ∧ 0 < sz_height s) as [Hw0 Hh0].
    { destruct Hr as (e&He&->), Hb as (e'&He'&->). apply Hok in He, He'. lia. }
    assert (foldl (λ r e, Z.max r (R e)) 0 (ots_outputs t) = sz_width s) as HR.
    { apply foldl_max_eq; [done|]. split; [|done]. intros e He. by apply Hcov. }
    assert (foldl (λ r e, Z.max r (B e)) 0 (ots_outputs t) = sz_height s) as HB.
    { apply foldl_max_eq; [done|]. split; [|done]. intros e He. by apply Hcov. }
    destruct (validate_loop (ots_outputs t) ∅ 0 0
      (list_to_set (ote_output <$> ots_outputs t) ∪ ∅, sz_width s, sz_height s)) as [_ Hl].
    rewrite Hl; simpl.
    + rewrite decide_True by (rewrite (right_id_L ∅ (∪)); by apply elem_of_list_to_set). rewrite decide_True by done. by destruct s.
    + rewrite Forall_forall. split_and!; try done; [|by rewrite <-HR, <-HB].
      rewrite Forall_forall. intros e He. specialize (Hcov e He). apply Hok in He. word_lia.
Qed.

Lemma topology_validate_spec_witness :
  topology_validate topology_deterministic = Ok (mk_size 1280 720) ∧
  NoDup (ote_output <$> ots_outputs topology_deterministic).
Proof.
  split; [vm_compute; reflexivity|].
  apply (topology_validate_spec topology_deterministic (mk_size 1280 720)).
  vm_compute; reflexivity.
Defined.
