(* ===== verification/Packets.v ===== *)
(** * Surface, layout and authority packets
    ([sophia-protocol/src/packets/{surface/*,authority,wm}.rs])

    The data the engine, the window manager and the authorities exchange, the
    conversions between them and the DMA-BUF descriptor check.  [f32] fields
    hold their IEEE-754 bit pattern. *)

From S2P Require Import Prelude Ids Geometry.
Local Open Scope Z_scope.

(** ** Buffers and readiness *)

Inductive AuthorityKind : Type := SophiaX | SophiaNative.

Inductive BufferSource : Type :=
| BufferNone
| XPixmap (pixmap : Z)
| DmaBuf (handle : Z)
| CpuBuffer (handle : Z).

Inductive ResizeSyncCapability : Type := ImplicitOnly | ExplicitSync.

Inductive SurfaceTransactionReadiness : Type := TxPending | TxReady | TxFailed | TxTimedOut.

#[export] Instance AuthorityKind_eq_dec : EqDecision AuthorityKind.
Proof. solve_decision. Defined.
#[export] Instance BufferSource_eq_dec : EqDecision BufferSource.
Proof. solve_decision. Defined.
#[export] Instance ResizeSyncCapability_eq_dec : EqDecision ResizeSyncCapability.
Proof. solve_decision. Defined.
#[export] Instance Readiness_eq_dec : EqDecision SurfaceTransactionReadiness.
Proof. solve_decision. Defined.

(** ** Transactions and committed state *)

Record SurfaceTransaction : Type := mk_surface_tx {
  st_transaction : TransactionId; st_authority : AuthorityKind; st_surface : SurfaceId;
  st_namespace : option NamespaceId; st_target_geometry : Rect; st_target_buffer : BufferSource;
  st_damage : Region; st_readiness : SurfaceTransactionReadiness; st_timeout_msec : Z;
  st_previous_committed_generation : Z;
}.

Record CommittedSurfaceState : Type := mk_committed {
  cs_surface : SurfaceId; cs_committed_generation : Z; cs_geometry : Rect;
  cs_buffer : BufferSource; cs_damage : Region;
}.

#[export] Instance SurfaceTransaction_eq_dec : EqDecision SurfaceTransaction.
Proof. solve_decision. Defined.
#[export] Instance CommittedSurfaceState_eq_dec : EqDecision CommittedSurfaceState.
Proof. solve_decision. Defined.

Inductive TransactionOutcome : Type :=
| Committed | RejectedStaleSurface | RejectedInvalidSurface | TimedOut.

Record TransactionCommit : Type := mk_commit {
  tc_transaction : TransactionId; tc_outcome : TransactionOutcome;
  tc_applied_surfaces : list SurfaceId;
}.

#[export] Instance TransactionOutcome_eq_dec : EqDecision TransactionOutcome.
Proof. solve_decision. Defined.
#[export] Instance TransactionCommit_eq_dec : EqDecision TransactionCommit.
Proof. solve_decision. Defined.

(** ** Snapshots and frames *)

Record SurfaceConstraints : Type := mk_constraints {
  sc_min_size : option Size; sc_max_size : option Size;
}.

Record AuthoritySurface : Type := mk_authority_surface {
  as_authority : AuthorityKind; as_local_id : AuthorityLocalId; as_surface : SurfaceId;
  as_namespace : option NamespaceId; as_mapped : bool; as_geometry : Rect;
  as_constraints : SurfaceConstraints; as_generation : Z;
}.

Record SurfaceSnapshot : Type := mk_surface_snapshot {
  ss_surface : SurfaceId; ss_window : XWindowId; ss_toplevel : option XWindowId;
  ss_client : option XWindowId; ss_namespace : option NamespaceId; ss_mapped : bool;
  ss_stack_rank : Z; ss_geometry : Rect; ss_source : BufferSource; ss_damage : Region;
  ss_generation : Z; ss_resize_sync : ResizeSyncCapability;
}.

Definition to_authority_surface (s : SurfaceSnapshot) (authority : AuthorityKind) : AuthoritySurface :=
  mk_authority_surface authority (authority_local_from_window (ss_window s)) (ss_surface s)
    (ss_namespace s) (ss_mapped s) (ss_geometry s) (mk_constraints None None) (ss_generation s).

Definition snapshot_to_transaction (s : SurfaceSnapshot) (transaction : TransactionId)
    (authority : AuthorityKind) (readiness : SurfaceTransactionReadiness) (timeout_msec prev : Z) :
    SurfaceTransaction :=
  mk_surface_tx transaction authority (ss_surface s) (ss_namespace s) (ss_geometry s)
    (ss_source s) (ss_damage s) readiness timeout_msec prev.

Record LayerSnapshot : Type := mk_layer {
  ls_surface : SurfaceId; ls_authority_local_id : option AuthorityLocalId;
  ls_namespace : option NamespaceId; ls_stack_rank : Z; ls_geometry : Rect;
  ls_source : BufferSource; ls_damage : Region; ls_opacity : Z; ls_crop : option Rect;
  ls_transform : Transform; ls_generation : Z; ls_resize_sync : ResizeSyncCapability;
}.
#[export] Instance LayerSnapshot_eq_dec : EqDecision LayerSnapshot.
Proof. solve_decision. Defined.

Definition layer_to_transaction (l : LayerSnapshot) (transaction : TransactionId)
    (authority : AuthorityKind) (readiness : SurfaceTransactionReadiness) (timeout_msec prev : Z) :
    SurfaceTransaction :=
  mk_surface_tx transaction authority (ls_surface l) (ls_namespace l) (ls_geometry l)
    (ls_source l) (ls_damage l) readiness timeout_msec prev.

(** [CommittedSurfaceState::from_layer_snapshot] *)
Definition committed_from_layer (l : LayerSnapshot) : CommittedSurfaceState :=
  mk_committed (ls_surface l) (ls_generation l) (ls_geometry l) (ls_source l) (ls_damage l).

Record DamageFrame : Type := mk_damage_frame {
  df_output : OutputId; df_frame_serial : Z; df_buffer_age : Z; df_root_generation : Z;
  df_affected_surfaces : list SurfaceId; df_damage : Region;
}.

Inductive RenderCommandKind : Type := Blit | Clear | Composite.

Record RenderCommand : Type := mk_render_command {
  rc_kind : RenderCommandKind; rc_source : option SurfaceId; rc_output : OutputId;
  rc_target : Region; rc_clip : option Region; rc_transform : Transform; rc_alpha : Z;
}.
#[export] Instance RenderCommandKind_eq_dec : EqDecision RenderCommandKind.
Proof. solve_decision. Defined.
#[export] Instance RenderCommand_eq_dec : EqDecision RenderCommand.
Proof. solve_decision. Defined.

Record FrameSnapshot : Type := mk_frame_snapshot {
  fs_output : OutputId; fs_output_size : Size; fs_output_scale : Z; fs_frame_serial : Z;
  fs_layers : list LayerSnapshot; fs_commands : list RenderCommand; fs_damage : Region;
}.

Record CompositorSurface : Type := mk_compositor_surface {
  co_surface : SurfaceId; co_layer_generation : Z; co_geometry : Rect;
  co_active_buffer : BufferSource; co_output : option OutputId; co_visible : bool; co_damage : Region;
}.

(** ** Layout nodes *)

Inductive LayoutNodeKind : Type := Toplevel | Dialog | Utility | UnknownNode.

Record LayoutNodeCapabilities : Type := mk_node_caps {
  movable : bool; resizable : bool; focusable : bool; closable : bool; fullscreenable : bool;
}.
Definition STANDARD_TOPLEVEL : LayoutNodeCapabilities := mk_node_caps true true true true true.

Record LayoutNodeState : Type := mk_node_state {
  focused : bool; urgent : bool; fullscreen : bool; floating : bool; visible : bool;
}.
Definition NODE_NORMAL : LayoutNodeState := mk_node_state false false false false true.

Record LayoutNodeSnapshot : Type := mk_node {
  ln_surface : SurfaceId; ln_workspace : WorkspaceId; ln_kind : LayoutNodeKind;
  ln_capabilities : LayoutNodeCapabilities; ln_state : LayoutNodeState;
  ln_constraints : SurfaceConstraints; ln_geometry : Rect; ln_generation : Z;
}.
#[export] Instance LayoutNodeKind_eq_dec : EqDecision LayoutNodeKind.
Proof. solve_decision. Defined.
#[export] Instance LayoutNodeCapabilities_eq_dec : EqDecision LayoutNodeCapabilities.
Proof. solve_decision. Defined.
#[export] Instance LayoutNodeState_eq_dec : EqDecision LayoutNodeState.
Proof. solve_decision. Defined.
#[export] Instance SurfaceConstraints_eq_dec : EqDecision SurfaceConstraints.
Proof. solve_decision. Defined.
#[export] Instance LayoutNodeSnapshot_eq_dec : EqDecision LayoutNodeSnapshot.
Proof. solve_decision. Defined.

(** ** Window-manager packets *)

Record SurfaceSizeRequest : Type := mk_size_request { sr_surface : SurfaceId; sr_size : Size }.

Record SurfacePlacement : Type := mk_placement {
  sp_surface : SurfaceId; sp_geometry : Rect; sp_z_index : Z; sp_crop : option Rect;
  sp_transform : Transform;
}.

Record LayoutTransaction : Type := mk_layout_tx {
  lt_transaction : TransactionId; lt_requested_sizes : list SurfaceSizeRequest;
  lt_focus : option SurfaceId; lt_render_positions : list SurfacePlacement; lt_timeout_msec : Z;
}.

Definition WM_API_VERSION : Z := 2.
Definition WM_MAX_BINDINGS : nat := 256.
Definition WM_DEFAULT_WORKSPACES : Z := 9.

(** [WmCapabilities] *)
Definition CAP_BINDINGS : Z := Z.shiftl 1 0.
Definition CAP_WORKSPACES : Z := Z.shiftl 1 1.
Definition CAP_SESSION_ACTIONS : Z := Z.shiftl 1 2.
Definition CAP_SUPPORTED : Z := Z.lor (Z.lor CAP_BINDINGS CAP_WORKSPACES) CAP_SESSION_ACTIONS.

(** [WmModifierMask] *)
Definition MOD_SHIFT : Z := Z.shiftl 1 0.
Definition MOD_CONTROL : Z := Z.shiftl 1 1.
Definition MOD_ALT : Z := Z.shiftl 1 2.
Definition MOD_SUPER : Z := Z.shiftl 1 3.
Definition MOD_SUPPORTED : Z := Z.lor (Z.lor (Z.lor MOD_SHIFT MOD_CONTROL) MOD_ALT) MOD_SUPER.

Record WmBindingRegistration : Type := mk_binding {
  wb_action : WmActionId; wb_keycode : Z; wb_modifiers : Z;
}.
Record WmHello : Type := mk_hello {
  wh_api_version : Z; wh_capabilities : Z; wh_bindings : list WmBindingRegistration;
}.
Record WmOutputWorkspace : Type := mk_output_workspace {
  ow_output : OutputId; ow_workspace : WorkspaceId;
}.
Inductive WmSessionAction : Type :=
| LaunchTerminal | LaunchApplicationMenu | LaunchFirefox | CloseFocused | Logout.

Record WmSessionDescriptor : Type := mk_descriptor {
  wd_api_version : Z; wd_workspaces : list WorkspaceId;
  wd_active_workspaces : list WmOutputWorkspace; wd_session_actions : list WmSessionAction;
}.
Record WmActionActivation : Type := mk_activation {
  wa_action : WmActionId; wa_output : OutputId; wa_workspace : WorkspaceId;
  wa_focused_surface : option SurfaceId; wa_nodes : list LayoutNodeSnapshot;
}.
Record WmManageSurface : Type := mk_manage {
  wms_node : LayoutNodeSnapshot; wms_output : OutputId; wms_workspace : WorkspaceId;
  wms_bounds : Rect;
}.
Record WmRelayoutWorkspace : Type := mk_relayout {
  wr_output : OutputId; wr_workspace : WorkspaceId; wr_bounds : Rect;
  wr_nodes : list LayoutNodeSnapshot;
}.
Inductive WmRequestKind : Type :=
| ManageSurface (m : WmManageSurface)
| RelayoutWorkspace (r : WmRelayoutWorkspace)
| SurfaceRemoved (surface : SurfaceId) (workspace : WorkspaceId)
| ActionActivated (a : WmActionActivation).
Record WmRequestPacket : Type := mk_wm_request {
  wq_transaction : TransactionId; wq_kind : WmRequestKind;
}.

Inductive WmCommand : Type :=
| ConfigureSurface (r : SurfaceSizeRequest)
| FocusSurface (surface : SurfaceId)
| AssignWorkspace (surface : SurfaceId) (workspace : WorkspaceId)
| RenderSurface (p : SurfacePlacement)
| ActivateWorkspace (output : OutputId) (workspace : WorkspaceId)
| RequestSessionAction (action : WmSessionAction) (target : option SurfaceId).

Record WmResponsePacket : Type := mk_wm_response {
  wp_transaction : TransactionId; wp_commands : list WmCommand; wp_timeout_msec : Z;
}.

#[export] Instance SurfaceSizeRequest_eq_dec : EqDecision SurfaceSizeRequest.
Proof. solve_decision. Defined.
#[export] Instance SurfacePlacement_eq_dec : EqDecision SurfacePlacement.
Proof. solve_decision. Defined.
#[export] Instance LayoutTransaction_eq_dec : EqDecision LayoutTransaction.
Proof. solve_decision. Defined.
#[export] Instance WmBinding_eq_dec : EqDecision WmBindingRegistration.
Proof. solve_decision. Defined.
#[export] Instance WmOutputWorkspace_eq_dec : EqDecision WmOutputWorkspace.
Proof. solve_decision. Defined.
#[export] Instance WmSessionAction_eq_dec : EqDecision WmSessionAction.
Proof. solve_decision. Defined.
#[export] Instance WmSessionDescriptor_eq_dec : EqDecision WmSessionDescriptor.
Proof. solve_decision. Defined.
#[export] Instance WmHello_eq_dec : EqDecision WmHello.
Proof. solve_decision. Defined.
#[export] Instance WmActionActivation_eq_dec : EqDecision WmActionActivation.
Proof. solve_decision. Defined.
#[export] Instance WmManageSurface_eq_dec : EqDecision WmManageSurface.
Proof. solve_decision. Defined.
#[export] Instance WmRelayoutWorkspace_eq_dec : EqDecision WmRelayoutWorkspace.
Proof. solve_decision. Defined.
#[export] Instance WmRequestKind_eq_dec : EqDecision WmRequestKind.
Proof. solve_decision. Defined.
#[export] Instance WmRequestPacket_eq_dec : EqDecision WmRequestPacket.
Proof. solve_decision. Defined.
#[export] Instance WmCommand_eq_dec : EqDecision WmCommand.
Proof. solve_decision. Defined.
#[export] Instance WmResponsePacket_eq_dec : EqDecision WmResponsePacket.
Proof. solve_decision. Defined.

(** One iteration of the loop of [into_layout_transaction]. *)
Definition layout_step (s : list SurfaceSizeRequest * option SurfaceId * list SurfacePlacement)
    (command : WmCommand) :=
  let '(requested_sizes, focus, render_positions) := s in
  match command with
  | ConfigureSurface request => (requested_sizes ++ [request], focus, render_positions)
  | FocusSurface surface => (requested_sizes, Some surface, render_positions)
  | AssignWorkspace _ _ => s
  | RenderSurface placement => (requested_sizes, focus, render_positions ++ [placement])
  | ActivateWorkspace _ _ | RequestSessionAction _ _ => s
  end.

Definition into_layout_transaction (p : WmResponsePacket) : LayoutTransaction :=
  let '(requested_sizes, focus, render_positions) := foldl layout_step ([], None, []) (wp_commands p) in
  mk_layout_tx (wp_transaction p) requested_sizes focus render_positions (wp_timeout_msec p).

Definition size_request_of (c : WmCommand) : option SurfaceSizeRequest :=
  match c with ConfigureSurface r => Some r | _ => None end.
Definition focus_of (c : WmCommand) : option SurfaceId :=
  match c with FocusSurface s => Some s | _ => None end.
Definition placement_of (c : WmCommand) : option SurfacePlacement :=
  match c with RenderSurface p => Some p | _ => None end.

Lemma layout_step_foldl cs sizes focus pos :
  foldl layout_step (sizes, focus, pos) cs =
    (sizes ++ omap size_request_of cs,
     match last (omap focus_of cs) with Some s => Some s | None => focus end,
     pos ++ omap placement_of cs).
Proof.
  revert sizes focus pos. induction cs as [|c cs IH]; intros sizes focus pos; csimpl.
  { by rewrite !app_nil_r. }
  destruct c; simpl; rewrite IH; simpl; rewrite <-?(assoc_L (++)); try done.
  by destruct (omap focus_of cs) as [|? l _] using rev_ind; [|rewrite last_cons, last_snoc].
Qed.

(** The conversion keeps requests and placements in command order, and the
    last focus command wins. *)
Lemma into_layout_transaction_eq p :
  into_layout_transaction p =
    mk_layout_tx (wp_transaction p) (omap size_request_of (wp_commands p))
      (last (omap focus_of (wp_commands p))) (omap placement_of (wp_commands p)) (wp_timeout_msec p).
Proof.
  unfold into_layout_transaction. rewrite layout_step_foldl; simpl.
  by destruct (last _).
Qed.

(** ** DMA-BUF descriptors ([packets/authority.rs]) *)

Definition DMA_BUF_MAX_PLANES : nat := 4.
Definition DMA_BUF_MAX_DIMENSION : Z := 16384.
Definition DMA_BUF_MAX_BYTES : Z := 256 * 1024 * 1024.
(** The fourcc codes XR24 and AR24. *)
Definition DRM_FORMAT_XRGB8888 : Z := from_le_bytes [88; 82; 50; 52].
Definition DRM_FORMAT_ARGB8888 : Z := from_le_bytes [65; 82; 50; 52].

Record DmaBufPlaneDescriptor : Type := mk_plane { pl_offset : Z; pl_stride : Z }.
Record DmaBufDescriptor : Type := mk_dma_buf {
  db_handle : BufferHandle; db_size : Size; db_format : Z; db_modifier : Z;
  db_plane_count : Z; db_planes : list (option DmaBufPlaneDescriptor);
}.
Inductive DmaBufDescriptorError : Type :=
| DbInvalidHandle | DbInvalidSize | DbUnsupportedFormat | DbInvalidPlaneCount | DbMissingPlane
| DbUnexpectedPlane | DbInvalidStride | DbBufferTooLarge.
#[export] Instance DmaBufPlaneDescriptor_eq_dec : EqDecision DmaBufPlaneDescriptor.
Proof. solve_decision. Defined.

(** The body of the loop over [planes.iter().enumerate()]. *)
Definition dma_plane_present (plane_count : nat) (_ : unit)
    (e : nat * option DmaBufPlaneDescriptor) : result unit DmaBufDescriptorError :=
  ensure! ¬ ((e.1 < plane_count)%nat ∧ e.2 = None) else DbMissingPlane in
  ensure! ¬ ((plane_count ≤ e.1)%nat ∧ e.2 ≠ None) else DbUnexpectedPlane in
  Ok ().

(** The body of the loop over the present planes. *)
Definition dma_plane_fits (width_bytes height : Z) (_ : unit) (plane : DmaBufPlaneDescriptor) :
    result unit DmaBufDescriptorError :=
  let stride := pl_stride plane in
  ensure! width_bytes ≤ stride else DbInvalidStride in
  let? span := ok_or (checked_mul u64_MAX (saturating_sub height 1) stride) DbBufferTooLarge in
  let? end_ := ok_or (value ← checked_add u64_MAX (pl_offset plane) span;
                      checked_add u64_MAX value width_bytes) DbBufferTooLarge in
  ensure! end_ ≤ DMA_BUF_MAX_BYTES else DbBufferTooLarge in
  Ok ().

Definition dma_buf_validate (d : DmaBufDescriptor) : result unit DmaBufDescriptorError :=
  ensure! id_valid (db_handle d) else DbInvalidHandle in
  ensure! 0 < sz_width (db_size d) ∧ 0 < sz_height (db_size d) ∧
          sz_width (db_size d) ≤ DMA_BUF_MAX_DIMENSION ∧
          sz_height (db_size d) ≤ DMA_BUF_MAX_DIMENSION else DbInvalidSize in
  ensure! db_format d = DRM_FORMAT_XRGB8888 ∨ db_format d = DRM_FORMAT_ARGB8888
    else DbUnsupportedFormat in
  let plane_count := Z.to_nat (db_plane_count d) in
  ensure! plane_count ≠ O ∧ (plane_count ≤ DMA_BUF_MAX_PLANES)%nat else DbInvalidPlaneCount in
  let? _ := try_fold (dma_plane_present plane_count) () (imap pair (db_planes d)) in
  let? width_bytes := ok_or (width ← usize_try_from (sz_width (db_size d));
                             checked_mul u64_MAX width 4) DbBufferTooLarge in
  let? height := ok_or (usize_try_from (sz_height (db_size d))) DbBufferTooLarge in
  try_fold (dma_plane_fits width_bytes height) () (omap id (take plane_count (db_planes d))).

(** The shape Rust's types give a descriptor: four slots of [u32] pairs. *)
Definition dma_buf_wf (d : DmaBufDescriptor) : Prop :=
  length (db_planes d) = DMA_BUF_MAX_PLANES ∧ 0 ≤ db_plane_count d ∧
  Forall (λ p, match p with Some p => u32_ok (pl_offset p) ∧ u32_ok (pl_stride p) | None => True end)
    (db_planes d).

Lemma try_fold_unit {A E} (f : unit → A → result unit E) l :
  try_fold f () l = Ok () ↔ ∀ a, a ∈ l → f () a = Ok ().
Proof.
  induction l as [|a l IH]; simpl; [set_solver|]. rewrite res_bind_ok. split.
  - intros ([]&Ha&Hl) b [->|Hb]%elem_of_cons; [done|]. by apply IH.
  - intros H. exists (). split; [apply H; left|]. apply IH. intros. apply H. by right.
Qed.

Lemma dma_plane_fits_ok w h p :
  0 < w ≤ 16384 → 0 < h ≤ 16384 → u32_ok (pl_offset p) → u32_ok (pl_stride p) →
  dma_plane_fits (4 * w) h () p = Ok () ↔
    4 * w ≤ pl_stride p ∧ pl_offset p + (h - 1) * pl_stride p + 4 * w ≤ DMA_BUF_MAX_BYTES.
Proof.
  intros Hw Hh Ho Hs. unfold dma_plane_fits, saturating_sub.
  replace (Z.max (h - 1) 0) with (h - 1) by lia.
  assert (0 ≤ (h - 1) * pl_stride p ≤ 16384 * u32_MAX) by (word_lia || (unfold_widths; nia)).
  case_decide; [|split; [done|lia]].
  rewrite checked_mul_le by word_lia. simpl.
  assert (∀ a b, a + b ≤ u64_MAX → checked_add u64_MAX a b = Some (a + b)) as Hadd.
  { intros. by apply checked_add_Some. }
  rewrite Hadd by word_lia; simpl. rewrite Hadd by word_lia; simpl.
  case_decide; split; intros; try done; lia.
Qed.

(** The two loops over the planes, in one statement per slot. *)
Lemma dma_planes_ok (n : nat) w h planes :
  0 < w ≤ 16384 → 0 < h ≤ 16384 →
  Forall (λ p, match p with Some p => u32_ok (pl_offset p) ∧ u32_ok (pl_stride p) | None => True end)
    planes →
  try_fold (dma_plane_present n) () (imap pair planes) = Ok () ∧
  try_fold (dma_plane_fits (4 * w) h) () (omap id (take n planes)) = Ok () ↔
  (∀ i plane, planes !! i = Some plane →
      if decide (i < n)%nat then
        ∃ p, plane = Some p ∧ 4 * w ≤ pl_stride p ∧
          pl_offset p + (h - 1) * pl_stride p + 4 * w ≤ DMA_BUF_MAX_BYTES
      else plane = None).
Proof.
  intros Hw Hh Hwf. rewrite !try_fold_unit. rewrite Forall_lookup in Hwf. split.
  - intros [Hp Hf] i plane Hi.
    assert (dma_plane_present n () (i, plane) = Ok ()) as Hpi.
    { apply Hp. apply elem_of_lookup_imap. eauto. }
    unfold dma_plane_present in Hpi; simpl in Hpi. case_decide as Hm; [|done].
    case_decide as Hu; [|done]. case_decide as Hin.
    + destruct plane as [p|]; [|naive_solver]. exists p. split; [done|].
      specialize (Hwf i (Some p) Hi) as [??].
      apply (dma_plane_fits_ok w h p); [done..|]. apply Hf. apply list_elem_of_omap.
      exists (Some p). split; [|done]. apply (list_elem_of_lookup_2 _ i).
      by rewrite lookup_take_lt.
    + destruct plane; [|done]. destruct Hu. split; [lia|done].
  - intros H. split.
    + intros a (i&plane&->&Hi)%elem_of_lookup_imap. specialize (H i plane Hi).
      unfold dma_plane_present; simpl. case_decide as Hin.
      * destruct H as (p&->&_). rewrite !decide_True by naive_solver lia. done.
      * subst plane. rewrite !decide_True by naive_solver lia. done.
    + intros p (plane&Hin&Heq)%list_elem_of_omap. simpl in Heq; subst plane.
      apply list_elem_of_lookup_1 in Hin as [i Hi]. apply lookup_take_Some in Hi as [Hi Hlt].
      specialize (H _ _ Hi). rewrite decide_True in H by done. destruct H as (q&[= <-]&?&?).
      specialize (Hwf i (Some p) Hi) as [??]. by apply dma_plane_fits_ok.
Qed.

(** The last byte of the last row decides whether every byte is in bounds. *)
Lemma dma_span_bytes w h p :
  0 < w → 0 < h → 0 ≤ pl_stride p →
  pl_offset p + (h - 1) * pl_stride p + 4 * w ≤ DMA_BUF_MAX_BYTES ↔
  ∀ x y, 0 ≤ x < 4 * w → 0 ≤ y < h → pl_offset p + y * pl_stride p + x < DMA_BUF_MAX_BYTES.
Proof.
  intros Hw Hh Hs. split.
  - intros Hm x y Hx Hy. assert (y * pl_stride p ≤ (h - 1) * pl_stride p) by nia. lia.
  - intros H. specialize (H (4 * w - 1) (h - 1)). lia.
Qed.

(** [validate] accepts exactly the descriptors whose every plane is present
    and lies inside the 256 MiB window.  In particular every byte an importer
    addresses (row [y], column byte [x]) is inside it, rows do not overlap, and
    none of the intermediate [u64] computations overflows. *)
Theorem dma_buf_validate_spec d :
  dma_buf_wf d →
  let w := sz_width (db_size d) in let h := sz_height (db_size d) in
  dma_buf_validate d = Ok () ↔
    id_valid (db_handle d) ∧ 0 < w ≤ DMA_BUF_MAX_DIMENSION ∧ 0 < h ≤ DMA_BUF_MAX_DIMENSION ∧
    (db_format d = DRM_FORMAT_XRGB8888 ∨ db_format d = DRM_FORMAT_ARGB8888) ∧
    1 ≤ db_plane_count d ≤ 4 ∧
    (∀ i plane, db_planes d !! i = Some plane →
      if decide (Z.of_nat i < db_plane_count d) then
        ∃ p, plane = Some p ∧ 4 * w ≤ pl_stride p ∧
          ∀ x y, 0 ≤ x < 4 * w → 0 ≤ y < h → pl_offset p + y * pl_stride p + x < DMA_BUF_MAX_BYTES
      else plane = None).
Proof.
  intros (Hlen&Hpc&Hwf). cbv zeta. unfold dma_buf_validate, DMA_BUF_MAX_DIMENSION, DMA_BUF_MAX_PLANES.
  set (w := sz_width _). set (h := sz_height _).
  case_decide; [|naive_solver]. case_decide as Hd; [|split; [done|lia]].
  case_decide; [|naive_solver]. case_decide as Hn; [|split; [done|lia]].
  unfold usize_try_from. rewrite (decide_True _ _ (P := 0 ≤ w)), (decide_True _ _ (P := 0 ≤ h)) by lia.
  cbn [mbind option_bind]. rewrite checked_mul_le by word_lia. cbn [ok_or].
  rewrite (Z.mul_comm w 4). transitivity (
    try_fold (dma_plane_present (Z.to_nat (db_plane_count d))) () (imap pair (db_planes d)) = Ok () ∧
    try_fold (dma_plane_fits (4 * w) h) () (omap id (take (Z.to_nat (db_plane_count d)) (db_planes d)))
      = Ok ()).
  { destruct (try_fold (dma_plane_present _) _ _) as [[]|]; simpl; naive_solver. }
  rewrite dma_planes_ok by (done || lia). rewrite Forall_lookup in Hwf.
  assert (∀ i plane p, db_planes d !! i = Some plane → plane = Some p → 0 ≤ pl_stride p) as Hst.
  { intros i plane p Hi ->. specialize (Hwf i _ Hi) as [_ []]. done. }
  split.
  - intros Hall. split_and!; try done; try lia. intros i plane Hi.
    specialize (Hall i plane Hi). repeat case_decide; try lia; [|done].
    destruct Hall as (p&->&?&?). exists p. split_and!; [done..|].
    apply dma_span_bytes; [lia|lia|by eapply Hst|done].
  - intros (_&_&_&_&_&Hall) i plane Hi. specialize (Hall i plane Hi).
    repeat case_decide; try lia; [|done]. destruct Hall as (p&->&?&?). exists p. split_and!; [done..|].
    apply dma_span_bytes; [lia|lia|by eapply Hst|done].
Qed.

Lemma dma_buf_validate_spec_witness :
  let d := mk_dma_buf (from_raw 7) (mk_size 64 32) DRM_FORMAT_XRGB8888 0 1
             [Some (mk_plane 0 256); None; None; None] in
  dma_buf_validate d = Ok () ∧ 1 ≤ db_plane_count d ≤ 4.
Proof.
  intros d. assert (Hwf : dma_buf_wf d).
  { split; [reflexivity|split; [vm_compute; congruence|]].
    repeat constructor; vm_compute; congruence. }
  assert (Hok : dma_buf_validate d = Ok ()) by (vm_compute; reflexivity).
  split; [exact Hok|]. apply (dma_buf_validate_spec d Hwf) in Hok. apply Hok.
Defined.
