(* ===== verification/PortalPackets.v ===== *)
(** * Namespace, portal and chrome packets
    ([sophia-protocol/src/packets/{namespace,portal,chrome}.rs])

    Namespace profiles and the bit sets of portal capabilities, portal transfers
    and grants, chrome descriptors and broker health.  A [String] is its list of
    UTF-8 bytes. *)

From S2P Require Import Prelude Ids.
Local Open Scope Z_scope.

(** ** Namespaces *)

Inductive NamespaceProfile : Type := ClassicShared | Confined.
#[export] Instance namespace_profile_eq_dec : EqDecision NamespaceProfile.
Proof. solve_decision. Defined.

Inductive NamespacePortalCapability : Type :=
| CapClipboard | CapDragAndDrop | CapFileHandoff | CapScreenCapture | CapScreenRecording
| CapUriOpen | CapNotification.
#[export] Instance portal_capability_eq_dec : EqDecision NamespacePortalCapability.
Proof. solve_decision. Defined.

(** The discriminants: [self as u8]. *)
Definition capability_index (c : NamespacePortalCapability) : Z :=
  match c with
  | CapClipboard => 0 | CapDragAndDrop => 1 | CapFileHandoff => 2 | CapScreenCapture => 3
  | CapScreenRecording => 4 | CapUriOpen => 5 | CapNotification => 6
  end.
Definition capability_bit (c : NamespacePortalCapability) : Z := Z.shiftl 1 (capability_index c).

Record NamespaceCapabilities : Type := mk_capabilities {
  nc_request_bits : Z; nc_publish_bits : Z;
}.
#[export] Instance capabilities_eq_dec : EqDecision NamespaceCapabilities.
Proof. solve_decision. Defined.

Definition SUPPORTED_BITS : Z := Z.shiftl 1 7 - 1.
Definition CAPABILITIES_NONE : NamespaceCapabilities := mk_capabilities 0 0.
Definition CAPABILITIES_ALL : NamespaceCapabilities := mk_capabilities SUPPORTED_BITS SUPPORTED_BITS.

(** [bits & !SUPPORTED_BITS] on [u64]. *)
Definition unsupported_bits (bits : Z) : Z := Z.land bits (Z.lxor u64_MAX SUPPORTED_BITS).

Definition capabilities_from_bits (request_bits publish_bits : Z) : option NamespaceCapabilities :=
  if decide (unsupported_bits request_bits = 0 ∧ unsupported_bits publish_bits = 0)
  then Some (mk_capabilities request_bits publish_bits)
  else None.
Definition with_request (c : NamespaceCapabilities) (capability : NamespacePortalCapability) :
    NamespaceCapabilities :=
  mk_capabilities (Z.lor (nc_request_bits c) (capability_bit capability)) (nc_publish_bits c).
Definition with_publish (c : NamespaceCapabilities) (capability : NamespacePortalCapability) :
    NamespaceCapabilities :=
  mk_capabilities (nc_request_bits c) (Z.lor (nc_publish_bits c) (capability_bit capability)).
Definition allows_request (c : NamespaceCapabilities) (capability : NamespacePortalCapability) : Prop :=
  Z.land (nc_request_bits c) (capability_bit capability) ≠ 0.
Definition allows_publish (c : NamespaceCapabilities) (capability : NamespacePortalCapability) : Prop :=
  Z.land (nc_publish_bits c) (capability_bit capability) ≠ 0.
#[export] Instance allows_request_dec c k : Decision (allows_request c k).
Proof. unfold allows_request; apply _. Defined.
#[export] Instance allows_publish_dec c k : Decision (allows_publish c k).
Proof. unfold allows_publish; apply _. Defined.

Record NamespaceContext : Type := mk_namespace_context {
  nx_id : NamespaceId; nx_profile : NamespaceProfile; nx_capabilities : NamespaceCapabilities;
}.
#[export] Instance namespace_context_eq_dec : EqDecision NamespaceContext.
Proof. solve_decision. Defined.
Definition namespace_context_valid (n : NamespaceContext) : Prop := id_valid (nx_id n).
#[export] Instance namespace_context_valid_dec n : Decision (namespace_context_valid n).
Proof. unfold namespace_context_valid; apply _. Defined.
Definition namespace_context_new (id : NamespaceId) (profile : NamespaceProfile)
    (capabilities : NamespaceCapabilities) : option NamespaceContext :=
  if decide (id_valid id) then Some (mk_namespace_context id profile capabilities) else None.

Inductive ClientAuthenticationMethod : Type := TrustedLocal | PeerCredentials | MitMagicCookie1.
Record ClientAuthProvenance : Type := mk_provenance {
  ap_method : ClientAuthenticationMethod; ap_session_generation : Z;
}.
#[export] Instance auth_method_eq_dec : EqDecision ClientAuthenticationMethod.
Proof. solve_decision. Defined.
#[export] Instance provenance_eq_dec : EqDecision ClientAuthProvenance.
Proof. solve_decision. Defined.
Definition provenance_new (method : ClientAuthenticationMethod) (session_generation : Z) :
    option ClientAuthProvenance :=
  if decide (session_generation = 0) then None else Some (mk_provenance method session_generation).
Definition provenance_valid (p : ClientAuthProvenance) : Prop := ap_session_generation p ≠ 0.
#[export] Instance provenance_valid_dec p : Decision (provenance_valid p).
Proof. unfold provenance_valid; apply _. Defined.

Record ClientAdmissionContext : Type := mk_admission {
  ad_client_id : ClientAdmissionId; ad_namespace : NamespaceContext;
  ad_auth_provenance : ClientAuthProvenance;
}.
#[export] Instance admission_eq_dec : EqDecision ClientAdmissionContext.
Proof. solve_decision. Defined.
Definition admission_valid (a : ClientAdmissionContext) : Prop :=
  id_valid (ad_client_id a) ∧ namespace_context_valid (ad_namespace a)
  ∧ provenance_valid (ad_auth_provenance a).
#[export] Instance admission_valid_dec a : Decision (admission_valid a).
Proof. unfold admission_valid; apply _. Defined.
Definition admission_new (client_id : ClientAdmissionId) (namespace : NamespaceContext)
    (auth_provenance : ClientAuthProvenance) : option ClientAdmissionContext :=
  if decide (id_valid client_id ∧ namespace_context_valid namespace
             ∧ provenance_valid auth_provenance)
  then Some (mk_admission client_id namespace auth_provenance) else None.

(** ** Portals *)

Inductive PortalTransferKind : Type :=
| KClipboard | KDragAndDrop | KFileHandoff | KScreenCapture | KScreenRecording | KUriOpen
| KNotification.
#[export] Instance portal_kind_eq_dec : EqDecision PortalTransferKind.
Proof. solve_decision. Defined.

Definition kind_capability (k : PortalTransferKind) : NamespacePortalCapability :=
  match k with
  | KClipboard => CapClipboard | KDragAndDrop => CapDragAndDrop | KFileHandoff => CapFileHandoff
  | KScreenCapture => CapScreenCapture | KScreenRecording => CapScreenRecording
  | KUriOpen => CapUriOpen | KNotification => CapNotification
  end.

Inductive PortalDecision : Type := DPending | DAllowed | DDenied | DRevoked.
#[export] Instance portal_decision_eq_dec : EqDecision PortalDecision.
Proof. solve_decision. Defined.

Record PortalTransfer : Type := mk_transfer {
  pt_transfer : PortalTransferId; pt_source_namespace : NamespaceId;
  pt_target_namespace : NamespaceId; pt_kind : PortalTransferKind;
  pt_mime_type : option (list Z); pt_byte_size : Z; pt_decision : PortalDecision;
  pt_generation : Z;
}.
#[export] Instance portal_transfer_eq_dec : EqDecision PortalTransfer.
Proof. solve_decision. Defined.

Record PortalRequest : Type := mk_portal_request {
  pr_transfer : PortalTransfer; pr_deadline_msec : Z;
}.
#[export] Instance portal_request_eq_dec : EqDecision PortalRequest.
Proof. solve_decision. Defined.

Inductive PortalGrantState : Type := GActive | GCompleted | GRevoked | GExpired.
#[export] Instance grant_state_eq_dec : EqDecision PortalGrantState.
Proof. solve_decision. Defined.

Record PortalGrant : Type := mk_grant {
  pg_transfer : PortalTransferId; pg_source_namespace : NamespaceId;
  pg_target_namespace : NamespaceId; pg_kind : PortalTransferKind;
  pg_source_generation : Z; pg_broker_generation : Z; pg_deadline_msec : Z;
  pg_state : PortalGrantState;
}.
#[export] Instance portal_grant_eq_dec : EqDecision PortalGrant.
Proof. solve_decision. Defined.

Record PortalBrokerRequestPacket : Type := mk_broker_request {
  bq_request : PortalRequest; bq_source_may_publish : bool; bq_target_may_request : bool;
}.
Inductive PortalBrokerResponseDecision : Type := RespAllowed (g : PortalGrant) | RespDenied.
Record PortalBrokerResponsePacket : Type := mk_broker_response {
  br_transfer : PortalTransferId; br_decision : PortalBrokerResponseDecision;
}.

Definition SOPHIA_PORTAL_MAX_MIME_TYPE_LEN : Z := 255.

(** ** Chrome *)

Record DisplayLabel : Type := mk_label { dl_text : list Z; dl_redacted : bool }.
Inductive TrustLevel : Type := TrustUnknown | Trusted | Untrusted | Isolated.
Inductive AttentionState : Type := AttentionNone | Notice | Critical.
#[export] Instance label_eq_dec : EqDecision DisplayLabel.
Proof. solve_decision. Defined.
#[export] Instance trust_eq_dec : EqDecision TrustLevel.
Proof. solve_decision. Defined.
#[export] Instance attention_eq_dec : EqDecision AttentionState.
Proof. solve_decision. Defined.
Record ChromeDescriptor : Type := mk_descriptor_chrome {
  cd_surface : SurfaceId; cd_label : option DisplayLabel; cd_icon : option IconTokenId;
  cd_trust_level : TrustLevel; cd_attention : AttentionState; cd_generation : Z;
}.

Definition SOPHIA_BROKER_HEALTH_MAX_MESSAGE_LEN : Z := 128.
Inductive BrokerKind : Type := BrokerPortal | BrokerMetadata.
#[export] Instance broker_kind_eq_dec : EqDecision BrokerKind.
Proof. solve_decision. Defined.
Inductive BrokerHealthState : Type := BrokerStarting | BrokerReady | BrokerDegraded | BrokerStopped.
#[export] Instance broker_health_state_eq_dec : EqDecision BrokerHealthState.
Proof. solve_decision. Defined.
Inductive BrokerHealthError : Type := MessageTooLong (len max : Z).
Record BrokerHealthPacket : Type := mk_broker_health {
  bh_broker : BrokerKind; bh_state : BrokerHealthState; bh_generation : Z;
  bh_message : option (list Z);
}.
#[export] Instance broker_health_eq_dec : EqDecision BrokerHealthPacket.
Proof. solve_decision. Defined.

Definition broker_health_validate (p : BrokerHealthPacket) : result unit BrokerHealthError :=
  match bh_message p with
  | Some message =>
      ensure! (Z.of_nat (length message) ≤ SOPHIA_BROKER_HEALTH_MAX_MESSAGE_LEN)
      else MessageTooLong (Z.of_nat (length message)) SOPHIA_BROKER_HEALTH_MAX_MESSAGE_LEN in
      Ok tt
  | None => Ok tt
  end.
Definition broker_health_new (broker : BrokerKind) (state : BrokerHealthState) (generation : Z)
    (message : option (list Z)) : result BrokerHealthPacket BrokerHealthError :=
  let packet := mk_broker_health broker state generation message in
  let? _u := broker_health_validate packet in
  Ok packet.

(** ** Lemmas: capability sets are sets of capabilities *)

Lemma capability_index_inj c1 c2 : capability_index c1 = capability_index c2 → c1 = c2.
Proof. by destruct c1, c2. Qed.

Lemma land_bit_nonzero z i : 0 ≤ i → Z.land z (Z.shiftl 1 i) ≠ 0 ↔ Z.testbit z i = true.
Proof.
  intros Hi. rewrite Z.shiftl_1_l.
  destruct (Z.testbit z i) eqn:Hb.
  - split; [done|]. intros _ H0.
    assert (Z.testbit (Z.land z (2 ^ i)) i = false) as H by (rewrite H0; apply Z.bits_0).
    rewrite Z.land_spec, Hb, Z.pow2_bits_true in H by lia. done.
  - split; [|done]. intros H. exfalso. apply H. apply Z.bits_inj'. intros n Hn.
    rewrite Z.land_spec, Z.bits_0. destruct (decide (n = i)) as [->|].
    + by rewrite Hb.
    + rewrite Z.pow2_bits_false by lia. by rewrite andb_false_r.
Qed.

Lemma allows_request_testbit c k :
  allows_request c k ↔ Z.testbit (nc_request_bits c) (capability_index k) = true.
Proof. apply land_bit_nonzero. by destruct k. Qed.
Lemma allows_publish_testbit c k :
  allows_publish c k ↔ Z.testbit (nc_publish_bits c) (capability_index k) = true.
Proof. apply land_bit_nonzero. by destruct k. Qed.

Lemma lor_bit_testbit z i j : 0 ≤ i → 0 ≤ j →
  Z.testbit (Z.lor z (Z.shiftl 1 i)) j = true ↔ Z.testbit z j = true ∨ j = i.
Proof.
  intros. rewrite Z.lor_spec, orb_true_iff, Z.shiftl_1_l.
  destruct (decide (j = i)) as [->|].
  - rewrite Z.pow2_bits_true by lia. tauto.
  - rewrite Z.pow2_bits_false by lia. naive_solver.
Qed.

Lemma unsupported_bits_zero b : u64_ok b → unsupported_bits b = 0 ↔ b ≤ SUPPORTED_BITS.
Proof.
  intros Hb. unfold unsupported_bits.
  change (Z.lxor u64_MAX SUPPORTED_BITS) with (Z.shiftl (Z.ones 57) 7).
  change SUPPORTED_BITS with 127.
  assert (Z.land b (Z.shiftl (Z.ones 57) 7) = Z.shiftl (Z.shiftr b 7) 7) as ->.
  { apply Z.bits_inj'. intros n Hn. rewrite Z.land_spec, !Z.shiftl_spec by lia.
    destruct (decide (n < 7)).
    - rewrite !(Z.testbit_neg_r _ (n - 7)) by lia. by rewrite andb_false_r.
    - rewrite Z.shiftr_spec, Z.sub_add by lia. rewrite (Z.testbit_ones_nonneg 57) by lia.
      destruct (decide (n < 64)).
      + rewrite (proj2 (Z.ltb_lt _ _)) by lia. apply andb_true_r.
      + rewrite (Z.bits_above_log2 b n); [done|word_lia|].
        destruct (decide (b = 0)) as [->|]; [simpl; lia|].
        apply Z.log2_lt_pow2; [word_lia|].
        apply Z.lt_le_trans with (2 ^ 64); [word_lia|apply Z.pow_le_mono_r; lia]. }
  rewrite Z.shiftl_mul_pow2, Z.shiftr_div_pow2 by lia. change (2 ^ 7) with 128.
  pose proof (Z.div_mod b 128 ltac:(lia)). pose proof (Z.mod_pos_bound b 128 ltac:(lia)).
  word_lia.
Qed.
