(* ===== verification/Errors.v ===== *)
(** * Error types shared by the components
    ([ipc/types.rs], [wm.rs], [session/observation.rs], [error.rs])

    [&'static str] payloads are strings, [String] payloads UTF-8 bytes. *)

From stdpp Require Import strings.
From S2P Require Import Prelude Ids.
Local Open Scope Z_scope.

Inductive IpcCodecError : Type :=
| Truncated
| BadMagic
| UnsupportedVersion (v : Z)
| UnknownMessageKind (k : Z)
| PayloadTooLarge (len : Z)
| ReservedNonZero (v : Z)
| TrailingBytes (n : Z)
| CountTooLarge (count max : Z)
| TextTooLarge (field : string) (len max : Z)
| InvalidUtf8 (field : string)
| InvalidEnum (field : string) (value : Z)
| InvalidBool (field : string) (value : Z).

Inductive WmIpcError : Type :=
| WmCodec (e : IpcCodecError)
| WmIo (message : list Z)
| TransactionMismatch (expected actual : TransactionId)
| Negotiation (message : string).

Inductive SessionRuntimeObservationError : Type :=
| TooManyObservations (max : Z)
| BrokerStatusMessageTooLong (len max : Z).

Inductive EngineError : Type :=
| InvalidOutput
| InvalidSurface
| InvalidFrame
| EngineWmIpc (e : WmIpcError)
| EngineRuntimeObservation (e : SessionRuntimeObservationError).

#[export] Instance IpcCodecError_eq_dec : EqDecision IpcCodecError.
Proof. solve_decision. Defined.
#[export] Instance WmIpcError_eq_dec : EqDecision WmIpcError.
Proof. solve_decision. Defined.
#[export] Instance ObservationError_eq_dec : EqDecision SessionRuntimeObservationError.
Proof. solve_decision. Defined.
#[export] Instance EngineError_eq_dec : EqDecision EngineError.
Proof. solve_decision. Defined.
