(* ===== verification/VisualState.v ===== *)
(** * Committed and pending surface state ([sophia-engine/src/visual_state.rs])

    The per-surface table of committed and pending visual state, the readiness
    test every authority transaction passes before it may commit, and the
    slow-client timeout decision.  The map is a [gmap]; vectors built from it
    are in ascending surface order. *)

From S2P Require Import Prelude Ids Geometry Packets Errors.
Local Open Scope Z_scope.

(** ** Layers kept from the last commit *)

Record LastCommittedLayout : Type := mk_last_layout { ll_layers : list LayerSnapshot }.

(** [replace]: clear, then extend from the slice. *)
Definition layout_replace (l : LastCommittedLayout) (layers : list LayerSnapshot) :
    LastCommittedLayout := mk_last_layout ([] ++ layers).
(** [restore_into] overwrites the caller's vector. *)
Definition layout_restore_into (l : LastCommittedLayout) (layers : list LayerSnapshot) :
    list LayerSnapshot := [] ++ ll_layers l.

(** ** The table *)

Record SurfaceVisualStateEntry : Type := mk_entry {
  ve_surface : SurfaceId; ve_committed : option CommittedSurfaceState;
  ve_pending : option SurfaceTransaction;
}.
Record SurfaceVisualStateTable : Type := mk_visual { vt_entries : gmap SurfaceId SurfaceVisualStateEntry }.

Inductive SurfaceTransactionCommitReadiness : Type :=
| CrReady
| CrInvalidSurface
| CrEmptyGeometry
| CrMissingBuffer
| CrNotReady (r : SurfaceTransactionReadiness)
| CrStaleGeneration (current expected : Z).
#[export] Instance CommitReadiness_eq_dec : EqDecision SurfaceTransactionCommitReadiness.
Proof. solve_decision. Defined.

Inductive SurfaceTimeoutPolicy : Type := PreserveCommittedPolicy | DegradeToPendingPolicy.

Inductive SlowClientVisualDecision : Type :=
| PreserveCommitted (surface : SurfaceId) (committed : option CommittedSurfaceState)
| DegradeToPending (surface : SurfaceId) (degraded : CommittedSurfaceState)
| NotTimedOut (surface : SurfaceId) (readiness : SurfaceTransactionCommitReadiness).

Definition visual_new : SurfaceVisualStateTable := mk_visual ∅.

Definition upsert_committed (v : SurfaceVisualStateTable) (c : CommittedSurfaceState) :
    SurfaceVisualStateTable :=
  mk_visual (partial_alter (λ e, Some match e with
    | Some entry => mk_entry (ve_surface entry) (Some c) (ve_pending entry)
    | None => mk_entry (cs_surface c) (Some c) None
    end) (cs_surface c) (vt_entries v)).

Definition from_committed_states (l : list CommittedSurfaceState) : SurfaceVisualStateTable :=
  foldl upsert_committed visual_new l.

Definition visual_committed (v : SurfaceVisualStateTable) (s : SurfaceId) :
    option CommittedSurfaceState := vt_entries v !! s ≫= ve_committed.
Definition visual_pending (v : SurfaceVisualStateTable) (s : SurfaceId) :
    option SurfaceTransaction := vt_entries v !! s ≫= ve_pending.

Definition committed_states (v : SurfaceVisualStateTable) : list CommittedSurfaceState :=
  omap ve_committed (btree_values (vt_entries v)).
Definition pending_transactions (v : SurfaceVisualStateTable) : list SurfaceTransaction :=
  omap ve_pending (btree_values (vt_entries v)).

Definition transaction_commit_readiness (v : SurfaceVisualStateTable) (t : SurfaceTransaction) :
    SurfaceTransactionCommitReadiness :=
  if decide (¬ surface_valid (st_surface t)) then CrInvalidSurface
  else if decide (rect_is_empty (st_target_geometry t)) then CrEmptyGeometry
  else if decide (st_target_buffer t = BufferNone ∧ visual_committed v (st_surface t) = None)
    then CrMissingBuffer
  else if decide (st_readiness t ≠ TxReady) then CrNotReady (st_readiness t)
  else
    let current := default 0 (cs_committed_generation <$> visual_committed v (st_surface t)) in
    let expected := st_previous_committed_generation t in
    if decide (current ≠ expected) then CrStaleGeneration current expected else CrReady.

(** The state a transaction leaves when it commits. *)
Definition degraded_state (t : SurfaceTransaction) : CommittedSurfaceState :=
  mk_committed (st_surface t) (u64_succ (st_previous_committed_generation t))
    (st_target_geometry t) (st_target_buffer t) (st_damage t).

Definition slow_client_timeout_decision (v : SurfaceVisualStateTable) (t : SurfaceTransaction)
    (policy : SurfaceTimeoutPolicy) : SlowClientVisualDecision :=
  let readiness := transaction_commit_readiness v t in
  if decide (readiness ≠ CrNotReady TxTimedOut) then NotTimedOut (st_surface t) readiness
  else match policy with
       | PreserveCommittedPolicy =>
           PreserveCommitted (st_surface t) (visual_committed v (st_surface t))
       | DegradeToPendingPolicy => DegradeToPending (st_surface t) (degraded_state t)
       end.

Definition stage_pending (v : SurfaceVisualStateTable) (p : SurfaceTransaction) :
    result SurfaceVisualStateTable EngineError :=
  ensure! surface_valid (st_surface p) else InvalidSurface in
  Ok (mk_visual (partial_alter (λ e, Some match e with
    | Some entry => mk_entry (ve_surface entry) (ve_committed entry) (Some p)
    | None => mk_entry (st_surface p) None (Some p)
    end) (st_surface p) (vt_entries v))).

Definition clear_pending (v : SurfaceVisualStateTable) (s : SurfaceId) :
    option SurfaceTransaction * SurfaceVisualStateTable :=
  match vt_entries v !! s with
  | Some entry =>
      (ve_pending entry,
       mk_visual (<[s := mk_entry (ve_surface entry) (ve_committed entry) None]> (vt_entries v)))
  | None => (None, v)
  end.

(** ** Lemmas *)

(** The committed half of the table, as a function of the surface. *)
Lemma visual_committed_upsert v c s :
  visual_committed (upsert_committed v c) s =
    if decide (s = cs_surface c) then Some c else visual_committed v s.
Proof.
  unfold visual_committed, upsert_committed; simpl. case_decide as Hs.
  - subst s. rewrite lookup_partial_alter_eq; simpl. by destruct (vt_entries v !! _).
  - by rewrite lookup_partial_alter_ne by congruence.
Qed.

Lemma visual_pending_upsert v c s :
  visual_pending (upsert_committed v c) s = visual_pending v s.
Proof.
  unfold visual_pending, upsert_committed; simpl.
  destruct (decide (s = cs_surface c)) as [->|Hs].
  - rewrite lookup_partial_alter_eq; simpl. by destruct (vt_entries v !! _).
  - by rewrite lookup_partial_alter_ne by congruence.
Qed.

Lemma stage_pending_spec v p v' s :
  stage_pending v p = Ok v' →
  visual_committed v' s = visual_committed v s ∧
  visual_pending v' s = if decide (s = st_surface p) then Some p else visual_pending v s.
Proof.
  unfold stage_pending, visual_committed, visual_pending. case_decide; [|done].
  intros [= <-]; simpl. case_decide as Hs.
  - subst s. rewrite lookup_partial_alter_eq; simpl. by destruct (vt_entries v !! _).
  - by rewrite !lookup_partial_alter_ne by congruence.
Qed.

Lemma clear_pending_spec v s s' :
  (clear_pending v s).1 = visual_pending v s ∧
  visual_committed (clear_pending v s).2 s' = visual_committed v s' ∧
  visual_pending (clear_pending v s).2 s' = if decide (s' = s) then None else visual_pending v s'.
Proof.
  unfold clear_pending, visual_committed, visual_pending.
  destruct (vt_entries v !! s) as [e|] eqn:E; simpl; split_and!; try done.
  - destruct (decide (s' = s)) as [->|]; [by rewrite lookup_insert_eq, E|].
    by rewrite lookup_insert_ne.
  - case_decide as Hs; [subst; by rewrite lookup_insert_eq|]. by rewrite lookup_insert_ne.
  - case_decide; [|done]. subst. by rewrite E.
Qed.
