(* ===== verification/EngineCommit.v ===== *)
(** * Atomic commits of authority transactions
    ([sophia-engine/src/engine/layout/authority_transaction.rs],
    [runtime_driver/live_adapter/intake.rs])

    [prepare_surface_transactions] validates a batch against the committed
    states and builds a candidate; [apply_prepared_surface_commit] installs it,
    possibly much later, after re-checking the baseline of every touched
    surface.  The committed states are a [Vec], searched from the front. *)

From S2P Require Import Prelude Ids Geometry Packets Errors VisualState.
Local Open Scope Z_scope.

(** ** The committed vector *)

Definition lookup_state (l : list CommittedSurfaceState) (s : SurfaceId) :
    option CommittedSurfaceState := find_first (λ c, cs_surface c = s) l.

(** [if let Some(index) = l.position(..) { l[index] = new } else { l.push(new) }] *)
Definition put_state (s : SurfaceId) (new : CommittedSurfaceState)
    (l : list CommittedSurfaceState) : list CommittedSurfaceState :=
  match position (λ c, cs_surface c = s) l with
  | Some index => <[index := new]> l
  | None => l ++ [new]
  end.

(** No surface has two committed states. *)
Definition surfaces_unique (l : list CommittedSurfaceState) : Prop := NoDup (cs_surface <$> l).

(** ** Prepared commits *)

Record PreparedSurfaceCommit : Type := mk_prepared {
  pc_commit : TransactionCommit; pc_baseline : list CommittedSurfaceState;
  pc_candidate : list CommittedSurfaceState;
}.

Definition prepared_is_ready (p : PreparedSurfaceCommit) : Prop :=
  tc_outcome (pc_commit p) = Committed.
#[export] Instance prepared_is_ready_dec p : Decision (prepared_is_ready p).
Proof. unfold prepared_is_ready; apply _. Defined.

(** The validation of one transaction of the batch: [Err] is the outcome the
    whole batch is rejected with. *)
Definition check_transaction (transaction : TransactionId) (visual_state : SurfaceVisualStateTable)
    (t : SurfaceTransaction) : result unit TransactionOutcome :=
  ensure! st_transaction t = transaction else RejectedStaleSurface in
  match transaction_commit_readiness visual_state t with
  | CrReady => Ok ()
  | CrNotReady (TxPending | TxTimedOut) => Err TimedOut
  | CrNotReady TxFailed => Err RejectedStaleSurface
  | CrInvalidSurface | CrEmptyGeometry | CrMissingBuffer | CrNotReady TxReady =>
      Err RejectedInvalidSurface
  | CrStaleGeneration _ _ => Err RejectedStaleSurface
  end.

(** [next_state] of the second loop. *)
Definition next_state (t : SurfaceTransaction) : CommittedSurfaceState :=
  mk_committed (st_surface t) (saturating_add u64_MAX (st_previous_committed_generation t) 1)
    (st_target_geometry t) (st_target_buffer t) (st_damage t).

Definition prepare_surface_transactions (transaction : TransactionId)
    (transactions : list SurfaceTransaction) (committed : list CommittedSurfaceState) :
    PreparedSurfaceCommit :=
  let applied_surfaces := st_surface <$> transactions in
  let baseline := committed in
  let visual_state := from_committed_states baseline in
  match try_fold (λ _ t, check_transaction transaction visual_state t) () transactions with
  | Err outcome => mk_prepared (mk_commit transaction outcome []) baseline baseline
  | Ok _ =>
      let next_committed :=
        foldl (λ l t, put_state (st_surface t) (next_state t) l) baseline transactions in
      mk_prepared (mk_commit transaction Committed applied_surfaces) baseline next_committed
  end.

(** The install loop; [None] is the [expect] on a missing candidate state. *)
Fixpoint install_surfaces (candidate : list CommittedSurfaceState) (surfaces : list SurfaceId)
    (committed : list CommittedSurfaceState) : option (list CommittedSurfaceState) :=
  match surfaces with
  | [] => Some committed
  | surface :: surfaces =>
      c ← lookup_state candidate surface;
      install_surfaces candidate surfaces (put_state surface c committed)
  end.

Definition baseline_is_current (p : PreparedSurfaceCommit) (committed : list CommittedSurfaceState) :
    Prop :=
  Forall (λ s, lookup_state (pc_baseline p) s = lookup_state committed s)
    (tc_applied_surfaces (pc_commit p)).
#[export] Instance baseline_is_current_dec p c : Decision (baseline_is_current p c).
Proof. unfold baseline_is_current; apply _. Defined.

Definition apply_prepared_surface_commit (p : PreparedSurfaceCommit)
    (committed : list CommittedSurfaceState) : option (TransactionCommit * list CommittedSurfaceState) :=
  if decide (¬ prepared_is_ready p) then Some (pc_commit p, committed)
  else if decide (¬ baseline_is_current p committed) then
    Some (mk_commit (tc_transaction (pc_commit p)) RejectedStaleSurface [], committed)
  else
    committed' ← install_surfaces (pc_candidate p) (tc_applied_surfaces (pc_commit p)) committed;
    Some (pc_commit p, committed').

Definition commit_surface_transactions (transaction : TransactionId)
    (transactions : list SurfaceTransaction) (committed : list CommittedSurfaceState) :
    option (TransactionCommit * list CommittedSurfaceState) :=
  apply_prepared_surface_commit
    (prepare_surface_transactions transaction transactions committed) committed.

(** ** Intake batches: a commit, then the surfaces the authority destroyed *)

Record AuthorityTransactionIntake : Type := mk_intake {
  in_transaction : TransactionId; in_transactions : list SurfaceTransaction;
  in_removed_surfaces : list SurfaceId;
}.

Definition intake_commit (i : AuthorityTransactionIntake) (committed : list CommittedSurfaceState) :
    option (TransactionCommit * list CommittedSurfaceState) :=
  r ← commit_surface_transactions (in_transaction i) (in_transactions i) committed;
  if decide (tc_outcome r.1 = Committed) then
    Some (r.1, filter (λ state, cs_surface state ∉ in_removed_surfaces i) r.2)
  else Some r.

(** [from_authority_batches]: the batches commit in order, each on the result
    of the one before. *)
Fixpoint commit_batches (batches : list AuthorityTransactionIntake)
    (committed : list CommittedSurfaceState) :
    option (list TransactionCommit * list CommittedSurfaceState) :=
  match batches with
  | [] => Some ([], committed)
  | batch :: batches =>
      r ← intake_commit batch committed;
      q ← commit_batches batches r.2;
      Some (r.1 :: q.1, q.2)
  end.

(** ** The vector as a map *)

Lemma lookup_state_surface l s c : lookup_state l s = Some c → c ∈ l ∧ cs_surface c = s.
Proof. apply (find_first_Some (λ c, cs_surface c = s)). Qed.

Lemma lookup_state_None l s : lookup_state l s = None ↔ s ∉ cs_surface <$> l.
Proof.
  unfold lookup_state. rewrite find_first_None, Forall_forall, list_elem_of_fmap. naive_solver.
Qed.

Lemma lookup_state_cons c l s :
  lookup_state (c :: l) s = if decide (cs_surface c = s) then Some c else lookup_state l s.
Proof. unfold lookup_state. by rewrite find_first_cons. Qed.

Lemma lookup_state_elem l c :
  surfaces_unique l → c ∈ l → lookup_state l (cs_surface c) = Some c.
Proof.
  unfold surfaces_unique. induction l as [|d l IH]; [set_solver|]. csimpl.
  intros [Hd Hl]%NoDup_cons Hin. rewrite lookup_state_cons.
  apply elem_of_cons in Hin as [->|Hin]; [by rewrite decide_True|].
  rewrite decide_False; [auto|]. intros Heq. apply Hd. rewrite Heq.
  by apply list_elem_of_fmap_2.
Qed.

Lemma position_insert_lookup l s i new :
  position (λ c, cs_surface c = s) l = Some i → cs_surface new = s →
  (∀ s', lookup_state (<[i := new]> l) s' = if decide (s' = s) then Some new else lookup_state l s') ∧
  cs_surface <$> <[i := new]> l = cs_surface <$> l.
Proof.
  intros Hpos Hnew. split.
  - intros s'. revert i Hpos. induction l as [|c l IH]; intros i Hpos; [done|].
    unfold position in Hpos; simpl in Hpos. case_decide as Hc; simplify_eq/=.
    + rewrite !lookup_state_cons. repeat case_decide; congruence.
    + destruct (list_find _ l) as [[j y]|] eqn:E; simplify_eq/=.
      rewrite !lookup_state_cons, (IH j) by (unfold position; by rewrite E).
      repeat case_decide; congruence.
  - apply position_Some in Hpos as (c&Hc&Hs&_). rewrite list_fmap_insert.
    apply list_insert_id. rewrite list_lookup_fmap, Hc. simpl in *. congruence.
Qed.

Lemma lookup_put_state l s new s' :
  cs_surface new = s →
  lookup_state (put_state s new l) s' = if decide (s' = s) then Some new else lookup_state l s'.
Proof.
  intros Hnew. unfold put_state. destruct (position _ l) as [i|] eqn:E.
  - by apply position_insert_lookup.
  - apply position_find_first in E. unfold lookup_state. rewrite find_first_app, find_first_cons.
    destruct (decide (s' = s)) as [->|Hs].
    + unfold lookup_state in E. rewrite E. by rewrite decide_True.
    + case_decide; [congruence|]. by destruct (find_first (λ c, cs_surface c = s') l).
Qed.

Lemma put_state_surfaces l s new :
  cs_surface new = s →
  cs_surface <$> put_state s new l =
    if decide (s ∈ cs_surface <$> l) then cs_surface <$> l else (cs_surface <$> l) ++ [s].
Proof.
  intros Hnew. unfold put_state. destruct (position _ l) as [i|] eqn:E.
  - destruct (position_insert_lookup l s i new E Hnew) as [_ ->].
    apply position_Some in E as (c&Hc&Hs&_). rewrite decide_True; [done|].
    apply list_elem_of_fmap. exists c. split; [done|]. by eapply list_elem_of_lookup_2.
  - apply position_find_first, lookup_state_None in E. rewrite decide_False by done.
    rewrite fmap_app. simpl. by rewrite Hnew.
Qed.

Lemma put_state_unique l s new :
  cs_surface new = s → surfaces_unique l → surfaces_unique (put_state s new l).
Proof.
  intros Hnew Hl. unfold surfaces_unique. rewrite put_state_surfaces by done.
  case_decide; [done|]. apply NoDup_app. split_and!; [done| |apply NoDup_singleton].
  intros x Hx ->%list_elem_of_singleton. done.
Qed.

(** What a sequence of writes leaves: the last write to a surface. *)
Definition last_write {A} (f : A → CommittedSurfaceState) (ts : list A) (s : SurfaceId) :
    option CommittedSurfaceState :=
  last (filter (λ c, cs_surface c = s) (f <$> ts)).

Lemma last_write_snoc {A} (f : A → CommittedSurfaceState) ts t s :
  last_write f (ts ++ [t]) s =
    if decide (s = cs_surface (f t)) then Some (f t) else last_write f ts s.
Proof.
  unfold last_write. rewrite fmap_app, filter_app. csimpl. rewrite filter_cons, filter_nil.
  case_decide; case_decide; try congruence; [by rewrite last_snoc|by rewrite app_nil_r].
Qed.

Lemma last_write_Some {A} (f : A → CommittedSurfaceState) ts s :
  is_Some (last_write f ts s) ↔ ∃ t, t ∈ ts ∧ cs_surface (f t) = s.
Proof.
  induction ts as [|t ts IH] using rev_ind.
  - split; [intros []; done|set_solver].
  - rewrite last_write_snoc. setoid_rewrite elem_of_app. setoid_rewrite list_elem_of_singleton.
    case_decide; [naive_solver|]. rewrite IH. naive_solver.
Qed.

Lemma foldl_put_lookup {A} (f : A → CommittedSurfaceState) ts l s :
  lookup_state (foldl (λ l t, put_state (cs_surface (f t)) (f t) l) l ts) s =
    match last_write f ts s with Some c => Some c | None => lookup_state l s end.
Proof.
  induction ts as [|t ts IH] using rev_ind; [done|].
  rewrite foldl_app, last_write_snoc; simpl. rewrite lookup_put_state by done.
  by case_decide.
Qed.

Lemma foldl_put_unique {A} (f : A → CommittedSurfaceState) ts l :
  surfaces_unique l →
  surfaces_unique (foldl (λ l t, put_state (cs_surface (f t)) (f t) l) l ts).
Proof.
  revert l. induction ts as [|t ts IH]; intros l Hl; simpl; [done|].
  by apply IH, put_state_unique.
Qed.

(** Building the visual table from a vector without duplicates loses nothing. *)
Lemma from_committed_states_lookup l s :
  surfaces_unique l → visual_committed (from_committed_states l) s = lookup_state l s.
Proof.
  intros Hl. unfold from_committed_states.
  assert (∀ v, visual_committed (foldl upsert_committed v l) s =
            match lookup_state l s with Some c => Some c | None => visual_committed v s end) as H.
  { unfold surfaces_unique in Hl. induction l as [|c l IH]; intros v; [done|]. simpl.
    apply NoDup_cons in Hl as [Hc Hl]. rewrite IH by done.
    rewrite visual_committed_upsert, lookup_state_cons.
    destruct (decide (cs_surface c = s)) as [<-|]; [|by rewrite decide_False].
    apply lookup_state_None in Hc. by rewrite Hc, decide_True. }
  rewrite H. unfold visual_new, visual_committed; simpl. rewrite lookup_empty.
  by destruct (lookup_state l s).
Qed.

Definition committed_map (l : list CommittedSurfaceState) : gmap SurfaceId CommittedSurfaceState :=
  list_to_map ((λ c, (cs_surface c, c)) <$> l).

Lemma lookup_committed_map l s : committed_map l !! s = lookup_state l s.
Proof.
  unfold committed_map. induction l as [|c l IH]; [done|]. csimpl.
  rewrite lookup_state_cons. case_decide as Hc.
  - subst. by rewrite lookup_insert_eq.
  - by rewrite lookup_insert_ne.
Qed.

(** ** What a commit promises

    The specification speaks of the map only: when a transaction is ready, what
    a rejected one is rejected with, and the update of a committed batch. *)

Definition tx_ready (m : gmap SurfaceId CommittedSurfaceState) (transaction : TransactionId)
    (t : SurfaceTransaction) : Prop :=
  st_transaction t = transaction ∧ surface_valid (st_surface t) ∧
  ¬ rect_is_empty (st_target_geometry t) ∧
  ¬ (st_target_buffer t = BufferNone ∧ m !! st_surface t = None) ∧
  st_readiness t = TxReady ∧
  st_previous_committed_generation t =
    match m !! st_surface t with Some c => cs_committed_generation c | None => 0 end.
#[export] Instance tx_ready_dec m i t : Decision (tx_ready m i t).
Proof. unfold tx_ready; apply _. Defined.

(** Why a transaction that is not ready is rejected. *)
Definition rejection (m : gmap SurfaceId CommittedSurfaceState) (transaction : TransactionId)
    (t : SurfaceTransaction) : TransactionOutcome :=
  if decide (st_transaction t = transaction ∧
             (¬ surface_valid (st_surface t) ∨ rect_is_empty (st_target_geometry t) ∨
              (st_target_buffer t = BufferNone ∧ m !! st_surface t = None)))
  then RejectedInvalidSurface
  else if decide (st_transaction t = transaction ∧
                  (st_readiness t = TxPending ∨ st_readiness t = TxTimedOut)) then TimedOut
  else RejectedStaleSurface.

Definition commit_update (m : gmap SurfaceId CommittedSurfaceState) (ts : list SurfaceTransaction) :
    gmap SurfaceId CommittedSurfaceState :=
  foldl (λ m t, <[st_surface t := next_state t]> m) m ts.

Lemma rejection_not_committed m i t : rejection m i t ≠ Committed.
Proof. unfold rejection. by repeat case_decide. Qed.

Lemma lookup_commit_update m ts s :
  commit_update m ts !! s =
    match last_write next_state ts s with Some c => Some c | None => m !! s end.
Proof.
  unfold commit_update. induction ts as [|t ts IH] using rev_ind; [done|].
  rewrite foldl_app, last_write_snoc; simpl. case_decide as Hs.
  - subst. by rewrite lookup_insert_eq.
  - by rewrite lookup_insert_ne by congruence.
Qed.

(** The readiness test against the table built from the vector is the
    readiness test against the map. *)
Lemma check_transaction_spec transaction l t :
  surfaces_unique l →
  check_transaction transaction (from_committed_states l) t =
    if decide (tx_ready (committed_map l) transaction t) then Ok ()
    else Err (rejection (committed_map l) transaction t).
Proof.
  intros Hl. unfold check_transaction, transaction_commit_readiness.
  rewrite from_committed_states_lookup, <-lookup_committed_map by done.
  destruct (decide (tx_ready _ _ _)) as [Hr|Hr]; unfold tx_ready in Hr.
  - destruct Hr as (?&?&?&?&Hrd&Hgen). rewrite decide_True by done.
    rewrite !decide_False; try done; try tauto.
    rewrite Hgen. intros Hne. apply Hne. by destruct (committed_map l !! _).
  - unfold rejection. case_decide; [|by rewrite !decide_False by tauto].
    case_decide; [by rewrite decide_True by tauto|].
    case_decide; [by rewrite decide_True by tauto|].
    case_decide; [by rewrite decide_True by tauto|].
    rewrite (decide_False (P := _ ∧ (_ ∨ _ ∨ _))) by tauto.
    case_decide as Hrd.
    + destruct (st_readiness t) eqn:E; try done;
        by first [rewrite decide_True by tauto|rewrite decide_False by naive_solver].
    + rewrite (decide_False (P := _ ∧ _)) by (rewrite Hrd; intros [_ [|]]; done).
      case_decide as Hgen; [done|].
      destruct Hr. split_and!; try tauto.
      rewrite <-Hgen. by destruct (committed_map l !! _).
Qed.

(** The validation loop stops at the first transaction that is not ready. *)
Lemma try_fold_check_spec {A} (P : A → Prop) `{∀ a, Decision (P a)} (rej : A → TransactionOutcome)
    (f : A → result unit TransactionOutcome) ts :
  (∀ t, f t = if decide (P t) then Ok () else Err (rej t)) →
  try_fold (λ _ t, f t) () ts =
    match find_first (λ t, ¬ P t) ts with Some t => Err (rej t) | None => Ok () end.
Proof.
  intros Hf. induction ts as [|t ts IH]; [done|]. simpl. rewrite find_first_cons, Hf.
  destruct (decide (P t)); simpl; [rewrite decide_False by tauto|rewrite decide_True by done]; done.
Qed.

Definition first_rejected (m : gmap SurfaceId CommittedSurfaceState) transaction
    (ts : list SurfaceTransaction) : option SurfaceTransaction :=
  find_first (λ t, ¬ tx_ready m transaction t) ts.

Lemma prepare_spec transaction ts l :
  surfaces_unique l →
  prepare_surface_transactions transaction ts l =
    match first_rejected (committed_map l) transaction ts with
    | Some t => mk_prepared (mk_commit transaction (rejection (committed_map l) transaction t) []) l l
    | None => mk_prepared (mk_commit transaction Committed (st_surface <$> ts)) l
                (foldl (λ l t, put_state (st_surface t) (next_state t) l) l ts)
    end.
Proof.
  intros Hl. unfold prepare_surface_transactions, first_rejected.
  rewrite (try_fold_check_spec (tx_ready (committed_map l) transaction)
            (rejection (committed_map l) transaction)).
  - by destruct (find_first _ ts).
  - intros t. by apply check_transaction_spec.
Qed.

Lemma prepare_commit_rejected transaction ts l t :
  surfaces_unique l → first_rejected (committed_map l) transaction ts = Some t →
  ¬ prepared_is_ready (prepare_surface_transactions transaction ts l).
Proof.
  intros Hl Ht. rewrite prepare_spec, Ht by done. unfold prepared_is_ready; simpl.
  apply rejection_not_committed.
Qed.

(** The candidate built by the second loop, read back. *)
Lemma candidate_lookup ts l s :
  lookup_state (foldl (λ l t, put_state (st_surface t) (next_state t) l) l ts) s =
    match last_write next_state ts s with Some c => Some c | None => lookup_state l s end.
Proof. apply (foldl_put_lookup next_state). Qed.

Lemma install_spec candidate ss l :
  (∀ s, s ∈ ss → is_Some (lookup_state candidate s)) → surfaces_unique l →
  ∃ l', install_surfaces candidate ss l = Some l' ∧ surfaces_unique l' ∧
    ∀ s, lookup_state l' s = if decide (s ∈ ss) then lookup_state candidate s else lookup_state l s.
Proof.
  revert l. induction ss as [|s0 ss IH]; intros l Hc Hl.
  { by exists l. }
  cbn [install_surfaces]. destruct (Hc s0) as [c Hs0]; [left|]. rewrite Hs0. cbn [mbind option_bind].
  apply lookup_state_surface in Hs0 as Hsc. destruct Hsc as [_ Hsc].
  destruct (IH (put_state s0 c l)) as (l'&Hi&Hu&Hl'); [intros; apply Hc; by right|by apply put_state_unique|].
  exists l'. split_and!; [done|done|]. intros s. rewrite Hl', lookup_put_state by done.
  destruct (decide (s ∈ ss)); [by rewrite decide_True by set_solver|].
  destruct (decide (s = s0)) as [->|]; [by rewrite decide_True by left|].
  by rewrite decide_False by set_solver.
Qed.

Lemma install_ext cand1 cand2 ss l :
  (∀ s, s ∈ ss → lookup_state cand1 s = lookup_state cand2 s) →
  install_surfaces cand1 ss l = install_surfaces cand2 ss l.
Proof.
  revert l. induction ss as [|s ss IH]; intros l Heq; [done|]. cbn [install_surfaces].
  rewrite Heq by left. destruct (lookup_state cand2 s); simpl; [|done]. apply IH. set_solver.
Qed.

(** Every surface of a ready batch has a candidate state. *)
Lemma candidate_covers ts l s :
  s ∈ st_surface <$> ts →
  lookup_state (foldl (λ l t, put_state (st_surface t) (next_state t) l) l ts) s =
    last_write next_state ts s ∧ is_Some (last_write next_state ts s).
Proof.
  intros (t&->&Ht)%list_elem_of_fmap. rewrite candidate_lookup.
  assert (is_Some (last_write next_state ts (st_surface t))) as [c Hc].
  { apply last_write_Some. exists t. done. }
  rewrite Hc. eauto.
Qed.

Lemma last_write_None ts s : s ∉ st_surface <$> ts → last_write next_state ts s = None.
Proof.
  intros Hs. apply eq_None_not_Some. intros (t&Ht&Heq)%last_write_Some. apply Hs.
  apply list_elem_of_fmap. exists t. by rewrite <-Heq.
Qed.

(** Installing a ready batch prepared at [l0] into [l1]. *)
Lemma install_candidate ts l0 l1 :
  surfaces_unique l1 →
  ∃ l', install_surfaces (foldl (λ l t, put_state (st_surface t) (next_state t) l) l0 ts)
          (st_surface <$> ts) l1 = Some l' ∧ surfaces_unique l' ∧
    committed_map l' = commit_update (committed_map l1) ts.
Proof.
  intros Hl1.
  destruct (install_spec (foldl (λ l t, put_state (st_surface t) (next_state t) l) l0 ts)
    (st_surface <$> ts) l1) as (l'&Hi&Hu&Hlk); [|done|].
  { intros s Hs. by destruct (candidate_covers ts l0 s Hs) as [-> ?]. }
  exists l'. split_and!; [done|done|]. apply map_eq. intros s.
  rewrite lookup_commit_update, !lookup_committed_map, Hlk. case_decide as Hs.
  - by destruct (candidate_covers ts l0 s Hs) as [-> [c ->]].
  - by rewrite last_write_None.
Qed.

Lemma commit_ready transaction ts l :
  surfaces_unique l → first_rejected (committed_map l) transaction ts = None →
  ∃ l', commit_surface_transactions transaction ts l
          = Some (mk_commit transaction Committed (st_surface <$> ts), l') ∧
    surfaces_unique l' ∧ committed_map l' = commit_update (committed_map l) ts.
Proof.
  intros Hl E. unfold commit_surface_transactions, apply_prepared_surface_commit.
  rewrite prepare_spec, E by done.
  rewrite decide_False by (unfold prepared_is_ready; simpl; tauto).
  rewrite decide_False by (intros Hc; apply Hc, Forall_forall; done). simpl.
  destruct (install_candidate ts l l Hl) as (l'&->&?&?). simpl. by exists l'.
Qed.

Lemma commit_rejected transaction ts l t :
  surfaces_unique l → first_rejected (committed_map l) transaction ts = Some t →
  commit_surface_transactions transaction ts l
    = Some (mk_commit transaction (rejection (committed_map l) transaction t) [], l).
Proof.
  intros Hl E. unfold commit_surface_transactions, apply_prepared_surface_commit.
  rewrite prepare_spec, E by done. rewrite decide_True; [done|].
  apply rejection_not_committed.
Qed.

(** C1: a batch commits atomically.  [commit_surface_transactions] never hits
    its [expect].  If every transaction of the batch is ready against the
    committed map, the batch commits, reports its surfaces, and the map is
    updated with each transaction's next state in order; otherwise nothing at
    all changes, no surface is reported, and the outcome is the one the first
    transaction that is not ready is rejected with. *)
Theorem commit_atomic transaction ts l :
  surfaces_unique l →
  ∃ r l', commit_surface_transactions transaction ts l = Some (r, l') ∧
    surfaces_unique l' ∧ tc_transaction r = transaction ∧
    match first_rejected (committed_map l) transaction ts with
    | None => tc_outcome r = Committed ∧ tc_applied_surfaces r = st_surface <$> ts ∧
              committed_map l' = commit_update (committed_map l) ts
    | Some t => tc_outcome r = rejection (committed_map l) transaction t ∧
                tc_outcome r ≠ Committed ∧ tc_applied_surfaces r = [] ∧ l' = l
    end.
Proof.
  intros Hl. pose proof (rejection_not_committed (committed_map l) transaction).
  destruct (first_rejected _ _ ts) as [t|] eqn:E.
  - rewrite (commit_rejected _ _ _ t) by done. eexists _, l; simpl. split_and!; try done. apply H.
  - destruct (commit_ready _ _ _ Hl E) as (l'&->&?&?). eexists _, l'. done.
Qed.

Definition example_tx (surface gen : Z) (r : SurfaceTransactionReadiness) : SurfaceTransaction :=
  mk_surface_tx (from_raw 5) SophiaX (surface_id surface 1) None (mk_rect 0 0 64 64) (CpuBuffer 9)
    (mk_region []) r 100 gen.
Definition example_state (surface gen : Z) : CommittedSurfaceState :=
  mk_committed (surface_id surface 1) gen (mk_rect 0 0 32 32) (CpuBuffer 8) (mk_region []).

Lemma example_unique : surfaces_unique [example_state 1 3; example_state 2 7].
Proof. unfold surfaces_unique. apply (bool_decide_unpack _). vm_compute. exact I. Qed.

Lemma commit_atomic_witness :
  ∃ r l', commit_surface_transactions (from_raw 5)
      [example_tx 2 7 TxReady; example_tx 4 0 TxReady] [example_state 1 3; example_state 2 7]
    = Some (r, l') ∧ tc_outcome r = Committed ∧
    cs_committed_generation <$> l' = [3; 8; 1].
Proof.
  destruct (commit_atomic (from_raw 5) [example_tx 2 7 TxReady; example_tx 4 0 TxReady]
    [example_state 1 3; example_state 2 7] example_unique) as (r&l'&Hc&_&_&_).
  exists r, l'. split; [exact Hc|]. vm_compute in Hc. simplify_eq. split; vm_compute; reflexivity.
Defined.

(** ** Prepared commits held across other commits *)

(** Readiness only looks at the states of the touched surfaces. *)
Lemma ready_transfer transaction ts l0 l1 :
  Forall (λ t, lookup_state l0 (st_surface t) = lookup_state l1 (st_surface t)) ts →
  first_rejected (committed_map l0) transaction ts = None →
  first_rejected (committed_map l1) transaction ts = None.
Proof.
  unfold first_rejected. rewrite !find_first_None, !Forall_forall. intros Hb Hready t Ht.
  specialize (Hready t Ht). specialize (Hb t Ht).
  unfold tx_ready in *. rewrite !lookup_committed_map in *. by rewrite <-Hb.
Qed.

(** A ready batch installs from its candidate exactly when no surface it
    touches moved; and then the candidate it was prepared with is the one it
    would be prepared with now. *)
Lemma apply_ready transaction ts l0 l1 :
  surfaces_unique l0 → surfaces_unique l1 →
  first_rejected (committed_map l0) transaction ts = None →
  apply_prepared_surface_commit (prepare_surface_transactions transaction ts l0) l1 =
    if decide (Forall (λ t, lookup_state l0 (st_surface t) = lookup_state l1 (st_surface t)) ts)
    then commit_surface_transactions transaction ts l1
    else Some (mk_commit transaction RejectedStaleSurface [], l1).
Proof.
  intros Hl0 Hl1 Hready. unfold apply_prepared_surface_commit at 1.
  rewrite prepare_spec, Hready by done.
  rewrite decide_False by (unfold prepared_is_ready; simpl; tauto).
  unfold baseline_is_current; simpl. destruct (decide (Forall _ ts)) as [Hb|Hb].
  - rewrite (decide_False (P := ¬ _)) by (rewrite Forall_fmap; tauto).
    pose proof (ready_transfer _ _ _ _ Hb Hready) as Hready1.
    unfold commit_surface_transactions, apply_prepared_surface_commit.
    rewrite prepare_spec, Hready1 by done.
    rewrite decide_False by (unfold prepared_is_ready; simpl; tauto).
    rewrite decide_False by (intros Hc; apply Hc, Forall_forall; done). simpl.
    f_equal. apply install_ext. intros s Hs.
    destruct (candidate_covers ts l0 s Hs) as [-> _].
    by destruct (candidate_covers ts l1 s Hs) as [-> _].
  - by rewrite (decide_True (P := ¬ _)) by (rewrite Forall_fmap; tauto).
Qed.

(** A commit only writes the surfaces of its batch. *)
Lemma commit_untouched transaction ts l r l' s :
  surfaces_unique l → commit_surface_transactions transaction ts l = Some (r, l') →
  s ∉ st_surface <$> ts → lookup_state l' s = lookup_state l s.
Proof.
  intros Hl Hc Hs. destruct (first_rejected (committed_map l) transaction ts) as [t|] eqn:E.
  - rewrite (commit_rejected _ _ _ t) in Hc by done. by simplify_eq.
  - destruct (commit_ready _ _ _ Hl E) as (l2&Hc2&_&Hm). rewrite Hc in Hc2. simplify_eq.
    rewrite <-!lookup_committed_map, Hm, lookup_commit_update. by rewrite last_write_None.
Qed.

(** C2: prepared commits are serializable.  A batch prepared at [l0] and
    applied at [l1], whatever was committed in between, does one of two
    things: it is exactly the commit of the same batch at [l1], or it leaves
    [l1] alone.  It is applied if and only if the batch was ready at [l0] and
    no surface it touches has a different committed state at [l1]; a surface
    it does not touch keeps the state it has at [l1]. *)
Theorem prepared_commit_serializable transaction ts l0 l1 :
  surfaces_unique l0 → surfaces_unique l1 →
  ∃ r l', apply_prepared_surface_commit (prepare_surface_transactions transaction ts l0) l1
            = Some (r, l') ∧
    (tc_outcome r = Committed ↔
      first_rejected (committed_map l0) transaction ts = None ∧
      ∀ t, t ∈ ts → lookup_state l0 (st_surface t) = lookup_state l1 (st_surface t)) ∧
    (tc_outcome r = Committed → commit_surface_transactions transaction ts l1 = Some (r, l')) ∧
    (tc_outcome r ≠ Committed → l' = l1 ∧ tc_applied_surfaces r = []) ∧
    (∀ s, s ∉ st_surface <$> ts → lookup_state l' s = lookup_state l1 s).
Proof.
  intros Hl0 Hl1. destruct (first_rejected (committed_map l0) transaction ts) as [t|] eqn:E.
  - pose proof (prepare_commit_rejected _ _ _ _ Hl0 E) as Hnr.
    unfold apply_prepared_surface_commit. rewrite decide_True by done.
    eexists _, l1. split; [done|]. rewrite prepare_spec, E in Hnr |- * by done.
    unfold prepared_is_ready in Hnr; simpl in *. naive_solver.
  - rewrite apply_ready by done. destruct (decide (Forall _ ts)) as [Hb|Hb].
    + destruct (commit_ready transaction ts l1 Hl1) as (l'&Hc&_&_); [by eapply ready_transfer|].
      rewrite Hc. eexists _, l'. rewrite Forall_forall in Hb. split_and!; try done.
      intros s. by apply (commit_untouched transaction ts l1 _ l' s Hl1 Hc).
    + rewrite Forall_forall in Hb. eexists _, l1. split_and!; done || naive_solver.
Qed.

Lemma prepared_commit_serializable_witness :
  let ts := [example_tx 2 7 TxReady] in
  let l0 := [example_state 1 3; example_state 2 7] in
  surfaces_unique [example_state 1 4; example_state 2 7] ∧
  ∃ r l', apply_prepared_surface_commit (prepare_surface_transactions (from_raw 5) ts l0)
      [example_state 1 4; example_state 2 7] = Some (r, l') ∧ tc_outcome r = Committed ∧
    cs_committed_generation <$> l' = [4; 8].
Proof.
  intros ts l0.
  assert (surfaces_unique [example_state 1 4; example_state 2 7]) as Hu.
  { unfold surfaces_unique. apply (bool_decide_unpack _). vm_compute. exact I. }
  split; [exact Hu|].
  destruct (prepared_commit_serializable (from_raw 5) ts l0 _ example_unique Hu)
    as (r&l'&Hc&_). exists r, l'. split; [exact Hc|].
  vm_compute in Hc. simplify_eq. split; vm_compute; reflexivity.
Defined.

(** ** A stale presentation cannot overwrite newer state *)

(** [commit_run l0 touched l1]: a sequence of commits leads from [l0] to [l1],
    and [touched] lists the surfaces the successful ones reported.  By
    serializability the applications of prepared commits are such commits. *)
Inductive commit_run (l0 : list CommittedSurfaceState) :
    list SurfaceId → list CommittedSurfaceState → Prop :=
| run_start : commit_run l0 [] l0
| run_commit touched l transaction ts r l' :
    commit_run l0 touched l → commit_surface_transactions transaction ts l = Some (r, l') →
    commit_run l0 (tc_applied_surfaces r ++ touched) l'
| run_apply touched l transaction ts lp r l' :
    commit_run l0 touched l → surfaces_unique lp →
    apply_prepared_surface_commit (prepare_surface_transactions transaction ts lp) l = Some (r, l') →
    commit_run l0 (tc_applied_surfaces r ++ touched) l'.

(** The generation of a surface; an unknown surface has generation 0. *)
Definition state_generation (l : list CommittedSurfaceState) (s : SurfaceId) : Z :=
  match lookup_state l s with Some c => cs_committed_generation c | None => 0 end.

(** A commit moves the generation of each surface it reports to the next one
    (it stays at [u64::MAX] once there) and leaves the others. *)
Lemma commit_generation transaction ts l r l' s :
  surfaces_unique l → commit_surface_transactions transaction ts l = Some (r, l') →
  surfaces_unique l' ∧
  state_generation l' s =
    if decide (s ∈ tc_applied_surfaces r)
    then saturating_add u64_MAX (state_generation l s) 1 else state_generation l s.
Proof.
  intros Hl Hc. destruct (first_rejected (committed_map l) transaction ts) as [t|] eqn:E.
  - rewrite (commit_rejected _ _ _ t) in Hc by done. by simplify_eq/=.
  - destruct (commit_ready _ _ _ Hl E) as (l2&Hc2&Hu&Hm). rewrite Hc in Hc2. simplify_eq/=.
    split; [done|]. unfold state_generation. rewrite <-!lookup_committed_map, Hm, lookup_commit_update.
    case_decide as Hs; [|by rewrite last_write_None].
    destruct (candidate_covers ts l s Hs) as [_ [c Hlast]]. rewrite Hlast.
    unfold last_write in Hlast. apply last_Some_elem_of, list_elem_of_filter in Hlast as [Hcs Hin].
    apply list_elem_of_fmap in Hin as (t&->&Ht).
    unfold first_rejected in E. rewrite find_first_None, Forall_forall in E.
    specialize (E t Ht). apply dec_stable in E. destruct E as (_&_&_&_&_&Hgen).
    simpl in *. subst s. by rewrite Hgen.
Qed.

Lemma run_step_generation l r l' (touched : list SurfaceId) transaction ts lp :
  surfaces_unique l →
  (commit_surface_transactions transaction ts l = Some (r, l') ∨
   surfaces_unique lp ∧
   apply_prepared_surface_commit (prepare_surface_transactions transaction ts lp) l = Some (r, l')) →
  surfaces_unique l' ∧ ∀ s, state_generation l' s =
    if decide (s ∈ tc_applied_surfaces r)
    then saturating_add u64_MAX (state_generation l s) 1 else state_generation l s.
Proof.
  intros Hl Hstep.
  assert (commit_surface_transactions transaction ts l = Some (r, l') ∨
          l' = l ∧ tc_applied_surfaces r = []) as [Hc|[-> Happ]].
  { destruct Hstep as [Hc|[Hlp Ha]]; [by left|].
    destruct (first_rejected (committed_map lp) transaction ts) as [t|] eqn:E.
    - right. pose proof (prepare_commit_rejected _ _ _ _ Hlp E) as Hnr.
      unfold apply_prepared_surface_commit in Ha. rewrite decide_True in Ha by done.
      rewrite prepare_spec, E in Ha by done. by simplify_eq/=.
    - rewrite apply_ready in Ha by done. case_decide; [by left|]. right. by simplify_eq/=. }
  - split; [by eapply (commit_generation _ _ _ _ _ SURFACE_INVALID)|].
    intros s. by eapply commit_generation.
  - split; [done|]. intros s. by rewrite Happ, decide_False by set_solver.
Qed.

(** Along a run no generation goes back, and the generation of a touched
    surface went forward unless it is saturated. *)
Lemma commit_run_generation l0 touched l1 :
  surfaces_unique l0 → commit_run l0 touched l1 →
  surfaces_unique l1 ∧
  ∀ s, state_generation l1 s < u64_MAX →
    state_generation l0 s ≤ state_generation l1 s ∧
    (s ∈ touched → state_generation l0 s < state_generation l1 s).
Proof.
  intros Hl0. induction 1 as [|touched l transaction ts r l' _ [Hl IH] Hc
                             |touched l transaction ts lp r l' _ [Hl IH] Hlp Ha].
  { split; [done|]. intros s _. split; [lia|set_solver]. }
  all: edestruct (run_step_generation l r l' touched transaction ts) as [Hu Hg];
    [done|eauto|split; [done|]].
  all: intros s Hs; rewrite Hg in Hs |- *; rewrite elem_of_app; unfold saturating_add in *.
  all: destruct (decide (s ∈ tc_applied_surfaces r)), (IH s) as [? Ht]; try lia.
  all: by split; [lia|intros [|]; [lia||done|auto with lia]].
Qed.

(** A stale presentation cannot overwrite newer state.  Take a batch
    prepared at [l0] and any run of commits (direct ones, and applications of
    commits prepared at any earlier point) from [l0] to [l1].  If the run
    successfully committed any surface the batch touches, applying the
    prepared batch at [l1] is rejected and changes nothing: equal committed
    states cannot reappear, because generations only grow (below saturation). *)
Theorem stale_prepared_commit_rejected transaction ts l0 touched l1 s :
  surfaces_unique l0 → commit_run l0 touched l1 →
  s ∈ st_surface <$> ts → s ∈ touched → state_generation l1 s < u64_MAX →
  ∃ r, apply_prepared_surface_commit (prepare_surface_transactions transaction ts l0) l1
         = Some (r, l1) ∧ tc_outcome r ≠ Committed ∧ tc_applied_surfaces r = [].
Proof.
  intros Hl0 Hrun Hs Htouched Hsat.
  destruct (commit_run_generation _ _ _ Hl0 Hrun) as [Hl1 Hgen].
  destruct (Hgen s Hsat) as [_ Hlt]. specialize (Hlt Htouched).
  destruct (first_rejected (committed_map l0) transaction ts) as [t|] eqn:E.
  - pose proof (prepare_commit_rejected _ _ _ _ Hl0 E) as Hnr.
    unfold apply_prepared_surface_commit. rewrite decide_True by done.
    rewrite prepare_spec, E in Hnr |- * by done. eexists. split_and!; done.
  - rewrite apply_ready by done. rewrite decide_False.
    { eexists. by split_and!. }
    rewrite Forall_forall. intros Heq. apply list_elem_of_fmap in Hs as (t&->&Ht).
    specialize (Heq t Ht). unfold state_generation in Hlt. rewrite Heq in Hlt. lia.
Qed.

Lemma stale_prepared_commit_rejected_witness :
  let l0 := [example_state 1 3; example_state 2 7] in
  let l1 := [example_state 1 3; next_state (example_tx 2 7 TxReady)] in
  ∃ r, apply_prepared_surface_commit
         (prepare_surface_transactions (from_raw 5) [example_tx 2 7 TxReady] l0) l1 = Some (r, l1) ∧
       tc_outcome r ≠ Committed ∧ tc_applied_surfaces r = [].
Proof.
  intros l0 l1.
  apply (stale_prepared_commit_rejected (from_raw 5) [example_tx 2 7 TxReady] l0
    [surface_id 2 1] l1 (surface_id 2 1) example_unique).
  - change [surface_id 2 1] with (tc_applied_surfaces
      (mk_commit (from_raw 5) Committed [surface_id 2 1]) ++ []).
    eapply run_commit; [constructor|].
    instantiate (1 := [example_tx 2 7 TxReady]). instantiate (1 := from_raw 5).
    vm_compute. reflexivity.
  - left.
  - left.
  - vm_compute. reflexivity.
Defined.

(** ** Intake batches *)

Lemma retain_unique (P : CommittedSurfaceState → Prop) `{∀ c, Decision (P c)} l :
  surfaces_unique l → surfaces_unique (filter P l).
Proof. apply NoDup_fmap_filter. Qed.

Lemma lookup_retain (removed : list SurfaceId) l s :
  lookup_state (filter (λ state, cs_surface state ∉ removed) l) s =
    if decide (s ∈ removed) then None else lookup_state l s.
Proof.
  induction l as [|c l IH]; [by case_decide|]. rewrite filter_cons, lookup_state_cons.
  destruct (decide (cs_surface c ∉ removed)) as [Hc|Hc]; rewrite ?lookup_state_cons, IH.
  - repeat case_decide; congruence.
  - repeat case_decide; congruence || naive_solver.
Qed.

(** An intake batch.  If its commit succeeds, the states of the surfaces
    the authority destroyed are gone, every other surface has the state the
    commit gives it, and the committed vector still has one state per surface;
    if the commit is rejected, nothing is removed either. *)
Theorem intake_commit_spec i l :
  surfaces_unique l →
  ∃ r l', intake_commit i l = Some (r, l') ∧ surfaces_unique l' ∧
    match first_rejected (committed_map l) (in_transaction i) (in_transactions i) with
    | None => tc_outcome r = Committed ∧ ∀ s,
        committed_map l' !! s =
          if decide (s ∈ in_removed_surfaces i) then None
          else commit_update (committed_map l) (in_transactions i) !! s
    | Some _ => tc_outcome r ≠ Committed ∧ l' = l
    end.
Proof.
  intros Hl. unfold intake_commit. destruct (first_rejected _ _ _) as [t|] eqn:E.
  - rewrite (commit_rejected _ _ _ t) by done. simpl.
    pose proof (rejection_not_committed (committed_map l) (in_transaction i) t).
    rewrite decide_False by done. eexists _, l. done.
  - destruct (commit_ready _ _ _ Hl E) as (l1&->&Hu&Hm). simpl.
    eexists _, _. split; [done|]. split; [|split; [done|]].
    + by apply retain_unique.
    + intros s. rewrite <-Hm, !lookup_committed_map. apply lookup_retain.
Qed.

Lemma intake_commit_spec_witness :
  let i := mk_intake (from_raw 5) [example_tx 2 7 TxReady] [surface_id 1 1] in
  ∃ r l', intake_commit i [example_state 1 3; example_state 2 7] = Some (r, l') ∧
    tc_outcome r = Committed ∧ cs_committed_generation <$> l' = [8].
Proof.
  intros i. destruct (intake_commit_spec i _ example_unique) as (r&l'&Hc&_&_).
  exists r, l'. split; [exact Hc|]. vm_compute in Hc. simplify_eq. split; vm_compute; reflexivity.
Defined.
