(* ===== verification/Outputs.v ===== *)
(** * Outputs: the DRM/KMS registry, the extended desktop and damage projection
    ([sophia-engine/src/{drm,output}.rs])

    The bounded registry of scanout outputs, their left-to-right arrangement in
    one logical desktop, and the projection of logical damage onto one output.
    The sysfs discovery that fills the registry is file-system I/O and is not
    modelled. *)

From S2P Require Import Prelude Ids Geometry.
Local Open Scope Z_scope.

Definition MAX_DRM_KMS_OUTPUTS : nat := 16.

Record DrmKmsMode : Type := mk_mode { dm_size : Size; dm_refresh_millihz : Z }.
Record DrmKmsOutputDescriptor : Type := mk_drm_output {
  do_output : OutputId; do_connector_id : Z; do_crtc_id : Z; do_mode : DrmKmsMode; do_scale : Z;
}.
Record HeadlessOutput : Type := mk_headless { ho_id : OutputId; ho_size : Size; ho_scale : Z }.

Definition as_engine_output (d : DrmKmsOutputDescriptor) : HeadlessOutput :=
  mk_headless (do_output d) (dm_size (do_mode d)) (do_scale d).
Definition headless_deterministic : HeadlessOutput := mk_headless (from_raw 1) (mk_size 1280 720) 1.

Record DrmKmsOutputRegistry : Type := mk_registry { drm_outputs : gmap OutputId DrmKmsOutputDescriptor }.
Inductive DrmKmsOutputRegistryUpdate : Type := DrmInserted | DrmReplaced | DrmCapacityExceeded.

Definition registry_new : DrmKmsOutputRegistry := mk_registry ∅.

Definition drm_upsert (r : DrmKmsOutputRegistry) (output : DrmKmsOutputDescriptor) :
    DrmKmsOutputRegistryUpdate * DrmKmsOutputRegistry :=
  if decide (is_Some (drm_outputs r !! do_output output)) then
    (DrmReplaced, mk_registry (<[do_output output := output]> (drm_outputs r)))
  else if decide (MAX_DRM_KMS_OUTPUTS ≤ size (drm_outputs r))%nat then (DrmCapacityExceeded, r)
  else (DrmInserted, mk_registry (<[do_output output := output]> (drm_outputs r))).

Definition drm_remove (r : DrmKmsOutputRegistry) (output : OutputId) :
    option DrmKmsOutputDescriptor * DrmKmsOutputRegistry :=
  (drm_outputs r !! output, mk_registry (delete output (drm_outputs r))).

Definition primary_engine_output (r : DrmKmsOutputRegistry) : option HeadlessOutput :=
  as_engine_output <$> head (btree_values (drm_outputs r)).

(** ** The extended desktop *)

Record OutputLogicalGeometry : Type := mk_logical {
  lg_output : OutputId; lg_logical : Rect; lg_pixel_size : Size; lg_scale : Z;
}.
Record ExtendedDesktopTopology : Type := mk_desktop {
  ed_outputs : gmap OutputId OutputLogicalGeometry; ed_logical_size : Size;
}.

(** [i32::try_from(scale).unwrap_or(i32::MAX)] of a [u32]. *)
Definition i32_try_from_u32 (z : Z) : Z := if decide (z ≤ i32_MAX) then z else i32_MAX.

Definition project_rect (g : OutputLogicalGeometry) (r : Rect) : option Rect :=
  let l := lg_logical g in
  let left_ := Z.max (rx r) (rx l) in
  let top := Z.max (ry r) (ry l) in
  let right_ := Z.min (i32_saturating_add (rx r) (rwidth r)) (i32_saturating_add (rx l) (rwidth l)) in
  let bottom := Z.min (i32_saturating_add (ry r) (rheight r)) (i32_saturating_add (ry l) (rheight l)) in
  let width := i32_saturating_sub right_ left_ in
  let height := i32_saturating_sub bottom top in
  if decide (0 < width ∧ 0 < height) then
    Some (mk_rect (i32_saturating_sub left_ (rx l)) (i32_saturating_sub top (ry l)) width height)
  else None.

Definition project_damage (g : OutputLogicalGeometry) (damage : Region) : Region :=
  mk_region (omap (project_rect g) (rects damage)).

Definition project_rect_pixels (g : OutputLogicalGeometry) (r : Rect) : option Rect :=
  local ← project_rect g r;
  let scale := i32_try_from_u32 (Z.max (lg_scale g) 1) in
  Some (mk_rect (i32_saturating_mul (rx local) scale) (i32_saturating_mul (ry local) scale)
    (Z.min (i32_saturating_mul (rwidth local) scale) (sz_width (lg_pixel_size g)))
    (Z.min (i32_saturating_mul (rheight local) scale) (sz_height (lg_pixel_size g)))).

Definition project_damage_pixels (g : OutputLogicalGeometry) (damage : Region) : Region :=
  mk_region (omap (project_rect_pixels g) (rects damage)).

(** One output of the loop of [from_drm_outputs]: the next x, the height so far
    and the geometries.  [saturating_div] by a positive scale truncates towards
    zero. *)
Definition desktop_geometry (x : Z) (output : DrmKmsOutputDescriptor) : OutputLogicalGeometry :=
  let scale := Z.max (do_scale output) 1 in
  let scale_i32 := i32_try_from_u32 scale in
  let logical := mk_size (Z.max (Z.quot (sz_width (dm_size (do_mode output))) scale_i32) 1)
                         (Z.max (Z.quot (sz_height (dm_size (do_mode output))) scale_i32) 1) in
  mk_logical (do_output output) (mk_rect x 0 (sz_width logical) (sz_height logical))
    (dm_size (do_mode output)) scale.

Definition desktop_step (s : Z * Z * gmap OutputId OutputLogicalGeometry)
    (output : DrmKmsOutputDescriptor) : Z * Z * gmap OutputId OutputLogicalGeometry :=
  let '(logical_x, logical_height, geometries) := s in
  let g := desktop_geometry logical_x output in
  (i32_saturating_add logical_x (rwidth (lg_logical g)),
   Z.max logical_height (rheight (lg_logical g)),
   <[do_output output := g]> geometries).

Definition from_drm_outputs (r : DrmKmsOutputRegistry) : ExtendedDesktopTopology :=
  let '(logical_x, logical_height, geometries) :=
    foldl desktop_step (0, 0, ∅) (btree_values (drm_outputs r)) in
  mk_desktop geometries (mk_size logical_x logical_height).

(** ** Variable refresh *)

Record OutputVrrEligibility : Type := mk_vrr {
  vrr_opaque_fullscreen_surface_count : Z; vrr_unoccluded : bool; vrr_overlays_present : bool;
  vrr_composition_required : bool;
}.
Inductive OutputVrrDecision : Type := VrrEnabled | VrrDisabledByPolicy | VrrUnsupported | VrrIneligible.

Definition fullscreen_eligible (e : OutputVrrEligibility) : bool :=
  bool_decide (vrr_opaque_fullscreen_surface_count e = 1) && vrr_unoccluded e &&
  negb (vrr_overlays_present e) && negb (vrr_composition_required e).

Definition decide_output_vrr (policy_enabled capable : bool) (e : OutputVrrEligibility) :
    OutputVrrDecision :=
  if negb policy_enabled then VrrDisabledByPolicy
  else if negb capable then VrrUnsupported
  else if negb (fullscreen_eligible e) then VrrIneligible
  else VrrEnabled.

(** ** The registry *)

(** The registry is keyed by the descriptor's own output and stays bounded. *)
Definition registry_ok (r : DrmKmsOutputRegistry) : Prop :=
  (∀ o d, drm_outputs r !! o = Some d → do_output d = o) ∧
  (size (drm_outputs r) ≤ MAX_DRM_KMS_OUTPUTS)%nat.

Inductive registry_step : relation DrmKmsOutputRegistry :=
| registry_upsert r d : registry_step r (drm_upsert r d).2
| registry_remove r o : registry_step r (drm_remove r o).2.

Lemma drm_upsert_spec r d :
  registry_ok r →
  registry_ok (drm_upsert r d).2 ∧
  match (drm_upsert r d).1 with
  | DrmInserted => drm_outputs r !! do_output d = None ∧
      drm_outputs (drm_upsert r d).2 = <[do_output d := d]> (drm_outputs r)
  | DrmReplaced => is_Some (drm_outputs r !! do_output d) ∧
      drm_outputs (drm_upsert r d).2 = <[do_output d := d]> (drm_outputs r)
  | DrmCapacityExceeded => drm_outputs r !! do_output d = None ∧
      size (drm_outputs r) = MAX_DRM_KMS_OUTPUTS ∧ (drm_upsert r d).2 = r
  end.
Proof.
  intros [Hk Hs]. unfold drm_upsert.
  assert (∀ o d', <[do_output d := d]> (drm_outputs r) !! o = Some d' → do_output d' = o) as Hk'.
  { intros o d'. rewrite lookup_insert_Some. naive_solver. }
  case_decide as Hd.
  - split_and!; simpl; try done. split; [done|]. simpl. destruct Hd as [d0 Hd].
    rewrite map_size_insert, Hd. done.
  - apply eq_None_not_Some in Hd. case_decide as Hfull; simpl; split_and!; try done.
    + by apply (anti_symm Nat.le).
    + split; [done|]. simpl. rewrite map_size_insert, Hd. unfold MAX_DRM_KMS_OUTPUTS in *.
      simpl in *. lia.
Qed.

(** The output registry.  However outputs come and go, it holds at most
    sixteen, each under its own ID; a new output is refused exactly when the
    registry is full, and a known one is always replaced. *)
Theorem registry_reachable_ok r d :
  rtc registry_step registry_new r →
  registry_ok r ∧
  ((drm_upsert r d).1 = DrmCapacityExceeded ↔
     drm_outputs r !! do_output d = None ∧ size (drm_outputs r) = MAX_DRM_KMS_OUTPUTS) ∧
  drm_outputs (drm_upsert r d).2 =
    match (drm_upsert r d).1 with
    | DrmCapacityExceeded => drm_outputs r
    | _ => <[do_output d := d]> (drm_outputs r)
    end.
Proof.
  intros Hrun. assert (registry_ok r) as Hok.
  { eapply (rtc_invariant registry_step registry_ok); [|exact Hrun|].
    - intros a b [r' d'|r' o] Ha; [by apply drm_upsert_spec|].
      destruct Ha as [Hk Hs]. split; simpl.
      + intros o' d'. rewrite lookup_delete_Some. naive_solver.
      + rewrite map_size_delete. destruct (drm_outputs r' !! o); simpl; lia.
    - split; [intros o d'; simpl; by rewrite lookup_empty|]. simpl. rewrite map_size_empty. lia. }
  split; [done|]. unfold drm_upsert. destruct Hok as [_ Hs].
  destruct (decide (is_Some _)) as [Hd|Hd]; simpl.
  - split; [|done]. split; [done|]. intros [Hn _]. rewrite Hn in Hd. by destruct Hd.
  - apply eq_None_not_Some in Hd. destruct (decide (_ ≤ size _)%nat) as [Hfull|Hfull]; simpl.
    + split; [|done]. split; [|done]. intros _. split; [done|]. by apply (anti_symm Nat.le).
    + split; [|done]. split; [done|]. intros [_ Hsz]. rewrite Hsz in Hfull. lia.
Qed.

Definition example_output (n : Z) : DrmKmsOutputDescriptor :=
  mk_drm_output (from_raw n) 1 2 (mk_mode (mk_size 1920 1080) 60000) 1.

Lemma registry_reachable_ok_witness :
  let r := (drm_upsert registry_new (example_output 3)).2 in
  registry_ok r ∧ (drm_upsert r (example_output 3)).1 = DrmReplaced.
Proof.
  intros r. split; [|vm_compute; reflexivity].
  apply (registry_reachable_ok r (example_output 3)).
  eapply rtc_l; [apply registry_upsert|apply rtc_refl].
Defined.

(** ** Projection of damage *)

(** Rectangles with [i32] fields, on a desktop laid out from the origin. *)
Definition rect_i32 (r : Rect) : Prop :=
  i32_ok (rx r) ∧ i32_ok (ry r) ∧ i32_ok (rwidth r) ∧ i32_ok (rheight r).
Definition logical_ok (g : OutputLogicalGeometry) : Prop :=
  rect_i32 (lg_logical g) ∧ 0 ≤ rx (lg_logical g) ∧ 0 ≤ ry (lg_logical g).

(** One axis of the intersection: [a, a+w) against [b, b+v) with saturating ends. *)
Lemma project_axis a w b v :
  i32_ok a → i32_ok w → i32_ok b → i32_ok v → 0 ≤ b →
  let s := Z.max a b in
  let e := Z.min (Z.min (a + w) (b + v)) i32_MAX in
  let width := i32_saturating_sub (Z.min (i32_saturating_add a w) (i32_saturating_add b v)) s in
  (0 < width ↔ s < e) ∧ (s < e → width = e - s) ∧ i32_saturating_sub s b = s - b.
Proof.
  intros Ha Hw Hb Hv H0 s e width.
  assert (0 ≤ s ≤ i32_MAX) as Hs by (subst s; word_lia).
  assert (i32_saturating_sub s b = s - b) as Hsb.
  { unfold i32_saturating_sub, i32_clamp. subst s. word_lia. }
  set (m := Z.min (i32_saturating_add a w) (i32_saturating_add b v)) in *.
  assert (i32_MIN ≤ m ∧ m ≤ i32_MAX ∧ (0 < m → m = e) ∧ (0 < e → m = e)) as Hm.
  { subst m e. unfold i32_saturating_add, i32_clamp. clear -Ha Hw Hb Hv. word_lia. }
  subst width. unfold i32_saturating_sub, i32_clamp. clearbody s m e. word_lia.
Qed.

Lemma project_rect_cases g r :
  rect_i32 r → logical_ok g →
  let l := lg_logical g in
  let ex := Z.min (Z.min (rx r + rwidth r) (rx l + rwidth l)) i32_MAX in
  let ey := Z.min (Z.min (ry r + rheight r) (ry l + rheight l)) i32_MAX in
  let sx := Z.max (rx r) (rx l) in let sy := Z.max (ry r) (ry l) in
  project_rect g r =
    if decide (sx < ex ∧ sy < ey)
    then Some (mk_rect (sx - rx l) (sy - ry l) (ex - sx) (ey - sy)) else None.
Proof.
  intros (?&?&?&?) ((?&?&?&?)&?&?). cbv zeta. unfold project_rect. cbv zeta.
  destruct (project_axis (rx r) (rwidth r) (rx (lg_logical g)) (rwidth (lg_logical g)))
    as (Hx1&Hx2&Hx3); [done..|].
  destruct (project_axis (ry r) (rheight r) (ry (lg_logical g)) (rheight (lg_logical g)))
    as (Hy1&Hy2&Hy3); [done..|].
  case_decide; case_decide; try done; [|tauto|tauto].
  by rewrite Hx2, Hy2, Hx3, Hy3 by tauto.
Qed.

(** A projected rectangle covers, in output coordinates, exactly the common
    points of the rectangle and the output (up to the last [i32] coordinate,
    where both right edges saturate). *)
Lemma project_rect_exact g r x y :
  rect_i32 r → logical_ok g →
  rx (lg_logical g) + x < i32_MAX → ry (lg_logical g) + y < i32_MAX →
  (∃ q, project_rect g r = Some q ∧ in_rect x y q) ↔
    in_rect (rx (lg_logical g) + x) (ry (lg_logical g) + y) r ∧
    in_rect (rx (lg_logical g) + x) (ry (lg_logical g) + y) (lg_logical g).
Proof.
  intros Hr Hl Hx Hy. rewrite project_rect_cases by done. unfold in_rect.
  destruct Hl as (_&Hlx&Hly). clear Hr. split.
  - intros (q&Hq&?&?). case_decide; simplify_eq/=. lia.
  - intros [[? ?] [? ?]]. rewrite decide_True by lia. eexists; split; [done|]. simpl. lia.
Qed.

(** Damage projection is exact.  The damage an output is told about is, in
    its own coordinates, exactly the damaged points that lie on it; no damage
    is lost at a saturated edge and none is invented. *)
Theorem project_damage_exact g damage x y :
  Forall rect_i32 (rects damage) → logical_ok g →
  rx (lg_logical g) + x < i32_MAX → ry (lg_logical g) + y < i32_MAX →
  in_region x y (project_damage g damage) ↔
    in_region (rx (lg_logical g) + x) (ry (lg_logical g) + y) damage ∧
    in_rect (rx (lg_logical g) + x) (ry (lg_logical g) + y) (lg_logical g).
Proof.
  intros Hd Hl Hx Hy. unfold in_region, project_damage; simpl.
  rewrite !Exists_exists. setoid_rewrite list_elem_of_omap. rewrite Forall_forall in Hd. split.
  - intros (q&(r&Hr&Hq)&Hin).
    destruct (project_rect_exact g r x y) as [[??] _]; [by apply Hd|done..|by exists q|eauto].
  - intros ((r&Hr&Hin)&Hin2).
    destruct (project_rect_exact g r x y) as [_ (q&?&?)]; [by apply Hd|done..|]. eauto.
Qed.

Lemma project_damage_exact_witness :
  let g := mk_logical (from_raw 2) (mk_rect 1920 0 1920 1080) (mk_size 1920 1080) 1 in
  let damage := mk_region [mk_rect 1900 10 100 20] in
  in_region 5 12 (project_damage g damage) ↔
    in_region 1925 12 damage ∧ in_rect 1925 12 (mk_rect 1920 0 1920 1080).
Proof.
  intros g damage. apply (project_damage_exact g damage 5 12).
  - repeat constructor; vm_compute; congruence.
  - repeat split; vm_compute; congruence.
  - vm_compute; reflexivity.
  - vm_compute; reflexivity.
Defined.

(** ** The arrangement of the outputs *)

(** Modes as the registry holds them: positive [i32] sizes, a [u32] scale. *)
Definition drm_output_ok (d : DrmKmsOutputDescriptor) : Prop :=
  0 < sz_width (dm_size (do_mode d)) ≤ i32_MAX ∧ 0 < sz_height (dm_size (do_mode d)) ≤ i32_MAX ∧
  u32_ok (do_scale d).

(** A logical edge: one scaled pixel row or column, or at least one point. *)
Lemma logical_edge p s :
  0 < p ≤ i32_MAX → u32_ok s →
  let sc := i32_try_from_u32 (Z.max s 1) in
  let e := Z.max (Z.quot p sc) 1 in
  0 < sc ≤ i32_MAX ∧ 1 ≤ e ≤ i32_MAX ∧ (e * sc ≤ p ∨ e = 1).
Proof.
  intros Hp Hs sc e.
  assert (0 < sc ≤ i32_MAX) as Hsc.
  { subst sc. unfold i32_try_from_u32. case_decide; word_lia. }
  clearbody sc. subst e. rewrite Z.quot_div_nonneg by lia.
  pose proof (Z.mul_div_le p sc). assert (0 ≤ p / sc ≤ p) by (split; [apply Z.div_pos; lia|nia]).
  split_and!; try lia; nia.
Qed.

Definition desktop_inv (l : list DrmKmsOutputDescriptor)
    (s : Z * Z * gmap OutputId OutputLogicalGeometry) : Prop :=
  0 ≤ s.1.1 ∧ 0 ≤ s.1.2 ∧
  (∀ d, d ∈ l → is_Some (s.2 !! do_output d)) ∧
  (s.1.1 < i32_MAX →
    (∀ o g, s.2 !! o = Some g →
      ∃ d x, d ∈ l ∧ do_output d = o ∧ g = desktop_geometry x d ∧
        0 ≤ x ∧ x + rwidth (lg_logical g) ≤ s.1.1 ∧ rheight (lg_logical g) ≤ s.1.2) ∧
    (∀ o1 o2 g1 g2, s.2 !! o1 = Some g1 → s.2 !! o2 = Some g2 → o1 ≠ o2 →
      rx (lg_logical g1) + rwidth (lg_logical g1) ≤ rx (lg_logical g2) ∨
      rx (lg_logical g2) + rwidth (lg_logical g2) ≤ rx (lg_logical g1))).

Lemma desktop_foldl_inv l :
  Forall drm_output_ok l → NoDup (do_output <$> l) →
  desktop_inv l (foldl desktop_step (0, 0, ∅) l).
Proof.
  induction l as [|d l IH] using rev_ind; intros Hok Hnd.
  { unfold desktop_inv; simpl. split_and!; [done|done|intros d Hd; by apply not_elem_of_nil in Hd|].
    intros _. split.
    - intros o g. by rewrite lookup_empty.
    - intros o1 o2 g1 g2. by rewrite lookup_empty. }
  rewrite foldl_app; simpl. rewrite fmap_app in Hnd. apply NoDup_app in Hnd as (Hnd&Hnew&_).
  apply Forall_app in Hok as [Hok [(Hw&Hh&Hs) _]%Forall_cons].
  specialize (IH Hok Hnd). destruct (foldl desktop_step (0, 0, ∅) l) as [[x h] m].
  destruct IH as (Hx0&Hh0&Hdom&Hinv); simpl in *.
  destruct (logical_edge _ _ Hw Hs) as (Hsc&Hlw&_). destruct (logical_edge _ _ Hh Hs) as (_&Hlh&_).
  set (w := Z.max (Z.quot (sz_width _) _) 1) in *. set (lh := Z.max (Z.quot (sz_height _) _) 1) in *.
  assert (i32_saturating_add x w < i32_MAX → i32_saturating_add x w = x + w) as Hsat.
  { unfold i32_saturating_add, i32_clamp. clearbody w. word_lia. }
  split_and!; simpl.
  - unfold i32_saturating_add, i32_clamp. clearbody w. word_lia.
  - lia.
  - intros e [He| ->%list_elem_of_singleton]%elem_of_app; [|by rewrite lookup_insert_eq].
    destruct (decide (do_output d = do_output e)) as [->|]; [by rewrite lookup_insert_eq|].
    rewrite lookup_insert_ne by done. by apply Hdom.
  - intros Hlt. specialize (Hsat Hlt). destruct Hinv as [Hent Hdis]; [lia|]. split.
    + intros o g. rewrite lookup_insert_Some. intros [[<- <-]|[Hne Hg]].
      * exists d, x. split; [apply elem_of_app; right; by left|]. simpl. split_and!; try done; lia.
      * destruct (Hent o g Hg) as (e&x'&?&?&?&?&?&?). exists e, x'.
        split; [apply elem_of_app; by left|]. split_and!; try done; lia.
    + intros o1 o2 g1 g2. rewrite !lookup_insert_Some.
      intros [[<- <-]|[? H1]] [[<- <-]|[? H2]] Hne; simpl; try done.
      * right. destruct (Hent _ _ H2) as (?&x'&_&_&->&_&?&_). simpl in *. lia.
      * left. destruct (Hent _ _ H1) as (?&x'&_&_&->&_&?&_). simpl in *. lia.
      * by eapply Hdis.
Qed.

(** The outputs of a registry, in ID order, each once. *)
Lemma registry_values r :
  registry_ok r → NoDup (do_output <$> btree_values (drm_outputs r)) ∧
  (∀ d, d ∈ btree_values (drm_outputs r) ↔ drm_outputs r !! do_output d = Some d).
Proof.
  intros [Hk _]. split.
  - unfold btree_values. rewrite <-list_fmap_compose.
    rewrite (list_fmap_ext _ fst); [apply NoDup_btree_keys|].
    intros i [o d] Hi. apply list_elem_of_lookup_2, elem_of_btree_entries in Hi. simpl. by apply Hk.
  - intros d. rewrite elem_of_btree_values. split; [|eauto]. intros [o Ho].
    by rewrite <-(Hk o d Ho) in Ho.
Qed.

(** Scaling a part of a logical edge stays on the pixel edge. *)
Lemma scaled_edge p s a b :
  0 < p ≤ i32_MAX → u32_ok s →
  let sc := i32_try_from_u32 (Z.max s 1) in
  0 ≤ a → 0 ≤ b → a + b ≤ Z.max (Z.quot p sc) 1 → 0 < b →
  0 ≤ i32_saturating_mul a sc ∧ i32_saturating_mul a sc + Z.min (i32_saturating_mul b sc) p ≤ p.
Proof.
  intros Hp Hs sc Ha Hb Hab Hb0. destruct (logical_edge p s Hp Hs) as (Hsc&He&Hcase).
  fold sc in Hsc, He, Hcase. clearbody sc. set (e := Z.max (Z.quot p sc) 1) in *. clearbody e.
  unfold i32_saturating_mul, i32_clamp. destruct Hcase as [Hle| ->].
  - assert ((a + b) * sc ≤ e * sc) by nia. assert (0 ≤ a * sc) by nia. assert (0 ≤ b * sc) by nia.
    word_lia.
  - assert (a = 0) as -> by lia. simpl. word_lia.
Qed.

Lemma project_pixels_bound x d q p :
  drm_output_ok d → rect_i32 q → 0 ≤ x → x + rwidth (lg_logical (desktop_geometry x d)) ≤ i32_MAX →
  project_rect_pixels (desktop_geometry x d) q = Some p →
  0 ≤ rx p ∧ 0 ≤ ry p ∧ rx p + rwidth p ≤ sz_width (dm_size (do_mode d)) ∧
  ry p + rheight p ≤ sz_height (dm_size (do_mode d)).
Proof.
  intros (Hw&Hh&Hs) Hq Hx Hxw Hp. unfold project_rect_pixels in Hp.
  destruct (logical_edge _ _ Hw Hs) as (_&Hlw&_). destruct (logical_edge _ _ Hh Hs) as (_&Hlh&_).
  rewrite project_rect_cases in Hp; [|done|].
  2:{ split; [|done]. split_and!; simpl in *; word_lia. }
  case_decide as Hd; [|done]. cbn [mbind option_bind] in Hp. simplify_eq/=.
  replace (Z.max (Z.max (do_scale d) 1) 1) with (Z.max (do_scale d) 1) by lia.
  destruct (scaled_edge (sz_width (dm_size (do_mode d))) (do_scale d)
    (Z.max (rx q) x - x) (Z.min (Z.min (rx q + rwidth q)
      (x + Z.max (Z.quot (sz_width (dm_size (do_mode d))) (i32_try_from_u32 (Z.max (do_scale d) 1))) 1))
      i32_MAX - Z.max (rx q) x)) as [??]; [done|done|lia|lia|lia|lia|].
  destruct (scaled_edge (sz_height (dm_size (do_mode d))) (do_scale d)
    (Z.max (ry q) 0 - 0) (Z.min (Z.min (ry q + rheight q)
      (0 + Z.max (Z.quot (sz_height (dm_size (do_mode d))) (i32_try_from_u32 (Z.max (do_scale d) 1))) 1))
      i32_MAX - Z.max (ry q) 0)) as [??]; [done|done|lia|lia|lia|lia|].
  done.
Qed.

(** The extended desktop.  Unless the total width saturates, every output
    of the registry has a logical rectangle, the rectangles of two outputs share
    no point, all lie inside the logical size, and the pixels a projected
    rectangle maps to lie inside the output's mode. *)
Theorem extended_desktop_sound r :
  registry_ok r → (∀ o d, drm_outputs r !! o = Some d → drm_output_ok d) →
  sz_width (ed_logical_size (from_drm_outputs r)) < i32_MAX →
  let t := from_drm_outputs r in
  (∀ o, is_Some (ed_outputs t !! o) ↔ is_Some (drm_outputs r !! o)) ∧
  (∀ o1 o2 g1 g2 x y, ed_outputs t !! o1 = Some g1 → ed_outputs t !! o2 = Some g2 → o1 ≠ o2 →
     in_rect x y (lg_logical g1) → ¬ in_rect x y (lg_logical g2)) ∧
  (∀ o g x y, ed_outputs t !! o = Some g → in_rect x y (lg_logical g) →
     0 ≤ x < sz_width (ed_logical_size t) ∧ 0 ≤ y < sz_height (ed_logical_size t)) ∧
  (∀ o g q p, ed_outputs t !! o = Some g → rect_i32 q → project_rect_pixels g q = Some p →
     0 ≤ rx p ∧ 0 ≤ ry p ∧ rx p + rwidth p ≤ sz_width (lg_pixel_size g) ∧
     ry p + rheight p ≤ sz_height (lg_pixel_size g)).
Proof.
  intros Hreg Hmodes Hsat t. destruct (registry_values r Hreg) as [Hnd Hvals].
  assert (Forall drm_output_ok (btree_values (drm_outputs r))) as Hok.
  { apply Forall_forall. intros d Hd. apply Hvals in Hd. by eapply Hmodes. }
  pose proof (desktop_foldl_inv _ Hok Hnd) as Hinv.
  subst t. unfold from_drm_outputs in *.
  destruct (foldl desktop_step _ _) as [[w h] m]; simpl in *.
  destruct Hinv as (_&_&Hdom&Hinv); simpl in *. destruct (Hinv Hsat) as [Hent Hdis]. clear Hinv.
  split_and!.
  - intros o. split.
    + intros [g Hg]. destruct (Hent o g Hg) as (d&x&Hd&<-&_). apply Hvals in Hd. eauto.
    + intros [d Hd]. destruct Hreg as [Hk _]. rewrite <-(Hk o d Hd). apply Hdom, Hvals.
      by rewrite (Hk o d Hd).
  - intros o1 o2 g1 g2 x y H1 H2 Hne [? _] [? _]. destruct (Hdis o1 o2 g1 g2 H1 H2 Hne); lia.
  - intros o g x y Hg [??]. destruct (Hent o g Hg) as (d&x'&Hd&_&->&?&?&?).
    simpl in *. lia.
  - intros o g q p Hg Hq Hp. destruct (Hent o g Hg) as (d&x'&Hd&_&->&?&?&?).
    rewrite Forall_forall in Hok. apply (project_pixels_bound x' d q p); try done; [by apply Hok|].
    simpl in *. lia.
Qed.

Lemma extended_desktop_sound_witness :
  let r := mk_registry (<[from_raw 3 := example_output 3]> (<[from_raw 5 := example_output 5]> ∅)) in
  ed_logical_size (from_drm_outputs r) = mk_size 3840 1080 ∧
  ∃ g, ed_outputs (from_drm_outputs r) !! from_raw 5 = Some g ∧
    lg_logical g = mk_rect 1920 0 1920 1080.
Proof.
  intros r. split; [vm_compute; reflexivity|].
  destruct (extended_desktop_sound r) as (Hdom&_&_).
  - split; [|vm_compute; lia]. intros o d. subst r; simpl. rewrite !lookup_insert_Some, lookup_empty.
    naive_solver.
  - intros o d. subst r; simpl. rewrite !lookup_insert_Some, lookup_empty.
    assert (drm_output_ok (example_output 3) ∧ drm_output_ok (example_output 5)) as [??].
    { split; repeat split; vm_compute; congruence. }
    naive_solver.
  - vm_compute. reflexivity.
  - destruct (proj2 (Hdom (from_raw 5))) as [g Hg]; [by eexists|].
    exists g. split; [exact Hg|]. vm_compute in Hg. simplify_eq. vm_compute. reflexivity.
Defined.
