(* ===== verification/Frames.v ===== *)
(** * Frame clocks, layout epochs, the page-flip gate and output presentation
    ([sophia-engine/src/frame/{clock,epoch,page_flip,presentation}.rs])

    When a frame may be rendered, when a staged transaction batch may commit,
    and which frame of an output is in flight.  A [&mut] epoch argument is
    returned beside the decision. *)

From S2P Require Import Prelude Ids Geometry Packets VisualState EngineCommit Outputs.
Local Open Scope Z_scope.

(** ** Clocks *)

Record FrameClockTick : Type := mk_tick { tk_output : OutputId; tk_frame_serial : Z; tk_target_msec : Z }.
Record DeterministicFrameClock : Type := mk_clock { fc_next_serial : Z; fc_frame_interval_msec : Z }.

Definition clock_default : DeterministicFrameClock := mk_clock 1 16.

Definition clock_next_frame (c : DeterministicFrameClock) (output : OutputId) :
    FrameClockTick * DeterministicFrameClock :=
  let frame_serial := fc_next_serial c in
  (mk_tick output frame_serial (saturating_mul u64_MAX frame_serial (fc_frame_interval_msec c)),
   mk_clock (saturating_add u64_MAX (fc_next_serial c) 1) (fc_frame_interval_msec c)).

Record PerOutputFrameClock : Type := mk_clocks {
  pc_clocks : gmap OutputId DeterministicFrameClock; pc_fallback : DeterministicFrameClock;
}.

(** [(1_000_000 / refresh).max(1)], the frame interval of a refresh rate. *)
Definition refresh_interval (refresh_millihz : Z) : Z := Z.max (1000000 / refresh_millihz) 1.

Definition output_clock (fallback : DeterministicFrameClock) (d : DrmKmsOutputDescriptor) :
    DeterministicFrameClock :=
  mk_clock (fc_next_serial fallback)
    (if decide (dm_refresh_millihz (do_mode d) = 0) then fc_frame_interval_msec fallback
     else refresh_interval (dm_refresh_millihz (do_mode d))).

Definition clocks_from_outputs (r : DrmKmsOutputRegistry) (fallback : DeterministicFrameClock) :
    PerOutputFrameClock :=
  mk_clocks (foldl (λ m d, <[do_output d := output_clock fallback d]> m) ∅
               (btree_values (drm_outputs r))) fallback.

Definition clocks_next_frame (c : PerOutputFrameClock) (output : OutputId) :
    FrameClockTick * PerOutputFrameClock :=
  match pc_clocks c !! output with
  | Some clock =>
      let r := clock_next_frame clock output in
      (r.1, mk_clocks (<[output := r.2]> (pc_clocks c)) (pc_fallback c))
  | None =>
      let r := clock_next_frame (pc_fallback c) output in
      (r.1, mk_clocks (pc_clocks c) r.2)
  end.

(** ** Layout epochs *)

Record LayoutEpochState : Type := mk_epoch {
  ep_epoch : Z; ep_started_msec : Z; ep_timeout_msec : Z; ep_pending_surfaces : gset SurfaceId;
}.
Record LayoutEpochTimeout : Type := mk_epoch_timeout {
  et_epoch : Z; et_elapsed_msec : Z; et_timeout_msec : Z; et_pending_surfaces : list SurfaceId;
}.
Record ResizeBehaviorSample : Type := mk_resize_sample {
  rb_epoch : Z; rb_elapsed_msec : Z; rb_timeout_msec : Z; rb_completed : bool; rb_timed_out : bool;
  rb_pending_surfaces : list SurfaceId;
}.

Definition epoch_with_timing (epoch : Z) (pending : list SurfaceId) (started_msec timeout_msec : Z) :
    LayoutEpochState :=
  mk_epoch epoch started_msec timeout_msec (list_to_set (filter surface_valid pending)).
Definition epoch_new (epoch : Z) (pending : list SurfaceId) : LayoutEpochState :=
  epoch_with_timing epoch pending 0 300.

Definition observe_damage (e : LayoutEpochState) (damage : DamageFrame) : LayoutEpochState :=
  mk_epoch (ep_epoch e) (ep_started_msec e) (ep_timeout_msec e)
    (foldl (λ s surface, s ∖ {[surface]}) (ep_pending_surfaces e) (df_affected_surfaces damage)).

Definition epoch_is_complete (e : LayoutEpochState) : Prop := ep_pending_surfaces e = ∅.
#[export] Instance epoch_is_complete_dec e : Decision (epoch_is_complete e).
Proof. unfold epoch_is_complete; apply _. Defined.

Definition readiness_for_surface (e : LayoutEpochState) (s : SurfaceId) : SurfaceTransactionReadiness :=
  if decide (s ∈ ep_pending_surfaces e) then TxPending else TxReady.

Definition elapsed_msec (e : LayoutEpochState) (now : Z) : Z := saturating_sub now (ep_started_msec e).
Definition is_timed_out (e : LayoutEpochState) (now : Z) : Prop :=
  ¬ epoch_is_complete e ∧ ep_timeout_msec e ≤ elapsed_msec e now.
#[export] Instance is_timed_out_dec e now : Decision (is_timed_out e now).
Proof. unfold is_timed_out; apply _. Defined.

Definition expire_if_timed_out (e : LayoutEpochState) (now : Z) :
    option LayoutEpochTimeout * LayoutEpochState :=
  if decide (¬ is_timed_out e now) then (None, e)
  else (Some (mk_epoch_timeout (ep_epoch e) (elapsed_msec e now) (ep_timeout_msec e)
               (btree_elements (ep_pending_surfaces e))),
        mk_epoch (ep_epoch e) (ep_started_msec e) (ep_timeout_msec e) ∅).

Definition measure_resize_behavior (e : LayoutEpochState) (now : Z) : ResizeBehaviorSample :=
  mk_resize_sample (ep_epoch e) (elapsed_msec e now) (ep_timeout_msec e)
    (bool_decide (epoch_is_complete e)) (bool_decide (is_timed_out e now))
    (btree_elements (ep_pending_surfaces e)).

Definition explicit_sync_surfaces (layers : list LayerSnapshot) : list SurfaceId :=
  btree_elements (list_to_set (C := gset SurfaceId)
    (filter surface_valid (ls_surface <$> filter (λ l, ls_resize_sync l = ExplicitSync) layers))).

Definition layout_epoch_for_explicit_sync (epoch started_msec timeout_msec : Z)
    (layers : list LayerSnapshot) : option LayoutEpochState :=
  let surfaces := explicit_sync_surfaces layers in
  if decide (surfaces = []) then None
  else Some (epoch_with_timing epoch surfaces started_msec timeout_msec).

Definition surface_transaction_readiness_for_epoch (s : SurfaceId) (e : option LayoutEpochState) :
    SurfaceTransactionReadiness :=
  match e with Some e => readiness_for_surface e s | None => TxReady end.

(** ** Frame scheduling *)

Inductive FrameScheduleDecision : Type :=
| WaitForDamage
| WaitForLayoutEpoch (epoch : Z) (pending_surfaces : list SurfaceId)
| Render (output : OutputId) (frame_serial : Z) (damage : DamageFrame) (completed_epoch : option Z).

Definition schedule_frame_from_damage (tick : FrameClockTick) (damage : option DamageFrame)
    (layout_epoch : option LayoutEpochState) : FrameScheduleDecision * option LayoutEpochState :=
  match damage with
  | None =>
      match layout_epoch with
      | Some epoch =>
          if decide (¬ epoch_is_complete epoch)
          then (WaitForLayoutEpoch (ep_epoch epoch) (btree_elements (ep_pending_surfaces epoch)),
                layout_epoch)
          else (WaitForDamage, layout_epoch)
      | None => (WaitForDamage, layout_epoch)
      end
  | Some damage =>
      if decide (df_output damage ≠ tk_output tick) then (WaitForDamage, layout_epoch)
      else
        let layout_epoch := (λ e, observe_damage e damage) <$> layout_epoch in
        let render completed_epoch :=
          if decide (region_is_empty (df_damage damage) ∧ df_affected_surfaces damage = [] ∧
                     completed_epoch = None)
          then (WaitForDamage, layout_epoch)
          else (Render (tk_output tick) (tk_frame_serial tick) damage completed_epoch, layout_epoch) in
        match layout_epoch with
        | Some epoch =>
            if decide (epoch_is_complete epoch) then render (Some (ep_epoch epoch))
            else (WaitForLayoutEpoch (ep_epoch epoch) (btree_elements (ep_pending_surfaces epoch)),
                  layout_epoch)
        | None => render None
        end
  end.

(** ** The page-flip commit gate *)

Record PageFlipTransactionBatch : Type := mk_batch {
  pb_output : OutputId; pb_transaction : TransactionId; pb_transactions : list SurfaceTransaction;
}.
Inductive PageFlipCommitOutcome : Type :=
| FlipIdle
| WaitingForOutput (expected actual : OutputId) (transaction : TransactionId)
| WaitingForTransactionReadiness (transaction : TransactionId) (pending_surfaces : list SurfaceId)
| FlipCommitted (frame_serial : Z) (commit : TransactionCommit)
| FlipRejected (frame_serial : Z) (commit : TransactionCommit).

Record PageFlipCommitGate : Type := mk_gate { staged : option PageFlipTransactionBatch }.

Definition gate_new : PageFlipCommitGate := mk_gate None.
Definition gate_stage (output : OutputId) (transaction : TransactionId)
    (transactions : list SurfaceTransaction) (_ : PageFlipCommitGate) : PageFlipCommitGate :=
  mk_gate (Some (mk_batch output transaction transactions)).
Definition gate_clear (g : PageFlipCommitGate) : option PageFlipTransactionBatch * PageFlipCommitGate :=
  (staged g, mk_gate None).

(** The [filter_map] that collects the surfaces still to be waited for. *)
Definition pending_surface (visual_state : SurfaceVisualStateTable) (t : SurfaceTransaction) :
    option SurfaceId :=
  match transaction_commit_readiness visual_state t with
  | CrNotReady TxPending => Some (st_surface t)
  | _ => None
  end.

Definition commit_on_page_flip (g : PageFlipCommitGate) (tick : FrameClockTick)
    (committed : list CommittedSurfaceState) :
    option (PageFlipCommitOutcome * PageFlipCommitGate * list CommittedSurfaceState) :=
  match staged g with
  | None => Some (FlipIdle, g, committed)
  | Some batch =>
      if decide (pb_output batch ≠ tk_output tick) then
        Some (WaitingForOutput (pb_output batch) (tk_output tick) (pb_transaction batch), g, committed)
      else
        let visual_state := from_committed_states committed in
        let pending_surfaces := omap (pending_surface visual_state) (pb_transactions batch) in
        if decide (pending_surfaces ≠ []) then
          Some (WaitingForTransactionReadiness (pb_transaction batch) pending_surfaces, g, committed)
        else
          r ← commit_surface_transactions (pb_transaction batch) (pb_transactions batch) committed;
          if decide (tc_outcome r.1 = Committed)
          then Some (FlipCommitted (tk_frame_serial tick) r.1, mk_gate None, r.2)
          else Some (FlipRejected (tk_frame_serial tick) r.1, mk_gate None, r.2)
  end.

(** ** Output presentation *)

Record OutputPresentationState : Type := mk_presentation {
  op_output : OutputId; op_refresh_millihz : Z; op_damage_pending : bool;
  op_in_flight_frame : option Z; op_last_retired_frame : option Z;
  op_last_presented_sequence : option Z; op_last_presented_msec : option Z;
  op_next_target_msec : option Z; op_submit_deferrals : Z;
}.
Inductive OutputPresentationSchedule : Type :=
| Scheduled (tick : FrameClockTick)
| WaitingForDamage
| WaitingForRetirement (frame_serial : Z)
| ScheduleUnknownOutput.
Inductive OutputPresentationRetire : Type :=
| Retired (frame_serial : Z)
| NoSubmission
| UnexpectedFrame (expected actual : Z)
| RetireUnknownOutput.
Inductive OutputPresentationFeedback : Type :=
| FeedbackAccepted (sequence presentation_msec : Z)
| NonMonotonicSequence (previous actual : Z)
| NonMonotonicTimestamp (previous_msec actual_msec : Z)
| FeedbackUnknownOutput.

Record OutputPresentationRegistry : Type := mk_presentations {
  pr_states : gmap OutputId OutputPresentationState; pr_clocks : PerOutputFrameClock;
}.

Definition presentation_initial (d : DrmKmsOutputDescriptor) : OutputPresentationState :=
  mk_presentation (do_output d) (dm_refresh_millihz (do_mode d)) false None None None None None 0.

Definition presentations_from_outputs (r : DrmKmsOutputRegistry) : OutputPresentationRegistry :=
  mk_presentations
    (foldl (λ m d, <[do_output d := presentation_initial d]> m) ∅ (btree_values (drm_outputs r)))
    (clocks_from_outputs r clock_default).

Definition mark_damage (p : OutputPresentationRegistry) (output : OutputId) :
    bool * OutputPresentationRegistry :=
  match pr_states p !! output with
  | None => (false, p)
  | Some s =>
      (true, mk_presentations (<[output :=
         mk_presentation (op_output s) (op_refresh_millihz s) true (op_in_flight_frame s)
           (op_last_retired_frame s) (op_last_presented_sequence s) (op_last_presented_msec s)
           (op_next_target_msec s) (op_submit_deferrals s)]> (pr_states p)) (pr_clocks p))
  end.

Definition presentation_schedule (p : OutputPresentationRegistry) (output : OutputId) :
    OutputPresentationSchedule * OutputPresentationRegistry :=
  match pr_states p !! output with
  | None => (ScheduleUnknownOutput, p)
  | Some s =>
      match op_in_flight_frame s with
      | Some frame_serial =>
          (WaitingForRetirement frame_serial,
           mk_presentations (<[output :=
             mk_presentation (op_output s) (op_refresh_millihz s) (op_damage_pending s)
               (op_in_flight_frame s) (op_last_retired_frame s) (op_last_presented_sequence s)
               (op_last_presented_msec s) (op_next_target_msec s)
               (saturating_add u64_MAX (op_submit_deferrals s) 1)]> (pr_states p)) (pr_clocks p))
      | None =>
          if decide (op_damage_pending s = false) then (WaitingForDamage, p)
          else
            let r := clocks_next_frame (pr_clocks p) output in
            let tick := match op_next_target_msec s with
                        | Some target_msec => mk_tick (tk_output r.1) (tk_frame_serial r.1) target_msec
                        | None => r.1
                        end in
            (Scheduled tick,
             mk_presentations (<[output :=
               mk_presentation (op_output s) (op_refresh_millihz s) false
                 (Some (tk_frame_serial tick)) (op_last_retired_frame s)
                 (op_last_presented_sequence s) (op_last_presented_msec s) (op_next_target_msec s)
                 (op_submit_deferrals s)]> (pr_states p)) r.2)
      end
  end.

Definition presentation_retire (p : OutputPresentationRegistry) (output : OutputId)
    (frame_serial : Z) : OutputPresentationRetire * OutputPresentationRegistry :=
  match pr_states p !! output with
  | None => (RetireUnknownOutput, p)
  | Some s =>
      match op_in_flight_frame s with
      | None => (NoSubmission, p)
      | Some expected =>
          if decide (expected ≠ frame_serial) then (UnexpectedFrame expected frame_serial, p)
          else (Retired frame_serial,
                mk_presentations (<[output :=
                  mk_presentation (op_output s) (op_refresh_millihz s) (op_damage_pending s)
                    None (Some frame_serial) (op_last_presented_sequence s)
                    (op_last_presented_msec s) (op_next_target_msec s)
                    (op_submit_deferrals s)]> (pr_states p)) (pr_clocks p))
      end
  end.

Definition observe_page_flip (p : OutputPresentationRegistry) (output : OutputId)
    (sequence presentation_msec : Z) : OutputPresentationFeedback * OutputPresentationRegistry :=
  match pr_states p !! output with
  | None => (FeedbackUnknownOutput, p)
  | Some s =>
      let accept :=
        let interval_msec := if decide (op_refresh_millihz s = 0) then 16
                             else refresh_interval (op_refresh_millihz s) in
        (FeedbackAccepted sequence presentation_msec,
         mk_presentations (<[output :=
           mk_presentation (op_output s) (op_refresh_millihz s) (op_damage_pending s)
             (op_in_flight_frame s) (op_last_retired_frame s) (Some sequence)
             (Some presentation_msec)
             (Some (saturating_add u64_MAX presentation_msec interval_msec))
             (op_submit_deferrals s)]> (pr_states p)) (pr_clocks p)) in
      let check_timestamp :=
        match op_last_presented_msec s with
        | Some previous_msec =>
            if decide (presentation_msec < previous_msec)
            then (NonMonotonicTimestamp previous_msec presentation_msec, p) else accept
        | None => accept
        end in
      match op_last_presented_sequence s with
      | Some previous =>
          if decide (sequence ≤ previous) then (NonMonotonicSequence previous sequence, p)
          else check_timestamp
      | None => check_timestamp
      end
  end.

(** ** Layout epochs hold frames back *)

Lemma observe_damage_pending e d :
  ep_pending_surfaces (observe_damage e d) =
    ep_pending_surfaces e ∖ list_to_set (df_affected_surfaces d).
Proof.
  unfold observe_damage; simpl. generalize (ep_pending_surfaces e) as s.
  induction (df_affected_surfaces d) as [|a l IH]; intros s; simpl; [set_solver|].
  rewrite IH. set_solver.
Qed.

Lemma observe_damage_epoch e d : ep_epoch (observe_damage e d) = ep_epoch e.
Proof. done. Qed.

#[local] Opaque observe_damage.

(** One scheduling attempt of a render loop. *)
Definition ScheduleCall : Type := FrameClockTick * option DamageFrame.

(** The damage of a call counts if it is for the output of its tick. *)
Definition call_damage (c : ScheduleCall) : option DamageFrame :=
  d ← c.2; if decide (df_output d = tk_output c.1) then Some d else None.

(** The epoch after a sequence of attempts. *)
Definition schedule_run (e : option LayoutEpochState) (cs : list ScheduleCall) :
    option LayoutEpochState :=
  foldl (λ e c, (schedule_frame_from_damage c.1 c.2 e).2) e cs.

Definition covered (cs : list ScheduleCall) : gset SurfaceId :=
  list_to_set (mjoin (df_affected_surfaces <$> omap call_damage cs)).

Lemma schedule_epoch e c :
  (schedule_frame_from_damage c.1 c.2 (Some e)).2 =
    Some match call_damage c with Some d => observe_damage e d | None => e end.
Proof.
  destruct c as [tick [d|]]; unfold schedule_frame_from_damage, call_damage; simpl.
  - destruct (decide (df_output d = tk_output tick)) as [Ho|Ho].
    + rewrite decide_False by tauto. by repeat case_decide.
    + by rewrite decide_True.
  - by case_decide.
Qed.

Lemma schedule_run_epoch e cs :
  ∃ e', schedule_run (Some e) cs = Some e' ∧ ep_epoch e' = ep_epoch e ∧
    ep_pending_surfaces e' = ep_pending_surfaces e ∖ covered cs.
Proof.
  unfold schedule_run, covered. induction cs as [|c cs IH] using rev_ind.
  { exists e. simpl. split_and!; [done|done|set_solver]. }
  destruct IH as (e'&He&Hep&Hp). rewrite foldl_app; simpl. rewrite He, schedule_epoch.
  eexists. split; [done|]. rewrite omap_app, fmap_app, join_app. csimpl.
  destruct (call_damage c) as [d|]; csimpl.
  - split; [by rewrite observe_damage_epoch|].
    rewrite observe_damage_pending, Hp, app_nil_r, list_to_set_app_L. set_solver.
  - by rewrite app_nil_r.
Qed.

Lemma schedule_render tick damage epoch o f df ce :
  (schedule_frame_from_damage tick damage epoch).1 = Render o f df ce ↔
    damage = Some df ∧ df_output df = tk_output tick ∧ o = tk_output tick ∧
    f = tk_frame_serial tick ∧
    match epoch with
    | Some e => ce = Some (ep_epoch e) ∧ epoch_is_complete (observe_damage e df)
    | None => ce = None ∧ ¬ (region_is_empty (df_damage df) ∧ df_affected_surfaces df = [])
    end.
Proof.
  unfold schedule_frame_from_damage. destruct damage as [d|]; [|destruct epoch; try case_decide; naive_solver].
  destruct (decide (df_output d ≠ tk_output tick)); [naive_solver|].
  destruct epoch as [e|]; csimpl.
  - destruct (decide (epoch_is_complete _)) as [Hc|Hc]; simpl.
    + rewrite decide_False by naive_solver. simpl. split; [|naive_solver].
      intros [= <- <- <- <-]. split_and!; try done. by apply dec_stable.
    + split; [done|]. intros (?&?&?&?&?&Hc2). simplify_eq. done.
  - case_decide as Hc; simpl; [naive_solver|]. split; [|naive_solver].
    intros [= <- <- <- <-]. split_and!; try done; [by apply dec_stable|naive_solver].
Qed.

Lemma covered_snoc cs tick df :
  df_output df = tk_output tick →
  covered (cs ++ [(tick, Some df)]) = covered cs ∪ list_to_set (df_affected_surfaces df).
Proof.
  intros Hout. unfold covered. rewrite omap_app, fmap_app, join_app.
  assert (omap call_damage [(tick, Some df)] = [df]) as ->.
  { unfold call_damage; simpl. by rewrite decide_True. }
  csimpl. by rewrite app_nil_r, list_to_set_app_L.
Qed.

(** A layout epoch is a barrier.  Start an epoch, make any sequence of
    scheduling attempts, then one more with damage [df] for its output.  That
    attempt renders exactly when every surface the epoch waited for has been
    damaged in some attempt so far (this one included); otherwise it waits and
    names exactly the surfaces still missing.  Damage for another output never
    counts. *)
Theorem epoch_barrier e cs tick df :
  df_output df = tk_output tick →
  (schedule_frame_from_damage tick (Some df) (schedule_run (Some e) cs)).1 =
    (if decide (ep_pending_surfaces e ⊆ covered (cs ++ [(tick, Some df)]))
     then Render (tk_output tick) (tk_frame_serial tick) df (Some (ep_epoch e))
     else WaitForLayoutEpoch (ep_epoch e)
            (btree_elements (ep_pending_surfaces e ∖ covered (cs ++ [(tick, Some df)])))).
Proof.
  intros Hout. destruct (schedule_run_epoch e cs) as (e'&->&Hep&Hp).
  assert (ep_pending_surfaces (observe_damage e' df) =
          ep_pending_surfaces e ∖ covered (cs ++ [(tick, Some df)])) as Hpend.
  { rewrite observe_damage_pending, Hp, covered_snoc by done. set_solver. }
  unfold schedule_frame_from_damage. rewrite decide_False by naive_solver. csimpl.
  rewrite !observe_damage_epoch, Hep.
  destruct (decide (ep_pending_surfaces e ⊆ _)) as [Hs|Hs].
  - rewrite decide_True by (unfold epoch_is_complete; rewrite Hpend; by apply subseteq_empty_difference_L).
    by rewrite decide_False by naive_solver.
  - rewrite decide_False; [by rewrite Hpend|]. unfold epoch_is_complete. rewrite Hpend.
    intros Heq. by apply Hs, empty_difference_subseteq_L.
Qed.

Lemma epoch_barrier_witness :
  let s1 := surface_id 1 1 in let s2 := surface_id 2 1 in
  let o := from_raw 1 in
  let df1 := mk_damage_frame o 1 0 1 [s1] region_empty in
  let df2 := mk_damage_frame o 2 0 1 [s2] region_empty in
  (schedule_frame_from_damage (mk_tick o 2 32) (Some df2)
     (schedule_run (Some (epoch_new 7 [s1; s2])) [(mk_tick o 1 16, Some df1)])).1
  = Render o 2 df2 (Some 7).
Proof.
  intros s1 s2 o df1 df2.
  rewrite (epoch_barrier (epoch_new 7 [s1; s2]) [(mk_tick o 1 16, Some df1)] (mk_tick o 2 32) df2)
    by reflexivity.
  rewrite decide_True; [reflexivity|]. apply (bool_decide_unpack _). vm_compute. exact I.
Defined.

(** A timed-out epoch stops holding frames back: expiry empties it and reports
    what it waited for. *)
Lemma expire_spec e now :
  if decide (is_timed_out e now)
  then ∃ t, (expire_if_timed_out e now).1 = Some t ∧ (∀ s, s ∈ et_pending_surfaces t ↔ s ∈ ep_pending_surfaces e) ∧
       epoch_is_complete (expire_if_timed_out e now).2 ∧ ∀ now', ¬ is_timed_out (expire_if_timed_out e now).2 now'
  else expire_if_timed_out e now = (None, e).
Proof.
  unfold expire_if_timed_out. destruct (decide (is_timed_out e now)) as [Ht|Ht].
  - rewrite decide_False by naive_solver. eexists. simpl. split_and!; [done| |done|].
    + intros s. apply elem_of_btree_elements.
    + intros now' [Hc _]. by apply Hc.
  - by rewrite decide_True by done.
Qed.

(** ** The page-flip gate *)

(** A transaction the gate waits for: well formed, but its client is not ready. *)
Definition still_pending (m : gmap SurfaceId CommittedSurfaceState) (t : SurfaceTransaction) : Prop :=
  surface_valid (st_surface t) ∧ ¬ rect_is_empty (st_target_geometry t) ∧
  ¬ (st_target_buffer t = BufferNone ∧ m !! st_surface t = None) ∧ st_readiness t = TxPending.
#[export] Instance still_pending_dec m t : Decision (still_pending m t).
Proof. unfold still_pending; apply _. Defined.

Lemma pending_surface_spec l t :
  surfaces_unique l →
  pending_surface (from_committed_states l) t =
    if decide (still_pending (committed_map l) t) then Some (st_surface t) else None.
Proof.
  intros Hl. unfold pending_surface, transaction_commit_readiness.
  rewrite from_committed_states_lookup, <-lookup_committed_map by done.
  destruct (decide (still_pending _ t)) as [(Hv&Hr&Hb&Hp)|Hn].
  - rewrite !decide_False by tauto. rewrite decide_True; by rewrite Hp.
  - unfold still_pending in Hn. case_decide; [done|]. case_decide; [done|]. case_decide; [done|].
    case_decide as Hrd; [|by case_decide].
    destruct (st_readiness t); try done. tauto.
Qed.

Lemma pending_surfaces_spec l (ts : list SurfaceTransaction) :
  surfaces_unique l →
  omap (pending_surface (from_committed_states l)) ts =
    st_surface <$> filter (still_pending (committed_map l)) ts.
Proof.
  intros Hl. induction ts as [|t ts IH]; [done|]. csimpl. rewrite pending_surface_spec by done.
  rewrite filter_cons. case_decide; csimpl; by rewrite IH.
Qed.

(** C12: the page-flip gate.  A staged batch becomes visible only on a page flip
    of the output it is staged for, only once none of its transactions still
    waits for its client, and then it leaves the gate for good: committed whole,
    or rejected with nothing changed.  In every other case the gate and the
    committed states stay exactly as they are, so the batch can be retried. *)
Theorem page_flip_gate_spec g tick l :
  surfaces_unique l →
  ∃ o g' l', commit_on_page_flip g tick l = Some (o, g', l') ∧ surfaces_unique l' ∧
    match staged g with
    | None => o = FlipIdle ∧ g' = g ∧ l' = l
    | Some b =>
        if decide (pb_output b ≠ tk_output tick) then
          o = WaitingForOutput (pb_output b) (tk_output tick) (pb_transaction b) ∧ g' = g ∧ l' = l
        else if decide (Exists (still_pending (committed_map l)) (pb_transactions b)) then
          o = WaitingForTransactionReadiness (pb_transaction b)
                (st_surface <$> filter (still_pending (committed_map l)) (pb_transactions b)) ∧
          g' = g ∧ l' = l
        else
          staged g' = None ∧
          match first_rejected (committed_map l) (pb_transaction b) (pb_transactions b) with
          | None =>
              o = FlipCommitted (tk_frame_serial tick)
                    (mk_commit (pb_transaction b) Committed (st_surface <$> pb_transactions b)) ∧
              committed_map l' = commit_update (committed_map l) (pb_transactions b)
          | Some t =>
              o = FlipRejected (tk_frame_serial tick)
                    (mk_commit (pb_transaction b) (rejection (committed_map l) (pb_transaction b) t) []) ∧
              l' = l
          end
    end.
Proof.
  intros Hl. unfold commit_on_page_flip. destruct (staged g) as [b|]; [|by eexists _, _, _].
  destruct (decide (pb_output b ≠ tk_output tick)); [by eexists _, _, _|].
  rewrite pending_surfaces_spec by done.
  destruct (decide (Exists _ _)) as [He|He].
  - rewrite decide_True; [by eexists _, _, _|].
    apply Exists_exists in He as (t&Ht&Hp). intros Heq. apply fmap_nil_inv in Heq.
    apply (not_elem_of_nil t). rewrite <-Heq. by apply list_elem_of_filter.
  - rewrite decide_False.
    2:{ intros Hne. apply Hne. rewrite <-Forall_Exists_neg, Forall_forall in He.
        destruct (filter _ _) as [|t ts] eqn:E; [done|]. exfalso.
        assert (t ∈ t :: ts) as Hin by left. rewrite <-E in Hin.
        apply list_elem_of_filter in Hin as [? Hin]. by apply (He t). }
    destruct (first_rejected _ _ _) as [t|] eqn:E.
    + rewrite (commit_rejected _ _ _ t) by done. cbn [mbind option_bind fst snd tc_outcome].
      rewrite decide_False by apply rejection_not_committed. by eexists _, _, _.
    + destruct (commit_ready _ _ _ Hl E) as (l'&->&?&?). cbn [mbind option_bind fst snd tc_outcome].
      rewrite decide_True by done. by eexists _, _, _.
Qed.

Lemma page_flip_gate_spec_witness :
  let g := gate_stage (from_raw 1) (from_raw 5) [example_tx 2 7 TxReady] gate_new in
  ∃ o g' l', commit_on_page_flip g (mk_tick (from_raw 1) 4 64) [example_state 1 3; example_state 2 7]
      = Some (o, g', l') ∧
    o = FlipCommitted 4 (mk_commit (from_raw 5) Committed [surface_id 2 1]) ∧ staged g' = None.
Proof.
  intros g. destruct (page_flip_gate_spec g (mk_tick (from_raw 1) 4 64) _ example_unique)
    as (o&g'&l'&Hc&_). exists o, g', l'. split; [exact Hc|].
  vm_compute in Hc. simplify_eq. split; vm_compute; reflexivity.
Defined.

(** ** Presentation: one frame in flight, serials in order *)

Inductive PresentationEvent : Type :=
| EvMark (output : OutputId)
| EvSchedule (output : OutputId)
| EvRetire (output : OutputId) (frame_serial : Z)
| EvFlip (output : OutputId) (sequence presentation_msec : Z).

(** What an event visibly achieved, for the output it names. *)
Inductive PresentationLog : Type :=
| LogSubmit (frame_serial : Z)
| LogRetire (frame_serial : Z)
| LogPresent (sequence presentation_msec : Z).

Definition presentation_step (p : OutputPresentationRegistry) (ev : PresentationEvent) :
    option (OutputId * PresentationLog) * OutputPresentationRegistry :=
  match ev with
  | EvMark o => (None, (mark_damage p o).2)
  | EvSchedule o =>
      let r := presentation_schedule p o in
      (match r.1 with Scheduled tick => Some (o, LogSubmit (tk_frame_serial tick)) | _ => None end, r.2)
  | EvRetire o f =>
      let r := presentation_retire p o f in
      (match r.1 with Retired f => Some (o, LogRetire f) | _ => None end, r.2)
  | EvFlip o seq msec =>
      let r := observe_page_flip p o seq msec in
      (match r.1 with FeedbackAccepted s m => Some (o, LogPresent s m) | _ => None end, r.2)
  end.

Fixpoint presentation_run (p : OutputPresentationRegistry) (evs : list PresentationEvent) :
    list (OutputId * PresentationLog) * OutputPresentationRegistry :=
  match evs with
  | [] => ([], p)
  | ev :: evs =>
      let r := presentation_step p ev in
      let q := presentation_run r.2 evs in
      (option_list r.1 ++ q.1, q.2)
  end.

(** The log of one output. *)
Definition output_log (o : OutputId) (log : list (OutputId * PresentationLog)) : list PresentationLog :=
  (filter (λ e, e.1 = o) log).*2.

(** The protocol an output follows: submissions and retirements alternate, each
    retirement is of the frame in flight, submitted serials count up by one
    (saturating), accepted feedback has increasing sequence numbers and
    timestamps that never go back. *)
Fixpoint presentation_protocol (in_flight : option Z) (next : Z) (seq msec : option Z)
    (log : list PresentationLog) : Prop :=
  match log with
  | [] => True
  | LogSubmit f :: log =>
      in_flight = None ∧ f = next ∧
      presentation_protocol (Some f) (saturating_add u64_MAX next 1) seq msec log
  | LogRetire f :: log => in_flight = Some f ∧ presentation_protocol None next seq msec log
  | LogPresent s m :: log =>
      (∀ s', seq = Some s' → s' < s) ∧ (∀ m', msec = Some m' → m' ≤ m) ∧
      presentation_protocol in_flight next (Some s) (Some m) log
  end.

Definition presentation_wf (p : OutputPresentationRegistry) : Prop :=
  ∀ o, is_Some (pr_states p !! o) → is_Some (pc_clocks (pr_clocks p) !! o).

(** The protocol state of one output, read off the registry. *)
Definition follows_protocol (p : OutputPresentationRegistry) (o : OutputId)
    (log : list PresentationLog) : Prop :=
  match pr_states p !! o, pc_clocks (pr_clocks p) !! o with
  | Some s, Some c => presentation_protocol (op_in_flight_frame s) (fc_next_serial c)
                        (op_last_presented_sequence s) (op_last_presented_msec s) log
  | _, _ => log = []
  end.

Lemma output_log_app o l1 l2 : output_log o (l1 ++ l2) = output_log o l1 ++ output_log o l2.
Proof. unfold output_log. by rewrite filter_app, fmap_app. Qed.

Lemma output_log_option o (r : option (OutputId * PresentationLog)) :
  output_log o (option_list r) =
    match r with Some (o', x) => if decide (o' = o) then [x] else [] | None => [] end.
Proof.
  destruct r as [[o' x]|]; [|done]. unfold output_log; simpl.
  rewrite filter_cons, filter_nil; simpl. by destruct (decide (o' = o)).
Qed.

Definition state_protocol (s : OutputPresentationState) (c : DeterministicFrameClock) :
    list PresentationLog → Prop :=
  presentation_protocol (op_in_flight_frame s) (fc_next_serial c)
    (op_last_presented_sequence s) (op_last_presented_msec s).

(** The step [p] to [p'] with result [r] keeps the outputs on their protocols. *)
Definition keeps_protocol (p : OutputPresentationRegistry)
    (r : option (OutputId * PresentationLog)) (p' : OutputPresentationRegistry) : Prop :=
  presentation_wf p' ∧
  ∀ o log, follows_protocol p' o log →
    follows_protocol p o (output_log o (option_list r) ++ log).

Lemma keeps_refl p : presentation_wf p → keeps_protocol p None p.
Proof. done. Qed.

(** Updating the state and the clock of one output [q]. *)
Lemma keeps_update p q s c s' cl' c' r :
  presentation_wf p → pr_states p !! q = Some s → pc_clocks (pr_clocks p) !! q = Some c →
  pc_clocks cl' !! q = Some c' →
  (∀ o, q ≠ o → pc_clocks cl' !! o = pc_clocks (pr_clocks p) !! o) →
  (∀ log, state_protocol s' c' log → state_protocol s c (option_list r ++ log)) →
  keeps_protocol p ((q,.) <$> r) (mk_presentations (<[q := s']> (pr_states p)) cl').
Proof.
  intros Hwf Hs Hc Hc' Hcl Hstep. split.
  - intros o [s0 Ho]; simpl in *. destruct (decide (q = o)) as [<-|Hne]; [eauto|].
    rewrite lookup_insert_ne in Ho by done. rewrite Hcl by done. apply Hwf. eauto.
  - intros o log. rewrite output_log_option. unfold follows_protocol; simpl.
    destruct (decide (q = o)) as [<-|Hne].
    + rewrite lookup_insert_eq, Hc', Hs, Hc. intros Hlog. specialize (Hstep log Hlog).
      destruct r; simpl in *; [by rewrite decide_True|done].
    + rewrite lookup_insert_ne, Hcl by done. destruct r; simpl; [by rewrite decide_False|done].
Qed.

(** An update that leaves the clocks alone. *)
Lemma keeps_update_state p q s c s' r :
  presentation_wf p → pr_states p !! q = Some s → pc_clocks (pr_clocks p) !! q = Some c →
  (∀ log, state_protocol s' c log → state_protocol s c (option_list r ++ log)) →
  keeps_protocol p ((q,.) <$> r) (mk_presentations (<[q := s']> (pr_states p)) (pr_clocks p)).
Proof. intros. by eapply keeps_update. Qed.

(** One event keeps every output on its protocol. *)
Lemma presentation_step_protocol p ev :
  presentation_wf p → keeps_protocol p (presentation_step p ev).1 (presentation_step p ev).2.
Proof.
  intros Hwf. destruct ev as [q|q|q f|q sq ms]; simpl;
    unfold mark_damage, presentation_schedule, presentation_retire, observe_page_flip;
    (destruct (pr_states p !! q) as [s|] eqn:Hs; [|by apply keeps_refl]);
    (destruct (Hwf q) as [c Hc]; [by eexists|]).
  - apply (keeps_update_state p q s c _ None); [done..|]. intros log Hlog. exact Hlog.
  - destruct (op_in_flight_frame s) as [f|] eqn:Hf.
    { apply (keeps_update_state p q s c _ None); [done..|]. intros log Hlog.
      unfold state_protocol in *; simpl in *. by rewrite Hf. }
    case_decide; [by apply keeps_refl|]. simpl. unfold clocks_next_frame. rewrite Hc. simpl.
    set (tick := match op_next_target_msec s with Some _ => _ | None => _ end).
    assert (tk_frame_serial tick = fc_next_serial c) as -> by (subst tick; by destruct (op_next_target_msec s)).
    apply (keeps_update p q s c _ _ (clock_next_frame c q).2 (Some (LogSubmit (fc_next_serial c)))); try done.
    + simpl. by rewrite lookup_insert_eq.
    + intros o Hne. simpl. by rewrite lookup_insert_ne.
  - destruct (op_in_flight_frame s) as [f'|] eqn:Hf; [|by apply keeps_refl].
    case_decide as Hff; [by apply keeps_refl|]. subst f'.
    apply (keeps_update_state p q s c _ (Some (LogRetire f))); [done..|].
    intros log Hlog. unfold state_protocol in *; simpl in *. by rewrite Hf.
  - assert (Hacc : (∀ s', op_last_presented_sequence s = Some s' → s' < sq) →
      (∀ m', op_last_presented_msec s = Some m' → m' ≤ ms) → ∀ target,
      keeps_protocol p (Some (q, LogPresent sq ms)) (mk_presentations (<[q :=
        mk_presentation (op_output s) (op_refresh_millihz s) (op_damage_pending s)
          (op_in_flight_frame s) (op_last_retired_frame s) (Some sq) (Some ms) target
          (op_submit_deferrals s)]> (pr_states p)) (pr_clocks p))).
    { intros H1 H2 target. apply (keeps_update_state p q s c _ (Some (LogPresent sq ms))); [done..|].
      intros log Hlog. done. }
    destruct (op_last_presented_sequence s) as [s'|], (op_last_presented_msec s) as [m'|];
      repeat case_decide; try (by apply keeps_refl); apply Hacc; intros ? [= <-]; lia.
Qed.

Lemma presentation_run_protocol p evs :
  presentation_wf p →
  ∀ o, follows_protocol p o (output_log o (presentation_run p evs).1).
Proof.
  revert p. induction evs as [|ev evs IH]; intros p Hwf o; simpl.
  - unfold follows_protocol, output_log; simpl.
    by destruct (pr_states p !! o), (pc_clocks (pr_clocks p) !! o).
  - rewrite output_log_app. destruct (presentation_step_protocol p ev Hwf) as [Hwf' Hk].
    by apply Hk, IH.
Qed.

Lemma foldl_insert_lookup {V} (f : DrmKmsOutputDescriptor → V) l (m : gmap OutputId V) o :
  NoDup (do_output <$> l) →
  foldl (λ m d, <[do_output d := f d]> m) m l !! o =
    match find_first (λ d, do_output d = o) l with Some d => Some (f d) | None => m !! o end.
Proof.
  revert m. induction l as [|d l IH]; intros m; csimpl; [done|].
  intros [Hd Hl]%NoDup_cons. rewrite IH, find_first_cons by done.
  destruct (decide (do_output d = o)) as [<-|Hne].
  - destruct (find_first _ l) as [e|] eqn:E; [|by rewrite lookup_insert_eq].
    apply (find_first_Some (λ e, do_output e = do_output d)) in E as [He Heq].
    destruct Hd. rewrite <-Heq. by apply list_elem_of_fmap_2.
  - by rewrite lookup_insert_ne.
Qed.

(** The output an event names. *)
Definition event_output (ev : PresentationEvent) : OutputId :=
  match ev with EvMark o | EvSchedule o | EvRetire o _ | EvFlip o _ _ => o end.
(** The registries agree on an output. *)
Definition same_output (o : OutputId) (p q : OutputPresentationRegistry) : Prop :=
  pr_states p !! o = pr_states q !! o ∧ pc_clocks (pr_clocks p) !! o = pc_clocks (pr_clocks q) !! o.

(** An event for another output leaves this one alone; one for this output does the same to it
    wherever the others are. *)
Lemma presentation_step_elsewhere p ev o :
  event_output ev ≠ o → presentation_wf p →
  same_output o (presentation_step p ev).2 p ∧ output_log o (option_list (presentation_step p ev).1) = [].
Proof.
  intros Hne Hwf. unfold same_output. rewrite output_log_option. destruct ev as [q|q|q f|q sq ms]; simpl in *;
    unfold mark_damage, presentation_schedule, presentation_retire, observe_page_flip;
    (destruct (pr_states p !! q) as [s|] eqn:Hs; [|done]); (destruct (Hwf q) as [c Hc]; [by eexists|]);
    unfold clocks_next_frame; rewrite ?Hc; repeat case_match; simplify_eq/=; repeat case_decide; simplify_eq/=;
    rewrite ?lookup_insert_ne by done; done.
Qed.
Lemma presentation_step_here p q ev o :
  event_output ev = o → presentation_wf p → presentation_wf q → same_output o p q →
  same_output o (presentation_step p ev).2 (presentation_step q ev).2 ∧
  (presentation_step p ev).1 = (presentation_step q ev).1.
Proof.
  intros <- Hp Hq [Hs Hc]. unfold same_output.
  destruct (pr_states p !! event_output ev) as [s|] eqn:Hsp.
  - destruct (Hp (event_output ev)) as [c Hcp]; [by eexists|]. rewrite Hcp in Hc.
    destruct ev as [o|o|o f|o sq ms]; simpl in *;
      unfold mark_damage, presentation_schedule, presentation_retire, observe_page_flip, clocks_next_frame;
      rewrite Hsp, <-Hs, ?Hcp, <-?Hc; simpl.
    + by rewrite !lookup_insert_eq, Hcp, <-Hc.
    + destruct (op_in_flight_frame s); [by simpl; rewrite !lookup_insert_eq, ?Hcp, <-?Hc|].
      case_decide; simpl; [by rewrite Hsp, <-Hs, Hcp, <-Hc|by rewrite !lookup_insert_eq].
    + destruct (op_in_flight_frame s); [|by simpl; rewrite Hsp, <-Hs, Hcp, <-Hc].
      case_decide; simpl; [by rewrite Hsp, <-Hs, Hcp, <-Hc|by rewrite !lookup_insert_eq, Hcp, <-Hc].
    + destruct (op_last_presented_sequence s), (op_last_presented_msec s); repeat case_decide; simpl;
        first [by rewrite Hsp, <-Hs, Hcp, <-Hc|by rewrite !lookup_insert_eq, Hcp, <-Hc].
  - destruct ev as [o|o|o f|o sq ms]; simpl in *;
      unfold mark_damage, presentation_schedule, presentation_retire, observe_page_flip; rewrite Hsp, <-Hs; simpl; by rewrite Hsp, <-Hs.
Qed.
(** The events of the other outputs may as well be left out. *)
Lemma presentation_run_alone p q evs o :
  presentation_wf p → presentation_wf q → same_output o p q →
  let alone := presentation_run q (filter (λ ev, event_output ev = o) evs) in
  output_log o (presentation_run p evs).1 = output_log o alone.1 ∧ same_output o (presentation_run p evs).2 alone.2.
Proof.
  revert p q. induction evs as [|ev evs IH]; intros p q Hp Hq Hs; [done|]. rewrite filter_cons.
  destruct (presentation_step_protocol p ev Hp) as [Hp' _]. cbn [presentation_run]. cbv zeta. cbn [fst snd]. rewrite output_log_app.
  destruct (decide (event_output ev = o)) as [Ho|Ho].
  - destruct (presentation_step_here p q ev o Ho Hp Hq Hs) as [Hs' ->]. destruct (presentation_step_protocol q ev Hq) as [Hq' _].
    cbn [presentation_run]. cbv zeta. cbn [fst snd]. rewrite output_log_app. destruct (IH _ _ Hp' Hq' Hs') as [-> H]. done.
  - destruct (presentation_step_elsewhere p ev o Ho Hp) as [[H1 H2] ->]. apply IH; [done..|]. destruct Hs. split; congruence.
Qed.

(** C13: presentation.  Drive the registry built from any set of outputs with
    any sequence of damage marks, schedule attempts, retirements and page-flip
    reports.  For each output the frames submitted carry the serials 1, 2, 3,
    ... in order, a frame is submitted only when none is in flight, a
    retirement is always of the frame in flight, and the accepted page flips
    have strictly increasing sequence numbers and timestamps that never go
    back.  What happens on one output has no influence on another: its log and
    its state are what they would be had only its own events happened. *)
Theorem presentation_follows_protocol r evs o :
  registry_ok r →
  let run := presentation_run (presentations_from_outputs r) evs in
  let alone := presentation_run (presentations_from_outputs r) (filter (λ ev, event_output ev = o) evs) in
  (if decide (is_Some (drm_outputs r !! o))
   then presentation_protocol None 1 None None (output_log o run.1) else output_log o run.1 = []) ∧
  output_log o run.1 = output_log o alone.1 ∧ same_output o run.2 alone.2.
Proof.
  intros Hr. destruct (registry_values r Hr) as [Hnd Hvals]. cbv zeta.
  set (p := presentations_from_outputs r).
  assert (∀ o, (is_Some (drm_outputs r !! o) ∧ ∃ d,
      pr_states p !! o = Some (presentation_initial d) ∧
      pc_clocks (pr_clocks p) !! o = Some (output_clock clock_default d)) ∨
    (drm_outputs r !! o = None ∧ pr_states p !! o = None)) as Hp.
  { intros o'. unfold p; simpl. rewrite !foldl_insert_lookup, lookup_empty by done.
    destruct (find_first _ _) as [d|] eqn:E.
    - left. apply (find_first_Some (λ d, do_output d = o')) in E as [Hd <-]. apply Hvals in Hd. eauto.
    - right. split; [|done]. apply find_first_None in E. rewrite Forall_forall in E.
      apply eq_None_not_Some. intros [d Hd]. destruct Hr as [Hk _]. specialize (Hk _ _ Hd).
      apply (E d); [|done]. apply Hvals. by rewrite Hk. }
  assert (presentation_wf p) as Hwf.
  { intros o' [s Hs]. destruct (Hp o') as [(_&d&_&->)|[_ Hn]]; [eauto|congruence]. }
  split; [|by apply presentation_run_alone].
  pose proof (presentation_run_protocol p evs Hwf o) as Hrun. unfold follows_protocol in Hrun.
  destruct (Hp o) as [(Hin&d&Hs&Hc)|[Hn Hs]].
  - rewrite decide_True by done. by rewrite Hs, Hc in Hrun.
  - rewrite decide_False by (rewrite Hn; intros [? ?]; done). by rewrite Hs in Hrun.
Qed.

Lemma presentation_follows_protocol_witness :
  let r := (drm_upsert (drm_upsert registry_new (example_output 3)).2 (example_output 4)).2 in
  let o := from_raw 3 in
  let other := from_raw 4 in
  let evs := [EvSchedule o; EvMark other; EvSchedule other; EvMark o; EvSchedule o; EvMark o; EvSchedule o; EvRetire o 1;
              EvRetire other 1; EvSchedule o; EvFlip o 10 100; EvFlip other 9 99; EvFlip o 10 101] in
  let run := presentation_run (presentations_from_outputs r) evs in
  output_log o run.1 = [LogSubmit 1; LogRetire 1; LogSubmit 2; LogPresent 10 100] ∧
  presentation_protocol None 1 None None (output_log o run.1) ∧
  output_log o run.1 =
    output_log o (presentation_run (presentations_from_outputs r) (filter (λ ev, event_output ev = o) evs)).1.
Proof.
  intros r o other evs. split; [vm_compute; reflexivity|].
  assert (Hr : registry_ok r).
  { apply drm_upsert_spec, drm_upsert_spec. split; [intros q d; simpl; by rewrite lookup_empty|].
    simpl. rewrite map_size_empty. unfold MAX_DRM_KMS_OUTPUTS. lia. }
  pose proof (presentation_follows_protocol r evs o Hr) as [H [Ha _]]. cbv zeta in H.
  rewrite decide_True in H; [split; [exact H|exact Ha]|]. eexists. vm_compute. reflexivity.
Defined.
