(* ===== verification/Rendering.v ===== *)
(** * Planning, replaying and rendering a frame
    ([sophia-engine/src/{engine/{core,rendering}.rs,engine/layout/projection.rs,render.rs}])

    [plan_frame] turns the layers of an output into draw commands in stacking
    order; [replay_frame] re-checks a frame before it is drawn; the renderers
    report how each buffer was imported.  The engine is its one output. *)

From S2P Require Import Prelude Ids Geometry Packets Errors Outputs EngineCommit.
Local Open Scope Z_scope.

Record HeadlessEngine : Type := mk_engine { en_output : HeadlessOutput }.

Definition validate_output (e : HeadlessEngine) (output : OutputId) : result unit EngineError :=
  ensure! id_valid output ∧ output = ho_id (en_output e) else InvalidOutput in Ok ().

(** ** Projection of committed states onto layers *)

Definition project_committed_surface_state (committed : CommittedSurfaceState)
    (template : LayerSnapshot) : result LayerSnapshot EngineError :=
  ensure! surface_valid (cs_surface committed) ∧ surface_valid (ls_surface template)
    else InvalidSurface in
  ensure! cs_surface committed = ls_surface template else InvalidSurface in
  Ok (mk_layer (ls_surface template) (ls_authority_local_id template) (ls_namespace template)
        (ls_stack_rank template) (cs_geometry committed) (cs_buffer committed)
        (cs_damage committed) (ls_opacity template) (ls_crop template) (ls_transform template)
        (cs_committed_generation committed) (ls_resize_sync template)).

(** [collect::<BTreeMap<_, _>>()] of [(surface, layer)]: the last layer of a
    surface wins. *)
Definition layers_by_surface (layers : list LayerSnapshot) : gmap SurfaceId LayerSnapshot :=
  foldl (λ m layer, <[ls_surface layer := layer]> m) ∅ layers.

Definition project_committed_surface_states (committed : list CommittedSurfaceState)
    (templates : list LayerSnapshot) : result (list LayerSnapshot) EngineError :=
  let templates_by_surface := layers_by_surface templates in
  try_map (λ state,
    let? template := ok_or (templates_by_surface !! cs_surface state) InvalidSurface in
    project_committed_surface_state state template) committed.

(** ** Planning *)

Record FramePlanRequest : Type := mk_plan_request { fp_output : OutputId; fp_frame_serial : Z }.

(** [opacity > 0.0]: the bit patterns of the positive [f32] values (not NaN). *)
Definition f32_positive (bits : Z) : Prop := 0 < bits ≤ 2139095040.
#[export] Instance f32_positive_dec b : Decision (f32_positive b).
Proof. unfold f32_positive; apply _. Defined.

Definition should_render (layer : LayerSnapshot) : Prop :=
  f32_positive (ls_opacity layer) ∧ ¬ rect_is_empty (ls_geometry layer) ∧ ls_source layer ≠ BufferNone.
#[export] Instance should_render_dec l : Decision (should_render l).
Proof. unfold should_render; apply _. Defined.

Definition layer_target (layer : LayerSnapshot) : Region :=
  match ls_crop layer with
  | Some crop => region_single crop
  | None => region_single (ls_geometry layer)
  end.

Definition layer_command (output : OutputId) (layer : LayerSnapshot) : RenderCommand :=
  mk_render_command Blit (Some (ls_surface layer)) output (layer_target layer)
    (region_single <$> ls_crop layer) (ls_transform layer) (ls_opacity layer).

(** One iteration of the loop over the sorted layers. *)
Definition plan_layer (output : OutputId) (s : list RenderCommand * Region) (layer : LayerSnapshot) :
    result (list RenderCommand * Region) EngineError :=
  ensure! surface_valid (ls_surface layer) else InvalidSurface in
  if decide (¬ should_render layer) then Ok s
  else if decide (region_is_empty (layer_target layer)) then Ok s
  else Ok (s.1 ++ [layer_command output layer], region_extend s.2 (ls_damage layer)).

Definition plan_frame (e : HeadlessEngine) (request : FramePlanRequest) (layers : list LayerSnapshot) :
    result FrameSnapshot EngineError :=
  let? _ := validate_output e (fp_output request) in
  let layers := sort_by_key ls_stack_rank layers in
  let? ' (commands, damage) := try_fold (plan_layer (fp_output request)) ([], region_empty) layers in
  Ok (mk_frame_snapshot (fp_output request) (ho_size (en_output e)) (ho_scale (en_output e))
        (fp_frame_serial request) layers commands damage).

(** ** Replaying *)

Record ReplayStep : Type := mk_step {
  rs_command_index : nat; rs_kind : RenderCommandKind; rs_source : option SurfaceId;
  rs_target : Region; rs_clip : option Region; rs_transform : Transform; rs_alpha : Z;
}.
Record ReplayReport : Type := mk_replay {
  rr_output : OutputId; rr_output_size : Size; rr_output_scale : Z; rr_frame_serial : Z;
  rr_steps : list ReplayStep; rr_damage : Region;
}.

Definition replay_step (index : nat) (c : RenderCommand) : ReplayStep :=
  mk_step index (rc_kind c) (rc_source c) (rc_target c) (rc_clip c) (rc_transform c) (rc_alpha c).

(** A command's source, if it names one, is a valid surface of the frame. *)
Definition source_ok (surfaces : gset SurfaceId) (source : option SurfaceId) : Prop :=
  match source with Some s => surface_valid s ∧ s ∈ surfaces | None => True end.
#[export] Instance source_ok_dec ss s : Decision (source_ok ss s).
Proof. destruct s; simpl; apply _. Defined.

(** One iteration of the loop over [commands.iter().enumerate()]. *)
Definition replay_command (frame : FrameSnapshot) (surfaces : gset SurfaceId)
    (steps : list ReplayStep) (c : nat * RenderCommand) : result (list ReplayStep) EngineError :=
  ensure! rc_output c.2 = fs_output frame else InvalidOutput in
  ensure! source_ok surfaces (rc_source c.2) else InvalidSurface in
  Ok (steps ++ [replay_step c.1 c.2]).

Definition replay_frame (e : HeadlessEngine) (frame : FrameSnapshot) : result ReplayReport EngineError :=
  let? _ := validate_output e (fs_output frame) in
  ensure! fs_output_size frame = ho_size (en_output e) ∧
          fs_output_scale frame = ho_scale (en_output e) else InvalidFrame in
  let surfaces := list_to_set (ls_surface <$> fs_layers frame) in
  let? steps := try_fold (replay_command frame surfaces) [] (imap pair (fs_commands frame)) in
  Ok (mk_replay (fs_output frame) (fs_output_size frame) (fs_output_scale frame)
        (fs_frame_serial frame) steps (fs_damage frame)).

(** ** Buffer imports and renderers *)

Inductive BufferImportPath : Type := PathCpuReadback | PathXPixmap | PathDmaBuf.
Inductive ImportedBufferHandle : Type :=
| HandleCpuReadback (source : BufferSource)
| HandleXPixmap (pixmap : Z)
| HandleDmaBuf (handle : Z).
#[export] Instance BufferImportPath_eq_dec : EqDecision BufferImportPath.
Proof. solve_decision. Defined.

Definition handle_path (h : ImportedBufferHandle) : BufferImportPath :=
  match h with
  | HandleCpuReadback _ => PathCpuReadback
  | HandleXPixmap _ => PathXPixmap
  | HandleDmaBuf _ => PathDmaBuf
  end.

Record BufferImportReport : Type := mk_import {
  bi_surface : SurfaceId; bi_source : BufferSource; bi_requested : BufferImportPath;
  bi_used : BufferImportPath; bi_handle : ImportedBufferHandle; bi_used_fallback : bool;
}.
Record RenderFrameReport : Type := mk_render_report {
  rf_replay : ReplayReport; rf_imports : list BufferImportReport;
}.

Definition buffer_import_report (layer : LayerSnapshot)
    (import_source : BufferSource → ImportedBufferHandle) : option BufferImportReport :=
  requested ← match ls_source layer with
              | BufferNone => None
              | CpuBuffer _ => Some PathCpuReadback
              | XPixmap _ => Some PathXPixmap
              | DmaBuf _ => Some PathDmaBuf
              end;
  let handle := import_source (ls_source layer) in
  let used := handle_path handle in
  Some (mk_import (ls_surface layer) (ls_source layer) requested used handle
          (bool_decide (requested ≠ used))).

(** One iteration of the loop over the commands. *)
Definition import_step (layers : gmap SurfaceId LayerSnapshot)
    (import_source : BufferSource → ImportedBufferHandle)
    (s : gset SurfaceId * list BufferImportReport) (c : RenderCommand) :
    gset SurfaceId * list BufferImportReport :=
  match rc_source c with
  | None => s
  | Some surface =>
      if decide (surface ∈ s.1) then s
      else ({[surface]} ∪ s.1,
            s.2 ++ option_list (layer ← layers !! surface; buffer_import_report layer import_source))
  end.

Definition collect_buffer_imports (frame : FrameSnapshot)
    (import_source : BufferSource → ImportedBufferHandle) : list BufferImportReport :=
  (foldl (import_step (layers_by_surface (fs_layers frame)) import_source) (∅, [])
    (fs_commands frame)).2.

(** The renderers: what each does with a buffer source.  [CpuFallbackRenderer]
    reads everything back; [ImportCapableRenderer] imports what it can. *)
Definition cpu_fallback_import (source : BufferSource) : ImportedBufferHandle :=
  HandleCpuReadback source.

Record ImportCapableRenderer : Type := mk_importer { import_xpixmap : bool; import_dmabuf : bool }.

Definition import_source (r : ImportCapableRenderer) (source : BufferSource) : ImportedBufferHandle :=
  match source with
  | XPixmap pixmap => if import_xpixmap r then HandleXPixmap pixmap else HandleCpuReadback source
  | DmaBuf handle => if import_dmabuf r then HandleDmaBuf handle else HandleCpuReadback source
  | _ => HandleCpuReadback source
  end.

(** Both [FrameRenderer] instances have this body. *)
Definition renderer_render_frame (import : BufferSource → ImportedBufferHandle)
    (frame : FrameSnapshot) (replay : ReplayReport) : result RenderFrameReport EngineError :=
  Ok (mk_render_report replay (collect_buffer_imports frame import)).

Definition render_frame_with (e : HeadlessEngine) (import : BufferSource → ImportedBufferHandle)
    (frame : FrameSnapshot) : result RenderFrameReport EngineError :=
  let? replay := replay_frame e frame in
  renderer_render_frame import frame replay.

Definition render_frame (e : HeadlessEngine) (frame : FrameSnapshot) :
    result RenderFrameReport EngineError := render_frame_with e cpu_fallback_import frame.

(** ** Lemmas *)

(** The layers that end up on screen. *)
Definition drawn (layer : LayerSnapshot) : Prop :=
  should_render layer ∧ ¬ region_is_empty (layer_target layer).
#[export] Instance drawn_dec l : Decision (drawn l).
Proof. unfold drawn; apply _. Defined.

Definition damage_of (layers : list LayerSnapshot) : Region :=
  foldl (λ r l, region_extend r (ls_damage l)) region_empty layers.

Lemma plan_loop output layers cmds damage :
  try_fold (plan_layer output) (cmds, damage) layers =
    if decide (Forall (λ l, surface_valid (ls_surface l)) layers)
    then Ok (cmds ++ (layer_command output <$> filter drawn layers),
             foldl (λ r l, region_extend r (ls_damage l)) damage (filter drawn layers))
    else Err InvalidSurface.
Proof.
  revert cmds damage. induction layers as [|l ls IH]; intros cmds damage.
  { simpl. by rewrite app_nil_r. }
  cbn [try_fold]. unfold plan_layer at 1. destruct (decide (surface_valid (ls_surface l))) as [Hv|Hv].
  2:{ rewrite decide_False; [done|]. intros Hf. by apply Forall_cons in Hf as [? _]. }
  assert (Forall (λ l, surface_valid (ls_surface l)) (l :: ls) ↔
          Forall (λ l, surface_valid (ls_surface l)) ls) as Hiff.
  { rewrite Forall_cons. tauto. }
  rewrite filter_cons.
  destruct (decide (¬ should_render l)) as [Hr|Hr].
  - simpl. rewrite IH. rewrite (decide_False (P := drawn l)) by (unfold drawn; tauto).
    repeat case_decide; first [done|tauto].
  - destruct (decide (region_is_empty (layer_target l))) as [Ht|Ht]; simpl; rewrite IH.
    + rewrite (decide_False (P := drawn l)) by (unfold drawn; tauto). repeat case_decide; first [done|tauto].
    + rewrite (decide_True (P := drawn l)) by (unfold drawn; apply dec_stable in Hr; tauto).
      csimpl. rewrite <-(assoc_L (++)). repeat case_decide; first [done|tauto].
Qed.

(** The plan of an output, as a function of its layers. *)
Lemma plan_frame_eq e request layers :
  plan_frame e request layers =
    if decide (id_valid (fp_output request) ∧ fp_output request = ho_id (en_output e)) then
      if decide (Forall (λ l, surface_valid (ls_surface l)) layers) then
        let shown := filter drawn (sort_by_key ls_stack_rank layers) in
        Ok (mk_frame_snapshot (fp_output request) (ho_size (en_output e)) (ho_scale (en_output e))
              (fp_frame_serial request) (sort_by_key ls_stack_rank layers)
              (layer_command (fp_output request) <$> shown) (damage_of shown))
      else Err InvalidSurface
    else Err InvalidOutput.
Proof.
  unfold plan_frame, validate_output. case_decide; [|done]. simpl. rewrite plan_loop.
  destruct (decide (Forall _ layers)) as [Hf|Hf].
  - rewrite decide_True; [done|]. by rewrite sort_by_key_perm.
  - rewrite decide_False; [done|]. by rewrite sort_by_key_perm.
Qed.

Lemma replay_loop frame surfaces cs n steps :
  Forall (λ c, rc_output c = fs_output frame ∧ source_ok surfaces (rc_source c)) cs →
  try_fold (replay_command frame surfaces) steps (imap (λ i c, ((n + i)%nat, c)) cs) =
    Ok (steps ++ imap (λ i c, replay_step (n + i) c) cs).
Proof.
  intros Hf. revert n steps. induction Hf as [|c cs [Ho Hs] _ IH]; intros n steps; simpl.
  { by rewrite app_nil_r. }
  unfold replay_command at 1. simpl. rewrite !decide_True by done. simpl.
  rewrite (imap_ext _ (λ i c, ((S n + i)%nat, c))) by (intros; simpl; f_equal; lia).
  rewrite IH, <-(assoc_L (++)). simpl. do 2 f_equal. rewrite Nat.add_0_r. f_equal.
  apply imap_ext. intros; simpl. f_equal. lia.
Qed.

Lemma in_damage_of layers x y :
  in_region x y (damage_of layers) ↔ ∃ l, l ∈ layers ∧ in_region x y (ls_damage l).
Proof.
  unfold damage_of. induction layers as [|l ls IH] using rev_ind.
  - unfold in_region; simpl. rewrite Exists_nil. set_solver.
  - rewrite foldl_app; simpl. rewrite in_region_extend, IH. setoid_rewrite elem_of_app.
    setoid_rewrite list_elem_of_singleton. naive_solver.
Qed.

Lemma layer_target_ok l : ¬ region_is_empty (layer_target l) → region_ok (layer_target l).
Proof.
  unfold region_ok, layer_target, region_single, region_is_empty.
  destruct (ls_crop l); case_decide; simpl; intros; try done; by constructor.
Qed.

Lemma replay_planned e output layers size scale serial damage :
  id_valid output → output = ho_id (en_output e) →
  size = ho_size (en_output e) → scale = ho_scale (en_output e) →
  Forall (λ l, surface_valid (ls_surface l)) layers →
  let commands := layer_command output <$> filter drawn layers in
  replay_frame e (mk_frame_snapshot output size scale serial layers commands damage) =
    Ok (mk_replay output size scale serial (imap replay_step commands) damage).
Proof.
  intros Hv Ho Hsz Hsc Hf commands. unfold replay_frame, validate_output; simpl.
  rewrite decide_True by done; simpl. rewrite decide_True by done.
  rewrite (replay_loop _ _ _ 0).
  - done.
  - apply Forall_fmap, Forall_forall. intros l Hl. apply list_elem_of_filter in Hl as [_ Hl]. simpl.
    rewrite Forall_forall in Hf. split_and!; [done|by apply Hf|].
    apply elem_of_list_to_set. by apply list_elem_of_fmap_2.
Qed.

(** Every planned frame renders.  Planning fails only for an output the
    engine does not have or a layer with an invalid surface.  A frame it does
    produce keeps all layers in stacking order (equal ranks in their given
    order); replaying and rendering it succeeds with any renderer, drawing
    exactly the visible layers, bottom to top, each into a non-empty target;
    and the damage is exactly the damage of the drawn layers. *)
Theorem planned_frame_renders e request layers import :
  match plan_frame e request layers with
  | Ok frame =>
      fs_layers frame ≡ₚ layers ∧
      StronglySorted (λ l1 l2, ls_stack_rank l1 ≤ ls_stack_rank l2) (fs_layers frame) ∧
      (∀ k, filter (λ l, ls_stack_rank l = k) (fs_layers frame) = filter (λ l, ls_stack_rank l = k) layers) ∧
      ∃ report, render_frame_with e import frame = Ok report ∧
        rs_source <$> rr_steps (rf_replay report) =
          (λ l, Some (ls_surface l)) <$> filter drawn (fs_layers frame) ∧
        Forall (λ s, region_ok (rs_target s) ∧ ¬ region_is_empty (rs_target s))
          (rr_steps (rf_replay report)) ∧
        (∀ x y, in_region x y (rr_damage (rf_replay report)) ↔
          ∃ l, l ∈ layers ∧ drawn l ∧ in_region x y (ls_damage l))
  | Err InvalidOutput => ¬ (id_valid (fp_output request) ∧ fp_output request = ho_id (en_output e))
  | Err InvalidSurface => ∃ l, l ∈ layers ∧ ¬ surface_valid (ls_surface l)
  | Err _ => False
  end.
Proof.
  rewrite plan_frame_eq. destruct (decide (id_valid _ ∧ _)) as [[Hv Ho]|]; [|done].
  destruct (decide (Forall _ layers)) as [Hf|Hf].
  2:{ apply not_Forall_Exists, Exists_exists in Hf; [done|apply _]. }
  simpl. split_and!; [apply sort_by_key_perm|apply sort_by_key_sorted|apply sort_by_key_stable|].
  unfold render_frame_with, renderer_render_frame. rewrite replay_planned; try done.
  2:{ by rewrite sort_by_key_perm. }
  simpl. eexists. split; [done|]. simpl. split_and!.
  - rewrite fmap_imap. apply list_eq. intros i. rewrite list_lookup_imap, !list_lookup_fmap.
    by destruct (filter drawn _ !! i).
  - apply Forall_lookup. intros i s. rewrite list_lookup_imap, list_lookup_fmap.
    destruct (filter drawn _ !! i) as [l|] eqn:El; [|done]. intros [= <-]; simpl.
    apply list_elem_of_lookup_2, list_elem_of_filter in El as [[_ Hd] _].
    split; [by apply layer_target_ok|done].
  - intros x y. rewrite in_damage_of. setoid_rewrite list_elem_of_filter.
    setoid_rewrite sort_by_key_perm. naive_solver.
Qed.

(** ** Buffer imports *)

Lemma layers_by_surface_lookup layers l :
  NoDup (ls_surface <$> layers) → l ∈ layers → layers_by_surface layers !! ls_surface l = Some l.
Proof.
  unfold layers_by_surface. induction layers as [|l' ls IH] using rev_ind; [set_solver|].
  rewrite fmap_app, foldl_app. intros (Hnd&Hnew&_)%NoDup_app Hin. simpl.
  apply elem_of_app in Hin as [Hin| ->%list_elem_of_singleton]; [|by rewrite lookup_insert_eq].
  rewrite lookup_insert_ne; [by apply IH|]. intros Heq. apply (Hnew (ls_surface l)).
  - by apply list_elem_of_fmap_2.
  - rewrite <-Heq. by left.
Qed.

Lemma import_foldl m import output ls seen acc :
  NoDup (ls_surface <$> ls) → (∀ l, l ∈ ls → ls_surface l ∉ seen) →
  (∀ l, l ∈ ls → m !! ls_surface l = Some l) →
  (foldl (import_step m import) (seen, acc) (layer_command output <$> ls)).2 =
    acc ++ omap (λ l, buffer_import_report l import) ls.
Proof.
  revert seen acc. induction ls as [|l ls IH]; intros seen acc; csimpl.
  { by rewrite app_nil_r. }
  intros [Hl Hnd]%NoDup_cons Hseen Hm. unfold import_step at 2. simpl.
  rewrite decide_False by (apply Hseen; left). rewrite IH.
  - rewrite Hm by left. simpl. destruct (buffer_import_report l import); simpl;
      [by rewrite <-(assoc_L (++))|by rewrite app_nil_r].
  - done.
  - intros l' Hl'. rewrite not_elem_of_union, not_elem_of_singleton. split; [|apply Hseen; by right].
    intros Heq. apply Hl. rewrite <-Heq. by apply list_elem_of_fmap_2.
  - intros l' Hl'. apply Hm. by right.
Qed.

(** What a buffer's import report must say. *)
Definition import_for (r : ImportCapableRenderer) (l : LayerSnapshot) (i : BufferImportReport) : Prop :=
  bi_surface i = ls_surface l ∧ bi_source i = ls_source l ∧ bi_used i = handle_path (bi_handle i) ∧
  (bi_used_fallback i = true ↔
    (∃ p, ls_source l = XPixmap p) ∧ import_xpixmap r = false ∨
    (∃ h, ls_source l = DmaBuf h) ∧ import_dmabuf r = false) ∧
  (bi_used_fallback i = true → bi_handle i = HandleCpuReadback (ls_source l)).

(** Buffer imports.  If no surface has two layers, rendering a planned
    frame imports exactly one buffer per drawn layer, in drawing order; it is
    the buffer of that layer, and it is read back by the CPU as a fallback
    exactly when it is a pixmap or DMA-BUF the renderer cannot import. *)
Theorem planned_frame_imports e request layers frame r :
  NoDup (ls_surface <$> layers) → plan_frame e request layers = Ok frame →
  Forall2 (import_for r) (filter drawn (fs_layers frame)) (collect_buffer_imports frame (import_source r)).
Proof.
  intros Hnd Hplan. rewrite plan_frame_eq in Hplan. case_decide; [|done]. case_decide; [|done].
  simplify_eq/=. set (ls := sort_by_key ls_stack_rank layers).
  assert (NoDup (ls_surface <$> ls)) as Hnd' by (unfold ls; by rewrite sort_by_key_perm).
  unfold collect_buffer_imports; simpl. rewrite import_foldl; simpl.
  - assert (Forall drawn (filter drawn ls)) as Hd.
    { apply Forall_forall. intros l Hl. by apply list_elem_of_filter in Hl as [? _]. }
    induction Hd as [|l l' [(_&_&Hsrc) _] _ IH]; csimpl; [constructor|].
    unfold buffer_import_report, import_source at 1, handle_path.
    destruct (ls_source l) as [|p|h|h] eqn:Es; [done|..]; simpl;
      (constructor; [|done]); unfold import_for; simpl; rewrite Es;
      destruct (import_xpixmap r), (import_dmabuf r); simpl; split_and!; try done;
      naive_solver.
  - by apply NoDup_fmap_filter.
  - set_solver.
  - intros l Hl. apply list_elem_of_filter in Hl as [_ Hl]. by apply layers_by_surface_lookup.
Qed.

Definition example_layer (surface rank : Z) (source : BufferSource) : LayerSnapshot :=
  mk_layer (surface_id surface 1) None None rank (mk_rect 0 0 64 64) source
    (region_single (mk_rect 0 0 8 8)) f32_one None IDENTITY 1 ImplicitOnly.

Lemma planned_frame_imports_witness :
  let e := mk_engine headless_deterministic in
  let ls := [example_layer 3 9 (DmaBuf 4); example_layer 4 2 (XPixmap 6)] in
  let r := mk_importer false true in
  ∃ frame, plan_frame e (mk_plan_request (from_raw 1) 7) ls = Ok frame ∧
    Forall2 (import_for r) (filter drawn (fs_layers frame)) (collect_buffer_imports frame (import_source r)) ∧
    bi_used_fallback <$> collect_buffer_imports frame (import_source r) = [true; false].
Proof.
  intros e ls r. eexists. split; [vm_compute; reflexivity|]. split; [|vm_compute; reflexivity].
  apply (planned_frame_imports e (mk_plan_request (from_raw 1) 7) ls).
  - apply (bool_decide_unpack _). vm_compute. exact I.
  - vm_compute. reflexivity.
Defined.
