(* ===== verification/WmPolicy.v ===== *)
(** * Workspaces, focus and the window manager's responses
    ([sophia-engine/src/wm_policy.rs])

    The engine owns which workspace each output shows, which workspace each
    surface is on and which surface is focused.  A window-manager response is
    checked command by command against a candidate copy of that state; only a
    whole accepted response yields a plan. *)

From S2P Require Import Prelude Ids Geometry Packets.
Local Open Scope Z_scope.

Record WmOutputPolicyState : Type := mk_output_policy {
  ops_bounds : Rect; ops_workspace : WorkspaceId; ops_focus : option SurfaceId;
}.
#[export] Instance WmOutputPolicyState_eq_dec : EqDecision WmOutputPolicyState.
Proof. solve_decision. Defined.

Record WmWorkspaceState : Type := mk_policy {
  pol_workspaces : list WorkspaceId; pol_outputs : gmap OutputId WmOutputPolicyState;
  pol_surfaces : gmap SurfaceId WorkspaceId;
}.

Inductive WmPolicyError : Type :=
| PeInvalidWorkspaceCount | PeInvalidOutput | PeDuplicateOutput | PeInvalidOutputBounds
| PeUnknownOutput | PeUnknownWorkspace | PeUnknownSurface | PeDuplicateSurfaceCommand
| PeDuplicateOutputCommand | PeDuplicateFocusCommand | PeDuplicateSessionAction | PeHiddenFocus
| PeUnadvertisedSessionAction | PeInvalidSessionActionTarget.
#[export] Instance WmPolicyError_eq_dec : EqDecision WmPolicyError.
Proof. solve_decision. Defined.

Record WmPolicyPlan : Type := mk_plan {
  pp_transaction : TransactionId; pp_candidate : WmWorkspaceState; pp_layout : LayoutTransaction;
  pp_affected_outputs : list OutputId;
  pp_session_action : option (WmSessionAction * option SurfaceId);
}.

(** ** Construction *)

(** One iteration of the loop of [new]. *)
Definition policy_new_step (workspaces : list WorkspaceId)
    (configured : gmap OutputId WmOutputPolicyState) (e : nat * (OutputId * Rect)) :
    result (gmap OutputId WmOutputPolicyState) WmPolicyError :=
  let '(index, (output, bounds)) := e in
  ensure! id_valid output else PeInvalidOutput in
  ensure! ¬ rect_is_empty bounds else PeInvalidOutputBounds in
  let? workspace := ok_or (workspaces !! index) PeInvalidWorkspaceCount in
  ensure! configured !! output = None else PeDuplicateOutput in
  Ok (<[output := mk_output_policy bounds workspace None]> configured).

Definition policy_new (outputs : list (OutputId * Rect)) (workspace_count : Z) :
    result WmWorkspaceState WmPolicyError :=
  ensure! workspace_count ≠ 0 ∧ workspace_count ≤ 64 else PeInvalidWorkspaceCount in
  let workspaces := from_raw <$> seqZ 1 workspace_count in
  let? configured := try_fold (policy_new_step workspaces) ∅ (imap pair outputs) in
  ensure! configured ≠ ∅ else PeInvalidOutput in
  Ok (mk_policy workspaces configured ∅).

Definition policy_descriptor (w : WmWorkspaceState) (session_actions : list WmSessionAction) :
    WmSessionDescriptor :=
  mk_descriptor WM_API_VERSION (pol_workspaces w)
    ((λ e, mk_output_workspace e.1 (ops_workspace e.2)) <$> btree_entries (pol_outputs w))
    session_actions.

(** ** Queries *)

Definition require_workspace (w : WmWorkspaceState) (workspace : WorkspaceId) :
    result unit WmPolicyError :=
  ensure! workspace ∈ pol_workspaces w else PeUnknownWorkspace in Ok ().

Definition require_surface (w : WmWorkspaceState) (surface : SurfaceId) : result unit WmPolicyError :=
  ensure! is_Some (pol_surfaces w !! surface) else PeUnknownSurface in Ok ().

Definition surface_workspace (w : WmWorkspaceState) (surface : SurfaceId) : option WorkspaceId :=
  pol_surfaces w !! surface.

Definition output_for_workspace (w : WmWorkspaceState) (workspace : WorkspaceId) : option OutputId :=
  find_map (λ e, if decide (ops_workspace e.2 = workspace) then Some e.1 else None)
    (btree_entries (pol_outputs w)).

Definition visible_surfaces (w : WmWorkspaceState) (output : OutputId) :
    result (list SurfaceId) WmPolicyError :=
  let? state := ok_or (pol_outputs w !! output) PeUnknownOutput in
  Ok (omap (λ e, if decide (e.2 = ops_workspace state) then Some e.1 else None)
        (btree_entries (pol_surfaces w))).

(** ** Updates *)

Definition set_workspace (workspace : WorkspaceId) (s : WmOutputPolicyState) : WmOutputPolicyState :=
  mk_output_policy (ops_bounds s) workspace (ops_focus s).
Definition set_focus (focus : option SurfaceId) (s : WmOutputPolicyState) : WmOutputPolicyState :=
  mk_output_policy (ops_bounds s) (ops_workspace s) focus.

Definition register_surface (w : WmWorkspaceState) (surface : SurfaceId) (workspace : WorkspaceId) :
    result WmWorkspaceState WmPolicyError :=
  ensure! surface_valid surface else PeUnknownSurface in
  let? _ := require_workspace w workspace in
  Ok (mk_policy (pol_workspaces w) (pol_outputs w) (<[surface := workspace]> (pol_surfaces w))).

Definition remove_surface (w : WmWorkspaceState) (surface : SurfaceId) : bool * WmWorkspaceState :=
  (bool_decide (is_Some (pol_surfaces w !! surface)),
   mk_policy (pol_workspaces w)
     ((λ s, if decide (ops_focus s = Some surface) then set_focus None s else s) <$> pol_outputs w)
     (delete surface (pol_surfaces w))).

(** Activating a workspace another output shows swaps the two.  Both [expect]s
    are on keys that are in the map, so [alter] is the in-place write. *)
Definition activate_workspace (w : WmWorkspaceState) (output : OutputId) (workspace : WorkspaceId) :
    result WmWorkspaceState WmPolicyError :=
  let? state := ok_or (pol_outputs w !! output) PeUnknownOutput in
  let previous := ops_workspace state in
  if decide (previous = workspace) then Ok w
  else
    let outputs := match output_for_workspace w workspace with
                   | Some other => alter (set_workspace previous) other (pol_outputs w)
                   | None => pol_outputs w
                   end in
    Ok (mk_policy (pol_workspaces w) (alter (set_workspace workspace) output outputs) (pol_surfaces w)).

(** The focus of an output is hidden if its surface is on another workspace. *)
Definition hidden_focus (surfaces : gmap SurfaceId WorkspaceId) (s : WmOutputPolicyState) : Prop :=
  match ops_focus s with
  | Some surface => surfaces !! surface ≠ Some (ops_workspace s)
  | None => False
  end.
#[export] Instance hidden_focus_dec m s : Decision (hidden_focus m s).
Proof. unfold hidden_focus; destruct (ops_focus s); apply _. Defined.

Definition clear_hidden_focus (w : WmWorkspaceState) : WmWorkspaceState :=
  mk_policy (pol_workspaces w)
    ((λ s, if decide (hidden_focus (pol_surfaces w) s) then set_focus None s else s) <$> pol_outputs w)
    (pol_surfaces w).

(** ** Planning a response *)

(** The locals of [plan_response]. *)
Record PlanState : Type := mk_plan_state {
  pl_candidate : WmWorkspaceState; pl_requested_sizes : list SurfaceSizeRequest;
  pl_render_positions : list SurfacePlacement; pl_focus : option SurfaceId;
  pl_session_action : option (WmSessionAction * option SurfaceId);
  pl_assigned : gset SurfaceId; pl_activated : gset OutputId;
  pl_configured : gset SurfaceId; pl_rendered : gset SurfaceId;
}.

(** One iteration of the loop over the commands. *)
Definition plan_command (advertised_actions : list WmSessionAction) (s : PlanState)
    (command : WmCommand) : result PlanState WmPolicyError :=
  let '(mk_plan_state candidate requested_sizes render_positions focus session_action
          assigned activated configured rendered) := s in
  match command with
  | ConfigureSurface request =>
      let? _ := require_surface candidate (sr_surface request) in
      ensure! sr_surface request ∉ configured else PeDuplicateSurfaceCommand in
      Ok (mk_plan_state candidate (requested_sizes ++ [request]) render_positions focus session_action
            assigned activated ({[sr_surface request]} ∪ configured) rendered)
  | RenderSurface placement =>
      let? _ := require_surface candidate (sp_surface placement) in
      ensure! sp_surface placement ∉ rendered else PeDuplicateSurfaceCommand in
      Ok (mk_plan_state candidate requested_sizes (render_positions ++ [placement]) focus session_action
            assigned activated configured ({[sp_surface placement]} ∪ rendered))
  | AssignWorkspace surface workspace =>
      let? _ := require_surface candidate surface in
      let? _ := require_workspace candidate workspace in
      ensure! surface ∉ assigned else PeDuplicateSurfaceCommand in
      Ok (mk_plan_state
            (mk_policy (pol_workspaces candidate) (pol_outputs candidate)
               (<[surface := workspace]> (pol_surfaces candidate)))
            requested_sizes render_positions focus session_action
            ({[surface]} ∪ assigned) activated configured rendered)
  | ActivateWorkspace output workspace =>
      let? _ := require_workspace candidate workspace in
      ensure! output ∉ activated else PeDuplicateOutputCommand in
      let? candidate := activate_workspace candidate output workspace in
      Ok (mk_plan_state candidate requested_sizes render_positions focus session_action
            assigned ({[output]} ∪ activated) configured rendered)
  | FocusSurface surface =>
      let? _ := require_surface candidate surface in
      ensure! focus = None else PeDuplicateFocusCommand in
      Ok (mk_plan_state candidate requested_sizes render_positions (Some surface) session_action
            assigned activated configured rendered)
  | RequestSessionAction action target =>
      ensure! session_action = None else PeDuplicateSessionAction in
      ensure! action ∈ advertised_actions else PeUnadvertisedSessionAction in
      let? _ := match target with Some surface => require_surface candidate surface | None => Ok () end in
      ensure! ¬ (action ≠ CloseFocused ∧ target ≠ None) else PeInvalidSessionActionTarget in
      Ok (mk_plan_state candidate requested_sizes render_positions focus (Some (action, target))
            assigned activated configured rendered)
  end.

Definition plan_start (w : WmWorkspaceState) : PlanState :=
  mk_plan_state w [] [] None None ∅ ∅ ∅ ∅.

(** The tail of [plan_response] that moves the focus. *)
Definition apply_focus (candidate : WmWorkspaceState) (focus : option SurfaceId) :
    result WmWorkspaceState WmPolicyError :=
  match focus with
  | None => Ok candidate
  | Some surface =>
      let? workspace := ok_or (surface_workspace candidate surface) PeUnknownSurface in
      let? output := ok_or (output_for_workspace candidate workspace) PeHiddenFocus in
      Ok (mk_policy (pol_workspaces candidate)
            (alter (set_focus (Some surface)) output (pol_outputs candidate)) (pol_surfaces candidate))
  end.

Definition affected_outputs (before after : WmWorkspaceState) : list OutputId :=
  omap (λ e, if decide (pol_outputs before !! e.1 ≠ Some e.2) then Some e.1 else None)
    (btree_entries (pol_outputs after)).

Definition plan_response (w : WmWorkspaceState) (response : WmResponsePacket)
    (advertised_actions : list WmSessionAction) : result WmPolicyPlan WmPolicyError :=
  let? s := try_fold (plan_command advertised_actions) (plan_start w) (wp_commands response) in
  let? candidate := apply_focus (pl_candidate s) (pl_focus s) in
  let candidate := clear_hidden_focus candidate in
  Ok (mk_plan (wp_transaction response) candidate
        (mk_layout_tx (wp_transaction response) (pl_requested_sizes s) (pl_focus s)
           (pl_render_positions s) (wp_timeout_msec response))
        (affected_outputs w candidate) (pl_session_action s)).

(** ** The invariant *)

(** Shape: outputs are valid and show distinct known workspaces; surfaces are
    valid and on known workspaces. *)
Record policy_base (w : WmWorkspaceState) : Prop := {
  pb_distinct : ∀ o1 o2 s1 s2, pol_outputs w !! o1 = Some s1 → pol_outputs w !! o2 = Some s2 →
    ops_workspace s1 = ops_workspace s2 → o1 = o2;
  pb_known : ∀ o s, pol_outputs w !! o = Some s →
    id_valid o ∧ ¬ rect_is_empty (ops_bounds s) ∧ ops_workspace s ∈ pol_workspaces w;
  pb_surfaces : ∀ s k, pol_surfaces w !! s = Some k → surface_valid s ∧ k ∈ pol_workspaces w;
}.
(** Focus: a focused surface is on the workspace its output shows. *)
Definition focus_visible (w : WmWorkspaceState) : Prop :=
  ∀ o s f, pol_outputs w !! o = Some s → ops_focus s = Some f →
    pol_surfaces w !! f = Some (ops_workspace s).
Definition policy_ok (w : WmWorkspaceState) : Prop := policy_base w ∧ focus_visible w.

(** The outputs and their bounds, and the surfaces that exist: what a plan
    never changes. *)
Definition policy_frame (w w' : WmWorkspaceState) : Prop :=
  pol_workspaces w' = pol_workspaces w ∧
  (ops_bounds <$> pol_outputs w') = (ops_bounds <$> pol_outputs w) ∧
  dom (pol_surfaces w') = dom (pol_surfaces w).

Lemma policy_frame_refl w : policy_frame w w.
Proof. done. Qed.
Lemma policy_frame_trans w1 w2 w3 : policy_frame w1 w2 → policy_frame w2 w3 → policy_frame w1 w3.
Proof. unfold policy_frame. intros (?&?&?) (?&?&?). split_and!; congruence. Qed.
#[export] Hint Resolve policy_frame_refl : sophia.

Lemma output_for_workspace_Some w k o :
  output_for_workspace w k = Some o →
  ∃ s, pol_outputs w !! o = Some s ∧ ops_workspace s = k.
Proof.
  unfold output_for_workspace. intros ([o' s]&Hin&Hf)%find_map_Some. simpl in Hf.
  case_decide; [|done]. simplify_eq. apply elem_of_btree_entries in Hin. eauto.
Qed.

Lemma output_for_workspace_None w k :
  output_for_workspace w k = None ↔ ∀ o s, pol_outputs w !! o = Some s → ops_workspace s ≠ k.
Proof.
  unfold output_for_workspace. rewrite find_map_None. split.
  - intros H o s Hs. apply elem_of_btree_entries in Hs. specialize (H _ Hs). simpl in H.
    by case_decide.
  - intros H [o s] Hin. apply elem_of_btree_entries in Hin. simpl. rewrite decide_False; eauto.
Qed.

(** With distinct workspaces the owner is unique. *)
Lemma output_for_workspace_iff w k o :
  policy_base w →
  output_for_workspace w k = Some o ↔ ∃ s, pol_outputs w !! o = Some s ∧ ops_workspace s = k.
Proof.
  intros Hb. split; [apply output_for_workspace_Some|]. intros (s&Hs&Hk).
  destruct (output_for_workspace w k) as [o'|] eqn:E.
  - apply output_for_workspace_Some in E as (s'&Hs'&Hk'). f_equal.
    eapply (pb_distinct w Hb); [done|done|congruence].
  - rewrite output_for_workspace_None in E. by destruct (E o s Hs).
Qed.

(** After an activation the requested output shows the workspace, the output
    that showed it (if any) shows the previous one, the others are untouched. *)
Lemma activate_workspace_spec w output workspace w' :
  policy_base w → activate_workspace w output workspace = Ok w' →
  ∃ st, pol_outputs w !! output = Some st ∧
    pol_workspaces w' = pol_workspaces w ∧ pol_surfaces w' = pol_surfaces w ∧
    ∀ o, pol_outputs w' !! o =
      (λ s, if decide (o = output) then set_workspace workspace s
            else if decide (ops_workspace s = workspace) then set_workspace (ops_workspace st) s
            else s) <$> pol_outputs w !! o.
Proof.
  intros Hb Hact. unfold activate_workspace in Hact.
  destruct (pol_outputs w !! output) as [st|] eqn:Hst; simpl in Hact; [|done].
  exists st. case_decide as Hprev; simplify_eq/=; split_and!; try done; intros o.
  - destruct (pol_outputs w' !! o) as [s|] eqn:Hs; [|done].
    simpl. f_equal. destruct (decide (o = output)) as [->|Hne].
    + rewrite Hst in Hs. simplify_eq. by destruct s.
    + rewrite decide_False; [done|]. intros Heq. apply Hne. by eapply (pb_distinct w' Hb).
  - destruct (decide (o = output)) as [->|Hne].
    + rewrite lookup_alter_eq. destruct (output_for_workspace w workspace) as [other|] eqn:E;
        [|by rewrite Hst].
      apply output_for_workspace_Some in E as (s'&Hs'&Hk').
      rewrite lookup_alter_ne; [by rewrite Hst|]. intros ->. congruence.
    + rewrite lookup_alter_ne by done.
      destruct (output_for_workspace w workspace) as [other|] eqn:E.
      * apply output_for_workspace_Some in E as (s'&Hs'&Hk').
        destruct (decide (o = other)) as [->|Hne2].
        -- rewrite lookup_alter_eq, Hs'. simpl. by rewrite decide_True.
        -- rewrite lookup_alter_ne by done. destruct (pol_outputs w !! o) as [s|] eqn:Hs; [|done].
           simpl. rewrite decide_False; [done|]. intros Hk. apply Hne2.
           eapply (pb_distinct w Hb); [done|done|congruence].
      * rewrite output_for_workspace_None in E. destruct (pol_outputs w !! o) as [s|] eqn:Hs; [|done].
        simpl. rewrite decide_False; [done|]. by eapply E.
Qed.

Lemma activate_workspace_base w output workspace w' :
  policy_base w → workspace ∈ pol_workspaces w → activate_workspace w output workspace = Ok w' →
  policy_base w' ∧ policy_frame w w'.
Proof.
  intros Hb Hin Hact. destruct (activate_workspace_spec _ _ _ _ Hb Hact) as (st&Hst&Hw&Hs&Ho).
  split.
  - split; rewrite ?Hw, ?Hs; [|intros o s|apply Hb].
    + assert (Hinj : ∀ o1 o2 s1 s2, pol_outputs w !! o1 = Some s1 → pol_outputs w !! o2 = Some s2 →
        ops_workspace s1 = ops_workspace s2 → o1 = o2) by apply Hb.
      intros o1 o2 s1 s2. rewrite !Ho. intros (t1&H1&->)%fmap_Some (t2&H2&->)%fmap_Some Heq.
      destruct (decide (o1 = output)) as [->|N1], (decide (o2 = output)) as [->|N2];
        destruct (decide (ops_workspace t1 = workspace)), (decide (ops_workspace t2 = workspace));
        simpl in *; simplify_eq; try done; try congruence;
        try (by eapply Hinj; eauto).
      * destruct N2. by eapply (Hinj _ _ t2 st).
      * destruct N1. by eapply (Hinj _ _ t1 st).
    + rewrite Ho. intros (t&Ht&->)%fmap_Some. destruct (pb_known w Hb o t Ht) as (?&?&?).
      destruct (pb_known w Hb output st Hst) as (?&?&?).
      repeat case_decide; simpl; split_and!; done.
  - split_and!; [done| |by rewrite Hs]. apply map_eq. intros o. rewrite !lookup_fmap, Ho.
    destruct (pol_outputs w !! o); [|done]. simpl. by repeat case_decide.
Qed.

Lemma clear_hidden_focus_spec w :
  policy_base w → policy_ok (clear_hidden_focus w) ∧ policy_frame w (clear_hidden_focus w).
Proof.
  intros Hb. unfold clear_hidden_focus. split; [split; [split|]|]; simpl.
  - intros o1 o2 s1 s2. rewrite !lookup_fmap. intros (t1&H1&->)%fmap_Some (t2&H2&->)%fmap_Some.
    intros Heq. eapply (pb_distinct w Hb); [done|done|]. by repeat case_decide.
  - intros o s. rewrite lookup_fmap. intros (t&Ht&->)%fmap_Some.
    destruct (pb_known w Hb o t Ht) as (?&?&?). by case_decide.
  - apply Hb.
  - intros o s f; simpl. rewrite lookup_fmap. intros (t&Ht&->)%fmap_Some.
    case_decide as Hh; [done|]. intros Hf. unfold hidden_focus in Hh. rewrite Hf in Hh.
    by apply dec_stable in Hh.
  - split_and!; [done| |done]. simpl. apply map_eq. intros o. rewrite !lookup_fmap.
    destruct (pol_outputs w !! o); [|done]. simpl. by case_decide.
Qed.

(** Focusing a visible surface: its output takes it. *)
Lemma apply_focus_spec w focus w' :
  policy_base w → apply_focus w focus = Ok w' →
  policy_base w' ∧ policy_frame w w' ∧ pol_surfaces w' = pol_surfaces w ∧
  ∀ f, focus = Some f →
    ∃ o st, pol_outputs w' !! o = Some st ∧ ops_focus st = Some f ∧
      pol_surfaces w' !! f = Some (ops_workspace st).
Proof.
  intros Hb. destruct focus as [f|]; simpl; [|intros [= <-]; by auto with sophia].
  unfold surface_workspace. destruct (pol_surfaces w !! f) as [k|] eqn:Hk; simpl; [|done].
  destruct (output_for_workspace w k) as [o|] eqn:Ho; simpl; [|done]. intros [= <-].
  apply output_for_workspace_Some in Ho as (st&Hst&Hws).
  assert (∀ o' s, alter (set_focus (Some f)) o (pol_outputs w) !! o' = Some s →
    ∃ t, pol_outputs w !! o' = Some t ∧ ops_workspace s = ops_workspace t ∧ ops_bounds s = ops_bounds t)
    as Halt.
  { intros o' s. rewrite lookup_alter_Some. intros [(->&t&?&->)|(?&?)]; eauto. }
  split_and!; simpl; try done.
  - split; simpl; [| |apply Hb].
    + intros o1 o2 s1 s2 (t1&?&->&_)%Halt (t2&?&->&_)%Halt ?. by eapply (pb_distinct w Hb).
    + intros o' s (t&Ht&->&->)%Halt. by apply (pb_known w Hb).
  - split_and!; [done| |done]. simpl. apply map_eq. intros o'. rewrite !lookup_fmap.
    destruct (decide (o' = o)) as [->|]; [by rewrite lookup_alter_eq, Hst|by rewrite lookup_alter_ne].
  - intros ? [= <-]. exists o, (set_focus (Some f) st). rewrite lookup_alter_eq, Hst. simpl.
    split_and!; [done|done|]. by rewrite Hk, Hws.
Qed.

(** ** The command loop *)

Definition assignment_of (c : WmCommand) : option (SurfaceId * WorkspaceId) :=
  match c with AssignWorkspace s k => Some (s, k) | _ => None end.
Definition session_action_of (c : WmCommand) : option (WmSessionAction * option SurfaceId) :=
  match c with RequestSessionAction a t => Some (a, t) | _ => None end.

(** What the locals of [plan_response] hold after the commands [cs]. *)
Record plan_inv (w : WmWorkspaceState) (advertised : list WmSessionAction) (cs : list WmCommand)
    (s : PlanState) : Prop := {
  pi_base : policy_base (pl_candidate s);
  pi_frame : policy_frame w (pl_candidate s);
  pi_surfaces : pol_surfaces (pl_candidate s) =
    foldl (λ m a, <[a.1 := a.2]> m) (pol_surfaces w) (omap assignment_of cs);
  pi_sizes : pl_requested_sizes s = omap size_request_of cs;
  pi_configured : ∀ x, x ∈ pl_configured s ↔ x ∈ sr_surface <$> pl_requested_sizes s;
  pi_sizes_nodup : NoDup (sr_surface <$> pl_requested_sizes s);
  pi_positions : pl_render_positions s = omap placement_of cs;
  pi_rendered : ∀ x, x ∈ pl_rendered s ↔ x ∈ sp_surface <$> pl_render_positions s;
  pi_positions_nodup : NoDup (sp_surface <$> pl_render_positions s);
  pi_known : ∀ x, x ∈ pl_configured s ∪ pl_rendered s → x ∈ dom (pol_surfaces w);
  pi_focus : option_list (pl_focus s) = omap focus_of cs;
  pi_action : option_list (pl_session_action s) = omap session_action_of cs;
  pi_action_ok : ∀ a t, pl_session_action s = Some (a, t) →
    a ∈ advertised ∧ ∀ x, t = Some x → a = CloseFocused ∧ x ∈ dom (pol_surfaces w);
}.

Lemma plan_inv_start w advertised : policy_base w → plan_inv w advertised [] (plan_start w).
Proof. intros. split; simpl; try done; try set_solver; constructor. Qed.

Lemma require_surface_ok w s : require_surface w s = Ok () ↔ s ∈ dom (pol_surfaces w).
Proof. unfold require_surface. rewrite elem_of_dom. by case_decide. Qed.
Lemma require_workspace_ok w k : require_workspace w k = Ok () ↔ k ∈ pol_workspaces w.
Proof. unfold require_workspace. by case_decide. Qed.

Lemma NoDup_snoc_fmap {A B} (f : A → B) l x :
  NoDup (f <$> l) → f x ∉ f <$> l → NoDup (f <$> l ++ [x]).
Proof.
  intros Hl Hx. rewrite fmap_app. apply NoDup_app. split_and!; [done| |apply NoDup_singleton].
  intros y Hy ->%list_elem_of_singleton. done.
Qed.

Lemma plan_inv_step w advertised cs c s s' :
  plan_inv w advertised cs s → plan_command advertised s c = Ok s' →
  plan_inv w advertised (cs ++ [c]) s'.
Proof.
  intros [Hb Hfr Hsf Hsz Hcf Hszn Hpos Hrd Hposn Hkn Hfo Hac Haok] Hc.
  assert (Hdom : dom (pol_surfaces (pl_candidate s)) = dom (pol_surfaces w)) by apply Hfr.
  destruct s as [cand sizes pos foc act asg acv cfg rdr]; simpl in *.
  destruct c as [r|f|sf k|p|o k|a t]; simpl in Hc.
  - rewrite res_bind_ok in Hc. destruct Hc as ([]&Hreq%require_surface_ok&Hc).
    case_decide; [|done]. simplify_eq.
    split; simpl; rewrite ?omap_app; csimpl; rewrite ?app_nil_r; try done.
    + intros x. rewrite elem_of_union, elem_of_singleton, Hcf, fmap_app, elem_of_app. set_solver.
    + apply NoDup_snoc_fmap; [done|]. by rewrite <-Hcf.
    + intros x. rewrite !elem_of_union, elem_of_singleton. set_solver.
  - rewrite res_bind_ok in Hc. destruct Hc as ([]&Hreq%require_surface_ok&Hc).
    case_decide; [|done]. simplify_eq. simpl in Hfo.
    split; simpl; rewrite ?omap_app; csimpl; rewrite ?app_nil_r; try done. by rewrite <-Hfo.
  - rewrite res_bind_ok in Hc. destruct Hc as ([]&Hreq%require_surface_ok&Hc).
    rewrite res_bind_ok in Hc. destruct Hc as ([]&Hws%require_workspace_ok&Hc).
    case_decide; [|done]. simplify_eq.
    split; simpl; rewrite ?omap_app; csimpl; rewrite ?app_nil_r; try done.
    + split; simpl; [apply Hb|apply Hb|]. intros x k'. rewrite lookup_insert_Some.
      intros [[<- <-]|[_ ?]]; [|by apply (pb_surfaces cand Hb)].
      apply elem_of_dom in Hreq as [k0 Hk0]. split; [|done]. by apply (pb_surfaces cand Hb _ k0).
    + destruct Hfr as (?&?&?). split_and!; simpl; [done|done|]. rewrite dom_insert_L. set_solver.
    + by rewrite foldl_app, Hsf.
  - rewrite res_bind_ok in Hc. destruct Hc as ([]&Hreq%require_surface_ok&Hc).
    case_decide; [|done]. simplify_eq.
    split; simpl; rewrite ?omap_app; csimpl; rewrite ?app_nil_r; try done.
    + intros x. rewrite elem_of_union, elem_of_singleton, Hrd, fmap_app, elem_of_app. set_solver.
    + apply NoDup_snoc_fmap; [done|]. by rewrite <-Hrd.
    + intros x. rewrite !elem_of_union, elem_of_singleton. set_solver.
  - rewrite res_bind_ok in Hc. destruct Hc as ([]&Hws%require_workspace_ok&Hc).
    case_decide; [|done]. rewrite res_bind_ok in Hc. destruct Hc as (cand'&Hact&Hc). simplify_eq.
    destruct (activate_workspace_base _ _ _ _ Hb Hws Hact) as [Hb' Hfr'].
    destruct (activate_workspace_spec _ _ _ _ Hb Hact) as (_&_&_&Hs'&_).
    split; simpl; rewrite ?omap_app; csimpl; rewrite ?app_nil_r; try done.
    + by eapply policy_frame_trans.
    + by rewrite Hs'.
  - case_decide; [|done]. case_decide; [|done]. subst act. simpl in Hac.
    rewrite res_bind_ok in Hc. destruct Hc as ([]&Hreq&Hc). case_decide as Htgt; [|done]. simplify_eq.
    split; simpl; rewrite ?omap_app; csimpl; rewrite ?app_nil_r; try done; [by rewrite <-Hac|].
    intros a' t' [= <- <-]. split; [done|]. intros x ->. apply require_surface_ok in Hreq.
    split; [|by rewrite <-Hdom]. destruct (decide (a = CloseFocused)); [done|]. naive_solver.
Qed.

(** ** Plans *)

(** Both states have the same outputs, so comparing the entries of the second
    finds every difference. *)
Lemma affected_outputs_spec w c o :
  ops_bounds <$> pol_outputs c = ops_bounds <$> pol_outputs w →
  o ∈ affected_outputs w c ↔ pol_outputs c !! o ≠ pol_outputs w !! o.
Proof.
  intros Hb. unfold affected_outputs. rewrite list_elem_of_omap. split.
  - intros ([o' st]&Hin&Hf). simpl in Hf. case_decide; [|done]. simplify_eq.
    apply elem_of_btree_entries in Hin. rewrite Hin. congruence.
  - intros Hne. assert (ops_bounds <$> pol_outputs c !! o = ops_bounds <$> pol_outputs w !! o) as Ho.
    { rewrite <-!lookup_fmap. by rewrite Hb. }
    destruct (pol_outputs c !! o) as [st|] eqn:E.
    + exists (o, st). rewrite elem_of_btree_entries. split; [done|]. simpl.
      rewrite decide_True; [done|]. congruence.
    + destruct (pol_outputs w !! o); done.
Qed.

(** C14: accepted responses are sound.  If a response is accepted against a
    consistent workspace state, the candidate is consistent again: outputs
    show distinct workspaces and every focused surface is on the workspace its
    output shows.  The outputs, their bounds and the set of surfaces are
    unchanged; surfaces move exactly as the assignments say; the layout is the
    response's own layout transaction, touching each known surface at most once;
    the focus it names is visible and focused in the candidate; a requested
    session action was advertised and only [CloseFocused] has a target; and the
    affected outputs are exactly those whose state changed. *)
Theorem plan_response_sound w response advertised plan :
  policy_ok w → plan_response w response advertised = Ok plan →
  let c := pp_candidate plan in
  policy_ok c ∧ policy_frame w c ∧
  pol_surfaces c = foldl (λ m a, <[a.1 := a.2]> m) (pol_surfaces w)
                     (omap assignment_of (wp_commands response)) ∧
  pp_layout plan = into_layout_transaction response ∧
  NoDup (sr_surface <$> lt_requested_sizes (pp_layout plan)) ∧
  NoDup (sp_surface <$> lt_render_positions (pp_layout plan)) ∧
  (∀ x, x ∈ sr_surface <$> lt_requested_sizes (pp_layout plan) ∨
        x ∈ sp_surface <$> lt_render_positions (pp_layout plan) → x ∈ dom (pol_surfaces w)) ∧
  (∀ f, lt_focus (pp_layout plan) = Some f →
     ∃ o st, pol_outputs c !! o = Some st ∧ ops_focus st = Some f ∧
       pol_surfaces c !! f = Some (ops_workspace st)) ∧
  (∀ a t, pp_session_action plan = Some (a, t) →
     a ∈ advertised ∧ ∀ x, t = Some x → a = CloseFocused ∧ x ∈ dom (pol_surfaces w)) ∧
  (∀ o, o ∈ pp_affected_outputs plan ↔ pol_outputs c !! o ≠ pol_outputs w !! o).
Proof.
  intros [Hb Hvis] Hplan. unfold plan_response in Hplan.
  rewrite res_bind_ok in Hplan. destruct Hplan as (s&Hloop&Hplan).
  rewrite res_bind_ok in Hplan. destruct Hplan as (c&Hfocus&Hplan).
  assert (plan_inv w advertised (wp_commands response) s) as [Hb' Hfr Hsf Hsz Hcf Hszn Hpos Hrd Hposn Hkn Hfo Hac Haok].
  { revert Hloop. apply (try_fold_ind _ (plan_inv w advertised)); [by apply plan_inv_start|].
    intros pre x t t' _. by apply plan_inv_step. }
  destruct (apply_focus_spec _ _ _ Hb' Hfocus) as (Hbc&Hfrc&Hsc&Hfc).
  destruct (clear_hidden_focus_spec c Hbc) as [Hok Hfrk].
  simplify_eq/=.
  assert (policy_frame w (clear_hidden_focus c)) as Hframe by eauto using policy_frame_trans.
  split_and!; try done.
  - by rewrite Hsc.
  - rewrite into_layout_transaction_eq, Hsz, Hpos, <-Hfo. by destruct (pl_focus s).
  - intros x Hx. apply Hkn. rewrite elem_of_union, Hcf, Hrd. done.
  - intros f Hf. destruct (Hfc f Hf) as (o&st&Ho&Hfo'&Hsf'). exists o, st.
    rewrite lookup_fmap, Ho. simpl. rewrite decide_False; [done|].
    unfold hidden_focus. rewrite Hfo'. by intros Hne.
  - intros o. apply affected_outputs_spec. apply Hframe.
Qed.

Definition example_policy : WmWorkspaceState :=
  mk_policy (from_raw <$> seqZ 1 3)
    (<[from_raw 1 := mk_output_policy (mk_rect 0 0 100 100) (from_raw 1) (Some (surface_id 4 1))]>
     (<[from_raw 2 := mk_output_policy (mk_rect 100 0 100 100) (from_raw 2) None]> ∅))
    (<[surface_id 4 1 := from_raw 1]> ∅).

Lemma example_policy_ok : policy_ok example_policy.
Proof.
  split; [split|]; unfold example_policy; simpl.
  - intros o1 o2 s1 s2. rewrite !lookup_insert_Some, !lookup_empty. naive_solver.
  - intros o s. rewrite !lookup_insert_Some, lookup_empty.
    intros [[<- <-]|[_ [[<- <-]|[_ ?]]]]; [| |done]; (split; [done|]); simpl;
      (split; [unfold rect_is_empty; simpl; lia|apply (bool_decide_unpack _); vm_compute; exact I]).
  - intros s k. rewrite lookup_insert_Some, lookup_empty. intros [[<- <-]|[_ ?]]; [|done].
    split; apply (bool_decide_unpack _); vm_compute; exact I.
  - intros o s f Ho Hf; simpl in *. rewrite !lookup_insert_Some, lookup_empty in Ho.
    destruct Ho as [[<- <-]|[_ [[<- <-]|[_ ?]]]]; simpl in *; [|done|done]. simplify_eq.
    vm_compute. reflexivity.
Qed.

Lemma plan_response_sound_witness :
  let r := mk_wm_response (from_raw 9) [ActivateWorkspace (from_raw 1) (from_raw 2);
             FocusSurface (surface_id 4 1)] 100 in
  ∃ plan, plan_response example_policy r [] = Ok plan ∧ policy_ok (pp_candidate plan) ∧
    pp_affected_outputs plan = [from_raw 1; from_raw 2] ∧
    output_for_workspace (pp_candidate plan) (from_raw 1) = Some (from_raw 2).
Proof.
  intros r. eexists. split; [vm_compute; reflexivity|]. split.
  - eapply (plan_response_sound example_policy r []); [exact example_policy_ok|vm_compute; reflexivity].
  - split; vm_compute; reflexivity.
Defined.

(** ** Histories *)

Lemma lookup_imap_pair {A} (l : list A) i e : imap pair l !! i = Some e → e.1 = i ∧ l !! i = Some e.2.
Proof. rewrite list_lookup_imap. by intros (x&?&->)%fmap_Some. Qed.

Lemma policy_new_ok outputs n w : policy_new outputs n = Ok w → policy_ok w.
Proof.
  unfold policy_new. case_decide as Hn; [|done].
  set (workspaces := from_raw <$> seqZ 1 n). rewrite res_bind_ok. intros (conf&Hloop&Hw).
  case_decide; [|done]. simplify_eq.
  assert (NoDup workspaces) as Hnd.
  { apply NoDup_fmap; [by intros ?? [= ->]|]. apply NoDup_seqZ. }
  assert (Hinv : (∀ o s, conf !! o = Some s → id_valid o ∧ ¬ rect_is_empty (ops_bounds s) ∧
      ops_focus s = None ∧ ∃ j, (j < length (imap pair outputs))%nat ∧ workspaces !! j = Some (ops_workspace s)) ∧
    (∀ o1 o2 s1 s2, conf !! o1 = Some s1 → conf !! o2 = Some s2 →
      ops_workspace s1 = ops_workspace s2 → o1 = o2)).
  { revert Hloop. apply (try_fold_ind _ (λ pre (conf : gmap OutputId WmOutputPolicyState),
      (∀ o s, conf !! o = Some s → id_valid o ∧ ¬ rect_is_empty (ops_bounds s) ∧ ops_focus s = None ∧
        ∃ j, (j < length pre)%nat ∧ workspaces !! j = Some (ops_workspace s)) ∧
      (∀ o1 o2 s1 s2, conf !! o1 = Some s1 → conf !! o2 = Some s2 →
        ops_workspace s1 = ops_workspace s2 → o1 = o2))).
    { split; [intros o s|intros o1 o2 s1 s2]; by rewrite lookup_empty. }
    intros pre [i [o b]] m m' Hpre [IH1 IH2] Hstep. simpl in Hstep.
    assert (i = length pre) as ->.
    { destruct Hpre as [k Hk]. destruct (lookup_imap_pair outputs (length pre) (i, (o, b))) as [? _]; [|done].
      rewrite Hk, <-(assoc_L (++)). by apply list_lookup_middle. }
    case_decide; [|done]. case_decide; [|done]. rewrite res_bind_ok in Hstep.
    destruct Hstep as (k&Hk&Hstep). apply ok_or_ok in Hk. case_decide as Hnew; [|done]. simplify_eq.
    assert (∀ o' s', m !! o' = Some s' → ops_workspace s' ≠ k) as Hfresh.
    { intros o' s' Ho' <-. destruct (IH1 o' s' Ho') as (_&_&_&j&Hj&Hjk).
      assert (j = length pre) by (by eapply NoDup_lookup). lia. }
    rewrite length_app; simpl. split.
    - intros o' s. rewrite lookup_insert_Some. intros [[<- <-]|[_ Hs]].
      + simpl. split_and!; [done..|]. exists (length pre). split; [lia|done].
      + destruct (IH1 o' s Hs) as (?&?&?&j&?&?). split_and!; [done..|]. exists j. split; [lia|done].
    - intros o1 o2 s1 s2. rewrite !lookup_insert_Some.
      intros [[<- <-]|[? Hs1]] [[<- <-]|[? Hs2]] Heq; simpl in *; try done.
      + by destruct (Hfresh _ _ Hs2).
      + by destruct (Hfresh _ _ Hs1).
      + by eapply IH2. }
  destruct Hinv as [HI1 HI2]. split; [split|]; simpl.
  - done.
  - intros o s Hs. destruct (HI1 o s Hs) as (?&?&_&j&_&Hj). split_and!; [done..|].
    by eapply list_elem_of_lookup_2.
  - intros s k. by rewrite lookup_empty.
  - intros o s f Hs Hf; simpl in *. destruct (HI1 o s Hs) as (_&_&Hnone&_). congruence.
Qed.

(** The registration takes a surface that has an output's focus to a workspace the output does not show. *)
Definition moves_focus (w : WmWorkspaceState) (s : SurfaceId) (k : WorkspaceId) : Prop :=
  Exists (λ st, ops_focus st = Some s ∧ ops_workspace st ≠ k) (btree_values (pol_outputs w)).
#[export] Instance moves_focus_dec w s k : Decision (moves_focus w s k).
Proof. unfold moves_focus; apply _. Defined.
(** What the session does to the workspace state: it registers surfaces, on any workspace and also
    known ones, removes them, and adopts the candidates of plans.  The flag tells whether since the
    last plan a registration has moved a focused surface away. *)
Inductive policy_run (w0 : WmWorkspaceState) : bool → WmWorkspaceState → Prop :=
| policy_start : policy_run w0 false w0
| policy_register moved w s k w' :
    policy_run w0 moved w → register_surface w s k = Ok w' → policy_run w0 (moved || bool_decide (moves_focus w s k)) w'
| policy_remove moved w s : policy_run w0 moved w → policy_run w0 moved (remove_surface w s).2
| policy_plan moved w r advertised p :
    policy_run w0 moved w → plan_response w r advertised = Ok p → policy_run w0 false (pp_candidate p).

Lemma register_surface_ok w s k w' :
  policy_base w → register_surface w s k = Ok w' →
  policy_base w' ∧ (focus_visible w → ¬ moves_focus w s k → focus_visible w').
Proof.
  intros Hb Hreg. unfold register_surface in Hreg. case_decide; [|done].
  rewrite res_bind_ok in Hreg. destruct Hreg as ([]&Hk%require_workspace_ok&[= <-]). split; [split|]; simpl; [apply Hb|apply Hb| |].
  - intros x k'. rewrite lookup_insert_Some. intros [[<- <-]|[_ ?]]; [done|]. by apply (pb_surfaces w Hb).
  - intros Hv Hm o st f Ho Hf; simpl in *. destruct (decide (f = s)) as [->|].
    + rewrite lookup_insert_eq. f_equal. destruct (decide (ops_workspace st = k)) as [|Hne]; [done|]. destruct Hm.
      apply Exists_exists. exists st. split; [|done]. apply elem_of_btree_values. by exists o.
    + rewrite lookup_insert_ne by done. by eapply Hv.
Qed.

Lemma remove_surface_ok w s :
  policy_base w → policy_base (remove_surface w s).2 ∧ (focus_visible w → focus_visible (remove_surface w s).2).
Proof.
  intros Hb. split; [split|]; simpl.
  - intros o1 o2 s1 s2. rewrite !lookup_fmap. intros (t1&H1&->)%fmap_Some (t2&H2&->)%fmap_Some.
    intros Heq. eapply (pb_distinct w Hb); [done|done|]. by repeat case_decide.
  - intros o st. rewrite lookup_fmap. intros (t&Ht&->)%fmap_Some.
    destruct (pb_known w Hb o t Ht) as (?&?&?). by case_decide.
  - intros x k. rewrite lookup_delete_Some. intros [_ ?]. by apply (pb_surfaces w Hb).
  - intros Hv o st f; simpl. rewrite lookup_fmap. intros (t&Ht&->)%fmap_Some.
    case_decide as Hd; [done|]. intros Hf. rewrite lookup_delete_ne by congruence. by eapply Hv.
Qed.

Lemma plan_candidate_ok w r advertised p :
  policy_base w → plan_response w r advertised = Ok p → policy_ok (pp_candidate p).
Proof.
  intros Hb Hp. unfold plan_response in Hp.
  rewrite res_bind_ok in Hp. destruct Hp as (s&Hloop&Hp).
  rewrite res_bind_ok in Hp. destruct Hp as (c&Hfocus&Hp). simplify_eq/=.
  assert (plan_inv w advertised (wp_commands r) s) as Hinv.
  { revert Hloop. apply (try_fold_ind _ (plan_inv w advertised)); [by apply plan_inv_start|].
    intros pre x t t' _. by apply plan_inv_step. }
  apply clear_hidden_focus_spec. apply (apply_focus_spec _ _ _ (pi_base _ _ _ _ Hinv) Hfocus).
Qed.

Lemma visible_surfaces_elem w o l s :
  visible_surfaces w o = Ok l →
  s ∈ l ↔ ∃ st, pol_outputs w !! o = Some st ∧ pol_surfaces w !! s = Some (ops_workspace st).
Proof.
  unfold visible_surfaces. destruct (pol_outputs w !! o) as [st|]; simpl; [|done]. intros [= <-].
  rewrite list_elem_of_omap. split.
  - intros ([s' k]&Hin&Hf). simpl in Hf. case_decide; [|done]. simplify_eq.
    apply elem_of_btree_entries in Hin. eauto.
  - intros (?&[= <-]&Hs). exists (s, ops_workspace st). rewrite elem_of_btree_entries. simpl.
    by rewrite decide_True.
Qed.

(** C15: the workspace state over a session.  From any configuration accepted
    by [new], through any registrations, removals and adopted plans: no
    workspace is shown by two outputs, no surface is visible on two outputs, and
    the output of a workspace is found whenever there is one.  Every focused
    surface is visible on the output that focuses it from each adopted plan on,
    until a registration takes a focused surface to another workspace
    ([registration_hides_focus]). *)
Theorem policy_reachable_ok outputs n w0 moved w :
  policy_new outputs n = Ok w0 → policy_run w0 moved w →
  policy_base w ∧
  (∀ o k, output_for_workspace w k = Some o ↔ ∃ s, pol_outputs w !! o = Some s ∧ ops_workspace s = k) ∧
  (∀ o1 o2 l1 l2 s, visible_surfaces w o1 = Ok l1 → visible_surfaces w o2 = Ok l2 →
     s ∈ l1 → s ∈ l2 → o1 = o2) ∧
  (moved = false → focus_visible w ∧
     ∀ o st f l, pol_outputs w !! o = Some st → ops_focus st = Some f → visible_surfaces w o = Ok l → f ∈ l).
Proof.
  intros Hnew Hrun. assert (policy_base w ∧ (moved = false → focus_visible w)) as [Hb Hv].
  { induction Hrun as [|moved w s k w' _ [Hb Hv] Hreg|moved w s _ [Hb Hv]|moved w r adv p _ [Hb Hv] Hp].
    - apply policy_new_ok in Hnew as []. done.
    - destruct (register_surface_ok _ _ _ _ Hb Hreg) as [Hb' Hv']. split; [done|].
      intros [Hm Hn%bool_decide_eq_false]%orb_false_iff. auto.
    - destruct (remove_surface_ok w s Hb) as [? ?]. auto.
    - apply plan_candidate_ok in Hp as []; done. }
  split; [done|]. split_and!.
  - intros o k. by apply output_for_workspace_iff.
  - intros o1 o2 l1 l2 s H1 H2.
    rewrite (visible_surfaces_elem _ _ _ _ H1), (visible_surfaces_elem _ _ _ _ H2).
    intros (st1&Ho1&Hs1) (st2&Ho2&Hs2). eapply (pb_distinct w Hb); [done|done|congruence].
  - intros Hm. split; [auto|]. intros o st f l Ho Hf Hl. rewrite (visible_surfaces_elem _ _ _ _ Hl). exists st. split; [done|].
    by eapply Hv.
Qed.

Definition example_configured : WmWorkspaceState :=
  default (mk_policy [] ∅ ∅) (res_ok (policy_new [(from_raw 1, mk_rect 0 0 10 10); (from_raw 2, mk_rect 10 0 10 10)] 3)).
Definition example_registered : WmWorkspaceState :=
  default example_configured (res_ok (register_surface example_configured (surface_id 4 1) (from_raw 2))).
Lemma policy_reachable_ok_witness :
  policy_new [(from_raw 1, mk_rect 0 0 10 10); (from_raw 2, mk_rect 10 0 10 10)] 3 = Ok example_configured ∧
  register_surface example_configured (surface_id 4 1) (from_raw 2) = Ok example_registered ∧
  focus_visible example_registered ∧ output_for_workspace example_registered (from_raw 2) = Some (from_raw 2).
Proof.
  assert (policy_new [(from_raw 1, mk_rect 0 0 10 10); (from_raw 2, mk_rect 10 0 10 10)] 3 = Ok example_configured) as H1
    by (vm_compute; reflexivity).
  assert (register_surface example_configured (surface_id 4 1) (from_raw 2) = Ok example_registered) as H2
    by (vm_compute; reflexivity).
  split; [exact H1|]. split; [exact H2|].
  destruct (policy_reachable_ok [(from_raw 1, mk_rect 0 0 10 10); (from_raw 2, mk_rect 10 0 10 10)] 3 example_configured
    (false || bool_decide (moves_focus example_configured (surface_id 4 1) (from_raw 2))) example_registered H1
    (policy_register _ _ _ _ _ _ (policy_start _) H2)) as (_ & Ho & _ & Hf).
  split; [apply Hf; vm_compute; reflexivity|]. apply Ho. eexists. split; vm_compute; reflexivity.
Defined.

(** A focused surface that is registered again, on another workspace, keeps the focus of an output
    that does not show it. *)
Lemma registration_hides_focus :
  let o : OutputId := from_raw 1 in
  let s := surface_id 4 1 in
  let shown := mk_policy [from_raw 1; from_raw 2] {[ o := mk_output_policy (mk_rect 0 0 10 10) (from_raw 1) (Some s) ]} {[ s := from_raw 1 ]} in
  focus_visible shown ∧ ∃ w, register_surface shown s (from_raw 2) = Ok w ∧ moves_focus shown s (from_raw 2) ∧ ¬ focus_visible w.
Proof.
  intros o s shown. split.
  - intros o' st f Ho Hf. change (({[ o := mk_output_policy (mk_rect 0 0 10 10) (from_raw 1) (Some s) ]} : gmap OutputId _) !! o' = Some st) in Ho.
    apply lookup_singleton_Some in Ho as [<- <-]. simpl in Hf. injection Hf as <-. by vm_compute.
  - eexists. split; [vm_compute; reflexivity|]. split; [apply (bool_decide_unpack _); by vm_compute|].
    intros Hv. specialize (Hv o _ s eq_refl eq_refl). by vm_compute in Hv.
Qed.
