(* ===== verification/WmShortcuts.v ===== *)
(** * Window-manager shortcuts ([sophia-engine/src/wm.rs])

    The bindings a window manager may register, and the router that decides
    for each physical key event of each seat whether it triggers an action and
    whether it is kept from the focused client. *)

From stdpp Require Import strings.
From S2P Require Import Prelude Ids Packets Errors.
Local Open Scope Z_scope.

Record WmShortcutRegistry : Type := mk_shortcuts {
  sh_bindings : gmap (Z * Z) WmActionId; sh_held : gmap Z WmActionId;
}.
Record WmShortcutDecision : Type := mk_decision { sd_action : option WmActionId; sd_consumed : bool }.

(** The Control+Alt mask and the Backspace keycode of the emergency chord. *)
Definition CONTROL_ALT : Z := Z.lor MOD_CONTROL MOD_ALT.
Definition emergency_chord (keycode modifiers : Z) : Prop :=
  keycode = 14 ∧ Z.land modifiers CONTROL_ALT = CONTROL_ALT.
#[export] Instance emergency_chord_dec k m : Decision (emergency_chord k m).
Proof. unfold emergency_chord; apply _. Defined.

(** [bits & !supported != 0] *)
Definition unsupported_bits (bits supported : Z) : Prop := Z.ldiff bits supported ≠ 0.
#[export] Instance unsupported_bits_dec a b : Decision (unsupported_bits a b).
Proof. unfold unsupported_bits; apply _. Defined.

(** One iteration of the loop of [from_hello]. *)
Definition hello_binding (s : gmap (Z * Z) WmActionId * gset WmActionId) (b : WmBindingRegistration) :
    result (gmap (Z * Z) WmActionId * gset WmActionId) WmIpcError :=
  let '(bindings, actions) := s in
  ensure! ¬ (¬ id_valid (wb_action b) ∨ wb_keycode b = 0 ∨ 767 < wb_keycode b)
    else Negotiation "invalid WM binding" in
  ensure! ¬ unsupported_bits (wb_modifiers b) MOD_SUPPORTED else Negotiation "unsupported WM modifier" in
  ensure! ¬ emergency_chord (wb_keycode b) (wb_modifiers b) else Negotiation "reserved emergency chord" in
  ensure! wb_action b ∉ actions else Negotiation "duplicate WM action" in
  ensure! bindings !! (wb_keycode b, wb_modifiers b) = None else Negotiation "duplicate WM chord" in
  Ok (<[(wb_keycode b, wb_modifiers b) := wb_action b]> bindings, {[wb_action b]} ∪ actions).

Definition from_hello (hello : WmHello) : result WmShortcutRegistry WmIpcError :=
  ensure! wh_api_version hello = WM_API_VERSION else Negotiation "unsupported WM API version" in
  ensure! ¬ unsupported_bits (wh_capabilities hello) CAP_SUPPORTED
    else Negotiation "unsupported WM capability" in
  ensure! (length (wh_bindings hello) ≤ WM_MAX_BINDINGS)%nat else Negotiation "too many WM bindings" in
  let? ' (bindings, _) := try_fold hello_binding (∅, ∅) (wh_bindings hello) in
  Ok (mk_shortcuts bindings ∅).

Definition handle_key (r : WmShortcutRegistry) (keycode modifiers : Z) (pressed : bool) :
    WmShortcutDecision * WmShortcutRegistry :=
  if pressed then
    match sh_bindings r !! (keycode, modifiers) with
    | None => (mk_decision None false, r)
    | Some action =>
        (mk_decision (if decide (sh_held r !! keycode = None) then Some action else None) true,
         mk_shortcuts (sh_bindings r) (<[keycode := action]> (sh_held r)))
    end
  else
    (mk_decision None (bool_decide (is_Some (sh_held r !! keycode))),
     mk_shortcuts (sh_bindings r) (delete keycode (sh_held r))).

(** ** Seats *)

Definition WM_MAX_SHORTCUT_SEATS : nat := 16.

Record WmPhysicalModifierState : Type := mk_modifiers {
  left_shift : bool; right_shift : bool; left_control : bool; right_control : bool;
  left_alt : bool; right_alt : bool; left_super : bool; right_super : bool;
}.
Definition modifiers_default : WmPhysicalModifierState :=
  mk_modifiers false false false false false false false false.

Definition modifier_mask (m : WmPhysicalModifierState) : Z :=
  let bits := 0 in
  let bits := if left_shift m || right_shift m then Z.lor bits MOD_SHIFT else bits in
  let bits := if left_control m || right_control m then Z.lor bits MOD_CONTROL else bits in
  let bits := if left_alt m || right_alt m then Z.lor bits MOD_ALT else bits in
  if left_super m || right_super m then Z.lor bits MOD_SUPER else bits.

Definition modifier_update (m : WmPhysicalModifierState) (keycode : Z) (pressed : bool) :
    WmPhysicalModifierState :=
  let '(mk_modifiers ls rs lc rc la ra lu ru) := m in
  if decide (keycode = 42) then mk_modifiers pressed rs lc rc la ra lu ru
  else if decide (keycode = 54) then mk_modifiers ls pressed lc rc la ra lu ru
  else if decide (keycode = 29) then mk_modifiers ls rs pressed rc la ra lu ru
  else if decide (keycode = 97) then mk_modifiers ls rs lc pressed la ra lu ru
  else if decide (keycode = 56) then mk_modifiers ls rs lc rc pressed ra lu ru
  else if decide (keycode = 100) then mk_modifiers ls rs lc rc la pressed lu ru
  else if decide (keycode = 125) then mk_modifiers ls rs lc rc la ra pressed ru
  else if decide (keycode = 126) then mk_modifiers ls rs lc rc la ra lu pressed
  else m.

Record WmSeatShortcutState : Type := mk_seat {
  seat_shortcuts : WmShortcutRegistry; seat_modifiers : WmPhysicalModifierState;
}.
Record WmShortcutRouter : Type := mk_router {
  ro_registry : WmShortcutRegistry; ro_seats : gmap SeatId WmSeatShortcutState;
}.

Definition router_new (registry : WmShortcutRegistry) : WmShortcutRouter := mk_router registry ∅.
Definition replace_registry (registry : WmShortcutRegistry) (_ : WmShortcutRouter) : WmShortcutRouter :=
  mk_router registry ∅.
Definition clear_seat (r : WmShortcutRouter) (seat : SeatId) : bool * WmShortcutRouter :=
  (bool_decide (is_Some (ro_seats r !! seat)), mk_router (ro_registry r) (delete seat (ro_seats r))).

(** The part of [route_key] after the seat's state is found. *)
Definition seat_key (st : WmSeatShortcutState) (keycode : Z) (pressed : bool) :
    WmShortcutDecision * WmSeatShortcutState :=
  let d := handle_key (seat_shortcuts st) keycode (modifier_mask (seat_modifiers st)) pressed in
  (d.1, mk_seat d.2 (modifier_update (seat_modifiers st) keycode pressed)).

Definition route_key (r : WmShortcutRouter) (seat : SeatId) (keycode : Z) (pressed : bool) :
    WmShortcutDecision * WmShortcutRouter :=
  let route st :=
    let d := seat_key st keycode pressed in
    (d.1, mk_router (ro_registry r) (<[seat := d.2]> (ro_seats r))) in
  if decide (¬ id_valid seat) then (mk_decision None false, r)
  else
    match ro_seats r !! seat with
    | Some st => route st
    | None =>
        if decide (WM_MAX_SHORTCUT_SEATS ≤ size (ro_seats r))%nat then (mk_decision None false, r)
        else route (mk_seat (ro_registry r) modifiers_default)
    end.

(** ** Registration *)

(** What is required of one binding. *)
Definition binding_ok (b : WmBindingRegistration) : Prop :=
  id_valid (wb_action b) ∧ wb_keycode b ≠ 0 ∧ wb_keycode b ≤ 767 ∧
  ¬ unsupported_bits (wb_modifiers b) MOD_SUPPORTED ∧
  ¬ emergency_chord (wb_keycode b) (wb_modifiers b).
Definition wb_chord (b : WmBindingRegistration) : Z * Z := (wb_keycode b, wb_modifiers b).

Lemma hello_binding_ok bindings actions b s' :
  hello_binding (bindings, actions) b = Ok s' ↔
    binding_ok b ∧ wb_action b ∉ actions ∧ bindings !! wb_chord b = None ∧
    s' = (<[wb_chord b := wb_action b]> bindings, {[wb_action b]} ∪ actions).
Proof.
  unfold hello_binding, binding_ok, wb_chord.
  destruct (decide (¬ (¬ id_valid (wb_action b) ∨ wb_keycode b = 0 ∨ 767 < wb_keycode b))) as [H1|H1].
  2:{ split; [done|]. intros ((?&?&?&_)&_). destruct H1. intros [?|[?|?]]; [tauto|done|lia]. }
  assert (id_valid (wb_action b) ∧ wb_keycode b ≠ 0 ∧ wb_keycode b ≤ 767) as (Ha&Hk&Hle).
  { split_and!; [apply dec_stable; tauto|tauto|]. apply Z.le_ngt. tauto. }
  case_decide; [|naive_solver]. case_decide; [|naive_solver]. case_decide; [|naive_solver].
  case_decide; [|naive_solver]. split; [intros [= <-]; split_and!; done|by intros (_&_&_&->)].
Qed.

Lemma hello_loop l bindings actions s' :
  try_fold hello_binding (bindings, actions) l = Ok s' ↔
    Forall binding_ok l ∧ NoDup (wb_action <$> l) ∧ NoDup (wb_chord <$> l) ∧
    (∀ b, b ∈ l → wb_action b ∉ actions ∧ bindings !! wb_chord b = None) ∧
    s' = (foldl (λ m b, <[wb_chord b := wb_action b]> m) bindings l,
          list_to_set (wb_action <$> l) ∪ actions).
Proof.
  revert bindings actions. induction l as [|b l IH]; intros m a; cbn [try_fold foldl fmap list_fmap].
  { split; [intros [= <-]|intros (_&_&_&_&->)]; simpl; rewrite ?(left_id_L ∅ (∪)); [|done].
    split_and!; [constructor|by apply NoDup_nil|by apply NoDup_nil| |done].
    intros b Hb. by apply not_elem_of_nil in Hb. }
  rewrite res_bind_ok. setoid_rewrite NoDup_cons. rewrite Forall_cons. split.
  - intros (s&Hs&Hl). apply hello_binding_ok in Hs as (?&?&?&->).
    apply IH in Hl as (?&?&?&Hfresh&->). split_and!; try done.
    + intros (b'&Heq&Hb')%list_elem_of_fmap. destruct (Hfresh b' Hb') as [Ha _]. rewrite Heq in Ha.
      apply Ha, elem_of_union. left. by apply elem_of_singleton.
    + intros (b'&Heq&Hb')%list_elem_of_fmap. destruct (Hfresh b' Hb') as [_ Hc].
      rewrite Heq, lookup_insert_eq in Hc. done.
    + intros b' [->|Hb']%elem_of_cons; [done|]. destruct (Hfresh b' Hb') as [Ha Hc].
      apply lookup_insert_None in Hc as [? _]. split; [|done]. by apply not_elem_of_union in Ha as [_ ?].
    + f_equal. simpl. by rewrite (assoc_L (∪)), (comm_L (∪) {[wb_action b]}).
  - intros ([Hb Hf]&[Ha Hnd]&[Hc Hndc]&Hfresh&->). eexists. split.
    { apply hello_binding_ok. destruct (Hfresh b); [by left|]. done. }
    apply IH. split_and!; try done.
    + intros b' Hb'. destruct (Hfresh b') as [Ha' Hc']; [by right|]. split.
      * rewrite not_elem_of_union, not_elem_of_singleton. split; [|done]. intros Heq.
        apply Ha. rewrite <-Heq. by apply list_elem_of_fmap_2.
      * rewrite lookup_insert_None. split; [done|]. intros Heq. apply Hc. rewrite Heq.
        by apply list_elem_of_fmap_2.
    + f_equal. simpl. by rewrite (assoc_L (∪)), (comm_L (∪) {[wb_action b]}).
Qed.

Lemma bindings_lookup (l : list WmBindingRegistration) (m : gmap (Z * Z) WmActionId) (c : Z * Z) (a : WmActionId) :
  NoDup (wb_chord <$> l) → (∀ b, b ∈ l → m !! wb_chord b = None) →
  foldl (λ m b, <[wb_chord b := wb_action b]> m) m l !! c = Some a ↔
    m !! c = Some a ∨ ∃ b, b ∈ l ∧ wb_chord b = c ∧ wb_action b = a.
Proof.
  revert m. induction l as [|b l IH]; intros m; csimpl; [set_solver|].
  intros [Hb Hnd]%NoDup_cons Hm. rewrite IH; [|done|].
  - rewrite lookup_insert_Some. split.
    + intros [[[<- <-]|[? ?]]|(b'&?&?&?)]; [right; exists b; split; [left|done]|by left|].
      right. exists b'. split; [by right|done].
    + intros [H|(b'&[->|Hin]%elem_of_cons&<-&<-)]; [|by left; left|right; by exists b'].
      left. right. split; [|done]. intros <-. rewrite Hm in H; [done|left].
  - intros b' Hb'. rewrite lookup_insert_None. split; [apply Hm; by right|].
    intros Heq. apply Hb. rewrite Heq. by apply list_elem_of_fmap_2.
Qed.

Lemma from_hello_ok hello r :
  from_hello hello = Ok r →
  Forall binding_ok (wh_bindings hello) ∧ sh_held r = ∅ ∧
  ∀ c a, sh_bindings r !! c = Some a ↔
    ∃ b, b ∈ wh_bindings hello ∧ wb_chord b = c ∧ wb_action b = a.
Proof.
  unfold from_hello. case_decide; [|done]. case_decide; [|done]. case_decide; [|done].
  rewrite res_bind_ok. intros ([m a]&Hl&[= <-]).
  apply hello_loop in Hl as (?&?&?&Hfresh&[= -> ->]). split_and!; try done.
  intros c a. simpl. rewrite bindings_lookup, lookup_empty by (done || apply Hfresh). naive_solver.
Qed.

(** Shortcut negotiation.  A hello is accepted exactly when it speaks the
    supported version and capabilities and its at most 256 bindings are well
    formed, with distinct actions and distinct chords, none of them the
    emergency chord; the registry then maps exactly those chords to their
    actions, with no key held. *)
Theorem from_hello_spec hello r :
  from_hello hello = Ok r ↔
    wh_api_version hello = WM_API_VERSION ∧
    ¬ unsupported_bits (wh_capabilities hello) CAP_SUPPORTED ∧
    (length (wh_bindings hello) ≤ 256)%nat ∧
    Forall binding_ok (wh_bindings hello) ∧
    NoDup (wb_action <$> wh_bindings hello) ∧ NoDup (wb_chord <$> wh_bindings hello) ∧
    sh_held r = ∅ ∧
    ∀ c a, sh_bindings r !! c = Some a ↔
      ∃ b, b ∈ wh_bindings hello ∧ wb_chord b = c ∧ wb_action b = a.
Proof.
  split.
  - intros Hr. destruct (from_hello_ok hello r Hr) as (?&?&?). unfold from_hello in Hr.
    case_decide; [|done]. case_decide; [|done]. case_decide; [|done].
    rewrite res_bind_ok in Hr. destruct Hr as ([m a]&Hl&[= <-]).
    apply hello_loop in Hl as (?&?&?&_). by split_and!.
  - intros (Hv&Hc&Hlen&Hf&Ha&Hch&Hh&Hb). unfold from_hello. rewrite !decide_True by done.
    destruct (hello_loop (wh_bindings hello) ∅ ∅
      (foldl (λ m b, <[wb_chord b := wb_action b]> m) ∅ (wh_bindings hello),
       list_to_set (wb_action <$> wh_bindings hello) ∪ ∅)) as [_ Hl].
    rewrite Hl; [|split_and!; [done..| |done]; intros b _; split; [set_solver|apply lookup_empty]].
    simpl. destruct r as [m h]; simpl in *. subst h. do 2 f_equal. apply map_eq. intros c.
    apply option_eq. intros a. rewrite bindings_lookup, lookup_empty, Hb by done. naive_solver.
Qed.

(** ** What a seat does with its keys *)

Notation KeyEvent := (Z * bool)%type.

(** The seat's state after a log of key events. *)
Definition seat_after (registry : WmShortcutRegistry) (log : list KeyEvent) : WmSeatShortcutState :=
  foldl (λ st e, (seat_key st e.1 e.2).2) (mk_seat registry modifiers_default) log.

(** A key is down if its last event was a press. *)
Definition key_down (log : list KeyEvent) (keycode : Z) : bool :=
  match last (filter (λ e, e.1 = keycode) log) with Some e => e.2 | None => false end.

(** The modifier mask the physical keys hold. *)
Definition log_mask (log : list KeyEvent) : Z :=
  modifier_mask (mk_modifiers (key_down log 42) (key_down log 54) (key_down log 29) (key_down log 97)
                   (key_down log 56) (key_down log 100) (key_down log 125) (key_down log 126)).

(** A press at the end of the log hits a binding. *)
Definition bound_press (bindings : gmap (Z * Z) WmActionId) (log : list KeyEvent) (keycode : Z) :
    option WmActionId := bindings !! (keycode, log_mask log).

(** Some press of the key hit a binding and the key has not been released since. *)
Definition captured (bindings : gmap (Z * Z) WmActionId) (log : list KeyEvent) (keycode : Z) : Prop :=
  ∃ pre post, log = pre ++ (keycode, true) :: post ∧ is_Some (bound_press bindings pre keycode) ∧
    (keycode, false) ∉ post.

Lemma key_down_snoc log k p k' :
  key_down (log ++ [(k, p)]) k' = if decide (k = k') then p else key_down log k'.
Proof.
  unfold key_down. rewrite filter_app, filter_cons, filter_nil. simpl.
  case_decide; [by rewrite last_snoc|by rewrite app_nil_r].
Qed.

Lemma seat_after_snoc registry log e :
  seat_after registry (log ++ [e]) = (seat_key (seat_after registry log) e.1 e.2).2.
Proof. unfold seat_after. by rewrite foldl_app. Qed.

Lemma seat_after_modifiers registry log :
  seat_modifiers (seat_after registry log) =
    mk_modifiers (key_down log 42) (key_down log 54) (key_down log 29) (key_down log 97)
      (key_down log 56) (key_down log 100) (key_down log 125) (key_down log 126).
Proof.
  induction log as [|[k p] log IH] using rev_ind; [done|].
  rewrite seat_after_snoc, !key_down_snoc. unfold seat_key; simpl. rewrite IH. unfold modifier_update.
  repeat (case_decide; [subst; done|]). done.
Qed.

Lemma seat_after_bindings registry log :
  sh_bindings (seat_shortcuts (seat_after registry log)) = sh_bindings registry.
Proof.
  induction log as [|[k p] log IH] using rev_ind; [done|].
  rewrite seat_after_snoc. unfold seat_key, handle_key; simpl. destruct p; [|done].
  by destruct (sh_bindings _ !! _).
Qed.

Lemma captured_snoc bindings log k p k' :
  captured bindings (log ++ [(k, p)]) k' ↔
    if decide (k = k') then p = true ∧ (captured bindings log k' ∨ is_Some (bound_press bindings log k'))
    else captured bindings log k'.
Proof.
  unfold captured. split.
  - intros (pre&post&Heq&Hb&Hpost). destruct post as [|e post _] using rev_ind.
    + apply app_inj_tail in Heq as [-> [= -> ->]]. rewrite decide_True by done. eauto.
    + rewrite app_comm_cons, (assoc_L (++)) in Heq. apply app_inj_tail in Heq as [-> <-].
      rewrite not_elem_of_app, list_elem_of_singleton in Hpost. destruct Hpost as [Hpost Hp].
      assert (∃ pre0 post0, pre ++ (k', true) :: post = pre0 ++ (k', true) :: post0 ∧
        is_Some (bound_press bindings pre0 k') ∧ (k', false) ∉ post0) by eauto.
      case_decide; [|done]. subst. split; [|by left]. destruct p; [done|]. by destruct Hp.
  - case_decide as Hk.
    + subst. intros [-> [(pre&post&->&Hb&Hpost)|Hb]].
      * exists pre, (post ++ [(k', true)]). rewrite <-(assoc_L (++)). split_and!; [done|done|].
        rewrite not_elem_of_app, list_elem_of_singleton. by split.
      * exists log, []. split_and!; [done|done|]. apply not_elem_of_nil.
    + intros (pre&post&->&Hb&Hpost). exists pre, (post ++ [(k, p)]). rewrite <-(assoc_L (++)).
      split_and!; [done|done|]. rewrite not_elem_of_app, list_elem_of_singleton. split; [done|congruence].
Qed.

Lemma seat_after_held registry log k :
  sh_held registry = ∅ →
  is_Some (sh_held (seat_shortcuts (seat_after registry log)) !! k) ↔ captured (sh_bindings registry) log k.
Proof.
  intros Hempty. induction log as [|[k' p] log IH] using rev_ind.
  { simpl. rewrite Hempty, lookup_empty. split; [by intros []|].
    intros (pre&post&Heq&_). by destruct pre. }
  rewrite captured_snoc, seat_after_snoc. unfold seat_key, handle_key; simpl.
  rewrite seat_after_bindings, seat_after_modifiers. fold (log_mask log).
  destruct p; simpl.
  - unfold bound_press. destruct (decide (k' = k)) as [->|Hne].
    + rewrite <-IH. destruct (sh_bindings registry !! (k, log_mask log)) as [a|] eqn:E; simpl.
      * rewrite lookup_insert_eq. split; [eauto|done].
      * split; [eauto|]. intros [_ [?|[? ?]]]; done.
    + rewrite <-IH. destruct (sh_bindings registry !! _); simpl; [by rewrite lookup_insert_ne|done].
  - destruct (decide (k' = k)) as [->|Hne].
    + rewrite lookup_delete_eq. split; [by intros []|by intros [? _]].
    + rewrite lookup_delete_ne by done. apply IH.
Qed.

(** The events of one seat in a log of the whole router. *)
Definition seat_log (seat : SeatId) (log : list (SeatId * KeyEvent)) : list KeyEvent :=
  (filter (λ e, e.1 = seat) log).*2.
Definition router_after (r : WmShortcutRouter) (log : list (SeatId * KeyEvent)) : WmShortcutRouter :=
  foldl (λ r e, (route_key r e.1 e.2.1 e.2.2).2) r log.

(** Up to sixteen seats, the router is one independent state per valid seat. *)
Definition router_inv (registry : WmShortcutRegistry) (log : list (SeatId * KeyEvent))
    (r : WmShortcutRouter) : Prop :=
  ro_registry r = registry ∧ (size (ro_seats r) ≤ WM_MAX_SHORTCUT_SEATS)%nat ∧
  ∀ seat, match ro_seats r !! seat with
          | Some st => id_valid seat ∧ st = seat_after registry (seat_log seat log)
          | None => ¬ id_valid seat ∨ seat_log seat log = [] ∨
                    size (ro_seats r) = WM_MAX_SHORTCUT_SEATS
          end.

Lemma seat_log_snoc seat log e :
  seat_log seat (log ++ [e]) =
    if decide (e.1 = seat) then seat_log seat log ++ [e.2] else seat_log seat log.
Proof.
  unfold seat_log. rewrite filter_app, filter_cons, filter_nil. case_decide.
  - by rewrite fmap_app.
  - by rewrite app_nil_r.
Qed.

Lemma router_after_inv registry log : router_inv registry log (router_after (router_new registry) log).
Proof.
  induction log as [|[seat [k p]] log IH] using rev_ind.
  { split_and!; simpl; [done|rewrite map_size_empty; lia|]. intros s. rewrite lookup_empty. by right; left. }
  unfold router_after. rewrite foldl_app; simpl.
  change (foldl _ _ log) with (router_after (router_new registry) log).
  set (r := router_after (router_new registry) log) in *. destruct IH as (Hreg&Hsize&Hseats).
  unfold route_key. destruct (decide (id_valid seat)) as [Hv|Hv].
  2:{ rewrite decide_True by done. split_and!; [done|done|]. intros s. specialize (Hseats s).
      rewrite seat_log_snoc; simpl. destruct (decide (seat = s)) as [->|]; [|done].
      destruct (ro_seats r !! s); [tauto|by left]. }
  rewrite decide_False by tauto.
  assert (Hkeep : ∀ s, s ≠ seat → seat_log s (log ++ [(seat, (k, p))]) = seat_log s log).
  { intros s Hs. rewrite seat_log_snoc; simpl. by rewrite decide_False. }
  assert (Hnew : seat_log seat (log ++ [(seat, (k, p))]) = seat_log seat log ++ [(k, p)]).
  { rewrite seat_log_snoc; simpl. by rewrite decide_True. }
  pose proof (Hseats seat) as Hseat. destruct (ro_seats r !! seat) as [st|] eqn:Est.
  - destruct Hseat as [_ ->]. split_and!; simpl; [done| |].
    + rewrite map_size_insert, Est. done.
    + intros s. specialize (Hseats s). rewrite map_size_insert, Est.
      destruct (decide (s = seat)) as [->|Hs].
      * rewrite lookup_insert_eq, Hnew, seat_after_snoc. done.
      * rewrite lookup_insert_ne, Hkeep by done. done.
  - case_decide as Hfull.
    + split_and!; simpl; [done|done|]. intros s. specialize (Hseats s).
      destruct (decide (s = seat)) as [->|Hs]; [|by rewrite Hkeep].
      rewrite Est. right; right. by apply (anti_symm Nat.le).
    + destruct Hseat as [?|[Hnil|?]]; [done| |lia]. split_and!; simpl; [done| |].
      * rewrite map_size_insert, Est. unfold WM_MAX_SHORTCUT_SEATS in *. simpl. lia.
      * intros s. specialize (Hseats s). rewrite map_size_insert, Est.
        destruct (decide (s = seat)) as [->|Hs].
        -- rewrite lookup_insert_eq, Hnew, Hnil, Hreg. done.
        -- rewrite lookup_insert_ne, Hkeep by done. destruct (ro_seats r !! s); [done|].
           destruct Hseats as [?|[?|?]]; [by left|by right; left|lia].
Qed.

Lemma seat_key_decision registry log k p :
  sh_held registry = ∅ →
  (seat_key (seat_after registry log) k p).1 =
    if p then
      match bound_press (sh_bindings registry) log k with
      | Some a => mk_decision (if bool_decide (is_Some (sh_held (seat_shortcuts (seat_after registry log)) !! k))
                               then None else Some a) true
      | None => mk_decision None false
      end
    else mk_decision None (bool_decide (is_Some (sh_held (seat_shortcuts (seat_after registry log)) !! k))).
Proof.
  intros Hempty. unfold seat_key, handle_key; simpl.
  rewrite seat_after_bindings, seat_after_modifiers. fold (log_mask log).
  destruct p; simpl; [|done]. unfold bound_press. destruct (sh_bindings registry !! _); [|done]. simpl.
  by destruct (sh_held _ !! k).
Qed.

(** Shortcut routing.  Route any log of key events of any seats through a
    router built from an accepted hello, then one more event of a valid seat.
    The decision depends on that seat's own events only: a press triggers an
    action exactly when the physical modifiers of the seat and the key are a
    registered chord and the key is not already captured (so repeats trigger
    nothing), presses of registered chords and releases of captured keys are
    the only events kept from the client, and a press completing the emergency
    chord never is.  (A seventeenth seat is passed through untouched.) *)
Theorem route_key_spec hello registry log seat k p :
  from_hello hello = Ok registry → id_valid seat →
  let r := router_after (router_new registry) log in
  let d := (route_key r seat k p).1 in
  let mine := seat_log seat log in
  (size (ro_seats r) ≤ WM_MAX_SHORTCUT_SEATS)%nat ∧
  (ro_seats r !! seat = None ∧ size (ro_seats r) = WM_MAX_SHORTCUT_SEATS ∧ d = mk_decision None false ∨
   (∀ a, sd_action d = Some a ↔
      p = true ∧ (∃ b, b ∈ wh_bindings hello ∧ wb_action b = a ∧ wb_chord b = (k, log_mask mine)) ∧
      ¬ captured (sh_bindings registry) mine k) ∧
   (sd_consumed d = true ↔
      if p then ∃ b, b ∈ wh_bindings hello ∧ wb_chord b = (k, log_mask mine)
      else captured (sh_bindings registry) mine k) ∧
   (p = true → emergency_chord k (log_mask mine) → d = mk_decision None false)).
Proof.
  intros Hhello Hv. cbv zeta. set (r := router_after _ log).
  assert (Forall binding_ok (wh_bindings hello) ∧ sh_held registry = ∅ ∧
    ∀ c a, sh_bindings registry !! c = Some a ↔
      ∃ b, b ∈ wh_bindings hello ∧ wb_chord b = c ∧ wb_action b = a) as (Hok&Hempty&Hbind).
  { by apply from_hello_ok. }
  destruct (router_after_inv registry log) as (Hreg&Hsize&Hseats). fold r in Hreg, Hsize, Hseats.
  split; [done|]. specialize (Hseats seat). unfold route_key. rewrite decide_False by tauto.
  assert (Hdec : (ro_seats r !! seat = None ∧ size (ro_seats r) = WM_MAX_SHORTCUT_SEATS) ∨
    ∃ st, st = seat_after registry (seat_log seat log) ∧
      (ro_seats r !! seat = Some st ∨ ro_seats r !! seat = None ∧ st = mk_seat registry modifiers_default ∧
       (size (ro_seats r) < WM_MAX_SHORTCUT_SEATS)%nat)).
  { destruct (ro_seats r !! seat) as [st|] eqn:E; [right; exists st; tauto|].
    destruct (decide (size (ro_seats r) = WM_MAX_SHORTCUT_SEATS)) as [?|Hne]; [by left|right].
    destruct Hseats as [?|[Hnil|?]]; [done| |done]. eexists. split; [done|]. right.
    rewrite Hnil. split_and!; [done|done|lia]. }
  destruct Hdec as [[E Hfull]|(st&Hst&Hcase)].
  { left. rewrite E. rewrite decide_True by (rewrite Hfull; done). done. }
  right.
  assert (Hd : (match ro_seats r !! seat with
    | Some st => ((seat_key st k p).1, mk_router (ro_registry r) (<[seat := (seat_key st k p).2]> (ro_seats r)))
    | None => if decide (WM_MAX_SHORTCUT_SEATS ≤ size (ro_seats r))%nat then (mk_decision None false, r)
        else ((seat_key (mk_seat (ro_registry r) modifiers_default) k p).1, mk_router (ro_registry r)
          (<[seat := (seat_key (mk_seat (ro_registry r) modifiers_default) k p).2]> (ro_seats r)))
    end).1 = (seat_key st k p).1).
  { destruct Hcase as [->|(->&->&Hlt)]; [done|]. rewrite decide_False by lia. by rewrite Hreg. }
  rewrite Hd, Hst, seat_key_decision by done. clear Hd.
  pose proof (seat_after_held registry (seat_log seat log) k Hempty) as Hheld.
  set (held := sh_held _ !! k) in *.
  assert (Hb : ∀ a, bound_press (sh_bindings registry) (seat_log seat log) k = Some a ↔
    ∃ b, b ∈ wh_bindings hello ∧ wb_chord b = (k, log_mask (seat_log seat log)) ∧ wb_action b = a).
  { intros a. apply Hbind. }
  split_and!.
  - intros a. destruct p; simpl; [|naive_solver].
    destruct (bound_press _ _ k) as [a'|]; simpl.
    + case_bool_decide as Hc; [split; [done|tauto]|]. specialize (Hb a). naive_solver.
    + specialize (Hb a). naive_solver.
  - destruct p; simpl.
    + destruct (bound_press _ _ k) as [a'|]; simpl; [specialize (Hb a')|]; naive_solver.
    + by rewrite bool_decide_eq_true.
  - intros -> He. destruct (bound_press _ _ k) as [a'|] eqn:E; [|done]. exfalso.
    destruct (proj1 (Hb a') eq_refl) as (b&Hin&Hch&_). rewrite Forall_forall in Hok.
    destruct (Hok b Hin) as (_&_&_&_&Hne). unfold wb_chord in Hch.
    injection Hch as Hk Hm. rewrite Hk, Hm in Hne. done.
Qed.

Lemma route_key_spec_witness :
  let hello := mk_hello 2 CAP_BINDINGS [mk_binding (from_raw 7) 28 MOD_SUPER] in
  let registry := mk_shortcuts (<[(28, MOD_SUPER) := from_raw 7]> ∅) ∅ in
  let log := [(from_raw 1, (125, true)); (from_raw 2, (28, true))] in
  from_hello hello = Ok registry ∧
  sd_action (route_key (router_after (router_new registry) log) (from_raw 1) 28 true).1 = Some (from_raw 7).
Proof.
  intros hello registry log. split; [vm_compute; reflexivity|].
  destruct (route_key_spec hello registry log (from_raw 1) 28 true) as [_ [(_&Hs&_)|(Ha&_)]].
  - vm_compute. reflexivity.
  - vm_compute. congruence.
  - vm_compute in Hs. discriminate.
  - apply Ha. split_and!; [done| |].
    + eexists. split; [left|]. split; vm_compute; reflexivity.
    + intros (pre&post&Hlog&_). assert ((28, true) ∈ seat_log (from_raw 1) log) as Hin.
      { rewrite Hlog. apply elem_of_app. right. left. }
      apply (bool_decide_pack _) in Hin. vm_compute in Hin. done.
Defined.
