(* ===== verification/WmLayout.v ===== *)
(** * Layout transactions and session ticks
    ([sophia-engine/src/engine/{layout/wm_transaction,wm_transaction,session_tick}.rs],
    [session.rs], [chrome/action.rs])

    How an accepted layout changes the layers, what the engine shows when the
    window manager fails, and the per-frame session tick.  The exchange with
    the window manager over its stream is the parameter [ipc]. *)

From S2P Require Import Prelude Ids Geometry Packets Errors Outputs VisualState Frames Rendering.
Local Open Scope Z_scope.

Definition moved_damage (old_geometry new_geometry : Rect) : Region :=
  region_extend (region_single old_geometry) (region_single new_geometry).

(** The layer a placement leaves. *)
Definition place_layer (p : SurfacePlacement) (l : LayerSnapshot) : LayerSnapshot :=
  mk_layer (ls_surface l) (ls_authority_local_id l) (ls_namespace l) (Z.max (sp_z_index p) 0)
    (sp_geometry p) (ls_source l) (moved_damage (ls_geometry l) (sp_geometry p)) (ls_opacity l)
    (sp_crop p) (sp_transform p) (saturating_add u64_MAX (ls_generation l) 1) (ls_resize_sync l).

(** [layer_indexes]: the last index of each surface. *)
Definition layer_indexes (layers : list LayerSnapshot) : gmap SurfaceId nat :=
  foldl (λ m e, <[ls_surface e.2 := e.1]> m) ∅ (imap pair layers).

(** One iteration of the loop over the placements; the index is always in
    range, so [alter] is the write through [layers\[index\]]. *)
Definition apply_placement (indexes : gmap SurfaceId nat) (layers : list LayerSnapshot)
    (p : SurfacePlacement) : result (list LayerSnapshot) EngineError :=
  ensure! surface_valid (sp_surface p) else InvalidSurface in
  let? index := ok_or (indexes !! sp_surface p) InvalidSurface in
  Ok (alter (place_layer p) index layers).

Definition apply_layout_transaction (t : LayoutTransaction) (layers : list LayerSnapshot) :
    result (list LayerSnapshot) EngineError :=
  try_fold (apply_placement (layer_indexes layers)) layers (lt_render_positions t).

Definition commit_layout_transaction (t : LayoutTransaction) (layers : list LayerSnapshot) :
    TransactionCommit * list LayerSnapshot :=
  match apply_layout_transaction t layers with
  | Ok committed =>
      (mk_commit (lt_transaction t) Committed (sp_surface <$> lt_render_positions t), committed)
  | Err InvalidSurface => (mk_commit (lt_transaction t) RejectedInvalidSurface [], layers)
  | Err _ => (mk_commit (lt_transaction t) RejectedStaleSurface [], layers)
  end.

(** ** Window-manager transactions *)

Record WmTransactionUpdate : Type := mk_wm_update {
  wu_commit : TransactionCommit; wu_ipc_error : option WmIpcError;
}.

Definition preserve_layout_on_wm_absent (transaction : TransactionId) : TransactionCommit :=
  mk_commit transaction TimedOut [].

Section wm.
(** One exchange over the window manager's stream. *)
Variable ipc : WmRequestPacket → result WmResponsePacket WmIpcError.

Definition request_and_commit_wm_transaction (request : WmRequestPacket) (layers : list LayerSnapshot) :
    WmTransactionUpdate * list LayerSnapshot :=
  match ipc request with
  | Ok response =>
      let r := commit_layout_transaction (into_layout_transaction response) layers in
      (mk_wm_update r.1 None, r.2)
  | Err error =>
      (mk_wm_update (preserve_layout_on_wm_absent (wq_transaction request)) (Some error), layers)
  end.

Definition request_and_cache_wm_transaction (request : WmRequestPacket) (layers : list LayerSnapshot)
    (last_committed : LastCommittedLayout) :
    WmTransactionUpdate * list LayerSnapshot * LastCommittedLayout :=
  let '(update, layers) := request_and_commit_wm_transaction request layers in
  match tc_outcome (wu_commit update) with
  | Committed => (update, layers, layout_replace last_committed layers)
  | TimedOut =>
      if decide (ll_layers last_committed ≠ [])
      then (update, layout_restore_into last_committed layers, last_committed)
      else (update, layers, last_committed)
  | _ => (update, layers, last_committed)
  end.
End wm.

(** ** Session ticks *)

Inductive SessionLayerSource : Type :=
| Fresh (layers : list LayerSnapshot)
| RestoreLastCommitted.
Record SessionTickRequest : Type := mk_tick_request {
  tr_output : OutputId; tr_frame_serial : Z; tr_layers : SessionLayerSource;
}.
Record SessionTickReport : Type := mk_tick_report {
  tp_frame : FrameSnapshot; tp_replay : ReplayReport; tp_restored_last_committed : bool;
}.

Definition run_session_tick (e : HeadlessEngine) (request : SessionTickRequest)
    (last_committed : LastCommittedLayout) :
    result SessionTickReport EngineError * LastCommittedLayout :=
  let '(layers, restored, last_committed) :=
    match tr_layers request with
    | Fresh layers => (layers, false, layout_replace last_committed layers)
    | RestoreLastCommitted => (layout_restore_into last_committed [], true, last_committed)
    end in
  (let? frame := plan_frame e (mk_plan_request (tr_output request) (tr_frame_serial request)) layers in
   let? replay := replay_frame e frame in
   Ok (mk_tick_report frame replay restored),
   last_committed).

Definition run_clocked_session_tick (e : HeadlessEngine) (clock : DeterministicFrameClock)
    (layers : SessionLayerSource) (last_committed : LastCommittedLayout) :
    result SessionTickReport EngineError * LastCommittedLayout * DeterministicFrameClock :=
  let '(tick, clock) := clock_next_frame clock (ho_id (en_output e)) in
  (run_session_tick e (mk_tick_request (tk_output tick) (tk_frame_serial tick) layers) last_committed,
   clock).

(** ** Chrome actions and session events *)

Inductive ChromeActionKind : Type := CloseSurfaceRequested.
Record ChromeActionRequest : Type := mk_chrome_action {
  ca_surface : SurfaceId; ca_generation : Z; ca_kind : ChromeActionKind;
}.
Inductive ChromeActionRejectReason : Type :=
| ChromeUnknownSurface | ChromeStaleGeneration | ChromeNotClosable | ChromeUnsupportedAction.
Inductive ChromeActionDecision : Type :=
| RequestPoliteClose (surface : SurfaceId)
| ChromeRejected (r : ChromeActionRejectReason).

Definition validate_chrome_action (request : ChromeActionRequest) (nodes : list LayoutNodeSnapshot) :
    ChromeActionDecision :=
  match find_first (λ node, ln_surface node = ca_surface request) nodes with
  | None => ChromeRejected ChromeUnknownSurface
  | Some node =>
      if decide (ln_generation node ≠ ca_generation request) then ChromeRejected ChromeStaleGeneration
      else match ca_kind request with
           | CloseSurfaceRequested =>
               if closable (ln_capabilities node) then RequestPoliteClose (ca_surface request)
               else ChromeRejected ChromeNotClosable
           end
  end.

Inductive SessionEvent : Type :=
| EvChromeAction (request : ChromeActionRequest)
| EvSurfaceRemoved (transaction : TransactionId) (surface : SurfaceId) (workspace : WorkspaceId).
Inductive SessionCommand : Type :=
| CmdRequestPoliteClose (surface : SurfaceId)
| CmdSendWmRequest (request : WmRequestPacket).
Record SessionUpdate : Type := mk_session_update {
  su_chrome_decision : option ChromeActionDecision; su_commands : list SessionCommand;
}.

Definition handle_session_event (event : SessionEvent) (nodes : list LayoutNodeSnapshot) :
    SessionUpdate :=
  match event with
  | EvChromeAction request =>
      let decision := validate_chrome_action request nodes in
      mk_session_update (Some decision)
        match decision with
        | RequestPoliteClose surface => [CmdRequestPoliteClose surface]
        | ChromeRejected _ => []
        end
  | EvSurfaceRemoved transaction surface workspace =>
      mk_session_update None
        [CmdSendWmRequest (mk_wm_request transaction (SurfaceRemoved surface workspace))]
  end.

(** ** Layout transactions change exactly the placed layers *)

Definition surfaces_of (layers : list LayerSnapshot) : list SurfaceId := ls_surface <$> layers.

Lemma layer_indexes_lookup layers s i :
  NoDup (surfaces_of layers) →
  layer_indexes layers !! s = Some i ↔ ∃ l, layers !! i = Some l ∧ ls_surface l = s.
Proof.
  unfold layer_indexes, surfaces_of. revert i. induction layers as [|l ls IH] using rev_ind; intros i.
  { simpl. rewrite lookup_empty. split; [done|]. by intros (?&?&_). }
  rewrite fmap_app, imap_app, foldl_app. simpl. rewrite Nat.add_0_r.
  intros (Hnd&Hnew&_)%NoDup_app.
  assert (Hfresh : ls_surface l ∉ ls_surface <$> ls).
  { intros Hin. apply (Hnew _ Hin). by left. }
  rewrite lookup_insert_Some, IH by done. split.
  - intros [[<- <-]|[Hne (l'&Hl'&<-)]].
    + exists l. split; [by apply list_lookup_middle|done].
    + exists l'. split; [|done]. by apply lookup_app_l_Some.
  - intros (l'&Hl'&<-). apply lookup_app_Some in Hl' as [Hl'|[Hlen Hl']].
    + right. split; [|eauto]. intros Heq. apply Hfresh. rewrite Heq.
      apply list_elem_of_fmap_2. by eapply list_elem_of_lookup_2.
    + left. destruct (i - length ls)%nat eqn:Hi; simplify_eq/=. split; [done|lia].
Qed.

Lemma place_layer_surface p l : ls_surface (place_layer p l) = ls_surface l.
Proof. done. Qed.

(** The placements of one surface, applied in order. *)
Definition place_all (ps : list SurfacePlacement) (l : LayerSnapshot) : LayerSnapshot :=
  foldl (λ l p, place_layer p l) l (filter (λ p, sp_surface p = ls_surface l) ps).

Lemma place_all_snoc ps p l :
  place_all (ps ++ [p]) l =
    if decide (sp_surface p = ls_surface l) then place_layer p (place_all ps l) else place_all ps l.
Proof.
  unfold place_all. rewrite filter_app, filter_cons, filter_nil. case_decide.
  - by rewrite foldl_app.
  - by rewrite app_nil_r.
Qed.

Lemma place_all_surface ps l : ls_surface (place_all ps l) = ls_surface l.
Proof.
  induction ps as [|p ps IH] using rev_ind; [done|]. rewrite place_all_snoc. by case_decide.
Qed.

(** A placement is applicable: its surface is valid and has a layer. *)
Definition placeable (layers : list LayerSnapshot) (p : SurfacePlacement) : Prop :=
  surface_valid (sp_surface p) ∧ sp_surface p ∈ surfaces_of layers.
#[export] Instance placeable_dec layers p : Decision (placeable layers p).
Proof. unfold placeable; apply _. Defined.

Lemma apply_layout_spec t layers :
  NoDup (surfaces_of layers) →
  apply_layout_transaction t layers =
    if decide (Forall (placeable layers) (lt_render_positions t))
    then Ok (place_all (lt_render_positions t) <$> layers) else Err InvalidSurface.
Proof.
  intros Hnd. unfold apply_layout_transaction. generalize (lt_render_positions t) as ps.
  induction ps as [|p ps IH] using rev_ind.
  { simpl. f_equal. unfold place_all; simpl. by rewrite list_fmap_id. }
  rewrite try_fold_app, IH. clear IH.
  destruct (decide (Forall (placeable layers) ps)) as [Hps|Hps]; simpl.
  2:{ rewrite decide_False; [done|]. rewrite Forall_app. tauto. }
  unfold apply_placement. destruct (decide (surface_valid (sp_surface p))) as [Hv|Hv]; simpl.
  2:{ rewrite decide_False; [done|]. rewrite Forall_app, Forall_cons. unfold placeable at 2. tauto. }
  destruct (layer_indexes layers !! sp_surface p) as [i|] eqn:Hi; simpl.
  - apply layer_indexes_lookup in Hi as (l&Hl&Hs); [|done]. rewrite decide_True.
    + f_equal. apply list_eq. intros j. rewrite list_lookup_fmap.
      destruct (decide (i = j)) as [<-|Hne].
      * rewrite list_lookup_alter_eq, list_lookup_fmap, Hl. simpl. f_equal.
        by rewrite place_all_snoc, decide_True.
      * rewrite list_lookup_alter_ne, list_lookup_fmap by done.
        destruct (layers !! j) as [l'|] eqn:Hj; [|done]. simpl. f_equal.
        rewrite place_all_snoc, decide_False; [done|]. intros Heq. apply Hne.
        eapply (NoDup_lookup (surfaces_of layers)); [done| |].
        -- unfold surfaces_of. by rewrite list_lookup_fmap, Hl.
        -- unfold surfaces_of. rewrite list_lookup_fmap, Hj. simpl. congruence.
    + rewrite Forall_app, Forall_cons. split_and!; [done| |done]. split; [done|].
      rewrite <-Hs. apply list_elem_of_fmap_2. by eapply list_elem_of_lookup_2.
  - rewrite decide_False; [done|]. rewrite Forall_app, Forall_cons. intros (_&[_ Hin]&_).
    apply list_elem_of_fmap in Hin as (l&Hs&Hl). apply list_elem_of_lookup_1 in Hl as [j Hj].
    assert (layer_indexes layers !! sp_surface p = Some j) as Hij; [|by rewrite Hi in Hij].
    apply layer_indexes_lookup; [done|]. eauto.
Qed.

Lemma in_moved_damage x y old new :
  in_region x y (moved_damage old new) ↔ in_rect x y old ∨ in_rect x y new.
Proof. unfold moved_damage. by rewrite in_region_extend, !in_region_single. Qed.

Lemma place_all_one ps l p :
  NoDup (sp_surface <$> ps) → p ∈ ps → sp_surface p = ls_surface l → place_all ps l = place_layer p l.
Proof.
  intros Hnd Hp Hs. unfold place_all.
  assert (filter (λ p, sp_surface p = ls_surface l) ps = [p]) as ->; [|done].
  induction ps as [|q ps IH]; [set_solver|]. csimpl in Hnd. apply NoDup_cons in Hnd as [Hq Hnd].
  rewrite filter_cons. apply elem_of_cons in Hp as [->|Hp].
  - rewrite decide_True by done. f_equal. apply filter_none. intros r Hr Heq. apply Hq.
    rewrite Hs, <-Heq. by apply list_elem_of_fmap_2.
  - rewrite decide_False; [auto|]. intros Heq. apply Hq. rewrite Heq, <-Hs.
    by apply list_elem_of_fmap_2.
Qed.

(** Layout transactions are all-or-nothing and local.  If every placement
    names a valid surface that has a layer, the transaction commits: the layers
    keep their order and surfaces, each gets its placements in order and the
    others are untouched; a surface placed once is damaged exactly where it was
    and where it went.  Otherwise the transaction is rejected as invalid and no
    layer changes. *)
Theorem layout_commit_spec t layers :
  NoDup (surfaces_of layers) →
  let r := commit_layout_transaction t layers in
  tc_transaction r.1 = lt_transaction t ∧
  if decide (Forall (placeable layers) (lt_render_positions t)) then
    tc_outcome r.1 = Committed ∧ tc_applied_surfaces r.1 = sp_surface <$> lt_render_positions t ∧
    r.2 = place_all (lt_render_positions t) <$> layers ∧
    surfaces_of r.2 = surfaces_of layers ∧
    (∀ l, l ∈ layers → (∀ p, p ∈ lt_render_positions t → sp_surface p ≠ ls_surface l) →
       place_all (lt_render_positions t) l = l) ∧
    (NoDup (sp_surface <$> lt_render_positions t) → ∀ l p x y,
       l ∈ layers → p ∈ lt_render_positions t → sp_surface p = ls_surface l →
       ls_geometry (place_all (lt_render_positions t) l) = sp_geometry p ∧
       (in_region x y (ls_damage (place_all (lt_render_positions t) l)) ↔
          in_rect x y (ls_geometry l) ∨ in_rect x y (sp_geometry p)))
  else
    tc_outcome r.1 = RejectedInvalidSurface ∧ tc_applied_surfaces r.1 = [] ∧ r.2 = layers.
Proof.
  intros Hnd. cbv zeta. unfold commit_layout_transaction. rewrite apply_layout_spec by done.
  destruct (decide (Forall (placeable layers) (lt_render_positions t))) as [Hp|Hp]; [|done].
  simpl. split_and!; try done.
  - unfold surfaces_of. rewrite <-list_fmap_compose. apply list_fmap_ext.
    intros i l _. apply place_all_surface.
  - intros l _ Hl. unfold place_all. by rewrite filter_none.
  - intros Hps l p x y Hl Hin Hs. rewrite (place_all_one _ l p) by done.
    split; [done|]. apply in_moved_damage.
Qed.

Lemma layout_commit_spec_witness :
  let ls := [example_layer 3 9 (DmaBuf 4); example_layer 4 2 (XPixmap 6)] in
  let p := mk_placement (surface_id 4 1) (mk_rect 100 0 64 64) 12 None IDENTITY in
  let r := commit_layout_transaction (mk_layout_tx (from_raw 8) [] None [p] 100) ls in
  tc_outcome r.1 = Committed ∧ surfaces_of r.2 = surfaces_of ls ∧ ls_stack_rank <$> r.2 = [9; 12].
Proof.
  intros ls p r. assert (NoDup (surfaces_of ls)) as Hnd.
  { apply (bool_decide_unpack _). vm_compute. exact I. }
  destruct (layout_commit_spec (mk_layout_tx (from_raw 8) [] None [p] 100) ls Hnd) as [_ H].
  rewrite decide_True in H.
  - split; [apply H|]. split; [apply H|]. vm_compute. reflexivity.
  - apply (bool_decide_unpack _). vm_compute. exact I.
Defined.

(** ** A window manager that fails *)

(** A sequence of exchanges, each with the answer the window manager gave. *)
Definition WmExchange : Type := WmRequestPacket * result WmResponsePacket WmIpcError.

Definition wm_step (s : list LayerSnapshot * LastCommittedLayout) (x : WmExchange) :
    list LayerSnapshot * LastCommittedLayout :=
  let r := request_and_cache_wm_transaction (λ _, x.2) x.1 s.1 s.2 in (r.1.2, r.2).
Definition wm_run (s : list LayerSnapshot * LastCommittedLayout) (xs : list WmExchange) :
    list LayerSnapshot * LastCommittedLayout := foldl wm_step s xs.

(** The exchange commits at these layers. *)
Definition exchange_commits (x : WmExchange) (layers : list LayerSnapshot) : Prop :=
  match x.2 with
  | Ok response => Forall (placeable layers) (lt_render_positions (into_layout_transaction response))
  | Err _ => False
  end.
#[export] Instance exchange_commits_dec x layers : Decision (exchange_commits x layers).
Proof. unfold exchange_commits; destruct x.2; apply _. Defined.

Lemma wm_step_spec s x :
  NoDup (surfaces_of s.1) →
  wm_step s x =
    match x.2 with
    | Ok response =>
        if decide (exchange_commits x s.1) then
          let layers := place_all (lt_render_positions (into_layout_transaction response)) <$> s.1 in
          (layers, mk_last_layout layers)
        else s
    | Err _ => (if decide (ll_layers s.2 ≠ []) then ll_layers s.2 else s.1, s.2)
    end.
Proof.
  intros Hnd. destruct s as [layers cache]; simpl in *.
  unfold wm_step, request_and_cache_wm_transaction, request_and_commit_wm_transaction, exchange_commits.
  destruct x as [request [response|error]]; simpl.
  - unfold commit_layout_transaction. rewrite apply_layout_spec by done.
    by destruct (decide (Forall _ _)).
  - by case_decide.
Qed.

(** The display survives the window manager.  Whatever the window manager
    answers (layouts, invalid layouts, errors) over any number of exchanges,
    from the first committed layout on the layers shown are exactly the last
    committed layout; an exchange that does not commit changes nothing, and no
    surface ever gains or loses a layer. *)
Theorem wm_run_shows_last_committed layers cache x xs :
  NoDup (surfaces_of layers) → exchange_commits x layers →
  let s := wm_run (layers, cache) (x :: xs) in
  s.1 = ll_layers s.2 ∧ surfaces_of s.1 = surfaces_of layers ∧
  ∀ y, ¬ exchange_commits y s.1 → wm_step s y = s.
Proof.
  intros Hnd Hx. cbv zeta. unfold wm_run. cbn [foldl].
  assert (Hplace : ∀ ps ls, surfaces_of (place_all ps <$> ls) = surfaces_of ls).
  { intros ps ls. unfold surfaces_of. rewrite <-list_fmap_compose. apply list_fmap_ext.
    intros i l _. apply place_all_surface. }
  set (s0 := wm_step (layers, cache) x).
  assert (s0.1 = ll_layers s0.2 ∧ surfaces_of s0.1 = surfaces_of layers) as H0.
  { unfold s0. rewrite wm_step_spec by done. unfold exchange_commits in *.
    destruct x as [q [r|e]]; simpl in *; [|done]. rewrite decide_True by done. simpl. auto. }
  assert (Hinv : (foldl wm_step s0 xs).1 = ll_layers (foldl wm_step s0 xs).2 ∧
    surfaces_of (foldl wm_step s0 xs).1 = surfaces_of layers).
  { clearbody s0. revert s0 H0. induction xs as [|y ys IH]; intros s [H1 H2]; simpl; [done|].
    apply IH. rewrite wm_step_spec by by rewrite H2. destruct y as [q [r|e]]; simpl.
    - case_decide; simpl; [by rewrite Hplace|done].
    - case_decide; simpl; [by rewrite <-H1|done]. }
  set (s := foldl wm_step s0 xs) in *. destruct Hinv as [H1 H2]. split_and!; [done|done|].
  intros y Hy. rewrite wm_step_spec by by rewrite H2. destruct y as [q [r|e]]; simpl.
  - by rewrite decide_False.
  - rewrite <-H1. destruct s; simpl in *; subst. by case_decide.
Qed.

Lemma wm_run_shows_last_committed_witness :
  let ls := [example_layer 3 9 (DmaBuf 4); example_layer 4 2 (XPixmap 6)] in
  let p := mk_placement (surface_id 4 1) (mk_rect 100 0 64 64) 12 None IDENTITY in
  let q := mk_wm_request (from_raw 8) (SurfaceRemoved (surface_id 9 1) (from_raw 1)) in
  let s := wm_run (ls, mk_last_layout []) [(q, Ok (mk_wm_response (from_raw 8) [RenderSurface p] 100));
                                           (q, Err (WmIo []))] in
  s.1 = ll_layers s.2 ∧ ls_stack_rank <$> s.1 = [9; 12].
Proof.
  intros ls p q s. split; [|vm_compute; reflexivity].
  apply (wm_run_shows_last_committed ls (mk_last_layout [])
    (q, Ok (mk_wm_response (from_raw 8) [RenderSurface p] 100)) [(q, Err (WmIo []))]).
  - apply (bool_decide_unpack _). vm_compute. exact I.
  - apply (bool_decide_unpack _). vm_compute. exact I.
Defined.

(** ** Session ticks *)

(** A fresh tick that fails has already replaced the layout the next restoring
    tick draws from, so that one fails the same way. *)
Lemma failed_tick_replaces_cache :
  let e := mk_engine headless_deterministic in
  let bad := mk_layer SURFACE_INVALID None None 0 (mk_rect 0 0 64 64) (CpuBuffer 1) region_empty
               f32_one None IDENTITY 1 ImplicitOnly in
  let good := mk_last_layout [example_layer 3 9 (DmaBuf 4)] in
  let r1 := run_session_tick e (mk_tick_request (from_raw 1) 1 (Fresh [bad])) good in
  let r2 := run_session_tick e (mk_tick_request (from_raw 1) 2 RestoreLastCommitted) r1.2 in
  is_ok (run_session_tick e (mk_tick_request (from_raw 1) 1 RestoreLastCommitted) good).1 = true ∧
  r1.1 = Err InvalidSurface ∧ r2.1 = Err InvalidSurface.
Proof. split_and!; vm_compute; reflexivity. Qed.
