(* ===== verification/Supervisor.v ===== *)
(** * Supervised processes
    ([sophia-runtime/src/supervisor/{policy,process,authority,brokers}.rs],
    [sophia-engine/src/wm.rs])

    The restart policy of supervised processes, the supervisor of one child
    process and the health observations made of it.  What the operating system
    answers ([spawn], [try_wait], [kill], [wait]) is a parameter; durations are
    nanoseconds. *)

From S2P Require Import Prelude Ids PortalPackets Errors WmLayout.
Local Open Scope Z_scope.

(** ** Restart policy *)

(** [Duration::MAX]: [u64::MAX] seconds and 999 999 999 ns. *)
Definition duration_MAX : Z := u64_MAX * 1000000000 + 999999999.
Definition duration_ok (d : Z) : Prop := 0 ≤ d ≤ duration_MAX.
Definition duration_saturating_mul (d n : Z) : Z := saturating_mul duration_MAX d n.

Record RestartPolicy : Type := mk_restart_policy {
  max_attempts : Z; initial_backoff : Z; max_backoff : Z;
}.
Definition default_restart_policy : RestartPolicy :=
  mk_restart_policy 3 0 1000000000.

Definition restart_policy_wf (p : RestartPolicy) : Prop :=
  u32_ok (max_attempts p) ∧ duration_ok (initial_backoff p) ∧ duration_ok (max_backoff p).

Inductive SupervisedProcessKind : Type :=
| WindowManager | PortalBroker | MetadataBroker | SophiaXAuthority.
#[export] Instance process_kind_eq_dec : EqDecision SupervisedProcessKind.
Proof. solve_decision. Defined.

Record SupervisorState : Type := mk_supervisor {
  sv_process : SupervisedProcessKind; sv_running : bool; sv_restart_attempts : Z;
}.
Definition supervisor_new (process : SupervisedProcessKind) : SupervisorState :=
  mk_supervisor process false 0.

Inductive SupervisorEvent : Type :=
| StartRequested | RestartRequested | ProcessExited | ProcessStarted | ProcessHealthy.
#[export] Instance supervisor_event_eq_dec : EqDecision SupervisorEvent.
Proof. solve_decision. Defined.

Inductive SupervisorCommand : Type :=
| NoCommand
| StartProcess (process : SupervisedProcessKind) (delay : Z)
| GiveUp (process : SupervisedProcessKind).
#[export] Instance supervisor_command_eq_dec : EqDecision SupervisorCommand.
Proof. solve_decision. Defined.

(** [1_u32.checked_shl(n)]: [None] when the shift is at least the width. *)
Definition u32_one_checked_shl (n : Z) : option Z :=
  if decide (n < 32) then Some (Z.shiftl 1 n) else None.

Definition next_restart_delay (attempts : Z) (policy : RestartPolicy) : option Z :=
  if decide (max_attempts policy ≤ attempts) then None
  else if decide (attempts = 0 ∨ initial_backoff policy = 0) then Some 0
  else
    let multiplier := default u32_MAX (u32_one_checked_shl (saturating_sub attempts 1)) in
    Some (Z.min (duration_saturating_mul (initial_backoff policy) multiplier)
            (max_backoff policy)).

Definition update_supervisor (state : SupervisorState) (event : SupervisorEvent)
    (policy : RestartPolicy) : SupervisorState * SupervisorCommand :=
  let process := sv_process state in
  match event with
  | StartRequested => (mk_supervisor process false 0, StartProcess process 0)
  | RestartRequested | ProcessExited =>
      match next_restart_delay (sv_restart_attempts state) policy with
      | Some delay =>
          (mk_supervisor process false (saturating_add u32_MAX (sv_restart_attempts state) 1),
           StartProcess process delay)
      | None =>
          (mk_supervisor process false (sv_restart_attempts state), GiveUp process)
      end
  | ProcessStarted => (mk_supervisor process true (sv_restart_attempts state), NoCommand)
  | ProcessHealthy => (mk_supervisor process true 0, NoCommand)
  end.

(** ** The window manager's supervisor *)

Inductive WmRestartReason : Type := IpcFailure (e : WmIpcError).
Inductive WmRuntimeAction : Type := KeepRunning | RestartWm (reason : WmRestartReason).

(** [WmTransactionUpdate::runtime_action]. *)
Definition runtime_action (u : WmTransactionUpdate) : WmRuntimeAction :=
  match wu_ipc_error u with
  | Some error => RestartWm (IpcFailure error)
  | None => KeepRunning
  end.

Definition update_wm_supervisor_from_runtime_action (state : SupervisorState)
    (action : WmRuntimeAction) (policy : RestartPolicy) : SupervisorState * SupervisorCommand :=
  match action with
  | KeepRunning => (state, NoCommand)
  | RestartWm _ => update_supervisor state RestartRequested policy
  end.

(** ** One supervised child process *)

Inductive ProcessSupervisorError : Type :=
| WrongProcess (expected actual : SupervisedProcessKind)
| AlreadyRunning (process : SupervisedProcessKind)
| SpawnFailed (process : SupervisedProcessKind) (message : list Z)
| WaitFailed (process : SupervisedProcessKind) (message : list Z).

Section process.
(** [Child], and the launch specification handed to [Command::new]. *)
Context {Child Spec : Type}.

Record ProcessSupervisor : Type := mk_process {
  ps_process : SupervisedProcessKind; ps_spec : Spec; ps_child : option Child;
}.
Definition process_new (process : SupervisedProcessKind) (spec : Spec) : ProcessSupervisor :=
  mk_process process spec None.
Definition set_child (p : ProcessSupervisor) (c : option Child) : ProcessSupervisor :=
  mk_process (ps_process p) (ps_spec p) c.

Definition ensure_process (p : ProcessSupervisor) (process : SupervisedProcessKind) :
    result unit ProcessSupervisorError :=
  if decide (process = ps_process p) then Ok tt
  else Err (WrongProcess (ps_process p) process).

(** The operating system's answers: [Command::spawn], [Child::try_wait] ([Some]
    when the child has exited), [Child::kill] and [Child::wait]. *)
Record Os : Type := mk_os {
  os_spawn : Spec → result Child (list Z);
  os_try_wait : Child → result (option Z) (list Z);
  os_kill : Child → result unit (list Z);
  os_wait : Child → result Z (list Z);
}.

(** The wait for the delay has no effect on the supervisor's state. *)
Definition start_after (os : Os) (p : ProcessSupervisor) (_delay : Z) :
    result SupervisorEvent ProcessSupervisorError * ProcessSupervisor :=
  match ps_child p with
  | Some _ => (Err (AlreadyRunning (ps_process p)), p)
  | None =>
      match os_spawn os (ps_spec p) with
      | Err m => (Err (SpawnFailed (ps_process p) m), p)
      | Ok child => (Ok ProcessStarted, set_child p (Some child))
      end
  end.

Definition process_apply (os : Os) (p : ProcessSupervisor) (command : SupervisorCommand) :
    result (option SupervisorEvent) ProcessSupervisorError * ProcessSupervisor :=
  match command with
  | NoCommand => (Ok None, p)
  | GiveUp process =>
      match ensure_process p process with
      | Err e => (Err e, p)
      | Ok _ => (Ok None, p)
      end
  | StartProcess process delay =>
      match ensure_process p process with
      | Err e => (Err e, p)
      | Ok _ =>
          match start_after os p delay with
          | (Err e, p') => (Err e, p')
          | (Ok ev, p') => (Ok (Some ev), p')
          end
      end
  end.

Definition process_poll (os : Os) (p : ProcessSupervisor) :
    result (option SupervisorEvent) ProcessSupervisorError * ProcessSupervisor :=
  match ps_child p with
  | None => (Ok None, p)
  | Some child =>
      match os_try_wait os child with
      | Ok (Some _) => (Ok (Some ProcessExited), set_child p None)
      | Ok None => (Ok None, p)
      | Err m => (Err (WaitFailed (ps_process p) m), p)
      end
  end.

(** [child.take()] comes first: the child is gone whatever happens next. *)
Definition process_terminate (os : Os) (p : ProcessSupervisor) :
    result unit ProcessSupervisorError * ProcessSupervisor :=
  match ps_child p with
  | None => (Ok tt, p)
  | Some child =>
      let p' := set_child p None in
      let wait_failed := WaitFailed (ps_process p) in
      let outcome :=
        let? exited := map_err wait_failed (os_try_wait os child) in
        let? _u := match exited with
                   | None => map_err wait_failed (os_kill os child)
                   | Some _ => Ok tt
                   end in
        let? _s := map_err wait_failed (os_wait os child) in
        Ok tt in
      (outcome, p')
  end.

(** ** The X authority's supervisor *)

(** An [AuthorityProcessHealthChanged] observation of the X authority; its
    process is fixed and its message length is 0. *)
Record HealthObservation : Type := mk_health_observation {
  ho_state : BrokerHealthState; ho_generation : Z;
}.

Record RuntimeAuthoritySupervisor : Type := mk_authority_supervisor {
  as_x_authority : ProcessSupervisor; as_generation : Z;
}.
Definition new_x_authority (spec : Spec) : RuntimeAuthoritySupervisor :=
  mk_authority_supervisor (process_new SophiaXAuthority spec) 0.

Definition health_observation (s : RuntimeAuthoritySupervisor) (state : BrokerHealthState) :
    HealthObservation * RuntimeAuthoritySupervisor :=
  let generation := u64_succ (as_generation s) in
  (mk_health_observation state generation, mk_authority_supervisor (as_x_authority s) generation).

Definition observation_from_event (s : RuntimeAuthoritySupervisor) (event : SupervisorEvent) :
    option HealthObservation * RuntimeAuthoritySupervisor :=
  match event with
  | ProcessStarted | ProcessHealthy => let '(o, s') := health_observation s BrokerReady in (Some o, s')
  | ProcessExited => let '(o, s') := health_observation s BrokerStopped in (Some o, s')
  | StartRequested | RestartRequested => (None, s)
  end.

Definition observation_from_optional_event (s : RuntimeAuthoritySupervisor)
    (event : option SupervisorEvent) : option HealthObservation * RuntimeAuthoritySupervisor :=
  match event with
  | Some event => observation_from_event s event
  | None => (None, s)
  end.

Definition authority_poll (os : Os) (s : RuntimeAuthoritySupervisor) :
    result (option SupervisorEvent * list HealthObservation) ProcessSupervisorError
    * RuntimeAuthoritySupervisor :=
  let '(r, x) := process_poll os (as_x_authority s) in
  let s := mk_authority_supervisor x (as_generation s) in
  match r with
  | Err e => (Err e, s)
  | Ok event =>
      let '(o, s) := observation_from_optional_event s event in
      (Ok (event, option_list o), s)
  end.

(** [RuntimeAuthoritySupervisor::start]: the report is [start], [poll], [observations]. *)
Definition authority_start (os : Os) (s : RuntimeAuthoritySupervisor) :
    result (option SupervisorEvent * option SupervisorEvent * list HealthObservation)
      ProcessSupervisorError * RuntimeAuthoritySupervisor :=
  let '(r, x) := process_apply os (as_x_authority s) (StartProcess SophiaXAuthority 0) in
  let s := mk_authority_supervisor x (as_generation s) in
  match r with
  | Err e => (Err e, s)
  | Ok start =>
      let '(start_observation, s) := observation_from_optional_event s start in
      let '(r, x) := process_poll os (as_x_authority s) in
      let s := mk_authority_supervisor x (as_generation s) in
      match r with
      | Err e => (Err e, s)
      | Ok poll =>
          let '(poll_observation, s) := observation_from_optional_event s poll in
          (Ok (start, poll, option_list start_observation ++ option_list poll_observation), s)
      end
  end.

Definition authority_terminate (os : Os) (s : RuntimeAuthoritySupervisor) :
    result HealthObservation ProcessSupervisorError * RuntimeAuthoritySupervisor :=
  let '(r, x) := process_terminate os (as_x_authority s) in
  let s := mk_authority_supervisor x (as_generation s) in
  match r with
  | Err e => (Err e, s)
  | Ok _ => let '(o, s) := health_observation s BrokerStopped in (Ok o, s)
  end.

(** ** Calls made of the X authority's supervisor *)

Inductive AuthorityCall : Type := CallStart (os : Os) | CallPoll (os : Os) | CallTerminate (os : Os).

(** The observations one call reports, and the supervisor it leaves. *)
Definition authority_call (s : RuntimeAuthoritySupervisor) (c : AuthorityCall) :
    list HealthObservation * RuntimeAuthoritySupervisor :=
  match c with
  | CallStart os =>
      let '(r, s') := authority_start os s in
      (match r with Ok (_, _, os) => os | Err _ => [] end, s')
  | CallPoll os =>
      let '(r, s') := authority_poll os s in
      (match r with Ok (_, os) => os | Err _ => [] end, s')
  | CallTerminate os =>
      let '(r, s') := authority_terminate os s in
      (match r with Ok o => [o] | Err _ => [] end, s')
  end.

Fixpoint authority_calls (s : RuntimeAuthoritySupervisor) (cs : list AuthorityCall) :
    list HealthObservation * RuntimeAuthoritySupervisor :=
  match cs with
  | [] => ([], s)
  | c :: cs =>
      let '(os, s1) := authority_call s c in
      let '(rest, s2) := authority_calls s1 cs in
      (os ++ rest, s2)
  end.

End process.
Arguments ProcessSupervisor : clear implicits.
Arguments RuntimeAuthoritySupervisor : clear implicits.
Arguments Os : clear implicits.
Arguments AuthorityCall : clear implicits.

(** ** Both brokers *)

Section brokers.
Context {Child Spec : Type}.

Record RuntimeBrokerSupervisors : Type := mk_broker_supervisors {
  bs_portal : ProcessSupervisor Child Spec; bs_metadata : ProcessSupervisor Child Spec;
}.
Definition brokers_new (portal_spec metadata_spec : Spec) : RuntimeBrokerSupervisors :=
  mk_broker_supervisors (process_new PortalBroker portal_spec)
    (process_new MetadataBroker metadata_spec).

Definition brokers_poll_all (os : Os Child Spec) (b : RuntimeBrokerSupervisors) :
    result (option SupervisorEvent * option SupervisorEvent) ProcessSupervisorError
    * RuntimeBrokerSupervisors :=
  let '(r1, portal) := process_poll os (bs_portal b) in
  match r1 with
  | Err e => (Err e, mk_broker_supervisors portal (bs_metadata b))
  | Ok e1 =>
      let '(r2, metadata) := process_poll os (bs_metadata b) in
      (match r2 with Err e => Err e | Ok e2 => Ok (e1, e2) end,
       mk_broker_supervisors portal metadata)
  end.

Definition brokers_terminate_all (os : Os Child Spec) (b : RuntimeBrokerSupervisors) :
    result unit ProcessSupervisorError * RuntimeBrokerSupervisors :=
  let '(r1, portal) := process_terminate os (bs_portal b) in
  match r1 with
  | Err e => (Err e, mk_broker_supervisors portal (bs_metadata b))
  | Ok _ =>
      let '(r2, metadata) := process_terminate os (bs_metadata b) in
      (r2, mk_broker_supervisors portal metadata)
  end.

Definition start_placeholders (os : Os Child Spec) (b : RuntimeBrokerSupervisors) :
    result (option SupervisorEvent * option SupervisorEvent
            * option SupervisorEvent * option SupervisorEvent) ProcessSupervisorError
    * RuntimeBrokerSupervisors :=
  let '(r1, portal) := process_apply os (bs_portal b) (StartProcess PortalBroker 0) in
  match r1 with
  | Err e => (Err e, mk_broker_supervisors portal (bs_metadata b))
  | Ok portal_start =>
      let '(r2, metadata) := process_apply os (bs_metadata b) (StartProcess MetadataBroker 0) in
      match r2 with
      | Err e => (Err e, mk_broker_supervisors portal metadata)
      | Ok metadata_start =>
          let '(r3, b) := brokers_poll_all os (mk_broker_supervisors portal metadata) in
          (match r3 with
           | Err e => Err e
           | Ok (portal_poll, metadata_poll) =>
               Ok (portal_start, metadata_start, portal_poll, metadata_poll)
           end, b)
      end
  end.

End brokers.
Arguments RuntimeBrokerSupervisors : clear implicits.

(** ** Runs of the restart policy *)

Fixpoint supervise (policy : RestartPolicy) (s : SupervisorState) (events : list SupervisorEvent) :
    list SupervisorCommand * SupervisorState :=
  match events with
  | [] => ([], s)
  | e :: events =>
      let '(s1, c) := update_supervisor s e policy in
      let '(cs, s2) := supervise policy s1 events in
      (c :: cs, s2)
  end.

(** The events that ask for a restart, and those that refill the budget. *)
Definition is_failure (e : SupervisorEvent) : Prop := e = RestartRequested ∨ e = ProcessExited.
Definition is_refill (e : SupervisorEvent) : Prop := e = StartRequested ∨ e = ProcessHealthy.
#[export] Instance is_failure_dec e : Decision (is_failure e).
Proof. unfold is_failure; apply _. Defined.
#[export] Instance is_refill_dec e : Decision (is_refill e).
Proof. unfold is_refill; apply _. Defined.

(** The specification of the delay before restart [n]: exponential from the
    second one on, the factor capped at [u32::MAX], the delay at [max_backoff]. *)
Definition backoff (policy : RestartPolicy) (n : Z) : Z :=
  if decide (n = 0) then 0
  else Z.min (initial_backoff policy * Z.min (2 ^ (n - 1)) u32_MAX) (max_backoff policy).

Lemma next_restart_delay_spec policy n :
  restart_policy_wf policy → u32_ok n →
  next_restart_delay n policy =
    if decide (n < max_attempts policy) then Some (backoff policy n) else None.
Proof.
  intros (_&[Hi0 _]&[Hm0 Hm]) Hn. unfold next_restart_delay, backoff.
  destruct (decide (max_attempts policy ≤ n)), (decide (n < max_attempts policy)); try lia; [done|].
  destruct (decide (n = 0)) as [->|Hne].
  { by rewrite decide_True by auto. }
  destruct (decide (initial_backoff policy = 0)) as [->|].
  { rewrite decide_True by auto. f_equal. lia. }
  rewrite decide_False by tauto. cbv zeta. f_equal.
  assert (default u32_MAX (u32_one_checked_shl (saturating_sub n 1)) = Z.min (2 ^ (n - 1)) u32_MAX)
    as ->.
  { unfold u32_one_checked_shl, saturating_sub. rewrite Z.max_l by word_lia. case_decide; simpl.
    - rewrite Z.shiftl_1_l, Z.min_l; [done|].
      transitivity (2 ^ 31); [apply Z.pow_le_mono_r; lia|word_lia].
    - rewrite Z.min_r; [done|]. transitivity (2 ^ 32); [word_lia|apply Z.pow_le_mono_r; lia]. }
  unfold duration_saturating_mul, saturating_mul. lia.
Qed.

Lemma backoff_mono policy n m :
  restart_policy_wf policy → 0 ≤ n ≤ m → 0 ≤ backoff policy n ≤ backoff policy m
                                          ∧ backoff policy m ≤ max_backoff policy.
Proof.
  intros (_&[Hi _]&[Hm _]) Hnm. unfold backoff. do 2 case_decide; try lia.
  - assert (0 < 2 ^ (m - 1)) by (apply Z.pow_pos_nonneg; lia).
    assert (0 ≤ Z.min (2 ^ (m - 1)) u32_MAX) by word_lia.
    nia.
  - assert (0 < 2 ^ (n - 1)) by (apply Z.pow_pos_nonneg; lia).
    assert (2 ^ (n - 1) ≤ 2 ^ (m - 1)) by (apply Z.pow_le_mono_r; lia).
    assert (0 ≤ Z.min (2 ^ (n - 1)) u32_MAX ≤ Z.min (2 ^ (m - 1)) u32_MAX) by word_lia.
    nia.
Qed.

(** The commands of [f] failures when [n] restarts have been used. *)
Definition restart_plan (policy : RestartPolicy) (process : SupervisedProcessKind) (n : Z) (f : nat) :
    list SupervisorCommand :=
  let budget := Z.to_nat (max_attempts policy - n) in
  (StartProcess process <$> (backoff policy <$> seqZ n (Z.of_nat (f `min` budget))))
  ++ replicate (f - budget) (GiveUp process).

Lemma restart_plan_step policy process n f :
  restart_policy_wf policy → u32_ok n →
  restart_plan policy process n (S f) =
    if decide (n < max_attempts policy)
    then StartProcess process (backoff policy n) :: restart_plan policy process (n + 1) f
    else GiveUp process :: restart_plan policy process n f.
Proof.
  intros _ _. unfold restart_plan. case_decide.
  - replace (Z.to_nat (max_attempts policy - n)) with (S (Z.to_nat (max_attempts policy - (n + 1)))) by lia.
    rewrite seqZ_cons by lia. cbn [fmap list_fmap]. simpl.
    replace (Z.pred _) with (Z.of_nat (f `min` Z.to_nat (max_attempts policy - (n + 1)))) by lia.
    done.
  - replace (Z.to_nat (max_attempts policy - n)) with 0%nat by lia.
    rewrite Nat.min_0_r, Nat.sub_0_r, Nat.min_0_r, Nat.sub_0_r. done.
Qed.

(** While nothing refills the budget. *)
Lemma supervise_unfilled (policy : RestartPolicy) (s : SupervisorState) (events : list SupervisorEvent) :
  restart_policy_wf policy → u32_ok (sv_restart_attempts s) →
  Forall (λ e, ¬ is_refill e) events →
  let n := sv_restart_attempts s in
  let f := length (filter is_failure events) in
  let '(commands, s') := supervise policy s events in
  filter (λ c, c ≠ NoCommand) commands = restart_plan policy (sv_process s) n f
  ∧ sv_restart_attempts s' = n + Z.min (Z.of_nat f) (Z.max 0 (max_attempts policy - n))
  ∧ sv_process s' = sv_process s.
Proof.
  intros Hwf Hn Hev. cbv zeta. revert s Hn. induction Hev as [|e events He Hev IH]; intros s Hn.
  { simpl. unfold restart_plan. simpl. split; [done|]. split; [lia|done]. }
  destruct s as [proc running n]. simpl in Hn.
  destruct e; [by destruct He; left| | | |by destruct He; right];
    cbn [supervise update_supervisor sv_process sv_restart_attempts].
  3: { specialize (IH (mk_supervisor proc true n) Hn). simpl in IH.
       destruct (supervise _ _ events) as [cs s']. exact IH. }
  all: rewrite next_restart_delay_spec by done;
    rewrite (filter_cons_True is_failure) by (unfold is_failure; auto); cbn [length];
    rewrite restart_plan_step by done; destruct (decide (n < max_attempts policy)) as [Hlt|Hge].
  all: pose proof (proj1 Hwf) as Hmax.
  all: first [replace (saturating_add u32_MAX n 1) with (n + 1) by (unfold saturating_add; word_lia); specialize (IH (mk_supervisor proc false (n + 1)))
             |specialize (IH (mk_supervisor proc false n))]; simpl in IH;
    specialize (IH ltac:(word_lia));
    destruct (supervise _ _ events) as [cs s'];
    rewrite filter_cons_True by done; destruct IH as (->&->&->); split; [done|]; split; [lia|done].
Qed.
Lemma supervise_app policy s l k :
  supervise policy s (l ++ k) =
    let '(c1, s1) := supervise policy s l in let '(c2, s2) := supervise policy s1 k in (c1 ++ c2, s2).
Proof.
  revert s. induction l as [|e l IH]; intros s; simpl; [by destruct (supervise policy s k)|].
  destruct (update_supervisor s e policy) as [s1 c]. rewrite IH. destruct (supervise policy s1 l) as [c1 s2].
  by destruct (supervise policy s2 k).
Qed.
Lemma supervise_keeps policy s l :
  restart_policy_wf policy → u32_ok (sv_restart_attempts s) →
  u32_ok (sv_restart_attempts (supervise policy s l).2) ∧ sv_process (supervise policy s l).2 = sv_process s.
Proof.
  intros Hwf. revert s. induction l as [|e l IH]; intros s Hs; [done|]. simpl.
  assert (u32_ok (sv_restart_attempts (update_supervisor s e policy).1) ∧ sv_process (update_supervisor s e policy).1 = sv_process s)
    as [H1 <-].
  { destruct e; simpl; try (split; [word_lia|done]); (destruct (next_restart_delay _ _); (split; [|done]); simpl; [|done]);
      unfold saturating_add; word_lia. }
  specialize (IH _ H1). destruct (update_supervisor s e policy) as [s1 c]. simpl in *. by destruct (supervise policy s1 l).
Qed.

(** C34: restarts are bounded and back off.  A start request and a report that the
    process is healthy give it its whole budget back, whatever happened before.
    From any moment of any history on, while neither happens, the commands of a
    supervisor are, in order: one restart per failure, after the exponential
    delays of [backoff], until [max_attempts] restarts were made since the budget
    was refilled, and then giving up on every further failure.  The delays never
    decrease and never exceed [max_backoff], and the state counts exactly the
    restarts made.  (A process that gets healthy before each of its failures is
    restarted every time.) *)
Theorem restart_budget (policy : RestartPolicy) (s0 : SupervisorState) (earlier events : list SupervisorEvent) :
  restart_policy_wf policy → u32_ok (sv_restart_attempts s0) →
  Forall (λ e, ¬ is_refill e) events →
  let '(before, s) := supervise policy s0 earlier in
  let n := sv_restart_attempts s in
  let f := length (filter is_failure events) in
  (∀ e, last earlier = Some e → is_refill e → n = 0) ∧
  ∃ commands s', supervise policy s0 (earlier ++ events) = (before ++ commands, s')
  ∧ filter (λ c, c ≠ NoCommand) commands = restart_plan policy (sv_process s0) n f
  ∧ sv_restart_attempts s' = n + Z.min (Z.of_nat f) (Z.max 0 (max_attempts policy - n))
  ∧ sv_process s' = sv_process s0
  ∧ (∀ i j, n ≤ i ≤ j → 0 ≤ backoff policy i ≤ backoff policy j
                       ∧ backoff policy j ≤ max_backoff policy).
Proof.
  intros Hwf H0 Hev. pose proof (supervise_keeps policy s0 earlier Hwf H0) as [Hn Hp]. rewrite supervise_app.
  destruct (supervise policy s0 earlier) as [before s] eqn:E. cbv zeta. simpl in Hn, Hp. split.
  - intros e Hl He. apply last_Some in Hl as [l' ->]. rewrite supervise_app in E. destruct (supervise policy s0 l') as [c1 s1].
    simpl in E. destruct He as [->| ->]; simpl in E; by simplify_eq.
  - pose proof (supervise_unfilled policy s events Hwf Hn Hev) as Hs. destruct (supervise policy s events) as [commands s'].
    rewrite Hp in Hs. destruct Hs as (H1 & H2 & H3). exists commands, s'. split_and!; try done.
    intros i j Hij. apply backoff_mono; [done|word_lia].
Qed.

Definition restart_budget_events : list SupervisorEvent :=
  [ProcessStarted; ProcessExited; ProcessStarted; ProcessExited; RestartRequested; ProcessExited].
Lemma restart_budget_witness :
  let policy := mk_restart_policy 3 100 250 in
  let s := supervisor_new WindowManager in
  let earlier := [StartRequested; ProcessStarted; ProcessExited; ProcessStarted; ProcessHealthy] in
  ∃ commands s',
  supervise policy s (earlier ++ restart_budget_events) =
    ([StartProcess WindowManager 0; NoCommand; StartProcess WindowManager 0; NoCommand; NoCommand] ++ commands, s')
  ∧ filter (λ c, c ≠ NoCommand) commands =
    [StartProcess WindowManager 0; StartProcess WindowManager 100; StartProcess WindowManager 200;
     GiveUp WindowManager]
  ∧ sv_restart_attempts s' = 3.
Proof.
  intros policy s earlier. assert (Forall (λ e, ¬ is_refill e) restart_budget_events) as Hev
    by (apply (bool_decide_unpack _); vm_compute; exact I).
  pose proof (restart_budget policy s earlier
    restart_budget_events ltac:(unfold restart_policy_wf, duration_ok, duration_MAX; cbn; word_lia)
    ltac:(cbn; word_lia) Hev) as H.
  assert (supervise policy s earlier =
    ([StartProcess WindowManager 0; NoCommand; StartProcess WindowManager 0; NoCommand; NoCommand],
     mk_supervisor WindowManager true 0)) as E by (vm_compute; reflexivity).
  rewrite E in H. destruct H as (_ & commands & s' & Hs & Hc & Ha & _). exists commands, s'.
  split; [exact Hs|]. rewrite Hc, Ha. split; vm_compute; reflexivity.
Defined.

(** ** Observations of the X authority *)

Section process_lemmas.
Context {Child Spec : Type}.
Implicit Types (s : RuntimeAuthoritySupervisor Child Spec) (p : ProcessSupervisor Child Spec).

(** Generations observed between two supervisor states. *)
Definition fresher (g : Z) (os : list HealthObservation) (g' : Z) : Prop :=
  g ≤ g' ∧ u64_ok g'
  ∧ StronglySorted Z.le (ho_generation <$> os)
  ∧ Forall (λ o, g ≤ ho_generation o ≤ g') os
  ∧ (g' < u64_MAX → StronglySorted Z.lt (ho_generation <$> os)
                   ∧ Forall (λ o, g < ho_generation o) os).

Lemma fresher_nil g : u64_ok g → fresher g [] g.
Proof. intros. repeat split; (constructor || word_lia). Qed.

Lemma fresher_one g st : u64_ok g → fresher g [mk_health_observation st (u64_succ g)] (u64_succ g).
Proof.
  intros. pose proof (u64_succ_ge g). pose proof (u64_succ_ok g).
  pose proof (u64_succ_lt g). repeat split; repeat constructor; simpl; try word_lia.
  all: unfold u64_succ, saturating_add in *; word_lia.
Qed.

Lemma fresher_skip g g1 os g' : g ≤ g1 → fresher g1 os g' → fresher g os g'.
Proof.
  intros ? (?&?&?&HF&Hs). split; [lia|]. split; [done|]. split; [done|].
  split; [eapply Forall_impl; [done|]; simpl; lia|].
  intros Hlt. destruct (Hs Hlt) as [? HF']. split; [done|].
  eapply Forall_impl; [done|]. simpl. lia.
Qed.

Lemma StronglySorted_app_le (R : relation Z) (l1 l2 : list Z) :
  StronglySorted R l1 → StronglySorted R l2 → (∀ x y, x ∈ l1 → y ∈ l2 → R x y) →
  StronglySorted R (l1 ++ l2).
Proof.
  intros H1 H2 HR. induction H1 as [|x l1 H1 IH HF]; [done|]. simpl. constructor.
  - apply IH. intros. apply HR; [by right|done].
  - apply Forall_app. split; [done|]. apply Forall_forall. intros y Hy. apply HR; [left|done].
Qed.

Lemma fresher_app g os1 g1 os2 g2 :
  fresher g os1 g1 → fresher g1 os2 g2 → fresher g (os1 ++ os2) g2.
Proof.
  intros (?&?&S1&F1&L1) (?&?&S2&F2&L2). rewrite !Forall_forall in *.
  split; [lia|]. split; [done|]. rewrite fmap_app. split; [|split].
  - apply StronglySorted_app_le; [done..|].
    intros x y (o1&->&?)%list_elem_of_fmap (o2&->&?)%list_elem_of_fmap.
    specialize (F1 o1). specialize (F2 o2). naive_solver lia.
  - rewrite Forall_app, !Forall_forall. split; intros o Ho.
    + specialize (F1 o Ho). simpl in *. lia.
    + specialize (F2 o Ho). simpl in *. lia.
  - intros Hlt. destruct (L1 ltac:(lia)) as [S1' F1'], (L2 Hlt) as [S2' F2'].
    rewrite !Forall_forall in *. split.
    + apply StronglySorted_app_le; [done..|].
      intros x y (o1&->&?)%list_elem_of_fmap (o2&->&?)%list_elem_of_fmap.
      specialize (F1 o1). specialize (F2' o2). naive_solver lia.
    + intros o [Ho|Ho]%elem_of_app; [by apply F1'|]. specialize (F2' o Ho). simpl in *. lia.
Qed.

Lemma observation_from_optional_event_fresher s e :
  u64_ok (as_generation s) →
  let '(o, s') := observation_from_optional_event s e in
  fresher (as_generation s) (option_list o) (as_generation s').
Proof.
  intros Hg. destruct e as [[]|]; simpl; auto using fresher_nil, fresher_one.
Qed.

Lemma authority_call_fresher s c :
  u64_ok (as_generation s) →
  let '(os, s') := authority_call s c in fresher (as_generation s) os (as_generation s').
Proof.
  intros Hg. destruct c as [os|os|os]; unfold authority_call.
  - unfold authority_start. destruct (process_apply _ _ _) as [[start|] x]; [|by apply fresher_nil].
    pose proof (observation_from_optional_event_fresher
      (mk_authority_supervisor x (as_generation s)) start Hg) as H1.
    destruct (observation_from_optional_event _ start) as [o1 s1].
    destruct (process_poll os _) as [[poll|] x2].
    + pose proof (observation_from_optional_event_fresher
        (mk_authority_supervisor x2 (as_generation s1)) poll ltac:(apply H1)) as H2.
      destruct (observation_from_optional_event _ poll) as [o2 s2].
      simpl in *. by eapply fresher_app.
    + simpl in *. eapply fresher_skip; [apply H1|]. apply fresher_nil, H1.
  - unfold authority_poll. destruct (process_poll os _) as [[poll|] x2]; [|by apply fresher_nil].
    pose proof (observation_from_optional_event_fresher
      (mk_authority_supervisor x2 (as_generation s)) poll Hg) as H2.
    by destruct (observation_from_optional_event _ poll) as [o2 s2].
  - unfold authority_terminate. destruct (process_terminate os _) as [[|] x2].
    + by apply fresher_one.
    + by apply fresher_nil.
Qed.

Lemma authority_calls_fresher s cs :
  u64_ok (as_generation s) →
  let '(os, s') := authority_calls s cs in fresher (as_generation s) os (as_generation s').
Proof.
  revert s. induction cs as [|c cs IH]; intros s Hg; simpl; [by apply fresher_nil|].
  pose proof (authority_call_fresher s c Hg) as H1. destruct (authority_call s c) as [os1 s1].
  specialize (IH s1 ltac:(apply H1)). destruct (authority_calls s1 cs) as [os2 s2].
  by eapply fresher_app.
Qed.

End process_lemmas.

(** ** The child of a process supervisor *)

Inductive ProcessCall (Child Spec : Type) : Type :=
| PApply (os : Os Child Spec) (command : SupervisorCommand)
| PPoll (os : Os Child Spec)
| PTerminate (os : Os Child Spec).
Arguments PApply {Child Spec} os command.
Arguments PPoll {Child Spec} os.
Arguments PTerminate {Child Spec} os.

(** What a call did to the child: it came to life, or it went. *)
Inductive ChildChange : Type := Born | Gone.

Definition process_call {Child Spec} (p : ProcessSupervisor Child Spec) (c : ProcessCall Child Spec) :
    option ChildChange * ProcessSupervisor Child Spec :=
  match c with
  | PApply os command =>
      let '(r, p') := process_apply os p command in
      (match r with Ok (Some ProcessStarted) => Some Born | _ => None end, p')
  | PPoll os =>
      let '(r, p') := process_poll os p in
      (match r with Ok (Some ProcessExited) => Some Gone | _ => None end, p')
  | PTerminate os =>
      (* [terminate] takes the child before anything can fail *)
      (if ps_child p is Some _ then Some Gone else None, (process_terminate os p).2)
  end.

Fixpoint process_calls {Child Spec} (p : ProcessSupervisor Child Spec)
    (cs : list (ProcessCall Child Spec)) : list ChildChange * ProcessSupervisor Child Spec :=
  match cs with
  | [] => ([], p)
  | c :: cs =>
      let '(o, p1) := process_call p c in
      let '(rest, p2) := process_calls p1 cs in
      (option_list o ++ rest, p2)
  end.

(** [Born] and [Gone] alternate, from a supervisor that has ([alive]) a child or not. *)
Fixpoint alternates (alive : bool) (l : list ChildChange) (alive' : bool) : Prop :=
  match l with
  | [] => alive' = alive
  | Born :: l => alive = false ∧ alternates true l alive'
  | Gone :: l => alive = true ∧ alternates false l alive'
  end.

Definition has_child {Child Spec} (p : ProcessSupervisor Child Spec) : bool :=
  if ps_child p is Some _ then true else false.

Lemma process_call_spec {Child Spec} (p : ProcessSupervisor Child Spec) c :
  let '(o, p') := process_call p c in
  alternates (has_child p) (option_list o) (has_child p')
  ∧ ps_process p' = ps_process p ∧ ps_spec p' = ps_spec p.
Proof.
  destruct p as [proc spec child], c as [os [|proc' d|proc']|os|os]; unfold has_child; simpl.
  - done.
  - unfold process_apply, ensure_process, start_after; simpl.
    case_decide; [|done]. destruct child; [done|]. by destruct (os_spawn os spec).
  - unfold process_apply, ensure_process; simpl. by case_decide.
  - unfold process_poll; simpl. destruct child as [c|]; [|done].
    by destruct (os_try_wait os c) as [[]|].
  - unfold process_terminate; simpl. by destruct child.
Qed.

(** At most one child.  In every run of a process supervisor, whatever the
    operating system answers and whatever commands it is given, a child is
    spawned only while there is none, each [ProcessStarted] is followed by at
    most one exit or termination before the next one, the supervisor holds a
    child exactly when the last change was a start, and it keeps the process
    kind and launch specification it was made with. *)
Theorem one_child_at_a_time (Child Spec : Type) (process : SupervisedProcessKind) (spec : Spec)
    (calls : list (ProcessCall Child Spec)) :
  let '(changes, p') := process_calls (process_new process spec) calls in
  alternates false changes (has_child p')
  ∧ ps_process p' = process ∧ ps_spec p' = spec.
Proof.
  change process with (ps_process (@process_new Child _ process spec)) at 2.
  change spec with (ps_spec (@process_new Child _ process spec)) at 3.
  change false with (has_child (@process_new Child _ process spec)).
  generalize (@process_new Child _ process spec) as p.
  induction calls as [|c calls IH]; intros p; simpl; [done|].
  pose proof (process_call_spec p c) as H1. destruct (process_call p c) as [o p1].
  destruct H1 as (H1&H2&H3).
  specialize (IH p1). destruct (process_calls p1 calls) as [rest p2]. destruct IH as (IH&->&->).
  split; [|done]. destruct o as [[]|]; simpl in *; [| |congruence].
  - destruct H1 as [? <-]. done.
  - destruct H1 as [? <-]. done.
Qed.
