(* ===== verification/Session.v ===== *)
(** * The session runtime
    ([sophia-runtime/src/session/{types,reducer,observation,loop_}.rs])

    The reducer of session events, the validation of observation batches and the
    loop that folds one over the other. *)

From S2P Require Import Prelude Ids Packets PortalPackets Errors Supervisor.
Local Open Scope Z_scope.

(** ** State, events, commands *)

Inductive SessionRuntimePhase : Type :=
| Idle | PollingX | ApplyingWmPolicy | WaitingForFrame | RenderingPhase | SubmittingScanout
| DrainingPortals | PresentingChrome.
#[export] Instance phase_eq_dec : EqDecision SessionRuntimePhase.
Proof. solve_decision. Defined.

Inductive RuntimeScanoutState : Type :=
| ScanoutSubmitted | ScanoutDeferred | ScanoutRetired | ScanoutRejected.
#[export] Instance scanout_state_eq_dec : EqDecision RuntimeScanoutState.
Proof. solve_decision. Defined.

Record RuntimeBrokerHealth : Type := mk_runtime_broker_health {
  rb_state : BrokerHealthState; rb_generation : Z; rb_status_message_len : Z;
}.
Record RuntimeAuthorityHealth : Type := mk_runtime_authority_health {
  ra_process : SupervisedProcessKind; ra_state : BrokerHealthState; ra_generation : Z;
  ra_status_message_len : Z;
}.

(** The fields of [SessionRuntimeState], in two groups: those the tick cycle
    writes and those the telemetry events write. *)
Record CycleState : Type := mk_cycle {
  phase : SessionRuntimePhase; x_events_polled : Z; frames_rendered : Z;
  scanout_submissions : Z; scanout_retirements : Z; scanout_rejections : Z;
  in_flight_scanouts : Z; portal_commands_drained : Z; chrome_commands_presented : Z;
  wm_restart_requests : Z; last_frame_serial : option Z; last_scanout_frame_serial : option Z;
  last_scanout_state : option RuntimeScanoutState;
}.
Record TelemetryState : Type := mk_telemetry {
  authority_transactions_committed : Z; authority_transactions_rejected : Z;
  authority_transactions_timed_out : Z; authority_surfaces_applied : Z;
  slow_client_timeouts : Z; slow_client_preserved : Z; slow_client_degraded : Z;
  portal_broker_health : option RuntimeBrokerHealth;
  metadata_broker_health : option RuntimeBrokerHealth;
  x_authority_health : option RuntimeAuthorityHealth;
}.
Record SessionRuntimeState : Type := mk_session { cycle : CycleState; telemetry : TelemetryState }.

Definition session_default : SessionRuntimeState :=
  mk_session (mk_cycle Idle 0 0 0 0 0 0 0 0 0 None None None)
    (mk_telemetry 0 0 0 0 0 0 0 None None None).

Inductive SessionRuntimeEvent : Type :=
| TickStarted
| XEventsPolled (count : Z)
| WmLayoutReady
| WmRestartRequested
| FrameScheduled (frame_serial : Z)
| FrameRendered (frame_serial : Z)
| ScanoutStateChanged (state : RuntimeScanoutState) (frame_serial : option Z)
| PortalCommandsReady (count : Z)
| ChromeCommandsReady (count : Z)
| BrokerHealthChanged (broker : BrokerKind) (state : BrokerHealthState)
    (generation status_message_len : Z)
| AuthorityProcessHealthChanged (process : SupervisedProcessKind) (state : BrokerHealthState)
    (generation status_message_len : Z)
| AuthorityTransactionObserved (outcome : TransactionOutcome) (applied_surface_count : Z)
| SlowClientVisualDecisionsObserved (timeout_count preserved_count degraded_count : Z)
| TickCompleted.

Inductive SessionRuntimeCommand : Type :=
| CmdNone | PollXEvents | RequestWmLayout | ScheduleFrame | RenderFrame (frame_serial : Z)
| SubmitScanout (frame_serial : Z) | DrainPortalCommands | PresentChrome | RestartWindowManager.
#[export] Instance session_command_eq_dec : EqDecision SessionRuntimeCommand.
Proof. solve_decision. Defined.

(** ** The reducer *)

Definition u64_add (a b : Z) : Z := saturating_add u64_MAX a b.

Definition accepts_broker_health (current : option RuntimeBrokerHealth) (generation : Z) : Prop :=
  match current with Some health => rb_generation health ≤ generation | None => True end.
Definition accepts_authority_health (current : option RuntimeAuthorityHealth) (generation : Z) : Prop :=
  match current with Some health => ra_generation health ≤ generation | None => True end.
#[export] Instance accepts_broker_health_dec c g : Decision (accepts_broker_health c g).
Proof. destruct c; simpl; apply _. Defined.
#[export] Instance accepts_authority_health_dec c g : Decision (accepts_authority_health c g).
Proof. destruct c; simpl; apply _. Defined.

(** Writes to the fields. *)
Definition set_phase (s : SessionRuntimeState) (p : SessionRuntimePhase) : SessionRuntimeState :=
  let '(mk_session (mk_cycle _ xe fr ss sr sj inf pc cc wr lf lsf lss) t) := s in
  mk_session (mk_cycle p xe fr ss sr sj inf pc cc wr lf lsf lss) t.
Definition add_x_events (s : SessionRuntimeState) (n : Z) : SessionRuntimeState :=
  let '(mk_session (mk_cycle p xe fr ss sr sj inf pc cc wr lf lsf lss) t) := s in
  mk_session (mk_cycle p (u64_add xe n) fr ss sr sj inf pc cc wr lf lsf lss) t.
Definition add_wm_restart (s : SessionRuntimeState) : SessionRuntimeState :=
  let '(mk_session (mk_cycle p xe fr ss sr sj inf pc cc wr lf lsf lss) t) := s in
  mk_session (mk_cycle p xe fr ss sr sj inf pc cc (u64_add wr 1) lf lsf lss) t.
Definition add_frame (s : SessionRuntimeState) (serial : Z) : SessionRuntimeState :=
  let '(mk_session (mk_cycle p xe fr ss sr sj inf pc cc wr lf lsf lss) t) := s in
  mk_session (mk_cycle p xe (u64_add fr 1) ss sr sj inf pc cc wr (Some serial) lsf lss) t.
Definition add_portal_commands (s : SessionRuntimeState) (n : Z) : SessionRuntimeState :=
  let '(mk_session (mk_cycle p xe fr ss sr sj inf pc cc wr lf lsf lss) t) := s in
  mk_session (mk_cycle p xe fr ss sr sj inf (u64_add pc n) cc wr lf lsf lss) t.
Definition add_chrome_commands (s : SessionRuntimeState) (n : Z) : SessionRuntimeState :=
  let '(mk_session (mk_cycle p xe fr ss sr sj inf pc cc wr lf lsf lss) t) := s in
  mk_session (mk_cycle p xe fr ss sr sj inf pc (u64_add cc n) wr lf lsf lss) t.
Definition record_scanout (s : SessionRuntimeState) (state : RuntimeScanoutState)
    (frame_serial : option Z) : SessionRuntimeState :=
  let '(mk_session (mk_cycle p xe fr ss sr sj inf pc cc wr lf lsf lss) t) := s in
  let '(ss, sr, sj, inf) :=
    match state with
    | ScanoutSubmitted => (u64_add ss 1, sr, sj, u64_add inf 1)
    | ScanoutDeferred => (ss, sr, sj, inf)
    | ScanoutRetired => (ss, u64_add sr 1, sj, saturating_sub inf 1)
    | ScanoutRejected => (ss, sr, u64_add sj 1, saturating_sub inf 1)
    end in
  mk_session (mk_cycle p xe fr ss sr sj inf pc cc wr lf frame_serial (Some state)) t.
Definition set_portal_health (s : SessionRuntimeState) (h : RuntimeBrokerHealth) : SessionRuntimeState :=
  let '(mk_session c (mk_telemetry ac ar at_ aa st sp sd ph mh xh)) := s in
  mk_session c (mk_telemetry ac ar at_ aa st sp sd (Some h) mh xh).
Definition set_metadata_health (s : SessionRuntimeState) (h : RuntimeBrokerHealth) : SessionRuntimeState :=
  let '(mk_session c (mk_telemetry ac ar at_ aa st sp sd ph mh xh)) := s in
  mk_session c (mk_telemetry ac ar at_ aa st sp sd ph (Some h) xh).
Definition set_authority_health (s : SessionRuntimeState) (h : RuntimeAuthorityHealth) :
    SessionRuntimeState :=
  let '(mk_session c (mk_telemetry ac ar at_ aa st sp sd ph mh xh)) := s in
  mk_session c (mk_telemetry ac ar at_ aa st sp sd ph mh (Some h)).
Definition add_authority_transaction (s : SessionRuntimeState) (outcome : TransactionOutcome)
    (surfaces : Z) : SessionRuntimeState :=
  let '(mk_session c (mk_telemetry ac ar at_ aa st sp sd ph mh xh)) := s in
  let '(ac, ar, at_) :=
    match outcome with
    | Committed => (u64_add ac 1, ar, at_)
    | TimedOut => (ac, ar, u64_add at_ 1)
    | RejectedStaleSurface | RejectedInvalidSurface => (ac, u64_add ar 1, at_)
    end in
  mk_session c (mk_telemetry ac ar at_ (u64_add aa surfaces) st sp sd ph mh xh).
Definition add_slow_client (s : SessionRuntimeState) (timeouts preserved degraded : Z) :
    SessionRuntimeState :=
  let '(mk_session c (mk_telemetry ac ar at_ aa st sp sd ph mh xh)) := s in
  mk_session c (mk_telemetry ac ar at_ aa (u64_add st timeouts) (u64_add sp preserved)
    (u64_add sd degraded) ph mh xh).

Definition update_session_runtime (state : SessionRuntimeState) (event : SessionRuntimeEvent) :
    SessionRuntimeState * SessionRuntimeCommand :=
  match event with
  | TickStarted => (set_phase state PollingX, PollXEvents)
  | XEventsPolled count =>
      let state := add_x_events state count in
      if decide (count = 0) then (set_phase state WaitingForFrame, ScheduleFrame)
      else (set_phase state ApplyingWmPolicy, RequestWmLayout)
  | WmLayoutReady => (set_phase state WaitingForFrame, ScheduleFrame)
  | WmRestartRequested => (set_phase (add_wm_restart state) ApplyingWmPolicy, RestartWindowManager)
  | FrameScheduled frame_serial => (set_phase state RenderingPhase, RenderFrame frame_serial)
  | FrameRendered frame_serial =>
      (set_phase (add_frame state frame_serial) SubmittingScanout, SubmitScanout frame_serial)
  | ScanoutStateChanged scanout_state frame_serial =>
      let answering_submit := decide (phase (cycle state) = SubmittingScanout) in
      let state := record_scanout state scanout_state frame_serial in
      if answering_submit then (set_phase state DrainingPortals, DrainPortalCommands)
      else (state, CmdNone)
  | PortalCommandsReady count =>
      (set_phase (add_portal_commands state count) PresentingChrome, PresentChrome)
  | ChromeCommandsReady count => (set_phase (add_chrome_commands state count) Idle, CmdNone)
  | BrokerHealthChanged broker broker_state generation len =>
      let health := mk_runtime_broker_health broker_state generation len in
      let state :=
        match broker with
        | BrokerPortal =>
            if decide (accepts_broker_health (portal_broker_health (telemetry state)) generation)
            then set_portal_health state health else state
        | BrokerMetadata =>
            if decide (accepts_broker_health (metadata_broker_health (telemetry state)) generation)
            then set_metadata_health state health else state
        end in
      (state, CmdNone)
  | AuthorityProcessHealthChanged process authority_state generation len =>
      (if decide (process = SophiaXAuthority
                  ∧ accepts_authority_health (x_authority_health (telemetry state)) generation)
       then set_authority_health state
              (mk_runtime_authority_health process authority_state generation len)
       else state, CmdNone)
  | AuthorityTransactionObserved outcome applied_surface_count =>
      (add_authority_transaction state outcome applied_surface_count, CmdNone)
  | SlowClientVisualDecisionsObserved timeout_count preserved_count degraded_count =>
      (add_slow_client state timeout_count preserved_count degraded_count, CmdNone)
  | TickCompleted => (set_phase state Idle, CmdNone)
  end.

(** ** The loop *)

Record SessionRuntimeStepReport : Type := mk_step_report {
  events_processed : Z; commands : list SessionRuntimeCommand;
}.

(** One iteration of the loop of [SessionRuntimeLoop::step]. *)
Definition loop_event (acc : SessionRuntimeState * SessionRuntimeStepReport)
    (event : SessionRuntimeEvent) : SessionRuntimeState * SessionRuntimeStepReport :=
  let '(state, report) := acc in
  let '(state, command) := update_session_runtime state event in
  (state, mk_step_report (events_processed report + 1)
     (if decide (command = CmdNone) then commands report else commands report ++ [command])).

Definition session_step (state : SessionRuntimeState) (events : list SessionRuntimeEvent) :
    SessionRuntimeState * SessionRuntimeStepReport :=
  foldl loop_event (state, mk_step_report 0 []) events.

(** ** Observations *)

Definition MAX_SESSION_RUNTIME_OBSERVATION_BATCH : Z := 64.

Inductive SessionRuntimeObservation : Type :=
| OTickStarted
| OXEventsPolled (count : Z)
| OWmLayoutReady
| OWmRestartRequested
| OFrameScheduled (frame_serial : Z)
| OFrameRendered (frame_serial : Z)
| OScanoutStateChanged (state : RuntimeScanoutState) (frame_serial : option Z)
| OPortalCommandsReady (count : Z)
| OChromeCommandsReady (count : Z)
| OBrokerHealthChanged (broker : BrokerKind) (state : BrokerHealthState)
    (generation status_message_len : Z)
| OAuthorityProcessHealthChanged (process : SupervisedProcessKind) (state : BrokerHealthState)
    (generation status_message_len : Z)
| OAuthorityTransactionObserved (outcome : TransactionOutcome) (applied_surface_count : Z)
| OSlowClientVisualDecisionsObserved (timeout_count preserved_count degraded_count : Z)
| OTickCompleted.

Definition session_runtime_event_from_observation (o : SessionRuntimeObservation) :
    result SessionRuntimeEvent SessionRuntimeObservationError :=
  match o with
  | OTickStarted => Ok TickStarted
  | OXEventsPolled count => Ok (XEventsPolled count)
  | OWmLayoutReady => Ok WmLayoutReady
  | OWmRestartRequested => Ok WmRestartRequested
  | OFrameScheduled frame_serial => Ok (FrameScheduled frame_serial)
  | OFrameRendered frame_serial => Ok (FrameRendered frame_serial)
  | OScanoutStateChanged state frame_serial => Ok (ScanoutStateChanged state frame_serial)
  | OPortalCommandsReady count => Ok (PortalCommandsReady count)
  | OChromeCommandsReady count => Ok (ChromeCommandsReady count)
  | OBrokerHealthChanged broker state generation len =>
      ensure! (len ≤ SOPHIA_BROKER_HEALTH_MAX_MESSAGE_LEN)
      else BrokerStatusMessageTooLong len SOPHIA_BROKER_HEALTH_MAX_MESSAGE_LEN in
      Ok (BrokerHealthChanged broker state generation len)
  | OAuthorityProcessHealthChanged process state generation len =>
      ensure! (len ≤ SOPHIA_BROKER_HEALTH_MAX_MESSAGE_LEN)
      else BrokerStatusMessageTooLong len SOPHIA_BROKER_HEALTH_MAX_MESSAGE_LEN in
      Ok (AuthorityProcessHealthChanged process state generation len)
  | OAuthorityTransactionObserved outcome applied_surface_count =>
      Ok (AuthorityTransactionObserved outcome applied_surface_count)
  | OSlowClientVisualDecisionsObserved timeout_count preserved_count degraded_count =>
      Ok (SlowClientVisualDecisionsObserved timeout_count preserved_count degraded_count)
  | OTickCompleted => Ok TickCompleted
  end.

Definition observe_one (events : list SessionRuntimeEvent) (o : SessionRuntimeObservation) :
    result (list SessionRuntimeEvent) SessionRuntimeObservationError :=
  ensure! (Z.of_nat (length events) < MAX_SESSION_RUNTIME_OBSERVATION_BATCH)
  else TooManyObservations MAX_SESSION_RUNTIME_OBSERVATION_BATCH in
  let? event := session_runtime_event_from_observation o in
  Ok (events ++ [event]).

Definition from_observations (observations : list SessionRuntimeObservation) :
    result (list SessionRuntimeEvent) SessionRuntimeObservationError :=
  try_fold observe_one [] observations.

Definition step_observations (state : SessionRuntimeState)
    (observations : list SessionRuntimeObservation) :
    result SessionRuntimeStepReport SessionRuntimeObservationError * SessionRuntimeState :=
  match from_observations observations with
  | Err e => (Err e, state)
  | Ok events => let '(state, report) := session_step state events in (Ok report, state)
  end.

(** ** Runs of the loop *)

(** The run as plain recursion: the commands issued and the state left. *)
Fixpoint session_run (s : SessionRuntimeState) (l : list SessionRuntimeEvent) :
    list SessionRuntimeCommand * SessionRuntimeState :=
  match l with
  | [] => ([], s)
  | e :: l =>
      let '(s1, c) := update_session_runtime s e in
      let '(cs, s2) := session_run s1 l in
      (if decide (c = CmdNone) then cs else c :: cs, s2)
  end.

Lemma session_step_run s l :
  session_step s l =
    ((session_run s l).2, mk_step_report (Z.of_nat (length l)) (session_run s l).1).
Proof.
  unfold session_step.
  enough (∀ n cs s, foldl loop_event (s, mk_step_report n cs) l =
    ((session_run s l).2, mk_step_report (n + Z.of_nat (length l)) (cs ++ (session_run s l).1))) as H
    by (rewrite H; done).
  clear s. induction l as [|e l IH]; intros n cs s.
  { simpl. by rewrite Z.add_0_r, app_nil_r. }
  cbn [foldl session_run]. unfold loop_event at 2. destruct (update_session_runtime s e) as [s1 c].
  rewrite IH. cbn [events_processed commands]. destruct (session_run s1 l) as [cs' s2]; simpl.
  f_equal. case_decide; f_equal; try lia. by rewrite <-app_assoc.
Qed.

Lemma session_run_app s l1 l2 :
  session_run s (l1 ++ l2) =
    ((session_run s l1).1 ++ (session_run (session_run s l1).2 l2).1,
     (session_run (session_run s l1).2 l2).2).
Proof.
  revert s. induction l1 as [|e l1 IH]; intros s; simpl.
  { by destruct (session_run s l2). }
  destruct (update_session_runtime s e) as [s1 c]. rewrite IH.
  destruct (session_run s1 l1) as [cs s2]; simpl. by case_decide.
Qed.

Definition is_telemetry (e : SessionRuntimeEvent) : bool :=
  match e with
  | BrokerHealthChanged _ _ _ _ | AuthorityProcessHealthChanged _ _ _ _
  | AuthorityTransactionObserved _ _ | SlowClientVisualDecisionsObserved _ _ _ => true
  | _ => false
  end.

(** A telemetry event leaves the cycle alone and commands nothing; any other
    event leaves the telemetry alone and does not read it. *)
Lemma update_telemetry_event s e : is_telemetry e = true →
  (update_session_runtime s e).2 = CmdNone ∧
  cycle (update_session_runtime s e).1 = cycle s ∧
  ∀ s', telemetry s' = telemetry s →
    telemetry (update_session_runtime s' e).1 = telemetry (update_session_runtime s e).1.
Proof.
  destruct s as [c t]. intros He. split; [by destruct e|].
  split.
  - destruct c, t, e as [| | | | | | | | |[]| |[]| |]; simpl; by repeat case_decide.
  - intros [c' t'] Ht. simpl in Ht. subst t'.
    destruct c, c', t, e as [| | | | | | | | |[]| |[]| |]; try discriminate He; simpl;
      by repeat case_decide.
Qed.

Lemma update_cycle_event s e : is_telemetry e = false →
  telemetry (update_session_runtime s e).1 = telemetry s ∧
  ∀ s', cycle s' = cycle s →
    (update_session_runtime s' e).2 = (update_session_runtime s e).2 ∧
    cycle (update_session_runtime s' e).1 = cycle (update_session_runtime s e).1.
Proof.
  destruct s as [c t]. intros He. split.
  - destruct c, t, e as [| | | | | |[]| | | | | | |]; try discriminate He; simpl;
      by repeat case_decide.
  - intros [c' t'] Hc. simpl in Hc. subst c'.
    destruct c, t, t', e as [| | | | | |[]| | | | | | |]; try discriminate He; simpl;
      by repeat case_decide.
Qed.

(** Telemetry does not steer the session.  In every run of the loop, the
    commands issued and the tick-cycle state are those of the run without the
    telemetry events (broker and authority health, authority transactions,
    slow-client decisions), wherever these were interleaved; the telemetry state
    is that of the run of the telemetry events alone; every event is counted. *)
Theorem telemetry_does_not_steer (s : SessionRuntimeState) (l : list SessionRuntimeEvent) :
  let '(s', report) := session_step s l in
  let steering := session_step s (filter (λ e, is_telemetry e = false) l) in
  let observing := session_step s (filter (λ e, is_telemetry e = true) l) in
  cycle s' = cycle steering.1 ∧ commands report = commands steering.2
  ∧ telemetry s' = telemetry observing.1 ∧ commands observing.2 = []
  ∧ events_processed report = Z.of_nat (length l).
Proof.
  cbv zeta. rewrite !session_step_run. cbn [fst snd commands events_processed].
  enough (∀ s1 s2, cycle s1 = cycle s → telemetry s2 = telemetry s →
    cycle (session_run s l).2 = cycle (session_run s1 (filter (λ e, is_telemetry e = false) l)).2
    ∧ (session_run s l).1 = (session_run s1 (filter (λ e, is_telemetry e = false) l)).1
    ∧ telemetry (session_run s l).2
        = telemetry (session_run s2 (filter (λ e, is_telemetry e = true) l)).2
    ∧ (session_run s2 (filter (λ e, is_telemetry e = true) l)).1 = []) as H.
  { destruct (H s s) as (?&?&?&?); done. }
  revert s. induction l as [|e l IH]; intros s s1 s2 H1 H2; [done|].
  destruct (is_telemetry e) eqn:He.
  - rewrite filter_cons_False, filter_cons_True by congruence. simpl.
    destruct (update_telemetry_event s e He) as (Hn&Hc&_).
    destruct (update_telemetry_event s2 e He) as (Hn2&_&Ht).
    specialize (Ht s (eq_sym H2)).
    destruct (update_session_runtime s e) as [s' c], (update_session_runtime s2 e) as [s2' c2].
    simpl in *. subst. specialize (IH s' s1 s2' ltac:(congruence) ltac:(congruence)).
    destruct (session_run s' l), (session_run s2' _). simpl in *.
    destruct IH as (?&->&?&?). done.
  - rewrite filter_cons_True, filter_cons_False by congruence. simpl.
    destruct (update_cycle_event s e He) as (Ht&Hc).
    destruct (Hc s1 H1) as [Hcmd Hcy].
    destruct (update_session_runtime s e) as [s' c], (update_session_runtime s1 e) as [s1' c1].
    simpl in *. subst. specialize (IH s' s1' s2 ltac:(congruence) ltac:(congruence)).
    destruct (session_run s' l), (session_run s1' _). simpl in *.
    destruct IH as (?&->&?&?). done.
Qed.

(** ** The tick protocol *)

(** The events that answer a command. *)
Definition answers (c : SessionRuntimeCommand) (e : SessionRuntimeEvent) : Prop :=
  match c, e with
  | PollXEvents, XEventsPolled _ => True
  | (RequestWmLayout | RestartWindowManager), (WmLayoutReady | WmRestartRequested) => True
  | ScheduleFrame, FrameScheduled _ => True
  | RenderFrame f, FrameRendered f' => f' = f
  | SubmitScanout _, ScanoutStateChanged _ _ => True
  | DrainPortalCommands, PortalCommandsReady _ => True
  | PresentChrome, ChromeCommandsReady _ => True
  | _, _ => False
  end.

(** What may come in between: telemetry at any time, and scanout notifications
    (page flips of earlier frames) while no submission is outstanding. *)
Definition background (c : SessionRuntimeCommand) (e : SessionRuntimeEvent) : Prop :=
  match e with
  | ScanoutStateChanged _ _ => ∀ f, c ≠ SubmitScanout f
  | _ => is_telemetry e = true
  end.

(** The phase in which a command is outstanding. *)
Definition phase_of (c : SessionRuntimeCommand) : SessionRuntimePhase :=
  match c with
  | CmdNone => Idle
  | PollXEvents => PollingX
  | RequestWmLayout | RestartWindowManager => ApplyingWmPolicy
  | ScheduleFrame => WaitingForFrame
  | RenderFrame _ => RenderingPhase
  | SubmitScanout _ => SubmittingScanout
  | DrainPortalCommands => DrainingPortals
  | PresentChrome => PresentingChrome
  end.

(** The events a driver feeds back while it carries out the command [c] and those
    that follow, until nothing is outstanding. *)
Inductive Driven : SessionRuntimeState → SessionRuntimeCommand → list SessionRuntimeEvent → Prop :=
| Driven_done s : Driven s CmdNone []
| Driven_background s c e l :
    background c e → Driven (update_session_runtime s e).1 c l → Driven s c (e :: l)
| Driven_answer s c e l :
    answers c e →
    Driven (update_session_runtime s e).1 (update_session_runtime s e).2 l → Driven s c (e :: l).

(** What the driver reported: the X events it polled, the frames scheduled, and how often the window
    manager had to be restarted. *)
Definition polled (l : list SessionRuntimeEvent) : list Z :=
  omap (λ e, match e with XEventsPolled n => Some n | _ => None end) l.
Definition scheduled (l : list SessionRuntimeEvent) : list Z :=
  omap (λ e, match e with FrameScheduled f => Some f | _ => None end) l.
Definition wm_restarts (l : list SessionRuntimeEvent) : nat :=
  length (omap (λ e, match e with WmRestartRequested => Some () | _ => None end) l).
Definition reported (l : list SessionRuntimeEvent) : list Z * list Z * nat := (polled l, scheduled l, wm_restarts l).

(** The commands that follow [c] when the driver reports [l], the frame [f] being the one scheduled. *)
Definition after_submit : list SessionRuntimeCommand := [DrainPortalCommands; PresentChrome].
Definition after_schedule (f : Z) : list SessionRuntimeCommand :=
  RenderFrame f :: SubmitScanout f :: after_submit.
(** The layout is asked for where there were events, and again for each restart. *)
Definition layout_requests (count : Z) (restarts : nat) : list SessionRuntimeCommand :=
  if decide (count = 0) then [] else RequestWmLayout :: replicate restarts RestartWindowManager.
Definition continues (c : SessionRuntimeCommand) (f : Z) (l : list SessionRuntimeEvent) (cs : list SessionRuntimeCommand) : Prop :=
  match c with
  | CmdNone | PresentChrome => reported l = ([], [], 0%nat) ∧ cs = []
  | DrainPortalCommands => reported l = ([], [], 0%nat) ∧ cs = [PresentChrome]
  | SubmitScanout _ => reported l = ([], [], 0%nat) ∧ cs = after_submit
  | RenderFrame g => reported l = ([], [], 0%nat) ∧ g = f ∧ cs = SubmitScanout f :: after_submit
  | ScheduleFrame => reported l = ([], [f], 0%nat) ∧ cs = after_schedule f
  | RequestWmLayout | RestartWindowManager =>
      reported l = ([], [f], wm_restarts l) ∧ cs = replicate (wm_restarts l) RestartWindowManager ++ ScheduleFrame :: after_schedule f
  | PollXEvents =>
      ∃ count, reported l = ([count], [f], wm_restarts l) ∧ (count = 0 → wm_restarts l = 0%nat) ∧
        cs = layout_requests count (wm_restarts l) ++ ScheduleFrame :: after_schedule f
  end.

(** Whether the frame of the tick is still to be rendered. *)
Definition before_render (c : SessionRuntimeCommand) : bool :=
  match c with
  | PollXEvents | RequestWmLayout | RestartWindowManager | ScheduleFrame | RenderFrame _ => true
  | _ => false
  end.

(** The frames rendered once the outstanding command [c] is carried out. *)
Definition frames_after (c : SessionRuntimeCommand) (f : Z) (s : SessionRuntimeState) :
    Z * option Z :=
  if before_render c then (u64_add (frames_rendered (cycle s)) 1, Some f)
  else (frames_rendered (cycle s), last_frame_serial (cycle s)).

Lemma background_step s c e :
  background c e → phase (cycle s) = phase_of c →
  let '(s1, c1) := update_session_runtime s e in
  c1 = CmdNone ∧ phase (cycle s1) = phase_of c
  ∧ frames_rendered (cycle s1) = frames_rendered (cycle s)
  ∧ last_frame_serial (cycle s1) = last_frame_serial (cycle s).
Proof.
  intros Hb Hp. destruct (is_telemetry e) eqn:He.
  - destruct (update_telemetry_event s e He) as (Hn&Hc&_).
    destruct (update_session_runtime s e). simpl in *. by rewrite Hc.
  - destruct e; try (simpl in *; congruence). simpl in *.
    assert (phase (cycle s) ≠ SubmittingScanout).
    { rewrite Hp. destruct c; try done. by destruct (Hb frame_serial0). }
    rewrite decide_False by done. by destruct s as [[] []], state.
Qed.

Lemma background_unreported c e l : background c e → reported (e :: l) = reported l.
Proof. by destruct e. Qed.
Lemma continues_reported c f l l' cs : reported l = reported l' → continues c f l cs → continues c f l' cs.
Proof. unfold reported. intros [= E1 E2 E3]. unfold continues, reported. by rewrite E1, E2, E3. Qed.
Lemma answer_step s c e :
  answers c e → phase (cycle s) = phase_of c →
  let '(s1, c1) := update_session_runtime s e in
  phase (cycle s1) = phase_of c1
  ∧ ∀ f l cs, continues c1 f l cs → ∃ f',
      continues c f' (e :: l) (if decide (c1 = CmdNone) then cs else c1 :: cs)
      ∧ frames_after c f' s = frames_after c1 f s1.
Proof.
  destruct s as [[] []]. intros Ha Hp.
  destruct c, e; simpl in Ha; try done; simpl in Hp; subst.
  1: cbn [update_session_runtime]; case_decide.
  7: destruct state.
  all: cbn; repeat (case_decide; try congruence); (split; [done|]); intros f l cs;
    unfold frames_after, continues, reported, layout_requests, polled, scheduled, wm_restarts; cbn; intros Hc.
  all: first [exists f; split; [|done] | eexists; split; [|done]].
  all: destruct_and?; simplify_eq; first [exists count|exists 0|idtac]; rewrite ?decide_True, ?decide_False by done; split_and!; try done; try congruence.
  all: match goal with H : length _ = 0%nat |- _ => by rewrite H end.
Qed.

Lemma driven_run s c l :
  Driven s c l → phase (cycle s) = phase_of c →
  let '(cs, s') := session_run s l in
  phase (cycle s') = Idle
  ∧ ∃ f, continues c f l cs
      ∧ (frames_rendered (cycle s'), last_frame_serial (cycle s')) = frames_after c f s.
Proof.
  induction 1 as [s|s c e l Hb _ IH|s c e l Ha _ IH]; intros Hp; cbn [session_run].
  - split; [done|]. by exists 0.
  - pose proof (background_step s c e Hb Hp) as Hs.
    destruct (update_session_runtime s e) as [s1 c1]. destruct Hs as (->&H1&H2&H3).
    specialize (IH H1). simpl in IH. destruct (session_run s1 l) as [cs s2].
    destruct IH as (?&f&Hc&Hf). split; [done|]. exists f. split.
    + rewrite decide_True by done. by eapply continues_reported, Hc; symmetry; eapply background_unreported.
    + rewrite Hf. unfold frames_after. by rewrite H2, H3.
  - pose proof (answer_step s c e Ha Hp) as Hs.
    destruct (update_session_runtime s e) as [s1 c1]. destruct Hs as (H1&H2).
    specialize (IH H1). simpl in IH. destruct (session_run s1 l) as [cs s2].
    destruct IH as (?&f&Hc&Hf). split; [done|].
    destruct (H2 f l cs Hc) as (f'&?&Hf'). exists f'. split; [done|]. by rewrite Hf, Hf'.
Qed.

(** C33: every tick runs to completion in order.  A driver starts a tick and
    answers each command it is given, while telemetry and the page flips of
    earlier frames arrive at any point in between (the latter, not between a
    submission and its answer).  Then the driver polls once and schedules one
    frame, and the session issues exactly: one poll; if it found events, one
    layout request and one restart of the window manager for each that was
    asked for, and otherwise no layout; one schedule; one render and one
    submission of the scheduled frame; one portal drain and one chrome
    presentation, in this order; it ends idle, has rendered one frame more and
    remembers that frame's serial. *)
Theorem tick_runs_in_order (s : SessionRuntimeState) (l : list SessionRuntimeEvent) :
  Driven (set_phase s PollingX) PollXEvents l →
  let '(s', report) := session_step s (TickStarted :: l) in
  phase (cycle s') = Idle
  ∧ ∃ count f, polled l = [count] ∧ scheduled l = [f] ∧ (count = 0 → wm_restarts l = 0%nat)
     ∧ commands report = PollXEvents :: layout_requests count (wm_restarts l) ++ ScheduleFrame :: after_schedule f
     ∧ frames_rendered (cycle s') = u64_add (frames_rendered (cycle s)) 1
     ∧ last_frame_serial (cycle s') = Some f.
Proof.
  intros Hd. rewrite session_step_run. cbn [session_run update_session_runtime].
  pose proof (driven_run _ _ _ Hd) as Hr. destruct s as [[] t]; cbn in *.
  specialize (Hr eq_refl). destruct (session_run _ l) as [cs s']. cbn.
  destruct Hr as (?&f&(count & Hrep & Hno & ->)&Hf). unfold reported in Hrep. injection Hrep as H1 H2.
  unfold frames_after in Hf; cbn in Hf. split; [done|]. exists count, f. split_and!; [done..| |]; congruence.
Qed.

Lemma tick_runs_in_order_witness :
  let l := [XEventsPolled 2; AuthorityTransactionObserved Committed 1; WmRestartRequested;
            ScanoutStateChanged ScanoutRetired (Some 6); WmLayoutReady; FrameScheduled 7;
            FrameRendered 7; ScanoutStateChanged ScanoutSubmitted (Some 7);
            PortalCommandsReady 0; ChromeCommandsReady 3] in
  commands (session_step session_default (TickStarted :: l)).2 =
    [PollXEvents; RequestWmLayout; RestartWindowManager; ScheduleFrame; RenderFrame 7;
     SubmitScanout 7; DrainPortalCommands; PresentChrome]
  ∧ phase (cycle (session_step session_default (TickStarted :: l)).1) = Idle
  ∧ frames_rendered (cycle (session_step session_default (TickStarted :: l)).1) = 1.
Proof.
  intros l.
  assert (Driven (set_phase session_default PollingX) PollXEvents l) as Hd.
  { unfold l. apply Driven_answer; [done|]. apply Driven_background; [done|].
    apply Driven_answer; [done|]. apply Driven_background; [done|].
    do 6 (apply Driven_answer; [done|]). apply Driven_done. }
  pose proof (tick_runs_in_order session_default l Hd) as H.
  destruct (session_step session_default (TickStarted :: l)) as [s' report] eqn:E.
  destruct H as (Hp&_&_&_&_&_&_&Hfr&_). split; [|split; [exact Hp|cbn [fst]; rewrite Hfr; reflexivity]].
  cbn [snd]. assert (report = (session_step session_default (TickStarted :: l)).2) as -> by (by rewrite E).
  vm_compute. reflexivity.
Defined.

(** ** Scanout accounting *)

Definition is_scanout (st : RuntimeScanoutState) (e : SessionRuntimeEvent) : bool :=
  match e with ScanoutStateChanged st' _ => bool_decide (st' = st) | _ => false end.
Definition scanouts (st : RuntimeScanoutState) (l : list SessionRuntimeEvent) : Z :=
  Z.of_nat (length (filter (λ e, is_scanout st e = true) l)).

(** The frames in flight after [l], had every notification been accounted for. *)
Definition outstanding (l : list SessionRuntimeEvent) : Z :=
  scanouts ScanoutSubmitted l - scanouts ScanoutRetired l - scanouts ScanoutRejected l.

Definition count_if (b : bool) : Z := if b then 1 else 0.
Lemma scanouts_snoc st l e :
  scanouts st (l ++ [e]) = scanouts st l + count_if (is_scanout st e).
Proof.
  unfold scanouts, count_if. rewrite filter_app, length_app, Nat2Z.inj_add. f_equal.
  destruct (is_scanout st e) eqn:He.
  - by rewrite filter_cons_True.
  - by rewrite filter_cons_False by congruence.
Qed.
Lemma scanouts_bound st l : 0 ≤ scanouts st l ≤ Z.of_nat (length l).
Proof. unfold scanouts. pose proof (length_filter (λ e, is_scanout st e = true) l). lia. Qed.

(** The counters one event leaves. *)
Lemma update_scanout_counters s e :
  let c := cycle s in let c' := cycle (update_session_runtime s e).1 in
  scanout_submissions c' =
    (if is_scanout ScanoutSubmitted e then u64_add (scanout_submissions c) 1 else scanout_submissions c)
  ∧ scanout_retirements c' =
    (if is_scanout ScanoutRetired e then u64_add (scanout_retirements c) 1 else scanout_retirements c)
  ∧ scanout_rejections c' =
    (if is_scanout ScanoutRejected e then u64_add (scanout_rejections c) 1 else scanout_rejections c)
  ∧ in_flight_scanouts c' =
    (if is_scanout ScanoutSubmitted e then u64_add (in_flight_scanouts c) 1
     else if decide (is_scanout ScanoutRetired e = true ∨ is_scanout ScanoutRejected e = true)
     then saturating_sub (in_flight_scanouts c) 1 else in_flight_scanouts c).
Proof.
  destruct s as [[] []], e as [| | | | | |[]| | |[]| |[]| |]; simpl; repeat case_decide;
    simpl; repeat case_bool_decide; naive_solver.
Qed.

Lemma count_add m a (b : bool) : a < m →
  (if b then saturating_add m a 1 else a) = a + count_if b.
Proof. unfold saturating_add, count_if. destruct b; lia. Qed.

Lemma balance_step a r j f (da dr dj : bool) :
  a < u64_MAX → (if da then dr = false ∧ dj = false else dr = false ∨ dj = false) →
  Z.max 0 (a - r - j) ≤ f ≤ a →
  let f' := if da then u64_add f 1
            else if decide (dr = true ∨ dj = true) then saturating_sub f 1 else f in
  let balance := a + count_if da - (r + count_if dr) - (j + count_if dj) in
  Z.max 0 balance ≤ f' ≤ a + count_if da
  ∧ (f = a - r - j → 0 ≤ balance → f' = balance).
Proof.
  unfold u64_add, saturating_add, saturating_sub, count_if. cbv zeta. intros Ha Hd Hf.
  destruct da, dr, dj; try (exfalso; intuition congruence);
    repeat (case_decide as Hdec; [|try (exfalso; apply Hdec; tauto)]); try (exfalso; intuition congruence); lia.
Qed.

(** Scanout accounting.  After any sequence of events from the initial
    state (fewer than 2^64 of them) the counters are the numbers of submissions,
    retirements and rejections seen, and the number in flight lies between the
    balance (submitted minus retired minus rejected) and the submissions.  If no
    notification precedes the submission it is about, it is exactly the balance:
    no frame is lost or counted twice. *)
Theorem scanout_accounting (l : list SessionRuntimeEvent) :
  Z.of_nat (length l) ≤ u64_MAX →
  let c := cycle (session_step session_default l).1 in
  scanout_submissions c = scanouts ScanoutSubmitted l
  ∧ scanout_retirements c = scanouts ScanoutRetired l
  ∧ scanout_rejections c = scanouts ScanoutRejected l
  ∧ Z.max 0 (outstanding l) ≤ in_flight_scanouts c ≤ scanouts ScanoutSubmitted l
  ∧ ((∀ n, 0 ≤ outstanding (take n l)) → in_flight_scanouts c = outstanding l).
Proof.
  rewrite session_step_run. cbn [fst]. cbv zeta.
  induction l as [|e l IH] using rev_ind; intros Hl; [done|].
  rewrite length_app in Hl. simpl in Hl. specialize (IH ltac:(lia)).
  rewrite session_run_app. cbn [session_run snd].
  pose proof (update_scanout_counters (session_run session_default l).2 e) as Hu. cbv zeta in Hu.
  destruct (update_session_runtime _ e) as [s' c]. cbn [fst snd] in *.
  destruct Hu as (->&->&->&->). destruct IH as (->&->&->&Hb&Heq).
  unfold outstanding. rewrite !scanouts_snoc.
  pose proof (scanouts_bound ScanoutSubmitted l). pose proof (scanouts_bound ScanoutRetired l).
  pose proof (scanouts_bound ScanoutRejected l). unfold outstanding in *.
  assert ((∀ n, 0 ≤ outstanding (take n (l ++ [e]))) →
    0 ≤ outstanding (l ++ [e]) ∧ ∀ n, 0 ≤ outstanding (take n l)) as Hcausal.
  { intros Hn. split.
    - rewrite <-(firstn_all (l ++ [e])). apply Hn.
    - intros n. specialize (Hn (n `min` length l)%nat).
      rewrite <-take_take in Hn. by rewrite take_app_length in Hn. }
  unfold outstanding in Hcausal. rewrite !scanouts_snoc in Hcausal.
  unfold u64_add at 1 2 3. rewrite !count_add by lia. do 3 (split; [done|]).
  assert (if is_scanout ScanoutSubmitted e
    then is_scanout ScanoutRetired e = false ∧ is_scanout ScanoutRejected e = false
    else is_scanout ScanoutRetired e = false ∨ is_scanout ScanoutRejected e = false) as Hd
    by (destruct e as [| | | | | |[]| | | | | | |]; simpl; auto).
  assert (scanouts ScanoutSubmitted l < u64_MAX) as Hlt by lia.
  destruct (balance_step _ _ _ _ _ _ _ Hlt Hd Hb) as [Hb' Heq'].
  split; [exact Hb'|]. intros [? Hc]%Hcausal. apply Heq'; auto.
Qed.

Definition accounting_events : list SessionRuntimeEvent :=
  [ScanoutStateChanged ScanoutSubmitted (Some 1); ScanoutStateChanged ScanoutDeferred None;
   ScanoutStateChanged ScanoutSubmitted (Some 2); ScanoutStateChanged ScanoutRetired (Some 1)].
Lemma scanout_accounting_witness :
  Z.of_nat (length accounting_events) ≤ u64_MAX ∧
  in_flight_scanouts (cycle (session_step session_default accounting_events).1) = 1.
Proof.
  assert (Z.of_nat (length accounting_events) ≤ u64_MAX) as Hl by (vm_compute; congruence).
  split; [exact Hl|].
  destruct (scanout_accounting accounting_events Hl) as (_&_&_&_&H). apply H.
  intros n. do 5 (destruct n as [|n]; [vm_compute; congruence|]).
  rewrite take_ge by (simpl; lia). vm_compute. congruence.
Defined.

(** ** Health *)

(** Of a list of reports, the one with the greatest generation, the last of them
    when several share it. *)
Definition is_latest {H} (generation : H → Z) (reports : list H) (h : option H) : Prop :=
  match h with
  | None => reports = []
  | Some h => ∃ before after, reports = before ++ h :: after
      ∧ Forall (λ r, generation r ≤ generation h) before
      ∧ Forall (λ r, generation r < generation h) after
  end.

(** A report replaces one of no greater generation. *)
Definition replaces {H} (generation : H → Z) (h : option H) (r : H) : Prop :=
  match h with Some h => generation h ≤ generation r | None => True end.
#[export] Instance replaces_dec {H} (generation : H → Z) h r : Decision (replaces generation h r).
Proof. destruct h; simpl; apply _. Defined.

Lemma is_latest_snoc {H} (generation : H → Z) reports (h : option H) r :
  is_latest generation reports h →
  is_latest generation (reports ++ [r])
    (if decide (replaces generation h r) then Some r else h).
Proof.
  intros Hh. destruct h as [h|]; simpl in *.
  - destruct Hh as (b&a&->&Hb&Ha). case_decide as Hd; simpl.
    + exists (b ++ h :: a), []. split; [by rewrite <-app_assoc|]. split; [|done].
      apply Forall_app. split; [|constructor; [done|]].
      * eapply Forall_impl; [done|]. simpl. lia.
      * eapply Forall_impl; [done|]. simpl. lia.
    + exists b, (a ++ [r]). split; [by rewrite <-app_assoc|]. split; [done|].
      apply Forall_app. split; [done|]. constructor; [lia|done].
  - subst. by exists [], [].
Qed.

Definition broker_report (k : BrokerKind) (e : SessionRuntimeEvent) : option RuntimeBrokerHealth :=
  match e with
  | BrokerHealthChanged b st g len =>
      if decide (b = k) then Some (mk_runtime_broker_health st g len) else None
  | _ => None
  end.
Definition authority_report (e : SessionRuntimeEvent) : option RuntimeAuthorityHealth :=
  match e with
  | AuthorityProcessHealthChanged p st g len =>
      if decide (p = SophiaXAuthority) then Some (mk_runtime_authority_health p st g len) else None
  | _ => None
  end.
Definition broker_health (k : BrokerKind) (s : SessionRuntimeState) : option RuntimeBrokerHealth :=
  match k with
  | BrokerPortal => portal_broker_health (telemetry s)
  | BrokerMetadata => metadata_broker_health (telemetry s)
  end.

Lemma update_broker_health k s e :
  broker_health k (update_session_runtime s e).1 =
    match broker_report k e with
    | Some r => if decide (replaces rb_generation (broker_health k s) r) then Some r else broker_health k s
    | None => broker_health k s
    end.
Proof.
  destruct s as [[] [? ? ? ? ? ? ? ph mh xh]], e as [| | | | | |[]| | |[]| |[]| |], k; simpl;
    try done; try (by case_decide).
  - destruct ph; simpl; by repeat case_decide.
  - destruct mh; simpl; by repeat case_decide.
Qed.

Lemma update_authority_health s e :
  x_authority_health (telemetry (update_session_runtime s e).1) =
    match authority_report e with
    | Some r => if decide (replaces ra_generation (x_authority_health (telemetry s)) r)
                then Some r else x_authority_health (telemetry s)
    | None => x_authority_health (telemetry s)
    end.
Proof.
  destruct s as [[] [? ? ? ? ? ? ? ph mh xh]], e as [| | | | | |[]| | |[]|[]|[]| |]; simpl;
    try done; try (by case_decide).
  destruct xh; simpl; repeat case_decide; naive_solver.
Qed.

Lemma authority_health_latest l :
  is_latest ra_generation (omap authority_report l)
    (x_authority_health (telemetry (session_step session_default l).1)).
Proof.
  rewrite session_step_run. cbn [fst]. induction l as [|e l IH] using rev_ind; [done|].
  rewrite session_run_app. cbn [session_run snd].
  pose proof (update_authority_health (session_run session_default l).2 e) as Ha.
  destruct (update_session_runtime _ e) as [s' c]. cbn [fst snd] in *. rewrite omap_app, Ha. simpl.
  destruct (authority_report e) as [r|]; [by apply is_latest_snoc|by rewrite app_nil_r].
Qed.

Lemma broker_health_latest k l :
  is_latest rb_generation (omap (broker_report k) l)
    (broker_health k (session_step session_default l).1).
Proof.
  rewrite session_step_run. cbn [fst]. induction l as [|e l IH] using rev_ind; [by destruct k|].
  rewrite session_run_app. cbn [session_run snd].
  pose proof (update_broker_health k (session_run session_default l).2 e) as Hb.
  destruct (update_session_runtime _ e) as [s' c]. cbn [fst snd] in *. rewrite omap_app, Hb. simpl.
  destruct (broker_report k e) as [r|]; [by apply is_latest_snoc|by rewrite app_nil_r].
Qed.

(** Health is the latest report.  After any sequence of events from the
    initial state, the health recorded for the portal broker, the metadata broker
    and the X authority is the report of greatest generation (the last one of
    equals) among those received about that process, in whatever order they
    arrived; reports about other processes never count. *)
Theorem health_is_latest (l : list SessionRuntimeEvent) :
  let s := (session_step session_default l).1 in
  (∀ k, is_latest rb_generation (omap (broker_report k) l) (broker_health k s))
  ∧ is_latest ra_generation (omap authority_report l) (x_authority_health (telemetry s)).
Proof.
  split; [intros k; apply broker_health_latest|apply authority_health_latest].
Qed.

(** ** Supervisor and session together *)

(** A supervisor's observation as the session receives it. *)
Definition health_event (o : HealthObservation) : SessionRuntimeObservation :=
  OAuthorityProcessHealthChanged SophiaXAuthority (ho_state o) (ho_generation o) 0.

Definition health_report (o : HealthObservation) : RuntimeAuthorityHealth :=
  mk_runtime_authority_health SophiaXAuthority (ho_state o) (ho_generation o) 0.

Lemma latest_of_sorted {H} (generation : H → Z) reports h :
  is_latest generation reports h → StronglySorted Z.le (generation <$> reports) → h = last reports.
Proof.
  destruct h as [h|]; simpl; [|by intros ->].
  intros (b&a&->&_&Ha) Hs. destruct a as [|r a]; [by rewrite last_snoc|].
  exfalso. apply Forall_cons in Ha as [Hr _].
  rewrite fmap_app in Hs. apply StronglySorted_app_1_r in Hs. simpl in Hs.
  apply StronglySorted_inv in Hs as [_ Hs]. apply Forall_cons in Hs as [Hs _]. lia.
Qed.

(** The session follows its X authority.  Whatever is done to the authority's
    supervisor (starts, polls, terminations, with any answers of the operating
    system), each observation it reports passes the session's validation, and a
    session that receives the observations in order, among any other events,
    records exactly the last of them: none is refused as stale. *)
Theorem authority_health_followed (Child Spec : Type) (spec : Spec)
    (calls : list (AuthorityCall Child Spec)) (l : list SessionRuntimeEvent) :
  let observed := (authority_calls (new_x_authority spec) calls).1 in
  omap authority_report l = health_report <$> observed →
  Forall (λ o, is_ok (session_runtime_event_from_observation (health_event o)) = true) observed
  ∧ x_authority_health (telemetry (session_step session_default l).1) = health_report <$> last observed.
Proof.
  cbv zeta. intros Hl. split; [by apply Forall_forall|].
  pose proof (authority_calls_fresher (@new_x_authority Child Spec spec) calls
    ltac:(simpl; word_lia)) as Hf.
  destruct (authority_calls _ calls) as [os s']. cbn [fst] in *. destruct Hf as (_&_&Hs&_).
  pose proof (authority_health_latest l) as Hlat. rewrite Hl in Hlat.
  rewrite (latest_of_sorted _ _ _ Hlat), fmap_last; [done|].
  rewrite <-list_fmap_compose. exact Hs.
Qed.

Definition followed_os : Os unit unit :=
  mk_os (λ _, Ok ()) (λ _, Ok (Some 0)) (λ _, Ok ()) (λ _, Ok 0).
Definition followed_calls : list (AuthorityCall unit unit) :=
  [CallStart followed_os; CallStart followed_os].
Definition followed_events : list SessionRuntimeEvent :=
  [AuthorityProcessHealthChanged SophiaXAuthority BrokerReady 1 0; TickStarted;
   AuthorityProcessHealthChanged SophiaXAuthority BrokerStopped 2 0;
   AuthorityProcessHealthChanged SophiaXAuthority BrokerReady 3 0;
   AuthorityProcessHealthChanged SophiaXAuthority BrokerStopped 4 0].
Lemma authority_health_followed_witness :
  x_authority_health (telemetry (session_step session_default followed_events).1) =
    Some (mk_runtime_authority_health SophiaXAuthority BrokerStopped 4 0).
Proof.
  destruct (authority_health_followed unit unit () followed_calls followed_events eq_refl) as [_ ->].
  reflexivity.
Defined.

(** ** Observation batches *)

Lemma observe_all (observations : list SessionRuntimeObservation) (events : list SessionRuntimeEvent) :
  Z.of_nat (length events) ≤ MAX_SESSION_RUNTIME_OBSERVATION_BATCH →
  match try_fold observe_one events observations with
  | Ok events' => ∃ new, events' = events ++ new
      ∧ Z.of_nat (length events') ≤ MAX_SESSION_RUNTIME_OBSERVATION_BATCH
      ∧ Forall2 (λ o e, session_runtime_event_from_observation o = Ok e) observations new
  | Err e => ∃ before o after new, observations = before ++ o :: after
      ∧ Forall2 (λ o e, session_runtime_event_from_observation o = Ok e) before new
      ∧ if decide (Z.of_nat (length events + length before) < MAX_SESSION_RUNTIME_OBSERVATION_BATCH)
        then session_runtime_event_from_observation o = Err e
        else Z.of_nat (length events + length before) = MAX_SESSION_RUNTIME_OBSERVATION_BATCH
             ∧ e = TooManyObservations MAX_SESSION_RUNTIME_OBSERVATION_BATCH
  end.
Proof.
  revert events. induction observations as [|o obs IH]; intros events Hl; simpl.
  { exists []. rewrite app_nil_r. split; [done|]. split; [done|constructor]. }
  unfold observe_one at 1. destruct (decide (_ < _)) as [Hlt|Hge]; cbn [res_bind].
  2:{ exists [], o, obs, []. split; [done|]. split; [constructor|]. simpl. rewrite Nat.add_0_r.
      rewrite decide_False by done. split; [lia|done]. }
  destruct (session_runtime_event_from_observation o) as [e|e] eqn:Ho; cbn [res_bind].
  2:{ exists [], o, obs, []. split; [done|]. split; [constructor|]. simpl. rewrite Nat.add_0_r.
      by rewrite decide_True by done. }
  specialize (IH (events ++ [e])). rewrite length_app in IH. simpl in IH. specialize (IH ltac:(lia)).
  destruct (try_fold observe_one _ obs) as [events'|er].
  - destruct IH as (new&->&?&?). exists (e :: new). split; [by rewrite <-app_assoc|]. split; [done|].
    by constructor.
  - destruct IH as (b&o'&a&new&->&?&Hc). exists (o :: b), o', a, (e :: new). split; [done|].
    split; [by constructor|]. simpl. by rewrite <-Nat.add_assoc in Hc.
Qed.

(** Observation batches are checked whole before they take effect.  A batch is
    accepted exactly when it has at most 64 observations, each acceptable by
    itself, and is then stepped as the corresponding events in order; otherwise
    the session state is left as it was and the error is that of the first
    offending observation (the 65th, or one whose status message is longer than
    128 bytes). *)
Theorem observation_batch_spec (s : SessionRuntimeState)
    (observations : list SessionRuntimeObservation) :
  match step_observations s observations with
  | (Ok report, s') => ∃ events,
      Forall2 (λ o e, session_runtime_event_from_observation o = Ok e) observations events
      ∧ (length observations ≤ 64)%nat
      ∧ (s', report) = session_step s events
  | (Err e, s') => s' = s ∧ ∃ before o after,
      observations = before ++ o :: after
      ∧ Forall (λ o, is_ok (session_runtime_event_from_observation o) = true) before
      ∧ if decide (length before < 64)%nat
        then session_runtime_event_from_observation o = Err e
        else length before = 64%nat ∧ e = TooManyObservations 64
  end.
Proof.
  unfold step_observations, from_observations.
  pose proof (observe_all observations [] ltac:(done)) as Ho.
  destruct (try_fold observe_one [] observations) as [events|e].
  - destruct Ho as (new&->&Hl&HF). destruct (session_step s _) as [s' report] eqn:E.
    exists new. split; [done|]. split; [|by rewrite <-E].
    apply Forall2_length in HF. unfold MAX_SESSION_RUNTIME_OBSERVATION_BATCH in Hl. simpl in Hl. lia.
  - destruct Ho as (b&o&a&new&->&HF&Hc). split; [done|]. exists b, o, a. split; [done|].
    split. { clear Hc. induction HF as [|?? ?? Heq]; constructor; [by rewrite Heq|done]. }
    unfold MAX_SESSION_RUNTIME_OBSERVATION_BATCH in Hc. simpl in Hc.
    do 2 case_decide; try lia; [done|]. split; [lia|tauto].
Qed.
