(* ===== verification/Text.v ===== *)
(** * Rust strings

    A [String] is its list of UTF-8 bytes, each a [Z] below 256; the standard
    library's functions the sources call on them. *)

From stdpp Require Import strings.
From S2P Require Import Prelude.
Local Open Scope Z_scope.

(** A string literal's bytes. *)
Definition str (s : string) : list Z :=
  (λ c, Z.of_N (Ascii.N_of_ascii c)) <$> String.list_ascii_of_string s.

Definition byte_ok (b : Z) : Prop := 0 ≤ b < 256.
Definition str_len (s : list Z) : Z := Z.of_nat (length s).

(** ** UTF-8 *)

Definition is_cont (b : Z) : Prop := 128 ≤ b < 192.
#[export] Instance is_cont_dec b : Decision (is_cont b).
Proof. unfold is_cont; apply _. Defined.
Definition cont_bits (b : Z) : Z := Z.land b 63.

(** [str::chars] of a valid string; [None] where [String::from_utf8] refuses the
    bytes (a stray or missing continuation byte, an overlong form, a surrogate, a
    value above U+10FFFF). *)
Fixpoint utf8_decode (l : list Z) : option (list Z) :=
  match l with
  | [] => Some []
  | b0 :: t0 =>
      if decide (0 ≤ b0 < 128) then cons b0 <$> utf8_decode t0
      else if decide (194 ≤ b0 < 224) then
        match t0 with
        | b1 :: t1 =>
            if decide (is_cont b1)
            then cons (Z.lor (Z.shiftl (Z.land b0 31) 6) (cont_bits b1)) <$> utf8_decode t1
            else None
        | _ => None
        end
      else if decide (224 ≤ b0 < 240) then
        match t0 with
        | b1 :: b2 :: t2 =>
            let c := Z.lor (Z.shiftl (Z.land b0 15) 12)
                       (Z.lor (Z.shiftl (cont_bits b1) 6) (cont_bits b2)) in
            if decide (is_cont b1 ∧ is_cont b2 ∧ 2048 ≤ c ∧ ¬ 55296 ≤ c < 57344)
            then cons c <$> utf8_decode t2 else None
        | _ => None
        end
      else if decide (240 ≤ b0 < 245) then
        match t0 with
        | b1 :: b2 :: b3 :: t3 =>
            let c := Z.lor (Z.shiftl (Z.land b0 7) 18)
                       (Z.lor (Z.shiftl (cont_bits b1) 12)
                          (Z.lor (Z.shiftl (cont_bits b2) 6) (cont_bits b3))) in
            if decide (is_cont b1 ∧ is_cont b2 ∧ is_cont b3 ∧ 65536 ≤ c ∧ c ≤ 1114111)
            then cons c <$> utf8_decode t3 else None
        | _ => None
        end
      else None
  end.

Definition utf8_ok (l : list Z) : Prop := is_Some (utf8_decode l).
#[export] Instance utf8_ok_dec l : Decision (utf8_ok l).
Proof. unfold utf8_ok; apply _. Defined.
Definition chars (l : list Z) : list Z := default [] (utf8_decode l).

(** [char::is_control] (category Cc) and [char::is_whitespace] (White_Space). *)
Definition is_control (c : Z) : Prop := 0 ≤ c ≤ 31 ∨ 127 ≤ c ≤ 159.
Definition is_whitespace (c : Z) : Prop :=
  9 ≤ c ≤ 13 ∨ c = 32 ∨ c = 133 ∨ c = 160 ∨ c = 5760 ∨ 8192 ≤ c ≤ 8202 ∨ c = 8232 ∨ c = 8233
  ∨ c = 8239 ∨ c = 8287 ∨ c = 12288.
#[export] Instance is_control_dec c : Decision (is_control c).
Proof. unfold is_control; apply _. Defined.
#[export] Instance is_whitespace_dec c : Decision (is_whitespace c).
Proof. unfold is_whitespace; apply _. Defined.

(** ** ASCII *)

Definition to_ascii_lowercase (s : list Z) : list Z :=
  (λ b, if decide (65 ≤ b ≤ 90) then b + 32 else b) <$> s.
Definition is_ascii_alphanumeric (c : Z) : Prop := 48 ≤ c ≤ 57 ∨ 65 ≤ c ≤ 90 ∨ 97 ≤ c ≤ 122.
#[export] Instance is_ascii_alphanumeric_dec c : Decision (is_ascii_alphanumeric c).
Proof. unfold is_ascii_alphanumeric; apply _. Defined.

(** [s.split_once(c)] for an ASCII character [c]. *)
Fixpoint split_once (c : Z) (s : list Z) : option (list Z * list Z) :=
  match s with
  | [] => None
  | b :: s =>
      if decide (b = c) then Some ([], s)
      else '(l, r) ← split_once c s; Some (b :: l, r)
  end.

Lemma split_once_Some c s l r : split_once c s = Some (l, r) ↔ s = l ++ c :: r ∧ c ∉ l.
Proof.
  revert l. induction s as [|b s IH]; intros l; simpl.
  { split; [done|]. intros [H _]. by destruct l. }
  case_decide as Hb; [subst b|].
  - split; [intros [= <- <-]; split; [done|apply not_elem_of_nil]|].
    intros [H Hn]. destruct l as [|x l]; simplify_eq/=; [done|]. destruct Hn. left.
  - split.
    + destruct (split_once c s) as [[l' r']|] eqn:E; simpl; [|done]. intros [= <- <-].
      destruct (IH l') as [H1 _]. destruct H1 as [-> Hn]; [done|]. split; [done|].
      apply not_elem_of_cons. done.
    + intros [H Hn]. destruct l as [|x l]; simplify_eq/=. apply not_elem_of_cons in Hn as [_ Hn].
      assert (split_once c (l ++ c :: r) = Some (l, r)) as -> by (by apply IH). done.
Qed.

Lemma str_byte_ok s : Forall byte_ok (str s).
Proof.
  unfold str. rewrite Forall_fmap. apply Forall_forall. intros c _. unfold byte_ok, compose.
  pose proof (Ascii.N_ascii_bounded c). lia.
Qed.
