(* ===== verification/Codec.v ===== *)
(** * The IPC codec: cursor, primitives, frames
    ([sophia-protocol/src/ipc/{types,cursor,frame}.rs], [ipc/primitives/])

    Bytes are [Z]s below 256.  An encoder that appends to [out] is the function
    giving the bytes it appends; a decoder is a computation [Dec] over the
    [Cursor], in the order in which the source reads. *)

From stdpp Require Import strings.
From S2P Require Import Prelude Ids Geometry Packets Errors Text.
Local Open Scope Z_scope.

(** ** Constants and headers *)

Definition SOPHIA_IPC_MAGIC : Z := 1213222739. (* 0x4850_4f53 *)
Definition SOPHIA_IPC_VERSION : Z := 1.
Definition SOPHIA_IPC_HEADER_LEN : Z := 24.
Definition SOPHIA_IPC_MAX_PAYLOAD_LEN : Z := 64 * 1024.
Definition SOPHIA_IPC_MAX_ITEMS : Z := 1024.

Inductive IpcMessageKind : Type :=
| KWmRequest | KWmResponse | KBrokerHealth | KXAuthorityRequest | KXAuthorityResponse
| KPortalBrokerRequest | KPortalBrokerResponse | KWmHello | KWmSessionDescriptor
| KPortalClipboardPayload.
#[export] Instance message_kind_eq_dec : EqDecision IpcMessageKind.
Proof. solve_decision. Defined.

(** [kind as u16]. *)
Definition message_kind_code (k : IpcMessageKind) : Z :=
  match k with
  | KWmRequest => 1 | KWmResponse => 2 | KBrokerHealth => 3 | KXAuthorityRequest => 4
  | KXAuthorityResponse => 5 | KPortalBrokerRequest => 6 | KPortalBrokerResponse => 7
  | KPortalClipboardPayload => 8 | KWmHello => 9 | KWmSessionDescriptor => 10
  end.

Record IpcFrameHeader : Type := mk_frame_header {
  fh_message_kind : IpcMessageKind; fh_transaction : TransactionId; fh_payload_len : Z;
}.

(** ** Pushing integers *)

Definition push_u8 (v : Z) : list Z := [v].
Definition push_u16 (v : Z) : list Z := to_le_bytes 2 v.
Definition push_u32 (v : Z) : list Z := to_le_bytes 4 v.
Definition push_u64 (v : Z) : list Z := to_le_bytes 8 v.
Definition push_i32 (v : Z) : list Z := to_le_bytes 4 (as_unsigned 32 v).

(** ** The cursor *)

Record Cursor : Type := mk_cursor { cur_bytes : list Z; cur_offset : Z }.
Definition cursor_new (bytes : list Z) : Cursor := mk_cursor bytes 0.

Definition Dec (A : Type) : Type := Cursor → result (A * Cursor) IpcCodecError.
#[export] Instance dec_ret : MRet Dec := λ A a c, Ok (a, c).
#[export] Instance dec_bind : MBind Dec := λ A B k m c,
  match m c with Ok (a, c) => k a c | Err e => Err e end.
Definition dec_fail {A} (e : IpcCodecError) : Dec A := λ _, Err e.

(** [bytes.get(a..b)]. *)
Definition get_range (bytes : list Z) (a b : Z) : option (list Z) :=
  if decide (a ≤ b ∧ b ≤ Z.of_nat (length bytes))
  then Some (take (Z.to_nat (b - a)) (drop (Z.to_nat a) bytes)) else None.

(** [Cursor::slice], and [Cursor::take] with its constant length. *)
Definition cursor_slice (len : Z) : Dec (list Z) := λ c,
  let? end_ := ok_or (checked_add usize_MAX (cur_offset c) len) Truncated in
  let? slice := ok_or (get_range (cur_bytes c) (cur_offset c) end_) Truncated in
  Ok (slice, mk_cursor (cur_bytes c) end_).
Definition cursor_take (n : nat) : Dec (list Z) := cursor_slice (Z.of_nat n).

Definition cursor_finish (c : Cursor) : result unit IpcCodecError :=
  let remaining := saturating_sub (Z.of_nat (length (cur_bytes c))) (cur_offset c) in
  if decide (remaining = 0) then Ok tt else Err (TrailingBytes remaining).

Definition cursor_u8 : Dec Z := bs ← cursor_take 1; mret (from_le_bytes bs).
Definition cursor_u16 : Dec Z := bs ← cursor_take 2; mret (from_le_bytes bs).
Definition cursor_u32 : Dec Z := bs ← cursor_take 4; mret (from_le_bytes bs).
Definition cursor_u64 : Dec Z := bs ← cursor_take 8; mret (from_le_bytes bs).
Definition cursor_i32 : Dec Z := bs ← cursor_take 4; mret (as_signed 32 (from_le_bytes bs)).

(** ** Primitives: counts and repetition *)

Definition check_count (count : Z) : result unit IpcCodecError :=
  if decide (SOPHIA_IPC_MAX_ITEMS < count) then Err (CountTooLarge count SOPHIA_IPC_MAX_ITEMS)
  else Ok tt.
Definition decode_count : Dec Z :=
  count ← cursor_u32;
  match check_count count with Err e => dec_fail e | Ok _ => mret count end.

(** [for _ in 0..count { v.push(d?); }]. *)
Fixpoint decode_many {A} (d : Dec A) (count : nat) : Dec (list A) :=
  match count with
  | O => mret []
  | S n => a ← d; l ← decode_many d n; mret (a :: l)
  end.
Definition decode_counted {A} (d : Dec A) : Dec (list A) :=
  count ← decode_count; decode_many d (Z.to_nat count).
Definition encode_counted {A} (e : A → list Z) (l : list A) : list Z :=
  push_u32 (Z.of_nat (length l)) ++ (l ≫= e).

(** ** Primitives: IDs, geometry *)

Definition encode_surface_id (id : SurfaceId) : list Z :=
  push_u32 (si_index id) ++ push_u32 (si_generation id).
Definition decode_surface_id : Dec SurfaceId :=
  index ← cursor_u32; generation ← cursor_u32; mret (surface_id index generation).
(** [encode_workspace_id], [encode_output_id] and the other [u64] IDs. *)
Definition encode_id {k} (id : Id k) : list Z := push_u64 (raw id).
Definition decode_id {k} : Dec (Id k) := r ← cursor_u64; mret (from_raw r).

Definition encode_rect (r : Rect) : list Z :=
  push_i32 (rx r) ++ push_i32 (ry r) ++ push_i32 (rwidth r) ++ push_i32 (rheight r).
Definition decode_rect : Dec Rect :=
  x ← cursor_i32; y ← cursor_i32; width ← cursor_i32; height ← cursor_i32;
  mret (mk_rect x y width height).
Definition encode_size (s : Size) : list Z := push_i32 (sz_width s) ++ push_i32 (sz_height s).
Definition decode_size : Dec Size :=
  width ← cursor_i32; height ← cursor_i32; mret (mk_size width height).

(** The one-byte tag of [encode_option_size] and [encode_option_rect]. *)
Definition encode_option {A} (e : A → list Z) (o : option A) : list Z :=
  match o with Some a => push_u8 1 ++ e a | None => push_u8 0 end.
Definition decode_option {A} (field : string) (d : Dec A) : Dec (option A) :=
  tag ← cursor_u8;
  if decide (tag = 0) then mret None
  else if decide (tag = 1) then a ← d; mret (Some a)
  else dec_fail (InvalidBool field tag).
Definition encode_option_size := encode_option encode_size.
Definition decode_option_size := decode_option "option_size" decode_size.
Definition encode_option_rect := encode_option encode_rect.
Definition decode_option_rect := decode_option "option_rect" decode_rect.

Definition encode_constraints (c : SurfaceConstraints) : list Z :=
  encode_option_size (sc_min_size c) ++ encode_option_size (sc_max_size c).
Definition decode_constraints : Dec SurfaceConstraints :=
  min_size ← decode_option_size; max_size ← decode_option_size;
  mret (mk_constraints min_size max_size).

(** An [f32] is its bit pattern. *)
Definition encode_transform (t : Transform) : list Z := matrix t ≫= push_u32.
Definition decode_transform : Dec Transform := m ← decode_many cursor_u32 9; mret (mk_transform m).

(** ** Primitives: layout nodes *)

Definition encode_layout_node_kind (k : LayoutNodeKind) : Z :=
  match k with Toplevel => 1 | Dialog => 2 | Utility => 3 | UnknownNode => 4 end.
Definition decode_layout_node_kind (v : Z) : result LayoutNodeKind IpcCodecError :=
  match v with
  | 1 => Ok Toplevel | 2 => Ok Dialog | 3 => Ok Utility | 4 => Ok UnknownNode
  | other => Err (InvalidEnum "layout_node_kind" other)
  end.

Definition bit (b : bool) (n : Z) : Z := Z.shiftl (if b then 1 else 0) n.
Definition flags (b0 b1 b2 b3 b4 : bool) : Z :=
  Z.lor (Z.lor (Z.lor (Z.lor (bit b0 0) (bit b1 1)) (bit b2 2)) (bit b3 3)) (bit b4 4).
Definition flag (bits n : Z) : bool := bool_decide (Z.land bits (Z.shiftl 1 n) ≠ 0).
Definition encode_capabilities (c : LayoutNodeCapabilities) : Z :=
  flags (movable c) (resizable c) (focusable c) (closable c) (fullscreenable c).
Definition decode_capabilities (bits : Z) : LayoutNodeCapabilities :=
  mk_node_caps (flag bits 0) (flag bits 1) (flag bits 2) (flag bits 3) (flag bits 4).
Definition encode_node_state (s : LayoutNodeState) : Z :=
  flags (focused s) (urgent s) (fullscreen s) (floating s) (visible s).
Definition decode_node_state (bits : Z) : LayoutNodeState :=
  mk_node_state (flag bits 0) (flag bits 1) (flag bits 2) (flag bits 3) (flag bits 4).

(** [d(cursor.u16()?)?] and the like. *)
Definition dec_result {A} (r : result A IpcCodecError) : Dec A :=
  match r with Ok a => mret a | Err e => dec_fail e end.

Definition encode_layout_node (n : LayoutNodeSnapshot) : list Z :=
  encode_surface_id (ln_surface n) ++ encode_id (ln_workspace n)
  ++ push_u16 (encode_layout_node_kind (ln_kind n))
  ++ push_u16 (encode_capabilities (ln_capabilities n))
  ++ push_u16 (encode_node_state (ln_state n))
  ++ encode_constraints (ln_constraints n) ++ encode_rect (ln_geometry n)
  ++ push_u64 (ln_generation n).
Definition decode_layout_node : Dec LayoutNodeSnapshot :=
  surface ← decode_surface_id;
  workspace ← decode_id;
  kind ← (v ← cursor_u16; dec_result (decode_layout_node_kind v));
  capabilities ← (v ← cursor_u16; mret (decode_capabilities v));
  state ← (v ← cursor_u16; mret (decode_node_state v));
  constraints ← decode_constraints;
  geometry ← decode_rect;
  generation ← cursor_u64;
  mret (mk_node surface workspace kind capabilities state constraints geometry generation).

(** ** Primitives: text *)

Definition encode_optional_text (field : string) (value : option (list Z)) (max : Z) :
    result (list Z) IpcCodecError :=
  match value with
  | Some value =>
      if decide (max < str_len value) then Err (TextTooLarge field (str_len value) max)
      else Ok (push_u8 1 ++ push_u16 (str_len value) ++ value)
  | None => Ok (push_u8 0)
  end.
Definition decode_optional_text (field : string) (max : Z) : Dec (option (list Z)) :=
  tag ← cursor_u8;
  if decide (tag = 0) then mret None
  else if decide (tag = 1) then
    len ← cursor_u16;
    if decide (max < len) then dec_fail (TextTooLarge field len max)
    else
      bytes ← cursor_slice len;
      if decide (utf8_ok bytes) then mret (Some bytes) else dec_fail (InvalidUtf8 field)
  else dec_fail (InvalidBool field tag).

(** ** Frames *)

(** [payload.len() as u32] and the kind's code are in range of their types. *)
Definition encode_frame (message_kind : IpcMessageKind) (transaction : TransactionId)
    (payload : list Z) : result (list Z) IpcCodecError :=
  let len := Z.of_nat (length payload) in
  if decide (SOPHIA_IPC_MAX_PAYLOAD_LEN < len) then Err (PayloadTooLarge len)
  else Ok (push_u32 SOPHIA_IPC_MAGIC ++ push_u16 SOPHIA_IPC_VERSION
           ++ push_u16 (message_kind_code message_kind) ++ push_u64 (raw transaction)
           ++ push_u32 len ++ push_u32 0 ++ payload).

Definition decode_message_kind (v : Z) : result IpcMessageKind IpcCodecError :=
  match v with
  | 1 => Ok KWmRequest | 2 => Ok KWmResponse | 3 => Ok KBrokerHealth | 4 => Ok KXAuthorityRequest
  | 5 => Ok KXAuthorityResponse | 6 => Ok KPortalBrokerRequest | 7 => Ok KPortalBrokerResponse
  | 8 => Ok KPortalClipboardPayload | 9 => Ok KWmHello | 10 => Ok KWmSessionDescriptor
  | other => Err (UnknownMessageKind other)
  end.

(** The reads of [decode_frame]: kind, transaction and payload length. *)
Definition decode_header : Dec IpcFrameHeader :=
  magic ← cursor_u32;
  if decide (magic ≠ SOPHIA_IPC_MAGIC) then dec_fail BadMagic else
  version ← cursor_u16;
  if decide (version ≠ SOPHIA_IPC_VERSION) then dec_fail (UnsupportedVersion version) else
  message_kind ← (v ← cursor_u16; dec_result (decode_message_kind v));
  transaction ← decode_id;
  payload_len ← cursor_u32;
  reserved ← cursor_u32;
  if decide (reserved ≠ 0) then dec_fail (ReservedNonZero reserved)
  else mret (mk_frame_header message_kind transaction payload_len).

(** Once the length check has passed, the slice [24..expected_len] is in range;
    [HEADER_LEN + payload_len] does not overflow [usize]. *)
Definition decode_frame (frame : list Z) : result (IpcFrameHeader * list Z) IpcCodecError :=
  let len := Z.of_nat (length frame) in
  ensure! (SOPHIA_IPC_HEADER_LEN ≤ len) else Truncated in
  let? '(header, _c) := decode_header (cursor_new frame) in
  let payload_len := fh_payload_len header in
  ensure! (payload_len ≤ SOPHIA_IPC_MAX_PAYLOAD_LEN) else PayloadTooLarge payload_len in
  let? expected_len := ok_or (checked_add usize_MAX SOPHIA_IPC_HEADER_LEN payload_len)
                         (PayloadTooLarge payload_len) in
  ensure! (expected_len ≤ len) else Truncated in
  ensure! (len ≤ expected_len) else TrailingBytes (len - expected_len) in
  Ok (header, take (Z.to_nat payload_len) (drop (Z.to_nat SOPHIA_IPC_HEADER_LEN) frame)).

(** ** Reasoning about decoders *)

(** The cursor that has read [pre] and has [rest] to read. *)
Definition at_ (pre rest : list Z) : Cursor := mk_cursor (pre ++ rest) (Z.of_nat (length pre)).
(** Slices are no longer than [usize] can count. *)
Definition fits (bytes : list Z) : Prop := Z.of_nat (length bytes) ≤ usize_MAX.

(** [d] reads the bytes [bs] as [a], whatever surrounds them. *)
Definition reads {A} (d : Dec A) (bs : list Z) (a : A) : Prop :=
  ∀ pre post, fits (pre ++ bs ++ post) → d (at_ pre (bs ++ post)) = Ok (a, at_ (pre ++ bs) post).
(** Whenever [d] succeeds, with the value [a] and the bytes [bs] read, [Q a bs]. *)
Definition consumes {A} (d : Dec A) (Q : A → list Z → Prop) : Prop :=
  ∀ pre rest a c', Forall u8_ok rest → d (at_ pre rest) = Ok (a, c') →
    ∃ bs post, rest = bs ++ post ∧ c' = at_ (pre ++ bs) post ∧ Q a bs.

(** A decoder reads every encoding of a value of the type; it is exact if it reads
    nothing else. *)
Class Reads {A} (d : Dec A) (e : A → list Z) (ok : A → Prop) : Prop :=
  decodes : ∀ a, ok a → reads d (e a) a.
Class Exact {A} (d : Dec A) (e : A → list Z) (ok : A → Prop) : Prop :=
  decoded : consumes d (λ a bs, ok a ∧ bs = e a).

Lemma reads_ret {A} (a : A) : reads (mret a) [] a.
Proof. intros pre post _. simpl. by rewrite app_nil_r. Qed.

Lemma reads_bind {A B} (d : Dec A) (k : A → Dec B) bs1 bs2 a b :
  reads d bs1 a → reads (k a) bs2 b → reads (d ≫= k) (bs1 ++ bs2) b.
Proof.
  intros H1 H2 pre post Hf. unfold mbind, dec_bind. rewrite <-app_assoc.
  rewrite H1 by (by rewrite app_assoc in *; rewrite <-!app_assoc in *).
  rewrite app_assoc. apply H2. by rewrite <-!app_assoc in *.
Qed.

Lemma reads_map {A B} (d : Dec A) (f : A → B) bs a b :
  reads d bs a → b = f a → reads (d ≫= λ x, mret (f x)) bs b.
Proof.
  intros H1 -> pre post Hf. unfold mbind, dec_bind. by rewrite H1.
Qed.

Lemma consumes_ret {A} (a : A) (Q : A → list Z → Prop) : Q a [] → consumes (mret a) Q.
Proof. intros HQ pre rest a' c' _ [= <- <-]. exists [], rest. by rewrite app_nil_r. Qed.

Lemma consumes_fail {A} e (Q : A → list Z → Prop) : consumes (dec_fail e) Q.
Proof. by intros pre rest a' c' _ ?. Qed.

Lemma consumes_bind {A B} (d : Dec A) (k : A → Dec B) (Q1 : A → list Z → Prop) (Q : B → list Z → Prop) :
  consumes d Q1 → (∀ a bs1, Q1 a bs1 → consumes (k a) (λ b bs2, Q b (bs1 ++ bs2))) →
  consumes (d ≫= k) Q.
Proof.
  intros H1 H2 pre rest b c' Hrest. unfold mbind, dec_bind.
  destruct (d (at_ pre rest)) as [[a c1]|] eqn:E; [|done]. intros Hk.
  destruct (H1 _ _ _ _ Hrest E) as (bs1&post1&->&->&HQ1).
  apply Forall_app in Hrest as [_ Hpost].
  destruct (H2 _ _ HQ1 _ _ _ _ Hpost Hk) as (bs2&post2&->&->&HQ).
  exists (bs1 ++ bs2), post2. by rewrite !app_assoc.
Qed.

Lemma consumes_weaken {A} (d : Dec A) (Q1 Q : A → list Z → Prop) :
  consumes d Q1 → (∀ a bs, Q1 a bs → Q a bs) → consumes d Q.
Proof.
  intros H1 H2 pre rest a c' Hr Hd. destruct (H1 _ _ _ _ Hr Hd) as (bs&post&?&?&?).
  exists bs, post. auto.
Qed.

(** ** The primitives *)

Lemma get_range_mid pre bs post :
  get_range (pre ++ bs ++ post) (Z.of_nat (length pre)) (Z.of_nat (length pre + length bs)) = Some bs.
Proof.
  unfold get_range. rewrite !length_app, decide_True by lia.
  replace (Z.to_nat _) with (length bs) by lia. rewrite Nat2Z.id, drop_app_length.
  by rewrite take_app_length.
Qed.

Lemma slice_reads bs : reads (cursor_slice (Z.of_nat (length bs))) bs bs.
Proof.
  intros pre post Hf. unfold cursor_slice, at_, fits in *. cbn [cur_bytes cur_offset].
  rewrite !length_app in Hf. unfold checked_add. rewrite decide_True by lia. cbn [ok_or res_bind].
  rewrite <-Nat2Z.inj_add, get_range_mid. cbn [ok_or res_bind].
  by rewrite <-app_assoc, length_app.
Qed.

Lemma slice_consumes len : 0 ≤ len →
  consumes (cursor_slice len) (λ bs bs', bs = bs' ∧ Z.of_nat (length bs) = len ∧ Forall u8_ok bs).
Proof.
  intros Hlen pre rest a c' Hrest Hs. unfold cursor_slice, at_ in Hs. cbn in Hs.
  rewrite res_bind_ok in Hs. destruct Hs as (e&He&Hs). apply ok_or_ok, checked_add_Some in He as [-> _].
  rewrite res_bind_ok in Hs. destruct Hs as (s&Hg&[= <- <-]). apply ok_or_ok in Hg.
  unfold get_range in Hg. case_decide as Hd; [|done]. injection Hg as <-.
  rewrite length_app in Hd.
  replace (Z.to_nat (Z.of_nat (length pre) + len - Z.of_nat (length pre))) with (Z.to_nat len) by lia.
  rewrite Nat2Z.id, drop_app_length.
  exists (take (Z.to_nat len) rest), (drop (Z.to_nat len) rest). rewrite take_drop.
  split; [done|]. split.
  - unfold at_. rewrite <-app_assoc, take_drop. f_equal. rewrite length_app, length_take. lia.
  - split; [done|]. split; [rewrite length_take; lia|]. by apply Forall_take.
Qed.

(** An [n]-byte unsigned integer. *)
Definition uint_ok (n : nat) (z : Z) : Prop := 0 ≤ z < 256 ^ Z.of_nat n.

Lemma uint_reads n z :
  uint_ok n z → reads (bs ← cursor_take n; mret (from_le_bytes bs)) (to_le_bytes n z) z.
Proof.
  intros Hz. eapply reads_map.
  - unfold cursor_take. rewrite <-(length_to_le_bytes n z) at 1. apply slice_reads.
  - symmetry. by apply from_to_le_bytes.
Qed.

Lemma uint_consumes n :
  consumes (bs ← cursor_take n; mret (from_le_bytes bs)) (λ z bs, uint_ok n z ∧ bs = to_le_bytes n z).
Proof.
  eapply consumes_bind; [apply slice_consumes; lia|]. intros bs ? (<-&Hlen&Hok).
  apply Nat2Z.inj in Hlen. subst n.
  apply consumes_ret. rewrite app_nil_r. split; [by apply from_le_bytes_bound|].
  symmetry. by apply to_from_le_bytes.
Qed.

Lemma u8_uint z : u8_ok z ↔ uint_ok 1 z.
Proof. unfold uint_ok. change (256 ^ Z.of_nat 1) with 256. word_lia. Qed.
Lemma u16_uint z : u16_ok z ↔ uint_ok 2 z.
Proof. unfold uint_ok. change (256 ^ Z.of_nat 2) with 65536. word_lia. Qed.
Lemma u32_uint z : u32_ok z ↔ uint_ok 4 z.
Proof. unfold uint_ok. change (256 ^ Z.of_nat 4) with 4294967296. word_lia. Qed.
Lemma u64_uint z : u64_ok z ↔ uint_ok 8 z.
Proof. unfold uint_ok. change (256 ^ Z.of_nat 8) with 18446744073709551616. word_lia. Qed.

Lemma push_u8_le z : u8_ok z → push_u8 z = to_le_bytes 1 z.
Proof. intros. unfold push_u8. simpl. by rewrite Z.mod_small by word_lia. Qed.

#[export] Instance u8_reads : Reads cursor_u8 push_u8 u8_ok.
Proof. intros z Hz. rewrite push_u8_le by done. by apply uint_reads, u8_uint. Qed.
#[export] Instance u16_reads : Reads cursor_u16 push_u16 u16_ok.
Proof. intros z Hz. by apply uint_reads, u16_uint. Qed.
#[export] Instance u32_reads : Reads cursor_u32 push_u32 u32_ok.
Proof. intros z Hz. by apply uint_reads, u32_uint. Qed.
#[export] Instance u64_reads : Reads cursor_u64 push_u64 u64_ok.
Proof. intros z Hz. by apply uint_reads, u64_uint. Qed.

#[export] Instance u8_exact : Exact cursor_u8 push_u8 u8_ok.
Proof.
  eapply consumes_weaken; [apply uint_consumes|]. intros z bs [Hz%u8_uint ->].
  split; [done|]. by rewrite push_u8_le.
Qed.
#[export] Instance u16_exact : Exact cursor_u16 push_u16 u16_ok.
Proof. eapply consumes_weaken; [apply uint_consumes|]. by intros z bs [Hz%u16_uint ->]. Qed.
#[export] Instance u32_exact : Exact cursor_u32 push_u32 u32_ok.
Proof. eapply consumes_weaken; [apply uint_consumes|]. by intros z bs [Hz%u32_uint ->]. Qed.
#[export] Instance u64_exact : Exact cursor_u64 push_u64 u64_ok.
Proof. eapply consumes_weaken; [apply uint_consumes|]. by intros z bs [Hz%u64_uint ->]. Qed.

Lemma as_unsigned_signed_32 z : u32_ok z → as_unsigned 32 (as_signed 32 z) = z ∧ i32_ok (as_signed 32 z).
Proof.
  unfold as_unsigned, as_signed. change (2 ^ 32) with 4294967296. change (2 ^ (32 - 1)) with 2147483648.
  intros Hz. case_decide.
  - split; [apply Z.mod_small; word_lia|word_lia].
  - split; [|word_lia]. rewrite <-(Z.mod_add _ 1) by done. rewrite Z.mod_small; word_lia.
Qed.
Lemma as_unsigned_32_ok z : u32_ok (as_unsigned 32 z).
Proof.
  unfold as_unsigned. change (2 ^ 32) with 4294967296.
  pose proof (Z.mod_pos_bound z 4294967296 ltac:(lia)). word_lia.
Qed.

#[export] Instance i32_reads : Reads cursor_i32 push_i32 i32_ok.
Proof.
  intros z Hz. unfold cursor_i32, push_i32. eapply reads_map.
  - unfold cursor_take. rewrite <-(length_to_le_bytes 4 (as_unsigned 32 z)) at 1. apply slice_reads.
  - rewrite from_to_le_bytes by (apply u32_uint, as_unsigned_32_ok).
    symmetry. apply as_signed_unsigned; [lia|]. change (2 ^ (32 - 1)) with 2147483648. word_lia.
Qed.
#[export] Instance i32_exact : Exact cursor_i32 push_i32 i32_ok.
Proof.
  unfold Exact, cursor_i32. eapply consumes_bind; [apply slice_consumes; lia|].
  intros bs ? (<-&Hlen&Hok). apply consumes_ret. rewrite app_nil_r.
  pose proof (from_le_bytes_bound bs Hok) as Hb.
  assert (length bs = 4%nat) as Hl by lia. rewrite Hl in Hb. apply u32_uint in Hb.
  destruct (as_unsigned_signed_32 _ Hb) as [Hu ?]. split; [done|].
  unfold push_i32. rewrite Hu, <-Hl. symmetry. by apply to_from_le_bytes.
Qed.

(** ** Composition *)

Lemma reads_result {A B} (d : Dec A) (f : A → result B IpcCodecError) bs a b :
  reads d bs a → f a = Ok b → reads (v ← d; dec_result (f v)) bs b.
Proof.
  intros H1 Hf pre post Hfit. unfold mbind, dec_bind. rewrite H1 by done. by rewrite Hf.
Qed.
Lemma consumes_result {A B} (d : Dec A) (f : A → result B IpcCodecError) Q1 (Q : B → list Z → Prop) :
  consumes d Q1 → (∀ a bs b, Q1 a bs → f a = Ok b → Q b bs) →
  consumes (v ← d; dec_result (f v)) Q.
Proof.
  intros H1 H2. eapply consumes_bind; [done|]. intros a bs Ha.
  destruct (f a) as [b|e] eqn:E; simpl; [|apply consumes_fail].
  apply consumes_ret. rewrite app_nil_r. eauto.
Qed.

(** The next field of a record decoder. *)
Ltac reads_step :=
  first [eapply reads_map; [eapply decodes; try done|reflexivity]
        |eapply reads_bind; [eapply decodes; try done|cbn beta]].
Ltac exact_step :=
  eapply consumes_bind; [eapply decoded|]; cbn beta; intros ? ? [? ->].
(** A whole record decoder, its value destructed. *)
Ltac reads_all := repeat reads_step.
Ltac exact_all := repeat exact_step; apply consumes_ret; rewrite ?app_nil_r.

Definition opt_ok {A} (ok : A → Prop) (o : option A) : Prop :=
  match o with Some a => ok a | None => True end.
Definition rect_ok (r : Rect) : Prop :=
  i32_ok (rx r) ∧ i32_ok (ry r) ∧ i32_ok (rwidth r) ∧ i32_ok (rheight r).
Definition size_ok (s : Size) : Prop := i32_ok (sz_width s) ∧ i32_ok (sz_height s).
Definition transform_ok (t : Transform) : Prop := length (matrix t) = 9%nat ∧ Forall u32_ok (matrix t).
Definition constraints_ok (c : SurfaceConstraints) : Prop :=
  opt_ok size_ok (sc_min_size c) ∧ opt_ok size_ok (sc_max_size c).
Definition node_ok (n : LayoutNodeSnapshot) : Prop :=
  surface_id_ok (ln_surface n) ∧ id_ok (ln_workspace n) ∧ constraints_ok (ln_constraints n)
  ∧ rect_ok (ln_geometry n) ∧ u64_ok (ln_generation n).
(** A list that [check_count] accepts. *)
Definition items_ok {A} (ok : A → Prop) (l : list A) : Prop :=
  Z.of_nat (length l) ≤ SOPHIA_IPC_MAX_ITEMS ∧ Forall ok l.

#[export] Instance opt_ok_dec {A} (ok : A → Prop) `{∀ a, Decision (ok a)} (o : option A) :
  Decision (opt_ok ok o).
Proof. destruct o; simpl; apply _. Defined.
#[export] Instance items_ok_dec {A} (ok : A → Prop) `{∀ a, Decision (ok a)} (l : list A) :
  Decision (items_ok ok l).
Proof. unfold items_ok; apply _. Defined.
#[export] Instance rect_ok_dec r : Decision (rect_ok r).
Proof. unfold rect_ok; apply _. Defined.
#[export] Instance size_ok_dec s : Decision (size_ok s).
Proof. unfold size_ok; apply _. Defined.
#[export] Instance transform_ok_dec t : Decision (transform_ok t).
Proof. unfold transform_ok; apply _. Defined.
#[export] Instance constraints_ok_dec c : Decision (constraints_ok c).
Proof. unfold constraints_ok; apply _. Defined.
#[export] Instance node_ok_dec n : Decision (node_ok n).
Proof. unfold node_ok; apply _. Defined.

#[export] Instance surface_reads : Reads decode_surface_id encode_surface_id surface_id_ok.
Proof. intros [i g] [? ?]. unfold decode_surface_id, encode_surface_id. reads_all. Qed.
#[export] Instance surface_exact : Exact decode_surface_id encode_surface_id surface_id_ok.
Proof. unfold Exact, decode_surface_id. exact_all. done. Qed.
#[export] Instance id_reads k : Reads (@decode_id k) encode_id id_ok.
Proof. intros [r] ?. unfold decode_id, encode_id. reads_all. Qed.
#[export] Instance id_exact k : Exact (@decode_id k) encode_id id_ok.
Proof. unfold Exact, decode_id. exact_all. done. Qed.
#[export] Instance rect_reads : Reads decode_rect encode_rect rect_ok.
Proof. intros [x y w h] (?&?&?&?). unfold decode_rect, encode_rect. reads_all. Qed.
#[export] Instance rect_exact : Exact decode_rect encode_rect rect_ok.
Proof. unfold Exact, decode_rect. exact_all. done. Qed.
#[export] Instance size_reads : Reads decode_size encode_size size_ok.
Proof. intros [w h] [? ?]. unfold decode_size, encode_size. reads_all. Qed.
#[export] Instance size_exact : Exact decode_size encode_size size_ok.
Proof. unfold Exact, decode_size. exact_all. done. Qed.

#[export] Instance option_reads {A} field (d : Dec A) e ok `{!Reads d e ok} :
  Reads (decode_option field d) (encode_option e) (opt_ok ok).
Proof.
  intros [a|] Ha; unfold decode_option, encode_option.
  - eapply reads_bind; [apply decodes; word_lia|]. simpl.
    eapply reads_map; [by apply decodes|done].
  - rewrite <-(app_nil_r (push_u8 0)). eapply reads_bind; [apply decodes; word_lia|]. apply reads_ret.
Qed.
#[export] Instance option_exact {A} field (d : Dec A) e ok `{!Exact d e ok} :
  Exact (decode_option field d) (encode_option e) (opt_ok ok).
Proof.
  unfold Exact, decode_option. exact_step. case_decide as H0; [subst|].
  { apply consumes_ret. by rewrite app_nil_r. }
  case_decide as H1; [subst|apply consumes_fail].
  eapply consumes_bind; [eapply decoded|]; cbn beta; intros a' ? [? ->].
  apply consumes_ret. by rewrite app_nil_r.
Qed.
#[export] Instance option_size_reads : Reads decode_option_size encode_option_size (opt_ok size_ok) :=
  option_reads _ _ _ _.
#[export] Instance option_size_exact : Exact decode_option_size encode_option_size (opt_ok size_ok) :=
  option_exact _ _ _ _.
#[export] Instance option_rect_reads : Reads decode_option_rect encode_option_rect (opt_ok rect_ok) :=
  option_reads _ _ _ _.
#[export] Instance option_rect_exact : Exact decode_option_rect encode_option_rect (opt_ok rect_ok) :=
  option_exact _ _ _ _.
#[export] Instance constraints_reads : Reads decode_constraints encode_constraints constraints_ok.
Proof. intros [mi ma] [? ?]. unfold decode_constraints, encode_constraints. reads_all. Qed.

(** Repetition. *)
Lemma many_reads {A} (d : Dec A) e ok `{!Reads d e ok} l :
  Forall ok l → reads (decode_many d (length l)) (l ≫= e) l.
Proof.
  induction 1 as [|a l Ha Hl IH]; cbn [decode_many length]; [apply reads_ret|]. csimpl.
  eapply reads_bind; [by apply decodes|]. eapply reads_map; [exact IH|done].
Qed.
Lemma many_consumes {A} (d : Dec A) e ok `{!Exact d e ok} n :
  consumes (decode_many d n) (λ l bs, length l = n ∧ Forall ok l ∧ bs = l ≫= e).
Proof.
  induction n as [|n IH]; cbn [decode_many].
  { by apply consumes_ret. }
  exact_step. eapply consumes_bind; [exact IH|]. intros l ? (Hl&?&->).
  apply consumes_ret. rewrite app_nil_r. csimpl. split; [congruence|]. split; [by constructor|done].
Qed.

Lemma count_reads n : 0 ≤ n ≤ SOPHIA_IPC_MAX_ITEMS → reads decode_count (push_u32 n) n.
Proof.
  intros Hn. unfold decode_count. rewrite <-(app_nil_r (push_u32 n)).
  eapply reads_bind; [apply decodes; unfold SOPHIA_IPC_MAX_ITEMS in *; word_lia|].
  unfold check_count. rewrite decide_False by lia. apply reads_ret.
Qed.
Lemma count_consumes :
  consumes decode_count (λ n bs, 0 ≤ n ≤ SOPHIA_IPC_MAX_ITEMS ∧ bs = push_u32 n).
Proof.
  unfold decode_count. exact_step. unfold check_count. case_decide; [apply consumes_fail|].
  apply consumes_ret. rewrite app_nil_r. split; [word_lia|done].
Qed.

#[export] Instance counted_reads {A} (d : Dec A) e ok `{!Reads d e ok} :
  Reads (decode_counted d) (encode_counted e) (items_ok ok).
Proof.
  intros l [Hl HF]. unfold decode_counted, encode_counted.
  eapply reads_bind; [apply count_reads; lia|]. rewrite Nat2Z.id. by eapply many_reads.
Qed.
#[export] Instance counted_exact {A} (d : Dec A) e ok `{!Exact d e ok} :
  Exact (decode_counted d) (encode_counted e) (items_ok ok).
Proof.
  unfold Exact, decode_counted. eapply consumes_bind; [apply count_consumes|].
  intros n ? [Hn ->]. eapply consumes_weaken; [apply (many_consumes d e ok)|].
  intros l bs (Hl&HF&->). unfold items_ok, encode_counted.
  rewrite Hl, Z2Nat.id by lia. split; [split; [lia|done]|done].
Qed.

#[export] Instance transform_reads : Reads decode_transform encode_transform transform_ok.
Proof.
  intros [m] [Hl HF]. unfold decode_transform, encode_transform. cbn [matrix] in *.
  pose proof (many_reads cursor_u32 push_u32 u32_ok m HF) as Hm. rewrite Hl in Hm.
  eapply reads_map; [exact Hm|done].
Qed.
#[export] Instance transform_exact : Exact decode_transform encode_transform transform_ok.
Proof.
  unfold Exact, decode_transform. eapply consumes_bind; [apply (many_consumes cursor_u32 push_u32 u32_ok)|].
  intros m ? (Hl&HF&->). apply consumes_ret. by rewrite app_nil_r.
Qed.

(** Enumerations and flags. *)
Lemma decode_layout_node_kind_ok v k :
  decode_layout_node_kind v = Ok k ↔ v = encode_layout_node_kind k.
Proof.
  split; [|intros ->; by destruct k].
  unfold decode_layout_node_kind. repeat case_match; intros [= <-]; done.
Qed.

#[export] Instance node_kind_reads :
  Reads (v ← cursor_u16; dec_result (decode_layout_node_kind v))
    (λ k, push_u16 (encode_layout_node_kind k)) (λ _, True).
Proof.
  intros k _. eapply reads_result; [apply decodes; destruct k; simpl; word_lia|].
  by apply decode_layout_node_kind_ok.
Qed.

Lemma flag_flags b0 b1 b2 b3 b4 :
  let v := flags b0 b1 b2 b3 b4 in
  flag v 0 = b0 ∧ flag v 1 = b1 ∧ flag v 2 = b2 ∧ flag v 3 = b3 ∧ flag v 4 = b4 ∧ u16_ok v.
Proof. destruct b0, b1, b2, b3, b4; vm_compute; intuition congruence. Qed.

#[export] Instance capabilities_reads :
  Reads (v ← cursor_u16; mret (decode_capabilities v))
    (λ c, push_u16 (encode_capabilities c)) (λ _, True).
Proof.
  intros [b0 b1 b2 b3 b4] _. unfold encode_capabilities; simpl.
  destruct (flag_flags b0 b1 b2 b3 b4) as (F0&F1&F2&F3&F4&?).
  eapply reads_map; [by apply decodes|]. unfold decode_capabilities. by rewrite F0, F1, F2, F3, F4.
Qed.
#[export] Instance node_state_reads :
  Reads (v ← cursor_u16; mret (decode_node_state v))
    (λ s, push_u16 (encode_node_state s)) (λ _, True).
Proof.
  intros [b0 b1 b2 b3 b4] _. unfold encode_node_state; simpl.
  destruct (flag_flags b0 b1 b2 b3 b4) as (F0&F1&F2&F3&F4&?).
  eapply reads_map; [by apply decodes|]. unfold decode_node_state. by rewrite F0, F1, F2, F3, F4.
Qed.

#[export] Instance layout_node_reads : Reads decode_layout_node encode_layout_node node_ok.
Proof.
  intros [s w k c st co g ge] (?&?&?&?&?). unfold decode_layout_node, encode_layout_node.
  cbn [ln_surface ln_workspace ln_kind ln_capabilities ln_state ln_constraints ln_geometry
       ln_generation] in *.
  do 2 reads_step.
  eapply reads_bind; [apply (decodes (Reads := node_kind_reads) k I)|cbn beta].
  eapply reads_bind; [apply (decodes (Reads := capabilities_reads) c I)|cbn beta].
  eapply reads_bind; [apply (decodes (Reads := node_state_reads) st I)|cbn beta].
  reads_all.
Qed.

(** Text. *)
Definition text_bytes (o : option (list Z)) : list Z :=
  match o with
  | Some v => push_u8 1 ++ push_u16 (str_len v) ++ v
  | None => push_u8 0
  end.
(** A [String] of at most [max] bytes, or none. *)
Definition text_ok (max : Z) (o : option (list Z)) : Prop :=
  match o with Some v => utf8_ok v ∧ Forall u8_ok v ∧ str_len v ≤ max | None => True end.

Lemma encode_optional_text_ok field o max bs :
  encode_optional_text field o max = Ok bs ↔
  bs = text_bytes o ∧ match o with Some v => str_len v ≤ max | None => True end.
Proof.
  unfold encode_optional_text, text_bytes. destruct o as [v|]; [case_decide|]; naive_solver lia.
Qed.

Lemma text_reads field max : max ≤ u16_MAX →
  Reads (decode_optional_text field max) text_bytes (text_ok max).
Proof.
  intros Hmax [v|] Hv; unfold decode_optional_text, text_bytes.
  - destruct Hv as (Hu&Hb&Hl). eapply reads_bind; [apply decodes; word_lia|].
    rewrite decide_False, decide_True by done.
    eapply reads_bind; [apply decodes; unfold str_len in *; word_lia|].
    rewrite decide_False by lia. rewrite <-(app_nil_r v) at 2.
    eapply reads_bind; [apply slice_reads|]. rewrite decide_True by done. apply reads_ret.
  - rewrite <-(app_nil_r (push_u8 0)). eapply reads_bind; [apply decodes; word_lia|]. apply reads_ret.
Qed.
Lemma text_exact field max : Exact (decode_optional_text field max) text_bytes (text_ok max).
Proof.
  unfold Exact, decode_optional_text. exact_step. case_decide as H0; [subst|].
  { apply consumes_ret. by rewrite app_nil_r. }
  case_decide as H1; [subst|apply consumes_fail].
  exact_step. case_decide; [apply consumes_fail|].
  eapply consumes_bind; [apply slice_consumes; word_lia|]. intros v ? (<-&Hl&Hb).
  case_decide; [|apply consumes_fail]. apply consumes_ret. rewrite !app_nil_r.
  unfold text_ok, text_bytes, str_len. rewrite Hl. split; [split; [done|split; [done|lia]]|done].
Qed.

(** ** Frames *)

Lemma decode_message_kind_ok v k : decode_message_kind v = Ok k ↔ v = message_kind_code k.
Proof.
  split; [|intros ->; by destruct k].
  unfold decode_message_kind. repeat case_match; intros [= <-]; done.
Qed.

Definition header_bytes (h : IpcFrameHeader) : list Z :=
  push_u32 SOPHIA_IPC_MAGIC ++ push_u16 SOPHIA_IPC_VERSION
  ++ push_u16 (message_kind_code (fh_message_kind h)) ++ encode_id (fh_transaction h)
  ++ push_u32 (fh_payload_len h) ++ push_u32 0.
Definition header_ok (h : IpcFrameHeader) : Prop :=
  id_ok (fh_transaction h) ∧ u32_ok (fh_payload_len h).

Lemma length_header_bytes h : length (header_bytes h) = 24%nat.
Proof. unfold header_bytes, encode_id. rewrite !length_app. done. Qed.

Lemma header_reads : Reads decode_header header_bytes header_ok.
Proof.
  intros [k t n] [? ?]. unfold decode_header, header_bytes. cbn [fh_message_kind fh_transaction fh_payload_len] in *.
  eapply reads_bind; [apply decodes; unfold SOPHIA_IPC_MAGIC; word_lia|]. rewrite decide_False by tauto.
  eapply reads_bind; [apply decodes; unfold SOPHIA_IPC_VERSION; word_lia|].
  rewrite decide_False by tauto.
  eapply reads_bind; [eapply reads_result; [apply decodes; destruct k; simpl; word_lia|]|cbn beta].
  { by apply decode_message_kind_ok. }
  do 2 reads_step. rewrite <-(app_nil_r (push_u32 0)).
  eapply reads_bind; [apply decodes; word_lia|]. rewrite decide_False by tauto. apply reads_ret.
Qed.
Lemma header_exact : Exact decode_header header_bytes header_ok.
Proof.
  unfold Exact, decode_header. exact_step. case_decide; [apply consumes_fail|]. subst.
  exact_step. case_decide; [apply consumes_fail|]. subst.
  eapply consumes_bind; [eapply (consumes_result _ _ _ (λ k bs, bs = push_u16 (message_kind_code k)));
                         [apply decoded|]|].
  { intros v bs k [_ ->] Hk. apply decode_message_kind_ok in Hk as ->. done. }
  intros k ? ->. do 2 exact_step. exact_step. case_decide; [apply consumes_fail|]. subst.
  by apply consumes_ret.
Qed.

Lemma encode_frame_ok k t p f :
  encode_frame k t p = Ok f ↔
  Z.of_nat (length p) ≤ SOPHIA_IPC_MAX_PAYLOAD_LEN
  ∧ f = header_bytes (mk_frame_header k t (Z.of_nat (length p))) ++ p.
Proof.
  unfold encode_frame, header_bytes, encode_id. cbn [fh_message_kind fh_transaction fh_payload_len].
  case_decide; rewrite <-!app_assoc; naive_solver lia.
Qed.

Lemma decode_encode_frame k t p f :
  id_ok t → encode_frame k t p = Ok f →
  decode_frame f = Ok (mk_frame_header k t (Z.of_nat (length p)), p).
Proof.
  intros Ht [Hl ->]%encode_frame_ok. unfold decode_frame. set (h := mk_frame_header _ _ _).
  assert (header_ok h) as Hh by (split; [done|]; unfold SOPHIA_IPC_MAX_PAYLOAD_LEN in Hl; simpl; word_lia).
  unfold SOPHIA_IPC_HEADER_LEN, SOPHIA_IPC_MAX_PAYLOAD_LEN in *.
  rewrite length_app, length_header_bytes. rewrite decide_True by lia.
  pose proof (header_reads h Hh [] p) as Hr. unfold at_, fits in Hr. cbn [app length] in Hr.
  change (mk_cursor (header_bytes h ++ p) (Z.of_nat 0)) with (cursor_new (header_bytes h ++ p)) in Hr.
  rewrite Hr by (rewrite length_app, length_header_bytes; word_lia). cbn [res_bind].
  change (fh_payload_len h) with (Z.of_nat (length p)). rewrite decide_True by lia.
  unfold checked_add. rewrite decide_True by word_lia. cbn [ok_or res_bind].
  rewrite !decide_True by lia. f_equal. f_equal.
  change (Z.to_nat 24) with 24%nat. rewrite <-(length_header_bytes h), drop_app_length, Nat2Z.id.
  by rewrite firstn_all.
Qed.

Lemma encode_decode_frame f h p :
  Forall u8_ok f → decode_frame f = Ok (h, p) →
  header_ok h ∧ fh_payload_len h = Z.of_nat (length p) ∧ Forall u8_ok p
  ∧ encode_frame (fh_message_kind h) (fh_transaction h) p = Ok f.
Proof.
  intros Hf Hd. unfold decode_frame in Hd. cbv zeta in Hd.
  case_decide as Hlen; [|done]. destruct (decode_header (cursor_new f)) as [[h' c]|] eqn:Eh; [|done].
  cbn [res_bind] in Hd. case_decide as Hmax; [|done]. rewrite res_bind_ok in Hd.
  destruct Hd as (e&He&Hd). apply ok_or_ok, checked_add_Some in He as [-> _].
  do 2 (case_decide; [|done]). injection Hd as -> <-.
  destruct (header_exact [] f h c Hf Eh) as (bs&post&->&_&Hok&->).
  unfold SOPHIA_IPC_HEADER_LEN, SOPHIA_IPC_MAX_PAYLOAD_LEN in *.
  rewrite length_app, length_header_bytes in *. change (Z.to_nat 24) with 24%nat.
  rewrite <-(length_header_bytes h), drop_app_length.
  assert (fh_payload_len h = Z.of_nat (length post)) as Hp by lia.
  rewrite Hp, Nat2Z.id, firstn_all. split; [done|]. split; [done|].
  split; [by apply Forall_app in Hf as [_ ?]|]. apply encode_frame_ok.
  split; [unfold SOPHIA_IPC_MAX_PAYLOAD_LEN; lia|]. rewrite <-Hp. by destruct h.
Qed.

(** Frames are exact.  For every byte string [f], kind, transaction and
    payload: decoding [f] gives that header and payload exactly when encoding them
    gives [f].  So a decoded frame has the magic number, the version, a known kind,
    a zero reserved word, a payload of at most 64 KiB and no trailing bytes; no two
    frames carry the same content, and every frame the program writes is read
    back unchanged. *)
Theorem frame_exact (f : list Z) (k : IpcMessageKind) (t : TransactionId) (p : list Z) :
  Forall u8_ok f → id_ok t →
  decode_frame f = Ok (mk_frame_header k t (Z.of_nat (length p)), p) ↔ encode_frame k t p = Ok f.
Proof.
  intros Hf Ht. split; [|by apply decode_encode_frame].
  intros Hd. by destruct (encode_decode_frame _ _ _ Hf Hd) as (_&_&_&He).
Qed.

Lemma frame_exact_witness :
  ∃ f, encode_frame KWmHello (from_raw 258) [1; 2; 3] = Ok f
    ∧ decode_frame f = Ok (mk_frame_header KWmHello (from_raw 258) 3, [1; 2; 3]).
Proof.
  exists ([83; 79; 80; 72; 1; 0; 9; 0; 2; 1; 0; 0; 0; 0; 0; 0; 3; 0; 0; 0; 0; 0; 0; 0; 1; 2; 3]).
  split; [vm_compute; reflexivity|].
  apply (frame_exact _ KWmHello (from_raw 258) [1; 2; 3]).
  - apply (bool_decide_unpack _). vm_compute. exact I.
  - unfold id_ok; simpl; word_lia.
  - vm_compute. reflexivity.
Defined.
