(* ===== verification/IpcWm.v ===== *)
(** * Window-manager messages over IPC
    ([sophia-protocol/src/ipc/wm.rs], the stream functions of
    [sophia-engine/src/wm.rs])

    A reader is the bytes it will still deliver; the text of an I/O error is the
    parameter [io_error]. *)

From stdpp Require Import strings.
From S2P Require Import Prelude Ids Geometry Packets Errors Text Codec.
Local Open Scope Z_scope.

Definition expect_message_kind (actual expected : IpcMessageKind) : result unit IpcCodecError :=
  if decide (actual = expected) then Ok tt
  else Err (InvalidEnum "message_kind" (message_kind_code actual)).

(** [Cursor::new(payload)], the payload's decoder, [cursor.finish()?]. *)
Definition decode_payload {A} (d : Dec A) (payload : list Z) : result A IpcCodecError :=
  let? '(a, c) := d (cursor_new payload) in
  let? _u := cursor_finish c in
  Ok a.

(** ** Small parts *)

Definition encode_session_action (a : WmSessionAction) : Z :=
  match a with
  | LaunchTerminal => 1 | LaunchApplicationMenu => 2 | LaunchFirefox => 3 | CloseFocused => 4
  | Logout => 5
  end.
Definition decode_session_action (v : Z) : result WmSessionAction IpcCodecError :=
  match v with
  | 1 => Ok LaunchTerminal | 2 => Ok LaunchApplicationMenu | 3 => Ok LaunchFirefox
  | 4 => Ok CloseFocused | 5 => Ok Logout
  | other => Err (InvalidEnum "wm_session_action" other)
  end.

Definition encode_option_surface (s : option SurfaceId) : list Z :=
  match s with Some s => push_u16 1 ++ encode_surface_id s | None => push_u16 0 end.
(** [u8::try_from(other).unwrap_or(u8::MAX)] *)
Definition decode_option_surface : Dec (option SurfaceId) :=
  tag ← cursor_u16;
  if decide (tag = 0) then mret None
  else if decide (tag = 1) then s ← decode_surface_id; mret (Some s)
  else dec_fail (InvalidBool "optional_surface" (if decide (tag ≤ u8_MAX) then tag else u8_MAX)).

(** ** Hello and session descriptor *)

Definition encode_binding (b : WmBindingRegistration) : list Z :=
  push_u64 (raw (wb_action b)) ++ push_u32 (wb_keycode b) ++ push_u32 (wb_modifiers b).
Definition decode_binding : Dec WmBindingRegistration :=
  action ← decode_id; keycode ← cursor_u32; modifiers ← cursor_u32;
  mret (mk_binding action keycode modifiers).

Definition encode_wm_hello_frame (hello : WmHello) : result (list Z) IpcCodecError :=
  let? _u := check_count (Z.of_nat (length (wh_bindings hello))) in
  encode_frame KWmHello INVALID
    (push_u16 (wh_api_version hello) ++ push_u64 (wh_capabilities hello)
     ++ encode_counted encode_binding (wh_bindings hello)).
Definition decode_wm_hello_payload : Dec WmHello :=
  api_version ← cursor_u16; capabilities ← cursor_u64; bindings ← decode_counted decode_binding;
  mret (mk_hello api_version capabilities bindings).
Definition decode_wm_hello_frame (frame : list Z) : result WmHello IpcCodecError :=
  let? '(header, payload) := decode_frame frame in
  let? _u := expect_message_kind (fh_message_kind header) KWmHello in
  decode_payload decode_wm_hello_payload payload.

Definition encode_output_workspace (a : WmOutputWorkspace) : list Z :=
  encode_id (ow_output a) ++ encode_id (ow_workspace a).
Definition decode_output_workspace : Dec WmOutputWorkspace :=
  output ← decode_id; workspace ← decode_id; mret (mk_output_workspace output workspace).

Definition encode_wm_session_descriptor_frame (d : WmSessionDescriptor) :
    result (list Z) IpcCodecError :=
  let? _u1 := check_count (Z.of_nat (length (wd_workspaces d))) in
  let? _u2 := check_count (Z.of_nat (length (wd_active_workspaces d))) in
  let? _u3 := check_count (Z.of_nat (length (wd_session_actions d))) in
  encode_frame KWmSessionDescriptor INVALID
    (push_u16 (wd_api_version d) ++ encode_counted encode_id (wd_workspaces d)
     ++ encode_counted encode_output_workspace (wd_active_workspaces d)
     ++ encode_counted (λ a, push_u16 (encode_session_action a)) (wd_session_actions d)).
Definition decode_wm_session_descriptor_payload : Dec WmSessionDescriptor :=
  api_version ← cursor_u16;
  workspaces ← decode_counted decode_id;
  active_workspaces ← decode_counted decode_output_workspace;
  session_actions ← decode_counted (v ← cursor_u16; dec_result (decode_session_action v));
  mret (mk_descriptor api_version workspaces active_workspaces session_actions).
Definition decode_wm_session_descriptor_frame (frame : list Z) :
    result WmSessionDescriptor IpcCodecError :=
  let? '(header, payload) := decode_frame frame in
  let? _u := expect_message_kind (fh_message_kind header) KWmSessionDescriptor in
  decode_payload decode_wm_session_descriptor_payload payload.

(** ** Requests *)

Definition encode_wm_request_payload (r : WmRequestPacket) : result (list Z) IpcCodecError :=
  match wq_kind r with
  | ManageSurface m =>
      Ok (push_u16 1 ++ encode_id (wms_output m) ++ encode_id (wms_workspace m)
          ++ encode_rect (wms_bounds m) ++ encode_layout_node (wms_node m))
  | RelayoutWorkspace w =>
      let? _u := check_count (Z.of_nat (length (wr_nodes w))) in
      Ok (push_u16 2 ++ encode_id (wr_output w) ++ encode_id (wr_workspace w)
          ++ encode_rect (wr_bounds w) ++ encode_counted encode_layout_node (wr_nodes w))
  | SurfaceRemoved surface workspace =>
      Ok (push_u16 3 ++ encode_surface_id surface ++ encode_id workspace)
  | ActionActivated a =>
      let? _u := check_count (Z.of_nat (length (wa_nodes a))) in
      Ok (push_u16 4 ++ push_u64 (raw (wa_action a)) ++ encode_id (wa_output a)
          ++ encode_id (wa_workspace a) ++ encode_option_surface (wa_focused_surface a)
          ++ encode_counted encode_layout_node (wa_nodes a))
  end.

Definition decode_wm_request_kind (tag : Z) : Dec WmRequestKind :=
  match tag with
  | 1 =>
      output ← decode_id; workspace ← decode_id; bounds ← decode_rect; node ← decode_layout_node;
      mret (ManageSurface (mk_manage node output workspace bounds))
  | 2 =>
      output ← decode_id; workspace ← decode_id; bounds ← decode_rect;
      nodes ← decode_counted decode_layout_node;
      mret (RelayoutWorkspace (mk_relayout output workspace bounds nodes))
  | 3 =>
      surface ← decode_surface_id; workspace ← decode_id;
      mret (SurfaceRemoved surface workspace)
  | 4 =>
      action ← decode_id; output ← decode_id; workspace ← decode_id;
      focused_surface ← decode_option_surface; nodes ← decode_counted decode_layout_node;
      mret (ActionActivated (mk_activation action output workspace focused_surface nodes))
  | other => dec_fail (InvalidEnum "wm_request_kind" other)
  end.
Definition decode_wm_request_payload (transaction : TransactionId) : Dec WmRequestPacket :=
  kind ← (tag ← cursor_u16; decode_wm_request_kind tag);
  mret (mk_wm_request transaction kind).

Definition encode_wm_request_frame (r : WmRequestPacket) : result (list Z) IpcCodecError :=
  let? payload := encode_wm_request_payload r in
  encode_frame KWmRequest (wq_transaction r) payload.
Definition decode_wm_request_frame (frame : list Z) : result WmRequestPacket IpcCodecError :=
  let? '(header, payload) := decode_frame frame in
  let? _u := expect_message_kind (fh_message_kind header) KWmRequest in
  decode_payload (decode_wm_request_payload (fh_transaction header)) payload.

(** ** Responses *)

Definition encode_command (c : WmCommand) : list Z :=
  match c with
  | ConfigureSurface r => push_u16 1 ++ encode_surface_id (sr_surface r) ++ encode_size (sr_size r)
  | FocusSurface s => push_u16 2 ++ encode_surface_id s
  | AssignWorkspace s w => push_u16 3 ++ encode_surface_id s ++ encode_id w
  | RenderSurface p =>
      push_u16 4 ++ encode_surface_id (sp_surface p) ++ encode_rect (sp_geometry p)
      ++ push_i32 (sp_z_index p) ++ encode_option_rect (sp_crop p) ++ encode_transform (sp_transform p)
  | ActivateWorkspace o w => push_u16 5 ++ encode_id o ++ encode_id w
  | RequestSessionAction a t =>
      push_u16 6 ++ push_u16 (encode_session_action a) ++ encode_option_surface t
  end.
Definition decode_command_of (tag : Z) : Dec WmCommand :=
  match tag with
  | 1 =>
      surface ← decode_surface_id; size ← decode_size;
      mret (ConfigureSurface (mk_size_request surface size))
  | 2 => surface ← decode_surface_id; mret (FocusSurface surface)
  | 3 => surface ← decode_surface_id; workspace ← decode_id; mret (AssignWorkspace surface workspace)
  | 4 =>
      surface ← decode_surface_id; geometry ← decode_rect; z_index ← cursor_i32;
      crop ← decode_option_rect; transform ← decode_transform;
      mret (RenderSurface (mk_placement surface geometry z_index crop transform))
  | 5 => output ← decode_id; workspace ← decode_id; mret (ActivateWorkspace output workspace)
  | 6 =>
      action ← (v ← cursor_u16; dec_result (decode_session_action v));
      target ← decode_option_surface;
      mret (RequestSessionAction action target)
  | other => dec_fail (InvalidEnum "wm_command" other)
  end.
Definition decode_command : Dec WmCommand := tag ← cursor_u16; decode_command_of tag.

Definition encode_wm_response_payload (r : WmResponsePacket) : result (list Z) IpcCodecError :=
  let? _u := check_count (Z.of_nat (length (wp_commands r))) in
  Ok (push_u32 (wp_timeout_msec r) ++ encode_counted encode_command (wp_commands r)).
Definition decode_wm_response_payload (transaction : TransactionId) : Dec WmResponsePacket :=
  timeout_msec ← cursor_u32; commands ← decode_counted decode_command;
  mret (mk_wm_response transaction commands timeout_msec).

Definition encode_wm_response_frame (r : WmResponsePacket) : result (list Z) IpcCodecError :=
  let? payload := encode_wm_response_payload r in
  encode_frame KWmResponse (wp_transaction r) payload.
Definition decode_wm_response_frame (frame : list Z) : result WmResponsePacket IpcCodecError :=
  let? '(header, payload) := decode_frame frame in
  let? _u := expect_message_kind (fh_message_kind header) KWmResponse in
  decode_payload (decode_wm_response_payload (fh_transaction header)) payload.

(** ** Over a stream *)

Section stream.
Variable io_error : list Z.

(** [reader.read_exact] of [n] bytes: the bytes, and what the reader has left. *)
Definition read_exact (n : Z) (reader : list Z) : result (list Z * list Z) WmIpcError :=
  if decide (n ≤ Z.of_nat (length reader))
  then Ok (take (Z.to_nat n) reader, drop (Z.to_nat n) reader) else Err (WmIo io_error).

(** The payload length is bytes 16 to 19 of the header. *)
Definition read_ipc_frame (reader : list Z) : result (list Z * list Z) WmIpcError :=
  let? '(header, reader) := read_exact SOPHIA_IPC_HEADER_LEN reader in
  let payload_len := from_le_bytes (take 4 (drop 16 header)) in
  if decide (SOPHIA_IPC_MAX_PAYLOAD_LEN < payload_len)
  then Err (WmCodec (PayloadTooLarge payload_len))
  else
    let? '(payload, reader) := read_exact payload_len reader in
    Ok (header ++ payload, reader).

Definition read_wm_response_frame (reader : list Z) : result (WmResponsePacket * list Z) WmIpcError :=
  let? '(frame, reader) := read_ipc_frame reader in
  let? response := map_err WmCodec (decode_wm_response_frame frame) in
  Ok (response, reader).

(** [write] is what becomes of the request's bytes: an I/O error, or what the
    reader delivers from then on. *)
Definition request_wm_over_stream (write : list Z → result (list Z) (list Z))
    (request : WmRequestPacket) : result (WmResponsePacket * list Z) WmIpcError :=
  let? frame := map_err WmCodec (encode_wm_request_frame request) in
  let? reader := map_err WmIo (write frame) in
  let? '(response, reader) := read_wm_response_frame reader in
  if decide (wp_transaction response ≠ wq_transaction request)
  then Err (TransactionMismatch (wq_transaction request) (wp_transaction response))
  else Ok (response, reader).

End stream.

(** ** Messages of the machine's types *)

Definition binding_ok (b : WmBindingRegistration) : Prop :=
  id_ok (wb_action b) ∧ u32_ok (wb_keycode b) ∧ u32_ok (wb_modifiers b).
Definition hello_ok (h : WmHello) : Prop :=
  u16_ok (wh_api_version h) ∧ u64_ok (wh_capabilities h) ∧ items_ok binding_ok (wh_bindings h).
Definition output_workspace_ok (a : WmOutputWorkspace) : Prop := id_ok (ow_output a) ∧ id_ok (ow_workspace a).
Definition descriptor_ok (d : WmSessionDescriptor) : Prop :=
  u16_ok (wd_api_version d) ∧ items_ok id_ok (wd_workspaces d)
  ∧ items_ok output_workspace_ok (wd_active_workspaces d)
  ∧ items_ok (λ _, True) (wd_session_actions d).
Definition placement_ok (p : SurfacePlacement) : Prop :=
  surface_id_ok (sp_surface p) ∧ rect_ok (sp_geometry p) ∧ i32_ok (sp_z_index p)
  ∧ opt_ok rect_ok (sp_crop p) ∧ transform_ok (sp_transform p).
Definition command_ok (c : WmCommand) : Prop :=
  match c with
  | ConfigureSurface r => surface_id_ok (sr_surface r) ∧ size_ok (sr_size r)
  | FocusSurface s => surface_id_ok s
  | AssignWorkspace s w => surface_id_ok s ∧ id_ok w
  | RenderSurface p => placement_ok p
  | ActivateWorkspace o w => id_ok o ∧ id_ok w
  | RequestSessionAction a t => opt_ok surface_id_ok t
  end.
Definition response_ok (r : WmResponsePacket) : Prop :=
  id_ok (wp_transaction r) ∧ u32_ok (wp_timeout_msec r) ∧ items_ok command_ok (wp_commands r).
Definition request_kind_ok (k : WmRequestKind) : Prop :=
  match k with
  | ManageSurface m =>
      id_ok (wms_output m) ∧ id_ok (wms_workspace m) ∧ rect_ok (wms_bounds m) ∧ node_ok (wms_node m)
  | RelayoutWorkspace w =>
      id_ok (wr_output w) ∧ id_ok (wr_workspace w) ∧ rect_ok (wr_bounds w)
      ∧ Forall node_ok (wr_nodes w)
  | SurfaceRemoved s w => surface_id_ok s ∧ id_ok w
  | ActionActivated a =>
      id_ok (wa_action a) ∧ id_ok (wa_output a) ∧ id_ok (wa_workspace a)
      ∧ opt_ok surface_id_ok (wa_focused_surface a) ∧ Forall node_ok (wa_nodes a)
  end.
Definition request_ok (r : WmRequestPacket) : Prop :=
  id_ok (wq_transaction r) ∧ request_kind_ok (wq_kind r).

#[export] Instance binding_ok_dec b : Decision (binding_ok b).
Proof. unfold binding_ok; apply _. Defined.
#[export] Instance hello_ok_dec h : Decision (hello_ok h).
Proof. unfold hello_ok; apply _. Defined.
#[export] Instance output_workspace_ok_dec a : Decision (output_workspace_ok a).
Proof. unfold output_workspace_ok; apply _. Defined.
#[export] Instance descriptor_ok_dec d : Decision (descriptor_ok d).
Proof. unfold descriptor_ok; apply _. Defined.
#[export] Instance placement_ok_dec p : Decision (placement_ok p).
Proof. unfold placement_ok; apply _. Defined.
#[export] Instance command_ok_dec c : Decision (command_ok c).
Proof. destruct c; simpl; apply _. Defined.
#[export] Instance response_ok_dec r : Decision (response_ok r).
Proof. unfold response_ok; apply _. Defined.
#[export] Instance request_kind_ok_dec k : Decision (request_kind_ok k).
Proof. destruct k; simpl; apply _. Defined.
#[export] Instance request_ok_dec r : Decision (request_ok r).
Proof. unfold request_ok; apply _. Defined.

(** ** The decoders read the encodings *)

Lemma decode_session_action_ok v a : decode_session_action v = Ok a ↔ v = encode_session_action a.
Proof.
  split; [|intros ->; by destruct a].
  unfold decode_session_action. repeat case_match; intros [= <-]; done.
Qed.

#[export] Instance session_action_reads :
  Reads (v ← cursor_u16; dec_result (decode_session_action v))
    (λ a, push_u16 (encode_session_action a)) (λ _, True).
Proof.
  intros a _. eapply reads_result; [apply decodes; destruct a; simpl; word_lia|].
  by apply decode_session_action_ok.
Qed.
#[export] Instance session_action_exact :
  Exact (v ← cursor_u16; dec_result (decode_session_action v))
    (λ a, push_u16 (encode_session_action a)) (λ _, True).
Proof.
  eapply consumes_result; [apply decoded|]. intros v bs a [_ ->] Ha.
  by apply decode_session_action_ok in Ha as ->.
Qed.

#[export] Instance option_surface_reads :
  Reads decode_option_surface encode_option_surface (opt_ok surface_id_ok).
Proof.
  intros [s|] Hs; unfold decode_option_surface, encode_option_surface.
  - eapply reads_bind; [apply decodes; word_lia|]. rewrite decide_False, decide_True by done.
    eapply reads_map; [by apply decodes|done].
  - rewrite <-(app_nil_r (push_u16 0)). eapply reads_bind; [apply decodes; word_lia|]. apply reads_ret.
Qed.
#[export] Instance option_surface_exact :
  Exact decode_option_surface encode_option_surface (opt_ok surface_id_ok).
Proof.
  unfold Exact, decode_option_surface. exact_step. case_decide as H0; [subst|].
  { apply consumes_ret. by rewrite app_nil_r. }
  case_decide as H1; [subst|apply consumes_fail]. exact_all. done.
Qed.

#[export] Instance binding_reads : Reads decode_binding encode_binding binding_ok.
Proof. intros [[a] k m] (?&?&?). unfold decode_binding, encode_binding. change push_u64 with (λ r, encode_id (k := WmActionKind) (from_raw r)). reads_all. Qed.
#[export] Instance binding_exact : Exact decode_binding encode_binding binding_ok.
Proof. unfold Exact, decode_binding. exact_all. done. Qed.
#[export] Instance output_workspace_reads :
  Reads decode_output_workspace encode_output_workspace output_workspace_ok.
Proof. intros [o w] [? ?]. unfold decode_output_workspace, encode_output_workspace. reads_all. Qed.
#[export] Instance output_workspace_exact :
  Exact decode_output_workspace encode_output_workspace output_workspace_ok.
Proof. unfold Exact, decode_output_workspace. exact_all. done. Qed.

Definition hello_bytes (h : WmHello) : list Z :=
  push_u16 (wh_api_version h) ++ push_u64 (wh_capabilities h)
  ++ encode_counted encode_binding (wh_bindings h).
#[export] Instance hello_reads : Reads decode_wm_hello_payload hello_bytes hello_ok.
Proof. intros [v c b] (?&?&?). unfold decode_wm_hello_payload, hello_bytes. reads_all. Qed.
#[export] Instance hello_exact : Exact decode_wm_hello_payload hello_bytes hello_ok.
Proof. unfold Exact, decode_wm_hello_payload. exact_all. done. Qed.

Definition descriptor_bytes (d : WmSessionDescriptor) : list Z :=
  push_u16 (wd_api_version d) ++ encode_counted encode_id (wd_workspaces d)
  ++ encode_counted encode_output_workspace (wd_active_workspaces d)
  ++ encode_counted (λ a, push_u16 (encode_session_action a)) (wd_session_actions d).
#[export] Instance descriptor_reads :
  Reads decode_wm_session_descriptor_payload descriptor_bytes descriptor_ok.
Proof.
  intros [v w a s] (?&?&?&?). unfold decode_wm_session_descriptor_payload, descriptor_bytes. reads_all.
Qed.
#[export] Instance descriptor_exact :
  Exact decode_wm_session_descriptor_payload descriptor_bytes descriptor_ok.
Proof. unfold Exact, decode_wm_session_descriptor_payload. exact_all. done. Qed.

#[export] Instance command_reads : Reads decode_command encode_command command_ok.
Proof.
  intros c Hc. unfold decode_command.
  destruct c as [[s z]|s|s w|[s g z c t]|o w|a t]; unfold encode_command; simpl in Hc;
    (eapply reads_bind; [apply decodes; word_lia|]); unfold decode_command_of;
    try destruct Hc as (?&?&?&?&?); try destruct Hc as (?&?).
  - reads_all.
  - reads_all.
  - reads_all.
  - reads_all.
  - reads_all.
  - eapply reads_bind; [apply (decodes (Reads := session_action_reads) a I)|cbn beta]. reads_all.
Qed.
Lemma command_of_exact tag :
  consumes (decode_command_of tag) (λ c bs, command_ok c ∧ encode_command c = push_u16 tag ++ bs).
Proof.
  unfold decode_command_of. repeat case_match; try apply consumes_fail; exact_all; done.
Qed.
#[export] Instance command_exact : Exact decode_command encode_command command_ok.
Proof.
  unfold Exact, decode_command. exact_step. eapply consumes_weaken; [apply command_of_exact|].
  by intros c bs [? ->].
Qed.

Definition response_bytes (r : WmResponsePacket) : list Z :=
  push_u32 (wp_timeout_msec r) ++ encode_counted encode_command (wp_commands r).
Lemma response_reads t :
  Reads (decode_wm_response_payload t) response_bytes (λ r, response_ok r ∧ wp_transaction r = t).
Proof.
  intros [t' c m] [(?&?&?) <-]. unfold decode_wm_response_payload, response_bytes. reads_all.
Qed.
Lemma response_exact t : id_ok t →
  Exact (decode_wm_response_payload t) response_bytes (λ r, response_ok r ∧ wp_transaction r = t).
Proof. intros Ht. unfold Exact, decode_wm_response_payload. exact_all. done. Qed.

Definition request_nodes (k : WmRequestKind) : list LayoutNodeSnapshot :=
  match k with
  | RelayoutWorkspace w => wr_nodes w | ActionActivated a => wa_nodes a | _ => []
  end.

Lemma check_count_ok n : check_count n = Ok tt ↔ n ≤ SOPHIA_IPC_MAX_ITEMS.
Proof. unfold check_count. case_decide; naive_solver lia. Qed.

(** [injection] would reduce the byte lists; this keeps them folded. *)
Lemma res_ok_inj {E A} (a b : A) : (Ok a : result A E) = Ok b → b = a.
Proof. congruence. Qed.

Lemma request_payload_reads r bs :
  request_ok r → encode_wm_request_payload r = Ok bs →
  reads (decode_wm_request_payload (wq_transaction r)) bs r.
Proof.
  intros [Ht Hk] He. unfold decode_wm_request_payload. destruct r as [t k]; cbn [wq_transaction wq_kind] in *.
  eapply reads_map; [|done]. unfold encode_wm_request_payload in He. cbn [wq_kind] in He.
  destruct k as [[n o w b]|[o w b ns]|s w|[a o w f ns]]; simpl in Hk.
  - apply res_ok_inj in He as ->. destruct Hk as (?&?&?&?). eapply reads_bind; [apply decodes; word_lia|].
    unfold decode_wm_request_kind. reads_all.
  - rewrite res_bind_ok in He. destruct He as ([]&Hc%check_count_ok&->%res_ok_inj). destruct Hk as (?&?&?&?).
    eapply reads_bind; [apply decodes; word_lia|].
    unfold decode_wm_request_kind. do 3 reads_step. eapply reads_map; [by apply decodes|done].
  - apply res_ok_inj in He as ->. destruct Hk as (?&?). eapply reads_bind; [apply decodes; word_lia|].
    unfold decode_wm_request_kind. reads_all.
  - rewrite res_bind_ok in He. destruct He as ([]&Hc%check_count_ok&->%res_ok_inj).
    destruct Hk as (?&?&?&?&?). destruct a as [a].
    eapply reads_bind; [apply decodes; word_lia|]. unfold decode_wm_request_kind.
    change (push_u64 (raw (wa_action (mk_activation (from_raw a) o w f ns))))
      with (encode_id (k := WmActionKind) (from_raw a)).
    do 4 reads_step. eapply reads_map; [by apply decodes|done].
Qed.

(** ** Whole messages *)

Lemma decode_payload_reads {A} (d : Dec A) p (a : A) : reads d p a → fits p → decode_payload d p = Ok a.
Proof.
  intros Hr Hf. unfold decode_payload. specialize (Hr [] []). rewrite app_nil_r in Hr.
  specialize (Hr Hf). unfold at_ in Hr. rewrite app_nil_r in Hr. cbn [app length] in Hr.
  change (mk_cursor p (Z.of_nat 0)) with (cursor_new p) in Hr. rewrite Hr. cbn [res_bind].
  unfold cursor_finish, saturating_sub. cbn [cur_bytes cur_offset]. rewrite Z.sub_diag. done.
Qed.

Lemma decode_payload_consumes {A} (d : Dec A) (Q : A → list Z → Prop) p a :
  consumes d Q → Forall u8_ok p → decode_payload d p = Ok a → Q a p.
Proof.
  intros Hc Hp Hd. unfold decode_payload in Hd.
  destruct (d (cursor_new p)) as [[a' c]|] eqn:E; [|done]. cbn [res_bind] in Hd.
  destruct (Hc [] p a' c Hp E) as (bs&post&->&->&HQ).
  unfold cursor_finish, at_, saturating_sub in Hd. cbn [cur_bytes cur_offset app] in Hd.
  case_decide as Hz; [|done]. cbn [res_bind] in Hd. injection Hd as <-.
  rewrite length_app in Hz. destruct post; [|simpl in Hz; lia]. by rewrite app_nil_r.
Qed.

Lemma payload_fits k t p f : encode_frame k t p = Ok f → fits p.
Proof.
  intros [Hl _]%encode_frame_ok. unfold fits, SOPHIA_IPC_MAX_PAYLOAD_LEN in *. word_lia.
Qed.

(** The shape of the four frame decoders. *)
Lemma message_decodes {A} (k : IpcMessageKind) (t : TransactionId) (d : TransactionId → Dec A) p f a :
  id_ok t → encode_frame k t p = Ok f → reads (d t) p a →
  (let? '(header, payload) := decode_frame f in
   let? _u := expect_message_kind (fh_message_kind header) k in
   decode_payload (d (fh_transaction header)) payload) = Ok a.
Proof.
  intros Ht He Hr. rewrite (decode_encode_frame k t p f) by done. cbn [res_bind fh_message_kind].
  unfold expect_message_kind. rewrite decide_True by done. cbn [res_bind fh_transaction].
  eapply decode_payload_reads; [done|]. by eapply payload_fits.
Qed.
Lemma message_decoded {A} (k : IpcMessageKind) (d : TransactionId → Dec A) f a (Q : TransactionId → A → list Z → Prop) :
  Forall u8_ok f → (∀ t, id_ok t → consumes (d t) (Q t)) →
  (let? '(header, payload) := decode_frame f in
   let? _u := expect_message_kind (fh_message_kind header) k in
   decode_payload (d (fh_transaction header)) payload) = Ok a →
  ∃ t p, id_ok t ∧ Q t a p ∧ encode_frame k t p = Ok f.
Proof.
  intros Hf HQ Hd. destruct (decode_frame f) as [[h p]|] eqn:E; [|done]. cbn [res_bind] in Hd.
  destruct (encode_decode_frame _ _ _ Hf E) as ([Ht _]&_&Hp&He).
  unfold expect_message_kind in Hd. case_decide as Hk; [|done]. cbn [res_bind] in Hd. subst k.
  exists (fh_transaction h), p. split; [done|]. split; [|done].
  eapply decode_payload_consumes; [by apply HQ|done|done].
Qed.

Lemma response_encodes r :
  response_ok r →
  encode_wm_response_frame r = encode_frame KWmResponse (wp_transaction r) (response_bytes r).
Proof.
  intros (_&_&[Hn _]). unfold encode_wm_response_frame, encode_wm_response_payload.
  by rewrite (proj2 (check_count_ok _)).
Qed.
Lemma decode_encoded_response r f :
  response_ok r → encode_wm_response_frame r = Ok f → decode_wm_response_frame f = Ok r.
Proof.
  intros Hok He. rewrite response_encodes in He by done.
  eapply (message_decodes KWmResponse (wp_transaction r) decode_wm_response_payload);
    [apply Hok|done|]. by apply response_reads.
Qed.
Lemma response_frame_exact f r :
  Forall u8_ok f →
  decode_wm_response_frame f = Ok r ↔ response_ok r ∧ encode_wm_response_frame r = Ok f.
Proof.
  intros Hf. split.
  - intros Hd. apply (message_decoded KWmResponse decode_wm_response_payload _ _
      (λ t r bs, (response_ok r ∧ wp_transaction r = t) ∧ bs = response_bytes r) Hf) in Hd
      as (t&p&Ht&[[Hok <-] ->]&He); [|intros; by apply response_exact].
    split; [done|]. by rewrite response_encodes.
  - intros [Hok He]. by apply decode_encoded_response.
Qed.

Lemma decode_encoded_request r f :
  request_ok r → encode_wm_request_frame r = Ok f → decode_wm_request_frame f = Ok r.
Proof.
  intros Hok. unfold encode_wm_request_frame. rewrite res_bind_ok. intros (p&Hp&Hf).
  eapply (message_decodes KWmRequest (wq_transaction r) decode_wm_request_payload); [apply Hok|done|].
  by apply request_payload_reads.
Qed.
Lemma decode_encoded_descriptor d f :
  descriptor_ok d → encode_wm_session_descriptor_frame d = Ok f →
  decode_wm_session_descriptor_frame f = Ok d.
Proof.
  intros Hok He. unfold encode_wm_session_descriptor_frame in He.
  rewrite !(proj2 (check_count_ok _)) in He by apply Hok. cbn [res_bind] in He.
  eapply (message_decodes KWmSessionDescriptor INVALID (λ _, decode_wm_session_descriptor_payload));
    [|done|].
  { unfold id_ok; simpl; word_lia. } by apply descriptor_reads.
Qed.

(** C35: window-manager requests round-trip.  A request the engine encodes, whose
    fields are in range of their types, is decoded back to the same request; it is
    encoded exactly when it has at most 1024 layout nodes and its payload is at
    most 64 KiB long. *)
Theorem wm_request_roundtrip (r : WmRequestPacket) :
  request_ok r →
  match encode_wm_request_frame r with
  | Ok f => decode_wm_request_frame f = Ok r
  | Err (CountTooLarge n max) =>
      n = Z.of_nat (length (request_nodes (wq_kind r))) ∧ max = 1024 ∧ 1024 < n
  | Err (PayloadTooLarge n) =>
      65536 < n ∧ ∃ bs, encode_wm_request_payload r = Ok bs ∧ n = Z.of_nat (length bs)
  | Err _ => False
  end.
Proof.
  intros Hok. unfold encode_wm_request_frame.
  destruct (encode_wm_request_payload r) as [bs|e] eqn:Ep; cbn [res_bind].
  - destruct (encode_frame _ _ _) as [f|e] eqn:Ef.
    + apply decode_encoded_request; [done|]. unfold encode_wm_request_frame. by rewrite Ep.
    + unfold encode_frame in Ef. case_decide as Hl; [|done]. injection Ef as <-.
      unfold SOPHIA_IPC_MAX_PAYLOAD_LEN in Hl. split; [lia|]. by exists bs.
  - unfold encode_wm_request_payload in Ep.
    destruct (wq_kind r) as [|w| |a]; try done; simpl;
      unfold check_count in Ep; case_decide as Hc; try done; by injection Ep as <-.
Qed.

Definition example_request : WmRequestPacket :=
  mk_wm_request (from_raw 9) (RelayoutWorkspace (mk_relayout (from_raw 1) (from_raw 2)
    (mk_rect 0 (-8) 640 480)
    [mk_node (surface_id 3 1) (from_raw 2) Dialog (mk_node_caps true false true true false) NODE_NORMAL
       (mk_constraints None (Some (mk_size 64 64))) (mk_rect 1 2 3 4) 11])).
Lemma wm_request_roundtrip_witness :
  ∃ f, encode_wm_request_frame example_request = Ok f ∧ decode_wm_request_frame f = Ok example_request.
Proof.
  assert (request_ok example_request) as Hok.
  { apply (bool_decide_unpack _). vm_compute. exact I. }
  pose proof (wm_request_roundtrip example_request Hok) as H.
  destruct (encode_wm_request_frame example_request) as [f|e] eqn:E.
  - exists f. split; [reflexivity|exact H].
  - exfalso. vm_compute in E. discriminate E.
Defined.

(** Responses, hellos and session descriptors are exact.  For values in
    range of their types and byte strings, decoding gives the value exactly when
    encoding it gives the bytes: what one side writes the other reads, the two
    never disagree on a message, and nothing else is accepted. *)
Theorem wm_messages_exact (f : list Z) :
  Forall u8_ok f →
  (∀ r, response_ok r → decode_wm_response_frame f = Ok r ↔ encode_wm_response_frame r = Ok f)
  ∧ (∀ h, hello_ok h → encode_wm_hello_frame h = Ok f → decode_wm_hello_frame f = Ok h)
  ∧ (∀ d, descriptor_ok d →
       encode_wm_session_descriptor_frame d = Ok f → decode_wm_session_descriptor_frame f = Ok d)
  ∧ (∀ r, decode_wm_response_frame f = Ok r → response_ok r)
  ∧ (∀ h, decode_wm_hello_frame f = Ok h → hello_ok h)
  ∧ (∀ d, decode_wm_session_descriptor_frame f = Ok d → descriptor_ok d).
Proof.
  intros Hf.
  split; [|split; [|split; [|split; [|split]]]].
  - intros r Hok. rewrite response_frame_exact by done. tauto.
  - intros h Hok He. unfold encode_wm_hello_frame in He.
    rewrite (proj2 (check_count_ok _)) in He by apply Hok. cbn [res_bind] in He.
    eapply (message_decodes KWmHello INVALID (λ _, decode_wm_hello_payload)); [|done|].
    { unfold id_ok; simpl; word_lia. } by apply hello_reads.
  - intros d. apply decode_encoded_descriptor.
  - by intros r [? _]%response_frame_exact.
  - intros h Hd. apply (message_decoded KWmHello (λ _, decode_wm_hello_payload) _ _
      (λ _ h bs, hello_ok h ∧ bs = hello_bytes h) Hf) in Hd as (t&p&_&[? _]&_); [done|].
    intros _ _. apply hello_exact.
  - intros d Hd. apply (message_decoded KWmSessionDescriptor
      (λ _, decode_wm_session_descriptor_payload) _ _
      (λ _ d bs, descriptor_ok d ∧ bs = descriptor_bytes d) Hf) in Hd as (t&p&_&[? _]&_); [done|].
    intros _ _. apply descriptor_exact.
Qed.

Definition example_response : WmResponsePacket :=
  mk_wm_response (from_raw 9)
    [FocusSurface (surface_id 3 1); AssignWorkspace (surface_id 3 1) (from_raw 2);
     ActivateWorkspace (from_raw 1) (from_raw 2)] 16.
Lemma wm_messages_exact_witness :
  ∃ f, encode_wm_response_frame example_response = Ok f ∧ decode_wm_response_frame f = Ok example_response.
Proof.
  destruct (encode_wm_response_frame example_response) as [f|e] eqn:E.
  2: { exfalso. vm_compute in E. discriminate E. }
  exists f. split; [reflexivity|].
  assert (Forall u8_ok f) as Hf.
  { vm_compute in E. injection E as <-. apply (bool_decide_unpack _). vm_compute. exact I. }
  apply (wm_messages_exact f Hf); [|exact E]. apply (bool_decide_unpack _). vm_compute. exact I.
Defined.

(** ** Frames on a stream *)

Lemma read_exact_app io_error n bs rest :
  Z.of_nat (length bs) = n → read_exact io_error n (bs ++ rest) = Ok (bs, rest).
Proof.
  intros <-. unfold read_exact. rewrite length_app, decide_True by lia.
  by rewrite Nat2Z.id, take_app_length, drop_app_length.
Qed.
Lemma read_exact_inv io_error n reader bs rest :
  0 ≤ n → read_exact io_error n reader = Ok (bs, rest) → reader = bs ++ rest ∧ Z.of_nat (length bs) = n.
Proof.
  intros Hn. unfold read_exact. case_decide; [|done]. intros [= <- <-].
  rewrite take_drop, length_take. split; [done|lia].
Qed.

Lemma header_payload_len h :
  u32_ok (fh_payload_len h) → from_le_bytes (take 4 (drop 16 (header_bytes h))) = fh_payload_len h.
Proof.
  intros Hl. unfold header_bytes, encode_id.
  transitivity (from_le_bytes (push_u32 (fh_payload_len h))); [reflexivity|].
  apply from_to_le_bytes. word_lia.
Qed.

Lemma read_ipc_frame_app io_error k t p f rest :
  encode_frame k t p = Ok f → read_ipc_frame io_error (f ++ rest) = Ok (f, rest).
Proof.
  intros [Hl ->]%encode_frame_ok. unfold read_ipc_frame. set (h := mk_frame_header _ _ _).
  unfold SOPHIA_IPC_MAX_PAYLOAD_LEN in *.
  rewrite <-app_assoc, read_exact_app by (rewrite length_header_bytes; done). cbn [res_bind].
  rewrite header_payload_len by (simpl; word_lia). change (fh_payload_len h) with (Z.of_nat (length p)).
  rewrite decide_False by lia. by rewrite read_exact_app.
Qed.
Lemma read_ipc_frame_inv io_error reader f rest :
  Forall u8_ok reader → read_ipc_frame io_error reader = Ok (f, rest) → reader = f ++ rest.
Proof.
  intros Hr. unfold read_ipc_frame. rewrite res_bind_ok. intros ([h r1]&Hh&Hd).
  apply read_exact_inv in Hh as [-> Hlen]; [|done]. apply Forall_app in Hr as [Hh _].
  cbv zeta in Hd. case_decide; [done|]. rewrite res_bind_ok in Hd. destruct Hd as ([p r2]&Hp&[= <- <-]).
  apply read_exact_inv in Hp as [-> _]; [by rewrite app_assoc|].
  apply from_le_bytes_bound. by apply Forall_take, Forall_drop.
Qed.

Lemma exchange_returns io_error write request response sent reply rest :
  encode_wm_request_frame request = Ok sent → response_ok response →
  encode_wm_response_frame response = Ok reply → write sent = Ok (reply ++ rest) →
  request_wm_over_stream io_error write request =
  if decide (wp_transaction response ≠ wq_transaction request)
  then Err (TransactionMismatch (wq_transaction request) (wp_transaction response))
  else Ok (response, rest).
Proof.
  intros Hs Hok Hr Hwr. unfold request_wm_over_stream. rewrite Hs. cbn [map_err res_bind].
  rewrite Hwr. cbn [map_err res_bind]. unfold read_wm_response_frame.
  pose proof Hr as Hr'. rewrite response_encodes in Hr' by done.
  rewrite (read_ipc_frame_app _ _ _ _ _ _ Hr'). cbn [res_bind].
  by rewrite (decode_encoded_response response reply).
Qed.

(** An exchange with the window manager returns a response exactly when the
    request could be encoded and sent, and the bytes that came back begin with the
    frame of that response, which answers this transaction; the bytes after that
    frame are left for the next exchange.  A well-formed answer to another
    transaction is reported as a mismatch. *)
Theorem stream_exchange_spec (io_error : list Z) (write : list Z → result (list Z) (list Z))
    (request : WmRequestPacket) (response : WmResponsePacket) (rest : list Z) :
  (∀ sent got, write sent = Ok got → Forall u8_ok got) →
  (request_wm_over_stream io_error write request = Ok (response, rest) ↔
   wp_transaction response = wq_transaction request ∧ response_ok response
   ∧ ∃ sent reply, encode_wm_request_frame request = Ok sent
       ∧ encode_wm_response_frame response = Ok reply ∧ write sent = Ok (reply ++ rest))
  ∧ (∀ sent reply, encode_wm_request_frame request = Ok sent → response_ok response →
       encode_wm_response_frame response = Ok reply → write sent = Ok (reply ++ rest) →
       wp_transaction response ≠ wq_transaction request →
       request_wm_over_stream io_error write request
       = Err (TransactionMismatch (wq_transaction request) (wp_transaction response))).
Proof.
  intros Hw.
  split.
  - split.
    + intros He. unfold request_wm_over_stream in He.
      destruct (encode_wm_request_frame request) as [sent|] eqn:Es; [|done]. cbn [map_err res_bind] in He.
      destruct (write sent) as [got|] eqn:Eg; [|done]. cbn [map_err res_bind] in He.
      rewrite res_bind_ok in He. destruct He as ([r got']&Hr&He). case_decide as Ht; [done|].
      injection He as -> ->. unfold read_wm_response_frame in Hr.
      rewrite res_bind_ok in Hr. destruct Hr as ([f rest']&Hf&Hr).
      destruct (decode_wm_response_frame f) as [r'|] eqn:Ed; [|done]. cbn [map_err res_bind] in Hr.
      injection Hr as -> ->. pose proof (Hw _ _ Eg) as Hb. apply read_ipc_frame_inv in Hf as ->; [|done].
      apply Forall_app in Hb as [Hb _]. apply response_frame_exact in Ed as [Hok Hrep]; [|done].
      split; [done|]. split; [done|]. by exists sent, f.
    + intros (Ht&Hok&sent&reply&Hs&Hr&Hwr). rewrite (exchange_returns _ _ _ response sent reply rest) by done. by rewrite decide_False by tauto.
  - intros sent reply Hs Hok Hr Hwr Ht. rewrite (exchange_returns _ _ _ response sent reply rest) by done. by rewrite decide_True.
Qed.

Lemma stream_exchange_spec_witness :
  ∃ reply, encode_wm_response_frame example_response = Ok reply
    ∧ request_wm_over_stream [] (λ _, Ok (reply ++ [7])) example_request = Ok (example_response, [7]).
Proof.
  destruct (encode_wm_response_frame example_response) as [reply|e] eqn:E.
  2: { exfalso. vm_compute in E. discriminate E. }
  destruct (encode_wm_request_frame example_request) as [sent|e] eqn:Es.
  2: { exfalso. vm_compute in Es. discriminate Es. }
  exists reply. split; [reflexivity|].
  assert (Forall u8_ok reply) as Hf.
  { vm_compute in E. injection E as <-. apply (bool_decide_unpack _). vm_compute. exact I. }
  apply (stream_exchange_spec [] (λ _, Ok (reply ++ [7])) example_request example_response [7]).
  - intros _ got Hg. assert (reply ++ [7] = got) as <- by congruence. apply Forall_app.
    split; [exact Hf|]. apply (bool_decide_unpack _). vm_compute. exact I.
  - split; [reflexivity|]. split; [apply (bool_decide_unpack _); vm_compute; exact I|].
    exists sent, reply. split; [exact Es|]. split; [exact E|reflexivity].
Defined.
