(* ===== verification/IpcPortal.v ===== *)
(** * Portal and broker messages over IPC
    ([sophia-protocol/src/ipc/{portal,broker}.rs])

    What the session asks a portal broker, what the broker answers, clipboard
    payloads and broker health.  The transfer (or the generation) also travels as
    the frame's transaction, and the decoders check that the two agree. *)

From stdpp Require Import strings.
From S2P Require Import Prelude Ids Geometry Packets PortalPackets Errors Text Codec IpcWm.
Local Open Scope Z_scope.

(** The same function as [wm.rs]'s. *)
Definition expect_kind (actual expected : IpcMessageKind) : result unit IpcCodecError :=
  if decide (actual = expected) then Ok tt
  else Err (InvalidEnum "message_kind" (message_kind_code actual)).

(** ** Fields *)

Definition encode_kind (value : PortalTransferKind) : Z :=
  match value with
  | KClipboard => 1 | KDragAndDrop => 2 | KFileHandoff => 3 | KScreenCapture => 4
  | KScreenRecording => 5 | KUriOpen => 6 | KNotification => 7
  end.
Definition decode_kind (value : Z) : result PortalTransferKind IpcCodecError :=
  match value with
  | 1 => Ok KClipboard | 2 => Ok KDragAndDrop | 3 => Ok KFileHandoff | 4 => Ok KScreenCapture
  | 5 => Ok KScreenRecording | 6 => Ok KUriOpen | 7 => Ok KNotification
  | value => Err (InvalidEnum "portal_transfer_kind" value)
  end.
Definition encode_decision (value : PortalDecision) : Z :=
  match value with DPending => 1 | DAllowed => 2 | DDenied => 3 | DRevoked => 4 end.
Definition decode_decision (value : Z) : result PortalDecision IpcCodecError :=
  match value with
  | 1 => Ok DPending | 2 => Ok DAllowed | 3 => Ok DDenied | 4 => Ok DRevoked
  | value => Err (InvalidEnum "portal_decision" value)
  end.
Definition encode_grant_state (value : PortalGrantState) : Z :=
  match value with GActive => 1 | GCompleted => 2 | GRevoked => 3 | GExpired => 4 end.
Definition decode_grant_state (value : Z) : result PortalGrantState IpcCodecError :=
  match value with
  | 1 => Ok GActive | 2 => Ok GCompleted | 3 => Ok GRevoked | 4 => Ok GExpired
  | value => Err (InvalidEnum "portal_grant_state" value)
  end.
(** [u8::from(bool)]. *)
Definition encode_bool (b : bool) : Z := if b then 1 else 0.
Definition decode_bool (field : string) (value : Z) : result bool IpcCodecError :=
  match value with 0 => Ok false | 1 => Ok true | value => Err (InvalidBool field value) end.

Definition encode_transfer (value : PortalTransfer) : result (list Z) IpcCodecError :=
  let? text := encode_optional_text "portal_mime_type" (pt_mime_type value)
                 SOPHIA_PORTAL_MAX_MIME_TYPE_LEN in
  Ok (encode_id (pt_transfer value) ++ encode_id (pt_source_namespace value)
      ++ encode_id (pt_target_namespace value) ++ push_u16 (encode_kind (pt_kind value)) ++ text
      ++ push_u64 (pt_byte_size value) ++ push_u8 (encode_decision (pt_decision value))
      ++ push_u64 (pt_generation value)).
Definition decode_transfer : Dec PortalTransfer :=
  transfer ← decode_id; source_namespace ← decode_id; target_namespace ← decode_id;
  kind ← (v ← cursor_u16; dec_result (decode_kind v));
  mime_type ← decode_optional_text "portal_mime_type" SOPHIA_PORTAL_MAX_MIME_TYPE_LEN;
  byte_size ← cursor_u64;
  decision ← (v ← cursor_u8; dec_result (decode_decision v));
  generation ← cursor_u64;
  mret (mk_transfer transfer source_namespace target_namespace kind mime_type byte_size decision
          generation).

Definition encode_grant (value : PortalGrant) : list Z :=
  encode_id (pg_transfer value) ++ encode_id (pg_source_namespace value)
  ++ encode_id (pg_target_namespace value) ++ push_u16 (encode_kind (pg_kind value))
  ++ push_u64 (pg_source_generation value) ++ push_u64 (pg_broker_generation value)
  ++ push_u64 (pg_deadline_msec value) ++ push_u8 (encode_grant_state (pg_state value)).
Definition decode_grant : Dec PortalGrant :=
  transfer ← decode_id; source_namespace ← decode_id; target_namespace ← decode_id;
  kind ← (v ← cursor_u16; dec_result (decode_kind v));
  source_generation ← cursor_u64; broker_generation ← cursor_u64; deadline_msec ← cursor_u64;
  state ← (v ← cursor_u8; dec_result (decode_grant_state v));
  mret (mk_grant transfer source_namespace target_namespace kind source_generation
          broker_generation deadline_msec state).

(** ** Broker requests *)

Definition encode_portal_broker_request_frame (packet : PortalBrokerRequestPacket) :
    result (list Z) IpcCodecError :=
  let transfer := pr_transfer (bq_request packet) in
  let? payload := encode_transfer transfer in
  encode_frame KPortalBrokerRequest (from_raw (raw (pt_transfer transfer)))
    (payload ++ push_u64 (pr_deadline_msec (bq_request packet))
     ++ push_u8 (encode_bool (bq_source_may_publish packet))
     ++ push_u8 (encode_bool (bq_target_may_request packet))).
Definition decode_portal_broker_request_payload (transaction : TransactionId) :
    Dec PortalBrokerRequestPacket :=
  transfer ← decode_transfer;
  if decide (raw (pt_transfer transfer) ≠ raw transaction)
  then dec_fail (InvalidEnum "portal_transfer_correlation" 0)
  else
    deadline_msec ← cursor_u64;
    source_may_publish ← (v ← cursor_u8; dec_result (decode_bool "source_may_publish" v));
    target_may_request ← (v ← cursor_u8; dec_result (decode_bool "target_may_request" v));
    mret (mk_broker_request (mk_portal_request transfer deadline_msec) source_may_publish
            target_may_request).
Definition decode_portal_broker_request_frame (frame : list Z) :
    result PortalBrokerRequestPacket IpcCodecError :=
  let? '(header, payload) := decode_frame frame in
  let? _u := expect_kind (fh_message_kind header) KPortalBrokerRequest in
  decode_payload (decode_portal_broker_request_payload (fh_transaction header)) payload.

(** ** Broker responses *)

Definition encode_response_decision (d : PortalBrokerResponseDecision) : list Z :=
  match d with
  | RespDenied => push_u8 1
  | RespAllowed grant => push_u8 2 ++ encode_grant grant
  end.
Definition encode_portal_broker_response_frame (packet : PortalBrokerResponsePacket) :
    result (list Z) IpcCodecError :=
  encode_frame KPortalBrokerResponse (from_raw (raw (br_transfer packet)))
    (encode_response_decision (br_decision packet)).
Definition decode_response_decision (transfer : PortalTransferId) (tag : Z) :
    Dec PortalBrokerResponseDecision :=
  match tag with
  | 1 => mret RespDenied
  | 2 =>
      grant ← decode_grant;
      if decide (pg_transfer grant ≠ transfer)
      then dec_fail (InvalidEnum "portal_grant_correlation" 0) else mret (RespAllowed grant)
  | value => dec_fail (InvalidEnum "portal_broker_decision" value)
  end.
Definition decode_portal_broker_response_payload (transaction : TransactionId) :
    Dec PortalBrokerResponsePacket :=
  let transfer := from_raw (raw transaction) in
  tag ← cursor_u8; decision ← decode_response_decision transfer tag;
  mret (mk_broker_response transfer decision).
Definition decode_portal_broker_response_frame (frame : list Z) :
    result PortalBrokerResponsePacket IpcCodecError :=
  let? '(header, payload) := decode_frame frame in
  let? _u := expect_kind (fh_message_kind header) KPortalBrokerResponse in
  decode_payload (decode_portal_broker_response_payload (fh_transaction header)) payload.

(** ** Clipboard payloads: the payload is the whole frame's *)

Definition encode_portal_clipboard_payload_frame (transfer : PortalTransferId) (payload : list Z) :
    result (list Z) IpcCodecError :=
  encode_frame KPortalClipboardPayload (from_raw (raw transfer)) payload.
Definition decode_portal_clipboard_payload_frame (frame : list Z) :
    result (PortalTransferId * list Z) IpcCodecError :=
  let? '(header, payload) := decode_frame frame in
  let? _u := expect_kind (fh_message_kind header) KPortalClipboardPayload in
  if decide (SOPHIA_IPC_MAX_PAYLOAD_LEN < Z.of_nat (length payload))
  then Err (PayloadTooLarge (Z.of_nat (length payload)))
  else Ok (from_raw (raw (fh_transaction header)), payload).

(** ** Broker health ([broker.rs]) *)

Definition encode_broker_kind (k : BrokerKind) : Z :=
  match k with BrokerPortal => 1 | BrokerMetadata => 2 end.
Definition decode_broker_kind (value : Z) : result BrokerKind IpcCodecError :=
  match value with
  | 1 => Ok BrokerPortal | 2 => Ok BrokerMetadata | other => Err (InvalidEnum "broker_kind" other)
  end.
Definition encode_broker_health_state (s : BrokerHealthState) : Z :=
  match s with BrokerStarting => 1 | BrokerReady => 2 | BrokerDegraded => 3 | BrokerStopped => 4 end.
Definition decode_broker_health_state (value : Z) : result BrokerHealthState IpcCodecError :=
  match value with
  | 1 => Ok BrokerStarting | 2 => Ok BrokerReady | 3 => Ok BrokerDegraded | 4 => Ok BrokerStopped
  | other => Err (InvalidEnum "broker_health_state" other)
  end.
Definition encode_broker_health_payload (packet : BrokerHealthPacket) :
    result (list Z) IpcCodecError :=
  let? text := encode_optional_text "broker_health_message" (bh_message packet)
                 SOPHIA_BROKER_HEALTH_MAX_MESSAGE_LEN in
  Ok (push_u16 (encode_broker_kind (bh_broker packet))
      ++ push_u16 (encode_broker_health_state (bh_state packet)) ++ text).
Definition decode_broker_health_payload (generation : Z) : Dec BrokerHealthPacket :=
  broker ← (v ← cursor_u16; dec_result (decode_broker_kind v));
  state ← (v ← cursor_u16; dec_result (decode_broker_health_state v));
  message ← decode_optional_text "broker_health_message" SOPHIA_BROKER_HEALTH_MAX_MESSAGE_LEN;
  mret (mk_broker_health broker state generation message).
Definition encode_broker_health_frame (packet : BrokerHealthPacket) : result (list Z) IpcCodecError :=
  let? payload := encode_broker_health_payload packet in
  encode_frame KBrokerHealth (from_raw (bh_generation packet)) payload.
Definition decode_broker_health_frame (frame : list Z) : result BrokerHealthPacket IpcCodecError :=
  let? '(header, payload) := decode_frame frame in
  let? _u := (if decide (fh_message_kind header ≠ KBrokerHealth)
              then Err (InvalidEnum "message_kind" (message_kind_code (fh_message_kind header)))
              else Ok tt) in
  decode_payload (decode_broker_health_payload (raw (fh_transaction header))) payload.

(** ** Values in range of their types *)

Definition transfer_ok (t : PortalTransfer) : Prop :=
  id_ok (pt_transfer t) ∧ id_ok (pt_source_namespace t) ∧ id_ok (pt_target_namespace t)
  ∧ text_ok SOPHIA_PORTAL_MAX_MIME_TYPE_LEN (pt_mime_type t)
  ∧ u64_ok (pt_byte_size t) ∧ u64_ok (pt_generation t).
Definition grant_ok (g : PortalGrant) : Prop :=
  id_ok (pg_transfer g) ∧ id_ok (pg_source_namespace g) ∧ id_ok (pg_target_namespace g)
  ∧ u64_ok (pg_source_generation g) ∧ u64_ok (pg_broker_generation g) ∧ u64_ok (pg_deadline_msec g).
Definition broker_request_ok (p : PortalBrokerRequestPacket) : Prop :=
  transfer_ok (pr_transfer (bq_request p)) ∧ u64_ok (pr_deadline_msec (bq_request p)).
(** A response's grant, if it has one, is for its own transfer. *)
Definition broker_response_ok (p : PortalBrokerResponsePacket) : Prop :=
  id_ok (br_transfer p) ∧
  match br_decision p with
  | RespDenied => True
  | RespAllowed g => grant_ok g ∧ pg_transfer g = br_transfer p
  end.
Definition broker_health_ok (p : BrokerHealthPacket) : Prop :=
  u64_ok (bh_generation p) ∧ text_ok SOPHIA_BROKER_HEALTH_MAX_MESSAGE_LEN (bh_message p).

(** ** Enumerations *)

Section enums.
Context {B : Type} (f : Z → result B IpcCodecError) (e : B → Z).
Hypothesis f_ok : ∀ v b, f v = Ok b ↔ v = e b.

Lemma enum16_reads : (∀ b, u16_ok (e b)) →
  Reads (v ← cursor_u16; dec_result (f v)) (λ b, push_u16 (e b)) (λ _, True).
Proof. intros He b _. eapply reads_result; [apply decodes, He|]. by apply f_ok. Qed.
Lemma enum16_exact :
  Exact (v ← cursor_u16; dec_result (f v)) (λ b, push_u16 (e b)) (λ _, True).
Proof.
  eapply consumes_result; [apply decoded|]. intros v bs b [_ ->] Hb. by apply f_ok in Hb as ->.
Qed.
Lemma enum8_reads : (∀ b, u8_ok (e b)) →
  Reads (v ← cursor_u8; dec_result (f v)) (λ b, push_u8 (e b)) (λ _, True).
Proof. intros He b _. eapply reads_result; [apply decodes, He|]. by apply f_ok. Qed.
Lemma enum8_exact : Exact (v ← cursor_u8; dec_result (f v)) (λ b, push_u8 (e b)) (λ _, True).
Proof.
  eapply consumes_result; [apply decoded|]. intros v bs b [_ ->] Hb. by apply f_ok in Hb as ->.
Qed.
End enums.

(** The decoder [d] of an enumeration accepts exactly the codes. *)
Ltac enum_ok d :=
  intros v b; split; [unfold d; repeat case_match; intros [= <-]; done|intros ->; by destruct b].
Tactic Notation "enum_instance" uconstr(l) constr(d) :=
  refine l; [enum_ok d|..]; try (intros []; unfold u8_ok, u16_ok; simpl; word_lia).

#[export] Instance kind_reads :
  Reads (v ← cursor_u16; dec_result (decode_kind v)) (λ k, push_u16 (encode_kind k)) (λ _, True).
Proof. enum_instance (enum16_reads _ _ _ _) decode_kind. Qed.
#[export] Instance kind_exact :
  Exact (v ← cursor_u16; dec_result (decode_kind v)) (λ k, push_u16 (encode_kind k)) (λ _, True).
Proof. enum_instance (enum16_exact _ _ _) decode_kind. Qed.
#[export] Instance decision_reads :
  Reads (v ← cursor_u8; dec_result (decode_decision v)) (λ d, push_u8 (encode_decision d)) (λ _, True).
Proof. enum_instance (enum8_reads _ _ _ _) decode_decision. Qed.
#[export] Instance decision_exact :
  Exact (v ← cursor_u8; dec_result (decode_decision v)) (λ d, push_u8 (encode_decision d)) (λ _, True).
Proof. enum_instance (enum8_exact _ _ _) decode_decision. Qed.
#[export] Instance grant_state_reads :
  Reads (v ← cursor_u8; dec_result (decode_grant_state v)) (λ s, push_u8 (encode_grant_state s))
    (λ _, True).
Proof. enum_instance (enum8_reads _ _ _ _) decode_grant_state. Qed.
#[export] Instance grant_state_exact :
  Exact (v ← cursor_u8; dec_result (decode_grant_state v)) (λ s, push_u8 (encode_grant_state s))
    (λ _, True).
Proof. enum_instance (enum8_exact _ _ _) decode_grant_state. Qed.
#[export] Instance bool_reads field :
  Reads (v ← cursor_u8; dec_result (decode_bool field v)) (λ b, push_u8 (encode_bool b)) (λ _, True).
Proof. enum_instance (enum8_reads _ _ _ _) decode_bool. Qed.
#[export] Instance bool_exact field :
  Exact (v ← cursor_u8; dec_result (decode_bool field v)) (λ b, push_u8 (encode_bool b)) (λ _, True).
Proof. enum_instance (enum8_exact _ _ _) decode_bool. Qed.
#[export] Instance broker_kind_reads :
  Reads (v ← cursor_u16; dec_result (decode_broker_kind v)) (λ k, push_u16 (encode_broker_kind k))
    (λ _, True).
Proof. enum_instance (enum16_reads _ _ _ _) decode_broker_kind. Qed.
#[export] Instance broker_kind_exact :
  Exact (v ← cursor_u16; dec_result (decode_broker_kind v)) (λ k, push_u16 (encode_broker_kind k))
    (λ _, True).
Proof. enum_instance (enum16_exact _ _ _) decode_broker_kind. Qed.
#[export] Instance health_state_reads :
  Reads (v ← cursor_u16; dec_result (decode_broker_health_state v))
    (λ s, push_u16 (encode_broker_health_state s)) (λ _, True).
Proof. enum_instance (enum16_reads _ _ _ _) decode_broker_health_state. Qed.
#[export] Instance health_state_exact :
  Exact (v ← cursor_u16; dec_result (decode_broker_health_state v))
    (λ s, push_u16 (encode_broker_health_state s)) (λ _, True).
Proof. enum_instance (enum16_exact _ _ _) decode_broker_health_state. Qed.

(** ** Payloads *)

#[export] Instance mime_reads field :
  Reads (decode_optional_text field SOPHIA_PORTAL_MAX_MIME_TYPE_LEN) text_bytes
    (text_ok SOPHIA_PORTAL_MAX_MIME_TYPE_LEN).
Proof. apply text_reads. unfold SOPHIA_PORTAL_MAX_MIME_TYPE_LEN; word_lia. Qed.
#[export] Instance message_reads field :
  Reads (decode_optional_text field SOPHIA_BROKER_HEALTH_MAX_MESSAGE_LEN) text_bytes
    (text_ok SOPHIA_BROKER_HEALTH_MAX_MESSAGE_LEN).
Proof. apply text_reads. unfold SOPHIA_BROKER_HEALTH_MAX_MESSAGE_LEN; word_lia. Qed.
#[export] Existing Instance text_exact.

Definition transfer_bytes (value : PortalTransfer) : list Z :=
  encode_id (pt_transfer value) ++ encode_id (pt_source_namespace value)
  ++ encode_id (pt_target_namespace value) ++ push_u16 (encode_kind (pt_kind value))
  ++ text_bytes (pt_mime_type value)
  ++ push_u64 (pt_byte_size value) ++ push_u8 (encode_decision (pt_decision value))
  ++ push_u64 (pt_generation value).
Lemma encode_transfer_eq t : transfer_ok t → encode_transfer t = Ok (transfer_bytes t).
Proof.
  intros (_&_&_&Ht&_). unfold encode_transfer.
  rewrite (proj2 (encode_optional_text_ok _ (pt_mime_type t) _ (text_bytes (pt_mime_type t)))); [done|].
  destruct (pt_mime_type t); naive_solver.
Qed.
(** The next field is an enumeration, of value [x]. *)
Ltac reads_enum i x := eapply reads_bind; [apply (decodes (Reads := i) x I)|cbn beta].

#[export] Instance transfer_reads : Reads decode_transfer transfer_bytes transfer_ok.
Proof.
  intros [t s n k m b d g] (?&?&?&?&?&?). unfold decode_transfer, transfer_bytes.
  cbn [pt_transfer pt_source_namespace pt_target_namespace pt_kind pt_mime_type pt_byte_size
       pt_decision pt_generation] in *.
  do 3 reads_step. reads_enum kind_reads k. do 2 reads_step. reads_enum decision_reads d. reads_all.
Qed.
#[export] Instance transfer_exact : Exact decode_transfer transfer_bytes transfer_ok.
Proof. unfold Exact, decode_transfer. exact_all. done. Qed.
#[export] Instance grant_reads : Reads decode_grant encode_grant grant_ok.
Proof.
  intros [t s n k sg bg d st] (?&?&?&?&?&?). unfold decode_grant, encode_grant.
  cbn [pg_transfer pg_source_namespace pg_target_namespace pg_kind pg_source_generation
       pg_broker_generation pg_deadline_msec pg_state] in *.
  do 3 reads_step. reads_enum kind_reads k. do 3 reads_step.
  eapply reads_map; [apply (decodes (Reads := grant_state_reads) st I)|done].
Qed.
#[export] Instance grant_exact : Exact decode_grant encode_grant grant_ok.
Proof. unfold Exact, decode_grant. exact_all. done. Qed.

Definition broker_request_bytes (p : PortalBrokerRequestPacket) : list Z :=
  transfer_bytes (pr_transfer (bq_request p)) ++ push_u64 (pr_deadline_msec (bq_request p))
  ++ push_u8 (encode_bool (bq_source_may_publish p)) ++ push_u8 (encode_bool (bq_target_may_request p)).
(** The transaction a message travels under. *)
Definition broker_request_tx (p : PortalBrokerRequestPacket) : TransactionId :=
  from_raw (raw (pt_transfer (pr_transfer (bq_request p)))).
Lemma broker_request_reads t :
  Reads (decode_portal_broker_request_payload t) broker_request_bytes
    (λ p, broker_request_ok p ∧ broker_request_tx p = t).
Proof.
  intros [[tr dl] sp tq] [[Htr Hdl] <-].
  unfold decode_portal_broker_request_payload, broker_request_bytes, broker_request_tx in *.
  cbn [bq_request pr_transfer pr_deadline_msec bq_source_may_publish bq_target_may_request raw] in *.
  reads_step. rewrite decide_False by tauto. reads_step. reads_enum (bool_reads "source_may_publish") sp.
  eapply reads_map; [apply (decodes (Reads := bool_reads "target_may_request") tq I)|done].
Qed.
Lemma broker_request_exact t :
  Exact (decode_portal_broker_request_payload t) broker_request_bytes
    (λ p, broker_request_ok p ∧ broker_request_tx p = t).
Proof.
  unfold Exact, decode_portal_broker_request_payload. exact_step.
  case_decide as Ht; [apply consumes_fail|]. exact_all. split; [|done]. split; [done|].
  unfold broker_request_tx. simpl. rewrite Ht. by destruct t.
Qed.

Definition broker_response_tx (p : PortalBrokerResponsePacket) : TransactionId :=
  from_raw (raw (br_transfer p)).
Definition broker_response_bytes (p : PortalBrokerResponsePacket) : list Z :=
  encode_response_decision (br_decision p).
Lemma broker_response_reads t :
  Reads (decode_portal_broker_response_payload t) broker_response_bytes
    (λ p, broker_response_ok p ∧ broker_response_tx p = t).
Proof.
  intros [[tr] d] [[Ht Hd] <-]. unfold decode_portal_broker_response_payload, broker_response_bytes.
  cbn [br_transfer br_decision broker_response_tx raw] in *.
  destruct d as [g|]; unfold encode_response_decision.
  - destruct Hd as [Hg Hgt]. eapply reads_bind; [apply decodes; word_lia|].
    unfold decode_response_decision. rewrite <-(app_nil_r (encode_grant g)).
    eapply reads_bind; [|apply reads_ret]. rewrite <-(app_nil_r (encode_grant g)).
    eapply reads_bind; [by apply decodes|]. rewrite decide_False by tauto. apply reads_ret.
  - rewrite <-(app_nil_r (push_u8 1)). eapply reads_bind; [apply decodes; word_lia|].
    unfold decode_response_decision. eapply reads_map; [apply reads_ret|done].
Qed.
Lemma broker_response_exact t : id_ok t →
  Exact (decode_portal_broker_response_payload t) broker_response_bytes
    (λ p, broker_response_ok p ∧ broker_response_tx p = t).
Proof.
  intros Hok. unfold Exact, decode_portal_broker_response_payload.
  exact_step. eapply (consumes_bind _ _ (λ d bs, encode_response_decision d = push_u8 _ ++ bs
    ∧ match d with RespDenied => True | RespAllowed g => grant_ok g ∧ pg_transfer g = _ end)).
  - unfold decode_response_decision. repeat case_match; try apply consumes_fail.
    + exact_step. case_decide as Hg; [apply consumes_fail|]. apply consumes_ret.
      by rewrite app_nil_r.
    + apply consumes_ret. by rewrite app_nil_r.
  - intros d bs [Hd Hg]. apply consumes_ret. rewrite app_nil_r. split; [|done].
    split; [split; [by destruct t|done]|]. by destruct t.
Qed.

Definition broker_health_bytes (p : BrokerHealthPacket) : list Z :=
  push_u16 (encode_broker_kind (bh_broker p)) ++ push_u16 (encode_broker_health_state (bh_state p))
  ++ text_bytes (bh_message p).
Definition broker_health_tx (p : BrokerHealthPacket) : TransactionId := from_raw (bh_generation p).
Lemma broker_health_reads t :
  Reads (decode_broker_health_payload (raw t)) broker_health_bytes
    (λ p, broker_health_ok p ∧ broker_health_tx p = t).
Proof.
  intros [b s g m] [[Hg Hm] <-]. unfold decode_broker_health_payload, broker_health_bytes.
  cbn [bh_broker bh_state bh_generation bh_message broker_health_tx raw] in *.
  reads_enum broker_kind_reads b. reads_enum health_state_reads s. reads_all.
Qed.
Lemma broker_health_exact t : id_ok t →
  Exact (decode_broker_health_payload (raw t)) broker_health_bytes
    (λ p, broker_health_ok p ∧ broker_health_tx p = t).
Proof.
  intros Ht. unfold Exact, decode_broker_health_payload. exact_all. split; [|done].
  by destruct t.
Qed.

(** ** Frames *)

Lemma message_exact {A} (k : IpcMessageKind) (d : TransactionId → Dec A) (tx : A → TransactionId)
    (bytes : A → list Z) (ok : A → Prop) f a :
  (∀ t, id_ok t → Reads (d t) bytes (λ a, ok a ∧ tx a = t)) →
  (∀ t, id_ok t → Exact (d t) bytes (λ a, ok a ∧ tx a = t)) →
  (∀ a, ok a → id_ok (tx a)) → Forall u8_ok f →
  (let? '(header, payload) := decode_frame f in
   let? _u := expect_message_kind (fh_message_kind header) k in
   decode_payload (d (fh_transaction header)) payload) = Ok a
  ↔ ok a ∧ encode_frame k (tx a) (bytes a) = Ok f.
Proof.
  intros Hr He Htx Hf. split.
  - intros Hd. apply (message_decoded k d f a (λ t a bs, (ok a ∧ tx a = t) ∧ bs = bytes a)) in Hd
      as (t&p&Ht&[[Hok <-] ->]&Hframe); done.
  - intros [Hok Hframe]. eapply message_decodes; [by apply Htx|done|]. by apply Hr; [apply Htx|].
Qed.

Lemma encode_broker_request_eq p : broker_request_ok p →
  encode_portal_broker_request_frame p
  = encode_frame KPortalBrokerRequest (broker_request_tx p) (broker_request_bytes p).
Proof.
  intros [Ht _]. unfold encode_portal_broker_request_frame. cbv zeta. by rewrite encode_transfer_eq.
Qed.
Lemma encode_broker_health_eq p : broker_health_ok p →
  encode_broker_health_frame p = encode_frame KBrokerHealth (broker_health_tx p) (broker_health_bytes p).
Proof.
  intros [_ Hm]. unfold encode_broker_health_frame, encode_broker_health_payload.
  rewrite (proj2 (encode_optional_text_ok _ (bh_message p) _ (text_bytes (bh_message p)))); [done|].
  destruct (bh_message p); naive_solver.
Qed.

(** What the encoders write, the decoders read. *)
Lemma decode_encoded_broker_request p f :
  broker_request_ok p → encode_portal_broker_request_frame p = Ok f →
  decode_portal_broker_request_frame f = Ok p.
Proof.
  intros Hok He. rewrite encode_broker_request_eq in He by done. pose proof Hok as [[? _] _].
  eapply (message_decodes KPortalBrokerRequest (broker_request_tx p) decode_portal_broker_request_payload);
    [done|done|]. by apply broker_request_reads.
Qed.
Lemma decode_encoded_broker_response p f :
  broker_response_ok p → encode_portal_broker_response_frame p = Ok f →
  decode_portal_broker_response_frame f = Ok p.
Proof.
  intros Hok He. pose proof Hok as [? _].
  eapply (message_decodes KPortalBrokerResponse (broker_response_tx p) decode_portal_broker_response_payload);
    [done|exact He|]. by apply broker_response_reads.
Qed.
Lemma decode_encoded_clipboard_payload t payload f :
  id_ok t → encode_portal_clipboard_payload_frame t payload = Ok f →
  decode_portal_clipboard_payload_frame f = Ok (t, payload).
Proof.
  intros Ht He. unfold decode_portal_clipboard_payload_frame.
  rewrite (decode_encode_frame _ _ _ _ (ltac:(done) : id_ok (from_raw (raw t))) He).
  cbn [res_bind fh_message_kind fh_transaction raw]. unfold expect_kind.
  rewrite decide_True by done. cbn [res_bind]. apply encode_frame_ok in He as [Hl _].
  rewrite decide_False by lia. by destruct t.
Qed.

(** Portal-broker messages and broker health are exact.  For byte strings
    and values in range of their types, a frame decodes to a value exactly when
    encoding the value gives the frame.  In particular a decoded request travels
    under its own transfer, a decoded grant is for the transfer it answers, a
    clipboard payload comes back byte for byte, and texts are valid UTF-8 within
    their limits. *)
Theorem portal_messages_exact (f : list Z) :
  Forall u8_ok f →
  (∀ p, decode_portal_broker_request_frame f = Ok p
        ↔ broker_request_ok p ∧ encode_portal_broker_request_frame p = Ok f)
  ∧ (∀ p, decode_portal_broker_response_frame f = Ok p
          ↔ broker_response_ok p ∧ encode_portal_broker_response_frame p = Ok f)
  ∧ (∀ t payload, decode_portal_clipboard_payload_frame f = Ok (t, payload)
          ↔ id_ok t ∧ encode_portal_clipboard_payload_frame t payload = Ok f)
  ∧ (∀ p, decode_broker_health_frame f = Ok p
          ↔ broker_health_ok p ∧ encode_broker_health_frame p = Ok f).
Proof.
  intros Hf. split; [|split; [|split]].
  - intros p. transitivity (broker_request_ok p
      ∧ encode_frame KPortalBrokerRequest (broker_request_tx p) (broker_request_bytes p) = Ok f).
    + apply message_exact; [intros; apply broker_request_reads|intros; apply broker_request_exact| |done].
      by intros q [[? _] _].
    + split; intros [Hok He]; (split; [done|]); [by rewrite encode_broker_request_eq|].
      by rewrite <-encode_broker_request_eq.
  - intros p. apply (message_exact KPortalBrokerResponse decode_portal_broker_response_payload
      broker_response_tx broker_response_bytes broker_response_ok);
      [intros; apply broker_response_reads|intros; by apply broker_response_exact| |done].
    by intros q [? _].
  - intros t payload. unfold decode_portal_clipboard_payload_frame. split.
    + intros Hd. destruct (decode_frame f) as [[h p]|] eqn:E; [|done]. cbn [res_bind] in Hd.
      destruct (encode_decode_frame _ _ _ Hf E) as ([Ht _]&_&_&He).
      unfold expect_kind in Hd. case_decide as Hk; [|done]. cbn [res_bind] in Hd.
      case_decide; [done|]. injection Hd as <- ->. split; [done|].
      unfold encode_portal_clipboard_payload_frame. rewrite <-Hk. simpl. by destruct (fh_transaction h).
    + intros [Ht He]. by apply decode_encoded_clipboard_payload.
  - intros p. transitivity (broker_health_ok p
      ∧ encode_frame KBrokerHealth (broker_health_tx p) (broker_health_bytes p) = Ok f).
    + rewrite <-(message_exact KBrokerHealth (λ t, decode_broker_health_payload (raw t))
        broker_health_tx); [|intros; apply broker_health_reads|intros; by apply broker_health_exact| |done].
      2: by intros q [? _].
      unfold decode_broker_health_frame, expect_message_kind. f_equiv.
      destruct (decode_frame f) as [[h payload]|]; [|done]. cbn [res_bind].
      repeat case_decide; tauto.
    + split; intros [Hok He]; (split; [done|]); [by rewrite encode_broker_health_eq|].
      by rewrite <-encode_broker_health_eq.
Qed.

Definition example_broker_request : PortalBrokerRequestPacket :=
  mk_broker_request
    (mk_portal_request
       (mk_transfer (from_raw 7) (from_raw 2) (from_raw 3) KUriOpen (Some (str "text/uri-list")) 12
          DPending 4) 2000) true false.
Lemma portal_messages_exact_witness :
  ∃ f, encode_portal_broker_request_frame example_broker_request = Ok f
    ∧ decode_portal_broker_request_frame f = Ok example_broker_request.
Proof.
  destruct (encode_portal_broker_request_frame example_broker_request) as [f|e] eqn:E.
  2: { exfalso. vm_compute in E. discriminate E. }
  exists f. split; [reflexivity|].
  assert (Forall u8_ok f) as Hf.
  { vm_compute in E. injection E as <-. apply (bool_decide_unpack _). vm_compute. exact I. }
  apply (portal_messages_exact f Hf). split; [|exact E].
  split; [|apply (bool_decide_unpack _); vm_compute; exact I].
  repeat split; apply (bool_decide_unpack _); vm_compute; exact I.
Defined.
