(* ===== verification/WmDemo.v ===== *)
(** * The demonstration window manager
    ([sophia-wm-demo/src/{policy,socket}.rs])

    The column-tiling policy and the loop that serves it over a stream.  [None]
    is a panic: a failed [expect] or an overflow of [i32] arithmetic.  A stream is
    the bytes it will still deliver and those written to it; writes succeed. *)

From stdpp Require Import strings.
From S2P Require Import Prelude Ids Geometry Packets Errors Text Codec IpcWm WmPolicy WmShortcuts.
Local Open Scope Z_scope.

(** [i32] arithmetic, and [i32::try_from] of a length. *)
Definition i32_checked (z : Z) : option Z := if decide (i32_ok z) then Some z else None.
Lemma i32_checked_Some z : i32_ok z → i32_checked z = Some z.
Proof. intros. unfold i32_checked. by rewrite decide_True. Qed.

Definition empty_transaction (transaction : TransactionId) : LayoutTransaction :=
  mk_layout_tx transaction [] None [] 300.

Definition clamp_size (size : Size) (min_size max_size : option Size) : Size :=
  let size := match min_size with
              | Some m => mk_size (Z.max (sz_width size) (sz_width m)) (Z.max (sz_height size) (sz_height m))
              | None => size
              end in
  match max_size with
  | Some m => mk_size (Z.min (sz_width size) (sz_width m)) (Z.min (sz_height size) (sz_height m))
  | None => size
  end.

Definition shown_on (workspace : WorkspaceId) (n : LayoutNodeSnapshot) : Prop :=
  ln_workspace n = workspace ∧ visible (ln_state n) = true.
#[export] Instance shown_on_dec w n : Decision (shown_on w n).
Proof. unfold shown_on; apply _. Defined.

(** The geometry of tile [index] of [count]. *)
Definition tile_geometry (bounds : Rect) (width count index : Z) : option Rect :=
  index ← i32_checked index;
  next ← i32_checked (index + 1);
  offset ← i32_checked (width * index);
  x ← i32_checked (rx bounds + offset);
  tile_width ← (if decide (next = count)
                then right ← i32_checked (rx bounds + rwidth bounds); i32_checked (right - x)
                else Some width);
  Some (mk_rect x (ry bounds) (Z.max tile_width 1) (rheight bounds)).

(** The locals of the loop: requested sizes, focus, render positions. *)
Definition TileState : Type :=
  list SurfaceSizeRequest * option SurfaceId * list SurfacePlacement.

(** One iteration of the loop over the visible nodes. *)
Definition tile_step (bounds : Rect) (width count : Z) (s : TileState) (index : nat)
    (node : LayoutNodeSnapshot) : option TileState :=
  let '(requested_sizes, focus, render_positions) := s in
  geometry ← tile_geometry bounds width count (Z.of_nat index);
  let requested := clamp_size (mk_size (rwidth geometry) (rheight geometry))
                     (sc_min_size (ln_constraints node)) (sc_max_size (ln_constraints node)) in
  let focus := match focus with
               | None => if focusable (ln_capabilities node) then Some (ln_surface node) else None
               | Some s => Some s
               end in
  Some (requested_sizes ++ [mk_size_request (ln_surface node) requested], focus,
        render_positions ++ [mk_placement (ln_surface node) geometry (Z.of_nat index) None IDENTITY]).

Fixpoint tile_nodes (bounds : Rect) (width count : Z) (s : TileState) (index : nat)
    (nodes : list LayoutNodeSnapshot) : option TileState :=
  match nodes with
  | [] => Some s
  | node :: nodes =>
      s ← tile_step bounds width count s index node;
      tile_nodes bounds width count s (S index) nodes
  end.

Definition tile_workspace (transaction : TransactionId) (workspace : WorkspaceId) (bounds : Rect)
    (nodes : list LayoutNodeSnapshot) : option LayoutTransaction :=
  let visible_nodes := filter (shown_on workspace) nodes in
  if decide (visible_nodes = [] ∨ rect_is_empty bounds) then Some (empty_transaction transaction)
  else
    count ← i32_checked (Z.of_nat (length visible_nodes));
    let width := Z.quot (rwidth bounds) count in
    s ← tile_nodes bounds width count ([], None, []) 0 visible_nodes;
    let '(requested_sizes, focus, render_positions) := s in
    Some (mk_layout_tx transaction requested_sizes focus render_positions 300).

Definition response_from_layout_transaction (t : LayoutTransaction)
    (assigned_workspace : option WorkspaceId) : WmResponsePacket :=
  mk_wm_response (lt_transaction t)
    (match assigned_workspace with
     | Some workspace => (λ p, AssignWorkspace (sp_surface p) workspace) <$> lt_render_positions t
     | None => []
     end
     ++ (ConfigureSurface <$> lt_requested_sizes t)
     ++ match lt_focus t with Some focus => [FocusSurface focus] | None => [] end
     ++ (RenderSurface <$> lt_render_positions t))
    (lt_timeout_msec t).

(** Action 1: the node after the focused one, in a cycle. *)
Definition next_focus (activation : WmActionActivation) : nat :=
  match (focused ← wa_focused_surface activation;
         position (λ n, ln_surface n = focused) (wa_nodes activation)) with
  | Some index => (index + 1) mod (Nat.max (length (wa_nodes activation)) 1)
  | None => 0
  end%nat.
Definition action_commands (activation : WmActionActivation) : list WmCommand :=
  match raw (wa_action activation) with
  | 1 =>
      match wa_nodes activation !! next_focus activation with
      | Some node => if focusable (ln_capabilities node) then [FocusSurface (ln_surface node)] else []
      | None => []
      end
  | 2 => [ActivateWorkspace (wa_output activation) (from_raw 2)]
  | 3 => [RequestSessionAction LaunchTerminal None]
  | _ => []
  end.

Definition handle_wm_request (request : WmRequestPacket) : option WmResponsePacket :=
  match wq_kind request with
  | ManageSurface manage =>
      t ← tile_workspace (wq_transaction request) (wms_workspace manage) (wms_bounds manage)
            [wms_node manage];
      Some (response_from_layout_transaction t (Some (wms_workspace manage)))
  | RelayoutWorkspace relayout =>
      t ← tile_workspace (wq_transaction request) (wr_workspace relayout) (wr_bounds relayout)
            (wr_nodes relayout);
      Some (response_from_layout_transaction t None)
  | SurfaceRemoved _ _ => Some (mk_wm_response (wq_transaction request) [] 300)
  | ActionActivated activation =>
      Some (mk_wm_response (wq_transaction request) (action_commands activation) 300)
  end.

(** ** Serving a client *)

Definition demo_binding (action keycode : Z) : WmBindingRegistration :=
  mk_binding (from_raw action) keycode MOD_SUPER.
Definition demo_hello : WmHello :=
  mk_hello WM_API_VERSION CAP_SUPPORTED [demo_binding 1 57; demo_binding 2 3; demo_binding 3 28].

(** Which step failed; the message texts are not modelled. *)
Inductive WmProcessError : Type :=
| EncodeHello | ReadHeader | PayloadTooLong (len : Z) | ReadPayload | DecodeDescriptor
| DecodeRequest | EncodeResponse | DemoPanic.
#[export] Instance process_error_eq_dec : EqDecision WmProcessError.
Proof. solve_decision. Defined.

(** The rest of a frame whose header was read. *)
Definition read_frame_payload (header input : list Z) : result (list Z * list Z) WmProcessError :=
  let payload_len := from_le_bytes (take 4 (drop 16 header)) in
  ensure! (payload_len ≤ SOPHIA_IPC_MAX_PAYLOAD_LEN) else PayloadTooLong payload_len in
  let? '(payload, input) := ok_or (stream_read_exact payload_len input) ReadPayload in
  Ok (header ++ payload, input).
Definition read_frame (input : list Z) : result (list Z * list Z) WmProcessError :=
  let? '(header, input) := ok_or (stream_read_exact SOPHIA_IPC_HEADER_LEN input) ReadHeader in
  read_frame_payload header input.
(** [Ok None] at the end of the stream. *)
Definition read_wm_request (input : list Z) : result (option (WmRequestPacket * list Z)) WmProcessError :=
  match stream_read_exact SOPHIA_IPC_HEADER_LEN input with
  | None => Ok None
  | Some (header, input) =>
      let? '(frame, input) := read_frame_payload header input in
      let? request := map_err (λ _, DecodeRequest) (decode_wm_request_frame frame) in
      Ok (Some (request, input))
  end.

(** The [while let] loop; the result and the bytes written.  Every request takes
    at least a header from the input. *)
Fixpoint serve_requests (fuel : nat) (input output : list Z) :
    option (result unit WmProcessError * list Z) :=
  match fuel with
  | O => None
  | S fuel =>
      match read_wm_request input with
      | Err e => Some (Err e, output)
      | Ok None => Some (Ok tt, output)
      | Ok (Some (request, input)) =>
          match handle_wm_request request with
          | None => Some (Err DemoPanic, output)
          | Some response =>
              match encode_wm_response_frame response with
              | Err _ => Some (Err EncodeResponse, output)
              | Ok frame => serve_requests fuel input (output ++ frame)
              end
          end
      end
  end.

Definition serve_socket_client (fuel : nat) (input : list Z) :
    option (result unit WmProcessError * list Z) :=
  match encode_wm_hello_frame demo_hello with
  | Err _ => Some (Err EncodeHello, [])
  | Ok hello =>
      match read_frame input with
      | Err e => Some (Err e, hello)
      | Ok (descriptor, input) =>
          match decode_wm_session_descriptor_frame descriptor with
          | Err _ => Some (Err DecodeDescriptor, hello)
          | Ok _ => serve_requests fuel input hello
          end
      end
  end.

(** ** Tiles *)

(** Bounds whose right edge is an [i32]. *)
Definition tileable (b : Rect) : Prop :=
  i32_ok (rx b) ∧ ¬ rect_is_empty b ∧ i32_ok (rwidth b) ∧ i32_ok (rx b + rwidth b).
#[export] Instance tileable_dec b : Decision (tileable b).
Proof. unfold tileable; apply _. Defined.

(** Column [i] of [n]: the last one takes what the division leaves over. *)
Definition column (b : Rect) (n i : Z) : Rect :=
  let width := rwidth b / n in
  mk_rect (rx b + width * i) (ry b)
    (Z.max (if decide (i + 1 = n) then rwidth b - width * i else width) 1) (rheight b).

Lemma column_bounds b n i :
  tileable b → 0 ≤ i < n → 0 ≤ rwidth b / n ∧ 0 ≤ rwidth b / n * i ∧ rwidth b / n * (i + 1) ≤ rwidth b.
Proof.
  intros (_&He&_) Hi. unfold rect_is_empty in He.
  assert (0 ≤ rwidth b / n) by (apply Z.div_pos; lia).
  pose proof (Z.mul_div_le (rwidth b) n). nia.
Qed.

Lemma tile_geometry_column b n i :
  tileable b → i32_ok n → 0 ≤ i < n →
  tile_geometry b (Z.quot (rwidth b) n) n i = Some (column b n i).
Proof.
  intros Hb Hn Hi. pose proof (column_bounds b n i Hb Hi) as (?&?&?). destruct Hb as (?&He&?&?).
  unfold rect_is_empty in He. unfold tile_geometry, column.
  rewrite Z.quot_div_nonneg by lia.
  set (w := rwidth b / n) in *.
  rewrite (i32_checked_Some i) by word_lia. simpl. rewrite (i32_checked_Some (i + 1)) by word_lia. simpl.
  rewrite (i32_checked_Some (w * i)) by word_lia. simpl.
  rewrite (i32_checked_Some (rx b + w * i)) by word_lia. simpl.
  case_decide; simpl; [|done].
  rewrite (i32_checked_Some (rx b + rwidth b)) by word_lia. simpl.
  rewrite i32_checked_Some by word_lia. simpl. do 3 f_equal. lia.
Qed.

Definition node_request (g : Rect) (n : LayoutNodeSnapshot) : SurfaceSizeRequest :=
  mk_size_request (ln_surface n)
    (clamp_size (mk_size (rwidth g) (rheight g)) (sc_min_size (ln_constraints n))
       (sc_max_size (ln_constraints n))).
Definition node_placement (b : Rect) (count : Z) (i : nat) (n : LayoutNodeSnapshot) : SurfacePlacement :=
  mk_placement (ln_surface n) (column b count (Z.of_nat i)) (Z.of_nat i) None IDENTITY.
Definition focusable_node (n : LayoutNodeSnapshot) : Prop := focusable (ln_capabilities n) = true.
#[export] Instance focusable_node_dec n : Decision (focusable_node n).
Proof. unfold focusable_node; apply _. Defined.

Lemma tile_nodes_eq b count nodes sizes focus pos i :
  tileable b → i32_ok count → Z.of_nat (i + length nodes) ≤ count →
  tile_nodes b (Z.quot (rwidth b) count) count (sizes, focus, pos) i nodes =
    Some (sizes ++ imap (λ j n, node_request (column b count (Z.of_nat (i + j))) n) nodes,
          match focus with
          | Some s => Some s
          | None => ln_surface <$> find_first focusable_node nodes
          end,
          pos ++ imap (λ j, node_placement b count (i + j)) nodes).
Proof.
  intros Hb Hc. revert sizes focus pos i. induction nodes as [|n nodes IH]; intros sizes focus pos i Hl.
  { simpl. rewrite !app_nil_r. by destruct focus. }
  simpl in Hl. cbn [tile_nodes]. unfold tile_step. rewrite tile_geometry_column by (try done; lia).
  cbn [mbind option_bind]. rewrite IH by lia. cbn [imap]. rewrite Nat.add_0_r, <-!app_assoc.
  f_equal. f_equal; [f_equal|].
  - f_equal. cbn [app]. f_equal. apply imap_ext. intros j x _. simpl. by rewrite Nat.add_succ_r.
  - destruct focus; [done|]. rewrite find_first_cons.
    destruct (decide (focusable_node n)) as [E|E]; unfold focusable_node in E; [by rewrite E|].
    by destruct (focusable (ln_capabilities n)).
  - f_equal. cbn [app]. f_equal. apply imap_ext. intros j x _. simpl. by rewrite Nat.add_succ_r.
Qed.

(** The layout [tile_workspace] computes for the visible nodes [vs]. *)
Definition tiled (t : TransactionId) (b : Rect) (vs : list LayoutNodeSnapshot) : LayoutTransaction :=
  let count := Z.of_nat (length vs) in
  mk_layout_tx t (imap (λ j n, node_request (column b count (Z.of_nat j)) n) vs)
    (ln_surface <$> find_first focusable_node vs) (imap (node_placement b count) vs) 300.

Lemma tile_workspace_eq t w b nodes :
  i32_ok (Z.of_nat (length nodes)) → tileable b →
  tile_workspace t w b nodes = Some (tiled t b (filter (shown_on w) nodes)).
Proof.
  intros Hl Hb. unfold tile_workspace. set (vs := filter _ _).
  assert (length vs ≤ length nodes)%nat as Hvs by apply length_filter.
  case_decide as He.
  - destruct He as [->|He]; [done|]. by destruct Hb as (_&?&_).
  - rewrite i32_checked_Some by word_lia. cbn [mbind option_bind].
    rewrite tile_nodes_eq by (try done; word_lia). done.
Qed.

(** The column of pixel column [x]. *)
Lemma in_column b n i x y :
  tileable b → 0 < n ≤ rwidth b → 0 ≤ i < n →
  in_rect x y (column b n i) ↔ in_rect x y b ∧ Z.min ((x - rx b) / (rwidth b / n)) (n - 1) = i.
Proof.
  intros Hb Hn Hi. pose proof (column_bounds b n i Hb Hi) as (_&Hl&Hr).
  assert (1 ≤ rwidth b / n) as Hw by (apply Z.div_le_lower_bound; lia).
  unfold in_rect, column; cbn [rx ry rwidth rheight]. set (w := rwidth b / n) in *.
  assert (∀ k, w * k ≤ x - rx b ↔ k ≤ (x - rx b) / w) as Hdiv.
  { intros k. split; intros H; [by apply Z.div_le_lower_bound; lia|].
    pose proof (Z.mul_div_le (x - rx b) w). nia. }
  pose proof (Hdiv i). pose proof (Hdiv (i + 1)). case_decide; [|].
  - rewrite Z.max_l by lia. split; [intros; split; [split|]|intros ([]&?)]; lia.
  - rewrite Z.max_l by lia. split; [intros; split; [split|]|intros ([]&?)]; lia.
Qed.

(** The interval a clamped size may lie in. *)
Definition size_within (c : SurfaceConstraints) (s : Size) : Prop :=
  (∀ m, sc_max_size c = Some m → sz_width s ≤ sz_width m ∧ sz_height s ≤ sz_height m) ∧
  (∀ m, sc_min_size c = Some m →
     (∀ x, sc_max_size c = Some x → sz_width m ≤ sz_width x ∧ sz_height m ≤ sz_height x) →
     sz_width m ≤ sz_width s ∧ sz_height m ≤ sz_height s).
Lemma clamp_size_within c s : size_within c (clamp_size s (sc_min_size c) (sc_max_size c)).
Proof.
  unfold size_within, clamp_size.
  destruct (sc_min_size c) as [mn|], (sc_max_size c) as [mx|]; simpl; split; intros m [= <-];
    try (intros Hx; specialize (Hx _ eq_refl)); lia.
Qed.

Lemma tiled_surfaces t b vs :
  sp_surface <$> lt_render_positions (tiled t b vs) = ln_surface <$> vs
  ∧ sr_surface <$> lt_requested_sizes (tiled t b vs) = ln_surface <$> vs.
Proof.
  unfold tiled; simpl. rewrite !fmap_imap. rewrite <-(imap_const ln_surface).
  split; apply imap_ext; done.
Qed.

(** The tiles partition the screen.  Over bounds whose right edge is an [i32],
    with at least one visible node on the workspace and no more of them than
    pixel columns, tiling never overflows; it places exactly the visible nodes,
    each once, in order; every pixel of the bounds is in exactly one tile and
    every pixel of a tile is in the bounds; each node is asked for its tile's size
    clamped to its constraints; and the first focusable node is focused. *)
Theorem tiles_partition (t : TransactionId) (w : WorkspaceId) (b : Rect)
    (nodes : list LayoutNodeSnapshot) :
  i32_ok (Z.of_nat (length nodes)) → tileable b →
  let vs := filter (shown_on w) nodes in
  0 < Z.of_nat (length vs) ≤ rwidth b →
  ∃ l, tile_workspace t w b nodes = Some l
    ∧ sp_surface <$> lt_render_positions l = ln_surface <$> vs
    ∧ (∀ x y, in_rect x y b →
         exists! i, ∃ p, lt_render_positions l !! i = Some p ∧ in_rect x y (sp_geometry p))
    ∧ (∀ p x y, p ∈ lt_render_positions l → in_rect x y (sp_geometry p) → in_rect x y b)
    ∧ Forall2 (λ n r, sr_surface r = ln_surface n ∧ size_within (ln_constraints n) (sr_size r))
        vs (lt_requested_sizes l)
    ∧ lt_focus l = ln_surface <$> find_first focusable_node vs.
Proof.
  intros Hl Hb vs Hvs. exists (tiled t b vs). split; [by apply tile_workspace_eq|].
  split; [apply tiled_surfaces|]. set (n := Z.of_nat (length vs)) in *.
  assert (∀ i p x y, lt_render_positions (tiled t b vs) !! i = Some p →
    in_rect x y (sp_geometry p) ↔ in_rect x y b ∧ Z.min ((x - rx b) / (rwidth b / n)) (n - 1) = Z.of_nat i) as Hin.
  { intros i p x y Hp. simpl in Hp. rewrite list_lookup_imap in Hp.
    apply fmap_Some in Hp as (v&Hv&->). apply lookup_lt_Some in Hv. apply in_column; try done; lia. }
  split; [|split; [|split; [|done]]].
  - intros x y Hxy. set (k := Z.min ((x - rx b) / (rwidth b / n)) (n - 1)).
    assert (0 ≤ k < n) as Hk.
    { subst k. assert (1 ≤ rwidth b / n) by (apply Z.div_le_lower_bound; lia).
      assert (0 ≤ (x - rx b) / (rwidth b / n)); [|lia].
      apply Z.div_pos; [unfold in_rect in Hxy|]; lia. }
    exists (Z.to_nat k). split.
    + destruct (lookup_lt_is_Some_2 vs (Z.to_nat k)) as [v Hv]; [lia|].
      exists (node_placement b n (Z.to_nat k) v).
      assert (lt_render_positions (tiled t b vs) !! Z.to_nat k = Some (node_placement b n (Z.to_nat k) v)) as Hp
        by (simpl; by rewrite list_lookup_imap, Hv).
      split; [done|]. apply (Hin _ _ _ _ Hp). split; [done|]. subst k. lia.
    + intros i (p&Hp&Hi). apply (Hin _ _ _ _ Hp) in Hi as [_ Hi]. subst k. lia.
  - intros p x y (i&Hp)%list_elem_of_lookup_1 Hxy. by apply (Hin _ _ _ _ Hp) in Hxy as [? _].
  - simpl. apply Forall2_same_length_lookup_2; [by rewrite length_imap|].
    intros i v r Hv Hr. rewrite list_lookup_imap, Hv in Hr. injection Hr as <-. simpl.
    split; [done|]. apply clamp_size_within.
Qed.

Definition example_node (s w : Z) (can_focus : bool) : LayoutNodeSnapshot :=
  mk_node (surface_id s 1) (from_raw w) Toplevel (mk_node_caps true true can_focus true true)
    NODE_NORMAL (mk_constraints (Some (mk_size 40 10)) None) (mk_rect 0 0 1 1) 1.
Lemma tiles_partition_witness :
  ∃ l, tile_workspace (from_raw 5) (from_raw 1) (mk_rect (-10) 0 100 50)
         [example_node 1 1 false; example_node 2 2 true; example_node 3 1 true; example_node 4 1 true]
       = Some l
    ∧ sp_surface <$> lt_render_positions l = [surface_id 1 1; surface_id 3 1; surface_id 4 1]
    ∧ lt_focus l = Some (surface_id 3 1).
Proof.
  destruct (tiles_partition (from_raw 5) (from_raw 1) (mk_rect (-10) 0 100 50)
    [example_node 1 1 false; example_node 2 2 true; example_node 3 1 true; example_node 4 1 true])
    as (l&Hl&Hs&_&_&_&Hf).
  - apply (bool_decide_unpack _). vm_compute. exact I.
  - apply (bool_decide_unpack _). vm_compute. exact I.
  - split; vm_compute; congruence.
  - exists l. split; [exact Hl|]. split; [rewrite Hs; vm_compute; reflexivity|].
    rewrite Hf. vm_compute. reflexivity.
Defined.

(** ** The engine accepts what the policy answers *)

(** Each node is a surface on the workspace, at most once, and some output shows
    the workspace. *)
Definition workspace_shown (w : WmWorkspaceState) (k : WorkspaceId) : Prop :=
  ∃ o st, pol_outputs w !! o = Some st ∧ ops_workspace st = k.
Definition nodes_of (w : WmWorkspaceState) (k : WorkspaceId) (nodes : list LayoutNodeSnapshot) : Prop :=
  NoDup (ln_surface <$> nodes) ∧ i32_ok (Z.of_nat (length nodes)) ∧ workspace_shown w k
  ∧ Forall (λ n, pol_surfaces w !! ln_surface n = Some k) nodes.
Definition bounds_ok (b : Rect) : Prop := tileable b ∨ rect_is_empty b.

(** Requests that describe the engine's own state [w]. *)
Definition request_about (w : WmWorkspaceState) (advertised : list WmSessionAction)
    (r : WmRequestPacket) : Prop :=
  match wq_kind r with
  | ManageSurface m =>
      is_Some (pol_surfaces w !! ln_surface (wms_node m)) ∧ wms_workspace m ∈ pol_workspaces w
      ∧ workspace_shown w (wms_workspace m) ∧ bounds_ok (wms_bounds m)
  | RelayoutWorkspace l =>
      nodes_of w (wr_workspace l) (filter (shown_on (wr_workspace l)) (wr_nodes l))
      ∧ i32_ok (Z.of_nat (length (wr_nodes l))) ∧ bounds_ok (wr_bounds l)
  | SurfaceRemoved _ _ => True
  | ActionActivated a =>
      (raw (wa_action a) = 1 → nodes_of w (wa_workspace a) (wa_nodes a))
      ∧ (raw (wa_action a) = 2 → from_raw 2 ∈ pol_workspaces w ∧ is_Some (pol_outputs w !! wa_output a))
      ∧ (raw (wa_action a) = 3 → LaunchTerminal ∈ advertised)
  end.

Lemma try_fold_cons_ok {S A E} (f : S → A → result S E) s a l s1 r :
  f s a = Ok s1 → try_fold f s1 l = r → try_fold f s (a :: l) = r.
Proof. intros H <-. simpl. by rewrite H. Qed.
Lemma try_fold_app_ok {S A E} (f : S → A → result S E) s l1 l2 s1 r :
  try_fold f s l1 = Ok s1 → try_fold f s1 l2 = r → try_fold f s (l1 ++ l2) = r.
Proof. intros H <-. by rewrite try_fold_app, H. Qed.

Section accept.
Variable adv : list WmSessionAction.
Local Notation plan := (try_fold (plan_command adv)).

Lemma plan_configures c rs sizes pos foc act asg actv conf rend :
  Forall (λ r, sr_surface r ∈ dom (pol_surfaces c)) rs → NoDup (sr_surface <$> rs) →
  Forall (λ r, sr_surface r ∉ conf) rs →
  ∃ conf', plan (mk_plan_state c sizes pos foc act asg actv conf rend) (ConfigureSurface <$> rs)
    = Ok (mk_plan_state c (sizes ++ rs) pos foc act asg actv conf' rend).
Proof.
  intros Hd Hn Hc. revert sizes conf Hc. induction rs as [|r rs IH]; intros sizes conf Hc.
  { exists conf. simpl. by rewrite app_nil_r. }
  apply Forall_cons in Hd as [Hr Hd], Hc as [Hrc Hc]. csimpl in *. apply NoDup_cons in Hn as [Hx Hn].
  destruct (IH Hd Hn (sizes ++ [r]) ({[sr_surface r]} ∪ conf)) as [conf' Hf].
  { apply Forall_forall. intros q Hq. rewrite Forall_forall in Hc. apply not_elem_of_union.
    split; [|by apply Hc]. apply not_elem_of_singleton. intros E. apply Hx. rewrite <-E.
    by apply list_elem_of_fmap_2. }
  exists conf'. rewrite <-app_assoc in Hf. rewrite (proj2 (require_surface_ok _ _)) by done. simpl.
  rewrite decide_True by done. exact Hf.
Qed.

Lemma plan_renders c ps sizes pos foc act asg actv conf rend :
  Forall (λ p, sp_surface p ∈ dom (pol_surfaces c)) ps → NoDup (sp_surface <$> ps) →
  Forall (λ p, sp_surface p ∉ rend) ps →
  ∃ rend', plan (mk_plan_state c sizes pos foc act asg actv conf rend) (RenderSurface <$> ps)
    = Ok (mk_plan_state c sizes (pos ++ ps) foc act asg actv conf rend').
Proof.
  intros Hd Hn Hc. revert pos rend Hc. induction ps as [|r rs IH]; intros pos rend Hc.
  { exists rend. simpl. by rewrite app_nil_r. }
  apply Forall_cons in Hd as [Hr Hd], Hc as [Hrc Hc]. csimpl in *. apply NoDup_cons in Hn as [Hx Hn].
  destruct (IH Hd Hn (pos ++ [r]) ({[sp_surface r]} ∪ rend)) as [rend' Hf].
  { apply Forall_forall. intros q Hq. rewrite Forall_forall in Hc. apply not_elem_of_union.
    split; [|by apply Hc]. apply not_elem_of_singleton. intros E. apply Hx. rewrite <-E.
    by apply list_elem_of_fmap_2. }
  exists rend'. rewrite <-app_assoc in Hf. rewrite (proj2 (require_surface_ok _ _)) by done. simpl.
  rewrite decide_True by done. exact Hf.
Qed.

(** A layout of surfaces on a shown workspace is accepted from any state of the
    loop that has not named them yet. *)
Lemma plan_layout c k t asg vs b tx :
  Forall (λ n, pol_surfaces c !! ln_surface n = Some k) vs → NoDup (ln_surface <$> vs) →
  t = tiled tx b vs →
  ∃ conf rend, plan (mk_plan_state c [] [] None None asg ∅ ∅ ∅)
    ((ConfigureSurface <$> lt_requested_sizes t)
     ++ match lt_focus t with Some focus => [FocusSurface focus] | None => [] end
     ++ (RenderSurface <$> lt_render_positions t))
  = Ok (mk_plan_state c (lt_requested_sizes t) (lt_render_positions t) (lt_focus t) None asg ∅ conf rend)
  ∧ (∀ f, lt_focus t = Some f → pol_surfaces c !! f = Some k).
Proof.
  intros Hk Hn ->. destruct (tiled_surfaces tx b vs) as [Hp Hs]. set (t := tiled tx b vs) in *.
  assert (∀ x, x ∈ ln_surface <$> vs → pol_surfaces c !! x = Some k) as Hk'.
  { intros x (n&->&Hin)%list_elem_of_fmap. rewrite Forall_forall in Hk. by apply Hk. }
  assert (∀ f, lt_focus t = Some f → pol_surfaces c !! f = Some k) as Hf.
  { intros f Hf. simpl in Hf. apply fmap_Some in Hf as (n&Hf&->). apply Hk', list_elem_of_fmap_2.
    by apply find_first_Some in Hf as [? _]. }
  assert (∀ x, x ∈ ln_surface <$> vs → x ∈ dom (pol_surfaces c)) as Hdom.
  { intros x Hx. apply elem_of_dom. rewrite (Hk' x) by done. by eexists. }
  destruct (plan_configures c (lt_requested_sizes t) [] [] None None asg ∅ ∅ ∅) as [conf Hc].
  { apply Forall_forall. intros r Hr. apply Hdom. rewrite <-Hs. by apply list_elem_of_fmap_2. }
  { by rewrite Hs. } { apply Forall_true. set_solver. }
  destruct (plan_renders c (lt_render_positions t) (lt_requested_sizes t) [] (lt_focus t) None asg ∅ conf ∅)
    as [rend Hr].
  { apply Forall_forall. intros r Hr. apply Hdom. rewrite <-Hp. by apply list_elem_of_fmap_2. }
  { by rewrite Hp. } { apply Forall_true. set_solver. }
  exists conf, rend. split; [|done]. eapply (try_fold_app_ok (plan_command adv)); [exact Hc|]. cbn [app].
  eapply (try_fold_app_ok (plan_command adv)); [|exact Hr]. destruct (lt_focus t) as [f|]; [|done].
  eapply (try_fold_cons_ok (plan_command adv)); [|done]. simpl. rewrite (proj2 (require_surface_ok _ _)); [done|].
  apply elem_of_dom. rewrite (Hf f) by done. by eexists.
Qed.

End accept.

Lemma apply_focus_shown c k focus :
  workspace_shown c k → (∀ f, focus = Some f → pol_surfaces c !! f = Some k) →
  ∃ c', apply_focus c focus = Ok c'.
Proof.
  intros (o&st&Ho&Hk) Hf. unfold apply_focus. destruct focus as [f|]; [|by eexists].
  unfold surface_workspace. rewrite (Hf f) by done. simpl.
  destruct (output_for_workspace c k) as [o'|] eqn:E; [by eexists|].
  by destruct (proj1 (output_for_workspace_None c k) E o st Ho).
Qed.

Lemma tile_workspace_cases t w b nodes :
  i32_ok (Z.of_nat (length nodes)) → bounds_ok b →
  ∃ vs, tile_workspace t w b nodes = Some (tiled t b vs)
    ∧ (vs = filter (shown_on w) nodes ∨ vs = []).
Proof.
  intros Hl [Hb|Hb].
  - exists (filter (shown_on w) nodes). split; [by apply tile_workspace_eq|by left].
  - exists []. split; [|by right]. unfold tile_workspace. by rewrite decide_True by auto.
Qed.

(** Accepting the commands is enough, if the focus ends on a shown workspace. *)
Lemma plan_response_accepts w adv resp c k sizes pos foc act asg actv conf rend :
  try_fold (plan_command adv) (plan_start w) (wp_commands resp)
    = Ok (mk_plan_state c sizes pos foc act asg actv conf rend) →
  workspace_shown c k → (∀ f, foc = Some f → pol_surfaces c !! f = Some k) →
  ∃ plan, plan_response w resp adv = Ok plan ∧ pp_transaction plan = wp_transaction resp.
Proof.
  intros Hloop Hk Hf. destruct (apply_focus_shown c k foc Hk Hf) as [c' Hc'].
  unfold plan_response. rewrite Hloop. cbn [res_bind pl_candidate pl_focus]. rewrite Hc'. by eexists.
Qed.

Lemma accept_actions w adv a :
  request_about w adv (mk_wm_request INVALID (ActionActivated a)) → policy_ok w →
  ∃ c k sizes pos foc act asg actv conf rend,
    try_fold (plan_command adv) (plan_start w) (action_commands a)
      = Ok (mk_plan_state c sizes pos foc act asg actv conf rend)
    ∧ (foc = None ∨ workspace_shown c k ∧ ∀ f, foc = Some f → pol_surfaces c !! f = Some k).
Proof.
  intros (H1&H2&H3) [Hb _]. unfold action_commands.
  assert (∃ c k sizes pos foc act asg actv conf rend,
    try_fold (plan_command adv) (plan_start w) []
      = Ok (mk_plan_state c sizes pos foc act asg actv conf rend)
    ∧ (foc = None ∨ workspace_shown c k ∧ ∀ f, foc = Some f → pol_surfaces c !! f = Some k)) as Hnil.
  { exists w, (wa_workspace a). do 8 eexists. split; [done|]. by left. }
  set (n := raw (wa_action a)) in *. clearbody n. repeat case_match; try done; subst.
  - specialize (H3 eq_refl).
    exists w, (wa_workspace a). do 8 eexists. simpl.
    rewrite !decide_True by naive_solver. split; [done|by left].
  - destruct (H2 eq_refl) as [Hw [st Ho]].
    assert (∃ c', activate_workspace w (wa_output a) (from_raw 2) = Ok c') as [c' Hc'].
    { unfold activate_workspace. rewrite Ho. simpl. case_decide; by eexists. }
    exists c', (wa_workspace a). do 8 eexists. simpl. rewrite (proj2 (require_workspace_ok _ _)) by done.
    simpl. rewrite decide_True by set_solver. rewrite Hc'. split; [done|by left].
  - destruct (H1 eq_refl) as (_&_&Hs&Hk).
    match goal with E : wa_nodes a !! _ = Some ?n |- _ => rename E into Hn; rename n into node end.
    pose proof (Forall_lookup_1 _ _ _ _ Hk Hn) as Hnode. simpl in Hnode.
    exists w, (wa_workspace a). do 8 eexists. simpl. rewrite (proj2 (require_surface_ok _ _)).
    2: { apply elem_of_dom. by eexists. }
    simpl. split; [done|]. right. split; [done|]. by intros f [= <-].
Qed.

Lemma accept_manage w adv t m :
  request_about w adv (mk_wm_request t (ManageSurface m)) →
  ∃ resp plan, handle_wm_request (mk_wm_request t (ManageSurface m)) = Some resp
    ∧ plan_response w resp adv = Ok plan ∧ pp_transaction plan = t.
Proof.
  intros (Hs&Hk&(o&st&Ho&Hst)&Hbd).
  unfold handle_wm_request. cbn [wq_kind wq_transaction].
  destruct (tile_workspace_cases t (wms_workspace m) (wms_bounds m) [wms_node m]) as (vs&->&Hvs);
    [done|done|].
  cbn [mbind option_bind]. eexists. set (resp := response_from_layout_transaction _ _).
  set (c := if decide (vs = []) then w
            else mk_policy (pol_workspaces w) (pol_outputs w)
                   (<[ln_surface (wms_node m) := wms_workspace m]> (pol_surfaces w))).
  assert (vs = [] ∨ vs = [wms_node m]) as Hcase.
  { destruct Hvs as [->| ->]; [|by left]. simpl. rewrite filter_cons, filter_nil.
    case_decide; [by right|by left]. }
  set (asg := if decide (vs = []) then ∅ else {[ln_surface (wms_node m)]} ∪ (∅ : gset SurfaceId)).
  destruct (plan_layout adv c (wms_workspace m) (tiled t (wms_bounds m) vs) asg vs
              (wms_bounds m) t) as (conf&rend&Hl&Hf); [| |done|].
  { subst c. destruct Hcase as [->| ->]; [done|]. rewrite decide_False by done.
    constructor; [|done]. simpl. by rewrite lookup_insert_eq. }
  { destruct Hcase as [->| ->]; [apply NoDup_nil_2|apply NoDup_singleton]. }
  destruct (plan_response_accepts w adv resp c (wms_workspace m) (lt_requested_sizes (tiled t (wms_bounds m) vs)) (lt_render_positions (tiled t (wms_bounds m) vs)) (lt_focus (tiled t (wms_bounds m) vs)) None asg ∅ conf rend) as (plan&Hplan&Htx).
  - subst resp. unfold response_from_layout_transaction. cbn [wp_commands].
    eapply (try_fold_app_ok (plan_command adv)); [|exact Hl]. unfold plan_start.
    subst c asg. destruct Hcase as [->| ->]; [done|]. cbn [tiled lt_render_positions imap fmap list_fmap].
    rewrite !decide_False by done. simpl. rewrite (proj2 (require_surface_ok _ _)).
    2: by apply elem_of_dom.
    simpl. rewrite (proj2 (require_workspace_ok _ _)) by done. simpl.
    rewrite decide_True by set_solver. done.
  - exists o, st. split; [|done]. subst c. by case_decide.
  - done.
  - exists plan. split; [done|]. by split.
Qed.

(** The engine accepts the demonstration policy's answers.  For a consistent
    workspace state and a request that describes it (its nodes are surfaces on a
    workspace that is shown, its bounds fit an [i32], what its action names
    exists), the policy answers without panicking, under the request's
    transaction, and the engine accepts the answer. *)
Theorem demo_response_accepted (w : WmWorkspaceState) (advertised : list WmSessionAction)
    (r : WmRequestPacket) :
  policy_ok w → request_about w advertised r →
  ∃ resp plan, handle_wm_request r = Some resp ∧ plan_response w resp advertised = Ok plan
    ∧ pp_transaction plan = wq_transaction r.
Proof.
  intros Hok Hr. assert (policy_base w) as Hb by apply Hok.
  destruct r as [t [m|l|s k|a]]; [by apply accept_manage|..]; unfold request_about in Hr;
    cbn [wq_kind] in Hr; unfold handle_wm_request; cbn [wq_kind wq_transaction].
  - destruct Hr as ((Hn&_&(o&st&Ho&Hst)&Hk)&Hlen&Hbd).
    destruct (tile_workspace_cases t (wr_workspace l) (wr_bounds l) (wr_nodes l)) as (vs&->&Hvs);
      [done|done|].
    cbn [mbind option_bind]. eexists. set (resp := response_from_layout_transaction _ _).
    destruct (plan_layout advertised w (wr_workspace l) (tiled t (wr_bounds l) vs) ∅ vs
                (wr_bounds l) t) as (conf&rend&Hl&Hf); [| |done|].
    { by destruct Hvs as [->| ->]. } { destruct Hvs as [->| ->]; [done|apply NoDup_nil_2]. }
    destruct (plan_response_accepts w advertised resp w (wr_workspace l) _ _ _ _ _ _ _ _ Hl) as (plan&Hplan&Htx);
      [by exists o, st|done|].
    exists plan. split; [done|]. by split.
  - eexists. exists (mk_plan t (clear_hidden_focus w) (mk_layout_tx t [] None [] 300) (affected_outputs w (clear_hidden_focus w)) None).
    split; [done|]. done.
  - eexists. set (resp := mk_wm_response _ _ _).
    destruct (accept_actions w advertised a Hr Hok) as (c&k&sz&pos&foc&act&asg&actv&conf&rend&Hl&Hf).
    destruct (apply_focus c foc) as [c'|e] eqn:Ec.
    + eexists. split; [done|]. unfold plan_response. subst resp. cbn [wp_commands]. rewrite Hl.
      cbn [res_bind pl_candidate pl_focus]. rewrite Ec. by split.
    + exfalso. destruct Hf as [->|[Hs Hf]]; [done|].
      destruct (apply_focus_shown c k foc Hs Hf) as [? E]. congruence.
Qed.

Definition example_relayout : WmRequestPacket :=
  mk_wm_request (from_raw 8) (RelayoutWorkspace (mk_relayout (from_raw 1) (from_raw 1)
    (mk_rect 0 0 100 100) [example_node 4 1 true])).
Lemma demo_response_accepted_witness :
  ∃ resp plan, handle_wm_request example_relayout = Some resp
    ∧ plan_response example_policy resp [] = Ok plan ∧ pp_transaction plan = from_raw 8.
Proof.
  apply (demo_response_accepted example_policy [] example_relayout); [exact example_policy_ok|].
  split; [split; [|split; [|split]]|split].
  - apply (bool_decide_unpack _). vm_compute. exact I.
  - apply (bool_decide_unpack _). vm_compute. exact I.
  - exists (from_raw 1), (mk_output_policy (mk_rect 0 0 100 100) (from_raw 1) (Some (surface_id 4 1))).
    split; vm_compute; reflexivity.
  - apply (bool_decide_unpack _). vm_compute. exact I.
  - apply (bool_decide_unpack _). vm_compute. exact I.
  - left. apply (bool_decide_unpack _). vm_compute. exact I.
Defined.

(** ** Serving: every input is processed to its end *)

Lemma read_frame_payload_inv header input f rest :
  Forall u8_ok header → read_frame_payload header input = Ok (f, rest) →
  ∃ p, input = p ++ rest ∧ f = header ++ p.
Proof.
  intros Hh. unfold read_frame_payload. cbv zeta. case_decide; [|done]. rewrite res_bind_ok.
  intros ([p r]&Hp&[= <- <-]). apply ok_or_ok, stream_read_exact_inv in Hp as [-> _]; [by exists p|].
  apply from_le_bytes_bound. by apply Forall_take, Forall_drop.
Qed.

Lemma read_wm_request_shorter input r rest :
  Forall u8_ok input → read_wm_request input = Ok (Some (r, rest)) →
  (length rest < length input)%nat ∧ Forall u8_ok rest.
Proof.
  intros Hi. unfold read_wm_request.
  destruct (stream_read_exact SOPHIA_IPC_HEADER_LEN input) as [[h i1]|] eqn:E; [|done].
  rewrite res_bind_ok. intros ([f i2]&Hf&Hd). rewrite res_bind_ok in Hd.
  destruct Hd as (r'&_&[= -> ->]). apply stream_read_exact_inv in E as [-> Hl]; [|done].
  apply Forall_app in Hi as [Hh Hi]. apply read_frame_payload_inv in Hf as (p&->&_); [|done].
  apply Forall_app in Hi as [_ Hi]. unfold SOPHIA_IPC_HEADER_LEN in Hl. rewrite !length_app.
  split; [lia|done].
Qed.

Lemma serve_requests_total fuel input output :
  Forall u8_ok input → (length input < fuel)%nat → is_Some (serve_requests fuel input output).
Proof.
  revert input output. induction fuel as [|fuel IH]; intros input output Hi Hf; [lia|].
  cbn [serve_requests]. destruct (read_wm_request input) as [[[r rest]|]|e] eqn:E; try by eexists.
  destruct (read_wm_request_shorter _ _ _ Hi E). destruct (handle_wm_request r); [|by eexists].
  destruct (encode_wm_response_frame _); [|by eexists]. apply IH; [done|lia].
Qed.

Lemma serve_requests_mono fuel fuel' input output x :
  serve_requests fuel input output = Some x → (fuel ≤ fuel')%nat →
  serve_requests fuel' input output = Some x.
Proof.
  revert fuel' input output. induction fuel as [|fuel IH]; intros fuel' input output Hs Hle; [done|].
  destruct fuel' as [|fuel']; [lia|]. cbn [serve_requests] in *. repeat case_match; try done.
  eapply IH; [done|lia].
Qed.

(** Serving a client terminates.  Whatever bytes the client sends, the loop
    ends after at most one round per byte, with a result and the bytes written,
    and no larger bound changes them. *)
Theorem serve_terminates (input : list Z) :
  Forall u8_ok input →
  ∃ result output, ∀ fuel, (length input < fuel)%nat →
    serve_socket_client fuel input = Some (result, output).
Proof.
  intros Hi. unfold serve_socket_client.
  destruct (encode_wm_hello_frame demo_hello) as [hello|]; [|by eexists _, _].
  destruct (read_frame input) as [[d rest]|] eqn:E; [|by eexists _, _].
  destruct (decode_wm_session_descriptor_frame d); [|by eexists _, _].
  assert ((length rest ≤ length input)%nat ∧ Forall u8_ok rest) as [Hl Hr].
  { unfold read_frame in E. rewrite res_bind_ok in E. destruct E as ([h i]&Hh&Hf).
    apply ok_or_ok, stream_read_exact_inv in Hh as [-> _]; [|done]. apply Forall_app in Hi as [Hh Hi].
    apply read_frame_payload_inv in Hf as (p&->&_); [|done]. apply Forall_app in Hi as [_ Hi].
    rewrite !length_app. split; [lia|done]. }
  destruct (serve_requests_total (S (length rest)) rest hello Hr) as [[res out] Hs]; [lia|].
  exists res, out. intros fuel Hf. eapply serve_requests_mono; [done|lia].
Qed.

Lemma serve_terminates_witness :
  ∃ r o, ∀ fuel, (3 < fuel)%nat → serve_socket_client fuel [1; 2; 3] = Some (r, o).
Proof.
  apply (serve_terminates [1; 2; 3]). apply (bool_decide_unpack _). vm_compute. exact I.
Defined.

(** ** Serving well-formed requests *)

Lemma read_frame_payload_app k t p f rest :
  encode_frame k t p = Ok f →
  ∃ header, Z.of_nat (length header) = SOPHIA_IPC_HEADER_LEN ∧ f = header ++ p
    ∧ read_frame_payload header (p ++ rest) = Ok (f, rest).
Proof.
  intros [Hl ->]%encode_frame_ok. set (h := mk_frame_header _ _ _).
  exists (header_bytes h). rewrite length_header_bytes. split; [done|]. split; [done|].
  unfold SOPHIA_IPC_MAX_PAYLOAD_LEN in Hl. unfold read_frame_payload.
  rewrite header_payload_len by (simpl; word_lia). change (fh_payload_len h) with (Z.of_nat (length p)).
  cbv zeta. rewrite decide_True by done. by rewrite stream_read_exact_app.
Qed.

Lemma read_wm_request_app r f rest :
  request_ok r → encode_wm_request_frame r = Ok f →
  read_wm_request (f ++ rest) = Ok (Some (r, rest)).
Proof.
  intros Hok Hf. pose proof (decode_encoded_request r f Hok Hf) as Hd.
  unfold encode_wm_request_frame in Hf. rewrite res_bind_ok in Hf. destruct Hf as (p&_&Hf).
  destruct (read_frame_payload_app _ _ _ _ rest Hf) as (h&Hh&->&Hr).
  unfold read_wm_request. rewrite <-app_assoc, stream_read_exact_app by done.
  rewrite Hr. cbn [res_bind]. by rewrite Hd.
Qed.

Lemma tile_workspace_transaction t w b nodes tx :
  tile_workspace t w b nodes = Some tx → lt_transaction tx = t.
Proof.
  unfold tile_workspace. cbv zeta. case_decide; [by intros [= <-]|].
  by intros (c&_&[[[sizes focus] pos] [_ [= <-]]]%bind_Some)%bind_Some.
Qed.
Lemma handle_transaction r resp :
  handle_wm_request r = Some resp → wp_transaction resp = wq_transaction r.
Proof.
  unfold handle_wm_request. destruct (wq_kind r); try by intros [= <-].
  all: intros (t&Ht%tile_workspace_transaction&[= <-])%bind_Some; exact Ht.
Qed.

(** The exchange of one request: what is sent and what comes back. *)
Definition exchange_frames (r : WmRequestPacket) (sent back : list Z) : Prop :=
  request_ok r ∧ encode_wm_request_frame r = Ok sent ∧
  ∃ resp, handle_wm_request r = Some resp ∧ encode_wm_response_frame resp = Ok back.

Lemma serve_requests_spec rs sents backs out fuel :
  Forall3 exchange_frames rs sents backs → (length rs < fuel)%nat →
  serve_requests fuel (concat sents) out = Some (Ok tt, out ++ concat backs).
Proof.
  intros H. revert out fuel. induction H as [|r s b rs ss bs (Hok&Hs&resp&Hr&Hb) _ IH];
    intros out fuel Hf; (destruct fuel as [|fuel]; [simpl in Hf; lia|]); cbn [serve_requests concat].
  - by rewrite app_nil_r.
  - rewrite (read_wm_request_app r) by done. rewrite Hr, Hb, IH by (simpl in Hf; lia).
    by rewrite <-app_assoc.
Qed.

(** Serving is answering.  A client that sends a session descriptor and then
    requests which are in range and answered by the policy gets the hello and
    then, for each request in order, the frame of the policy's answer; and over
    this stream the engine's exchange returns exactly that answer. *)
Theorem serve_answers_each (d : WmSessionDescriptor) (descriptor hello : list Z)
    (rs : list WmRequestPacket) (sents backs : list (list Z)) (fuel : nat) :
  descriptor_ok d → encode_wm_session_descriptor_frame d = Ok descriptor →
  encode_wm_hello_frame demo_hello = Ok hello →
  Forall3 exchange_frames rs sents backs → (length rs < fuel)%nat →
  serve_socket_client fuel (descriptor ++ concat sents) = Some (Ok tt, hello ++ concat backs)
  ∧ ∀ r sent back rest io, (r, (sent, back)) ∈ zip rs (zip sents backs) →
      ∃ resp, handle_wm_request r = Some resp ∧
        (response_ok resp → request_wm_over_stream io (λ _, Ok (back ++ rest)) r = Ok (resp, rest)).
Proof.
  intros Hd He Hh Hx Hf. split.
  - unfold serve_socket_client. rewrite Hh.
    pose proof (decode_encoded_descriptor d descriptor Hd He) as Hdd.
    assert (read_frame (descriptor ++ concat sents) = Ok (descriptor, concat sents)) as ->.
    { unfold encode_wm_session_descriptor_frame in He. rewrite !res_bind_ok in He.
      destruct He as (?&_&He). rewrite !res_bind_ok in He. destruct He as (?&_&He).
      rewrite res_bind_ok in He. destruct He as (?&_&He).
      destruct (read_frame_payload_app _ _ _ _ (concat sents) He) as (h&Hl&->&Hr).
      unfold read_frame. rewrite <-app_assoc, stream_read_exact_app by done. done. }
    rewrite Hdd. by apply (serve_requests_spec rs).
  - intros r sent back rest io Hin.
    assert (exchange_frames r sent back) as (_&Hs&resp&Hr&Hb).
    { clear -Hx Hin. induction Hx as [|? ? ? ? ? ? He _ IH]; simpl in Hin; [by apply not_elem_of_nil in Hin|].
      apply elem_of_cons in Hin as [[= -> -> ->]|Hin]; [done|by apply IH]. }
    exists resp. split; [done|]. intros Hok. pose proof (handle_transaction r resp Hr).
    rewrite (exchange_returns _ _ _ resp sent back rest) by done. by rewrite decide_False by tauto.
Qed.

Lemma serve_answers_each_witness :
  ∃ input output, serve_socket_client 2 input = Some (Ok tt, output).
Proof.
  destruct (encode_wm_session_descriptor_frame (mk_descriptor WM_API_VERSION [] [] [])) as [d|] eqn:Ed.
  2: { exfalso. vm_compute in Ed. discriminate Ed. }
  destruct (encode_wm_hello_frame demo_hello) as [h|] eqn:Eh.
  2: { exfalso. vm_compute in Eh. discriminate Eh. }
  destruct (encode_wm_request_frame example_request) as [f|] eqn:Ef.
  2: { exfalso. vm_compute in Ef. discriminate Ef. }
  destruct (handle_wm_request example_request) as [r|] eqn:Er.
  2: { exfalso. vm_compute in Er. discriminate Er. }
  destruct (encode_wm_response_frame r) as [b|] eqn:Eb.
  2: { exfalso. vm_compute in Er. injection Er as <-. vm_compute in Eb. discriminate Eb. }
  exists (d ++ concat [f]), (h ++ concat [b]).
  refine (proj1 (serve_answers_each (mk_descriptor WM_API_VERSION [] [] []) d h [example_request] [f] [b]
    2 _ Ed Eh _ _)).
  - apply (bool_decide_unpack _). vm_compute. exact I.
  - constructor; [|constructor]. split; [apply (bool_decide_unpack _); vm_compute; exact I|].
    split; [exact Ef|]. exists r. split; [exact Er|exact Eb].
  - simpl. lia.
Defined.
