(* ===== verification/Floats.v ===== *)
(** * IEEE-754 numbers

    The engine stores [f32] and [f64] fields and computes with [f64].  A field is
    its bit pattern; arithmetic is the Standard Library's executable
    specification of binary64 ([SpecFloat] at 53 and 1024, round to nearest even),
    reached through [f64_of_bits] and left through [f64_bits].  The lemmas show
    that on integers below 2^53 this arithmetic is exact. *)

From Stdlib Require Import Floats.SpecFloat.
From S2P Require Import Prelude.
Local Open Scope Z_scope.

Definition F64 : Type := spec_float.

Definition fadd : F64 → F64 → F64 := SFadd 53 1024.
Definition fsub : F64 → F64 → F64 := SFsub 53 1024.
Definition fmul : F64 → F64 → F64 := SFmul 53 1024.
Definition fdiv : F64 → F64 → F64 := SFdiv 53 1024.
Definition fle (a b : F64) : Prop := SFleb a b = true.
Definition flt (a b : F64) : Prop := SFltb a b = true.
#[export] Instance fle_dec a b : Decision (fle a b).
Proof. unfold fle; apply _. Defined.
#[export] Instance flt_dec a b : Decision (flt a b).
Proof. unfold flt; apply _. Defined.

(** [f64::is_finite]. *)
Definition is_finite (x : F64) : Prop :=
  match x with S754_zero _ | S754_finite _ _ _ => True | _ => False end.
#[export] Instance is_finite_dec x : Decision (is_finite x).
Proof. destruct x; apply _. Defined.

(** The sign, exponent and fraction of a pattern with [eb] exponent and [mb]
    fraction bits. *)
Definition float_of_bits (eb mb : Z) (b : Z) : spec_float :=
  let s := bool_decide (2 ^ (eb + mb) ≤ b) in
  let e := b / 2 ^ mb mod 2 ^ eb in
  let m := b mod 2 ^ mb in
  let bottom := 3 - 2 ^ (eb - 1) - (mb + 1) in
  if decide (e = 2 ^ eb - 1) then (if decide (m = 0) then S754_infinity s else S754_nan)
  else if decide (e = 0) then
    match m with Zpos p => S754_finite s p bottom | _ => S754_zero s end
  else match m + 2 ^ mb with Zpos p => S754_finite s p (bottom + e - 1) | _ => S754_nan end.
Definition f64_of_bits : Z → F64 := float_of_bits 11 52.

Definition sign_bit (s : bool) : Z := if s then 2 ^ 63 else 0.
(** [NaN] is the quiet pattern. *)
Definition f64_bits (x : F64) : Z :=
  match x with
  | S754_zero s => sign_bit s
  | S754_infinity s => sign_bit s + 2047 * 2 ^ 52
  | S754_nan => 2047 * 2 ^ 52 + 2 ^ 51
  | S754_finite s m e =>
      sign_bit s + (if decide (Zpos m < 2 ^ 52) then Zpos m else (e + 1074) * 2 ^ 52 + Zpos m)
  end.

(** [f64::from] of an [f32] pattern and of an [i32]: both are exact. *)
Definition f64_from_f32 (b : Z) : F64 :=
  match float_of_bits 8 23 b with
  | S754_finite s m e => binary_normalize 53 1024 (cond_Zopp s (Zpos m)) e s
  | x => x
  end.
Definition f64_from_i32 (z : Z) : F64 := binary_normalize 53 1024 z 0 false.

Definition f64_one : F64 := f64_from_i32 1.
Definition f64_zero : F64 := S754_zero false.
(** [f64::EPSILON] is 2^-52. *)
Definition f64_EPSILON : F64 := S754_finite false 4503599627370496 (-104).

Example f64_epsilon_bits : f64_bits f64_EPSILON = 4372995238176751616. (* 0x3cb0000000000000 *)
Proof. reflexivity. Qed.
Example f64_fraction :
  f64_bits (fdiv (f64_from_i32 1) (f64_from_i32 3)) = 4599676419421066581. (* 0x3fd5555555555555 *)
Proof. reflexivity. Qed.
Example f64_half : f64_from_f32 1056964608 = fdiv f64_one (f64_from_i32 2).
Proof. reflexivity. Qed.

(** ** Exact rounding *)

Lemma digits2_pos_bounds m : 2 ^ (Zpos (digits2_pos m) - 1) ≤ Zpos m < 2 ^ Zpos (digits2_pos m).
Proof.
  induction m as [m IH|m IH|]; cbn [digits2_pos]; [..|by split]; rewrite Pos2Z.inj_succ.
  all: replace (Z.succ (Zpos (digits2_pos m)) - 1) with (Z.succ (Zpos (digits2_pos m) - 1)) by lia.
  all: rewrite !Z.pow_succ_r by lia; lia.
Qed.
Lemma digits2_pos_unique m d : 0 < d → 2 ^ (d - 1) ≤ Zpos m < 2 ^ d → Zpos (digits2_pos m) = d.
Proof.
  intros Hd [H1 H2]. pose proof (digits2_pos_bounds m) as [H3 H4].
  assert (Zpos (digits2_pos m) - 1 < d) by (apply (Z.pow_lt_mono_r_iff 2); lia).
  assert (d - 1 < Zpos (digits2_pos m)) by (apply (Z.pow_lt_mono_r_iff 2); lia). lia.
Qed.
Lemma digits2_pos_shift m m' k :
  0 ≤ k → Zpos m = Zpos m' * 2 ^ k → Zpos (digits2_pos m) = Zpos (digits2_pos m') + k.
Proof.
  intros Hk Hm. pose proof (digits2_pos_bounds m') as Hb. apply digits2_pos_unique; [lia|].
  replace (Zpos (digits2_pos m') + k - 1) with (Zpos (digits2_pos m') - 1 + k) by lia.
  rewrite !Z.pow_add_r by lia. rewrite Hm.
  split; [apply Z.mul_le_mono_nonneg_r|apply Z.mul_lt_mono_pos_r]; lia.
Qed.

Lemma shr_1_even k : shr_1 (Build_shr_record (2 * k) false false) = Build_shr_record k false false.
Proof. by destruct k. Qed.
Lemma iter_shr_1 p k :
  SpecFloat.iter_pos shr_1 p (Build_shr_record (k * 2 ^ Zpos p) false false) = Build_shr_record k false false.
Proof.
  revert k. induction p as [p IH|p IH|]; intros k; cbn [SpecFloat.iter_pos].
  - replace (k * 2 ^ Zpos p~1) with (2 * (k * 2 ^ Zpos p * 2 ^ Zpos p)).
    + by rewrite shr_1_even, !IH.
    + replace (Zpos p~1) with (1 + (Zpos p + Zpos p)) by lia. rewrite !Z.pow_add_r by lia. lia.
  - replace (k * 2 ^ Zpos p~0) with (k * 2 ^ Zpos p * 2 ^ Zpos p).
    + by rewrite !IH.
    + replace (Zpos p~0) with (Zpos p + Zpos p) by lia. rewrite Z.pow_add_r by lia. lia.
  - rewrite Z.mul_comm. apply shr_1_even.
Qed.

(** A mantissa and exponent in canonical form for binary64. *)
Definition canonical (m : positive) (e : Z) : Prop :=
  fexp 53 1024 (Zpos (digits2_pos m) + e) = e ∧ e ≤ 971.

Lemma shr_fexp_exact m m' e k :
  0 ≤ k → canonical m' (e + k) → Zpos m = Zpos m' * 2 ^ k →
  shr_fexp 53 1024 (Zpos m) e loc_Exact = (Build_shr_record (Zpos m') false false, e + k).
Proof.
  intros Hk [Hc He] Hm. unfold shr_fexp. cbn [Zdigits2 shr_record_of_loc].
  rewrite (digits2_pos_shift m m' k) by done.
  replace (Zpos (digits2_pos m') + k + e) with (Zpos (digits2_pos m') + (e + k)) by lia.
  rewrite Hc. replace (e + k - e) with k by lia. rewrite Hm. destruct k as [|p|p]; [|by simpl; rewrite iter_shr_1|lia].
  cbn [shr]. by rewrite Z.mul_1_r, Z.add_0_r.
Qed.

Lemma round_aux_exact s m m' e e' k :
  0 ≤ k → e' = e + k → canonical m' e' → Zpos m = Zpos m' * 2 ^ k →
  binary_round_aux 53 1024 s (Zpos m) e loc_Exact = S754_finite s m' e'.
Proof.
  intros Hk -> Hc Hm. unfold binary_round_aux. rewrite (shr_fexp_exact m m' e k) by done.
  cbn [shr_m loc_of_shr_record round_nearest_even].
  rewrite (shr_fexp_exact m' m' (e + k) 0); [|lia|by rewrite Z.add_0_r|lia].
  cbn [shr_m]. rewrite Z.add_0_r, (proj2 (Z.leb_le _ _)) by apply Hc. done.
Qed.

Lemma iter_xO d m : Zpos (Pos.iter xO m d) = Zpos m * 2 ^ Zpos d.
Proof.
  rewrite <-Pos2Z.inj_pow, <-Pos2Z.inj_mul. f_equal.
  rewrite <-(Pos.mul_1_r m) at 1. rewrite Pos.mul_comm.
  assert (∀ a, Pos.iter xO a d = Pos.mul a (2 ^ d)) as H; [|by rewrite H, Pos.mul_1_l].
  intros a. induction d as [|d IH] using Pos.peano_ind; [simpl; lia|].
  rewrite Pos.iter_succ, IH, Pos.pow_succ_r. lia.
Qed.
Lemma fst_shl_align m e e' : e' ≤ e → Zpos (fst (shl_align m e e')) = Zpos m * 2 ^ (e - e').
Proof.
  intros He. unfold shl_align. destruct (e' - e) as [|d|d] eqn:E; [|lia|].
  - replace (e - e') with 0 by lia. cbn [fst]. lia.
  - replace (e - e') with (Zpos d) by lia. cbn [fst]. apply iter_xO.
Qed.

Lemma round_exact s m e m' e' :
  canonical m' e' →
  (e ≤ e' ∧ Zpos m = Zpos m' * 2 ^ (e' - e)) ∨ (e' ≤ e ∧ Zpos m' = Zpos m * 2 ^ (e - e')) →
  binary_round 53 1024 s m e = S754_finite s m' e'.
Proof.
  intros Hc H. unfold binary_round.
  assert (Zpos (digits2_pos m) + e = Zpos (digits2_pos m') + e') as ->.
  { destruct H as [[? Hm]|[? Hm]]; apply digits2_pos_shift in Hm; lia. }
  rewrite (proj1 Hc). destruct H as [[He Hm]|[He Hm]].
  - assert (shl_align m e e' = (m, e)) as ->.
    { unfold shl_align. destruct (e' - e) eqn:E; [done|done|lia]. }
    apply (round_aux_exact _ _ _ _ _ (e' - e)); [lia|lia|done|done].
  - destruct (shl_align m e e') as [mz ez] eqn:E. pose proof (fst_shl_align m e e' He) as Hf.
    rewrite E in Hf. cbn [fst] in Hf.
    assert (ez = e') as ->.
    { unfold shl_align in E. destruct (e' - e) eqn:E'; simplify_eq; lia. }
    apply (round_aux_exact _ _ _ _ _ 0); [lia|lia|done|lia].
Qed.

(** ** Integers *)

(** The integers binary64 holds exactly. *)
Definition exact_int (z : Z) : Prop := Z.abs z < 2 ^ 53.

Definition int_digits (z : Z) : Z := Z.log2 (Z.abs z) + 1.
Definition int_mantissa (z : Z) : positive := Z.to_pos (Z.abs z * 2 ^ (53 - int_digits z)).
Definition int_exponent (z : Z) : Z := int_digits z - 53.

Lemma int_digits_bounds z : z ≠ 0 → exact_int z → 1 ≤ int_digits z ≤ 53.
Proof.
  intros Hz Hb. unfold int_digits, exact_int in *. pose proof (Z.log2_nonneg (Z.abs z)).
  assert (Z.log2 (Z.abs z) < 53) by (apply Z.log2_lt_pow2; lia). lia.
Qed.
Lemma int_mantissa_value z : z ≠ 0 → exact_int z →
  Zpos (int_mantissa z) = Z.abs z * 2 ^ (53 - int_digits z).
Proof.
  intros Hz Hb. unfold int_mantissa. apply Z2Pos.id. pose proof (int_digits_bounds z Hz Hb).
  apply Z.mul_pos_pos; [lia|apply Z.pow_pos_nonneg; lia].
Qed.
Lemma int_mantissa_bounds z : z ≠ 0 → exact_int z → 2 ^ 52 ≤ Zpos (int_mantissa z) < 2 ^ 53.
Proof.
  intros Hz Hb. pose proof (int_digits_bounds z Hz Hb) as Hd. rewrite int_mantissa_value by done.
  pose proof (Z.log2_spec (Z.abs z) ltac:(lia)) as [Hl Hu].
  assert (2 ^ 52 = 2 ^ (int_digits z - 1) * 2 ^ (53 - int_digits z)) as ->
    by (rewrite <-Z.pow_add_r by lia; f_equal; lia).
  assert (2 ^ 53 = 2 ^ int_digits z * 2 ^ (53 - int_digits z)) as ->
    by (rewrite <-Z.pow_add_r by lia; f_equal; lia).
  assert (0 < 2 ^ (53 - int_digits z)) by (apply Z.pow_pos_nonneg; lia).
  replace (Z.succ (Z.log2 (Z.abs z))) with (int_digits z) in Hu by (unfold int_digits; lia).
  replace (Z.log2 (Z.abs z)) with (int_digits z - 1) in Hl by (unfold int_digits; lia).
  split; [apply Z.mul_le_mono_nonneg_r|apply Z.mul_lt_mono_pos_r]; lia.
Qed.
Lemma int_canonical z : z ≠ 0 → exact_int z → canonical (int_mantissa z) (int_exponent z).
Proof.
  intros Hz Hb. pose proof (int_digits_bounds z Hz Hb). pose proof (int_mantissa_bounds z Hz Hb).
  unfold canonical, int_exponent. rewrite (digits2_pos_unique _ 53) by (simpl; lia).
  unfold fexp, emin. split; lia.
Qed.

(** Every way of writing an integer rounds to the same number. *)
Lemma normalize_exact m e z szero :
  exact_int z → e ≤ 0 → m = z * 2 ^ (- e) → szero = false ∨ z ≠ 0 →
  binary_normalize 53 1024 m e szero =
  (if decide (z = 0) then f64_zero else S754_finite (bool_decide (z < 0)) (int_mantissa z) (int_exponent z)).
Proof.
  intros Hb He -> Hs. assert (0 < 2 ^ (- e)) by (apply Z.pow_pos_nonneg; lia).
  case_decide as Hz; [subst z; destruct Hs as [->|]; [|done]; by rewrite Z.mul_0_l|].
  pose proof (int_canonical z Hz Hb) as Hc. pose proof (int_mantissa_value z Hz Hb) as Hm.
  pose proof (int_digits_bounds z Hz Hb) as Hd.
  assert (∀ p s, Zpos p = Z.abs z * 2 ^ (- e) →
    binary_round 53 1024 s p e = S754_finite s (int_mantissa z) (int_exponent z)) as Hr.
  { intros p s Hp. apply round_exact; [done|]. rewrite Hp, Hm. unfold int_exponent.
    destruct (Z.le_ge_cases e (int_digits z - 53)); [left|right]; (split; [lia|]);
      rewrite <-Z.mul_assoc, <-Z.pow_add_r by lia; do 2 f_equal; lia. }
  unfold binary_normalize. destruct (z * 2 ^ (- e)) as [|p|p] eqn:E; [nia| |].
  - rewrite (Hr p false) by (rewrite Z.abs_eq by nia; lia). by rewrite bool_decide_false by nia.
  - rewrite (Hr p true) by (rewrite Z.abs_neq by nia; lia). by rewrite bool_decide_true by nia.
Qed.

Lemma f64_from_i32_eq z : exact_int z →
  f64_from_i32 z =
  (if decide (z = 0) then f64_zero else S754_finite (bool_decide (z < 0)) (int_mantissa z) (int_exponent z)).
Proof. intros Hz. unfold f64_from_i32. apply normalize_exact; [done|lia|lia|by left]. Qed.

(** The value of an exact integer's parts at a smaller exponent. *)
Lemma aligned_value z e : z ≠ 0 → exact_int z → e ≤ int_exponent z →
  cond_Zopp (bool_decide (z < 0)) (Zpos (fst (shl_align (int_mantissa z) (int_exponent z) e)))
  = z * 2 ^ (- e).
Proof.
  intros Hz Hb He. pose proof (int_digits_bounds z Hz Hb). rewrite fst_shl_align by done.
  rewrite int_mantissa_value, <-Z.mul_assoc by done. unfold int_exponent in *.
  rewrite <-Z.pow_add_r by lia.
  replace (53 - int_digits z + (int_digits z - 53 - e)) with (- e) by lia.
  case_bool_decide; simpl; [rewrite Z.abs_neq by lia; lia|by rewrite Z.abs_eq by lia].
Qed.

Lemma int_exponent_nonpos z : z ≠ 0 → exact_int z → int_exponent z ≤ 0.
Proof. intros Hz Hb. pose proof (int_digits_bounds z Hz Hb). unfold int_exponent. lia. Qed.

Lemma fadd_exact a b : exact_int a → exact_int b → exact_int (a + b) →
  fadd (f64_from_i32 a) (f64_from_i32 b) = f64_from_i32 (a + b).
Proof.
  intros Ha Hb Hs. rewrite (f64_from_i32_eq a), (f64_from_i32_eq b), (f64_from_i32_eq (a + b)) by done.
  case_decide as Hza; [subst a; case_decide as Hzb; [by subst b|by rewrite Z.add_0_l, decide_False]|].
  case_decide as Hzb; [by subst b; rewrite Z.add_0_r, decide_False|].
  unfold fadd, SFadd. cbv zeta.
  pose proof (int_exponent_nonpos a Hza Ha). pose proof (int_exponent_nonpos b Hzb Hb).
  rewrite !aligned_value by (done || lia). apply normalize_exact; [done|lia|lia|by left].
Qed.
Lemma fsub_exact a b : exact_int a → exact_int b → exact_int (a - b) →
  fsub (f64_from_i32 a) (f64_from_i32 b) = f64_from_i32 (a - b).
Proof.
  intros Ha Hb Hs. rewrite (f64_from_i32_eq a), (f64_from_i32_eq b), (f64_from_i32_eq (a - b)) by done.
  case_decide as Hza.
  { subst a. case_decide as Hzb; [by subst b|]. rewrite Z.sub_0_l, decide_False by lia.
    unfold fsub, SFsub. cbn [f64_zero]. unfold int_mantissa, int_exponent, int_digits. rewrite Z.abs_opp.
    f_equal. repeat case_bool_decide; simpl; lia. }
  case_decide as Hzb; [by subst b; rewrite Z.sub_0_r, decide_False|].
  unfold fsub, SFsub. cbv zeta.
  pose proof (int_exponent_nonpos a Hza Ha). pose proof (int_exponent_nonpos b Hzb Hb).
  rewrite !aligned_value by (done || lia). apply normalize_exact; [done|lia|lia|by left].
Qed.

Lemma exact_1 : exact_int 1.
Proof. done. Qed.
Lemma f64_one_eq : f64_one = S754_finite false 4503599627370496 (-52).
Proof. reflexivity. Qed.

Lemma fmul_one a : exact_int a → fmul (f64_from_i32 a) f64_one = f64_from_i32 a.
Proof.
  intros Ha. rewrite f64_from_i32_eq, f64_one_eq by done. case_decide as Hz; [done|].
  unfold fmul, SFmul. rewrite xorb_false_r.
  apply (round_aux_exact _ _ _ _ _ 52); [lia|lia|by apply int_canonical|].
  by rewrite Pos2Z.inj_mul.
Qed.
Lemma fmul_zero s a : exact_int a → ∃ s', fmul (S754_zero s) (f64_from_i32 a) = S754_zero s'.
Proof. intros Ha. rewrite f64_from_i32_eq by done. case_decide; by eexists. Qed.
Lemma fadd_zero s a : exact_int a → fadd (f64_from_i32 a) (S754_zero s) = f64_from_i32 a.
Proof. intros Ha. rewrite f64_from_i32_eq by done. case_decide; [by destruct s|done]. Qed.

Lemma fdiv_one a : exact_int a → fdiv (f64_from_i32 a) f64_one = f64_from_i32 a.
Proof.
  intros Ha. rewrite f64_from_i32_eq, f64_one_eq by done. case_decide as Hz; [done|].
  pose proof (int_exponent_nonpos a Hz Ha) as He. pose proof (int_digits_bounds a Hz Ha) as Hd.
  pose proof (int_mantissa_bounds a Hz Ha) as Hm. pose proof (int_canonical a Hz Ha) as Hc.
  set (m := int_mantissa a) in *. set (e := int_exponent a) in *.
  assert (SFdiv_core_binary 53 1024 (Zpos m) e 4503599627370496 (-52)
          = (2 * Zpos m, e - 1, loc_Exact)) as Hcore.
  { unfold SFdiv_core_binary. cbn [Zdigits2].
    rewrite (digits2_pos_unique m 53) by (simpl; lia).
    change (Zpos (digits2_pos 4503599627370496)) with 53. cbv zeta.
    replace (Z.min (fexp 53 1024 (53 + e - (53 + -52))) (e - -52)) with (e - 1)
      by (unfold fexp, emin, e, int_exponent in *; lia).
    replace (e - -52 - (e - 1)) with 53 by lia. rewrite Z.shiftl_mul_pow2 by lia.
    pose proof (Z.div_unique (Zpos m * 2 ^ 53) 4503599627370496 (2 * Zpos m) 0 ltac:(lia) ltac:(lia)) as Hq.
    pose proof (Z.mod_unique (Zpos m * 2 ^ 53) 4503599627370496 (2 * Zpos m) 0 ltac:(lia) ltac:(lia)) as Hr.
    unfold Z.div in Hq. unfold Z.modulo in Hr.
    destruct (Z.div_eucl (Zpos m * 2 ^ 53) 4503599627370496) as [q r]. by subst q r. }
  unfold fdiv, SFdiv. rewrite Hcore, xorb_false_r.
  apply (round_aux_exact _ (m~0) m (e - 1) e 1); [lia|lia|done|lia].
Qed.

(** ** Comparison is comparison of the integers *)

Lemma fcompare_exact a b : exact_int a → exact_int b →
  SFcompare (f64_from_i32 a) (f64_from_i32 b) = Some (a ?= b).
Proof.
  intros Ha Hb. rewrite !f64_from_i32_eq by done.
  case_decide as Hza; case_decide as Hzb; simpl; subst.
  - done.
  - f_equal. symmetry. case_bool_decide; [apply Z.compare_gt_iff|apply Z.compare_lt_iff]; lia.
  - f_equal. symmetry. case_bool_decide; [apply Z.compare_lt_iff|apply Z.compare_gt_iff]; lia.
  - assert (∀ x y, x ≠ 0 → y ≠ 0 → exact_int x → exact_int y →
      match int_exponent x ?= int_exponent y with
      | Eq => (int_mantissa x ?= int_mantissa y)%positive | c => c end = (Z.abs x ?= Z.abs y)) as Hc.
    { intros x y Hx Hy Ex Ey. pose proof (int_mantissa_value x Hx Ex) as Mx.
      pose proof (int_mantissa_value y Hy Ey) as My.
      pose proof (int_digits_bounds x Hx Ex). pose proof (int_digits_bounds y Hy Ey).
      unfold int_exponent. destruct (Z.compare_spec (int_digits x - 53) (int_digits y - 53)) as [Hxy|Hxy|Hxy].
      - change (int_mantissa x ?= int_mantissa y)%positive with (Zpos (int_mantissa x) ?= Zpos (int_mantissa y)).
        rewrite Mx, My. replace (int_digits y) with (int_digits x) by lia.
        symmetry. rewrite !(Z.mul_comm _ (2 ^ _)). apply Zmult_compare_compat_l.
        apply Z.lt_gt, Z.pow_pos_nonneg; lia.
      - symmetry. apply Z.compare_lt_iff. unfold int_digits in *. apply Z.log2_lt_cancel. lia.
      - symmetry. apply Z.compare_gt_iff. unfold int_digits in *. apply Z.log2_lt_cancel. lia. }
    specialize (Hc a b Hza Hzb Ha Hb).
    assert (Pos.compare_cont Eq (int_mantissa a) (int_mantissa b) = (int_mantissa a ?= int_mantissa b)%positive)
      as -> by done.
    f_equal. repeat case_bool_decide.
    + rewrite !Z.abs_neq, Z.compare_opp in Hc by lia. rewrite (Z.compare_antisym b a), <-Hc.
      by destruct (_ ?= _).
    + symmetry. apply Z.compare_lt_iff. lia.
    + symmetry. apply Z.compare_gt_iff. lia.
    + rewrite !Z.abs_eq in Hc by lia. done.
Qed.
Lemma fle_exact a b : exact_int a → exact_int b → fle (f64_from_i32 a) (f64_from_i32 b) ↔ a ≤ b.
Proof.
  intros Ha Hb. unfold fle, SFleb. rewrite fcompare_exact by done. unfold Z.le.
  destruct (a ?= b); naive_solver.
Qed.
Lemma flt_exact a b : exact_int a → exact_int b → flt (f64_from_i32 a) (f64_from_i32 b) ↔ a < b.
Proof.
  intros Ha Hb. unfold flt, SFltb. rewrite fcompare_exact by done. unfold Z.lt.
  destruct (a ?= b); naive_solver.
Qed.
Lemma is_finite_exact a : exact_int a → is_finite (f64_from_i32 a).
Proof. intros Ha. rewrite f64_from_i32_eq by done. by case_decide. Qed.

(** ** Patterns *)

Lemma f64_of_bits_normal s E m :
  1 ≤ E ≤ 2046 → 2 ^ 52 ≤ Zpos m < 2 ^ 53 →
  f64_of_bits (sign_bit s + ((E - 1) * 2 ^ 52 + Zpos m)) = S754_finite s m (E - 1075).
Proof.
  intros HE Hm. unfold f64_of_bits, float_of_bits. cbv zeta.
  set (b := sign_bit s + _).
  assert (b = ((if s then 2048 else 0) + E) * 2 ^ 52 + (Zpos m - 2 ^ 52)) as Hb.
  { unfold b, sign_bit. destruct s; lia. }
  assert (b / 2 ^ 52 = (if s then 2048 else 0) + E) as Hq.
  { rewrite Hb, Z.div_add_l, Z.div_small by lia. lia. }
  assert (b mod 2 ^ 52 = Zpos m - 2 ^ 52) as Hr.
  { rewrite Hb, Z.add_comm, Z.mod_add, Z.mod_small by lia. done. }
  rewrite Hq, Hr.
  assert (((if s then 2048 else 0) + E) mod 2 ^ 11 = E) as ->.
  { destruct s; [|by rewrite Z.add_0_l, Z.mod_small by lia].
    rewrite Z.add_comm, <-(Z.mul_1_l 2048), Z.mod_add, Z.mod_small; lia. }
  rewrite !decide_False by lia. replace (Zpos m - 2 ^ 52 + 2 ^ 52) with (Zpos m) by lia.
  f_equal; [|lia]. unfold b, sign_bit. destruct s; [apply bool_decide_true|apply bool_decide_false]; lia.
Qed.
Lemma f64_of_bits_bits a : exact_int a → f64_of_bits (f64_bits (f64_from_i32 a)) = f64_from_i32 a.
Proof.
  intros Ha. rewrite f64_from_i32_eq by done. case_decide as Hz; [done|].
  pose proof (int_mantissa_bounds a Hz Ha) as Hm. pose proof (int_digits_bounds a Hz Ha) as Hd.
  unfold f64_bits. rewrite decide_False by lia. unfold int_exponent.
  replace (int_digits a - 53 + 1074) with (int_digits a + 1022 - 1) by lia.
  rewrite f64_of_bits_normal by lia. f_equal. lia.
Qed.
