(* ===== verification/Input.v ===== *)
(** * Input routing ([sophia-protocol/src/packets/input.rs],
    [sophia-engine/src/input/{focus,hit_test,libinput,routed}.rs])

    From physical events to requests to an authority: the device source, the
    pointer hit test on the committed layers, the keyboard focus of each seat,
    and the queue that coalesces pointer motion between frames.  Positions are
    binary64 numbers (file Floats). *)

From Stdlib Require Import Floats.SpecFloat.
From S2P Require Import Prelude Ids Geometry Packets Rendering Floats.
Local Open Scope Z_scope.

(** ** Packets *)

Inductive InputEventKind : Type :=
| PointerMotion | PointerButton (button : Z) (pressed : bool) | Key (keycode : Z) (pressed : bool).
Record InputEventPacket : Type := mk_input_event {
  ie_serial : Z; ie_seat : SeatId; ie_device : DeviceId; ie_time_msec : Z; ie_kind : InputEventKind;
  ie_global_position : option Point; ie_target_surface : option SurfaceId;
  ie_local_position : option Point;
}.
Inductive InputRouteOutcome : Type := Routed | NoTarget | StaleTarget | Denied.
Record InputRoute : Type := mk_input_route {
  ir_input_serial : Z; ir_target_surface : option SurfaceId; ir_global_position : Point;
  ir_local_position : option Point; ir_transform : Transform; ir_outcome : InputRouteOutcome;
}.
Record RoutedInputRequest : Type := mk_routed_request {
  rq_serial : Z; rq_seat : SeatId; rq_device : DeviceId; rq_time_msec : Z;
  rq_target_surface : SurfaceId; rq_global_position : Point; rq_local_position : Point;
  rq_kind : InputEventKind;
}.
#[export] Instance input_kind_eq_dec : EqDecision InputEventKind.
Proof. solve_decision. Defined.
#[export] Instance input_outcome_eq_dec : EqDecision InputRouteOutcome.
Proof. solve_decision. Defined.
#[export] Instance input_event_eq_dec : EqDecision InputEventPacket.
Proof. solve_decision. Defined.
#[export] Instance input_route_eq_dec : EqDecision InputRoute.
Proof. solve_decision. Defined.

(** ** Devices *)

Inductive LibinputDeviceKind : Type := DevPointer | DevKeyboard | DevTouch.
Record LibinputDeviceDescriptor : Type := mk_device {
  ld_seat : SeatId; ld_device : DeviceId; ld_kind : LibinputDeviceKind;
}.
Inductive LibinputEventIngest : Type := Accepted | UnknownDevice | SeatMismatch.
#[export] Instance ingest_eq_dec : EqDecision LibinputEventIngest.
Proof. solve_decision. Defined.
Record LibinputEventSource : Type := mk_source {
  ls_devices : gmap DeviceId LibinputDeviceDescriptor; ls_pending : list InputEventPacket;
}.
Definition source_new : LibinputEventSource := mk_source ∅ [].
Definition register_device (s : LibinputEventSource) (d : LibinputDeviceDescriptor) : LibinputEventSource :=
  mk_source (<[ld_device d := d]> (ls_devices s)) (ls_pending s).
Definition remove_device (s : LibinputEventSource) (d : DeviceId) :
    option LibinputDeviceDescriptor * LibinputEventSource :=
  (ls_devices s !! d, mk_source (delete d (ls_devices s)) (ls_pending s)).
Definition push_event (s : LibinputEventSource) (event : InputEventPacket) :
    LibinputEventIngest * LibinputEventSource :=
  match ls_devices s !! ie_device event with
  | None => (UnknownDevice, s)
  | Some device =>
      if decide (ld_seat device ≠ ie_seat event) then (SeatMismatch, s)
      else (Accepted, mk_source (ls_devices s) (ls_pending s ++ [event]))
  end.
Definition drain_events (s : LibinputEventSource) : list InputEventPacket * LibinputEventSource :=
  (ls_pending s, mk_source (ls_devices s) []).

Record LibinputPollReport : Type := mk_poll_report {
  po_polled : Z; po_accepted : Z; po_rejected : list LibinputEventIngest;
}.
(** One iteration of the loop of [poll_once]. *)
Definition poll_event (s : LibinputEventSource * Z * list LibinputEventIngest) (event : InputEventPacket) :
    LibinputEventSource * Z * list LibinputEventIngest :=
  let '(source, accepted, rejected) := s in
  let '(outcome, source) := push_event source event in
  if decide (outcome = Accepted) then (source, accepted + 1, rejected)
  else (source, accepted, rejected ++ [outcome]).
(** [poll_once]; the poller's answer is an argument. *)
Definition poll_once {IoError} (ready : result (list InputEventPacket) IoError) (s : LibinputEventSource) :
    result LibinputPollReport IoError * LibinputEventSource :=
  match ready with
  | Err e => (Err e, s)
  | Ok events =>
      let '(s, accepted, rejected) := foldl poll_event (s, 0, []) events in
      (Ok (mk_poll_report (Z.of_nat (length events)) accepted rejected), s)
  end.
(** [QueuedInputPoller]: the answer is everything queued. *)
Definition queued_poll_ready {IoError} (queued : list InputEventPacket) :
    result (list InputEventPacket) IoError * list InputEventPacket := (Ok queued, []).

(** ** Keyboard focus *)

Notation InputFocusState := (gmap SeatId SurfaceId).
Inductive InputFocusDecision : Type := Focused | InvalidSeat | UnknownSurface.
Inductive FocusedInputRoute : Type :=
| FRouted (e : InputEventPacket) | FNoFocus (e : InputEventPacket)
| FStaleFocus (e : InputEventPacket) | FUnsupportedEvent (e : InputEventPacket).

Definition is_committed (surface : SurfaceId) (committed : list CommittedSurfaceState) : Prop :=
  Exists (λ c, cs_surface c = surface) committed.
#[export] Instance is_committed_dec s c : Decision (is_committed s c).
Proof. unfold is_committed; apply _. Defined.

Definition focus_surface (f : InputFocusState) (seat : SeatId) (surface : SurfaceId)
    (committed : list CommittedSurfaceState) : InputFocusDecision * InputFocusState :=
  if decide (¬ id_valid seat) then (InvalidSeat, f)
  else if decide (¬ is_committed surface committed) then (UnknownSurface, f)
  else (Focused, <[seat := surface]> f).
Definition clear_surface (f : InputFocusState) (surface : SurfaceId) : Z * InputFocusState :=
  let f' := filter (λ kv, kv.2 ≠ surface) f in
  (saturating_sub (Z.of_nat (size f)) (Z.of_nat (size f')), f').

Definition is_key (k : InputEventKind) : Prop := match k with Key _ _ => True | _ => False end.
#[export] Instance is_key_dec k : Decision (is_key k).
Proof. destruct k; apply _. Defined.
Definition set_target (e : InputEventPacket) (surface : SurfaceId) : InputEventPacket :=
  mk_input_event (ie_serial e) (ie_seat e) (ie_device e) (ie_time_msec e) (ie_kind e)
    (ie_global_position e) (Some surface) (ie_local_position e).
Definition route_keyboard_event (f : InputFocusState) (event : InputEventPacket)
    (committed : list CommittedSurfaceState) : FocusedInputRoute :=
  if decide (¬ is_key (ie_kind event)) then FUnsupportedEvent event
  else match f !! ie_seat event with
  | None => FNoFocus event
  | Some surface =>
      if decide (¬ is_committed surface committed) then FStaleFocus event
      else FRouted (set_target event surface)
  end.

(** ** The pointer hit test *)

Definition rect_contains_point (rect : Rect) (p : F64 * F64) : Prop :=
  let left := f64_from_i32 (rx rect) in
  let top := f64_from_i32 (ry rect) in
  let right := fadd left (f64_from_i32 (rwidth rect)) in
  let bottom := fadd top (f64_from_i32 (rheight rect)) in
  fle left p.1 ∧ flt p.1 right ∧ fle top p.2 ∧ flt p.2 bottom.
#[export] Instance rect_contains_point_dec r p : Decision (rect_contains_point r p).
Proof. unfold rect_contains_point; apply _. Defined.

(** [a * b - c * d] and [a * x + b * y + c]. *)
Definition minor (a b c d : F64) : F64 := fsub (fmul a b) (fmul c d).
Definition affine (a x b y c : F64) : F64 := fadd (fadd (fmul a x) (fmul b y)) c.

(** The first half: [None] where the determinant is not usable. *)
Definition inverse_matrix (transform : Transform) : option (list F64) :=
  let m i := nth i (f64_from_f32 <$> matrix transform) f64_zero in
  let determinant :=
    fadd (fsub (fmul (m 0%nat) (minor (m 4%nat) (m 8%nat) (m 5%nat) (m 7%nat)))
               (fmul (m 1%nat) (minor (m 3%nat) (m 8%nat) (m 5%nat) (m 6%nat))))
         (fmul (m 2%nat) (minor (m 3%nat) (m 7%nat) (m 4%nat) (m 6%nat))) in
  if decide (¬ is_finite determinant ∨ flt (SFabs determinant) f64_EPSILON) then None
  else
    let inv_det := fdiv f64_one determinant in
    Some [fmul (minor (m 4%nat) (m 8%nat) (m 5%nat) (m 7%nat)) inv_det;
          fmul (minor (m 2%nat) (m 7%nat) (m 1%nat) (m 8%nat)) inv_det;
          fmul (minor (m 1%nat) (m 5%nat) (m 2%nat) (m 4%nat)) inv_det;
          fmul (minor (m 5%nat) (m 6%nat) (m 3%nat) (m 8%nat)) inv_det;
          fmul (minor (m 0%nat) (m 8%nat) (m 2%nat) (m 6%nat)) inv_det;
          fmul (minor (m 2%nat) (m 3%nat) (m 0%nat) (m 5%nat)) inv_det;
          fmul (minor (m 3%nat) (m 7%nat) (m 4%nat) (m 6%nat)) inv_det;
          fmul (minor (m 1%nat) (m 6%nat) (m 0%nat) (m 7%nat)) inv_det;
          fmul (minor (m 0%nat) (m 4%nat) (m 1%nat) (m 3%nat)) inv_det].

Definition inverse_transform_point (transform : Transform) (px py : F64) : option (F64 * F64) :=
  inv ← inverse_matrix transform;
  let inverse i := nth i inv f64_zero in
  let x := affine (inverse 0%nat) px (inverse 1%nat) py (inverse 2%nat) in
  let y := affine (inverse 3%nat) px (inverse 4%nat) py (inverse 5%nat) in
  let w := affine (inverse 6%nat) px (inverse 7%nat) py (inverse 8%nat) in
  if decide (¬ is_finite x ∨ ¬ is_finite y ∨ ¬ is_finite w ∨ flt (SFabs w) f64_EPSILON) then None
  else Some (fdiv x w, fdiv y w).

(** The position in the layer's untransformed space, if the layer is hit. *)
Definition layer_hit (global : Point) (layer : LayerSnapshot) : option (F64 * F64) :=
  if decide (¬ surface_valid (ls_surface layer) ∨ ¬ should_render layer) then None
  else
    p ← inverse_transform_point (ls_transform layer) (f64_of_bits (pt_x global)) (f64_of_bits (pt_y global));
    if decide (¬ rect_contains_point (ls_geometry layer) p) then None else Some p.

Definition missed_input_route (event : InputEventPacket) (global : Point) : InputRoute :=
  mk_input_route (ie_serial event) None global None IDENTITY NoTarget.
Definition hit_route (event : InputEventPacket) (global : Point) (layer : LayerSnapshot) : option InputRoute :=
  p ← layer_hit global layer;
  Some (mk_input_route (ie_serial event) (Some (ls_surface layer)) global
    (Some (mk_point (f64_bits (fsub p.1 (f64_from_i32 (rx (ls_geometry layer)))))
                    (f64_bits (fsub p.2 (f64_from_i32 (ry (ls_geometry layer)))))))
    (ls_transform layer) Routed).
Definition hit_test_layers (event : InputEventPacket) (layers : list LayerSnapshot) : InputRoute :=
  match ie_global_position event with
  | None => missed_input_route event (mk_point 0 0)
  | Some global =>
      default (missed_input_route event global)
        (find_map (hit_route event global) (reverse (sort_by_key ls_stack_rank layers)))
  end.
Definition hit_test_scene_for_input := hit_test_layers.
Definition hit_test_scene_surface_for_input := hit_test_layers.

(** ** Queued input *)

Record QueuedRoutedInput : Type := mk_queued { qi_event : InputEventPacket; qi_route : InputRoute }.
Inductive RoutedInputFlushReason : Type :=
| FrameBoundary | StateChangingInput | TargetCrossing | DragStateChanged | GrabChanged | FocusChanged.
Record RoutedInputFlush : Type := mk_flush {
  fl_reason : RoutedInputFlushReason; fl_inputs : list QueuedRoutedInput;
}.
Inductive RoutedInputRequestError : Type :=
| SerialMismatch | RouteNotAccepted | MissingTargetSurface | MissingLocalPosition.
Inductive RoutedInputQueueAction : Type := BufferedMotion | Flushed (f : RoutedInputFlush).
Record RoutedInputCoalescer : Type := mk_coalescer { pending_motion : option QueuedRoutedInput }.
#[export] Instance queued_eq_dec : EqDecision QueuedRoutedInput.
Proof. solve_decision. Defined.

Definition coalescer_new : RoutedInputCoalescer := mk_coalescer None.

(** [Option::filter] on [SurfaceId::is_valid]. *)
Definition valid_target (route : InputRoute) : option SurfaceId :=
  s ← ir_target_surface route; if decide (surface_valid s) then Some s else None.
(** [RoutedInputRouteKey] has the target as its only field. *)
Definition coalescible_motion_key (input : QueuedRoutedInput) : option SurfaceId :=
  if decide (ie_kind (qi_event input) ≠ PointerMotion) then None
  else if decide (ir_outcome (qi_route input) ≠ Routed) then None
  else valid_target (qi_route input).

Definition flush_with (c : RoutedInputCoalescer) (reason : RoutedInputFlushReason)
    (current : option QueuedRoutedInput) : RoutedInputQueueAction * RoutedInputCoalescer :=
  (Flushed (mk_flush reason (option_list (pending_motion c) ++ option_list current)), mk_coalescer None).
Definition take_pending (c : RoutedInputCoalescer) (reason : RoutedInputFlushReason) :
    option RoutedInputFlush * RoutedInputCoalescer :=
  ((λ pending, mk_flush reason [pending]) <$> pending_motion c, mk_coalescer None).
Definition push_motion (c : RoutedInputCoalescer) (input : QueuedRoutedInput) (key : SurfaceId) :
    RoutedInputQueueAction * RoutedInputCoalescer :=
  match pending_motion c ≫= coalescible_motion_key with
  | Some pending_key =>
      if decide (pending_key = key) then (BufferedMotion, mk_coalescer (Some input))
      else flush_with c TargetCrossing (Some input)
  | None => (BufferedMotion, mk_coalescer (Some input))
  end.
Definition coalescer_push (c : RoutedInputCoalescer) (event : InputEventPacket) (route : InputRoute) :
    RoutedInputQueueAction * RoutedInputCoalescer :=
  let input := mk_queued event route in
  match coalescible_motion_key input with
  | Some key => push_motion c input key
  | None => flush_with c StateChangingInput (Some input)
  end.
Definition flush_frame (c : RoutedInputCoalescer) := take_pending c FrameBoundary.
Definition flush_barrier := take_pending.

Definition routed_input_request_from_physical_event (event : InputEventPacket) (route : InputRoute) :
    result RoutedInputRequest RoutedInputRequestError :=
  ensure! ie_serial event = ir_input_serial route else SerialMismatch in
  ensure! ir_outcome route = Routed else RouteNotAccepted in
  let? target := ok_or (valid_target route) MissingTargetSurface in
  let? local := ok_or (ir_local_position route) MissingLocalPosition in
  Ok (mk_routed_request (ie_serial event) (ie_seat event) (ie_device event) (ie_time_msec event)
        target (ir_global_position route) local (ie_kind event)).
Definition routed_input_requests_from_flush (flush : RoutedInputFlush) :
    result (list RoutedInputRequest) RoutedInputRequestError :=
  try_map (λ i, routed_input_request_from_physical_event (qi_event i) (qi_route i)) (fl_inputs flush).

(** ** The hit test finds the topmost hit layer *)

Lemma filter_eq_app {A} (P : A → Prop) `{∀ x, Decision (P x)} (l pre post : list A) x :
  filter P l = pre ++ x :: post →
  ∃ below above, l = below ++ x :: above ∧ filter P below = pre ∧ filter P above = post.
Proof.
  revert pre. induction l as [|y l IH]; intros pre Hl; [by destruct pre|].
  rewrite filter_cons in Hl. case_decide as Hy.
  - destruct pre as [|z pre]; injection Hl as Hz Hl; [subst; by exists [], l|subst z].
    destruct (IH pre Hl) as (b&a&->&Hb&Ha). exists (y :: b), a.
    by rewrite filter_cons, decide_True, Hb by done.
  - destruct (IH pre Hl) as (b&a&->&Hb&Ha). exists (y :: b), a. by rewrite filter_cons, decide_False.
Qed.

(** [layer] is hit, and every other hit layer of the list is below it: it has a
    lower rank, or the same rank and comes earlier. *)
Definition topmost (hit : LayerSnapshot → Prop) (layers : list LayerSnapshot) (layer : LayerSnapshot) : Prop :=
  hit layer ∧ ∃ below above, layers = below ++ layer :: above
  ∧ Forall (λ l, hit l → ls_stack_rank l ≤ ls_stack_rank layer) below
  ∧ Forall (λ l, hit l → ls_stack_rank l < ls_stack_rank layer) above.

Lemma find_map_first {A B} (f : A → option B) l b :
  find_map f l = Some b →
  ∃ pre a post, l = pre ++ a :: post ∧ f a = Some b ∧ Forall (λ x, f x = None) pre.
Proof.
  induction l as [|x l IH]; simpl; [done|]. destruct (f x) eqn:E.
  - intros [= <-]. by exists [], x, l.
  - intros (pre&a&post&->&Ha&Hp)%IH. exists (x :: pre), a, post. split_and!; [done|done|by constructor].
Qed.

Lemma find_map_topmost {B} (f : LayerSnapshot → option B) layers :
  match find_map f (reverse (sort_by_key ls_stack_rank layers)) with
  | Some b => ∃ l, f l = Some b ∧ topmost (λ l, is_Some (f l)) layers l
  | None => Forall (λ l, f l = None) layers
  end.
Proof.
  pose proof (sort_by_key_sorted ls_stack_rank layers) as Hs.
  pose proof (sort_by_key_stable ls_stack_rank layers) as Hst.
  pose proof (sort_by_key_perm ls_stack_rank layers) as Hp.
  destruct (find_map _ _) as [b|] eqn:E.
  - apply find_map_first in E as (pre&l&post&Hrev&Hl&Hpre). exists l. split; [done|].
    split; [by eexists|].
    assert (sort_by_key ls_stack_rank layers = reverse post ++ l :: reverse pre) as Hso.
    { rewrite <-(reverse_involutive (sort_by_key _ _)), Hrev, reverse_app, reverse_cons, <-app_assoc. done. }
    rewrite Hso in Hs, Hst, Hp. specialize (Hst (ls_stack_rank l)).
    rewrite filter_app, filter_cons, decide_True in Hst by done. symmetry in Hst.
    apply filter_eq_app in Hst as (below&above&->&Hb&Ha). exists below, above. split; [done|].
    assert (∀ x, x ∈ pre → f x = None) as Hpre' by (by apply Forall_forall).
    assert (∀ x, x ∈ below ++ above → is_Some (f x) → ls_stack_rank x ≤ ls_stack_rank l) as Hle.
    { intros x Hx Hfx. assert (x ∈ reverse post ++ reverse pre) as Hx'.
      { apply (Permutation_app_inv (reverse post)) in Hp. by rewrite Hp. }
      apply elem_of_app in Hx' as [Hx'|Hx'].
      - apply StronglySorted_app in Hs as (Hs&_&_). by apply (Hs x l); [|left].
      - rewrite elem_of_reverse in Hx'. rewrite (Hpre' x Hx') in Hfx. by destruct Hfx. }
    rewrite !Forall_forall. split; intros x Hx Hfx; [apply Hle; set_solver|].
    destruct (decide (ls_stack_rank x = ls_stack_rank l)) as [Heq|]; [|enough (ls_stack_rank x ≤ ls_stack_rank l) by lia; apply Hle; set_solver].
    assert (x ∈ filter (λ y, ls_stack_rank y = ls_stack_rank l) above) as Hin
      by (by apply list_elem_of_filter).
    rewrite Ha, list_elem_of_filter, elem_of_reverse in Hin. destruct Hin as [_ Hin].
    rewrite (Hpre' x Hin) in Hfx. by destruct Hfx.
  - rewrite find_map_None in E. rewrite <-Forall_forall in E. by rewrite reverse_Permutation, Hp in E.
Qed.

(** ** Under the identity transform, positions are exact *)

Lemma inverse_matrix_identity :
  inverse_matrix IDENTITY =
  let z := S754_zero false in Some [f64_one; z; z; z; f64_one; z; z; z; f64_one].
Proof. vm_compute. reflexivity. Qed.

Lemma fmul_one_l a : exact_int a → fmul f64_one (f64_from_i32 a) = f64_from_i32 a.
Proof.
  intros Ha. rewrite <-(fmul_one a Ha) at 2. unfold fmul, SFmul.
  rewrite f64_one_eq. destruct (f64_from_i32 a); try done; simpl; [by rewrite xorb_false_r..|].
  by rewrite xorb_false_r, Pos.mul_comm, Z.add_comm.
Qed.
Lemma fadd_zero_l s a : exact_int a → fadd (S754_zero s) (f64_from_i32 a) = f64_from_i32 a.
Proof. intros Ha. rewrite f64_from_i32_eq by done. case_decide; [by destruct s|done]. Qed.

Lemma inverse_identity x y : exact_int x → exact_int y →
  inverse_transform_point IDENTITY (f64_from_i32 x) (f64_from_i32 y)
  = Some (f64_from_i32 x, f64_from_i32 y).
Proof.
  intros Hx Hy. unfold inverse_transform_point. rewrite inverse_matrix_identity.
  cbn [mbind option_bind nth]. cbv zeta. unfold affine.
  destruct (fmul_zero false x Hx) as [sx ->]. destruct (fmul_zero false y Hy) as [sy ->].
  rewrite !fmul_one_l, !fadd_zero, fadd_zero_l, fadd_zero by done.
  assert (fadd (fadd (S754_zero sx) (S754_zero sy)) f64_one = f64_one) as -> by (by destruct sx, sy).
  rewrite decide_False, !fdiv_one; [done..|].
  intros [H|[H|[H|H]]]; [by apply H, is_finite_exact..|by apply H|]. vm_compute in H. done.
Qed.

Definition rect_ok (r : Rect) : Prop :=
  i32_ok (rx r) ∧ i32_ok (ry r) ∧ i32_ok (rwidth r) ∧ i32_ok (rheight r).

Lemma rect_contains_pixel r x y :
  rect_ok r → i32_ok x → i32_ok y →
  rect_contains_point r (f64_from_i32 x, f64_from_i32 y) ↔ in_rect x y r.
Proof.
  intros (?&?&?&?) ??. unfold rect_contains_point, in_rect. cbv zeta. cbn [fst snd].
  assert (∀ z, i32_ok z → exact_int z) as Hi by (unfold exact_int; word_lia).
  assert (∀ a b, i32_ok a → i32_ok b → exact_int (a + b)) as Hs by (unfold exact_int; word_lia).
  rewrite !fadd_exact, !fle_exact, !flt_exact by auto. lia.
Qed.

(** The pattern of an integer position. *)
Definition pixel_point (x y : Z) : Point := mk_point (f64_bits (f64_from_i32 x)) (f64_bits (f64_from_i32 y)).

Lemma layer_hit_pixel l x y :
  ls_transform l = IDENTITY → rect_ok (ls_geometry l) → i32_ok x → i32_ok y →
  layer_hit (pixel_point x y) l =
  if decide (surface_valid (ls_surface l) ∧ should_render l ∧ in_rect x y (ls_geometry l))
  then Some (f64_from_i32 x, f64_from_i32 y) else None.
Proof.
  intros Ht Hr Hx Hy. unfold layer_hit, pixel_point. cbn [pt_x pt_y].
  assert (∀ z, i32_ok z → exact_int z) as Hi by (unfold exact_int; word_lia).
  case_decide as H1; [by rewrite decide_False by tauto|].
  rewrite !f64_of_bits_bits, Ht, inverse_identity by auto. cbn [mbind option_bind].
  pose proof (rect_contains_pixel _ x y Hr Hx Hy) as Hc.
  case_decide; case_decide; try done; tauto.
Qed.

Lemma hit_route_pixel event l x y :
  ls_transform l = IDENTITY → rect_ok (ls_geometry l) → i32_ok x → i32_ok y →
  hit_route event (pixel_point x y) l =
  if decide (surface_valid (ls_surface l) ∧ should_render l ∧ in_rect x y (ls_geometry l))
  then Some (mk_input_route (ie_serial event) (Some (ls_surface l)) (pixel_point x y)
         (Some (pixel_point (x - rx (ls_geometry l)) (y - ry (ls_geometry l)))) IDENTITY Routed)
  else None.
Proof.
  intros Ht Hr Hx Hy. unfold hit_route. rewrite layer_hit_pixel by done.
  case_decide; [|done]. cbn [mbind option_bind fst snd]. destruct Hr as (?&?&_).
  assert (∀ z, i32_ok z → exact_int z) as Hi by (unfold exact_int; word_lia).
  assert (∀ a b, i32_ok a → i32_ok b → exact_int (a - b)) as Hs by (unfold exact_int; word_lia).
  rewrite !fsub_exact, Ht by auto. done.
Qed.

(** C17: pointer routing is exact on pixels.  When every layer has the identity
    transform and 32-bit geometry, an event at pixel (x, y) is routed to the
    topmost valid, rendered layer whose rectangle contains the pixel, with the
    exact position relative to that rectangle, and the request built from the
    route names that surface and that position; if there is no such layer, the
    event has no target and no request is built. *)
Theorem hit_test_pixels (event : InputEventPacket) (layers : list LayerSnapshot) (x y : Z) :
  Forall (λ l, ls_transform l = IDENTITY ∧ rect_ok (ls_geometry l)) layers →
  i32_ok x → i32_ok y → ie_global_position event = Some (pixel_point x y) →
  let shown := λ l, surface_valid (ls_surface l) ∧ should_render l ∧ in_rect x y (ls_geometry l) in
  let route := hit_test_scene_for_input event layers in
  (∃ l, topmost shown layers l ∧
     routed_input_request_from_physical_event event route =
     Ok (mk_routed_request (ie_serial event) (ie_seat event) (ie_device event) (ie_time_msec event)
           (ls_surface l) (pixel_point x y)
           (pixel_point (x - rx (ls_geometry l)) (y - ry (ls_geometry l))) (ie_kind event)))
  ∨ (Forall (λ l, ¬ shown l) layers ∧ ir_outcome route = NoTarget ∧ ir_target_surface route = None
     ∧ routed_input_request_from_physical_event event route = Err RouteNotAccepted).
Proof.
  intros Hl Hx Hy He shown route. unfold route, hit_test_scene_for_input, hit_test_layers. rewrite He.
  rewrite Forall_forall in Hl.
  assert (∀ l, l ∈ layers → hit_route event (pixel_point x y) l =
    if decide (shown l) then Some (mk_input_route (ie_serial event) (Some (ls_surface l)) (pixel_point x y)
         (Some (pixel_point (x - rx (ls_geometry l)) (y - ry (ls_geometry l)))) IDENTITY Routed) else None) as Hh.
  { intros l Hin. destruct (Hl l Hin). by rewrite hit_route_pixel. }
  assert (∀ l, l ∈ layers → is_Some (hit_route event (pixel_point x y) l) ↔ shown l) as His.
  { intros l Hin. rewrite Hh by done. case_decide; [naive_solver|]. split; [by intros []|done]. }
  pose proof (find_map_topmost (hit_route event (pixel_point x y)) layers) as Hf.
  destruct (find_map _ _) as [r|].
  - left. destruct Hf as (l&Hr&Ht&below&above&Hla&Hb&Ha). exists l.
    assert (l ∈ layers) as Hin by (rewrite Hla; set_solver).
    rewrite Hh in Hr by done. case_decide as Hsh; [|done]. injection Hr as <-. split.
    + split; [done|]. exists below, above. split; [done|]. rewrite !Forall_forall in *.
      split; intros z Hz Hsz; [apply Hb|apply Ha]; try done; apply His; set_solver.
    + cbn. unfold routed_input_request_from_physical_event, valid_target. cbn.
      rewrite !decide_True by (done || apply Hsh). done.
  - right. split; [|unfold routed_input_request_from_physical_event; cbn; by rewrite decide_True].
    rewrite Forall_forall in *. intros l Hin Hs. apply His in Hs as [r Hr]; [|done].
    by rewrite Hf in Hr.
Qed.

(** ** Coalescing only drops superseded motion *)

Inductive QueueOp : Type :=
| QPush (event : InputEventPacket) (route : InputRoute)
| QFrame | QBarrier (reason : RoutedInputFlushReason).
Definition action_inputs (a : RoutedInputQueueAction) : list QueuedRoutedInput :=
  match a with BufferedMotion => [] | Flushed f => fl_inputs f end.
Definition flush_inputs (o : option RoutedInputFlush) : list QueuedRoutedInput :=
  match o with Some f => fl_inputs f | None => [] end.
Definition queue_step (c : RoutedInputCoalescer) (op : QueueOp) :
    list QueuedRoutedInput * RoutedInputCoalescer :=
  match op with
  | QPush event route => let '(a, c) := coalescer_push c event route in (action_inputs a, c)
  | QFrame => let '(f, c) := flush_frame c in (flush_inputs f, c)
  | QBarrier reason => let '(f, c) := flush_barrier c reason in (flush_inputs f, c)
  end.
(** What is delivered, and what is still queued at the end. *)
Fixpoint queue_run (c : RoutedInputCoalescer) (ops : list QueueOp) :
    list QueuedRoutedInput * RoutedInputCoalescer :=
  match ops with
  | [] => ([], c)
  | op :: ops => let '(out, c) := queue_step c op in
                 let '(outs, c) := queue_run c ops in (out ++ outs, c)
  end.

(** What a queue may make of its operations: every input is delivered in order,
    except a motion followed at once by a motion to the same target. *)
Inductive delivered : list QueueOp → list QueuedRoutedInput → Prop :=
| delivered_nil : delivered [] []
| delivered_flush op ops out :
    match op with QPush _ _ => False | _ => True end → delivered ops out → delivered (op :: ops) out
| delivered_keep e r ops out : delivered ops out → delivered (QPush e r :: ops) (mk_queued e r :: out)
| delivered_drop e r e' r' k ops out :
    coalescible_motion_key (mk_queued e r) = Some k →
    coalescible_motion_key (mk_queued e' r') = Some k →
    delivered (QPush e' r' :: ops) out → delivered (QPush e r :: QPush e' r' :: ops) out.

Definition queue_ok (c : RoutedInputCoalescer) : Prop :=
  ∀ i, pending_motion c = Some i → is_Some (coalescible_motion_key i).

Lemma queue_step_ok c op : queue_ok c → queue_ok (queue_step c op).2.
Proof.
  unfold queue_ok. intros Hc. destruct op as [e r| |]; simpl; [|done..].
  unfold coalescer_push, push_motion, flush_with.
  destruct (coalescible_motion_key _) eqn:E; [|done].
  destruct (pending_motion c ≫= _); [case_decide|]; simpl; naive_solver.
Qed.

(** The operations with the queued motion put in front. *)
Definition with_pending (c : RoutedInputCoalescer) (ops : list QueueOp) : list QueueOp :=
  match pending_motion c with Some (mk_queued e r) => QPush e r :: ops | None => ops end.

Lemma queue_run_delivered c ops :
  queue_ok c →
  let '(outs, c') := queue_run c ops in
  delivered (with_pending c ops) (outs ++ option_list (pending_motion c')) ∧ queue_ok c'.
Proof.
  revert c. induction ops as [|op ops IH]; intros c Hc; simpl.
  { split; [|done]. unfold with_pending. destruct (pending_motion c) as [[]|]; [apply delivered_keep|]; constructor. }
  pose proof (queue_step_ok c op Hc) as Hc'. destruct (queue_step c op) as [out c1] eqn:E.
  specialize (IH c1 Hc'). destruct (queue_run c1 ops) as [outs c2]. destruct IH as [IH Hc2].
  split; [|done]. rewrite <-app_assoc. set (rest := outs ++ _) in *. clearbody rest.
  destruct op as [e r| |]; simpl in E.
  2, 3: injection E as <- <-; unfold with_pending in *; simpl in IH;
    destruct (pending_motion c) as [[]|]; simpl; [apply delivered_keep|]; by apply delivered_flush.
  unfold coalescer_push, push_motion, flush_with in E. unfold queue_ok in Hc.
  destruct (coalescible_motion_key (mk_queued e r)) as [k|] eqn:Ek.
  - destruct (pending_motion c) as [[e0 r0]|] eqn:Ep; simpl in E.
    + destruct (Hc _ eq_refl) as [k0 Hk0]. rewrite Hk0 in E. unfold with_pending. rewrite Ep.
      case_decide; simplify_eq/=; [by eapply delivered_drop|by do 2 apply delivered_keep].
    + simplify_eq/=. unfold with_pending. by rewrite Ep.
  - simplify_eq/=. unfold with_pending. unfold with_pending in IH. simpl in IH.
    destruct (pending_motion c) as [[e0 r0]|]; simpl; repeat apply delivered_keep; done.
Qed.

Definition pushed (ops : list QueueOp) : list QueuedRoutedInput :=
  omap (λ op, match op with QPush e r => Some (mk_queued e r) | _ => None end) ops.

Lemma delivered_sublist ops out : delivered ops out → out `sublist_of` pushed ops.
Proof.
  induction 1 as [|op ops out Ho _ IH|e r ops out _ IH|e r e' r' k ops out Hk Hk' _ IH]; simpl.
  - constructor.
  - by destruct op.
  - by constructor.
  - by constructor.
Qed.
Lemma delivered_other ops out :
  delivered ops out →
  filter (λ i, coalescible_motion_key i = None) out =
  filter (λ i, coalescible_motion_key i = None) (pushed ops).
Proof.
  induction 1 as [|op ops out Ho _ IH|e r ops out _ IH|e r e' r' k ops out Hk Hk' _ IH]; simpl.
  - done.
  - by destruct op.
  - rewrite !filter_cons. by rewrite IH.
  - rewrite (filter_cons _ (mk_queued e r)), decide_False by congruence. done.
Qed.
Lemma delivered_last ops out : delivered ops out → last out = last (pushed ops).
Proof.
  induction 1 as [|op ops out Ho _ IH|e r ops out Hd IH|e r e' r' k ops out Hk Hk' _ IH]; simpl in *.
  - done.
  - by destruct op.
  - rewrite !last_cons. by rewrite IH.
  - exact IH.
Qed.

(** C18: the input queue coalesces and loses nothing else.  Whatever is pushed and
    flushed, what was delivered and the queued motion together are the pushed
    inputs in their order, without some motions that were followed at once by a
    motion to the same surface: every other input is there exactly once, the
    newest input is there, only a motion is ever held back, and nothing is held
    back after a frame boundary, a barrier or a state-changing input. *)
Theorem queue_delivers (ops : list QueueOp) :
  let '(outs, c) := queue_run coalescer_new ops in
  let all := outs ++ option_list (pending_motion c) in
  delivered ops all ∧ all `sublist_of` pushed ops ∧ last all = last (pushed ops)
  ∧ filter (λ i, coalescible_motion_key i = None) outs
    = filter (λ i, coalescible_motion_key i = None) (pushed ops)
  ∧ (∀ op, match op with QPush e r => coalescible_motion_key (mk_queued e r) = None | _ => True end →
       pending_motion (queue_step c op).2 = None).
Proof.
  pose proof (queue_run_delivered coalescer_new ops) as H.
  destruct (queue_run coalescer_new ops) as [outs c]. destruct H as [Hd Hok]; [done|].
  unfold with_pending in Hd. simpl in Hd. cbv zeta. split; [done|].
  split; [by apply delivered_sublist|]. split; [by apply delivered_last|]. split.
  - rewrite <-(delivered_other _ _ Hd), filter_app.
    destruct (pending_motion c) as [i|] eqn:E; [|by rewrite app_nil_r].
    destruct (Hok i E) as [k Hk]. simpl. rewrite filter_cons, decide_False by congruence.
    by rewrite filter_nil, app_nil_r.
  - intros [e r| |] Hop; simpl; [|done..]. unfold coalescer_push, flush_with. by rewrite Hop.
Qed.

(** ** Keyboard events follow the focus *)

Inductive FocusOp : Type :=
| OpFocus (seat : SeatId) (surface : SurfaceId) (committed : list CommittedSurfaceState)
| OpClear (surface : SurfaceId).
Definition focus_step (f : InputFocusState) (op : FocusOp) : InputFocusState :=
  match op with
  | OpFocus seat surface committed => (focus_surface f seat surface committed).2
  | OpClear surface => (clear_surface f surface).2
  end.
Definition focus_run (log : list FocusOp) : InputFocusState := foldl focus_step ∅ log.

(** The operation gives [seat] the focus on [surface]. *)
Definition gives_focus (seat : SeatId) (surface : SurfaceId) (op : FocusOp) : Prop :=
  match op with
  | OpFocus seat' surface' committed =>
      seat' = seat ∧ surface' = surface ∧ id_valid seat ∧ is_committed surface committed
  | OpClear _ => False
  end.
(** The operation leaves the focus of [seat] on [surface]. *)
Definition keeps_focus (seat : SeatId) (surface : SurfaceId) (op : FocusOp) : Prop :=
  match op with
  | OpFocus seat' surface' committed => ¬ (∃ s, gives_focus seat s op)
  | OpClear surface' => surface' ≠ surface
  end.

Lemma focus_surface_lookup f seat surface committed s :
  (focus_surface f seat surface committed).2 !! s =
  if decide (s = seat ∧ id_valid seat ∧ is_committed surface committed) then Some surface else f !! s.
Proof.
  unfold focus_surface. case_decide as H1; [by rewrite decide_False by tauto|].
  case_decide as H2; [by rewrite decide_False by tauto|]. simpl.
  destruct (decide (s = seat)) as [->|]; [by rewrite lookup_insert_eq, decide_True by tauto|].
  by rewrite lookup_insert_ne, decide_False by (congruence || tauto).
Qed.
Lemma clear_surface_lookup f surface s x :
  (clear_surface f surface).2 !! s = Some x ↔ f !! s = Some x ∧ x ≠ surface.
Proof. simpl. by rewrite map_lookup_filter_Some. Qed.

Lemma focus_step_lookup f op seat surface :
  focus_step f op !! seat = Some surface ↔
  gives_focus seat surface op ∨ (f !! seat = Some surface ∧ keeps_focus seat surface op).
Proof.
  destruct op as [seat' surface' c|surface']; cbn [focus_step].
  - rewrite focus_surface_lookup. simpl. case_decide as H.
    + destruct H as (->&?&?). split; [intros [= ->]; by left|].
      intros [(_&->&_)|[_ Hn]]; [done|]. destruct Hn. by exists surface'.
    + split; [intros Hf; right; split; [done|]|].
      * intros (s&->&->&?&?). destruct H. done.
      * intros [(->&->&?&?)|[? _]]; [by destruct H|done].
  - rewrite clear_surface_lookup. simpl. naive_solver.
Qed.

Lemma focus_run_lookup log seat surface :
  focus_run log !! seat = Some surface ↔
  ∃ before op after, log = before ++ op :: after ∧ gives_focus seat surface op
    ∧ Forall (keeps_focus seat surface) after.
Proof.
  induction log as [|op log IH] using rev_ind.
  { split; [done|]. by intros ([|]&?&?&?&_). }
  unfold focus_run in *. rewrite foldl_app. cbn [foldl]. rewrite focus_step_lookup, IH. split.
  - intros [Hg|[(b&o&a&->&Hg&Ha) Hk]]; [by exists log, op, []|].
    exists b, o, (a ++ [op]). rewrite <-app_assoc. split_and!; [done|done|].
    rewrite Forall_app. by repeat constructor.
  - intros (b&o&a&Hl&Hg&Ha). destruct a as [|x a _] using rev_ind.
    + apply app_inj_tail in Hl as [-> ->]. by left.
    + rewrite app_comm_cons, app_assoc in Hl. apply app_inj_tail in Hl as [-> ->].
      apply Forall_app in Ha as [Ha Hx]. right. split; [by exists b, o, a|].
      by apply Forall_cons_1 in Hx as [? _].
Qed.

(** Keyboard events follow the focus.  After any sequence of focus requests
    and cleared surfaces, an event is routed to a surface exactly when it is a key
    event, the last request accepted for its seat named that surface, the surface
    was not cleared since, and it is still committed; the routed event is the
    event itself with that target.  An event that is not a key is returned as
    unsupported, whatever the focus. *)
Theorem keyboard_follows_focus (log : list FocusOp) (event : InputEventPacket)
    (committed : list CommittedSurfaceState) :
  (∀ routed, route_keyboard_event (focus_run log) event committed = FRouted routed ↔
     is_key (ie_kind event) ∧
     ∃ surface before op after, log = before ++ op :: after
       ∧ gives_focus (ie_seat event) surface op
       ∧ Forall (keeps_focus (ie_seat event) surface) after
       ∧ is_committed surface committed ∧ routed = set_target event surface)
  ∧ (¬ is_key (ie_kind event) →
       route_keyboard_event (focus_run log) event committed = FUnsupportedEvent event).
Proof.
  split.
  - intros routed. unfold route_keyboard_event. case_decide as Hk; [naive_solver|].
    destruct (focus_run log !! ie_seat event) as [s|] eqn:E.
    + pose proof E as E'. apply focus_run_lookup in E' as (b&o&a&Hl&Hg&Ha). case_decide as Hc.
      * split; [done|]. intros (_&s'&b'&o'&a'&Hl'&Hg'&Ha'&Hc'&_).
        assert (focus_run log !! ie_seat event = Some s') by (apply focus_run_lookup; eauto 10).
        congruence.
      * split; [intros [= <-]|].
        -- split; [done|]. by exists s, b, o, a.
        -- intros (_&s'&b'&o'&a'&Hl'&Hg'&Ha'&Hc'&->).
           assert (focus_run log !! ie_seat event = Some s') by (apply focus_run_lookup; eauto 10).
           congruence.
    + split; [done|]. intros (_&s'&b'&o'&a'&Hl'&Hg'&Ha'&_).
      assert (focus_run log !! ie_seat event = Some s') by (apply focus_run_lookup; eauto 10).
      congruence.
  - intros Hk. unfold route_keyboard_event. by rewrite decide_True.
Qed.

(** ** Polling takes exactly the events of registered devices *)

Definition ingest_of (s : LibinputEventSource) (e : InputEventPacket) : LibinputEventIngest :=
  (push_event s e).1.

Lemma ingest_devices s p e : ingest_of (mk_source (ls_devices s) p) e = ingest_of s e.
Proof. unfold ingest_of, push_event. simpl. destruct (_ !! _); [by case_decide|done]. Qed.

Lemma poll_events_spec s n rejected events :
  foldl poll_event (s, n, rejected) events =
  (mk_source (ls_devices s) (ls_pending s ++ filter (λ e, ingest_of s e = Accepted) events),
   n + Z.of_nat (length (filter (λ e, ingest_of s e = Accepted) events)),
   rejected ++ (ingest_of s <$> filter (λ e, ingest_of s e ≠ Accepted) events)).
Proof.
  revert s n rejected. induction events as [|e events IH]; intros s n rejected.
  { simpl. rewrite !app_nil_r, Z.add_0_r. by destruct s. }
  cbn [foldl]. rewrite !filter_cons.
  assert (ingest_of s e = (push_event s e).1) as He by done.
  destruct (push_event s e) as [o s'] eqn:Ep.
  assert (s' = mk_source (ls_devices s) (ls_pending s ++ if decide (o = Accepted) then [e] else [])) as Hs'.
  { unfold push_event in Ep. destruct (_ !! _); [case_decide|]; injection Ep as <- <-; simpl; rewrite ?app_nil_r; by destruct s. }
  simpl in He. unfold poll_event at 2. rewrite Ep, He.
  destruct (decide (o = Accepted)) as [->|Ho].
  - rewrite IH, Hs', decide_False by tauto. cbn [ls_devices ls_pending].
    set (s1 := mk_source (ls_devices s) (ls_pending s ++ [e])).
    assert (∀ x, ingest_of s1 x = ingest_of s x) as Hi by (intros; apply ingest_devices).
    rewrite (filter_ext_in (λ x, ingest_of s1 x = Accepted) (λ x, ingest_of s x = Accepted))
      by (intros; by rewrite Hi).
    rewrite (filter_ext_in (λ x, ingest_of s1 x ≠ Accepted) (λ x, ingest_of s x ≠ Accepted))
      by (intros; by rewrite Hi).
    f_equal; [f_equal|].
    + f_equal. by rewrite <-app_assoc.
    + simpl length. lia.
    + f_equal. apply list_fmap_ext. intros. apply Hi.
  - rewrite IH, Hs', decide_True, app_nil_r by done. destruct s as [d p]. cbn [ls_devices ls_pending].
    by rewrite fmap_cons, He, <-app_assoc.
Qed.

(** One poll takes every event it was given exactly once: the accepted ones, in
    order, are those whose device is registered on the event's seat; the report
    counts them and lists the outcomes of the others, in order.  A poller that
    fails changes nothing. *)
Theorem poll_once_spec {IoError} (ready : result (list InputEventPacket) IoError) (s : LibinputEventSource) :
  match ready with
  | Err e => poll_once ready s = (Err e, s)
  | Ok events =>
      ∃ report, poll_once ready s =
        (Ok report, mk_source (ls_devices s) (ls_pending s ++ filter (λ e, ingest_of s e = Accepted) events))
      ∧ po_polled report = po_accepted report + Z.of_nat (length (po_rejected report))
      ∧ po_polled report = Z.of_nat (length events)
      ∧ po_rejected report = ingest_of s <$> filter (λ e, ingest_of s e ≠ Accepted) events
  end.
Proof.
  destruct ready as [events|e]; [|done]. unfold poll_once. rewrite poll_events_spec.
  eexists. split; [done|]. cbn. split; [|done]. rewrite length_fmap.
  rewrite <-(filter_app_complement (λ e, ingest_of s e = Accepted) events) at 1.
  rewrite length_app. lia.
Qed.
Lemma ingest_accepted s e :
  ingest_of s e = Accepted ↔ ∃ d, ls_devices s !! ie_device e = Some d ∧ ld_seat d = ie_seat e.
Proof.
  unfold ingest_of, push_event. destruct (_ !! _) as [d|]; [case_decide|]; naive_solver.
Qed.

(** ** Examples *)

Definition example_layer (index rank : Z) (r : Rect) (t : Transform) : LayerSnapshot :=
  mk_layer (surface_id index 1) None None rank r (CpuBuffer 1) region_empty f32_one None t 1
    ImplicitOnly.
Definition example_pointer : InputEventPacket :=
  mk_input_event 7 (from_raw 1) (from_raw 2) 100 PointerMotion (Some (pixel_point 40 (-3))) None None.

Lemma hit_test_pixels_witness :
  routed_input_request_from_physical_event example_pointer
    (hit_test_scene_for_input example_pointer
       [example_layer 1 5 (mk_rect 0 (-10) 100 100) IDENTITY;
        example_layer 2 9 (mk_rect 41 (-10) 100 100) IDENTITY;
        example_layer 3 5 (mk_rect 30 (-4) 20 20) IDENTITY])
  = Ok (mk_routed_request 7 (from_raw 1) (from_raw 2) 100 (surface_id 3 1) (pixel_point 40 (-3))
          (pixel_point 10 1) PointerMotion).
Proof.
  destruct (hit_test_pixels example_pointer
    [example_layer 1 5 (mk_rect 0 (-10) 100 100) IDENTITY;
     example_layer 2 9 (mk_rect 41 (-10) 100 100) IDENTITY;
     example_layer 3 5 (mk_rect 30 (-4) 20 20) IDENTITY] 40 (-3)) as [_|_].
  - repeat constructor; apply (bool_decide_unpack _); vm_compute; exact I.
  - apply (bool_decide_unpack _). vm_compute. exact I.
  - apply (bool_decide_unpack _). vm_compute. exact I.
  - reflexivity.
  - vm_compute. reflexivity.
  - vm_compute. reflexivity.
Defined.

(** A layer scaled by two: the hit test undoes the transform. *)
Example hit_test_scaled :
  ir_local_position (hit_test_scene_for_input
    (mk_input_event 7 (from_raw 1) (from_raw 2) 100 PointerMotion (Some (pixel_point 17 9)) None None)
    [example_layer 1 5 (mk_rect 0 0 16 16)
       (mk_transform [1073741824; 0; 0; 0; 1073741824; 0; 0; 0; f32_one])])
  = Some (mk_point (f64_bits (fdiv (f64_from_i32 17) (f64_from_i32 2)))
                   (f64_bits (fdiv (f64_from_i32 9) (f64_from_i32 2)))).
Proof. vm_compute. reflexivity. Qed.
(** The key of a motion is its target alone: the motion of one seat's pointer
    supersedes that of another seat's over the same surface. *)
Example coalescer_merges_seats :
  let motion seat := mk_input_event 1 (from_raw seat) (from_raw seat) 0 PointerMotion
    (Some (pixel_point 0 0)) None None in
  let route := mk_input_route 1 (Some (surface_id 3 1)) (pixel_point 0 0) (Some (pixel_point 0 0))
    IDENTITY Routed in
  (λ i, ie_seat (qi_event i)) <$> (queue_run coalescer_new [QPush (motion 1) route; QPush (motion 2) route; QFrame]).1
  = [from_raw 2].
Proof. vm_compute. reflexivity. Qed.
