(* ===== verification/Lifecycle.v ===== *)
(** * Portal requests and grants
    ([sophia-portal/src/{lifecycle,broker}.rs])

    The lifecycle of cross-namespace portal requests and of the grants policy
    makes of them, and the deterministic broker over it. *)

From S2P Require Import Prelude Ids PortalPackets.
Local Open Scope Z_scope.

(** ** The lifecycle's state *)

Definition PORTAL_ACTIVE_TRANSFER_CAPACITY : Z := 64.
Definition PORTAL_DEFAULT_DEADLINE_MSEC : Z := 2000.

Inductive PortalPolicyDecision : Type := PolicyAllow | PolicyDeny.
Inductive PortalLifecycleError : Type :=
| InvalidRequest | DeadlineElapsed | CapacityExceeded | DuplicateTransfer | UnknownTransfer
| NotPending | GrantNotActive | StaleSourceGeneration | InvalidBrokerGeneration.

Record PortalRequestGrantLifecycle : Type := mk_lifecycle {
  lc_broker_generation : Z; lc_capacity : Z;
  lc_requests : gmap PortalTransferId PortalRequest;
  lc_grants : gmap PortalTransferId PortalGrant;
}.

Definition with_capacity (broker_generation capacity : Z) :
    result PortalRequestGrantLifecycle PortalLifecycleError :=
  if decide (broker_generation = 0 ∨ capacity = 0) then Err InvalidBrokerGeneration
  else Ok (mk_lifecycle broker_generation capacity ∅ ∅).
Definition lifecycle_new (broker_generation : Z) :
    result PortalRequestGrantLifecycle PortalLifecycleError :=
  with_capacity broker_generation PORTAL_ACTIVE_TRANSFER_CAPACITY.

(** Field writes. *)
Definition set_requests (l : PortalRequestGrantLifecycle) rs : PortalRequestGrantLifecycle :=
  mk_lifecycle (lc_broker_generation l) (lc_capacity l) rs (lc_grants l).
Definition set_grants (l : PortalRequestGrantLifecycle) gs : PortalRequestGrantLifecycle :=
  mk_lifecycle (lc_broker_generation l) (lc_capacity l) (lc_requests l) gs.
Definition set_decision (t : PortalTransfer) (d : PortalDecision) : PortalTransfer :=
  mk_transfer (pt_transfer t) (pt_source_namespace t) (pt_target_namespace t) (pt_kind t)
    (pt_mime_type t) (pt_byte_size t) d (pt_generation t).
Definition set_request_decision (r : PortalRequest) (d : PortalDecision) : PortalRequest :=
  mk_portal_request (set_decision (pr_transfer r) d) (pr_deadline_msec r).
Definition set_grant_state (g : PortalGrant) (s : PortalGrantState) : PortalGrant :=
  mk_grant (pg_transfer g) (pg_source_namespace g) (pg_target_namespace g) (pg_kind g)
    (pg_source_generation g) (pg_broker_generation g) (pg_deadline_msec g) s.

Definition request_decision (r : PortalRequest) : PortalDecision := pt_decision (pr_transfer r).

(** ** Operations *)

Definition valid_request (request : PortalRequest) : Prop :=
  let t := pr_transfer request in
  id_valid (pt_transfer t) ∧ id_valid (pt_source_namespace t) ∧ id_valid (pt_target_namespace t)
  ∧ pt_source_namespace t ≠ pt_target_namespace t ∧ pt_decision t = DPending
  ∧ pt_generation t ≠ 0 ∧ pr_deadline_msec request ≠ 0.
#[export] Instance valid_request_dec r : Decision (valid_request r).
Proof. unfold valid_request; cbv zeta; apply _. Defined.

Definition is_pending (r : PortalRequest) : Prop := request_decision r = DPending.
Definition is_active (g : PortalGrant) : Prop := pg_state g = GActive.
#[export] Instance is_pending_dec r : Decision (is_pending r).
Proof. unfold is_pending; apply _. Defined.
#[export] Instance is_active_dec g : Decision (is_active g).
Proof. unfold is_active; apply _. Defined.

Definition pending_or_active_count (l : PortalRequestGrantLifecycle) : Z :=
  count_values is_pending (lc_requests l) + count_values is_active (lc_grants l).

Definition submit (l : PortalRequestGrantLifecycle) (request : PortalRequest) (now_msec : Z) :
    result PortalRequestGrantLifecycle PortalLifecycleError :=
  ensure! (valid_request request) else InvalidRequest in
  ensure! (now_msec < pr_deadline_msec request) else DeadlineElapsed in
  let transfer := pt_transfer (pr_transfer request) in
  ensure! (lc_requests l !! transfer = None) else DuplicateTransfer in
  ensure! (pending_or_active_count l < lc_capacity l) else CapacityExceeded in
  Ok (set_requests l (<[transfer := request]> (lc_requests l))).

(** The grant an allowed request becomes. *)
Definition grant_of (transfer : PortalTransferId) (request : PortalRequest)
    (source_generation broker_generation : Z) : PortalGrant :=
  let t := pr_transfer request in
  mk_grant transfer (pt_source_namespace t) (pt_target_namespace t) (pt_kind t)
    source_generation broker_generation (pr_deadline_msec request) GActive.

(** [decide] also writes the state on two of its error paths. *)
Definition decide_request (l : PortalRequestGrantLifecycle) (transfer : PortalTransferId)
    (decision : PortalPolicyDecision) (source_generation now_msec : Z) :
    result (option PortalGrant) PortalLifecycleError * PortalRequestGrantLifecycle :=
  match lc_requests l !! transfer with
  | None => (Err UnknownTransfer, l)
  | Some request =>
      let write d := set_requests l (<[transfer := set_request_decision request d]> (lc_requests l)) in
      if decide (request_decision request ≠ DPending) then (Err NotPending, l)
      else if decide (pr_deadline_msec request ≤ now_msec)
      then (Err DeadlineElapsed, write DRevoked)
      else if decide (pt_generation (pr_transfer request) ≠ source_generation)
      then (Err StaleSourceGeneration, write DRevoked)
      else
        match decision with
        | PolicyDeny => (Ok None, write DDenied)
        | PolicyAllow =>
            let l1 := write DAllowed in
            let grant := grant_of transfer request source_generation (lc_broker_generation l) in
            let l2 := set_grants l1 (<[transfer := grant]> (lc_grants l1)) in
            (Ok (lc_grants l2 !! transfer), l2)
        end
  end.

Definition active_grant (l : PortalRequestGrantLifecycle) (transfer : PortalTransferId) :
    result PortalGrant PortalLifecycleError :=
  let? grant := ok_or (lc_grants l !! transfer) UnknownTransfer in
  ensure! (pg_state grant = GActive) else GrantNotActive in
  Ok grant.

Definition complete (l : PortalRequestGrantLifecycle) (transfer : PortalTransferId) :
    result PortalRequestGrantLifecycle PortalLifecycleError :=
  let? grant := active_grant l transfer in
  Ok (set_grants l (<[transfer := set_grant_state grant GCompleted]> (lc_grants l))).

Definition executor_failed (l : PortalRequestGrantLifecycle) (transfer : PortalTransferId) :
    result PortalRequestGrantLifecycle PortalLifecycleError :=
  let? grant := active_grant l transfer in
  Ok (set_grants l (<[transfer := set_grant_state grant GRevoked]> (lc_grants l))).

(** The state of the loops over [&mut self.requests]: both maps and the output. *)
Notation SweepState :=
  (gmap PortalTransferId PortalRequest * gmap PortalTransferId PortalGrant
   * list PortalTransferId)%type.

(** The body of the loop of [expire]. *)
Definition expire_entry (now_msec : Z) (acc : SweepState) (entry : PortalTransferId * PortalRequest) :
    SweepState :=
  let '(requests, grants, expired) := acc in
  let '(transfer, request) := entry in
  if decide (pr_deadline_msec request ≤ now_msec) then
    match (grants : gmap PortalTransferId PortalGrant) !! transfer with
    | Some grant =>
        if decide (pg_state grant = GActive)
        then (requests, <[transfer := set_grant_state grant GExpired]> grants, expired ++ [transfer])
        else acc
    | None =>
        if decide (request_decision request = DPending)
        then (<[transfer := set_request_decision request DRevoked]> requests, grants,
              expired ++ [transfer])
        else acc
    end
  else acc.

(** The body of the loop of [revoke_where]. *)
Definition revoke_entry (predicate : PortalRequest → Prop) `{!∀ r, Decision (predicate r)}
    (acc : SweepState) (entry : PortalTransferId * PortalRequest) : SweepState :=
  let '(requests, grants, revoked) := acc in
  let '(transfer, request) := entry in
  if decide (¬ predicate request) then acc
  else
    let '(requests, grants, changed) :=
      match (grants : gmap PortalTransferId PortalGrant) !! transfer with
      | Some grant =>
          if decide (pg_state grant = GActive)
          then (requests, <[transfer := set_grant_state grant GRevoked]> grants, true)
          else (requests, grants, false)
      | None =>
          if decide (request_decision request = DPending)
          then (<[transfer := set_request_decision request DRevoked]> requests, grants, true)
          else (requests, grants, false)
      end in
    if changed : bool then (requests, grants, revoked ++ [transfer])
    else (requests, grants, revoked).

Definition run_sweep (body : SweepState → PortalTransferId * PortalRequest → SweepState)
    (l : PortalRequestGrantLifecycle) : list PortalTransferId * PortalRequestGrantLifecycle :=
  let '(requests, grants, out) :=
    foldl body (lc_requests l, lc_grants l, []) (btree_entries (lc_requests l)) in
  (out, mk_lifecycle (lc_broker_generation l) (lc_capacity l) requests grants).

Definition expire (l : PortalRequestGrantLifecycle) (now_msec : Z) :
    list PortalTransferId * PortalRequestGrantLifecycle :=
  run_sweep (expire_entry now_msec) l.
Definition revoke_where (predicate : PortalRequest → Prop) `{!∀ r, Decision (predicate r)}
    (l : PortalRequestGrantLifecycle) : list PortalTransferId * PortalRequestGrantLifecycle :=
  run_sweep (revoke_entry predicate) l.

Definition owned_by_stale (source_namespace : NamespaceId) (generation : Z) (r : PortalRequest) : Prop :=
  pt_source_namespace (pr_transfer r) = source_namespace
  ∧ pt_generation (pr_transfer r) ≠ generation.
Definition touches (namespace : NamespaceId) (r : PortalRequest) : Prop :=
  pt_source_namespace (pr_transfer r) = namespace ∨ pt_target_namespace (pr_transfer r) = namespace.
Definition every_request (_r : PortalRequest) : Prop := True.
#[export] Instance owned_by_stale_dec n g r : Decision (owned_by_stale n g r).
Proof. unfold owned_by_stale; apply _. Defined.
#[export] Instance touches_dec n r : Decision (touches n r).
Proof. unfold touches; apply _. Defined.
#[export] Instance every_request_dec r : Decision (every_request r).
Proof. unfold every_request; apply _. Defined.

Definition source_owner_changed (l : PortalRequestGrantLifecycle) (source_namespace : NamespaceId)
    (generation : Z) : list PortalTransferId * PortalRequestGrantLifecycle :=
  revoke_where (owned_by_stale source_namespace generation) l.
Definition namespace_disconnected (l : PortalRequestGrantLifecycle) (namespace : NamespaceId) :
    list PortalTransferId * PortalRequestGrantLifecycle :=
  revoke_where (touches namespace) l.
Definition broker_restarted (l : PortalRequestGrantLifecycle) (broker_generation : Z) :
    result (list PortalTransferId * PortalRequestGrantLifecycle) PortalLifecycleError :=
  ensure! (lc_broker_generation l < broker_generation) else InvalidBrokerGeneration in
  let '(revoked, l) := revoke_where every_request l in
  Ok (revoked, mk_lifecycle broker_generation (lc_capacity l) (lc_requests l) (lc_grants l)).

(** ** The broker *)

Inductive HeadlessPortalPolicy : Type := HeadlessDeny | HeadlessAllow.
#[export] Instance headless_policy_eq_dec : EqDecision HeadlessPortalPolicy.
Proof. solve_decision. Defined.
Definition default_policy : HeadlessPortalPolicy := HeadlessDeny.

Record PortalCapabilityAdmission : Type := mk_capability_admission {
  source_may_publish : bool; target_may_request : bool;
}.
Definition admission_allowed (a : PortalCapabilityAdmission) : bool :=
  source_may_publish a && target_may_request a.

Inductive PortalBrokerDecision : Type := BrokerAllowed (g : PortalGrant) | BrokerDenied.

Record DeterministicPortalBroker : Type := mk_broker {
  bk_policy : HeadlessPortalPolicy; bk_lifecycle : PortalRequestGrantLifecycle;
}.
Definition broker_new (broker_generation : Z) (policy : HeadlessPortalPolicy) :
    result DeterministicPortalBroker PortalLifecycleError :=
  let? lifecycle := lifecycle_new broker_generation in
  Ok (mk_broker policy lifecycle).

Definition broker_request (b : DeterministicPortalBroker) (request : PortalRequest)
    (admission : PortalCapabilityAdmission) (now_msec : Z) :
    result PortalBrokerDecision PortalLifecycleError * DeterministicPortalBroker :=
  let transfer := pt_transfer (pr_transfer request) in
  let source_generation := pt_generation (pr_transfer request) in
  match submit (bk_lifecycle b) request now_msec with
  | Err e => (Err e, b)
  | Ok l1 =>
      let allow := admission_allowed admission && bool_decide (bk_policy b = HeadlessAllow) in
      let '(r, l2) :=
        decide_request l1 transfer (if allow then PolicyAllow else PolicyDeny) source_generation
          now_msec in
      let b2 := mk_broker (bk_policy b) l2 in
      match r with
      | Err e => (Err e, b2)
      | Ok (Some grant) => (Ok (BrokerAllowed grant), b2)
      | Ok None => (Ok BrokerDenied, b2)
      end
  end.

Definition broker_complete (b : DeterministicPortalBroker) (transfer : PortalTransferId) :
    result DeterministicPortalBroker PortalLifecycleError :=
  let? l := complete (bk_lifecycle b) transfer in Ok (mk_broker (bk_policy b) l).
Definition broker_executor_failed (b : DeterministicPortalBroker) (transfer : PortalTransferId) :
    result DeterministicPortalBroker PortalLifecycleError :=
  let? l := executor_failed (bk_lifecycle b) transfer in Ok (mk_broker (bk_policy b) l).

(** ** What a sweep does

    Both loops visit the requests in order and close the live ones that are hit:
    the pending request without a grant, or the active grant of the request. *)

Section sweep.
Context (hit : PortalRequest → Prop) `{!∀ r, Decision (hit r)} (closed : PortalGrantState).
Implicit Types (R : gmap PortalTransferId PortalRequest) (G : gmap PortalTransferId PortalGrant).

(** A request is live when it is pending or its grant is active. *)
Definition live (r : PortalRequest) (g : option PortalGrant) : Prop :=
  match g with Some g => is_active g | None => is_pending r end.
#[export] Instance live_dec r g : Decision (live r g).
Proof. destruct g; simpl; apply _. Defined.

Definition swept_request (r : PortalRequest) (g : option PortalGrant) : PortalRequest :=
  if decide (hit r ∧ g = None ∧ is_pending r) then set_request_decision r DRevoked else r.
Definition swept_grant (r : PortalRequest) (g : PortalGrant) : PortalGrant :=
  if decide (hit r ∧ is_active g) then set_grant_state g closed else g.

Definition sweep_entry (acc : SweepState) (entry : PortalTransferId * PortalRequest) : SweepState :=
  let '(R, G, out) := acc in
  let '(t, r) := entry in
  let g := (G : gmap PortalTransferId PortalGrant) !! t in
  if decide (hit r ∧ live r g) then
    match g with
    | Some g => (R, <[t := set_grant_state g closed]> G, out ++ [t])
    | None => (<[t := set_request_decision r DRevoked]> R, G, out ++ [t])
    end
  else acc.

Lemma sweep_foldl l R G out R' G' out' :
  NoDup l.*1 → (∀ t r, (t, r) ∈ l → R !! t = Some r) →
  foldl sweep_entry (R, G, out) l = (R', G', out') →
  (∀ t, R' !! t = (if decide (t ∈ l.*1) then (λ r, swept_request r (G !! t)) <$> R !! t else R !! t))
  ∧ (∀ t, G' !! t = (if decide (t ∈ l.*1)
                     then (λ g, if R !! t is Some r then swept_grant r g else g) <$> G !! t
                     else G !! t))
  ∧ out' = out ++ (filter (λ tr, hit tr.2 ∧ live tr.2 (G !! tr.1)) l).*1.
Proof.
  revert R G out. induction l as [|[t r] l IH]; intros R G out Hnd Hl.
  { intros [= <- <- <-]. split; [done|]. split; [done|]. by rewrite app_nil_r. }
  rewrite fmap_cons in Hnd. apply NoDup_cons in Hnd as [Hnot Hnd]. simpl in Hnot.
  assert (R !! t = Some r) as Ht by (apply Hl; left).
  assert (∀ t' r', (t', r') ∈ l → t' ≠ t) as Hne.
  { intros t' r' Hin ->. apply Hnot. apply list_elem_of_fmap. by exists (t, r'). }
  cbn [foldl]. rewrite fmap_cons. cbn [fst]. unfold sweep_entry at 2.
  destruct (decide (hit r ∧ live r (G !! t))) as [[Hh Hv]|Hd].
  - rewrite filter_cons_True by done. rewrite fmap_cons. cbn [fst].
    destruct (G !! t) as [g|] eqn:Hg; simpl in Hv; intros Hf;
      apply IH in Hf as (H1&H2&H3); try done.
    + split; [|split].
      * intros k. rewrite H1. destruct (decide (k = t)) as [->|].
        -- rewrite decide_False, decide_elem_head, Ht, Hg by done. simpl.
           unfold swept_request. rewrite decide_False; naive_solver.
        -- by rewrite decide_elem_tail, lookup_insert_ne by done.
      * intros k. rewrite H2. destruct (decide (k = t)) as [->|].
        -- rewrite decide_False, decide_elem_head, lookup_insert_eq, Ht, Hg by done. simpl.
           unfold swept_grant. by rewrite decide_True.
        -- by rewrite decide_elem_tail, lookup_insert_ne by done.
      * rewrite H3, <-app_assoc. simpl. do 3 f_equal.
        apply filter_ext_in. intros [t' r'] Hin. simpl.
        rewrite lookup_insert_ne; [done|]. naive_solver.
    + intros t' r' Hin. apply Hl. by right.
    + split; [|split].
      * intros k. rewrite H1. destruct (decide (k = t)) as [->|].
        -- rewrite decide_False, decide_elem_head, lookup_insert_eq, Ht, Hg by done. simpl.
           unfold swept_request. by rewrite decide_True.
        -- by rewrite decide_elem_tail, lookup_insert_ne by done.
      * intros k. rewrite H2. destruct (decide (k = t)) as [->|].
        -- by rewrite decide_False, decide_elem_head, Hg by done.
        -- by rewrite decide_elem_tail, lookup_insert_ne by done.
      * by rewrite H3, <-app_assoc.
    + intros t' r' Hin. rewrite lookup_insert_ne; [apply Hl; by right|]. naive_solver.
  - rewrite filter_cons_False by done. intros Hf.
    apply IH in Hf as (H1&H2&H3); [|done|intros; apply Hl; by right].
    split; [|split; [|done]].
    + intros k. rewrite H1. destruct (decide (k = t)) as [->|].
      * rewrite decide_False, decide_elem_head, Ht by done. simpl.
        unfold swept_request. rewrite decide_False; [done|].
        intros (?&Hn&?). apply Hd. by rewrite Hn.
      * by rewrite decide_elem_tail by done.
    + intros k. rewrite H2. destruct (decide (k = t)) as [->|].
      * rewrite decide_False, decide_elem_head, Ht by done.
        destruct (G !! t) as [g|]; simpl; [|done]. unfold swept_grant. by rewrite decide_False.
      * by rewrite decide_elem_tail by done.
Qed.
End sweep.

Lemma expire_sweep now acc entry :
  expire_entry now acc entry = sweep_entry (λ r, pr_deadline_msec r ≤ now) GExpired acc entry.
Proof.
  destruct acc as [[R G] out], entry as [t r]. unfold expire_entry, sweep_entry, live.
  destruct (G !! t) as [g|]; unfold is_active, is_pending; repeat case_decide; tauto || done.
Qed.

Lemma revoke_sweep p `{!∀ r, Decision (p r)} acc entry :
  revoke_entry p acc entry = sweep_entry p GRevoked acc entry.
Proof.
  destruct acc as [[R G] out], entry as [t r]. unfold revoke_entry, sweep_entry, live.
  destruct (G !! t) as [g|]; unfold is_active, is_pending; repeat case_decide; tauto || done.
Qed.

(** The state after a sweep and the transfers it reports. *)
Definition sweeps (hit : PortalRequest → Prop) `{!∀ r, Decision (hit r)} (closed : PortalGrantState)
    (l : PortalRequestGrantLifecycle) (out : list PortalTransferId)
    (l' : PortalRequestGrantLifecycle) : Prop :=
  (∀ t, lc_requests l' !! t = (λ r, swept_request hit r (lc_grants l !! t)) <$> lc_requests l !! t)
  ∧ (∀ t, lc_grants l' !! t =
       (λ g, if lc_requests l !! t is Some r then swept_grant hit closed r g else g)
         <$> lc_grants l !! t)
  ∧ (∀ t, t ∈ out ↔ ∃ r, lc_requests l !! t = Some r ∧ hit r ∧ live r (lc_grants l !! t))
  ∧ NoDup out ∧ StronglySorted key_le out.

Lemma run_sweep_spec body hit `{!∀ r, Decision (hit r)} closed l :
  (∀ acc entry, body acc entry = sweep_entry hit closed acc entry) →
  let '(out, l') := run_sweep body l in
  sweeps hit closed l out l'
  ∧ lc_broker_generation l' = lc_broker_generation l ∧ lc_capacity l' = lc_capacity l.
Proof.
  intros Hb. unfold run_sweep.
  assert (foldl body (lc_requests l, lc_grants l, []) (btree_entries (lc_requests l)) =
    foldl (sweep_entry hit closed) (lc_requests l, lc_grants l, []) (btree_entries (lc_requests l)))
    as ->.
  { generalize (lc_requests l, lc_grants l, @nil PortalTransferId).
    induction (btree_entries (lc_requests l)) as [|e es IH]; intros acc; simpl; [done|].
    by rewrite Hb, IH. }
  destruct (foldl _ _ _) as [[R' G'] out] eqn:Hf.
  pose proof (NoDup_btree_keys (lc_requests l)) as Hnd.
  pose proof (btree_keys_sorted (lc_requests l)) as Hst.
  unfold btree_keys in Hnd, Hst.
  apply sweep_foldl in Hf as (H1&H2&H3); [|done|intros; by apply elem_of_btree_entries].
  split; [|done]. unfold sweeps. cbn [lc_requests lc_grants]. split; [|split; [|split]].
  - intros t. rewrite H1. case_decide as Hd; [done|].
    destruct (lc_requests l !! t) eqn:E; [|done]. destruct Hd. apply elem_of_btree_keys. eauto.
  - intros t. rewrite H2. case_decide as Hd; [done|].
    destruct (lc_requests l !! t) eqn:E; [destruct Hd; apply elem_of_btree_keys; eauto|].
    by destruct (lc_grants l !! t).
  - intros t. rewrite H3. simpl. rewrite list_elem_of_fmap. split.
    + intros ([t' r]&->&[Hp Hin%elem_of_btree_entries]%list_elem_of_filter). eauto.
    + intros (r&Hr&Hp). exists (t, r). split; [done|]. apply list_elem_of_filter.
      by rewrite elem_of_btree_entries.
  - rewrite H3. simpl. split.
    + by apply NoDup_fmap_filter.
    + by apply StronglySorted_fmap_filter.
Qed.

(** ** The invariant *)

(** A request stored under [t], whatever its decision has become. *)
Definition request_ok (t : PortalTransferId) (r : PortalRequest) : Prop :=
  pt_transfer (pr_transfer r) = t ∧ valid_request (set_request_decision r DPending).
(** [g] is the grant of [r], of this broker generation while it is active. *)
Definition grant_matches (bg : Z) (t : PortalTransferId) (r : PortalRequest) (g : PortalGrant) : Prop :=
  ∃ s b, g = set_grant_state (grant_of t r (pt_generation (pr_transfer r)) b) s
    ∧ b ≤ bg ∧ (s = GActive → b = bg).

Record lifecycle_ok (l : PortalRequestGrantLifecycle) : Prop := {
  ok_capacity : pending_or_active_count l ≤ lc_capacity l;
  ok_request : ∀ t r, lc_requests l !! t = Some r →
    request_ok t r ∧ (request_decision r = DAllowed ↔ is_Some (lc_grants l !! t));
  ok_grant : ∀ t g, lc_grants l !! t = Some g →
    ∃ r, lc_requests l !! t = Some r ∧ grant_matches (lc_broker_generation l) t r g;
}.

(** How a request and a grant may change: a pending request is decided once, an
    active grant is closed once; nothing else ever changes. *)
Definition request_evolves (r r' : PortalRequest) : Prop :=
  r' = r ∨ is_pending r ∧ ∃ d, d ≠ DPending ∧ r' = set_request_decision r d.
Definition grant_evolves (g g' : PortalGrant) : Prop :=
  g' = g ∨ is_active g ∧ ∃ s, s ≠ GActive ∧ g' = set_grant_state g s.

Definition evolves (l l' : PortalRequestGrantLifecycle) : Prop :=
  lc_capacity l' = lc_capacity l ∧ lc_broker_generation l ≤ lc_broker_generation l'
  ∧ (∀ t r, lc_requests l !! t = Some r →
       ∃ r', lc_requests l' !! t = Some r' ∧ request_evolves r r')
  ∧ (∀ t g, lc_grants l !! t = Some g →
       ∃ g', lc_grants l' !! t = Some g' ∧ grant_evolves g g').

#[export] Instance evolves_po : PreOrder evolves.
Proof.
  split.
  - intros l. split; [done|]. split; [lia|]. unfold request_evolves, grant_evolves. naive_solver.
  - intros l1 l2 l3 (C1&B1&R1&G1) (C2&B2&R2&G2). split; [congruence|]. split; [lia|]. split.
    + intros t r (r2&Hr2&E1)%R1. destruct (R2 _ _ Hr2) as (r3&Hr3&E2). exists r3. split; [done|].
      destruct E1 as [->|(Hp&d&Hd&->)]; [done|]. right. split; [done|].
      destruct E2 as [->|(Hp'&_)]; [eauto|done].
    + intros t g (g2&Hg2&E1)%G1. destruct (G2 _ _ Hg2) as (g3&Hg3&E2). exists g3. split; [done|].
      destruct E1 as [->|(Hp&d&Hd&->)]; [done|]. right. split; [done|].
      destruct E2 as [->|(Hp'&_)]; [eauto|done].
Qed.

(** The three writes the operations are made of. *)

Lemma pending_no_grant l t r :
  lifecycle_ok l → lc_requests l !! t = Some r → is_pending r → lc_grants l !! t = None.
Proof.
  intros Hok Hr Hp. destruct (ok_request _ Hok t r Hr) as [_ Ha]. unfold is_pending in Hp.
  apply eq_None_not_Some. intros Hs%Ha. congruence.
Qed.

Lemma close_request_ok l t r d :
  lifecycle_ok l → lc_requests l !! t = Some r → is_pending r → d ≠ DPending → d ≠ DAllowed →
  let l' := set_requests l (<[t := set_request_decision r d]> (lc_requests l)) in
  lifecycle_ok l' ∧ evolves l l'.
Proof.
  intros Hok Hr Hp Hd1 Hd2 l'. split; [split|].
  - unfold pending_or_active_count. cbn.
    pose proof (count_values_replace is_pending _ _ _ (set_request_decision r d) Hr) as Hc.
    rewrite (decide_True _ _ Hp), (decide_False (P := is_pending _)) in Hc by done.
    pose proof (ok_capacity _ Hok). unfold pending_or_active_count in *. cbn. lia.
  - intros t' r'. cbn. intros [[-> <-]|[Hne Hr']]%lookup_insert_Some; [|by apply (ok_request _ Hok)].
    destruct (ok_request _ Hok _ _ Hr) as [[Ht Hv] _]. split; [by split|].
    rewrite (pending_no_grant _ _ _ Hok Hr Hp). split; [done|]. by intros [? ?].
  - intros t' g Hg. cbn in *. destruct (ok_grant _ Hok _ _ Hg) as (r'&Hr'&Hm).
    destruct (decide (t = t')) as [->|Hne]; [|rewrite lookup_insert_ne by done; eauto].
    rewrite (pending_no_grant _ _ _ Hok Hr Hp) in Hg. done.
  - split; [done|]. split; [cbn; lia|]. split; cbn; [|unfold grant_evolves; naive_solver].
    intros t' r' Hr'. destruct (decide (t = t')) as [<-|Hne].
    + rewrite lookup_insert_eq. simplify_eq. eexists. split; [done|]. right. eauto.
    + rewrite lookup_insert_ne by done. exists r'. split; [done|]. by left.
Qed.

Lemma allow_request_ok l t r :
  lifecycle_ok l → lc_requests l !! t = Some r → is_pending r →
  let l1 := set_requests l (<[t := set_request_decision r DAllowed]> (lc_requests l)) in
  let g := grant_of t r (pt_generation (pr_transfer r)) (lc_broker_generation l) in
  let l' := set_grants l1 (<[t := g]> (lc_grants l)) in
  lifecycle_ok l' ∧ evolves l l'.
Proof.
  intros Hok Hr Hp l1 g l'. pose proof (pending_no_grant _ _ _ Hok Hr Hp) as Hg. split; [split|].
  - unfold pending_or_active_count. cbn.
    pose proof (count_values_replace is_pending _ _ _ (set_request_decision r DAllowed) Hr) as Hc.
    rewrite (decide_True _ _ Hp), (decide_False (P := is_pending _)) in Hc by done.
    rewrite (count_values_fresh is_active _ _ g Hg), decide_True by done.
    pose proof (ok_capacity _ Hok). unfold pending_or_active_count in *. lia.
  - intros t' r'. cbn. intros [[-> <-]|[Hne Hr']]%lookup_insert_Some.
    + destruct (ok_request _ Hok _ _ Hr) as [[Ht Hv] _]. split; [by split|].
      rewrite lookup_insert_eq. split; [eauto|done].
    + rewrite lookup_insert_ne by done. by apply (ok_request _ Hok).
  - intros t' g'. cbn. intros [[-> <-]|[Hne Hg']]%lookup_insert_Some.
    + rewrite lookup_insert_eq. eexists. split; [done|]. by exists GActive, (lc_broker_generation l).
    + rewrite lookup_insert_ne by done. by apply (ok_grant _ Hok).
  - split; [done|]. split; [cbn; lia|]. split; cbn.
    + intros t' r' Hr'. destruct (decide (t = t')) as [<-|Hne].
      * rewrite lookup_insert_eq. simplify_eq. eexists. split; [done|]. right.
        split; [done|]. by exists DAllowed.
      * rewrite lookup_insert_ne by done. exists r'. split; [done|]. by left.
    + intros t' g' Hg'. rewrite lookup_insert_ne by congruence. exists g'. split; [done|]. by left.
Qed.

Lemma close_grant_ok l t g s :
  lifecycle_ok l → lc_grants l !! t = Some g → is_active g → s ≠ GActive →
  let l' := set_grants l (<[t := set_grant_state g s]> (lc_grants l)) in
  lifecycle_ok l' ∧ evolves l l'.
Proof.
  intros Hok Hg Ha Hs l'. split; [split|].
  - unfold pending_or_active_count. cbn.
    pose proof (count_values_replace is_active _ _ _ (set_grant_state g s) Hg) as Hc.
    rewrite (decide_True _ _ Ha), (decide_False (P := is_active _)) in Hc by done.
    pose proof (ok_capacity _ Hok). unfold pending_or_active_count in *. lia.
  - intros t' r Hr. cbn in *. destruct (ok_request _ Hok _ _ Hr) as [? Hiff]. split; [done|].
    rewrite Hiff. destruct (decide (t = t')) as [<-|]; [|by rewrite lookup_insert_ne].
    rewrite lookup_insert_eq, Hg. split; eauto.
  - intros t' g'. cbn. intros [[-> <-]|[Hne Hg']]%lookup_insert_Some; [|by apply (ok_grant _ Hok)].
    destruct (ok_grant _ Hok _ _ Hg) as (r&?&(s0&b&->&?&?)). exists r. split; [done|].
    exists s, b. split; [done|]. split; [done|]. done.
  - split; [done|]. split; [cbn; lia|]. split; cbn; [unfold request_evolves; naive_solver|].
    intros t' g' Hg'. destruct (decide (t = t')) as [<-|Hne].
    + rewrite lookup_insert_eq. simplify_eq. eexists. split; [done|]. right. eauto.
    + rewrite lookup_insert_ne by done. exists g'. split; [done|]. by left.
Qed.

Lemma swept_request_cases hit `{!∀ r, Decision (hit r)} r g :
  swept_request hit r g = r
  ∨ hit r ∧ g = None ∧ is_pending r ∧ swept_request hit r g = set_request_decision r DRevoked.
Proof. unfold swept_request. case_decide; naive_solver. Qed.
Lemma swept_grant_cases hit `{!∀ r, Decision (hit r)} closed r g :
  swept_grant hit closed r g = g
  ∨ hit r ∧ is_active g ∧ swept_grant hit closed r g = set_grant_state g closed.
Proof. unfold swept_grant. case_decide; naive_solver. Qed.

Lemma sweep_ok hit `{!∀ r, Decision (hit r)} closed l out l' :
  closed ≠ GActive → lifecycle_ok l → sweeps hit closed l out l' →
  lc_broker_generation l' = lc_broker_generation l → lc_capacity l' = lc_capacity l →
  lifecycle_ok l' ∧ evolves l l'.
Proof.
  intros Hc Hok (HR&HG&_&_) Hbg Hcap.
  assert (∀ t, is_Some (lc_grants l' !! t) ↔ is_Some (lc_grants l !! t)) as Hdom.
  { intros t. rewrite HG. apply fmap_is_Some. }
  split; [split|].
  - rewrite Hcap. pose proof (ok_capacity _ Hok) as Hn. unfold pending_or_active_count in *.
    pose proof (count_values_mono is_pending (lc_requests l) (lc_requests l')
      (λ t r, swept_request hit r (lc_grants l !! t)) HR) as H1.
    pose proof (count_values_mono is_active (lc_grants l) (lc_grants l')
      (λ t g, if lc_requests l !! t is Some r then swept_grant hit closed r g else g) HG) as H2.
    ospecialize (H1 _).
    { intros t r Hr. destruct (swept_request_cases hit r (lc_grants l !! t)) as [->|(?&?&?&->)];
        done. }
    ospecialize (H2 _).
    { intros t g Hg. destruct (lc_requests l !! t) as [r|]; [|done].
      destruct (swept_grant_cases hit closed r g) as [->|(?&?&->)]; done. }
    lia.
  - intros t r' Hr'. rewrite Hdom. rewrite HR in Hr'.
    destruct (lc_requests l !! t) as [r|] eqn:Hr; simplify_eq/=.
    destruct (ok_request _ Hok _ _ Hr) as [[Ht Hv] Hiff].
    destruct (swept_request_cases hit r (lc_grants l !! t)) as [->|(?&Hg&?&->)]; [done|].
    split; [by split|]. rewrite Hg. split; [done|]. by intros [? ?].
  - intros t g' Hg'. rewrite HG in Hg'. rewrite HR, Hbg.
    destruct (lc_grants l !! t) as [g|] eqn:Hg; simplify_eq/=.
    destruct (ok_grant _ Hok _ _ Hg) as (r&Hr&Hm). rewrite Hr. simpl.
    eexists. split; [done|].
    unfold swept_request. rewrite decide_False by naive_solver.
    destruct (swept_grant_cases hit closed r g) as [->|(?&?&->)]; [done|].
    destruct Hm as (s0&b&->&?&?). by exists closed, b.
  - split; [done|]. split; [lia|]. split.
    + intros t r Hr. rewrite HR, Hr. simpl. eexists. split; [done|].
      destruct (swept_request_cases hit r (lc_grants l !! t)) as [->|(?&?&?&->)]; [by left|].
      right. split; [done|]. by exists DRevoked.
    + intros t g Hg. rewrite HG, Hg. simpl. eexists. split; [done|].
      destruct (lc_requests l !! t) as [r|]; [|by left].
      destruct (swept_grant_cases hit closed r g) as [->|(?&?&->)]; [by left|].
      right. split; [done|]. by exists closed.
Qed.

(** ** Runs *)

Inductive LifecycleCall : Type :=
| CallSubmit (request : PortalRequest) (now_msec : Z)
| CallDecide (transfer : PortalTransferId) (decision : PortalPolicyDecision)
    (source_generation now_msec : Z)
| CallComplete (transfer : PortalTransferId)
| CallExecutorFailed (transfer : PortalTransferId)
| CallExpire (now_msec : Z)
| CallSourceOwnerChanged (source_namespace : NamespaceId) (generation : Z)
| CallNamespaceDisconnected (namespace : NamespaceId)
| CallBrokerRestarted (broker_generation : Z).

(** The state a call leaves, its result aside. *)
Definition or_unchanged (l : PortalRequestGrantLifecycle)
    (r : result PortalRequestGrantLifecycle PortalLifecycleError) : PortalRequestGrantLifecycle :=
  match r with Ok l' => l' | Err _ => l end.
Definition lifecycle_call (l : PortalRequestGrantLifecycle) (c : LifecycleCall) :
    PortalRequestGrantLifecycle :=
  match c with
  | CallSubmit r now => or_unchanged l (submit l r now)
  | CallDecide t d sg now => (decide_request l t d sg now).2
  | CallComplete t => or_unchanged l (complete l t)
  | CallExecutorFailed t => or_unchanged l (executor_failed l t)
  | CallExpire now => (expire l now).2
  | CallSourceOwnerChanged n g => (source_owner_changed l n g).2
  | CallNamespaceDisconnected n => (namespace_disconnected l n).2
  | CallBrokerRestarted g =>
      match broker_restarted l g with Ok (_, l') => l' | Err _ => l end
  end.
Definition lifecycle_run (l : PortalRequestGrantLifecycle) (cs : list LifecycleCall) :
    PortalRequestGrantLifecycle := foldl lifecycle_call l cs.

Lemma submit_ok l r now l' :
  lifecycle_ok l → submit l r now = Ok l' → lifecycle_ok l' ∧ evolves l l'.
Proof.
  intros Hok Hs. unfold submit in Hs. cbv zeta in Hs. res_inv Hs.
  set (t := pt_transfer (pr_transfer r)) in *.
  assert (lc_grants l !! t = None) as Hg.
  { destruct (lc_grants l !! t) eqn:E; [|done]. apply (ok_grant _ Hok) in E as (?&?&_). congruence. }
  split; [split|].
  - unfold pending_or_active_count in *. cbn. rewrite count_values_fresh by done. case_decide; lia.
  - intros t' r'. cbn. intros [[<- <-]|[Hne Hr']]%lookup_insert_Some; [|by apply (ok_request _ Hok)].
    unfold valid_request in *. cbv zeta in *. destruct H as (?&?&?&?&Hp&?&?).
    split; [done|]. rewrite Hg. unfold request_decision. rewrite Hp. split; [done|]. by intros [? ?].
  - intros t' g Hg'. cbn in *. rewrite lookup_insert_ne by congruence. by apply (ok_grant _ Hok).
  - split; [done|]. split; [cbn; lia|]. split; cbn; [|unfold grant_evolves; naive_solver].
    intros t' r' Hr'. rewrite lookup_insert_ne by congruence. exists r'. split; [done|]. by left.
Qed.

Lemma submit_inv l r now l' : submit l r now = Ok l' →
  valid_request r ∧ now < pr_deadline_msec r ∧ lc_requests l !! pt_transfer (pr_transfer r) = None
  ∧ pending_or_active_count l < lc_capacity l
  ∧ l' = set_requests l (<[pt_transfer (pr_transfer r) := r]> (lc_requests l)).
Proof. unfold submit. cbv zeta. intros Hs. by res_inv Hs. Qed.

Lemma decide_ok l t d sg now :
  lifecycle_ok l →
  lifecycle_ok (decide_request l t d sg now).2 ∧ evolves l (decide_request l t d sg now).2.
Proof.
  intros Hok. unfold decide_request. destruct (lc_requests l !! t) as [r|] eqn:Hr; [|done].
  cbv zeta. case_decide as Hp; [done|].
  case_decide; [by apply close_request_ok|].
  case_decide as Hg; [by apply close_request_ok|]. subst sg.
  destruct d; [exact (allow_request_ok l t r Hok Hr Hp)|by apply close_request_ok].
Qed.

Lemma decide_pending l t d r now :
  lc_requests l !! t = Some r → is_pending r → now < pr_deadline_msec r →
  decide_request l t d (pt_generation (pr_transfer r)) now =
    let write d := set_requests l (<[t := set_request_decision r d]> (lc_requests l)) in
    let g := grant_of t r (pt_generation (pr_transfer r)) (lc_broker_generation l) in
    match d with
    | PolicyDeny => (Ok None, write DDenied)
    | PolicyAllow => (Ok (Some g), set_grants (write DAllowed) (<[t := g]> (lc_grants l)))
    end.
Proof.
  intros Hr Hp Hd. unfold decide_request. rewrite Hr. cbv zeta. unfold is_pending in Hp.
  rewrite decide_False by tauto. rewrite decide_False by lia. rewrite decide_False by tauto.
  destruct d; [|done]. cbn. by rewrite lookup_insert_eq.
Qed.

Lemma active_grant_spec l t g :
  active_grant l t = Ok g ↔ lc_grants l !! t = Some g ∧ is_active g.
Proof.
  unfold active_grant, is_active. rewrite res_bind_ok. setoid_rewrite ok_or_ok.
  split; [intros (g'&?&?); case_decide; naive_solver|].
  intros [? ?]. exists g. by rewrite decide_True.
Qed.

Lemma sweep_closes hit `{!∀ r, Decision (hit r)} closed l out l' t r :
  closed ≠ GActive → sweeps hit closed l out l' → lc_requests l !! t = Some r → hit r →
  ∃ r', lc_requests l' !! t = Some r' ∧ ¬ live r' (lc_grants l' !! t).
Proof.
  intros Hc (HR&HG&_&_) Hr Hh. rewrite HR, HG, Hr. simpl. eexists. split; [done|].
  destruct (lc_grants l !! t) as [g|]; simpl.
  - unfold swept_grant, is_active. case_decide as Hd; simpl; [done|]. tauto.
  - unfold swept_request. case_decide as Hd; [done|]. tauto.
Qed.

(** With no active grant, the broker generation can advance. *)
Lemma advance_generation_ok l bg :
  lifecycle_ok l → (∀ t g, lc_grants l !! t = Some g → ¬ is_active g) →
  lc_broker_generation l ≤ bg →
  let l' := mk_lifecycle bg (lc_capacity l) (lc_requests l) (lc_grants l) in
  lifecycle_ok l' ∧ evolves l l'.
Proof.
  intros Hok Hn Hbg l'. split; [split|].
  - apply (ok_capacity _ Hok).
  - apply (ok_request _ Hok).
  - intros t g Hg. destruct (ok_grant _ Hok _ _ Hg) as (r&?&(s&b&->&?&?)). exists r. split; [done|].
    exists s, b. split; [done|]. cbn. split; [lia|]. intros ->. by destruct (Hn _ _ Hg).
  - split; [done|]. split; [done|]. unfold request_evolves, grant_evolves. naive_solver.
Qed.

Lemma revoke_all_closes l out l' :
  lifecycle_ok l → sweeps every_request GRevoked l out l' →
  ∀ t g, lc_grants l' !! t = Some g → ¬ is_active g.
Proof.
  intros Hok Hs t g Hg.
  assert (∃ r, lc_requests l !! t = Some r) as [r Hr].
  { destruct Hs as (_&HG&_). rewrite HG in Hg. destruct (lc_grants l !! t) eqn:E; [|done].
    apply (ok_grant _ Hok) in E as (r&?&_). eauto. }
  destruct (sweep_closes every_request GRevoked l out l' t r ltac:(done) Hs Hr I) as (r'&_&Hl). by rewrite Hg in Hl.
Qed.

Lemma lifecycle_call_ok l c :
  lifecycle_ok l → lifecycle_ok (lifecycle_call l c) ∧ evolves l (lifecycle_call l c).
Proof.
  intros Hok. destruct c as [r now|t d sg now|t|t|now|n g|n|g]; simpl.
  - destruct (submit l r now) eqn:E; [by eapply submit_ok|done].
  - by apply decide_ok.
  - unfold complete. destruct (active_grant l t) as [g|] eqn:E; simpl; [|done].
    apply active_grant_spec in E as [? ?]. by apply close_grant_ok.
  - unfold executor_failed. destruct (active_grant l t) as [g|] eqn:E; simpl; [|done].
    apply active_grant_spec in E as [? ?]. by apply close_grant_ok.
  - unfold expire. pose proof (run_sweep_spec _ _ _ l (expire_sweep now)) as Hs.
    destruct (run_sweep _ l) as [out l']. destruct Hs as (Hs&?&?). by refine (sweep_ok _ _ _ _ _ _ Hok Hs _ _).
  - unfold source_owner_changed, revoke_where.
    pose proof (run_sweep_spec _ _ _ l (revoke_sweep (owned_by_stale n g))) as Hs.
    destruct (run_sweep _ l) as [out l']. destruct Hs as (Hs&?&?). by refine (sweep_ok _ _ _ _ _ _ Hok Hs _ _).
  - unfold namespace_disconnected, revoke_where.
    pose proof (run_sweep_spec _ _ _ l (revoke_sweep (touches n))) as Hs.
    destruct (run_sweep _ l) as [out l']. destruct Hs as (Hs&?&?). by refine (sweep_ok _ _ _ _ _ _ Hok Hs _ _).
  - unfold broker_restarted, revoke_where. case_decide as Hg; [|done].
    pose proof (run_sweep_spec _ _ _ l (revoke_sweep every_request)) as Hs.
    destruct (run_sweep _ l) as [out l'] eqn:E. destruct Hs as (Hs&Hb&Hc).
    destruct (sweep_ok every_request GRevoked l out l' ltac:(done) Hok Hs Hb Hc) as [Hok' He].
    destruct (advance_generation_ok l' g Hok' (revoke_all_closes _ _ _ Hok Hs)) as [? He']; [lia|].
    split; [done|]. by etrans.
Qed.

Lemma lifecycle_run_ok l cs :
  lifecycle_ok l → lifecycle_ok (lifecycle_run l cs) ∧ evolves l (lifecycle_run l cs).
Proof.
  revert l. induction cs as [|c cs IH]; intros l Hok; simpl; [done|].
  destruct (lifecycle_call_ok l c Hok) as [Hok1 He1]. destruct (IH _ Hok1) as [? He2].
  split; [done|]. by etrans.
Qed.

Lemma with_capacity_ok bg cap l : 0 ≤ cap → with_capacity bg cap = Ok l → lifecycle_ok l.
Proof.
  unfold with_capacity. intros Hcap. case_decide; [done|]. intros [= <-]. split; cbn; [|done|done].
  unfold pending_or_active_count. cbn. by rewrite !count_values_empty.
Qed.

(** ** Properties *)

(** C3: grants are backed and bounded.  In every state reached from a new
    lifecycle by any calls at any times, whether they succeeded or failed: at most
    [capacity] transfers are pending or active; a transfer has a grant exactly
    when its stored request was allowed; the grant carries that request's
    namespaces (valid and different), kind, generation and deadline; and an
    active grant is one of the current broker generation. *)
Theorem portal_grants_backed (bg cap : Z) (l0 : PortalRequestGrantLifecycle) (cs : list LifecycleCall) :
  0 ≤ cap → with_capacity bg cap = Ok l0 →
  let l := lifecycle_run l0 cs in
  pending_or_active_count l ≤ cap
  ∧ (∀ t r, lc_requests l !! t = Some r →
       request_ok t r ∧ (request_decision r = DAllowed ↔ is_Some (lc_grants l !! t)))
  ∧ (∀ t g, lc_grants l !! t = Some g → ∃ r,
       lc_requests l !! t = Some r ∧ pg_transfer g = t
       ∧ pg_source_namespace g = pt_source_namespace (pr_transfer r)
       ∧ pg_target_namespace g = pt_target_namespace (pr_transfer r)
       ∧ pg_source_namespace g ≠ pg_target_namespace g
       ∧ pg_kind g = pt_kind (pr_transfer r)
       ∧ pg_source_generation g = pt_generation (pr_transfer r)
       ∧ pg_deadline_msec g = pr_deadline_msec r
       ∧ pg_broker_generation g ≤ lc_broker_generation l
       ∧ (is_active g → pg_broker_generation g = lc_broker_generation l)).
Proof.
  intros Hcap H0 l. pose proof (with_capacity_ok _ _ _ Hcap H0) as Hok0.
  destruct (lifecycle_run_ok l0 cs Hok0) as [Hok He]. fold l in Hok, He.
  split; [|split; [apply (ok_request _ Hok)|]].
  - pose proof (ok_capacity _ Hok) as Hc. rewrite (proj1 He) in Hc.
    unfold with_capacity in H0. case_decide; [done|]. by simplify_eq/=.
  - intros t g Hg. destruct (ok_grant _ Hok _ _ Hg) as (r&Hr&(s&b&->&?&?)).
    destruct (ok_request _ Hok _ _ Hr) as [[_ (_&_&_&Hne&_)] _]. exists r. by repeat split.
Qed.

Definition example_transfer (t : Z) : PortalTransfer :=
  mk_transfer (from_raw t) (from_raw 1) (from_raw 2) KClipboard None 16 DPending 5.
Definition example_calls : list LifecycleCall :=
  [CallSubmit (mk_portal_request (example_transfer 7) 100) 0;
   CallDecide (from_raw 7) PolicyAllow 5 10;
   CallSubmit (mk_portal_request (example_transfer 8) 100) 20].
Lemma portal_grants_backed_witness :
  let l := lifecycle_run (mk_lifecycle 3 2 ∅ ∅) example_calls in
  pending_or_active_count l = 2 ∧ pending_or_active_count l ≤ 2
  ∧ is_Some (lc_grants l !! (from_raw 7 : PortalTransferId)).
Proof.
  destruct (portal_grants_backed 3 2 (mk_lifecycle 3 2 ∅ ∅) example_calls ltac:(lia) eq_refl)
    as (Hc&Hr&_).
  split; [vm_compute; reflexivity|]. split; [exact Hc|].
  destruct (lc_requests (lifecycle_run (mk_lifecycle 3 2 ∅ ∅) example_calls)
    !! (from_raw 7 : PortalTransferId)) as [r|] eqn:E; [|vm_compute in E; discriminate].
  apply (Hr _ _ E). vm_compute in E. by injection E as <-.
Defined.

(** C4: decisions are final.  From any reachable state, whatever is called
    afterwards, no request or grant is ever forgotten or replaced: a request that
    is no longer pending stays exactly as it is, a pending one only has its
    decision changed; a grant that is no longer active stays exactly as it is, an
    active one only has its state changed.  In particular a denied or revoked
    request is never granted and a completed, revoked or expired grant never
    becomes active again. *)
Theorem portal_decisions_final (bg cap : Z) (l0 : PortalRequestGrantLifecycle)
    (cs cs' : list LifecycleCall) :
  0 ≤ cap → with_capacity bg cap = Ok l0 →
  let l := lifecycle_run l0 cs in
  let l' := lifecycle_run l cs' in
  (∀ t r, lc_requests l !! t = Some r → ∃ r', lc_requests l' !! t = Some r'
     ∧ (r' = r ∨ is_pending r ∧ ¬ is_pending r' ∧ r' = set_request_decision r (request_decision r')))
  ∧ (∀ t g, lc_grants l !! t = Some g → ∃ g', lc_grants l' !! t = Some g'
     ∧ (g' = g ∨ is_active g ∧ ¬ is_active g' ∧ g' = set_grant_state g (pg_state g'))).
Proof.
  intros Hcap H0 l l'. pose proof (with_capacity_ok _ _ _ Hcap H0) as Hok0.
  destruct (lifecycle_run_ok l0 cs Hok0) as [Hok _]. fold l in Hok.
  destruct (lifecycle_run_ok l cs' Hok) as [_ (_&_&HR&HG)]. split.
  - intros t r (r'&Hr'&[->|(Hp&d&Hd&->)])%HR; (eexists; split; [exact Hr'|]); [by left|].
    right. split; [done|]. split; [|done]. done.
  - intros t g (g'&Hg'&[->|(Hp&s&Hs&->)])%HG; (eexists; split; [exact Hg'|]); [by left|].
    right. split; [done|]. split; [|done]. done.
Qed.

Lemma portal_decisions_final_witness :
  let l := lifecycle_run (mk_lifecycle 3 2 ∅ ∅) example_calls in
  ∃ g, lc_grants (lifecycle_run l [CallExpire 100; CallComplete (from_raw 7)])
         !! (from_raw 7 : PortalTransferId) = Some g ∧ pg_state g = GExpired.
Proof.
  destruct (portal_decisions_final 3 2 (mk_lifecycle 3 2 ∅ ∅)
    (example_calls ++ [CallExpire 100]) [CallComplete (from_raw 7)] ltac:(lia) eq_refl) as [_ Hg].
  destruct (lc_grants (lifecycle_run (mk_lifecycle 3 2 ∅ ∅) (example_calls ++ [CallExpire 100]))
    !! (from_raw 7 : PortalTransferId)) as [g|] eqn:E; [|vm_compute in E; discriminate].
  destruct (Hg _ _ E) as (g'&Hg'&Hc). exists g'. split; [exact Hg'|].
  vm_compute in E. injection E as <-. destruct Hc as [->|[Ha _]]; [reflexivity|discriminate Ha].
Defined.

(** Only an approval grants.  In a reachable state, a call makes a grant
    appear only if it is [decide] with [Allow] on a stored pending request, before
    its deadline and naming the request's source generation; the grant is that
    request's. *)
Theorem grant_only_by_approval (bg cap : Z) (l0 : PortalRequestGrantLifecycle)
    (cs : list LifecycleCall) (c : LifecycleCall) (t : PortalTransferId) (g : PortalGrant) :
  0 ≤ cap → with_capacity bg cap = Ok l0 →
  let l := lifecycle_run l0 cs in
  lc_grants l !! t = None → lc_grants (lifecycle_call l c) !! t = Some g →
  ∃ r sg now, c = CallDecide t PolicyAllow sg now ∧ lc_requests l !! t = Some r
    ∧ is_pending r ∧ now < pr_deadline_msec r ∧ pt_generation (pr_transfer r) = sg
    ∧ g = grant_of t r sg (lc_broker_generation l).
Proof.
  intros Hcap H0 l Hn Hg.
  assert (∀ t' g0 s, lc_grants l !! t' = Some g0 →
    <[t' := set_grant_state g0 s]> (lc_grants l) !! t = Some g → False) as Hclose.
  { intros t' g0 s H1 [[-> _]|[_ H2]]%lookup_insert_Some; congruence. }
  assert (∀ body hit (Hd : ∀ r, Decision (hit r)) closed,
    (∀ acc entry, body acc entry = sweep_entry hit closed acc entry) →
    lc_grants (run_sweep body l).2 !! t = Some g → False) as Hsweep.
  { intros body hit Hd closed Hb Hs. pose proof (run_sweep_spec body hit closed l Hb) as Hspec.
    destruct (run_sweep body l) as [out l']. destruct Hspec as ((_&HG&_)&_). cbn in Hs.
    by rewrite HG, Hn in Hs. }
  destruct c as [r now|t' d sg now|t'|t'|now|n ge|n|ge]; simpl in Hg.
  - unfold submit in Hg. cbv zeta in Hg. repeat case_decide; simpl in Hg; congruence.
  - unfold decide_request in Hg. cbv zeta in Hg.
    destruct (lc_requests l !! t') as [r|] eqn:Hr; [|simpl in Hg; congruence].
    repeat case_decide; simpl in Hg; try congruence.
    destruct d; simpl in Hg; [|congruence].
    apply lookup_insert_Some in Hg as [[-> <-]|[_ Hg]]; [|congruence].
    exists r, sg, now. repeat split; try done. lia.
  - unfold complete in Hg. destruct (active_grant l t') as [g0|] eqn:E; simpl in Hg; [|congruence].
    apply active_grant_spec in E as [? _]. exfalso. by eapply Hclose.
  - unfold executor_failed in Hg.
    destruct (active_grant l t') as [g0|] eqn:E; simpl in Hg; [|congruence].
    apply active_grant_spec in E as [? _]. exfalso. by eapply Hclose.
  - exfalso. by eapply (Hsweep _ _ _ _ (expire_sweep now)).
  - exfalso. by eapply (Hsweep _ _ _ _ (revoke_sweep _)).
  - exfalso. by eapply (Hsweep _ _ _ _ (revoke_sweep _)).
  - exfalso. unfold broker_restarted in Hg. case_decide; [|congruence].
    eapply (Hsweep _ _ _ _ (revoke_sweep every_request)). unfold revoke_where in Hg.
    by destruct (run_sweep _ l) as [out l'].
Qed.

Lemma grant_only_by_approval_witness :
  ∃ r, is_pending r
    ∧ lc_requests (lifecycle_run (mk_lifecycle 3 2 ∅ ∅) (take 1 example_calls))
        !! (from_raw 7 : PortalTransferId) = Some r.
Proof.
  destruct (grant_only_by_approval 3 2 (mk_lifecycle 3 2 ∅ ∅) (take 1 example_calls)
    (CallDecide (from_raw 7) PolicyAllow 5 10) (from_raw 7)
    (grant_of (from_raw 7) (mk_portal_request (example_transfer 7) 100) 5 3)
    ltac:(lia) eq_refl ltac:(vm_compute; reflexivity) ltac:(vm_compute; reflexivity))
    as (r&sg&now&_&Hr&Hp&_).
  exists r. split; [exact Hp|exact Hr].
Defined.

(** ** Revocation is exact *)

(** Exactly the live transfers whose request is hit are reported, each once, in
    order; they are closed; no other transfer changes. *)
Definition closes_exactly (hit : PortalRequest → Prop) (closed : PortalGrantState)
    (l : PortalRequestGrantLifecycle) (out : list PortalTransferId)
    (l' : PortalRequestGrantLifecycle) : Prop :=
  (∀ t, t ∈ out ↔ ∃ r, lc_requests l !! t = Some r ∧ hit r ∧ live r (lc_grants l !! t))
  ∧ NoDup out ∧ StronglySorted key_le out
  ∧ (∀ t, t ∉ out → lc_requests l' !! t = lc_requests l !! t ∧ lc_grants l' !! t = lc_grants l !! t)
  ∧ (∀ t r, t ∈ out → lc_requests l !! t = Some r →
       match lc_grants l !! t with
       | Some g => lc_requests l' !! t = Some r ∧ lc_grants l' !! t = Some (set_grant_state g closed)
       | None => lc_requests l' !! t = Some (set_request_decision r DRevoked) ∧ lc_grants l' !! t = None
       end).

Lemma sweeps_closes_exactly hit `{!∀ r, Decision (hit r)} closed l out l' :
  lifecycle_ok l → sweeps hit closed l out l' → closes_exactly hit closed l out l'.
Proof.
  intros Hok (HR&HG&Hout&Hnd&Hst). split; [done|]. split; [done|]. split; [done|]. split.
  - intros t Ht. rewrite Hout in Ht. rewrite HR, HG.
    destruct (lc_requests l !! t) as [r|] eqn:Hr; simpl; [|by destruct (lc_grants l !! t)].
    destruct (lc_grants l !! t) as [g|] eqn:Hg; simpl; split; try done; f_equal.
    + unfold swept_request. rewrite decide_False; naive_solver.
    + unfold swept_grant. rewrite decide_False; [done|]. intros [? ?]. apply Ht. eauto.
    + unfold swept_request. rewrite decide_False; [done|]. intros (?&_&?). apply Ht. eauto.
  - intros t r Ht Hr. apply Hout in Ht as (r'&Hr'&Hh&Hl). simplify_eq.
    pose proof (HR t) as H1. pose proof (HG t) as H2. rewrite Hr' in H1, H2.
    destruct (lc_grants l !! t) as [g|] eqn:Hg; simpl in *.
    + rewrite H1, H2. unfold swept_request, swept_grant.
      rewrite decide_False by naive_solver. by rewrite decide_True.
    + rewrite H1, H2. unfold swept_request. by rewrite decide_True.
Qed.

(** Revocation is exact.  In a reachable state: [expire] closes exactly the
    live transfers whose deadline has come (grants become expired);
    [source_owner_changed] those of that source with another generation;
    [namespace_disconnected] those of which the namespace is either end;
    [broker_restarted], with a newer generation, all of them, and with any other
    it changes nothing.  Each reports exactly the transfers it closed. *)
Theorem revocation_exact (bg cap : Z) (l0 : PortalRequestGrantLifecycle) (cs : list LifecycleCall) :
  0 ≤ cap → with_capacity bg cap = Ok l0 →
  let l := lifecycle_run l0 cs in
  (∀ now, let '(out, l') := expire l now in
     closes_exactly (λ r, pr_deadline_msec r ≤ now) GExpired l out l')
  ∧ (∀ n g, let '(out, l') := source_owner_changed l n g in
     closes_exactly (owned_by_stale n g) GRevoked l out l')
  ∧ (∀ n, let '(out, l') := namespace_disconnected l n in
     closes_exactly (touches n) GRevoked l out l')
  ∧ (∀ g, match broker_restarted l g with
          | Ok (out, l') => lc_broker_generation l < g ∧ lc_broker_generation l' = g
              ∧ closes_exactly every_request GRevoked l out l'
              ∧ pending_or_active_count l' = 0
          | Err e => e = InvalidBrokerGeneration ∧ g ≤ lc_broker_generation l
          end).
Proof.
  intros Hcap H0 l. pose proof (with_capacity_ok _ _ _ Hcap H0) as Hok0.
  destruct (lifecycle_run_ok l0 cs Hok0) as [Hok _]. fold l in Hok. clearbody l.
  unfold expire, source_owner_changed, namespace_disconnected, broker_restarted, revoke_where.
  split; [|split; [|split]].
  - intros now. pose proof (run_sweep_spec _ _ _ l (expire_sweep now)) as Hs.
    destruct (run_sweep _ l) as [out l']. apply (sweeps_closes_exactly _ _ _ _ _ Hok), Hs.
  - intros n g. pose proof (run_sweep_spec _ _ _ l (revoke_sweep (owned_by_stale n g))) as Hs.
    destruct (run_sweep _ l) as [out l']. apply (sweeps_closes_exactly _ _ _ _ _ Hok), Hs.
  - intros n. pose proof (run_sweep_spec _ _ _ l (revoke_sweep (touches n))) as Hs.
    destruct (run_sweep _ l) as [out l']. apply (sweeps_closes_exactly _ _ _ _ _ Hok), Hs.
  - intros g. case_decide as Hg; [|split; [done|lia]].
    pose proof (run_sweep_spec _ _ _ l (revoke_sweep every_request)) as Hs.
    destruct (run_sweep _ l) as [out l']. destruct Hs as (Hs&_&_).
    split; [done|]. split; [done|]. split; [exact (sweeps_closes_exactly _ _ _ _ _ Hok Hs)|].
    unfold pending_or_active_count. cbn.
    assert (∀ (m : gmap PortalTransferId PortalGrant), (∀ t g, m !! t = Some g → ¬ is_active g) →
      count_values is_active m = 0) as Hz1 by (intros m Hm; by apply (count_values_zero is_active m)).
    rewrite (Hz1 _ (revoke_all_closes _ _ _ Hok Hs)).
    rewrite (count_values_zero is_pending (lc_requests l')); [done|]. intros t r' Hr'.
    destruct Hs as (HR&_). rewrite HR in Hr'.
    destruct (lc_requests l !! t) as [r|] eqn:Hr; simplify_eq/=.
    destruct (swept_request_cases every_request r (lc_grants l !! t)) as [Heq|(_&_&_&->)]; [|done].
    unfold swept_request in *. case_decide as Hd; [done|].
    intros Hp. apply Hd. split; [done|]. split; [|done]. by apply (pending_no_grant _ _ r).
Qed.

Lemma revocation_exact_witness :
  let l := lifecycle_run (mk_lifecycle 3 2 ∅ ∅) example_calls in
  (namespace_disconnected l (from_raw 2)).1 = [from_raw 7; from_raw 8]
  ∧ closes_exactly (touches (from_raw 2)) GRevoked l [from_raw 7; from_raw 8]
      (namespace_disconnected l (from_raw 2)).2.
Proof.
  destruct (revocation_exact 3 2 (mk_lifecycle 3 2 ∅ ∅) example_calls ltac:(lia) eq_refl)
    as (_&_&H&_).
  specialize (H (from_raw 2)). cbv zeta.
  assert ((namespace_disconnected (lifecycle_run (mk_lifecycle 3 2 ∅ ∅) example_calls)
    (from_raw 2)).1 = [from_raw 7; from_raw 8]) as E by (vm_compute; reflexivity).
  split; [exact E|].
  destruct (namespace_disconnected _ _) as [out l']. simpl in E. subst out. exact H.
Defined.

(** What [submit] followed by [decide] leaves, once [submit] accepts. *)
Lemma broker_request_accepted b request admission now l1 :
  submit (bk_lifecycle b) request now = Ok l1 →
  let t := pt_transfer (pr_transfer request) in
  let write d := set_requests l1 (<[t := set_request_decision request d]> (lc_requests l1)) in
  let g := grant_of t request (pt_generation (pr_transfer request))
             (lc_broker_generation (bk_lifecycle b)) in
  broker_request b request admission now =
  if decide (bk_policy b = HeadlessAllow ∧ source_may_publish admission = true
             ∧ target_may_request admission = true)
  then (Ok (BrokerAllowed g), mk_broker (bk_policy b)
          (set_grants (write DAllowed) (<[t := g]> (lc_grants (bk_lifecycle b)))))
  else (Ok BrokerDenied, mk_broker (bk_policy b) (write DDenied)).
Proof.
  intros Hs t write g. unfold broker_request. rewrite Hs.
  apply submit_inv in Hs as (Hv&H0&_&_&->). fold t.
  assert (is_pending request) as Hp by (apply Hv).
  rewrite decide_pending by (done || apply lookup_insert_eq).
  assert (admission_allowed admission && bool_decide (bk_policy b = HeadlessAllow) = true ↔
    bk_policy b = HeadlessAllow ∧ source_may_publish admission = true
    ∧ target_may_request admission = true) as Hiff.
  { unfold admission_allowed. rewrite !andb_true_iff, bool_decide_eq_true. tauto. }
  destruct (admission_allowed admission && _) eqn:Ha; simpl;
    [rewrite decide_True by tauto|rewrite decide_False by naive_solver]; done.
Qed.
(** No request is pending between two requests of the broker. *)
Definition nothing_pending (l : PortalRequestGrantLifecycle) : Prop :=
  ∀ t r, lc_requests l !! t = Some r → ¬ is_pending r.
Lemma broker_request_preserves b request admission now :
  lifecycle_ok (bk_lifecycle b) → nothing_pending (bk_lifecycle b) →
  let b' := (broker_request b request admission now).2 in
  bk_policy b' = bk_policy b ∧ lifecycle_ok (bk_lifecycle b')
  ∧ evolves (bk_lifecycle b) (bk_lifecycle b') ∧ nothing_pending (bk_lifecycle b').
Proof.
  intros Hok Hnp b'. subst b'. destruct (submit (bk_lifecycle b) request now) as [l1|e] eqn:Hs.
  2: { unfold broker_request. rewrite Hs. simpl. by destruct b. }
  pose proof (submit_ok _ _ _ _ Hok Hs) as [Hok1 He1].
  set (t := pt_transfer (pr_transfer request)).
  pose proof (λ d, decide_ok l1 t d (pt_generation (pr_transfer request)) now Hok1) as Hd.
  rewrite (broker_request_accepted _ _ _ _ l1 Hs). fold t.
  apply submit_inv in Hs as (Hv&H0&_&_&->). fold t in Hok1, He1, Hd |- *.
  assert (is_pending request) as Hp by (apply Hv).
  assert (∀ d, d ≠ DPending →
    nothing_pending (set_requests (bk_lifecycle b)
      (<[t := set_request_decision request d]> (<[t := request]> (lc_requests (bk_lifecycle b)))))) as Hnp'.
  { intros d Hne t' r. cbn. intros [[<- <-]|[Hne' Hr]]%lookup_insert_Some; [done|].
    rewrite lookup_insert_ne in Hr by done. by apply (Hnp t'). }
  case_decide; simpl; (split; [done|]).
  - pose proof (Hd PolicyAllow) as [Ho He]. rewrite decide_pending in Ho, He by (done || apply lookup_insert_eq).
    split; [exact Ho|]. split; [etrans; [exact He1|exact He]|]. exact (Hnp' DAllowed ltac:(done)).
  - pose proof (Hd PolicyDeny) as [Ho He]. rewrite decide_pending in Ho, He by (done || apply lookup_insert_eq).
    split; [exact Ho|]. split; [etrans; [exact He1|exact He]|]. exact (Hnp' DDenied ltac:(done)).
Qed.

(** The broker fails closed.  In every well-formed broker state in which no
    request is pending (a new broker's is one, and a request leaves it so), a
    request is allowed only if the policy allows, the source may publish and the target may request, and the request is
    valid, new, in time and within capacity; the grant is then that request's and
    active.  A well-formed request that lacks any of the permissions is denied.
    Whatever the outcome, no request is left pending. *)
Theorem broker_fails_closed (b : DeterministicPortalBroker) (request : PortalRequest)
    (admission : PortalCapabilityAdmission) (now : Z) :
  lifecycle_ok (bk_lifecycle b) →
  nothing_pending (bk_lifecycle b) →
  let l := bk_lifecycle b in
  let t := pt_transfer (pr_transfer request) in
  let '(outcome, b') := broker_request b request admission now in
  bk_policy b' = bk_policy b
  ∧ lifecycle_ok (bk_lifecycle b') ∧ evolves l (bk_lifecycle b')
  ∧ nothing_pending (bk_lifecycle b')
  ∧ match outcome with
    | Ok decision =>
        valid_request request ∧ now < pr_deadline_msec request ∧ lc_requests l !! t = None
        ∧ pending_or_active_count l < lc_capacity l
        ∧ if decide (bk_policy b = HeadlessAllow ∧ source_may_publish admission = true
                     ∧ target_may_request admission = true)
          then decision = BrokerAllowed (grant_of t request (pt_generation (pr_transfer request))
                                           (lc_broker_generation l))
          else decision = BrokerDenied ∧ lc_grants (bk_lifecycle b') = lc_grants l
    | Err e => submit l request now = Err e ∧ b' = b
    end.
Proof.
  intros Hok Hnp l t. pose proof (broker_request_preserves b request admission now Hok Hnp) as Hb.
  cbv zeta in Hb. destruct (submit l request now) as [l1|e] eqn:Hs.
  - rewrite (broker_request_accepted _ _ _ _ l1 Hs) in Hb |- *. fold l t in Hb |- *.
    apply submit_inv in Hs as (Hv&H0&H1&H2&->).
    case_decide; cbn [fst snd] in Hb; destruct Hb as (?&?&?&?); naive_solver.
  - unfold broker_request in Hb |- *. fold l in Hb |- *. rewrite Hs in Hb |- *.
    destruct Hb as (?&?&?&?). naive_solver.
Qed.

Lemma broker_fails_closed_witness :
  let b := mk_broker HeadlessAllow (mk_lifecycle 3 64 ∅ ∅) in
  let request := mk_portal_request (example_transfer 7) 100 in
  (broker_request b request (mk_capability_admission true false) 10).1 = Ok BrokerDenied
  ∧ valid_request request.
Proof.
  assert (lifecycle_ok (mk_lifecycle 3 64 ∅ ∅)) as Hok
    by (apply (with_capacity_ok 3 64); [lia|reflexivity]).
  pose proof (broker_fails_closed (mk_broker HeadlessAllow (mk_lifecycle 3 64 ∅ ∅))
    (mk_portal_request (example_transfer 7) 100) (mk_capability_admission true false) 10 Hok
    ltac:(intros t r Hr; vm_compute in Hr; discriminate)) as H.
  cbv zeta in *. split; [vm_compute; reflexivity|].
  destruct (broker_request _ _ _ _) as [outcome b'] eqn:E.
  assert (outcome = Ok BrokerDenied) as -> by (vm_compute in E; injection E as <- _; reflexivity).
  apply H.
Defined.
