(* ===== verification/PortalServer.v ===== *)
(** * The portal broker's socket server and its clients
    ([sophia-portal/src/socket.rs])

    The two bounded server loops over the deterministic broker, and the client
    side of both exchanges.  A client of the server is the bytes its stream will
    still deliver and whether the server can write to it; a [connect] or a write
    of the client side is a result.  The listener hands out the clients in order;
    a server whose next client has not come is still waiting in [accept]. *)

From stdpp Require Import strings.
From S2P Require Import Prelude Ids PortalPackets Errors Text Codec IpcWm IpcPortal Lifecycle.
Local Open Scope Z_scope.

(** Which step failed; the message texts are not modelled. *)
Inductive PortalBrokerSocketError : Type :=
| ZeroRequestBound | RemoveStaleSocket | BindSocket | RestrictSocket
| CreateBroker (e : PortalLifecycleError) | AcceptClient
| SocketReadHeader | SocketPayloadExceedsBound | SocketReadPayload
| SocketDecodeRequest (e : IpcCodecError) | SocketEncodeResponse (e : IpcCodecError)
| WriteResponse
| RevokeDisconnectedExecutor (e : PortalLifecycleError) | DecodeClipboardPayload (e : IpcCodecError)
| RevokeFailedExecutor (e : PortalLifecycleError) | CompleteTransfer (e : PortalLifecycleError)
| Connect | SocketEncodeRequest (e : IpcCodecError) | WriteRequest
| SocketDecodeResponse (e : IpcCodecError)
| DeniedClipboardPayload | EncodePayload (e : IpcCodecError) | PayloadAlreadySent | WritePayload.

(** ** Reading a frame *)

Definition read_frame (stream : list Z) : result (list Z * list Z) PortalBrokerSocketError :=
  let? '(header, stream) := ok_or (stream_read_exact SOPHIA_IPC_HEADER_LEN stream) SocketReadHeader in
  let payload_len := from_le_bytes (take 4 (drop 16 header)) in
  ensure! (payload_len ≤ SOPHIA_IPC_MAX_PAYLOAD_LEN) else SocketPayloadExceedsBound in
  let? '(payload, stream) := ok_or (stream_read_exact payload_len stream) SocketReadPayload in
  Ok (header ++ payload, stream).

(** ** The servers *)

Record PortalClient : Type := mk_portal_client { pc_incoming : list Z; pc_writable : bool }.

Definition granted (decision : PortalBrokerDecision) : option PortalGrant :=
  match decision with BrokerAllowed grant => Some grant | BrokerDenied => None end.
Definition response_of (transfer : PortalTransferId) (grant : option PortalGrant) :
    PortalBrokerResponsePacket :=
  mk_broker_response transfer
    (match grant with None => RespDenied | Some grant => RespAllowed grant end).

Definition read_request (stream : list Z) :
    result (PortalBrokerRequestPacket * list Z) PortalBrokerSocketError :=
  let? '(frame, stream) := read_frame stream in
  let? request := map_err SocketDecodeRequest (decode_portal_broker_request_frame frame) in
  Ok (request, stream).

(** The broker's answer; an error of the broker is a denial. *)
Definition broker_answer (broker : DeterministicPortalBroker) (request : PortalBrokerRequestPacket)
    (now_msec : Z) : option PortalGrant * DeterministicPortalBroker :=
  let '(decision, broker) :=
    broker_request broker (bq_request request)
      (mk_capability_admission (bq_source_may_publish request) (bq_target_may_request request))
      now_msec in
  (granted (match decision with Ok decision => decision | Err _ => BrokerDenied end), broker).

(** Both servers begin a client this way: read, decide, encode, write.  The
    transfer, its grant, the bytes written and the rest of the stream. *)
Definition answer_client (broker : DeterministicPortalBroker) (client : PortalClient) (now_msec : Z) :
    result (PortalTransferId * option PortalGrant * list Z * list Z) PortalBrokerSocketError
    * DeterministicPortalBroker :=
  match read_request (pc_incoming client) with
  | Err e => (Err e, broker)
  | Ok (request, stream) =>
      let transfer := pt_transfer (pr_transfer (bq_request request)) in
      let '(grant, broker) := broker_answer broker request now_msec in
      let response := response_of transfer grant in
      ((let? frame := map_err SocketEncodeResponse (encode_portal_broker_response_frame response) in
        ensure! (pc_writable client = true) else WriteResponse in
        Ok (transfer, grant, frame, stream)), broker)
  end.

(** The loop over [0..max_requests].  [None]: no client has come yet. *)
Fixpoint serve_clients {St} (serve : St → PortalClient → result unit PortalBrokerSocketError * St)
    (max_requests : nat) (clients : list (option PortalClient)) (s : St) :
    option (result unit PortalBrokerSocketError) * St :=
  match max_requests, clients with
  | O, _ => (Some (Ok tt), s)
  | _, [] => (None, s)
  | _, None :: _ => (Some (Err AcceptClient), s)
  | S max_requests, Some client :: clients =>
      match serve s client with
      | (Err e, s) => (Some (Err e), s)
      | (Ok _, s) => serve_clients serve max_requests clients s
      end
  end.

(** The broker and the frames written, one per client answered. *)
Record BrokerServer : Type := mk_broker_server {
  bs_broker : DeterministicPortalBroker; bs_written : list (list Z);
}.
Definition serve_broker_client (now_msec : Z) (s : BrokerServer) (client : PortalClient) :
    result unit PortalBrokerSocketError * BrokerServer :=
  let '(answer, broker) := answer_client (bs_broker s) client now_msec in
  match answer with
  | Err e => (Err e, mk_broker_server broker (bs_written s))
  | Ok (_, _, frame, _) => (Ok tt, mk_broker_server broker (bs_written s ++ [frame]))
  end.

(** [listen] is the outcome of removing a stale socket, binding and restricting. *)
Definition run_portal_broker_socket_server_bounded (listen : result unit PortalBrokerSocketError)
    (broker_generation : Z) (policy : HeadlessPortalPolicy) (now_msec max_requests : Z)
    (clients : list (option PortalClient)) :
    option (result unit PortalBrokerSocketError) * option BrokerServer :=
  if decide (max_requests = 0) then (Some (Err ZeroRequestBound), None)
  else
    match (let? _u := listen in map_err CreateBroker (broker_new broker_generation policy)) with
    | Err e => (Some (Err e), None)
    | Ok broker =>
        let '(r, s) := serve_clients (serve_broker_client now_msec) (Z.to_nat max_requests) clients
                         (mk_broker_server broker []) in
        (r, Some s)
    end.
Definition run_portal_broker_socket_server_once (listen : result unit PortalBrokerSocketError)
    (broker_generation : Z) (policy : HeadlessPortalPolicy) (now_msec : Z)
    (clients : list (option PortalClient)) :
    option (result unit PortalBrokerSocketError) * option BrokerServer :=
  run_portal_broker_socket_server_bounded listen broker_generation policy now_msec 1 clients.

(** ** The clipboard server *)

(** [executor] is a closure over a world: whether it succeeded, and the world. *)
Definition Executor (W : Type) : Type := W → PortalGrant → list Z → bool * W.
Record ClipboardServer (W : Type) : Type := mk_clipboard_server {
  cs_broker : DeterministicPortalBroker; cs_written : list (list Z); cs_world : W;
}.
Arguments mk_clipboard_server {W}.
Arguments cs_broker {W}.
Arguments cs_written {W}.
Arguments cs_world {W}.

(** [?] on an operation of the broker. *)
Definition broker_step {W} (error : PortalLifecycleError → PortalBrokerSocketError)
    (r : result DeterministicPortalBroker PortalLifecycleError) (s : ClipboardServer W) :
    result unit PortalBrokerSocketError * ClipboardServer W :=
  match r with
  | Err e => (Err (error e), s)
  | Ok broker => (Ok tt, mk_clipboard_server broker (cs_written s) (cs_world s))
  end.

(** The payload of an allowed transfer: [if let Some(grant) = grant]. *)
Definition execute_transfer {W} (executor : Executor W) (s : ClipboardServer W)
    (transfer : PortalTransferId) (grant : PortalGrant) (stream : list Z) :
    result unit PortalBrokerSocketError * ClipboardServer W :=
  match read_frame stream with
  | Err error =>
      match broker_step RevokeDisconnectedExecutor (broker_executor_failed (cs_broker s) transfer) s with
      | (Err e, s) => (Err e, s)
      | (Ok _, s) => (Err error, s)
      end
  | Ok (payload_frame, _) =>
      match decode_portal_clipboard_payload_frame payload_frame with
      | Err e => (Err (DecodeClipboardPayload e), s)
      | Ok (payload_transfer, payload) =>
          let '(failed, world) :=
            if decide (payload_transfer ≠ transfer) then (true, cs_world s)
            else let '(ok, world) := executor (cs_world s) grant payload in (negb ok, world) in
          let s := mk_clipboard_server (cs_broker s) (cs_written s) world in
          if failed : bool
          then broker_step RevokeFailedExecutor (broker_executor_failed (cs_broker s) transfer) s
          else broker_step CompleteTransfer (broker_complete (cs_broker s) transfer) s
      end
  end.
Definition serve_clipboard_client {W} (executor : Executor W) (now_msec : Z) (s : ClipboardServer W)
    (client : PortalClient) : result unit PortalBrokerSocketError * ClipboardServer W :=
  let '(answer, broker) := answer_client (cs_broker s) client now_msec in
  match answer with
  | Err e => (Err e, mk_clipboard_server broker (cs_written s) (cs_world s))
  | Ok (transfer, grant, frame, stream) =>
      let s := mk_clipboard_server broker (cs_written s ++ [frame]) (cs_world s) in
      match grant with
      | Some grant => execute_transfer executor s transfer grant stream
      | None => (Ok tt, s)
      end
  end.
Definition run_portal_clipboard_broker_socket_server_bounded {W}
    (listen : result unit PortalBrokerSocketError) (broker_generation : Z)
    (policy : HeadlessPortalPolicy) (now_msec max_requests : Z) (executor : Executor W) (world : W)
    (clients : list (option PortalClient)) :
    option (result unit PortalBrokerSocketError) * option (ClipboardServer W) :=
  if decide (max_requests = 0) then (Some (Err ZeroRequestBound), None)
  else
    match (let? _u := listen in map_err CreateBroker (broker_new broker_generation policy)) with
    | Err e => (Some (Err e), None)
    | Ok broker =>
        let '(r, s) := serve_clients (serve_clipboard_client executor now_msec)
                         (Z.to_nat max_requests) clients (mk_clipboard_server broker [] world) in
        (r, Some s)
    end.

(** ** The clients *)

(** [exchange] is what becomes of the request's bytes: a failed [connect] or
    write, or what the stream delivers from then on. *)
Definition request_portal_broker
    (exchange : list Z → result (list Z) PortalBrokerSocketError)
    (request : PortalBrokerRequestPacket) :
    result PortalBrokerResponsePacket PortalBrokerSocketError :=
  let? frame := map_err SocketEncodeRequest (encode_portal_broker_request_frame request) in
  let? stream := exchange frame in
  let? '(reply, _) := read_frame stream in
  map_err SocketDecodeResponse (decode_portal_broker_response_frame reply).

(** [gs_stream] is whether the stream is still held. *)
Record PortalClipboardGrantSession : Type := mk_grant_session {
  gs_stream : bool; gs_response : PortalBrokerResponsePacket;
}.
Definition begin_portal_clipboard_request
    (exchange : list Z → result (list Z) PortalBrokerSocketError)
    (request : PortalBrokerRequestPacket) :
    result PortalClipboardGrantSession PortalBrokerSocketError :=
  let? response := request_portal_broker exchange request in
  Ok (mk_grant_session true response).

(** The frame written, and the session; an error leaves the session as it was. *)
Definition send_payload (writable : bool) (session : PortalClipboardGrantSession) (payload : list Z) :
    result (list Z * PortalClipboardGrantSession) PortalBrokerSocketError :=
  match br_decision (gs_response session) with
  | RespDenied => Err DeniedClipboardPayload
  | RespAllowed _ =>
      let? frame := map_err EncodePayload
        (encode_portal_clipboard_payload_frame (br_transfer (gs_response session)) payload) in
      ensure! (gs_stream session = true) else PayloadAlreadySent in
      ensure! (writable = true) else WritePayload in
      Ok (frame, mk_grant_session false (gs_response session))
  end.
(** The response, and what was written after it. *)
Definition request_portal_broker_with_clipboard_payload
    (exchange : list Z → result (list Z) PortalBrokerSocketError) (writable : bool)
    (request : PortalBrokerRequestPacket) (payload : list Z) :
    result (PortalBrokerResponsePacket * list Z) PortalBrokerSocketError :=
  let? session := begin_portal_clipboard_request exchange request in
  match br_decision (gs_response session) with
  | RespAllowed _ =>
      let? '(frame, session) := send_payload writable session payload in
      Ok (gs_response session, frame)
  | RespDenied => Ok (gs_response session, [])
  end.

(** ** One client *)

Lemma length_push_u8 z : length (push_u8 z) = 1%nat.
Proof. done. Qed.
(** A response frame is far below the payload bound. *)
Lemma response_encodes_always p : ∃ f, encode_portal_broker_response_frame p = Ok f.
Proof.
  eexists. apply encode_frame_ok. split; [|reflexivity].
  destruct (br_decision p) as [g|]; unfold encode_response_decision, encode_grant, encode_id, push_u64, push_u16;
    rewrite ?length_app, ?length_to_le_bytes, ?length_push_u8; unfold SOPHIA_IPC_MAX_PAYLOAD_LEN; simpl; lia.
Qed.

Definition nothing_active (l : PortalRequestGrantLifecycle) : Prop :=
  ∀ t g, lc_grants l !! t = Some g → ¬ is_active g.
(** A broker between two clients. *)
Definition broker_ok (policy : HeadlessPortalPolicy) (b : DeterministicPortalBroker) : Prop :=
  bk_policy b = policy ∧ lifecycle_ok (bk_lifecycle b) ∧ nothing_pending (bk_lifecycle b).

(** What an answer does to the grants: a new active one, or nothing. *)
Definition grants_after (policy : HeadlessPortalPolicy) (l l' : PortalRequestGrantLifecycle)
    (transfer : PortalTransferId) (grant : option PortalGrant) : Prop :=
  match grant with
  | None => lc_grants l' = lc_grants l
  | Some g => policy = HeadlessAllow ∧ lc_grants l !! transfer = None
      ∧ lc_grants l' = <[transfer := g]> (lc_grants l) ∧ pg_transfer g = transfer ∧ is_active g
  end.

Lemma broker_answer_ok policy b request now grant b' :
  broker_ok policy b → broker_answer b request now = (grant, b') →
  broker_ok policy b' ∧ evolves (bk_lifecycle b) (bk_lifecycle b')
  ∧ grants_after policy (bk_lifecycle b) (bk_lifecycle b')
      (pt_transfer (pr_transfer (bq_request request))) grant.
Proof.
  intros (Hp&Hok&Hnp). unfold broker_answer. set (adm := mk_capability_admission _ _).
  set (rq := bq_request request).
  pose proof (broker_request_preserves b rq adm now Hok Hnp) as Hb. cbv zeta in Hb.
  destruct (submit (bk_lifecycle b) rq now) as [l1|e] eqn:Hs.
  - rewrite (broker_request_accepted _ _ _ _ l1 Hs) in Hb |- *.
    apply submit_inv in Hs as (_&_&Hn&_&->).
    assert (lc_grants (bk_lifecycle b) !! pt_transfer (pr_transfer rq) = None) as Hg.
    { destruct (lc_grants _ !! _) eqn:E; [|done]. apply (ok_grant _ Hok) in E as (?&?&_). congruence. }
    case_decide as Ha; cbn [fst snd] in Hb; destruct Hb as (Hb1&?&?&?); intros [= <- <-]; cbn [granted];
      (split; [split; [by etrans; [exact Hb1|]|done]|]); (split; [done|]); [|done].
    split; [destruct Ha; congruence|done].
  - unfold broker_request in Hb |- *. rewrite Hs in Hb |- *. destruct Hb as (Hb1&?&?&?).
    intros [= <- <-]. split; [split; [by etrans; [exact Hb1|]|done]|]. done.
Qed.

Lemma answer_client_ok policy b client now answer b' :
  broker_ok policy b → answer_client b client now = (answer, b') →
  broker_ok policy b' ∧ evolves (bk_lifecycle b) (bk_lifecycle b')
  ∧ ∃ transfer grant, grants_after policy (bk_lifecycle b) (bk_lifecycle b') transfer grant
      ∧ match answer with
        | Ok (t, g, _, _) => t = transfer ∧ g = grant
        | Err e => grant = None ∨ e = WriteResponse
        end.
Proof.
  intros Hok. unfold answer_client. destruct (read_request _) as [[request stream]|e].
  2: { intros [= <- <-]. split; [done|]. split; [done|]. exists INVALID, None. split; [done|by left]. }
  destruct (broker_answer b request now) as [grant b1] eqn:E.
  apply (broker_answer_ok _ _ _ _ _ _ Hok) in E as (?&?&?).
  destruct (response_encodes_always (response_of (pt_transfer (pr_transfer (bq_request request))) grant))
    as [f ->]. cbn [map_err res_bind]. intros [= <- <-]. split; [done|]. split; [done|].
  eexists _, grant. split; [done|]. case_decide; [done|by right].
Qed.

(** ** Executions of the clipboard server *)

(** The executions of the closure so far: the grant, the payload, the outcome. *)
Notation Execution := (PortalGrant * list Z * bool)%type.
Definition logged {W} (executor : Executor W) : Executor (W * list Execution) :=
  λ w grant payload,
    let '(ok, world) := executor w.1 grant payload in (ok, (world, w.2 ++ [(grant, payload, ok)])).
Definition outcome_state (ok : bool) : PortalGrantState := if ok then GCompleted else GRevoked.

Record clipboard_ok {W} (policy : HeadlessPortalPolicy) (s : ClipboardServer (W * list Execution)) : Prop := {
  clip_broker : broker_ok policy (cs_broker s);
  clip_executed : ∀ g p ok, (g, p, ok) ∈ (cs_world s).2 →
    policy = HeadlessAllow ∧ is_active g
    ∧ lc_grants (bk_lifecycle (cs_broker s)) !! pg_transfer g = Some (set_grant_state g (outcome_state ok));
  clip_once : NoDup ((λ x : Execution, pg_transfer x.1.1) <$> (cs_world s).2);
  clip_completed : ∀ t g, lc_grants (bk_lifecycle (cs_broker s)) !! t = Some g →
    pg_state g = GCompleted → ∃ g0 p, (g0, p, true) ∈ (cs_world s).2 ∧ pg_transfer g0 = t;
}.

Section executions.
Context {W : Type} (executor : Executor W) (policy : HeadlessPortalPolicy) (now_msec : Z).
Implicit Types s : ClipboardServer (W * list Execution).

(** A server state whose grants changed only at [t], which no execution used. *)
Lemma clipboard_ok_update s broker (written : list (list Z)) t g :
  clipboard_ok policy s → broker_ok policy broker →
  lc_grants (bk_lifecycle broker) = <[t := g]> (lc_grants (bk_lifecycle (cs_broker s))) →
  (∀ g0, lc_grants (bk_lifecycle (cs_broker s)) !! t = Some g0 → is_active g0) →
  pg_state g ≠ GCompleted →
  clipboard_ok policy (mk_clipboard_server broker written (cs_world s)).
Proof.
  intros [Hb He Ho Hc] Hb' Hg Ha Hs. split; simpl; [done| |done|].
  - intros g' p ok Hin. destruct (He _ _ _ Hin) as (?&?&Hl). split; [done|]. split; [done|].
    rewrite Hg, lookup_insert_ne; [done|]. intros ->. apply Ha in Hl. by destruct ok.
  - intros t' g'. rewrite Hg. intros [[<- <-]|[Hne Hl]]%lookup_insert_Some; [done|by apply Hc].
Qed.

(** Closing the active grant of [t] after the execution of its payload. *)
Lemma clipboard_ok_executed s broker written (world : W) t g p ok :
  clipboard_ok policy s → broker_ok policy broker → policy = HeadlessAllow →
  lc_grants (bk_lifecycle (cs_broker s)) !! t = Some g → is_active g → pg_transfer g = t →
  lc_grants (bk_lifecycle broker)
    = <[t := set_grant_state g (outcome_state ok)]> (lc_grants (bk_lifecycle (cs_broker s))) →
  clipboard_ok policy (mk_clipboard_server broker written (world, (cs_world s).2 ++ [(g, p, ok)])).
Proof.
  intros [Hb He Ho Hc] Hb' Hpol Hl Ha Ht Hg.
  assert (∀ g' p' ok', (g', p', ok') ∈ (cs_world s).2 → pg_transfer g' ≠ t) as Hne.
  { intros g' p' ok' Hin Heq. destruct (He _ _ _ Hin) as (_&_&Hl').
    assert (g = set_grant_state g' (outcome_state ok')) as -> by congruence. by destruct ok'. }
  split; simpl; [done| | |].
  - intros g' p' ok' [Hin|Heq%list_elem_of_singleton]%elem_of_app.
    + destruct (He _ _ _ Hin) as (?&?&?). split; [done|]. split; [done|].
      rewrite Hg, lookup_insert_ne; [done|]. intros Heq. by apply (Hne _ _ _ Hin).
    + simplify_eq. split; [done|]. split; [done|]. by rewrite Hg, lookup_insert_eq.
  - rewrite fmap_app, NoDup_app. split; [done|]. split; [|apply NoDup_singleton].
    intros t' ([[g' p'] ok']&->&Hin)%list_elem_of_fmap [= Heq]%list_elem_of_singleton. simpl in Heq.
    rewrite Ht in Heq. by eapply Hne.
  - intros t' g'. rewrite Hg. intros [[<- <-]|[Hne' Hl']]%lookup_insert_Some.
    + intros Hs. exists g, p. destruct ok; [|done]. split; [set_solver|done].
    + intros Hs. destruct (Hc _ _ Hl' Hs) as (g0&p0&?&?). exists g0, p0. split; [set_solver|done].
Qed.

Lemma broker_close_ok b t g :
  broker_ok policy b → lc_grants (bk_lifecycle b) !! t = Some g → is_active g →
  (∃ b', broker_complete b t = Ok b' ∧ broker_ok policy b'
     ∧ lc_grants (bk_lifecycle b') = <[t := set_grant_state g GCompleted]> (lc_grants (bk_lifecycle b)))
  ∧ (∃ b', broker_executor_failed b t = Ok b' ∧ broker_ok policy b'
     ∧ lc_grants (bk_lifecycle b') = <[t := set_grant_state g GRevoked]> (lc_grants (bk_lifecycle b))).
Proof.
  intros (Hp&Hok&Hnp) Hl Ha. unfold broker_complete, broker_executor_failed, complete, executor_failed.
  rewrite (proj2 (active_grant_spec _ t g)) by done. cbn [res_bind].
  split; (eexists; split; [done|]; split; [|done]); (split; [done|]); (split; [|done]);
    by apply close_grant_ok.
Qed.

Definition only_active (l : PortalRequestGrantLifecycle) (t : PortalTransferId) : Prop :=
  ∀ t' g, lc_grants l !! t' = Some g → is_active g → t' = t.
Lemma close_nothing_active l l' t g :
  only_active l t → lc_grants l' = <[t := g]> (lc_grants l) → ¬ is_active g → nothing_active l'.
Proof.
  intros Ho Hg Ha t' g'. rewrite Hg. intros [[<- <-]|[Hne Hl]]%lookup_insert_Some; [done|].
  intros Hact. by destruct (Ho _ _ Hl Hact).
Qed.

(** The only ways to end while a grant is active. *)
Definition leaves_active (r : result unit PortalBrokerSocketError) : Prop :=
  match r with Err WriteResponse | Err (DecodeClipboardPayload _) => True | _ => False end.

Lemma execute_transfer_ok s transfer grant stream r s' :
  clipboard_ok policy s → policy = HeadlessAllow →
  lc_grants (bk_lifecycle (cs_broker s)) !! transfer = Some grant → is_active grant →
  pg_transfer grant = transfer → only_active (bk_lifecycle (cs_broker s)) transfer →
  execute_transfer (logged executor) s transfer grant stream = (r, s') →
  clipboard_ok policy s' ∧ (nothing_active (bk_lifecycle (cs_broker s')) ∨ leaves_active r).
Proof.
  intros Hs Hpol Hl Ha Ht Ho.
  destruct (broker_close_ok (cs_broker s) transfer grant (clip_broker _ _ Hs) Hl Ha)
    as [(b1&Hb1&Hok1&Hg1) (b2&Hb2&Hok2&Hg2)].
  assert (clipboard_ok policy (mk_clipboard_server b2 (cs_written s) (cs_world s))) as Hrev.
  { eapply (clipboard_ok_update s b2 _ transfer); [done|done|exact Hg2| |done]. intros ? [= ->]%(eq_trans (eq_sym Hl)). done. }
  pose proof (close_nothing_active _ _ _ _ Ho Hg1 ltac:(done)) as Hn1.
  pose proof (close_nothing_active _ _ _ _ Ho Hg2 ltac:(done)) as Hn2.
  unfold execute_transfer, broker_step.
  destruct (read_frame stream) as [[f rest]|e]; [|rewrite Hb2; intros [= <- <-]; eauto].
  destruct (decode_portal_clipboard_payload_frame f) as [[pt p]|e]; [|intros [= <- <-]; simpl; eauto].
  case_decide as Hpt.
  { cbn [cs_broker cs_written cs_world]. rewrite Hb2. intros [= <- <-]. eauto. }
  unfold logged. destruct (executor (cs_world s).1 grant p) as [ok w] eqn:E.
  cbn [cs_broker cs_written cs_world]. destruct ok; cbn [negb]; rewrite ?Hb1, ?Hb2; intros [= <- <-];
    cbn [cs_written cs_world cs_broker]; (split; [|by left]).
  - by eapply (clipboard_ok_executed s b1 _ w transfer grant p true).
  - by eapply (clipboard_ok_executed s b2 _ w transfer grant p false).
Qed.

Lemma serve_clipboard_client_ok s client r s' :
  clipboard_ok policy s → nothing_active (bk_lifecycle (cs_broker s)) →
  serve_clipboard_client (logged executor) now_msec s client = (r, s') →
  clipboard_ok policy s' ∧ (nothing_active (bk_lifecycle (cs_broker s')) ∨ leaves_active r).
Proof.
  intros Hs Hn. unfold serve_clipboard_client.
  destruct (answer_client (cs_broker s) client now_msec) as [answer b] eqn:E.
  apply (answer_client_ok _ _ _ _ _ _ (clip_broker _ _ Hs)) in E
    as (Hok&_&transfer&grant&Hga&Ha).
  assert (∀ written, clipboard_ok policy (mk_clipboard_server b written (cs_world s))) as Hs1.
  { intros written. destruct grant as [g|]; simpl in Hga.
    - destruct Hga as (_&Hl&Hg&_&Hact). eapply clipboard_ok_update; [done|done|exact Hg| |by rewrite Hact].
      intros g0. by rewrite Hl.
    - destruct Hs as [Hb Hx Hd Hc]. split; simpl; rewrite ?Hga; done. }
  assert (∀ g, grant = Some g → only_active (bk_lifecycle b) transfer) as Ho.
  { intros g -> t g' Hl' Ha'. destruct Hga as (_&_&Hg&_&_). rewrite Hg in Hl'.
    apply lookup_insert_Some in Hl' as [[<- _]|[_ Hl']]; [done|]. by destruct (Hn _ _ Hl'). }
  assert (grant = None → nothing_active (bk_lifecycle b)) as Hnone.
  { intros -> t g. simpl in Hga. rewrite Hga. apply Hn. }
  destruct answer as [[[[t g] frame] stream]|e].
  - destruct Ha as [-> ->]. destruct grant as [g|]; [|intros [= <- <-]; split; [done|left; by apply Hnone]].
    intros Hx. destruct Hga as (Hpol&Hl&Hg&Ht&Hact).
    eapply (execute_transfer_ok (mk_clipboard_server b _ (cs_world s)));
      [done|done| |exact Hact|done|by eapply Ho|exact Hx].
    simpl. by rewrite Hg, lookup_insert_eq.
  - intros [= <- <-]. split; [done|]. destruct Ha as [?| ->]; [left; by apply Hnone|by right].
Qed.

Lemma serve_clients_ok n clients s r s' :
  clipboard_ok policy s → nothing_active (bk_lifecycle (cs_broker s)) →
  serve_clients (serve_clipboard_client (logged executor) now_msec) n clients s = (r, s') →
  clipboard_ok policy s'
  ∧ (nothing_active (bk_lifecycle (cs_broker s')) ∨ ∃ r', r = Some r' ∧ leaves_active r').
Proof.
  revert clients s. induction n as [|n IH]; intros clients s Hs Hn; cbn [serve_clients].
  { intros [= <- <-]. eauto. }
  destruct clients as [|[client|] clients]; [intros [= <- <-]; eauto| |intros [= <- <-]; eauto].
  destruct (serve_clipboard_client _ _ s client) as [r1 s1] eqn:E.
  destruct (serve_clipboard_client_ok _ _ _ _ Hs Hn E) as [Hs1 Hn1]. destruct r1 as [[]|e].
  - destruct Hn1 as [Hn1|[]]. by apply IH.
  - intros [= <- <-]. split; [done|]. destruct Hn1; [by left|]. right. eauto.
Qed.

End executions.

Lemma broker_new_ok policy bg b : broker_new bg policy = Ok b →
  broker_ok policy b ∧ lc_grants (bk_lifecycle b) = ∅.
Proof.
  unfold broker_new. rewrite res_bind_ok. intros (l&Hl&[= <-]).
  pose proof (with_capacity_ok bg PORTAL_ACTIVE_TRANSFER_CAPACITY l ltac:(done) Hl) as Hok. unfold lifecycle_new, with_capacity in Hl.
  case_decide; [done|]. injection Hl as <-. split; [|done]. split; [done|]. split; [done|]. done.
Qed.

(** C5: clipboard payloads reach the executor only under a grant, once, and the
    grant records how it went.  Whatever the clients send, however the executor
    behaves, and whether the server ends, fails or still waits: the broker's
    lifecycle is well formed with nothing pending; each execution was under a
    grant that policy allowed and that was active, no transfer was executed twice,
    and its grant now is completed if the executor succeeded and revoked if it
    failed; a grant is completed only by a successful execution.  No grant is left
    active, except when the server failed because it could not write the answer
    or the payload frame did not decode. *)
Theorem clipboard_executions_granted {W} (executor : Executor W)
    (listen : result unit PortalBrokerSocketError) (broker_generation : Z)
    (policy : HeadlessPortalPolicy) (now_msec max_requests : Z) (world : W)
    (clients : list (option PortalClient)) r s :
  run_portal_clipboard_broker_socket_server_bounded listen broker_generation policy now_msec
    max_requests (logged executor) (world, []) clients = (r, Some s) →
  let l := bk_lifecycle (cs_broker s) in
  let log := (cs_world s).2 in
  lifecycle_ok l ∧ nothing_pending l
  ∧ (∀ g p ok, (g, p, ok) ∈ log → policy = HeadlessAllow ∧ is_active g
       ∧ lc_grants l !! pg_transfer g = Some (set_grant_state g (outcome_state ok)))
  ∧ NoDup ((λ x : Execution, pg_transfer x.1.1) <$> log)
  ∧ (∀ t g, lc_grants l !! t = Some g → pg_state g = GCompleted →
       ∃ g0 p, (g0, p, true) ∈ log ∧ pg_transfer g0 = t)
  ∧ (∀ t g, lc_grants l !! t = Some g → is_active g →
       r = Some (Err WriteResponse) ∨ ∃ e, r = Some (Err (DecodeClipboardPayload e))).
Proof.
  intros Hrun. unfold run_portal_clipboard_broker_socket_server_bounded in Hrun.
  case_decide; [done|]. destruct (let? _u := listen in _) as [b|e] eqn:Eb; [|done].
  destruct (serve_clients _ _ _ _) as [r' s'] eqn:E. injection Hrun as <- <-.
  apply res_bind_ok in Eb as (?&_&Eb). destruct (broker_new broker_generation policy) eqn:Eb'; [|done].
  injection Eb as ->. apply broker_new_ok in Eb' as [Hok Hg].
  apply (serve_clients_ok executor policy) in E as [[(?&?&?) ? ? ?] Hn].
  - split; [done|]. split; [done|]. split; [done|]. split; [done|]. split; [done|].
    intros t g Hl Ha. destruct Hn as [Hn|([|[]]&->&Hn)]; try done; [by destruct (Hn _ _ Hl)| |]; eauto.
  - split; simpl; [done|set_solver|constructor|]. intros t g. by rewrite Hg, lookup_empty.
  - intros t g. simpl. by rewrite Hg, lookup_empty.
Qed.

Definition example_request : PortalBrokerRequestPacket :=
  mk_broker_request
    (mk_portal_request
       (mk_transfer (from_raw 7) (from_raw 2) (from_raw 3) KClipboard (Some (str "text/plain")) 5
          DPending 4) 2000) true true.
(** The bytes of an encoding that succeeds. *)
Definition bytes_of {E} (r : result (list Z) E) : list Z := match r with Ok f => f | Err _ => [] end.
Definition example_sent : list Z := bytes_of (encode_portal_broker_request_frame example_request).
Definition example_frame : list Z :=
  bytes_of (encode_portal_clipboard_payload_frame (from_raw 7) (str "hello")).
(** An executor that counts, and succeeds. *)
Definition counting : Executor nat := λ n _ _, (true, S n).

Lemma clipboard_executions_granted_witness :
  ∃ r s, run_portal_clipboard_broker_socket_server_bounded (Ok tt) 3 HeadlessAllow 10 1
      (logged counting) (0%nat, []) [Some (mk_portal_client (example_sent ++ example_frame) true)]
      = (r, Some s)
    ∧ length (cs_world s).2 = 1%nat ∧ nothing_pending (bk_lifecycle (cs_broker s)).
Proof.
  set (run := run_portal_clipboard_broker_socket_server_bounded _ _ _ _ _ _ _ _).
  assert ((λ s, length (cs_world s).2) <$> run.2 = Some 1%nat) as Hl by (vm_compute; reflexivity).
  destruct run as [r [s|]] eqn:E; [|discriminate Hl]. exists r, s. split; [reflexivity|].
  split; [simpl in Hl; congruence|].
  apply (clipboard_executions_granted counting (Ok tt) 3 HeadlessAllow 10 1 0%nat
    [Some (mk_portal_client (example_sent ++ example_frame) true)] r s). exact E.
Defined.

(** ** Both ends of a stream *)

Lemma read_frame_app k t p f rest :
  encode_frame k t p = Ok f → read_frame (f ++ rest) = Ok (f, rest).
Proof.
  intros [Hl ->]%encode_frame_ok. unfold read_frame. set (h := mk_frame_header _ _ _).
  unfold SOPHIA_IPC_MAX_PAYLOAD_LEN in *.
  rewrite <-app_assoc, stream_read_exact_app by (rewrite length_header_bytes; done). cbn [ok_or res_bind].
  rewrite header_payload_len by (simpl; word_lia). change (fh_payload_len h) with (Z.of_nat (length p)).
  rewrite decide_True by done. by rewrite stream_read_exact_app.
Qed.

Definition request_transfer (request : PortalBrokerRequestPacket) : PortalTransferId :=
  pt_transfer (pr_transfer (bq_request request)).

Lemma read_request_app request f rest :
  broker_request_ok request → encode_portal_broker_request_frame request = Ok f →
  read_request (f ++ rest) = Ok (request, rest).
Proof.
  intros Hok He. pose proof (decode_encoded_broker_request _ _ Hok He) as Hd.
  rewrite encode_broker_request_eq in He by done. unfold read_request.
  rewrite (read_frame_app _ _ _ _ _ He). cbn [res_bind]. by rewrite Hd.
Qed.

(** The grants a broker issues are in range. *)
Lemma broker_answer_response_ok b request now :
  broker_request_ok request → u64_ok (lc_broker_generation (bk_lifecycle b)) →
  broker_response_ok (response_of (request_transfer request) (broker_answer b request now).1).
Proof.
  intros [(?&?&?&_&_&?) ?] Hbg. unfold broker_answer. set (adm := mk_capability_admission _ _).
  destruct (submit (bk_lifecycle b) (bq_request request) now) as [l1|e] eqn:Hs.
  - rewrite (broker_request_accepted _ _ _ _ l1 Hs). case_decide; simpl; [|by split].
    split; [done|]. split; [|done]. unfold grant_ok; cbn. do 5 (split; [done|]). done.
  - unfold broker_request. rewrite Hs. by split.
Qed.
Lemma broker_answer_generation b request now :
  lc_broker_generation (bk_lifecycle (broker_answer b request now).2)
  = lc_broker_generation (bk_lifecycle b).
Proof.
  unfold broker_answer. set (adm := mk_capability_admission _ _).
  destruct (submit (bk_lifecycle b) (bq_request request) now) as [l1|e] eqn:Hs.
  - rewrite (broker_request_accepted _ _ _ _ l1 Hs). apply submit_inv in Hs as (_&_&_&_&->).
    by case_decide.
  - unfold broker_request. by rewrite Hs.
Qed.

Lemma answer_client_app b request f rest now :
  broker_request_ok request → encode_portal_broker_request_frame request = Ok f →
  ∃ reply, encode_portal_broker_response_frame
      (response_of (request_transfer request) (broker_answer b request now).1) = Ok reply
    ∧ answer_client b (mk_portal_client (f ++ rest) true) now
      = (Ok (request_transfer request, (broker_answer b request now).1, reply, rest),
         (broker_answer b request now).2).
Proof.
  intros Hok He. destruct (response_encodes_always
    (response_of (request_transfer request) (broker_answer b request now).1)) as [reply Hr].
  exists reply. split; [done|]. unfold answer_client. cbn [pc_incoming pc_writable].
  rewrite (read_request_app _ _ _ Hok He). fold (request_transfer request).
  destruct (broker_answer b request now) as [g b']. cbn [fst snd] in *. by rewrite Hr.
Qed.

Lemma request_returns exchange request sent reply rest response :
  encode_portal_broker_request_frame request = Ok sent → exchange sent = Ok (reply ++ rest) →
  broker_response_ok response → encode_portal_broker_response_frame response = Ok reply →
  request_portal_broker exchange request = Ok response.
Proof.
  intros Hs Hx Hok Hr. unfold request_portal_broker. rewrite Hs. cbn [map_err res_bind]. rewrite Hx.
  cbn [res_bind]. pose proof (decode_encoded_broker_response _ _ Hok Hr) as Hd.
  unfold encode_portal_broker_response_frame in Hr. rewrite (read_frame_app _ _ _ _ _ Hr). cbn [res_bind].
  by rewrite Hd.
Qed.

(** The broker called directly, request after request. *)
Fixpoint broker_answers (b : DeterministicPortalBroker) (requests : list PortalBrokerRequestPacket)
    (now_msec : Z) : list (option PortalGrant) * DeterministicPortalBroker :=
  match requests with
  | [] => ([], b)
  | request :: requests =>
      let '(grant, b) := broker_answer b request now_msec in
      let '(grants, b) := broker_answers b requests now_msec in (grant :: grants, b)
  end.

Definition answered (request : PortalBrokerRequestPacket) (grant : option PortalGrant)
    (reply : list Z) : Prop :=
  ∀ rest, request_portal_broker (λ _, Ok (reply ++ rest)) request
  = Ok (response_of (request_transfer request) grant).

Lemma serve_broker_clients now requests sents b written :
  u64_ok (lc_broker_generation (bk_lifecycle b)) →
  Forall2 (λ r f, broker_request_ok r ∧ encode_portal_broker_request_frame r = Ok f) requests sents →
  ∃ replies,
    serve_clients (serve_broker_client now) (length requests)
      ((λ f, Some (mk_portal_client f true)) <$> sents) (mk_broker_server b written)
    = (Some (Ok tt), mk_broker_server (broker_answers b requests now).2 (written ++ replies))
    ∧ Forall3 answered requests (broker_answers b requests now).1 replies.
Proof.
  intros Hbg H. revert b written Hbg. induction H as [|r f rs fs [Hok He] _ IH]; intros b written Hbg.
  { exists []. rewrite app_nil_r. split; [done|constructor]. }
  cbn [length fmap list_fmap serve_clients broker_answers].
  destruct (answer_client_app b r f [] now Hok He) as (reply&Hr&Ha). rewrite app_nil_r in Ha.
  unfold serve_broker_client at 1. cbn [bs_broker bs_written]. rewrite Ha.
  pose proof (broker_answer_response_ok b r now Hok Hbg) as Hresp.
  pose proof (broker_answer_generation b r now) as Hgen.
  destruct (broker_answer b r now) as [g b']. cbn [fst snd] in *. rewrite <-Hgen in Hbg.
  destruct (IH b' (written ++ [reply]) Hbg) as (replies&Hrun&Hall). exists (reply :: replies).
  rewrite Hrun, <-app_assoc. destruct (broker_answers b' rs now) as [gs b'']. cbn [fst snd] in *.
  split; [done|]. constructor; [|done]. intros rest. by eapply request_returns.
Qed.

(** The socket server is the broker.  Served to clients whose requests are in
    range and who each send one frame, as many as the server's bound, a new broker
    answers over the sockets exactly what it answers when called directly, in
    order and in one lifecycle; each client's exchange returns the answer to its
    own request; and the server ends well. *)
Theorem portal_server_answers (broker_generation : Z) (policy : HeadlessPortalPolicy)
    (now_msec : Z) (b0 : DeterministicPortalBroker) (requests : list PortalBrokerRequestPacket)
    (sents : list (list Z)) :
  broker_new broker_generation policy = Ok b0 → u64_ok broker_generation → requests ≠ [] →
  Forall2 (λ r f, broker_request_ok r ∧ encode_portal_broker_request_frame r = Ok f) requests sents →
  let '(grants, b) := broker_answers b0 requests now_msec in
  ∃ replies,
    run_portal_broker_socket_server_bounded (Ok tt) broker_generation policy now_msec
      (Z.of_nat (length requests)) ((λ f, Some (mk_portal_client f true)) <$> sents)
    = (Some (Ok tt), Some (mk_broker_server b replies))
    ∧ Forall3 answered requests grants replies.
Proof.
  intros Hb Hg Hne Hx. unfold run_portal_broker_socket_server_bounded.
  rewrite decide_False by (destruct requests; simpl; [done|lia]).
  cbn [res_bind]. rewrite Hb. cbn [map_err]. rewrite Nat2Z.id.
  destruct (serve_broker_clients now_msec requests sents b0 []) as (replies&Hrun&Hall); [|done|].
  { unfold broker_new, lifecycle_new, with_capacity in Hb. by case_decide; simplify_eq/=. }
  rewrite Hrun. destruct (broker_answers b0 requests now_msec) as [grants b]. by exists replies.
Qed.

Lemma portal_server_answers_witness :
  ∃ b replies, run_portal_broker_socket_server_bounded (Ok tt) 3 HeadlessAllow 10 1
    [Some (mk_portal_client example_sent true)] = (Some (Ok tt), Some (mk_broker_server b replies)).
Proof.
  destruct (broker_new 3 HeadlessAllow) as [b0|] eqn:Eb; [|vm_compute in Eb; discriminate Eb].
  pose proof (portal_server_answers 3 HeadlessAllow 10 b0 [example_request] [example_sent] Eb) as H.
  destruct (broker_answers b0 [example_request] 10) as [gs b]. exists b.
  destruct H as (replies&Hr&_).
  - word_lia.
  - discriminate.
  - constructor; [|constructor]. split; [apply (bool_decide_unpack _); vm_compute; exact I|].
    vm_compute. reflexivity.
  - exists replies. exact Hr.
Defined.

(** A granted clipboard payload arrives.  A client whose request is in range
    and the server's handling of it, each reading what the other wrote: the client
    gets the broker's answer; when that is a grant, the executor is called once,
    with that grant and exactly the payload the client passed, and the transfer is
    completed or revoked as the executor succeeded or failed; when it is a denial,
    no payload leaves the client and the executor is not called. *)
Theorem clipboard_handoff {W} (executor : Executor W) (policy : HeadlessPortalPolicy) (now_msec : Z)
    (s : ClipboardServer W) (request : PortalBrokerRequestPacket) (payload sent frame : list Z) :
  broker_ok policy (cs_broker s) → u64_ok (lc_broker_generation (bk_lifecycle (cs_broker s))) →
  broker_request_ok request → encode_portal_broker_request_frame request = Ok sent →
  encode_portal_clipboard_payload_frame (request_transfer request) payload = Ok frame →
  let t := request_transfer request in
  let '(grant, b) := broker_answer (cs_broker s) request now_msec in
  let written := match grant with Some _ => frame | None => [] end in
  ∃ reply,
    request_portal_broker_with_clipboard_payload
      (λ f, if decide (f = sent) then Ok reply else Err Connect) true request payload
    = Ok (response_of t grant, written)
    ∧ ∃ s', serve_clipboard_client executor now_msec s (mk_portal_client (sent ++ written) true)
        = (Ok tt, s')
      ∧ cs_written s' = cs_written s ++ [reply]
      ∧ match grant with
        | None => cs_world s' = cs_world s ∧ cs_broker s' = b
        | Some g =>
            let '(ok, world) := executor (cs_world s) g payload in
            cs_world s' = world
            ∧ lc_grants (bk_lifecycle (cs_broker s'))
              = <[t := set_grant_state g (outcome_state ok)]> (lc_grants (bk_lifecycle b))
        end.
Proof.
  intros Hb Hbg Hok Hsent Hframe t.
  destruct (broker_answer (cs_broker s) request now_msec) as [grant b] eqn:E. intros written.
  pose proof (answer_client_app (cs_broker s) request sent written now_msec Hok Hsent) as Ha.
  pose proof (broker_answer_response_ok (cs_broker s) request now_msec Hok Hbg) as Hresp.
  rewrite E in Ha, Hresp. cbn [fst snd] in Ha, Hresp. destruct Ha as (reply&Hr&Ha). exists reply.
  apply (broker_answer_ok policy) in E as (Hb'&_&Hga); [|done]. fold t in Hr, Ha, Hresp.
  assert (request_portal_broker (λ f, if decide (f = sent) then Ok reply else Err Connect) request
    = Ok (response_of t grant)) as Hreq.
  { eapply (request_returns _ request sent reply []); [done| |done|done]. by rewrite decide_True, app_nil_r. }
  split.
  { unfold request_portal_broker_with_clipboard_payload, begin_portal_clipboard_request, send_payload.
    rewrite Hreq. cbn [res_bind gs_response]. destruct grant as [g|]; [|done]. subst t.
    cbn [response_of br_decision br_transfer]. rewrite Hframe. done. }
  unfold serve_clipboard_client. rewrite Ha. destruct grant as [g|]; [|by eexists].
  destruct Hga as (_&_&Hg&_&Hact).
  destruct (broker_close_ok policy b t g) as [(b1&Hb1&_&Hg1) (b2&Hb2&_&Hg2)];
    [done|by rewrite Hg, lookup_insert_eq|done|].
  assert (decode_portal_clipboard_payload_frame frame = Ok (t, payload)) as Hd.
  { apply decode_encoded_clipboard_payload; [|done]. apply Hok. }
  assert (read_frame written = Ok (frame, [])) as Hrf.
  { subst written. rewrite <-(app_nil_r frame) at 1. by eapply read_frame_app. }
  unfold execute_transfer. rewrite Hrf, Hd, decide_False by tauto.
  cbn [cs_world cs_broker cs_written]. destruct (executor (cs_world s) g payload) as [ok w].
  unfold broker_step. destruct ok; cbn [negb]; rewrite ?Hb1, ?Hb2; by eexists.
Qed.

Lemma clipboard_handoff_witness :
  ∃ r s', serve_clipboard_client counting 10
      (mk_clipboard_server (mk_broker HeadlessAllow (mk_lifecycle 3 64 ∅ ∅)) [] 0%nat)
      (mk_portal_client (example_sent ++ example_frame) true) = (r, s') ∧ cs_world s' = 1%nat ∧ r = Ok tt.
Proof.
  assert (broker_ok HeadlessAllow (mk_broker HeadlessAllow (mk_lifecycle 3 64 ∅ ∅))) as Hok
    by (apply (broker_new_ok HeadlessAllow 3); reflexivity).
  pose proof (clipboard_handoff counting HeadlessAllow 10
    (mk_clipboard_server (mk_broker HeadlessAllow (mk_lifecycle 3 64 ∅ ∅)) [] 0%nat)
    example_request (str "hello") example_sent example_frame Hok) as H.
  destruct (broker_answer _ _ _) as [grant b] eqn:E.
  assert (is_Some grant) as [g ->].
  { change grant with ((grant, b).1). rewrite <-E. vm_compute. eexists. reflexivity. }
  destruct H as (reply&_&s'&Hs&_&Hw&_).
  - cbn. word_lia.
  - apply (bool_decide_unpack _). vm_compute. exact I.
  - vm_compute. reflexivity.
  - vm_compute. reflexivity.
  - exists (Ok tt), s'. split; [exact Hs|]. split; [exact Hw|reflexivity].
Defined.
