(* ===== verification/Portals.v ===== *)
(** * The portal reducers
    ([sophia-portal/src/{types,clipboard,drag_and_drop,file_handoff,screen_capture,
    uri_open,notification}.rs])

    Six reducers of the same shape, one per kind of transfer: each validates its
    requests, keeps the transfers by ID and answers each of them with a command.
    What the six modules repeat is stated once, over the interface
    [PortalReducer]; each module is an instance. *)

From stdpp Require Import strings.
From S2P Require Import Prelude Ids PortalPackets Text.
Local Open Scope Z_scope.

(** ** Requests, commands, errors *)

Inductive ClipboardTarget : Type := TargetAtom (s : list Z) | TargetMime (s : list Z).
Record ClipboardTransferRequest : Type := mk_clipboard_request {
  cb_transfer : PortalTransferId; cb_source_namespace : NamespaceId;
  cb_target_namespace : NamespaceId; cb_target : ClipboardTarget; cb_byte_size : Z;
  cb_generation : Z;
}.
Record ClipboardSourceOwnerChanged : Type := mk_owner_changed {
  oc_source_namespace : NamespaceId; oc_generation : Z;
}.
Record DragAndDropTransferRequest : Type := mk_dnd_request {
  dd_transfer : PortalTransferId; dd_source_namespace : NamespaceId;
  dd_target_namespace : NamespaceId; dd_offered_types : list (list Z); dd_byte_size : Z;
  dd_generation : Z;
}.
Inductive FileHandoffMode : Type := FileOpen | FileSave.
Record FileHandoffRequest : Type := mk_file_request {
  fh_transfer : PortalTransferId; fh_source_namespace : NamespaceId;
  fh_target_namespace : NamespaceId; fh_mode : FileHandoffMode;
  fh_offered_types : list (list Z); fh_suggested_name : option (list Z); fh_byte_size : Z;
  fh_generation : Z;
}.
Inductive ScreenCaptureMode : Type := Screenshot | ScreenRecording.
Inductive ScreenCaptureScope : Type := ScopeDesktop | ScopeOutput | ScopeSurface.
Record ScreenCaptureRequest : Type := mk_capture_request {
  sc_transfer : PortalTransferId; sc_source_namespace : NamespaceId;
  sc_target_namespace : NamespaceId; sc_mode : ScreenCaptureMode; sc_scope : ScreenCaptureScope;
  sc_mime_type : list Z; sc_byte_size : Z; sc_generation : Z;
}.
Record UriOpenRequest : Type := mk_uri_request {
  uo_transfer : PortalTransferId; uo_source_namespace : NamespaceId;
  uo_target_namespace : NamespaceId; uo_uri : list Z; uo_generation : Z;
}.
Inductive NotificationUrgency : Type := UrgencyLow | UrgencyNormal | UrgencyCritical.
Record NotificationRequest : Type := mk_notification_request {
  no_transfer : PortalTransferId; no_source_namespace : NamespaceId;
  no_target_namespace : NamespaceId; no_summary : list Z; no_body : option (list Z);
  no_urgency : NotificationUrgency; no_actions : list (list Z); no_generation : Z;
}.

Inductive PortalCommand : Type :=
| PromptClipboardTransfer (t : PortalTransfer)
| HandoffClipboard (t : PortalTransferId)
| FailSelection (t : PortalTransferId)
| PromptDragAndDropTransfer (t : PortalTransfer)
| HandoffDragAndDrop (t : PortalTransferId)
| CancelDragAndDrop (t : PortalTransferId)
| PromptFileHandoff (t : PortalTransfer)
| HandoffFile (t : PortalTransferId)
| CancelFileHandoff (t : PortalTransferId)
| PromptScreenCapture (t : PortalTransfer)
| HandoffScreenCapture (t : PortalTransferId)
| CancelScreenCapture (t : PortalTransferId)
| PromptUriOpen (t : PortalTransfer)
| HandoffUriOpen (t : PortalTransferId)
| CancelUriOpen (t : PortalTransferId)
| PromptNotification (t : PortalTransfer)
| DeliverNotification (t : PortalTransferId)
| DropNotification (t : PortalTransferId).

Inductive PortalError : Type :=
| InvalidTransfer | InvalidNamespace | UnsupportedTarget | MissingTransferType
| TooManyTransferTypes | InvalidSuggestedName | UnsupportedCaptureMimeType | InvalidUri
| UnsupportedUriScheme | InvalidNotificationText | TooManyNotificationActions
| UnknownPortalTransfer | PortalNotPending.

Definition MAX_DRAG_AND_DROP_TYPES : Z := 16.
Definition MAX_FILE_HANDOFF_TYPES : Z := 32.
Definition MAX_SUGGESTED_FILE_NAME_LEN : Z := 255.
Definition MAX_URI_LEN : Z := 2048.
Definition MAX_NOTIFICATION_SUMMARY_LEN : Z := 128.
Definition MAX_NOTIFICATION_BODY_LEN : Z := 1024.
Definition MAX_NOTIFICATION_ACTIONS : Z := 4.
Definition MAX_NOTIFICATION_ACTION_LEN : Z := 64.

(** ** Clipboard *)

Definition target_as_str (t : ClipboardTarget) : list Z :=
  match t with TargetAtom s | TargetMime s => s end.
Definition target_is_text (t : ClipboardTarget) : Prop :=
  let target := target_as_str t in
  let lower := to_ascii_lowercase target in
  target = str "UTF8_STRING" ∨ target = str "TEXT" ∨ target = str "STRING"
  ∨ lower = str "text/plain"
  ∨ str "text/plain;" `prefix_of` lower
  ∨ str "text/" `prefix_of` lower.
#[export] Instance target_is_text_dec t : Decision (target_is_text t).
Proof. unfold target_is_text; cbv zeta; apply _. Defined.

Definition validate_clipboard_request (r : ClipboardTransferRequest) : result unit PortalError :=
  ensure! (id_valid (cb_transfer r)) else InvalidTransfer in
  ensure! (id_valid (cb_source_namespace r) ∧ id_valid (cb_target_namespace r))
  else InvalidNamespace in
  ensure! (target_as_str (cb_target r) = str "TARGETS" ∨ target_is_text (cb_target r))
  else UnsupportedTarget in
  Ok tt.
Definition clipboard_transfer (r : ClipboardTransferRequest) : PortalTransfer :=
  mk_transfer (cb_transfer r) (cb_source_namespace r) (cb_target_namespace r) KClipboard
    (Some (target_as_str (cb_target r))) (cb_byte_size r) DPending (cb_generation r).

(** ** Drag and drop *)

Definition no_types (types : list (list Z)) : Prop := types = [] ∨ Exists (λ kind, kind = []) types.
#[export] Instance no_types_dec ts : Decision (no_types ts).
Proof. unfold no_types; apply _. Defined.

Definition validate_drag_and_drop_request (r : DragAndDropTransferRequest) : result unit PortalError :=
  ensure! (id_valid (dd_transfer r)) else InvalidTransfer in
  ensure! (id_valid (dd_source_namespace r) ∧ id_valid (dd_target_namespace r))
  else InvalidNamespace in
  ensure! (¬ no_types (dd_offered_types r)) else MissingTransferType in
  ensure! (Z.of_nat (length (dd_offered_types r)) ≤ MAX_DRAG_AND_DROP_TYPES)
  else TooManyTransferTypes in
  Ok tt.
Definition drag_and_drop_transfer (r : DragAndDropTransferRequest) : PortalTransfer :=
  mk_transfer (dd_transfer r) (dd_source_namespace r) (dd_target_namespace r) KDragAndDrop
    (head (dd_offered_types r)) (dd_byte_size r) DPending (dd_generation r).

(** ** File handoff *)

Definition valid_suggested_file_name (name : list Z) : Prop :=
  name ≠ [] ∧ str_len name ≤ MAX_SUGGESTED_FILE_NAME_LEN
  ∧ 47 ∉ name ∧ 92 ∉ name ∧ name ≠ str "." ∧ name ≠ str "..".
#[export] Instance valid_suggested_file_name_dec n : Decision (valid_suggested_file_name n).
Proof. unfold valid_suggested_file_name; apply _. Defined.

Definition validate_file_handoff_request (r : FileHandoffRequest) : result unit PortalError :=
  ensure! (id_valid (fh_transfer r)) else InvalidTransfer in
  ensure! (id_valid (fh_source_namespace r) ∧ id_valid (fh_target_namespace r))
  else InvalidNamespace in
  ensure! (¬ no_types (fh_offered_types r)) else MissingTransferType in
  ensure! (Z.of_nat (length (fh_offered_types r)) ≤ MAX_FILE_HANDOFF_TYPES)
  else TooManyTransferTypes in
  match fh_suggested_name r with
  | Some name =>
      ensure! (valid_suggested_file_name name) else InvalidSuggestedName in
      Ok tt
  | None => Ok tt
  end.
(** [offered_types\[0\]] is in range once the request is validated. *)
Definition file_handoff_type_hint (r : FileHandoffRequest) : list Z :=
  let mode := match fh_mode r with FileOpen => str "open" | FileSave => str "save" end in
  mode ++ str ":" ++ default [] (head (fh_offered_types r)).
Definition file_handoff_transfer (r : FileHandoffRequest) : PortalTransfer :=
  mk_transfer (fh_transfer r) (fh_source_namespace r) (fh_target_namespace r) KFileHandoff
    (Some (file_handoff_type_hint r)) (fh_byte_size r) DPending (fh_generation r).

(** ** Screen capture *)

Definition supported_screen_capture_mime (mode : ScreenCaptureMode) (mime_type : list Z) : Prop :=
  match mode with
  | Screenshot => mime_type = str "image/png" ∨ mime_type = str "image/jpeg"
  | ScreenRecording => mime_type = str "video/webm" ∨ mime_type = str "video/mp4"
  end.
#[export] Instance supported_mime_dec m t : Decision (supported_screen_capture_mime m t).
Proof. destruct m; simpl; apply _. Defined.

Definition validate_screen_capture_request (r : ScreenCaptureRequest) : result unit PortalError :=
  ensure! (id_valid (sc_transfer r)) else InvalidTransfer in
  ensure! (id_valid (sc_source_namespace r) ∧ id_valid (sc_target_namespace r))
  else InvalidNamespace in
  ensure! (supported_screen_capture_mime (sc_mode r) (sc_mime_type r))
  else UnsupportedCaptureMimeType in
  Ok tt.
Definition screen_capture_type_hint (r : ScreenCaptureRequest) : list Z :=
  let mode := match sc_mode r with
              | Screenshot => str "screenshot" | ScreenRecording => str "screen-recording" end in
  let scope := match sc_scope r with
               | ScopeDesktop => str "desktop" | ScopeOutput => str "output"
               | ScopeSurface => str "surface" end in
  mode ++ str ":" ++ scope ++ str ":" ++ sc_mime_type r.
Definition screen_capture_transfer (r : ScreenCaptureRequest) : PortalTransfer :=
  mk_transfer (sc_transfer r) (sc_source_namespace r) (sc_target_namespace r)
    (match sc_mode r with Screenshot => KScreenCapture | ScreenRecording => KScreenRecording end)
    (Some (screen_capture_type_hint r)) (sc_byte_size r) DPending (sc_generation r).

(** ** URI open *)

(** The test of the scheme's characters is made on its bytes: those of a character
    outside ASCII are all above 127. *)
Definition scheme_byte (c : Z) : Prop := is_ascii_alphanumeric c ∨ c = 43 ∨ c = 45 ∨ c = 46.
#[export] Instance scheme_byte_dec c : Decision (scheme_byte c).
Proof. unfold scheme_byte; apply _. Defined.
Definition uri_scheme (uri : list Z) : option (list Z) :=
  '(scheme, _rest) ← split_once 58 uri;
  if decide (scheme = [] ∨ ¬ Forall scheme_byte scheme) then None else Some scheme.
Definition supported_uri_scheme (scheme : list Z) : Prop :=
  scheme = str "http" ∨ scheme = str "https" ∨ scheme = str "mailto" ∨ scheme = str "tel".
#[export] Instance supported_uri_scheme_dec s : Decision (supported_uri_scheme s).
Proof. unfold supported_uri_scheme; apply _. Defined.

Definition validate_uri_open_request (r : UriOpenRequest) : result unit PortalError :=
  ensure! (id_valid (uo_transfer r)) else InvalidTransfer in
  ensure! (id_valid (uo_source_namespace r) ∧ id_valid (uo_target_namespace r))
  else InvalidNamespace in
  ensure! (¬ (uo_uri r = [] ∨ MAX_URI_LEN < str_len (uo_uri r)
              ∨ Exists (λ ch, is_control ch ∨ is_whitespace ch) (chars (uo_uri r))))
  else InvalidUri in
  let? scheme := ok_or (uri_scheme (uo_uri r)) InvalidUri in
  ensure! (supported_uri_scheme scheme) else UnsupportedUriScheme in
  Ok tt.
Definition uri_open_type_hint (uri : list Z) : list Z :=
  str "uri-open:" ++ default (str "unknown") (uri_scheme uri).
Definition uri_open_transfer (r : UriOpenRequest) : PortalTransfer :=
  mk_transfer (uo_transfer r) (uo_source_namespace r) (uo_target_namespace r) KUriOpen
    (Some (uri_open_type_hint (uo_uri r))) (str_len (uo_uri r)) DPending (uo_generation r).

(** ** Notification *)

Definition valid_notification_text (text : list Z) (max_len : Z) : Prop :=
  text ≠ [] ∧ str_len text ≤ max_len ∧ ¬ Exists is_control (chars text).
#[export] Instance valid_notification_text_dec t m : Decision (valid_notification_text t m).
Proof. unfold valid_notification_text; apply _. Defined.
Definition valid_body (body : option (list Z)) : Prop :=
  match body with Some body => valid_notification_text body MAX_NOTIFICATION_BODY_LEN | None => True end.
#[export] Instance valid_body_dec b : Decision (valid_body b).
Proof. destruct b; simpl; apply _. Defined.

Definition validate_notification_request (r : NotificationRequest) : result unit PortalError :=
  ensure! (id_valid (no_transfer r)) else InvalidTransfer in
  ensure! (id_valid (no_source_namespace r) ∧ id_valid (no_target_namespace r))
  else InvalidNamespace in
  ensure! (valid_notification_text (no_summary r) MAX_NOTIFICATION_SUMMARY_LEN
           ∧ valid_body (no_body r)
           ∧ Forall (λ action, valid_notification_text action MAX_NOTIFICATION_ACTION_LEN)
               (no_actions r))
  else InvalidNotificationText in
  ensure! (Z.of_nat (length (no_actions r)) ≤ MAX_NOTIFICATION_ACTIONS)
  else TooManyNotificationActions in
  Ok tt.
Definition notification_byte_size (r : NotificationRequest) : Z :=
  str_len (no_summary r) + from_option str_len 0 (no_body r) + Z.of_nat (sum_list_with length (no_actions r)).
Definition notification_type_hint (u : NotificationUrgency) : list Z :=
  str "notification:" ++
    match u with UrgencyLow => str "low" | UrgencyNormal => str "normal"
               | UrgencyCritical => str "critical" end.
Definition notification_transfer (r : NotificationRequest) : PortalTransfer :=
  mk_transfer (no_transfer r) (no_source_namespace r) (no_target_namespace r) KNotification
    (Some (notification_type_hint (no_urgency r))) (notification_byte_size r) DPending
    (no_generation r).

(** ** The shared reducer *)

(** What a portal module brings: its requests, how it checks them, the transfer it
    stores, and the commands that prompt for it, carry it out and refuse it. *)
Class PortalReducer (Req : Type) : Type := {
  validate_request : Req → result unit PortalError;
  transfer_of : Req → PortalTransfer;
  prompt : PortalTransfer → PortalCommand;
  handoff : PortalTransferId → PortalCommand;
  cancel : PortalTransferId → PortalCommand;
}.

Notation Transfers := (gmap PortalTransferId PortalTransfer).

Definition set_transfer_decision (t : PortalTransfer) (d : PortalDecision) : PortalTransfer :=
  mk_transfer (pt_transfer t) (pt_source_namespace t) (pt_target_namespace t) (pt_kind t)
    (pt_mime_type t) (pt_byte_size t) d (pt_generation t).

Section reducer.
Context {Req : Type} `{PR : PortalReducer Req}.

Definition portal_request (m : Transfers) (r : Req) : result PortalCommand PortalError * Transfers :=
  match validate_request r with
  | Err e => (Err e, m)
  | Ok _ =>
      let transfer := transfer_of r in
      (Ok (prompt transfer), <[pt_transfer transfer := transfer]> m)
  end.

Definition pending_transfer (m : Transfers) (t : PortalTransferId) : result PortalTransfer PortalError :=
  let? transfer_state := ok_or (m !! t) UnknownPortalTransfer in
  ensure! (pt_decision transfer_state = DPending) else PortalNotPending in
  Ok transfer_state.

Definition portal_deny (m : Transfers) (t : PortalTransferId) :
    result PortalCommand PortalError * Transfers :=
  match pending_transfer m t with
  | Err e => (Err e, m)
  | Ok transfer_state =>
      (Ok (cancel t), <[t := set_transfer_decision transfer_state DDenied]> m)
  end.

Definition portal_approve_generation (m : Transfers) (t : PortalTransferId) (generation : Z) :
    result PortalCommand PortalError * Transfers :=
  match pending_transfer m t with
  | Err e => (Err e, m)
  | Ok transfer_state =>
      if decide (pt_generation transfer_state ≠ generation)
      then (Ok (cancel t), <[t := set_transfer_decision transfer_state DRevoked]> m)
      else (Ok (handoff t), <[t := set_transfer_decision transfer_state DAllowed]> m)
  end.

(** The body of the loop of [source_owner_changed]. *)
Definition owner_changed_step (source_namespace : NamespaceId) (generation : Z)
    (_key : PortalTransferId) (t : PortalTransfer) : PortalTransfer * list PortalCommand :=
  if decide (pt_source_namespace t = source_namespace ∧ pt_decision t = DPending
             ∧ pt_generation t ≠ generation)
  then (set_transfer_decision t DRevoked, [cancel (pt_transfer t)])
  else (t, []).
Definition portal_source_owner_changed (m : Transfers) (source_namespace : NamespaceId)
    (generation : Z) : Transfers * list PortalCommand :=
  btree_loop (owner_changed_step source_namespace generation) m.

End reducer.

(** ** The six portals *)

#[export] Instance clipboard_portal : PortalReducer ClipboardTransferRequest := {|
  validate_request := validate_clipboard_request; transfer_of := clipboard_transfer;
  prompt := PromptClipboardTransfer; handoff := HandoffClipboard; cancel := FailSelection |}.
#[export] Instance drag_and_drop_portal : PortalReducer DragAndDropTransferRequest := {|
  validate_request := validate_drag_and_drop_request; transfer_of := drag_and_drop_transfer;
  prompt := PromptDragAndDropTransfer; handoff := HandoffDragAndDrop; cancel := CancelDragAndDrop |}.
#[export] Instance file_handoff_portal : PortalReducer FileHandoffRequest := {|
  validate_request := validate_file_handoff_request; transfer_of := file_handoff_transfer;
  prompt := PromptFileHandoff; handoff := HandoffFile; cancel := CancelFileHandoff |}.
#[export] Instance screen_capture_portal : PortalReducer ScreenCaptureRequest := {|
  validate_request := validate_screen_capture_request; transfer_of := screen_capture_transfer;
  prompt := PromptScreenCapture; handoff := HandoffScreenCapture; cancel := CancelScreenCapture |}.
#[export] Instance uri_open_portal : PortalReducer UriOpenRequest := {|
  validate_request := validate_uri_open_request; transfer_of := uri_open_transfer;
  prompt := PromptUriOpen; handoff := HandoffUriOpen; cancel := CancelUriOpen |}.
#[export] Instance notification_portal : PortalReducer NotificationRequest := {|
  validate_request := validate_notification_request; transfer_of := notification_transfer;
  prompt := PromptNotification; handoff := DeliverNotification; cancel := DropNotification |}.

(** The operations of each module, by the names they have there. *)
Definition clipboard_request_import := portal_request (Req := ClipboardTransferRequest).
Definition clipboard_deny := portal_deny (Req := ClipboardTransferRequest).
Definition clipboard_approve_generation :=
  portal_approve_generation (Req := ClipboardTransferRequest).
Definition clipboard_source_owner_changed :=
  portal_source_owner_changed (Req := ClipboardTransferRequest).
Definition clipboard_apply_owner_changed (m : Transfers) (event : ClipboardSourceOwnerChanged) :=
  clipboard_source_owner_changed m (oc_source_namespace event) (oc_generation event).
Definition dnd_request_handoff := portal_request (Req := DragAndDropTransferRequest).
Definition dnd_deny := portal_deny (Req := DragAndDropTransferRequest).
Definition dnd_approve_generation := portal_approve_generation (Req := DragAndDropTransferRequest).
Definition dnd_source_owner_changed :=
  portal_source_owner_changed (Req := DragAndDropTransferRequest).
Definition file_request_handoff := portal_request (Req := FileHandoffRequest).
Definition file_deny := portal_deny (Req := FileHandoffRequest).
Definition file_approve_generation := portal_approve_generation (Req := FileHandoffRequest).
Definition file_source_owner_changed := portal_source_owner_changed (Req := FileHandoffRequest).
Definition capture_request_capture := portal_request (Req := ScreenCaptureRequest).
Definition capture_deny := portal_deny (Req := ScreenCaptureRequest).
Definition capture_approve_generation := portal_approve_generation (Req := ScreenCaptureRequest).
Definition capture_source_owner_changed :=
  portal_source_owner_changed (Req := ScreenCaptureRequest).
Definition uri_request_open := portal_request (Req := UriOpenRequest).
Definition uri_deny := portal_deny (Req := UriOpenRequest).
Definition uri_approve_generation := portal_approve_generation (Req := UriOpenRequest).
Definition uri_source_owner_changed := portal_source_owner_changed (Req := UriOpenRequest).
Definition notification_request_display := portal_request (Req := NotificationRequest).
Definition notification_deny := portal_deny (Req := NotificationRequest).
Definition notification_approve_generation :=
  portal_approve_generation (Req := NotificationRequest).
Definition notification_source_owner_changed :=
  portal_source_owner_changed (Req := NotificationRequest).

(** ** Laws of the interface *)

(** The commands of a portal say what they are about, and a closing command is
    not a prompt; a validated request makes a pending transfer with valid IDs. *)
Class PortalLaws (Req : Type) `{PortalReducer Req} : Prop := {
  law_handoff_inj : Inj (=) (=) handoff;
  law_cancel_inj : Inj (=) (=) cancel;
  law_prompt_inj : Inj (=) (=) prompt;
  law_handoff_cancel : ∀ t t', handoff t ≠ cancel t';
  law_prompt_handoff : ∀ t t', prompt t ≠ handoff t';
  law_prompt_cancel : ∀ t t', prompt t ≠ cancel t';
  law_pending : ∀ r, pt_decision (transfer_of r) = DPending;
  law_valid : ∀ r, validate_request r = Ok tt →
    id_valid (pt_transfer (transfer_of r)) ∧ id_valid (pt_source_namespace (transfer_of r))
    ∧ id_valid (pt_target_namespace (transfer_of r));
}.

Ltac portal_laws v :=
  split; [by intros ?? [=]|by intros ?? [=]|by intros ?? [=]|done|done|done|done|];
  let r := fresh "r" in let Hr := fresh "Hr" in
  intros r Hr; destruct r; cbn in *; unfold v in Hr; cbn in Hr;
  do 2 (case_decide; [|discriminate Hr]); tauto.

#[export] Instance clipboard_laws : PortalLaws ClipboardTransferRequest.
Proof. portal_laws validate_clipboard_request. Qed.
#[export] Instance drag_and_drop_laws : PortalLaws DragAndDropTransferRequest.
Proof. portal_laws validate_drag_and_drop_request. Qed.
#[export] Instance file_handoff_laws : PortalLaws FileHandoffRequest.
Proof. portal_laws validate_file_handoff_request. Qed.
#[export] Instance screen_capture_laws : PortalLaws ScreenCaptureRequest.
Proof. portal_laws validate_screen_capture_request. Qed.
#[export] Instance uri_open_laws : PortalLaws UriOpenRequest.
Proof. portal_laws validate_uri_open_request. Qed.
#[export] Instance notification_laws : PortalLaws NotificationRequest.
Proof. portal_laws validate_notification_request. Qed.

(** ** Runs of a portal *)

Section runs.
Context {Req : Type} `{PL : PortalLaws Req}.
Implicit Types (m : Transfers) (t : PortalTransferId).

Inductive PortalOp : Type :=
| OpRequest (r : Req)
| OpDeny (t : PortalTransferId)
| OpApprove (t : PortalTransferId) (generation : Z)
| OpOwnerChanged (source_namespace : NamespaceId) (generation : Z).

(** The commands one operation issues (none when it fails). *)
Definition issued (r : result PortalCommand PortalError) : list PortalCommand :=
  match r with Ok c => [c] | Err _ => [] end.
Definition portal_op m (op : PortalOp) : list PortalCommand * Transfers :=
  match op with
  | OpRequest r => let '(c, m) := portal_request m r in (issued c, m)
  | OpDeny t => let '(c, m) := portal_deny m t in (issued c, m)
  | OpApprove t g => let '(c, m) := portal_approve_generation m t g in (issued c, m)
  | OpOwnerChanged n g => let '(m, cs) := portal_source_owner_changed m n g in (cs, m)
  end.
Fixpoint portal_run m (ops : list PortalOp) : list PortalCommand * Transfers :=
  match ops with
  | [] => ([], m)
  | op :: ops =>
      let '(cs, m1) := portal_op m op in
      let '(cs', m2) := portal_run m1 ops in
      (cs ++ cs', m2)
  end.

Definition opens t (c : PortalCommand) : Prop := ∃ tr, c = prompt tr ∧ pt_transfer tr = t.
Definition answers t (c : PortalCommand) : Prop := c = handoff t ∨ c = cancel t.
Definition awaiting m t : Prop := ∃ tr, m !! t = Some tr ∧ pt_decision tr = DPending.

(** A conversation about [t]: it is answered only while awaiting an answer, and
    once. *)
Inductive conversation t : Prop → list PortalCommand → Prop → Prop :=
| conv_nil (b b' : Prop) : (b ↔ b') → conversation t b [] b'
| conv_other b c l b' :
    ¬ opens t c → ¬ answers t c → conversation t b l b' → conversation t b (c :: l) b'
| conv_open b c l b' : opens t c → conversation t True l b' → conversation t b (c :: l) b'
| conv_answer (b : Prop) c l b' :
    answers t c → b → conversation t False l b' → conversation t b (c :: l) b'.

Lemma conversation_iff t b1 b2 l b' : (b1 ↔ b2) → conversation t b1 l b' → conversation t b2 l b'.
Proof.
  intros Hb Hc. revert b2 Hb. induction Hc as [b b' H1|b c l b' H1 H2 H3 IH|b c l b' H1 H2 IH|b c l b' H1 H2 H3 IH];
    intros b2 Hb.
  - apply conv_nil. tauto.
  - apply conv_other; auto.
  - by apply conv_open.
  - apply conv_answer; tauto.
Qed.

Lemma conversation_app t b l1 b1 l2 b2 :
  conversation t b l1 b1 → conversation t b1 l2 b2 → conversation t b (l1 ++ l2) b2.
Proof.
  induction 1 as [b b' H1|b c l b' H1 H2 H3 IH|b c l b' H1 H2 IH|b c l b' H1 H2 H3 IH];
    intros Hl2; simpl.
  - eapply conversation_iff; [|done]. tauto.
  - apply conv_other; auto.
  - apply conv_open; auto.
  - apply conv_answer; auto.
Qed.

Definition transfers_ok m : Prop :=
  ∀ t tr, m !! t = Some tr → pt_transfer tr = t ∧ id_valid t
    ∧ id_valid (pt_source_namespace tr) ∧ id_valid (pt_target_namespace tr).

Lemma pending_transfer_ok m t tr :
  pending_transfer m t = Ok tr ↔ m !! t = Some tr ∧ pt_decision tr = DPending.
Proof.
  unfold pending_transfer. rewrite res_bind_ok. setoid_rewrite ok_or_ok. split.
  - intros (tr'&?&?). case_decide; naive_solver.
  - intros [? ?]. exists tr. by rewrite decide_True.
Qed.

Lemma answers_prompt t tr : ¬ answers t (prompt tr).
Proof. intros [Hc|Hc]; [by apply law_prompt_handoff in Hc|by apply law_prompt_cancel in Hc]. Qed.
Lemma answers_handoff t t' : answers t (handoff t') ↔ t' = t.
Proof.
  split; [|intros ->; by left]. intros [Hc|Hc]; [by apply law_handoff_inj in Hc|].
  by apply law_handoff_cancel in Hc.
Qed.
Lemma answers_cancel t t' : answers t (cancel t') ↔ t' = t.
Proof.
  split; [|intros ->; by right]. intros [Hc|Hc]; [|by apply law_cancel_inj in Hc].
  symmetry in Hc. by apply law_handoff_cancel in Hc.
Qed.
Lemma opens_prompt t tr : opens t (prompt tr) ↔ pt_transfer tr = t.
Proof.
  split; [|intros <-; by eexists]. intros (tr'&Hc&<-). by apply law_prompt_inj in Hc as ->.
Qed.
Lemma opens_handoff t t' : ¬ opens t (handoff t').
Proof. intros (tr&Hc&_). symmetry in Hc. by apply law_prompt_handoff in Hc. Qed.
Lemma opens_cancel t t' : ¬ opens t (cancel t').
Proof. intros (tr&Hc&_). symmetry in Hc. by apply law_prompt_cancel in Hc. Qed.

(** An answer to [t'] alone. *)
Lemma conversation_one m t t' c (d : PortalDecision) tr :
  (∀ s, answers s c ↔ t' = s) → (∀ s, ¬ opens s c) → d ≠ DPending →
  m !! t' = Some tr → pt_decision tr = DPending →
  conversation t (awaiting m t) [c] (awaiting (<[t' := set_transfer_decision tr d]> m) t).
Proof.
  intros Ha Ho Hd Hm Hp. destruct (decide (t' = t)) as [->|Hne].
  - apply conv_answer; [by apply Ha|by exists tr|]. apply conv_nil. split; [done|].
    intros (tr'&Htr'&Hp'). rewrite lookup_insert_eq in Htr'. by simplify_eq/=.
  - apply conv_other; [done|by rewrite Ha|]. apply conv_nil. unfold awaiting.
    by rewrite lookup_insert_ne.
Qed.

(** The transfers [source_owner_changed] refuses. *)
Definition disowned (n : NamespaceId) (g : Z) (tr : PortalTransfer) : Prop :=
  pt_source_namespace tr = n ∧ pt_decision tr = DPending ∧ pt_generation tr ≠ g.
#[export] Instance disowned_dec n g tr : Decision (disowned n g tr).
Proof. unfold disowned; apply _. Defined.

Lemma owner_changed_step_out n g k tr :
  (owner_changed_step n g k tr).2 = if decide (disowned n g tr) then [cancel (pt_transfer tr)] else [].
Proof. unfold owner_changed_step, disowned. by repeat case_decide. Qed.

Lemma conversation_cancels t n g (l : list (PortalTransferId * PortalTransfer)) (b b' : Prop) :
  NoDup l.*1 → Forall (λ e, pt_transfer e.2 = e.1) l →
  ((∃ tr, (t, tr) ∈ l ∧ disowned n g tr) → b ∧ ¬ b') →
  ((¬ ∃ tr, (t, tr) ∈ l ∧ disowned n g tr) → b ↔ b') →
  conversation t b (l ≫= λ kv, (owner_changed_step n g kv.1 kv.2).2) b'.
Proof.
  intros Hnd Hl. revert b. induction l as [|[k tr] l IH]; intros b H1 H2; simpl.
  { apply conv_nil. apply H2. intros (tr&Hin&_). by apply not_elem_of_nil in Hin. }
  rewrite fmap_cons in Hnd. apply NoDup_cons in Hnd as [Hk Hnd]. simpl in Hk.
  apply Forall_cons in Hl as [Heq Hl]. simpl in Heq.
  specialize (IH Hnd Hl). rewrite owner_changed_step_out. case_decide as Hd; simpl.
  - destruct (decide (k = t)) as [->|Hne].
    + destruct H1 as [Hb Hb']; [exists tr; split; [left|done]|].
      apply conv_answer; [by rewrite answers_cancel|done|]. apply IH; [|tauto].
      intros (tr'&Hin&_). destruct Hk. apply list_elem_of_fmap. by exists (t, tr').
    + apply conv_other; [apply opens_cancel|rewrite answers_cancel; congruence|]. apply IH.
      * intros (tr'&Hin&Ht). apply H1. exists tr'. split; [by right|done].
      * intros Hn. apply H2. intros (tr'&[[= <- _]|Hin]%elem_of_cons&Ht); [done|]. apply Hn. eauto.
  - apply IH.
    + intros (tr'&Hin&Ht). apply H1. exists tr'. split; [by right|done].
    + intros Hn. apply H2. intros (tr'&[[= <- <-]|Hin]%elem_of_cons&Ht); [done|]. apply Hn. eauto.
Qed.

Lemma portal_op_conversation m op t :
  transfers_ok m →
  let '(cs, m') := portal_op m op in
  transfers_ok m' ∧ conversation t (awaiting m t) cs (awaiting m' t).
Proof.
  intros Hok. destruct op as [r|t'|t' g|n g]; unfold portal_op.
  - unfold portal_request. destruct (validate_request r) as [[]|e] eqn:Hv.
    2:{ split; [done|]. by apply conv_nil. }
    set (tr := transfer_of r). destruct (law_valid r Hv) as (V1&V2&V3). fold tr in V1, V2, V3.
    split.
    + intros k tr' [[<- <-]|[_ Hk]]%lookup_insert_Some; [done|by apply Hok].
    + simpl. destruct (decide (pt_transfer tr = t)) as [Heq|Hne].
      * apply conv_open; [by apply opens_prompt|]. apply conv_nil. split; [intros _|done].
        exists tr. rewrite Heq, lookup_insert_eq. split; [done|]. apply law_pending.
      * apply conv_other; [by rewrite opens_prompt|apply answers_prompt|]. apply conv_nil.
        unfold awaiting. by rewrite lookup_insert_ne.
  - unfold portal_deny. destruct (pending_transfer m t') as [tr|e] eqn:Hp.
    2:{ split; [done|]. by apply conv_nil. }
    apply pending_transfer_ok in Hp as [Hm Hp]. split.
    + intros k tr' [[<- <-]|[_ Hk]]%lookup_insert_Some; [by apply Hok in Hm|by apply Hok].
    + apply conversation_one; try done; [intros s; apply answers_cancel|intros s; apply opens_cancel].
  - unfold portal_approve_generation. destruct (pending_transfer m t') as [tr|e] eqn:Hp.
    2:{ split; [done|]. by apply conv_nil. }
    apply pending_transfer_ok in Hp as [Hm Hp].
    assert (∀ d, transfers_ok (<[t' := set_transfer_decision tr d]> m)) as Hins.
    { intros d k tr' [[<- <-]|[_ Hk]]%lookup_insert_Some; [by apply Hok in Hm|by apply Hok]. }
    case_decide; (split; [done|]); apply conversation_one; try done; intros s;
      [apply answers_cancel|apply opens_cancel|apply answers_handoff|apply opens_handoff].
  - unfold portal_source_owner_changed.
    pose proof (btree_loop_lookup (owner_changed_step n g) m) as Hl.
    pose proof (btree_loop_out (owner_changed_step n g) m) as Ho.
    destruct (btree_loop _ m) as [m' cs]. simpl in Hl, Ho. split.
    + intros k tr' Hk. rewrite Hl in Hk. destruct (m !! k) as [tr|] eqn:E; simplify_eq/=.
      apply Hok in E. unfold owner_changed_step. by case_decide.
    + rewrite Ho. apply conversation_cancels.
      * apply NoDup_btree_keys.
      * apply Forall_forall. intros [k tr] Hin%elem_of_btree_entries. by apply (Hok k tr Hin).
      * intros (tr&Hin%elem_of_btree_entries&Hd). split; [exists tr; split; [done|apply Hd]|].
        intros (tr'&Htr'&Hp'). rewrite Hl, Hin in Htr'. simplify_eq/=.
        unfold owner_changed_step in Hp'. rewrite decide_True in Hp' by exact Hd. discriminate Hp'.
      * intros Hn. unfold awaiting. rewrite Hl. destruct (m !! t) as [tr|] eqn:E; simpl.
        2:{ split; intros (?&?&_); done. }
        unfold owner_changed_step. rewrite decide_False; [done|].
        intros Hd. apply Hn. exists tr. by rewrite elem_of_btree_entries.
Qed.

Lemma portal_run_conversation m ops t :
  transfers_ok m →
  let '(cs, m') := portal_run m ops in
  transfers_ok m' ∧ conversation t (awaiting m t) cs (awaiting m' t).
Proof.
  revert m. induction ops as [|op ops IH]; intros m Hok; simpl.
  { split; [done|]. by apply conv_nil. }
  pose proof (portal_op_conversation m op t Hok) as H1. destruct (portal_op m op) as [cs m1].
  destruct H1 as [Hok1 Hc1]. specialize (IH m1 Hok1). destruct (portal_run m1 ops) as [cs' m2].
  destruct IH as [Hok2 Hc2]. split; [done|]. by eapply conversation_app.
Qed.

Lemma transfers_ok_empty : transfers_ok ∅.
Proof. done. Qed.

Lemma in_owner_changed m n g t :
  transfers_ok m →
  cancel t ∈ (portal_source_owner_changed m n g).2 ↔ ∃ tr, m !! t = Some tr ∧ disowned n g tr.
Proof.
  intros Hok. unfold portal_source_owner_changed. rewrite btree_loop_out.
  rewrite list_elem_of_bind. split.
  - intros ([k tr]&Hin&He%elem_of_btree_entries). rewrite owner_changed_step_out in Hin. simpl in *.
    case_decide; [|by apply not_elem_of_nil in Hin].
    apply list_elem_of_singleton, law_cancel_inj in Hin as ->.
    exists tr. destruct (Hok _ _ He) as [-> _]. done.
  - intros (tr&Hm&Hd). exists (t, tr). rewrite elem_of_btree_entries. split; [|done].
    rewrite owner_changed_step_out, decide_True by done. apply list_elem_of_singleton. simpl.
    by destruct (Hok _ _ Hm) as [-> _].
Qed.

Lemma handoff_not_in_owner_changed m n g t :
  handoff t ∉ (portal_source_owner_changed m n g).2.
Proof.
  unfold portal_source_owner_changed. rewrite btree_loop_out, list_elem_of_bind.
  intros ([k tr]&Hin&_). rewrite owner_changed_step_out in Hin.
  case_decide; [|by apply not_elem_of_nil in Hin].
  apply list_elem_of_singleton in Hin. by apply law_handoff_cancel in Hin.
Qed.

End runs.
Arguments PortalOp : clear implicits.

(** ** Properties *)

(** Every portal answers once.  For each of the six portals and in every run
    of requests, denials, approvals and owner changes: a transfer is handed off or
    refused only while it awaits an answer, that is after it was prompted for and
    has not been answered since; and at the end it awaits one exactly when the
    last command about it was its prompt.  All stored transfers are under their
    own, valid IDs. *)
Theorem portal_answers_once (Req : Type) `{PortalLaws Req} (ops : list (PortalOp Req))
    (t : PortalTransferId) :
  let '(commands, m) := portal_run ∅ ops in
  conversation t False commands (awaiting m t) ∧ transfers_ok m.
Proof.
  pose proof (portal_run_conversation ∅ ops t transfers_ok_empty) as Hc.
  destruct (portal_run ∅ ops) as [cs m]. destruct Hc as [? Hc]. split; [|done].
  eapply conversation_iff; [|exact Hc]. split; [|done]. by intros (tr&?&_).
Qed.

Definition example_clipboard : ClipboardTransferRequest :=
  mk_clipboard_request (from_raw 4) (from_raw 1) (from_raw 2) (TargetMime (str "text/html")) 12 9.
Definition example_clipboard_ops : list (PortalOp ClipboardTransferRequest) :=
  [OpRequest example_clipboard; OpOwnerChanged (from_raw 1) 10; OpApprove (from_raw 4) 9].
Lemma portal_answers_once_witness :
  (portal_run ∅ example_clipboard_ops).1 =
    [PromptClipboardTransfer (clipboard_transfer example_clipboard); FailSelection (from_raw 4)]
  ∧ transfers_ok (portal_run ∅ example_clipboard_ops).2.
Proof.
  pose proof (portal_answers_once ClipboardTransferRequest example_clipboard_ops (from_raw 4)) as Hc.
  split; [vm_compute; reflexivity|].
  destruct (portal_run ∅ example_clipboard_ops) as [cs m]. apply Hc.
Defined.

(** Hand-offs and refusals, exactly.  In every state a portal reaches, an
    operation hands the transfer off exactly when it approves a pending transfer
    with the generation it was requested with; it refuses the transfer exactly
    when it denies it while pending, approves it with another generation, or
    reports that its source namespace's owner has moved to another generation. *)
Theorem portal_handoff_exact (Req : Type) `{PortalLaws Req} (ops : list (PortalOp Req))
    (op : PortalOp Req) (t : PortalTransferId) :
  let m := (portal_run ∅ ops).2 in
  (handoff t ∈ (portal_op m op).1 ↔
     ∃ tr, m !! t = Some tr ∧ pt_decision tr = DPending ∧ op = OpApprove t (pt_generation tr))
  ∧ (cancel t ∈ (portal_op m op).1 ↔
     ∃ tr, m !! t = Some tr ∧ pt_decision tr = DPending
       ∧ (op = OpDeny t ∨ (∃ g, op = OpApprove t g ∧ g ≠ pt_generation tr)
          ∨ ∃ g, op = OpOwnerChanged (pt_source_namespace tr) g ∧ g ≠ pt_generation tr)).
Proof.
  intros m. assert (transfers_ok m) as Hok.
  { pose proof (portal_run_conversation ∅ ops t transfers_ok_empty) as Hc. unfold m.
    destruct (portal_run ∅ ops). apply Hc. }
  clearbody m. destruct op as [r|t'|t' g|n g]; unfold portal_op.
  - unfold portal_request. destruct (validate_request r); simpl;
      (split; (split; [|naive_solver])); rewrite ?list_elem_of_singleton.
    + intros Hc. symmetry in Hc. by apply law_prompt_handoff in Hc.
    + intros Hc. symmetry in Hc. by apply law_prompt_cancel in Hc.
    + intros Hc. by apply not_elem_of_nil in Hc.
    + intros Hc. by apply not_elem_of_nil in Hc.
  - unfold portal_deny. destruct (pending_transfer m t') as [tr|e] eqn:Hp; simpl.
    + apply pending_transfer_ok in Hp as [Hm Hp]. rewrite !list_elem_of_singleton.
      split; [split; [by intros ?%law_handoff_cancel|naive_solver]|].
      split; [intros ->%law_cancel_inj; eauto 6|naive_solver].
    + rewrite !elem_of_nil. split; [naive_solver|]. split; [done|].
      intros (tr&Hm&Hp'&[[= ->]|[(?&?&_)|(?&?&_)]]); try done.
      assert (pending_transfer m t = Ok tr) by (by apply pending_transfer_ok). congruence.
  - unfold portal_approve_generation. destruct (pending_transfer m t') as [tr|e] eqn:Hp; simpl.
    + apply pending_transfer_ok in Hp as [Hm Hp]. case_decide as Hg; simpl;
        rewrite !list_elem_of_singleton.
      * split; [split; [by intros ?%law_handoff_cancel|naive_solver]|].
        split; [intros ->%law_cancel_inj; eauto 10|naive_solver].
      * subst g. split; [split; [intros ->%law_handoff_inj; eauto|naive_solver]|].
        split; [intros Hc; symmetry in Hc; by apply law_handoff_cancel in Hc|naive_solver].
    + assert (∀ tr g', OpApprove (Req := Req) t' g = OpApprove t g' → m !! t = Some tr →
        pt_decision tr = DPending → False) as Hno.
      { intros tr g' [= -> ->] Hm Hd.
        assert (pending_transfer m t = Ok tr) by (by apply pending_transfer_ok). congruence. }
      rewrite !elem_of_nil. split; (split; [done|]); naive_solver.
  - pose proof (in_owner_changed m n g t Hok) as H1.
    pose proof (handoff_not_in_owner_changed m n g t) as H2.
    destruct (portal_source_owner_changed m n g) as [m' cs]. simpl in *. split; [naive_solver|].
    rewrite H1. unfold disowned. naive_solver.
Qed.

Lemma portal_handoff_exact_witness :
  handoff (Req := ClipboardTransferRequest) (from_raw 4)
    ∈ (portal_op (portal_run ∅ [OpRequest example_clipboard]).2 (OpApprove (Req := ClipboardTransferRequest) (from_raw 4) 9)).1.
Proof.
  pose proof (portal_handoff_exact ClipboardTransferRequest [OpRequest example_clipboard]
    (OpApprove (from_raw 4) 9) (from_raw 4)) as [H _].
  apply H. exists (clipboard_transfer example_clipboard). vm_compute. auto.
Defined.

(** ** What validation lets through *)

Lemma uri_scheme_Some uri scheme :
  uri_scheme uri = Some scheme ↔
  ∃ rest, uri = scheme ++ 58 :: rest ∧ 58 ∉ scheme ∧ scheme ≠ [] ∧ Forall scheme_byte scheme.
Proof.
  unfold uri_scheme. split.
  - intros Hu. destruct (split_once 58 uri) as [[s rest]|] eqn:E; simplify_eq/=.
    case_decide as Hd; simplify_eq. apply split_once_Some in E as [-> Hn]. exists rest.
    split; [done|]. split; [done|]. destruct (decide (scheme = [])); [tauto|].
    destruct (decide (Forall scheme_byte scheme)); tauto.
  - intros (rest&->&Hn&Hne&HF).
    rewrite (proj2 (split_once_Some 58 _ scheme rest)) by done. simpl.
    rewrite decide_False; [done|]. tauto.
Qed.

(** Whether [s] starts with the lower-case ASCII word [w], in any case. *)
Definition starts_with_any_case (w s : list Z) : Prop := w `prefix_of` to_ascii_lowercase s.

Lemma target_is_text_spec t :
  target_is_text t ↔
  target_as_str t = str "UTF8_STRING" ∨ target_as_str t = str "TEXT"
  ∨ target_as_str t = str "STRING" ∨ starts_with_any_case (str "text/") (target_as_str t).
Proof.
  unfold target_is_text, starts_with_any_case. cbv zeta. split; [|tauto].
  intros [?|[?|[?|[Heq|[Hp|?]]]]]; auto.
  - right; right; right. rewrite Heq. by exists (str "plain").
  - right; right; right. destruct Hp as [k ->]. by exists (str "plain;" ++ k).
Qed.

Lemma sum_le_length_bound (l : list (list Z)) (max : Z) :
  Forall (λ s, str_len s ≤ max) l →
  Z.of_nat (sum_list_with length l) ≤ max * Z.of_nat (length l).
Proof. unfold str_len. induction 1; simpl; lia. Qed.

(** What validation lets through.  An accepted URI has one of the four
    supported schemes before its first colon, which the prompt's hint names, no
    control or white-space character and at most 2048 bytes; an accepted suggested
    file name is a single path component (no 47, slash, and no 92, backslash); an accepted clipboard target is
    [TARGETS], a text atom or a [text/] type in any case; an accepted notification
    is prompted for with at most 1408 bytes. *)
Theorem accepted_requests_safe :
  (∀ r, validate_uri_open_request r = Ok tt →
     ∃ scheme rest, uo_uri r = scheme ++ 58 :: rest ∧ supported_uri_scheme scheme
       ∧ uri_open_type_hint (uo_uri r) = str "uri-open:" ++ scheme
       ∧ Forall (λ ch, ¬ is_control ch ∧ ¬ is_whitespace ch) (chars (uo_uri r))
       ∧ 0 < pt_byte_size (uri_open_transfer r) ≤ 2048)
  ∧ (∀ r name, validate_file_handoff_request r = Ok tt → fh_suggested_name r = Some name →
       name ≠ [] ∧ name ≠ str "." ∧ name ≠ str ".." ∧ str_len name ≤ 255
       ∧ (∀ dir base, name ≠ dir ++ 47 :: base) ∧ (∀ dir base, name ≠ dir ++ 92 :: base))
  ∧ (∀ r, validate_clipboard_request r = Ok tt ↔
       id_valid (cb_transfer r) ∧ id_valid (cb_source_namespace r) ∧ id_valid (cb_target_namespace r)
       ∧ let s := target_as_str (cb_target r) in
         (s ∈ [str "TARGETS"; str "UTF8_STRING"; str "TEXT"; str "STRING"]
          ∨ starts_with_any_case (str "text/") s))
  ∧ (∀ r, validate_notification_request r = Ok tt →
       0 < pt_byte_size (notification_transfer r) ≤ 128 + 1024 + 4 * 64).
Proof.
  split; [|split; [|split]].
  - intros r Hv. unfold validate_uri_open_request in Hv.
    destruct (uri_scheme (uo_uri r)) as [scheme|] eqn:Hs; simpl in Hv; repeat case_decide; try done.
    pose proof Hs as (rest&Heq&_)%uri_scheme_Some. exists scheme, rest. split; [done|].
    split; [done|]. unfold uri_open_type_hint. rewrite Hs. split; [done|].
    match goal with Hn : ¬ (uo_uri r = [] ∨ _ ∨ _) |- _ => rename Hn into Hbad end.
    split.
    + rewrite Forall_forall. intros ch Hch.
      split; intros Hc; apply Hbad; do 2 right; apply Exists_exists; exists ch; auto.
    + cbn [pt_byte_size uri_open_transfer]. unfold str_len, MAX_URI_LEN in *.
      destruct (uo_uri r); simpl in *; [tauto|lia].
  - intros r name Hv Hn. unfold validate_file_handoff_request in Hv. rewrite Hn in Hv.
    repeat case_decide; try done.
    match goal with Hok : valid_suggested_file_name name |- _ => rename Hok into Hok' end.
    destruct Hok' as (?&?&Hslash&Hback&?&?). do 4 (split; [done|]).
    split; intros dir base ->; [apply Hslash|apply Hback]; set_solver.
  - intros r. unfold validate_clipboard_request. cbv zeta. rewrite !elem_of_cons, elem_of_nil.
    pose proof (target_is_text_spec (cb_target r)) as Ht.
    repeat case_decide; split; try done; naive_solver.
  - intros r Hv. unfold validate_notification_request in Hv. repeat case_decide; try done.
    match goal with Hok : valid_notification_text _ _ ∧ _ |- _ => destruct Hok as (Hs&Hb&Ha) end.
    cbn [pt_byte_size notification_transfer]. unfold notification_byte_size.
    assert (0 ≤ from_option str_len 0 (no_body r) ≤ 1024) as Hb'.
    { destruct (no_body r); simpl in *; [|lia]. destruct Hb as (_&?&_).
      unfold str_len, MAX_NOTIFICATION_BODY_LEN in *. lia. }
    assert (Forall (λ s, str_len s ≤ 64) (no_actions r)) as Ha'.
    { eapply Forall_impl; [exact Ha|]. by intros s (_&?&_). }
    pose proof (sum_le_length_bound _ _ Ha'). destruct Hs as (Hne&Hlen&_).
    unfold str_len, MAX_NOTIFICATION_SUMMARY_LEN, MAX_NOTIFICATION_ACTIONS in *.
    destruct (no_summary r); simpl in *; [tauto|lia].
Qed.

Lemma accepted_requests_safe_witness :
  ∃ scheme rest, str "https://sophia.example" = scheme ++ 58 :: rest
    ∧ supported_uri_scheme scheme.
Proof.
  destruct accepted_requests_safe as [H _].
  destruct (H (mk_uri_request (from_raw 1) (from_raw 1) (from_raw 2) (str "https://sophia.example") 1)
    ltac:(vm_compute; reflexivity)) as (scheme&rest&Heq&Hs&_).
  exists scheme, rest. split; [exact Heq|exact Hs].
Defined.
