(* ===== verification/Chrome.v ===== *)
(** * Chrome metadata and notifications
    ([sophia-engine/src/chrome/{metadata,notification}.rs])

    The broker keeps one sanitized descriptor per surface, the presenter the
    notifications that wait for a decision of the portal and those on screen. *)

From stdpp Require Import strings.
From S2P Require Import Prelude Ids PortalPackets Text Portals.
Local Open Scope Z_scope.

(** ** Metadata *)

Notation ChromeBroker := (gmap SurfaceId ChromeDescriptor).
Definition MAX_CHROME_LABEL_LEN : Z := 128.

Record SanitizedChromeMetadata : Type := mk_metadata {
  sm_surface : SurfaceId; sm_label : option (list Z); sm_label_redacted : bool;
  sm_icon : option IconTokenId; sm_trust_level : TrustLevel; sm_attention : AttentionState;
  sm_generation : Z;
}.
Inductive MetadataChromeRejectReason : Type := MInvalidSurface | MInvalidLabel | MStaleGeneration.
Inductive MetadataChromeUpdate : Type :=
| Upserted (surface : SurfaceId) | Removed (surface : SurfaceId)
| MRejected (reason : MetadataChromeRejectReason).
#[export] Instance metadata_update_eq_dec : EqDecision MetadataChromeUpdate.
Proof. unfold EqDecision, Decision. repeat decide equality. Defined.

(** The same test as the notification portal's, on another bound. *)
Definition valid_chrome_text (text : list Z) (max_len : Z) : Prop :=
  text ≠ [] ∧ str_len text ≤ max_len ∧ ¬ Exists is_control (chars text).
#[export] Instance valid_chrome_text_dec t m : Decision (valid_chrome_text t m).
Proof. unfold valid_chrome_text; apply _. Defined.
Definition valid_chrome_label (text : list Z) : Prop := valid_chrome_text text MAX_CHROME_LABEL_LEN.
#[export] Instance valid_chrome_label_dec t : Decision (valid_chrome_label t).
Proof. unfold valid_chrome_label; apply _. Defined.

Definition chrome_descriptor_from_metadata (m : SanitizedChromeMetadata) :
    result ChromeDescriptor MetadataChromeRejectReason :=
  let? label :=
    match sm_label m with
    | Some text =>
        if decide (valid_chrome_label text) then Ok (Some (mk_label text (sm_label_redacted m)))
        else Err MInvalidLabel
    | None => Ok None
    end in
  Ok (mk_descriptor_chrome (sm_surface m) label (sm_icon m) (sm_trust_level m) (sm_attention m)
        (sm_generation m)).

Definition chrome_upsert (b : ChromeBroker) (d : ChromeDescriptor) : ChromeBroker :=
  <[cd_surface d := d]> b.
(** [existing.generation > generation]. *)
Definition stale_for (b : ChromeBroker) (surface : SurfaceId) (generation : Z) : Prop :=
  match b !! surface with Some existing => generation < cd_generation existing | None => False end.
#[export] Instance stale_for_dec b s g : Decision (stale_for b s g).
Proof. unfold stale_for. destruct (b !! s); apply _. Defined.

Definition apply_metadata (b : ChromeBroker) (m : SanitizedChromeMetadata) :
    MetadataChromeUpdate * ChromeBroker :=
  match chrome_descriptor_from_metadata m with
  | Err _ => (MRejected MInvalidLabel, b)
  | Ok descriptor =>
      if decide (¬ surface_valid (cd_surface descriptor)) then (MRejected MInvalidSurface, b)
      else if decide (stale_for b (cd_surface descriptor) (cd_generation descriptor))
      then (MRejected MStaleGeneration, b)
      else (Upserted (cd_surface descriptor), chrome_upsert b descriptor)
  end.
Definition chrome_remove_surface (b : ChromeBroker) (surface : SurfaceId) : ChromeBroker :=
  delete surface b.
Definition remove_metadata (b : ChromeBroker) (surface : SurfaceId) (generation : Z) :
    MetadataChromeUpdate * ChromeBroker :=
  if decide (¬ surface_valid surface) then (MRejected MInvalidSurface, b)
  else if decide (stale_for b surface generation) then (MRejected MStaleGeneration, b)
  else (Removed surface, chrome_remove_surface b surface).

(** ** Notifications *)

Definition MAX_CHROME_NOTIFICATIONS : Z := 64.

Record ChromeNotification : Type := mk_chrome_notification {
  cn_transfer : PortalTransferId; cn_summary : list Z; cn_body : option (list Z);
  cn_urgency : NotificationUrgency; cn_actions : list (list Z); cn_generation : Z;
}.
Inductive NotificationChromeCommand : Type :=
| Present (transfer : PortalTransferId) | Dismiss (transfer : PortalTransferId).
Inductive NotificationChromeRejectReason : Type :=
| NInvalidTransfer | NInvalidText | NTooManyActions | NTooManyVisibleNotifications | NUnknownTransfer.
Inductive NotificationChromeUpdate : Type :=
| Staged (transfer : PortalTransferId) | Presented (transfer : PortalTransferId)
| Dismissed (transfer : PortalTransferId) | NIgnored | NRejected (r : NotificationChromeRejectReason).
#[export] Instance notification_update_eq_dec : EqDecision NotificationChromeUpdate.
Proof. unfold EqDecision, Decision. repeat decide equality. Defined.

Notation Notifications := (gmap PortalTransferId ChromeNotification).
Record NotificationChromePresenter : Type := mk_presenter {
  pr_pending : Notifications; pr_visible : Notifications;
}.
Definition presenter_new : NotificationChromePresenter := mk_presenter ∅ ∅.

Definition valid_notification_chrome_text := valid_chrome_text.
Definition valid_chrome_body (body : option (list Z)) : Prop :=
  match body with
  | Some body => valid_notification_chrome_text body MAX_NOTIFICATION_BODY_LEN
  | None => True
  end.
#[export] Instance valid_chrome_body_dec b : Decision (valid_chrome_body b).
Proof. destruct b; unfold valid_chrome_body, valid_notification_chrome_text; apply _. Defined.
#[export] Instance valid_notification_chrome_text_dec t m : Decision (valid_notification_chrome_text t m).
Proof. unfold valid_notification_chrome_text; apply _. Defined.

Definition chrome_notification (r : NotificationRequest) : ChromeNotification :=
  mk_chrome_notification (no_transfer r) (no_summary r) (no_body r) (no_urgency r) (no_actions r)
    (no_generation r).
Definition stage_request (p : NotificationChromePresenter) (r : NotificationRequest) :
    NotificationChromeUpdate * NotificationChromePresenter :=
  if decide (¬ id_valid (no_transfer r)) then (NRejected NInvalidTransfer, p)
  else if decide (¬ valid_notification_chrome_text (no_summary r) MAX_NOTIFICATION_SUMMARY_LEN
                  ∨ ¬ valid_chrome_body (no_body r)
                  ∨ Exists (λ action, ¬ valid_notification_chrome_text action MAX_NOTIFICATION_ACTION_LEN)
                      (no_actions r))
  then (NRejected NInvalidText, p)
  else if decide (MAX_NOTIFICATION_ACTIONS < Z.of_nat (length (no_actions r)))
  then (NRejected NTooManyActions, p)
  else (Staged (no_transfer r),
        mk_presenter (<[no_transfer r := chrome_notification r]> (pr_pending p)) (pr_visible p)).

Definition present (p : NotificationChromePresenter) (t : PortalTransferId) :
    NotificationChromeUpdate * NotificationChromePresenter :=
  match pr_pending p !! t with
  | None => (NRejected NUnknownTransfer, p)
  | Some notification =>
      let pending := delete t (pr_pending p) in
      if decide (MAX_CHROME_NOTIFICATIONS ≤ Z.of_nat (size (pr_visible p)) ∧ pr_visible p !! t = None)
      then (NRejected NTooManyVisibleNotifications,
            mk_presenter (<[t := notification]> pending) (pr_visible p))
      else (Presented t, mk_presenter pending (<[t := notification]> (pr_visible p)))
  end.
Definition dismiss (p : NotificationChromePresenter) (t : PortalTransferId) :
    NotificationChromeUpdate * NotificationChromePresenter :=
  let p' := mk_presenter (delete t (pr_pending p)) (delete t (pr_visible p)) in
  if decide (is_Some (pr_pending p !! t) ∨ is_Some (pr_visible p !! t))
  then (Dismissed t, p') else (NRejected NUnknownTransfer, p').
Definition apply_command (p : NotificationChromePresenter) (c : NotificationChromeCommand) :
    NotificationChromeUpdate * NotificationChromePresenter :=
  match c with Present t => present p t | Dismiss t => dismiss p t end.
Definition notification_chrome_command_from_portal (c : PortalCommand) :
    option NotificationChromeCommand :=
  match c with
  | DeliverNotification t => Some (Present t)
  | DropNotification t => Some (Dismiss t)
  | _ => None
  end.
Definition apply_portal_command (p : NotificationChromePresenter) (c : PortalCommand) :
    NotificationChromeUpdate * NotificationChromePresenter :=
  match notification_chrome_command_from_portal c with
  | None => (NIgnored, p)
  | Some command => apply_command p command
  end.

(** ** Descriptors never go back *)

Inductive MetadataOp : Type :=
| ApplyMetadata (m : SanitizedChromeMetadata) | RemoveMetadata (s : SurfaceId) (generation : Z)
| RemoveSurface (s : SurfaceId).
Definition metadata_step (b : ChromeBroker) (op : MetadataOp) : ChromeBroker :=
  match op with
  | ApplyMetadata m => (apply_metadata b m).2
  | RemoveMetadata s g => (remove_metadata b s g).2
  | RemoveSurface s => chrome_remove_surface b s
  end.

Definition label_ok (d : ChromeDescriptor) : Prop :=
  match cd_label d with Some l => valid_chrome_label (dl_text l) | None => True end.

(** A descriptor of the broker is that of its surface, which is valid, and its
    label is printable. *)
Definition broker_ok (b : ChromeBroker) : Prop :=
  ∀ s d, b !! s = Some d → cd_surface d = s ∧ surface_valid s ∧ label_ok d.

Lemma descriptor_from_ok m d :
  chrome_descriptor_from_metadata m = Ok d →
  cd_surface d = sm_surface m ∧ cd_generation d = sm_generation m ∧ label_ok d.
Proof.
  unfold chrome_descriptor_from_metadata, label_ok. destruct (sm_label m) as [t|]; simpl.
  - case_decide; [|done]. by intros [= <-].
  - by intros [= <-].
Qed.

Lemma apply_metadata_inv b m :
  (∃ d, apply_metadata b m = (Upserted (cd_surface d), chrome_upsert b d)
     ∧ chrome_descriptor_from_metadata m = Ok d ∧ surface_valid (cd_surface d)
     ∧ ¬ stale_for b (cd_surface d) (cd_generation d))
  ∨ (∃ r, apply_metadata b m = (MRejected r, b)).
Proof.
  unfold apply_metadata. destruct (chrome_descriptor_from_metadata m) as [d|] eqn:E; [|right; by eexists].
  case_decide; [right; by eexists|]. case_decide; [right; by eexists|]. left. by exists d.
Qed.

Lemma metadata_step_ok b op : broker_ok b → broker_ok (metadata_step b op).
Proof.
  unfold broker_ok. intros Hb. destruct op as [m|s g|s]; simpl.
  - destruct (apply_metadata_inv b m) as [(d&->&Hd&Hv&_)|[r ->]]; [|done]. simpl.
    unfold chrome_upsert. intros s d' [[<- <-]|[_ H]]%lookup_insert_Some; [|by apply Hb].
    split; [done|]. split; [done|]. by apply descriptor_from_ok in Hd as (_&_&?).
  - unfold remove_metadata. repeat case_decide; try done. simpl. unfold chrome_remove_surface. by intros s' d [_ Hs]%lookup_delete_Some; apply Hb.
  - unfold chrome_remove_surface. by intros s' d [_ Hs]%lookup_delete_Some; apply Hb.
Qed.

(** Chrome metadata is sound and monotone.  Whatever updates and removals
    arrive, each descriptor kept is that of its own valid surface and has a label
    that is absent or printable and at most 128 bytes long; and no step replaces a
    descriptor by one of a smaller generation or removes it for a smaller
    generation: a rejected step changes nothing. *)
Theorem metadata_sound (ops : list MetadataOp) (op : MetadataOp) :
  let b := foldl metadata_step ∅ ops in
  broker_ok b
  ∧ (∀ s d, b !! s = Some d →
       match metadata_step b op !! s with
       | Some d' => cd_generation d ≤ cd_generation d'
       | None => op = RemoveSurface s ∨ ∃ g, op = RemoveMetadata s g ∧ cd_generation d ≤ g
       end)
  ∧ (∀ m r, op = ApplyMetadata m → (apply_metadata b m).1 = MRejected r → metadata_step b op = b).
Proof.
  intros b. assert (broker_ok b) as Hb.
  { unfold b. induction ops as [|o ops IH] using rev_ind; [done|].
    rewrite foldl_app. by apply metadata_step_ok. }
  split; [done|]. split.
  - intros s d Hs. destruct op as [m|s' g|s']; simpl.
    + destruct (apply_metadata_inv b m) as [(d'&->&_&_&Hst)|[r ->]]; simpl; [|by rewrite Hs].
      unfold chrome_upsert. destruct (decide (cd_surface d' = s)) as [<-|].
      * rewrite lookup_insert_eq. unfold stale_for in Hst. rewrite Hs in Hst. lia.
      * by rewrite lookup_insert_ne, Hs.
    + unfold remove_metadata. case_decide; [by simpl; rewrite Hs|]. case_decide as Hst; [by simpl; rewrite Hs|]. simpl.
      unfold chrome_remove_surface. destruct (decide (s' = s)) as [->|].
      * rewrite lookup_delete_eq. right. exists g. unfold stale_for in Hst. rewrite Hs in Hst.
        split; [done|lia].
      * by rewrite lookup_delete_ne, Hs.
    + unfold chrome_remove_surface. destruct (decide (s' = s)) as [->|].
      * rewrite lookup_delete_eq. by left.
      * by rewrite lookup_delete_ne, Hs.
  - intros m r -> Hr. simpl. destruct (apply_metadata_inv b m) as [(d'&E&_)|[r' ->]]; [|done].
    by rewrite E in Hr.
Qed.

(** ** What is on screen was staged and then presented *)

Inductive PresenterOp : Type := StageRequest (r : NotificationRequest) | PortalSays (c : PortalCommand).
Definition presenter_step (p : NotificationChromePresenter) (op : PresenterOp) :
    NotificationChromeUpdate * NotificationChromePresenter :=
  match op with
  | StageRequest r => stage_request p r
  | PortalSays c => apply_portal_command p c
  end.
(** The answers of a run, with the operations, and the state after it. *)
Definition presenter_log_step (s : list (PresenterOp * NotificationChromeUpdate) * NotificationChromePresenter)
    (op : PresenterOp) : list (PresenterOp * NotificationChromeUpdate) * NotificationChromePresenter :=
  let '(log, p) := s in let '(u, p) := presenter_step p op in (log ++ [(op, u)], p).
Definition presenter_run (ops : list PresenterOp) := foldl presenter_log_step ([], presenter_new) ops.

(** One notification's life, as the answers tell it: nothing, waiting with a
    text, on screen, or both (a new text waiting while the old one is shown). *)
Definition slot : Type := option ChromeNotification * option ChromeNotification.
Definition slot_step (t : PortalTransferId) (s : slot) (e : PresenterOp * NotificationChromeUpdate) : slot :=
  match e with
  | (StageRequest r, Staged t') => if decide (t' = t) then (Some (chrome_notification r), s.2) else s
  | (_, Presented t') => if decide (t' = t) then (None, s.1) else s
  | (_, Dismissed t') => if decide (t' = t) then (None, None) else s
  | _ => s
  end.
Definition slot_of (t : PortalTransferId) (log : list (PresenterOp * NotificationChromeUpdate)) : slot :=
  foldl (slot_step t) (None, None) log.
Definition presenter_slot (p : NotificationChromePresenter) (t : PortalTransferId) : slot :=
  (pr_pending p !! t, pr_visible p !! t).

Lemma presenter_step_slot p op t :
  presenter_slot (presenter_step p op).2 t = slot_step t (presenter_slot p t) (op, (presenter_step p op).1).
Proof.
  unfold presenter_slot. destruct op as [r|c]; simpl presenter_step.
  - unfold stage_request. repeat (case_decide; [done|]). simpl. case_decide as Ht.
    + subst t. by rewrite lookup_insert_eq.
    + by rewrite lookup_insert_ne.
  - unfold apply_portal_command. destruct (notification_chrome_command_from_portal c) as [[t'|t']|]; [..|done];
      simpl; [unfold present|unfold dismiss].
    + destruct (pr_pending p !! t') as [n|] eqn:E; [|done]. case_decide.
      * simpl. by rewrite insert_delete_id.
      * simpl. case_decide as Ht; [subst t'|by rewrite lookup_delete_ne, lookup_insert_ne].
        by rewrite lookup_delete_eq, lookup_insert_eq, E.
    + case_decide as Hs; simpl.
      * case_decide as Ht; [subst t'; by rewrite !lookup_delete_eq|by rewrite !lookup_delete_ne].
      * destruct (decide (t' = t)) as [->|]; [|by rewrite !lookup_delete_ne].
        rewrite !lookup_delete_eq. destruct (pr_pending p !! t), (pr_visible p !! t); naive_solver.
Qed.

Definition notification_ok (n : ChromeNotification) : Prop :=
  id_valid (cn_transfer n) ∧ valid_chrome_text (cn_summary n) MAX_NOTIFICATION_SUMMARY_LEN
  ∧ valid_chrome_body (cn_body n)
  ∧ Forall (λ a, valid_chrome_text a MAX_NOTIFICATION_ACTION_LEN) (cn_actions n)
  ∧ Z.of_nat (length (cn_actions n)) ≤ MAX_NOTIFICATION_ACTIONS.
Definition presenter_ok (p : NotificationChromePresenter) : Prop :=
  Z.of_nat (size (pr_visible p)) ≤ MAX_CHROME_NOTIFICATIONS
  ∧ map_Forall (λ t n, cn_transfer n = t ∧ notification_ok n) (pr_pending p)
  ∧ map_Forall (λ t n, cn_transfer n = t ∧ notification_ok n) (pr_visible p).

Lemma stage_request_ok p r :
  (stage_request p r).1 = Staged (no_transfer r) ↔ notification_ok (chrome_notification r).
Proof.
  unfold stage_request, notification_ok. cbn [cn_transfer cn_summary cn_body cn_actions chrome_notification].
  unfold valid_notification_chrome_text.
  set (V a := valid_chrome_text a MAX_NOTIFICATION_ACTION_LEN).
  assert (Exists (λ a, ¬ V a) (no_actions r) ↔ ¬ Forall V (no_actions r)) as HE.
  { split; [apply (Exists_not_Forall V)|apply (not_Forall_Exists V)]. }
  assert (∀ a, Decision (V a)) by apply _.
  repeat case_decide; simpl; split; try done; try tauto; try lia.
  intros _. split_and!; try lia; apply dec_stable; tauto.
Qed.

Lemma presenter_step_ok p op : presenter_ok p → presenter_ok (presenter_step p op).2.
Proof.
  intros (Hn&Hp&Hv). destruct op as [r|c]; simpl.
  - pose proof (stage_request_ok p r) as Hs. unfold stage_request in *.
    repeat (case_decide; [done|]). simpl in *. split; [done|]. split; [|done].
    apply map_Forall_insert_2; [|done]. split; [done|]. by apply Hs.
  - unfold apply_portal_command. destruct (notification_chrome_command_from_portal c) as [[t|t]|]; [..|done];
      simpl; [unfold present|unfold dismiss].
    + destruct (pr_pending p !! t) as [n|] eqn:E; [|done]. case_decide as Hf; simpl.
      * rewrite insert_delete_id by done. by split_and!.
      * split_and!; simpl; [|by apply map_Forall_delete|apply map_Forall_insert_2; [by apply Hp|done]].
        destruct (pr_visible p !! t) as [n'|] eqn:Et; [by rewrite map_size_insert_Some by by eexists|].
        rewrite map_size_insert_None by done.
        destruct (decide (MAX_CHROME_NOTIFICATIONS ≤ Z.of_nat (size (pr_visible p)))); [tauto|lia].
    + case_decide; (split_and!; simpl; [|by apply map_Forall_delete..]);
        rewrite map_size_delete; case_match; unfold id; lia.
Qed.

(** What is on screen was staged and then presented.  After any run, for each
    transfer the waiting and the visible notification are what the answers of the
    run say: the visible one is the text last staged before the last presentation
    not dismissed since.  At most 64 are visible, every notification kept has
    printable text within its bounds and is filed under its own transfer, and
    every request the notification portal accepts is staged. *)
Theorem notifications_shown (ops : list PresenterOp) :
  let '(log, p) := presenter_run ops in
  log.*1 = ops ∧ presenter_ok p
  ∧ (∀ t, presenter_slot p t = slot_of t log)
  ∧ (∀ r, validate_notification_request r = Ok tt → (stage_request p r).1 = Staged (no_transfer r)).
Proof.
  assert (let '(log, p) := presenter_run ops in
    log.*1 = ops ∧ presenter_ok p ∧ (∀ t, presenter_slot p t = slot_of t log)) as H.
  { unfold presenter_run. induction ops as [|op ops IH] using rev_ind; [done|].
    rewrite foldl_app. cbn [foldl]. destruct (foldl presenter_log_step _ ops) as [log p].
    destruct IH as (Hl&Hok&Hs). pose proof (presenter_step_ok p op Hok) as Hok'.
    pose proof (presenter_step_slot p op) as Hs'. unfold presenter_log_step.
    destruct (presenter_step p op) as [u p']. cbn [fst snd] in Hok', Hs'. split; [by rewrite fmap_app, Hl|].
    split; [done|]. intros t. unfold slot_of. rewrite foldl_app, Hs', Hs. done. }
  destruct (presenter_run ops) as [log p]. destruct H as (Hl&Hok&Hs). split_and!; try done.
  intros r Hv. apply stage_request_ok. unfold validate_notification_request in Hv.
  repeat case_decide; try done.
  match goal with Hok : valid_notification_text _ _ ∧ _ |- _ => destruct Hok as (?&?&?) end. by split_and!.
Qed.
