(* ===== verification/Driver.v ===== *)
(** * The session driver
    ([sophia-engine/src/runtime_driver/{types,adapter,driver,observation,live_adapter}.rs],
    [runtime_driver/live_adapter/{x,wm,portal,chrome,renderer,scanout,broker,intake}.rs])

    The loop that carries out the commands of the session runtime.  What it calls
    is the interface [RuntimeDriverAdapter]; the headless and the live adapter are
    its two instances. *)

From S2P Require Import Prelude Ids Geometry Packets PortalPackets Errors VisualState EngineCommit.
From S2P Require Import Outputs Frames Rendering WmLayout Supervisor Session Portals Chrome.
Local Open Scope Z_scope.

(** ** Observations *)

(** [u32::try_from(count).unwrap_or(u32::MAX)] *)
Definition u32_saturated (count : Z) : Z := Z.min count u32_MAX.

Definition runtime_observation_from_wm_transaction_update (u : WmTransactionUpdate) :
    SessionRuntimeObservation :=
  match runtime_action u with
  | KeepRunning => OWmLayoutReady
  | RestartWm _ => OWmRestartRequested
  end.
Definition runtime_observation_from_authority_transaction_commit (c : TransactionCommit) :
    SessionRuntimeObservation :=
  OAuthorityTransactionObserved (tc_outcome c) (u32_saturated (Z.of_nat (length (tc_applied_surfaces c)))).
Definition is_preserved (d : SlowClientVisualDecision) : bool :=
  match d with PreserveCommitted _ _ => true | _ => false end.
Definition is_degraded (d : SlowClientVisualDecision) : bool :=
  match d with DegradeToPending _ _ => true | _ => false end.
Definition runtime_observation_from_slow_client_visual_decisions (ds : list SlowClientVisualDecision) :
    SessionRuntimeObservation :=
  let preserved := Z.of_nat (length (filter is_preserved ds)) in
  let degraded := Z.of_nat (length (filter is_degraded ds)) in
  OSlowClientVisualDecisionsObserved (u32_saturated (saturating_add usize_MAX preserved degraded))
    (u32_saturated preserved) (u32_saturated degraded).
Definition runtime_observation_from_session_tick_report (r : SessionTickReport) : SessionRuntimeObservation :=
  OFrameRendered (fs_frame_serial (tp_frame r)).
Definition runtime_observation_from_render_frame_report (r : RenderFrameReport) : SessionRuntimeObservation :=
  OFrameRendered (rr_frame_serial (rf_replay r)).
Definition runtime_observation_from_portal_commands (cs : list PortalCommand) : SessionRuntimeObservation :=
  OPortalCommandsReady (u32_saturated (Z.of_nat (length cs))).
Definition counts_notification (u : NotificationChromeUpdate) : bool :=
  match u with Presented _ | Dismissed _ => true | _ => false end.
Definition notification_update_count (us : list NotificationChromeUpdate) : Z :=
  u32_saturated (Z.of_nat (length (filter counts_notification us))).
Definition runtime_observation_from_notification_chrome_updates (us : list NotificationChromeUpdate) :
    SessionRuntimeObservation := OChromeCommandsReady (notification_update_count us).
Definition counts_metadata (u : MetadataChromeUpdate) : bool :=
  match u with Upserted _ | Removed _ => true | MRejected _ => false end.
Definition metadata_update_count (us : list MetadataChromeUpdate) : Z :=
  u32_saturated (Z.of_nat (length (filter counts_metadata us))).
Definition runtime_observation_from_metadata_chrome_updates (us : list MetadataChromeUpdate) :
    SessionRuntimeObservation := OChromeCommandsReady (metadata_update_count us).

(** ** The interface of the driver's surroundings *)

Class RuntimeDriverAdapter (A : Type) : Type := {
  adapter_poll_x_observations : A → result (list SessionRuntimeObservation) EngineError * A;
  adapter_request_wm_layout : A → result SessionRuntimeObservation EngineError * A;
  adapter_schedule_frame : A → Z → result SessionRuntimeObservation EngineError * A;
  adapter_render_frame : A → HeadlessEngine → OutputId → Z → LastCommittedLayout →
    result SessionTickReport EngineError * LastCommittedLayout * A;
  adapter_submit_scanout : A → Z → result SessionRuntimeObservation EngineError * A;
  adapter_drain_portal_commands : A → result SessionRuntimeObservation EngineError * A;
  adapter_present_chrome : A → result SessionRuntimeObservation EngineError * A;
}.

(** The bodies the trait provides. *)
Definition default_schedule_frame (frame_serial : Z) : result SessionRuntimeObservation EngineError :=
  Ok (OFrameScheduled frame_serial).
Definition default_submit_scanout (frame_serial : Z) : result SessionRuntimeObservation EngineError :=
  Ok (OScanoutStateChanged ScanoutSubmitted (Some frame_serial)).
Definition default_poll_x_observations (r : result SessionRuntimeObservation EngineError) :
    result (list SessionRuntimeObservation) EngineError := let? observation := r in Ok [observation].

(** ** The driver *)

Record HeadlessSessionDriver : Type := mk_driver {
  dr_engine : HeadlessEngine; dr_runtime : SessionRuntimeState; dr_last_committed : LastCommittedLayout;
}.
Definition driver_new (e : HeadlessEngine) : HeadlessSessionDriver :=
  mk_driver e session_default (mk_last_layout []).

Record HeadlessSessionDriverReport : Type := mk_driver_report {
  dp_runtime_state : SessionRuntimeState; dp_runtime_commands : list SessionRuntimeCommand;
  dp_session_tick : option SessionTickReport; dp_cached_layers : Z;
}.

Section driver.
Context {A : Type} `{RuntimeDriverAdapter A}.
Variables (engine : HeadlessEngine) (output : OutputId) (frame_serial : Z).

(** The fields of [HeadlessSessionCommandExecutor] that change; the top of
    [pending_commands] is the head of the list. *)
Record Executor : Type := mk_executor {
  ex_runtime : SessionRuntimeState; ex_last_committed : LastCommittedLayout; ex_adapter : A;
  ex_runtime_commands : list SessionRuntimeCommand; ex_pending_commands : list SessionRuntimeCommand;
  ex_session_tick : option SessionTickReport;
}.

Definition observe (x : Executor) (observations : list SessionRuntimeObservation) :
    result unit EngineError * Executor :=
  let '(r, runtime) := step_observations (ex_runtime x) observations in
  match r with
  | Err e => (Err (EngineRuntimeObservation e),
              mk_executor runtime (ex_last_committed x) (ex_adapter x) (ex_runtime_commands x)
                (ex_pending_commands x) (ex_session_tick x))
  | Ok report =>
      (Ok tt, mk_executor runtime (ex_last_committed x) (ex_adapter x)
                (ex_runtime_commands x ++ commands report) (commands report ++ ex_pending_commands x)
                (ex_session_tick x))
  end.

Definition with_adapter (x : Executor) (a : A) : Executor :=
  mk_executor (ex_runtime x) (ex_last_committed x) a (ex_runtime_commands x) (ex_pending_commands x)
    (ex_session_tick x).
(** [let observation = self.adapter...()?; self.observe(...)?] *)
Definition observe_answer (x : Executor) (answer : result (list SessionRuntimeObservation) EngineError * A) :
    result unit EngineError * Executor :=
  let x := with_adapter x answer.2 in
  match answer.1 with Err e => (Err e, x) | Ok observations => observe x observations end.
Definition one (answer : result SessionRuntimeObservation EngineError * A) :
    result (list SessionRuntimeObservation) EngineError * A :=
  (let? o := answer.1 in Ok [o], answer.2).

(** The body of the loop for one popped command. *)
Definition execute (x : Executor) (command : SessionRuntimeCommand) : result unit EngineError * Executor :=
  match command with
  | CmdNone | RestartWindowManager => (Ok tt, x)
  | PollXEvents => observe_answer x (adapter_poll_x_observations (ex_adapter x))
  | RequestWmLayout => observe_answer x (one (adapter_request_wm_layout (ex_adapter x)))
  | ScheduleFrame => observe_answer x (one (adapter_schedule_frame (ex_adapter x) frame_serial))
  | RenderFrame serial =>
      let '(r, last, a) :=
        adapter_render_frame (ex_adapter x) engine output serial (ex_last_committed x) in
      match r with
      | Err e => (Err e, mk_executor (ex_runtime x) last a (ex_runtime_commands x) (ex_pending_commands x)
                           (ex_session_tick x))
      | Ok report =>
          observe (mk_executor (ex_runtime x) last a (ex_runtime_commands x) (ex_pending_commands x)
                     (Some report)) [runtime_observation_from_session_tick_report report]
      end
  | SubmitScanout serial => observe_answer x (one (adapter_submit_scanout (ex_adapter x) serial))
  | DrainPortalCommands => observe_answer x (one (adapter_drain_portal_commands (ex_adapter x)))
  | PresentChrome => observe_answer x (one (adapter_present_chrome (ex_adapter x)))
  end.

(** The [while let] loop; [None] is out of fuel. *)
Fixpoint run_commands (fuel : nat) (x : Executor) : option (result unit EngineError * Executor) :=
  match ex_pending_commands x with
  | [] => Some (Ok tt, x)
  | command :: rest =>
      let x := mk_executor (ex_runtime x) (ex_last_committed x) (ex_adapter x) (ex_runtime_commands x)
                 rest (ex_session_tick x) in
      match fuel with
      | O => None
      | S fuel =>
          if decide (command = RestartWindowManager) then Some (Ok tt, x)
          else match execute x command with
               | (Err e, x) => Some (Err e, x)
               | (Ok _, x) => run_commands fuel x
               end
      end
  end.

Definition executor_run (fuel : nat) (x : Executor) :
    option (result HeadlessSessionDriverReport EngineError * Executor) :=
  match observe x [OTickStarted] with
  | (Err e, x) => Some (Err e, x)
  | (Ok _, x) =>
      '(r, x) ← run_commands fuel x;
      Some (let? _ := r in
            Ok (mk_driver_report (ex_runtime x) (ex_runtime_commands x) (ex_session_tick x)
                  (Z.of_nat (length (ll_layers (ex_last_committed x))))), x)
  end.
End driver.
Arguments Executor A : clear implicits.

Definition run_with_adapter {A} `{RuntimeDriverAdapter A} (fuel : nat) (d : HeadlessSessionDriver)
    (output : OutputId) (frame_serial : Z) (adapter : A) :
    option (result HeadlessSessionDriverReport EngineError * HeadlessSessionDriver * A) :=
  '(r, x) ← executor_run (dr_engine d) output frame_serial fuel
              (mk_executor (dr_runtime d) (dr_last_committed d) adapter [] [] None);
  Some (r, mk_driver (dr_engine d) (ex_runtime x) (ex_last_committed x), ex_adapter x).

(** ** The headless adapter *)

Record HeadlessSessionDriverTick : Type := mk_driver_tick {
  dt_output : OutputId; dt_frame_serial : Z; dt_x_event_count : Z; dt_layers : list LayerSnapshot;
  dt_wm_update : option WmTransactionUpdate; dt_portal_commands : list PortalCommand;
  dt_chrome_command_count : Z;
}.
Record HeadlessRuntimeAdapter : Type := mk_headless_adapter {
  ha_x_event_count : Z; ha_layers : list LayerSnapshot; ha_wm_update : option WmTransactionUpdate;
  ha_portal_commands : list PortalCommand; ha_chrome_command_count : Z;
}.
Definition headless_adapter_new (t : HeadlessSessionDriverTick) : HeadlessRuntimeAdapter :=
  mk_headless_adapter (dt_x_event_count t) (dt_layers t) (dt_wm_update t) (dt_portal_commands t)
    (dt_chrome_command_count t).
Definition layout_observation (update : option WmTransactionUpdate) : SessionRuntimeObservation :=
  from_option runtime_observation_from_wm_transaction_update OWmLayoutReady update.

#[export] Instance headless_adapter : RuntimeDriverAdapter HeadlessRuntimeAdapter := {|
  adapter_poll_x_observations a :=
    (default_poll_x_observations (Ok (OXEventsPolled (ha_x_event_count a))), a);
  adapter_request_wm_layout a := (Ok (layout_observation (ha_wm_update a)), a);
  adapter_schedule_frame a frame_serial := (default_schedule_frame frame_serial, a);
  adapter_render_frame a engine output frame_serial last :=
    (run_session_tick engine (mk_tick_request output frame_serial (Fresh (ha_layers a))) last, a);
  adapter_submit_scanout a frame_serial := (default_submit_scanout frame_serial, a);
  adapter_drain_portal_commands a :=
    (Ok (runtime_observation_from_portal_commands (ha_portal_commands a)), a);
  adapter_present_chrome a := (Ok (OChromeCommandsReady (ha_chrome_command_count a)), a) |}.

Definition run_tick (fuel : nat) (d : HeadlessSessionDriver) (request : HeadlessSessionDriverTick) :
    option (result HeadlessSessionDriverReport EngineError * HeadlessSessionDriver) :=
  '(r, d, _) ← run_with_adapter fuel d (dt_output request) (dt_frame_serial request)
                 (headless_adapter_new request);
  Some (r, d).

(** ** The live adapter *)

Record LiveXRuntimeAdapter : Type := mk_live_x {
  lx_pending_event_count : Z; lx_authority_commits : list TransactionCommit;
}.
Definition live_x_poll_observation (x : LiveXRuntimeAdapter) : SessionRuntimeObservation :=
  OXEventsPolled (lx_pending_event_count x).
Definition live_x_poll_observations (x : LiveXRuntimeAdapter) : list SessionRuntimeObservation :=
  live_x_poll_observation x
  :: (runtime_observation_from_authority_transaction_commit <$> lx_authority_commits x).

Record LiveScanoutRuntimeAdapter : Type := mk_live_scanout {
  lo_submit_state : RuntimeScanoutState; lo_lifecycle_states : list RuntimeScanoutState;
}.
Definition live_submit_observation (s : LiveScanoutRuntimeAdapter) (frame_serial : Z) :
    SessionRuntimeObservation := OScanoutStateChanged (lo_submit_state s) (Some frame_serial).
Definition live_lifecycle_observations (s : LiveScanoutRuntimeAdapter) : list SessionRuntimeObservation :=
  (λ state, OScanoutStateChanged state None) <$> lo_lifecycle_states s.

Record LiveRendererRuntimeAdapter : Type := mk_live_renderer {
  lr_layers : list LayerSnapshot; lr_committed_surfaces : list CommittedSurfaceState;
}.
Definition live_render_frame (r : LiveRendererRuntimeAdapter) (engine : HeadlessEngine) (output : OutputId)
    (frame_serial : Z) (last : LastCommittedLayout) :
    result SessionTickReport EngineError * LastCommittedLayout :=
  let layers :=
    if decide (lr_committed_surfaces r = []) then Ok (lr_layers r)
    else project_committed_surface_states (lr_committed_surfaces r) (lr_layers r) in
  match layers with
  | Err e => (Err e, last)
  | Ok layers => run_session_tick engine (mk_tick_request output frame_serial (Fresh layers)) last
  end.

Record LiveRuntimeDriverAdapter : Type := mk_live_adapter {
  la_x : LiveXRuntimeAdapter; la_wm_update : option WmTransactionUpdate;
  la_portal_commands : list PortalCommand; la_chrome_command_count : Z;
  la_renderer : LiveRendererRuntimeAdapter; la_scanout : LiveScanoutRuntimeAdapter;
}.
#[export] Instance live_adapter : RuntimeDriverAdapter LiveRuntimeDriverAdapter := {|
  adapter_poll_x_observations a :=
    (Ok (live_x_poll_observations (la_x a) ++ live_lifecycle_observations (la_scanout a)), a);
  adapter_request_wm_layout a := (Ok (layout_observation (la_wm_update a)), a);
  adapter_schedule_frame a frame_serial := (default_schedule_frame frame_serial, a);
  adapter_render_frame a engine output frame_serial last :=
    (live_render_frame (la_renderer a) engine output frame_serial last, a);
  adapter_submit_scanout a frame_serial := (Ok (live_submit_observation (la_scanout a) frame_serial), a);
  adapter_drain_portal_commands a :=
    (Ok (runtime_observation_from_portal_commands (la_portal_commands a)), a);
  adapter_present_chrome a := (Ok (OChromeCommandsReady (la_chrome_command_count a)), a) |}.

Definition broker_health_observation (p : BrokerHealthPacket) : SessionRuntimeObservation :=
  OBrokerHealthChanged (bh_broker p) (bh_state p) (bh_generation p)
    (from_option (λ m, Z.of_nat (length m)) 0 (bh_message p)).

Record LiveRuntimeDriverIntake : Type := mk_live_intake {
  li_x_event_count : Z; li_authority_commits : list TransactionCommit;
  li_authority_batches : list AuthorityTransactionIntake; li_wm_update : option WmTransactionUpdate;
  li_portal_commands : list PortalCommand; li_chrome_command_count : Z; li_layers : list LayerSnapshot;
  li_committed_surfaces : list CommittedSurfaceState;
  li_scanout_submit_state : option RuntimeScanoutState;
  li_scanout_lifecycle_states : list RuntimeScanoutState;
}.
Definition from_intake (i : LiveRuntimeDriverIntake) : LiveRuntimeDriverAdapter :=
  mk_live_adapter (mk_live_x (li_x_event_count i) (li_authority_commits i)) (li_wm_update i)
    (li_portal_commands i) (li_chrome_command_count i)
    (mk_live_renderer (li_layers i) (li_committed_surfaces i))
    (mk_live_scanout (default ScanoutSubmitted (li_scanout_submit_state i)) (li_scanout_lifecycle_states i)).
(** [None] is a panic of a commit. *)
Definition from_authority_batches (i : LiveRuntimeDriverIntake) : option LiveRuntimeDriverAdapter :=
  r ← commit_batches (li_authority_batches i) (li_committed_surfaces i);
  Some (from_intake (mk_live_intake (li_x_event_count i) (li_authority_commits i ++ r.1)
    (li_authority_batches i) (li_wm_update i) (li_portal_commands i) (li_chrome_command_count i)
    (li_layers i) r.2 (li_scanout_submit_state i) (li_scanout_lifecycle_states i))).

(** ** What the driver relies on *)

(** Each call fails or answers the command it is made for; a poll may add
    telemetry and page flips after the event count; a render reports the frame it
    was asked for. *)
Class AdapterAnswers (A : Type) `{RuntimeDriverAdapter A} : Prop := {
  poll_answers a obs : (adapter_poll_x_observations a).1 = Ok obs →
    ∃ n rest, obs = OXEventsPolled n :: rest
      ∧ Forall (λ o, ∀ e, session_runtime_event_from_observation o = Ok e →
                  background PollXEvents e) rest;
  wm_answers a o : (adapter_request_wm_layout a).1 = Ok o → o = OWmLayoutReady ∨ o = OWmRestartRequested;
  schedule_answers a n o : (adapter_schedule_frame a n).1 = Ok o → ∃ f, o = OFrameScheduled f;
  render_answers a e out n last r : (adapter_render_frame a e out n last).1.1 = Ok r →
    fs_frame_serial (tp_frame r) = n;
  submit_answers a n o : (adapter_submit_scanout a n).1 = Ok o → ∃ st f, o = OScanoutStateChanged st f;
  drain_answers a o : (adapter_drain_portal_commands a).1 = Ok o → ∃ n, o = OPortalCommandsReady n;
  present_answers a o : (adapter_present_chrome a).1 = Ok o → ∃ n, o = OChromeCommandsReady n;
}.

Lemma tick_frame_serial e request last r :
  (run_session_tick e request last).1 = Ok r → fs_frame_serial (tp_frame r) = tr_frame_serial request.
Proof.
  unfold run_session_tick. destruct (tr_layers request); cbn [fst]; rewrite res_bind_ok;
    intros (f&Hf&Hr); rewrite res_bind_ok in Hr; destruct Hr as (?&_&[= <-]); cbn;
    unfold plan_frame in Hf; rewrite res_bind_ok in Hf; destruct Hf as (?&_&Hf).
  all: rewrite res_bind_ok in Hf; destruct Hf as ([]&_&[= <-]); done.
Qed.

(** ** One answer moves the tick one command on *)

Definition cmd_list (c : SessionRuntimeCommand) : list SessionRuntimeCommand :=
  if decide (c = CmdNone) then [] else [c].

Lemma background_run s c l :
  Forall (background c) l → phase (cycle s) = phase_of c →
  ∃ s', session_run s l = ([], s') ∧ phase (cycle s') = phase_of c.
Proof.
  intros Hl. revert s. induction Hl as [|e l He _ IH]; intros s Hp; [by exists s|].
  pose proof (background_step s c e He Hp) as Hs. simpl.
  destruct (update_session_runtime s e) as [s1 c1]. destruct Hs as (->&Hp1&_).
  destruct (IH s1 Hp1) as (s'&->&?). by exists s'.
Qed.

Lemma answered_run s c e l :
  phase (cycle s) = phase_of c → Session.answers c e → Forall (background PollXEvents) l →
  (l = [] ∨ c = PollXEvents) →
  let c' := (update_session_runtime s e).2 in
  ∃ s', session_run s (e :: l) = (cmd_list c', s') ∧ phase (cycle s') = phase_of c'.
Proof.
  intros Hp Ha Hl Hc. pose proof (answer_step s c e Ha Hp) as Hs. cbn [session_run].
  destruct (update_session_runtime s e) as [s1 c1] eqn:Eu. destruct Hs as [Hp1 _]. cbn [fst snd].
  assert (Forall (background c1) l) as Hl1.
  { destruct Hc as [->| ->]; [constructor|]. eapply Forall_impl; [exact Hl|].
    intros e' Hb. destruct e; try done. cbn in Eu.
    destruct e'; try done. case_decide; injection Eu as _ <-; done. }
  destruct (background_run s1 c1 l Hl1 Hp1) as (s'&->&?). exists s'. split; [|done].
  unfold cmd_list. by case_decide.
Qed.

Section run.
Context {A : Type} `{AdapterAnswers A}.
Variables (engine : HeadlessEngine) (output : OutputId) (frame_serial : Z).

Lemma observe_run (x : Executor A) c o rest e :
  session_runtime_event_from_observation o = Ok e →
  phase (cycle (ex_runtime x)) = phase_of c → Session.answers c e →
  Forall (λ o, ∀ e, session_runtime_event_from_observation o = Ok e → background PollXEvents e) rest →
  (rest = [] ∨ c = PollXEvents) →
  match observe x (o :: rest) with
  | (Err _, _) => True
  | (Ok _, x') =>
      let c' := (update_session_runtime (ex_runtime x) e).2 in
      phase (cycle (ex_runtime x')) = phase_of c'
      ∧ ex_pending_commands x' = cmd_list c' ++ ex_pending_commands x
      ∧ ex_runtime_commands x' = ex_runtime_commands x ++ cmd_list c'
      ∧ ex_session_tick x' = ex_session_tick x
  end.
Proof.
  intros Ho Hp Ha Hr Hc. unfold observe.
  pose proof (observation_batch_spec (ex_runtime x) (o :: rest)) as Hb.
  destruct (step_observations _ _) as [[report|err] s']; [|done].
  destruct Hb as (events&HF&_&Hs). rewrite session_step_run in Hs. injection Hs as -> ->.
  inversion HF as [|? e' ? es Hoe Hes]; subst. assert (e' = e) as -> by congruence.
  assert (Forall (background PollXEvents) es) as Hbg.
  { clear -Hes Hr. induction Hes; [constructor|]. inversion Hr; subst. constructor; auto. }
  destruct (answered_run (ex_runtime x) c e es Hp Ha Hbg) as (s'&Hrun&Hp').
  { destruct Hc as [->| ->]; [left; by inversion Hes|by right]. }
  rewrite Hrun. cbn. done.
Qed.

(** ** Where a tick stands *)

(** The commands issued up to and with a render of frame [f]. *)
Definition polled (w : bool) : list SessionRuntimeCommand :=
  PollXEvents :: (if w then [RequestWmLayout] else []) ++ [ScheduleFrame].
Definition complete_tick (w : bool) (f : Z) : list SessionRuntimeCommand :=
  polled w ++ [RenderFrame f; SubmitScanout f; DrainPortalCommands; PresentChrome].

Definition rendered (f : Z) (tick : option SessionTickReport) : Prop :=
  ∃ r, tick = Some r ∧ fs_frame_serial (tp_frame r) = f.

(** Command [c] is the one outstanding. *)
Definition stands_at (c : SessionRuntimeCommand) (cmds : list SessionRuntimeCommand)
    (tick : option SessionTickReport) : Prop :=
  match c with
  | PollXEvents => cmds = [PollXEvents] ∧ tick = None
  | RequestWmLayout => cmds = [PollXEvents; RequestWmLayout] ∧ tick = None
  | RestartWindowManager => cmds = [PollXEvents; RequestWmLayout; RestartWindowManager] ∧ tick = None
  | ScheduleFrame => (∃ w, cmds = polled w) ∧ tick = None
  | RenderFrame f => (∃ w, cmds = polled w ++ [RenderFrame f]) ∧ tick = None
  | SubmitScanout f => (∃ w, cmds = polled w ++ [RenderFrame f; SubmitScanout f]) ∧ rendered f tick
  | DrainPortalCommands =>
      ∃ w f, cmds = polled w ++ [RenderFrame f; SubmitScanout f; DrainPortalCommands] ∧ rendered f tick
  | PresentChrome => ∃ w f, cmds = complete_tick w f ∧ rendered f tick
  | CmdNone => ∃ w f, cmds = complete_tick w f ∧ rendered f tick
  end.
Definition tick_progress (c : SessionRuntimeCommand) (x : Executor A) : Prop :=
  phase (cycle (ex_runtime x)) = phase_of c ∧ ex_pending_commands x = cmd_list c
  ∧ stands_at c (ex_runtime_commands x) (ex_session_tick x).

Definition commands_left (c : SessionRuntimeCommand) : nat :=
  match c with
  | PollXEvents => 7 | RequestWmLayout => 6 | ScheduleFrame => 5 | RenderFrame _ => 4
  | SubmitScanout _ => 3 | DrainPortalCommands => 2 | PresentChrome | RestartWindowManager => 1
  | CmdNone => 0
  end.

Definition popped (x : Executor A) : Executor A :=
  mk_executor (ex_runtime x) (ex_last_committed x) (ex_adapter x) (ex_runtime_commands x) []
    (ex_session_tick x).

Lemma observe_progress c (x : Executor A) o rest e c' :
  phase (cycle (ex_runtime x)) = phase_of c → ex_pending_commands x = [] →
  session_runtime_event_from_observation o = Ok e → Session.answers c e →
  Forall (λ o, ∀ e, session_runtime_event_from_observation o = Ok e → background PollXEvents e) rest →
  (rest = [] ∨ c = PollXEvents) →
  (update_session_runtime (ex_runtime x) e).2 = c' →
  stands_at c' (ex_runtime_commands x ++ cmd_list c') (ex_session_tick x) →
  (commands_left c' < commands_left c)%nat →
  match observe x (o :: rest) with
  | (Err _, _) => True
  | (Ok _, x') => ∃ c', tick_progress c' x' ∧ (commands_left c' < commands_left c)%nat
  end.
Proof.
  intros Hp Hpe Ho Ha Hrest Hc <- Hst Hlt.
  pose proof (observe_run x c o rest e Ho Hp Ha Hrest Hc) as Hob.
  destruct (observe x (o :: rest)) as [[]]; [|done]. destruct Hob as (?&Hpend&Hcm&Ht).
  eexists. split; [|exact Hlt]. unfold tick_progress. by rewrite Hpend, Hpe, app_nil_r, Hcm, Ht.
Qed.

Lemma execute_progress c x :
  tick_progress c x → c ≠ CmdNone → c ≠ RestartWindowManager →
  match execute engine output frame_serial (popped x) c with
  | (Err _, _) => True
  | (Ok _, x') => ∃ c', tick_progress c' x' ∧ (commands_left c' < commands_left c)%nat
  end.
Proof.
  intros (Hp&_&Hs) Hn Hr.
  destruct c; try done; cbn [execute ex_adapter popped ex_last_committed]; unfold observe_answer, one;
    cbn [fst snd].
  - destruct (adapter_poll_x_observations _).1 as [obs|] eqn:E; [|done].
    apply poll_answers in E as (n&rest&->&Hrest). destruct Hs as [Hs Ht].
    eapply (observe_progress PollXEvents); try done; [by right|..]; cbn; case_decide; cbn; rewrite ?Hs, ?Ht;
      try done; try lia. split; [by exists false|done].
  - destruct (adapter_request_wm_layout _).1 as [o|] eqn:E; [|done]. cbn [res_bind]. destruct Hs as [Hs Ht].
    apply wm_answers in E as [->| ->]; (eapply (observe_progress RequestWmLayout); try done; [by left|..]);
      cbn; rewrite ?Hs, ?Ht; try lia; [|done]. split; [by exists true|done].
  - destruct (adapter_schedule_frame _ _).1 as [o|] eqn:E; [|done]. cbn [res_bind].
    destruct Hs as [[w Hs] Ht]. apply schedule_answers in E as [f ->].
    eapply (observe_progress ScheduleFrame); try done; [by left|..]; cbn; rewrite ?Hs, ?Ht; try lia.
    split; [by exists w|done].
  - destruct (adapter_render_frame _ _ _ _ _) as [[[r|] last] a] eqn:E; [|done].
    destruct Hs as [[w Hs] Ht].
    assert (fs_frame_serial (tp_frame r) = frame_serial0) as Hf.
    { eapply (render_answers (ex_adapter x) engine output frame_serial0 (ex_last_committed x)). by rewrite E. }
    eapply (observe_progress (RenderFrame frame_serial0)); try done; [by left|..]; cbn; rewrite ?Hs, ?Hf; try lia.
    split; [exists w; by rewrite <-app_assoc|by exists r].
  - destruct (adapter_submit_scanout _ _).1 as [o|] eqn:E; [|done]. cbn [res_bind].
    destruct Hs as [[w Hs] Ht]. apply submit_answers in E as (st&f&->).
    eapply (observe_progress (SubmitScanout frame_serial0) _ _ _ _ DrainPortalCommands); try done;
      [by left|by cbn; rewrite Hp|..]; cbn; try lia. exists w, frame_serial0. rewrite Hs, <-app_assoc. done.
  - destruct (adapter_drain_portal_commands _).1 as [o|] eqn:E; [|done]. cbn [res_bind].
    destruct Hs as (w&f&Hs&Ht). apply drain_answers in E as [n ->].
    eapply (observe_progress DrainPortalCommands); try done; [by left|..]; cbn; try lia.
    exists w, f. rewrite Hs, <-app_assoc. done.
  - destruct (adapter_present_chrome _).1 as [o|] eqn:E; [|done]. cbn [res_bind].
    destruct Hs as (w&f&Hs&Ht). apply present_answers in E as [n ->].
    eapply (observe_progress PresentChrome); try done; [by left|..]; cbn; try lia.
    exists w, f. by rewrite Hs, app_nil_r.
Qed.

(** From any outstanding command the loop ends within the commands left. *)
Lemma run_commands_ends n c x :
  tick_progress c x → (commands_left c ≤ n)%nat →
  ∃ r x', (∀ fuel, (n ≤ fuel)%nat → run_commands engine output frame_serial fuel x = Some (r, x'))
    ∧ (r = Ok tt →
       ∃ c', (c' = CmdNone ∨ c' = RestartWindowManager) ∧ phase (cycle (ex_runtime x')) = phase_of c'
         ∧ ex_pending_commands x' = [] ∧ stands_at c' (ex_runtime_commands x') (ex_session_tick x')).
Proof.
  revert c x. induction n as [|n IH]; intros c x Hx Hn.
  - destruct c; cbn in Hn; try lia. destruct Hx as (Hp&Hpe&Hs). exists (Ok tt), x. split.
    + intros fuel _. destruct fuel; cbn [run_commands]; by rewrite Hpe.
    + intros _. exists CmdNone. split; [by left|done].
  - destruct (decide (c = CmdNone)) as [->|Hc].
    { destruct Hx as (Hp&Hpe&Hs). exists (Ok tt), x. split.
      - intros fuel _. destruct fuel; cbn [run_commands]; by rewrite Hpe.
      - intros _. exists CmdNone. split; [by left|done]. }
    assert (ex_pending_commands x = [c]) as Hpe.
    { destruct Hx as (_&->&_). unfold cmd_list. by rewrite decide_False. }
    destruct (decide (c = RestartWindowManager)) as [->|Hr].
    { destruct Hx as (Hp&_&Hs). exists (Ok tt), (popped x). split.
      - intros [|fuel] Hf; [lia|]. cbn [run_commands]. by rewrite Hpe, decide_True.
      - intros _. exists RestartWindowManager. split; [by right|done]. }
    pose proof (execute_progress c x Hx Hc Hr) as He.
    destruct (execute engine output frame_serial (popped x) c) as [[u|e] x1] eqn:Ee.
    + destruct He as (c1&H1&Hlt). destruct (IH c1 x1 H1) as (r&x'&Hrun&Hok); [lia|].
      exists r, x'. split; [|done]. intros [|fuel] Hf; [lia|]. cbn [run_commands].
      rewrite Hpe, decide_False by done. unfold popped in Ee. rewrite Ee. apply Hrun. lia.
    + exists (Err e), x1. split; [|done]. intros [|fuel] Hf; [lia|]. cbn [run_commands].
      rewrite Hpe, decide_False by done. unfold popped in Ee. by rewrite Ee.
Qed.
End run.

(** C16: every driver tick ends.  With any surroundings that fail or answer the
    calls they are asked, the driver's loop executes at most seven commands.  A
    tick that does not fail either carried out exactly the commands of a complete
    tick in order - poll, possibly a layout request, schedule, render, submit,
    drain, present - rendered the frame it then submitted and left the session
    idle, or stopped at the restart of the window manager without rendering. *)
Theorem driver_tick_ends {A} `{AdapterAnswers A} (d : HeadlessSessionDriver) (output : OutputId)
    (frame_serial : Z) (adapter : A) :
  ∃ r d' adapter', (∀ fuel, (7 ≤ fuel)%nat →
      run_with_adapter fuel d output frame_serial adapter = Some (r, d', adapter'))
  ∧ dr_engine d' = dr_engine d
  ∧ ∀ report, r = Ok report →
      dp_runtime_state report = dr_runtime d'
      ∧ ((∃ w f, dp_runtime_commands report = complete_tick w f ∧ rendered f (dp_session_tick report)
            ∧ phase (cycle (dr_runtime d')) = Idle)
         ∨ (dp_runtime_commands report = [PollXEvents; RequestWmLayout; RestartWindowManager]
            ∧ dp_session_tick report = None ∧ phase (cycle (dr_runtime d')) = ApplyingWmPolicy)).
Proof.
  unfold run_with_adapter, executor_run.
  set (x := mk_executor (dr_runtime d) (dr_last_committed d) adapter [] [] None).
  assert (observe x [OTickStarted] = (Ok tt, mk_executor (set_phase (dr_runtime d) PollingX)
    (dr_last_committed d) adapter [PollXEvents] [PollXEvents] None)) as ->.
  { unfold observe, x. cbn [ex_runtime]. destruct (dr_runtime d). reflexivity. }
  set (x1 := mk_executor _ _ _ [PollXEvents] _ _).
  destruct (run_commands_ends (dr_engine d) output frame_serial 7 PollXEvents x1) as (r&x'&Hrun&Hok).
  { split_and!; try done. unfold x1. by destruct (dr_runtime d) as [[]]. }
  { done. }
  eexists _, _, _. split; [intros fuel Hf; rewrite Hrun by done; done|]. split; [done|].
  cbn [dr_runtime]. destruct r as [[]|]; [|done]. destruct (Hok eq_refl) as (c&[->| ->]&Hp&_&Hs).
  - intros report [= <-]. split; [done|]. left. destruct Hs as (w&f&?&?). exists w, f. by split_and!.
  - intros report [= <-]. split; [done|]. right. cbn in *. by destruct Hs.
Qed.

#[export] Instance headless_answers : AdapterAnswers HeadlessRuntimeAdapter.
Proof.
  constructor; cbn -[run_session_tick live_render_frame]; unfold default_schedule_frame, default_submit_scanout; intros; simplify_eq;
    try by repeat eexists.
  - unfold layout_observation. destruct (ha_wm_update a) as [u|]; [|by left]. simpl.
    unfold runtime_observation_from_wm_transaction_update. destruct (runtime_action u); auto.
  - by apply tick_frame_serial in H.
Qed.

#[export] Instance live_answers : AdapterAnswers LiveRuntimeDriverAdapter.
Proof.
  constructor; cbn -[run_session_tick live_render_frame]; unfold default_schedule_frame, default_submit_scanout; intros; simplify_eq;
    try by repeat eexists.
  - eexists _, _. split; [done|]. apply Forall_app. split.
    + apply Forall_forall. intros o (c&->&_)%list_elem_of_fmap e [= <-]. done.
    + apply Forall_forall. intros o (st&->&_)%list_elem_of_fmap e [= <-]. done.
  - unfold layout_observation. destruct (la_wm_update a) as [u|]; [|by left]. simpl.
    unfold runtime_observation_from_wm_transaction_update. destruct (runtime_action u); auto.
  - unfold live_render_frame in H. case_match; [|done]. by apply tick_frame_serial in H.
Qed.

(** ** What a tick does, exactly *)

Lemma observe_single {A} (x : Executor A) o e :
  session_runtime_event_from_observation o = Ok e →
  observe x [o] =
  let '(s, c) := update_session_runtime (ex_runtime x) e in
  (Ok tt, mk_executor s (ex_last_committed x) (ex_adapter x) (ex_runtime_commands x ++ cmd_list c)
            (cmd_list c ++ ex_pending_commands x) (ex_session_tick x)).
Proof.
  intros Ho. unfold observe, step_observations, from_observations. cbn [try_fold]. unfold observe_one.
  rewrite decide_True by done. rewrite Ho. cbn [res_bind app].
  rewrite session_step_run. cbn [session_run]. destruct (update_session_runtime _ _) as [s c].
  cbn. unfold cmd_list. by case_decide.
Qed.

Lemma run_commands_cons {A} `{RuntimeDriverAdapter A} e out n fuel (x : Executor A) c rest :
  ex_pending_commands x = c :: rest → c ≠ RestartWindowManager →
  run_commands e out n (S fuel) x =
  match execute e out n (mk_executor (ex_runtime x) (ex_last_committed x) (ex_adapter x)
                           (ex_runtime_commands x) rest (ex_session_tick x)) c with
  | (Err err, x) => Some (Err err, x)
  | (Ok _, x) => run_commands e out n fuel x
  end.
Proof. intros Hp Hc. cbn [run_commands]. by rewrite Hp, decide_False. Qed.

(** The state after events, whatever was commanded. *)
Definition after_events (s : SessionRuntimeState) (l : list SessionRuntimeEvent) : SessionRuntimeState :=
  foldl (λ s e, (update_session_runtime s e).1) s l.
Lemma after_events_run s l : after_events s l = (session_run s l).2.
Proof.
  revert s. induction l as [|e l IH]; intros s; [done|]. unfold after_events in *. cbn. rewrite IH.
  destruct (update_session_runtime s e) as [s1 c]. cbn. by destruct (session_run s1 l).
Qed.

(** The events of a headless tick up to the render, and after it. *)
Definition events_to_render (t : HeadlessSessionDriverTick) : list SessionRuntimeEvent :=
  TickStarted :: XEventsPolled (dt_x_event_count t)
  :: (if decide (dt_x_event_count t = 0) then [] else [WmLayoutReady])
  ++ [FrameScheduled (dt_frame_serial t)].
Definition events_after_render (t : HeadlessSessionDriverTick) : list SessionRuntimeEvent :=
  [FrameRendered (dt_frame_serial t); ScanoutStateChanged ScanoutSubmitted (Some (dt_frame_serial t));
   PortalCommandsReady (u32_saturated (Z.of_nat (length (dt_portal_commands t))));
   ChromeCommandsReady (dt_chrome_command_count t)].
Definition asks_restart (t : HeadlessSessionDriverTick) : Prop :=
  dt_x_event_count t ≠ 0 ∧ ∃ u reason, dt_wm_update t = Some u ∧ runtime_action u = RestartWm reason.

Lemma phase_set_phase s p : phase (cycle (set_phase s p)) = p.
Proof. by destruct s as [[]]. Qed.

Ltac driver_cbn :=
  cbn -[run_session_tick run_commands observe set_phase add_frame add_x_events record_scanout
        u32_saturated phase cycle layout_observation after_events]; rewrite ?phase_set_phase;
  repeat match goal with |- context [decide (?x = ?x)] => rewrite (decide_True _ _ (eq_refl x)) end.
Ltac driver_step :=
  rewrite (run_commands_cons _ _ _ _ _ _ []) by done; cbn [execute]; unfold observe_answer, one;
  driver_cbn; try (erewrite observe_single by reflexivity; driver_cbn).

Lemma after_poll s n l :
  after_events s (TickStarted :: XEventsPolled n :: l) =
  after_events (set_phase (add_x_events (set_phase s PollingX) n)
                  (if decide (n = 0) then WaitingForFrame else ApplyingWmPolicy)) l.
Proof. unfold after_events. cbn. by case_decide. Qed.

Lemma tick_fresh_cache e out n layers last :
  (run_session_tick e (mk_tick_request out n (Fresh layers)) last).2 = layout_replace last layers.
Proof. reflexivity. Qed.

Lemma headless_run_from_schedule e out n fuel s last a cmds :
  let t := mk_tick_request out n (Fresh (ha_layers a)) in
  run_commands e out n (5 + fuel) (mk_executor s last a cmds [ScheduleFrame] None) =
  let s1 := after_events s [FrameScheduled n] in
  match run_session_tick e t last with
  | (Err err, last') => Some (Err err, mk_executor s1 last' a (cmds ++ [RenderFrame n]) [] None)
  | (Ok report, last') =>
      Some (Ok tt,
        mk_executor (after_events s1 [FrameRendered n; ScanoutStateChanged ScanoutSubmitted (Some n);
            PortalCommandsReady (u32_saturated (Z.of_nat (length (ha_portal_commands a))));
            ChromeCommandsReady (ha_chrome_command_count a)]) last' a
          (cmds ++ [RenderFrame n; SubmitScanout n; DrainPortalCommands; PresentChrome]) [] (Some report))
  end.
Proof.
  cbv zeta. change (5 + fuel)%nat with (S (S (S (S (S fuel))))).
  driver_step. rewrite (run_commands_cons _ _ _ _ _ _ []) by done. cbn [execute]. driver_cbn.
  pose proof (tick_frame_serial e (mk_tick_request out n (Fresh (ha_layers a))) last) as Hn.
  destruct (run_session_tick _ _ last) as [[report|err] last']; [|done].
  specialize (Hn report eq_refl). cbn [tr_frame_serial] in Hn.
  erewrite observe_single by reflexivity. rewrite Hn. driver_cbn.
  do 3 driver_step. destruct fuel; cbn [run_commands ex_pending_commands]; rewrite <-!app_assoc; unfold after_events;
    driver_cbn; reflexivity.
Qed.

(** A headless tick does what its request says.  It ends with the session
    state the runtime reaches on the events of the tick: where X events arrived and
    the window manager's exchange failed, it stops at the restart and shows
    nothing new; otherwise it renders the request's layers as one session tick
    does - an error of that tick is the driver's error, raised before anything is
    submitted - and reports the commands of a complete tick, the tick's report and
    the number of layers cached. *)
Theorem headless_tick_exact (d : HeadlessSessionDriver) (t : HeadlessSessionDriverTick) :
  let '(mk_driver engine runtime last) := d in
  let request := mk_tick_request (dt_output t) (dt_frame_serial t) (Fresh (dt_layers t)) in
  (asks_restart t →
     let runtime' := after_events runtime [TickStarted; XEventsPolled (dt_x_event_count t); WmRestartRequested] in
     run_tick 7 d t =
     Some (Ok (mk_driver_report runtime' [PollXEvents; RequestWmLayout; RestartWindowManager] None
                 (Z.of_nat (length (ll_layers last)))), mk_driver engine runtime' last))
  ∧ (¬ asks_restart t →
     let runtime' := after_events runtime (events_to_render t) in
     let w := bool_decide (dt_x_event_count t ≠ 0) in
     run_tick 7 d t =
     match run_session_tick engine request last with
     | (Err e, last') => Some (Err e, mk_driver engine runtime' last')
     | (Ok report, last') =>
         let runtime'' := after_events runtime' (events_after_render t) in
         Some (Ok (mk_driver_report runtime'' (complete_tick w (dt_frame_serial t)) (Some report)
                     (Z.of_nat (length (dt_layers t)))), mk_driver engine runtime'' last')
     end).
Proof.
  destruct d as [engine runtime last]. cbv zeta. unfold run_tick, run_with_adapter, executor_run.
  erewrite observe_single by reflexivity. driver_cbn. split.
  - intros (Hn&u&reason&Hu&Hr). driver_step.
    rewrite decide_False by done. driver_cbn.
    rewrite (run_commands_cons _ _ _ _ _ _ []) by done. cbn [execute]. unfold observe_answer, one.
    assert (layout_observation (dt_wm_update t) = OWmRestartRequested) as Ho.
    { rewrite Hu. cbn. unfold runtime_observation_from_wm_transaction_update. by rewrite Hr. }
    driver_cbn. rewrite Ho. erewrite observe_single by reflexivity. driver_cbn.
    unfold after_events. driver_cbn. rewrite ?decide_False by done. reflexivity.
  - intros Hr. driver_step.
    assert (dt_x_event_count t ≠ 0 → layout_observation (dt_wm_update t) = OWmLayoutReady) as Ho.
    { intros Hn. destruct (dt_wm_update t) as [u|] eqn:Hu; [|done]. cbn.
      unfold runtime_observation_from_wm_transaction_update. destruct (runtime_action u) eqn:Ha; [done|].
      destruct Hr. by split; [|eexists _, _]. }
    unfold events_to_render. case_decide as Hn.
    + rewrite bool_decide_false by tauto. driver_cbn. rewrite !after_poll, decide_True by done.
      change (cmd_list ScheduleFrame ++ []) with [ScheduleFrame].
      rewrite (headless_run_from_schedule _ _ _ 1). cbv zeta.
      pose proof (tick_fresh_cache engine (dt_output t) (dt_frame_serial t) (dt_layers t) last) as Hl.
      change (ha_layers (headless_adapter_new t)) with (dt_layers t).
      destruct (run_session_tick _ _ last) as [[report|e] last']; cbn in Hl; subst last'; reflexivity.
    + rewrite bool_decide_true by done. driver_step. rewrite Ho, !after_poll, decide_False by done.
      erewrite observe_single by reflexivity. driver_cbn.
      change (cmd_list ScheduleFrame ++ []) with [ScheduleFrame].
      rewrite (headless_run_from_schedule _ _ _ 0). cbv zeta.
      pose proof (tick_fresh_cache engine (dt_output t) (dt_frame_serial t) (dt_layers t) last) as Hl.
      change (ha_layers (headless_adapter_new t)) with (dt_layers t).
      destruct (run_session_tick _ _ last) as [[report|e] last']; cbn in Hl; subst last'; reflexivity.
Qed.

(** ** Two adapters that answer alike drive alike *)

Section simulation.
Context {A B : Type} `{RuntimeDriverAdapter A} `{RuntimeDriverAdapter B}.
Variable R : A → B → Prop.

(** The two adapters give the same answers, and stay related. *)
Record Simulates : Prop := {
  sim_poll a b : R a b → (adapter_poll_x_observations a).1 = (adapter_poll_x_observations b).1
    ∧ R (adapter_poll_x_observations a).2 (adapter_poll_x_observations b).2;
  sim_wm a b : R a b → (adapter_request_wm_layout a).1 = (adapter_request_wm_layout b).1
    ∧ R (adapter_request_wm_layout a).2 (adapter_request_wm_layout b).2;
  sim_schedule a b n : R a b → (adapter_schedule_frame a n).1 = (adapter_schedule_frame b n).1
    ∧ R (adapter_schedule_frame a n).2 (adapter_schedule_frame b n).2;
  sim_render a b e out n last : R a b →
    (adapter_render_frame a e out n last).1 = (adapter_render_frame b e out n last).1
    ∧ R (adapter_render_frame a e out n last).2 (adapter_render_frame b e out n last).2;
  sim_submit a b n : R a b → (adapter_submit_scanout a n).1 = (adapter_submit_scanout b n).1
    ∧ R (adapter_submit_scanout a n).2 (adapter_submit_scanout b n).2;
  sim_drain a b : R a b → (adapter_drain_portal_commands a).1 = (adapter_drain_portal_commands b).1
    ∧ R (adapter_drain_portal_commands a).2 (adapter_drain_portal_commands b).2;
  sim_present a b : R a b → (adapter_present_chrome a).1 = (adapter_present_chrome b).1
    ∧ R (adapter_present_chrome a).2 (adapter_present_chrome b).2;
}.

Definition executors_agree (x : Executor A) (y : Executor B) : Prop :=
  ex_runtime x = ex_runtime y ∧ ex_last_committed x = ex_last_committed y
  ∧ R (ex_adapter x) (ex_adapter y) ∧ ex_runtime_commands x = ex_runtime_commands y
  ∧ ex_pending_commands x = ex_pending_commands y ∧ ex_session_tick x = ex_session_tick y.

Lemma observe_agree x y obs : executors_agree x y →
  (observe x obs).1 = (observe y obs).1 ∧ executors_agree (observe x obs).2 (observe y obs).2.
Proof.
  intros (Hr&?&?&Hc&Hp&?). unfold observe. rewrite Hr.
  destruct (step_observations _ _) as [[rep|err] s]; (split; [done|]);
    split_and!; cbn; try done; by rewrite ?Hc, ?Hp.
Qed.
Lemma observe_answer_agree x y p q : executors_agree x y → p.1 = q.1 → R p.2 q.2 →
  (observe_answer x p).1 = (observe_answer y q).1
  ∧ executors_agree (observe_answer x p).2 (observe_answer y q).2.
Proof.
  intros (?&?&?&?&?&?) Hp Hq. unfold observe_answer. rewrite Hp. destruct q.1.
  - by apply observe_agree.
  - done.
Qed.
Ltac agree_by H :=
  let E := fresh in let ER := fresh in
  destruct H as [E ER]; apply observe_answer_agree; [done|unfold one; cbn; by rewrite E|exact ER].
Lemma execute_agree (HS : Simulates) e out n x y c : executors_agree x y →
  (execute e out n x c).1 = (execute e out n y c).1
  ∧ executors_agree (execute e out n x c).2 (execute e out n y c).2.
Proof.
  intros Hxy. pose proof Hxy as (Hr&Hl&Ha&Hc&Hp&Ht). destruct c; cbn [execute].
  1, 9: done.
  1: by apply observe_answer_agree; [|apply (sim_poll HS)..].
  1: agree_by (sim_wm HS _ _ Ha).
  1: agree_by (sim_schedule HS _ _ n Ha).
  2: agree_by (sim_submit HS _ _ frame_serial Ha).
  2: agree_by (sim_drain HS _ _ Ha).
  2: agree_by (sim_present HS _ _ Ha).
  destruct (sim_render HS _ _ e out frame_serial (ex_last_committed y) Ha) as [H1 H2]. rewrite Hl.
  destruct (adapter_render_frame (ex_adapter x) _ _ _ _) as [[r last] a].
  destruct (adapter_render_frame (ex_adapter y) _ _ _ _) as [[r' last'] b]. cbn in H1, H2.
  injection H1 as -> ->. destruct r'; [|by split]. by apply observe_agree.
Qed.
Lemma run_commands_agree (HS : Simulates) e out n fuel x y : executors_agree x y →
  match run_commands e out n fuel x, run_commands e out n fuel y with
  | Some (r, x'), Some (r', y') => r = r' ∧ executors_agree x' y'
  | None, None => True
  | _, _ => False
  end.
Proof.
  revert x y. induction fuel as [|fuel IH]; intros x y Hxy; cbn [run_commands];
    pose proof Hxy as (Hr&Hl&Ha&Hc&Hp&Ht); rewrite Hp; destruct (ex_pending_commands y) as [|c rest]; try done.
  case_decide; [done|].
  set (x0 := mk_executor (ex_runtime x) _ _ _ rest _). set (y0 := mk_executor (ex_runtime y) _ _ _ rest _).
  assert (executors_agree x0 y0) as H0' by done. destruct (execute_agree HS e out n x0 y0 c H0') as [E1 E2].
  destruct (execute e out n x0 c) as [r x1], (execute e out n y0 c) as [r' y1].
  cbn in E1, E2. subst r'. destruct r; [by apply IH|done].
Qed.

Lemma run_with_adapter_agree (HS : Simulates) fuel d out n a b : R a b →
  (λ r, r.1) <$> run_with_adapter fuel d out n a = (λ r, r.1) <$> run_with_adapter fuel d out n b.
Proof.
  intros Hab. unfold run_with_adapter, executor_run.
  set (x := mk_executor _ _ a _ _ _). set (y := mk_executor _ _ b _ _ _).
  assert (executors_agree x y) as Hxy by done.
  destruct (observe_agree x y [OTickStarted] Hxy) as [H1 H2].
  destruct (observe x _) as [r x1], (observe y _) as [r' y1]. cbn in H1, H2. subst r'.
  destruct r; [|destruct H2 as (Hr&Hl&_); cbn; by rewrite Hr, Hl].
  pose proof (run_commands_agree HS (dr_engine d) out n fuel x1 y1 H2) as Hrun.
  destruct (run_commands _ _ _ _ x1) as [[r x2]|], (run_commands _ _ _ _ y1) as [[r' y2]|]; try done.
  destruct Hrun as (->&Hr&Hl&_&Hc&_&Ht). cbn. by rewrite Hr, Hl, Hc, Ht.
Qed.
End simulation.

(** The intake that carries a headless tick to the live adapter. *)
Definition headless_intake (t : HeadlessSessionDriverTick) : LiveRuntimeDriverIntake :=
  mk_live_intake (dt_x_event_count t) [] [] (dt_wm_update t) (dt_portal_commands t)
    (dt_chrome_command_count t) (dt_layers t) [] None [].

(** The live adapter drives as the headless one.  Without authority batches,
    committed surfaces and scanout reports, a tick through the live adapter made
    from an intake gives the result, error or report, and leaves the driver state
    of the headless tick of the same data, whatever the fuel. *)
Theorem live_drives_as_headless (fuel : nat) (d : HeadlessSessionDriver) (t : HeadlessSessionDriverTick) :
  ∃ a, from_authority_batches (headless_intake t) = Some a
    ∧ (λ r, r.1) <$> run_with_adapter fuel d (dt_output t) (dt_frame_serial t) a = run_tick fuel d t.
Proof.
  eexists. split; [done|]. unfold run_tick.
  rewrite (run_with_adapter_agree (λ (a : LiveRuntimeDriverAdapter) (b : HeadlessRuntimeAdapter),
    a = from_intake (headless_intake t) ∧ b = headless_adapter_new t) ltac:(constructor; naive_solver)
    fuel d _ _ _ (headless_adapter_new t)) by done.
  by destruct (run_with_adapter _ _ _ _ _) as [[[]]|].
Qed.

(** ** How a live tick fails *)

Ltac live_cbn :=
  cbn -[live_render_frame run_commands observe set_phase add_frame add_x_events record_scanout
        u32_saturated phase cycle layout_observation]; rewrite ?phase_set_phase;
  repeat match goal with |- context [decide (?x = ?x)] => rewrite (decide_True _ _ (eq_refl x)) end.

Lemma observe_keeps {A} (x : Executor A) obs :
  ex_adapter (observe x obs).2 = ex_adapter x ∧ ex_last_committed (observe x obs).2 = ex_last_committed x.
Proof. unfold observe. by destruct (step_observations _ _) as [[] ?]. Qed.

Lemma live_run_from_schedule e out n fuel s last a cmds :
  let '(r, last') := live_render_frame (la_renderer a) e out n last in
  ∃ x, run_commands e out n (5 + fuel) (mk_executor s last a cmds [ScheduleFrame] None)
    = Some (let? _ := r in Ok tt, x) ∧ ex_last_committed x = last'.
Proof.
  change (5 + fuel)%nat with (S (S (S (S (S fuel))))).
  rewrite (run_commands_cons _ _ _ _ _ ScheduleFrame []) by done. cbn [execute].
  unfold observe_answer, one. live_cbn. erewrite observe_single by reflexivity. live_cbn.
  rewrite (run_commands_cons _ _ _ _ _ (RenderFrame n) []) by done. cbn [execute]. live_cbn.
  destruct (live_render_frame _ _ _ _ last) as [[report|err] last']; [|by eexists].
  erewrite observe_single by reflexivity. live_cbn.
  do 3 (rewrite (run_commands_cons _ _ _ _ _ _ []) by done; cbn [execute]; unfold observe_answer, one;
        live_cbn; erewrite observe_single by reflexivity; live_cbn).
  destruct fuel; by eexists.
Qed.

Lemma live_poll_run (x : Executor LiveRuntimeDriverAdapter) :
  let obs := live_x_poll_observations (la_x (ex_adapter x))
             ++ live_lifecycle_observations (la_scanout (ex_adapter x)) in
  phase (cycle (ex_runtime x)) = PollingX → ex_pending_commands x = [] →
  if decide (64 < length obs)%nat
  then observe x obs = (Err (EngineRuntimeObservation (TooManyObservations 64)), x)
  else ∃ x' c, observe x obs = (Ok tt, x') ∧ (c = ScheduleFrame ∨ c = RequestWmLayout)
    ∧ ex_pending_commands x' = [c] ∧ ex_session_tick x' = ex_session_tick x
    ∧ ex_adapter x' = ex_adapter x ∧ ex_last_committed x' = ex_last_committed x.
Proof.
  intros obs Hp Hpe.
  assert (∃ rest, obs = OXEventsPolled (lx_pending_event_count (la_x (ex_adapter x))) :: rest ∧
    Forall (λ o, ∃ e, session_runtime_event_from_observation o = Ok e ∧ background PollXEvents e) rest)
    as (rest&Hobs&Hrest).
  { eexists. split; [done|]. apply Forall_app. split; apply Forall_forall.
    - intros o (c&->&_)%list_elem_of_fmap. by eexists.
    - intros o (st&->&_)%list_elem_of_fmap. by eexists. }
  pose proof (observation_batch_spec (ex_runtime x) obs) as Hb.
  pose proof (observe_keeps x obs) as [Hka Hkl].
  assert (Forall (λ o, is_ok (session_runtime_event_from_observation o) = true) obs) as Hok.
  { rewrite Hobs. constructor; [done|]. eapply Forall_impl; [exact Hrest|]. by intros o (e&->&_). }
  case_decide as Hl.
  - unfold observe. destruct (step_observations _ _) as [[report|e] s'].
    + destruct Hb as (?&_&?&_). lia.
    + destruct Hb as (->&b&o&after&Heq&_&Hc). case_decide as Hb64.
      * rewrite Heq, Forall_app, Forall_cons in Hok. destruct Hok as (_&Ho&_). by rewrite Hc in Ho.
      * destruct Hc as [_ ->]. by destruct x.
  - set (e := XEventsPolled (lx_pending_event_count (la_x (ex_adapter x)))).
    pose proof (observe_run x PollXEvents
      (OXEventsPolled (lx_pending_event_count (la_x (ex_adapter x)))) rest e eq_refl Hp I) as Hrun.
    rewrite <-Hobs in Hrun.
    assert (∃ s' report, step_observations (ex_runtime x) obs = (Ok report, s')) as (s'&report&Es).
    { destruct (step_observations _ _) as [[report|err] s']; [by eexists _, _|].
      destruct Hb as (_&b&o&after&Heq&_&Hc). exfalso. rewrite Heq, length_app in Hl. simpl in Hl.
      rewrite decide_True in Hc by lia. rewrite Heq, Forall_app, Forall_cons in Hok.
      destruct Hok as (_&Ho&_). by rewrite Hc in Ho. }
    unfold observe in *. rewrite Es in *. specialize (Hrun ltac:(
      eapply Forall_impl; [exact Hrest|]; intros o (e'&He'&Hbg) e'' ?; congruence) ltac:(by right)).
    destruct Hrun as (_&Hpend&_&Ht). eexists _, (update_session_runtime (ex_runtime x) e).2.
    split; [done|]. cbn in Hka, Hkl, Ht, Hpend |- *.
    split; [unfold e; cbn; case_decide; auto|]. rewrite Hpend, Hpe, app_nil_r. split; [|done].
    unfold e, cmd_list. cbn. repeat case_decide; done.
Qed.

Lemma live_run_from_poll e out n (x : Executor LiveRuntimeDriverAdapter) c :
  c = ScheduleFrame ∨ c = RequestWmLayout → ex_pending_commands x = [c] → ex_session_tick x = None →
  let rendering := live_render_frame (la_renderer (ex_adapter x)) e out n (ex_last_committed x) in
  ∃ r x', run_commands e out n 6 x = Some (r, x')
    ∧ match r with
      | Err err => rendering.1 = Err err ∧ ex_last_committed x' = rendering.2
      | Ok _ => ex_session_tick x' ≠ None → is_ok rendering.1 = true
      end.
Proof.
  intros Hc Hp Ht rendering. destruct x as [s last a cmds pending tick]. cbn in Hp, Ht, rendering. subst pending tick.
  assert (∀ fuel s cmds, ∃ r x',
    run_commands e out n (5 + fuel) (mk_executor s last a cmds [ScheduleFrame] None) = Some (r, x')
    ∧ match r with
      | Err err => rendering.1 = Err err ∧ ex_last_committed x' = rendering.2
      | Ok _ => ex_session_tick x' ≠ None → is_ok rendering.1 = true
      end) as Hs.
  { intros fuel s' cmds'. pose proof (live_run_from_schedule e out n fuel s' last a cmds') as Hr.
    fold rendering in Hr. destruct rendering as [[rep|err] last']; destruct Hr as (x'&->&Hl);
      eexists _, _; (split; [done|]); by cbn. }
  destruct Hc as [->| ->]; [apply (Hs 1%nat)|].
  rewrite (run_commands_cons _ _ _ _ _ RequestWmLayout []) by done. cbn [execute]. unfold observe_answer, one.
  live_cbn. assert (layout_observation (la_wm_update a) = OWmLayoutReady
    ∨ layout_observation (la_wm_update a) = OWmRestartRequested) as [->| ->].
  { apply (wm_answers a). reflexivity. }
  - erewrite observe_single by reflexivity. live_cbn. apply (Hs 0%nat).
  - erewrite observe_single by reflexivity. live_cbn. eexists _, _. split; [reflexivity|]. by cbn.
Qed.

(** How a live tick fails.  The poll of a live tick carries the event count,
    the authority commits and the scanout reports; with more than 64 of them the
    tick fails as too large before anything is rendered, and the layout cache is
    untouched.  With at most 64, the only failure is that of rendering - the
    committed surfaces could not be projected or the session tick failed - and
    the cache is as that rendering left it. *)
Theorem live_tick_errors (d : HeadlessSessionDriver) (output : OutputId) (frame_serial : Z)
    (a : LiveRuntimeDriverAdapter) :
  let batch := (1 + length (lx_authority_commits (la_x a)) + length (lo_lifecycle_states (la_scanout a)))%nat in
  let rendering := live_render_frame (la_renderer a) (dr_engine d) output frame_serial (dr_last_committed d) in
  ((64 < batch)%nat →
     run_with_adapter 7 d output frame_serial a =
     Some (Err (EngineRuntimeObservation (TooManyObservations 64)),
           mk_driver (dr_engine d) (set_phase (dr_runtime d) PollingX) (dr_last_committed d), a))
  ∧ ((batch ≤ 64)%nat → ∃ r d' a', run_with_adapter 7 d output frame_serial a = Some (r, d', a')
     ∧ match r with
       | Err e => rendering.1 = Err e ∧ dr_last_committed d' = rendering.2
       | Ok report => dp_session_tick report ≠ None → is_ok rendering.1 = true
       end).
Proof.
  cbv zeta. unfold run_with_adapter, executor_run.
  assert (observe (mk_executor (dr_runtime d) (dr_last_committed d) a [] [] None) [OTickStarted] =
    (Ok tt, mk_executor (set_phase (dr_runtime d) PollingX) (dr_last_committed d) a [PollXEvents]
              [PollXEvents] None)) as -> by (erewrite observe_single by reflexivity; reflexivity).
  rewrite (run_commands_cons _ _ _ _ _ PollXEvents []) by done. cbn [execute]. unfold observe_answer.
  cbn -[run_commands observe live_render_frame live_x_poll_observations live_lifecycle_observations set_phase].
  set (x0 := with_adapter _ a).
  pose proof (live_poll_run x0 (phase_set_phase _ _) eq_refl) as Hpoll.
  change (ex_adapter x0) with a in Hpoll. cbv zeta in Hpoll.
  set (obs := live_x_poll_observations (la_x a) ++ _) in *.
  assert (length obs = S (length (lx_authority_commits (la_x a)) + length (lo_lifecycle_states (la_scanout a)))) as <-.
  { unfold obs, live_x_poll_observations, live_lifecycle_observations. simpl. by rewrite length_app, !length_fmap. }
  split; intros Hl.
  - rewrite decide_True in Hpoll by done. rewrite Hpoll. reflexivity.
  - rewrite decide_False in Hpoll by lia. destruct Hpoll as (x'&c&->&Hc&Hp&Ht&Ha&Hlast).
    destruct (live_run_from_poll (dr_engine d) output frame_serial x' c Hc Hp Ht) as (r&x''&->&Hr).
    rewrite Ha, Hlast in Hr. eexists _, _, _. split; [done|]. by destruct r.
Qed.

(** ** Examples *)

Definition example_driver_tick (restart : bool) : HeadlessSessionDriverTick :=
  mk_driver_tick (from_raw 1) 7 2 []
    (Some (mk_wm_update (mk_commit (from_raw 1) TimedOut [])
             (if restart then Some (TransactionMismatch (from_raw 1) (from_raw 2)) else None))) [] 3.
Definition example_driver : HeadlessSessionDriver := driver_new (mk_engine headless_deterministic).

Example driver_tick_complete :
  (λ r, res_ok (let? report := r.1 in Ok (dp_runtime_commands report)))
    <$> run_tick 7 example_driver (example_driver_tick false)
  = Some (Some (complete_tick true 7)).
Proof. vm_compute. reflexivity. Qed.
Example driver_tick_restart :
  (λ r, res_ok (let? report := r.1 in Ok (dp_runtime_commands report)))
    <$> run_tick 7 example_driver (example_driver_tick true)
  = Some (Some [PollXEvents; RequestWmLayout; RestartWindowManager]).
Proof. vm_compute. reflexivity. Qed.

Lemma driver_tick_ends_witness :
  ∃ r d' a', run_with_adapter 7 example_driver (from_raw 1) 7
    (headless_adapter_new (example_driver_tick false)) = Some (r, d', a').
Proof.
  destruct (driver_tick_ends example_driver (from_raw 1) 7
    (headless_adapter_new (example_driver_tick false))) as (r&d'&a'&H&_).
  exists r, d', a'. apply H. constructor.
Defined.
