(* ===== verification/Production.v ===== *)
(** * The production session
    ([sophia-engine/src/runtime_driver/production.rs])

    The coordinator of authority commits, composition, scanout and protocol
    feedback, and the order in which its asynchronous service runs.  The
    presentation and output adapters are interfaces: records of operations on a
    state of their own, of which each call may fail. *)

From S2P Require Import Prelude Ids Geometry Packets Rendering VisualState EngineCommit.
Local Open Scope Z_scope.

(** ** Rebasing *)

Definition rebase_transaction (committed : list CommittedSurfaceState) (t : SurfaceTransaction) :
    SurfaceTransaction :=
  mk_surface_tx (st_transaction t) (st_authority t) (st_surface t) (st_namespace t)
    (st_target_geometry t) (st_target_buffer t) (st_damage t) (st_readiness t) (st_timeout_msec t)
    (from_option cs_committed_generation 0 (lookup_state committed (st_surface t))).
Definition rebase_full_state_present_transactions (transactions : list SurfaceTransaction)
    (committed : list CommittedSurfaceState) : list SurfaceTransaction :=
  rebase_transaction committed <$> transactions.

(** ** The coordinator *)

Inductive ProductionSessionPhase : Type :=
| AuthorityIntake | EngineCommitPreparation | FrameComposition | KmsSubmit | KmsRetire | ProtocolFeedback.

Record ProductionSessionCoordinator : Type := mk_coordinator {
  pn_engine : HeadlessEngine; pn_committed_surfaces : list CommittedSurfaceState; pn_next_cycle : Z;
}.
Definition coordinator_new (e : HeadlessEngine) : ProductionSessionCoordinator := mk_coordinator e [] 1.
Definition with_committed_surfaces (c : ProductionSessionCoordinator) (l : list CommittedSurfaceState) :
    ProductionSessionCoordinator := mk_coordinator (pn_engine c) l (pn_next_cycle c).
Definition replace_committed_surfaces := with_committed_surfaces.

(** [None] is a panic of a commit, here and below. *)
Definition commit_authority_batches (c : ProductionSessionCoordinator)
    (batches : list AuthorityTransactionIntake) :
    option (list TransactionCommit * ProductionSessionCoordinator) :=
  r ← commit_batches batches (pn_committed_surfaces c); Some (r.1, with_committed_surfaces c r.2).
Definition prepare_full_state_present (c : ProductionSessionCoordinator) (transaction : TransactionId)
    (transactions : list SurfaceTransaction) : PreparedSurfaceCommit :=
  prepare_surface_transactions transaction
    (rebase_full_state_present_transactions transactions (pn_committed_surfaces c))
    (pn_committed_surfaces c).
Definition coordinator_apply_prepared (c : ProductionSessionCoordinator) (p : PreparedSurfaceCommit) :
    option (TransactionCommit * ProductionSessionCoordinator) :=
  r ← apply_prepared_surface_commit p (pn_committed_surfaces c); Some (r.1, with_committed_surfaces c r.2).

Record ProductionPreparedRetirementReport (Evidence : Type) : Type := mk_retirement_report {
  rt_commit : TransactionCommit; rt_committed_surfaces : list CommittedSurfaceState;
  rt_evidence : Evidence;
}.
Arguments mk_retirement_report {Evidence}.
Inductive ProductionPreparedRetirementError (Error : Type) : Type :=
| PreparedEngineCommit (c : TransactionCommit) | PreparedProtocolFeedback (e : Error).
Arguments PreparedEngineCommit {Error}.
Arguments PreparedProtocolFeedback {Error}.

(** [complete_feedback] is the caller's closure, acting on the world [w]. *)
Definition complete_prepared_retirement {W Evidence Error} (c : ProductionSessionCoordinator)
    (prepared : PreparedSurfaceCommit) (complete_feedback : W → result Evidence Error * W) (w : W) :
    option (result (ProductionPreparedRetirementReport Evidence) (ProductionPreparedRetirementError Error)
            * ProductionSessionCoordinator * W) :=
  '(commit, c) ← coordinator_apply_prepared c prepared;
  if decide (tc_outcome commit ≠ Committed) then Some (Err (PreparedEngineCommit commit), c, w)
  else
    let '(r, w) := complete_feedback w in
    Some (let? evidence := map_err PreparedProtocolFeedback r in
          Ok (mk_retirement_report commit (pn_committed_surfaces c) evidence), c, w).

(** ** Outputs *)

Record ProductionOutputRuntimeAdapter (W Report Error : Type) : Type := mk_output_adapter {
  output_count : W → nat;
  run_output : W → nat → list CommittedSurfaceState → result Report Error * W;
}.
Arguments output_count {W Report Error}.
Arguments run_output {W Report Error}.

(** The loop of [run_outputs] over the indexes. *)
Fixpoint run_output_loop {W Report Error} (a : ProductionOutputRuntimeAdapter W Report Error)
    (committed : list CommittedSurfaceState) (indexes : list nat) (reports : list Report) (w : W) :
    result (list Report) Error * W :=
  match indexes with
  | [] => (Ok reports, w)
  | i :: indexes =>
      match run_output a w i committed with
      | (Err e, w) => (Err e, w)
      | (Ok report, w) => run_output_loop a committed indexes (reports ++ [report]) w
      end
  end.
Definition run_outputs {W Report Error} (c : ProductionSessionCoordinator)
    (a : ProductionOutputRuntimeAdapter W Report Error) (w : W) : result (list Report) Error * W :=
  run_output_loop a (pn_committed_surfaces c) (seq 0 (output_count a w)) [] w.

(** ** One cycle *)

Record ProductionRetirement (Retirement : Type) : Type := mk_retirement {
  re_cycle : Z; re_retirement : Retirement;
}.
Arguments mk_retirement {Retirement}.
Arguments re_cycle {Retirement}.
Arguments re_retirement {Retirement}.

Record ProductionPresentationAdapter (W Frame Submission Retirement Evidence Error : Type) : Type :=
  mk_presentation {
    compose_frame : W → Z → list CommittedSurfaceState → list TransactionCommit → result Frame Error * W;
    submit_frame : W → Z → Frame → result Submission Error * W;
    poll_retirements : W → result (list (ProductionRetirement Retirement)) Error * W;
    route_protocol_feedback : W → Z → Retirement → result Evidence Error * W;
  }.
Arguments compose_frame {W Frame Submission Retirement Evidence Error}.
Arguments submit_frame {W Frame Submission Retirement Evidence Error}.
Arguments poll_retirements {W Frame Submission Retirement Evidence Error}.
Arguments route_protocol_feedback {W Frame Submission Retirement Evidence Error}.
Arguments mk_presentation {W Frame Submission Retirement Evidence Error}.

Record ProductionSessionCycleReport (Submission Evidence : Type) : Type := mk_cycle_report {
  cy_cycle : Z; cy_authority_commits : list TransactionCommit;
  cy_committed_surfaces : list CommittedSurfaceState; cy_submission : Submission;
  cy_evidence : list Evidence;
}.
Arguments mk_cycle_report {Submission Evidence}.
Arguments cy_evidence {Submission Evidence}.
Arguments cy_cycle {Submission Evidence}.
Arguments cy_submission {Submission Evidence}.
Arguments cy_authority_commits {Submission Evidence}.
Arguments cy_committed_surfaces {Submission Evidence}.
Record ProductionSessionCycleError (Error : Type) : Type := mk_cycle_error {
  ce_cycle : Z; ce_phase : ProductionSessionPhase; ce_source : Error;
}.
Arguments mk_cycle_error {Error}.
Arguments ce_cycle {Error}.
Arguments ce_phase {Error}.
Arguments ce_source {Error}.

Section cycle.
Context {W Frame Submission Retirement Evidence Error : Type}.

(** The loop over the retirements. *)
Fixpoint feedback_loop
    (a : ProductionPresentationAdapter W Frame Submission Retirement Evidence Error)
    (retirements : list (ProductionRetirement Retirement)) (evidence : list Evidence) (w : W) :
    result (list Evidence) (ProductionSessionCycleError Error) * W :=
  match retirements with
  | [] => (Ok evidence, w)
  | r :: retirements =>
      match route_protocol_feedback a w (re_cycle r) (re_retirement r) with
      | (Err e, w) => (Err (mk_cycle_error (re_cycle r) ProtocolFeedback e), w)
      | (Ok ev, w) => feedback_loop a retirements (evidence ++ [ev]) w
      end
  end.

(** After the commits: compose, submit, poll and feed back. *)
Definition present_cycle
    (a : ProductionPresentationAdapter W Frame Submission Retirement Evidence Error) (cycle : Z)
    (committed : list CommittedSurfaceState) (commits : list TransactionCommit) (w : W) :
    result (Submission * list Evidence) (ProductionSessionCycleError Error) * W :=
  match compose_frame a w cycle committed commits with
  | (Err e, w) => (Err (mk_cycle_error cycle FrameComposition e), w)
  | (Ok frame, w) =>
      match submit_frame a w cycle frame with
      | (Err e, w) => (Err (mk_cycle_error cycle KmsSubmit e), w)
      | (Ok submission, w) =>
          match poll_retirements a w with
          | (Err e, w) => (Err (mk_cycle_error cycle KmsRetire e), w)
          | (Ok retirements, w) =>
              let '(r, w) := feedback_loop a retirements [] w in
              (let? evidence := r in Ok (submission, evidence), w)
          end
      end
  end.

Definition run_cycle (c : ProductionSessionCoordinator) (batches : list AuthorityTransactionIntake)
    (a : ProductionPresentationAdapter W Frame Submission Retirement Evidence Error) (w : W) :
    option (result (ProductionSessionCycleReport Submission Evidence) (ProductionSessionCycleError Error)
            * ProductionSessionCoordinator * W) :=
  let cycle := pn_next_cycle c in
  let c := mk_coordinator (pn_engine c) (pn_committed_surfaces c) (saturating_add u64_MAX (pn_next_cycle c) 1) in
  '(commits, c) ← commit_authority_batches c batches;
  let '(r, w) := present_cycle a cycle (pn_committed_surfaces c) commits w in
  Some (let? ' (submission, evidence) := r in
        Ok (mk_cycle_report cycle commits (pn_committed_surfaces c) submission evidence), c, w).
End cycle.

(** ** The asynchronous service *)

Record ProductionAsyncServiceObservation : Type := mk_service_observation {
  retirement_required : bool; present_output_blocked : bool; present_queued : bool;
  pending_output_ready : bool;
}.
Inductive ProductionAsyncServicePhase : Type := SvcKmsRetire | SvcSchedulePresent | SvcSubmitPendingFrame.
Inductive ProductionAsyncServiceCursor : Type := CurRetirement | CurPresent | CurPendingFrame | CurComplete.

(** One pass through the [loop]: the next cursor, and a phase to return. *)
Definition service_step (cursor : ProductionAsyncServiceCursor) (o : ProductionAsyncServiceObservation) :
    ProductionAsyncServiceCursor * option (option ProductionAsyncServicePhase) :=
  match cursor with
  | CurRetirement => (CurPresent, if retirement_required o then Some (Some SvcKmsRetire) else None)
  | CurPresent =>
      (CurPendingFrame,
       if present_queued o && negb (present_output_blocked o) then Some (Some SvcSchedulePresent) else None)
  | CurPendingFrame =>
      (CurComplete, if pending_output_ready o then Some (Some SvcSubmitPendingFrame) else None)
  | CurComplete => (CurComplete, Some None)
  end.
(** [next_phase]; the outer [None] is out of fuel. *)
Fixpoint next_phase (fuel : nat) (cursor : ProductionAsyncServiceCursor)
    (o : ProductionAsyncServiceObservation) :
    option (option ProductionAsyncServicePhase * ProductionAsyncServiceCursor) :=
  match fuel with
  | O => None
  | S fuel =>
      match service_step cursor o with
      | (cursor, Some answer) => Some (answer, cursor)
      | (cursor, None) => next_phase fuel cursor o
      end
  end.

(** ** A complete presentation is never stale by its own generation *)

(** What a transaction must be for a presentation, the generation aside. *)
Definition presentable (m : gmap SurfaceId CommittedSurfaceState) (transaction : TransactionId)
    (t : SurfaceTransaction) : Prop :=
  st_transaction t = transaction ∧ surface_valid (st_surface t) ∧ ¬ rect_is_empty (st_target_geometry t)
  ∧ ¬ (st_target_buffer t = BufferNone ∧ m !! st_surface t = None) ∧ st_readiness t = TxReady.
#[export] Instance presentable_dec m i t : Decision (presentable m i t).
Proof. unfold presentable; apply _. Defined.

Lemma rebased_ready transaction l t :
  tx_ready (committed_map l) transaction (rebase_transaction l t)
  ↔ presentable (committed_map l) transaction t.
Proof.
  unfold tx_ready, presentable. cbn. rewrite lookup_committed_map.
  destruct (lookup_state l (st_surface t)); cbn; tauto.
Qed.
Lemma rebased_rejected transaction l ts :
  first_rejected (committed_map l) transaction (rebase_full_state_present_transactions ts l) = None
  ↔ Forall (presentable (committed_map l) transaction) ts.
Proof.
  unfold first_rejected, rebase_full_state_present_transactions. rewrite find_first_None, Forall_fmap.
  apply Forall_iff. intros t. simpl. rewrite rebased_ready.
  destruct (decide (presentable (committed_map l) transaction t)); tauto.
Qed.
Lemma rebased_surface l ts :
  st_surface <$> rebase_full_state_present_transactions ts l = st_surface <$> ts.
Proof. unfold rebase_full_state_present_transactions. rewrite <-list_fmap_compose. done. Qed.

(** C19: a retirement is completed exactly when its prepared state is current.
    A complete presentation prepared on one state and retired on a later one is
    applied if and only if its transactions are presentable - their generation
    never matters - and no surface it shows has changed in between.  Then the
    later state is updated by them, whatever the feedback answers, and the
    feedback runs once; otherwise nothing changes and the feedback is not run. *)
Theorem retirement_completed_when_current {W Evidence Error} (c0 c1 : ProductionSessionCoordinator)
    (transaction : TransactionId) (ts : list SurfaceTransaction)
    (feedback : W → result Evidence Error * W) (w : W) :
  surfaces_unique (pn_committed_surfaces c0) → surfaces_unique (pn_committed_surfaces c1) →
  let l0 := pn_committed_surfaces c0 in
  let current := Forall (presentable (committed_map l0) transaction) ts
    ∧ Forall (λ t, lookup_state l0 (st_surface t)
                   = lookup_state (pn_committed_surfaces c1) (st_surface t)) ts in
  ∃ r c' w',
    complete_prepared_retirement c1 (prepare_full_state_present c0 transaction ts) feedback w
    = Some (r, c', w')
  ∧ (current →
       w' = (feedback w).2
       ∧ committed_map (pn_committed_surfaces c') =
           commit_update (committed_map (pn_committed_surfaces c1))
             (rebase_full_state_present_transactions ts l0)
       ∧ match (feedback w).1 with
         | Ok evidence => r = Ok (mk_retirement_report (mk_commit transaction Committed (st_surface <$> ts))
                                    (pn_committed_surfaces c') evidence)
         | Err e => r = Err (PreparedProtocolFeedback e)
         end)
  ∧ (¬ current → w' = w ∧ c' = c1
       ∧ ∃ commit, r = Err (PreparedEngineCommit commit) ∧ tc_outcome commit ≠ Committed).
Proof.
  intros Hl0 Hl1 l0 current. unfold complete_prepared_retirement, coordinator_apply_prepared,
    prepare_full_state_present. fold l0. set (rts := rebase_full_state_present_transactions ts l0).
  pose proof (rebased_rejected transaction l0 ts) as Hrej. fold rts in Hrej.
  destruct (first_rejected (committed_map l0) transaction rts) as [t|] eqn:E.
  - pose proof (prepare_commit_rejected _ _ _ _ Hl0 E) as Hn. unfold apply_prepared_surface_commit.
    rewrite decide_True by done. cbn. unfold prepared_is_ready in Hn. rewrite decide_True by done.
    eexists _, _, w. split; [done|]. split; [intros [Hc _]; apply Hrej in Hc; done|].
    intros _. split; [done|]. split; [by destruct c1|]. by eexists.
  - rewrite apply_ready by done.
    assert (Forall (λ t, lookup_state l0 (st_surface t) = lookup_state (pn_committed_surfaces c1) (st_surface t)) rts
      ↔ Forall (λ t, lookup_state l0 (st_surface t) = lookup_state (pn_committed_surfaces c1) (st_surface t)) ts)
      as Hsame by (unfold rts, rebase_full_state_present_transactions; by rewrite Forall_fmap).
    destruct (decide (Forall _ rts)) as [Hb|Hb].
    + destruct (commit_ready transaction rts _ Hl1) as (l'&Hc&_&Hm); [by eapply ready_transfer|].
      rewrite Hc. cbn. destruct (feedback w) as [f w'] eqn:Ef. eexists _, _, w'. split; [done|].
      split; [|intros Hn; destruct Hn; split; [by apply Hrej|by apply Hsame]].
      intros _. split; [done|]. split; [done|]. cbn. unfold rts. rewrite rebased_surface. by destruct f.
    + cbn. eexists _, _, w. split; [done|]. split; [intros [_ Hc]; destruct Hb; by apply Hsame|].
      intros _. split; [done|]. split; [by destruct c1|]. by eexists.
Qed.

Lemma retirement_completed_when_current_witness :
  let c := mk_coordinator (mk_engine (Outputs.headless_deterministic)) [example_state 1 3; example_state 2 7] 5 in
  ∃ r c' w', complete_prepared_retirement (Error := unit) c
      (prepare_full_state_present c (from_raw 5) [example_tx 2 99 TxReady])
      (λ n : nat, (Ok true, S n)) 0%nat = Some (r, c', w')
    ∧ w' = 1%nat ∧ cs_committed_generation <$> pn_committed_surfaces c' = [3; 8].
Proof.
  intros c.
  destruct (retirement_completed_when_current (Error := unit) c c (from_raw 5) [example_tx 2 99 TxReady]
    (λ n : nat, (Ok true, S n)) 0%nat example_unique example_unique) as (r&c'&w'&Hr&Hc&_).
  exists r, c', w'. split; [exact Hr|].
  destruct Hc as [Hw _].
  { split; apply (bool_decide_unpack _); vm_compute; exact I. }
  split; [exact Hw|]. vm_compute in Hr. injection Hr as _ <- _. vm_compute. reflexivity.
Defined.

(** ** The phases of a cycle *)

Section trace.
Context {W Frame Submission Retirement Evidence Error : Type}.

(** What the adapter was asked, and what it answered. *)
Inductive AdapterCall : Type :=
| CallCompose (cycle : Z) (committed : list CommittedSurfaceState) (commits : list TransactionCommit) (answer : result Frame Error)
| CallSubmit (cycle : Z) (frame : Frame) (answer : result Submission Error)
| CallPoll (answer : result (list (ProductionRetirement Retirement)) Error)
| CallFeedback (cycle : Z) (retirement : Retirement) (answer : result Evidence Error).

(** The adapter, keeping a log of the calls it gets. *)
Definition logged (a : ProductionPresentationAdapter W Frame Submission Retirement Evidence Error) :
    ProductionPresentationAdapter (W * list AdapterCall) Frame Submission Retirement Evidence Error :=
  mk_presentation
    (λ w n l cs, let '(r, w') := compose_frame a w.1 n l cs in (r, (w', w.2 ++ [CallCompose n l cs r])))
    (λ w n f, let '(r, w') := submit_frame a w.1 n f in (r, (w', w.2 ++ [CallSubmit n f r])))
    (λ w, let '(r, w') := poll_retirements a w.1 in (r, (w', w.2 ++ [CallPoll r])))
    (λ w n x, let '(r, w') := route_protocol_feedback a w.1 n x in (r, (w', w.2 ++ [CallFeedback n x r]))).

(** Retirements that are fed back, each with its evidence. *)
Definition fed_back (retirements : list (ProductionRetirement Retirement)) (evidence : list Evidence) : list AdapterCall :=
  zip_with (λ r ev, CallFeedback (re_cycle r) (re_retirement r) (Ok ev)) retirements evidence.

Lemma feedback_loop_logged a retirements evidence (w : W) log :
  let '(r, w') := feedback_loop a retirements evidence w in
  ∃ calls, feedback_loop (logged a) retirements evidence (w, log) = (r, (w', log ++ calls))
  ∧ match r with
    | Ok ev => ∃ new, ev = evidence ++ new ∧ length new = length retirements ∧ calls = fed_back retirements new
    | Err e => ce_phase e = ProtocolFeedback
               ∧ ∃ before x after new, retirements = before ++ x :: after ∧ ce_cycle e = re_cycle x ∧ length new = length before
                 ∧ calls = fed_back before new ++ [CallFeedback (re_cycle x) (re_retirement x) (Err (ce_source e))]
    end.
Proof.
  revert evidence w log. induction retirements as [|x retirements IH]; intros evidence w log; cbn.
  { exists []. split; [by rewrite app_nil_r|]. exists []. by rewrite app_nil_r. }
  destruct (route_protocol_feedback a w (re_cycle x) (re_retirement x)) as [[ev|e] w1] eqn:Ef.
  - specialize (IH (evidence ++ [ev]) w1 (log ++ [CallFeedback (re_cycle x) (re_retirement x) (Ok ev)])).
    destruct (feedback_loop a _ _ w1) as [r w2]. destruct IH as (calls&->&Hr).
    exists (CallFeedback (re_cycle x) (re_retirement x) (Ok ev) :: calls). split; [by rewrite <-app_assoc|]. destruct r as [ev'|e].
    + destruct Hr as (new & -> & Hl & ->). exists (ev :: new). split; [by rewrite <-app_assoc|]. split; [by f_equal/=|done].
    + destruct Hr as (?&before&y&after&new&->&?&?&->). split; [done|]. exists (x :: before), y, after, (ev :: new).
      split_and!; [done..|by f_equal/=|done].
  - eexists. split; [done|]. split; [done|]. by exists [], x, retirements, [].
Qed.

Lemma intake_total i l : surfaces_unique l → ∃ r l', intake_commit i l = Some (r, l') ∧ surfaces_unique l'.
Proof. intros Hl. destruct (intake_commit_spec i l Hl) as (r&l'&?&?&_). by exists r, l'. Qed.
Lemma commit_batches_total batches l :
  surfaces_unique l → ∃ cs l', commit_batches batches l = Some (cs, l') ∧ surfaces_unique l'
    ∧ length cs = length batches.
Proof.
  revert l. induction batches as [|b batches IH]; intros l Hl; cbn; [by exists [], l|].
  destruct (intake_total b l Hl) as (r&l1&->&Hl1). cbn. destruct (IH l1 Hl1) as (cs&l2&->&?&?). cbn.
  eexists _, l2. split; [done|]. split; [done|]. by f_equal/=.
Qed.

(** C20: a production cycle runs its phases in order and stops at the first
    failure.  Every cycle takes the next cycle number and commits its authority
    batches, one answer each, whatever the presentation does.  The adapter is then
    asked to compose the committed surfaces, to submit the frame it composed, to
    poll, and to route the feedback of each retirement it polled, all of them in
    their order and under their own cycles; the report carries the submission and
    the evidence of each retirement.  An error names the phase and the cycle of the
    call that failed, which is the last one made. *)
Theorem cycle_phases (c : ProductionSessionCoordinator) (batches : list AuthorityTransactionIntake)
    (a : ProductionPresentationAdapter W Frame Submission Retirement Evidence Error) (w : W) :
  surfaces_unique (pn_committed_surfaces c) →
  let n := pn_next_cycle c in
  ∃ commits committed r w' log,
    commit_batches batches (pn_committed_surfaces c) = Some (commits, committed)
  ∧ length commits = length batches ∧ surfaces_unique committed
  ∧ let c' := mk_coordinator (pn_engine c) committed (saturating_add u64_MAX n 1) in
    run_cycle c batches a w = Some (r, c', w')
  ∧ run_cycle c batches (logged a) (w, []) = Some (r, c', (w', log))
  ∧ match r with
    | Ok report => cy_cycle report = n ∧ cy_authority_commits report = commits
        ∧ cy_committed_surfaces report = committed
        ∧ ∃ frame retirements, length (cy_evidence report) = length retirements
            ∧ log = [CallCompose n committed commits (Ok frame); CallSubmit n frame (Ok (cy_submission report)); CallPoll (Ok retirements)]
                      ++ fed_back retirements (cy_evidence report)
    | Err e =>
        match ce_phase e with
        | FrameComposition => ce_cycle e = n ∧ log = [CallCompose n committed commits (Err (ce_source e))]
        | KmsSubmit => ce_cycle e = n ∧ ∃ frame,
            log = [CallCompose n committed commits (Ok frame); CallSubmit n frame (Err (ce_source e))]
        | KmsRetire => ce_cycle e = n ∧ ∃ frame submission,
            log = [CallCompose n committed commits (Ok frame); CallSubmit n frame (Ok submission); CallPoll (Err (ce_source e))]
        | ProtocolFeedback => ∃ frame submission before x after evidence,
            ce_cycle e = re_cycle x ∧ length evidence = length before
            ∧ log = [CallCompose n committed commits (Ok frame); CallSubmit n frame (Ok submission); CallPoll (Ok (before ++ x :: after))]
                      ++ fed_back before evidence ++ [CallFeedback (re_cycle x) (re_retirement x) (Err (ce_source e))]
        | AuthorityIntake | EngineCommitPreparation => False
        end
    end.
Proof.
  intros Hl n. destruct (commit_batches_total batches _ Hl) as (commits&committed&Hc&Hu&Hlen).
  exists commits, committed. unfold run_cycle, commit_authority_batches. cbn. rewrite !Hc. cbn.
  unfold present_cycle. cbn. fold n.
  destruct (compose_frame a w n committed commits) as [[frame|e] w1]; [|by eexists _, _, _; split_and!].
  cbn [fst snd]. destruct (submit_frame a w1 n frame) as [[submission|e] w2]; [|eexists _, _, _; split_and!; try done; simpl; eauto].
  cbn [fst snd]. destruct (poll_retirements a w2) as [[retirements|e] w3]; [|eexists _, _, _; split_and!; try done; simpl; eauto].
  cbn [fst snd app].
  pose proof (feedback_loop_logged a retirements [] w3
    [CallCompose n committed commits (Ok frame); CallSubmit n frame (Ok submission); CallPoll (Ok retirements)]) as Hf.
  destruct (feedback_loop a retirements [] w3) as [[ev|e] w4]; destruct Hf as (calls&->&Hr);
    eexists _, _, _; (do 3 (split; [done|])); (split; [done|]); (split; [done|]).
  - cbn. split_and!; try done. destruct Hr as (new & -> & Hlen' & ->). by exists frame, retirements.
  - cbn. destruct Hr as (->&before&x&after&new&->&?&?&->). by exists frame, submission, before, x, after, new.
Qed.
End trace.

(** ** The asynchronous service *)

Lemma next_phase_enough cursor o fuel :
  (4 ≤ fuel)%nat → next_phase fuel cursor o = next_phase 4 cursor o ∧ is_Some (next_phase 4 cursor o).
Proof.
  intros Hf. do 4 (destruct fuel as [|fuel]; [lia|]).
  destruct o as [[] [] [] []], cursor; (split; [reflexivity|by eexists]).
Qed.

Definition justifies (o : ProductionAsyncServiceObservation) (p : ProductionAsyncServicePhase) : bool :=
  match p with
  | SvcKmsRetire => retirement_required o
  | SvcSchedulePresent => present_queued o && negb (present_output_blocked o)
  | SvcSubmitPendingFrame => pending_output_ready o
  end.
(** The phases a cursor still has ahead. *)
Definition ahead (cursor : ProductionAsyncServiceCursor) : list ProductionAsyncServicePhase :=
  match cursor with
  | CurRetirement => [SvcKmsRetire; SvcSchedulePresent; SvcSubmitPendingFrame]
  | CurPresent => [SvcSchedulePresent; SvcSubmitPendingFrame]
  | CurPendingFrame => [SvcSubmitPendingFrame]
  | CurComplete => []
  end.

Lemma next_phase_spec cursor o :
  match next_phase 4 cursor o with
  | Some (Some p, cursor') => ∃ skipped, ahead cursor = skipped ++ p :: ahead cursor'
      ∧ justifies o p = true ∧ Forall (λ q, justifies o q = false) skipped
  | Some (None, cursor') => cursor' = CurComplete ∧ Forall (λ q, justifies o q = false) (ahead cursor)
  | None => False
  end.
Proof.
  destruct o as [[] [] [] []], cursor; cbn; try (by eexists []); try (split; [done|by repeat constructor]);
    try (eexists [_]; split; [reflexivity|]; split; [done|by repeat constructor]);
    try (eexists [_; _]; split; [reflexivity|]; split; [done|by repeat constructor]).
Qed.

(** The service asked again and again, each time with what is observed then. *)
Fixpoint service_run (cursor : ProductionAsyncServiceCursor) (os : list ProductionAsyncServiceObservation) :
    option (list (option ProductionAsyncServicePhase)) :=
  match os with
  | [] => Some []
  | o :: os => '(p, cursor) ← next_phase 4 cursor o; ps ← service_run cursor os; Some (p :: ps)
  end.

Lemma service_complete os : service_run CurComplete os = Some (replicate (length os) None).
Proof. induction os as [|o os IH]; [done|]. cbn [service_run next_phase service_step]. cbn. by rewrite IH. Qed.

Lemma service_run_spec cursor os :
  ∃ phases k, service_run cursor os = Some ((Some <$> phases) ++ replicate k None)
    ∧ phases `sublist_of` ahead cursor
    ∧ ∀ i p, phases !! i = Some p → ∃ o, os !! i = Some o ∧ justifies o p = true.
Proof.
  revert cursor. induction os as [|o os IH]; intros cursor; cbn [service_run].
  { exists [], 0%nat. split; [done|]. split; [apply sublist_nil_l|done]. }
  pose proof (next_phase_spec cursor o) as Hn.
  destruct (next_phase 4 cursor o) as [[[p|] cursor']|]; [| |done]; cbn.
  - destruct Hn as (skipped&Ha&Hj&_). destruct (IH cursor') as (phases&k&->&Hs&Hp). cbn.
    exists (p :: phases), k. split; [done|]. split.
    + rewrite Ha. apply sublist_inserts_l. by constructor.
    + intros [|i] q Hq; cbn in Hq; [injection Hq as <-; by exists o|]. by apply Hp.
  - destruct Hn as [-> _]. rewrite service_complete. cbn. exists [], (S (length os)).
    split; [done|]. split; [apply sublist_nil_l|done].
Qed.

(** The asynchronous service ends, in order.  Each request for the next phase
    goes through the loop at most four times.  However often it is asked and
    whatever is observed each time, the phases handed out are retirement, then
    scheduling, then submission, each at most once and only when the observation
    it was asked with calls for it; after the first refusal it refuses for ever.
    With one unchanging observation, asked four times or more, it hands out
    exactly the phases that observation calls for. *)
Theorem service_phases (os : list ProductionAsyncServiceObservation)
    (o : ProductionAsyncServiceObservation) (fuel n : nat) :
  (∀ cursor, (4 ≤ fuel)%nat → next_phase fuel cursor o = next_phase 4 cursor o
                              ∧ is_Some (next_phase 4 cursor o))
  ∧ (∃ phases k, service_run CurRetirement os = Some ((Some <$> phases) ++ replicate k None)
       ∧ phases `sublist_of` [SvcKmsRetire; SvcSchedulePresent; SvcSubmitPendingFrame]
       ∧ ∀ i p, phases !! i = Some p → ∃ o, os !! i = Some o ∧ justifies o p = true)
  ∧ ∃ k, service_run CurRetirement (replicate (4 + n) o)
     = Some ((Some <$> filter (λ p, justifies o p = true)
                        [SvcKmsRetire; SvcSchedulePresent; SvcSubmitPendingFrame]) ++ replicate k None).
Proof.
  split; [intros cursor Hf; by apply next_phase_enough|]. split; [apply (service_run_spec CurRetirement)|].
  exists (4 - length (filter (λ p, justifies o p = true) (ahead CurRetirement)) + length (replicate n o))%nat.
  change (replicate (4 + n) o) with (o :: o :: o :: o :: replicate n o).
  generalize (replicate n o) as os'. intros os'.
  destruct o as [[] [] [] []]; cbn [service_run next_phase service_step negb andb
    retirement_required present_output_blocked present_queued pending_output_ready mbind option_bind];
    rewrite ?service_complete; reflexivity.
Qed.

Definition example_presentation : ProductionPresentationAdapter nat Z bool Z Z unit :=
  mk_presentation (λ w n _ _, (Ok n, S w)) (λ w _ _, (Ok true, S w))
    (λ w, (Ok [mk_retirement 4 40; mk_retirement 5 50], S w))
    (λ w n x, if decide (x = 50) then (Err tt, w) else (Ok (n + x), S w)).
Lemma cycle_phases_witness :
  let c := mk_coordinator (mk_engine Outputs.headless_deterministic) [example_state 1 3] 5 in
  ∃ r c' w', run_cycle c [] (logged example_presentation) (0%nat, []) = Some (r, c', w')
    ∧ pn_next_cycle c' = 6
    ∧ w'.2 = [CallCompose 5 [example_state 1 3] [] (Ok 5); CallSubmit 5 5 (Ok true);
              CallPoll (Ok [mk_retirement 4 40; mk_retirement 5 50]); CallFeedback 4 40 (Ok 44); CallFeedback 5 50 (Err tt)].
Proof.
  intros c.
  destruct (cycle_phases c [] example_presentation 0%nat) as (cs&l&r&w'&log&_&_&_&_&Hr&_).
  { unfold surfaces_unique. apply (bool_decide_unpack _). vm_compute. exact I. }
  eexists _, _, _. split; [exact Hr|]. split; [vm_compute; reflexivity|].
  vm_compute in Hr. injection Hr as _ _ _ <-. reflexivity.
Defined.
