(* ===== verification/Namespaces.v ===== *)
(** * The namespace registry ([sophia-runtime/src/session/namespace.rs])

    The session's registry of namespaces and client admissions.  The [None]s of
    [create_namespace] and [admit] are the panics of an exhausted ID counter and
    of the two [expect]s. *)

From S2P Require Import Prelude Ids PortalPackets.
Local Open Scope Z_scope.

Record NamespaceRegistry : Type := mk_namespace_registry {
  nr_session_generation : Z;
  nr_namespace_ids : IdAllocator;
  nr_admission_ids : IdAllocator;
  nr_namespaces : gmap NamespaceId NamespaceContext;
  nr_admissions : gmap ClientAdmissionId ClientAdmissionContext;
}.

Inductive NamespaceRegistryError : Type :=
| InvalidSessionGeneration
| UnknownNamespace (namespace : NamespaceId)
| UnknownAdmission (client : ClientAdmissionId).

Record NamespaceRevocation : Type := mk_revocation {
  rv_namespace : NamespaceContext; rv_admissions : list ClientAdmissionContext;
}.

Definition namespace_registry_new (session_generation : Z) :
    result NamespaceRegistry NamespaceRegistryError :=
  if decide (session_generation = 0) then Err InvalidSessionGeneration
  else Ok (mk_namespace_registry session_generation allocator_new allocator_new ∅ ∅).

Definition create_namespace (r : NamespaceRegistry) (profile : NamespaceProfile)
    (capabilities : NamespaceCapabilities) : option (NamespaceContext * NamespaceRegistry) :=
  '(id, ids) ← next_id (nr_namespace_ids r);
  context ← namespace_context_new id profile capabilities;
  Some (context,
    mk_namespace_registry (nr_session_generation r) ids (nr_admission_ids r)
      (<[nx_id context := context]> (nr_namespaces r)) (nr_admissions r)).

Definition registry_namespace (r : NamespaceRegistry) (namespace : NamespaceId) :
    option NamespaceContext := nr_namespaces r !! namespace.

Definition admit_client (r : NamespaceRegistry) (namespace : NamespaceId)
    (method : ClientAuthenticationMethod) :
    option (result (ClientAdmissionContext * NamespaceRegistry) NamespaceRegistryError) :=
  match registry_namespace r namespace with
  | None => Some (Err (UnknownNamespace namespace))
  | Some namespace =>
      auth_provenance ← provenance_new method (nr_session_generation r);
      '(id, ids) ← next_id (nr_admission_ids r);
      context ← admission_new id namespace auth_provenance;
      Some (Ok (context,
        mk_namespace_registry (nr_session_generation r) (nr_namespace_ids r) ids (nr_namespaces r)
          (<[ad_client_id context := context]> (nr_admissions r))))
  end.

Definition registry_admission (r : NamespaceRegistry) (client : ClientAdmissionId) :
    option ClientAdmissionContext := nr_admissions r !! client.

Definition is_current_admission (r : NamespaceRegistry) (context : ClientAdmissionContext) : Prop :=
  ap_session_generation (ad_auth_provenance context) = nr_session_generation r
  ∧ registry_admission r (ad_client_id context) = Some context
  ∧ registry_namespace r (nx_id (ad_namespace context)) = Some (ad_namespace context).
#[export] Instance is_current_admission_dec r c : Decision (is_current_admission r c).
Proof. unfold is_current_admission; apply _. Defined.

Definition set_admissions (r : NamespaceRegistry) a : NamespaceRegistry :=
  mk_namespace_registry (nr_session_generation r) (nr_namespace_ids r) (nr_admission_ids r)
    (nr_namespaces r) a.
Definition set_namespaces (r : NamespaceRegistry) n : NamespaceRegistry :=
  mk_namespace_registry (nr_session_generation r) (nr_namespace_ids r) (nr_admission_ids r)
    n (nr_admissions r).

Definition revoke_admission (r : NamespaceRegistry) (client : ClientAdmissionId) :
    result (ClientAdmissionContext * NamespaceRegistry) NamespaceRegistryError :=
  let? context := ok_or (nr_admissions r !! client) (UnknownAdmission client) in
  Ok (context, set_admissions r (delete client (nr_admissions r))).

(** [clients.into_iter().filter_map(|client| self.admissions.remove(&client))]. *)
Definition remove_client (acc : list ClientAdmissionContext * gmap ClientAdmissionId ClientAdmissionContext)
    (client : ClientAdmissionId) :
    list ClientAdmissionContext * gmap ClientAdmissionId ClientAdmissionContext :=
  let '(out, admissions) := acc in
  match (admissions : gmap ClientAdmissionId ClientAdmissionContext) !! client with
  | Some context => (out ++ [context], delete client admissions)
  | None => (out, admissions)
  end.

Definition clients_of (r : NamespaceRegistry) (namespace : NamespaceId) : list ClientAdmissionId :=
  omap (λ '(client, admission),
    if decide (nx_id (ad_namespace admission) = namespace) then Some client else None)
    (btree_entries (nr_admissions r)).

Definition revoke_namespace (r : NamespaceRegistry) (namespace : NamespaceId) :
    result (NamespaceRevocation * NamespaceRegistry) NamespaceRegistryError :=
  let? context := ok_or (nr_namespaces r !! namespace) (UnknownNamespace namespace) in
  let r := set_namespaces r (delete namespace (nr_namespaces r)) in
  let '(out, admissions) := foldl remove_client ([], nr_admissions r) (clients_of r namespace) in
  Ok (mk_revocation context out, set_admissions r admissions).

Definition namespace_count (r : NamespaceRegistry) : Z := Z.of_nat (size (nr_namespaces r)).
Definition admission_count (r : NamespaceRegistry) : Z := Z.of_nat (size (nr_admissions r)).

(** ** The invariant *)

Record namespace_registry_ok (r : NamespaceRegistry) : Prop := {
  nok_generation : nr_session_generation r ≠ 0;
  nok_namespace_next : 1 ≤ next (nr_namespace_ids r);
  nok_admission_next : 1 ≤ next (nr_admission_ids r);
  nok_namespaces : ∀ n c, nr_namespaces r !! n = Some c →
    nx_id c = n ∧ id_valid n ∧ raw n < next (nr_namespace_ids r);
  nok_admissions : ∀ i c, nr_admissions r !! i = Some c →
    ad_client_id c = i ∧ admission_valid c ∧ raw i < next (nr_admission_ids r)
    ∧ ap_session_generation (ad_auth_provenance c) = nr_session_generation r
    ∧ nr_namespaces r !! nx_id (ad_namespace c) = Some (ad_namespace c);
}.

(** What may change: IDs go up; an entry stays what it is or goes for good. *)
Definition registry_evolves (r r' : NamespaceRegistry) : Prop :=
  nr_session_generation r' = nr_session_generation r
  ∧ next (nr_namespace_ids r) ≤ next (nr_namespace_ids r')
  ∧ next (nr_admission_ids r) ≤ next (nr_admission_ids r')
  ∧ (∀ n c, raw n < next (nr_namespace_ids r) → nr_namespaces r' !! n = Some c →
       nr_namespaces r !! n = Some c)
  ∧ (∀ i c, raw i < next (nr_admission_ids r) → nr_admissions r' !! i = Some c →
       nr_admissions r !! i = Some c).

#[export] Instance registry_evolves_po : PreOrder registry_evolves.
Proof.
  split; [by intros r|].
  intros r1 r2 r3 (G1&N1&A1&M1&B1) (G2&N2&A2&M2&B2). split; [congruence|]. split; [lia|].
  split; [lia|]. split.
  - intros n c Hn Hc. apply M1; [done|]. apply M2; [lia|done].
  - intros i c Hi Hc. apply B1; [done|]. apply B2; [lia|done].
Qed.

(** ** The operations preserve it *)

Lemma create_namespace_ok r p k c r' :
  namespace_registry_ok r → create_namespace r p k = Some (c, r') →
  namespace_registry_ok r' ∧ registry_evolves r r' ∧ nr_namespaces r' !! nx_id c = Some c.
Proof.
  intros [Hg Hn Ha HN HA] Hc. unfold create_namespace in Hc.
  destruct (next_id _) as [[id ids]|] eqn:Eid; simplify_eq/=.
  apply next_id_Some in Eid as (->&Hnext&_). unfold namespace_context_new in Hc.
  case_decide as Hv; simplify_eq/=. split; [split; cbn|split; [split|]]; try done.
  - rewrite Hnext. lia.
  - intros n c. intros [[<- <-]|[Hne Hl]]%lookup_insert_Some.
    + simpl. rewrite Hnext. split; [done|]. split; [done|]. lia.
    + destruct (HN _ _ Hl) as (?&?&?). rewrite Hnext. split; [done|]. split; [done|]. lia.
  - intros i c Hl. destruct (HA _ _ Hl) as (?&?&?&?&Hns). do 4 (split; [done|]).
    rewrite lookup_insert_ne; [done|]. intros Heq. rewrite <-Heq in Hns.
    apply HN in Hns as (_&_&Hlt). simpl in Hlt. lia.
  - cbn. rewrite Hnext. split; [lia|]. split; [lia|]. split; [|done].
    intros n c Hlt. rewrite lookup_insert_ne; [done|]. intros <-. simpl in Hlt. lia.
  - apply lookup_insert_eq.
Qed.

Lemma admit_client_ok r n m c r' :
  namespace_registry_ok r → admit_client r n m = Some (Ok (c, r')) →
  namespace_registry_ok r' ∧ registry_evolves r r'
  ∧ next (nr_admission_ids r) ≤ raw (ad_client_id c) < next (nr_admission_ids r')
  ∧ nr_admissions r' !! ad_client_id c = Some c ∧ nx_id (ad_namespace c) = n.
Proof.
  intros [Hg Hn Ha HN HA] Hc. unfold admit_client, registry_namespace in Hc.
  destruct (nr_namespaces r !! n) as [ns|] eqn:Ens; simplify_eq/=.
  unfold provenance_new in Hc. case_decide; simplify_eq/=.
  destruct (next_id _) as [[id ids]|] eqn:Eid; simplify_eq/=.
  apply next_id_Some in Eid as (->&Hnext&_). unfold admission_new in Hc.
  case_decide as Hv; simplify_eq/=. destruct (HN _ _ Ens) as (Hid&_&_).
  split; [split; cbn|split; [split|split; [|split]]]; try done.
  - rewrite Hnext. lia.
  - intros i c. intros [[<- <-]|[Hne Hl]]%lookup_insert_Some.
    + simpl. rewrite Hid. split; [done|]. split; [done|]. split; [lia|]. done.
    + destruct (HA _ _ Hl) as (?&?&?&?&?). split; [done|]. split; [done|]. split; [lia|]. done.
  - cbn. split; [lia|]. split; [lia|]. split; [done|].
    intros i c Hlt. rewrite lookup_insert_ne; [done|]. intros <-. simpl in Hlt. lia.
  - simpl. lia.
  - simpl. by rewrite lookup_insert_eq.
Qed.

Lemma revoke_admission_ok r i c r' :
  namespace_registry_ok r → revoke_admission r i = Ok (c, r') →
  namespace_registry_ok r' ∧ registry_evolves r r' ∧ nr_admissions r !! i = Some c
  ∧ nr_admissions r' = delete i (nr_admissions r) ∧ nr_namespaces r' = nr_namespaces r.
Proof.
  intros [Hg Hn Ha HN HA] Hr. unfold revoke_admission in Hr. res_inv Hr.
  match goal with H : ok_or _ _ = Ok _ |- _ => apply ok_or_ok in H end.
  split; [split; cbn; try done|split; [|done]].
  - intros j c' [_ Hl]%lookup_delete_Some. by apply HA.
  - split; [done|]. split; [cbn; lia|]. split; [cbn; lia|]. split; [done|]. cbn.
    by intros j c' _ [_ Hl]%lookup_delete_Some.
Qed.

(** The clients to remove, and what is left of the admissions. *)

Lemma elem_of_clients_of r n i :
  i ∈ clients_of r n ↔ ∃ c, nr_admissions r !! i = Some c ∧ nx_id (ad_namespace c) = n.
Proof.
  unfold clients_of. rewrite list_elem_of_omap. split.
  - intros ([j c]&Hin%elem_of_btree_entries&Hd). case_decide; simplify_eq. eauto.
  - intros (c&Hc&Hn). exists (i, c). rewrite elem_of_btree_entries. by rewrite decide_True.
Qed.

Lemma clients_of_sorted r n : StronglySorted key_le (clients_of r n) ∧ NoDup (clients_of r n).
Proof.
  unfold clients_of. pose proof (btree_keys_sorted (nr_admissions r)) as Hs.
  pose proof (NoDup_btree_keys (nr_admissions r)) as Hn. unfold btree_keys in *.
  induction (btree_entries (nr_admissions r)) as [|[i c] l IH]; [by split; constructor|].
  rewrite fmap_cons in Hs, Hn. apply StronglySorted_inv in Hs as [Hs HF].
  apply NoDup_cons in Hn as [Hi Hn]. destruct (IH Hs Hn) as [IH1 IH2]. simpl.
  assert (∀ j, j ∈ omap (λ '(client, admission),
    if decide (nx_id (ad_namespace admission) = n) then Some client else None) l → j ∈ l.*1) as Hin.
  { intros j ([j' c']&Hin&Hd)%list_elem_of_omap. case_decide; simplify_eq.
    apply list_elem_of_fmap. by exists (j, c'). }
  case_decide; [|done]. split; constructor; try done.
  - rewrite Forall_forall in HF |- *. intros j Hj. by apply HF, Hin.
  - intros ?%Hin. done.
Qed.

Lemma remove_clients l out (A : gmap ClientAdmissionId ClientAdmissionContext) :
  NoDup l →
  (foldl remove_client (out, A) l).1 = out ++ omap (λ i, A !! i) l
  ∧ ∀ i, (foldl remove_client (out, A) l).2 !! i = if decide (i ∈ l) then None else A !! i.
Proof.
  intros Hnd. revert out A. induction Hnd as [|i l Hi Hnd IH]; intros out A; simpl.
  { by rewrite app_nil_r. }
  destruct (A !! i) as [c|] eqn:E.
  - destruct (IH (out ++ [c]) (delete i A)) as [H1 H2]. split.
    + rewrite H1, <-app_assoc. simpl. do 2 f_equal. apply list_omap_ext, Forall_Forall2_diag, Forall_forall.
      intros j Hj. rewrite lookup_delete_ne; [done|]. by intros ->.
    + intros j. rewrite H2. destruct (decide (j = i)) as [->|].
      * by rewrite decide_elem_head, lookup_delete_eq, decide_False.
      * by rewrite decide_elem_tail, lookup_delete_ne by done.
  - destruct (IH out A) as [H1 H2]. split; [done|].
    intros j. rewrite H2. destruct (decide (j = i)) as [->|].
    + by rewrite decide_elem_head, decide_False, E.
    + by rewrite decide_elem_tail by done.
Qed.

Lemma revoke_namespace_ok r n v r' :
  namespace_registry_ok r → revoke_namespace r n = Ok (v, r') →
  namespace_registry_ok r' ∧ registry_evolves r r'
  ∧ nr_namespaces r !! n = Some (rv_namespace v)
  ∧ nr_namespaces r' = delete n (nr_namespaces r)
  ∧ rv_admissions v = omap (λ i, nr_admissions r !! i) (clients_of r n)
  ∧ ∀ i, nr_admissions r' !! i = if decide (i ∈ clients_of r n) then None else nr_admissions r !! i.
Proof.
  intros [Hg Hn Ha HN HA] Hr. unfold revoke_namespace in Hr. rewrite res_bind_ok in Hr.
  destruct Hr as (ns&Hns&Hr). apply ok_or_ok in Hns. cbv zeta in Hr. cbn [nr_admissions set_namespaces] in Hr.
  change (clients_of (set_namespaces r (delete n (nr_namespaces r))) n) with (clients_of r n) in Hr.
  destruct (clients_of_sorted r n) as [_ Hnd].
  destruct (remove_clients (clients_of r n) [] (nr_admissions r) Hnd) as [H1 H2].
  destruct (foldl remove_client _ _) as [out A]. simplify_eq/=.
  assert (∀ i c, A !! i = Some c → nr_admissions r !! i = Some c ∧ nx_id (ad_namespace c) ≠ n) as HA'.
  { intros i c Hi. rewrite H2 in Hi. case_decide as Hd; [done|]. split; [done|].
    intros Heq. apply Hd, elem_of_clients_of. eauto. }
  split; [split; cbn; try done|split; [|done]].
  - intros m c [_ Hl]%lookup_delete_Some. by apply HN.
  - intros i c [Hi Hne]%HA'. destruct (HA _ _ Hi) as (?&?&?&?&?). do 4 (split; [done|]).
    by rewrite lookup_delete_ne by done.
  - split; [done|]. split; [cbn; lia|]. split; [cbn; lia|]. cbn. split.
    + by intros m c _ [_ Hl]%lookup_delete_Some.
    + by intros i c _ [Hi _]%HA'.
Qed.

Inductive registry_op : relation NamespaceRegistry :=
| op_create r p k c r' : create_namespace r p k = Some (c, r') → registry_op r r'
| op_admit r n m c r' : admit_client r n m = Some (Ok (c, r')) → registry_op r r'
| op_revoke_admission r i c r' : revoke_admission r i = Ok (c, r') → registry_op r r'
| op_revoke_namespace r n v r' : revoke_namespace r n = Ok (v, r') → registry_op r r'.

Lemma registry_op_ok r r' :
  namespace_registry_ok r → registry_op r r' → namespace_registry_ok r' ∧ registry_evolves r r'.
Proof.
  intros Hok Hs. destruct Hs as [r p k c r' Hs|r n m c r' Hs|r i c r' Hs|r n v r' Hs].
  - by destruct (create_namespace_ok _ _ _ _ _ Hok Hs) as (?&?&_).
  - by destruct (admit_client_ok _ _ _ _ _ Hok Hs) as (?&?&_).
  - by destruct (revoke_admission_ok _ _ _ _ Hok Hs) as (?&?&_).
  - by destruct (revoke_namespace_ok _ _ _ _ Hok Hs) as (?&?&_).
Qed.

Lemma registry_ops_ok r r' :
  namespace_registry_ok r → rtc registry_op r r' → namespace_registry_ok r' ∧ registry_evolves r r'.
Proof.
  intros Hok Hr. induction Hr as [r|r r1 r2 Hs _ IH]; [done|].
  destruct (registry_op_ok _ _ Hok Hs) as [Hok1 He]. destruct (IH Hok1) as [? ?].
  split; [done|]. by etrans.
Qed.

Lemma namespace_registry_new_ok g r : namespace_registry_new g = Ok r → namespace_registry_ok r.
Proof. unfold namespace_registry_new. case_decide; intros [= <-]. by split. Qed.

Lemma current_iff_stored r c :
  namespace_registry_ok r → is_current_admission r c ↔ nr_admissions r !! ad_client_id c = Some c.
Proof.
  intros Hok. unfold is_current_admission, registry_admission, registry_namespace.
  split; [tauto|]. intros Hc. by destruct (nok_admissions _ Hok _ _ Hc) as (_&_&_&?&?).
Qed.

(** ** Properties *)

(** A revocation is for good.  In any session, an admission handed out by
    [admit] is current; once it has been revoked, by itself or with its namespace,
    no later admission, namespace or revocation ever makes it current again, so a
    context an authority still holds stays refused. *)
Theorem revocation_is_final (g : Z) (r0 r1 r2 r3 r4 : NamespaceRegistry) (n : NamespaceId)
    (m : ClientAuthenticationMethod) (c : ClientAdmissionContext) :
  namespace_registry_new g = Ok r0 → rtc registry_op r0 r1 →
  admit_client r1 n m = Some (Ok (c, r2)) → rtc registry_op r2 r3 →
  is_current_admission r2 c
  ∧ (¬ is_current_admission r3 c → rtc registry_op r3 r4 → ¬ is_current_admission r4 c).
Proof.
  intros H0 H01 Hadmit H23. apply namespace_registry_new_ok in H0.
  destruct (registry_ops_ok _ _ H0 H01) as [Hok1 _].
  destruct (admit_client_ok _ _ _ _ _ Hok1 Hadmit) as (Hok2&_&[_ Hlt]&Hc&_).
  destruct (registry_ops_ok _ _ Hok2 H23) as [Hok3 (_&_&Hnext&_&_)].
  split; [by apply current_iff_stored|]. intros Hn3 H34.
  destruct (registry_ops_ok _ _ Hok3 H34) as [Hok4 (_&_&_&_&Hsame)].
  rewrite current_iff_stored in Hn3 by done. rewrite current_iff_stored by done.
  intros Hc4. apply Hn3, Hsame; [lia|done].
Qed.

Definition example_registry : NamespaceRegistry :=
  mk_namespace_registry 1 allocator_new allocator_new ∅ ∅.
Definition example_namespace : NamespaceContext :=
  mk_namespace_context (from_raw 1) Confined CAPABILITIES_NONE.
Definition example_admission : ClientAdmissionContext :=
  mk_admission (from_raw 1) example_namespace (mk_provenance PeerCredentials 1).
Definition example_registry_1 : NamespaceRegistry :=
  mk_namespace_registry 1 {| next := 2 |} allocator_new {[ from_raw 1 := example_namespace ]} ∅.
Definition example_registry_2 : NamespaceRegistry :=
  mk_namespace_registry 1 {| next := 2 |} {| next := 2 |} {[ from_raw 1 := example_namespace ]}
    {[ from_raw 1 := example_admission ]}.
Definition example_registry_3 : NamespaceRegistry :=
  mk_namespace_registry 1 {| next := 2 |} {| next := 2 |} ∅ ∅.
Lemma revocation_is_final_witness :
  is_current_admission example_registry_2 example_admission
  ∧ ¬ is_current_admission example_registry_3 example_admission.
Proof.
  assert (rtc registry_op example_registry example_registry_1) as H01.
  { eapply rtc_l; [|apply rtc_refl].
    apply (op_create _ Confined CAPABILITIES_NONE example_namespace). reflexivity. }
  assert (rtc registry_op example_registry_2 example_registry_3) as H23.
  { eapply rtc_l; [|apply rtc_refl].
    apply (op_revoke_namespace _ (from_raw 1) (mk_revocation example_namespace [example_admission])).
    vm_compute. reflexivity. }
  destruct (revocation_is_final 1 example_registry example_registry_1 example_registry_2
    example_registry_3 example_registry_3 (from_raw 1) PeerCredentials example_admission
    eq_refl H01 ltac:(vm_compute; reflexivity) H23) as [Hc Hn].
  split; [exact Hc|]. apply Hn; [|apply rtc_refl].
  intros (_&H&_). vm_compute in H. discriminate H.
Defined.

(** Revoking a namespace revokes its clients.  In any reachable registry,
    [revoke_namespace] of a registered namespace removes it and exactly the
    admissions made into it, reporting them in order of client ID; every other
    namespace and admission stays; and each admission that is stored is into a
    namespace that is still registered, with the facts it was registered with. *)
Theorem namespace_revocation_spec (g : Z) (r0 r : NamespaceRegistry) (n : NamespaceId) :
  namespace_registry_new g = Ok r0 → rtc registry_op r0 r →
  (∀ i c, nr_admissions r !! i = Some c → ad_client_id c = i ∧ is_current_admission r c)
  ∧ match revoke_namespace r n with
    | Ok (v, r') =>
        nr_namespaces r !! n = Some (rv_namespace v)
        ∧ nr_namespaces r' = delete n (nr_namespaces r)
        ∧ (∀ c, c ∈ rv_admissions v ↔ is_current_admission r c ∧ nx_id (ad_namespace c) = n)
        ∧ StronglySorted key_le (ad_client_id <$> rv_admissions v)
        ∧ ∀ c, is_current_admission r' c ↔ is_current_admission r c ∧ nx_id (ad_namespace c) ≠ n
    | Err e => e = UnknownNamespace n ∧ nr_namespaces r !! n = None
    end.
Proof.
  intros H0 Hr. apply namespace_registry_new_ok in H0.
  destruct (registry_ops_ok _ _ H0 Hr) as [Hok _].
  split.
  { intros i c Hc. destruct (nok_admissions _ Hok _ _ Hc) as (Hi&_). split; [done|].
    apply current_iff_stored; [done|]. by rewrite Hi. }
  destruct (revoke_namespace r n) as [[v r']|e] eqn:E.
  2:{ unfold revoke_namespace in E. destruct (nr_namespaces r !! n); simpl in E.
      - by destruct (foldl remove_client _ _).
      - by injection E as <-. }
  destruct (revoke_namespace_ok _ _ _ _ Hok E) as (Hok'&_&Hn&Hns&Hout&HA).
  split; [done|]. split; [done|]. split; [|split].
  - intros c. rewrite Hout, list_elem_of_omap. rewrite current_iff_stored by done. split.
    + intros (i&(c'&Hc'&Hid)%elem_of_clients_of&Hc).
      rewrite Hc' in Hc. injection Hc as ->.
      destruct (nok_admissions _ Hok _ _ Hc') as (<-&_). done.
    + intros [Hc Hid]. exists (ad_client_id c). split; [|done]. apply elem_of_clients_of. eauto.
  - assert (∀ l : list ClientAdmissionId, (∀ i, i ∈ l → ∃ c, nr_admissions r !! i = Some c) →
      ad_client_id <$> omap (λ i, nr_admissions r !! i) l = l) as Hmap.
    { induction l as [|i l IH]; intros Hl; [done|]. csimpl.
      destruct (Hl i) as [c Hc]; [left|]. rewrite Hc. csimpl.
      destruct (nok_admissions _ Hok _ _ Hc) as (->&_). f_equal. apply IH.
      intros j Hj. apply Hl. by right. }
    rewrite Hout, Hmap; [apply clients_of_sorted|].
    intros i (c&Hc&_)%elem_of_clients_of. eauto.
  - intros c. rewrite !current_iff_stored by done. rewrite HA. case_decide as Hd.
    + apply elem_of_clients_of in Hd as (c'&Hc'&Hid). split; [done|]. intros [Hc Hne].
      congruence.
    + split; [|tauto]. intros Hc. split; [done|]. intros Hid. apply Hd, elem_of_clients_of. eauto.
Qed.

Lemma namespace_revocation_spec_witness :
  is_current_admission example_registry_2 example_admission
  ∧ is_ok (revoke_namespace example_registry_2 (from_raw 1)) = true.
Proof.
  assert (rtc registry_op example_registry example_registry_2) as H02.
  { eapply rtc_l; [apply (op_create _ Confined CAPABILITIES_NONE example_namespace
                            example_registry_1); reflexivity|].
    eapply rtc_l; [apply (op_admit _ (from_raw 1) PeerCredentials example_admission);
                   vm_compute; reflexivity|apply rtc_refl]. }
  destruct (namespace_revocation_spec 1 example_registry example_registry_2 (from_raw 1)
    eq_refl H02) as [H _].
  split; [|vm_compute; reflexivity].
  apply (H (from_raw 1) example_admission). vm_compute. reflexivity.
Defined.
