(* ===== verification/XAtoms.v ===== *)
(** * X11 atoms
    ([sophia-x-authority/src/atom.rs])

    The table that interns atom names: two maps, from atoms to names and back, and
    the next dynamic atom. *)

From stdpp Require Import strings.
From S2P Require Import Prelude Text.
Local Open Scope Z_scope.

(** [XAtom] is a [u32]. *)
Notation XAtom := Z (only parsing).

Definition X_ATOM_NONE : XAtom := 0.
Definition X_ATOM_MAX_NAME_LEN : Z := 256.
Definition X_ATOM_LAST_PREDEFINED : XAtom := 68.
Definition X_ATOM_ATOM : XAtom := 4.

Inductive XAtomError : Type :=
| EmptyName | NameTooLong (len max : Z) | InvalidName | AtomSpaceExhausted.
#[export] Instance atom_error_eq_dec : EqDecision XAtomError.
Proof. solve_decision. Defined.

Record XAtomTable : Type := mk_atom_table {
  names_by_atom : gmap XAtom (list Z); atoms_by_name : gmap (list Z) XAtom; next_dynamic : XAtom;
}.

Definition X_PREDEFINED_ATOMS : list (XAtom * string) := [
  (1, "PRIMARY"); (2, "SECONDARY"); (3, "ARC"); (4, "ATOM"); (5, "BITMAP"); (6, "CARDINAL");
  (7, "COLORMAP"); (8, "CURSOR"); (9, "CUT_BUFFER0"); (10, "CUT_BUFFER1"); (11, "CUT_BUFFER2");
  (12, "CUT_BUFFER3"); (13, "CUT_BUFFER4"); (14, "CUT_BUFFER5"); (15, "CUT_BUFFER6");
  (16, "CUT_BUFFER7"); (17, "DRAWABLE"); (18, "FONT"); (19, "INTEGER"); (20, "PIXMAP");
  (21, "POINT"); (22, "RECTANGLE"); (23, "RESOURCE_MANAGER"); (24, "RGB_COLOR_MAP");
  (25, "RGB_BEST_MAP"); (26, "RGB_BLUE_MAP"); (27, "RGB_DEFAULT_MAP"); (28, "RGB_GRAY_MAP");
  (29, "RGB_GREEN_MAP"); (30, "RGB_RED_MAP"); (31, "STRING"); (32, "VISUALID"); (33, "WINDOW");
  (34, "WM_COMMAND"); (35, "WM_HINTS"); (36, "WM_CLIENT_MACHINE"); (37, "WM_ICON_NAME");
  (38, "WM_ICON_SIZE"); (39, "WM_NAME"); (40, "WM_NORMAL_HINTS"); (41, "WM_SIZE_HINTS");
  (42, "WM_ZOOM_HINTS"); (43, "MIN_SPACE"); (44, "NORM_SPACE"); (45, "MAX_SPACE");
  (46, "END_SPACE"); (47, "SUPERSCRIPT_X"); (48, "SUPERSCRIPT_Y"); (49, "SUBSCRIPT_X");
  (50, "SUBSCRIPT_Y"); (51, "UNDERLINE_POSITION"); (52, "UNDERLINE_THICKNESS");
  (53, "STRIKEOUT_ASCENT"); (54, "STRIKEOUT_DESCENT"); (55, "ITALIC_ANGLE"); (56, "X_HEIGHT");
  (57, "QUAD_WIDTH"); (58, "WEIGHT"); (59, "POINT_SIZE"); (60, "RESOLUTION"); (61, "COPYRIGHT");
  (62, "NOTICE"); (63, "FONT_NAME"); (64, "FAMILY_NAME"); (65, "FULL_NAME"); (66, "CAP_HEIGHT");
  (67, "WM_CLASS"); (68, "WM_TRANSIENT_FOR")
].

Definition insert_predefined (t : XAtomTable) (entry : XAtom * string) : XAtomTable :=
  let '(atom, name) := entry in
  mk_atom_table (<[atom := str name]> (names_by_atom t)) (<[str name := atom]> (atoms_by_name t))
    (next_dynamic t).
Definition atom_table_new : XAtomTable :=
  foldl insert_predefined (mk_atom_table ∅ ∅ (X_ATOM_LAST_PREDEFINED + 1)) X_PREDEFINED_ATOMS.

(** [byte.is_ascii() && !byte.is_ascii_control()] *)
Definition atom_name_byte (b : Z) : Prop := b < 128 ∧ ¬ (b < 32 ∨ b = 127).
#[export] Instance atom_name_byte_dec b : Decision (atom_name_byte b).
Proof. unfold atom_name_byte; apply _. Defined.

Definition validated_atom_name (name : list Z) : result (list Z) XAtomError :=
  ensure! (name ≠ []) else EmptyName in
  ensure! (str_len name ≤ X_ATOM_MAX_NAME_LEN) else NameTooLong (str_len name) X_ATOM_MAX_NAME_LEN in
  ensure! (Forall atom_name_byte name) else InvalidName in
  Ok name.

Definition intern (t : XAtomTable) (name : list Z) (only_if_exists : bool) :
    result (option XAtom) XAtomError * XAtomTable :=
  match validated_atom_name name with
  | Err e => (Err e, t)
  | Ok name =>
      match atoms_by_name t !! name with
      | Some atom => (Ok (Some atom), t)
      | None =>
          if only_if_exists then (Ok None, t)
          else
            let atom := next_dynamic t in
            match checked_add u32_MAX (next_dynamic t) 1 with
            | None => (Err AtomSpaceExhausted, t)
            | Some next_dynamic =>
                (Ok (Some atom),
                 mk_atom_table (<[atom := name]> (names_by_atom t))
                   (<[name := atom]> (atoms_by_name t)) next_dynamic)
            end
      end
  end.

Definition atom_name (t : XAtomTable) (atom : XAtom) : option (list Z) := names_by_atom t !! atom.
Definition atom_of (t : XAtomTable) (name : list Z) : option XAtom := atoms_by_name t !! name.

Definition is_metadata_candidate_name (name : list Z) : Prop :=
  name = str "WM_CLASS" ∨ name = str "WM_NAME" ∨ name = str "_NET_WM_NAME" ∨ name = str "WM_PROTOCOLS".
#[export] Instance is_metadata_candidate_name_dec n : Decision (is_metadata_candidate_name n).
Proof. unfold is_metadata_candidate_name; apply _. Defined.
Definition is_metadata_candidate_atom (t : XAtomTable) (atom : XAtom) : bool :=
  from_option (λ name, bool_decide (is_metadata_candidate_name name)) false (atom_name t atom).

(** ** The two maps are inverse *)

Definition valid_atom_name (name : list Z) : Prop :=
  name ≠ [] ∧ str_len name ≤ X_ATOM_MAX_NAME_LEN ∧ Forall atom_name_byte name.
#[export] Instance valid_atom_name_dec n : Decision (valid_atom_name n).
Proof. unfold valid_atom_name; apply _. Defined.
Lemma validated_atom_name_ok name n : validated_atom_name name = Ok n ↔ n = name ∧ valid_atom_name name.
Proof. unfold validated_atom_name, valid_atom_name. repeat case_decide; naive_solver. Qed.

Record atom_table_ok (t : XAtomTable) : Prop := {
  atoms_inverse : ∀ a n, names_by_atom t !! a = Some n ↔ atoms_by_name t !! n = Some a;
  atoms_named : ∀ a n, names_by_atom t !! a = Some n → valid_atom_name n ∧ 0 < a < next_dynamic t;
  atoms_next : X_ATOM_LAST_PREDEFINED < next_dynamic t ≤ u32_MAX;
}.

(** A table with a new pair. *)
Lemma atoms_inverse_insert t a n :
  (∀ a n, names_by_atom t !! a = Some n ↔ atoms_by_name t !! n = Some a) →
  names_by_atom t !! a = None → atoms_by_name t !! n = None →
  ∀ a' n', <[a := n]> (names_by_atom t) !! a' = Some n' ↔ <[n := a]> (atoms_by_name t) !! n' = Some a'.
Proof.
  intros Hi Ha Hn a' n'. rewrite !lookup_insert_Some. split.
  - intros [[<- <-]|[Hne Hl]]; [by left|]. right. apply Hi in Hl as Hl'. split; [congruence|done].
  - intros [[<- <-]|[Hne Hl]]; [by left|]. right. apply Hi in Hl as Hl'. split; [congruence|done].
Qed.

Lemma fresh_atom t : atom_table_ok t → names_by_atom t !! next_dynamic t = None.
Proof.
  intros Hok. destruct (names_by_atom t !! next_dynamic t) as [n|] eqn:E; [|done].
  apply (atoms_named _ Hok) in E. lia.
Qed.

(** What [intern] does to a well-formed table: nothing, or one new pair. *)
Lemma intern_step t name only r t' :
  intern t name only = (r, t') →
  t' = t ∨
  valid_atom_name name ∧ only = false ∧ atoms_by_name t !! name = None ∧ next_dynamic t + 1 ≤ u32_MAX ∧
  t' = mk_atom_table (<[next_dynamic t := name]> (names_by_atom t))
         (<[name := next_dynamic t]> (atoms_by_name t)) (next_dynamic t + 1).
Proof.
  unfold intern. destruct (validated_atom_name name) as [n|e] eqn:Hv; [|naive_solver].
  apply validated_atom_name_ok in Hv as [-> Hv].
  destruct (atoms_by_name t !! name) eqn:Hl; [naive_solver|]. destruct only; [naive_solver|].
  unfold checked_add. case_decide; naive_solver.
Qed.

Lemma intern_preserves t name only r t' :
  atom_table_ok t → intern t name only = (r, t') → atom_table_ok t'.
Proof.
  intros Hok Hs. pose proof (fresh_atom _ Hok) as Hf. pose proof (atoms_next _ Hok) as Hn.
  destruct (intern_step _ _ _ _ _ Hs) as [->|(Hv & -> & Hl & Hm & ->)]; [done|].
  split; simpl.
  - by apply atoms_inverse_insert; [apply (atoms_inverse _ Hok)|..].
  - intros a n. rewrite lookup_insert_Some. intros [[<- <-]|[_ Ha]].
    + split; [done|]. revert Hn. unfold X_ATOM_LAST_PREDEFINED. lia.
    + destruct (atoms_named _ Hok _ _ Ha). split; [done|lia].
  - lia.
Qed.

(** No name is ever forgotten or renumbered. *)
Lemma intern_extends t name only r t' :
  atom_table_ok t → intern t name only = (r, t') → names_by_atom t ⊆ names_by_atom t'.
Proof.
  intros Hok Hs. destruct (intern_step _ _ _ _ _ Hs) as [->|(_ & _ & _ & _ & ->)]; [done|].
  by apply insert_subseteq, fresh_atom.
Qed.

(** ** Runs of requests *)

(** The requests of the clients, in the order in which they reach the table. *)
Definition intern_run (t : XAtomTable) (reqs : list (list Z * bool)) : XAtomTable :=
  foldl (λ t req, (intern t req.1 req.2).2) t reqs.

Lemma intern_run_app t r1 r2 : intern_run t (r1 ++ r2) = intern_run (intern_run t r1) r2.
Proof. apply foldl_app. Qed.
Lemma intern_run_ok t reqs :
  atom_table_ok t → atom_table_ok (intern_run t reqs) ∧ names_by_atom t ⊆ names_by_atom (intern_run t reqs).
Proof.
  revert t. induction reqs as [|[name only] reqs IH]; intros t Hok; [done|]. simpl.
  destruct (intern t name only) as [r t'] eqn:Hs; simpl.
  destruct (IH t' (intern_preserves _ _ _ _ _ Hok Hs)) as [H1 H2]. split; [done|].
  by etrans; [apply (intern_extends _ _ _ _ _ Hok Hs)|].
Qed.

(** ** The new table *)

Definition predefined_ok (t : XAtomTable) : Prop :=
  Forall (λ e : XAtom * string, names_by_atom t !! e.1 = Some (str e.2)) X_PREDEFINED_ATOMS.
#[export] Instance predefined_ok_dec t : Decision (predefined_ok t).
Proof. unfold predefined_ok; apply _. Defined.

(** The invariant as a check over the entries of the two maps. *)
Definition atom_table_check (t : XAtomTable) : Prop :=
  map_Forall (λ a n, atoms_by_name t !! n = Some a ∧ valid_atom_name n ∧ 0 < a < next_dynamic t)
    (names_by_atom t) ∧
  map_Forall (λ n a, names_by_atom t !! a = Some n) (atoms_by_name t) ∧
  X_ATOM_LAST_PREDEFINED < next_dynamic t ≤ u32_MAX.
#[export] Instance atom_table_check_dec t : Decision (atom_table_check t).
Proof. unfold atom_table_check; apply _. Defined.
Lemma atom_table_checked t : atom_table_check t → atom_table_ok t.
Proof.
  intros (H1 & H2 & H3). split; [|by intros a n [_ ?]%H1|done].
  intros a n. split; [by intros [? _]%H1|apply H2].
Qed.
Lemma atom_table_new_ok : atom_table_ok atom_table_new ∧ predefined_ok atom_table_new.
Proof. split; [apply atom_table_checked|]; apply (bool_decide_unpack _); vm_compute; exact I. Qed.

Lemma predefined_ok_mono t t' : names_by_atom t ⊆ names_by_atom t' → predefined_ok t → predefined_ok t'.
Proof.
  unfold predefined_ok. generalize X_PREDEFINED_ATOMS. intros l Hsub H. eapply Forall_impl; [exact H|].
  intros e He. cbv beta in *. eapply lookup_weaken; [exact He|exact Hsub].
Qed.

(** A named atom is what [intern] answers, in every later table. *)
Lemma intern_known t name only a t' :
  valid_atom_name name → names_by_atom t !! a = Some name → atom_table_ok t' →
  names_by_atom t ⊆ names_by_atom t' → (intern t' name only).1 = Ok (Some a).
Proof.
  intros Hv Ha Hok Hsub. eapply lookup_weaken in Ha; [|exact Hsub]. apply (atoms_inverse _ Hok) in Ha.
  unfold intern. assert (validated_atom_name name = Ok name) as -> by by apply validated_atom_name_ok.
  by rewrite Ha.
Qed.

Lemma intern_outcome t name only r t' :
  atom_table_ok t → intern t name only = (r, t') →
  match r with
  | Ok (Some a) => valid_atom_name name ∧ atom_name t' a = Some name ∧ 0 < a ≤ u32_MAX - 1
  | Ok None => only = true ∧ valid_atom_name name ∧ atom_of t name = None ∧ t' = t
  | Err AtomSpaceExhausted =>
      valid_atom_name name ∧ atom_of t name = None ∧ next_dynamic t = u32_MAX ∧ t' = t
  | Err _ => ¬ valid_atom_name name ∧ t' = t
  end.
Proof.
  intros Hok. pose proof (atoms_next _ Hok) as Hn. unfold X_ATOM_LAST_PREDEFINED in Hn.
  unfold intern, atom_name, atom_of. destruct (validated_atom_name name) as [n|e] eqn:Hv.
  - apply validated_atom_name_ok in Hv as [-> Hv]. destruct (atoms_by_name t !! name) as [a|] eqn:Hl.
    { intros [= <- <-]. apply (atoms_inverse _ Hok) in Hl as Ha. destruct (atoms_named _ Hok _ _ Ha).
      split_and!; try done; lia. }
    destruct only; [by intros [= <- <-]|]. unfold checked_add. case_decide as Hc.
    + intros [= <- <-]. simpl. rewrite lookup_insert_eq. split_and!; try done; lia.
    + intros [= <- <-]. split_and!; try done; lia.
  - intros [= <- <-]. assert (¬ valid_atom_name name).
    { intros Hvn. assert (validated_atom_name name = Ok name) by by apply validated_atom_name_ok. congruence. }
    unfold validated_atom_name in Hv. repeat case_decide; by simplify_eq.
Qed.

(** An atom never changes: after any requests of the clients, in any order, the two maps are
    inverse, the predefined atoms keep their names, and a request is answered exactly as X11
    says: a name that is interned, or a new one that is not only looked up, gets an atom that is
    its own from then on, whatever is interned later; a missing name that is only looked up gets
    none; and a request fails only on an invalid name or when the atoms run out. *)
Theorem atoms_are_stable reqs name only :
  let t := intern_run atom_table_new reqs in
  atom_table_ok t ∧ predefined_ok t ∧
  match intern t name only with
  | (Ok (Some a), t') =>
      valid_atom_name name ∧ atom_name t' a = Some name ∧ 0 < a ≤ u32_MAX - 1 ∧
      ∀ later only', (intern (intern_run t' later) name only').1 = Ok (Some a)
  | (Ok None, t') => only = true ∧ valid_atom_name name ∧ atom_of t name = None ∧ t' = t
  | (Err AtomSpaceExhausted, t') =>
      valid_atom_name name ∧ atom_of t name = None ∧ next_dynamic t = u32_MAX ∧ t' = t
  | (Err _, t') => ¬ valid_atom_name name ∧ t' = t
  end.
Proof.
  intros t. destruct atom_table_new_ok as [Hnew Hpre].
  destruct (intern_run_ok atom_table_new reqs Hnew) as [Hok Hsub]. fold t in Hok, Hsub.
  apply (predefined_ok_mono _ _ Hsub) in Hpre. clear Hnew Hsub. clearbody t.
  split; [done|]. split; [done|].
  destruct (intern t name only) as [r t'] eqn:Hs.
  pose proof (intern_outcome _ _ _ _ _ Hok Hs) as Hout.
  destruct r as [[a|]|[| | |]]; try done.
  destruct Hout as (Hv & Ha & Hr). split; [done|]. split; [done|]. split; [done|].
  pose proof (intern_preserves _ _ _ _ _ Hok Hs) as Hok'.
  intros later only'. destruct (intern_run_ok t' later Hok') as [? ?]. by eapply intern_known.
Qed.
