(* ===== verification/XTables.v ===== *)
(** * The tables of the X authority
    ([sophia-x-authority/src/{resource,window,shm,graphics_context,event,drawing,close_target,
    pointer}.rs], the client ranges of [wire.rs])

    Resources, windows, shared-memory segments, graphics contexts and event subscriptions of the
    X11 clients, each owned by the namespace of the client; the drawing updates of a window; the
    window a close request goes to; the pointer buttons. *)

From S2P Require Import Prelude Ids Geometry Packets.
Local Open Scope Z_scope.

(** ** Resource identifiers *)

Record XResourceId : Type := mk_xid { local : AuthorityLocalId }.
Definition x_resource_id (raw generation : Z) : XResourceId := mk_xid (authority_local_id raw generation).
Definition XRESOURCE_NONE : XResourceId := mk_xid AUTHORITY_LOCAL_NONE.
Definition xid_valid (id : XResourceId) : Prop := authority_local_valid (local id).
Definition xid_raw (id : XResourceId) : Z := al_raw (local id).

#[export] Instance xid_eq_dec : EqDecision XResourceId.
Proof. solve_decision. Defined.
(** [Ord]: the raw identifier, then the generation. *)
Definition xid_pair (id : XResourceId) : Z * Z := (al_raw (local id), al_generation (local id)).
#[export] Instance xid_pair_inj : Inj (=) (=) xid_pair.
Proof. by intros [[]] [[]] [= -> ->]. Qed.
#[export] Program Instance xid_countable : Countable XResourceId :=
  inj_countable' xid_pair (λ p, x_resource_id p.1 p.2) _.
Next Obligation. by intros [[]]. Qed.
#[export] Instance xid_btree_key : BTreeKey XResourceId := btree_key_inj xid_pair.
#[export] Instance xid_valid_dec id : Decision (xid_valid id).
Proof. unfold xid_valid, authority_local_valid; apply _. Defined.

Inductive XResourceKind : Type :=
| KWindow | KPixmap | KAtom | KProperty | KGraphicsContext | KFont | KCursor | KFence | KRegion.
#[export] Instance resource_kind_eq_dec : EqDecision XResourceKind.
Proof. solve_decision. Defined.
Inductive XMapState : Type := MapUnmapped | MapMapped.
#[export] Instance map_state_eq_dec : EqDecision XMapState.
Proof. solve_decision. Defined.

Inductive XAuthorityAccessError : Type :=
| InvalidResource | InvalidNamespace | InvalidSurface | UnknownResource | WrongResourceKind
| CrossNamespaceDenied | StaleGeneration.
#[export] Instance access_error_eq_dec : EqDecision XAuthorityAccessError.
Proof. solve_decision. Defined.

(** The XID range of a client. *)
Record XWireClientResourceRange : Type := mk_range { range_base : Z; range_mask : Z }.
Definition owns_new_resource (range : XWireClientResourceRange) (resource_id : Z) : Prop :=
  resource_id ≠ 0 ∧ Z.land resource_id (Z.lxor u32_MAX (range_mask range)) = range_base range.
#[export] Instance owns_new_resource_dec range id : Decision (owns_new_resource range id).
Proof. unfold owns_new_resource; apply _. Defined.
(** [u32::try_from(id.local.raw()).is_ok_and(|raw| range.owns_new_resource(raw))] *)
Definition in_client_range (range : XWireClientResourceRange) (id : XResourceId) : Prop :=
  xid_raw id ≤ u32_MAX ∧ owns_new_resource range (xid_raw id).
#[export] Instance in_client_range_dec range id : Decision (in_client_range range id).
Proof. unfold in_client_range; apply _. Defined.

(** ** Resources *)

Record XResourceRecord : Type := mk_resource {
  xr_id : XResourceId; xr_kind : XResourceKind; xr_owner_namespace : NamespaceId; xr_generation : Z;
}.
#[export] Instance resource_record_eq_dec : EqDecision XResourceRecord.
Proof. solve_decision. Defined.
Notation XResourceTable := (gmap XResourceId XResourceRecord) (only parsing).

Definition resource_insert (t : XResourceTable) (id : XResourceId) (kind : XResourceKind)
    (owner_namespace : NamespaceId) (generation : Z) : result XResourceTable XAuthorityAccessError :=
  ensure! (xid_valid id) else InvalidResource in
  ensure! (id_valid owner_namespace) else InvalidNamespace in
  Ok (<[id := mk_resource id kind owner_namespace generation]> t).

Definition resource_lookup (t : XResourceTable) (requester_namespace : NamespaceId) (id : XResourceId)
    (expected_kind : XResourceKind) : result XResourceRecord XAuthorityAccessError :=
  ensure! (id_valid requester_namespace) else InvalidNamespace in
  let? record := ok_or (t !! id) UnknownResource in
  ensure! (xr_kind record = expected_kind) else WrongResourceKind in
  ensure! (xr_owner_namespace record = requester_namespace) else CrossNamespaceDenied in
  Ok record.

Definition records_for_namespace_in_client_range (t : XResourceTable) (namespace : NamespaceId)
    (range : XWireClientResourceRange) : list XResourceRecord :=
  filter (λ record, xr_owner_namespace record = namespace ∧ in_client_range range (xr_id record))
    (btree_values t).

(** ** Windows *)

Record XWindowRecord : Type := mk_window {
  xw_id : XResourceId; xw_surface : SurfaceId; xw_namespace : NamespaceId; xw_map_state : XMapState;
  xw_geometry : Rect; xw_constraints : SurfaceConstraints; xw_record_generation : Z;
}.
#[export] Instance window_record_eq_dec : EqDecision XWindowRecord.
Proof. solve_decision. Defined.
Notation XWindowTable := (gmap XResourceId XWindowRecord) (only parsing).

Definition window_authority_surface (w : XWindowRecord) : AuthoritySurface :=
  mk_authority_surface SophiaX (local (xw_id w)) (xw_surface w) (Some (xw_namespace w))
    (bool_decide (xw_map_state w = MapMapped)) (xw_geometry w) (xw_constraints w)
    (xw_record_generation w).

Inductive XWindowLifecycleEvent : Type :=
| WCreated (id : XResourceId) (surface : SurfaceId) (namespace : NamespaceId) (geometry : Rect)
    (constraints : SurfaceConstraints) (generation : Z)
| WMapped (id : XResourceId) (generation : Z)
| WUnmapped (id : XResourceId) (generation : Z)
| WConfigured (id : XResourceId) (x y width height : option Z) (generation : Z)
| WDestroyed (id : XResourceId).

Definition with_map_state (w : XWindowRecord) (s : XMapState) : XWindowRecord :=
  mk_window (xw_id w) (xw_surface w) (xw_namespace w) s (xw_geometry w) (xw_constraints w)
    (xw_record_generation w).
Definition with_geometry (w : XWindowRecord) (g : Rect) : XWindowRecord :=
  mk_window (xw_id w) (xw_surface w) (xw_namespace w) (xw_map_state w) g (xw_constraints w)
    (xw_record_generation w).
Definition with_generation (w : XWindowRecord) (g : Z) : XWindowRecord :=
  mk_window (xw_id w) (xw_surface w) (xw_namespace w) (xw_map_state w) (xw_geometry w)
    (xw_constraints w) g.

(** The branches that look a window up, change it and report its surface. *)
Definition change_window (t : XWindowTable) (id : XResourceId) (f : XWindowRecord → XWindowRecord) :
    result (option AuthoritySurface * XWindowTable) XAuthorityAccessError :=
  let? record := ok_or (t !! id) UnknownResource in
  Ok (Some (window_authority_surface (f record)), <[id := f record]> t).

Definition configured_geometry (g : Rect) (x y width height : option Z) : Rect :=
  mk_rect (default (rx g) x) (default (ry g) y) (default (rwidth g) width) (default (rheight g) height).

Definition window_apply (t : XWindowTable) (event : XWindowLifecycleEvent) :
    result (option AuthoritySurface * XWindowTable) XAuthorityAccessError :=
  match event with
  | WCreated id surface namespace geometry constraints generation =>
      ensure! (xid_valid id) else InvalidResource in
      ensure! (surface_valid surface) else InvalidResource in
      ensure! (id_valid namespace) else InvalidNamespace in
      let record := mk_window id surface namespace MapUnmapped geometry constraints generation in
      Ok (Some (window_authority_surface record), <[id := record]> t)
  | WMapped id _ => change_window t id (λ w, with_map_state w MapMapped)
  | WUnmapped id _ => change_window t id (λ w, with_map_state w MapUnmapped)
  | WConfigured id x y width height _ =>
      change_window t id (λ w, with_geometry w (configured_geometry (xw_geometry w) x y width height))
  | WDestroyed id => Ok (None, delete id t)
  end.

Definition advance_generation (t : XWindowTable) (id : XResourceId) (expected : Z) :
    result (Z * XWindowTable) XAuthorityAccessError :=
  let? record := ok_or (t !! id) UnknownResource in
  ensure! (xw_record_generation record = expected) else StaleGeneration in
  let? next := ok_or (checked_add u64_MAX expected 1) InvalidResource in
  Ok (next, <[id := with_generation record next]> t).

Definition ids_for_namespace (t : XWindowTable) (namespace : NamespaceId) : list XResourceId :=
  xw_id <$> filter (λ record, xw_namespace record = namespace) (btree_values t).

(** ** Shared-memory segments *)

Record XShmSegmentRecord : Type := mk_shm_segment {
  xs_id : XResourceId; xs_namespace : NamespaceId; xs_shmid : Z; xs_read_only : bool; xs_generation : Z;
}.
Notation XShmSegmentTable := (gmap XResourceId XShmSegmentRecord) (only parsing).

Definition shm_attach (t : XShmSegmentTable) (namespace : NamespaceId) (id : XResourceId) (shmid : Z)
    (read_only : bool) (generation : Z) : result XShmSegmentTable XAuthorityAccessError :=
  ensure! (id_valid namespace) else InvalidNamespace in
  ensure! (xid_valid id) else InvalidResource in
  Ok (<[id := mk_shm_segment id namespace shmid read_only generation]> t).

Definition shm_lookup (t : XShmSegmentTable) (namespace : NamespaceId) (id : XResourceId) :
    result XShmSegmentRecord XAuthorityAccessError :=
  ensure! (id_valid namespace) else InvalidNamespace in
  ensure! (xid_valid id) else InvalidResource in
  let? record := ok_or (t !! id) UnknownResource in
  ensure! (xs_namespace record = namespace) else CrossNamespaceDenied in
  Ok record.

Definition shm_detach (t : XShmSegmentTable) (namespace : NamespaceId) (id : XResourceId) :
    result XShmSegmentTable XAuthorityAccessError :=
  let? _ := shm_lookup t namespace id in Ok (delete id t).

Definition shm_ids_in_client_range (t : XShmSegmentTable) (namespace : NamespaceId)
    (range : XWireClientResourceRange) : list XResourceId :=
  xs_id <$> filter (λ record, xs_namespace record = namespace ∧ in_client_range range (xs_id record))
    (btree_values t).

(** ** Graphics contexts *)

Definition X_GX_COPY : Z := 3.
Record XPoint : Type := mk_xpoint { xp_x : Z; xp_y : Z }.
#[export] Instance xpoint_eq_dec : EqDecision XPoint.
Proof. solve_decision. Defined.

Record XGraphicsContextValues : Type := mk_gc_values {
  gc_function : Z; gc_plane_mask : Z; gc_foreground : Z; gc_background : Z; gc_line_width : Z;
  gc_fill_style : Z; gc_font : option XResourceId; gc_clip_x_origin : Z; gc_clip_y_origin : Z;
  gc_clip_rectangles : list Rect;
}.
#[export] Instance gc_values_eq_dec : EqDecision XGraphicsContextValues.
Proof. solve_decision. Defined.
Definition gc_default : XGraphicsContextValues := mk_gc_values X_GX_COPY u32_MAX 0 1 0 0 None 0 0 [].

Record XGraphicsContextRecord : Type := mk_gc {
  xg_id : XResourceId; xg_drawable : XResourceId; xg_namespace : NamespaceId;
  xg_values : XGraphicsContextValues;
}.
Notation XGraphicsContextTable := (gmap XResourceId XGraphicsContextRecord) (only parsing).

Definition gc_create (t : XGraphicsContextTable) (namespace : NamespaceId) (id drawable : XResourceId)
    (values : XGraphicsContextValues) : result XGraphicsContextTable XAuthorityAccessError :=
  ensure! (id_valid namespace) else InvalidNamespace in
  ensure! (xid_valid id ∧ xid_valid drawable) else InvalidResource in
  Ok (<[id := mk_gc id drawable namespace values]> t).

Definition gc_get (t : XGraphicsContextTable) (namespace : NamespaceId) (id : XResourceId) :
    result XGraphicsContextRecord XAuthorityAccessError :=
  let? record := ok_or (t !! id) UnknownResource in
  ensure! (xg_namespace record = namespace) else CrossNamespaceDenied in
  Ok record.

(** [mask & (1 << bit) != 0] picks the new value. *)
Definition masked {A} (mask bit : Z) (new old : A) : A :=
  if decide (Z.land mask (Z.shiftl 1 bit) ≠ 0) then new else old.

Definition changed_values (mask : Z) (new old : XGraphicsContextValues) : XGraphicsContextValues :=
  mk_gc_values
    (masked mask 0 (gc_function new) (gc_function old))
    (masked mask 1 (gc_plane_mask new) (gc_plane_mask old))
    (masked mask 2 (gc_foreground new) (gc_foreground old))
    (masked mask 3 (gc_background new) (gc_background old))
    (masked mask 4 (gc_line_width new) (gc_line_width old))
    (masked mask 8 (gc_fill_style new) (gc_fill_style old))
    (masked mask 14 (gc_font new) (gc_font old))
    (masked mask 17 (gc_clip_x_origin new) (gc_clip_x_origin old))
    (masked mask 18 (gc_clip_y_origin new) (gc_clip_y_origin old))
    (gc_clip_rectangles old).

Definition gc_change (t : XGraphicsContextTable) (namespace : NamespaceId) (id : XResourceId) (mask : Z)
    (values : XGraphicsContextValues) : result XGraphicsContextTable XAuthorityAccessError :=
  let? record := ok_or (t !! id) UnknownResource in
  ensure! (xg_namespace record = namespace) else CrossNamespaceDenied in
  Ok (<[id := mk_gc (xg_id record) (xg_drawable record) (xg_namespace record)
                (changed_values mask values (xg_values record))]> t).

Definition with_clip (v : XGraphicsContextValues) (rectangles : list Rect) : XGraphicsContextValues :=
  mk_gc_values (gc_function v) (gc_plane_mask v) (gc_foreground v) (gc_background v) (gc_line_width v)
    (gc_fill_style v) (gc_font v) (gc_clip_x_origin v) (gc_clip_y_origin v) rectangles.
Definition gc_set_clip_rectangles (t : XGraphicsContextTable) (namespace : NamespaceId)
    (id : XResourceId) (rectangles : list Rect) : result XGraphicsContextTable XAuthorityAccessError :=
  let? record := ok_or (t !! id) UnknownResource in
  ensure! (xg_namespace record = namespace) else CrossNamespaceDenied in
  Ok (<[id := mk_gc (xg_id record) (xg_drawable record) (xg_namespace record)
                (with_clip (xg_values record) rectangles)]> t).

Definition gc_remove (t : XGraphicsContextTable) (namespace : NamespaceId) (id : XResourceId) :
    result XGraphicsContextTable XAuthorityAccessError :=
  let? _ := gc_get t namespace id in Ok (delete id t).

Definition gc_ids_in_client_range (t : XGraphicsContextTable) (namespace : NamespaceId)
    (range : XWireClientResourceRange) : list XResourceId :=
  xg_id <$> filter (λ record, xg_namespace record = namespace ∧ in_client_range range (xg_id record))
    (btree_values t).

(** ** Event subscriptions *)

Inductive XEventClass : Type := EvStructure | EvProperty | EvFocus | EvKeyboard | EvPointer.
#[export] Instance event_class_eq_dec : EqDecision XEventClass.
Proof. solve_decision. Defined.
Definition event_class_tag (c : XEventClass) : Z :=
  match c with EvStructure => 0 | EvProperty => 1 | EvFocus => 2 | EvKeyboard => 3 | EvPointer => 4 end.
Definition event_class_of (z : Z) : XEventClass :=
  match z with 0 => EvStructure | 1 => EvProperty | 2 => EvFocus | 3 => EvKeyboard | _ => EvPointer end.
#[export] Program Instance event_class_countable : Countable XEventClass :=
  inj_countable' event_class_tag event_class_of _.
Next Obligation. by intros []. Qed.

Notation XEventSubscriptionTable := (gmap XResourceId (gmap NamespaceId (gset XEventClass))) (only parsing).

Definition subscribe (t : XEventSubscriptionTable) (resources : XResourceTable)
    (requester_namespace : NamespaceId) (target : XResourceId) (class : XEventClass) :
    result XEventSubscriptionTable XAuthorityAccessError :=
  let? _ := resource_lookup resources requester_namespace target KWindow in
  let by_namespace := default ∅ (t !! target) in
  let classes := default ∅ (by_namespace !! requester_namespace) in
  Ok (<[target := <[requester_namespace := {[class]} ∪ classes]> by_namespace]> t).

Definition subscribers (t : XEventSubscriptionTable) (target : XResourceId)
    (owner_namespace : NamespaceId) (class : XEventClass) : list NamespaceId :=
  fst <$> filter (λ e : NamespaceId * gset XEventClass, e.1 = owner_namespace ∧ class ∈ e.2)
    (from_option btree_entries [] (t !! target)).

(** ** The window a close request goes to *)

Record XCloseTargetDecision : Type := mk_close_target {
  ct_window : XResourceId; ct_exact_advertises_delete : bool; ct_fallback_used : bool;
  ct_protocol_window_count : nat;
}.

Definition select_x_close_target (exact : XResourceId) (ancestors : list XResourceId)
    (protocol_windows : list (XResourceId * bool)) : XCloseTargetDecision :=
  let eligible := fst <$> filter (λ p : XResourceId * bool, p.2 = true) protocol_windows in
  let exact_advertises_delete := bool_decide (exact ∈ eligible) in
  let ancestor :=
    if exact_advertises_delete then None else find_first (λ w, w ∈ eligible) ancestors in
  let fallback :=
    match ancestor with
    | Some w => Some w
    | None =>
        if decide (exact_advertises_delete = false ∧ length eligible = 1%nat) then head eligible
        else None
    end in
  mk_close_target (default exact fallback) exact_advertises_delete
    (bool_decide (is_Some fallback)) (length eligible).

(** ** Pointer buttons *)

(** [XCorePointerMapper::map_evdev_button]: the X11 button, the state before, the state after. *)
Definition evdev_button_of (evdev_button : Z) : option (Z * Z) :=
  match evdev_button with
  | 272 => Some (1, Z.shiftl 1 8) | 274 => Some (2, Z.shiftl 1 9) | 273 => Some (3, Z.shiftl 1 10)
  | 275 => Some (8, 0) | 276 => Some (9, 0) | _ => None
  end.
Definition map_evdev_button (button_state evdev_button : Z) (pressed : bool) : option (Z * Z) * Z :=
  match evdev_button_of evdev_button with
  | None => (None, button_state)
  | Some (button, mask) =>
      (Some (button, button_state),
       if pressed then Z.lor button_state mask else Z.land button_state (Z.lxor u16_MAX mask))
  end.

(** ** Drawing updates *)

Inductive XDrawingUpdateKind : Type := PresentPixmap | ShmPutImage | CoreDraw.
Record XDrawingUpdate : Type := mk_drawing_update {
  du_transaction : TransactionId; du_requester_namespace : NamespaceId; du_target_window : XResourceId;
  du_kind : XDrawingUpdateKind; du_buffer : BufferSource; du_damage : Region;
  du_previous_committed_generation : Z; du_timeout_msec : Z;
}.
Definition present_pixmap transaction namespace window (pixmap : Z) damage prev timeout : XDrawingUpdate :=
  mk_drawing_update transaction namespace window PresentPixmap (XPixmap pixmap) damage prev timeout.
Definition present_buffer transaction namespace window buffer damage prev timeout : XDrawingUpdate :=
  mk_drawing_update transaction namespace window PresentPixmap buffer damage prev timeout.
Definition shm_put_image transaction namespace window (handle : Z) damage prev timeout : XDrawingUpdate :=
  mk_drawing_update transaction namespace window ShmPutImage (CpuBuffer handle) damage prev timeout.
Definition core_draw transaction namespace window (handle : Z) damage prev timeout : XDrawingUpdate :=
  mk_drawing_update transaction namespace window CoreDraw (CpuBuffer handle) damage prev timeout.

Definition surface_transaction_from_drawing_update (windows : XWindowTable) (update : XDrawingUpdate) :
    result SurfaceTransaction XAuthorityAccessError :=
  ensure! (id_valid (du_transaction update)) else InvalidResource in
  ensure! (id_valid (du_requester_namespace update)) else InvalidNamespace in
  ensure! (xid_valid (du_target_window update)) else InvalidResource in
  ensure! (du_buffer update ≠ BufferNone) else InvalidResource in
  let? window := ok_or (windows !! du_target_window update) UnknownResource in
  ensure! (xw_namespace window = du_requester_namespace update) else CrossNamespaceDenied in
  ensure! (surface_valid (xw_surface window)) else InvalidSurface in
  Ok (mk_surface_tx (du_transaction update) SophiaX (xw_surface window) (Some (xw_namespace window))
        (xw_geometry window) (du_buffer update) (du_damage update) TxReady (du_timeout_msec update)
        (du_previous_committed_generation update)).

(** ** The tables are well formed *)

Definition resources_ok (t : XResourceTable) : Prop :=
  ∀ id r, t !! id = Some r → xr_id r = id ∧ xid_valid id ∧ id_valid (xr_owner_namespace r).
Definition windows_ok (t : XWindowTable) : Prop :=
  ∀ id w, t !! id = Some w →
    xw_id w = id ∧ xid_valid id ∧ surface_valid (xw_surface w) ∧ id_valid (xw_namespace w).
Definition segments_ok (t : XShmSegmentTable) : Prop :=
  ∀ id s, t !! id = Some s → xs_id s = id ∧ xid_valid id ∧ id_valid (xs_namespace s).
Definition contexts_ok (t : XGraphicsContextTable) : Prop :=
  ∀ id g, t !! id = Some g → xg_id g = id ∧ xid_valid id ∧ id_valid (xg_namespace g).

Lemma resource_insert_ok t id kind ns g t' :
  resource_insert t id kind ns g = Ok t' ↔
  xid_valid id ∧ id_valid ns ∧ t' = <[id := mk_resource id kind ns g]> t.
Proof. unfold resource_insert. repeat case_decide; naive_solver. Qed.
Lemma resource_insert_preserves t id kind ns g t' :
  resources_ok t → resource_insert t id kind ns g = Ok t' → resources_ok t'.
Proof.
  intros Hok (Hid & Hns & ->)%resource_insert_ok id' r.
  rewrite lookup_insert_Some. intros [[<- <-]|[_ Hr]]; [done|by apply Hok].
Qed.
(** A lookup finds exactly the resource of the requester's own namespace, of the kind it wants. *)
Lemma resource_lookup_ok t ns id kind r :
  resource_lookup t ns id kind = Ok r ↔
  id_valid ns ∧ t !! id = Some r ∧ xr_kind r = kind ∧ xr_owner_namespace r = ns.
Proof.
  unfold resource_lookup. case_decide; [|naive_solver].
  destruct (t !! id) as [r'|]; simpl; [|naive_solver]. repeat case_decide; naive_solver.
Qed.
Lemma shm_lookup_ok t ns id s :
  shm_lookup t ns id = Ok s ↔ id_valid ns ∧ xid_valid id ∧ t !! id = Some s ∧ xs_namespace s = ns.
Proof.
  unfold shm_lookup. repeat (case_decide; [|naive_solver]).
  destruct (t !! id) as [s'|]; simpl; [|naive_solver]. case_decide; naive_solver.
Qed.
Lemma gc_get_ok t ns id g : gc_get t ns id = Ok g ↔ t !! id = Some g ∧ xg_namespace g = ns.
Proof.
  unfold gc_get. destruct (t !! id) as [g'|]; simpl; [|naive_solver]. case_decide; naive_solver.
Qed.

Lemma shm_attach_preserves t ns id shmid ro g t' :
  segments_ok t → shm_attach t ns id shmid ro g = Ok t' → segments_ok t'.
Proof.
  unfold shm_attach. intros Hok. repeat case_decide; try done. intros [= <-] i s.
  rewrite lookup_insert_Some. intros [[<- <-]|[_ Hr]]; [done|by apply Hok].
Qed.
Lemma shm_detach_ok t ns id t' :
  shm_detach t ns id = Ok t' ↔ (∃ s, shm_lookup t ns id = Ok s) ∧ t' = delete id t.
Proof. unfold shm_detach. destruct (shm_lookup t ns id); simpl; naive_solver. Qed.
Lemma gc_remove_ok t ns id t' :
  gc_remove t ns id = Ok t' ↔ (∃ g, gc_get t ns id = Ok g) ∧ t' = delete id t.
Proof. unfold gc_remove. destruct (gc_get t ns id); simpl; naive_solver. Qed.

(** The branches that change one window. *)
Lemma change_window_ok t id f s t' :
  change_window t id f = Ok (s, t') ↔
  ∃ w, t !! id = Some w ∧ s = Some (window_authority_surface (f w)) ∧ t' = <[id := f w]> t.
Proof. unfold change_window. destruct (t !! id); simpl; naive_solver. Qed.
Lemma change_window_preserves t id f s t' :
  (∀ w, xw_id (f w) = xw_id w ∧ xw_surface (f w) = xw_surface w ∧ xw_namespace (f w) = xw_namespace w) →
  windows_ok t → change_window t id f = Ok (s, t') → windows_ok t'.
Proof.
  intros Hf Hok (w & Hw & _ & ->)%change_window_ok i w'. destruct (Hf w) as (Hi & Hs & Hn).
  rewrite lookup_insert_Some. intros [[<- <-]|[_ Hr]]; [|by apply Hok].
  rewrite Hi, Hs, Hn. by apply Hok.
Qed.
Lemma window_apply_preserves t e s t' : windows_ok t → window_apply t e = Ok (s, t') → windows_ok t'.
Proof.
  intros Hok. destruct e as [id sf ns g c gen|id gen|id gen|id x y w h gen|id]; simpl.
  - repeat case_decide; try done. intros [= <- <-] i w.
    rewrite lookup_insert_Some. intros [[<- <-]|[_ Hr]]; [done|by apply Hok].
  - by apply change_window_preserves.
  - by apply change_window_preserves.
  - by apply change_window_preserves.
  - intros [= <- <-] i w [_ Hw]%lookup_delete_Some. by apply Hok.
Qed.
Lemma window_advance_ok t id expected n t' :
  advance_generation t id expected = Ok (n, t') ↔
  ∃ w, t !! id = Some w ∧ xw_record_generation w = expected ∧ expected + 1 ≤ u64_MAX ∧
    n = expected + 1 ∧ t' = <[id := with_generation w (expected + 1)]> t.
Proof.
  unfold advance_generation, checked_add. destruct (t !! id) as [w|]; simpl; [|naive_solver].
  repeat case_decide; naive_solver.
Qed.
Lemma advance_generation_preserves t id expected n t' :
  windows_ok t → advance_generation t id expected = Ok (n, t') → windows_ok t'.
Proof.
  intros Hok (w & Hw & _ & _ & _ & ->)%window_advance_ok i w'.
  rewrite lookup_insert_Some. intros [[<- <-]|[_ Hr]]; [|by apply Hok]. by apply (Hok id w).
Qed.

(** ** Runs of operations on the windows *)

(** An operation that fails leaves the table as it was. *)
Inductive XWindowOp : Type :=
| OpLifecycle (event : XWindowLifecycleEvent)
| OpAdvance (id : XResourceId) (expected : Z).
Definition window_op (t : XWindowTable) (op : XWindowOp) : option (XResourceId * Z) * XWindowTable :=
  match op with
  | OpLifecycle event =>
      match window_apply t event with Ok (_, t') => (None, t') | Err _ => (None, t) end
  | OpAdvance id expected =>
      match advance_generation t id expected with Ok (n, t') => (Some (id, n), t') | Err _ => (None, t) end
  end.
(** The generations a run hands out, and the windows it ends with. *)
Fixpoint window_run (t : XWindowTable) (ops : list XWindowOp) : list (XResourceId * Z) * XWindowTable :=
  match ops with
  | [] => ([], t)
  | op :: ops =>
      let '(granted, t) := window_op t op in
      let '(rest, t) := window_run t ops in
      (match granted with Some g => g :: rest | None => rest end, t)
  end.
(** Neither created nor destroyed. *)
Definition keeps_window (id : XResourceId) (op : XWindowOp) : Prop :=
  match op with
  | OpLifecycle (WCreated i _ _ _ _ _) | OpLifecycle (WDestroyed i) => i ≠ id
  | _ => True
  end.
#[export] Instance keeps_window_dec id op : Decision (keeps_window id op).
Proof. destruct op as [[]|]; simpl; apply _. Defined.

Definition same_window (w w' : XWindowRecord) : Prop :=
  xw_id w' = xw_id w ∧ xw_surface w' = xw_surface w ∧ xw_namespace w' = xw_namespace w ∧
  xw_constraints w' = xw_constraints w.
Lemma same_window_refl w : same_window w w.
Proof. done. Qed.
Lemma same_window_trans w1 w2 w3 : same_window w1 w2 → same_window w2 w3 → same_window w1 w3.
Proof. unfold same_window. intros (->&->&->&->) (->&->&->&->). done. Qed.
#[local] Hint Resolve same_window_refl : core.

(** A change that keeps a window's identity and generation keeps those of every window. *)
Lemma change_window_keeps t i f s t' id w :
  (∀ w, same_window w (f w) ∧ xw_record_generation (f w) = xw_record_generation w) →
  change_window t i f = Ok (s, t') → t !! id = Some w →
  ∃ w', t' !! id = Some w' ∧ same_window w w' ∧ xw_record_generation w' = xw_record_generation w.
Proof.
  intros Hf (w0 & Hw0 & _ & ->)%change_window_ok Hw. destruct (decide (i = id)) as [->|Hne].
  - rewrite lookup_insert_eq. simplify_eq. eexists. by split; [done|apply Hf].
  - rewrite lookup_insert_ne by done. by exists w.
Qed.
Lemma window_apply_keeps t e s t' id w :
  keeps_window id (OpLifecycle e) → window_apply t e = Ok (s, t') → t !! id = Some w →
  ∃ w', t' !! id = Some w' ∧ same_window w w' ∧ xw_record_generation w' = xw_record_generation w.
Proof.
  intros Hk He Hw. destruct e as [i sf ns g c gen|i gen|i gen|i x y wd h gen|i]; simpl in *.
  - repeat case_decide; try done. simplify_eq. rewrite lookup_insert_ne by done. by exists w.
  - eapply change_window_keeps; [|done|done]. by unfold same_window.
  - eapply change_window_keeps; [|done|done]. by unfold same_window.
  - eapply change_window_keeps; [|done|done]. by unfold same_window.
  - simplify_eq. rewrite lookup_delete_ne by done. by exists w.
Qed.

Definition granted_to (id : XResourceId) (gs : list (XResourceId * Z)) : list Z :=
  snd <$> filter (λ g : XResourceId * Z, g.1 = id) gs.

Lemma window_op_keeps t op id w granted t' :
  keeps_window id op → t !! id = Some w → window_op t op = (granted, t') →
  ∃ w', t' !! id = Some w' ∧ same_window w w' ∧
    (granted_to id (option_list granted) = [] ∧ xw_record_generation w' = xw_record_generation w ∨
     granted_to id (option_list granted) = [xw_record_generation w'] ∧
     xw_record_generation w' = xw_record_generation w + 1).
Proof.
  intros Hk Hw. destruct op as [e|i expected]; simpl.
  - destruct (window_apply t e) as [[s t2]|] eqn:He; intros [= <- <-]; simpl; [|by exists w; auto].
    destruct (window_apply_keeps _ _ _ _ _ _ Hk He Hw) as (w' & ? & ? & ?). exists w'. auto.
  - destruct (advance_generation t i expected) as [[n t2]|] eqn:Ha; intros [= <- <-]; simpl; [|by exists w; auto].
    apply window_advance_ok in Ha as (w0 & Hw0 & Hg & _ & -> & ->). unfold granted_to; simpl.
    destruct (decide (i = id)) as [->|Hne].
    + simplify_eq. rewrite lookup_insert_eq. rewrite filter_cons_True by done.
      eexists. split; [done|]. split; [done|]. by right.
    + rewrite lookup_insert_ne by done. rewrite filter_cons_False by done. exists w. auto.
Qed.

(** The generation of a window counts its drawing transactions and nothing else: over any
    operations on the windows that neither create nor destroy it -- mapping, unmapping and
    configuring it or any other window, with whatever generation those requests carry, and
    advances, successful or not -- the window keeps its surface, namespace and constraints, the
    generations handed out for it are the consecutive numbers after the one it had, and it ends
    with the last of them. *)
Theorem window_generations_consecutive (t : XWindowTable) ops id w :
  t !! id = Some w → Forall (keeps_window id) ops →
  let '(granted, t') := window_run t ops in
  ∃ w', t' !! id = Some w' ∧ same_window w w' ∧
    granted_to id granted =
      seqZ (xw_record_generation w + 1) (xw_record_generation w' - xw_record_generation w) ∧
    xw_record_generation w ≤ xw_record_generation w'.
Proof.
  intros Hw Hall. revert t w Hw.
  induction Hall as [|op ops Hk _ IH]; intros t w Hw; simpl.
  { exists w. rewrite Z.sub_diag. split_and!; done. }
  destruct (window_op t op) as [granted t1] eqn:Ho.
  destruct (window_op_keeps _ _ _ _ _ _ Hk Hw Ho) as (w1 & Hw1 & Hs1 & Hg).
  specialize (IH t1 w1 Hw1). destruct (window_run t1 ops) as [rest t2].
  destruct IH as (w2 & Hw2 & Hs2 & Hr & Hle). exists w2. split; [done|].
  split; [by eapply same_window_trans|].
  assert (granted_to id (match granted with Some g => g :: rest | None => rest end) =
    granted_to id (option_list granted) ++ granted_to id rest) as ->.
  { unfold granted_to. destruct granted as [g|]; [|done]. cbn [option_list].
    by rewrite <-fmap_app, <-filter_app. }
  rewrite Hr. destruct Hg as [[-> Hg]|[-> Hg]].
  - rewrite Hg in *. done.
  - rewrite Hg in *. split; [|lia]. rewrite (seqZ_cons (xw_record_generation w + 1)) by lia. simpl.
    do 2 f_equal; lia.
Qed.

Lemma window_generations_consecutive_witness :
  let id := x_resource_id 4194305 1 in
  let w := mk_window id (surface_id 3 1) (from_raw 7) MapUnmapped (mk_rect 0 0 64 48)
             (mk_constraints None None) 5 in
  let ops := [OpLifecycle (WMapped id 90); OpAdvance id 5; OpAdvance id 5;
              OpLifecycle (WConfigured id (Some 4) None None None 91); OpAdvance id 6] in
  granted_to id (window_run {[id := w]} ops).1 = [6; 7] ∧
  let '(granted, t') := window_run {[id := w]} ops in
  ∃ w', t' !! id = Some w' ∧ same_window w w' ∧
    granted_to id granted =
      seqZ (xw_record_generation w + 1) (xw_record_generation w' - xw_record_generation w) ∧
    xw_record_generation w ≤ xw_record_generation w'.
Proof.
  intros id w ops. split; [vm_compute; reflexivity|].
  apply (window_generations_consecutive {[id := w]} ops id w).
  - vm_compute; reflexivity.
  - apply (bool_decide_unpack _); vm_compute; exact I.
Defined.

(** ** The close target *)

(** A close request never goes astray: it goes to the very window it names unless another
    window was found that advertises [WM_DELETE_WINDOW] while the named one does not; that window
    is the nearest ancestor that does, or the only window of the client that does. *)
Theorem close_target_advertises exact ancestors protocol_windows :
  let d := select_x_close_target exact ancestors protocol_windows in
  (ct_exact_advertises_delete d = true ↔ (exact, true) ∈ protocol_windows) ∧
  (ct_fallback_used d = false → ct_window d = exact) ∧
  (ct_exact_advertises_delete d = true → ct_fallback_used d = false) ∧
  (ct_fallback_used d = true →
    (ct_window d, true) ∈ protocol_windows ∧ ct_window d ≠ exact ∧
    ((∃ pre post, ancestors = pre ++ ct_window d :: post ∧
        Forall (λ w, (w, true) ∉ protocol_windows) pre) ∨
     Forall (λ w, (w, true) ∉ protocol_windows) ancestors ∧ ct_protocol_window_count d = 1%nat)).
Proof.
  intros d. subst d. unfold select_x_close_target.
  set (eligible := fst <$> filter _ protocol_windows).
  assert (∀ w, w ∈ eligible ↔ (w, true) ∈ protocol_windows) as Hel.
  { intros w. unfold eligible. rewrite list_elem_of_fmap. split.
    - intros ([w' b] & -> & [Hb Hin]%list_elem_of_filter). simpl in *. by subst b.
    - intros Hin. exists (w, true). split; [done|]. by apply list_elem_of_filter. }
  clearbody eligible. simpl. split; [by rewrite bool_decide_eq_true, Hel|].
  destruct (decide (exact ∈ eligible)) as [Hex|Hex].
  { rewrite (bool_decide_eq_true_2 (exact ∈ eligible)) by done. done. }
  rewrite (bool_decide_eq_false_2 (exact ∈ eligible)) by done.
  destruct (find_first (λ w, w ∈ eligible) ancestors) as [w|] eqn:Hf; simpl.
  - apply find_first_split in Hf as (pre & post & -> & Hw & Hpre).
    split_and!; [done|done|]. intros _. split_and!; [by apply Hel|by intros ->|].
    left. exists pre, post. split; [done|]. eapply Forall_impl; [exact Hpre|].
    intros v Hv. by rewrite <-Hel.
  - apply find_first_None in Hf. destruct (decide _) as [[_ Hlen]|?]; simpl; [|done].
    destruct eligible as [|w [|]]; simplify_eq/=. split_and!; [done|done|].
    intros _. split_and!; [by apply Hel, list_elem_of_here|by intros ->; apply Hex, list_elem_of_here|].
    right. split; [|done]. eapply Forall_impl; [exact Hf|]. intros v Hv. by rewrite <-Hel.
Qed.

(** ** Pointer buttons *)

Definition pointer_run (events : list (Z * bool)) : Z :=
  foldl (λ state e, (map_evdev_button state e.1 e.2).2) 0 events.
(** A button is down when its last event was a press. *)
Definition button_down (evdev_button : Z) (events : list (Z * bool)) : bool :=
  foldl (λ down e, if decide (e.1 = evdev_button) then e.2 else down) false events.
(** The evdev button of a bit of the state. *)
Definition button_of_bit (bit : Z) : option Z :=
  if decide (bit = 8) then Some 272 else if decide (bit = 9) then Some 274
  else if decide (bit = 10) then Some 273 else None.

Lemma evdev_button_bits b button mask :
  evdev_button_of b = Some (button, mask) →
  ∀ bit, 0 ≤ bit → Z.testbit mask bit = bool_decide (button_of_bit bit = Some b).
Proof.
  intros Hb bit Hbit. unfold button_of_bit.
  assert (∀ n, 0 ≤ n → Z.testbit (2 ^ n) bit = bool_decide (bit = n)) as Hp.
  { intros n Hn. rewrite Z.pow2_bits_eqb by done. apply Bool.eq_iff_eq_true.
    rewrite bool_decide_eq_true, Z.eqb_eq. naive_solver. }
  assert (b = 272 ∧ mask = 2 ^ 8 ∨ b = 274 ∧ mask = 2 ^ 9 ∨ b = 273 ∧ mask = 2 ^ 10 ∨
    (b = 275 ∨ b = 276) ∧ mask = 0) as Hc.
  { unfold evdev_button_of in Hb. repeat case_match; simplify_eq; tauto. }
  destruct Hc as [[-> ->]|[[-> ->]|[[-> ->]|[Hb' ->]]]]; rewrite ?Hp by done.
  - apply bool_decide_ext. repeat case_decide; naive_solver lia.
  - apply bool_decide_ext. repeat case_decide; naive_solver lia.
  - apply bool_decide_ext. repeat case_decide; naive_solver lia.
  - rewrite Z.testbit_0_l. symmetry. apply bool_decide_eq_false. repeat case_decide; naive_solver lia.
Qed.

Lemma map_evdev_button_bits s b p bit :
  0 ≤ bit → (button_of_bit bit = None → Z.testbit s bit = false) →
  Z.testbit (map_evdev_button s b p).2 bit =
    if decide (button_of_bit bit = Some b) then p else Z.testbit s bit.
Proof.
  intros Hbit Hs. unfold map_evdev_button. destruct (evdev_button_of b) as [[button mask]|] eqn:Hb; simpl.
  - assert (Hm := evdev_button_bits _ _ _ Hb bit Hbit). destruct p.
    + rewrite Z.lor_spec, Hm. case_decide; [rewrite bool_decide_eq_true_2 by done; apply orb_true_r|].
      rewrite bool_decide_eq_false_2 by done. apply orb_false_r.
    + rewrite Z.land_spec, Z.lxor_spec, Hm. change u16_MAX with (Z.ones 16).
      rewrite Z.testbit_ones_nonneg by lia. destruct (decide (button_of_bit bit = Some b)).
      * rewrite bool_decide_eq_true_2 by done. unfold button_of_bit in *.
        assert (bit < 16) by (repeat case_decide; simplify_eq; lia).
        rewrite (proj2 (Z.ltb_lt bit 16)) by done. apply andb_false_r.
      * rewrite bool_decide_eq_false_2 by done. destruct (button_of_bit bit) eqn:Hbb; [|by rewrite Hs].
        assert (bit < 16) by (unfold button_of_bit in *; repeat case_decide; simplify_eq; lia).
        rewrite (proj2 (Z.ltb_lt bit 16)) by done. apply andb_true_r.
  - case_decide as Hd; [|done]. unfold button_of_bit in Hd. repeat case_decide; simplify_eq.
Qed.

(** The button state of a pointer event is the set of the three buttons that are down: over
    any presses and releases, in any order and repeated or not, the bit of the left, middle or
    right button is set exactly when its last event was a press, and no other bit is ever set. *)
Theorem pointer_state_buttons_down events bit :
  0 ≤ bit →
  Z.testbit (pointer_run events) bit =
    match button_of_bit bit with Some b => button_down b events | None => false end.
Proof.
  intros Hbit. induction events as [|[b p] events IH] using rev_ind.
  { unfold pointer_run, button_down. simpl. rewrite Z.testbit_0_l. by case_match. }
  unfold pointer_run, button_down in *. rewrite foldl_app. simpl.
  rewrite map_evdev_button_bits; [|done|by intros Hn; rewrite IH, Hn].
  rewrite IH. destruct (button_of_bit bit) as [b'|]; [|done]. rewrite foldl_app. simpl.
  repeat case_decide; naive_solver.
Qed.

Lemma pointer_state_buttons_down_witness :
  let events := [(272, true); (273, true); (275, true); (272, false); (300, true)] in
  pointer_run events = 1024 ∧
  Z.testbit (pointer_run events) 10 =
    match button_of_bit 10 with Some b => button_down b events | None => false end.
Proof. intros events. split; [vm_compute; reflexivity|]. apply (pointer_state_buttons_down events 10). lia. Defined.
