(* ===== verification/XProperties.v ===== *)
(** * Window properties
    ([sophia-x-authority/src/property.rs])

    The properties clients set on windows, keyed by namespace, window and property atom; the bounds
    on a value and on the table, and the chunks in which a property is read. *)

From S2P Require Import Prelude Ids Geometry Text XAtoms XTables.
Local Open Scope Z_scope.

Definition X_PROPERTY_MAX_VALUE_BYTES : Z := 256 * 1024.
Definition X_PROPERTY_MAX_TABLE_BYTES : Z := 4 * 1024 * 1024.
Definition X_PROPERTY_ANY_TYPE : XAtom := 0.

Inductive XPropertyMode : Type := Replace | Prepend | Append.

Record XPropertyChange : Type := mk_property_change {
  pc_mode : XPropertyMode; pc_window : XResourceId; pc_property : XAtom; pc_property_type : XAtom;
  pc_format : Z; pc_bytes : list Z;
}.
Record XPropertyRead : Type := mk_property_read {
  pd_delete : bool; pd_window : XResourceId; pd_property : XAtom; pd_property_type : XAtom;
  pd_long_offset : Z; pd_long_length : Z;
}.
Record XPropertyReadReply : Type := mk_property_reply {
  py_property_type : XAtom; py_format : Z; py_bytes_after : Z; py_item_count : Z; py_bytes : list Z;
}.
Record XPropertyRecord : Type := mk_property_record {
  pp_namespace : NamespaceId; pp_window : XResourceId; pp_property : XAtom; pp_property_type : XAtom;
  pp_format : Z; pp_bytes : list Z; pp_generation : Z;
}.
#[export] Instance property_record_eq_dec : EqDecision XPropertyRecord.
Proof. solve_decision. Defined.

Record XMetadataPropertyCandidate : Type := mk_metadata_candidate {
  mc_namespace : NamespaceId; mc_window : XResourceId; mc_property : XAtom; mc_property_name : list Z;
  mc_property_type : XAtom; mc_property_type_name : option (list Z); mc_format : Z; mc_byte_len : Z;
  mc_generation : Z;
}.

Inductive XPropertyError : Type :=
| PropInvalidNamespace | InvalidWindow | InvalidFormat (format : Z) | ValueTooLarge (len max : Z)
| TableTooLarge (len max : Z) | TypeMismatch | InvalidOffset | ReadTooLarge (len max : Z).
#[export] Instance property_error_eq_dec : EqDecision XPropertyError.
Proof. solve_decision. Defined.

Definition metadata_property_candidate (record : XPropertyRecord) (atoms : XAtomTable) :
    option XMetadataPropertyCandidate :=
  property_name ← atom_name atoms (pp_property record);
  if decide (is_metadata_candidate_name property_name) then
    Some (mk_metadata_candidate (pp_namespace record) (pp_window record) (pp_property record)
            property_name (pp_property_type record) (atom_name atoms (pp_property_type record))
            (pp_format record) (str_len (pp_bytes record)) (pp_generation record))
  else None.

Notation XPropertyKey := (NamespaceId * XResourceId * XAtom)%type (only parsing).
Notation XPropertyTable := (gmap (NamespaceId * XResourceId * Z) XPropertyRecord) (only parsing).

Definition validate_property_format (format : Z) : result unit XPropertyError :=
  ensure! (format = 8 ∨ format = 16 ∨ format = 32) else InvalidFormat format in Ok ().

Definition ensure_same_property_shape (record : XPropertyRecord) (change : XPropertyChange) :
    result unit XPropertyError :=
  ensure! (pp_property_type record = pc_property_type change ∧ pp_format record = pc_format change)
    else TypeMismatch in Ok ().

Definition joined_bytes (first second : list Z) : result (list Z) XPropertyError :=
  let? len := ok_or (checked_add usize_MAX (str_len first) (str_len second))
                (ValueTooLarge usize_MAX X_PROPERTY_MAX_VALUE_BYTES) in
  ensure! (len ≤ X_PROPERTY_MAX_VALUE_BYTES) else ValueTooLarge len X_PROPERTY_MAX_VALUE_BYTES in
  Ok (first ++ second).

(** The bytes a change leaves, given the record before it. *)
Definition changed_bytes (change : XPropertyChange) (previous : option XPropertyRecord) :
    result (list Z) XPropertyError :=
  match pc_mode change, previous with
  | Replace, _ | _, None => Ok (pc_bytes change)
  | Append, Some record =>
      let? _ := ensure_same_property_shape record change in
      joined_bytes (pp_bytes record) (pc_bytes change)
  | Prepend, Some record =>
      let? _ := ensure_same_property_shape record change in
      joined_bytes (pc_bytes change) (pp_bytes record)
  end.

(** [try_fold(0usize, |total, record| total.checked_add(record.bytes.len()))] *)
Definition table_bytes (records : XPropertyTable) : option Z :=
  foldl (λ total record, t ← total; checked_add usize_MAX t (str_len (pp_bytes record))) (Some 0)
    (btree_values records).

Definition apply_change (records : XPropertyTable) (namespace : NamespaceId) (change : XPropertyChange) :
    result (XPropertyRecord * XPropertyTable) XPropertyError :=
  ensure! (id_valid namespace) else PropInvalidNamespace in
  ensure! (xid_valid (pc_window change)) else InvalidWindow in
  let? _ := validate_property_format (pc_format change) in
  ensure! (str_len (pc_bytes change) ≤ X_PROPERTY_MAX_VALUE_BYTES)
    else ValueTooLarge (str_len (pc_bytes change)) X_PROPERTY_MAX_VALUE_BYTES in
  let key := (namespace, pc_window change, pc_property change) in
  let previous := records !! key in
  let previous_len := from_option (λ record, str_len (pp_bytes record)) 0 previous in
  let generation := from_option (λ record, saturating_add u64_MAX (pp_generation record) 1) 1 previous in
  let? bytes := changed_bytes change previous in
  let? table_len :=
    ok_or (total ← table_bytes records; total ← checked_sub total previous_len;
           checked_add usize_MAX total (str_len bytes))
      (TableTooLarge usize_MAX X_PROPERTY_MAX_TABLE_BYTES) in
  ensure! (table_len ≤ X_PROPERTY_MAX_TABLE_BYTES) else TableTooLarge table_len X_PROPERTY_MAX_TABLE_BYTES in
  let record := mk_property_record namespace (pc_window change) (pc_property change)
                  (pc_property_type change) (pc_format change) bytes generation in
  Ok (record, <[key := record]> records).

Definition property_get (records : XPropertyTable) (namespace : NamespaceId) (window : XResourceId)
    (property : XAtom) : option XPropertyRecord := records !! (namespace, window, property).

Definition properties_for_window (records : XPropertyTable) (namespace : NamespaceId)
    (window : XResourceId) : list XAtom :=
  snd <$> filter (λ k : XPropertyKey, k.1.1 = namespace ∧ k.1.2 = window) (btree_keys records).
Definition windows_with_property (records : XPropertyTable) (namespace : NamespaceId)
    (property : XAtom) : list XResourceId :=
  (λ k : XPropertyKey, k.1.2) <$> filter (λ k : XPropertyKey, k.1.1 = namespace ∧ k.2 = property) (btree_keys records).

Definition remove_window (records : XPropertyTable) (namespace : NamespaceId) (window : XResourceId) :
    Z * XPropertyTable :=
  let after := filter (λ kv : XPropertyKey * XPropertyRecord, kv.1.1.1 ≠ namespace ∨ kv.1.1.2 ≠ window) records in
  (saturating_sub (Z.of_nat (size records)) (Z.of_nat (size after)), after).
Definition property_remove (records : XPropertyTable) (namespace : NamespaceId) (window : XResourceId)
    (property : XAtom) : option XPropertyRecord * XPropertyTable :=
  (records !! (namespace, window, property), delete (namespace, window, property) records).

(** [u32::try_from(z).unwrap_or(u32::MAX)] *)
Definition u32_or_max (z : Z) : Z := if decide (z ≤ u32_MAX) then z else u32_MAX.

(** [None] is a panic: a subtraction that underflows, a division by zero, a range out of bounds. *)
Definition read_property (records : XPropertyTable) (namespace : NamespaceId) (read : XPropertyRead) :
    option (result XPropertyReadReply XPropertyError) :=
  if decide (¬ id_valid namespace) then Some (Err PropInvalidNamespace)
  else if decide (¬ xid_valid (pd_window read)) then Some (Err InvalidWindow)
  else
    match property_get records namespace (pd_window read) (pd_property read) with
    | None => Some (Ok (mk_property_reply X_PROPERTY_ANY_TYPE 0 0 0 []))
    | Some record =>
        let len := str_len (pp_bytes record) in
        if decide (pd_property_type read ≠ X_PROPERTY_ANY_TYPE ∧
                   pd_property_type read ≠ pp_property_type record) then
          Some (Ok (mk_property_reply (pp_property_type record) (pp_format record) (u32_or_max len) 0 []))
        else
          match value ← usize_try_from (pd_long_offset read); checked_mul usize_MAX value 4 with
          | None => Some (Err InvalidOffset)
          | Some offset =>
              if decide (offset > len) then Some (Err InvalidOffset)
              else
                match value ← usize_try_from (pd_long_length read); checked_mul usize_MAX value 4 with
                | None => Some (Err (ReadTooLarge usize_MAX X_PROPERTY_MAX_VALUE_BYTES))
                | Some max_read =>
                    if decide (max_read > X_PROPERTY_MAX_VALUE_BYTES) then
                      Some (Err (ReadTooLarge max_read X_PROPERTY_MAX_VALUE_BYTES))
                    else
                      remaining ← checked_sub len offset;
                      let returned_len := Z.min remaining max_read in
                      bytes_after ← checked_sub remaining returned_len;
                      let item_width := pp_format record / 8 in
                      item_count ← if decide (item_width = 0) then None else Some (returned_len / item_width);
                      stop ← checked_add usize_MAX offset returned_len;
                      bytes ← slice_range (pp_bytes record) offset stop;
                      Some (Ok (mk_property_reply (pp_property_type record) (pp_format record)
                        (u32_or_max bytes_after) (u32_or_max item_count) bytes))
                end
          end
    end.

(** ** The bounds *)

(** The bytes of all values. *)
Definition sum_lens (l : list XPropertyRecord) : Z := foldr (λ r total, str_len (pp_bytes r) + total) 0 l.
Definition total_bytes (records : XPropertyTable) : Z := sum_lens (btree_values records).
Definition record_len (r : option XPropertyRecord) : Z := from_option (λ r, str_len (pp_bytes r)) 0 r.

Record property_ok (k : XPropertyKey) (r : XPropertyRecord) : Prop := {
  pok_key : k = (pp_namespace r, pp_window r, pp_property r);
  pok_namespace : id_valid (pp_namespace r);
  pok_window : xid_valid (pp_window r);
  pok_format : pp_format r = 8 ∨ pp_format r = 16 ∨ pp_format r = 32;
  pok_len : str_len (pp_bytes r) ≤ X_PROPERTY_MAX_VALUE_BYTES;
  pok_generation : 1 ≤ pp_generation r ≤ u64_MAX;
}.
Definition properties_ok (records : XPropertyTable) : Prop :=
  map_Forall property_ok records ∧ total_bytes records ≤ X_PROPERTY_MAX_TABLE_BYTES.

Lemma sum_lens_perm l1 l2 : l1 ≡ₚ l2 → sum_lens l1 = sum_lens l2.
Proof. unfold sum_lens. induction 1; simpl; lia. Qed.
Lemma sum_lens_nonneg l : 0 ≤ sum_lens l.
Proof. induction l as [|r l IH]; simpl; unfold str_len in *; lia. Qed.
Lemma total_bytes_nonneg t : 0 ≤ total_bytes t.
Proof. apply sum_lens_nonneg. Qed.
Lemma total_bytes_fresh t k r : t !! k = None → total_bytes (<[k := r]> t) = total_bytes t + str_len (pp_bytes r).
Proof.
  intros Hk. unfold total_bytes. rewrite (sum_lens_perm _ (r :: btree_values t)).
  - simpl. lia.
  - rewrite !btree_values_perm. by rewrite map_to_list_insert.
Qed.
Lemma total_bytes_delete t k : total_bytes (delete k t) + record_len (t !! k) = total_bytes t.
Proof.
  destruct (t !! k) as [r|] eqn:Hk; simpl.
  - rewrite <-(insert_id t k r Hk) at 2. rewrite <-(insert_delete_eq t).
    rewrite total_bytes_fresh by apply lookup_delete_eq. done.
  - rewrite delete_id by done. lia.
Qed.
Lemma total_bytes_insert t k r :
  total_bytes (<[k := r]> t) + record_len (t !! k) = total_bytes t + str_len (pp_bytes r).
Proof.
  rewrite <-insert_delete_eq, total_bytes_fresh by apply lookup_delete_eq.
  pose proof (total_bytes_delete t k). lia.
Qed.
Lemma record_len_le t k : 0 ≤ record_len (t !! k) ≤ total_bytes t.
Proof.
  pose proof (total_bytes_delete t k). pose proof (total_bytes_nonneg (delete k t)).
  destruct (t !! k); simpl in *; unfold str_len in *; lia.
Qed.
Lemma total_bytes_filter (P : XPropertyKey * XPropertyRecord → Prop) `{∀ kv, Decision (P kv)} t :
  total_bytes (filter P t) ≤ total_bytes t.
Proof.
  induction t as [|k r t Hk IH] using map_ind; [done|]. rewrite (total_bytes_fresh t) by done.
  destruct (decide (P (k, r))) as [HP|HP].
  - rewrite map_filter_insert_True by done.
    rewrite total_bytes_fresh by (apply map_lookup_filter_None; auto). lia.
  - rewrite map_filter_insert_not' by naive_solver. unfold str_len. lia.
Qed.

Lemma table_bytes_exact t : total_bytes t ≤ usize_MAX → table_bytes t = Some (total_bytes t).
Proof.
  unfold table_bytes, total_bytes. generalize (btree_values t). intros l.
  assert (∀ a, 0 ≤ a → a + sum_lens l ≤ usize_MAX →
    foldl (λ total record, t ← total; checked_add usize_MAX t (str_len (pp_bytes record))) (Some a) l =
    Some (a + sum_lens l)) as Hl; [|intros; by rewrite (Hl 0)].
  induction l as [|r l IH]; intros a Ha Hle; simpl in *; [by rewrite Z.add_0_r|].
  pose proof (sum_lens_nonneg l). unfold checked_add at 2. rewrite decide_True by lia.
  rewrite IH; [f_equal; lia|unfold str_len in *; lia|lia].
Qed.

Lemma joined_bytes_ok a b c : joined_bytes a b = Ok c ↔ c = a ++ b ∧ str_len (a ++ b) ≤ X_PROPERTY_MAX_VALUE_BYTES.
Proof.
  assert (X_PROPERTY_MAX_VALUE_BYTES < usize_MAX) by (vm_compute; reflexivity).
  unfold joined_bytes, checked_add, str_len. rewrite length_app, Nat2Z.inj_add.
  destruct (decide _) as [?|?]; simpl; [|split; [done|intros [_ ?]; lia]]. case_decide; naive_solver.
Qed.

(** The bytes a change leaves: the new ones, or the old and the new together. *)
Definition combined (change : XPropertyChange) (previous : option XPropertyRecord) : list Z :=
  match pc_mode change, previous with
  | Append, Some record => pp_bytes record ++ pc_bytes change
  | Prepend, Some record => pc_bytes change ++ pp_bytes record
  | _, _ => pc_bytes change
  end.
(** Bytes are only added to bytes of the same shape. *)
Definition shapes_agree (change : XPropertyChange) (previous : option XPropertyRecord) : Prop :=
  match pc_mode change, previous with
  | Replace, _ | _, None => True
  | _, Some record => pp_property_type record = pc_property_type change ∧ pp_format record = pc_format change
  end.
Lemma changed_bytes_ok change previous bytes :
  str_len (pc_bytes change) ≤ X_PROPERTY_MAX_VALUE_BYTES →
  changed_bytes change previous = Ok bytes ↔
  bytes = combined change previous ∧ shapes_agree change previous ∧
  str_len (combined change previous) ≤ X_PROPERTY_MAX_VALUE_BYTES.
Proof.
  intros Hlen. unfold changed_bytes, combined, shapes_agree, ensure_same_property_shape.
  destruct (pc_mode change), previous as [r|]; try naive_solver;
    (case_decide; simpl; [rewrite joined_bytes_ok|]; naive_solver).
Qed.

(** What a change needs, and what it leaves. *)
Definition change_allowed (t : XPropertyTable) (namespace : NamespaceId) (change : XPropertyChange) : Prop :=
  let previous := t !! (namespace, pc_window change, pc_property change) in
  id_valid namespace ∧ xid_valid (pc_window change) ∧
  (pc_format change = 8 ∨ pc_format change = 16 ∨ pc_format change = 32) ∧
  str_len (pc_bytes change) ≤ X_PROPERTY_MAX_VALUE_BYTES ∧
  shapes_agree change previous ∧
  str_len (combined change previous) ≤ X_PROPERTY_MAX_VALUE_BYTES ∧
  total_bytes t - record_len previous + str_len (combined change previous) ≤ X_PROPERTY_MAX_TABLE_BYTES.
#[export] Instance shapes_agree_dec change previous : Decision (shapes_agree change previous).
Proof. unfold shapes_agree. destruct (pc_mode change), previous; apply _. Defined.
#[export] Instance change_allowed_dec t ns change : Decision (change_allowed t ns change).
Proof. unfold change_allowed; apply _. Defined.
Definition changed_record (t : XPropertyTable) (namespace : NamespaceId) (change : XPropertyChange) :
    XPropertyRecord :=
  let previous := t !! (namespace, pc_window change, pc_property change) in
  mk_property_record namespace (pc_window change) (pc_property change) (pc_property_type change)
    (pc_format change) (combined change previous)
    (from_option (λ record, saturating_add u64_MAX (pp_generation record) 1) 1 previous).

Lemma table_room t k (n : Z) :
  total_bytes t ≤ X_PROPERTY_MAX_TABLE_BYTES → 0 ≤ n ≤ X_PROPERTY_MAX_VALUE_BYTES →
  (total ← table_bytes t; total ← checked_sub total (record_len (t !! k)); checked_add usize_MAX total n) =
  Some (total_bytes t - record_len (t !! k) + n).
Proof.
  assert (X_PROPERTY_MAX_TABLE_BYTES + X_PROPERTY_MAX_VALUE_BYTES < usize_MAX) by (vm_compute; reflexivity).
  intros Ht Hn. rewrite table_bytes_exact by lia. pose proof (record_len_le t k). simpl.
  unfold checked_sub. rewrite decide_True by lia. simpl. unfold checked_add. by rewrite decide_True by lia.
Qed.

Lemma apply_change_ok t namespace change r t' :
  total_bytes t ≤ X_PROPERTY_MAX_TABLE_BYTES →
  apply_change t namespace change = Ok (r, t') ↔
  change_allowed t namespace change ∧ r = changed_record t namespace change ∧
  t' = <[(namespace, pc_window change, pc_property change) := r]> t.
Proof.
  intros Ht. unfold apply_change, change_allowed, changed_record, validate_property_format.
  set (k := (namespace, pc_window change, pc_property change)).
  repeat (case_decide; simpl; [|naive_solver]).
  destruct (changed_bytes change (t !! k)) as [bytes|e] eqn:Hc; simpl.
  - apply changed_bytes_ok in Hc as (-> & Hs & Hl); [|done].
    fold (record_len (t !! k)). rewrite table_room by (unfold str_len in *; lia). simpl.
    case_decide; naive_solver.
  - split; [done|]. intros ((_ & _ & _ & _ & Hs & Hl & _) & _).
    assert (changed_bytes change (t !! k) = Ok (combined change (t !! k))) by by apply changed_bytes_ok.
    congruence.
Qed.

Lemma apply_change_preserves t namespace change r t' :
  properties_ok t → apply_change t namespace change = Ok (r, t') → properties_ok t'.
Proof.
  intros [Hok Ht] (Ha & -> & ->)%apply_change_ok; [|done].
  destruct Ha as (Hns & Hw & Hf & _ & _ & Hl & Hroom). split.
  - apply map_Forall_insert_2; [|done]. split; simpl; try done.
    destruct (t !! _) as [r|] eqn:Hr; simpl; [|vm_compute; by split].
    apply Hok, pok_generation in Hr. unfold saturating_add. lia.
  - pose proof (total_bytes_insert t (namespace, pc_window change, pc_property change)
      (changed_record t namespace change)) as Hi. simpl in Hi. lia.
Qed.

(** ** Runs *)

Inductive XPropertyOp : Type :=
| OpChange (namespace : NamespaceId) (change : XPropertyChange)
| OpRemove (namespace : NamespaceId) (window : XResourceId) (property : XAtom)
| OpRemoveWindow (namespace : NamespaceId) (window : XResourceId).
Definition property_op (t : XPropertyTable) (op : XPropertyOp) : XPropertyTable :=
  match op with
  | OpChange namespace change => match apply_change t namespace change with Ok (_, t') => t' | Err _ => t end
  | OpRemove namespace window property => (property_remove t namespace window property).2
  | OpRemoveWindow namespace window => (remove_window t namespace window).2
  end.
Definition property_run (ops : list XPropertyOp) : XPropertyTable := foldl property_op ∅ ops.

Lemma property_op_preserves t op : properties_ok t → properties_ok (property_op t op).
Proof.
  intros Hok. destruct op as [ns change|ns w p|ns w]; simpl.
  - destruct (apply_change t ns change) as [[r t']|] eqn:Ha; [|done]. by eapply apply_change_preserves.
  - destruct Hok as [Hok Ht]. split; [by apply map_Forall_delete|].
    pose proof (total_bytes_delete t (ns, w, p)). pose proof (record_len_le t (ns, w, p)). lia.
  - destruct Hok as [Hok Ht]. split.
    + intros k r [Hk _]%map_lookup_filter_Some. by apply Hok.
    + etrans; [apply total_bytes_filter|done].
Qed.
Lemma property_run_ok ops : properties_ok (property_run ops).
Proof.
  unfold property_run. assert (properties_ok ∅) as H0 by by split; [apply map_Forall_empty|].
  revert H0. generalize (∅ : XPropertyTable). induction ops as [|op ops IH]; intros t Hok; simpl; [done|].
  by apply IH, property_op_preserves.
Qed.

(** ** Reading *)

Lemma item_width_cases format :
  format = 8 ∨ format = 16 ∨ format = 32 → format / 8 = 1 ∨ format / 8 = 2 ∨ format / 8 = 4.
Proof. intros [->|[->| ->]]; auto. Qed.

(** The reply to a read within the bounds. *)
Lemma read_property_found t namespace read r :
  properties_ok t → property_get t namespace (pd_window read) (pd_property read) = Some r →
  (pd_property_type read = X_PROPERTY_ANY_TYPE ∨ pd_property_type read = pp_property_type r) →
  0 ≤ pd_long_offset read → 4 * pd_long_offset read ≤ str_len (pp_bytes r) →
  0 ≤ pd_long_length read → 4 * pd_long_length read ≤ X_PROPERTY_MAX_VALUE_BYTES →
  let remaining := str_len (pp_bytes r) - 4 * pd_long_offset read in
  let returned := Z.min remaining (4 * pd_long_length read) in
  read_property t namespace read = Some (Ok (mk_property_reply (pp_property_type r) (pp_format r)
    (remaining - returned) (returned / (pp_format r / 8))
    (take (Z.to_nat returned) (drop (Z.to_nat (4 * pd_long_offset read)) (pp_bytes r))))).
Proof.
  intros [Hok _] Hr Hty Ho1 Ho2 Hl1 Hl2 remaining returned.
  assert (X_PROPERTY_MAX_VALUE_BYTES < u32_MAX ∧ u32_MAX < usize_MAX) as [Hm1 Hm2] by by vm_compute.
  pose proof (Hok _ _ Hr) as [Hk Hns Hw Hf Hlen _]. injection Hk as Hk1 Hk2 Hk3.
  rewrite <-Hk1 in Hns. rewrite <-Hk2 in Hw. unfold read_property. rewrite Hr.
  rewrite (decide_False (P := ¬ id_valid _)) by tauto.
  rewrite (decide_False (P := ¬ xid_valid _)) by tauto.
  rewrite (decide_False (P := _ ∧ _)) by tauto.
  unfold usize_try_from. rewrite !(decide_True (P := 0 ≤ _)) by lia. cbn [mbind option_bind].
  rewrite !checked_mul_within, !(Z.mul_comm _ 4) by lia. cbn [mbind option_bind]. rewrite !(decide_False (P := _ > _)) by lia.
  rewrite checked_sub_within by lia. cbn [mbind option_bind]. fold remaining. cbv zeta. fold returned.
  assert (0 ≤ returned ≤ remaining ∧ remaining ≤ str_len (pp_bytes r)) as [? ?] by lia.
  rewrite checked_sub_within by lia. cbn [mbind option_bind].
  rewrite (decide_False (P := _ = 0)) by (destruct Hf as [->|[->| ->]]; done). cbn [mbind option_bind].
  rewrite checked_add_within by lia. cbn [mbind option_bind].
  rewrite slice_range_in by (unfold str_len in *; lia). cbn [mbind option_bind].
  assert (0 ≤ returned / (pp_format r / 8) ≤ returned) as Hq.
  { apply item_width_cases in Hf. clearbody returned. destruct Hf as [->|[->| ->]]; Z.div_mod_to_equations; lia. }
  unfold u32_or_max. by rewrite !(decide_True (P := _ ≤ u32_MAX)) by lia.
Qed.

Lemma read_property_no_panic t namespace read : properties_ok t → is_Some (read_property t namespace read).
Proof.
  intros [Hok _]. unfold read_property. repeat (case_decide; [done|]).
  destruct (property_get t namespace (pd_window read) (pd_property read)) as [r|] eqn:Hr; [|done].
  pose proof (Hok _ _ Hr) as [_ _ _ Hf%item_width_cases Hlen _]. case_decide; [done|]. unfold usize_try_from.
  assert (X_PROPERTY_MAX_VALUE_BYTES < usize_MAX) by by vm_compute.
  case_decide; [|done]. cbn [mbind option_bind]. destruct (checked_mul _ (pd_long_offset read) _) as [offset|] eqn:Eo; [|done].
  apply checked_mul_Some in Eo as [-> _]. case_decide; [done|].
  case_decide; [|done]. cbn [mbind option_bind]. destruct (checked_mul _ (pd_long_length read) _) as [max|] eqn:Em; [|done].
  apply checked_mul_Some in Em as [-> _]. case_decide; [done|].
  rewrite checked_sub_within by lia. cbn [mbind option_bind]. rewrite checked_sub_within by lia. cbn [mbind option_bind].
  rewrite (decide_False (P := _ = 0)) by lia. cbn [mbind option_bind]. rewrite checked_add_within by lia. cbn [mbind option_bind].
  rewrite slice_range_in by (unfold str_len in *; lia). by eexists.
Qed.

(** C37: whatever clients do to their properties, the bounds hold: after any changes and removals,
    in any order, every value is at most 256 KiB and has a format of 8, 16 or 32, all values
    together are at most 4 MiB, each is stored under its own namespace, window and atom, and no
    read of any property panics: no subtraction underflows, nothing is divided by zero and no range is
    out of bounds. *)
Theorem properties_bounded ops namespace read :
  let t := property_run ops in
  properties_ok t ∧ is_Some (read_property t namespace read).
Proof. split; [apply property_run_ok|apply read_property_no_panic, property_run_ok]. Qed.

(** A client that reads a property [chunk] longs at a time, from long [offset] on, until nothing is
    left; the bytes and the number of items it is told. *)
Fixpoint client_read (fuel : nat) (t : XPropertyTable) (namespace : NamespaceId) (window : XResourceId)
    (property : XAtom) (chunk offset : Z) : option (list Z * Z) :=
  match fuel with
  | O => None
  | S fuel =>
      match read_property t namespace
              (mk_property_read false window property X_PROPERTY_ANY_TYPE offset chunk) with
      | Some (Ok reply) =>
          if decide (py_bytes_after reply = 0) then Some (py_bytes reply, py_item_count reply)
          else
            rest ← client_read fuel t namespace window property chunk (offset + chunk);
            Some (py_bytes reply ++ rest.1, py_item_count reply + rest.2)
      | _ => None
      end
  end.

Lemma client_read_S fuel t ns w p chunk offset :
  client_read (S fuel) t ns w p chunk offset =
  match read_property t ns (mk_property_read false w p X_PROPERTY_ANY_TYPE offset chunk) with
  | Some (Ok reply) =>
      if decide (py_bytes_after reply = 0) then Some (py_bytes reply, py_item_count reply)
      else
        rest ← client_read fuel t ns w p chunk (offset + chunk);
        Some (py_bytes reply ++ rest.1, py_item_count reply + rest.2)
  | _ => None
  end.
Proof. reflexivity. Qed.

Lemma client_read_from t ns w p r chunk fuel offset :
  properties_ok t → property_get t ns w p = Some r →
  1 ≤ chunk → 4 * chunk ≤ X_PROPERTY_MAX_VALUE_BYTES → 0 ≤ offset →
  4 * offset ≤ str_len (pp_bytes r) → str_len (pp_bytes r) - 4 * offset ≤ 4 * chunk * Z.of_nat fuel →
  client_read (S fuel) t ns w p chunk offset =
    Some (drop (Z.to_nat (4 * offset)) (pp_bytes r),
          (str_len (pp_bytes r) - 4 * offset) / (pp_format r / 8)).
Proof.
  intros Hok Hr Hc1 Hc2. revert offset. induction fuel as [|fuel IH]; intros offset Ho Hle Hfuel.
  all: rewrite client_read_S, (read_property_found t ns _ r Hok) by (simpl; try done; try lia; by left);
    cbn [py_bytes_after py_item_count py_bytes pd_long_offset pd_long_length].
  all: set (remaining := str_len (pp_bytes r) - 4 * offset) in *; case_decide as Hd.
  1,3: rewrite Z.min_l by lia; rewrite take_ge by (rewrite length_drop; unfold str_len in *; lia); done.
  - lia.
  - assert (4 * chunk < remaining) by lia. rewrite Z.min_r in * by lia. rewrite Nat2Z.inj_succ, Z.mul_succ_r in Hfuel.
    rewrite IH by (unfold remaining in *; lia). simpl. do 2 f_equal.
    + rewrite Z.mul_add_distr_l, Z2Nat.inj_add by lia. rewrite <-drop_drop. apply take_drop.
    + apply Hok in Hr. pose proof (item_width_cases _ (pok_format _ _ Hr)) as Hf.
      replace (str_len (pp_bytes r) - 4 * (offset + chunk)) with (remaining - 4 * chunk) by (unfold remaining; lia).
      clearbody remaining. destruct Hf as [->|[->| ->]]; Z.div_mod_to_equations; lia.
Qed.

(** C38: a property is read back as it was written: after any changes and removals, a change that
    is accepted leaves the new bytes, or the old and the new joined in the order of its mode, and
    no other property changes; and a client that reads the property in chunks of any size the
    server allows, however many that takes, receives exactly those bytes and is told exactly
    their number of items. *)
Theorem property_written_is_read ops namespace change r t' chunk :
  let t := property_run ops in
  let key := (namespace, pc_window change, pc_property change) in
  apply_change t namespace change = Ok (r, t') →
  1 ≤ chunk → 4 * chunk ≤ X_PROPERTY_MAX_VALUE_BYTES →
  let bytes := combined change (t !! key) in
  (∀ key', key' ≠ key → t' !! key' = t !! key') ∧
  ∀ fuel, str_len bytes ≤ 4 * chunk * Z.of_nat fuel →
    client_read (S fuel) t' namespace (pc_window change) (pc_property change) chunk 0 =
      Some (bytes, str_len bytes / (pc_format change / 8)).
Proof.
  intros t key Ha Hc1 Hc2 bytes. pose proof (property_run_ok ops) as Hok. fold t in Hok.
  pose proof (apply_change_preserves _ _ _ _ _ Hok Ha) as Hok'.
  apply apply_change_ok in Ha as (_ & -> & ->); [|apply Hok]. split.
  - intros key' Hne. by apply lookup_insert_ne.
  - intros fuel Hfuel. erewrite client_read_from; [|done|apply lookup_insert_eq|done|done|done| |].
    + cbn [pp_bytes pp_format changed_record]. by rewrite Z.sub_0_r.
    + unfold str_len. lia.
    + rewrite Z.mul_0_r, Z.sub_0_r. done.
Qed.

Lemma property_written_is_read_witness :
  let w := x_resource_id 4194305 1 in
  let ns : NamespaceId := from_raw 7 in
  let ops := [OpChange ns (mk_property_change Replace w 39 31 8 [72; 101; 108; 108; 111])] in
  let change := mk_property_change Append w 39 31 8 [33; 33; 33; 33] in
  let t := property_run ops in
  let key := (ns, w, 39) in
  let t' := <[key := changed_record t ns change]> t in
  let bytes := combined change (t !! key) in
  client_read 4 t' ns w 39 1 0 = Some ([72; 101; 108; 108; 111; 33; 33; 33; 33], 9) ∧
  (∀ key', key' ≠ key → t' !! key' = t !! key') ∧
  ∀ fuel, str_len bytes ≤ 4 * 1 * Z.of_nat fuel →
    client_read (S fuel) t' ns w 39 1 0 = Some (bytes, str_len bytes / (8 / 8)).
Proof.
  intros w ns ops change t key t' bytes. split; [vm_compute; reflexivity|].
  apply (property_written_is_read ops ns change (changed_record t ns change) t' 1).
  - apply apply_change_ok; [vm_compute; discriminate|].
    split; [apply (bool_decide_unpack _); vm_compute; exact I|done].
  - lia.
  - vm_compute; discriminate.
Defined.
