(* ===== verification/XSelections.v ===== *)
(** * Selections and clipboard requests of the X clients
    ([sophia-x-authority/src/{selection,clipboard}.rs])

    The owner of each selection per namespace, and what becomes of a request to convert a
    selection: it goes to the owning client within a namespace, and to the clipboard portal
    ([Portals]) across namespaces. *)

From stdpp Require Import strings.
From S2P Require Import Prelude Ids Text Geometry Packets PortalPackets Portals XAtoms XTables.
Local Open Scope Z_scope.

(** ** The selection monitor *)

Notation XTimestamp := Z (only parsing).
Definition MAX_CLIPBOARD_TEXT_HANDOFF_BYTES : Z := 64 * 1024.

Inductive XSelectionChangeKind : Type :=
| SetOwner | ClearOwner | SelectionWindowDestroyed | SelectionClientClosed | UnknownChange.

Record XSelectionEvent : Type := mk_selection_event {
  se_selection : XAtom; se_owner : option XResourceId; se_timestamp : XTimestamp;
  se_selection_timestamp : XTimestamp; se_kind : XSelectionChangeKind;
}.
Record XSelectionOwnerRecord : Type := mk_owner_record {
  so_selection : XAtom; so_namespace : option NamespaceId; so_owner : option XResourceId;
  so_generation : Z; so_timestamp : XTimestamp; so_selection_timestamp : XTimestamp;
}.
#[export] Instance owner_record_eq_dec : EqDecision XSelectionOwnerRecord.
Proof. solve_decision. Defined.
Record XSelectionOwnerUpdate : Type := mk_owner_update {
  su_previous : option XSelectionOwnerRecord; su_current : XSelectionOwnerRecord;
  su_kind : XSelectionChangeKind;
}.

(** The keys are ordered by selection, then namespace, [None] first. *)
Definition opt_namespace_key (n : option NamespaceId) : Z * Z :=
  match n with None => (0, 0) | Some n => (1, raw n) end.
#[export] Instance opt_namespace_key_inj : Inj (=) (=) opt_namespace_key.
Proof. intros [[?]|] [[?]|]; simpl; congruence. Qed.
#[export] Instance opt_namespace_btree_key : BTreeKey (option NamespaceId) := btree_key_inj opt_namespace_key.
Notation XSelectionMonitor := (gmap (Z * option NamespaceId) XSelectionOwnerRecord) (only parsing).

(** [max_by_key]: the last of the greatest. *)
Definition max_generation (best : option XSelectionOwnerRecord) (record : XSelectionOwnerRecord) :
    option XSelectionOwnerRecord :=
  match best with
  | None => Some record
  | Some b => if decide (so_generation b ≤ so_generation record) then Some record else best
  end.
Definition owned (selection : XAtom) (record : XSelectionOwnerRecord) : Prop :=
  so_selection record = selection ∧ is_Some (so_owner record).
#[export] Instance owned_dec selection record : Decision (owned selection record).
Proof. unfold owned; apply _. Defined.
Definition current_owner_for_selection (owners : XSelectionMonitor) (selection : XAtom) :
    option XSelectionOwnerRecord :=
  foldl max_generation None (filter (owned selection) (btree_values owners)).

Definition selection_owner (owners : XSelectionMonitor) (selection : XAtom)
    (namespace : option NamespaceId) : option XSelectionOwnerRecord := owners !! (selection, namespace).

Definition namespace_for_existing_selection (owners : XSelectionMonitor) (selection : XAtom) :
    option NamespaceId :=
  find_map (λ e : (Z * option NamespaceId) * XSelectionOwnerRecord,
    if decide (e.1.1 = selection ∧ is_Some (so_owner e.2)) then e.1.2 else None) (btree_entries owners).

Definition event_namespace (owners : XSelectionMonitor) (event : XSelectionEvent)
    (windows : XWindowTable) : option NamespaceId :=
  match owner ← se_owner event; xw_namespace <$> windows !! owner with
  | Some n => Some n
  | None => namespace_for_existing_selection owners (se_selection event)
  end.

Definition apply_event (owners : XSelectionMonitor) (event : XSelectionEvent) (windows : XWindowTable) :
    XSelectionOwnerUpdate * XSelectionMonitor :=
  let namespace := event_namespace owners event windows in
  let key := (se_selection event, namespace) in
  let previous := owners !! key in
  let generation := from_option (λ record, saturating_add u64_MAX (so_generation record) 1) 1 previous in
  let current := mk_owner_record (se_selection event) namespace (se_owner event) generation
                   (se_timestamp event) (se_selection_timestamp event) in
  (mk_owner_update previous current (se_kind event), <[key := current]> owners).

Definition clear_window_owner (owners : XSelectionMonitor) (window : XResourceId)
    (windows : XWindowTable) (kind : XSelectionChangeKind) : XSelectionMonitor :=
  foldl (λ o record,
      (apply_event o (mk_selection_event (so_selection record) None (so_timestamp record)
                        (so_selection_timestamp record) kind) windows).2)
    owners (filter (λ record, so_owner record = Some window) (btree_values owners)).

(** ** Requests to convert a selection *)

Record XSelectionRequest : Type := mk_selection_request {
  xq_requestor : XResourceId; xq_selection : XAtom; xq_target : XAtom; xq_target_name : list Z;
  xq_property : XAtom; xq_time : XTimestamp;
}.
Record ClipboardSelectionFailureRequest : Type := mk_failure_request {
  cf_transfer : PortalTransferId; cf_requestor : XResourceId; cf_selection : XAtom; cf_target : XAtom;
  cf_time : XTimestamp;
}.
Record ClipboardSelectionPortalRequest : Type := mk_portal_request {
  cp_request : ClipboardTransferRequest; cp_failure : ClipboardSelectionFailureRequest; cp_property : XAtom;
}.
Inductive ClipboardSelectionRequestError : Type :=
| UnknownRequestorNamespace | UnknownSourceOwner | MissingSourceNamespace | SameNamespaceError
| PortalRejection (e : PortalError).
Record ClipboardSelectionOwnerRequest : Type := mk_owner_request {
  co_owner : XResourceId; co_requestor : XResourceId; co_selection : XAtom; co_target : XAtom;
  co_property : XAtom; co_time : XTimestamp;
}.
Inductive ClipboardSelectionDispatch : Type :=
| SameNamespace (request : ClipboardSelectionOwnerRequest)
| CrossNamespace (portal_request : ClipboardSelectionPortalRequest) (command : PortalCommand).

Definition clipboard_portal_request_from_selection_request (request : XSelectionRequest)
    (monitor : XSelectionMonitor) (windows : XWindowTable) (transfer : PortalTransferId) :
    result ClipboardSelectionPortalRequest ClipboardSelectionRequestError :=
  let? requestor := ok_or (windows !! xq_requestor request) UnknownRequestorNamespace in
  let? source_owner := ok_or (current_owner_for_selection monitor (xq_selection request)) UnknownSourceOwner in
  let? source_namespace := ok_or (so_namespace source_owner) MissingSourceNamespace in
  ensure! (source_namespace ≠ xw_namespace requestor) else SameNamespaceError in
  Ok (mk_portal_request
        (mk_clipboard_request transfer source_namespace (xw_namespace requestor)
           (TargetAtom (xq_target_name request)) 0 (so_generation source_owner))
        (mk_failure_request transfer (xq_requestor request) (xq_selection request) (xq_target request)
           (xq_time request))
        (xq_property request)).

Definition dispatch_clipboard_selection_request (request : XSelectionRequest)
    (monitor : XSelectionMonitor) (windows : XWindowTable) (transfer : PortalTransferId)
    (portal : Transfers) :
    result ClipboardSelectionDispatch ClipboardSelectionRequestError * Transfers :=
  match
    let? requestor := ok_or (windows !! xq_requestor request) UnknownRequestorNamespace in
    let? source_owner := ok_or (current_owner_for_selection monitor (xq_selection request)) UnknownSourceOwner in
    let? source_namespace := ok_or (so_namespace source_owner) MissingSourceNamespace in
    if decide (source_namespace = xw_namespace requestor) then
      let? owner := ok_or (so_owner source_owner) UnknownSourceOwner in
      Ok (inl (mk_owner_request owner (xq_requestor request) (xq_selection request) (xq_target request)
                 (xq_property request) (xq_time request)))
    else
      let? portal_request := clipboard_portal_request_from_selection_request request monitor windows transfer in
      Ok (inr portal_request)
  with
  | Err e => (Err e, portal)
  | Ok (inl request) => (Ok (SameNamespace request), portal)
  | Ok (inr portal_request) =>
      match clipboard_request_import portal (cp_request portal_request) with
      | (Ok command, portal) => (Ok (CrossNamespace portal_request command), portal)
      | (Err e, portal) => (Err (PortalRejection e), portal)
      end
  end.

(** ** Answers to the requestor *)

Record ClipboardSelectionNotify : Type := mk_notify {
  cn_time : XTimestamp; cn_requestor : XResourceId; cn_selection : XAtom; cn_target : XAtom;
  cn_property : XAtom;
}.
Record ClipboardSelectionFailure : Type := mk_failure { ce_transfer : PortalTransferId; ce_notify : ClipboardSelectionNotify }.
Definition failed_normally (f : ClipboardSelectionFailure) : Prop := cn_property (ce_notify f) = X_ATOM_NONE.
Definition clipboard_selection_failure_notify (r : ClipboardSelectionFailureRequest) : ClipboardSelectionFailure :=
  mk_failure (cf_transfer r) (mk_notify (cf_time r) (cf_requestor r) (cf_selection r) (cf_target r) X_ATOM_NONE).

Record ClipboardTextProperty : Type := mk_text_property {
  cx_requestor : XResourceId; cx_property : XAtom; cx_target : XAtom; cx_bytes : list Z;
}.
Record ClipboardSelectionHandoff : Type := mk_handoff {
  ch_transfer : PortalTransferId; ch_property : ClipboardTextProperty; ch_notify : ClipboardSelectionNotify;
}.
Definition succeeded_normally (h : ClipboardSelectionHandoff) : Prop :=
  cn_property (ch_notify h) = cx_property (ch_property h) ∧ cn_property (ch_notify h) ≠ X_ATOM_NONE.
Inductive ClipboardSelectionHandoffError : Type :=
| NotHandoffCommand | TransferMismatch | HandoffMissingProperty | HandoffUnsupportedTarget
| TextTooLarge (len max : Z).

Definition clipboard_selection_text_handoff_artifact (command : PortalCommand)
    (request : ClipboardSelectionPortalRequest) (text : list Z) :
    result ClipboardSelectionHandoff ClipboardSelectionHandoffError :=
  match command with
  | HandoffClipboard transfer =>
      ensure! (transfer = cb_transfer (cp_request request)) else TransferMismatch in
      ensure! (cp_property request ≠ X_ATOM_NONE) else HandoffMissingProperty in
      ensure! (target_is_text (cb_target (cp_request request))) else HandoffUnsupportedTarget in
      ensure! (str_len text ≤ MAX_CLIPBOARD_TEXT_HANDOFF_BYTES)
        else TextTooLarge (str_len text) MAX_CLIPBOARD_TEXT_HANDOFF_BYTES in
      let failure := cp_failure request in
      Ok (mk_handoff transfer
            (mk_text_property (cf_requestor failure) (cp_property request) (cf_target failure) text)
            (mk_notify (cf_time failure) (cf_requestor failure) (cf_selection failure) (cf_target failure)
               (cp_property request)))
  | _ => Err NotHandoffCommand
  end.

(** ** What a request becomes *)

(** The record a request is answered from, and the namespaces on both sides. *)
Definition request_sides (request : XSelectionRequest) (monitor : XSelectionMonitor)
    (windows : XWindowTable) (owner : XSelectionOwnerRecord) (source target : NamespaceId) : Prop :=
  current_owner_for_selection monitor (xq_selection request) = Some owner ∧
  so_namespace owner = Some source ∧
  (∃ w, windows !! xq_requestor request = Some w ∧ xw_namespace w = target).

Lemma max_generation_foldl l best :
  match foldl max_generation best l with
  | None => best = None ∧ l = []
  | Some m => (best = Some m ∨ m ∈ l) ∧ Forall (λ r, so_generation r ≤ so_generation m) (option_list best ++ l)
  end.
Proof.
  revert best. induction l as [|r l IH]; intros best; simpl.
  { destruct best; simpl; [|done]. split; [by left|]. by repeat constructor. }
  specialize (IH (max_generation best r)). destruct (foldl max_generation (max_generation best r) l) as [m|].
  - destruct IH as [Hin Hall]. destruct best as [b|]; simpl in *.
    + case_decide as Hd; simpl in Hall; apply Forall_cons in Hall as [Hm Hall].
      * split; [|by auto with lia]. destruct Hin as [[= ->]|?]; right; [left|by right].
      * split; [destruct Hin; [by left|right; by right]|]. constructor; [done|]. constructor; [lia|done].
    + split; [|done]. right. destruct Hin as [[= ->]|?]; [left|by right].
  - destruct IH as [H ->]. destruct best; simpl in H; [|done]. by case_decide.
Qed.

(** The current owner is a record of the selection with an owner, of the greatest generation. *)
Lemma current_owner_Some monitor selection m :
  current_owner_for_selection monitor selection = Some m →
  (∃ k, monitor !! k = Some m) ∧ owned selection m ∧
  ∀ k r, monitor !! k = Some r → owned selection r → so_generation r ≤ so_generation m.
Proof.
  unfold current_owner_for_selection. intros Hc.
  pose proof (max_generation_foldl (filter (owned selection) (btree_values monitor)) None) as H.
  rewrite Hc in H. simpl in H. destruct H as [[?|Hin] Hall]; [done|].
  apply list_elem_of_filter in Hin as [Ho Hin]. apply elem_of_btree_values in Hin. split; [done|].
  split; [done|]. intros k r Hr Hor. rewrite Forall_forall in Hall. apply Hall, list_elem_of_filter.
  split; [done|]. apply elem_of_btree_values. by exists k.
Qed.
Lemma current_owner_None monitor selection :
  current_owner_for_selection monitor selection = None ↔ ∀ k r, monitor !! k = Some r → ¬ owned selection r.
Proof.
  unfold current_owner_for_selection.
  pose proof (max_generation_foldl (filter (owned selection) (btree_values monitor)) None) as H.
  destruct (foldl _ _ _) as [m|]; simpl in H; split; try done.
  - intros Hno. destruct H as [[?|Hin] _]; [done|]. apply list_elem_of_filter in Hin as [Ho Hin].
    apply elem_of_btree_values in Hin as [k Hk]. by apply Hno in Hk.
  - intros _ k r Hk Ho. destruct H as [_ H].
    assert (r ∈ filter (owned selection) (btree_values monitor)) as Hin.
    { apply list_elem_of_filter. split; [done|]. apply elem_of_btree_values. by exists k. }
    rewrite H in Hin. by apply not_elem_of_nil in Hin.
Qed.

(** What [dispatch_clipboard_selection_request] answers. *)
Lemma dispatch_outcome request monitor windows transfer portal :
  let '(r, portal') := dispatch_clipboard_selection_request request monitor windows transfer portal in
  match r with
  | Ok (SameNamespace o) =>
      portal' = portal ∧
      o = mk_owner_request (co_owner o) (xq_requestor request) (xq_selection request) (xq_target request)
            (xq_property request) (xq_time request) ∧
      ∃ owner n, request_sides request monitor windows owner n n ∧ so_owner owner = Some (co_owner o)
  | Ok (CrossNamespace p command) =>
      ∃ owner source target,
        request_sides request monitor windows owner source target ∧ source ≠ target ∧
        let t := mk_transfer transfer source target KClipboard (Some (xq_target_name request)) 0 DPending
                   (so_generation owner) in
        command = PromptClipboardTransfer t ∧ portal' = <[transfer := t]> portal ∧
        cp_property p = xq_property request ∧ cf_requestor (cp_failure p) = xq_requestor request
  | Err e =>
      portal' = portal ∧
      (e = UnknownRequestorNamespace ∧ windows !! xq_requestor request = None ∨
       e = UnknownSourceOwner ∧ current_owner_for_selection monitor (xq_selection request) = None ∨
       e = MissingSourceNamespace ∨ ∃ pe, e = PortalRejection pe)
  end.
Proof.
  unfold dispatch_clipboard_selection_request, clipboard_portal_request_from_selection_request.
  destruct (windows !! xq_requestor request) as [w|] eqn:Hw; simpl; [|auto].
  destruct (current_owner_for_selection monitor (xq_selection request)) as [owner|] eqn:Ho; simpl; [|auto].
  destruct (so_namespace owner) as [n|] eqn:Hn; simpl; [|auto].
  assert (request_sides request monitor windows owner n (xw_namespace w)) as Hs by (split_and!; eauto).
  destruct (decide (n = xw_namespace w)) as [->|Hne].
  - destruct (so_owner owner) as [o|] eqn:Hown; simpl; [by eauto 10|].
    apply current_owner_Some in Ho as (_ & [_ [? ?]] & _). congruence.
  - rewrite decide_True by done. simpl. unfold clipboard_request_import, portal_request.
    destruct (validate_request _) as [u|e]; simpl; [|by eauto 10].
    exists owner, n, (xw_namespace w). by split_and!.
Qed.

(** C30: selections never cross a namespace behind the portal's back: a request is sent straight to
    the owner only when the owner and the requestor are in the same namespace, and then no
    transfer is opened; an owner in another namespace is answered for by a prompt to the portal,
    with a pending transfer from the owner's namespace to the requestor's, at the owner's
    generation, and nothing is sent to the owner; every other request is refused, and leaves the
    portal as it was. *)
Theorem selection_dispatch_confined request monitor windows transfer portal :
  let '(r, portal') := dispatch_clipboard_selection_request request monitor windows transfer portal in
  match r with
  | Ok (SameNamespace o) =>
      portal' = portal ∧ co_requestor o = xq_requestor request ∧
      ∃ owner n, request_sides request monitor windows owner n n ∧ so_owner owner = Some (co_owner o)
  | Ok (CrossNamespace p command) =>
      ∃ owner source target,
        request_sides request monitor windows owner source target ∧ source ≠ target ∧
        let t := mk_transfer transfer source target KClipboard (Some (xq_target_name request)) 0 DPending
                   (so_generation owner) in
        command = PromptClipboardTransfer t ∧ portal' = <[transfer := t]> portal ∧
        cp_property p = xq_property request ∧ cf_requestor (cp_failure p) = xq_requestor request
  | Err e =>
      portal' = portal ∧
      (e = UnknownRequestorNamespace ∧ windows !! xq_requestor request = None ∨
       e = UnknownSourceOwner ∧ current_owner_for_selection monitor (xq_selection request) = None ∨
       e = MissingSourceNamespace ∨ ∃ pe, e = PortalRejection pe)
  end.
Proof.
  pose proof (dispatch_outcome request monitor windows transfer portal) as H.
  destruct (dispatch_clipboard_selection_request _ _ _ _ _) as [[[o|p c]|e] portal']; [|exact H..].
  destruct H as (-> & Ho & H). split; [done|]. split; [by rewrite Ho|done].
Qed.

(** ** Owners over a run of events *)

Definition monitor_run (windows : XWindowTable) (events : list XSelectionEvent) : XSelectionMonitor :=
  foldl (λ m e, (apply_event m e windows).2) ∅ events.

Definition monitor_ok (m : XSelectionMonitor) : Prop :=
  ∀ k r, m !! k = Some r → k = (so_selection r, so_namespace r) ∧ 1 ≤ so_generation r ≤ u64_MAX.
Lemma apply_event_preserves m e windows : monitor_ok m → monitor_ok (apply_event m e windows).2.
Proof.
  intros Hok k r. unfold apply_event; simpl. rewrite lookup_insert_Some. intros [[<- <-]|[_ Hr]]; [|by apply Hok].
  split; [done|]. simpl. destruct (m !! _) as [r|] eqn:Hr; simpl; [|vm_compute; by split].
  apply Hok in Hr as [_ Hr]. unfold saturating_add. lia.
Qed.

(** Owners all in one namespace. *)
Definition owners_in (n : NamespaceId) (m : XSelectionMonitor) : Prop :=
  monitor_ok m ∧ ∀ k r, m !! k = Some r → is_Some (so_owner r) → k.2 = Some n.
Definition event_in (windows : XWindowTable) (n : NamespaceId) (e : XSelectionEvent) : Prop :=
  match se_owner e with Some o => (xw_namespace <$> windows !! o) = Some n | None => True end.
#[export] Instance event_in_dec windows n e : Decision (event_in windows n e).
Proof. unfold event_in; case_match; apply _. Defined.
(** The owner recorded for a selection in a namespace. *)
Definition owner_in (m : XSelectionMonitor) (selection : XAtom) (n : NamespaceId) : option XResourceId :=
  r ← m !! (selection, Some n); so_owner r.

Lemma current_owner_in n m selection :
  owners_in n m → (current_owner_for_selection m selection ≫= so_owner) = owner_in m selection n.
Proof.
  intros [Hok Hin]. unfold owner_in. destruct (current_owner_for_selection m selection) as [r|] eqn:Hc; simpl.
  - apply current_owner_Some in Hc as ([k Hk] & [<- Ho] & _).
    destruct (Hok _ _ Hk) as [-> _]. specialize (Hin _ _ Hk Ho); simpl in Hin. rewrite Hin in Hk. by rewrite Hk.
  - destruct (m !! (selection, Some n)) as [r|] eqn:Hr; [|done]. simpl.
    destruct (so_owner r) as [o|] eqn:Ho; [|done]. exfalso. eapply current_owner_None; [exact Hc|exact Hr|].
    apply Hok in Hr as [[= ? ?] _]. by split.
Qed.

Lemma existing_namespace n m selection :
  owners_in n m →
  namespace_for_existing_selection m selection = if decide (is_Some (owner_in m selection n)) then Some n else None.
Proof.
  intros [Hok Hin]. unfold namespace_for_existing_selection, owner_in. case_decide as Hd.
  - destruct (m !! (selection, Some n)) as [r|] eqn:Hr; simpl in Hd; [|by destruct Hd].
    destruct (find_map _ _) as [n'|] eqn:Hf.
    + apply find_map_Some in Hf as ([[s o] r'] & He & Hf). simpl in Hf. apply elem_of_btree_entries in He.
      case_decide as Hs; [|done]. destruct Hs as [-> Ho].
      pose proof (Hin _ _ He Ho) as Hk. simpl in Hk. congruence.
    + exfalso. pose proof (proj1 (find_map_None _ _) Hf ((selection, Some n), r)) as Hf'. clear Hf. rename Hf' into Hf. simpl in Hf. rewrite decide_True in Hf by done.
      discriminate Hf. by apply elem_of_btree_entries.
  - apply find_map_None. intros [[s o] r] He. apply elem_of_btree_entries in He. simpl.
    case_decide as Hs; [|done]. destruct Hs as [-> Ho]. pose proof (Hin _ _ He Ho) as Hk. simpl in Hk.
    subst o. rewrite He in Hd. done.
Qed.

Lemma apply_event_in n windows m e :
  owners_in n m → event_in windows n e →
  owners_in n (apply_event m e windows).2 ∧
  ∀ selection, owner_in (apply_event m e windows).2 selection n =
    if decide (se_selection e = selection) then se_owner e else owner_in m selection n.
Proof.
  intros Hin He. split.
  - split; [by apply apply_event_preserves, Hin|]. intros k r. unfold apply_event; simpl.
    rewrite lookup_insert_Some. intros [[<- <-]|[_ Hr]]; simpl; [|by apply Hin].
    intros [o Ho]. unfold event_in in He. unfold event_namespace. rewrite Ho in *. simpl. by rewrite He.
  - intros selection. unfold event_in, apply_event, event_namespace in *; simpl.
    destruct (se_owner e) as [o|] eqn:Ho; simpl.
    + rewrite He. unfold owner_in at 1. destruct (decide (se_selection e = selection)) as [<-|Hne].
      * by rewrite lookup_insert_eq.
      * rewrite lookup_insert_ne; [done|]. congruence.
    + rewrite (existing_namespace n) by done. destruct (decide (is_Some (owner_in m (se_selection e) n))) as [Hs|Hs].
      * unfold owner_in at 1. destruct (decide (se_selection e = selection)) as [<-|Hne].
        -- by rewrite lookup_insert_eq.
        -- rewrite lookup_insert_ne; [done|]. congruence.
      * unfold owner_in at 1. rewrite lookup_insert_ne by congruence. fold (owner_in m selection n).
        case_decide as Hd; [|done]. subst. by destruct (owner_in m (se_selection e) n); [destruct Hs|].
Qed.

(** Within a namespace the owner of a selection is the window that claimed it last: as long as
    every window that claims a selection is in the same namespace, the current owner of a
    selection after any events, on this and other selections, is the owner its last event named,
    and there is none when that event cleared it or no event named the selection. *)
Theorem last_claim_owns windows n events selection :
  Forall (event_in windows n) events →
  (current_owner_for_selection (monitor_run windows events) selection ≫= so_owner) =
  (e ← last (filter (λ e, se_selection e = selection) events); se_owner e).
Proof.
  intros Hall.
  assert (owners_in n (monitor_run windows events) ∧
    ∀ selection, owner_in (monitor_run windows events) selection n =
      (e ← last (filter (λ e, se_selection e = selection) events); se_owner e)) as [Hin Ho].
  { unfold monitor_run. induction events as [|e events IH] using rev_ind; simpl.
    { split; [|done]. split; intros k r Hr; by rewrite lookup_empty in Hr. }
    apply Forall_app in Hall as [Hall He]. apply (proj1 (Forall_singleton _ _)) in He.
    rewrite foldl_app. simpl. destruct (IH Hall) as [Hin Ho]. destruct (apply_event_in n windows _ e Hin He) as [Hin' Ho'].
    split; [done|]. intros s. rewrite Ho', filter_app, filter_cons, filter_nil. case_decide.
    - by rewrite last_snoc.
    - by rewrite app_nil_r, Ho. }
  by rewrite (current_owner_in n) by done.
Qed.

Definition example_windows : XWindowTable :=
  let w id ns := mk_window id (surface_id 1 1) (from_raw ns) MapMapped (mk_rect 0 0 8 8) (mk_constraints None None) 1 in
  list_to_map [(x_resource_id 10 1, w (x_resource_id 10 1) 1); (x_resource_id 11 1, w (x_resource_id 11 1) 1);
               (x_resource_id 20 1, w (x_resource_id 20 1) 2)].
Definition claim (window time : Z) : XSelectionEvent :=
  mk_selection_event 1 (Some (x_resource_id window 1)) time time SetOwner.

Lemma last_claim_owns_witness :
  let events := [claim 10 100; claim 11 200; mk_selection_event 2 None 250 250 ClearOwner] in
  (current_owner_for_selection (monitor_run example_windows events) 1 ≫= so_owner) = Some (x_resource_id 11 1) ∧
  (current_owner_for_selection (monitor_run example_windows events) 1 ≫= so_owner) =
    (e ← last (filter (λ e, se_selection e = 1) events); se_owner e).
Proof.
  intros events. split; [vm_compute; reflexivity|]. apply (last_claim_owns example_windows (from_raw 1) events 1).
  apply (bool_decide_unpack _); vm_compute; exact I.
Defined.

(** Across namespaces the last claim does not own: the namespace that claimed more often does. *)
Lemma later_claim_not_current :
  let m := monitor_run example_windows [claim 10 100; claim 11 200; claim 20 300] in
  so_owner <$> current_owner_for_selection m 1 = Some (Some (x_resource_id 11 1)).
Proof. vm_compute. reflexivity. Qed.

(** When two namespaces own a selection, clearing the window of one clears the other: the window
    stays the recorded owner of its namespace. *)
Lemma clearing_a_window_clears_another :
  let m := monitor_run example_windows [claim 10 100; claim 20 300] in
  let m' := clear_window_owner m (x_resource_id 20 1) example_windows SelectionWindowDestroyed in
  owner_in m' 1 (from_raw 1) = None ∧ owner_in m' 1 (from_raw 2) = Some (x_resource_id 20 1).
Proof. vm_compute. split; reflexivity. Qed.

(** The property the text is handed over in goes to the window that asked, under the property and
    target it named, and is announced exactly so. *)
Lemma text_handoff_exact command request text h :
  clipboard_selection_text_handoff_artifact command request text = Ok h ↔
  command = HandoffClipboard (cb_transfer (cp_request request)) ∧ cp_property request ≠ X_ATOM_NONE ∧
  target_is_text (cb_target (cp_request request)) ∧ str_len text ≤ MAX_CLIPBOARD_TEXT_HANDOFF_BYTES ∧
  h = mk_handoff (cb_transfer (cp_request request))
        (mk_text_property (cf_requestor (cp_failure request)) (cp_property request) (cf_target (cp_failure request)) text)
        (mk_notify (cf_time (cp_failure request)) (cf_requestor (cp_failure request))
           (cf_selection (cp_failure request)) (cf_target (cp_failure request)) (cp_property request)).
Proof.
  unfold clipboard_selection_text_handoff_artifact. destruct command; try naive_solver.
  repeat case_decide; naive_solver.
Qed.
Lemma text_handoff_succeeds command request text h :
  clipboard_selection_text_handoff_artifact command request text = Ok h → succeeded_normally h.
Proof. intros (_ & Hp & _ & _ & ->)%text_handoff_exact. by split. Qed.
Lemma failure_notify_fails r : failed_normally (clipboard_selection_failure_notify r).
Proof. done. Qed.
