(* ===== verification/XInputGrabs.v ===== *)
(** * Input grabs of the X clients
    ([sophia-x-authority/src/input_authority.rs])

    Per namespace, the active pointer and keyboard grabs, the passive grabs of buttons and keys, the
    server grab, and which devices are frozen; and the XInput2 events the clients select. *)

From S2P Require Import Prelude Ids XTables.
Local Open Scope Z_scope.

Definition X_ANY_MODIFIER : Z := 32768.

Inductive XInputGrabError : Type := AlreadyGrabbed | AccessConflict | InvalidMode.
#[export] Instance grab_error_eq_dec : EqDecision XInputGrabError.
Proof. solve_decision. Defined.

Record XActiveInputGrab : Type := mk_active {
  ag_owner : Z; ag_window : XResourceId; ag_owner_events : bool; ag_pointer_mode : Z;
  ag_keyboard_mode : Z; ag_event_mask : Z;
}.
#[export] Instance active_grab_eq_dec : EqDecision XActiveInputGrab.
Proof. solve_decision. Defined.
Record XPassiveInputGrab : Type := mk_passive {
  pg_owner : Z; pg_window : XResourceId; pg_detail : Z; pg_modifiers : Z; pg_owner_events : bool;
  pg_pointer_mode : Z; pg_keyboard_mode : Z; pg_event_mask : Z;
}.
#[export] Instance passive_grab_eq_dec : EqDecision XPassiveInputGrab.
Proof. solve_decision. Defined.

Record XNamespaceInputAuthority : Type := mk_ns_input {
  pointer : option XActiveInputGrab; keyboard : option XActiveInputGrab;
  buttons : list XPassiveInputGrab; keys : list XPassiveInputGrab; server_owner : option Z;
  pointer_frozen : bool; keyboard_frozen : bool; pointer_implicit : bool;
  pointer_passive_detail : option Z; keyboard_passive_detail : option Z;
}.
#[export] Instance ns_input_eq_dec : EqDecision XNamespaceInputAuthority.
Proof. solve_decision. Defined.
Definition ns_input_default : XNamespaceInputAuthority :=
  mk_ns_input None None [] [] None false false false None None.

Record XInputAuthorityState : Type := mk_input_state {
  namespaces : gmap NamespaceId XNamespaceInputAuthority;
  xi_selections : gmap (NamespaceId * Z * XResourceId * Z) (list Z);
}.
Definition input_state_default : XInputAuthorityState := mk_input_state ∅ ∅.

(** ** Helpers *)

Definition active_from_passive (g : XPassiveInputGrab) : XActiveInputGrab :=
  mk_active (pg_owner g) (pg_window g) (pg_owner_events g) (pg_pointer_mode g) (pg_keyboard_mode g)
    (pg_event_mask g).
Definition validate_modes (pointer keyboard : Z) : result unit XInputGrabError :=
  if decide (pointer > 1 ∨ keyboard > 1) then Err InvalidMode else Ok ().
Definition patterns_overlap (a b : XPassiveInputGrab) : Prop :=
  (pg_detail a = 0 ∨ pg_detail b = 0 ∨ pg_detail a = pg_detail b) ∧
  (pg_modifiers a = X_ANY_MODIFIER ∨ pg_modifiers b = X_ANY_MODIFIER ∨ pg_modifiers a = pg_modifiers b) ∧
  pg_window a = pg_window b.
#[export] Instance patterns_overlap_dec a b : Decision (patterns_overlap a b).
Proof. unfold patterns_overlap; apply _. Defined.

Definition same_grab (a b : XPassiveInputGrab) : Prop :=
  pg_owner a = pg_owner b ∧ pg_window a = pg_window b ∧ pg_detail a = pg_detail b ∧
  pg_modifiers a = pg_modifiers b.
#[export] Instance same_grab_dec a b : Decision (same_grab a b).
Proof. unfold same_grab; apply _. Defined.
Definition insert_passive (grabs : list XPassiveInputGrab) (grab : XPassiveInputGrab) :
    result (list XPassiveInputGrab) XInputGrabError :=
  if decide (Exists (λ existing, pg_owner existing ≠ pg_owner grab ∧ patterns_overlap existing grab) grabs)
  then Err AccessConflict
  else Ok (filter (λ existing, ¬ same_grab existing grab) grabs ++ [grab]).
Definition remove_passive (grabs : list XPassiveInputGrab) (owner : Z) (window : XResourceId)
    (detail modifiers : Z) : list XPassiveInputGrab :=
  filter (λ g, pg_owner g ≠ owner ∨ pg_window g ≠ window ∨ ¬ (detail = 0 ∨ pg_detail g = detail) ∨
               ¬ (modifiers = X_ANY_MODIFIER ∨ pg_modifiers g = modifiers)) grabs.

(** [self.namespaces.entry(namespace).or_default()], and the state with that entry changed. *)
Definition ns_entry (s : XInputAuthorityState) (namespace : NamespaceId) : XNamespaceInputAuthority :=
  default ns_input_default (namespaces s !! namespace).
Definition set_ns (s : XInputAuthorityState) (namespace : NamespaceId) (n : XNamespaceInputAuthority) :
    XInputAuthorityState := mk_input_state (<[namespace := n]> (namespaces s)) (xi_selections s).
(** [if let Some(state) = self.namespaces.get_mut(&namespace)] *)
Definition with_ns (s : XInputAuthorityState) (namespace : NamespaceId)
    (f : XNamespaceInputAuthority → XNamespaceInputAuthority) : XInputAuthorityState :=
  match namespaces s !! namespace with Some n => set_ns s namespace (f n) | None => s end.
Definition owned_by (g : option XActiveInputGrab) (owner : Z) : Prop := ∃ a, g = Some a ∧ ag_owner a = owner.
#[export] Instance owned_by_dec g owner : Decision (owned_by g owner).
Proof.
  destruct g as [a|]; [|right; by intros (? & ? & _)].
  destruct (decide (ag_owner a = owner)); [left; by exists a|right; by intros (b & [= <-] & ?)].
Defined.
Definition owned_by_other (g : option XActiveInputGrab) (owner : Z) : Prop := ∃ a, g = Some a ∧ ag_owner a ≠ owner.
#[export] Instance owned_by_other_dec g owner : Decision (owned_by_other g owner).
Proof.
  destruct g as [a|]; [|right; by intros (? & ? & _)].
  destruct (decide (ag_owner a = owner)); [right; by intros (b & [= <-] & ?)|left; by exists a].
Defined.
Definition is_zero (z : Z) : bool := bool_decide (z = 0).

(** ** Active grabs *)

(** A failing grab finds the entry of the namespace, and leaves it as it was. *)
Definition grab_pointer (s : XInputAuthorityState) (namespace : NamespaceId) (grab : XActiveInputGrab) :
    result XInputAuthorityState XInputGrabError :=
  let? _ := validate_modes (ag_pointer_mode grab) (ag_keyboard_mode grab) in
  let n := ns_entry s namespace in
  ensure! (¬ owned_by_other (pointer n) (ag_owner grab)) else AlreadyGrabbed in
  Ok (set_ns s namespace
        (mk_ns_input (Some grab) (keyboard n) (buttons n) (keys n) (server_owner n)
           (is_zero (ag_pointer_mode grab)) (keyboard_frozen n || is_zero (ag_keyboard_mode grab)) false None
           (keyboard_passive_detail n))).

Definition ungrab_pointer (s : XInputAuthorityState) (namespace : NamespaceId) (owner : Z) :
    XInputAuthorityState :=
  with_ns s namespace (λ n,
    if decide (owned_by (pointer n) owner) then
      mk_ns_input None (keyboard n) (buttons n) (keys n) (server_owner n) false
        (if keyboard n then keyboard_frozen n else false) false None (keyboard_passive_detail n)
    else n).

Definition grab_keyboard (s : XInputAuthorityState) (namespace : NamespaceId) (grab : XActiveInputGrab) :
    result XInputAuthorityState XInputGrabError :=
  let? _ := validate_modes (ag_pointer_mode grab) (ag_keyboard_mode grab) in
  let n := ns_entry s namespace in
  ensure! (¬ owned_by_other (keyboard n) (ag_owner grab)) else AlreadyGrabbed in
  Ok (set_ns s namespace
        (mk_ns_input (pointer n) (Some grab) (buttons n) (keys n) (server_owner n)
           (pointer_frozen n || is_zero (ag_pointer_mode grab)) (is_zero (ag_keyboard_mode grab))
           (pointer_implicit n) (pointer_passive_detail n) None)).

Definition ungrab_keyboard (s : XInputAuthorityState) (namespace : NamespaceId) (owner : Z) :
    XInputAuthorityState :=
  with_ns s namespace (λ n,
    if decide (owned_by (keyboard n) owner) then
      mk_ns_input (pointer n) None (buttons n) (keys n) (server_owner n)
        (if pointer n then pointer_frozen n else false) false (pointer_implicit n) (pointer_passive_detail n) None
    else n).

(** ** Passive grabs *)

Definition set_buttons (n : XNamespaceInputAuthority) (l : list XPassiveInputGrab) : XNamespaceInputAuthority :=
  mk_ns_input (pointer n) (keyboard n) l (keys n) (server_owner n) (pointer_frozen n) (keyboard_frozen n)
    (pointer_implicit n) (pointer_passive_detail n) (keyboard_passive_detail n).
Definition set_keys (n : XNamespaceInputAuthority) (l : list XPassiveInputGrab) : XNamespaceInputAuthority :=
  mk_ns_input (pointer n) (keyboard n) (buttons n) l (server_owner n) (pointer_frozen n) (keyboard_frozen n)
    (pointer_implicit n) (pointer_passive_detail n) (keyboard_passive_detail n).
Definition set_server_owner (n : XNamespaceInputAuthority) (o : option Z) : XNamespaceInputAuthority :=
  mk_ns_input (pointer n) (keyboard n) (buttons n) (keys n) o (pointer_frozen n) (keyboard_frozen n)
    (pointer_implicit n) (pointer_passive_detail n) (keyboard_passive_detail n).

Definition grab_button (s : XInputAuthorityState) (namespace : NamespaceId) (grab : XPassiveInputGrab) :
    result XInputAuthorityState XInputGrabError :=
  let? _ := validate_modes (pg_pointer_mode grab) (pg_keyboard_mode grab) in
  let n := ns_entry s namespace in
  let? l := insert_passive (buttons n) grab in Ok (set_ns s namespace (set_buttons n l)).
Definition grab_key (s : XInputAuthorityState) (namespace : NamespaceId) (grab : XPassiveInputGrab) :
    result XInputAuthorityState XInputGrabError :=
  let? _ := validate_modes (pg_pointer_mode grab) (pg_keyboard_mode grab) in
  let n := ns_entry s namespace in
  let? l := insert_passive (keys n) grab in Ok (set_ns s namespace (set_keys n l)).
Definition ungrab_button (s : XInputAuthorityState) (namespace : NamespaceId) (owner : Z)
    (window : XResourceId) (detail modifiers : Z) : XInputAuthorityState :=
  with_ns s namespace (λ n, set_buttons n (remove_passive (buttons n) owner window detail modifiers)).
Definition ungrab_key (s : XInputAuthorityState) (namespace : NamespaceId) (owner : Z)
    (window : XResourceId) (detail modifiers : Z) : XInputAuthorityState :=
  with_ns s namespace (λ n, set_keys n (remove_passive (keys n) owner window detail modifiers)).

(** ** The server grab, frozen devices *)

Definition grab_server (s : XInputAuthorityState) (namespace : NamespaceId) (owner : Z) :
    result XInputAuthorityState XInputGrabError :=
  let n := ns_entry s namespace in
  ensure! (server_owner n = None ∨ server_owner n = Some owner) else AlreadyGrabbed in
  Ok (set_ns s namespace (set_server_owner n (Some owner))).
Definition ungrab_server (s : XInputAuthorityState) (namespace : NamespaceId) (owner : Z) :
    XInputAuthorityState :=
  with_ns s namespace (λ n, if decide (server_owner n = Some owner) then set_server_owner n None else n).

Definition set_frozen (n : XNamespaceInputAuthority) (p k : bool) : XNamespaceInputAuthority :=
  mk_ns_input (pointer n) (keyboard n) (buttons n) (keys n) (server_owner n) p k
    (pointer_implicit n) (pointer_passive_detail n) (keyboard_passive_detail n).
Definition allow_events (s : XInputAuthorityState) (namespace : NamespaceId) (owner mode : Z) :
    result XInputAuthorityState XInputGrabError :=
  if decide (mode > 7) then Err InvalidMode
  else
    Ok (with_ns s namespace (λ n,
      let owns_pointer := bool_decide (owned_by (pointer n) owner) in
      let owns_keyboard := bool_decide (owned_by (keyboard n) owner) in
      let thaw_pointer := (bool_decide (0 ≤ mode ≤ 2) || bool_decide (6 ≤ mode)) && owns_pointer in
      let thaw_keyboard := (bool_decide (3 ≤ mode ≤ 5) || bool_decide (6 ≤ mode)) && owns_keyboard in
      set_frozen n (if thaw_pointer then false else pointer_frozen n)
        (if thaw_keyboard then false else keyboard_frozen n))).

Definition pointer_grab (s : XInputAuthorityState) (namespace : NamespaceId) : option XActiveInputGrab :=
  n ← namespaces s !! namespace; pointer n.
Definition keyboard_grab (s : XInputAuthorityState) (namespace : NamespaceId) : option XActiveInputGrab :=
  n ← namespaces s !! namespace; keyboard n.
Definition ns_pointer_frozen (s : XInputAuthorityState) (namespace : NamespaceId) : bool :=
  from_option pointer_frozen false (namespaces s !! namespace).
Definition ns_keyboard_frozen (s : XInputAuthorityState) (namespace : NamespaceId) : bool :=
  from_option keyboard_frozen false (namespaces s !! namespace).
Definition ns_server_owner (s : XInputAuthorityState) (namespace : NamespaceId) : option Z :=
  n ← namespaces s !! namespace; server_owner n.

(** ** XInput2 events *)

Definition select_xi_step (namespace : NamespaceId) (owner : Z) (window : XResourceId)
    (m : gmap (NamespaceId * Z * XResourceId * Z) (list Z)) (e : Z * list Z) :
    gmap (NamespaceId * Z * XResourceId * Z) (list Z) :=
  let key := (namespace, owner, window, e.1) in
  if decide (Forall (λ word, word = 0) e.2) then delete key m else <[key := e.2]> m.
Definition select_xi_events (s : XInputAuthorityState) (namespace : NamespaceId) (owner : Z)
    (window : XResourceId) (masks : list (Z * list Z)) : XInputAuthorityState :=
  mk_input_state (namespaces s) (foldl (select_xi_step namespace owner window) (xi_selections s) masks).
Definition mask_has (mask : list Z) (event_type : Z) : Prop :=
  match mask !! Z.to_nat (event_type / 32) with
  | Some word => Z.land word (Z.shiftl 1 (event_type mod 32)) ≠ 0
  | None => False
  end.
#[export] Instance mask_has_dec mask e : Decision (mask_has mask e).
Proof. unfold mask_has; case_match; apply _. Defined.
Definition mask_selects (mask : option (list Z)) (event_type : Z) : Prop :=
  match mask with Some mask => mask_has mask event_type | None => False end.
#[export] Instance mask_selects_dec mask e : Decision (mask_selects mask e).
Proof. unfold mask_selects; case_match; apply _. Defined.
Definition xi_event_selected (s : XInputAuthorityState) (namespace : NamespaceId) (owner : Z)
    (window : XResourceId) (device event_type : Z) : bool :=
  bool_decide (Exists (λ selected_device,
    mask_selects (xi_selections s !! (namespace, owner, window, selected_device)) event_type) [device; 1]).

(** ** Passive grabs that become active *)

Definition matches (detail modifiers : Z) (g : XPassiveInputGrab) : Prop :=
  (pg_detail g = 0 ∨ pg_detail g = detail) ∧ (pg_modifiers g = X_ANY_MODIFIER ∨ pg_modifiers g = modifiers).
#[export] Instance matches_dec d m g : Decision (matches d m g).
Proof. unfold matches; apply _. Defined.

Definition activate_key (s : XInputAuthorityState) (namespace : NamespaceId) (key modifiers : Z) :
    option XActiveInputGrab * XInputAuthorityState :=
  match namespaces s !! namespace with
  | None => (None, s)
  | Some n =>
      match find_first (matches key modifiers) (keys n) with
      | None => (None, s)
      | Some passive =>
          let active := active_from_passive passive in
          (Some active,
           set_ns s namespace
             (mk_ns_input (pointer n) (Some active) (buttons n) (keys n) (server_owner n)
                (pointer_frozen n || is_zero (ag_pointer_mode active)) (is_zero (ag_keyboard_mode active))
                (pointer_implicit n) (pointer_passive_detail n) (Some key)))
      end
  end.
Definition release_key (s : XInputAuthorityState) (namespace : NamespaceId) (key : Z) : XInputAuthorityState :=
  with_ns s namespace (λ n,
    if decide (keyboard_passive_detail n = Some key) then
      mk_ns_input (pointer n) None (buttons n) (keys n) (server_owner n) (pointer_frozen n) false
        (pointer_implicit n) (pointer_passive_detail n) None
    else n).

Definition activate_button (s : XInputAuthorityState) (namespace : NamespaceId) (button modifiers : Z)
    (implicit : XActiveInputGrab) : XActiveInputGrab * XInputAuthorityState :=
  let n := ns_entry s namespace in
  let '(active, is_implicit) :=
    match find_first (matches button modifiers) (buttons n) with
    | Some grab => (active_from_passive grab, false)
    | None => (implicit, true)
    end in
  (active,
   set_ns s namespace
     (mk_ns_input (Some active) (keyboard n) (buttons n) (keys n) (server_owner n)
        (is_zero (ag_pointer_mode active)) (keyboard_frozen n || is_zero (ag_keyboard_mode active))
        is_implicit (if is_implicit then None else Some button) (keyboard_passive_detail n))).
Definition release_button (s : XInputAuthorityState) (namespace : NamespaceId) (button : Z) : XInputAuthorityState :=
  with_ns s namespace (λ n,
    if decide (pointer_implicit n = true ∨ pointer_passive_detail n = Some button) then
      mk_ns_input None (keyboard n) (buttons n) (keys n) (server_owner n) false (keyboard_frozen n)
        false None (keyboard_passive_detail n)
    else n).

(** ** A client goes away *)

(** The steps of the [retain]'s body: the entry without what the owner held. *)
Definition cleanup_pointer (owner : Z) (n : XNamespaceInputAuthority) : XNamespaceInputAuthority :=
  if decide (owned_by (pointer n) owner) then
    mk_ns_input None (keyboard n) (buttons n) (keys n) (server_owner n) false (keyboard_frozen n) false None
      (keyboard_passive_detail n)
  else n.
Definition cleanup_keyboard (owner : Z) (n : XNamespaceInputAuthority) : XNamespaceInputAuthority :=
  if decide (owned_by (keyboard n) owner) then
    mk_ns_input (pointer n) None (buttons n) (keys n) (server_owner n) (pointer_frozen n) false
      (pointer_implicit n) (pointer_passive_detail n) None
  else n.
Definition cleanup_passive (owner : Z) (n : XNamespaceInputAuthority) : XNamespaceInputAuthority :=
  set_keys (set_buttons n (filter (λ g, pg_owner g ≠ owner) (buttons n)))
    (filter (λ g, pg_owner g ≠ owner) (keys n)).
Definition cleanup_server (owner : Z) (n : XNamespaceInputAuthority) : XNamespaceInputAuthority :=
  if decide (server_owner n = Some owner) then set_server_owner n None else n.
Definition thaw_unheld (n : XNamespaceInputAuthority) : XNamespaceInputAuthority :=
  if decide (pointer n = None ∧ keyboard n = None) then set_frozen n false false else n.
Definition cleanup_ns (owner : Z) (n : XNamespaceInputAuthority) : XNamespaceInputAuthority :=
  thaw_unheld (cleanup_server owner (cleanup_passive owner (cleanup_keyboard owner (cleanup_pointer owner n)))).
Definition ns_in_use (n : XNamespaceInputAuthority) : Prop :=
  is_Some (pointer n) ∨ is_Some (keyboard n) ∨ buttons n ≠ [] ∨ keys n ≠ [] ∨ is_Some (server_owner n).
#[export] Instance ns_in_use_dec n : Decision (ns_in_use n).
Proof. unfold ns_in_use; apply _. Defined.
Definition cleanup_owner (s : XInputAuthorityState) (owner : Z) : XInputAuthorityState :=
  mk_input_state
    (omap (λ n, let n := cleanup_ns owner n in if decide (ns_in_use n) then Some n else None) (namespaces s))
    (filter (λ e : (NamespaceId * Z * XResourceId * Z) * list Z, e.1.1.1.2 ≠ owner) (xi_selections s)).

(** ** Runs *)

Inductive XInputOp : Type :=
| IGrabPointer (ns : NamespaceId) (g : XActiveInputGrab) | IUngrabPointer (ns : NamespaceId) (owner : Z)
| IGrabKeyboard (ns : NamespaceId) (g : XActiveInputGrab) | IUngrabKeyboard (ns : NamespaceId) (owner : Z)
| IGrabButton (ns : NamespaceId) (g : XPassiveInputGrab) | IGrabKey (ns : NamespaceId) (g : XPassiveInputGrab)
| IUngrabButton (ns : NamespaceId) (owner : Z) (window : XResourceId) (detail modifiers : Z)
| IUngrabKey (ns : NamespaceId) (owner : Z) (window : XResourceId) (detail modifiers : Z)
| IGrabServer (ns : NamespaceId) (owner : Z) | IUngrabServer (ns : NamespaceId) (owner : Z)
| IAllowEvents (ns : NamespaceId) (owner mode : Z)
| IActivateKey (ns : NamespaceId) (key modifiers : Z) | IReleaseKey (ns : NamespaceId) (key : Z)
| IActivateButton (ns : NamespaceId) (button modifiers : Z) (implicit : XActiveInputGrab)
| IReleaseButton (ns : NamespaceId) (button : Z)
| ISelectXi (ns : NamespaceId) (owner : Z) (window : XResourceId) (masks : list (Z * list Z))
| ICleanup (owner : Z).

Definition or_keep (s : XInputAuthorityState) (r : result XInputAuthorityState XInputGrabError) :
    XInputAuthorityState := match r with Ok s' => s' | Err _ => s end.
Definition input_op (s : XInputAuthorityState) (op : XInputOp) : XInputAuthorityState :=
  match op with
  | IGrabPointer ns g => or_keep s (grab_pointer s ns g) | IUngrabPointer ns o => ungrab_pointer s ns o
  | IGrabKeyboard ns g => or_keep s (grab_keyboard s ns g) | IUngrabKeyboard ns o => ungrab_keyboard s ns o
  | IGrabButton ns g => or_keep s (grab_button s ns g) | IGrabKey ns g => or_keep s (grab_key s ns g)
  | IUngrabButton ns o w d m => ungrab_button s ns o w d m | IUngrabKey ns o w d m => ungrab_key s ns o w d m
  | IGrabServer ns o => or_keep s (grab_server s ns o) | IUngrabServer ns o => ungrab_server s ns o
  | IAllowEvents ns o m => or_keep s (allow_events s ns o m)
  | IActivateKey ns k m => (activate_key s ns k m).2 | IReleaseKey ns k => release_key s ns k
  | IActivateButton ns b m i => (activate_button s ns b m i).2 | IReleaseButton ns b => release_button s ns b
  | ISelectXi ns o w masks => select_xi_events s ns o w masks
  | ICleanup o => cleanup_owner s o
  end.
Definition input_run (ops : list XInputOp) : XInputAuthorityState := foldl input_op input_state_default ops.

(** A property of every namespace. *)
Definition every_ns (P : XNamespaceInputAuthority → Prop) (s : XInputAuthorityState) : Prop :=
  ∀ ns n, namespaces s !! ns = Some n → P n.

Section every_ns.
Context (P : XNamespaceInputAuthority → Prop) (Hdefault : P ns_input_default).

Lemma every_ns_entry s ns : every_ns P s → P (ns_entry s ns).
Proof. intros Hs. unfold ns_entry. destruct (namespaces s !! ns) eqn:E; simpl; [by eapply Hs|done]. Qed.
Lemma every_ns_set s ns n : every_ns P s → P n → every_ns P (set_ns s ns n).
Proof. intros Hs Hn ns' n'. simpl. rewrite lookup_insert_Some. intros [[_ <-]|[_ ?]]; [done|by eapply Hs]. Qed.
Lemma every_ns_with s ns f : (∀ n, P n → P (f n)) → every_ns P s → every_ns P (with_ns s ns f).
Proof.
  intros Hf Hs. unfold with_ns. destruct (namespaces s !! ns) eqn:E; [|done].
  apply every_ns_set; [done|]. by eapply Hf, Hs.
Qed.
Lemma every_ns_cleanup s o : (∀ n, P n → P (cleanup_ns o n)) → every_ns P s → every_ns P (cleanup_owner s o).
Proof.
  intros Hf Hs ns n. simpl. rewrite lookup_omap. destruct (namespaces s !! ns) as [n0|] eqn:E; simpl; [|done].
  case_decide; [|done]. intros [= <-]. by eapply Hf, Hs.
Qed.
Lemma every_ns_or_keep s r : every_ns P s → (∀ s', r = Ok s' → every_ns P s') → every_ns P (or_keep s r).
Proof. intros Hs Hr. destruct r; simpl; auto. Qed.
End every_ns.

(** ** Passive grabs are exclusive *)

Definition grab_id (g : XPassiveInputGrab) : Z * XResourceId * Z * Z :=
  (pg_owner g, pg_window g, pg_detail g, pg_modifiers g).
(** Grabs that overlap have one owner, and no grab is held twice. *)
Definition passive_ok (l : list XPassiveInputGrab) : Prop :=
  (∀ a b, a ∈ l → b ∈ l → patterns_overlap a b → pg_owner a = pg_owner b) ∧ NoDup (grab_id <$> l).

Lemma patterns_overlap_sym a b : patterns_overlap a b → patterns_overlap b a.
Proof. unfold patterns_overlap. naive_solver. Qed.
Lemma passive_ok_filter (P : XPassiveInputGrab → Prop) `{∀ g, Decision (P g)} l :
  passive_ok l → passive_ok (filter P l).
Proof.
  intros [H1 H2]. split; [|by apply NoDup_fmap_filter].
  intros a b [_ Ha]%list_elem_of_filter [_ Hb]%list_elem_of_filter. auto.
Qed.
Lemma insert_passive_ok l g l' : passive_ok l → insert_passive l g = Ok l' → passive_ok l'.
Proof.
  unfold insert_passive. intros Hl. case_decide as Hc; [done|]. intros [= <-].
  pose proof (passive_ok_filter (λ e, ¬ same_grab e g) l Hl) as [H1 H2].
  assert (∀ a, a ∈ l → patterns_overlap a g → pg_owner a = pg_owner g) as Hg.
  { intros a Ha Ho. destruct (decide (pg_owner a = pg_owner g)); [done|]. exfalso. apply Hc, Exists_exists. eauto. }
  split.
  - intros a b. rewrite !elem_of_app, !list_elem_of_singleton.
    intros [Ha| ->] [Hb| ->] Ho; [by apply H1| |symmetry|done].
    + apply list_elem_of_filter in Ha as [_ Ha]. by apply Hg.
    + apply list_elem_of_filter in Hb as [_ Hb]. by apply Hg, patterns_overlap_sym.
  - rewrite fmap_app. apply NoDup_app. split; [done|]. split; [|apply NoDup_singleton].
    intros x Hx Hin. simpl in Hin. apply list_elem_of_singleton in Hin as ->.
    apply list_elem_of_fmap in Hx as (e & He & [Hne _]%list_elem_of_filter). apply Hne.
    unfold grab_id in He. simplify_eq. by split_and!.
Qed.

Definition ns_passive_ok (n : XNamespaceInputAuthority) : Prop := passive_ok (buttons n) ∧ passive_ok (keys n).
Lemma ns_passive_ok_default : ns_passive_ok ns_input_default.
Proof. split; (split; [by intros a b ?%not_elem_of_nil|constructor]). Qed.
#[local] Hint Resolve ns_passive_ok_default : core.

Definition released (owner : Z) (g : option XActiveInputGrab) : option XActiveInputGrab :=
  if decide (owned_by g owner) then None else g.
(** A frozen device has a grab to thaw it. *)
Definition not_stuck (n : XNamespaceInputAuthority) : Prop :=
  pointer n = None → keyboard n = None → pointer_frozen n = false ∧ keyboard_frozen n = false.

(** The holders of a namespace. *)
Definition ns_holders (n : XNamespaceInputAuthority) :=
  (pointer n, keyboard n, buttons n, keys n, server_owner n).
Lemma cleanup_pointer_holders o n :
  ns_holders (cleanup_pointer o n) = (released o (pointer n), keyboard n, buttons n, keys n, server_owner n).
Proof. unfold cleanup_pointer, released, ns_holders. by case_decide. Qed.
Lemma cleanup_keyboard_holders o n :
  ns_holders (cleanup_keyboard o n) = (pointer n, released o (keyboard n), buttons n, keys n, server_owner n).
Proof. unfold cleanup_keyboard, released, ns_holders. by case_decide. Qed.
Lemma cleanup_server_holders o n :
  ns_holders (cleanup_server o n) =
    (pointer n, keyboard n, buttons n, keys n, if decide (server_owner n = Some o) then None else server_owner n).
Proof. unfold cleanup_server, ns_holders. by case_decide. Qed.
Lemma thaw_unheld_holders n : ns_holders (thaw_unheld n) = ns_holders n ∧ not_stuck (thaw_unheld n).
Proof. unfold thaw_unheld, not_stuck, ns_holders. case_decide as H; split; try done. intros ? ?. by destruct H. Qed.

Lemma cleanup_ns_exact o n :
  pointer (cleanup_ns o n) = released o (pointer n) ∧ keyboard (cleanup_ns o n) = released o (keyboard n) ∧
  buttons (cleanup_ns o n) = filter (λ g, pg_owner g ≠ o) (buttons n) ∧
  keys (cleanup_ns o n) = filter (λ g, pg_owner g ≠ o) (keys n) ∧
  server_owner (cleanup_ns o n) = (if decide (server_owner n = Some o) then None else server_owner n) ∧
  not_stuck (cleanup_ns o n).
Proof.
  unfold cleanup_ns. pose proof (cleanup_pointer_holders o n) as H1. set (n1 := cleanup_pointer o n) in *.
  pose proof (cleanup_keyboard_holders o n1) as H2. set (n2 := cleanup_keyboard o n1) in *.
  pose proof (cleanup_server_holders o (cleanup_passive o n2)) as H3. set (n3 := cleanup_server o _) in *.
  destruct (thaw_unheld_holders n3) as [H4 H5]. set (n4 := thaw_unheld n3) in *. clearbody n4 n3 n2 n1.
  injection H1 as E1 E2 E3 E4 E5. injection H2 as F1 F2 F3 F4 F5. injection H3 as G1 G2 G3 G4 G5.
  injection H4 as K1 K2 K3 K4 K5. cbn in G1, G2, G3, G4, G5.
  rewrite K1, K2, K3, K4, K5, G1, G2, G3, G4, G5, F1, F2, F3, F4, F5, E1, E2, E3, E4, E5. done.
Qed.
Lemma cleanup_ns_passive o n :
  buttons (cleanup_ns o n) = filter (λ g, pg_owner g ≠ o) (buttons n) ∧
  keys (cleanup_ns o n) = filter (λ g, pg_owner g ≠ o) (keys n).
Proof. destruct (cleanup_ns_exact o n) as (_ & _ & H1 & H2 & _). done. Qed.

(** An operation that keeps the passive grabs of a namespace, or changes one of the two lists. *)
Lemma input_op_passive s op : every_ns ns_passive_ok s → every_ns ns_passive_ok (input_op s op).
Proof.
  intros Hs.
  assert (∀ ns, ns_passive_ok (ns_entry s ns)) as He by (intros; by apply every_ns_entry).
  destruct op as [ns g|ns o|ns g|ns o|ns g|ns g|ns o w d m|ns o w d m|ns o|ns o|ns o m|ns k m|ns k|ns b m i|ns b|ns o w l|o];
    simpl; try apply every_ns_or_keep; try done.
  - intros s'. unfold grab_pointer, validate_modes. repeat (case_decide; try done). intros [= <-].
    apply every_ns_set; [done|exact (He ns)].
  - apply every_ns_with; [|done]. intros n Hn. by case_decide.
  - intros s'. unfold grab_keyboard, validate_modes. repeat (case_decide; try done). intros [= <-].
    apply every_ns_set; [done|exact (He ns)].
  - apply every_ns_with; [|done]. intros n Hn. by case_decide.
  - intros s'. unfold grab_button, validate_modes. case_decide; [done|]. simpl.
    destruct (insert_passive _ g) as [l|] eqn:Hi; simpl; [|done]. intros [= <-]. apply every_ns_set; [done|].
    destruct (He ns) as [Hb Hk]. split; [exact (insert_passive_ok _ _ _ Hb Hi)|done].
  - intros s'. unfold grab_key, validate_modes. case_decide; [done|]. simpl.
    destruct (insert_passive _ g) as [l|] eqn:Hi; simpl; [|done]. intros [= <-]. apply every_ns_set; [done|].
    destruct (He ns) as [Hb Hk]. split; [done|exact (insert_passive_ok _ _ _ Hk Hi)].
  - apply every_ns_with; [|done]. intros n [Hb Hk]. split; [by apply passive_ok_filter|done].
  - apply every_ns_with; [|done]. intros n [Hb Hk]. split; [done|by apply passive_ok_filter].
  - intros s'. unfold grab_server. case_decide; [|done]. intros [= <-].
    apply every_ns_set; [done|exact (He ns)].
  - apply every_ns_with; [|done]. intros n Hn. by case_decide.
  - intros s'. unfold allow_events. case_decide; [done|]. intros [= <-].
    apply every_ns_with; [intros n Hn; exact Hn|done].
  - unfold activate_key. destruct (namespaces s !! ns) as [n|] eqn:E; [|done].
    destruct (find_first _ _); [|done]. apply every_ns_set; [done|exact (Hs ns n E)].
  - apply every_ns_with; [|done]. intros n Hn. by case_decide.
  - unfold activate_button. destruct (match find_first _ _ with Some _ => _ | None => _ end) as [a im]. simpl.
    apply every_ns_set; [done|exact (He ns)].
  - apply every_ns_with; [|done]. intros n Hn. by case_decide.
  - apply every_ns_cleanup; [|done]. intros n [Hb Hk]. destruct (cleanup_ns_passive o n) as [E1 E2].
    unfold ns_passive_ok. rewrite E1, E2. by split; apply passive_ok_filter.
Qed.

(** What a client is told that asks for the passive grab [g], and what is held afterwards. *)
Definition grab_answered (s : XInputAuthorityState) (ns : NamespaceId) (held : XNamespaceInputAuthority → list XPassiveInputGrab)
    (g : XPassiveInputGrab) (r : result XInputAuthorityState XInputGrabError) : Prop :=
  let conflicting e := e ∈ held (ns_entry s ns) ∧ pg_owner e ≠ pg_owner g ∧ patterns_overlap e g in
  match r with
  | Ok s' => pg_pointer_mode g ≤ 1 ∧ pg_keyboard_mode g ≤ 1 ∧ (∀ e, ¬ conflicting e) ∧
      (∀ e, e ∈ held (ns_entry s' ns) ↔ e = g ∨ e ∈ held (ns_entry s ns) ∧ ¬ same_grab e g) ∧
      ∀ ns', ns' ≠ ns → namespaces s' !! ns' = namespaces s !! ns'
  | Err AccessConflict => pg_pointer_mode g ≤ 1 ∧ pg_keyboard_mode g ≤ 1 ∧ ∃ e, conflicting e
  | Err InvalidMode => 1 < pg_pointer_mode g ∨ 1 < pg_keyboard_mode g
  | Err AlreadyGrabbed => False
  end.
Lemma passive_answered s ns (held : XNamespaceInputAuthority → list XPassiveInputGrab) change g :
  (∀ n l, held (change n l) = l) →
  grab_answered s ns held g
    (let? _ := validate_modes (pg_pointer_mode g) (pg_keyboard_mode g) in
     let? l := insert_passive (held (ns_entry s ns)) g in Ok (set_ns s ns (change (ns_entry s ns) l))).
Proof.
  intros Hh. unfold grab_answered, validate_modes, insert_passive. cbv zeta. case_decide as Hm; [simpl; lia|]. simpl.
  case_decide as Hc; simpl.
  - split_and!; [lia..|]. by apply Exists_exists in Hc.
  - split_and!; [lia..| | |].
    + intros e (He & Ho & Hp). apply Hc, Exists_exists. eauto.
    + intros e. unfold ns_entry at 1. simpl. rewrite lookup_insert_eq. simpl. rewrite Hh, elem_of_app, list_elem_of_filter, list_elem_of_singleton.
      tauto.
    + intros ns' Hne. by rewrite lookup_insert_ne.
Qed.



(** ** A client that goes away *)

Definition holds (n : XNamespaceInputAuthority) (owner : Z) : Prop :=
  owned_by (pointer n) owner ∨ owned_by (keyboard n) owner ∨
  Exists (λ g, pg_owner g = owner) (buttons n) ∨ Exists (λ g, pg_owner g = owner) (keys n) ∨
  server_owner n = Some owner.
Lemma released_none o g : ¬ owned_by (released o g) o.
Proof. unfold released. case_decide; [|done]. by intros (? & ? & _). Qed.

Lemma default_not_in_use : ¬ ns_in_use ns_input_default.
Proof. unfold ns_in_use. vm_compute. intros [[? [=]]|[[? [=]]|[?|[?|[? [=]]]]]]; done. Qed.
Lemma ns_entry_cleanup s owner ns :
  let n := cleanup_ns owner (ns_entry s ns) in
  ns_entry (cleanup_owner s owner) ns = (if decide (ns_in_use n) then n else ns_input_default).
Proof.
  cbv zeta. unfold ns_entry. cbn [namespaces cleanup_owner]. rewrite lookup_omap.
  destruct (namespaces s !! ns) as [n|]; cbn [mbind option_bind from_option id]; unfold id.
  - generalize (cleanup_ns owner n). intros n'. by case_decide.
  - rewrite decide_False; [done|]. vm_compute. intros [[? [=]]|[[? [=]]|[?|[?|[? [=]]]]]]; done.
Qed.
Lemma not_in_use n :
  ¬ ns_in_use n → pointer n = None ∧ keyboard n = None ∧ buttons n = [] ∧ keys n = [] ∧ server_owner n = None.
Proof.
  unfold ns_in_use. intros Hn. rewrite !eq_None_not_Some.
  destruct (buttons n), (keys n); split_and!; naive_solver.
Qed.

(** A client that goes away leaves nothing behind and takes nothing from others: afterwards it
    holds no grab and has no event selection in any namespace, every grab and selection of
    another client is what it was, no device stays frozen in a namespace without an active grab,
    and the table keeps only namespaces in which something is held. *)
Theorem cleanup_releases_exactly s owner ns :
  let s' := cleanup_owner s owner in
  let n := ns_entry s ns in
  let n' := ns_entry s' ns in
  ¬ holds n' owner ∧
  pointer n' = released owner (pointer n) ∧ keyboard n' = released owner (keyboard n) ∧
  buttons n' = filter (λ g, pg_owner g ≠ owner) (buttons n) ∧
  keys n' = filter (λ g, pg_owner g ≠ owner) (keys n) ∧
  server_owner n' = (if decide (server_owner n = Some owner) then None else server_owner n) ∧
  not_stuck n' ∧ (is_Some (namespaces s' !! ns) ↔ ns_in_use n') ∧
  ∀ o w d, xi_selections s' !! (ns, o, w, d) =
    if decide (o = owner) then None else xi_selections s !! (ns, o, w, d).
Proof.
  intros s' n n'.
  assert (pointer n' = released owner (pointer n) ∧ keyboard n' = released owner (keyboard n) ∧
    buttons n' = filter (λ g, pg_owner g ≠ owner) (buttons n) ∧
    keys n' = filter (λ g, pg_owner g ≠ owner) (keys n) ∧
    server_owner n' = (if decide (server_owner n = Some owner) then None else server_owner n) ∧ not_stuck n')
    as (Hp & Hk & Hb & Hks & Hso & Hf).
  { pose proof (cleanup_ns_exact owner n) as Hex. subst n' s' n. rewrite ns_entry_cleanup. cbv zeta.
    destruct (decide (ns_in_use (cleanup_ns owner (ns_entry s ns)))) as [Hu|Hu]; [exact Hex|]. apply not_in_use in Hu as (E1 & E2 & E3 & E4 & E5).
    destruct Hex as (F1 & F2 & F3 & F4 & F5 & _).
    rewrite <-F1, <-F2, <-F3, <-F4, <-F5, E1, E2, E3, E4, E5. by split_and!. }
  split_and!; [|done..| |].
  - unfold holds. rewrite Hp, Hk, Hb, Hks, Hso. intros [H|[H|[H|[H|H]]]].
    + by apply released_none in H.
    + by apply released_none in H.
    + apply Exists_exists in H as (g & [? _]%list_elem_of_filter & ?). done.
    + apply Exists_exists in H as (g & [? _]%list_elem_of_filter & ?). done.
    + case_decide; congruence.
  - clear Hp Hk Hb Hks Hso Hf. subst n' s'. unfold ns_entry. cbn [namespaces cleanup_owner]. rewrite lookup_omap.
    destruct (namespaces s !! ns) as [n0|]; cbn [mbind option_bind].
    + generalize (cleanup_ns owner n0). intros m. destruct (decide (ns_in_use m)) as [Hm|Hm].
      * split; [intros _; exact Hm|by eexists].
      * split; [by intros [? ?]|]. by intros ?%default_not_in_use.
    + split; [by intros [? ?]|]. by intros ?%default_not_in_use.
  - intros o w d. subst s'. simpl. destruct (decide (o = owner)) as [Ho|Ho].
    + apply map_lookup_filter_None. right. intros v _ Hne. by apply Hne.
    + destruct (xi_selections s !! (ns, o, w, d)) as [v|] eqn:E.
      * by apply map_lookup_filter_Some.
      * apply map_lookup_filter_None. by left.
Qed.

(** ** Frozen devices *)

Definition releases (op : XInputOp) : Prop :=
  match op with IReleaseKey _ _ | IReleaseButton _ _ => True | _ => False end.
#[export] Instance releases_dec op : Decision (releases op).
Proof. destruct op; apply _. Defined.

Lemma input_op_not_stuck s op : ¬ releases op → every_ns not_stuck s → every_ns not_stuck (input_op s op).
Proof.
  intros Hop Hs. assert (not_stuck ns_input_default) as Hd by done.
  assert (∀ ns, not_stuck (ns_entry s ns)) as He by (intros; by apply every_ns_entry).
  destruct op as [ns g|ns o|ns g|ns o|ns g|ns g|ns o w d m|ns o w d m|ns o|ns o|ns o m|ns k m|ns k|ns b m i|ns b|ns o w l|o];
    simpl; try apply every_ns_or_keep; try done; try (apply every_ns_with; [intros n Hn|done]); try done.
  - intros s'. unfold grab_pointer, validate_modes. repeat (case_decide; try done). intros [= <-]. by apply every_ns_set.
  - case_decide; [|done]. unfold not_stuck in *. simpl. intros _ ->. done.
  - intros s'. unfold grab_keyboard, validate_modes. repeat (case_decide; try done). intros [= <-]. by apply every_ns_set.
  - case_decide; [|done]. unfold not_stuck in *. simpl. intros -> _. done.
  - intros s'. unfold grab_button, validate_modes. case_decide; [done|]. simpl.
    destruct (insert_passive _ g); simpl; [|done]. intros [= <-]. apply every_ns_set; [done|exact (He ns)].
  - intros s'. unfold grab_key, validate_modes. case_decide; [done|]. simpl.
    destruct (insert_passive _ g); simpl; [|done]. intros [= <-]. apply every_ns_set; [done|exact (He ns)].
  - intros s'. unfold grab_server. case_decide; [|done]. intros [= <-]. apply every_ns_set; [done|exact (He ns)].
  - by case_decide.
  - intros s'. unfold allow_events. case_decide; [done|]. intros [= <-]. apply every_ns_with; [|done].
    intros n Hn Hp Hk. simpl in *. destruct (Hn Hp Hk) as [-> ->]. by repeat case_match.
  - unfold activate_key. destruct (namespaces s !! ns); [|done]. destruct (find_first _ _); [|done].
    by apply every_ns_set.
  - unfold activate_button. destruct (match find_first _ _ with Some _ => _ | None => _ end) as [a im]. simpl.
    by apply every_ns_set.
  - apply every_ns_cleanup; [|done]. intros n _. apply cleanup_ns_exact.
Qed.

(** As long as no button or key is released, a frozen device always has a grab whose owner can thaw
    it. *)
Lemma frozen_devices_grabbed ops : Forall (λ op, ¬ releases op) ops → every_ns not_stuck (input_run ops).
Proof.
  unfold input_run. induction ops as [|op ops IH] using rev_ind; intros Hall; [by intros ns' n' ?|].
  apply Forall_app in Hall as [Hall Hop]. apply (proj1 (Forall_singleton _ _)) in Hop.
  rewrite foldl_app. by apply input_op_not_stuck; [|apply IH].
Qed.

(** The release of a passive grab thaws only its own device: a key grab that also froze the pointer
    leaves the pointer frozen with no grab left, and its owner can no longer thaw it. *)
Lemma release_leaves_pointer_frozen :
  let ns : NamespaceId := from_raw 1 in
  let g := mk_passive 1 (x_resource_id 9 1) 38 0 false 0 1 0 in
  let s := input_run [IGrabKey ns g; IActivateKey ns 38 0; IReleaseKey ns 38; IAllowEvents ns 1 6] in
  pointer_grab s ns = None ∧ keyboard_grab s ns = None ∧ ns_pointer_frozen s ns = true.
Proof. vm_compute. split_and!; reflexivity. Qed.

(** A passive key grab takes the keyboard from the client that holds it. *)
Lemma activation_overrides_grab :
  let ns : NamespaceId := from_raw 1 in
  let w := x_resource_id 9 1 in
  let s := input_run [IGrabKeyboard ns (mk_active 1 w false 1 1 0); IGrabKey ns (mk_passive 2 w 38 0 false 1 1 0);
                      IActivateKey ns 38 0] in
  ag_owner <$> keyboard_grab s ns = Some 2.
Proof. vm_compute. reflexivity. Qed.

(** A click ends a pointer grab that a client made itself: the press replaces it by the implicit grab
    of the window under the pointer, and the release drops that one. *)
Lemma click_drops_explicit_grab :
  let ns : NamespaceId := from_raw 1 in
  let grab o := mk_active o (x_resource_id o 1) true 1 1 0 in
  let s := input_run [IGrabPointer ns (grab 1)] in
  let s' := input_run [IGrabPointer ns (grab 1); IActivateButton ns 1 0 (grab 2); IReleaseButton ns 1] in
  ag_owner <$> pointer_grab s ns = Some 1 ∧ pointer_grab s' ns = None.
Proof. vm_compute. split; reflexivity. Qed.
