(* ===== verification/XSoftware.v ===== *)
(** * Software buffers of the X authority
    ([sophia-x-authority/src/software.rs])

    The XRGB8888 buffer of each drawable, the core drawing operations on it (filled rectangles,
    images, text, lines, copies) with clipping and raster functions, and the packed patches of a
    buffer. *)

From S2P Require Import Prelude Ids Geometry Packets XTables.
Local Open Scope Z_scope.

Definition X_AUTHORITY_CPU_BUFFER_FORMAT_XRGB8888 : Z := from_le_bytes [88; 82; 50; 52].
Definition X_AUTHORITY_SOFTWARE_BUFFER_MAX_BYTES : Z := 64 * 1024 * 1024.

Record XAuthorityCpuBufferSnapshot : Type := mk_buffer {
  bf_handle : Z; bf_drawable : XResourceId; bf_size : Size; bf_stride : Z; bf_format : Z;
  bf_generation : Z; bf_bytes : list Z;
}.
Record XAuthorityCpuBufferPatch : Type := mk_patch {
  ph_handle : Z; ph_drawable : XResourceId; ph_size : Size; ph_stride : Z; ph_format : Z;
  ph_generation : Z; ph_rect : Rect; ph_bytes : list Z;
}.
Inductive XAuthorityCpuBufferUpdate : Type :=
| BufferReplace (snapshot : XAuthorityCpuBufferSnapshot)
| BufferPatch (patch : XAuthorityCpuBufferPatch).
Definition update_handle (u : XAuthorityCpuBufferUpdate) : Z :=
  match u with BufferReplace s => bf_handle s | BufferPatch p => ph_handle p end.
Definition update_generation (u : XAuthorityCpuBufferUpdate) : Z :=
  match u with BufferReplace s => bf_generation s | BufferPatch p => ph_generation p end.

Definition with_bytes (b : XAuthorityCpuBufferSnapshot) (bytes : list Z) : XAuthorityCpuBufferSnapshot :=
  mk_buffer (bf_handle b) (bf_drawable b) (bf_size b) (bf_stride b) (bf_format b) (bf_generation b) bytes.

(** ** Byte ranges *)

(** Copying [src] over the range that starts at [a]. *)
Definition set_range (bytes : list Z) (a : Z) (src : list Z) : list Z :=
  take (Z.to_nat a) bytes ++ src ++ drop (Z.to_nat a + length src) bytes.
Definition u_sat_add (a b : Z) : Z := saturating_add usize_MAX a b.
Definition u_sat_mul (a b : Z) : Z := saturating_mul usize_MAX a b.

(** ** Clipping *)

(** The clipped rectangle as left, top, right, bottom. *)
Definition clipped_bounds (size : Size) (rect : Rect) : option (Z * Z * Z * Z) :=
  if decide (sz_width size ≤ 0 ∨ sz_height size ≤ 0 ∨ rwidth rect ≤ 0 ∨ rheight rect ≤ 0) then None
  else
    let left := Z.min (Z.max (rx rect) 0) (sz_width size) in
    let top := Z.min (Z.max (ry rect) 0) (sz_height size) in
    let right := Z.min (Z.max (i32_saturating_add (rx rect) (rwidth rect)) 0) (sz_width size) in
    let bottom := Z.min (Z.max (i32_saturating_add (ry rect) (rheight rect)) 0) (sz_height size) in
    if decide (right ≤ left ∨ bottom ≤ top) then None else Some (left, top, right, bottom).

Definition union_step (acc : Z * Z * Z * Z) (rect : Rect) : Z * Z * Z * Z :=
  let '(x0, y0, x1, y1) := acc in
  (Z.min x0 (rx rect), Z.min y0 (ry rect), Z.max x1 (i32_saturating_add (rx rect) (rwidth rect)),
   Z.max y1 (i32_saturating_add (ry rect) (rheight rect))).
Definition union_rects (rectangles : list Rect) : option Rect :=
  match rectangles with
  | [] => None
  | first :: rest =>
      let '(x0, y0, x1, y1) :=
        foldl union_step (rx first, ry first, i32_saturating_add (rx first) (rwidth first),
                          i32_saturating_add (ry first) (rheight first)) rest in
      Some (mk_rect x0 y0 (i32_saturating_sub x1 x0) (i32_saturating_sub y1 y0))
  end.

Definition pixel_in_clip (x y : Z) (gc : XGraphicsContextValues) : Prop :=
  gc_clip_rectangles gc = [] ∨
  Exists (λ rect,
      let left := i32_saturating_add (rx rect) (gc_clip_x_origin gc) in
      let top := i32_saturating_add (ry rect) (gc_clip_y_origin gc) in
      (x >= left ∧ y >= top) ∧ x < i32_saturating_add left (rwidth rect) ∧ y < i32_saturating_add top (rheight rect))
    (gc_clip_rectangles gc).
#[export] Instance pixel_in_clip_dec x y gc : Decision (pixel_in_clip x y gc).
Proof.
  unfold pixel_in_clip. apply or_dec; [destruct (gc_clip_rectangles gc); [left|right]; done|].
  apply Exists_dec. intros r. cbv zeta. apply _.
Defined.

(** ** Raster functions *)

Definition u32_not (z : Z) : Z := Z.lxor u32_MAX z.
Definition COLOR_MASK : Z := 16777215.
Definition raster (function source destination : Z) : Z :=
  match function with
  | 0 => 0
  | 1 => Z.land source destination
  | 2 => Z.land source (u32_not destination)
  | 3 => source
  | 4 => Z.land (u32_not source) destination
  | 5 => destination
  | 6 => Z.lxor source destination
  | 7 => Z.lor source destination
  | 8 => u32_not (Z.lor source destination)
  | 9 => u32_not (Z.lxor source destination)
  | 10 => u32_not destination
  | 11 => Z.lor source (u32_not destination)
  | 12 => u32_not source
  | 13 => Z.lor (u32_not source) destination
  | 14 => u32_not (Z.land source destination)
  | 15 => u32_MAX
  | _ => source
  end.
Definition apply_raster_function (source destination : Z) (gc : XGraphicsContextValues) : Z :=
  let source := Z.land source COLOR_MASK in
  let destination := Z.land destination COLOR_MASK in
  let result := Z.land (raster (gc_function gc) source destination) COLOR_MASK in
  let mask := Z.land (gc_plane_mask gc) COLOR_MASK in
  Z.land (Z.lor (Z.land result mask) (Z.land destination (u32_not mask))) COLOR_MASK.

(** ** Pixels *)

(** The change of the pixel at a byte offset; nothing happens outside the buffer. *)
Definition paint_at (b : XAuthorityCpuBufferSnapshot) (offset pixel : Z) (gc : XGraphicsContextValues) :
    XAuthorityCpuBufferSnapshot :=
  match slice_range (bf_bytes b) offset (u_sat_add offset 4) with
  | Some target =>
      with_bytes b (set_range (bf_bytes b) offset
        (to_le_bytes 4 (apply_raster_function pixel (from_le_bytes target) gc)))
  | None => b
  end.
Definition pixel_offset (b : XAuthorityCpuBufferSnapshot) (x y : Z) : Z :=
  u_sat_add (u_sat_mul y (bf_stride b)) (u_sat_mul x 4).

(** [for y in top..bottom { for x in left..right { .. } }] *)
Definition range (a b : Z) : list Z := seqZ a (b - a).
Definition for_pixels {S} (f : S → Z → Z → S) (bounds : Z * Z * Z * Z) (s : S) : S :=
  let '(x0, y0, x1, y1) := bounds in
  foldl (λ s y, foldl (λ s x, f s x y) s (range x0 x1)) s (range y0 y1).

Definition fill_rect (b : XAuthorityCpuBufferSnapshot) (rect : Rect) (pixel : Z)
    (gc : XGraphicsContextValues) : XAuthorityCpuBufferSnapshot :=
  match clipped_bounds (bf_size b) rect with
  | None => b
  | Some bounds =>
      for_pixels (λ b x y, if decide (pixel_in_clip x y gc) then paint_at b (pixel_offset b x y) pixel gc else b)
        bounds b
  end.

Definition set_pixel (b : XAuthorityCpuBufferSnapshot) (x y pixel : Z) (gc : XGraphicsContextValues) :
    XAuthorityCpuBufferSnapshot :=
  if decide (x < 0 ∨ y < 0 ∨ x >= sz_width (bf_size b) ∨ y >= sz_height (bf_size b)) then b
  else if decide (¬ pixel_in_clip x y gc) then b
  else paint_at b (pixel_offset b x y) pixel gc.

(** ** Text *)

Definition to_ascii_uppercase_byte (b : Z) : Z := if decide (97 ≤ b ≤ 122) then b - 32 else b.
(** The bitmap of a character: seven rows of five bits. *)
Definition x_fixed_glyph_rows (byte : Z) : list Z :=
  match to_ascii_uppercase_byte byte with
  | 32 => [0; 0; 0; 0; 0; 0; 0] | 65 => [14; 17; 17; 31; 17; 17; 17]
  | 66 => [30; 17; 17; 30; 17; 17; 30] | 67 => [14; 17; 16; 16; 16; 17; 14]
  | 68 => [30; 17; 17; 17; 17; 17; 30] | 69 => [31; 16; 16; 30; 16; 16; 31]
  | 70 => [31; 16; 16; 30; 16; 16; 16] | 71 => [14; 17; 16; 23; 17; 17; 15]
  | 72 => [17; 17; 17; 31; 17; 17; 17] | 73 => [14; 4; 4; 4; 4; 4; 14]
  | 74 => [7; 2; 2; 2; 18; 18; 12] | 75 => [17; 18; 20; 24; 20; 18; 17]
  | 76 => [16; 16; 16; 16; 16; 16; 31] | 77 => [17; 27; 21; 21; 17; 17; 17]
  | 78 => [17; 25; 21; 19; 17; 17; 17] | 79 => [14; 17; 17; 17; 17; 17; 14]
  | 80 => [30; 17; 17; 30; 16; 16; 16] | 81 => [14; 17; 17; 17; 21; 18; 13]
  | 82 => [30; 17; 17; 30; 20; 18; 17] | 83 => [15; 16; 16; 14; 1; 1; 30]
  | 84 => [31; 4; 4; 4; 4; 4; 4] | 85 => [17; 17; 17; 17; 17; 17; 14]
  | 86 => [17; 17; 17; 17; 17; 10; 4] | 87 => [17; 17; 17; 21; 21; 21; 10]
  | 88 => [17; 17; 10; 4; 10; 17; 17] | 89 => [17; 17; 10; 4; 4; 4; 4]
  | 90 => [31; 1; 2; 4; 8; 16; 31] | 48 => [14; 17; 19; 21; 25; 17; 14]
  | 49 => [4; 12; 4; 4; 4; 4; 14] | 50 => [14; 17; 1; 2; 4; 8; 31]
  | 51 => [30; 1; 1; 14; 1; 1; 30] | 52 => [2; 6; 10; 18; 31; 2; 2]
  | 53 => [31; 16; 16; 30; 1; 1; 30] | 54 => [14; 16; 16; 30; 17; 17; 14]
  | 55 => [31; 1; 2; 4; 8; 8; 8] | 56 => [14; 17; 17; 14; 17; 17; 14]
  | 57 => [14; 17; 17; 15; 1; 1; 14] | 45 => [0; 0; 0; 31; 0; 0; 0]
  | 95 => [0; 0; 0; 0; 0; 0; 31] | 46 => [0; 0; 0; 0; 0; 12; 12]
  | 58 => [0; 12; 12; 0; 12; 12; 0] | 47 => [1; 2; 2; 4; 8; 8; 16]
  | 61 => [0; 31; 0; 31; 0; 0; 0] | 33 => [4; 4; 4; 4; 4; 0; 4]
  | 34 => [10; 10; 10; 0; 0; 0; 0] | 35 => [10; 31; 10; 10; 31; 10; 0]
  | 36 => [4; 15; 20; 14; 5; 30; 4] | 37 => [24; 25; 2; 4; 8; 19; 3]
  | 38 => [12; 18; 20; 8; 21; 18; 13] | 39 => [4; 4; 8; 0; 0; 0; 0]
  | 40 => [2; 4; 8; 8; 8; 4; 2] | 41 => [8; 4; 2; 2; 2; 4; 8]
  | 42 => [0; 21; 14; 31; 14; 21; 0] | 43 => [0; 4; 4; 31; 4; 4; 0]
  | 44 => [0; 0; 0; 0; 4; 4; 8] | 59 => [0; 4; 4; 0; 4; 4; 8]
  | 60 => [2; 4; 8; 16; 8; 4; 2] | 62 => [8; 4; 2; 1; 2; 4; 8]
  | 63 => [14; 17; 1; 2; 4; 0; 4] | 64 => [14; 17; 23; 21; 23; 16; 14]
  | 91 => [14; 8; 8; 8; 8; 8; 14] | 92 => [16; 8; 8; 4; 2; 2; 1]
  | 93 => [14; 2; 2; 2; 2; 2; 14] | 94 => [4; 10; 17; 0; 0; 0; 0]
  | 96 => [8; 4; 2; 0; 0; 0; 0] | 123 => [3; 4; 4; 8; 4; 4; 3]
  | 124 => [4; 4; 4; 4; 4; 4; 4] | 125 => [24; 4; 4; 2; 4; 4; 24]
  | 126 => [0; 0; 9; 22; 0; 0; 0]
  | _ => [31; 17; 1; 2; 4; 0; 4]
  end.
Definition enumerate {A} (l : list A) : list (Z * A) := imap (λ i a, (Z.of_nat i, a)) l.
(** The set bits of a glyph, as (column, row). *)
Definition glyph_cells (byte : Z) : list (Z * Z) :=
  '(row, bits) ← enumerate (x_fixed_glyph_rows byte);
  column ← filter (λ column, Z.land bits (Z.shiftl 1 (4 - column)) ≠ 0) (range 0 5);
  [(column, row)].
Definition draw_fixed_glyph (b : XAuthorityCpuBufferSnapshot) (cell_x cell_y byte pixel : Z)
    (gc : XGraphicsContextValues) : XAuthorityCpuBufferSnapshot :=
  foldl (λ b cell, fill_rect b (mk_rect (i32_saturating_add cell_x (cell.1 + 1))
                                  (i32_saturating_add cell_y (cell.2 + 2)) 1 1) pixel gc)
    b (glyph_cells byte).

(** ** Images *)

Definition copy_xrgb8888 (b : XAuthorityCpuBufferSnapshot) (rect : Rect) (data : list Z) :
    XAuthorityCpuBufferSnapshot :=
  match clipped_bounds (bf_size b) rect with
  | None => b
  | Some (x0, y0, x1, y1) =>
      let source_width := Z.max (rwidth rect) 0 in
      let source_height := Z.max (rheight rect) 0 in
      match checked_mul usize_MAX source_width 4 with
      | None => b
      | Some source_stride =>
          if decide (Z.of_nat (length data) < u_sat_mul source_stride source_height) then b
          else
            foldl (λ b y,
                let source_y := saturating_sub y (Z.max (ry rect) 0) in
                let source_x := saturating_sub x0 (Z.max (rx rect) 0) in
                let width := saturating_sub x1 x0 in
                let source_offset := u_sat_add (u_sat_mul source_y source_stride) (u_sat_mul source_x 4) in
                let target_offset := u_sat_add (u_sat_mul y (bf_stride b)) (u_sat_mul x0 4) in
                let byte_len := u_sat_mul width 4 in
                match slice_range data source_offset (u_sat_add source_offset byte_len) with
                | None => b
                | Some source =>
                    match slice_range (bf_bytes b) target_offset (u_sat_add target_offset byte_len) with
                    | Some _ => with_bytes b (set_range (bf_bytes b) target_offset source)
                    | None => b
                    end
                end)
              b (range y0 y1)
      end
  end.

(** ** Lines *)

(** The loop of [draw_line] from [(x, y)] with the given error; [None] is fuel running out. *)
Section draw_line.
Context (width : Z) (gc : XGraphicsContextValues) (target_x target_y dx dy sx sy : Z).
Definition line_square (x y : Z) : Rect :=
  let offset := Z.quot width 2 in
  mk_rect (i32_saturating_sub x offset) (i32_saturating_sub y offset) width width.
Fixpoint line_loop (fuel : nat) (b : XAuthorityCpuBufferSnapshot) (x y error : Z) :
    option XAuthorityCpuBufferSnapshot :=
  match fuel with
  | O => None
  | S fuel =>
      let b := fill_rect b (line_square x y) (gc_foreground gc) gc in
      if decide (x = target_x ∧ y = target_y) then Some b
      else
        let doubled := i32_saturating_mul error 2 in
        let '(error, x) := if decide (doubled >= dy) then (error + dy, x + sx) else (error, x) in
        let '(error, y) := if decide (doubled <= dx) then (error + dx, y + sy) else (error, y) in
        line_loop fuel b x y error
  end.
End draw_line.

Definition line_fuel (from to : XPoint) : nat :=
  S (Z.to_nat (Z.abs (xp_x to - xp_x from) + Z.abs (xp_y to - xp_y from))).
Definition draw_line (b : XAuthorityCpuBufferSnapshot) (from to : XPoint) (width : Z)
    (gc : XGraphicsContextValues) : option XAuthorityCpuBufferSnapshot :=
  let dx := Z.abs (xp_x to - xp_x from) in
  let sx := if decide (xp_x from < xp_x to) then 1 else -1 in
  let dy := - Z.abs (xp_y to - xp_y from) in
  let sy := if decide (xp_y from < xp_y to) then 1 else -1 in
  line_loop width gc (xp_x to) (xp_y to) dx dy sx sy (line_fuel from to) b (xp_x from) (xp_y from) (dx + dy).

Definition point_step (acc : Z * Z * Z * Z) (p : XPoint) : Z * Z * Z * Z :=
  let '(x0, y0, x1, y1) := acc in
  (Z.min x0 (xp_x p), Z.min y0 (xp_y p), Z.max x1 (xp_x p), Z.max y1 (xp_y p)).
Definition point_bounds (points : list XPoint) (line_width : Z) : option Rect :=
  match points with
  | [] => None
  | first :: rest =>
      let '(x0, y0, x1, y1) := foldl point_step (xp_x first, xp_y first, xp_x first, xp_y first) rest in
      let width := Z.max line_width 1 in
      let half := Z.quot width 2 in
      Some (mk_rect (i32_saturating_sub x0 half) (i32_saturating_sub y0 half)
              (i32_saturating_add (i32_saturating_sub x1 x0) width)
              (i32_saturating_add (i32_saturating_sub y1 y0) width))
  end.
(** [points.windows(2)] *)
Definition windows2 {A} (l : list A) : list (A * A) := zip l (tail l).

(** ** Patches *)

(** The loop over the rows; the first row out of range ends it. *)
Definition packed_rows (b : XAuthorityCpuBufferSnapshot) (x0 row_bytes : Z) (ys : list Z) : option (list Z) :=
  foldl (λ bytes y,
      bytes ← bytes;
      row ← checked_mul usize_MAX y (bf_stride b);
      column ← checked_mul usize_MAX x0 4;
      offset ← checked_add usize_MAX row column;
      stop ← checked_add usize_MAX offset row_bytes;
      source ← slice_range (bf_bytes b) offset stop;
      Some (bytes ++ source))
    (Some []) ys.
Definition i32_try_from (z : Z) : option Z := if decide (z ≤ i32_MAX) then Some z else None.
Definition packed_patch (b : XAuthorityCpuBufferSnapshot) (rect : Rect) : option XAuthorityCpuBufferPatch :=
  bounds ← clipped_bounds (bf_size b) rect;
  let '(x0, y0, x1, y1) := bounds in
  let width := saturating_sub x1 x0 in
  let height := saturating_sub y1 y0 in
  row_bytes ← checked_mul usize_MAX width 4;
  _ ← checked_mul usize_MAX row_bytes height;
  bytes ← packed_rows b x0 row_bytes (range y0 y1);
  px ← i32_try_from x0; py ← i32_try_from y0; pw ← i32_try_from width; ph ← i32_try_from height;
  Some (mk_patch (bf_handle b) (bf_drawable b) (bf_size b) (bf_stride b) (bf_format b) (bf_generation b)
          (mk_rect px py pw ph) bytes).

Inductive PatchError : Type :=
| PatchNoBase | PatchMetadata | PatchEmpty | PatchOutside | PatchLength | PatchSourceRow | PatchTargetRow.
#[export] Instance patch_error_eq_dec : EqDecision PatchError.
Proof. solve_decision. Defined.
Definition i32_or_max (z : Z) : Z := if decide (z ≤ i32_MAX) then z else i32_MAX.

(** The buffer is changed in place: an error in a row leaves the rows before it copied. *)
Definition patch_row (patch : XAuthorityCpuBufferPatch) (x0 y0 row_bytes stride : Z)
    (s : result unit PatchError * list Z) (y : Z) : result unit PatchError * list Z :=
  match s.1 with
  | Err _ => s
  | Ok _ =>
      let source_offset := u_sat_mul (y - y0) row_bytes in
      let target_offset := u_sat_add (u_sat_mul y stride) (u_sat_mul x0 4) in
      match slice_range (ph_bytes patch) source_offset (u_sat_add source_offset row_bytes) with
      | None => (Err PatchSourceRow, s.2)
      | Some source =>
          match slice_range s.2 target_offset (u_sat_add target_offset row_bytes) with
          | None => (Err PatchTargetRow, s.2)
          | Some _ => (Ok (), set_range s.2 target_offset source)
          end
      end
  end.
Definition apply_packed_patch (b : XAuthorityCpuBufferSnapshot) (patch : XAuthorityCpuBufferPatch) :
    result unit PatchError * XAuthorityCpuBufferSnapshot :=
  match clipped_bounds (bf_size b) (ph_rect patch) with
  | None => (Err PatchEmpty, b)
  | Some (x0, y0, x1, y1) =>
      if decide (rx (ph_rect patch) ≠ i32_or_max x0 ∨ ry (ph_rect patch) ≠ i32_or_max y0 ∨
                 rwidth (ph_rect patch) ≠ i32_or_max (saturating_sub x1 x0) ∨
                 rheight (ph_rect patch) ≠ i32_or_max (saturating_sub y1 y0))
      then (Err PatchOutside, b)
      else
        let row_bytes := u_sat_mul (saturating_sub x1 x0) 4 in
        let expected := u_sat_mul row_bytes (saturating_sub y1 y0) in
        if decide (Z.of_nat (length (ph_bytes patch)) ≠ expected) then (Err PatchLength, b)
        else
          let '(r, bytes) :=
            foldl (patch_row patch x0 y0 row_bytes (bf_stride b)) (Ok (), bf_bytes b) (range y0 y1) in
          (r, with_bytes b bytes)
  end.

Definition with_buffer_generation (b : XAuthorityCpuBufferSnapshot) (g : Z) : XAuthorityCpuBufferSnapshot :=
  mk_buffer (bf_handle b) (bf_drawable b) (bf_size b) (bf_stride b) (bf_format b) g (bf_bytes b).
(** [XAuthorityCpuBufferUpdate::apply_to] *)
Definition apply_to (u : XAuthorityCpuBufferUpdate) (buffers : gmap Z XAuthorityCpuBufferSnapshot) :
    result unit PatchError * gmap Z XAuthorityCpuBufferSnapshot :=
  match u with
  | BufferReplace snapshot => (Ok (), <[bf_handle snapshot := snapshot]> buffers)
  | BufferPatch patch =>
      match buffers !! ph_handle patch with
      | None => (Err PatchNoBase, buffers)
      | Some b =>
          if decide (bf_drawable b ≠ ph_drawable patch ∨ bf_size b ≠ ph_size patch ∨
                     bf_stride b ≠ ph_stride patch ∨ bf_format b ≠ ph_format patch ∨
                     ph_generation patch < bf_generation b)
          then (Err PatchMetadata, buffers)
          else
            match apply_packed_patch b patch with
            | (Err e, b) => (Err e, <[ph_handle patch := b]> buffers)
            | (Ok _, b) => (Ok (), <[ph_handle patch := with_buffer_generation b (ph_generation patch)]> buffers)
            end
      end
  end.

(** ** The store *)

Record XSoftwareBufferStore : Type := mk_store {
  next_handle : Z; buffers : gmap XResourceId XAuthorityCpuBufferSnapshot;
}.
Definition store_new : XSoftwareBufferStore := mk_store 0 ∅.
Definition put_buffer (s : XSoftwareBufferStore) (drawable : XResourceId) (b : XAuthorityCpuBufferSnapshot) :
    XSoftwareBufferStore := mk_store (next_handle s) (<[drawable := b]> (buffers s)).
Definition store_remove (s : XSoftwareBufferStore) (drawable : XResourceId) :
    option XAuthorityCpuBufferSnapshot * XSoftwareBufferStore :=
  (buffers s !! drawable, mk_store (next_handle s) (delete drawable (buffers s))).

Definition allocate_handle (s : XSoftwareBufferStore) : Z * XSoftwareBufferStore :=
  let handle := Z.max (next_handle s) 1 in
  (handle, mk_store (Z.max (u64_succ handle) 1) (buffers s)).

(** [None] leaves the store alone; otherwise the buffer of the drawable, new or as it was. *)
Definition ensure (s : XSoftwareBufferStore) (drawable : XResourceId) (size : Size) (handle : Z) :
    option (XAuthorityCpuBufferSnapshot * bool) :=
  width ← usize_try_from (sz_width size);
  height ← usize_try_from (sz_height size);
  if decide (width = 0 ∨ height = 0) then None
  else
    stride ← checked_mul usize_MAX width 4;
    byte_len ← checked_mul usize_MAX stride height;
    if decide (byte_len > X_AUTHORITY_SOFTWARE_BUFFER_MAX_BYTES) then None
    else
      match buffers s !! drawable with
      | Some b =>
          if decide (bf_size b = size) then Some (b, false)
          else if decide (stride ≤ u32_MAX) then
            Some (mk_buffer handle drawable size stride X_AUTHORITY_CPU_BUFFER_FORMAT_XRGB8888
                    (bf_generation b) (replicate (Z.to_nat byte_len) 0), true)
          else None
      | None =>
          if decide (stride ≤ u32_MAX) then
            Some (mk_buffer handle drawable size stride X_AUTHORITY_CPU_BUFFER_FORMAT_XRGB8888 0
                    (replicate (Z.to_nat byte_len) 0), true)
          else None
      end.

Definition finish_immutable_update (b : XAuthorityCpuBufferSnapshot) (handle : Z) (replaced : bool)
    (damage : option Rect) : option XAuthorityCpuBufferUpdate * XAuthorityCpuBufferSnapshot :=
  match (if replaced then Some () else damage ← damage; _ ← packed_patch b damage; Some ()) with
  | None => (None, b)
  | Some _ =>
      match checked_add u64_MAX (bf_generation b) 1 with
      | None => (None, b)
      | Some generation =>
          let b := mk_buffer handle (bf_drawable b) (bf_size b) (bf_stride b) (bf_format b) generation (bf_bytes b) in
          (Some (BufferReplace b), b)
      end
  end.

(** What the operations share: a handle, the buffer, the painting and the update. *)
Definition painted (s : XSoftwareBufferStore) (drawable : XResourceId) (size : Size)
    (paint : XAuthorityCpuBufferSnapshot → XAuthorityCpuBufferSnapshot) (damage : option Rect) :
    option XAuthorityCpuBufferUpdate * XSoftwareBufferStore :=
  let '(handle, s) := allocate_handle s in
  match ensure s drawable size handle with
  | None => (None, s)
  | Some (b, replaced) =>
      let '(update, b) := finish_immutable_update (paint b) handle replaced damage in
      (update, put_buffer s drawable b)
  end.

Definition paint_damage (s : XSoftwareBufferStore) (drawable : XResourceId) (size : Size)
    (damage : list Rect) (gc : XGraphicsContextValues) : option XAuthorityCpuBufferUpdate * XSoftwareBufferStore :=
  painted s drawable size (λ b, foldl (λ b rect, fill_rect b rect (gc_foreground gc) gc) b damage)
    (union_rects damage).
Definition store_clear (s : XSoftwareBufferStore) (drawable : XResourceId) (size : Size) (rect : Rect)
    (pixel : Z) : option XAuthorityCpuBufferUpdate * XSoftwareBufferStore :=
  painted s drawable size (λ b, fill_rect b rect pixel gc_default) (Some rect).
Definition put_image (s : XSoftwareBufferStore) (drawable : XResourceId) (size : Size)
    (destination : Rect) (data : list Z) : option XAuthorityCpuBufferUpdate * XSoftwareBufferStore :=
  painted s drawable size (λ b, copy_xrgb8888 b destination data) (Some destination).

(** [i32::try_from(index.saturating_mul(8)).unwrap_or(i32::MAX)] *)
Definition text_cell_x (x index : Z) : Z := i32_saturating_add x (i32_or_max (u_sat_mul index 8)).
Definition draw_text (s : XSoftwareBufferStore) (drawable : XResourceId) (size : Size) (x baseline : Z)
    (text : list Z) (opaque : bool) (gc : XGraphicsContextValues) :
    option XAuthorityCpuBufferUpdate * XSoftwareBufferStore :=
  let top := i32_saturating_sub baseline 10 in
  painted s drawable size
    (λ b, foldl (λ b e,
        let cell_x := text_cell_x x e.1 in
        let b := if opaque then fill_rect b (mk_rect cell_x top 8 12) (gc_background gc) gc else b in
        draw_fixed_glyph b cell_x top e.2 (gc_foreground gc) gc) b (enumerate text))
    (Some (mk_rect x top (i32_or_max (u_sat_mul (Z.of_nat (length text)) 8)) 12)).

(** Lines that run out of fuel leave the buffer; [line_fuel] is enough ([draw_line_ends]). *)
Definition draw_lines (s : XSoftwareBufferStore) (drawable : XResourceId) (size : Size)
    (points : list XPoint) (gc : XGraphicsContextValues) :
    option XAuthorityCpuBufferUpdate * XSoftwareBufferStore :=
  match point_bounds points (gc_line_width gc) with
  | None => (None, s)
  | Some damage =>
      let width := Z.max (gc_line_width gc) 1 in
      painted s drawable size
        (λ b, foldl (λ b pair, default b (draw_line b pair.1 pair.2 width gc)) b (windows2 points))
        (Some damage)
  end.

(** A copy reads the source as it was before; a read out of range abandons the update, with the
    pixels before it painted. *)
Definition copy_pixel (source : XAuthorityCpuBufferSnapshot) (x0 y0 dst_x dst_y : Z)
    (gc : XGraphicsContextValues) (s : bool * XAuthorityCpuBufferSnapshot) (source_x source_y : Z) :
    bool * XAuthorityCpuBufferSnapshot :=
  if negb s.1 then s
  else
    let offset := u_sat_add (u_sat_mul source_y (bf_stride source)) (u_sat_mul source_x 4) in
    match slice_range (bf_bytes source) offset (u_sat_add offset 4) with
    | None => (false, s.2)
    | Some bytes =>
        let target_x := i32_saturating_add dst_x (i32_or_max (saturating_sub source_x x0)) in
        let target_y := i32_saturating_add dst_y (i32_or_max (saturating_sub source_y y0)) in
        (true, set_pixel s.2 target_x target_y (from_le_bytes bytes) gc)
    end.
Definition copy_area (s : XSoftwareBufferStore) (source destination : XResourceId) (destination_size : Size)
    (source_rect : Rect) (dst_x dst_y : Z) (gc : XGraphicsContextValues) :
    option XAuthorityCpuBufferUpdate * XSoftwareBufferStore :=
  match buffers s !! source with
  | None => (None, s)
  | Some source =>
      let '(handle, s) := allocate_handle s in
      match ensure s destination destination_size handle with
      | None => (None, s)
      | Some (b, replaced) =>
          match clipped_bounds (bf_size source) source_rect with
          | None => (None, put_buffer s destination b)
          | Some (x0, y0, x1, y1) =>
              let '(ok, b) := for_pixels (copy_pixel source x0 y0 dst_x dst_y gc) (x0, y0, x1, y1) (true, b) in
              if negb ok then (None, put_buffer s destination b)
              else
                match i32_try_from (saturating_sub x1 x0), i32_try_from (saturating_sub y1 y0) with
                | Some w, Some h =>
                    let '(update, b) :=
                      finish_immutable_update b handle replaced (Some (mk_rect dst_x dst_y w h)) in
                    (update, put_buffer s destination b)
                | _, _ => (None, put_buffer s destination b)
                end
          end
      end
  end.

(** ** Byte ranges, byte by byte *)

Lemma slice_range_Some bytes a b r :
  slice_range bytes a b = Some r ↔
  a ≤ b ∧ b ≤ Z.of_nat (length bytes) ∧ r = take (Z.to_nat (b - a)) (drop (Z.to_nat a) bytes).
Proof. unfold slice_range. case_decide; naive_solver. Qed.
Lemma length_set_range bytes a src :
  0 ≤ a → a + Z.of_nat (length src) ≤ Z.of_nat (length bytes) → length (set_range bytes a src) = length bytes.
Proof. intros. unfold set_range. rewrite !length_app, length_take, length_drop. lia. Qed.
Lemma lookup_set_range bytes a src (i : nat) :
  0 ≤ a → a + Z.of_nat (length src) ≤ Z.of_nat (length bytes) →
  set_range bytes a src !! i =
    if decide (a ≤ Z.of_nat i < a + Z.of_nat (length src)) then src !! (i - Z.to_nat a)%nat else bytes !! i.
Proof.
  intros Ha Hl. unfold set_range. assert (length (take (Z.to_nat a) bytes) = Z.to_nat a) as Hlt.
  { rewrite length_take. lia. }
  case_decide as Hi.
  - rewrite lookup_app_r by lia. rewrite Hlt, lookup_app_l by lia. done.
  - destruct (decide (Z.of_nat i < a)).
    + rewrite lookup_app_l by lia. by rewrite lookup_take_lt by lia.
    + rewrite lookup_app_r by lia. rewrite Hlt, lookup_app_r by lia. rewrite lookup_drop. f_equal. lia.
Qed.
Lemma get_set_range bytes a src c n :
  0 ≤ a → a + Z.of_nat (length src) ≤ Z.of_nat (length bytes) →
  0 ≤ c → 0 ≤ n → c + n ≤ Z.of_nat (length bytes) →
  (c = a ∧ n = Z.of_nat (length src) → slice_range (set_range bytes a src) c (c + n) = Some src) ∧
  (c + n ≤ a ∨ a + Z.of_nat (length src) ≤ c →
    slice_range (set_range bytes a src) c (c + n) = slice_range bytes c (c + n)).
Proof.
  intros Ha Hl Hc Hn Hcn. assert (length (set_range bytes a src) = length bytes) as Hlen by by apply length_set_range.
  rewrite !slice_range_in by lia. split.
  - intros [-> ->]. f_equal. apply list_eq. intros i. rewrite Nat2Z.id.
    destruct (decide (i < length src)%nat).
    + rewrite lookup_take_lt, lookup_drop, lookup_set_range, decide_True by lia. f_equal. lia.
    + rewrite lookup_take_ge by lia. symmetry. apply lookup_ge_None_2. lia.
  - intros Hd. f_equal. apply list_eq. intros i. destruct (decide (i < Z.to_nat n)%nat).
    + rewrite !lookup_take_lt, !lookup_drop, lookup_set_range, decide_False by lia. done.
    + by rewrite !lookup_take_ge by lia.
Qed.

(** ** Pixels of a well-formed buffer *)

Definition size_ok (sz : Size) : Prop :=
  0 < sz_width sz ≤ i32_MAX ∧ 0 < sz_height sz ≤ i32_MAX ∧
  4 * sz_width sz * sz_height sz ≤ X_AUTHORITY_SOFTWARE_BUFFER_MAX_BYTES.
Definition buffer_ok (b : XAuthorityCpuBufferSnapshot) : Prop :=
  size_ok (bf_size b) ∧ bf_stride b = 4 * sz_width (bf_size b) ∧
  Z.of_nat (length (bf_bytes b)) = bf_stride b * sz_height (bf_size b).
Definition in_size (sz : Size) (x y : Z) : Prop := 0 ≤ x < sz_width sz ∧ 0 ≤ y < sz_height sz.
#[export] Instance in_size_dec sz x y : Decision (in_size sz x y).
Proof. unfold in_size; apply _. Defined.
#[export] Instance buffer_ok_dec b : Decision (buffer_ok b).
Proof. unfold buffer_ok, size_ok; apply _. Defined.
Definition pixel (b : XAuthorityCpuBufferSnapshot) (x y : Z) : option Z :=
  from_le_bytes <$> slice_range (bf_bytes b) (y * bf_stride b + 4 * x) (y * bf_stride b + 4 * x + 4).

(** Everything of a buffer but its bytes. *)
Definition same_shape (b b' : XAuthorityCpuBufferSnapshot) : Prop :=
  bf_handle b' = bf_handle b ∧ bf_drawable b' = bf_drawable b ∧ bf_size b' = bf_size b ∧
  bf_stride b' = bf_stride b ∧ bf_format b' = bf_format b ∧ bf_generation b' = bf_generation b ∧
  length (bf_bytes b') = length (bf_bytes b).
Lemma same_shape_refl b : same_shape b b.
Proof. unfold same_shape. tauto. Qed.
Lemma same_shape_trans b1 b2 b3 : same_shape b1 b2 → same_shape b2 b3 → same_shape b1 b3.
Proof. unfold same_shape. intros (->&->&->&->&->&->&->) (->&->&->&->&->&->&->). tauto. Qed.
Lemma same_shape_ok b b' : same_shape b b' → buffer_ok b → buffer_ok b'.
Proof. unfold same_shape, buffer_ok. intros (_&_&->&->&_&_&->). done. Qed.
#[export] Hint Resolve same_shape_refl : core.

Lemma pixel_range b x y :
  buffer_ok b → in_size (bf_size b) x y →
  0 ≤ y * bf_stride b + 4 * x ∧ y * bf_stride b + 4 * x + 4 ≤ Z.of_nat (length (bf_bytes b)).
Proof. intros (Hs & Hst & ->) [Hx Hy]. rewrite Hst. unfold size_ok in Hs. nia. Qed.
Lemma pixel_some b x y : buffer_ok b → in_size (bf_size b) x y → is_Some (pixel b x y).
Proof.
  intros Hok Hin. destruct (pixel_range b x y Hok Hin). unfold pixel.
  rewrite slice_range_in by lia. by eexists.
Qed.
Lemma buffer_len_bound b : buffer_ok b → Z.of_nat (length (bf_bytes b)) ≤ X_AUTHORITY_SOFTWARE_BUFFER_MAX_BYTES.
Proof. intros ((_ & _ & Hm) & Hst & ->). rewrite Hst. lia. Qed.
Lemma pixel_offset_eq b x y :
  buffer_ok b → in_size (bf_size b) x y → pixel_offset b x y = y * bf_stride b + 4 * x.
Proof.
  intros Hok Hin. destruct (pixel_range b x y Hok Hin). pose proof (buffer_len_bound b Hok) as Hm.
  assert (X_AUTHORITY_SOFTWARE_BUFFER_MAX_BYTES < usize_MAX) by (vm_compute; reflexivity).
  destruct Hin. destruct Hok as (Hs & Hst & _). unfold size_ok in Hs.
  unfold pixel_offset, u_sat_add, u_sat_mul, saturating_add, saturating_mul.
  assert (0 ≤ y * bf_stride b) by nia. lia.
Qed.

(** Pixels do not overlap. *)
Lemma pixels_disjoint sz st x y x' y' :
  st = 4 * sz_width sz → in_size sz x y → in_size sz x' y' → ¬ (x' = x ∧ y' = y) →
  y' * st + 4 * x' + 4 ≤ y * st + 4 * x ∨ y * st + 4 * x + 4 ≤ y' * st + 4 * x'.
Proof.
  intros -> [Hx Hy] [Hx' Hy'] Hne. destruct (decide (y' = y)) as [->|Hy2].
  - assert (x' ≠ x) by tauto. lia.
  - destruct (decide (y' < y)); [left|right]; nia.
Qed.

Lemma raster_bound s d gc : 0 ≤ apply_raster_function s d gc < 256 ^ 4.
Proof.
  unfold apply_raster_function. set (v := Z.lor _ _). change COLOR_MASK with (Z.ones 24).
  rewrite Z.land_ones by lia. pose proof (Z.mod_pos_bound v (2 ^ 24)). lia.
Qed.

(** A change of one pixel changes no other. *)
Lemma paint_at_spec b x y p gc :
  buffer_ok b → in_size (bf_size b) x y →
  let b' := paint_at b (pixel_offset b x y) p gc in
  same_shape b b' ∧
  ∀ x' y', in_size (bf_size b) x' y' →
    pixel b' x' y' =
      if decide (x' = x ∧ y' = y) then (λ d, apply_raster_function p d gc) <$> pixel b x y else pixel b x' y'.
Proof.
  intros Hok Hin. destruct (pixel_range b x y Hok Hin) as [H1 H2]. pose proof (buffer_len_bound b Hok) as Hm.
  assert (X_AUTHORITY_SOFTWARE_BUFFER_MAX_BYTES < usize_MAX) by (vm_compute; reflexivity).
  rewrite pixel_offset_eq by done. unfold paint_at. set (o := y * bf_stride b + 4 * x) in *.
  assert (u_sat_add o 4 = o + 4) as -> by (unfold u_sat_add, saturating_add; lia).
  destruct (slice_range (bf_bytes b) o (o + 4)) as [target|] eqn:Ht; [|unfold slice_range in Ht; case_decide; [done|lia]].
  set (src := to_le_bytes 4 _). assert (Z.of_nat (length src) = 4) as Hsrc by (unfold src; by rewrite length_to_le_bytes).
  cbv zeta. split.
  { unfold same_shape; simpl. split_and!; try done. apply length_set_range; lia. }
  intros x' y' Hin'. unfold pixel at 1; simpl. destruct (pixel_range b x' y' Hok Hin') as [H1' H2'].
  destruct (get_set_range (bf_bytes b) o src (y' * bf_stride b + 4 * x') 4) as [Hsame Hdis]; try lia.
  case_decide as Hd.
  - destruct Hd as [-> ->]. rewrite Hsame by lia. unfold pixel. fold o. rewrite Ht.
    cbn [fmap option_fmap option_map]. f_equal. apply from_to_le_bytes, raster_bound.
  - rewrite Hdis; [done|]. rewrite Hsrc. unfold o. eapply pixels_disjoint; [apply Hok|done..].
Qed.

(** ** Loops over pixels *)

Section painting.
Context (f : XAuthorityCpuBufferSnapshot → Z → Z → XAuthorityCpuBufferSnapshot).
Context (g : Z → Z → option Z → option Z) (sz : Size).
(** [f] changes the pixel it is given, by [g]. *)
Context (Hf : ∀ b x y, buffer_ok b → bf_size b = sz → in_size sz x y →
  same_shape b (f b x y) ∧
  ∀ x' y', in_size sz x' y' →
    pixel (f b x y) x' y' = if decide (x' = x ∧ y' = y) then g x y (pixel b x y) else pixel b x' y').

Lemma paint_row b x0 y (n : nat) :
  buffer_ok b → bf_size b = sz → 0 ≤ x0 → x0 + Z.of_nat n ≤ sz_width sz → 0 ≤ y < sz_height sz →
  let b' := foldl (λ b x, f b x y) b (seqZ x0 (Z.of_nat n)) in
  same_shape b b' ∧
  ∀ x' y', in_size sz x' y' →
    pixel b' x' y' =
      if decide (x0 ≤ x' < x0 + Z.of_nat n ∧ y' = y) then g x' y' (pixel b x' y') else pixel b x' y'.
Proof.
  intros Hok Hsz Hx0 Hn Hy. induction n as [|n IH]; cbv zeta in *.
  { simpl. split; [done|]. intros x' y' _. rewrite decide_False by lia. done. }
  rewrite seqZ_S, foldl_app. simpl. destruct IH as [Hs Hp]; [lia|].
  set (b1 := foldl _ b (seqZ x0 (Z.of_nat n))) in *.
  pose proof (same_shape_ok _ _ Hs Hok) as Hok1.
  assert (bf_size b1 = sz) as Hsz1 by (destruct Hs as (_&_&->&_); done).
  destruct (Hf b1 (x0 + Z.of_nat n) y Hok1 Hsz1) as [Hs2 Hp2]; [split; lia|].
  split; [by eapply same_shape_trans|]. intros x' y' Hin. rewrite Hp2, !Hp by (done || (split; lia)).
  repeat case_decide; try lia; try done.
  - by replace x' with (x0 + Z.of_nat n) by lia; replace y' with y by lia.
Qed.

Lemma paint_rows b x0 x1 y0 (n : nat) :
  buffer_ok b → bf_size b = sz → 0 ≤ x0 ≤ x1 → x1 ≤ sz_width sz → 0 ≤ y0 → y0 + Z.of_nat n ≤ sz_height sz →
  let b' := foldl (λ b y, foldl (λ b x, f b x y) b (range x0 x1)) b (seqZ y0 (Z.of_nat n)) in
  same_shape b b' ∧
  ∀ x' y', in_size sz x' y' →
    pixel b' x' y' =
      if decide (x0 ≤ x' < x1 ∧ y0 ≤ y' < y0 + Z.of_nat n) then g x' y' (pixel b x' y') else pixel b x' y'.
Proof.
  intros Hok Hsz Hx Hx1 Hy0 Hn. induction n as [|n IH]; cbv zeta in *.
  { simpl. split; [done|]. intros x' y' _. rewrite decide_False by lia. done. }
  rewrite seqZ_S, foldl_app. simpl. destruct IH as [Hs Hp]; [lia|].
  set (b1 := foldl _ b (seqZ y0 (Z.of_nat n))) in *.
  pose proof (same_shape_ok _ _ Hs Hok) as Hok1.
  assert (bf_size b1 = sz) as Hsz1 by (destruct Hs as (_&_&->&_); done).
  destruct (paint_row b1 x0 (y0 + Z.of_nat n) (Z.to_nat (x1 - x0)) Hok1 Hsz1) as [Hs2 Hp2]; try lia.
  unfold range. rewrite Z2Nat.id in Hs2, Hp2 by lia.
  split; [by eapply same_shape_trans|]. intros x' y' Hin. rewrite Hp2, !Hp by done.
  repeat case_decide; try lia; done.
Qed.
End painting.

Definition bounds_in (bounds : Z * Z * Z * Z) (x y : Z) : Prop :=
  let '(x0, y0, x1, y1) := bounds in x0 ≤ x < x1 ∧ y0 ≤ y < y1.
#[export] Instance bounds_in_dec bounds x y : Decision (bounds_in bounds x y).
Proof. destruct bounds as [[[]]]; simpl; apply _. Defined.

Lemma clipped_bounds_ok sz rect bounds :
  clipped_bounds sz rect = Some bounds →
  let '(x0, y0, x1, y1) := bounds in 0 ≤ x0 < x1 ∧ x1 ≤ sz_width sz ∧ 0 ≤ y0 < y1 ∧ y1 ≤ sz_height sz.
Proof. unfold clipped_bounds. repeat case_decide; try done. intros [= <-]. lia. Qed.

Definition rect_i32 (r : Rect) : Prop := i32_ok (rx r) ∧ i32_ok (ry r) ∧ i32_ok (rwidth r) ∧ i32_ok (rheight r).
#[export] Instance rect_i32_dec r : Decision (rect_i32 r).
Proof. unfold rect_i32; apply _. Defined.

(** The clipped bounds are the rectangle's pixels inside the buffer. *)
Lemma clipped_bounds_in sz rect x y :
  size_ok sz → rect_i32 rect → in_size sz x y →
  (∃ bounds, clipped_bounds sz rect = Some bounds ∧ bounds_in bounds x y) ↔ in_rect x y rect.
Proof.
  intros (Hw & Hh & _) (Hx & Hy & Hrw & Hrh) [Hin1 Hin2].
  unfold clipped_bounds, in_rect, i32_saturating_add, i32_clamp, i32_ok, i32_MAX, i32_MIN in *. split.
  - intros (bounds & Hb & Hin). repeat case_decide; try done. simplify_eq/=. lia.
  - intros Hr. rewrite decide_False by lia. rewrite decide_False by lia. eexists. split; [done|]. simpl. lia.
Qed.

Lemma for_pixels_spec f g b bounds :
  (∀ b' x y, buffer_ok b' → bf_size b' = bf_size b → in_size (bf_size b) x y →
    same_shape b' (f b' x y) ∧
    ∀ x' y', in_size (bf_size b) x' y' →
      pixel (f b' x y) x' y' = if decide (x' = x ∧ y' = y) then g x y (pixel b' x y) else pixel b' x' y') →
  buffer_ok b →
  (let '(x0, y0, x1, y1) := bounds in 0 ≤ x0 < x1 ∧ x1 ≤ sz_width (bf_size b) ∧ 0 ≤ y0 < y1 ∧ y1 ≤ sz_height (bf_size b)) →
  same_shape b (for_pixels f bounds b) ∧
  ∀ x y, in_size (bf_size b) x y →
    pixel (for_pixels f bounds b) x y = if decide (bounds_in bounds x y) then g x y (pixel b x y) else pixel b x y.
Proof.
  intros Hf Hok Hb. destruct bounds as [[[x0 y0] x1] y1].
  destruct (paint_rows f g (bf_size b) Hf b x0 x1 y0 (Z.to_nat (y1 - y0)) Hok eq_refl) as [Hs Hp]; try lia.
  rewrite Z2Nat.id in Hs, Hp by lia. split; [exact Hs|]. intros x y Hin. simpl. fold (range y0 y1) in Hp.
  rewrite (Hp x y Hin). repeat case_decide; try lia; done.
Qed.

(** What a filled rectangle makes of a pixel. *)
Definition filled (rect : Rect) (p : Z) (gc : XGraphicsContextValues) (x y d : Z) : Z :=
  if decide (in_rect x y rect ∧ pixel_in_clip x y gc) then apply_raster_function p d gc else d.

Lemma fill_rect_pixels b rect p gc :
  buffer_ok b → rect_i32 rect →
  same_shape b (fill_rect b rect p gc) ∧
  ∀ x y, in_size (bf_size b) x y → pixel (fill_rect b rect p gc) x y = filled rect p gc x y <$> pixel b x y.
Proof.
  intros Hok Hr. unfold fill_rect, filled.
  destruct (clipped_bounds (bf_size b) rect) as [bounds|] eqn:Hb.
  - destruct (for_pixels_spec
      (λ b x y, if decide (pixel_in_clip x y gc) then paint_at b (pixel_offset b x y) p gc else b)
      (λ x y o, if decide (pixel_in_clip x y gc) then (λ d, apply_raster_function p d gc) <$> o else o) b bounds)
      as [Hs Hp]; [|done|exact (clipped_bounds_ok _ _ _ Hb)|].
    { intros b' x y Hok' Hsz Hin. rewrite <-Hsz in Hin. destruct (decide (pixel_in_clip x y gc)).
      - rewrite <-Hsz. by apply paint_at_spec.
      - split; [done|]. intros x' y' _. case_decide as Hd; [by destruct Hd as [-> ->]|done]. }
    split; [done|]. intros x y Hin. rewrite Hp by done.
    pose proof (clipped_bounds_in (bf_size b) rect x y (proj1 Hok) Hr Hin) as Hc. rewrite Hb in Hc.
    assert (bounds_in bounds x y ↔ in_rect x y rect) as Hi by (rewrite <-Hc; naive_solver).
    destruct (decide (bounds_in bounds x y)), (decide (pixel_in_clip x y gc)),
      (decide (in_rect x y rect ∧ pixel_in_clip x y gc)); try tauto; by destruct (pixel b x y).
  - split; [done|]. intros x y Hin. destruct (pixel b x y) as [d|]; [|done]. simpl. rewrite decide_False; [done|].
    intros [Hir _]. apply (clipped_bounds_in (bf_size b) rect x y (proj1 Hok) Hr Hin) in Hir as (? & ? & _). congruence.
Qed.
