(* ===== verification/XPainting.v ===== *)
(** * Painting: what the software buffers show
    ([sophia-x-authority/src/software.rs])

    The theorems about [XSoftware]: the pixels a drawing operation leaves in the store, the patches
    that carry a rectangle of a buffer, and the lines, which end. *)

From S2P Require Import Prelude Ids Geometry Packets XTables XSoftware.
Local Open Scope Z_scope.

(** ** Painting in the store *)

Lemma fill_rects_pixels b rects p gc :
  buffer_ok b → Forall rect_i32 rects →
  let b' := foldl (λ b rect, fill_rect b rect p gc) b rects in
  same_shape b b' ∧
  ∀ x y, in_size (bf_size b) x y → pixel b' x y = (λ d, foldl (λ d rect, filled rect p gc x y d) d rects) <$> pixel b x y.
Proof.
  intros Hok Hall. revert b Hok. induction Hall as [|rect rects Hr Hall IH]; intros b Hok; cbv zeta.
  { simpl. split; [done|]. intros x y _. by destruct (pixel b x y). }
  simpl. destruct (fill_rect_pixels b rect p gc Hok Hr) as [Hs Hp].
  destruct (IH _ (same_shape_ok _ _ Hs Hok)) as [Hs' Hp']. split; [by eapply same_shape_trans|].
  intros x y Hin. rewrite Hp', Hp; [by destruct (pixel b x y)|done|]. by destruct Hs as (_&_&->&_).
Qed.

Definition store_ok (s : XSoftwareBufferStore) : Prop :=
  ∀ d b, buffers s !! d = Some b → buffer_ok b ∧ bf_drawable b = d.
Lemma store_checked s :
  map_Forall (λ d b, buffer_ok b ∧ bf_drawable b = d) (buffers s) → store_ok s.
Proof. intros H d b Hb. exact (H d b Hb). Qed.
Definition blank (b : XAuthorityCpuBufferSnapshot) : Prop := bf_bytes b = replicate (length (bf_bytes b)) 0.
(** The buffer an operation starts from: the drawable's own of that size, or a blank one. *)
Definition base_of (s : XSoftwareBufferStore) (d : XResourceId) (size : Size) (b : XAuthorityCpuBufferSnapshot) : Prop :=
  buffers s !! d = Some b ∧ bf_size b = size ∨
  blank b ∧ (∀ b', buffers s !! d = Some b' → bf_size b' ≠ size).

Lemma ensure_ok s d size handle b replaced :
  store_ok s → ensure s d size handle = Some (b, replaced) →
  buffer_ok b ∧ bf_size b = size ∧ bf_drawable b = d ∧ base_of s d size b.
Proof.
  intros Hok. unfold ensure, usize_try_from, checked_mul.
  destruct (decide (0 ≤ sz_width size)) as [Hw|]; simpl; [|done].
  destruct (decide (0 ≤ sz_height size)) as [Hh|]; simpl; [|done].
  destruct (decide (sz_width size = 0 ∨ sz_height size = 0)) as [|Hz]; simpl; [done|].
  destruct (decide (sz_width size * 4 ≤ usize_MAX)) as [Hst|]; simpl; [|done].
  destruct (decide (sz_width size * 4 * sz_height size ≤ usize_MAX)) as [Hlen|]; simpl; [|done].
  destruct (decide (_ > X_AUTHORITY_SOFTWARE_BUFFER_MAX_BYTES)) as [|Hmax]; simpl; [done|].
  assert (∀ g, let b := mk_buffer handle d size (sz_width size * 4) X_AUTHORITY_CPU_BUFFER_FORMAT_XRGB8888 g
      (replicate (Z.to_nat (sz_width size * 4 * sz_height size)) 0) in buffer_ok b ∧ blank b) as Hnew.
  { intros g. unfold buffer_ok, blank, size_ok, i32_MAX, X_AUTHORITY_SOFTWARE_BUFFER_MAX_BYTES in *. simpl.
    rewrite length_replicate. split; [nia|done]. }
  destruct (buffers s !! d) as [b0|] eqn:Hb; [destruct (decide (bf_size b0 = size))|]; repeat case_decide; try done;
    intros [= <- <-].
  - destruct (Hok _ _ Hb). split_and!; try done. by left.
  - destruct (Hnew (bf_generation b0)). split_and!; try done. right. split; [done|]. naive_solver.
  - destruct (Hnew 0). split_and!; try done. right. split; [done|]. naive_solver.
Qed.

Lemma finish_ok b handle replaced damage u b' :
  finish_immutable_update b handle replaced damage = (u, b') →
  bf_bytes b' = bf_bytes b ∧ bf_size b' = bf_size b ∧ bf_stride b' = bf_stride b ∧ bf_drawable b' = bf_drawable b ∧
  match u with
  | Some (BufferReplace snap) => snap = b' ∧ bf_handle b' = handle ∧ bf_generation b' = bf_generation b + 1
  | Some (BufferPatch _) => False
  | None => b' = b
  end.
Proof.
  unfold finish_immutable_update, checked_add. destruct (if replaced then _ else _); [|by intros [= <- <-]].
  case_decide; by intros [= <- <-].
Qed.

(** The update is the whole new buffer, which the store keeps; no other drawable is touched. *)
Lemma painted_spec s d size paint damage u s' :
  store_ok s → (∀ b, buffer_ok b → bf_size b = size → same_shape b (paint b)) →
  painted s d size paint damage = (u, s') →
  store_ok s' ∧ (∀ d', d' ≠ d → buffers s' !! d' = buffers s !! d') ∧
  ∀ up, u = Some up →
    ∃ snap b, up = BufferReplace snap ∧ buffers s' !! d = Some snap ∧ buffer_ok snap ∧ bf_size snap = size ∧
      bf_handle snap = Z.max (next_handle s) 1 ∧ base_of s d size b ∧ buffer_ok b ∧ bf_size b = size ∧
      bf_bytes snap = bf_bytes (paint b) ∧ bf_stride snap = bf_stride b.
Proof.
  intros Hok Hpaint. unfold painted, allocate_handle. simpl.
  set (s1 := mk_store _ (buffers s)). assert (store_ok s1) as Hok1 by done.
  destruct (ensure s1 d size _) as [[b replaced]|] eqn:He; [|by intros [= <- <-]].
  destruct (ensure_ok _ _ _ _ _ _ Hok1 He) as (Hb & Hsz & Hd & Hbase).
  destruct (finish_immutable_update (paint b) _ replaced damage) as [u1 b1] eqn:Hf. intros [= <- <-].
  apply finish_ok in Hf as (E1 & E2 & E3 & E4 & Hu). pose proof (Hpaint b Hb Hsz) as Hsh.
  pose proof (same_shape_ok _ _ Hsh Hb) as Hb2. destruct Hsh as (_ & Hd2 & Hs2 & Hst2 & _ & _ & _).
  assert (buffer_ok b1) as Hb1 by (unfold buffer_ok in *; rewrite E1, E2, E3; done).
  split_and!.
  - intros d' b'. simpl. rewrite lookup_insert_Some. intros [[<- <-]|[_ ?]]; [split; [done|congruence]|by apply Hok].
  - intros d' Hne. simpl. by rewrite lookup_insert_ne.
  - intros up ->. destruct up as [snap|]; [|done]. destruct Hu as (-> & Hh & _). exists b1, b. simpl.
    rewrite lookup_insert_eq. split_and!; congruence || done.
Qed.

Definition old_pixel (s : XSoftwareBufferStore) (d : XResourceId) (size : Size) (x y : Z) : Z :=
  match buffers s !! d with
  | Some b => if decide (bf_size b = size) then default 0 (pixel b x y) else 0
  | None => 0
  end.
Lemma base_pixel s d size b x y :
  base_of s d size b → buffer_ok b → bf_size b = size → in_size size x y →
  pixel b x y = Some (old_pixel s d size x y).
Proof.
  intros Hbase Hb Hsz Hin. rewrite <-Hsz in Hin. unfold old_pixel. destruct Hbase as [[-> _]|[Hbl Hno]].
  - rewrite decide_True by done. destruct (pixel_some b x y Hb Hin) as [v ->]. done.
  - assert (match buffers s !! d with Some b => if decide (bf_size b = size) then default 0 (pixel b x y) else 0 | None => 0 end = 0) as ->.
    { destruct (buffers s !! d) as [b'|]; [|done]. rewrite decide_False; [done|]. by apply Hno. }
    destruct (pixel_range b x y Hb Hin). unfold pixel. rewrite slice_range_in by lia. rewrite Hbl.
    rewrite drop_replicate, take_replicate, Nat.min_l by lia. done.
Qed.

(** ** Damage painted exactly *)

(** C39: a drawing request paints exactly its damage: the update is a whole new buffer under a handle
    of its own, which the store now keeps for the drawable, and each of its pixels is the old one
    (or black, when the drawable had no buffer of that size) taken through the raster function
    once for every damage rectangle that covers it inside the clip; no buffer of another drawable
    changes. *)
Theorem paint_damage_exact s drawable size damage gc u s' :
  store_ok s → Forall rect_i32 damage →
  paint_damage s drawable size damage gc = (u, s') →
  store_ok s' ∧ (∀ d, d ≠ drawable → buffers s' !! d = buffers s !! d) ∧
  ∀ up, u = Some up →
    ∃ snap, up = BufferReplace snap ∧ buffers s' !! drawable = Some snap ∧ bf_size snap = size ∧
      bf_handle snap = Z.max (next_handle s) 1 ∧
      ∀ x y, in_size size x y →
        pixel snap x y =
          Some (foldl (λ d rect, filled rect (gc_foreground gc) gc x y d) (old_pixel s drawable size x y) damage).
Proof.
  intros Hok Hd Hp. eapply painted_spec in Hp as (Hok' & Hother & Hup); [|done|].
  2: { intros b Hb _. by apply fill_rects_pixels. }
  split; [done|]. split; [done|]. intros up ->. destruct (Hup up eq_refl)
    as (snap & b & -> & Hsnap & Hsok & Hsz & Hh & Hbase & Hb & Hbsz & Hbytes & Hst).
  exists snap. split_and!; try done. intros x y Hin.
  assert (pixel snap x y = pixel (foldl (λ b rect, fill_rect b rect (gc_foreground gc) gc) b damage) x y) as ->.
  { destruct (fill_rects_pixels b damage (gc_foreground gc) gc Hb Hd) as [(_ & _ & _ & Hst' & _) _].
    unfold pixel. by rewrite Hbytes, Hst, Hst'. }
  destruct (fill_rects_pixels b damage (gc_foreground gc) gc Hb Hd) as [_ ->]; [|by rewrite Hbsz].
  by rewrite (base_pixel s drawable size b) by done.
Qed.

Lemma paint_damage_exact_witness :
  let d := x_resource_id 7 1 in
  let size := mk_size 3 2 in
  let gc := mk_gc_values 6 u32_MAX 255 0 1 0 None 1 0 [mk_rect 0 0 1 2] in
  let damage := [mk_rect (-1) 0 9 1; mk_rect 1 0 1 2] in
  let s := (paint_damage store_new d size [mk_rect 0 0 3 1] gc_default).2 in
  let '(u, s') := paint_damage s d size damage gc in
  (∃ up, u = Some up) ∧
  store_ok s' ∧ (∀ d', d' ≠ d → buffers s' !! d' = buffers s !! d') ∧
  ∀ up, u = Some up →
    ∃ snap, up = BufferReplace snap ∧ buffers s' !! d = Some snap ∧ bf_size snap = size ∧
      bf_handle snap = Z.max (next_handle s) 1 ∧
      ∀ x y, in_size size x y →
        pixel snap x y = Some (foldl (λ v rect, filled rect (gc_foreground gc) gc x y v) (old_pixel s d size x y) damage).
Proof.
  intros d size gc damage s. destruct (paint_damage s d size damage gc) as [u s'] eqn:E. split.
  { assert ((paint_damage s d size damage gc).1 = u) as <- by (rewrite E; reflexivity). vm_compute. eexists. reflexivity. }
  apply (paint_damage_exact s d size damage gc u s').
  - intros d' b'. subst s. vm_compute in E. intros Hb'.
    assert (store_ok (paint_damage store_new d size [mk_rect 0 0 3 1] gc_default).2) as Hs.
    { apply store_checked. apply (bool_decide_unpack _); vm_compute; exact I. }
    exact (Hs d' b' Hb').
  - apply (bool_decide_unpack _); vm_compute; exact I.
  - exact E.
Defined.

(** ** Patches *)

(** The bytes of a row of a rectangle, and the indices they have. *)
Definition row_bytes_of (b : XAuthorityCpuBufferSnapshot) (x0 x1 y : Z) : list Z :=
  take (Z.to_nat (4 * (x1 - x0))) (drop (Z.to_nat (y * bf_stride b + 4 * x0)) (bf_bytes b)).
Definition in_row (st x0 x1 y i : Z) : Prop := y * st + 4 * x0 ≤ i < y * st + 4 * x1.

Lemma in_row_div st x0 x1 y i :
  0 ≤ x0 → 4 * x1 ≤ st → 0 < st → in_row st x0 x1 y i ↔ i / st = y ∧ 4 * x0 ≤ i mod st < 4 * x1.
Proof.
  intros Hx0 Hx1 Hst. unfold in_row. pose proof (Z.div_mod i st ltac:(lia)) as Hi.
  pose proof (Z.mod_pos_bound i st Hst) as Hm. set (q := i / st) in *. set (r := i mod st) in *. clearbody q r. split.
  - intros Hr. assert (q = y) as -> by nia. split; [done|nia].
  - intros [-> Hr]. nia.
Qed.

Lemma take_drop_concat {A} (ls : list (list A)) (n k : nat) :
  Forall (λ l, length l = n) ls → (k < length ls)%nat →
  Some (take n (drop (k * n) (concat ls))) = ls !! k.
Proof.
  intros Hall. revert k. induction Hall as [|l ls Hl Hall IH]; intros k Hk; simpl in *; [lia|]. destruct k as [|k]; simpl.
  - rewrite drop_0. by rewrite take_app_length' by done.
  - rewrite <-Hl, <-drop_drop, drop_app_length. rewrite Hl. apply IH. lia.
Qed.

Lemma length_concat_rows {A} (ls : list (list A)) (n : nat) :
  Forall (λ l, length l = n) ls → length (concat ls) = (length ls * n)%nat.
Proof. induction 1 as [|l ls Hl _ IH]; simpl; [done|]. rewrite length_app. lia. Qed.

Section patch.
Context (b : XAuthorityCpuBufferSnapshot) (x0 y0 x1 y1 : Z).
Context (Hok : buffer_ok b).
Context (Hb : 0 ≤ x0 < x1 ∧ x1 ≤ sz_width (bf_size b) ∧ 0 ≤ y0 < y1 ∧ y1 ≤ sz_height (bf_size b)).

Lemma row_in_buffer y : y0 ≤ y < y1 →
  0 ≤ y * bf_stride b + 4 * x0 ∧ y * bf_stride b + 4 * x1 ≤ Z.of_nat (length (bf_bytes b)).
Proof. intros Hy. destruct Hok as (Hs & Hst & Hlen). rewrite Hlen, Hst. unfold size_ok in Hs. nia. Qed.
Lemma max_bytes_usize : X_AUTHORITY_SOFTWARE_BUFFER_MAX_BYTES < usize_MAX.
Proof. vm_compute. reflexivity. Qed.

Lemma length_row y : y0 ≤ y < y1 → length (row_bytes_of b x0 x1 y) = Z.to_nat (4 * (x1 - x0)).
Proof. intros Hy. destruct (row_in_buffer y Hy). unfold row_bytes_of. rewrite length_take, length_drop. lia. Qed.
Lemma lookup_row y (j : nat) : y0 ≤ y < y1 → (j < Z.to_nat (4 * (x1 - x0)))%nat →
  row_bytes_of b x0 x1 y !! j = bf_bytes b !! (Z.to_nat (y * bf_stride b + 4 * x0) + j)%nat.
Proof. intros Hy Hj. unfold row_bytes_of. by rewrite lookup_take_lt, lookup_drop by lia. Qed.

Lemma packed_rows_eq (n : nat) :
  y0 + Z.of_nat n ≤ y1 →
  packed_rows b x0 (4 * (x1 - x0)) (seqZ y0 (Z.of_nat n)) =
    Some (concat (row_bytes_of b x0 x1 <$> seqZ y0 (Z.of_nat n))).
Proof.
  intros Hn. pose proof max_bytes_usize. pose proof (buffer_len_bound b Hok) as Hm.
  unfold packed_rows. induction n as [|n IH]; [done|].
  rewrite seqZ_S, foldl_app, IH by lia. cbn [foldl mbind option_bind].
  destruct (row_in_buffer (y0 + Z.of_nat n)) as [H1 H2]; [lia|]. set (y := y0 + Z.of_nat n) in *.
  assert (0 ≤ y * bf_stride b) by (destruct Hok as ((Hs1 & _) & Hst & _); rewrite Hst; nia).
  unfold checked_mul, checked_add. rewrite (decide_True (P := y * bf_stride b ≤ _)) by lia. cbn [mbind option_bind].
  rewrite (decide_True (P := x0 * 4 ≤ _)) by lia. cbn [mbind option_bind].
  rewrite (decide_True (P := y * bf_stride b + _ ≤ _)) by lia. cbn [mbind option_bind].
  rewrite (decide_True (P := _ ≤ usize_MAX)) by lia. cbn [mbind option_bind].
  rewrite slice_range_in by lia. cbn [mbind option_bind]. rewrite fmap_app, concat_app. simpl. rewrite app_nil_r.
  unfold row_bytes_of. by rewrite (Z.mul_comm x0).
Qed.

(** The bytes of the patch for the [n]-th row. *)
Lemma patch_source patch (n : nat) :
  ph_bytes patch = concat (row_bytes_of b x0 x1 <$> seqZ y0 (y1 - y0)) → y0 + Z.of_nat n < y1 →
  let o := u_sat_mul (y0 + Z.of_nat n - y0) (4 * (x1 - x0)) in
  slice_range (ph_bytes patch) o (u_sat_add o (4 * (x1 - x0))) = Some (row_bytes_of b x0 x1 (y0 + Z.of_nat n)).
Proof.
  intros Hp Hn. pose proof max_bytes_usize. pose proof (buffer_len_bound b Hok) as Hm.
  assert (Forall (λ l, length l = Z.to_nat (4 * (x1 - x0))) (row_bytes_of b x0 x1 <$> seqZ y0 (y1 - y0))) as Hrows.
  { apply Forall_fmap, Forall_forall. intros z Hz. apply elem_of_seqZ in Hz. simpl. apply length_row. lia. }
  pose proof (length_concat_rows _ _ Hrows) as Hl. rewrite length_fmap, length_seqZ in Hl.
  destruct (row_in_buffer (y0 + Z.of_nat n)) as [H1 H2]; [lia|].
  assert (Z.of_nat n * (4 * (x1 - x0)) + 4 * (x1 - x0) ≤ Z.of_nat (length (bf_bytes b))) as Hle.
  { destruct Hok as ((Hs1 & _) & Hst & _). rewrite Hst in H2. nia. }
  cbv zeta. unfold u_sat_mul, u_sat_add, saturating_mul, saturating_add.
  replace (y0 + Z.of_nat n - y0) with (Z.of_nat n) by lia. rewrite !Z.min_l by nia.
  rewrite slice_range_in; [|nia|lia|rewrite Hp, Hl; nia].
  rewrite Hp. replace (Z.to_nat (Z.of_nat n * (4 * (x1 - x0)))) with (n * Z.to_nat (4 * (x1 - x0)))%nat by nia.
  rewrite (take_drop_concat _ _ _ Hrows) by (rewrite length_fmap, length_seqZ; lia).
  rewrite list_lookup_fmap, lookup_seqZ_lt by lia. done.
Qed.

Lemma patch_rows patch bytes (n : nat) :
  ph_bytes patch = concat (row_bytes_of b x0 x1 <$> seqZ y0 (y1 - y0)) →
  length bytes = length (bf_bytes b) → y0 + Z.of_nat n ≤ y1 →
  ∃ bytes', foldl (patch_row patch x0 y0 (4 * (x1 - x0)) (bf_stride b)) (Ok (), bytes) (seqZ y0 (Z.of_nat n)) =
      (Ok (), bytes') ∧
    length bytes' = length bytes ∧
    ∀ i : nat, bytes' !! i =
      if decide (y0 ≤ Z.of_nat i / bf_stride b < y0 + Z.of_nat n ∧
                 4 * x0 ≤ Z.of_nat i mod bf_stride b < 4 * x1) then bf_bytes b !! i else bytes !! i.
Proof.
  intros Hp Hlen Hn. pose proof max_bytes_usize. pose proof (buffer_len_bound b Hok) as Hm.
  assert (0 < bf_stride b ∧ 4 * x1 ≤ bf_stride b) as [Hst0 Hst1] by (destruct Hok as ((Hs1 & _) & -> & _); lia).
  induction n as [|n IH].
  { exists bytes. split; [done|]. split; [done|]. intros i. rewrite decide_False by lia. done. }
  destruct IH as (bytes1 & Hf & Hl1 & Hi1); [lia|]. rewrite seqZ_S, foldl_app, Hf. cbn [foldl].
  unfold patch_row. cbn [fst snd]. cbv zeta. rewrite patch_source by (done || lia).
  destruct (row_in_buffer (y0 + Z.of_nat n)) as [H1 H2]; [lia|]. set (y := y0 + Z.of_nat n) in *.
  assert (0 ≤ y * bf_stride b) by nia.
  assert (u_sat_add (u_sat_mul y (bf_stride b)) (u_sat_mul x0 4) = y * bf_stride b + 4 * x0) as ->.
  { unfold u_sat_add, u_sat_mul, saturating_add, saturating_mul. lia. }
  assert (u_sat_add (y * bf_stride b + 4 * x0) (4 * (x1 - x0)) = y * bf_stride b + 4 * x0 + 4 * (x1 - x0)) as ->.
  { unfold u_sat_add, saturating_add. lia. }
  rewrite slice_range_in by lia.
  assert (Z.of_nat (length (row_bytes_of b x0 x1 y)) = 4 * (x1 - x0)) as Hrl by (rewrite length_row by lia; lia).
  eexists. split; [done|]. split; [rewrite length_set_range; lia|].
  intros i. rewrite lookup_set_range, Hi1 by lia. rewrite Hrl.
  pose proof (in_row_div (bf_stride b) x0 x1 y (Z.of_nat i) ltac:(lia) ltac:(lia) ltac:(lia)) as Hrow.
  unfold in_row in Hrow. destruct (decide (y * bf_stride b + 4 * x0 ≤ Z.of_nat i < y * bf_stride b + 4 * x0 + 4 * (x1 - x0))) as [Hd|Hd].
  - rewrite lookup_row by lia. destruct Hrow as [[Hq Hr] _]; [lia|]. rewrite decide_True by lia. f_equal. lia.
  - assert (¬ (Z.of_nat i / bf_stride b = y ∧ 4 * x0 ≤ Z.of_nat i mod bf_stride b < 4 * x1)) by (rewrite <-Hrow; lia).
    destruct (decide (_ ∧ _)) as [Hd1|Hd1]; [rewrite decide_True by lia; done|].
    rewrite decide_False; [done|]. lia.
Qed.
End patch.

(** The bytes of a pixel. *)
Definition pixel_quad (b : XAuthorityCpuBufferSnapshot) (x y : Z) : option (list Z) :=
  slice_range (bf_bytes b) (y * bf_stride b + 4 * x) (y * bf_stride b + 4 * x + 4).

Lemma byte_in_size b (i : nat) :
  buffer_ok b → (i < length (bf_bytes b))%nat →
  in_size (bf_size b) (Z.of_nat i mod bf_stride b / 4) (Z.of_nat i / bf_stride b).
Proof.
  intros ((Hs & _) & Hst & Hlen) Hi. assert (0 < bf_stride b) by lia.
  pose proof (Z.mod_pos_bound (Z.of_nat i) (bf_stride b) ltac:(lia)) as Hm. unfold in_size. split_and!.
  - apply Z.div_pos; lia.
  - apply Z.div_lt_upper_bound; lia.
  - apply Z.div_pos; lia.
  - apply Z.div_lt_upper_bound; lia.
Qed.
Lemma quad_byte b b' (i : nat) :
  buffer_ok b → same_shape b b' → (i < length (bf_bytes b))%nat →
  pixel_quad b' (Z.of_nat i mod bf_stride b / 4) (Z.of_nat i / bf_stride b) =
    pixel_quad b (Z.of_nat i mod bf_stride b / 4) (Z.of_nat i / bf_stride b) →
  bf_bytes b' !! i = bf_bytes b !! i.
Proof.
  intros Hok (_ & _ & _ & Hst' & _ & _ & Hl) Hi. pose proof (byte_in_size b i Hok Hi) as Hin. unfold pixel_quad. rewrite Hst'.
  destruct Hok as ((Hs & _) & Hst & Hlen). set (st := bf_stride b) in *. clearbody st.
  assert (0 < st) by lia. pose proof (Z.div_mod (Z.of_nat i) st ltac:(lia)) as Hdm.
  pose proof (Z.mod_pos_bound (Z.of_nat i) st ltac:(lia)) as Hm.
  destruct Hin as [_ Hin].
  set (q := Z.of_nat i / st) in *. set (r := Z.of_nat i mod st) in *.
  pose proof (Z.div_mod r 4 ltac:(lia)) as Hdm4. pose proof (Z.mod_pos_bound r 4 ltac:(lia)) as Hm4.
  set (c := r / 4) in *. set (k := r mod 4) in *. clearbody q r c k.
  assert (4 * c + 4 ≤ st) by lia.
  rewrite !slice_range_in by nia. intros [= He].
  apply (f_equal (.!! Z.to_nat k)) in He. rewrite !lookup_take_lt, !lookup_drop in He by lia.
  replace (Z.to_nat (q * st + 4 * c) + Z.to_nat k)%nat with i in He by nia. done.
Qed.

Lemma packed_patch_eq b rect p x0 y0 x1 y1 :
  buffer_ok b → clipped_bounds (bf_size b) rect = Some (x0, y0, x1, y1) → packed_patch b rect = Some p →
  p = mk_patch (bf_handle b) (bf_drawable b) (bf_size b) (bf_stride b) (bf_format b) (bf_generation b)
        (mk_rect x0 y0 (x1 - x0) (y1 - y0)) (concat (row_bytes_of b x0 x1 <$> seqZ y0 (y1 - y0))).
Proof.
  intros Hok Hb. pose proof (clipped_bounds_ok _ _ _ Hb) as Hb'. cbn in Hb'. unfold packed_patch. rewrite Hb. simpl.
  unfold saturating_sub. rewrite !Z.max_l by lia. unfold checked_mul.
  case_decide; simpl; [|done]. case_decide; simpl; [|done].
  unfold range. replace (y1 - y0) with (Z.of_nat (Z.to_nat (y1 - y0))) by lia.
  rewrite (Z.mul_comm (x1 - x0)), (packed_rows_eq b x0 y0 x1 y1) by (done || lia). simpl.
  destruct Hok as ((Hs1 & Hs2 & _) & _). unfold i32_try_from.
  do 4 (rewrite (decide_True (P := _ ≤ i32_MAX)) by lia; simpl). intros Hp. by simplify_eq.
Qed.

(** A patch carries its rectangle exactly: applied to any copy of the buffer that is not newer
    and may differ inside the rectangle only, the patch of a rectangle makes the copy equal to the
    buffer, byte for byte and in its generation. *)
Theorem patch_reproduces_buffer b b0 rect p (copies : gmap Z XAuthorityCpuBufferSnapshot) :
  buffer_ok b → rect_i32 rect → packed_patch b rect = Some p →
  copies !! bf_handle b = Some b0 →
  bf_handle b0 = bf_handle b ∧ bf_drawable b0 = bf_drawable b ∧ bf_size b0 = bf_size b ∧
    bf_stride b0 = bf_stride b ∧ bf_format b0 = bf_format b ∧ length (bf_bytes b0) = length (bf_bytes b) →
  bf_generation b0 ≤ bf_generation b →
  (∀ x y, in_size (bf_size b) x y → ¬ in_rect x y rect → pixel_quad b0 x y = pixel_quad b x y) →
  apply_to (BufferPatch p) copies = (Ok (), <[bf_handle b := b]> copies).
Proof.
  intros Hok Hr Hp Hb0 (E1 & E2 & E3 & E4 & E5 & E6) Hg Hout.
  destruct (clipped_bounds (bf_size b) rect) as [[[[x0 y0] x1] y1]|] eqn:Hb; [|unfold packed_patch in Hp; by rewrite Hb in Hp].
  pose proof (clipped_bounds_ok _ _ _ Hb) as Hbo. cbn in Hbo. rewrite (packed_patch_eq _ _ _ _ _ _ _ Hok Hb Hp).
  unfold apply_to. cbn [ph_handle]. rewrite Hb0. rewrite decide_False by (simpl; naive_solver lia).
  unfold apply_packed_patch. cbn [ph_rect ph_bytes rx ry rwidth rheight]. rewrite E3.
  assert (size_ok (bf_size b)) as Hsz by apply Hok. unfold size_ok, i32_MAX in Hsz.
  assert (clipped_bounds (bf_size b) (mk_rect x0 y0 (x1 - x0) (y1 - y0)) = Some (x0, y0, x1, y1)) as ->.
  { unfold clipped_bounds, i32_saturating_add, i32_clamp, i32_MAX, i32_MIN. simpl.
    rewrite decide_False by lia. rewrite decide_False by lia. do 2 f_equal; [do 2 f_equal|]; lia. }
  unfold saturating_sub, i32_or_max, i32_MAX. rewrite !Z.max_l by lia. rewrite !(decide_True (P := _ ≤ _)) by lia.
  rewrite (decide_False (P := _ ∨ _)) by tauto.
  set (patch := mk_patch _ _ _ _ _ _ _ _).
  assert (Z.of_nat (length (ph_bytes patch)) = (x1 - x0) * 4 * (y1 - y0)) as Hpl.
  { unfold patch. cbn [ph_bytes]. rewrite (length_concat_rows _ (Z.to_nat (4 * (x1 - x0)))), length_fmap, length_seqZ; [lia|].
    apply Forall_fmap, Forall_forall. intros z Hz. apply elem_of_seqZ in Hz. simpl. apply (length_row b x0 y0 x1 y1); (done || lia). }
  assert ((x1 - x0) * 4 * (y1 - y0) ≤ usize_MAX ∧ (x1 - x0) * 4 ≤ usize_MAX) as [Hu1 Hu2].
  { pose proof max_bytes_usize. assert ((x1 - x0) * 4 * (y1 - y0) ≤ 4 * sz_width (bf_size b) * sz_height (bf_size b)) by nia. nia. }
  unfold u_sat_mul, saturating_mul. rewrite (Z.min_l ((x1 - x0) * 4)) by lia. rewrite Z.min_l by lia.
  rewrite decide_False; [|intros Hne; exact (Hne Hpl)]. unfold range. rewrite E4, (Z.mul_comm (x1 - x0) 4).
  destruct (patch_rows b x0 y0 x1 y1 Hok Hbo patch (bf_bytes b0) (Z.to_nat (y1 - y0)) eq_refl E6) as (bytes & Hf & Hlen & Hi); [lia|].
  rewrite Z2Nat.id in Hf, Hi by lia. rewrite Hf. do 2 f_equal.
  unfold with_buffer_generation, with_bytes. simpl. rewrite E1, E2, E3, E4, E5.
  assert (bytes = bf_bytes b) as ->; [|by destruct b]. apply list_eq. intros i. rewrite Hi. case_decide as Hd; [done|].
  destruct (decide (i < length (bf_bytes b))%nat) as [Hil|]; [|by rewrite !lookup_ge_None_2 by lia].
  apply (quad_byte b (mk_buffer (bf_handle b) (bf_drawable b) (bf_size b) (bf_stride b) (bf_format b) (bf_generation b) (bf_bytes b0)));
    [done|by unfold same_shape|done|].
  transitivity (pixel_quad b0 (Z.of_nat i mod bf_stride b / 4) (Z.of_nat i / bf_stride b)).
  { unfold pixel_quad. cbn [bf_bytes bf_stride]. by rewrite E4. }
  assert (in_size (bf_size b) (Z.of_nat i mod bf_stride b / 4) (Z.of_nat i / bf_stride b)) as Hin by by apply byte_in_size.
  apply Hout; [done|]. intros Hir. apply Hd.
  apply (clipped_bounds_in (bf_size b) rect _ _ (proj1 Hok) Hr Hin) in Hir as (bounds & Hb2 & Hin2).
  rewrite Hb in Hb2. simplify_eq. simpl in Hin2. Z.div_mod_to_equations. lia.
Qed.

Definition example_buffer (bytes : list Z) : XAuthorityCpuBufferSnapshot :=
  mk_buffer 5 (x_resource_id 7 1) (mk_size 2 2) 8 X_AUTHORITY_CPU_BUFFER_FORMAT_XRGB8888 3 bytes.
Lemma patch_reproduces_buffer_witness :
  let b := example_buffer [1; 2; 3; 4; 5; 6; 7; 8; 9; 10; 11; 12; 13; 14; 15; 16] in
  let b0 := example_buffer [1; 2; 3; 4; 0; 0; 0; 0; 9; 10; 11; 12; 0; 0; 0; 0] in
  let rect := mk_rect 1 (-4) 9 9 in
  let copies : gmap Z XAuthorityCpuBufferSnapshot := {[5 := b0]} in
  let p := mk_patch 5 (x_resource_id 7 1) (mk_size 2 2) 8 X_AUTHORITY_CPU_BUFFER_FORMAT_XRGB8888 3
             (mk_rect 1 0 1 2) [5; 6; 7; 8; 13; 14; 15; 16] in
  packed_patch b rect = Some p ∧ apply_to (BufferPatch p) copies = (Ok (), <[5 := b]> copies).
Proof.
  intros b b0 rect copies p. assert (packed_patch b rect = Some p) as Hp by (vm_compute; reflexivity).
  split; [exact Hp|]. apply (patch_reproduces_buffer b b0 rect p copies).
  - apply (bool_decide_unpack _); vm_compute; exact I.
  - apply (bool_decide_unpack _); vm_compute; exact I.
  - exact Hp.
  - vm_compute; reflexivity.
  - split_and!; vm_compute; reflexivity.
  - vm_compute; discriminate.
  - intros x y [Hx Hy] Hr. unfold in_rect in Hr. simpl in Hx, Hy, Hr. assert (x = 0) as -> by lia.
    assert (y = 0 ∨ y = 1) as [-> | ->] by lia; vm_compute; reflexivity.
Defined.

(** ** Lines *)

Section line.
Context (width : Z) (gc : XGraphicsContextValues) (fx fy DX DY sx sy : Z).
Context (HDX : 0 ≤ DX ≤ 65535) (HDY : 0 ≤ DY ≤ 65535).
Context (Hsx : sx = 1 ∨ sx = -1) (Hsy : sy = 1 ∨ sy = -1).

(** The buffer after squares along a path. *)
Definition along (b : XAuthorityCpuBufferSnapshot) (path : list (Z * Z)) : XAuthorityCpuBufferSnapshot :=
  foldl (λ b p, fill_rect b (line_square width p.1 p.2) (gc_foreground gc) gc) b path.
(** The point after [i] steps in x and [j] in y. *)
Definition line_point (i j : Z) : Z * Z := (fx + sx * i, fy + sy * j).
Definition neighbours (p q : Z * Z) : Prop := Z.abs (q.1 - p.1) ≤ 1 ∧ Z.abs (q.2 - p.2) ≤ 1 ∧ p ≠ q.

Lemma line_point_end i j :
  (fx + sx * i = fx + sx * DX ∧ fy + sy * j = fy + sy * DY) ↔ i = DX ∧ j = DY.
Proof using Hsx Hsy. destruct Hsx as [-> | ->], Hsy as [-> | ->]; lia. Qed.

(** The error after [i] and [j] steps, and where it stays. *)
Definition line_error (i j : Z) : Z := (j + 1) * DX - (i + 1) * DY.
Definition line_inv (i j : Z) : Prop :=
  0 ≤ i ≤ DX ∧ 0 ≤ j ≤ DY ∧ -3 * DY ≤ 2 * line_error i j ≤ 3 * DX.

(** One step: neither coordinate passes its target, and one of them moves. *)
Lemma line_step_inv i j :
  line_inv i j → ¬ (i = DX ∧ j = DY) →
  let i' := if decide (2 * line_error i j >= - DY) then i + 1 else i in
  let j' := if decide (2 * line_error i j <= DX) then j + 1 else j in
  line_inv i' j' ∧ 1 ≤ (i' - i) + (j' - j) ∧ i ≤ i' ≤ i + 1 ∧ j ≤ j' ≤ j + 1.
Proof using HDX HDY.
  intros (Hi & Hj & He) Hne. unfold line_inv.
  assert (2 * line_error i j >= - DY → i < DX) as Hx.
  { intros H. destruct (decide (i = DX)) as [->|]; [|lia]. assert (j < DY) by lia. unfold line_error in H. nia. }
  assert (2 * line_error i j ≤ DX → j < DY) as Hy.
  { intros H. destruct (decide (j = DY)) as [->|]; [|lia]. assert (i < DX) by lia. unfold line_error in H. nia. }
  assert (∀ a b, line_error (i + a) (j + b) = line_error i j + b * DX - a * DY) as Hl by (intros; unfold line_error; lia).
  set (e := line_error i j) in *. cbv zeta.
  destruct (decide (2 * e >= - DY)), (decide (2 * e ≤ DX)).
  - rewrite (Hl 1 1). lia.
  - pose proof (Hl 1 0) as Hl'. rewrite Z.add_0_r in Hl'. rewrite Hl'. lia.
  - pose proof (Hl 0 1) as Hl'. rewrite Z.add_0_r in Hl'. rewrite Hl'. lia.
  - lia.
Qed.

Lemma line_loop_path (fuel : nat) b i j :
  line_inv i j → (DX - i) + (DY - j) < Z.of_nat fuel →
  ∃ path,
    line_loop width gc (fx + sx * DX) (fy + sy * DY) DX (- DY) sx sy fuel b (fx + sx * i) (fy + sy * j) (line_error i j) =
      Some (along b (line_point i j :: path)) ∧
    last (line_point i j :: path) = Some (line_point DX DY) ∧
    (∀ k p q, (line_point i j :: path) !! k = Some p → path !! k = Some q → neighbours p q) ∧
    Forall (λ p, ∃ i' j', 0 ≤ i' ≤ DX ∧ 0 ≤ j' ≤ DY ∧ p = line_point i' j') (line_point i j :: path) ∧
    Z.of_nat (length path) ≤ (DX - i) + (DY - j).
Proof.
  revert b i j. induction fuel as [|fuel IH]; intros b i j Hinv Hfuel; [destruct Hinv; lia|].
  pose proof Hinv as (Hi & Hj & He). simpl. destruct (decide _) as [Hend|Hend].
  - apply line_point_end in Hend as [-> ->]. exists []. split_and!; try done.
    + constructor; [|constructor]. exists DX, DY. split_and!; lia || done.
    + simpl. lia.
  - rewrite line_point_end in Hend.
    assert (i32_saturating_mul (line_error i j) 2 = 2 * line_error i j) as ->.
    { unfold i32_saturating_mul, i32_clamp, i32_MAX, i32_MIN. lia. }
    pose proof (line_step_inv i j Hinv Hend) as Hstep. cbv zeta in Hstep.
    set (i' := if decide (2 * line_error i j >= - DY) then i + 1 else i) in *.
    set (j' := if decide (2 * line_error i j <= DX) then j + 1 else j) in *.
    destruct Hstep as (Hinv' & Hprog & Hi' & Hj').
    destruct (IH (fill_rect b (line_square width (fx + sx * i) (fy + sy * j)) (gc_foreground gc) gc) i' j' Hinv') as
      (path & Hl & Hlast & Hadj & Hall & Hlen); [lia|].
    exists (line_point i' j' :: path). split_and!.
    + rewrite <-Hl. unfold i', j'. clear. unfold line_error. repeat case_decide; f_equal; lia.
    + done.
    + intros [|k] p q; simpl; [|by apply Hadj]. intros [= <-] [= <-]. unfold neighbours, line_point. simpl.
      split_and!; [destruct Hsx as [-> | ->]; lia|destruct Hsy as [-> | ->]; lia|]. intros [= H1 H2].
      destruct Hsx as [-> | ->], Hsy as [-> | ->]; lia.
    + constructor; [|done]. exists i, j. split_and!; lia || done.
    + simpl. lia.
Qed.
End line.

Definition i16_ok (z : Z) : Prop := -32768 ≤ z ≤ 32767.
Definition between (a b z : Z) : Prop := Z.min a b ≤ z ≤ Z.max a b.

(** Drawing a line ends: from any point to any other the loop stops within its fuel, and what it
    painted is the squares of the line's width along an unbroken path that starts at the one point
    and ends at the other, moves to a neighbouring pixel in every step, never leaves the box
    between the two points, and has at most one point per unit of their distance in x and y, plus
    one. *)
Theorem draw_line_ends b (from to : XPoint) width gc :
  i16_ok (xp_x from) → i16_ok (xp_y from) → i16_ok (xp_x to) → i16_ok (xp_y to) →
  ∃ path,
    draw_line b from to width gc = Some (along width gc b path) ∧
    head path = Some (xp_x from, xp_y from) ∧ last path = Some (xp_x to, xp_y to) ∧
    (∀ k p q, path !! k = Some p → path !! S k = Some q → neighbours p q) ∧
    Forall (λ p, between (xp_x from) (xp_x to) p.1 ∧ between (xp_y from) (xp_y to) p.2) path ∧
    Z.of_nat (length path) ≤ Z.abs (xp_x to - xp_x from) + Z.abs (xp_y to - xp_y from) + 1.
Proof.
  destruct from as [x0 y0], to as [x1 y1]. unfold i16_ok. simpl. intros Hx0 Hy0 Hx1 Hy1.
  unfold draw_line, line_fuel. simpl. set (DX := Z.abs (x1 - x0)). set (DY := Z.abs (y1 - y0)).
  set (sx := if decide (x0 < x1) then 1 else -1). set (sy := if decide (y0 < y1) then 1 else -1).
  assert (sx = 1 ∨ sx = -1) as Hsx by (unfold sx; case_decide; auto).
  assert (sy = 1 ∨ sy = -1) as Hsy by (unfold sy; case_decide; auto).
  assert (x0 + sx * DX = x1) as Ex by (unfold sx, DX; case_decide; lia).
  assert (y0 + sy * DY = y1) as Ey by (unfold sy, DY; case_decide; lia).
  destruct (line_loop_path width gc x0 y0 DX DY sx sy ltac:(lia) ltac:(lia) Hsx Hsy (S (Z.to_nat (DX + DY))) b 0 0)
    as (path & Hl & Hlast & Hadj & Hall & Hlen); [unfold line_inv, line_error; lia|lia|].
  exists (line_point x0 y0 sx sy 0 0 :: path).
  assert (line_error DX DY 0 0 = DX + - DY) as He by (unfold line_error; lia).
  rewrite Ex, Ey, He, !Z.mul_0_r, !Z.add_0_r in Hl. split; [exact Hl|].
  split; [simpl; unfold line_point; by rewrite !Z.mul_0_r, !Z.add_0_r|].
  split; [rewrite Hlast; unfold line_point; by rewrite Ex, Ey|]. split; [done|]. split; [|simpl; lia].
  eapply Forall_impl; [exact Hall|]. intros p (i & j & Hi & Hj & ->). unfold between. simpl.
  destruct Hsx as [E | E], Hsy as [E' | E']; rewrite E, E' in *; lia.
Qed.

Lemma draw_line_ends_witness :
  let b := example_buffer (replicate 16 0) in
  let from := mk_xpoint (-3) 0 in
  let to := mk_xpoint 4 2 in
  is_Some (draw_line b from to 1 gc_default) ∧
  ∃ path,
    draw_line b from to 1 gc_default = Some (along 1 gc_default b path) ∧
    head path = Some (-3, 0) ∧ last path = Some (4, 2) ∧
    (∀ k p q, path !! k = Some p → path !! S k = Some q → neighbours p q) ∧
    Forall (λ p, between (-3) 4 p.1 ∧ between 0 2 p.2) path ∧ Z.of_nat (length path) ≤ 10.
Proof.
  intros b from to. split; [vm_compute; eexists; reflexivity|].
  apply (draw_line_ends b from to 1 gc_default); unfold i16_ok; simpl; lia.
Defined.

(** ** Clipped sources *)

(** An image that hangs over the left edge shows its first column, not the column that belongs
    there. *)
Lemma put_image_overhang_shifts :
  let d := x_resource_id 7 1 in
  let s := (put_image store_new d (mk_size 2 1) (mk_rect (-1) 0 2 1) [1; 0; 0; 0; 2; 0; 0; 0]).2 in
  old_pixel s d (mk_size 2 1) 0 0 = 1.
Proof. vm_compute. reflexivity. Qed.

(** A copy whose source hangs over the left edge lands one column to the left of where it belongs. *)
Lemma copy_overhang_shifts :
  let src := x_resource_id 7 1 in
  let dst := x_resource_id 8 1 in
  let s := (put_image store_new src (mk_size 2 1) (mk_rect 0 0 2 1) [1; 0; 0; 0; 2; 0; 0; 0]).2 in
  let s' := (copy_area s src dst (mk_size 3 1) (mk_rect (-1) 0 3 1) 0 0 gc_default).2 in
  old_pixel s' dst (mk_size 3 1) 0 0 = 1 ∧ old_pixel s' dst (mk_size 3 1) 1 0 = 2.
Proof. vm_compute. split; reflexivity. Qed.

(** ** Painting keeps buffers well formed *)

(** Whatever is painted, only the bytes change, not how many there are. *)
Definition keeps_shape (f : XAuthorityCpuBufferSnapshot → XAuthorityCpuBufferSnapshot) : Prop :=
  ∀ b, buffer_ok b → same_shape b (f b).

Lemma foldl_shape {A} (f : XAuthorityCpuBufferSnapshot → A → XAuthorityCpuBufferSnapshot) (l : list A) b0 :
  (∀ a b, a ∈ l → buffer_ok b → bf_size b = bf_size b0 → same_shape b (f b a)) →
  ∀ b, buffer_ok b → bf_size b = bf_size b0 → same_shape b (foldl f b l).
Proof.
  intros Hf. induction l as [|a l IH]; intros b Hb Hs; simpl; [done|].
  assert (same_shape b (f b a)) as H by (apply Hf; [by left|done..]).
  eapply same_shape_trans; [exact H|]. apply IH; [|by eapply same_shape_ok|].
  - intros a' b' Ha. apply Hf. by right.
  - destruct H as (_&_&->&_). done.
Qed.

Lemma paint_at_shape b offset p gc : 0 ≤ offset → buffer_ok b → same_shape b (paint_at b offset p gc).
Proof.
  intros Ho Hb. unfold paint_at. destruct (slice_range _ _ _) as [t|] eqn:Ht; [|done].
  apply slice_range_Some in Ht as (_ & Hle & _). pose proof (buffer_len_bound b Hb). pose proof max_bytes_usize.
  assert (offset + 4 ≤ Z.of_nat (length (bf_bytes b))) by (unfold u_sat_add, saturating_add in Hle; lia).
  pose proof (length_set_range (bf_bytes b) offset
    (to_le_bytes 4 (apply_raster_function p (from_le_bytes t) gc))) as Hlen.
  rewrite length_to_le_bytes in Hlen. specialize (Hlen Ho ltac:(lia)). by split_and!.
Qed.
Lemma pixel_offset_nonneg b x y : buffer_ok b → 0 ≤ x → 0 ≤ y → 0 ≤ pixel_offset b x y.
Proof.
  intros (Hs & Hst & _) Hx Hy. unfold pixel_offset, u_sat_add, u_sat_mul, saturating_add, saturating_mul.
  assert (0 < usize_MAX) by (vm_compute; reflexivity). unfold size_ok in Hs. nia.
Qed.
Lemma range_elem a b z : z ∈ range a b ↔ a ≤ z < b.
Proof. unfold range. rewrite elem_of_seqZ. lia. Qed.

Lemma fill_rect_shape rect p gc : keeps_shape (λ b, fill_rect b rect p gc).
Proof.
  intros b Hb. unfold fill_rect. destruct (clipped_bounds (bf_size b) rect) as [[[[x0 y0] x1] y1]|] eqn:Hc; [|done].
  apply clipped_bounds_ok in Hc as (Hx & _ & Hy & _). unfold for_pixels.
  apply (foldl_shape _ _ b); [|done..]. intros y b' Hyin Hb' Hs.
  apply (foldl_shape _ _ b); [|done..]. intros x b2 Hxin Hb2 _. apply range_elem in Hyin, Hxin.
  case_decide; [|done]. apply paint_at_shape; [apply pixel_offset_nonneg; (done || lia)|done].
Qed.
Lemma set_pixel_shape x y p gc : keeps_shape (λ b, set_pixel b x y p gc).
Proof.
  intros b Hb. unfold set_pixel. case_decide; [done|]. case_decide; [done|].
  apply paint_at_shape; [apply pixel_offset_nonneg; (done || lia)|done].
Qed.
Lemma fills_shape {A} (rect : A → Rect) (p : Z) gc (l : list A) :
  keeps_shape (λ b, foldl (λ b a, fill_rect b (rect a) p gc) b l).
Proof. intros b Hb. apply (foldl_shape _ _ b); [|done..]. intros a b' _ Hb' _. by apply fill_rect_shape. Qed.
Lemma draw_fixed_glyph_shape x y byte p gc : keeps_shape (λ b, draw_fixed_glyph b x y byte p gc).
Proof.
  apply (fills_shape (λ cell : Z * Z, mk_rect (i32_saturating_add x (cell.1 + 1)) (i32_saturating_add y (cell.2 + 2)) 1 1)).
Qed.
Lemma line_loop_shape width gc tx ty dx dy sx sy fuel b x y error b' :
  buffer_ok b → line_loop width gc tx ty dx dy sx sy fuel b x y error = Some b' → same_shape b b'.
Proof.
  revert b x y error. induction fuel as [|fuel IH]; intros b x y error Hb; cbn [line_loop]; [done|].
  pose proof (fill_rect_shape (line_square width x y) (gc_foreground gc) gc b Hb) as Hf.
  set (b1 := fill_rect b _ _ _) in *. destruct (decide (x = tx ∧ y = ty)); [by intros [= <-]|].
  destruct (decide (i32_saturating_mul error 2 >= dy)), (decide (i32_saturating_mul error 2 <= dx)); intros H;
    (eapply same_shape_trans; [exact Hf|]; eapply IH; [by eapply same_shape_ok|exact H]).
Qed.
Lemma draw_line_shape from to width gc : keeps_shape (λ b, default b (draw_line b from to width gc)).
Proof.
  intros b Hb. destruct (draw_line b from to width gc) as [b'|] eqn:Hd; [|done]. by eapply line_loop_shape.
Qed.

Lemma copy_xrgb8888_shape rect data : keeps_shape (λ b, copy_xrgb8888 b rect data).
Proof.
  intros b Hb. unfold copy_xrgb8888.
  destruct (clipped_bounds (bf_size b) rect) as [[[[x0 y0] x1] y1]|] eqn:Hc; [|done].
  apply clipped_bounds_ok in Hc as (Hx & _ & Hy & _).
  destruct (checked_mul _ _ _) as [stride|]; [|done]. case_decide; [done|].
  apply (foldl_shape _ _ b); [|done..]. intros y b' Hyin Hb' Hs. apply range_elem in Hyin.
  cbv zeta. set (len := u_sat_mul (saturating_sub x1 x0) 4). set (so := u_sat_add _ (u_sat_mul (saturating_sub x0 _) 4)).
  fold (pixel_offset b' x0 y). destruct (slice_range data so _) as [src|] eqn:Hsrc; [|done].
  destruct (slice_range (bf_bytes b') _ _) as [t|] eqn:Ht; [|done].
  apply slice_range_Some in Hsrc as (_ & Hl & ->), Ht as (_ & Hle & _).
  pose proof (buffer_len_bound b' Hb'). pose proof max_bytes_usize.
  pose proof (pixel_offset_nonneg b' x0 y Hb') as Hpo.
  assert (0 ≤ len) by (unfold len, u_sat_mul, saturating_mul, saturating_sub; lia).
  assert (pixel_offset b' x0 y + len ≤ Z.of_nat (length (bf_bytes b'))) by (unfold u_sat_add, saturating_add in Hle; lia).
  unfold same_shape. simpl. rewrite length_set_range; [by split_and!|lia|].
  rewrite length_take. unfold u_sat_add, saturating_add. lia.
Qed.

(** Every operation keeps every buffer of the store well formed, also when it gives no update. *)
Lemma painted_ok s d size paint damage : store_ok s → keeps_shape paint → store_ok (painted s d size paint damage).2.
Proof.
  intros Hs Hp. destruct (painted s d size paint damage) as [u s'] eqn:E.
  eapply painted_spec in E; [|exact Hs|intros; by apply Hp]. apply E.
Qed.
Lemma paint_damage_ok s d size damage gc : store_ok s → store_ok (paint_damage s d size damage gc).2.
Proof. intros Hs. apply painted_ok; [done|]. apply (fills_shape id). Qed.
Lemma store_clear_ok s d size rect p : store_ok s → store_ok (store_clear s d size rect p).2.
Proof. intros Hs. apply painted_ok; [done|]. apply fill_rect_shape. Qed.
Lemma put_image_ok s d size rect data : store_ok s → store_ok (put_image s d size rect data).2.
Proof. intros Hs. apply painted_ok; [done|]. apply copy_xrgb8888_shape. Qed.
Lemma draw_text_ok s d size x baseline text opaque gc : store_ok s → store_ok (draw_text s d size x baseline text opaque gc).2.
Proof.
  intros Hs. apply painted_ok; [done|]. intros b Hb. apply (foldl_shape _ _ b); [|done..].
  intros e b' _ Hb' _. destruct opaque; [|by apply draw_fixed_glyph_shape].
  pose proof (fill_rect_shape (mk_rect (text_cell_x x e.1) (i32_saturating_sub baseline 10) 8 12) (gc_background gc) gc b' Hb') as Hf.
  eapply same_shape_trans; [exact Hf|]. apply draw_fixed_glyph_shape. by eapply same_shape_ok.
Qed.
Lemma draw_lines_ok s d size points gc : store_ok s → store_ok (draw_lines s d size points gc).2.
Proof.
  intros Hs. unfold draw_lines. destruct (point_bounds points _); [|done]. apply painted_ok; [done|].
  intros b Hb. apply (foldl_shape _ _ b); [|done..]. intros p b' _ Hb' _. by apply draw_line_shape.
Qed.

Lemma put_buffer_ok s d b : store_ok s → buffer_ok b → bf_drawable b = d → store_ok (put_buffer s d b).
Proof. intros Hs Hb Hd d' b'. simpl. rewrite lookup_insert_Some. intros [[<- <-]|[_ ?]]; [done|by apply Hs]. Qed.
Lemma for_pixels_ind {S} (P : S → Prop) (f : S → Z → Z → S) bounds s :
  (∀ s x y, P s → P (f s x y)) → P s → P (for_pixels f bounds s).
Proof.
  intros Hf. destruct bounds as [[[x0 y0] x1] y1]. unfold for_pixels.
  assert (∀ y xs s, P s → P (foldl (λ s x, f s x y) s xs)) as Hrow.
  { intros y xs. induction xs as [|x xs IH]; intros s0 Hs; simpl; [done|]. by apply IH, Hf. }
  revert s. induction (range y0 y1) as [|y ys IH]; intros s Hs; simpl; [done|]. by apply IH, Hrow.
Qed.
Lemma copy_area_ok s src dst size rect dx dy gc : store_ok s → store_ok (copy_area s src dst size rect dx dy gc).2.
Proof.
  intros Hs. unfold copy_area, allocate_handle. destruct (buffers s !! src) as [source|]; [|done].
  set (s1 := mk_store _ (buffers s)). assert (store_ok s1) as Hs1 by done.
  destruct (ensure s1 dst size _) as [[b replaced]|] eqn:He; [|done].
  destruct (ensure_ok _ _ _ _ _ _ Hs1 He) as (Hb & _ & Hd & _).
  destruct (clipped_bounds _ _) as [[[[x0 y0] x1] y1]|]; [|by apply put_buffer_ok].
  assert (buffer_ok (for_pixels (copy_pixel source x0 y0 dx dy gc) (x0, y0, x1, y1) (true, b)).2 ∧
          bf_drawable (for_pixels (copy_pixel source x0 y0 dx dy gc) (x0, y0, x1, y1) (true, b)).2 = dst) as [Hb' Hd'].
  { apply (for_pixels_ind (λ s : bool * XAuthorityCpuBufferSnapshot, buffer_ok s.2 ∧ bf_drawable s.2 = dst)); [|done].
    intros [[] b'] x y [H1 H2]; unfold copy_pixel; simpl; [|done].
    destruct (slice_range _ _ _); simpl; [|done].
    match goal with |- context[set_pixel b' ?tx ?ty ?p gc] => pose proof (set_pixel_shape tx ty p gc b' H1) as Hsp end.
    split; [by eapply same_shape_ok|]. destruct Hsp as (_ & -> & _). done. }
  destruct (for_pixels _ _ _) as [[] b']; simpl in *; [|by apply put_buffer_ok].
  destruct (i32_try_from (saturating_sub x1 x0)) as [w|]; [|by apply put_buffer_ok].
  destruct (i32_try_from (saturating_sub y1 y0)) as [h|]; [|by apply put_buffer_ok].
  destruct (finish_immutable_update _ _ _ _) as [u b2] eqn:Hf. simpl.
  apply finish_ok in Hf as (E1 & E2 & E3 & E4 & _). apply put_buffer_ok; [done| |congruence].
  unfold buffer_ok in *. by rewrite E1, E2, E3.
Qed.

(** ** What the store sends *)

(** An operation sends nothing, or a whole well-formed buffer under the handle it took, and the next
    operation takes another. *)
Record emits (s : XSoftwareBufferStore) (p : option XAuthorityCpuBufferUpdate * XSoftwareBufferStore) : Prop := mk_emits {
  em_next : p = (None, s) ∨ next_handle p.2 = Z.max (u64_succ (Z.max (next_handle s) 1)) 1;
  em_update : ∀ u, p.1 = Some u → ∃ b, u = BufferReplace b ∧ buffer_ok b ∧ bf_handle b = Z.max (next_handle s) 1;
}.
Lemma finish_emits s1 d b handle replaced damage u b' :
  finish_immutable_update b handle replaced damage = (u, b') → buffer_ok b →
  ∀ up, (u, put_buffer s1 d b').1 = Some up → ∃ snap, up = BufferReplace snap ∧ buffer_ok snap ∧ bf_handle snap = handle.
Proof.
  intros Hf Hb up Hup. simpl in Hup. subst u. apply finish_ok in Hf as (E1 & E2 & E3 & E4 & Hu). destruct up as [snap|]; [|done].
  destruct Hu as (-> & Hh & _). exists b'. split_and!; try done. unfold buffer_ok in *. by rewrite E1, E2, E3.
Qed.
Lemma painted_emits s d size paint damage : store_ok s → keeps_shape paint → emits s (painted s d size paint damage).
Proof.
  intros Hs Hp. unfold painted, allocate_handle. set (s1 := mk_store _ (buffers s)). assert (store_ok s1) as Hs1 by done.
  destruct (ensure s1 d size _) as [[b replaced]|] eqn:He; [|by constructor; [by right|]].
  destruct (ensure_ok _ _ _ _ _ _ Hs1 He) as (Hb & _). pose proof (same_shape_ok _ _ (Hp b Hb) Hb) as Hpb.
  destruct (finish_immutable_update (paint b) _ replaced damage) as [u b'] eqn:Hf.
  constructor; [by right|by eapply finish_emits].
Qed.

(** A painting operation of the store. *)
Inductive XPaintOp : Type :=
| PaintDamage (drawable : XResourceId) (size : Size) (damage : list Rect) (gc : XGraphicsContextValues)
| PaintClear (drawable : XResourceId) (size : Size) (rect : Rect) (pixel : Z)
| PaintImage (drawable : XResourceId) (size : Size) (destination : Rect) (data : list Z)
| PaintText (drawable : XResourceId) (size : Size) (x baseline : Z) (text : list Z) (opaque : bool) (gc : XGraphicsContextValues)
| PaintLines (drawable : XResourceId) (size : Size) (points : list XPoint) (gc : XGraphicsContextValues)
| PaintCopy (source destination : XResourceId) (size : Size) (rect : Rect) (dst_x dst_y : Z) (gc : XGraphicsContextValues).
Definition paint_op (s : XSoftwareBufferStore) (op : XPaintOp) : option XAuthorityCpuBufferUpdate * XSoftwareBufferStore :=
  match op with
  | PaintDamage d size damage gc => paint_damage s d size damage gc
  | PaintClear d size rect pixel => store_clear s d size rect pixel
  | PaintImage d size destination data => put_image s d size destination data
  | PaintText d size x baseline text opaque gc => draw_text s d size x baseline text opaque gc
  | PaintLines d size points gc => draw_lines s d size points gc
  | PaintCopy source d size rect dst_x dst_y gc => copy_area s source d size rect dst_x dst_y gc
  end.
(** The updates of a run, and the store it leaves. *)
Fixpoint paint_run (s : XSoftwareBufferStore) (ops : list XPaintOp) : list XAuthorityCpuBufferUpdate * XSoftwareBufferStore :=
  match ops with
  | [] => ([], s)
  | op :: ops => let '(u, s) := paint_op s op in let '(us, s) := paint_run s ops in (option_list u ++ us, s)
  end.
Lemma copy_area_emits s src dst size rect dx dy gc : store_ok s → emits s (copy_area s src dst size rect dx dy gc).
Proof.
  intros Hs. unfold copy_area, allocate_handle. destruct (buffers s !! src) as [source|]; [|by constructor; [by left|]].
  set (s1 := mk_store _ (buffers s)). assert (store_ok s1) as Hs1 by done.
  destruct (ensure s1 dst size _) as [[b replaced]|] eqn:He; [|by constructor; [by right|]].
  destruct (ensure_ok _ _ _ _ _ _ Hs1 He) as (Hb & _ & Hd & _).
  destruct (clipped_bounds _ _) as [[[[x0 y0] x1] y1]|]; [|by constructor; [by right|]].
  assert (buffer_ok (for_pixels (copy_pixel source x0 y0 dx dy gc) (x0, y0, x1, y1) (true, b)).2) as Hb'.
  { apply (for_pixels_ind (λ s : bool * XAuthorityCpuBufferSnapshot, buffer_ok s.2)); [|done].
    intros [[] b'] x y H1; unfold copy_pixel; simpl; [|done]. destruct (slice_range _ _ _); simpl; [|done].
    match goal with |- context[set_pixel b' ?tx ?ty ?p gc] => pose proof (set_pixel_shape tx ty p gc b' H1) as Hsp end.
    by eapply same_shape_ok. }
  destruct (for_pixels _ _ _) as [[] b']; simpl in *; [|by constructor; [by right|]].
  destruct (i32_try_from (saturating_sub x1 x0)) as [w|]; [|by constructor; [by right|]].
  destruct (i32_try_from (saturating_sub y1 y0)) as [h|]; [|by constructor; [by right|]].
  destruct (finish_immutable_update _ _ _ _) as [u b2] eqn:Hf. constructor; [by right|by eapply finish_emits].
Qed.
Lemma text_shape x baseline text opaque gc : keeps_shape (λ b, foldl (λ b e,
  let cell_x := text_cell_x x e.1 in
  let b := if opaque : bool then fill_rect b (mk_rect cell_x (i32_saturating_sub baseline 10) 8 12) (gc_background gc) gc else b in
  draw_fixed_glyph b cell_x (i32_saturating_sub baseline 10) e.2 (gc_foreground gc) gc) b (enumerate text)).
Proof.
  intros b Hb. apply (foldl_shape _ _ b); [|done..].
  intros e b' _ Hb' _. destruct opaque; [|by apply draw_fixed_glyph_shape].
  pose proof (fill_rect_shape (mk_rect (text_cell_x x e.1) (i32_saturating_sub baseline 10) 8 12) (gc_background gc) gc b' Hb') as Hf.
  eapply same_shape_trans; [exact Hf|]. apply draw_fixed_glyph_shape. by eapply same_shape_ok.
Qed.
Lemma paint_op_emits s op : store_ok s → emits s (paint_op s op) ∧ store_ok (paint_op s op).2.
Proof.
  intros Hs. destruct op; simpl; split; try (by apply copy_area_ok); try (by apply paint_damage_ok); try (by apply store_clear_ok);
    try (by apply put_image_ok); try (by apply draw_text_ok); try (by apply draw_lines_ok); try (by apply copy_area_emits).
  - apply painted_emits; [done|]. apply (fills_shape id).
  - apply painted_emits; [done|]. apply fill_rect_shape.
  - apply painted_emits; [done|]. apply copy_xrgb8888_shape.
  - apply painted_emits; [done|]. apply text_shape.
  - unfold draw_lines. destruct (point_bounds points _); [|by constructor; [by left|]]. apply painted_emits; [done|].
    intros b Hb. apply (foldl_shape _ _ b); [|done..]. intros p b' _ Hb' _. by apply draw_line_shape.
Qed.
