(* ===== verification/XState.v ===== *)
(** * The state of the X authority runtime
    ([sophia-x-authority/src/packet.rs], the state of [runtime.rs])

    Requests and responses, the errors of the runtime, its state, and the monad its operations are
    written in: an operation reads and changes the state and may fail, and a failure keeps the
    changes made before it.  The compiled XKB keymap, which the runtime only hands out, and the
    shared lock around the input authority ([XInputGrabs]) are not part of the state here. *)

From stdpp Require Import strings.
From S2P Require Import Prelude Ids Text Geometry Packets PortalPackets Portals.
From S2P Require Import XAtoms XTables XProperties XSelections XSoftware.
Local Open Scope Z_scope.

(** ** Errors *)

Inductive XAuthorityRuntimeError : Type :=
| RtInvalidResource | RtInvalidNamespace | RtInvalidSurface | RtUnknownResource | RtWrongResourceKind
| RtCrossNamespaceDenied | RtStaleGeneration | RtUnknownRequestorNamespace | RtUnknownSourceOwner
| RtMissingSourceNamespace | RtSameNamespace | RtPortalRejected.
#[export] Instance runtime_error_eq_dec : EqDecision XAuthorityRuntimeError.
Proof. solve_decision. Defined.
Definition from_access (e : XAuthorityAccessError) : XAuthorityRuntimeError :=
  match e with
  | InvalidResource => RtInvalidResource | InvalidNamespace => RtInvalidNamespace
  | InvalidSurface => RtInvalidSurface | UnknownResource => RtUnknownResource
  | WrongResourceKind => RtWrongResourceKind | CrossNamespaceDenied => RtCrossNamespaceDenied
  | StaleGeneration => RtStaleGeneration
  end.
Definition from_selection (e : ClipboardSelectionRequestError) : XAuthorityRuntimeError :=
  match e with
  | UnknownRequestorNamespace => RtUnknownRequestorNamespace | UnknownSourceOwner => RtUnknownSourceOwner
  | MissingSourceNamespace => RtMissingSourceNamespace | SameNamespaceError => RtSameNamespace
  | PortalRejection _ => RtPortalRejected
  end.

(** ** Requests and responses *)

Inductive XAuthorityRequestKind : Type :=
| CreateWindow (window : XResourceId) (surface : SurfaceId) (geometry : Rect)
    (constraints : SurfaceConstraints) (generation : Z)
| MapWindow (window : XResourceId) (generation : Z)
| RequestPresentPixmap (window : XResourceId) (pixmap : Z) (damage : Region)
    (previous_committed_generation timeout_msec : Z)
| SetSelectionOwner (selection : XAtom) (owner : option XResourceId) (timestamp selection_timestamp : Z)
    (kind : XSelectionChangeKind)
| RequestSelection (requestor : XResourceId) (selection target : XAtom) (target_name : list Z)
    (property : XAtom) (time : Z) (transfer : PortalTransferId).
Record XAuthorityRequestPacket : Type := mk_request {
  rq_transaction : TransactionId; rq_namespace : NamespaceId; rq_kind : XAuthorityRequestKind;
}.

Inductive XAuthorityPortalCommand : Type :=
| XPromptClipboardTransfer (t : PortalTransfer) | XFailSelection (t : PortalTransferId)
| XHandoffClipboard (t : PortalTransferId).
Definition from_portal_command (c : PortalCommand) : option XAuthorityPortalCommand :=
  match c with
  | PromptClipboardTransfer t => Some (XPromptClipboardTransfer t)
  | FailSelection t => Some (XFailSelection t)
  | HandoffClipboard t => Some (XHandoffClipboard t)
  | _ => None
  end.
Inductive XAuthoritySelectionArtifact : Type :=
| ArtifactFailure (f : ClipboardSelectionFailure)
| ArtifactRequest (r : ClipboardSelectionOwnerRequest)
| ArtifactClear (owner : XResourceId) (selection : XAtom) (time : Z).
Inductive XAuthorityResponseOutcome : Type := Accepted | Rejected (e : XAuthorityRuntimeError).

Record XAuthorityResponsePacket : Type := mk_response {
  rs_transaction : TransactionId; rs_outcome : XAuthorityResponseOutcome;
  rs_surfaces : list AuthoritySurface; rs_removed_surfaces : list SurfaceId;
  rs_transactions : list SurfaceTransaction; rs_portal_commands : list XAuthorityPortalCommand;
  rs_selection_artifacts : list XAuthoritySelectionArtifact;
}.
Definition accepted (transaction : TransactionId) : XAuthorityResponsePacket :=
  mk_response transaction Accepted [] [] [] [] [].
Definition rejected (transaction : TransactionId) (e : XAuthorityRuntimeError) : XAuthorityResponsePacket :=
  mk_response transaction (Rejected e) [] [] [] [] [].
Definition with_surfaces (r : XAuthorityResponsePacket) (l : list AuthoritySurface) : XAuthorityResponsePacket :=
  mk_response (rs_transaction r) (rs_outcome r) l (rs_removed_surfaces r) (rs_transactions r)
    (rs_portal_commands r) (rs_selection_artifacts r).
Definition with_transactions (r : XAuthorityResponsePacket) (l : list SurfaceTransaction) : XAuthorityResponsePacket :=
  mk_response (rs_transaction r) (rs_outcome r) (rs_surfaces r) (rs_removed_surfaces r) l
    (rs_portal_commands r) (rs_selection_artifacts r).
Definition with_commands (r : XAuthorityResponsePacket) (l : list XAuthorityPortalCommand) : XAuthorityResponsePacket :=
  mk_response (rs_transaction r) (rs_outcome r) (rs_surfaces r) (rs_removed_surfaces r) (rs_transactions r)
    l (rs_selection_artifacts r).
Definition with_artifacts (r : XAuthorityResponsePacket) (l : list XAuthoritySelectionArtifact) : XAuthorityResponsePacket :=
  mk_response (rs_transaction r) (rs_outcome r) (rs_surfaces r) (rs_removed_surfaces r) (rs_transactions r)
    (rs_portal_commands r) l.

(** ** Clipboard transfers under way *)

Inductive XByteOrder : Type := LittleEndian | BigEndian.
Record PendingClipboardSelection : Type := mk_pending {
  pe_namespace : NamespaceId; pe_portal_request : ClipboardSelectionPortalRequest; pe_byte_order : XByteOrder;
}.
Record ClipboardSelectionProxy : Type := mk_proxy {
  px_transfer : PortalTransferId; px_namespace : NamespaceId; px_owner : XResourceId;
  px_requestor : XResourceId; px_selection : XAtom; px_target : XAtom; px_property : XAtom; px_time : Z;
}.

(** ** The state *)

Record XAuthorityRuntime : Type := mk_runtime {
  rt_resources : gmap XResourceId XResourceRecord;
  rt_windows : gmap XResourceId XWindowRecord;
  rt_shm_segments : gmap XResourceId XShmSegmentRecord;
  rt_selections : gmap (Z * option NamespaceId) XSelectionOwnerRecord;
  rt_clipboard : Transfers;
  rt_pending_clipboard : gmap PortalTransferId PendingClipboardSelection;
  rt_clipboard_proxies : gmap XResourceId ClipboardSelectionProxy;
  rt_next_clipboard_proxy : Z;
  rt_software_buffers : XSoftwareBufferStore;
  rt_dri3_pixmaps : gmap XResourceId DmaBufDescriptor;
  rt_next_dma_buf_handle : Z;
  rt_dri3_fences : gmap XResourceId FenceHandle;
  rt_xfixes_regions : gmap XResourceId Region;
  rt_next_fence_handle : Z;
  rt_graphics_contexts : gmap XResourceId XGraphicsContextRecord;
  rt_window_background_pixels : gmap XResourceId Z;
  rt_window_visuals : gmap XResourceId (Z * Z * XResourceId);
  rt_glx_contexts : gmap XResourceId (NamespaceId * Z * bool);
  rt_glx_windows : gmap XResourceId (NamespaceId * XResourceId * Z);
  rt_last_cpu_buffer_update : option XAuthorityCpuBufferUpdate;
  rt_output_topology : OutputTopologySnapshot;
  rt_input_focus : gmap NamespaceId (XResourceId * Z);
}.

Definition runtime_new : XAuthorityRuntime :=
  mk_runtime ∅ ∅ ∅ ∅ ∅ ∅ ∅ 0 store_new ∅ 1 ∅ ∅ 1 ∅ ∅ ∅ ∅ ∅ None topology_deterministic ∅.

Definition set_resources (r : XAuthorityRuntime) (v : gmap XResourceId XResourceRecord) : XAuthorityRuntime :=
  mk_runtime v (rt_windows r) (rt_shm_segments r) (rt_selections r) (rt_clipboard r) (rt_pending_clipboard
    r) (rt_clipboard_proxies r) (rt_next_clipboard_proxy r) (rt_software_buffers r)
    (rt_dri3_pixmaps r) (rt_next_dma_buf_handle r) (rt_dri3_fences r) (rt_xfixes_regions r)
    (rt_next_fence_handle r) (rt_graphics_contexts r) (rt_window_background_pixels r)
    (rt_window_visuals r) (rt_glx_contexts r) (rt_glx_windows r) (rt_last_cpu_buffer_update r)
    (rt_output_topology r) (rt_input_focus r).
Definition set_windows (r : XAuthorityRuntime) (v : gmap XResourceId XWindowRecord) : XAuthorityRuntime :=
  mk_runtime (rt_resources r) v (rt_shm_segments r) (rt_selections r) (rt_clipboard r) (rt_pending_clipboard
    r) (rt_clipboard_proxies r) (rt_next_clipboard_proxy r) (rt_software_buffers r)
    (rt_dri3_pixmaps r) (rt_next_dma_buf_handle r) (rt_dri3_fences r) (rt_xfixes_regions r)
    (rt_next_fence_handle r) (rt_graphics_contexts r) (rt_window_background_pixels r)
    (rt_window_visuals r) (rt_glx_contexts r) (rt_glx_windows r) (rt_last_cpu_buffer_update r)
    (rt_output_topology r) (rt_input_focus r).
Definition set_shm_segments (r : XAuthorityRuntime) (v : gmap XResourceId XShmSegmentRecord) : XAuthorityRuntime :=
  mk_runtime (rt_resources r) (rt_windows r) v (rt_selections r) (rt_clipboard r) (rt_pending_clipboard r)
    (rt_clipboard_proxies r) (rt_next_clipboard_proxy r) (rt_software_buffers r) (rt_dri3_pixmaps
    r) (rt_next_dma_buf_handle r) (rt_dri3_fences r) (rt_xfixes_regions r) (rt_next_fence_handle r)
    (rt_graphics_contexts r) (rt_window_background_pixels r) (rt_window_visuals r) (rt_glx_contexts
    r) (rt_glx_windows r) (rt_last_cpu_buffer_update r) (rt_output_topology r) (rt_input_focus r).
Definition set_selections (r : XAuthorityRuntime) (v : gmap (Z * option NamespaceId) XSelectionOwnerRecord) : XAuthorityRuntime :=
  mk_runtime (rt_resources r) (rt_windows r) (rt_shm_segments r) v (rt_clipboard r) (rt_pending_clipboard r)
    (rt_clipboard_proxies r) (rt_next_clipboard_proxy r) (rt_software_buffers r) (rt_dri3_pixmaps
    r) (rt_next_dma_buf_handle r) (rt_dri3_fences r) (rt_xfixes_regions r) (rt_next_fence_handle r)
    (rt_graphics_contexts r) (rt_window_background_pixels r) (rt_window_visuals r) (rt_glx_contexts
    r) (rt_glx_windows r) (rt_last_cpu_buffer_update r) (rt_output_topology r) (rt_input_focus r).
Definition set_clipboard (r : XAuthorityRuntime) (v : Transfers) : XAuthorityRuntime :=
  mk_runtime (rt_resources r) (rt_windows r) (rt_shm_segments r) (rt_selections r) v (rt_pending_clipboard
    r) (rt_clipboard_proxies r) (rt_next_clipboard_proxy r) (rt_software_buffers r)
    (rt_dri3_pixmaps r) (rt_next_dma_buf_handle r) (rt_dri3_fences r) (rt_xfixes_regions r)
    (rt_next_fence_handle r) (rt_graphics_contexts r) (rt_window_background_pixels r)
    (rt_window_visuals r) (rt_glx_contexts r) (rt_glx_windows r) (rt_last_cpu_buffer_update r)
    (rt_output_topology r) (rt_input_focus r).
Definition set_pending_clipboard (r : XAuthorityRuntime) (v : gmap PortalTransferId PendingClipboardSelection) : XAuthorityRuntime :=
  mk_runtime (rt_resources r) (rt_windows r) (rt_shm_segments r) (rt_selections r) (rt_clipboard r) v
    (rt_clipboard_proxies r) (rt_next_clipboard_proxy r) (rt_software_buffers r) (rt_dri3_pixmaps
    r) (rt_next_dma_buf_handle r) (rt_dri3_fences r) (rt_xfixes_regions r) (rt_next_fence_handle r)
    (rt_graphics_contexts r) (rt_window_background_pixels r) (rt_window_visuals r) (rt_glx_contexts
    r) (rt_glx_windows r) (rt_last_cpu_buffer_update r) (rt_output_topology r) (rt_input_focus r).
Definition set_clipboard_proxies (r : XAuthorityRuntime) (v : gmap XResourceId ClipboardSelectionProxy) : XAuthorityRuntime :=
  mk_runtime (rt_resources r) (rt_windows r) (rt_shm_segments r) (rt_selections r) (rt_clipboard r)
    (rt_pending_clipboard r) v (rt_next_clipboard_proxy r) (rt_software_buffers r) (rt_dri3_pixmaps
    r) (rt_next_dma_buf_handle r) (rt_dri3_fences r) (rt_xfixes_regions r) (rt_next_fence_handle r)
    (rt_graphics_contexts r) (rt_window_background_pixels r) (rt_window_visuals r) (rt_glx_contexts
    r) (rt_glx_windows r) (rt_last_cpu_buffer_update r) (rt_output_topology r) (rt_input_focus r).
Definition set_next_clipboard_proxy (r : XAuthorityRuntime) (v : Z) : XAuthorityRuntime :=
  mk_runtime (rt_resources r) (rt_windows r) (rt_shm_segments r) (rt_selections r) (rt_clipboard r)
    (rt_pending_clipboard r) (rt_clipboard_proxies r) v (rt_software_buffers r) (rt_dri3_pixmaps r)
    (rt_next_dma_buf_handle r) (rt_dri3_fences r) (rt_xfixes_regions r) (rt_next_fence_handle r)
    (rt_graphics_contexts r) (rt_window_background_pixels r) (rt_window_visuals r) (rt_glx_contexts
    r) (rt_glx_windows r) (rt_last_cpu_buffer_update r) (rt_output_topology r) (rt_input_focus r).
Definition set_software_buffers (r : XAuthorityRuntime) (v : XSoftwareBufferStore) : XAuthorityRuntime :=
  mk_runtime (rt_resources r) (rt_windows r) (rt_shm_segments r) (rt_selections r) (rt_clipboard r)
    (rt_pending_clipboard r) (rt_clipboard_proxies r) (rt_next_clipboard_proxy r) v
    (rt_dri3_pixmaps r) (rt_next_dma_buf_handle r) (rt_dri3_fences r) (rt_xfixes_regions r)
    (rt_next_fence_handle r) (rt_graphics_contexts r) (rt_window_background_pixels r)
    (rt_window_visuals r) (rt_glx_contexts r) (rt_glx_windows r) (rt_last_cpu_buffer_update r)
    (rt_output_topology r) (rt_input_focus r).
Definition set_dri3_pixmaps (r : XAuthorityRuntime) (v : gmap XResourceId DmaBufDescriptor) : XAuthorityRuntime :=
  mk_runtime (rt_resources r) (rt_windows r) (rt_shm_segments r) (rt_selections r) (rt_clipboard r)
    (rt_pending_clipboard r) (rt_clipboard_proxies r) (rt_next_clipboard_proxy r)
    (rt_software_buffers r) v (rt_next_dma_buf_handle r) (rt_dri3_fences r) (rt_xfixes_regions r)
    (rt_next_fence_handle r) (rt_graphics_contexts r) (rt_window_background_pixels r)
    (rt_window_visuals r) (rt_glx_contexts r) (rt_glx_windows r) (rt_last_cpu_buffer_update r)
    (rt_output_topology r) (rt_input_focus r).
Definition set_next_dma_buf_handle (r : XAuthorityRuntime) (v : Z) : XAuthorityRuntime :=
  mk_runtime (rt_resources r) (rt_windows r) (rt_shm_segments r) (rt_selections r) (rt_clipboard r)
    (rt_pending_clipboard r) (rt_clipboard_proxies r) (rt_next_clipboard_proxy r)
    (rt_software_buffers r) (rt_dri3_pixmaps r) v (rt_dri3_fences r) (rt_xfixes_regions r)
    (rt_next_fence_handle r) (rt_graphics_contexts r) (rt_window_background_pixels r)
    (rt_window_visuals r) (rt_glx_contexts r) (rt_glx_windows r) (rt_last_cpu_buffer_update r)
    (rt_output_topology r) (rt_input_focus r).
Definition set_dri3_fences (r : XAuthorityRuntime) (v : gmap XResourceId FenceHandle) : XAuthorityRuntime :=
  mk_runtime (rt_resources r) (rt_windows r) (rt_shm_segments r) (rt_selections r) (rt_clipboard r)
    (rt_pending_clipboard r) (rt_clipboard_proxies r) (rt_next_clipboard_proxy r)
    (rt_software_buffers r) (rt_dri3_pixmaps r) (rt_next_dma_buf_handle r) v (rt_xfixes_regions r)
    (rt_next_fence_handle r) (rt_graphics_contexts r) (rt_window_background_pixels r)
    (rt_window_visuals r) (rt_glx_contexts r) (rt_glx_windows r) (rt_last_cpu_buffer_update r)
    (rt_output_topology r) (rt_input_focus r).
Definition set_xfixes_regions (r : XAuthorityRuntime) (v : gmap XResourceId Region) : XAuthorityRuntime :=
  mk_runtime (rt_resources r) (rt_windows r) (rt_shm_segments r) (rt_selections r) (rt_clipboard r)
    (rt_pending_clipboard r) (rt_clipboard_proxies r) (rt_next_clipboard_proxy r)
    (rt_software_buffers r) (rt_dri3_pixmaps r) (rt_next_dma_buf_handle r) (rt_dri3_fences r) v
    (rt_next_fence_handle r) (rt_graphics_contexts r) (rt_window_background_pixels r)
    (rt_window_visuals r) (rt_glx_contexts r) (rt_glx_windows r) (rt_last_cpu_buffer_update r)
    (rt_output_topology r) (rt_input_focus r).
Definition set_next_fence_handle (r : XAuthorityRuntime) (v : Z) : XAuthorityRuntime :=
  mk_runtime (rt_resources r) (rt_windows r) (rt_shm_segments r) (rt_selections r) (rt_clipboard r)
    (rt_pending_clipboard r) (rt_clipboard_proxies r) (rt_next_clipboard_proxy r)
    (rt_software_buffers r) (rt_dri3_pixmaps r) (rt_next_dma_buf_handle r) (rt_dri3_fences r)
    (rt_xfixes_regions r) v (rt_graphics_contexts r) (rt_window_background_pixels r)
    (rt_window_visuals r) (rt_glx_contexts r) (rt_glx_windows r) (rt_last_cpu_buffer_update r)
    (rt_output_topology r) (rt_input_focus r).
Definition set_graphics_contexts (r : XAuthorityRuntime) (v : gmap XResourceId XGraphicsContextRecord) : XAuthorityRuntime :=
  mk_runtime (rt_resources r) (rt_windows r) (rt_shm_segments r) (rt_selections r) (rt_clipboard r)
    (rt_pending_clipboard r) (rt_clipboard_proxies r) (rt_next_clipboard_proxy r)
    (rt_software_buffers r) (rt_dri3_pixmaps r) (rt_next_dma_buf_handle r) (rt_dri3_fences r)
    (rt_xfixes_regions r) (rt_next_fence_handle r) v (rt_window_background_pixels r)
    (rt_window_visuals r) (rt_glx_contexts r) (rt_glx_windows r) (rt_last_cpu_buffer_update r)
    (rt_output_topology r) (rt_input_focus r).
Definition set_window_background_pixels (r : XAuthorityRuntime) (v : gmap XResourceId Z) : XAuthorityRuntime :=
  mk_runtime (rt_resources r) (rt_windows r) (rt_shm_segments r) (rt_selections r) (rt_clipboard r)
    (rt_pending_clipboard r) (rt_clipboard_proxies r) (rt_next_clipboard_proxy r)
    (rt_software_buffers r) (rt_dri3_pixmaps r) (rt_next_dma_buf_handle r) (rt_dri3_fences r)
    (rt_xfixes_regions r) (rt_next_fence_handle r) (rt_graphics_contexts r) v (rt_window_visuals r)
    (rt_glx_contexts r) (rt_glx_windows r) (rt_last_cpu_buffer_update r) (rt_output_topology r)
    (rt_input_focus r).
Definition set_window_visuals (r : XAuthorityRuntime) (v : gmap XResourceId (Z * Z * XResourceId)) : XAuthorityRuntime :=
  mk_runtime (rt_resources r) (rt_windows r) (rt_shm_segments r) (rt_selections r) (rt_clipboard r)
    (rt_pending_clipboard r) (rt_clipboard_proxies r) (rt_next_clipboard_proxy r)
    (rt_software_buffers r) (rt_dri3_pixmaps r) (rt_next_dma_buf_handle r) (rt_dri3_fences r)
    (rt_xfixes_regions r) (rt_next_fence_handle r) (rt_graphics_contexts r)
    (rt_window_background_pixels r) v (rt_glx_contexts r) (rt_glx_windows r)
    (rt_last_cpu_buffer_update r) (rt_output_topology r) (rt_input_focus r).
Definition set_glx_contexts (r : XAuthorityRuntime) (v : gmap XResourceId (NamespaceId * Z * bool)) : XAuthorityRuntime :=
  mk_runtime (rt_resources r) (rt_windows r) (rt_shm_segments r) (rt_selections r) (rt_clipboard r)
    (rt_pending_clipboard r) (rt_clipboard_proxies r) (rt_next_clipboard_proxy r)
    (rt_software_buffers r) (rt_dri3_pixmaps r) (rt_next_dma_buf_handle r) (rt_dri3_fences r)
    (rt_xfixes_regions r) (rt_next_fence_handle r) (rt_graphics_contexts r)
    (rt_window_background_pixels r) (rt_window_visuals r) v (rt_glx_windows r)
    (rt_last_cpu_buffer_update r) (rt_output_topology r) (rt_input_focus r).
Definition set_glx_windows (r : XAuthorityRuntime) (v : gmap XResourceId (NamespaceId * XResourceId * Z)) : XAuthorityRuntime :=
  mk_runtime (rt_resources r) (rt_windows r) (rt_shm_segments r) (rt_selections r) (rt_clipboard r)
    (rt_pending_clipboard r) (rt_clipboard_proxies r) (rt_next_clipboard_proxy r)
    (rt_software_buffers r) (rt_dri3_pixmaps r) (rt_next_dma_buf_handle r) (rt_dri3_fences r)
    (rt_xfixes_regions r) (rt_next_fence_handle r) (rt_graphics_contexts r)
    (rt_window_background_pixels r) (rt_window_visuals r) (rt_glx_contexts r) v
    (rt_last_cpu_buffer_update r) (rt_output_topology r) (rt_input_focus r).
Definition set_last_cpu_buffer_update (r : XAuthorityRuntime) (v : option XAuthorityCpuBufferUpdate) : XAuthorityRuntime :=
  mk_runtime (rt_resources r) (rt_windows r) (rt_shm_segments r) (rt_selections r) (rt_clipboard r)
    (rt_pending_clipboard r) (rt_clipboard_proxies r) (rt_next_clipboard_proxy r)
    (rt_software_buffers r) (rt_dri3_pixmaps r) (rt_next_dma_buf_handle r) (rt_dri3_fences r)
    (rt_xfixes_regions r) (rt_next_fence_handle r) (rt_graphics_contexts r)
    (rt_window_background_pixels r) (rt_window_visuals r) (rt_glx_contexts r) (rt_glx_windows r) v
    (rt_output_topology r) (rt_input_focus r).
Definition set_output_topology (r : XAuthorityRuntime) (v : OutputTopologySnapshot) : XAuthorityRuntime :=
  mk_runtime (rt_resources r) (rt_windows r) (rt_shm_segments r) (rt_selections r) (rt_clipboard r)
    (rt_pending_clipboard r) (rt_clipboard_proxies r) (rt_next_clipboard_proxy r)
    (rt_software_buffers r) (rt_dri3_pixmaps r) (rt_next_dma_buf_handle r) (rt_dri3_fences r)
    (rt_xfixes_regions r) (rt_next_fence_handle r) (rt_graphics_contexts r)
    (rt_window_background_pixels r) (rt_window_visuals r) (rt_glx_contexts r) (rt_glx_windows r)
    (rt_last_cpu_buffer_update r) v (rt_input_focus r).
Definition set_input_focus (r : XAuthorityRuntime) (v : gmap NamespaceId (XResourceId * Z)) : XAuthorityRuntime :=
  mk_runtime (rt_resources r) (rt_windows r) (rt_shm_segments r) (rt_selections r) (rt_clipboard r)
    (rt_pending_clipboard r) (rt_clipboard_proxies r) (rt_next_clipboard_proxy r)
    (rt_software_buffers r) (rt_dri3_pixmaps r) (rt_next_dma_buf_handle r) (rt_dri3_fences r)
    (rt_xfixes_regions r) (rt_next_fence_handle r) (rt_graphics_contexts r)
    (rt_window_background_pixels r) (rt_window_visuals r) (rt_glx_contexts r) (rt_glx_windows r)
    (rt_last_cpu_buffer_update r) (rt_output_topology r) v.

(** ** The monad of its operations *)

Definition X (E A : Type) : Type := XAuthorityRuntime → result A E * XAuthorityRuntime.
#[export] Instance x_ret E : MRet (X E) := λ A a r, (Ok a, r).
#[export] Instance x_bind E : MBind (X E) := λ A B k m r,
  match m r with
  | (Ok a, r) => k a r
  | (Err e, r) => (Err e, r)
  end.
Definition x_fail {E A} (e : E) : X E A := λ r, (Err e, r).
Definition x_get {E} : X E XAuthorityRuntime := λ r, (Ok r, r).
Definition x_set {E} (f : XAuthorityRuntime → XAuthorityRuntime) : X E unit := λ r, (Ok (), f r).
(** A result that leaves the state alone, and [?] on one whose error is converted. *)
Definition x_lift {E A} (m : result A E) : X E A := λ r, (m, r).
Definition x_access {A} (m : result A XAuthorityAccessError) : X XAuthorityRuntimeError A :=
  x_lift (map_err from_access m).
Definition x_guard {E} (P : Prop) `{Decision P} (e : E) : X E unit :=
  if decide P then mret () else x_fail e.

Lemma x_bind_ok {E A B} (m : X E A) (k : A → X E B) r b r' :
  (m ≫= k) r = (Ok b, r') ↔ ∃ a r1, m r = (Ok a, r1) ∧ k a r1 = (Ok b, r').
Proof. unfold mbind, x_bind. destruct (m r) as [[a|e] r1]; naive_solver. Qed.
Lemma x_access_ok {A} (m : result A XAuthorityAccessError) r a r' :
  x_access m r = (Ok a, r') ↔ m = Ok a ∧ r' = r.
Proof. unfold x_access, x_lift. destruct m; naive_solver. Qed.
