(* ===== verification/XRuntime.v ===== *)
(** * Requests and clipboard transfers of the X authority runtime
    ([sophia-x-authority/src/runtime.rs], [apply] and the clipboard operations)

    Windows are created and mapped, pixmaps presented, selections claimed and requested; a clipboard
    transfer that the broker approved asks the source for its data through a proxy window, and hands
    the payload to the requestor exactly once. *)

From stdpp Require Import strings.
From S2P Require Import Prelude Ids Text Geometry Packets PortalPackets Portals IpcPortal.
From S2P Require Import XAtoms XTables XProperties XSelections XSoftware XState.
Local Open Scope Z_scope.

Notation Rt := (X XAuthorityRuntimeError).

(** ** Requests *)

(** Storing what a table operation returns. *)
Definition insert_resource (id : XResourceId) (kind : XResourceKind) (namespace : NamespaceId)
    (generation : Z) : Rt unit :=
  r ← x_get; t ← x_access (resource_insert (rt_resources r) id kind namespace generation);
  x_set (λ r, set_resources r t).
Definition lookup_resource (namespace : NamespaceId) (id : XResourceId) (kind : XResourceKind) :
    Rt XResourceRecord :=
  r ← x_get; x_access (resource_lookup (rt_resources r) namespace id kind).
Definition apply_window_event (event : XWindowLifecycleEvent) : Rt (option AuthoritySurface) :=
  r ← x_get; p ← x_access (window_apply (rt_windows r) event);
  _ ← x_set (λ r, set_windows r p.2); mret p.1.
Definition advance_window (window : XResourceId) (expected : Z) : Rt Z :=
  r ← x_get; p ← x_access (advance_generation (rt_windows r) window expected);
  _ ← x_set (λ r, set_windows r p.2); mret p.1.

Definition set_selection_owner (transaction : TransactionId) (namespace : NamespaceId) (selection : XAtom)
    (owner : option XResourceId) (timestamp selection_timestamp : Z) (kind : XSelectionChangeKind) :
    Rt XAuthorityResponsePacket :=
  _ ← match owner with
      | Some owner => _ ← lookup_resource namespace owner KWindow; mret ()
      | None => mret ()
      end;
  r ← x_get;
  let '(update, selections) :=
    apply_event (rt_selections r) (mk_selection_event selection owner timestamp selection_timestamp kind)
      (rt_windows r) in
  _ ← x_set (λ r, set_selections r selections);
  let previous_owner := record ← su_previous update; so_owner record in
  mret (with_artifacts (accepted transaction)
    (match previous_owner with
     | Some previous_owner =>
         if decide (Some previous_owner ≠ owner) then [ArtifactClear previous_owner selection timestamp] else []
     | None => []
     end)).

Definition request_selection (transaction : TransactionId) (namespace : NamespaceId)
    (request : XSelectionRequest) (transfer : PortalTransferId) : Rt XAuthorityResponsePacket :=
  _ ← lookup_resource namespace (xq_requestor request) KWindow;
  r ← x_get;
  let '(dispatch, clipboard) :=
    dispatch_clipboard_selection_request request (rt_selections r) (rt_windows r) transfer (rt_clipboard r) in
  _ ← x_set (λ r, set_clipboard r clipboard);
  dispatch ← x_lift (map_err from_selection dispatch);
  match dispatch with
  | SameNamespace request => mret (with_artifacts (accepted transaction) [ArtifactRequest request])
  | CrossNamespace portal_request command =>
      _ ← x_set (λ r, set_pending_clipboard r
            (<[transfer := mk_pending namespace portal_request LittleEndian]> (rt_pending_clipboard r)));
      mret (with_commands (accepted transaction) (option_list (from_portal_command command)))
  end.

Definition apply_checked (request : XAuthorityRequestPacket) : Rt XAuthorityResponsePacket :=
  let transaction := rq_transaction request in
  let namespace := rq_namespace request in
  match rq_kind request with
  | CreateWindow window surface geometry constraints generation =>
      _ ← insert_resource window KWindow namespace generation;
      s ← apply_window_event (WCreated window surface namespace geometry constraints generation);
      mret (with_surfaces (accepted transaction) (option_list s))
  | MapWindow window generation =>
      _ ← lookup_resource namespace window KWindow;
      s ← apply_window_event (WMapped window generation);
      mret (with_surfaces (accepted transaction) (option_list s))
  | RequestPresentPixmap window pixmap damage previous_committed_generation timeout_msec =>
      r ← x_get;
      t ← x_access (surface_transaction_from_drawing_update (rt_windows r)
            (present_pixmap transaction namespace window pixmap damage previous_committed_generation timeout_msec));
      _ ← advance_window window previous_committed_generation;
      mret (with_transactions (accepted transaction) [t])
  | SetSelectionOwner selection owner timestamp selection_timestamp kind =>
      set_selection_owner transaction namespace selection owner timestamp selection_timestamp kind
  | RequestSelection requestor selection target target_name property time transfer =>
      request_selection transaction namespace
        (mk_selection_request requestor selection target target_name property time) transfer
  end.

(** A rejected request is answered with its error, a rejected selection request also with the
    failure notice the requestor waits for. *)
Definition apply (request : XAuthorityRequestPacket) (r : XAuthorityRuntime) :
    XAuthorityResponsePacket * XAuthorityRuntime :=
  match apply_checked request r with
  | (Ok response, r) => (response, r)
  | (Err error, r) =>
      let response := rejected (rq_transaction request) error in
      (match rq_kind request with
       | RequestSelection requestor selection target _ _ time transfer =>
           with_artifacts response
             [ArtifactFailure (clipboard_selection_failure_notify
                (mk_failure_request transfer requestor selection target time))]
       | _ => response
       end, r)
  end.

(** ** Clipboard transfers *)

Inductive ClipboardSelectionExecutionError : Type :=
| ExUnknownTransfer | ExDenied | ExExpired | ExDisconnected | ExExecutorFailure | ExStaleOwnerGeneration
| ExUnsupportedTarget | ExInvalidUtf8 | ExMissingProperty | ExPayloadTooLarge | ExProperty.
#[export] Instance execution_error_eq_dec : EqDecision ClipboardSelectionExecutionError.
Proof. solve_decision. Defined.
Inductive ClipboardSelectionExecutionOutcome : Type :=
| Handoff (h : ClipboardSelectionHandoff)
| Failed (error : ClipboardSelectionExecutionError) (notify : ClipboardSelectionNotify).
Notation Ex := (X ClipboardSelectionExecutionError).

Definition set_pending_clipboard_byte_order (transfer : PortalTransferId) (byte_order : XByteOrder)
    (r : XAuthorityRuntime) : XAuthorityRuntime :=
  set_pending_clipboard r
    (alter (λ p, mk_pending (pe_namespace p) (pe_portal_request p) byte_order) transfer (rt_pending_clipboard r)).

(** The grant is active and for this very transfer. *)
Definition clipboard_grant_matches (grant : PortalGrant) (request : ClipboardTransferRequest) : Prop :=
  pg_state grant = GActive ∧ pg_source_generation grant = cb_generation request ∧
  pg_source_namespace grant = cb_source_namespace request ∧
  pg_target_namespace grant = cb_target_namespace request.
#[export] Instance clipboard_grant_matches_dec g q : Decision (clipboard_grant_matches g q).
Proof. unfold clipboard_grant_matches; apply _. Defined.

Definition begin_clipboard_source_request (grant : PortalGrant) : Ex ClipboardSelectionProxy :=
  r ← x_get;
  pending ← x_lift (ok_or (rt_pending_clipboard r !! pg_transfer grant) ExUnknownTransfer);
  let request := pe_portal_request pending in
  _ ← x_guard (clipboard_grant_matches grant (cp_request request)) ExStaleOwnerGeneration;
  owner_record ← x_lift (ok_or (current_owner_for_selection (rt_selections r) (cf_selection (cp_failure request)))
                           ExStaleOwnerGeneration);
  _ ← x_guard (so_generation owner_record = pg_source_generation grant) ExStaleOwnerGeneration;
  owner ← x_lift (ok_or (so_owner owner_record) ExStaleOwnerGeneration);
  raw ← x_lift (ok_or (raw ← checked_add u32_MAX 65536 (rt_next_clipboard_proxy r);
                       if decide (raw < 2097152) then Some raw else None) ExExecutorFailure);
  _ ← x_set (λ r, set_next_clipboard_proxy r (saturating_add u32_MAX (rt_next_clipboard_proxy r) 1));
  let proxy := mk_proxy (pg_transfer grant) (pg_source_namespace grant) owner (x_resource_id raw 1)
                 (cf_selection (cp_failure request)) (cf_target (cp_failure request))
                 (cf_target (cp_failure request)) (cf_time (cp_failure request)) in
  _ ← x_set (λ r, set_clipboard_proxies r (<[px_requestor proxy := proxy]> (rt_clipboard_proxies r)));
  mret proxy.

Definition is_clipboard_proxy (r : XAuthorityRuntime) (namespace : NamespaceId) (window : XResourceId) : Prop :=
  (px_namespace <$> rt_clipboard_proxies r !! window) = Some namespace.
#[export] Instance is_clipboard_proxy_dec r ns w : Decision (is_clipboard_proxy r ns w).
Proof. unfold is_clipboard_proxy; apply _. Defined.

(** The properties are the frontend's; they are passed in and out. *)
Definition capture_clipboard_source_payload (requestor : XResourceId) (property : XAtom)
    (properties : gmap (NamespaceId * XResourceId * Z) XPropertyRecord) (r : XAuthorityRuntime) :
    result (PortalTransferId * list Z) ClipboardSelectionExecutionError *
    gmap (NamespaceId * XResourceId * Z) XPropertyRecord * XAuthorityRuntime :=
  match rt_clipboard_proxies r !! requestor with
  | None => (Err ExUnknownTransfer, properties, r)
  | Some proxy =>
      let r := set_clipboard_proxies r (delete requestor (rt_clipboard_proxies r)) in
      let removed := (remove_window properties (px_namespace proxy) (px_requestor proxy)).2 in
      if decide (property = X_ATOM_NONE ∨ property ≠ px_property proxy) then
        (Err ExExecutorFailure, removed, r)
      else
        match property_get properties (px_namespace proxy) (px_requestor proxy) property with
        | None => (Err ExExecutorFailure, properties, r)
        | Some record =>
            if decide (str_len (pp_bytes record) > MAX_CLIPBOARD_TEXT_HANDOFF_BYTES) then
              (Err ExPayloadTooLarge, removed, r)
            else (Ok (px_transfer proxy, pp_bytes record), removed, r)
        end
  end.

Definition discard_clipboard_proxies (transfer : PortalTransferId) (r : XAuthorityRuntime) :
    list (NamespaceId * XResourceId) * XAuthorityRuntime :=
  ((λ p, (px_namespace p, px_requestor p)) <$>
     filter (λ p, px_transfer p = transfer) (btree_values (rt_clipboard_proxies r)),
   set_clipboard_proxies r
     (filter (λ e : XResourceId * ClipboardSelectionProxy, px_transfer e.2 ≠ transfer) (rt_clipboard_proxies r))).

(** The notice of the outcome, with the property it is under. *)
Definition notify_of (f : ClipboardSelectionFailureRequest) (property : XAtom) : ClipboardSelectionNotify :=
  mk_notify (cf_time f) (cf_requestor f) (cf_selection f) (cf_target f) property.

(** The atoms of the TARGETS answer, in the client's byte order; an atom that cannot be interned ends
    the execution. *)
Definition target_names : list (list Z) := [str "TARGETS"; str "UTF8_STRING"; str "text/plain;charset=utf-8"].
Definition atom_bytes (order : XByteOrder) (atom : XAtom) : list Z :=
  match order with LittleEndian => to_le_bytes 4 atom | BigEndian => reverse (to_le_bytes 4 atom) end.
Definition intern_target (order : XByteOrder) (s : result (list Z) ClipboardSelectionExecutionError * XAtomTable)
    (name : list Z) : result (list Z) ClipboardSelectionExecutionError * XAtomTable :=
  match s with
  | (Err e, atoms) => (Err e, atoms)
  | (Ok bytes, atoms) =>
      match intern atoms name false with
      | (Ok (Some atom), atoms) => (Ok (bytes ++ atom_bytes order atom), atoms)
      | (Ok None, atoms) => (Err ExProperty, atoms)
      | (Err _, atoms) => (Err ExProperty, atoms)
      end
  end.

Definition is_plain_text_target (name : list Z) : Prop :=
  name = str "UTF8_STRING" ∨ name = str "text/plain" ∨ name = str "text/plain;charset=utf-8".
#[export] Instance is_plain_text_target_dec n : Decision (is_plain_text_target n).
Proof. unfold is_plain_text_target; apply _. Defined.

(** What the execution writes: type, format and bytes of the property. *)
Definition payload_property (pending : PendingClipboardSelection) (payload : list Z) (atoms : XAtomTable) :
    result (result (XAtom * Z * list Z) ClipboardSelectionExecutionError) ClipboardSelectionExecutionError *
    XAtomTable :=
  let name := target_as_str (cb_target (cp_request (pe_portal_request pending))) in
  if decide (name = str "TARGETS") then
    match foldl (intern_target (pe_byte_order pending)) (Ok [], atoms) target_names with
    | (Ok bytes, atoms) => (Ok (Ok (X_ATOM_ATOM, 32, bytes)), atoms)
    | (Err e, atoms) => (Err e, atoms)
    end
  else if decide (is_plain_text_target name) then
    if decide (utf8_ok payload) then
      (Ok (Ok (cf_target (cp_failure (pe_portal_request pending)), 8, payload)), atoms)
    else (Ok (Err ExInvalidUtf8), atoms)
  else (Ok (Err ExUnsupportedTarget), atoms).

Notation ClipboardTables := (XAtomTable * gmap (NamespaceId * XResourceId * Z) XPropertyRecord)%type (only parsing).

(** The checks before anything is written; [Some e] is the failure reported to the requestor. *)
Definition execution_refused (pending : PendingClipboardSelection) (transfer : PortalTransferId)
    (grant : PortalGrant) (payload : list Z) (atoms : XAtomTable) (r : XAuthorityRuntime) :
    option ClipboardSelectionExecutionError :=
  let request := pe_portal_request pending in
  let selection := cf_selection (cp_failure request) in
  if decide (¬ (pg_transfer grant = transfer ∧ clipboard_grant_matches grant (cp_request request)))
  then Some ExStaleOwnerGeneration
  else
    match current_owner_for_selection (rt_selections r) selection with
    | None => Some ExStaleOwnerGeneration
    | Some owner =>
        if decide (so_generation owner ≠ cb_generation (cp_request request)) then Some ExStaleOwnerGeneration
        else if decide (cp_property request = X_ATOM_NONE) then Some ExMissingProperty
        else if decide (str_len payload > MAX_CLIPBOARD_TEXT_HANDOFF_BYTES) then Some ExPayloadTooLarge
        else if decide (atom_name atoms selection ≠ Some (str "PRIMARY") ∧
                        atom_name atoms selection ≠ Some (str "CLIPBOARD")) then Some ExUnsupportedTarget
        else None
    end.

Definition execute_clipboard_payload (transfer : PortalTransferId) (grant : PortalGrant)
    (payload : list Z) (tables : ClipboardTables) (r : XAuthorityRuntime) :
    result ClipboardSelectionExecutionOutcome ClipboardSelectionExecutionError * ClipboardTables * XAuthorityRuntime :=
  let '(atoms, properties) := tables in
  match rt_pending_clipboard r !! transfer with
  | None => (Err ExUnknownTransfer, tables, r)
  | Some pending =>
      let r := set_pending_clipboard r (delete transfer (rt_pending_clipboard r)) in
      let request := pe_portal_request pending in
      let failure := cp_failure request in
      let fail e := Failed e (notify_of failure X_ATOM_NONE) in
      match execution_refused pending transfer grant payload atoms r with
      | Some e => (Ok (fail e), tables, r)
      | None =>
          match payload_property pending payload atoms with
          | (Err e, atoms) => (Err e, (atoms, properties), r)
          | (Ok (Err e), atoms) => (Ok (fail e), (atoms, properties), r)
          | (Ok (Ok (property_type, format, bytes)), atoms) =>
              match apply_change properties (pe_namespace pending)
                      (mk_property_change Replace (cf_requestor failure) (cp_property request) property_type
                         format bytes) with
              | Err _ => (Ok (fail ExProperty), (atoms, properties), r)
              | Ok (_, properties) =>
                  (Ok (Handoff (mk_handoff transfer
                     (mk_text_property (cf_requestor failure) (cp_property request) (cf_target failure) bytes)
                     (notify_of failure (cp_property request)))), (atoms, properties), r)
              end
          end
      end
  end.

Definition fail_clipboard_transfer (transfer : PortalTransferId) (error : ClipboardSelectionExecutionError) :
    Ex ClipboardSelectionExecutionOutcome :=
  r ← x_get;
  pending ← x_lift (ok_or (rt_pending_clipboard r !! transfer) ExUnknownTransfer);
  _ ← x_set (λ r, set_pending_clipboard r (delete transfer (rt_pending_clipboard r)));
  mret (Failed error (notify_of (cp_failure (pe_portal_request pending)) X_ATOM_NONE)).

Definition execute_clipboard_payload_frame (frame : list Z) (grant : PortalGrant) (tables : ClipboardTables)
    (r : XAuthorityRuntime) :
    result ClipboardSelectionExecutionOutcome ClipboardSelectionExecutionError * ClipboardTables * XAuthorityRuntime :=
  match decode_portal_clipboard_payload_frame frame with
  | Err _ => (Err ExExecutorFailure, tables, r)
  | Ok (transfer, payload) => execute_clipboard_payload transfer grant payload tables r
  end.

(** ** What requests do *)

Lemma x_bind_eq {E A B} (m : X E A) (k : A → X E B) r :
  (m ≫= k) r = match m r with (Ok a, r) => k a r | (Err e, r) => (Err e, r) end.
Proof. reflexivity. Qed.
Lemma x_get_eq {E B} (k : XAuthorityRuntime → X E B) r : (x_get ≫= k) r = k r r.
Proof. reflexivity. Qed.
Lemma x_set_eq {E B} f (k : unit → X E B) r : (x_set f ≫= k) r = k () (f r).
Proof. reflexivity. Qed.
Lemma x_lift_eq {E A B} (m : result A E) (k : A → X E B) r :
  (x_lift m ≫= k) r = match m with Ok a => k a r | Err e => (Err e, r) end.
Proof. by destruct m. Qed.
Lemma x_guard_eq {E B} (P : Prop) `{Decision P} (e : E) (k : unit → X E B) r :
  (x_guard P e ≫= k) r = if decide P then k () r else (Err e, r).
Proof. unfold x_guard, mbind, x_bind. by case_decide. Qed.
Lemma x_access_eq {A B} (m : result A XAuthorityAccessError) (k : A → Rt B) r :
  (x_access m ≫= k) r = match m with Ok a => k a r | Err e => (Err (from_access e), r) end.
Proof. by destruct m. Qed.
Lemma lookup_resource_eq ns id kind r :
  lookup_resource ns id kind r = (map_err from_access (resource_lookup (rt_resources r) ns id kind), r).
Proof. reflexivity. Qed.
Lemma insert_resource_eq id kind ns g r :
  insert_resource id kind ns g r =
    match resource_insert (rt_resources r) id kind ns g with
    | Ok t => (Ok (), set_resources r t)
    | Err e => (Err (from_access e), r)
    end.
Proof. unfold insert_resource, mbind, x_bind, x_get, x_access, x_lift. by destruct (resource_insert _ _ _ _ _). Qed.
Lemma apply_window_event_eq event r :
  apply_window_event event r =
    match window_apply (rt_windows r) event with
    | Ok (s, t) => (Ok s, set_windows r t)
    | Err e => (Err (from_access e), r)
    end.
Proof. unfold apply_window_event, mbind, x_bind, x_get, x_access, x_lift. by destruct (window_apply _ _) as [[]|]. Qed.
Lemma advance_window_eq window expected r :
  advance_window window expected r =
    match advance_generation (rt_windows r) window expected with
    | Ok (n, t) => (Ok n, set_windows r t)
    | Err e => (Err (from_access e), r)
    end.
Proof. unfold advance_window, mbind, x_bind, x_get, x_access, x_lift. by destruct (advance_generation _ _ _) as [[]|]. Qed.
Lemma set_clipboard_id r : set_clipboard r (rt_clipboard r) = r.
Proof. by destruct r. Qed.

(** A selection request is dispatched, and answered. *)
Lemma request_selection_eq transaction ns q transfer r :
  request_selection transaction ns q transfer r =
    match resource_lookup (rt_resources r) ns (xq_requestor q) KWindow with
    | Err e => (Err (from_access e), r)
    | Ok _ =>
        match dispatch_clipboard_selection_request q (rt_selections r) (rt_windows r) transfer (rt_clipboard r) with
        | (Err e, clipboard) => (Err (from_selection e), set_clipboard r clipboard)
        | (Ok (SameNamespace o), clipboard) =>
            (Ok (with_artifacts (accepted transaction) [ArtifactRequest o]), set_clipboard r clipboard)
        | (Ok (CrossNamespace p command), clipboard) =>
            (Ok (with_commands (accepted transaction) (option_list (from_portal_command command))),
             set_pending_clipboard (set_clipboard r clipboard)
               (<[transfer := mk_pending ns p LittleEndian]> (rt_pending_clipboard r)))
        end
    end.
Proof.
  unfold request_selection. rewrite x_bind_eq, lookup_resource_eq.
  destruct (resource_lookup _ _ _ _); simpl; [|done]. rewrite x_bind_eq. unfold x_get.
  destruct (dispatch_clipboard_selection_request _ _ _ _ _) as [[[o|p c]|e] cb]; done.
Qed.

(** Every selection request is answered exactly once, and only in one way: accepted, it is
    forwarded to the owner of the selection, or a prompt for its transfer goes to the portal;
    refused, its requestor gets the failure notice for the selection, target and time it named,
    without a property. *)
Theorem selection_request_answered request requestor selection target name property time transfer r :
  rq_kind request = RequestSelection requestor selection target name property time transfer →
  let '(response, r') := apply request r in
  rs_transaction response = rq_transaction request ∧ rs_surfaces response = [] ∧ rs_transactions response = [] ∧
  ((∃ owner, rs_outcome response = Accepted ∧ rs_portal_commands response = [] ∧
      rs_selection_artifacts response = [ArtifactRequest owner] ∧
      co_requestor owner = requestor ∧ co_property owner = property) ∨
   (∃ t, rs_outcome response = Accepted ∧ rs_selection_artifacts response = [] ∧
      rs_portal_commands response = [XPromptClipboardTransfer t] ∧ pt_transfer t = transfer ∧
      is_Some (rt_pending_clipboard r' !! transfer)) ∨
   (∃ e, rs_outcome response = Rejected e ∧ rs_portal_commands response = [] ∧ r' = r ∧
      rs_selection_artifacts response =
        [ArtifactFailure (mk_failure transfer (mk_notify time requestor selection target X_ATOM_NONE))])).
Proof.
  intros Hk. unfold apply, apply_checked. rewrite Hk. rewrite request_selection_eq.
  set (q := mk_selection_request requestor selection target name property time).
  destruct (resource_lookup _ _ _ _) as [rec|e]; [|split_and!; try done; right; right; by exists (from_access e)].
  pose proof (dispatch_outcome q (rt_selections r) (rt_windows r) transfer (rt_clipboard r)) as Hd.
  destruct (dispatch_clipboard_selection_request _ _ _ _ _) as [[[o|p c]|e] cb].
  - destruct Hd as (-> & Hreq & _). split_and!; try done. left. exists o. rewrite Hreq. by split_and!.
  - destruct Hd as (owner & s & t & _ & _ & -> & -> & _). split_and!; try done. right; left.
    eexists. split_and!; try done. simpl. rewrite lookup_insert_eq. by eexists.
  - destruct Hd as [-> _]. rewrite set_clipboard_id. split_and!; try done. right; right. by exists (from_selection e).
Qed.

(** Two clients in namespaces 1 and 2 with a window each, and a claim of the first on a selection. *)
Definition example_requests : list XAuthorityRequestPacket :=
  let create ns id := mk_request (from_raw 1) (from_raw ns)
    (CreateWindow (x_resource_id id 1) (surface_id id 1) (mk_rect 0 0 8 8) (mk_constraints None None) 1) in
  [create 1 10; create 2 20; create 3 30;
   mk_request (from_raw 2) (from_raw 1) (SetSelectionOwner 1 (Some (x_resource_id 10 1)) 5 5 SetOwner)].
Definition run_requests (r : XAuthorityRuntime) (requests : list XAuthorityRequestPacket) : XAuthorityRuntime :=
  foldl (λ r q, (apply q r).2) r requests.
Definition example_runtime : XAuthorityRuntime := run_requests runtime_new example_requests.
Definition example_request (ns window : Z) : XAuthorityRequestPacket :=
  mk_request (from_raw 3) (from_raw ns)
    (RequestSelection (x_resource_id window 1) 1 31 (str "UTF8_STRING") 40 9 (from_raw 77)).

Lemma selection_request_answered_witness :
  rs_portal_commands (apply (example_request 3 30) example_runtime).1 =
    [XPromptClipboardTransfer (mk_transfer (from_raw 77) (from_raw 1) (from_raw 3) KClipboard
       (Some (str "UTF8_STRING")) 0 DPending 1)] ∧
  let '(response, r') := apply (example_request 3 30) example_runtime in
  rs_transaction response = from_raw 3 ∧ rs_surfaces response = [] ∧ rs_transactions response = [] ∧
  ((∃ owner, rs_outcome response = Accepted ∧ rs_portal_commands response = [] ∧
      rs_selection_artifacts response = [ArtifactRequest owner] ∧
      co_requestor owner = x_resource_id 30 1 ∧ co_property owner = 40) ∨
   (∃ t, rs_outcome response = Accepted ∧ rs_selection_artifacts response = [] ∧
      rs_portal_commands response = [XPromptClipboardTransfer t] ∧ pt_transfer t = from_raw 77 ∧
      is_Some (rt_pending_clipboard r' !! from_raw 77)) ∨
   (∃ e, rs_outcome response = Rejected e ∧ rs_portal_commands response = [] ∧ r' = example_runtime ∧
      rs_selection_artifacts response =
        [ArtifactFailure (mk_failure (from_raw 77) (mk_notify 9 (x_resource_id 30 1) 1 31 X_ATOM_NONE))])).
Proof.
  split; [vm_compute; reflexivity|].
  apply (selection_request_answered (example_request 3 30) (x_resource_id 30 1) 1 31 (str "UTF8_STRING") 40 9
           (from_raw 77) example_runtime). reflexivity.
Defined.

(** Creating a window registers the resource first: a surface that is refused leaves it behind. *)
Definition created_without_window (request : XAuthorityRequestPacket) : Prop :=
  match rq_kind request with
  | CreateWindow window surface _ _ _ => xid_valid window ∧ ¬ surface_valid surface
  | _ => False
  end.

Lemma set_selection_owner_rejected tx ns sel owner ts sts kind r e r' :
  set_selection_owner tx ns sel owner ts sts kind r = (Err e, r') → r' = r.
Proof.
  unfold set_selection_owner. rewrite x_bind_eq. destruct owner as [o|]; rewrite ?x_bind_eq, ?lookup_resource_eq.
  - destruct (resource_lookup _ _ _ _); cbn; [|naive_solver].
    intros H. discriminate H.
  - intros H. discriminate H.
Qed.

(** A request that is refused changes nothing, but for that resource. *)
Lemma rejected_changes_nothing request r e r' :
  apply_checked request r = (Err e, r') → ¬ created_without_window request → r' = r.
Proof.
  unfold apply_checked, created_without_window. destruct (rq_kind request) as
    [w s g c gen|w gen|w p d prev t|sel o ts sts k|q sel tg nm pr tm tr].
  - rewrite x_bind_eq, insert_resource_eq. unfold resource_insert.
    case_decide as Hid; simpl; [|naive_solver]. case_decide as Hns; simpl; [|naive_solver].
    rewrite x_bind_eq, apply_window_event_eq. simpl. rewrite decide_True by done.
    case_decide as Hs; simpl; [|naive_solver]. rewrite decide_True by done. simpl. done.
  - rewrite x_bind_eq, lookup_resource_eq. destruct (resource_lookup _ _ _ _); simpl; [|naive_solver].
    rewrite x_bind_eq, apply_window_event_eq. destruct (window_apply _ _) as [[]|]; simpl; naive_solver.
  - rewrite x_get_eq, x_access_eq.
    destruct (surface_transaction_from_drawing_update _ _); simpl; [|naive_solver].
    rewrite x_bind_eq, advance_window_eq. destruct (advance_generation _ _ _) as [[]|]; simpl; naive_solver.
  - intros H _. by eapply set_selection_owner_rejected.
  - rewrite request_selection_eq. destruct (resource_lookup _ _ _ _); simpl; [|naive_solver].
    pose proof (dispatch_outcome (mk_selection_request q sel tg nm pr tm) (rt_selections r) (rt_windows r) tr (rt_clipboard r)) as Hd.
    destruct (dispatch_clipboard_selection_request _ _ _ _ _) as [[[o|p c]|e'] cb]; simpl; try naive_solver.
    destruct Hd as [-> _]. rewrite set_clipboard_id. naive_solver.
Qed.

Lemma refused_surface_leaves_resource :
  let request := mk_request (from_raw 1) (from_raw 1)
    (CreateWindow (x_resource_id 10 1) SURFACE_INVALID (mk_rect 0 0 8 8) (mk_constraints None None) 1) in
  let '(response, r) := apply request runtime_new in
  rs_outcome response = Rejected RtInvalidResource ∧ is_Some (rt_resources r !! x_resource_id 10 1) ∧
  rt_windows r !! x_resource_id 10 1 = None.
Proof. vm_compute. split_and!; [reflexivity|by eexists|reflexivity]. Qed.

(** ** What an execution hands over *)

(** The grant an execution ran under, for the pending request it consumed. *)
Definition execution_granted (pending : PendingClipboardSelection) (transfer : PortalTransferId)
    (grant : PortalGrant) (payload : list Z) (atoms : XAtomTable) (r : XAuthorityRuntime) : Prop :=
  pg_transfer grant = transfer ∧ clipboard_grant_matches grant (cp_request (pe_portal_request pending)) ∧
  (∃ owner, current_owner_for_selection (rt_selections r) (cf_selection (cp_failure (pe_portal_request pending))) = Some owner ∧
     so_generation owner = pg_source_generation grant) ∧
  cp_property (pe_portal_request pending) ≠ X_ATOM_NONE ∧ str_len payload ≤ MAX_CLIPBOARD_TEXT_HANDOFF_BYTES ∧
  (atom_name atoms (cf_selection (cp_failure (pe_portal_request pending))) = Some (str "PRIMARY") ∨
   atom_name atoms (cf_selection (cp_failure (pe_portal_request pending))) = Some (str "CLIPBOARD")).

Lemma execution_refused_none pending transfer grant payload atoms r :
  execution_refused pending transfer grant payload atoms r = None ↔
  execution_granted pending transfer grant payload atoms r.
Proof.
  unfold execution_refused, execution_granted. cbv zeta.
  destruct (decide (pg_transfer grant = transfer ∧ clipboard_grant_matches grant (cp_request (pe_portal_request pending)))) as [Hg|Hg].
  2: { rewrite decide_True by done. split; [done|]. tauto. }
  rewrite decide_False by tauto. destruct Hg as [Ht Hm]. pose proof Hm as (_ & Hgen & _).
  destruct (current_owner_for_selection _ _) as [owner|]; [|split; [done|by intros (_ & _ & (? & ? & _) & _)]].
  rewrite <-Hgen. case_decide as H1; [split; [done|intros (_ & _ & (? & [= <-] & ?) & _); congruence]|].
  case_decide as H2; [split; [done|tauto]|]. case_decide as H3; [split; [done|intros (_ & _ & _ & _ & ? & _); lia]|].
  case_decide as H4; [split; [done|tauto]|]. split; [|done]. intros _.
  assert (so_generation owner = pg_source_generation grant) by (destruct (decide (so_generation owner = pg_source_generation grant)); tauto).
  split_and!; try done; [eauto|].
  destruct (decide (atom_name atoms (cf_selection (cp_failure (pe_portal_request pending))) = Some (str "PRIMARY"))); [tauto|].
  destruct (decide (atom_name atoms (cf_selection (cp_failure (pe_portal_request pending))) = Some (str "CLIPBOARD"))); tauto.
Qed.

(** An atom asked for without [only_if_exists] is made, so the [expect] on it cannot fail. *)
Lemma intern_makes atoms name a atoms' : intern atoms name false = (Ok a, atoms') → is_Some a.
Proof.
  unfold intern. intros H. repeat (case_match; simplify_eq/=; try done); try by eexists.
Qed.

Definition payload_change (pending : PendingClipboardSelection) (p : XAtom * Z * list Z) : XPropertyChange :=
  mk_property_change Replace (cf_requestor (cp_failure (pe_portal_request pending)))
    (cp_property (pe_portal_request pending)) p.1.1 p.1.2 p.2.
Notation plain_text pending :=
  (is_plain_text_target (target_as_str (cb_target (cp_request (pe_portal_request pending))))).

(** The bytes written for a plain-text target are the payload itself. *)
Lemma payload_property_text pending payload atoms :
  plain_text pending →
  payload_property pending payload atoms =
    (Ok (if decide (utf8_ok payload) then
           Ok (cf_target (cp_failure (pe_portal_request pending)), 8, payload) else Err ExInvalidUtf8), atoms).
Proof.
  intros Ht. unfold payload_property. rewrite decide_False, decide_True by
    (done || by (intros Hn; rewrite Hn in Ht; destruct Ht as [?|[?|?]])).
  by case_decide.
Qed.

(** An execution that passes the checks writes the property of the pending request, or nothing. *)
Lemma execute_clipboard_payload_eq transfer grant payload atoms properties r pending :
  rt_pending_clipboard r !! transfer = Some pending →
  execute_clipboard_payload transfer grant payload (atoms, properties) r =
  (let r' := set_pending_clipboard r (delete transfer (rt_pending_clipboard r)) in
   let fail e := Ok (Failed e (notify_of (cp_failure (pe_portal_request pending)) X_ATOM_NONE)) in
   match execution_refused pending transfer grant payload atoms r with
   | Some e => (fail e, (atoms, properties), r')
   | None =>
       let '(written, atoms') := payload_property pending payload atoms in
       match written with
       | Err e => (Err e, (atoms', properties), r')
       | Ok (Err e) => (fail e, (atoms', properties), r')
       | Ok (Ok p) =>
           match apply_change properties (pe_namespace pending) (payload_change pending p) with
           | Err _ => (fail ExProperty, (atoms', properties), r')
           | Ok (_, properties') =>
               (Ok (Handoff (mk_handoff transfer
                  (mk_text_property (cf_requestor (cp_failure (pe_portal_request pending)))
                     (cp_property (pe_portal_request pending)) (cf_target (cp_failure (pe_portal_request pending))) p.2)
                  (notify_of (cp_failure (pe_portal_request pending)) (cp_property (pe_portal_request pending))))),
                (atoms', properties'), r')
           end
       end
   end).
Proof.
  intros Hp. unfold execute_clipboard_payload. rewrite Hp. cbv zeta.
  change (execution_refused pending transfer grant payload atoms (set_pending_clipboard r _))
    with (execution_refused pending transfer grant payload atoms r).
  destruct (execution_refused _ _ _ _ _ _); [done|].
  destruct (payload_property _ _ _) as [[[[[ty f] b]|e]|e] atoms']; try done.
Qed.

(** C6: a pending clipboard transfer is executed at most once: whatever the outcome, the pending
    request is gone and nothing else of the runtime changed.  The payload is handed over only under
    an active grant for this very transfer, from the source generation that still owns the selection,
    within the size limit; then the requestor's property holds exactly the handed bytes (for text:
    the payload, which is UTF-8), every other property is as before, and the notice names the
    property.  Any other outcome leaves all properties alone and the notice names none.  A text
    transfer that is granted, is UTF-8 and fits the property table is handed over. *)
Theorem clipboard_executed_once transfer grant payload atoms properties r pending :
  properties_ok properties → rt_pending_clipboard r !! transfer = Some pending →
  let request := pe_portal_request pending in
  let key := (pe_namespace pending, cf_requestor (cp_failure request), cp_property request) in
  let '(outcome, (_, properties'), r') := execute_clipboard_payload transfer grant payload (atoms, properties) r in
  r' = set_pending_clipboard r (delete transfer (rt_pending_clipboard r)) ∧
  (∀ grant2 payload2 tables,
     execute_clipboard_payload transfer grant2 payload2 tables r' = (Err ExUnknownTransfer, tables, r')) ∧
  match outcome with
  | Ok (Handoff h) =>
      execution_granted pending transfer grant payload atoms r ∧ ch_transfer h = transfer ∧
      (∃ record, properties' = <[key := record]> properties ∧ pp_bytes record = cx_bytes (ch_property h)) ∧
      (plain_text pending → cx_bytes (ch_property h) = payload ∧ utf8_ok payload) ∧
      ch_notify h = notify_of (cp_failure request) (cp_property request)
  | Ok (Failed e notify) => properties' = properties ∧ notify = notify_of (cp_failure request) X_ATOM_NONE
  | Err e => properties' = properties
  end ∧
  (execution_granted pending transfer grant payload atoms r → plain_text pending → utf8_ok payload →
   change_allowed properties (pe_namespace pending)
     (payload_change pending (cf_target (cp_failure request), 8, payload)) →
   ∃ h, outcome = Ok (Handoff h)).
Proof.
  intros Hok Hp. cbv zeta. rewrite (execute_clipboard_payload_eq _ _ _ _ _ _ _ Hp). cbv zeta.
  assert (∀ grant2 payload2 tables r', r' = set_pending_clipboard r (delete transfer (rt_pending_clipboard r)) →
    execute_clipboard_payload transfer grant2 payload2 tables r' = (Err ExUnknownTransfer, tables, r')) as Hgone.
  { intros ? ? [? ?] ? ->. unfold execute_clipboard_payload. simpl. by rewrite lookup_delete_eq. }
  pose proof (execution_refused_none pending transfer grant payload atoms r) as Hgr.
  destruct (execution_refused pending transfer grant payload atoms r) as [e|].
  { split_and!; auto. intros Hg. by apply Hgr in Hg. }
  apply proj1 in Hgr. specialize (Hgr eq_refl).
  pose proof (payload_property_text pending payload atoms) as Htext.
  destruct (payload_property pending payload atoms) as [[[p|e]|e] atoms'].
  - destruct (apply_change properties _ _) as [[record properties']|e] eqn:Hc.
    + apply apply_change_ok in Hc as (Ha & Hrec & ->); [|apply Hok].
      split; [done|]. split; [by auto|]. split; [|by eexists].
      split_and!; try done; [exists record; split; [done|]; by rewrite Hrec|].
      intros Ht. specialize (Htext Ht). destruct (decide (utf8_ok payload)); [by simplify_eq|done].
    + split; [done|]. split; [by auto|]. split; [done|]. intros _ Ht Hu Ha. specialize (Htext Ht).
      rewrite decide_True in Htext by done. injection Htext as -> _. exfalso.
      epose proof (proj2 (apply_change_ok properties (pe_namespace pending) _ _ _ (proj2 Hok))
        (conj Ha (conj eq_refl eq_refl))) as Hw. congruence.
  - split; [done|]. split; [by auto|]. split; [done|]. intros _ Ht Hu Ha. specialize (Htext Ht).
    by rewrite decide_True in Htext by done.
  - split; [done|]. split; [by auto|]. split; [done|]. intros _ Ht Hu Ha. by specialize (Htext Ht).
Qed.

Definition example_pending_runtime : XAuthorityRuntime := (apply (example_request 3 30) example_runtime).2.
Definition example_grant (generation source : Z) : PortalGrant :=
  mk_grant (from_raw 77) (from_raw source) (from_raw 3) KClipboard generation 1 0 GActive.
Definition example_pending : PendingClipboardSelection :=
  mk_pending (from_raw 3)
    (mk_portal_request
       (mk_clipboard_request (from_raw 77) (from_raw 1) (from_raw 3) (TargetAtom (str "UTF8_STRING")) 0 1)
       (mk_failure_request (from_raw 77) (x_resource_id 30 1) 1 31 9) 40) LittleEndian.

Lemma clipboard_executed_once_witness :
  (rt_pending_clipboard example_pending_runtime !! from_raw 77 = Some example_pending) ∧
  ∃ h, (execute_clipboard_payload (from_raw 77) (example_grant 1 1) (str "hi") (atom_table_new, ∅)
          example_pending_runtime).1.1 = Ok (Handoff h).
Proof.
  split; [vm_compute; reflexivity|].
  pose proof (clipboard_executed_once (from_raw 77) (example_grant 1 1) (str "hi") atom_table_new ∅
    example_pending_runtime example_pending (property_run_ok []) ltac:(vm_compute; reflexivity)) as H.
  cbv zeta in H.
  destruct (execute_clipboard_payload _ _ _ _ _) as [[outcome [? ?]] ?]. destruct H as (_ & _ & _ & H).
  apply H.
  - apply execution_refused_none. vm_compute. reflexivity.
  - by left.
  - apply (bool_decide_unpack _). vm_compute. exact I.
  - apply (bool_decide_unpack _). vm_compute. exact I.
Defined.

(** The data is asked for in the grant's namespace, but from whoever claimed the selection last,
    counting claims of every namespace together: here the window of another namespace. *)
Definition example_reclaimed : XAuthorityRuntime :=
  run_requests example_pending_runtime
    [mk_request (from_raw 4) (from_raw 2) (SetSelectionOwner 1 (Some (x_resource_id 20 1)) 6 6 SetOwner)].

Lemma source_asked_across_namespaces :
  match begin_clipboard_source_request (example_grant 1 1) example_reclaimed with
  | (Ok proxy, r) =>
      px_namespace proxy = from_raw 1 ∧ px_owner proxy = x_resource_id 20 1 ∧
      (xw_namespace <$> rt_windows r !! px_owner proxy) = Some (from_raw 2) ∧
      is_clipboard_proxy r (px_namespace proxy) (px_requestor proxy)
  | (Err _, _) => False
  end.
Proof. vm_compute. by split_and!. Qed.
