(* ===== verification/XResources.v ===== *)
(** * The resources of the X authority runtime
    ([sophia-x-authority/src/runtime.rs], resources, windows, buffers, focus and release)

    What clients create, look at, change and free, each checked against the namespace that owns it;
    and what is reclaimed when a client goes away. *)

From S2P Require Import Prelude Ids Geometry Packets.
From S2P Require Import XAtoms XTables XSelections XSoftware XState XRuntime.
Local Open Scope Z_scope.

Definition X_SETUP_DEFAULT_ROOT : Z := 32.
Definition X_SETUP_DEFAULT_COLORMAP : Z := 33.
Definition X_SETUP_DEFAULT_VISUAL : Z := 34.
Definition X_SETUP_ARGB_VISUAL : Z := 35.
Definition DRM_FORMAT_MOD_INVALID : Z := u64_MAX.

(** ** Topology and focus *)

Definition with_output_topology (t : OutputTopologySnapshot) : result XAuthorityRuntime OutputTopologyError :=
  let? _ := topology_validate t in Ok (set_output_topology runtime_new t).
Definition update_output_topology (t : OutputTopologySnapshot) : X OutputTopologyError bool :=
  _ ← x_lift (topology_validate t);
  r ← x_get;
  if decide (ots_generation t ≤ ots_generation (rt_output_topology r)) then mret false
  else _ ← x_set (λ r, set_output_topology r t); mret true.

Definition input_focus (r : XAuthorityRuntime) (namespace : NamespaceId) : XResourceId * Z :=
  default (x_resource_id X_SETUP_DEFAULT_ROOT 1, 1) (rt_input_focus r !! namespace).

Definition validate_window_access (r : XAuthorityRuntime) (namespace : NamespaceId) (window : XResourceId) :
    result unit XAuthorityRuntimeError :=
  if decide (is_clipboard_proxy r namespace window) then Ok ()
  else let? _ := map_err from_access (resource_lookup (rt_resources r) namespace window KWindow) in Ok ().

Definition set_focus (namespace : NamespaceId) (focus : XResourceId) (revert_to : Z) : Rt unit :=
  _ ← x_guard (revert_to ≤ 2) RtInvalidResource;
  r ← x_get;
  _ ← (if decide (xid_raw focus ≠ 0 ∧ xid_raw focus ≠ X_SETUP_DEFAULT_ROOT)
       then x_lift (validate_window_access r namespace focus) else mret ());
  x_set (λ r, set_input_focus r (<[namespace := (focus, revert_to)]> (rt_input_focus r))).

Definition begin_dispatch (r : XAuthorityRuntime) : XAuthorityRuntime := set_last_cpu_buffer_update r None.
Definition take_cpu_buffer_update (r : XAuthorityRuntime) : option XAuthorityCpuBufferUpdate * XAuthorityRuntime :=
  (rt_last_cpu_buffer_update r, set_last_cpu_buffer_update r None).

(** ** Looking resources up *)

(** [lookup(...).map(|_| ())] *)
Definition validate_kind (kind : XResourceKind) (r : XAuthorityRuntime) (namespace : NamespaceId)
    (id : XResourceId) : result unit XAuthorityRuntimeError :=
  let? _ := map_err from_access (resource_lookup (rt_resources r) namespace id kind) in Ok ().
Definition validate_pixmap_access := validate_kind KPixmap.
Definition validate_xfixes_region_access := validate_kind KRegion.
Definition validate_dri3_fence_access := validate_kind KFence.
Definition validate_font_access := validate_kind KFont.
Definition validate_cursor_access := validate_kind KCursor.

Definition validate_drawable_access (r : XAuthorityRuntime) (namespace : NamespaceId) (drawable : XResourceId) :
    result unit XAuthorityRuntimeError :=
  if decide (xid_raw drawable = X_SETUP_DEFAULT_ROOT) then Ok ()
  else
    ensure! (id_valid namespace) else RtInvalidNamespace in
    let? record := ok_or (rt_resources r !! drawable) RtUnknownResource in
    ensure! (xr_kind record = KWindow ∨ xr_kind record = KPixmap) else RtWrongResourceKind in
    ensure! (xr_owner_namespace record = namespace) else RtCrossNamespaceDenied in
    Ok ().

(** ** Shared segments *)

Definition attach_shm_segment (namespace : NamespaceId) (segment : XResourceId) (shmid : Z)
    (read_only : bool) (generation : Z) : Rt unit :=
  r ← x_get; t ← x_access (shm_attach (rt_shm_segments r) namespace segment shmid read_only generation);
  x_set (λ r, set_shm_segments r t).
Definition detach_shm_segment (namespace : NamespaceId) (segment : XResourceId) : Rt unit :=
  r ← x_get; t ← x_access (shm_detach (rt_shm_segments r) namespace segment);
  x_set (λ r, set_shm_segments r t).
Definition validate_shm_segment_access (r : XAuthorityRuntime) (namespace : NamespaceId)
    (segment : XResourceId) : result unit XAuthorityRuntimeError :=
  let? _ := map_err from_access (shm_lookup (rt_shm_segments r) namespace segment) in Ok ().
Definition shm_segment_shmid (r : XAuthorityRuntime) (namespace : NamespaceId) (segment : XResourceId) :
    result Z XAuthorityRuntimeError :=
  let? record := map_err from_access (shm_lookup (rt_shm_segments r) namespace segment) in Ok (xs_shmid record).

(** ** Windows *)

Definition window_geometry (r : XAuthorityRuntime) (namespace : NamespaceId) (window : XResourceId) :
    result Rect XAuthorityRuntimeError :=
  let? _ := map_err from_access (resource_lookup (rt_resources r) namespace window KWindow) in
  let? record := ok_or (rt_windows r !! window) RtUnknownResource in
  Ok (xw_geometry record).

Definition set_window_visual (window : XResourceId) (depth visual : Z) (colormap : XResourceId)
    (r : XAuthorityRuntime) : XAuthorityRuntime :=
  set_window_visuals r (<[window := (depth, visual, colormap)]> (rt_window_visuals r)).
Definition window_visual (r : XAuthorityRuntime) (window : XResourceId) : Z * Z * XResourceId :=
  default (24, X_SETUP_DEFAULT_VISUAL, x_resource_id X_SETUP_DEFAULT_COLORMAP 1) (rt_window_visuals r !! window).

Definition window_background_pixel (r : XAuthorityRuntime) (namespace : NamespaceId) (window : XResourceId) :
    result Z XAuthorityRuntimeError :=
  let? _ := validate_window_access r namespace window in
  Ok (default 0 (rt_window_background_pixels r !! window)).
Definition set_window_background_pixel (namespace : NamespaceId) (window : XResourceId) (pixel : Z) : Rt unit :=
  r ← x_get; _ ← x_lift (validate_window_access r namespace window);
  x_set (λ r, set_window_background_pixels r (<[window := pixel]> (rt_window_background_pixels r))).

Definition configure_window_geometry (namespace : NamespaceId) (window : XResourceId)
    (x y width height : option Z) (generation : Z) : Rt unit :=
  _ ← lookup_resource namespace window KWindow;
  _ ← apply_window_event (WConfigured window x y width height generation);
  mret ().

(** The [expect]s convert sizes the guard has bounded. *)
Definition configure_window_size_from_engine (namespace : NamespaceId) (window : XResourceId) (size : Size) :
    Rt Rect :=
  _ ← x_guard (0 < sz_width size ∧ 0 < sz_height size ∧ sz_width size ≤ u16_MAX ∧ sz_height size ≤ u16_MAX)
        RtInvalidResource;
  r ← x_get;
  current ← x_lift (window_geometry r namespace window);
  record ← x_lift (ok_or (rt_windows r !! window) RtUnknownResource);
  _ ← configure_window_geometry namespace window None None (Some (sz_width size)) (Some (sz_height size))
        (xw_record_generation record);
  mret (mk_rect (rx current) (ry current) (sz_width size) (sz_height size)).

(** A loop of fallible steps; the accumulator is the local state of the source's loop. *)
Fixpoint x_fold {E S A} (f : S → A → X E S) (l : list A) (s : S) : X E S :=
  match l with
  | [] => mret s
  | a :: l => s ← f s a; x_fold f l s
  end.

Definition map_window_step (generation : Z) (surfaces : list AuthoritySurface) (window : XResourceId) :
    Rt (list AuthoritySurface) :=
  s ← apply_window_event (WMapped window generation); mret (surfaces ++ option_list s).
Definition map_namespace_windows (namespace : NamespaceId) (generation : Z) : Rt (list AuthoritySurface) :=
  r ← x_get; x_fold (map_window_step generation) (ids_for_namespace (rt_windows r) namespace) [].

(** Ends the life of a window; the result is the surface the engine must remove. *)
Definition destroy_window (namespace : NamespaceId) (window : XResourceId) : Rt SurfaceId :=
  _ ← lookup_resource namespace window KWindow;
  r ← x_get;
  record ← x_lift (ok_or (rt_windows r !! window) RtUnknownResource);
  let surface := xw_surface record in
  _ ← x_set (λ r, set_selections r
        (clear_window_owner (rt_selections r) window (rt_windows r) SelectionWindowDestroyed));
  _ ← apply_window_event (WDestroyed window);
  _ ← x_set (λ r, set_resources r (delete window (rt_resources r)));
  _ ← x_set (λ r, set_software_buffers r (store_remove (rt_software_buffers r) window).2);
  _ ← x_set (λ r, set_window_background_pixels r (delete window (rt_window_background_pixels r)));
  _ ← x_set (λ r, set_window_visuals r (delete window (rt_window_visuals r)));
  _ ← x_set (λ r, set_glx_windows r
        (filter (λ e : XResourceId * (NamespaceId * XResourceId * Z), e.2.1.2 ≠ window) (rt_glx_windows r)));
  _ ← x_set (λ r,
        if decide ((fst <$> rt_input_focus r !! namespace) = Some window)
        then set_input_focus r (delete namespace (rt_input_focus r)) else r);
  mret surface.

(** ** GLX *)

Definition glx_taken (r : XAuthorityRuntime) (id : XResourceId) : Prop :=
  is_Some (rt_resources r !! id) ∨ is_Some (rt_glx_contexts r !! id) ∨ is_Some (rt_glx_windows r !! id).
#[export] Instance glx_taken_dec r id : Decision (glx_taken r id).
Proof. unfold glx_taken; apply _. Defined.

Definition create_glx_context (namespace : NamespaceId) (context : XResourceId) (fbconfig : Z) (direct : bool) :
    Rt unit :=
  r ← x_get; _ ← x_guard (¬ glx_taken r context) RtInvalidResource;
  x_set (λ r, set_glx_contexts r (<[context := (namespace, fbconfig, direct)]> (rt_glx_contexts r))).
Definition glx_context (r : XAuthorityRuntime) (namespace : NamespaceId) (context : XResourceId) :
    result (Z * bool) XAuthorityRuntimeError :=
  match rt_glx_contexts r !! context with
  | Some (owner, config, direct) =>
      ensure! (owner = namespace) else RtUnknownResource in Ok (config, direct)
  | None => Err RtUnknownResource
  end.
Definition destroy_glx_context (namespace : NamespaceId) (context : XResourceId) : Rt unit :=
  r ← x_get; _ ← x_lift (glx_context r namespace context);
  x_set (λ r, set_glx_contexts r (delete context (rt_glx_contexts r))).

Definition create_glx_window (namespace : NamespaceId) (glx_window window : XResourceId) (fbconfig : Z) : Rt unit :=
  r ← x_get; _ ← x_lift (validate_window_access r namespace window);
  _ ← x_guard (¬ glx_taken r glx_window) RtInvalidResource;
  x_set (λ r, set_glx_windows r (<[glx_window := (namespace, window, fbconfig)]> (rt_glx_windows r))).
Definition glx_drawable (r : XAuthorityRuntime) (namespace : NamespaceId) (drawable : XResourceId) :
    result (XResourceId * Z) XAuthorityRuntimeError :=
  match rt_glx_windows r !! drawable with
  | Some (owner, window, config) =>
      ensure! (owner = namespace) else RtUnknownResource in Ok (window, config)
  | None =>
      let? _ := validate_window_access r namespace drawable in
      Ok (drawable, if decide ((window_visual r drawable).1.2 = X_SETUP_ARGB_VISUAL) then 3 else 1)
  end.
Definition destroy_glx_window (namespace : NamespaceId) (glx_window : XResourceId) : Rt unit :=
  r ← x_get; _ ← x_lift (glx_drawable r namespace glx_window);
  x_set (λ r, set_glx_windows r (delete glx_window (rt_glx_windows r))).

(** ** Pixmaps *)

Definition remove_resource (id : XResourceId) : Rt unit :=
  x_set (λ r, set_resources r (delete id (rt_resources r))).

Definition create_pixmap (namespace : NamespaceId) (pixmap : XResourceId) (generation : Z) : Rt unit :=
  insert_resource pixmap KPixmap namespace generation.
Definition free_pixmap (namespace : NamespaceId) (pixmap : XResourceId) : Rt (option BufferHandle) :=
  _ ← lookup_resource namespace pixmap KPixmap;
  _ ← remove_resource pixmap;
  r ← x_get;
  _ ← x_set (λ r, set_dri3_pixmaps r (delete pixmap (rt_dri3_pixmaps r)));
  mret (db_handle <$> rt_dri3_pixmaps r !! pixmap).

Definition dri3_format (depth bits_per_pixel : Z) : option Z :=
  if decide (depth = 24 ∧ bits_per_pixel = 32) then Some DRM_FORMAT_XRGB8888
  else if decide (depth = 32 ∧ bits_per_pixel = 32) then Some DRM_FORMAT_ARGB8888
  else None.

(** A pixmap whose pixels the renderer reads from a DMA buffer of the client. *)
Definition register_dri3_pixmap (namespace : NamespaceId) (pixmap : XResourceId) (generation : Z)
    (descriptor : DmaBufDescriptor) : Rt DmaBufDescriptor :=
  _ ← create_pixmap namespace pixmap generation;
  _ ← x_set (λ r, set_next_dma_buf_handle r (Z.max (saturating_add u64_MAX (raw (db_handle descriptor)) 1) 1));
  _ ← x_set (λ r, set_dri3_pixmaps r (<[pixmap := descriptor]> (rt_dri3_pixmaps r)));
  mret descriptor.
Definition check_descriptor (descriptor : DmaBufDescriptor) : result unit XAuthorityRuntimeError :=
  match dma_buf_validate descriptor with Ok _ => Ok () | Err _ => Err RtInvalidResource end.

Definition create_dri3_pixmap (namespace : NamespaceId) (pixmap : XResourceId)
    (generation size_bytes width height stride depth bits_per_pixel : Z) : Rt DmaBufDescriptor :=
  format ← x_lift (ok_or (dri3_format depth bits_per_pixel) RtInvalidResource);
  r ← x_get;
  let handle := Z.max (rt_next_dma_buf_handle r) 1 in
  let descriptor := mk_dma_buf (from_raw handle) (mk_size width height) format DRM_FORMAT_MOD_INVALID 1
                      [Some (mk_plane 0 stride); None; None; None] in
  _ ← x_lift (check_descriptor descriptor);
  _ ← x_guard (saturating_mul u64_MAX stride height ≤ size_bytes) RtInvalidResource;
  register_dri3_pixmap namespace pixmap generation descriptor.

(** The first [num_buffers] of the four plane slots. *)
Definition dri3_planes (num_buffers : nat) (strides offsets : list Z) : list (option DmaBufPlaneDescriptor) :=
  imap (λ i (p : Z * Z), if decide (i < num_buffers)%nat then Some (mk_plane p.1 p.2) else None)
    (zip offsets strides).
Definition create_dri3_pixmap_from_buffers (namespace : NamespaceId) (pixmap : XResourceId)
    (generation num_buffers width height : Z) (strides offsets : list Z)
    (depth bits_per_pixel modifier : Z) : Rt DmaBufDescriptor :=
  format ← x_lift (ok_or (dri3_format depth bits_per_pixel) RtInvalidResource);
  _ ← x_guard (num_buffers ≠ 0 ∧ (Z.to_nat num_buffers ≤ DMA_BUF_MAX_PLANES)%nat) RtInvalidResource;
  r ← x_get;
  let handle := Z.max (rt_next_dma_buf_handle r) 1 in
  let descriptor := mk_dma_buf (from_raw handle) (mk_size width height) format modifier num_buffers
                      (dri3_planes (Z.to_nat num_buffers) strides offsets) in
  _ ← x_lift (check_descriptor descriptor);
  register_dri3_pixmap namespace pixmap generation descriptor.

Definition dri3_pixmap_descriptor (r : XAuthorityRuntime) (namespace : NamespaceId) (pixmap : XResourceId) :
    result DmaBufDescriptor XAuthorityRuntimeError :=
  let? _ := validate_pixmap_access r namespace pixmap in
  ok_or (rt_dri3_pixmaps r !! pixmap) RtUnknownResource.

(** ** Regions, fences, fonts and cursors *)

Definition store_region (region : XResourceId) (rectangles : list Rect) : Rt unit :=
  x_set (λ r, set_xfixes_regions r (<[region := mk_region rectangles]> (rt_xfixes_regions r))).
Definition create_xfixes_region (namespace : NamespaceId) (region : XResourceId) (rectangles : list Rect)
    (generation : Z) : Rt unit :=
  _ ← insert_resource region KRegion namespace generation; store_region region rectangles.
Definition set_xfixes_region (namespace : NamespaceId) (region : XResourceId) (rectangles : list Rect) : Rt unit :=
  r ← x_get; _ ← x_lift (validate_xfixes_region_access r namespace region); store_region region rectangles.
Definition destroy_xfixes_region (namespace : NamespaceId) (region : XResourceId) : Rt unit :=
  r ← x_get; _ ← x_lift (validate_xfixes_region_access r namespace region);
  _ ← remove_resource region;
  x_set (λ r, set_xfixes_regions r (delete region (rt_xfixes_regions r))).

Definition create_dri3_fence (namespace : NamespaceId) (fence : XResourceId) (generation : Z) : Rt FenceHandle :=
  _ ← insert_resource fence KFence namespace generation;
  r ← x_get;
  let handle : FenceHandle := from_raw (Z.max (rt_next_fence_handle r) 1) in
  _ ← x_set (λ r, set_next_fence_handle r (Z.max (saturating_add u64_MAX (raw handle) 1) 1));
  _ ← x_set (λ r, set_dri3_fences r (<[fence := handle]> (rt_dri3_fences r)));
  mret handle.
Definition dri3_fence_handle (r : XAuthorityRuntime) (namespace : NamespaceId) (fence : XResourceId) :
    result FenceHandle XAuthorityRuntimeError :=
  let? _ := validate_dri3_fence_access r namespace fence in
  ok_or (rt_dri3_fences r !! fence) RtUnknownResource.
Definition destroy_dri3_fence (namespace : NamespaceId) (fence : XResourceId) : Rt FenceHandle :=
  r ← x_get; _ ← x_lift (validate_dri3_fence_access r namespace fence);
  _ ← remove_resource fence;
  _ ← x_set (λ r, set_dri3_fences r (delete fence (rt_dri3_fences r)));
  x_lift (ok_or (rt_dri3_fences r !! fence) RtUnknownResource).

Definition open_font (namespace : NamespaceId) (font : XResourceId) (generation : Z) : Rt unit :=
  insert_resource font KFont namespace generation.
Definition close_font (namespace : NamespaceId) (font : XResourceId) : Rt unit :=
  _ ← lookup_resource namespace font KFont; remove_resource font.
Definition create_cursor (namespace : NamespaceId) (cursor : XResourceId) (generation : Z) : Rt unit :=
  insert_resource cursor KCursor namespace generation.
Definition free_cursor (namespace : NamespaceId) (cursor : XResourceId) : Rt unit :=
  _ ← lookup_resource namespace cursor KCursor; remove_resource cursor.

(** ** Graphics contexts *)

Definition store_contexts (m : result (gmap XResourceId XGraphicsContextRecord) XAuthorityAccessError) : Rt unit :=
  t ← x_access m; x_set (λ r, set_graphics_contexts r t).
Definition validate_font_of (r : XAuthorityRuntime) (namespace : NamespaceId) (values : XGraphicsContextValues) :
    result unit XAuthorityRuntimeError :=
  match gc_font values with Some font => validate_font_access r namespace font | None => Ok () end.
Definition create_graphics_context (namespace : NamespaceId) (gc drawable : XResourceId)
    (values : XGraphicsContextValues) : Rt unit :=
  r ← x_get; _ ← x_lift (validate_drawable_access r namespace drawable);
  _ ← x_lift (validate_font_of r namespace values);
  store_contexts (gc_create (rt_graphics_contexts r) namespace gc drawable values).
Definition graphics_context_values (r : XAuthorityRuntime) (namespace : NamespaceId) (gc : XResourceId) :
    result XGraphicsContextValues XAuthorityRuntimeError :=
  let? record := map_err from_access (gc_get (rt_graphics_contexts r) namespace gc) in Ok (xg_values record).
Definition change_graphics_context (namespace : NamespaceId) (gc : XResourceId) (mask : Z)
    (values : XGraphicsContextValues) : Rt unit :=
  r ← x_get;
  _ ← (if decide (Z.land mask (Z.shiftl 1 14) ≠ 0) then x_lift (validate_font_of r namespace values) else mret ());
  store_contexts (gc_change (rt_graphics_contexts r) namespace gc mask values).
Definition set_graphics_context_clip_rectangles (namespace : NamespaceId) (gc : XResourceId)
    (rectangles : list Rect) : Rt unit :=
  r ← x_get; store_contexts (gc_set_clip_rectangles (rt_graphics_contexts r) namespace gc rectangles).
Definition free_graphics_context (namespace : NamespaceId) (gc : XResourceId) : Rt unit :=
  r ← x_get; store_contexts (gc_remove (rt_graphics_contexts r) namespace gc).
