(* ===== verification/XRelease.v ===== *)
(** * A client goes away
    ([sophia-x-authority/src/runtime.rs], [release_client_resource_range])

    Everything a client allocated from its XID range is reclaimed, whatever table it is in, and
    nothing of anybody else. *)

From S2P Require Import Prelude Ids Geometry Packets.
From S2P Require Import XAtoms XTables XSelections XSoftware XState XRuntime XResources.
Local Open Scope Z_scope.

(** ** The release *)

Record XAuthorityClientResourceRelease : Type := mk_release {
  rl_destroyed_windows : list XResourceId; rl_removed_surfaces : list SurfaceId;
  rl_released_pixmaps : Z; rl_released_fonts : Z; rl_released_cursors : Z;
  rl_released_graphics_contexts : Z; rl_released_shm_segments : Z;
  rl_released_glx_contexts : Z; rl_released_glx_windows : Z;
  rl_released_dma_bufs : list BufferHandle; rl_released_fences : list FenceHandle;
}.
Definition release_default : XAuthorityClientResourceRelease := mk_release [] [] 0 0 0 0 0 0 0 [] [].
Definition usize_succ (n : Z) : Z := saturating_add usize_MAX n 1.

Definition release_window (a : XAuthorityClientResourceRelease) (w : XResourceId) (s : SurfaceId) :=
  mk_release (rl_destroyed_windows a ++ [w]) (rl_removed_surfaces a ++ [s]) (rl_released_pixmaps a)
    (rl_released_fonts a) (rl_released_cursors a) (rl_released_graphics_contexts a)
    (rl_released_shm_segments a) (rl_released_glx_contexts a) (rl_released_glx_windows a)
    (rl_released_dma_bufs a) (rl_released_fences a).
Definition release_pixmap (a : XAuthorityClientResourceRelease) (handle : option BufferHandle) :=
  mk_release (rl_destroyed_windows a) (rl_removed_surfaces a) (usize_succ (rl_released_pixmaps a))
    (rl_released_fonts a) (rl_released_cursors a) (rl_released_graphics_contexts a)
    (rl_released_shm_segments a) (rl_released_glx_contexts a) (rl_released_glx_windows a)
    (rl_released_dma_bufs a ++ option_list handle) (rl_released_fences a).
Definition release_font (a : XAuthorityClientResourceRelease) :=
  mk_release (rl_destroyed_windows a) (rl_removed_surfaces a) (rl_released_pixmaps a)
    (usize_succ (rl_released_fonts a)) (rl_released_cursors a) (rl_released_graphics_contexts a)
    (rl_released_shm_segments a) (rl_released_glx_contexts a) (rl_released_glx_windows a)
    (rl_released_dma_bufs a) (rl_released_fences a).
Definition release_cursor (a : XAuthorityClientResourceRelease) :=
  mk_release (rl_destroyed_windows a) (rl_removed_surfaces a) (rl_released_pixmaps a)
    (rl_released_fonts a) (usize_succ (rl_released_cursors a)) (rl_released_graphics_contexts a)
    (rl_released_shm_segments a) (rl_released_glx_contexts a) (rl_released_glx_windows a)
    (rl_released_dma_bufs a) (rl_released_fences a).
Definition release_fence (a : XAuthorityClientResourceRelease) (handle : option FenceHandle) :=
  mk_release (rl_destroyed_windows a) (rl_removed_surfaces a) (rl_released_pixmaps a)
    (rl_released_fonts a) (rl_released_cursors a) (rl_released_graphics_contexts a)
    (rl_released_shm_segments a) (rl_released_glx_contexts a) (rl_released_glx_windows a)
    (rl_released_dma_bufs a) (rl_released_fences a ++ option_list handle).
Definition release_tables (a : XAuthorityClientResourceRelease) (gcs segments contexts windows : Z) :=
  mk_release (rl_destroyed_windows a) (rl_removed_surfaces a) (rl_released_pixmaps a)
    (rl_released_fonts a) (rl_released_cursors a) gcs segments contexts windows
    (rl_released_dma_bufs a) (rl_released_fences a).
Definition release_gc (a : XAuthorityClientResourceRelease) :=
  release_tables a (usize_succ (rl_released_graphics_contexts a)) (rl_released_shm_segments a)
    (rl_released_glx_contexts a) (rl_released_glx_windows a).
Definition release_segment (a : XAuthorityClientResourceRelease) :=
  release_tables a (rl_released_graphics_contexts a) (usize_succ (rl_released_shm_segments a))
    (rl_released_glx_contexts a) (rl_released_glx_windows a).

(** [retain] on a table whose entries carry their owner: what stays, and how many went. *)
Definition glx_owned (namespace : NamespaceId) (range : XWireClientResourceRange) (owner : NamespaceId)
    (id : XResourceId) : Prop := owner = namespace ∧ in_client_range range id.
#[export] Instance glx_owned_dec ns range owner id : Decision (glx_owned ns range owner id).
Proof. unfold glx_owned; apply _. Defined.
Definition release_glx_contexts (namespace : NamespaceId) (range : XWireClientResourceRange) : Rt Z :=
  r ← x_get;
  let kept := filter (λ e : XResourceId * (NamespaceId * Z * bool),
                ¬ glx_owned namespace range e.2.1.1 e.1) (rt_glx_contexts r) in
  _ ← x_set (λ r, set_glx_contexts r kept);
  mret (Z.min usize_MAX (Z.of_nat (size (rt_glx_contexts r) - size kept))).
Definition release_glx_windows (namespace : NamespaceId) (range : XWireClientResourceRange) : Rt Z :=
  r ← x_get;
  let kept := filter (λ e : XResourceId * (NamespaceId * XResourceId * Z),
                ¬ glx_owned namespace range e.2.1.1 e.1) (rt_glx_windows r) in
  _ ← x_set (λ r, set_glx_windows r kept);
  mret (Z.min usize_MAX (Z.of_nat (size (rt_glx_windows r) - size kept))).

Definition release_gc_step (namespace : NamespaceId) (a : XAuthorityClientResourceRelease) (gc : XResourceId) :
    Rt XAuthorityClientResourceRelease := _ ← free_graphics_context namespace gc; mret (release_gc a).
Definition release_segment_step (namespace : NamespaceId) (a : XAuthorityClientResourceRelease)
    (segment : XResourceId) : Rt XAuthorityClientResourceRelease :=
  _ ← detach_shm_segment namespace segment; mret (release_segment a).

Definition release_record_step (namespace : NamespaceId) (a : XAuthorityClientResourceRelease)
    (record : XResourceRecord) : Rt XAuthorityClientResourceRelease :=
  match xr_kind record with
  | KWindow => surface ← destroy_window namespace (xr_id record); mret (release_window a (xr_id record) surface)
  | KPixmap => handle ← free_pixmap namespace (xr_id record); mret (release_pixmap a handle)
  | KFont => _ ← close_font namespace (xr_id record); mret (release_font a)
  | KCursor => _ ← free_cursor namespace (xr_id record); mret (release_cursor a)
  | KAtom | KProperty | KGraphicsContext => _ ← remove_resource (xr_id record); mret a
  | KFence =>
      _ ← remove_resource (xr_id record);
      r ← x_get;
      _ ← x_set (λ r, set_dri3_fences r (delete (xr_id record) (rt_dri3_fences r)));
      mret (release_fence a (rt_dri3_fences r !! xr_id record))
  | KRegion =>
      _ ← remove_resource (xr_id record);
      _ ← x_set (λ r, set_xfixes_regions r (delete (xr_id record) (rt_xfixes_regions r)));
      mret a
  end.

Definition release_client_resource_range (namespace : NamespaceId) (range : XWireClientResourceRange) :
    Rt XAuthorityClientResourceRelease :=
  _ ← x_guard (id_valid namespace) RtInvalidNamespace;
  contexts ← release_glx_contexts namespace range;
  windows ← release_glx_windows namespace range;
  let release := release_tables release_default 0 0 contexts windows in
  r ← x_get;
  release ← x_fold (release_gc_step namespace) (gc_ids_in_client_range (rt_graphics_contexts r) namespace range) release;
  r ← x_get;
  release ← x_fold (release_segment_step namespace) (shm_ids_in_client_range (rt_shm_segments r) namespace range) release;
  r ← x_get;
  x_fold (release_record_step namespace)
    (records_for_namespace_in_client_range (rt_resources r) namespace range) release.

(** ** Freeing one resource *)

(** The fields that freeing a resource leaves alone, the clipboard requests of its windows among them. *)
Definition kept_fields (r : XAuthorityRuntime) :=
  (rt_shm_segments r, rt_graphics_contexts r, rt_glx_contexts r,
   (rt_clipboard r, rt_pending_clipboard r, rt_clipboard_proxies r, rt_next_clipboard_proxy r),
   (next_handle (rt_software_buffers r), rt_next_dma_buf_handle r, rt_next_fence_handle r),
   (rt_last_cpu_buffer_update r, rt_output_topology r)).
(** The GLX windows over other windows than those of [P], the selections when the windows of [l] are
    gone one after the other, and the focus when it cannot stay on a window of [P]. *)
Definition glx_windows_over (P : XResourceId → Prop) `{!∀ i, Decision (P i)} (m : gmap XResourceId (NamespaceId * XResourceId * Z)) :=
  filter (λ e : XResourceId * (NamespaceId * XResourceId * Z), ¬ P e.2.1.2) m.
Definition selections_without (selections : XSelectionMonitor) (windows : XWindowTable) (l : list XResourceId) : XSelectionMonitor :=
  foldl (λ s window, clear_window_owner s window windows SelectionWindowDestroyed) selections l.
Definition focus_without (P : XResourceId → Prop) `{!∀ i, Decision (P i)} (ns : NamespaceId) (focus : gmap NamespaceId (XResourceId * Z)) :=
  match focus !! ns with Some (window, _) => if decide (P window) then delete ns focus else focus | None => focus end.

(** Freeing a resource takes its record and the data of its kind, and nothing else. *)
Notation on_kind kind record x y := (if decide (xr_kind record = kind) then x else y).
Record record_freed (record : XResourceRecord) (r r' : XAuthorityRuntime) : Prop := mk_freed {
  fr_resources : rt_resources r' = delete (xr_id record) (rt_resources r);
  fr_windows : rt_windows r' = on_kind KWindow record (delete (xr_id record) (rt_windows r)) (rt_windows r);
  fr_buffers : rt_software_buffers r' =
    on_kind KWindow record (store_remove (rt_software_buffers r) (xr_id record)).2 (rt_software_buffers r);
  fr_pixmaps : rt_dri3_pixmaps r' = on_kind KPixmap record (delete (xr_id record) (rt_dri3_pixmaps r)) (rt_dri3_pixmaps r);
  fr_fences : rt_dri3_fences r' = on_kind KFence record (delete (xr_id record) (rt_dri3_fences r)) (rt_dri3_fences r);
  fr_regions : rt_xfixes_regions r' = on_kind KRegion record (delete (xr_id record) (rt_xfixes_regions r)) (rt_xfixes_regions r);
  fr_kept : kept_fields r' = kept_fields r;
  fr_glx_windows : rt_glx_windows r' =
    on_kind KWindow record (glx_windows_over (λ i, i = xr_id record) (rt_glx_windows r)) (rt_glx_windows r);
  fr_focus : rt_input_focus r' =
    on_kind KWindow record (focus_without (λ i, i = xr_id record) (xr_owner_namespace record) (rt_input_focus r)) (rt_input_focus r);
  fr_visuals : rt_window_visuals r' =
    on_kind KWindow record (delete (xr_id record) (rt_window_visuals r)) (rt_window_visuals r);
  fr_backgrounds : rt_window_background_pixels r' =
    on_kind KWindow record (delete (xr_id record) (rt_window_background_pixels r)) (rt_window_background_pixels r);
  fr_selections : rt_selections r' =
    on_kind KWindow record (selections_without (rt_selections r) (rt_windows r) [xr_id record]) (rt_selections r);
}.
(** What survived the release of one record had survived it all along. *)
Lemma freed_focus record r r' n : record_freed record r r' → n ≠ xr_owner_namespace record →
  rt_input_focus r' !! n = rt_input_focus r !! n.
Proof.
  intros Hf Hn. rewrite (fr_focus _ _ _ Hf). case_decide; [|done]. unfold focus_without.
  destruct (_ !! xr_owner_namespace record) as [[w z]|]; [|done]. case_decide; [by rewrite lookup_delete_ne|done].
Qed.

Lemma lookup_resource_own r id record :
  rt_resources r !! id = Some record → id_valid (xr_owner_namespace record) →
  lookup_resource (xr_owner_namespace record) id (xr_kind record) r = (Ok record, r).
Proof.
  intros Hr Hv. rewrite lookup_resource_eq.
  by rewrite (proj2 (resource_lookup_ok (rt_resources r) (xr_owner_namespace record) id (xr_kind record) record)).
Qed.

Lemma destroy_window_ok r id record w :
  rt_resources r !! id = Some record → xr_id record = id → id_valid (xr_owner_namespace record) →
  xr_kind record = KWindow → rt_windows r !! id = Some w →
  ∃ r', destroy_window (xr_owner_namespace record) id r = (Ok (xw_surface w), r') ∧ record_freed record r r'.
Proof.
  intros Hr Hid Hv Hk Hw. unfold destroy_window. rewrite <-Hk. rewrite x_bind_eq, (lookup_resource_own _ _ _ Hr Hv).
  rewrite x_get_eq, Hw. simpl. rewrite x_lift_eq, x_set_eq, x_bind_eq, apply_window_event_eq. simpl.
  rewrite !x_set_eq. eexists. split; [reflexivity|].
  assert (∀ focus : gmap NamespaceId (XResourceId * Z),
    (if decide ((fst <$> focus !! xr_owner_namespace record) = Some id) then delete (xr_owner_namespace record) focus else focus) =
    focus_without (λ i, i = id) (xr_owner_namespace record) focus) as Hfocus.
  { intros focus. unfold focus_without. destruct (focus !! _) as [[w' z]|]; simpl; [|done].
    destruct (decide (w' = id)) as [->|Hne]; [by rewrite !decide_True|]. by rewrite !decide_False by congruence. }
  destruct (decide _) as [Hd|Hd]; (constructor; simpl; rewrite ?Hid, ?Hk; try done; rewrite <-Hfocus).
  - by rewrite !decide_True.
  - by rewrite decide_True, decide_False.
Qed.

(** How many a release has counted, up to the width of its counters. *)
Definition counted (n : Z) (k : nat) : Z := Z.min usize_MAX (n + Z.of_nat k).
Lemma counted_succ n k : counted (usize_succ n) k = counted n (S k).
Proof. unfold counted, usize_succ, saturating_add. lia. Qed.
Lemma counted_zero n : n ≤ usize_MAX → counted n 0 = n.
Proof. unfold counted. lia. Qed.
Lemma usize_succ_le n : usize_succ n ≤ usize_MAX.
Proof. unfold usize_succ, saturating_add. lia. Qed.

Definition kind_count (kind : XResourceKind) (l : list XResourceRecord) : nat := length (filter (λ record, xr_kind record = kind) l).
(** The report of a release after the records of [l], which it found in [r]. *)
Definition lists_of (a : XAuthorityClientResourceRelease) :=
  (rl_destroyed_windows a, rl_removed_surfaces a, rl_released_dma_bufs a, rl_released_fences a).
Definition counts_of (a : XAuthorityClientResourceRelease) := (rl_released_pixmaps a, rl_released_fonts a, rl_released_cursors a).
Definition table_counts (a : XAuthorityClientResourceRelease) :=
  (rl_released_graphics_contexts a, rl_released_shm_segments a, rl_released_glx_contexts a, rl_released_glx_windows a).

(** The surfaces of the windows, the handles of the pixmaps and the fences among the records. *)
Definition window_ids (l : list XResourceRecord) : list XResourceId :=
  xr_id <$> filter (λ record, xr_kind record = KWindow) l.
Definition handles_of {V B} (kind : XResourceKind) (f : V → B) (m : gmap XResourceId V) (l : list XResourceRecord) : list B :=
  omap (λ record, f <$> m !! xr_id record) (filter (λ record, xr_kind record = kind) l).
Record records_reported (l : list XResourceRecord) (r : XAuthorityRuntime) (a a' : XAuthorityClientResourceRelease) : Prop := mk_reported {
  re_windows : rl_destroyed_windows a' = rl_destroyed_windows a ++ window_ids l;
  re_surfaces : rl_removed_surfaces a' = rl_removed_surfaces a ++ handles_of KWindow xw_surface (rt_windows r) l;
  re_dma_bufs : rl_released_dma_bufs a' = rl_released_dma_bufs a ++ handles_of KPixmap db_handle (rt_dri3_pixmaps r) l;
  re_fences : rl_released_fences a' = rl_released_fences a ++ handles_of KFence id (rt_dri3_fences r) l;
  re_pixmaps : rl_released_pixmaps a' = counted (rl_released_pixmaps a) (kind_count KPixmap l);
  re_fonts : rl_released_fonts a' = counted (rl_released_fonts a) (kind_count KFont l);
  re_cursors : rl_released_cursors a' = counted (rl_released_cursors a) (kind_count KCursor l);
  re_tables : table_counts a' = table_counts a;
}.

(** The step of a record succeeds, frees it and reports it. *)
Definition within_counters (a : XAuthorityClientResourceRelease) : Prop :=
  rl_released_pixmaps a ≤ usize_MAX ∧ rl_released_fonts a ≤ usize_MAX ∧ rl_released_cursors a ≤ usize_MAX.
Lemma counted_one n : counted n 1 = usize_succ n.
Proof. unfold counted, usize_succ, saturating_add. lia. Qed.
Lemma release_record_step_ok a r record :
  rt_resources r !! xr_id record = Some record → id_valid (xr_owner_namespace record) →
  (xr_kind record = KWindow → is_Some (rt_windows r !! xr_id record)) → within_counters a →
  ∃ a' r', release_record_step (xr_owner_namespace record) a record r = (Ok a', r') ∧ record_freed record r r' ∧
    records_reported [record] r a a' ∧ within_counters a'.
Proof.
  intros Hr Hv Hw (W1 & W2 & W3). pose proof (lookup_resource_own _ _ _ Hr Hv) as Hl.
  assert (∃ a' r', release_record_step (xr_owner_namespace record) a record r = (Ok a', r') ∧ record_freed record r r' ∧
    records_reported [record] r a a') as (a' & r' & Hs & Hf & Hrep).
  { unfold release_record_step. destruct (xr_kind record) eqn:Hk.
    1: { destruct (Hw eq_refl) as [w Hw']. destruct (destroy_window_ok r _ record w Hr eq_refl Hv Hk Hw') as (r' & Hd & Hf).
      rewrite x_bind_eq, Hd. do 2 eexists. split; [reflexivity|]. split; [done|].
      constructor; unfold window_ids, handles_of, kind_count; rewrite ?filter_cons, ?Hk; simpl; rewrite ?Hw', ?app_nil_r; rewrite ?counted_zero; done. }
    all: unfold free_pixmap, close_font, free_cursor; rewrite ?x_bind_eq, ?Hl; do 2 eexists; (split; [reflexivity|]); (split;
      [by constructor; simpl; rewrite ?Hk|constructor; unfold window_ids, handles_of, kind_count; rewrite ?filter_cons, ?Hk; simpl;
        rewrite ?app_nil_r, ?counted_one, ?counted_zero by done; try done]).
    by destruct (rt_dri3_fences r !! xr_id record). }
  exists a', r'. do 3 (split; [done|]). unfold within_counters.
  rewrite (re_pixmaps _ _ _ _ Hrep), (re_fonts _ _ _ _ Hrep), (re_cursors _ _ _ _ Hrep). unfold counted. lia.
Qed.

(** ** Freeing several *)

(** Identifier [i] is that of a record of the list of that kind. *)
Definition freed_kind (kind : XResourceKind) (l : list XResourceRecord) (i : XResourceId) : Prop :=
  Exists (λ record, xr_id record = i ∧ xr_kind record = kind) l.
#[export] Instance freed_kind_dec kind l i : Decision (freed_kind kind l i).
Proof. unfold freed_kind; apply _. Defined.
Definition without {V} (m m' : gmap XResourceId V) (P : XResourceId → Prop) `{!∀ i, Decision (P i)} : Prop :=
  ∀ i, m' !! i = if decide (P i) then None else m !! i.

Record records_freed (ns : NamespaceId) (l : list XResourceRecord) (r r' : XAuthorityRuntime) : Prop := mk_all_freed {
  af_resources : without (rt_resources r) (rt_resources r') (λ i, i ∈ xr_id <$> l);
  af_windows : without (rt_windows r) (rt_windows r') (freed_kind KWindow l);
  af_buffers : without (buffers (rt_software_buffers r)) (buffers (rt_software_buffers r')) (freed_kind KWindow l);
  af_pixmaps : without (rt_dri3_pixmaps r) (rt_dri3_pixmaps r') (freed_kind KPixmap l);
  af_fences : without (rt_dri3_fences r) (rt_dri3_fences r') (freed_kind KFence l);
  af_regions : without (rt_xfixes_regions r) (rt_xfixes_regions r') (freed_kind KRegion l);
  af_kept : kept_fields r' = kept_fields r;
  af_glx_windows : rt_glx_windows r' = glx_windows_over (freed_kind KWindow l) (rt_glx_windows r);
  af_focus : rt_input_focus r' = focus_without (freed_kind KWindow l) ns (rt_input_focus r);
  af_visuals : without (rt_window_visuals r) (rt_window_visuals r') (freed_kind KWindow l);
  af_backgrounds : without (rt_window_background_pixels r) (rt_window_background_pixels r') (freed_kind KWindow l);
  af_selections : rt_selections r' = selections_without (rt_selections r) (rt_windows r) (window_ids l);
}.

Lemma without_refl {V} (m : gmap XResourceId V) (P : XResourceId → Prop) `{!∀ i, Decision (P i)} :
  (∀ i, ¬ P i) → without m m P.
Proof. intros Hno i. by rewrite decide_False. Qed.
Lemma without_step {V} (m m1 m2 : gmap XResourceId V) kind kind' i l :
  m1 = (if decide (kind = kind') then delete i m else m) → without m1 m2 (freed_kind kind' l) →
  ∀ record, xr_id record = i → xr_kind record = kind → without m m2 (freed_kind kind' (record :: l)).
Proof.
  intros -> Hw record Hi Hk j. rewrite Hw. unfold freed_kind.
  pose proof (Exists_cons (λ record, xr_id record = j ∧ xr_kind record = kind') record l) as Hc.
  destruct (decide (Exists _ l)) as [He|He], (decide (Exists _ (record :: l))) as [Hf|Hf]; try tauto.
  - apply Hc in Hf as [[<- <-]|?]; [|done]. subst. rewrite decide_True by done. by rewrite lookup_delete_eq.
  - case_decide; [|done]. rewrite lookup_delete_ne; [done|]. intros ->. apply Hf, Hc. left. split; congruence.
Qed.

Lemma freed_kind_nil kind i : ¬ freed_kind kind [] i.
Proof. by intros H%Exists_nil. Qed.
Lemma freed_kind_cons kind record l i :
  freed_kind kind (record :: l) i ↔ (xr_kind record = kind ∧ i = xr_id record) ∨ freed_kind kind l i.
Proof. unfold freed_kind. rewrite Exists_cons. naive_solver. Qed.
Lemma freed_kind_other kind record l i : xr_kind record ≠ kind → freed_kind kind (record :: l) i ↔ freed_kind kind l i.
Proof. rewrite freed_kind_cons. tauto. Qed.

Lemma glx_windows_over_iff (P Q : XResourceId → Prop) `{!∀ i, Decision (P i), !∀ i, Decision (Q i)} m :
  (∀ i, P i ↔ Q i) → glx_windows_over P m = glx_windows_over Q m.
Proof. intros HPQ. apply map_filter_ext. intros i v _. simpl. by rewrite HPQ. Qed.
Lemma glx_windows_over_none (P : XResourceId → Prop) `{!∀ i, Decision (P i)} m : (∀ i, ¬ P i) → glx_windows_over P m = m.
Proof. intros HP. apply map_filter_id. intros i v _. apply HP. Qed.
Lemma focus_without_iff (P Q : XResourceId → Prop) `{!∀ i, Decision (P i), !∀ i, Decision (Q i)} ns m :
  (∀ i, P i ↔ Q i) → focus_without P ns m = focus_without Q ns m.
Proof. intros HPQ. unfold focus_without. destruct (m !! ns) as [[w z]|]; [|done]. by apply decide_ext. Qed.
Lemma focus_without_none (P : XResourceId → Prop) `{!∀ i, Decision (P i)} ns m : (∀ i, ¬ P i) → focus_without P ns m = m.
Proof. intros HP. unfold focus_without. destruct (m !! ns) as [[w z]|]; [|done]. by rewrite decide_False. Qed.
Lemma focus_without_cons (P Q : XResourceId → Prop) `{!∀ i, Decision (P i), !∀ i, Decision (Q i)} ns m j :
  (∀ i, Q i ↔ i = j ∨ P i) → focus_without P ns (focus_without (λ i, i = j) ns m) = focus_without Q ns m.
Proof.
  intros HQ. unfold focus_without. destruct (m !! ns) as [[w z]|] eqn:Hw; [|by rewrite Hw].
  destruct (decide (w = j)) as [->|Hne].
  - rewrite lookup_delete_eq. rewrite decide_True; [done|]. apply HQ. by left.
  - rewrite Hw. apply decide_ext. rewrite HQ. tauto.
Qed.
(** An owner that is gone has no namespace of its own, so the windows do not matter. *)
Lemma clear_window_owner_windows owners window wt wt' kind :
  clear_window_owner owners window wt kind = clear_window_owner owners window wt' kind.
Proof.
  unfold clear_window_owner. generalize (filter (λ record, so_owner record = Some window) (btree_values owners)).
  intros l. revert owners. induction l as [|record l IH]; intros owners; [done|]. simpl. by rewrite IH.
Qed.
Lemma selections_without_windows owners l wt wt' : selections_without owners wt l = selections_without owners wt' l.
Proof.
  revert owners. induction l as [|i l IH]; intros owners; [done|]. unfold selections_without in *. simpl.
  by rewrite (clear_window_owner_windows owners i wt wt'), IH.
Qed.

Lemma records_freed_nil ns r : records_freed ns [] r r.
Proof.
  constructor; try (apply without_refl; intros i Hi; by inversion Hi); try done; symmetry.
  - apply glx_windows_over_none, freed_kind_nil.
  - apply focus_without_none, freed_kind_nil.
Qed.
Lemma records_freed_cons record l r r1 r2 :
  record_freed record r r1 → records_freed (xr_owner_namespace record) l r1 r2 →
  records_freed (xr_owner_namespace record) (record :: l) r r2.
Proof.
  intros [F1 F2 F3 F4 F5 F6 F7 F8 F9 F10 F11 F12] [A1 A2 A3 A4 A5 A6 A7 A8 A9 A10 A11 A12]. constructor.
  - intros i. rewrite A1, F1, fmap_cons. destruct (decide (i ∈ xr_id <$> l)) as [Hi|Hi].
    + rewrite decide_True; [done|]. by right.
    + destruct (decide (i = xr_id record)) as [->|Hne].
      * rewrite decide_True by left. by rewrite lookup_delete_eq.
      * rewrite decide_False by (by intros [?|?]%elem_of_cons). by rewrite lookup_delete_ne.
  - by eapply without_step.
  - eapply (without_step _ _ _ (xr_kind record) KWindow (xr_id record)); [|exact A3|done..]. rewrite F3. by destruct (decide (xr_kind record = KWindow)).
  - by eapply without_step.
  - by eapply without_step.
  - by eapply without_step.
  - congruence.
  - rewrite A8, F8. case_decide as Hk.
    + unfold glx_windows_over. rewrite map_filter_filter. apply map_filter_ext. intros i v _. rewrite freed_kind_cons. simpl. tauto.
    + apply glx_windows_over_iff. intros i. by rewrite freed_kind_other.
  - rewrite A9, F9. case_decide as Hk.
    + apply focus_without_cons. intros i. rewrite freed_kind_cons. tauto.
    + apply focus_without_iff. intros i. by rewrite freed_kind_other.
  - by eapply without_step.
  - by eapply without_step.
  - rewrite A12, F12. unfold window_ids. rewrite filter_cons. rewrite (selections_without_windows _ _ _ (rt_windows r)). by case_decide.
Qed.

Lemma handles_of_cons {V B} kind (f : V → B) (m m1 : gmap XResourceId V) record l :
  m1 = (if decide (xr_kind record = kind) then delete (xr_id record) m else m) → xr_id record ∉ xr_id <$> l →
  handles_of kind f m (record :: l) =
    (if decide (xr_kind record = kind) then option_list (f <$> m !! xr_id record) else []) ++ handles_of kind f m1 l.
Proof.
  intros -> Hni. unfold handles_of. rewrite filter_cons.
  assert (∀ l' : list XResourceRecord, (∀ x, x ∈ l' → x ∈ l) →
    omap (M := list) (λ record0, f <$> m !! xr_id record0) l' =
    omap (M := list) (λ record0, f <$> (if decide (xr_kind record = kind) then delete (xr_id record) m else m) !! xr_id record0) l') as Heq.
  { intros l' Hl. apply list_omap_ext, Forall_Forall2_diag, Forall_forall. intros x Hx.
    case_decide; [|done]. rewrite lookup_delete_ne; [done|]. intros E. apply Hni. rewrite E.
    apply list_elem_of_fmap_2. by apply Hl. }
  rewrite <-Heq by (intros x Hx; by apply list_elem_of_filter in Hx as [_ ?]).
  case_decide; [|done]. simpl. by destruct (m !! xr_id record).
Qed.

Lemma counted_counted n k k' : counted (counted n k) k' = counted n (k + k').
Proof. unfold counted. lia. Qed.
Lemma kind_count_cons kind record l : kind_count kind (record :: l) = (kind_count kind [record] + kind_count kind l)%nat.
Proof. unfold kind_count. rewrite !filter_cons. by case_decide. Qed.
Lemma records_reported_cons record l r r1 a a1 a2 :
  record_freed record r r1 → xr_id record ∉ xr_id <$> l →
  records_reported [record] r a a1 → records_reported l r1 a1 a2 → records_reported (record :: l) r a a2.
Proof.
  intros Hf Hni [E1 E2 E3 E4 E5 E6 E7 E8] [G1 G2 G3 G4 G5 G6 G7 G8].
  assert (∀ {V B} kind (f : V → B) (m m1 : gmap XResourceId V), m1 = on_kind kind record (delete (xr_id record) m) m →
    handles_of kind f m (record :: l) = handles_of kind f m [record] ++ handles_of kind f m1 l) as Happ.
  { intros V B kind f m m1 Hm. rewrite (handles_of_cons kind f m m1 record l Hm Hni). f_equal. unfold handles_of.
    rewrite filter_cons. case_decide; [|done]. simpl. by destruct (m !! xr_id record). }
  constructor.
  - rewrite G1, E1, <-app_assoc. unfold window_ids. rewrite !filter_cons. by case_decide.
  - by rewrite G2, E2, <-app_assoc, (Happ _ _ KWindow xw_surface _ _ (fr_windows _ _ _ Hf)).
  - by rewrite G3, E3, <-app_assoc, (Happ _ _ KPixmap db_handle _ _ (fr_pixmaps _ _ _ Hf)).
  - by rewrite G4, E4, <-app_assoc, (Happ _ _ KFence id _ _ (fr_fences _ _ _ Hf)).
  - by rewrite G5, E5, counted_counted, <-kind_count_cons.
  - by rewrite G6, E6, counted_counted, <-kind_count_cons.
  - by rewrite G7, E7, counted_counted, <-kind_count_cons.
  - congruence.
Qed.

(** Releasing the records of a namespace frees exactly them and reports what they held. *)
Lemma release_records_ok ns l a r :
  id_valid ns → NoDup (xr_id <$> l) → within_counters a →
  Forall (λ record, rt_resources r !! xr_id record = Some record ∧ xr_owner_namespace record = ns ∧
            (xr_kind record = KWindow → is_Some (rt_windows r !! xr_id record))) l →
  ∃ a' r', x_fold (release_record_step ns) l a r = (Ok a', r') ∧ records_freed ns l r r' ∧ records_reported l r a a'.
Proof.
  intros Hns. revert a r. induction l as [|record l IH]; intros a r Hnd Hwc Hl; simpl.
  { do 2 eexists. split; [reflexivity|]. split; [apply records_freed_nil|]. destruct Hwc as (? & ? & ?).
    constructor; unfold window_ids, handles_of; simpl; by rewrite ?app_nil_r, ?counted_zero. }
  apply NoDup_cons in Hnd as [Hni Hnd]. apply Forall_cons in Hl as [(Hr & <- & Hw) Hl].
  destruct (release_record_step_ok a r record Hr Hns Hw Hwc) as (a1 & r1 & Hs & Hf & Hrep & Hwc1).
  destruct (IH a1 r1 Hnd Hwc1) as (a2 & r2 & Hs2 & Hf2 & Hrep2).
  { apply Forall_forall. intros x Hx. rewrite Forall_forall in Hl. destruct (Hl x Hx) as (H1 & H2 & H3).
    assert (xr_id x ≠ xr_id record) as Hne by (intros E; apply Hni; rewrite <-E; by apply list_elem_of_fmap_2).
    rewrite (fr_resources _ _ _ Hf), (fr_windows _ _ _ Hf). split; [by rewrite lookup_delete_ne|]. split; [done|].
    intros Hk. specialize (H3 Hk). destruct (decide (xr_kind record = KWindow)); [by rewrite lookup_delete_ne|done]. }
  rewrite x_bind_eq, Hs, Hs2. do 2 eexists. split; [reflexivity|].
  split; [by eapply records_freed_cons|by eapply records_reported_cons].
Qed.

(** ** Contexts and segments *)

Lemma without_nil {V} (m : gmap XResourceId V) : without m m (λ i, i ∈ []).
Proof. apply without_refl. intros i Hi. by inversion Hi. Qed.
Lemma without_cons {V} (m m' : gmap XResourceId V) i l :
  without (delete i m) m' (λ j, j ∈ l) → without m m' (λ j, j ∈ i :: l).
Proof.
  intros Hw j. rewrite Hw. destruct (decide (j ∈ l)) as [Hj|Hj].
  - rewrite decide_True; [done|by right].
  - destruct (decide (j = i)) as [->|Hne].
    + rewrite decide_True by left. by rewrite lookup_delete_eq.
    + rewrite decide_False by (by intros [?|?]%elem_of_cons). by rewrite lookup_delete_ne.
Qed.

Lemma release_gcs_ok ns l a r :
  rl_released_graphics_contexts a ≤ usize_MAX → NoDup l → Forall (λ i, ∃ g, rt_graphics_contexts r !! i = Some g ∧ xg_namespace g = ns) l →
  ∃ a' t, x_fold (release_gc_step ns) l a r = (Ok a', set_graphics_contexts r t) ∧
    without (rt_graphics_contexts r) t (λ i, i ∈ l) ∧
    a' = release_tables a (counted (rl_released_graphics_contexts a) (length l))
           (rl_released_shm_segments a) (rl_released_glx_contexts a) (rl_released_glx_windows a).
Proof.
  revert a r. induction l as [|i l IH]; intros a r Ha Hnd Hl.
  { exists a, (rt_graphics_contexts r). split; [by destruct r|]. split; [apply without_nil|]. rewrite counted_zero by done. by destruct a. }
  apply NoDup_cons in Hnd as [Hni Hnd]. apply Forall_cons in Hl as [(g & Hg & Hgn) Hl].
  destruct (IH (release_gc a) (set_graphics_contexts r (delete i (rt_graphics_contexts r))) (usize_succ_le _) Hnd) as (a' & t & Hs & Hw & Ha').
  { apply Forall_forall. intros j Hj. rewrite Forall_forall in Hl. destruct (Hl j Hj) as (g' & ? & ?).
    exists g'. simpl. rewrite lookup_delete_ne; [done|]. by intros ->. }
  exists a', t. split; [|split; [by apply without_cons|by rewrite Ha'; unfold release_gc, release_tables; simpl; rewrite counted_succ]].
  assert (gc_remove (rt_graphics_contexts r) ns i = Ok (delete i (rt_graphics_contexts r))) as Hrm.
  { apply gc_remove_ok. split; [|done]. exists g. by apply gc_get_ok. }
  simpl. rewrite x_bind_eq. unfold release_gc_step at 1, free_graphics_context. rewrite x_bind_eq, x_get_eq.
  unfold store_contexts. rewrite x_access_eq, Hrm. simpl. by rewrite Hs.
Qed.

Lemma release_segments_ok ns l a r :
  id_valid ns → rl_released_shm_segments a ≤ usize_MAX → NoDup l →
  Forall (λ i, ∃ g, rt_shm_segments r !! i = Some g ∧ xid_valid i ∧ xs_namespace g = ns) l →
  ∃ a' t, x_fold (release_segment_step ns) l a r = (Ok a', set_shm_segments r t) ∧
    without (rt_shm_segments r) t (λ i, i ∈ l) ∧
    a' = release_tables a (rl_released_graphics_contexts a)
           (counted (rl_released_shm_segments a) (length l))
           (rl_released_glx_contexts a) (rl_released_glx_windows a).
Proof.
  intros Hns. revert a r. induction l as [|i l IH]; intros a r Ha Hnd Hl.
  { exists a, (rt_shm_segments r). split; [by destruct r|]. split; [apply without_nil|]. rewrite counted_zero by done. by destruct a. }
  apply NoDup_cons in Hnd as [Hni Hnd]. apply Forall_cons in Hl as [(g & Hg & Hgv & Hgn) Hl].
  destruct (IH (release_segment a) (set_shm_segments r (delete i (rt_shm_segments r))) (usize_succ_le _) Hnd) as (a' & t & Hs & Hw & Ha').
  { apply Forall_forall. intros j Hj. rewrite Forall_forall in Hl. destruct (Hl j Hj) as (g' & ? & ? & ?).
    exists g'. simpl. rewrite lookup_delete_ne; [done|]. by intros ->. }
  exists a', t. split; [|split; [by apply without_cons|by rewrite Ha'; unfold release_segment, release_tables; simpl; rewrite counted_succ]].
  assert (shm_detach (rt_shm_segments r) ns i = Ok (delete i (rt_shm_segments r))) as Hrm.
  { apply shm_detach_ok. split; [|done]. exists g. by apply shm_lookup_ok. }
  simpl. rewrite x_bind_eq. unfold release_segment_step at 1, detach_shm_segment. rewrite x_bind_eq, x_get_eq.
  rewrite x_access_eq, Hrm. simpl. by rewrite Hs.
Qed.

(** ** The release *)

(** Identifier [i] is a resource of that kind, of the namespace and in the range. *)
Definition held (kind : XResourceKind) (ns : NamespaceId) (range : XWireClientResourceRange)
    (r : XAuthorityRuntime) (i : XResourceId) : Prop :=
  match rt_resources r !! i with
  | Some record => xr_kind record = kind ∧ glx_owned ns range (xr_owner_namespace record) i
  | None => False
  end.
#[export] Instance held_dec kind ns range r i : Decision (held kind ns range r i).
Proof. unfold held; destruct (rt_resources r !! i); apply _. Defined.

(** What is left of a table whose entries carry their owner. *)
Definition rest_of {V} (ns : NamespaceId) (range : XWireClientResourceRange) (owner : V → NamespaceId)
    (m : gmap XResourceId V) : gmap XResourceId V :=
  filter (λ e : XResourceId * V, ¬ glx_owned ns range (owner e.2) e.1) m.
Lemma without_rest {V} ns range (owner : V → NamespaceId) (m m' : gmap XResourceId V) (P : XResourceId → Prop)
    `{!∀ i, Decision (P i)} :
  (∀ i, P i ↔ ∃ v, m !! i = Some v ∧ glx_owned ns range (owner v) i) → without m m' P → m' = rest_of ns range owner m.
Proof.
  intros HP Hw. apply map_eq. intros i. rewrite Hw. unfold rest_of. apply option_eq. intros v.
  rewrite map_lookup_filter_Some. simpl. case_decide as Hd.
  - split; [done|]. intros [Hv Hno]. apply HP in Hd as (v' & ? & ?). naive_solver.
  - split; [|tauto]. intros Hv. split; [done|]. intros Ho. apply Hd, HP. eauto.
Qed.

(** The tables are well formed and every window of the range has its record. *)
Definition release_ready (ns : NamespaceId) (range : XWireClientResourceRange) (r : XAuthorityRuntime) : Prop :=
  resources_ok (rt_resources r) ∧ segments_ok (rt_shm_segments r) ∧ contexts_ok (rt_graphics_contexts r) ∧
  ∀ id record, rt_resources r !! id = Some record → xr_kind record = KWindow →
    glx_owned ns range (xr_owner_namespace record) id → is_Some (rt_windows r !! id).

(** The runtime after a release, field by field: [gone] are the records it listed. *)
Definition clipboard_fields (r : XAuthorityRuntime) :=
  (rt_clipboard r, rt_pending_clipboard r, rt_clipboard_proxies r, rt_next_clipboard_proxy r).
Definition engine_fields (r : XAuthorityRuntime) :=
  (next_handle (rt_software_buffers r), rt_next_dma_buf_handle r, rt_next_fence_handle r,
   rt_last_cpu_buffer_update r, rt_output_topology r).
Record range_released (ns : NamespaceId) (range : XWireClientResourceRange) (r r' : XAuthorityRuntime) : Prop := mk_range_released {
  rr_resources : rt_resources r' = rest_of ns range xr_owner_namespace (rt_resources r);
  rr_contexts : rt_graphics_contexts r' = rest_of ns range xg_namespace (rt_graphics_contexts r);
  rr_segments : rt_shm_segments r' = rest_of ns range xs_namespace (rt_shm_segments r);
  rr_glx_contexts : rt_glx_contexts r' = rest_of ns range (λ v, v.1.1) (rt_glx_contexts r);
  rr_glx_windows : rt_glx_windows r' =
    glx_windows_over (held KWindow ns range r) (rest_of ns range (λ v, v.1.1) (rt_glx_windows r));
  rr_windows : without (rt_windows r) (rt_windows r') (held KWindow ns range r);
  rr_buffers : without (buffers (rt_software_buffers r)) (buffers (rt_software_buffers r')) (held KWindow ns range r);
  rr_backgrounds : without (rt_window_background_pixels r) (rt_window_background_pixels r') (held KWindow ns range r);
  rr_visuals : without (rt_window_visuals r) (rt_window_visuals r') (held KWindow ns range r);
  rr_pixmaps : without (rt_dri3_pixmaps r) (rt_dri3_pixmaps r') (held KPixmap ns range r);
  rr_fences : without (rt_dri3_fences r) (rt_dri3_fences r') (held KFence ns range r);
  rr_regions : without (rt_xfixes_regions r) (rt_xfixes_regions r') (held KRegion ns range r);
  rr_focus : rt_input_focus r' = focus_without (held KWindow ns range r) ns (rt_input_focus r);
  rr_selections : rt_selections r' = selections_without (rt_selections r) (rt_windows r)
    (window_ids (records_for_namespace_in_client_range (rt_resources r) ns range));
  rr_clipboard : clipboard_fields r' = clipboard_fields r;
  rr_engine : engine_fields r' = engine_fields r;
}.
(** The report: what went, named or counted. *)
Definition went {V} (m m' : gmap XResourceId V) : Z := Z.min usize_MAX (Z.of_nat (size m - size m')).
Definition release_of (ns : NamespaceId) (range : XWireClientResourceRange) (r r' : XAuthorityRuntime) : XAuthorityClientResourceRelease :=
  let gone := records_for_namespace_in_client_range (rt_resources r) ns range in
  mk_release (window_ids gone) (handles_of KWindow xw_surface (rt_windows r) gone)
    (counted 0 (kind_count KPixmap gone)) (counted 0 (kind_count KFont gone)) (counted 0 (kind_count KCursor gone))
    (went (rt_graphics_contexts r) (rt_graphics_contexts r')) (went (rt_shm_segments r) (rt_shm_segments r'))
    (went (rt_glx_contexts r) (rt_glx_contexts r'))
    (went (rt_glx_windows r) (rest_of ns range (λ v, v.1.1) (rt_glx_windows r)))
    (handles_of KPixmap db_handle (rt_dri3_pixmaps r) gone) (handles_of KFence id (rt_dri3_fences r) gone).
Lemma without_size {V} (m m' : gmap XResourceId V) l :
  NoDup l → Forall (λ i, is_Some (m !! i)) l → without m m' (λ i, i ∈ l) → went m m' = counted 0 (length l).
Proof.
  intros Hnd Hl Hw. enough (size m' + length l = size m)%nat as H by (unfold went, counted; lia). revert m Hl Hw.
  induction l as [|i l IH]; intros m Hl Hw.
  - assert (m' = m) as -> by (apply map_eq; intros i; rewrite Hw; by rewrite decide_False by apply not_elem_of_nil). simpl. lia.
  - apply NoDup_cons in Hnd as [Hni Hnd]. apply Forall_cons in Hl as [[v Hi] Hl].
    specialize (IH Hnd (delete i m)). rewrite map_size_delete, Hi in IH. simpl.
    assert (size m ≠ 0%nat) by (intros E%map_size_empty_inv; by subst). 
    assert (size m' + length l = Nat.pred (size m))%nat; [|lia]. apply IH.
    + apply Forall_forall. intros j Hj. rewrite Forall_forall in Hl. rewrite lookup_delete_ne; [by apply Hl|]. by intros ->.
    + intros j. rewrite Hw. destruct (decide (j = i)) as [->|Hne].
      * rewrite decide_True by left. by rewrite decide_False, lookup_delete_eq.
      * rewrite lookup_delete_ne by done. apply decide_ext. rewrite elem_of_cons. naive_solver.
Qed.

Lemma without_iff {V} (m m' : gmap XResourceId V) (P Q : XResourceId → Prop)
    `{!∀ i, Decision (P i), !∀ i, Decision (Q i)} :
  (∀ i, P i ↔ Q i) → without m m' P → without m m' Q.
Proof. intros HPQ Hw i. rewrite Hw. by apply decide_ext. Qed.

Section release.
  Context (ns : NamespaceId) (range : XWireClientResourceRange).

Lemma records_in_range r :
  resources_ok (rt_resources r) →
  let l := records_for_namespace_in_client_range (rt_resources r) ns range in
  NoDup (xr_id <$> l) ∧
  Forall (λ record, rt_resources r !! xr_id record = Some record ∧ xr_owner_namespace record = ns) l ∧
  (∀ i, i ∈ xr_id <$> l ↔ ∃ record, rt_resources r !! i = Some record ∧ glx_owned ns range (xr_owner_namespace record) i) ∧
  (∀ kind i, freed_kind kind l i ↔ held kind ns range r i).
Proof.
  intros Hok l. assert (∀ k v, rt_resources r !! k = Some v → xr_id v = k) as Hkey by (intros k v Hv; apply (Hok k v Hv)).
  assert (∀ record, record ∈ l ↔ rt_resources r !! xr_id record = Some record ∧
            glx_owned ns range (xr_owner_namespace record) (xr_id record)) as Hin.
  { intros record. unfold l, records_for_namespace_in_client_range. rewrite list_elem_of_filter, elem_of_btree_values.
    unfold glx_owned. split.
    - intros [Ho [k Hk]]. pose proof (Hkey _ _ Hk). subst k. done.
    - intros [Hr Ho]. split; [done|]. by exists (xr_id record). }
  split_and!.
  - by apply NoDup_keyed_ids.
  - apply Forall_forall. intros record [Hr [Ho _]]%Hin. done.
  - intros i. rewrite list_elem_of_fmap. split.
    + intros (record & -> & [Hr Ho]%Hin). eauto.
    + intros (record & Hr & Ho). exists record. rewrite Hin, (Hkey _ _ Hr). done.
  - intros kind i. unfold freed_kind, held. rewrite Exists_exists. split.
    + intros (record & [Hr Ho]%Hin & <- & Hk). by rewrite Hr.
    + destruct (rt_resources r !! i) as [record|] eqn:Hr; [|done]. intros [Hk Ho]. exists record.
      rewrite Hin, (Hkey _ _ Hr). done.
Qed.

Lemma release_glx_contexts_eq r :
  let kept := rest_of ns range (λ v, v.1.1) (rt_glx_contexts r) in
  release_glx_contexts ns range r = (Ok (went (rt_glx_contexts r) kept), set_glx_contexts r kept).
Proof. unfold release_glx_contexts. rewrite x_get_eq. cbv zeta. by rewrite x_set_eq. Qed.
Lemma release_glx_windows_eq r :
  let kept := rest_of ns range (λ v, v.1.1) (rt_glx_windows r) in
  release_glx_windows ns range r = (Ok (went (rt_glx_windows r) kept), set_glx_windows r kept).
Proof. unfold release_glx_windows. rewrite x_get_eq. cbv zeta. by rewrite x_set_eq. Qed.

(** The ids the tables list, and what is left without them. *)
Lemma gcs_in_range r t :
  contexts_ok (rt_graphics_contexts r) →
  let l := gc_ids_in_client_range (rt_graphics_contexts r) ns range in
  NoDup l ∧ Forall (λ i, ∃ g, rt_graphics_contexts r !! i = Some g ∧ xg_namespace g = ns) l ∧
  (without (rt_graphics_contexts r) t (λ i, i ∈ l) → t = rest_of ns range xg_namespace (rt_graphics_contexts r)).
Proof.
  intros Hctx l. assert (∀ k v, rt_graphics_contexts r !! k = Some v → xg_id v = k) as Hkey by (intros k v Hv; apply (Hctx k v Hv)).
  split_and!; [by apply NoDup_keyed_ids| |].
  - apply Forall_forall. intros i (g & Hg & Ho & _)%elem_of_keyed_ids; [by exists g|done].
  - apply without_rest. intros i. unfold l, gc_ids_in_client_range. rewrite elem_of_keyed_ids by done. unfold glx_owned.
    split; intros (g & Hg & Ho & Hi); exists g; (split; [done|]); rewrite ?(Hkey _ _ Hg) in *; done.
Qed.
Lemma segments_in_range r t :
  segments_ok (rt_shm_segments r) →
  let l := shm_ids_in_client_range (rt_shm_segments r) ns range in
  NoDup l ∧ Forall (λ i, ∃ g, rt_shm_segments r !! i = Some g ∧ xid_valid i ∧ xs_namespace g = ns) l ∧
  (without (rt_shm_segments r) t (λ i, i ∈ l) → t = rest_of ns range xs_namespace (rt_shm_segments r)).
Proof.
  intros Hseg l. assert (∀ k v, rt_shm_segments r !! k = Some v → xs_id v = k) as Hkey by (intros k v Hv; apply (Hseg k v Hv)).
  split_and!; [by apply NoDup_keyed_ids| |].
  - apply Forall_forall. intros i (g & Hg & Ho & _)%elem_of_keyed_ids; [|done]. exists g. split_and!; try done. by apply Hseg in Hg as (_ & ? & _).
  - apply without_rest. intros i. unfold l, shm_ids_in_client_range. rewrite elem_of_keyed_ids by done. unfold glx_owned.
    split; intros (g & Hg & Ho & Hi); exists g; (split; [done|]); rewrite ?(Hkey _ _ Hg) in *; done.
Qed.
Lemma records_release r r2 l r' :
  (∀ i, i ∈ xr_id <$> l ↔ ∃ record, rt_resources r !! i = Some record ∧ glx_owned ns range (xr_owner_namespace record) i) →
  (∀ kind i, freed_kind kind l i ↔ held kind ns range r i) → l = records_for_namespace_in_client_range (rt_resources r) ns range →
  records_freed ns l r2 r' →
  r2 = set_shm_segments (set_graphics_contexts (set_glx_windows (set_glx_contexts r
         (rest_of ns range (λ v, v.1.1) (rt_glx_contexts r))) (rest_of ns range (λ v, v.1.1) (rt_glx_windows r)))
         (rest_of ns range xg_namespace (rt_graphics_contexts r))) (rest_of ns range xs_namespace (rt_shm_segments r)) →
  range_released ns range r r'.
Proof.
  intros Hids Hkinds Hl [A1 A2 A3 A4 A5 A6 A7 A8 A9 A10 A11 A12] ->. injection A7 as K1 K2 K3 K4 K5 K6 K7 K8 K9 K10 K11 K12. simpl in *.
  constructor; try done.
  - eapply without_rest; [|exact A1]. exact Hids.
  - rewrite A8. apply glx_windows_over_iff, Hkinds.
  - eapply (without_iff _ _ (freed_kind KWindow l)); [apply Hkinds|exact A2].
  - eapply (without_iff _ _ (freed_kind KWindow l)); [apply Hkinds|exact A3].
  - eapply (without_iff _ _ (freed_kind KWindow l)); [apply Hkinds|exact A11].
  - eapply (without_iff _ _ (freed_kind KWindow l)); [apply Hkinds|exact A10].
  - eapply (without_iff _ _ (freed_kind KPixmap l)); [apply Hkinds|exact A4].
  - eapply (without_iff _ _ (freed_kind KFence l)); [apply Hkinds|exact A5].
  - eapply (without_iff _ _ (freed_kind KRegion l)); [apply Hkinds|exact A6].
  - rewrite A9. apply focus_without_iff, Hkinds.
  - by rewrite A12, Hl.
  - unfold clipboard_fields. congruence.
  - unfold engine_fields. congruence.
Qed.

Lemma release_ok r :
  id_valid ns → release_ready ns range r →
  ∃ r', release_client_resource_range ns range r = (Ok (release_of ns range r r'), r') ∧ range_released ns range r r'.
Proof.
  intros Hns (Hres & Hseg & Hctx & Hwin). destruct (records_in_range r Hres) as (Hnd & Hl & Hids & Hkinds).
  set (l := records_for_namespace_in_client_range (rt_resources r) ns range) in *.
  unfold release_client_resource_range. rewrite x_guard_eq, decide_True by done. cbv beta.
  rewrite x_bind_eq, release_glx_contexts_eq. cbv beta iota zeta.
  rewrite x_bind_eq, release_glx_windows_eq. cbv beta iota zeta. rewrite x_get_eq. cbv beta.
  match goal with |- context[x_fold (release_gc_step ns) ?l0 ?acc] => set (a := acc) end.
  match goal with |- context[(x_fold (release_gc_step ns) _ a ≫= _) ?st] => set (r0 := st) end.
  change (rt_graphics_contexts r0) with (rt_graphics_contexts r).
  destruct (gcs_in_range r ∅ Hctx) as (Hgn & Hgl & _).
  destruct (release_gcs_ok ns (gc_ids_in_client_range (rt_graphics_contexts r) ns range) a r0) as (a1 & t1 & Hs1 & Hw1 & Ha1); [done..|].
  pose proof (proj2 (proj2 (gcs_in_range r t1 Hctx)) Hw1) as E1.
  rewrite x_bind_eq, Hs1. cbv beta iota. rewrite x_get_eq. cbv beta. set (r1 := set_graphics_contexts r0 t1).
  change (rt_shm_segments r1) with (rt_shm_segments r). destruct (segments_in_range r ∅ Hseg) as (Hsn & Hsl & _).
  destruct (release_segments_ok ns (shm_ids_in_client_range (rt_shm_segments r) ns range) a1 r1) as (a2 & t2 & Hs2 & Hw2 & Ha2); [done| |done|done|].
  { by rewrite Ha1. }
  pose proof (proj2 (proj2 (segments_in_range r t2 Hseg)) Hw2) as E2.
  rewrite x_bind_eq, Hs2. cbv beta iota. rewrite x_get_eq. cbv beta. set (r2 := set_shm_segments r1 t2).
  change (rt_resources r2) with (rt_resources r). fold l.
  destruct (release_records_ok ns l a2 r2 Hns Hnd) as (a3 & r3 & Hs3 & Hf & Hrep).
  { by rewrite Ha2, Ha1. }
  { rewrite Forall_forall in Hl. apply Forall_forall. intros record Hin. destruct (Hl record Hin) as [Hr Ho]. split_and!; try done.
    intros Hk. apply (Hwin _ record); [done..|]. destruct (proj1 (Hids (xr_id record))) as (v & Hv & Hg); [by apply list_elem_of_fmap_2|]. congruence. }
  assert (range_released ns range r r3) as Hrel.
  { eapply records_release; [exact Hids|exact Hkinds|done|exact Hf|]. by rewrite <-E1, <-E2. }
  exists r3. split; [|done]. rewrite Hs3. do 2 f_equal. destruct Hrep as [G1 G2 G3 G4 G5 G6 G7 G8].
  unfold table_counts in G8. rewrite Ha2, Ha1 in G1, G2, G3, G4, G5, G6, G7, G8. simpl in *. injection G8 as G8 G9 G10 G11.
  destruct a3; simpl in *. subst. unfold release_of. fold l. f_equal.
  - rewrite (rr_contexts _ _ _ _ Hrel). symmetry. apply without_size; [done| |done].
    eapply Forall_impl; [exact Hgl|]. intros i (g & Hg & _). by exists g.
  - rewrite (rr_segments _ _ _ _ Hrel). symmetry. apply without_size; [done| |done].
    eapply Forall_impl; [exact Hsl|]. intros i (g & Hg & _). by exists g.
  - by rewrite (rr_glx_contexts _ _ _ _ Hrel).
Qed.
End release.

Lemma rest_of_ok {V} ns range (owner : V → NamespaceId) (m : gmap XResourceId V) i v :
  rest_of ns range owner m !! i = Some v → m !! i = Some v ∧ ¬ glx_owned ns range (owner v) i.
Proof. unfold rest_of. by rewrite map_lookup_filter_Some. Qed.

Lemma rest_of_rest {V} ns range (owner : V → NamespaceId) (m : gmap XResourceId V) :
  rest_of ns range owner (rest_of ns range owner m) = rest_of ns range owner m.
Proof. apply map_eq. intros i. apply option_eq. intros v. unfold rest_of. rewrite !map_lookup_filter_Some. tauto. Qed.
Lemma without_none {V} (m m' : gmap XResourceId V) (P : XResourceId → Prop) `{!∀ i, Decision (P i)} :
  (∀ i, ¬ P i) → without m m' P → m' = m.
Proof. intros HP Hw. apply map_eq. intros i. rewrite Hw. by rewrite decide_False. Qed.

Lemma released_none_held ns range r r' kind i : range_released ns range r r' → ¬ held kind ns range r' i.
Proof.
  intros Hrel. unfold held. destruct (rt_resources r' !! i) as [v|] eqn:Hv; [|tauto].
  rewrite (rr_resources _ _ _ _ Hrel) in Hv. apply rest_of_ok in Hv as [_ ?]. tauto.
Qed.
Lemma released_ready ns range r r' : release_ready ns range r → range_released ns range r r' → release_ready ns range r'.
Proof.
  intros (Hres & Hseg & Hctx & Hwin) Hrel. unfold release_ready.
  rewrite (rr_resources _ _ _ _ Hrel), (rr_contexts _ _ _ _ Hrel), (rr_segments _ _ _ _ Hrel). split_and!.
  - intros i v [Hv _]%rest_of_ok. by apply Hres.
  - intros i v [Hv _]%rest_of_ok. by apply Hseg.
  - intros i v [Hv _]%rest_of_ok. by apply Hctx.
  - intros i v [Hv Hno]%rest_of_ok Hk Ho. done.
Qed.
Lemma released_none_left ns range r r' :
  release_ready ns range r → range_released ns range r r' →
  records_for_namespace_in_client_range (rt_resources r') ns range = [].
Proof.
  intros Hr Hrel. pose proof (released_ready _ _ _ _ Hr Hrel) as (Hres & _).
  destruct (records_in_range ns range r' Hres) as (_ & _ & Hids & _).
  destruct (records_for_namespace_in_client_range _ _ _) as [|x l] eqn:Hl; [done|].
  destruct (proj1 (Hids (xr_id x))) as (v & Hv & Ho); [left|].
  rewrite (rr_resources _ _ _ _ Hrel) in Hv. by apply rest_of_ok in Hv as [_ ?].
Qed.
(** Nothing the namespace owns in the range is left in a table. *)
Record nothing_left (ns : NamespaceId) (range : XWireClientResourceRange) (r : XAuthorityRuntime) : Prop := mk_nothing_left {
  nl_resources : ∀ id v, rt_resources r !! id = Some v → ¬ glx_owned ns range (xr_owner_namespace v) id;
  nl_contexts : ∀ id v, rt_graphics_contexts r !! id = Some v → ¬ glx_owned ns range (xg_namespace v) id;
  nl_segments : ∀ id v, rt_shm_segments r !! id = Some v → ¬ glx_owned ns range (xs_namespace v) id;
  nl_glx_contexts : ∀ id v, rt_glx_contexts r !! id = Some v → ¬ glx_owned ns range v.1.1 id;
  nl_glx_windows : ∀ id v, rt_glx_windows r !! id = Some v → ¬ glx_owned ns range v.1.1 id;
}.
Lemma released_nothing_left ns range r r' : range_released ns range r r' → nothing_left ns range r'.
Proof.
  intros Hrel. constructor; intros i v Hv.
  - rewrite (rr_resources _ _ _ _ Hrel) in Hv. by apply rest_of_ok in Hv as [_ ?].
  - rewrite (rr_contexts _ _ _ _ Hrel) in Hv. by apply rest_of_ok in Hv as [_ ?].
  - rewrite (rr_segments _ _ _ _ Hrel) in Hv. by apply rest_of_ok in Hv as [_ ?].
  - rewrite (rr_glx_contexts _ _ _ _ Hrel) in Hv. by apply (rest_of_ok _ _ (λ v : NamespaceId * Z * bool, v.1.1)) in Hv as [_ ?].
  - rewrite (rr_glx_windows _ _ _ _ Hrel) in Hv. apply map_lookup_filter_Some in Hv as [Hv _].
    by apply (rest_of_ok _ _ (λ v : NamespaceId * XResourceId * Z, v.1.1)) in Hv as [_ ?].
Qed.
(** After a release there is nothing to release. *)
Lemma released_again ns range r r' r'' :
  release_ready ns range r → range_released ns range r r' → range_released ns range r' r'' → r'' = r'.
Proof.
  intros Hr H H'. pose proof (released_none_left _ _ _ _ Hr H) as Hnone. pose proof (released_none_held ns range r r') as Hno.
  destruct H' as [R1 R2 R3 R4 R5 R6 R7 R8 R9 R10 R11 R12 R13 R14 R15 R16]. injection R15 as C1 C2 C3 C4. injection R16 as D1 D2 D3 D4 D5.
  rewrite (rr_resources _ _ _ _ H), rest_of_rest, <-(rr_resources _ _ _ _ H) in R1.
  rewrite (rr_contexts _ _ _ _ H), rest_of_rest, <-(rr_contexts _ _ _ _ H) in R2.
  rewrite (rr_segments _ _ _ _ H), rest_of_rest, <-(rr_segments _ _ _ _ H) in R3.
  rewrite (rr_glx_contexts _ _ _ _ H), rest_of_rest, <-(rr_glx_contexts _ _ _ _ H) in R4.
  assert (rest_of ns range (λ v, v.1.1) (rt_glx_windows r') = rt_glx_windows r') as Eg.
  { rewrite (rr_glx_windows _ _ _ _ H). apply map_eq. intros i. apply option_eq. intros v. unfold rest_of, glx_windows_over.
    rewrite !map_lookup_filter_Some. tauto. }
  rewrite glx_windows_over_none, Eg in R5 by (intros; by apply Hno). rewrite focus_without_none in R13 by (intros; by apply Hno).
  rewrite Hnone in R14. apply without_none in R6, R7, R8, R9, R10, R11, R12; [|intros; by apply Hno..].
  destruct r' as [? ? ? ? ? ? ? ? [] ], r'' as [? ? ? ? ? ? ? ? [] ]; simpl in *. by subst.
Qed.


(** A client of namespace 1 with a window, a graphics context and a pixmap in its range. *)
Definition example_range : XWireClientResourceRange := mk_range 2097152 2097151.
Definition example_client_id (n : Z) : XResourceId := x_resource_id (2097152 + n) 1.
Definition example_client : XAuthorityRuntime :=
  let r := (apply (mk_request (from_raw 1) (from_raw 1)
    (CreateWindow (example_client_id 1) (surface_id 10 1) (mk_rect 0 0 8 8) (mk_constraints None None) 1)) runtime_new).2 in
  let r := (create_graphics_context (from_raw 1) (example_client_id 2) (example_client_id 1) gc_default r).2 in
  (create_pixmap (from_raw 1) (example_client_id 3) 1 r).2.

Definition release_ready_check (r : XAuthorityRuntime) : Prop :=
  map_Forall (λ id v, xr_id v = id ∧ xid_valid id ∧ id_valid (xr_owner_namespace v)) (rt_resources r) ∧
  map_Forall (λ id v, xs_id v = id ∧ xid_valid id ∧ id_valid (xs_namespace v)) (rt_shm_segments r) ∧
  map_Forall (λ id v, xg_id v = id ∧ xid_valid id ∧ id_valid (xg_namespace v)) (rt_graphics_contexts r) ∧
  map_Forall (λ id v, xr_kind v = KWindow → is_Some (rt_windows r !! id)) (rt_resources r).
#[export] Instance release_ready_check_dec r : Decision (release_ready_check r).
Proof. unfold release_ready_check; apply _. Defined.
Lemma release_ready_checked ns range r : release_ready_check r → release_ready ns range r.
Proof. intros (H1 & H2 & H3 & H4). split_and!; try done. intros id record Hr Hk _. by apply (H4 id record). Qed.


(** A window refused for its surface leaves a window resource without a record ([XRuntime]); the
    release of its client then stops there, and what comes after it in the table is never reclaimed. *)
Lemma release_stops_at_half_created_window :
  let r := (apply (mk_request (from_raw 1) (from_raw 1)
    (CreateWindow (example_client_id 0) SURFACE_INVALID (mk_rect 0 0 8 8) (mk_constraints None None) 1)) example_client).2 in
  let '(result, r') := release_client_resource_range (from_raw 1) example_range r in
  result = Err RtUnknownResource ∧ is_Some (rt_resources r' !! example_client_id 1) ∧
  is_Some (rt_windows r' !! example_client_id 1).
Proof. vm_compute. split_and!; [reflexivity|by eexists|by eexists]. Qed.
