(* ===== verification/XDraws.v ===== *)
(** * Drawing in the X authority runtime
    ([sophia-x-authority/src/runtime.rs], the drawing operations)

    A drawing request paints the software buffer of its window and becomes a surface transaction,
    which names the generation it follows. *)

From S2P Require Import Prelude Ids Geometry Packets.
From S2P Require Import XAtoms XTables XSelections XSoftware XState XRuntime XResources.
Local Open Scope Z_scope.

(** ** The operations *)

Definition finish_drawing_update (update : XDrawingUpdate) (r : XAuthorityRuntime) :
    XAuthorityResponsePacket * XAuthorityRuntime :=
  match surface_transaction_from_drawing_update (rt_windows r) update with
  | Err error => (rejected (du_transaction update) (from_access error), r)
  | Ok transaction =>
      match advance_generation (rt_windows r) (du_target_window update)
              (du_previous_committed_generation update) with
      | Err error => (rejected (du_transaction update) (from_access error), r)
      | Ok (_, windows) =>
          (with_transactions (accepted (du_transaction update)) [transaction], set_windows r windows)
      end
  end.

Definition present_standard_pixmap (transaction : TransactionId) (namespace : NamespaceId)
    (window pixmap : XResourceId) (r : XAuthorityRuntime) : XAuthorityResponsePacket * XAuthorityRuntime :=
  match rt_windows r !! window with
  | Some record =>
      if decide (xw_namespace record = namespace) then
        match validate_pixmap_access r namespace pixmap with
        | Err error => (rejected transaction error, r)
        | Ok _ =>
            let buffer :=
              match rt_dri3_pixmaps r !! pixmap with
              | Some descriptor => DmaBuf (raw (db_handle descriptor))
              | None => XPixmap (if decide (xid_raw pixmap ≤ u32_MAX) then xid_raw pixmap else 0)
              end in
            finish_drawing_update
              (present_buffer transaction namespace window buffer
                 (region_single (mk_rect 0 0 (rwidth (xw_geometry record)) (rheight (xw_geometry record))))
                 (xw_record_generation record) 250) r
        end
      else (rejected transaction RtUnknownResource, r)
  | None => (rejected transaction RtUnknownResource, r)
  end.

Definition window_size (record : XWindowRecord) : Size :=
  mk_size (rwidth (xw_geometry record)) (rheight (xw_geometry record)).

(** What the painting operations share: the buffer is painted and stored, its update kept for the
    dispatcher, and the transaction made; without an update the request ends as [otherwise] says. *)
Definition finish_painting (make : TransactionId → NamespaceId → XResourceId → Z → Region → Z → Z → XDrawingUpdate)
    (transaction : TransactionId) (namespace : NamespaceId) (window : XResourceId) (record : XWindowRecord)
    (damage : Region) (update : XAuthorityCpuBufferUpdate) (r : XAuthorityRuntime) :
    XAuthorityResponsePacket * XAuthorityRuntime :=
  finish_drawing_update
    (make transaction namespace window (update_handle update) damage (xw_record_generation record) 250)
    (set_last_cpu_buffer_update r (Some update)).
Definition with_window (transaction : TransactionId) (window : XResourceId)
    (k : XWindowRecord → XAuthorityRuntime → XAuthorityResponsePacket * XAuthorityRuntime)
    (r : XAuthorityRuntime) : XAuthorityResponsePacket * XAuthorityRuntime :=
  match rt_windows r !! window with
  | None => (rejected transaction RtUnknownResource, r)
  | Some record => k record r
  end.

Definition apply_core_draw_with_gc (transaction : TransactionId) (namespace : NamespaceId) (window : XResourceId)
    (damage : Region) (gc : XGraphicsContextValues) :
    XAuthorityRuntime → XAuthorityResponsePacket * XAuthorityRuntime :=
  with_window transaction window (λ record r,
    let '(update, buffers) := paint_damage (rt_software_buffers r) window (window_size record) (rects damage) gc in
    let r := set_software_buffers r buffers in
    match update with
    | None => (rejected transaction RtInvalidResource, r)
    | Some update => finish_painting core_draw transaction namespace window record damage update r
    end).
Definition apply_core_draw (transaction : TransactionId) (namespace : NamespaceId) (window : XResourceId)
    (damage : Region) := apply_core_draw_with_gc transaction namespace window damage gc_default.

Definition apply_copy_area (transaction : TransactionId) (namespace : NamespaceId)
    (source destination : XResourceId) (damage : Region) (r : XAuthorityRuntime) :
    XAuthorityResponsePacket * XAuthorityRuntime :=
  match validate_drawable_access r namespace source with
  | Err error => (rejected transaction error, r)
  | Ok _ =>
      match validate_pixmap_access r namespace destination with
      | Ok _ => (accepted transaction, r)
      | Err _ => apply_core_draw transaction namespace destination damage r
      end
  end.
Definition apply_copy_area_with_gc (transaction : TransactionId) (namespace : NamespaceId)
    (source destination : XResourceId) (src_x src_y dst_x dst_y width height : Z)
    (gc : XGraphicsContextValues) (r : XAuthorityRuntime) : XAuthorityResponsePacket * XAuthorityRuntime :=
  match validate_drawable_access r namespace source with
  | Err error => (rejected transaction error, r)
  | Ok _ =>
      match validate_pixmap_access r namespace destination with
      | Ok _ => (accepted transaction, r)
      | Err _ =>
          with_window transaction destination (λ record r,
            let damage := region_single (mk_rect dst_x dst_y width height) in
            let '(update, buffers) :=
              copy_area (rt_software_buffers r) source destination (window_size record)
                (mk_rect src_x src_y width height) dst_x dst_y gc in
            let r := set_software_buffers r buffers in
            match update with
            | None => apply_core_draw_with_gc transaction namespace destination damage gc r
            | Some update => finish_painting core_draw transaction namespace destination record damage update r
            end) r
      end
  end.

(** [iter().map(f).min()], [max()] with their defaults. *)
Definition minimum_or (d : Z) (l : list Z) : Z := match l with [] => d | z :: l => foldl Z.min z l end.
Definition maximum_or (d : Z) (l : list Z) : Z := match l with [] => d | z :: l => foldl Z.max z l end.
Definition line_damage (points : list XPoint) (gc : XGraphicsContextValues) : Rect :=
  let xs := xp_x <$> points in let ys := xp_y <$> points in
  let extent l := i32_saturating_add (i32_saturating_sub (maximum_or 0 l) (minimum_or 0 l))
                    (Z.max (gc_line_width gc) 1) in
  mk_rect (minimum_or 0 xs) (minimum_or 0 ys) (extent xs) (extent ys).
Definition apply_line_draw (transaction : TransactionId) (namespace : NamespaceId) (window : XResourceId)
    (points : list XPoint) (gc : XGraphicsContextValues) :
    XAuthorityRuntime → XAuthorityResponsePacket * XAuthorityRuntime :=
  with_window transaction window (λ record r,
    let '(update, buffers) := draw_lines (rt_software_buffers r) window (window_size record) points gc in
    let r := set_software_buffers r buffers in
    match update with
    | None => (accepted transaction, r)
    | Some update =>
        finish_painting core_draw transaction namespace window record
          (region_single (line_damage points gc)) update r
    end).

(** Without data, or when the image cannot be put, the damage is painted instead. *)
Definition put_or_paint (buffers : XSoftwareBufferStore) (window : XResourceId) (size : Size) (damage : Region)
    (data : option (list Z)) : option XAuthorityCpuBufferUpdate * XSoftwareBufferStore :=
  let '(update, buffers) :=
    match data, rects damage with
    | Some data, rect :: _ => put_image buffers window size rect data
    | _, _ => (None, buffers)
    end in
  match update with
  | Some update => (Some update, buffers)
  | None => paint_damage buffers window size (rects damage) gc_default
  end.
Definition apply_put_image (transaction : TransactionId) (namespace : NamespaceId) (window : XResourceId)
    (damage : Region) (data : option (list Z)) :
    XAuthorityRuntime → XAuthorityResponsePacket * XAuthorityRuntime :=
  with_window transaction window (λ record r,
    let '(update, buffers) := put_or_paint (rt_software_buffers r) window (window_size record) damage data in
    let r := set_software_buffers r buffers in
    match update with
    | None => (rejected transaction RtInvalidResource, r)
    | Some update => finish_painting shm_put_image transaction namespace window record damage update r
    end).

Definition text_damage (x baseline : Z) (text : list Z) : Rect :=
  mk_rect x (i32_saturating_sub baseline 10)
    (Z.max (i32_or_max (u_sat_mul (Z.of_nat (length text)) 8)) 1) 12.
Definition apply_text_draw (transaction : TransactionId) (namespace : NamespaceId) (window : XResourceId)
    (x baseline : Z) (text : list Z) (opaque : bool) (gc : XGraphicsContextValues) :
    XAuthorityRuntime → XAuthorityResponsePacket * XAuthorityRuntime :=
  with_window transaction window (λ record r,
    let '(update, buffers) :=
      draw_text (rt_software_buffers r) window (window_size record) x baseline text opaque gc in
    let r := set_software_buffers r buffers in
    match update with
    | None => (rejected transaction RtInvalidResource, r)
    | Some update =>
        finish_painting core_draw transaction namespace window record
          (region_single (text_damage x baseline text)) update r
    end).

Definition apply_clear_with_pixel (transaction : TransactionId) (namespace : NamespaceId) (window : XResourceId)
    (damage : Region) (pixel : Z) :
    XAuthorityRuntime → XAuthorityResponsePacket * XAuthorityRuntime :=
  with_window transaction window (λ record r,
    match rects damage with
    | [] => (accepted transaction, r)
    | rect :: _ =>
        let '(update, buffers) := store_clear (rt_software_buffers r) window (window_size record) rect pixel in
        let r := set_software_buffers r buffers in
        match update with
        | None => (rejected transaction RtInvalidResource, r)
        | Some update => finish_painting core_draw transaction namespace window record damage update r
        end
    end).
Definition apply_clear (transaction : TransactionId) (namespace : NamespaceId) (window : XResourceId)
    (damage : Region) := apply_clear_with_pixel transaction namespace window damage 0.

(** The damage of a wide line starts at its points: half of what is painted lies before it. *)
Lemma line_damage_starts_late :
  let wide := mk_gc_values X_GX_COPY u32_MAX 16711680 1 5 0 None 0 0 [] in
  let points := [mk_xpoint 1 5; mk_xpoint 6 5] in
  line_damage points wide = mk_rect 1 5 10 5 ∧ point_bounds points (gc_line_width wide) = Some (mk_rect (-1) 3 10 5).
Proof. done. Qed.
