(* ===== verification/XOps.v ===== *)
(** * The X authority runtime as a whole
    ([sophia-x-authority/src/runtime.rs])

    Every operation that changes the runtime as a step, and what no run of them can break: the
    tables stay well formed, and what a namespace does leaves the windows and resources of the
    others alone. *)

From S2P Require Import Prelude Ids Geometry Packets PortalPackets.
From S2P Require Import XAtoms XTables XProperties XSelections XSoftware XPainting XState XRuntime XResources XRelease XDraws.
Local Open Scope Z_scope.

(** ** Steps *)

(** The state an operation ends in, failed or not, is related to the one it started in. *)
Definition steps {E A} (R : relation XAuthorityRuntime) (m : X E A) (r : XAuthorityRuntime) : Prop := R r (m r).2.

Section steps.
  Context (R : relation XAuthorityRuntime) `{!PreOrder R}.

Lemma steps_ret {E A} (a : A) r : steps R (mret a : X E A) r.
Proof. unfold steps. simpl. reflexivity. Qed.
Lemma steps_lift {E A} (m : result A E) r : steps R (x_lift m) r.
Proof. unfold steps. simpl. reflexivity. Qed.
Lemma steps_access {A} (m : result A XAuthorityAccessError) r : steps R (x_access m) r.
Proof. apply steps_lift. Qed.
Lemma steps_set {E} f r : R r (f r) → steps R (x_set f : X E unit) r.
Proof. done. Qed.
Lemma steps_bind {E A B} (m : X E A) (k : A → X E B) r :
  steps R m r → (∀ a r', m r = (Ok a, r') → steps R (k a) r') → steps R (m ≫= k) r.
Proof.
  unfold steps, mbind, x_bind. destruct (m r) as [[a|e] r'] eqn:Hm; simpl; [|done].
  intros H1 H2. etrans; [exact H1|]. by apply H2.
Qed.
Lemma steps_get {E B} (k : XAuthorityRuntime → X E B) r : steps R (k r) r → steps R (x_get ≫= k) r.
Proof. done. Qed.
Lemma steps_lift_bind {E A B} (m : result A E) (k : A → X E B) r :
  (∀ a, m = Ok a → steps R (k a) r) → steps R (x_lift m ≫= k) r.
Proof. intros H. apply steps_bind; [apply steps_lift|]. intros a r' [= -> <-]. by apply H. Qed.
Lemma steps_access_bind {A B} (m : result A XAuthorityAccessError) (k : A → Rt B) r :
  (∀ a, m = Ok a → steps R (k a) r) → steps R (x_access m ≫= k) r.
Proof. intros H. apply steps_lift_bind. intros a Ha. apply H. by destruct m; simplify_eq/=. Qed.
Lemma steps_guard_bind {E B} (P : Prop) `{Decision P} (e : E) (k : unit → X E B) r :
  (P → steps R (k ()) r) → steps R (x_guard P e ≫= k) r.
Proof.
  intros HP. unfold x_guard, steps, mbind, x_bind. case_decide; simpl; [by apply HP|reflexivity].
Qed.
Lemma steps_set_bind {E B} f (k : unit → X E B) r :
  R r (f r) → steps R (k ()) (f r) → steps R (x_set f ≫= k) r.
Proof. intros H1 H2. apply steps_bind; [done|]. by intros [] r' [= <-]. Qed.
Lemma steps_fold {E S A} (f : S → A → X E S) (l : list A) :
  (∀ a s r, a ∈ l → steps R (f s a) r) → ∀ s r, steps R (x_fold f l s) r.
Proof.
  induction l as [|a l IH]; intros Hf s r; simpl; [apply steps_ret|].
  apply steps_bind; [apply Hf; left|]. intros s' r' _. apply IH. intros a' s2 r2 Ha. apply Hf. by right.
Qed.
End steps.

(** ** A well-formed runtime *)

Record runtime_ok (r : XAuthorityRuntime) : Prop := mk_runtime_ok {
  ok_resources : resources_ok (rt_resources r);
  ok_windows : windows_ok (rt_windows r);
  ok_segments : segments_ok (rt_shm_segments r);
  ok_contexts : contexts_ok (rt_graphics_contexts r);
  (** Every window resource has its window record, in the same namespace, but for that of the last
      identifier: it names no valid surface, and creating it leaves a resource without a window. *)
  ok_linked : ∀ id record, rt_resources r !! id = Some record → xr_kind record = KWindow → xid_raw id ≠ u32_MAX →
    ∃ w, rt_windows r !! id = Some w ∧ xw_namespace w = xr_owner_namespace record;
  ok_buffers : store_ok (rt_software_buffers r);
  ok_descriptors : ∀ id d, rt_dri3_pixmaps r !! id = Some d → dma_buf_validate d = Ok ();
  ok_topology : ∃ size, topology_validate (rt_output_topology r) = Ok size;
  ok_nameless : ∀ id, xid_raw id = u32_MAX → rt_windows r !! id = None;
}.
Lemma window_linked r id record :
  runtime_ok r → rt_resources r !! id = Some record → xr_kind record = KWindow →
  (∃ w, rt_windows r !! id = Some w ∧ xw_namespace w = xr_owner_namespace record) ∨ rt_windows r !! id = None.
Proof.
  intros Hok Hr Hk. destruct (decide (xid_raw id = u32_MAX)) as [E|E]; [right; by apply (ok_nameless _ Hok)|left; by apply (ok_linked _ Hok)].
Qed.
Lemma window_linked_own r id record w :
  runtime_ok r → rt_resources r !! id = Some record → xr_kind record = KWindow → rt_windows r !! id = Some w →
  xw_namespace w = xr_owner_namespace record.
Proof. intros Hok Hr Hk Hw. destruct (window_linked r id record Hok Hr Hk) as [(w' & ? & ?)|]; congruence. Qed.

(** ** What another namespace cannot touch *)

(** Everything namespace [n] owns under the identifiers of [mine] is still there, unchanged. *)
Record untouched (n : NamespaceId) (mine : XResourceId → Prop) (r r' : XAuthorityRuntime) : Prop := mk_untouched {
  un_resources : ∀ id v, mine id → rt_resources r !! id = Some v → xr_owner_namespace v = n →
    rt_resources r' !! id = Some v ∧ rt_dri3_pixmaps r' !! id = rt_dri3_pixmaps r !! id ∧
    rt_dri3_fences r' !! id = rt_dri3_fences r !! id ∧ rt_xfixes_regions r' !! id = rt_xfixes_regions r !! id;
  un_windows : ∀ id v, mine id → rt_windows r !! id = Some v → xw_namespace v = n → rt_windows r' !! id = Some v;
  un_segments : ∀ id v, mine id → rt_shm_segments r !! id = Some v → xs_namespace v = n → rt_shm_segments r' !! id = Some v;
  un_contexts : ∀ id v, mine id → rt_graphics_contexts r !! id = Some v → xg_namespace v = n →
    rt_graphics_contexts r' !! id = Some v;
  un_glx_contexts : ∀ id v, mine id → rt_glx_contexts r !! id = Some v → v.1.1 = n → rt_glx_contexts r' !! id = Some v;
  un_focus : rt_input_focus r' !! n = rt_input_focus r !! n;
}.

Lemma untouched_refl n mine r : untouched n mine r r.
Proof. by constructor. Qed.
Lemma untouched_trans n mine r1 r2 r3 : untouched n mine r1 r2 → untouched n mine r2 r3 → untouched n mine r1 r3.
Proof.
  intros H1 H2. constructor.
  - intros id v Hm Hv Hn.
    destruct (un_resources _ _ _ _ H1 id v Hm Hv Hn) as (Hv' & E1 & E2 & E3).
    destruct (un_resources _ _ _ _ H2 id v Hm Hv' Hn) as (Hv3 & E4 & E5 & E6). split_and!; congruence.
  - intros id v Hm Hv Hn. apply (un_windows _ _ _ _ H2); [done| |done]. by apply (un_windows _ _ _ _ H1).
  - intros id v Hm Hv Hn. apply (un_segments _ _ _ _ H2); [done| |done]. by apply (un_segments _ _ _ _ H1).
  - intros id v Hm Hv Hn. apply (un_contexts _ _ _ _ H2); [done| |done]. by apply (un_contexts _ _ _ _ H1).
  - intros id v Hm Hv Hn. apply (un_glx_contexts _ _ _ _ H2); [done| |done]. by apply (un_glx_contexts _ _ _ _ H1).
  - by rewrite (un_focus _ _ _ _ H2), (un_focus _ _ _ _ H1).
Qed.

(** A step of namespace [o] (if any) that creates the identifiers [created]. *)
Definition proper_step (o : option NamespaceId) (created : list XResourceId) : relation XAuthorityRuntime :=
  λ r r', runtime_ok r → runtime_ok r' ∧
    ∀ n mine, o ≠ Some n → (∀ id, id ∈ created → ¬ mine id) → untouched n mine r r'.
#[export] Instance proper_step_preorder o created : PreOrder (proper_step o created).
Proof.
  split.
  - intros r Hok. split; [done|]. intros. apply untouched_refl.
  - intros r1 r2 r3 H1 H2 Hok. destruct (H1 Hok) as [Hok2 U1]. destruct (H2 Hok2) as [Hok3 U2]. split; [done|].
    intros n mine Hn Hc. eapply untouched_trans; [by apply U1|by apply U2].
Qed.

(** ** Steps of single tables *)

(** What the two relations look at. *)
Definition relevant (r : XAuthorityRuntime) :=
  (rt_resources r, rt_windows r, rt_shm_segments r, rt_graphics_contexts r, rt_glx_contexts r, rt_software_buffers r,
   rt_dri3_pixmaps r, rt_dri3_fences r, rt_xfixes_regions r, rt_output_topology r, rt_input_focus r).
Lemma step_irrelevant o created r r' : relevant r' = relevant r → proper_step o created r r'.
Proof.
  unfold relevant. intros [= E1 E2 E3 E4 E5 E6 E7 E8 E9 E10 E11] [H1 H2 H3 H4 H5 H6 H7 H8 H9]. split.
  - constructor; by rewrite ?E1, ?E2, ?E3, ?E4, ?E6, ?E7, ?E10.
  - intros n mine _ _. constructor; by rewrite ?E1, ?E2, ?E3, ?E4, ?E5, ?E7, ?E8, ?E9, ?E11.
Qed.

Section table_steps.
  Context (ns : NamespaceId) (created : list XResourceId).
  Notation R := (proper_step (Some ns) created).

Lemma insert_resource_step id kind g r :
  id ∈ created → kind ≠ KWindow → steps R (insert_resource id kind ns g) r.
Proof.
  intros Hid Hk. unfold steps. rewrite insert_resource_eq. destruct (resource_insert _ _ _ _ _) as [t|e] eqn:Hi; simpl; [|reflexivity].
  intros Hok. pose proof (resource_insert_preserves _ _ _ _ _ _ (ok_resources _ Hok) Hi) as Hres.
  apply resource_insert_ok in Hi as (_ & _ & ->). destruct Hok. split.
  - constructor; simpl; try done. intros i rec. rewrite lookup_insert_Some. intros [[<- <-]|[_ Hr]]; [done|by apply ok_linked0].
  - intros n mine Hn Hc. constructor; simpl; try done. intros i v Hm Hv Ho.
    assert (i ≠ id) by (intros ->; by apply (Hc id)). by rewrite lookup_insert_ne.
Qed.

(** Only the namespace's own entry goes. *)
Lemma remove_resource_step id r record :
  rt_resources r !! id = Some record → xr_owner_namespace record = ns → R r (set_resources r (delete id (rt_resources r))).
Proof.
  intros Hr Ho [H1 H2 H3 H4 H5 H6 H7 H8 H9]. split.
  - constructor; simpl; try done; intros i v [_ Hv]%lookup_delete_Some; [by apply H1|by apply H5].
  - intros n mine Hn _. constructor; simpl; try done. intros i v Hm Hv Hvn.
    assert (i ≠ id) by (intros ->; congruence). by rewrite lookup_delete_ne.
Qed.

Lemma segments_step r t :
  (runtime_ok r → segments_ok t) →
  (∀ id v, rt_shm_segments r !! id = Some v → xs_namespace v ≠ ns → id ∉ created → t !! id = Some v) →
  R r (set_shm_segments r t).
Proof.
  intros Hok Ht Hr. specialize (Hok Hr). destruct Hr. split; [by constructor|]. intros n mine Hn Hc.
  constructor; simpl; try done. intros id v Hm Hv Ho. apply Ht; [done|congruence|]. intros ?. by apply (Hc id).
Qed.
Lemma contexts_step r t :
  (runtime_ok r → contexts_ok t) →
  (∀ id v, rt_graphics_contexts r !! id = Some v → xg_namespace v ≠ ns → id ∉ created → t !! id = Some v) →
  R r (set_graphics_contexts r t).
Proof.
  intros Hok Ht Hr. specialize (Hok Hr). destruct Hr. split; [by constructor|]. intros n mine Hn Hc.
  constructor; simpl; try done. intros id v Hm Hv Ho. apply Ht; [done|congruence|]. intros ?. by apply (Hc id).
Qed.
Lemma glx_contexts_step r t :
  (∀ id v, rt_glx_contexts r !! id = Some v → v.1.1 ≠ ns → id ∉ created → t !! id = Some v) →
  R r (set_glx_contexts r t).
Proof.
  intros Ht []. split; [by constructor|]. intros n mine Hn Hc.
  constructor; simpl; try done. intros id v Hm Hv Ho. apply Ht; [done|congruence|]. intros ?. by apply (Hc id).
Qed.
Lemma focus_step r f : (∀ n, n ≠ ns → f !! n = rt_input_focus r !! n) → R r (set_input_focus r f).
Proof. intros Hf []. split; [by constructor|]. intros n mine Hn _. constructor; simpl; try done. apply Hf. congruence. Qed.

(** The data of a resource of the namespace, or of a new identifier, or of none. *)
Definition data_of (r : XAuthorityRuntime) (id : XResourceId) : Prop :=
  id ∈ created ∨ ∀ record, rt_resources r !! id = Some record → xr_owner_namespace record = ns.
Lemma data_other r id i v n (mine : XResourceId → Prop) :
  data_of r id → Some ns ≠ Some n → (∀ id, id ∈ created → ¬ mine id) → mine i →
  rt_resources r !! i = Some v → xr_owner_namespace v = n → i ≠ id.
Proof. intros [Hd|Hd] Hn Hc Hm Hv Ho ->; [by apply (Hc id)|]. apply Hd in Hv. congruence. Qed.

Lemma dri3_pixmaps_step r id f :
  data_of r id → (∀ i, i ≠ id → f !! i = rt_dri3_pixmaps r !! i) →
  (∀ d, f !! id = Some d → dma_buf_validate d = Ok () ∨ rt_dri3_pixmaps r !! id = Some d) → R r (set_dri3_pixmaps r f).
Proof.
  intros Hd Hf Hv Hok. split.
  - destruct Hok. constructor; simpl; try done. intros i d Hi. destruct (decide (i = id)) as [->|Hne].
    + destruct (Hv d Hi) as [|Hold]; [done|]. by apply (ok_descriptors0 id).
    + rewrite Hf in Hi by done. by apply (ok_descriptors0 i).
  - intros n mine Hn Hc. constructor; simpl; try done. intros i v Hm Hi Ho. rewrite Hf; [done|].
    by eapply data_other.
Qed.
Lemma dri3_fences_step r id f :
  data_of r id → (∀ i, i ≠ id → f !! i = rt_dri3_fences r !! i) → R r (set_dri3_fences r f).
Proof.
  intros Hd Hf []. split; [by constructor|]. intros n mine Hn Hc. constructor; simpl; try done.
  intros i v Hm Hi Ho. rewrite Hf; [done|]. by eapply data_other.
Qed.
Lemma regions_step r id f :
  data_of r id → (∀ i, i ≠ id → f !! i = rt_xfixes_regions r !! i) → R r (set_xfixes_regions r f).
Proof.
  intros Hd Hf []. split; [by constructor|]. intros n mine Hn Hc. constructor; simpl; try done.
  intros i v Hm Hi Ho. rewrite Hf; [done|]. by eapply data_other.
Qed.

(** A window of the namespace changes, but for what identifies it. *)
Lemma windows_step r id w w' :
  rt_windows r !! id = Some w → xw_namespace w = ns →
  xw_id w' = xw_id w ∧ xw_surface w' = xw_surface w ∧ xw_namespace w' = xw_namespace w →
  R r (set_windows r (<[id := w']> (rt_windows r))).
Proof.
  intros Hw Hns (E1 & E2 & E3) [H1 H2 H3 H4 H5 H6 H7 H8 H9]. split.
  - constructor; simpl; try done.
    + intros i v. rewrite lookup_insert_Some. intros [[<- <-]|[_ Hv]]; [|by apply H2]. rewrite E1, E2, E3. by apply H2.
    + intros i rec Hr Hk Hi. destruct (H5 i rec Hr Hk Hi) as (v & Hv & Ho). destruct (decide (i = id)) as [->|].
      * exists w'. rewrite lookup_insert_eq. split; [done|congruence].
      * exists v. by rewrite lookup_insert_ne.
    + intros i Hi. rewrite lookup_insert_ne; [by apply H9|]. intros ->. by rewrite H9 in Hw.
  - intros n mine Hn _. constructor; simpl; try done. intros i v Hm Hv Ho. rewrite lookup_insert_ne; [done|]. congruence.
Qed.
End table_steps.

Lemma buffers_step o created r b : (runtime_ok r → store_ok b) → proper_step o created r (set_software_buffers r b).
Proof. intros Hb Hr. specialize (Hb Hr). destruct Hr. split; [by constructor|]. intros. by constructor. Qed.

(** ** Steps of operations *)

(** A window of the range without a record, which only the last identifier can be. *)
Definition half_made (ns : NamespaceId) (range : XWireClientResourceRange) (r : XAuthorityRuntime) : Prop :=
  ∃ id record, rt_resources r !! id = Some record ∧ xr_kind record = KWindow ∧
    glx_owned ns range (xr_owner_namespace record) id ∧ xid_raw id = u32_MAX.
Lemma runtime_ok_ready ns range r : runtime_ok r → ¬ half_made ns range r → release_ready ns range r.
Proof.
  intros Hok Hno. destruct Hok. split_and!; try done. intros id record Hr Hk Ho.
  destruct (ok_linked0 id record Hr Hk) as (w & -> & _); [|done]. intros E. apply Hno. by exists id, record.
Qed.
Lemma steps_ok {E A} o created (m : X E A) r :
  (runtime_ok r → steps (proper_step o created) m r) → steps (proper_step o created) m r.
Proof. intros H Hok. exact (H Hok Hok). Qed.
Lemma change_keeps_window event id w s t (wt : gmap XResourceId XWindowRecord) :
  (event = WMapped id 0 ∨ (∃ g, event = WMapped id g) ∨ (∃ x y wd h g, event = WConfigured id x y wd h g)) →
  wt !! id = Some w → window_apply wt event = Ok (s, t) →
  ∃ w', t = <[id := w']> wt ∧ xw_id w' = xw_id w ∧ xw_surface w' = xw_surface w ∧ xw_namespace w' = xw_namespace w.
Proof.
  intros He Hw Ha.
  assert (∃ f, (∀ w, xw_id (f w) = xw_id w ∧ xw_surface (f w) = xw_surface w ∧ xw_namespace (f w) = xw_namespace w) ∧
    change_window wt id f = Ok (s, t)) as (f & Hf & Hc).
  { destruct He as [->|[[g ->]|(x & y & wd & h & g & ->)]]; eexists; (split; [|exact Ha]); done. }
  apply change_window_ok in Hc as (w0 & Hw0 & _ & ->). simplify_eq. exists (f w). split; [done|]. apply Hf.
Qed.

Section operation_steps.
  Context (ns : NamespaceId) (created : list XResourceId).
  Notation R := (proper_step (Some ns) created).

Lemma lookup_bind {B} id kind (k : XResourceRecord → Rt B) r :
  (∀ record, rt_resources r !! id = Some record → xr_kind record = kind → xr_owner_namespace record = ns → steps R (k record) r) →
  steps R (lookup_resource ns id kind ≫= k) r.
Proof.
  intros Hk. unfold steps. rewrite x_bind_eq, lookup_resource_eq. destruct (resource_lookup _ _ _ _) as [record|e] eqn:Hl; simpl; [|reflexivity].
  apply resource_lookup_ok in Hl as (_ & H1 & H2 & H3). by apply Hk.
Qed.
Lemma validate_kind_own kind r id u :
  validate_kind kind r ns id = Ok u →
  ∃ record, rt_resources r !! id = Some record ∧ xr_kind record = kind ∧ xr_owner_namespace record = ns.
Proof.
  unfold validate_kind. destruct (resource_lookup _ _ _ _) as [record|e] eqn:Hl; simpl; [|done]. intros _.
  apply resource_lookup_ok in Hl as (_ & H1 & H2 & H3). eauto.
Qed.
Lemma own_data r id record : rt_resources r !! id = Some record → xr_owner_namespace record = ns → data_of ns created r id.
Proof. intros Hr Ho. right. intros record'. naive_solver. Qed.

Lemma change_window_step event id r w :
  (event = WMapped id 0 ∨ (∃ g, event = WMapped id g) ∨ (∃ x y wd h g, event = WConfigured id x y wd h g)) →
  rt_windows r !! id = Some w → xw_namespace w = ns → steps R (apply_window_event event) r.
Proof.
  intros He Hw Hn. unfold steps. rewrite apply_window_event_eq.
  destruct (window_apply _ _) as [[s t]|e] eqn:Ha; simpl; [|reflexivity].
  destruct (change_keeps_window _ _ _ _ _ _ He Hw Ha) as (w' & -> & Hf). by eapply windows_step.
Qed.

Lemma own_window_step event id record r :
  (event = WMapped id 0 ∨ (∃ g, event = WMapped id g) ∨ (∃ x y wd h g, event = WConfigured id x y wd h g)) →
  runtime_ok r → rt_resources r !! id = Some record → xr_kind record = KWindow → xr_owner_namespace record = ns →
  steps R (apply_window_event event) r.
Proof.
  intros He Hok Hr Hk Ho. destruct (window_linked r id record Hok Hr Hk) as [(w & Hw & Hn)|Hnone].
  - eapply change_window_step; [exact He|exact Hw|congruence].
  - unfold steps. rewrite apply_window_event_eq.
    destruct He as [->|[[g ->]|(x & y & wd & h & g & ->)]]; simpl; unfold change_window; rewrite Hnone; simpl; reflexivity.
Qed.

Lemma attach_shm_segment_step segment shmid ro g r :
  segment ∈ created → steps R (attach_shm_segment ns segment shmid ro g) r.
Proof.
  intros Hc. apply steps_get, steps_access_bind; [apply _|]. intros t Ht. apply steps_set, segments_step.
  - intros Hok. eapply shm_attach_preserves; [apply Hok|exact Ht].
  - intros id v Hv Hn Hni. unfold shm_attach in Ht. repeat case_decide; simplify_eq.
    rewrite lookup_insert_ne; [done|]. by intros ->.
Qed.
Lemma detach_shm_segment_step segment r : steps R (detach_shm_segment ns segment) r.
Proof.
  apply steps_get, steps_access_bind; [apply _|]. intros t Ht. apply steps_set.
  apply shm_detach_ok in Ht as ((s & (_ & _ & Hs & Ho)%shm_lookup_ok) & ->). apply segments_step.
  - intros Hok i v [_ Hv]%lookup_delete_Some. by apply (ok_segments _ Hok).
  - intros id v Hv Hn _. rewrite lookup_delete_ne; [done|]. congruence.
Qed.
Lemma set_focus_step focus revert r : steps R (set_focus ns focus revert) r.
Proof.
  apply steps_guard_bind; [apply _|]. intros _. apply steps_get, steps_bind; [apply _| |].
  - case_decide; [apply steps_lift|apply steps_ret]; apply _.
  - intros u r' Hu. apply steps_set, focus_step. intros n Hn.
    assert (r' = r) as -> by (revert Hu; case_decide; by intros [=]). by rewrite lookup_insert_ne.
Qed.
Lemma set_window_background_pixel_step window p r : steps R (set_window_background_pixel ns window p) r.
Proof. apply steps_get, steps_lift_bind; [apply _|]. intros _ _. by apply steps_set, step_irrelevant. Qed.
Lemma configure_window_geometry_step window x y w h g r : steps R (configure_window_geometry ns window x y w h g) r.
Proof.
  apply steps_ok. intros Hok. apply lookup_bind. intros record Hr Hk Ho.
  apply steps_bind; [apply _| |intros; apply steps_ret; apply _]. eapply own_window_step; eauto 10.
Qed.
Lemma configure_window_size_step window size r : steps R (configure_window_size_from_engine ns window size) r.
Proof.
  apply steps_guard_bind; [apply _|]. intros _. apply steps_get, steps_lift_bind; [apply _|]. intros geometry _.
  apply steps_lift_bind; [apply _|]. intros record _. apply steps_bind; [apply _|apply configure_window_geometry_step|].
  intros. apply steps_ret, _.
Qed.
Lemma map_namespace_windows_step g r : steps R (map_namespace_windows ns g) r.
Proof.
  apply steps_ok. intros Hok. apply steps_get.
  assert (∀ l s r, Forall (λ id, ∃ w, rt_windows r !! id = Some w ∧ xw_namespace w = ns) l → steps R (x_fold (map_window_step g) l s) r) as Hfold.
  { induction l as [|id l IH]; intros s r0 Hl; [apply steps_ret, _|]. simpl. apply Forall_cons in Hl as [(w & Hw & Hn) Hl].
    assert (steps R (map_window_step g s id) r0) as Hs.
    { unfold map_window_step. apply steps_bind; [apply _| |intros; apply steps_ret, _]. eapply change_window_step; eauto. }
    apply steps_bind; [apply _|done|]. intros s' r1 Hm. apply IH.
    unfold map_window_step in Hm. rewrite x_bind_eq, apply_window_event_eq in Hm. simpl in Hm.
    destruct (change_window (rt_windows r0) id _) as [[s0 t]|e] eqn:Hc; simpl in Hm; [|done].
    injection Hm as _ <-. apply change_window_ok in Hc as (w0 & Hw0 & _ & ->). simplify_eq. eapply Forall_impl; [exact Hl|].
    intros i (wi & Hwi & Hni). simpl. destruct (decide (i = id)) as [->|].
    - rewrite lookup_insert_eq. eexists. split; [done|]. done.
    - rewrite lookup_insert_ne by done. eauto. }
  apply Hfold, Forall_forall. intros id Hid. unfold ids_for_namespace in Hid.
  apply elem_of_keyed_ids in Hid as (w & Hw & Hn); [by exists w|]. intros k v Hv. apply (ok_windows _ Hok k v Hv).
Qed.

(** Resources that come and go with data of their own. *)
Lemma record_freed_step record r r' :
  rt_resources r !! xr_id record = Some record → xr_owner_namespace record = ns → record_freed record r r' → R r r'.
Proof.
  intros Hr Ho Hfr Hok. pose proof (λ n, freed_focus _ _ _ n Hfr) as F8.
  destruct Hfr as [F1 F2 F3 F4 F5 F6 FK _ _ _ _ _]. injection FK as T1 T2 T3 _ _ _ _ _ _ _ _ T4. pose proof Hok as [H1 H2 H3 H4 H5 H6 H7 H8 H9]. split.
  - constructor; rewrite ?F1, ?T1, ?T2, ?T4; try done.
    + intros i v [_ Hv]%lookup_delete_Some. by apply H1.
    + rewrite F2. destruct (decide (xr_kind record = KWindow)); [|done]. intros i v [_ Hv]%lookup_delete_Some. by apply H2.
    + intros i v [Hne Hv]%lookup_delete_Some Hk Hi. destruct (H5 i v Hv Hk Hi) as (w & Hw & Hn). exists w. split; [|done].
      rewrite F2. destruct (decide (xr_kind record = KWindow)); [by rewrite lookup_delete_ne|done].
    + rewrite F3. destruct (decide (xr_kind record = KWindow)); [|done]. intros d b. simpl. intros [_ Hb]%lookup_delete_Some. by apply H6.
    + intros i d. rewrite F4. destruct (decide (xr_kind record = KPixmap)); [|by apply H7]. intros [_ Hd]%lookup_delete_Some. by apply (H7 i).
    + intros i Hi. rewrite F2. destruct (decide (xr_kind record = KWindow)); [|by apply H9].
      rewrite lookup_delete_None. right. by apply H9.
  - intros n mine Hn _. constructor; rewrite ?T1, ?T2, ?T3.
    + intros i v Hm Hv Hvn. assert (i ≠ xr_id record) by (intros ->; congruence).
      rewrite F1, F4, F5, F6. split_and!; [by rewrite lookup_delete_ne|..].
      * destruct (decide (xr_kind record = KPixmap)); [by rewrite lookup_delete_ne|done].
      * destruct (decide (xr_kind record = KFence)); [by rewrite lookup_delete_ne|done].
      * destruct (decide (xr_kind record = KRegion)); [by rewrite lookup_delete_ne|done].
    + intros i v Hm Hv Hvn. rewrite F2. destruct (decide (xr_kind record = KWindow)) as [Hk|]; [|done]. rewrite lookup_delete_ne; [done|].
      intros <-. pose proof (window_linked_own r _ record v Hok Hr Hk Hv). congruence.
    + done.
    + done.
    + done.
    + apply F8. congruence.
Qed.
Lemma destroy_window_step window r : steps R (destroy_window ns window) r.
Proof.
  apply steps_ok. intros Hok. unfold steps. destruct (resource_lookup (rt_resources r) ns window KWindow) as [record|e] eqn:Hl.
  - apply resource_lookup_ok in Hl as (Hv & Hr & Hk & Ho). rewrite <-Ho in Hv.
    destruct (ok_resources _ Hok _ _ Hr) as (Hid & _). destruct (rt_windows r !! window) as [w|] eqn:Hw.
    + destruct (destroy_window_ok r window record w Hr Hid Hv Hk Hw) as (r' & Hd & Hf).
      rewrite Ho in Hd. rewrite Hd. simpl. eapply record_freed_step; [|done|exact Hf]. by rewrite Hid.
    + unfold destroy_window. rewrite x_bind_eq, <-Hk, <-Ho, (lookup_resource_own _ _ _ Hr Hv), x_get_eq, Hw. simpl. reflexivity.
  - unfold destroy_window. rewrite x_bind_eq, lookup_resource_eq, Hl. simpl. reflexivity.
Qed.
Lemma create_glx_context_step context config direct r :
  context ∈ created → steps R (create_glx_context ns context config direct) r.
Proof.
  intros Hc. apply steps_get, steps_guard_bind; [apply _|]. intros _. apply steps_set, glx_contexts_step.
  intros id v Hv _ Hni. rewrite lookup_insert_ne; [done|]. by intros ->.
Qed.
Lemma destroy_glx_context_step context r : steps R (destroy_glx_context ns context) r.
Proof.
  apply steps_get, steps_lift_bind; [apply _|]. intros a Ha. apply steps_set, glx_contexts_step.
  intros id v Hv Hn _. rewrite lookup_delete_ne; [done|]. intros ->. unfold glx_context in Ha. rewrite Hv in Ha.
  destruct v as [[owner config] direct]. case_decide; [simpl in *; congruence|done].
Qed.
Lemma create_glx_window_step glx window config r : steps R (create_glx_window ns glx window config) r.
Proof.
  apply steps_get, steps_lift_bind; [apply _|]. intros _ _. apply steps_guard_bind; [apply _|]. intros _.
  by apply steps_set, step_irrelevant.
Qed.
Lemma destroy_glx_window_step glx r : steps R (destroy_glx_window ns glx) r.
Proof. apply steps_get, steps_lift_bind; [apply _|]. intros _ _. by apply steps_set, step_irrelevant. Qed.

Lemma free_pixmap_step pixmap r : steps R (free_pixmap ns pixmap) r.
Proof.
  apply lookup_bind. intros record Hr _ Ho. apply steps_set_bind; [apply _|by eapply remove_resource_step|].
  apply steps_get, steps_set_bind; [apply _| |apply steps_ret, _].
  apply (dri3_pixmaps_step _ _ _ pixmap).
  - right. intros record'. simpl. by rewrite lookup_delete_eq.
  - intros i Hi. by rewrite lookup_delete_ne.
  - intros d. by rewrite lookup_delete_eq.
Qed.
Lemma create_pixmap_step pixmap g r : pixmap ∈ created → steps R (create_pixmap ns pixmap g) r.
Proof. intros Hc. by apply insert_resource_step. Qed.
Lemma register_dri3_pixmap_step pixmap g d r :
  pixmap ∈ created → dma_buf_validate d = Ok () → steps R (register_dri3_pixmap ns pixmap g d) r.
Proof.
  intros Hc Hd. apply steps_bind; [apply _|by apply create_pixmap_step|]. intros _ r1 _.
  apply steps_set_bind; [apply _|by apply step_irrelevant|]. apply steps_set_bind; [apply _| |apply steps_ret, _].
  apply (dri3_pixmaps_step _ _ _ pixmap); [by left| |].
  - intros i Hi. by rewrite lookup_insert_ne.
  - intros d'. rewrite lookup_insert_eq. intros [= <-]. by left.
Qed.
Lemma check_descriptor_ok d u : check_descriptor d = Ok u → dma_buf_validate d = Ok ().
Proof. unfold check_descriptor. by destruct (dma_buf_validate d) as [[]|]. Qed.
Lemma create_dri3_pixmap_step pixmap g bytes w h stride depth bpp r :
  pixmap ∈ created → steps R (create_dri3_pixmap ns pixmap g bytes w h stride depth bpp) r.
Proof.
  intros Hc. apply steps_lift_bind; [apply _|]. intros format _. apply steps_get. cbv zeta.
  apply steps_lift_bind; [apply _|]. intros u Hu%check_descriptor_ok. apply steps_guard_bind; [apply _|]. intros _.
  by apply register_dri3_pixmap_step.
Qed.
Lemma create_dri3_pixmap_from_buffers_step pixmap g n w h strides offsets depth bpp modifier r :
  pixmap ∈ created → steps R (create_dri3_pixmap_from_buffers ns pixmap g n w h strides offsets depth bpp modifier) r.
Proof.
  intros Hc. apply steps_lift_bind; [apply _|]. intros format _. apply steps_guard_bind; [apply _|]. intros _.
  apply steps_get. cbv zeta. apply steps_lift_bind; [apply _|]. intros u Hu%check_descriptor_ok.
  by apply register_dri3_pixmap_step.
Qed.

Lemma store_region_step region rects r : data_of ns created r region → steps R (store_region region rects) r.
Proof. intros Hd. apply steps_set, (regions_step _ _ _ region); [done|]. intros i Hi. by rewrite lookup_insert_ne. Qed.
Lemma create_xfixes_region_step region rects g r :
  region ∈ created → steps R (create_xfixes_region ns region rects g) r.
Proof.
  intros Hc. apply steps_bind; [apply _|by apply insert_resource_step|]. intros _ r1 _. apply store_region_step. by left.
Qed.
Lemma set_xfixes_region_step region rects r : steps R (set_xfixes_region ns region rects) r.
Proof.
  apply steps_get, steps_lift_bind; [apply _|]. intros u (record & Hr & _ & Ho)%validate_kind_own.
  by eapply store_region_step, own_data.
Qed.
Lemma destroy_xfixes_region_step region r : steps R (destroy_xfixes_region ns region) r.
Proof.
  apply steps_get, steps_lift_bind; [apply _|]. intros u (record & Hr & _ & Ho)%validate_kind_own.
  apply steps_set_bind; [apply _|by eapply remove_resource_step|]. apply steps_set, (regions_step _ _ _ region).
  - right. intros record'. simpl. by rewrite lookup_delete_eq.
  - intros i Hi. simpl. by rewrite lookup_delete_ne.
Qed.
Lemma create_dri3_fence_step fence g r : fence ∈ created → steps R (create_dri3_fence ns fence g) r.
Proof.
  intros Hc. apply steps_bind; [apply _|by apply insert_resource_step|]. intros _ r1 _. apply steps_get. cbv zeta.
  apply steps_set_bind; [apply _|by apply step_irrelevant|]. apply steps_set_bind; [apply _| |apply steps_ret, _].
  apply (dri3_fences_step _ _ _ fence); [by left|]. intros i Hi. by rewrite lookup_insert_ne.
Qed.
Lemma destroy_dri3_fence_step fence r : steps R (destroy_dri3_fence ns fence) r.
Proof.
  apply steps_get, steps_lift_bind; [apply _|]. intros u (record & Hr & _ & Ho)%validate_kind_own.
  apply steps_set_bind; [apply _|by eapply remove_resource_step|]. apply steps_set_bind; [apply _| |apply steps_lift, _].
  apply (dri3_fences_step _ _ _ fence).
  - right. intros record'. simpl. by rewrite lookup_delete_eq.
  - intros i Hi. simpl. by rewrite lookup_delete_ne.
Qed.
Lemma free_kind_step id kind r :
  steps R (_ ← lookup_resource ns id kind; remove_resource id : Rt unit) r.
Proof. apply lookup_bind. intros record Hr _ Ho. apply steps_set. by eapply remove_resource_step. Qed.

Lemma store_contexts_step m r :
  (∀ t, m = Ok t → (runtime_ok r → contexts_ok t) ∧
     ∀ id v, rt_graphics_contexts r !! id = Some v → xg_namespace v ≠ ns → id ∉ created → t !! id = Some v) →
  steps R (store_contexts m) r.
Proof.
  intros Hm. apply steps_access_bind; [apply _|]. intros t Ht. destruct (Hm t Ht). by apply steps_set, contexts_step.
Qed.
(** Changing a context of the namespace. *)
Lemma context_change_step id f r :
  (∀ g, xg_id (f g) = xg_id g ∧ xg_namespace (f g) = xg_namespace g) →
  ∀ t, (let? record := ok_or (rt_graphics_contexts r !! id) UnknownResource in
        ensure! (xg_namespace record = ns) else CrossNamespaceDenied in
        Ok (<[id := f record]> (rt_graphics_contexts r))) = Ok t →
  (runtime_ok r → contexts_ok t) ∧
  ∀ i v, rt_graphics_contexts r !! i = Some v → xg_namespace v ≠ ns → i ∉ created → t !! i = Some v.
Proof.
  intros Hf t. destruct (rt_graphics_contexts r !! id) as [g|] eqn:Hg; simpl; [|done]. case_decide as Ho; [|done].
  intros [= <-]. destruct (Hf g) as [E1 E2]. split.
  - intros Hok i v. rewrite lookup_insert_Some. intros [[<- <-]|[_ Hv]]; [|by apply (ok_contexts _ Hok)].
    rewrite E1, E2. by apply (ok_contexts _ Hok).
  - intros i v Hv Hn _. rewrite lookup_insert_ne; [done|]. congruence.
Qed.
Lemma create_graphics_context_step gc drawable values r :
  gc ∈ created → steps R (create_graphics_context ns gc drawable values) r.
Proof.
  intros Hc. apply steps_get, steps_lift_bind; [apply _|]. intros _ _. apply steps_lift_bind; [apply _|]. intros _ _.
  apply store_contexts_step. intros t. unfold gc_create. case_decide; [|done]. case_decide; [|done]. intros [= <-]. split.
  - intros Hok i v. rewrite lookup_insert_Some. intros [[<- <-]|[_ Hv]]; [naive_solver|by apply (ok_contexts _ Hok)].
  - intros i v Hv _ Hni. rewrite lookup_insert_ne; [done|]. by intros ->.
Qed.
Lemma change_graphics_context_step gc mask values r : steps R (change_graphics_context ns gc mask values) r.
Proof.
  apply steps_get, steps_bind; [apply _|case_decide; [apply steps_lift|apply steps_ret]; apply _|]. intros u r' Hu.
  assert (r' = r) as -> by (revert Hu; case_decide; by intros [=]). apply store_contexts_step.
  by apply (context_change_step gc (λ g, mk_gc (xg_id g) (xg_drawable g) (xg_namespace g) (changed_values mask values (xg_values g)))).
Qed.
Lemma set_clip_rectangles_step gc rects r : steps R (set_graphics_context_clip_rectangles ns gc rects) r.
Proof.
  apply steps_get, store_contexts_step.
  by apply (context_change_step gc (λ g, mk_gc (xg_id g) (xg_drawable g) (xg_namespace g) (with_clip (xg_values g) rects))).
Qed.
Lemma free_graphics_context_step gc r : steps R (free_graphics_context ns gc) r.
Proof.
  apply steps_get, store_contexts_step. intros t ((g & [Hg Ho]%gc_get_ok) & ->)%gc_remove_ok. split.
  - intros Hok i v [_ Hv]%lookup_delete_Some. by apply (ok_contexts _ Hok).
  - intros i v Hv Hn _. rewrite lookup_delete_ne; [done|]. congruence.
Qed.
End operation_steps.

(** ** Releases, drawings and requests *)

(** A release frees the records it listed at its start: each is still there when its turn comes, or was
    taken with another.  It only takes resources, so a release that stops on the way kept to its own as well. *)
Section releases.
  Context (ns : NamespaceId) (created : list XResourceId) (listed : XResourceTable).
Definition releases : relation XAuthorityRuntime := λ r r', rt_resources r ⊆ listed →
    proper_step (Some ns) created r r' ∧ rt_resources r' ⊆ rt_resources r.
#[export] Instance releases_preorder : PreOrder releases.
Proof.
  split.
  - intros r _. by split.
  - intros r1 r2 r3 H1 H2 Hr. destruct (H1 Hr) as [S1 L1]. destruct H2 as [S2 L2]; [by etrans|]. split; by etrans.
Qed.
Lemma releases_of {E A} (m : X E A) r :
  steps (proper_step (Some ns) created) m r → steps (λ r r', rt_resources r' ⊆ rt_resources r) m r → steps releases m r.
Proof. intros H1 H2 _. by split. Qed.

Lemma remove_listed_releases id record r :
  listed !! id = Some record → xr_owner_namespace record = ns → releases r (set_resources r (delete id (rt_resources r))).
Proof.
  intros Hl Ho Hr. split; [|apply delete_subseteq]. destruct (rt_resources r !! id) as [record'|] eqn:Hid.
  - eapply remove_resource_step; [exact Hid|]. eapply lookup_weaken in Hid; [|exact Hr]. congruence.
  - apply step_irrelevant. unfold relevant. simpl. by rewrite delete_id.
Qed.
Lemma free_kind_releases id kind r : steps releases (_ ← lookup_resource ns id kind; remove_resource id : Rt unit) r.
Proof.
  apply releases_of; [apply free_kind_step|]. unfold steps. rewrite x_bind_eq, lookup_resource_eq.
  destruct (resource_lookup _ _ _ _); simpl; [apply delete_subseteq|done].
Qed.
Lemma free_pixmap_releases id r : steps releases (free_pixmap ns id) r.
Proof.
  apply releases_of; [apply free_pixmap_step|]. unfold steps, free_pixmap. rewrite x_bind_eq, lookup_resource_eq.
  destruct (resource_lookup _ _ _ _); simpl; [apply delete_subseteq|done].
Qed.
Lemma destroy_window_releases id r : steps releases (destroy_window ns id) r.
Proof.
  apply releases_of; [apply destroy_window_step|]. unfold steps, destroy_window. rewrite x_bind_eq, lookup_resource_eq.
  destruct (resource_lookup _ _ _ _); [|done]. simpl map_err. cbv beta iota. rewrite x_get_eq.
  destruct (rt_windows r !! id) as [w|] eqn:Hw; [|done]. rewrite x_lift_eq. simpl ok_or. cbv beta iota.
  rewrite x_set_eq, x_bind_eq, apply_window_event_eq. cbv beta iota delta [window_apply]. rewrite !x_set_eq. simpl.
  case_decide; simpl; apply delete_subseteq.
Qed.
Lemma data_releases r r' :
  rt_resources r' = rt_resources r → proper_step (Some ns) created r r' → releases r r'.
Proof. intros E H _. by rewrite E. Qed.

Lemma release_record_releases record a r :
  listed !! xr_id record = Some record → xr_owner_namespace record = ns → steps releases (release_record_step ns a record) r.
Proof.
  intros Hl Ho. pose proof (λ r, remove_listed_releases _ _ r Hl Ho) as Hrem. unfold release_record_step.
  assert (∀ r, data_of ns created (set_resources r (delete (xr_id record) (rt_resources r))) (xr_id record)) as Hdata.
  { intros r0. right. intros v. simpl. by rewrite lookup_delete_eq. }
  destruct (xr_kind record).
  all: try (apply steps_bind; [apply _| |intros; apply steps_ret, _];
    first [apply destroy_window_releases|apply free_pixmap_releases|apply free_kind_releases|by apply steps_set]).
  - apply steps_set_bind; [apply _|done|]. apply steps_get, steps_set_bind; [apply _| |apply steps_ret, _].
    apply data_releases; [done|]. apply (dri3_fences_step _ _ _ (xr_id record)); [done|]. intros i Hi. simpl. by rewrite lookup_delete_ne.
  - apply steps_set_bind; [apply _|done|]. apply steps_set_bind; [apply _| |apply steps_ret, _].
    apply data_releases; [done|]. apply (regions_step _ _ _ (xr_id record)); [done|]. intros i Hi. simpl. by rewrite lookup_delete_ne.
Qed.
End releases.

Lemma release_step ns created range r : steps (proper_step (Some ns) created) (release_client_resource_range ns range) r.
Proof.
  apply steps_ok. intros Hok. apply steps_guard_bind; [apply _|]. intros _.
  apply steps_bind; [apply _| |intros contexts r1 _; apply steps_bind; [apply _| |intros windows r2 _]].
  - apply steps_get, steps_set_bind; [apply _| |apply steps_ret, _]. apply glx_contexts_step. intros id v Hv Hn _.
    rewrite map_lookup_filter_Some. split; [done|]. unfold glx_owned. simpl. tauto.
  - apply steps_get, steps_set_bind; [apply _| |apply steps_ret, _]. by apply step_irrelevant.
  - apply steps_get, steps_bind; [apply _| |intros a3 r3 _].
    { apply steps_fold; [apply _|]. intros id a r' _. apply steps_bind; [apply _|apply free_graphics_context_step|]. intros. apply steps_ret, _. }
    apply steps_get, steps_bind; [apply _| |intros a4 r4 _].
    { apply steps_fold; [apply _|]. intros id a r' _. apply steps_bind; [apply _|apply detach_shm_segment_step|]. intros. apply steps_ret, _. }
    apply steps_get, steps_ok. intros Hok4.
    enough (steps (releases ns created (rt_resources r4))
      (x_fold (release_record_step ns) (records_for_namespace_in_client_range (rt_resources r4) ns range) a4) r4) as Hs by by apply Hs.
    apply steps_fold; [apply _|]. intros record a r' Hin. apply release_record_releases;
      destruct (records_in_range ns range r4 (ok_resources _ Hok4)) as (_ & Hl & _); by apply (proj1 (Forall_forall _ _) Hl record Hin).
Qed.

(** Drawing operations return a response beside the state. *)
Definition draws (R : relation XAuthorityRuntime) (f : XAuthorityRuntime → XAuthorityResponsePacket * XAuthorityRuntime)
    (r : XAuthorityRuntime) : Prop := R r (f r).2.

Section draw_steps.
  Context (ns : NamespaceId) (created : list XResourceId).
  Notation R := (proper_step (Some ns) created).

(** Only a window of the requester's own namespace gets a transaction, and only its generation moves. *)
Lemma surface_transaction_own windows update t :
  surface_transaction_from_drawing_update windows update = Ok t →
  ∃ w, windows !! du_target_window update = Some w ∧ xw_namespace w = du_requester_namespace update.
Proof.
  unfold surface_transaction_from_drawing_update. intros H. repeat (case_decide; [|done]). 
  destruct (windows !! du_target_window update) as [w|]; simpl in H; [|done]. repeat (case_decide; [|done]). eauto.
Qed.
Lemma advance_step r id expected n t w :
  rt_windows r !! id = Some w → xw_namespace w = ns → advance_generation (rt_windows r) id expected = Ok (n, t) →
  R r (set_windows r t).
Proof. intros Hw Hn (w' & Hw' & _ & _ & _ & ->)%window_advance_ok. simplify_eq. by eapply windows_step. Qed.
Lemma finish_drawing_update_step update r :
  du_requester_namespace update = ns → draws R (finish_drawing_update update) r.
Proof.
  intros Hu. unfold draws, finish_drawing_update.
  destruct (surface_transaction_from_drawing_update _ _) as [t|e] eqn:Ht; [|simpl; reflexivity].
  destruct (advance_generation _ _ _) as [[n windows]|e] eqn:Ha; [|simpl; reflexivity]. simpl.
  apply surface_transaction_own in Ht as (w & Hw & Hn). eapply advance_step; [exact Hw|congruence|exact Ha].
Qed.
Lemma finish_painting_step make transaction window record damage update r :
  (∀ t n w h d p m, du_requester_namespace (make t n w h d p m) = n) →
  draws R (finish_painting make transaction ns window record damage update) r.
Proof.
  intros Hm. unfold draws, finish_painting. etrans; [apply (step_irrelevant _ _ r (set_last_cpu_buffer_update r (Some update))); done|].
  apply finish_drawing_update_step, Hm.
Qed.
Lemma with_window_step transaction window k r :
  (∀ record, draws R (k record) r) → draws R (with_window transaction window k) r.
Proof.
  intros Hk. unfold draws, with_window. destruct (rt_windows r !! window) as [record|]; [apply Hk|simpl; reflexivity].
Qed.
(** What the painting operations share: the buffers change, then a transaction is made, or not. *)
Lemma painted_step r (p : option XAuthorityCpuBufferUpdate * XSoftwareBufferStore) none some :
  (store_ok (rt_software_buffers r) → store_ok p.2) →
  (∀ r, R r (none r : XAuthorityResponsePacket * XAuthorityRuntime).2) → (∀ u r, draws R (some u) r) →
  R r (let '(update, buffers) := p in
       let r := set_software_buffers r buffers in
       match update with None => none r | Some update => some update r end).2.
Proof.
  intros Hb Hn Hs. destruct p as [update buffers]. simpl.
  etrans; [apply (buffers_step _ _ r buffers); intros Hok; by apply Hb, (ok_buffers _ Hok)|].
  destruct update; [apply Hs|apply Hn].
Qed.

Lemma apply_core_draw_with_gc_step transaction window damage gc r :
  draws R (apply_core_draw_with_gc transaction ns window damage gc) r.
Proof.
  apply with_window_step. intros record. unfold draws.
  apply (painted_step r _ (λ r, (rejected transaction RtInvalidResource, r))
    (finish_painting core_draw transaction ns window record damage)).
  - apply paint_damage_ok.
  - intros r'. simpl. reflexivity.
  - intros u r'. by apply finish_painting_step.
Qed.
Lemma present_standard_pixmap_step transaction window pixmap r :
  draws R (present_standard_pixmap transaction ns window pixmap) r.
Proof.
  unfold draws, present_standard_pixmap. destruct (rt_windows r !! window) as [record|]; [|simpl; reflexivity].
  case_decide; [|simpl; reflexivity]. destruct (validate_pixmap_access _ _ _); [|simpl; reflexivity].
  by apply finish_drawing_update_step.
Qed.
Lemma apply_copy_area_step transaction source destination damage r :
  draws R (apply_copy_area transaction ns source destination damage) r.
Proof.
  unfold draws, apply_copy_area. destruct (validate_drawable_access _ _ _); [|simpl; reflexivity].
  destruct (validate_pixmap_access _ _ _); [simpl; reflexivity|]. apply apply_core_draw_with_gc_step.
Qed.
Lemma apply_copy_area_with_gc_step transaction source destination sx sy dx dy w h gc r :
  draws R (apply_copy_area_with_gc transaction ns source destination sx sy dx dy w h gc) r.
Proof.
  unfold draws, apply_copy_area_with_gc. destruct (validate_drawable_access _ _ _); [|simpl; reflexivity].
  destruct (validate_pixmap_access _ _ _); [simpl; reflexivity|]. apply with_window_step. intros record. unfold draws. cbv zeta.
  apply (painted_step r _ (apply_core_draw_with_gc transaction ns destination (region_single (mk_rect dx dy w h)) gc)
    (finish_painting core_draw transaction ns destination record (region_single (mk_rect dx dy w h)))).
  - apply copy_area_ok.
  - intros r'. apply apply_core_draw_with_gc_step.
  - intros u r'. by apply finish_painting_step.
Qed.
Lemma apply_line_draw_step transaction window points gc r : draws R (apply_line_draw transaction ns window points gc) r.
Proof.
  apply with_window_step. intros record. unfold draws.
  apply (painted_step r _ (λ r, (accepted transaction, r))
    (finish_painting core_draw transaction ns window record (region_single (line_damage points gc)))).
  - apply draw_lines_ok.
  - intros r'. simpl. reflexivity.
  - intros u r'. by apply finish_painting_step.
Qed.
Lemma put_or_paint_ok buffers window size damage data :
  store_ok buffers → store_ok (put_or_paint buffers window size damage data).2.
Proof.
  intros Hb. unfold put_or_paint. destruct data as [data|], (rects damage) as [|rect l]; try by apply paint_damage_ok.
  pose proof (put_image_ok buffers window size rect data Hb) as Hp. destruct (put_image _ _ _ _ _) as [[u|] b]; simpl in *; [done|].
  by apply paint_damage_ok.
Qed.
Lemma apply_put_image_step transaction window damage data r : draws R (apply_put_image transaction ns window damage data) r.
Proof.
  apply with_window_step. intros record. unfold draws.
  apply (painted_step r _ (λ r, (rejected transaction RtInvalidResource, r))
    (finish_painting shm_put_image transaction ns window record damage)).
  - apply put_or_paint_ok.
  - intros r'. simpl. reflexivity.
  - intros u r'. by apply finish_painting_step.
Qed.
Lemma apply_text_draw_step transaction window x baseline text opaque gc r :
  draws R (apply_text_draw transaction ns window x baseline text opaque gc) r.
Proof.
  apply with_window_step. intros record. unfold draws.
  apply (painted_step r _ (λ r, (rejected transaction RtInvalidResource, r))
    (finish_painting core_draw transaction ns window record (region_single (text_damage x baseline text)))).
  - apply draw_text_ok.
  - intros r'. simpl. reflexivity.
  - intros u r'. by apply finish_painting_step.
Qed.
Lemma apply_clear_with_pixel_step transaction window damage p r :
  draws R (apply_clear_with_pixel transaction ns window damage p) r.
Proof.
  apply with_window_step. intros record. unfold draws. destruct (rects damage) as [|rect l]; [simpl; reflexivity|].
  apply (painted_step r _ (λ r, (rejected transaction RtInvalidResource, r))
    (finish_painting core_draw transaction ns window record damage)).
  - apply store_clear_ok.
  - intros r'. simpl. reflexivity.
  - intros u r'. by apply finish_painting_step.
Qed.

(** A window that is created has the surface its identifier names ([x11_wire.rs]). *)
Definition creates_validly (kind : XAuthorityRequestKind) : Prop :=
  match kind with
  | CreateWindow window surface _ _ _ => si_index surface = xid_raw window ∧ si_generation surface ≠ 0
  | _ => True
  end.
Definition created_by (kind : XAuthorityRequestKind) : list XResourceId :=
  match kind with CreateWindow window _ _ _ _ => [window] | _ => [] end.

Lemma create_window_step window surface geometry constraints generation r r1 s r2 :
  window ∈ created → si_index surface = xid_raw window ∧ si_generation surface ≠ 0 →
  insert_resource window KWindow ns generation r = (Ok (), r1) →
  apply_window_event (WCreated window surface ns geometry constraints generation) r1 = (s, r2) → R r r2.
Proof.
  intros Hc [Hs Hg]. rewrite insert_resource_eq. destruct (resource_insert _ _ _ _ _) as [t|] eqn:Hi; [|done]. intros [= <-].
  rewrite apply_window_event_eq. simpl rt_windows. intros Ha Hok.
  pose proof (resource_insert_preserves _ _ _ _ _ _ (ok_resources _ Hok) Hi) as Hres.
  apply resource_insert_ok in Hi as (Hid & Hown & ->). destruct (decide (surface_valid surface)) as [Hv|Hv].
  - destruct (window_apply _ _) as [[s0 t']|] eqn:Hw; [|by simpl in Hw; rewrite !decide_True in Hw by done].
    pose proof (window_apply_preserves _ _ _ _ (ok_windows _ Hok) Hw) as Hwin. simpl in Hw. rewrite !decide_True in Hw by done.
    injection Hw as _ <-. injection Ha as _ <-. destruct Hok. split.
    + constructor; simpl; try done.
      * intros i rec. rewrite lookup_insert_Some. intros [[<- <-]|[Hne Hr]] Hk Hi; [eexists; by rewrite lookup_insert_eq|].
        destruct (ok_linked0 i rec Hr Hk Hi) as (w & Hw & Hn). exists w. by rewrite lookup_insert_ne.
      * intros i Hi. rewrite lookup_insert_ne; [by apply ok_nameless0|]. intros <-. destruct Hv. congruence.
    + intros n mine Hn Hm. constructor; simpl; try done; (intros i v Hi Hv' Ho; rewrite lookup_insert_ne; [done|]; intros ->; by apply (Hm i)).
  - simpl in Ha. rewrite (decide_True (P := xid_valid window)), (decide_False (P := surface_valid surface)) in Ha by done.
    simpl in Ha. injection Ha as _ <-. assert (xid_raw window = u32_MAX) as E.
    { destruct (decide (xid_raw window = u32_MAX)); [done|]. destruct Hv. split; congruence. }
    destruct Hok. split.
    + constructor; simpl; try done. intros i rec. rewrite lookup_insert_Some. intros [[<- <-]|[Hne Hr]] Hk Hi; [done|by apply (ok_linked0 i rec)].
    + intros n mine Hn Hm. constructor; simpl; try done. intros i v Hi Hv' Ho. rewrite lookup_insert_ne; [done|]. intros ->. by apply (Hm i).
Qed.
Lemma apply_checked_step request r :
  rq_namespace request = ns → creates_validly (rq_kind request) →
  (∀ id, id ∈ created_by (rq_kind request) → id ∈ created) → steps R (apply_checked request) r.
Proof.
  intros Hns Hv Hc. unfold apply_checked. rewrite Hns. destruct (rq_kind request) as
    [w s g c gen|w gen|w p d prev t|sel o ts sts k|q sel tg nm pr tm tr]; simpl in Hv, Hc.
  - unfold steps. rewrite x_bind_eq. destruct (insert_resource _ _ _ _ _) as [[[]|e] r1] eqn:Hi.
    + rewrite x_bind_eq. destruct (apply_window_event _ r1) as [[s'|e] r2] eqn:Ha; simpl;
        (eapply create_window_step; [apply Hc; left|done|exact Hi|exact Ha]).
    + simpl. rewrite insert_resource_eq in Hi. destruct (resource_insert _ _ _ _ _); [done|]. injection Hi as _ <-. reflexivity.
  - apply steps_ok. intros Hok. apply lookup_bind. intros record Hr Hk Ho.
    apply steps_bind; [apply _| |intros; apply steps_ret; apply _]. eapply own_window_step; eauto.
  - apply steps_get, steps_access_bind; [apply _|]. intros tx Htx. apply surface_transaction_own in Htx as (win & Hw & Hn).
    apply steps_bind; [apply _| |intros; apply steps_ret, _]. unfold steps. rewrite advance_window_eq.
    destruct (advance_generation _ _ _) as [[n t']|] eqn:Ha; simpl; [|reflexivity]. by eapply advance_step.
  - unfold set_selection_owner. apply steps_bind; [apply _| |].
    + destruct o as [o|]; [|apply steps_ret, _]. apply lookup_bind. intros. apply steps_ret, _.
    + intros _ r' _. apply steps_get. destruct (apply_event _ _ _) as [u m].
      apply steps_set_bind; [apply _|by apply step_irrelevant|apply steps_ret, _].
  - unfold steps. rewrite request_selection_eq. destruct (resource_lookup _ _ _ _); [|simpl; reflexivity].
    destruct (dispatch_clipboard_selection_request _ _ _ _ _) as [[[o|pq cmd]|e] cb]; simpl; by apply step_irrelevant.
Qed.
End draw_steps.
