(* ===== verification/XSystem.v ===== *)
(** * The X authority runtime as a whole
    ([sophia-x-authority/src/runtime.rs])

    The operations of the runtime as the events of one state machine, and what no run of them can
    break: the tables stay well formed, and what the clients of a namespace own stays as it is
    whatever the other namespaces do. *)

From S2P Require Import Prelude Ids Geometry Packets PortalPackets.
From S2P Require Import XAtoms XTables XProperties XSelections XSoftware XPainting XState XRuntime XResources XRelease XDraws XOps.
Local Open Scope Z_scope.

(** ** The operations *)

Inductive XRuntimeOp : Type :=
| OpUpdateOutputTopology (t : OutputTopologySnapshot)
| OpRequest (request : XAuthorityRequestPacket)
| OpBeginDispatch
| OpTakeCpuBufferUpdate
| OpSetFocus (n : NamespaceId) (focus : XResourceId) (revert_to : Z)
| OpAttachShm (n : NamespaceId) (segment : XResourceId) (shmid : Z) (read_only : bool) (generation : Z)
| OpDetachShm (n : NamespaceId) (segment : XResourceId)
| OpSetWindowVisual (window : XResourceId) (depth visual : Z) (colormap : XResourceId)
| OpSetBackground (n : NamespaceId) (window : XResourceId) (pixel : Z)
| OpConfigure (n : NamespaceId) (window : XResourceId) (x y width height : option Z) (generation : Z)
| OpConfigureSize (n : NamespaceId) (window : XResourceId) (size : Size)
| OpMapNamespace (n : NamespaceId) (generation : Z)
| OpDestroyWindow (n : NamespaceId) (window : XResourceId)
| OpCreateGlxContext (n : NamespaceId) (context : XResourceId) (fbconfig : Z) (direct : bool)
| OpDestroyGlxContext (n : NamespaceId) (context : XResourceId)
| OpCreateGlxWindow (n : NamespaceId) (glx_window window : XResourceId) (fbconfig : Z)
| OpDestroyGlxWindow (n : NamespaceId) (glx_window : XResourceId)
| OpCreatePixmap (n : NamespaceId) (pixmap : XResourceId) (generation : Z)
| OpFreePixmap (n : NamespaceId) (pixmap : XResourceId)
| OpCreateDri3Pixmap (n : NamespaceId) (pixmap : XResourceId)
    (generation size_bytes width height stride depth bits_per_pixel : Z)
| OpCreateDri3Buffers (n : NamespaceId) (pixmap : XResourceId) (generation num_buffers width height : Z)
    (strides offsets : list Z) (depth bits_per_pixel modifier : Z)
| OpCreateRegion (n : NamespaceId) (region : XResourceId) (rectangles : list Rect) (generation : Z)
| OpSetRegion (n : NamespaceId) (region : XResourceId) (rectangles : list Rect)
| OpDestroyRegion (n : NamespaceId) (region : XResourceId)
| OpCreateFence (n : NamespaceId) (fence : XResourceId) (generation : Z)
| OpDestroyFence (n : NamespaceId) (fence : XResourceId)
| OpOpenFont (n : NamespaceId) (font : XResourceId) (generation : Z)
| OpCloseFont (n : NamespaceId) (font : XResourceId)
| OpCreateCursor (n : NamespaceId) (cursor : XResourceId) (generation : Z)
| OpFreeCursor (n : NamespaceId) (cursor : XResourceId)
| OpCreateGc (n : NamespaceId) (gc drawable : XResourceId) (values : XGraphicsContextValues)
| OpChangeGc (n : NamespaceId) (gc : XResourceId) (mask : Z) (values : XGraphicsContextValues)
| OpClipGc (n : NamespaceId) (gc : XResourceId) (rectangles : list Rect)
| OpFreeGc (n : NamespaceId) (gc : XResourceId)
| OpReleaseClient (n : NamespaceId) (range : XWireClientResourceRange)
| OpPresentPixmap (transaction : TransactionId) (n : NamespaceId) (window pixmap : XResourceId)
| OpCoreDraw (transaction : TransactionId) (n : NamespaceId) (window : XResourceId) (damage : Region)
    (gc : XGraphicsContextValues)
| OpCopyArea (transaction : TransactionId) (n : NamespaceId) (source destination : XResourceId) (damage : Region)
| OpCopyAreaGc (transaction : TransactionId) (n : NamespaceId) (source destination : XResourceId)
    (src_x src_y dst_x dst_y width height : Z) (gc : XGraphicsContextValues)
| OpLineDraw (transaction : TransactionId) (n : NamespaceId) (window : XResourceId) (points : list XPoint)
    (gc : XGraphicsContextValues)
| OpPutImage (transaction : TransactionId) (n : NamespaceId) (window : XResourceId) (damage : Region)
    (data : option (list Z))
| OpTextDraw (transaction : TransactionId) (n : NamespaceId) (window : XResourceId) (x baseline : Z)
    (text : list Z) (opaque : bool) (gc : XGraphicsContextValues)
| OpClear (transaction : TransactionId) (n : NamespaceId) (window : XResourceId) (damage : Region) (pixel : Z)
| OpClipboardByteOrder (transfer : PortalTransferId) (byte_order : XByteOrder)
| OpClipboardBegin (grant : PortalGrant)
| OpClipboardCapture (requestor : XResourceId) (property : XAtom)
    (properties : gmap (NamespaceId * XResourceId * Z) XPropertyRecord)
| OpClipboardDiscard (transfer : PortalTransferId)
| OpClipboardExecute (transfer : PortalTransferId) (grant : PortalGrant) (payload : list Z) (tables : ClipboardTables)
| OpClipboardFrame (frame : list Z) (grant : PortalGrant) (tables : ClipboardTables)
| OpClipboardFail (transfer : PortalTransferId) (error : ClipboardSelectionExecutionError).

(** The state after the operation, whether it succeeded or not. *)
Definition runtime_op (r : XAuthorityRuntime) (op : XRuntimeOp) : XAuthorityRuntime :=
  match op with
  | OpUpdateOutputTopology t => (update_output_topology t r).2
  | OpRequest request => (apply request r).2
  | OpBeginDispatch => begin_dispatch r
  | OpTakeCpuBufferUpdate => (take_cpu_buffer_update r).2
  | OpSetFocus n focus revert_to => (set_focus n focus revert_to r).2
  | OpAttachShm n segment shmid read_only generation => (attach_shm_segment n segment shmid read_only generation r).2
  | OpDetachShm n segment => (detach_shm_segment n segment r).2
  | OpSetWindowVisual window depth visual colormap => set_window_visual window depth visual colormap r
  | OpSetBackground n window pixel => (set_window_background_pixel n window pixel r).2
  | OpConfigure n window x y width height generation =>
      (configure_window_geometry n window x y width height generation r).2
  | OpConfigureSize n window size => (configure_window_size_from_engine n window size r).2
  | OpMapNamespace n generation => (map_namespace_windows n generation r).2
  | OpDestroyWindow n window => (destroy_window n window r).2
  | OpCreateGlxContext n context fbconfig direct => (create_glx_context n context fbconfig direct r).2
  | OpDestroyGlxContext n context => (destroy_glx_context n context r).2
  | OpCreateGlxWindow n glx_window window fbconfig => (create_glx_window n glx_window window fbconfig r).2
  | OpDestroyGlxWindow n glx_window => (destroy_glx_window n glx_window r).2
  | OpCreatePixmap n pixmap generation => (create_pixmap n pixmap generation r).2
  | OpFreePixmap n pixmap => (free_pixmap n pixmap r).2
  | OpCreateDri3Pixmap n pixmap generation size_bytes width height stride depth bits_per_pixel =>
      (create_dri3_pixmap n pixmap generation size_bytes width height stride depth bits_per_pixel r).2
  | OpCreateDri3Buffers n pixmap generation num_buffers width height strides offsets depth bits_per_pixel modifier =>
      (create_dri3_pixmap_from_buffers n pixmap generation num_buffers width height strides offsets depth
         bits_per_pixel modifier r).2
  | OpCreateRegion n region rectangles generation => (create_xfixes_region n region rectangles generation r).2
  | OpSetRegion n region rectangles => (set_xfixes_region n region rectangles r).2
  | OpDestroyRegion n region => (destroy_xfixes_region n region r).2
  | OpCreateFence n fence generation => (create_dri3_fence n fence generation r).2
  | OpDestroyFence n fence => (destroy_dri3_fence n fence r).2
  | OpOpenFont n font generation => (open_font n font generation r).2
  | OpCloseFont n font => (close_font n font r).2
  | OpCreateCursor n cursor generation => (create_cursor n cursor generation r).2
  | OpFreeCursor n cursor => (free_cursor n cursor r).2
  | OpCreateGc n gc drawable values => (create_graphics_context n gc drawable values r).2
  | OpChangeGc n gc mask values => (change_graphics_context n gc mask values r).2
  | OpClipGc n gc rectangles => (set_graphics_context_clip_rectangles n gc rectangles r).2
  | OpFreeGc n gc => (free_graphics_context n gc r).2
  | OpReleaseClient n range => (release_client_resource_range n range r).2
  | OpPresentPixmap transaction n window pixmap => (present_standard_pixmap transaction n window pixmap r).2
  | OpCoreDraw transaction n window damage gc => (apply_core_draw_with_gc transaction n window damage gc r).2
  | OpCopyArea transaction n source destination damage => (apply_copy_area transaction n source destination damage r).2
  | OpCopyAreaGc transaction n source destination src_x src_y dst_x dst_y width height gc =>
      (apply_copy_area_with_gc transaction n source destination src_x src_y dst_x dst_y width height gc r).2
  | OpLineDraw transaction n window points gc => (apply_line_draw transaction n window points gc r).2
  | OpPutImage transaction n window damage data => (apply_put_image transaction n window damage data r).2
  | OpTextDraw transaction n window x baseline text opaque gc =>
      (apply_text_draw transaction n window x baseline text opaque gc r).2
  | OpClear transaction n window damage pixel => (apply_clear_with_pixel transaction n window damage pixel r).2
  | OpClipboardByteOrder transfer byte_order => set_pending_clipboard_byte_order transfer byte_order r
  | OpClipboardBegin grant => (begin_clipboard_source_request grant r).2
  | OpClipboardCapture requestor property properties =>
      (capture_clipboard_source_payload requestor property properties r).2
  | OpClipboardDiscard transfer => (discard_clipboard_proxies transfer r).2
  | OpClipboardExecute transfer grant payload tables => (execute_clipboard_payload transfer grant payload tables r).2
  | OpClipboardFrame frame grant tables => (execute_clipboard_payload_frame frame grant tables r).2
  | OpClipboardFail transfer error => (fail_clipboard_transfer transfer error r).2
  end.
Definition runtime_run : XAuthorityRuntime → list XRuntimeOp → XAuthorityRuntime := foldl runtime_op.

(** Whose client the operation acts for; the compositor and the portal act for none. *)
Definition op_namespace (op : XRuntimeOp) : option NamespaceId :=
  match op with
  | OpRequest request => Some (rq_namespace request)
  | OpSetFocus n _ _ | OpAttachShm n _ _ _ _ | OpDetachShm n _ | OpSetBackground n _ _ | OpConfigure n _ _ _ _ _ _
  | OpConfigureSize n _ _ | OpMapNamespace n _ | OpDestroyWindow n _ | OpCreateGlxContext n _ _ _
  | OpDestroyGlxContext n _ | OpCreateGlxWindow n _ _ _ | OpDestroyGlxWindow n _ | OpCreatePixmap n _ _
  | OpFreePixmap n _ | OpCreateDri3Pixmap n _ _ _ _ _ _ _ _ | OpCreateDri3Buffers n _ _ _ _ _ _ _ _ _ _
  | OpCreateRegion n _ _ _ | OpSetRegion n _ _ | OpDestroyRegion n _ | OpCreateFence n _ _ | OpDestroyFence n _
  | OpOpenFont n _ _ | OpCloseFont n _ | OpCreateCursor n _ _ | OpFreeCursor n _ | OpCreateGc n _ _ _
  | OpChangeGc n _ _ _ | OpClipGc n _ _ | OpFreeGc n _ | OpReleaseClient n _ | OpPresentPixmap _ n _ _
  | OpCoreDraw _ n _ _ _ | OpCopyArea _ n _ _ _ | OpCopyAreaGc _ n _ _ _ _ _ _ _ _ _ | OpLineDraw _ n _ _ _
  | OpPutImage _ n _ _ _ | OpTextDraw _ n _ _ _ _ _ _ | OpClear _ n _ _ _ => Some n
  | _ => None
  end.
(** The identifiers the operation gives to new resources. *)
Definition op_created (op : XRuntimeOp) : list XResourceId :=
  match op with
  | OpRequest request => created_by (rq_kind request)
  | OpAttachShm _ id _ _ _ | OpCreateGlxContext _ id _ _ | OpCreateGlxWindow _ id _ _ | OpCreatePixmap _ id _
  | OpCreateDri3Pixmap _ id _ _ _ _ _ _ _ | OpCreateDri3Buffers _ id _ _ _ _ _ _ _ _ _ | OpCreateRegion _ id _ _
  | OpCreateFence _ id _ | OpOpenFont _ id _ | OpCreateCursor _ id _ | OpCreateGc _ id _ _ => [id]
  | _ => []
  end.
Definition op_valid (op : XRuntimeOp) : Prop :=
  match op with OpRequest request => creates_validly (rq_kind request) | _ => True end.
#[export] Instance op_valid_dec op : Decision (op_valid op).
Proof. destruct op; try apply _. destruct (rq_kind request) eqn:E; simpl; rewrite E; simpl; apply _. Defined.

(** ** Every operation is a proper step *)

Create HintDb steps_db.
#[export] Hint Resolve set_focus_step detach_shm_segment_step set_window_background_pixel_step
  configure_window_geometry_step configure_window_size_step map_namespace_windows_step destroy_window_step
  destroy_glx_context_step create_glx_window_step destroy_glx_window_step free_pixmap_step set_xfixes_region_step
  destroy_xfixes_region_step destroy_dri3_fence_step free_kind_step change_graphics_context_step
  set_clip_rectangles_step free_graphics_context_step release_step : steps_db.
#[export] Hint Resolve attach_shm_segment_step create_glx_context_step create_pixmap_step create_dri3_pixmap_step
  create_dri3_pixmap_from_buffers_step create_xfixes_region_step create_dri3_fence_step create_graphics_context_step
  insert_resource_step list_elem_of_here : steps_db.
#[export] Hint Resolve apply_core_draw_with_gc_step present_standard_pixmap_step apply_copy_area_step
  apply_copy_area_with_gc_step apply_line_draw_step apply_put_image_step apply_text_draw_step
  apply_clear_with_pixel_step : steps_db.

Lemma apply_state request r : (apply request r).2 = (apply_checked request r).2.
Proof. unfold apply. by destruct (apply_checked request r) as [[a|e] r']. Qed.
Lemma clipboard_execute_relevant transfer grant payload tables r :
  relevant (execute_clipboard_payload transfer grant payload tables r).2 = relevant r.
Proof.
  unfold execute_clipboard_payload. destruct tables as [atoms properties].
  destruct (_ !! transfer) as [pending|]; [|done]. cbv zeta. destruct (execution_refused _ _ _ _ _ _); [done|].
  destruct (payload_property _ _ _) as [[[[[ty f] b]|e]|e] a]; [|done..]. by destruct (apply_change _ _ _) as [[? ?]|?].
Qed.
Lemma clipboard_begin_relevant grant r : relevant (begin_clipboard_source_request grant r).2 = relevant r.
Proof.
  unfold begin_clipboard_source_request. rewrite x_get_eq. cbv beta iota.
  rewrite x_lift_eq. destruct (ok_or _ _) as [p|]; [|done]. cbv beta iota zeta.
  rewrite x_guard_eq. case_decide; [|done]. rewrite x_lift_eq.
  destruct (ok_or _ _) as [owner|]; [|done]. cbv beta iota. rewrite x_guard_eq. case_decide; [|done].
  rewrite x_lift_eq. destruct (ok_or _ _) as [o|]; [|done]. cbv beta iota.
  rewrite x_lift_eq. by destruct (ok_or _ _).
Qed.
Lemma clipboard_capture_relevant requestor property properties r :
  relevant (capture_clipboard_source_payload requestor property properties r).2 = relevant r.
Proof.
  unfold capture_clipboard_source_payload. destruct (_ !! requestor); [|done]. cbv zeta. case_decide; [done|].
  destruct (property_get _ _ _ _); [|done]. by case_decide.
Qed.
Lemma clipboard_fail_relevant transfer error r : relevant (fail_clipboard_transfer transfer error r).2 = relevant r.
Proof.
  unfold fail_clipboard_transfer. rewrite x_get_eq. cbv beta iota. rewrite x_lift_eq.
  by destruct (ok_or _ _).
Qed.
Lemma clipboard_frame_relevant frame grant tables r :
  relevant (execute_clipboard_payload_frame frame grant tables r).2 = relevant r.
Proof.
  unfold execute_clipboard_payload_frame. destruct (IpcPortal.decode_portal_clipboard_payload_frame frame) as [[t p]|]; [|done].
  apply clipboard_execute_relevant.
Qed.
Lemma output_topology_step o created t r : proper_step o created r (update_output_topology t r).2.
Proof.
  unfold update_output_topology. rewrite x_lift_eq. destruct (topology_validate t) as [size|] eqn:Ht; [|reflexivity].
  cbv beta iota. rewrite x_get_eq. cbv beta iota. case_decide; [reflexivity|]. simpl.
  intros Hok. split; [|by constructor]. destruct Hok. by constructor; eauto.
Qed.

(** Reads a step of the runtime as the step of one operation, for the hints of the operations. *)
Ltac operation_step := match goal with
  | |- proper_step ?o ?c ?r (?m ?r).2 =>
      first [ change (steps (proper_step o c) m r); solve [eauto with steps_db]
            | change (draws (proper_step o c) m r); solve [eauto with steps_db] ]
  end.
Lemma runtime_op_step op r : op_valid op → proper_step (op_namespace op) (op_created op) r (runtime_op r op).
Proof.
  intros Hv. destruct op; simpl; try (by apply step_irrelevant); try operation_step.
  - apply output_topology_step.
  - rewrite apply_state. by apply apply_checked_step.
  - apply step_irrelevant, clipboard_begin_relevant.
  - apply step_irrelevant, clipboard_capture_relevant.
  - apply step_irrelevant, clipboard_execute_relevant.
  - apply step_irrelevant, clipboard_frame_relevant.
  - apply step_irrelevant, clipboard_fail_relevant.
Qed.

(** ** Runs *)

Lemma new_runtime_ok t r : with_output_topology t = Ok r → runtime_ok r.
Proof.
  unfold with_output_topology. destruct (topology_validate t) as [size|] eqn:Ht; [|done]. intros [= <-].
  constructor; simpl; try done. by exists size.
Qed.
Lemma runtime_run_ok ops r : Forall op_valid ops → runtime_ok r → runtime_ok (runtime_run r ops).
Proof.
  intros Hops. revert r. induction Hops as [|op ops Hv _ IH]; intros r Hok; [done|]. apply IH.
  by apply (runtime_op_step op r Hv).
Qed.
(** The operation acts for another namespace or for none, and creates nothing of the identifiers [mine]. *)
Definition acts_elsewhere (n : NamespaceId) (mine : XResourceId → Prop) (op : XRuntimeOp) : Prop :=
  op_namespace op ≠ Some n ∧ Forall (λ id, ¬ mine id) (op_created op).
#[export] Instance acts_elsewhere_dec n mine op : (∀ id, Decision (mine id)) → Decision (acts_elsewhere n mine op).
Proof. unfold acts_elsewhere; apply _. Defined.
Lemma runtime_run_untouched ops r n mine :
  Forall op_valid ops → runtime_ok r →
  Forall (acts_elsewhere n mine) ops →
  untouched n mine r (runtime_run r ops).
Proof.
  intros Hops. revert r. induction Hops as [|op ops Hv _ IH]; intros r Hok Hn; [apply untouched_refl|].
  apply Forall_cons in Hn as [[Hn Hm] Hrest]. rewrite Forall_forall in Hm. destruct (runtime_op_step op r Hv Hok) as [Hok' Hu].
  eapply untouched_trans; [by apply Hu|]. by apply IH.
Qed.

(** A client of namespace 1 with a window, a pixmap, a region and a context it drew with. *)
Definition example_before : list XRuntimeOp :=
  (OpRequest <$> example_requests) ++
  [OpCreatePixmap (from_raw 1) (x_resource_id 11 1) 1;
   OpCreateDri3Pixmap (from_raw 1) (x_resource_id 12 1) 1 4096 16 16 64 24 32;
   OpCreateRegion (from_raw 1) (x_resource_id 13 1) [mk_rect 0 0 4 4] 1;
   OpCreateGc (from_raw 1) (x_resource_id 14 1) (x_resource_id 10 1) gc_default;
   OpCoreDraw (from_raw 7) (from_raw 1) (x_resource_id 10 1) (region_single (mk_rect 0 0 4 4)) gc_default].
(** A client of namespace 2 that tries to take them. *)
Definition example_after : list XRuntimeOp :=
  [OpDestroyWindow (from_raw 2) (x_resource_id 10 1);
   OpFreePixmap (from_raw 2) (x_resource_id 11 1);
   OpSetRegion (from_raw 2) (x_resource_id 13 1) [];
   OpFreeGc (from_raw 2) (x_resource_id 14 1);
   OpConfigure (from_raw 2) (x_resource_id 10 1) (Some 3) None None None 2;
   OpCoreDraw (from_raw 8) (from_raw 2) (x_resource_id 10 1) (region_single (mk_rect 0 0 4 4)) gc_default;
   OpCreatePixmap (from_raw 2) (x_resource_id 21 1) 1;
   OpMapNamespace (from_raw 2) 1;
   OpReleaseClient (from_raw 2) example_range].
Definition example_mine (id : XResourceId) : Prop := xid_raw id < 20.
#[export] Instance example_mine_dec id : Decision (example_mine id).
Proof. unfold example_mine; apply _. Defined.

(** The authority's tables stay well formed: whatever the clients, the compositor and the portal
    ask for, in any order and however often they are refused, every entry is under its own
    identifier and names a valid owner, every window resource has its window record in the same
    namespace, painted buffers have exactly the bytes of their size, and the registered DMA-BUF
    descriptors and the output topology are valid (windows are created with valid surfaces). *)
Theorem runtime_well_formed t r0 ops :
  with_output_topology t = Ok r0 → Forall op_valid ops → runtime_ok (runtime_run r0 ops).
Proof. intros Hr Hops. apply runtime_run_ok; [done|]. by eapply new_runtime_ok. Qed.
Lemma runtime_well_formed_witness : runtime_ok (runtime_run runtime_new (example_before ++ example_after)).
Proof.
  apply (runtime_well_formed topology_deterministic runtime_new (example_before ++ example_after) eq_refl).
  apply (bool_decide_unpack _); vm_compute; exact I.
Defined.

(** Namespaces are isolated in the authority: operations of other namespaces, which create only
    identifiers outside a client's range, and those of the compositor and the portal leave every
    resource, window, shared segment, graphics context, DMA buffer, fence, region and GLX context
    of the client's namespace exactly as it was, and its input focus too. *)
Theorem namespaces_isolated t r0 before after n mine :
  with_output_topology t = Ok r0 → Forall op_valid (before ++ after) →
  Forall (acts_elsewhere n mine) after →
  untouched n mine (runtime_run r0 before) (runtime_run r0 (before ++ after)).
Proof.
  intros Hr [Hb Ha]%Forall_app Hn. unfold runtime_run at 2. rewrite foldl_app. apply runtime_run_untouched; [done| |done].
  apply runtime_run_ok; [done|]. by eapply new_runtime_ok.
Qed.
Lemma namespaces_isolated_witness :
  untouched (from_raw 1) example_mine (runtime_run runtime_new example_before)
    (runtime_run runtime_new (example_before ++ example_after)).
Proof.
  apply (namespaces_isolated topology_deterministic runtime_new example_before example_after
           (from_raw 1) example_mine eq_refl).
  - apply (bool_decide_unpack _); vm_compute; exact I.
  - apply (bool_decide_unpack _); vm_compute; exact I.
Defined.

(** What isolation does not cover: a drawing request paints the software buffer of the window it
    names and hands the update to the dispatcher before it is rejected for its namespace. *)
Lemma foreign_draw_paints :
  let r := runtime_run runtime_new example_before in
  let red := mk_gc_values X_GX_COPY u32_MAX 16711680 1 0 0 None 0 0 [] in
  let bytes r := bf_bytes <$> buffers (rt_software_buffers r) !! x_resource_id 10 1 in
  let '(response, r') :=
    apply_core_draw_with_gc (from_raw 8) (from_raw 2) (x_resource_id 10 1) (region_single (mk_rect 0 0 4 4)) red r in
  rs_outcome response = Rejected RtCrossNamespaceDenied ∧
  bool_decide (bytes r' = bytes r) = false ∧ bool_decide (is_Some (rt_last_cpu_buffer_update r')) = true.
Proof. vm_compute. done. Qed.
