(* ===== verification/XProtocol.v ===== *)
(** * The X11 protocol as data
    ([sophia-x-authority/src/{client_output,wire}.rs], the types and the constants)

    What clients are sent (errors, events and replies) and what they ask for, with the opcodes,
    lengths and bounds of the wire. *)

From S2P Require Import Prelude Ids Geometry Packets PortalPackets Text.
From S2P Require Import XAtoms XTables XProperties XSelections XState.
From stdpp Require Import strings.
Local Open Scope Z_scope.

(** ** What clients are sent *)

Definition X_CLIENT_OUTPUT_RECORD_LEN : Z := 32.
Definition X_ERROR : Z := 0.
Definition X_KEY_PRESS : Z := 2.
Definition X_KEY_RELEASE : Z := 3.
Definition X_BUTTON_PRESS : Z := 4.
Definition X_BUTTON_RELEASE : Z := 5.
Definition X_MOTION_NOTIFY : Z := 6.
Definition X_FOCUS_IN : Z := 9.
Definition X_FOCUS_OUT : Z := 10.
Definition X_EXPOSE : Z := 12.
Definition X_VISIBILITY_NOTIFY : Z := 15.
Definition X_MAP_NOTIFY : Z := 19.
Definition X_CONFIGURE_NOTIFY : Z := 22.
Definition X_PROPERTY_NOTIFY : Z := 28.
Definition X_SELECTION_NOTIFY : Z := 31.
Definition PROPERTY_NEW_VALUE : Z := 0.

Inductive XErrorCode : Type :=
| BadRequest
| BadValue
| BadWindow
| BadAtom
| BadAccess
| BadIdChoice
| BadLength
| BadImplementation.
#[export] Instance x_error_code_eq_dec : EqDecision XErrorCode.
Proof. solve_decision. Defined.
Record XClientError : Type := mk_client_error {
  ce_code : XErrorCode; ce_sequence : Z; ce_resource_id : Z; ce_minor_code : Z; ce_major_code : Z;
}.

Inductive XClientEvent : Type :=
| EventKey (sequence : Z) (pressed : bool) (keycode time : Z) (root event : XResourceId) (state : Z)
| EventFocus (sequence : Z) (focused : bool) (detail : Z) (event : XResourceId) (mode : Z)
| EventXkbStateNotify (sequence time modifiers changed keycode event_type : Z)
| EventPointerMotion (sequence time : Z) (root event : XResourceId) (root_x root_y event_x event_y state : Z)
| EventPointerButton (sequence : Z) (pressed : bool) (button time : Z) (root event : XResourceId)
    (root_x root_y event_x event_y state : Z)
| EventExpose (sequence : Z) (window : XResourceId) (x y width height count : Z)
| EventVisibilityNotify (sequence : Z) (window : XResourceId) (state : Z)
| EventMapNotify (sequence : Z) (event window : XResourceId) (override_redirect : bool)
| EventConfigureNotify (sequence : Z) (event window : XResourceId) (above_sibling : option XResourceId)
    (x y width height border_width : Z) (override_redirect : bool)
| EventPropertyNotify (sequence : Z) (window : XResourceId) (atom time : Z) (new_value : bool)
| EventSelectionClear (sequence time : Z) (owner : XResourceId) (selection : Z)
| EventSelectionRequest (sequence time : Z) (owner requestor : XResourceId) (selection target property : Z)
| EventSelectionNotify (sequence time : Z) (requestor : XResourceId) (selection target property : Z)
| EventClientMessage (sequence : Z) (bytes : list Z)
| EventShmCompletion (sequence : Z) (drawable segment : XResourceId) (offset : Z)
| EventPresentCompleteNotify (sequence : Z) (event_id window : XResourceId) (serial ust msc mode : Z)
| EventPresentIdleNotify (sequence : Z) (event_id window : XResourceId) (serial : Z) (pixmap : XResourceId)
    (idle_fence : option XResourceId)
| EventRandrScreenChange (sequence timestamp config_timestamp : Z) (root request_window : XResourceId)
    (width height mm_width mm_height : Z)
| EventRandrCrtcChange (sequence timestamp : Z) (window : XResourceId) (crtc mode x y width height : Z)
| EventRandrOutputChange (sequence timestamp : Z) (window : XResourceId) (output crtc mode : Z)
| EventRandrResourceChange (sequence timestamp : Z) (window : XResourceId).

Inductive XXiDeviceClass : Type :=
| ClassKey (source_id : Z) (keys : list Z)
| ClassButton (source_id button_count : Z)
| ClassValuator (source_id number min max : Z).
Record XXiDeviceInfo : Type := mk_xi_device {
  xi_device_id : Z; xi_device_type : Z; xi_attachment : Z; xi_name : list Z; xi_classes : list XXiDeviceClass;
}.
Record XRandrModeInfo : Type := mk_randr_mode {
  rm_id : Z; rm_width : Z; rm_height : Z; rm_refresh_millihz : Z; rm_name : list Z;
}.
Record XRandrMonitorInfo : Type := mk_randr_monitor {
  ro_name : Z; ro_primary : bool; ro_x : Z; ro_y : Z; ro_width : Z; ro_height : Z;
  ro_mm_width : Z; ro_mm_height : Z; ro_outputs : list Z;
}.

Inductive XClientReply : Type :=
| ReplyGrabStatus (sequence status : Z)
| ReplyInternAtom (sequence atom : Z)
| ReplyGetAtomName (sequence : Z) (name : list Z)
| ReplyGetGeometry (sequence depth : Z) (root : XResourceId) (geometry : Rect) (border_width : Z)
| ReplyGetImage (sequence depth visual : Z) (data : list Z)
| ReplyQueryTree (sequence : Z) (root parent : XResourceId) (children : list XResourceId)
| ReplyGetWindowAttributes (sequence visual : Z) (colormap : XResourceId) (map_state : Z) (override_redirect : bool)
| ReplyQueryExtension (sequence : Z) (present : bool) (major_opcode first_event first_error : Z)
| ReplyListExtensions (sequence : Z)
| ReplyListFonts (sequence : Z) (names : list (list Z))
| ReplyListFontsWithInfo (sequence : Z) (names : list (list Z))
| ReplyQueryBestSize (sequence width height : Z)
| ReplyShmQueryVersion (sequence major_version minor_version : Z) (shared_pixmaps : bool) (pixmap_format : Z)
| ReplyDri3QueryVersion (sequence major_version minor_version : Z)
| ReplyDri3Open (sequence : Z)
| ReplyDri3GetSupportedModifiers (sequence : Z) (window_modifiers screen_modifiers : list Z)
| ReplyXfixesQueryVersion (sequence major_version minor_version : Z)
| ReplyPresentQueryVersion (sequence major_version minor_version : Z)
| ReplyPresentQueryCapabilities (sequence capabilities : Z)
| ReplyRandrQueryVersion (sequence major_version minor_version : Z)
| ReplyRandrGetScreenSizeRange (sequence min_width min_height max_width max_height : Z)
| ReplyRandrGetScreenResources (sequence timestamp : Z) (crtcs outputs : list Z) (modes : list XRandrModeInfo)
| ReplyRandrGetOutputInfo (sequence timestamp crtc mm_width mm_height : Z) (crtcs modes name : list Z)
| ReplyRandrGetOutputProperty (sequence property_type bytes_after format : Z) (data : list Z)
| ReplyRandrGetCrtcInfo (sequence timestamp x y width height mode : Z) (outputs : list Z)
| ReplyRandrGetCrtcGammaSize (sequence size : Z)
| ReplyRandrGetOutputPrimary (sequence output : Z)
| ReplyRandrGetProviders (sequence timestamp : Z)
| ReplyRandrGetMonitors (sequence timestamp : Z) (monitors : list XRandrMonitorInfo)
| ReplyXkbUseExtension (sequence : Z) (supported : bool) (server_major server_minor : Z)
| ReplyGlxQueryVersion (sequence major_version minor_version : Z)
| ReplyGlxString (sequence : Z) (value : list Z)
| ReplyGlxVisualConfigs (sequence : Z) (configs : list (list Z))
| ReplyGlxFbConfigs (sequence : Z) (configs : list (list (Z * Z)))
| ReplyGlxIsDirect (sequence : Z) (direct : bool)
| ReplyGlxDrawableAttributes (sequence : Z) (attributes : list (Z * Z))
| ReplySyncInitialize (sequence major_version minor_version : Z)
| ReplyXkbGetMap (sequence present : Z) (keysyms : list (list Z)) (modifier_map : list (Z * Z))
| ReplyXkbGetCompatMap (sequence device_id : Z)
| ReplyXkbGetIndicatorMap (sequence device_id : Z)
| ReplyXkbGetState (sequence modifiers : Z)
| ReplyXkbGetControls (sequence : Z)
| ReplyXkbGetNames (sequence which min_keycode max_keycode : Z) (component_atoms type_atoms : list Z)
    (key_names : list (list Z))
| ReplyXkbGetDeviceInfo (sequence device_id supported unsupported : Z)
| ReplyXkbPerClientFlags (sequence supported value : Z)
| ReplyXiQueryVersion (sequence major_version minor_version : Z)
| ReplyGeQueryVersion (sequence major_version minor_version : Z)
| ReplyXiGetClientPointer (sequence device_id : Z)
| ReplyXiGetExtensionVersion (sequence server_major server_minor : Z)
| ReplyXiQueryDevice (sequence : Z) (devices : list XXiDeviceInfo)
| ReplyXiQueryPointer (sequence : Z) (root child : XResourceId)
| ReplyXiGetFocus (sequence : Z) (focus : XResourceId)
| ReplyXiGetProperty (sequence : Z)
| ReplyBigRequestsEnable (sequence maximum_request_length : Z)
| ReplyGetInputFocus (sequence : Z) (focus : XResourceId) (revert_to : Z)
| ReplyQueryPointer (sequence : Z) (root child : XResourceId) (root_x root_y win_x win_y mask : Z)
| ReplyGetModifierMapping (sequence keycodes_per_modifier : Z) (keycodes : list Z)
| ReplyGetKeyboardMapping (sequence keysyms_per_keycode : Z) (keysyms : list Z)
| ReplyGetKeyboardControl (sequence : Z)
| ReplyTranslateCoordinates (sequence : Z) (same_screen : bool) (child : option XResourceId) (dst_x dst_y : Z)
| ReplyQueryFont (sequence font_ascent font_descent : Z)
| ReplyGetProperty (sequence property_type format bytes_after item_count : Z) (bytes : list Z)
| ReplyGetSelectionOwner (sequence : Z) (owner : option XResourceId)
| ReplyAllocNamedColor (sequence pixel red green blue : Z)
| ReplyAllocColor (sequence pixel red green blue : Z)
| ReplyListProperties (sequence : Z) (atoms : list Z)
| ReplyQueryColors (sequence : Z) (pixels : list Z).

Inductive XClientOutput : Type :=
| OutError (e : XClientError)
| OutEvent (e : XClientEvent)
| OutReply (r : XClientReply).

(** ** What clients ask for *)

Definition X_CREATE_WINDOW : Z := 1.
Definition X_CHANGE_WINDOW_ATTRIBUTES : Z := 2.
Definition X_GET_WINDOW_ATTRIBUTES : Z := 3.
Definition X_DESTROY_WINDOW : Z := 4.
Definition X_REPARENT_WINDOW : Z := 7.
Definition X_MAP_WINDOW : Z := 8.
Definition X_MAP_SUBWINDOWS : Z := 9.
Definition X_UNMAP_WINDOW : Z := 10.
Definition X_CONFIGURE_WINDOW : Z := 12.
Definition X_GET_GEOMETRY : Z := 14.
Definition X_QUERY_TREE : Z := 15.
Definition X_INTERN_ATOM : Z := 16.
Definition X_GET_ATOM_NAME : Z := 17.
Definition X_CHANGE_PROPERTY : Z := 18.
Definition X_DELETE_PROPERTY : Z := 19.
Definition X_GET_PROPERTY : Z := 20.
Definition X_QUERY_POINTER : Z := 38.
Definition X_LIST_PROPERTIES : Z := 21.
Definition X_SET_SELECTION_OWNER : Z := 22.
Definition X_GET_SELECTION_OWNER : Z := 23.
Definition X_CONVERT_SELECTION : Z := 24.
Definition X_SEND_EVENT : Z := 25.
Definition X_GRAB_POINTER : Z := 26.
Definition X_UNGRAB_POINTER : Z := 27.
Definition X_GRAB_BUTTON : Z := 28.
Definition X_UNGRAB_BUTTON : Z := 29.
Definition X_GRAB_KEYBOARD : Z := 31.
Definition X_UNGRAB_KEYBOARD : Z := 32.
Definition X_GRAB_KEY : Z := 33.
Definition X_UNGRAB_KEY : Z := 34.
Definition X_ALLOW_EVENTS : Z := 35.
Definition X_GRAB_SERVER : Z := 36.
Definition X_UNGRAB_SERVER : Z := 37.
Definition X_TRANSLATE_COORDINATES : Z := 40.
Definition X_SET_INPUT_FOCUS : Z := 42.
Definition X_GET_INPUT_FOCUS : Z := 43.
Definition X_OPEN_FONT : Z := 45.
Definition X_CLOSE_FONT : Z := 46.
Definition X_QUERY_FONT : Z := 47.
Definition X_LIST_FONTS : Z := 49.
Definition X_LIST_FONTS_WITH_INFO : Z := 50.
Definition X_CREATE_PIXMAP : Z := 53.
Definition X_FREE_PIXMAP : Z := 54.
Definition X_CREATE_GC : Z := 55.
Definition X_CHANGE_GC : Z := 56.
Definition X_SET_CLIP_RECTANGLES : Z := 59.
Definition X_FREE_GC : Z := 60.
Definition X_CLEAR_AREA : Z := 61.
Definition X_COPY_AREA : Z := 62.
Definition X_POLY_LINE : Z := 65.
Definition X_POLY_SEGMENT : Z := 66.
Definition X_FILL_POLY : Z := 69.
Definition X_POLY_FILL_RECTANGLE : Z := 70.
Definition X_POLY_FILL_ARC : Z := 71.
Definition X_PUT_IMAGE : Z := 72.
Definition X_GET_IMAGE : Z := 73.
Definition X_POLY_TEXT8 : Z := 74.
Definition X_IMAGE_TEXT8 : Z := 76.
Definition X_CREATE_COLORMAP : Z := 78.
Definition X_FREE_COLORMAP : Z := 79.
Definition X_ALLOC_COLOR : Z := 84.
Definition X_ALLOC_NAMED_COLOR : Z := 85.
Definition X_QUERY_COLORS : Z := 91.
Definition X_CREATE_CURSOR : Z := 93.
Definition X_CREATE_GLYPH_CURSOR : Z := 94.
Definition X_FREE_CURSOR : Z := 95.
Definition X_RECOLOR_CURSOR : Z := 96.
Definition X_QUERY_EXTENSION : Z := 98.
Definition X_LIST_EXTENSIONS : Z := 99.
Definition X_GET_KEYBOARD_MAPPING : Z := 101.
Definition X_GET_KEYBOARD_CONTROL : Z := 103.
Definition X_BELL : Z := 104.
Definition X_QUERY_BEST_SIZE : Z := 97.
Definition X_GET_MODIFIER_MAPPING : Z := 119.
Definition X_SOPHIA_PRESENT_EXTENSION_NAME : list Z := str "SOPHIA-PRESENT".
Definition X_SOPHIA_PRESENT_MAJOR_OPCODE : Z := 130.
Definition X_SOPHIA_PRESENT_PIXMAP_MINOR_OPCODE : Z := 0.
Definition X_MIT_SHM_EXTENSION_NAME : list Z := str "MIT-SHM".
Definition X_MIT_SHM_MAJOR_OPCODE : Z := 131.
Definition X_MIT_SHM_FIRST_EVENT : Z := 108.
Definition X_MIT_SHM_QUERY_VERSION_MINOR_OPCODE : Z := 0.
Definition X_MIT_SHM_ATTACH_MINOR_OPCODE : Z := 1.
Definition X_MIT_SHM_DETACH_MINOR_OPCODE : Z := 2.
Definition X_MIT_SHM_PUT_IMAGE_MINOR_OPCODE : Z := 3.
Definition X_MIT_SHM_CREATE_PIXMAP_MINOR_OPCODE : Z := 5.
Definition X_RANDR_EXTENSION_NAME : list Z := str "RANDR".
Definition X_RANDR_MAJOR_OPCODE : Z := 132.
Definition X_RANDR_FIRST_EVENT : Z := 64.
Definition X_RANDR_QUERY_VERSION_MINOR_OPCODE : Z := 0.
Definition X_RANDR_SELECT_INPUT_MINOR_OPCODE : Z := 4.
Definition X_RANDR_GET_SCREEN_SIZE_RANGE_MINOR_OPCODE : Z := 6.
Definition X_RANDR_GET_SCREEN_RESOURCES_MINOR_OPCODE : Z := 8.
Definition X_RANDR_GET_OUTPUT_INFO_MINOR_OPCODE : Z := 9.
Definition X_RANDR_GET_OUTPUT_PROPERTY_MINOR_OPCODE : Z := 15.
Definition X_RANDR_GET_CRTC_INFO_MINOR_OPCODE : Z := 20.
Definition X_RANDR_GET_CRTC_GAMMA_SIZE_MINOR_OPCODE : Z := 22.
Definition X_RANDR_GET_SCREEN_RESOURCES_CURRENT_MINOR_OPCODE : Z := 25.
Definition X_RANDR_GET_OUTPUT_PRIMARY_MINOR_OPCODE : Z := 31.
Definition X_RANDR_GET_PROVIDERS_MINOR_OPCODE : Z := 32.
Definition X_RANDR_GET_MONITORS_MINOR_OPCODE : Z := 42.
Definition X_KEYBOARD_EXTENSION_NAME : list Z := str "XKEYBOARD".
Definition X_KEYBOARD_MAJOR_OPCODE : Z := 133.
Definition X_KEYBOARD_FIRST_EVENT : Z := 89.
Definition X_KEYBOARD_USE_EXTENSION_MINOR_OPCODE : Z := 0.
Definition X_KEYBOARD_SELECT_EVENTS_MINOR_OPCODE : Z := 1.
Definition X_KEYBOARD_GET_STATE_MINOR_OPCODE : Z := 4.
Definition X_KEYBOARD_GET_CONTROLS_MINOR_OPCODE : Z := 6.
Definition X_KEYBOARD_GET_MAP_MINOR_OPCODE : Z := 8.
Definition X_KEYBOARD_GET_COMPAT_MAP_MINOR_OPCODE : Z := 10.
Definition X_KEYBOARD_GET_INDICATOR_MAP_MINOR_OPCODE : Z := 13.
Definition X_KEYBOARD_GET_NAMES_MINOR_OPCODE : Z := 17.
Definition X_KEYBOARD_PER_CLIENT_FLAGS_MINOR_OPCODE : Z := 21.
Definition X_KEYBOARD_GET_DEVICE_INFO_MINOR_OPCODE : Z := 24.
Definition X_BIG_REQUESTS_EXTENSION_NAME : list Z := str "BIG-REQUESTS".
Definition X_BIG_REQUESTS_MAJOR_OPCODE : Z := 134.
Definition X_BIG_REQUESTS_ENABLE_MINOR_OPCODE : Z := 0.
Definition X_INPUT_EXTENSION_NAME : list Z := str "XInputExtension".
Definition X_INPUT_MAJOR_OPCODE : Z := 135.
Definition X_INPUT_FIRST_EVENT : Z := 90.
Definition X_INPUT_FIRST_ERROR : Z := 160.
Definition X_INPUT_GET_EXTENSION_VERSION_MINOR_OPCODE : Z := 1.
Definition X_INPUT_DEVICE_BELL_MINOR_OPCODE : Z := 32.
Definition X_INPUT_QUERY_POINTER_MINOR_OPCODE : Z := 40.
Definition X_INPUT_CHANGE_CURSOR_MINOR_OPCODE : Z := 42.
Definition X_INPUT_QUERY_POINTER_REQ_LEN : Z := 12.
Definition X_INPUT_CHANGE_CURSOR_REQ_LEN : Z := 16.
Definition X_INPUT_UNGRAB_DEVICE_REQ_LEN : Z := 12.
Definition X_INPUT_SELECT_EVENTS_MINOR_OPCODE : Z := 46.
Definition X_INPUT_GET_CLIENT_POINTER_MINOR_OPCODE : Z := 45.
Definition X_INPUT_QUERY_VERSION_MINOR_OPCODE : Z := 47.
Definition X_INPUT_QUERY_DEVICE_MINOR_OPCODE : Z := 48.
Definition X_INPUT_GET_FOCUS_MINOR_OPCODE : Z := 50.
Definition X_INPUT_UNGRAB_DEVICE_MINOR_OPCODE : Z := 52.
Definition X_INPUT_GET_PROPERTY_MINOR_OPCODE : Z := 59.
Definition X_GENERIC_EVENT_EXTENSION_NAME : list Z := str "Generic Event Extension".
Definition X_GENERIC_EVENT_MAJOR_OPCODE : Z := 136.
Definition X_GENERIC_EVENT_QUERY_VERSION_MINOR_OPCODE : Z := 0.
Definition X_DRI3_EXTENSION_NAME : list Z := str "DRI3".
Definition X_DRI3_MAJOR_OPCODE : Z := 137.
Definition X_DRI3_QUERY_VERSION_MINOR_OPCODE : Z := 0.
Definition X_DRI3_OPEN_MINOR_OPCODE : Z := 1.
Definition X_DRI3_PIXMAP_FROM_BUFFER_MINOR_OPCODE : Z := 2.
Definition X_DRI3_FENCE_FROM_FD_MINOR_OPCODE : Z := 4.
Definition X_DRI3_GET_SUPPORTED_MODIFIERS_MINOR_OPCODE : Z := 6.
Definition X_DRI3_PIXMAP_FROM_BUFFERS_MINOR_OPCODE : Z := 7.
Definition X_PRESENT_EXTENSION_NAME : list Z := str "Present".
Definition X_PRESENT_MAJOR_OPCODE : Z := 138.
Definition X_PRESENT_FIRST_EVENT : Z := 0.
Definition X_PRESENT_QUERY_VERSION_MINOR_OPCODE : Z := 0.
Definition X_PRESENT_PIXMAP_MINOR_OPCODE : Z := 1.
Definition X_PRESENT_SELECT_INPUT_MINOR_OPCODE : Z := 3.
Definition X_PRESENT_QUERY_CAPABILITIES_MINOR_OPCODE : Z := 4.
Definition X_XFIXES_EXTENSION_NAME : list Z := str "XFIXES".
Definition X_XFIXES_MAJOR_OPCODE : Z := 139.
Definition X_XFIXES_FIRST_EVENT : Z := 66.
Definition X_XFIXES_QUERY_VERSION_MINOR_OPCODE : Z := 0.
Definition X_XFIXES_SELECT_SELECTION_INPUT_MINOR_OPCODE : Z := 2.
Definition X_XFIXES_CREATE_REGION_MINOR_OPCODE : Z := 5.
Definition X_XFIXES_DESTROY_REGION_MINOR_OPCODE : Z := 10.
Definition X_XFIXES_SET_REGION_MINOR_OPCODE : Z := 11.
Definition X_GLX_EXTENSION_NAME : list Z := str "GLX".
Definition X_GLX_MAJOR_OPCODE : Z := 140.
Definition X_GLX_FIRST_EVENT : Z := 72.
Definition X_GLX_DESTROY_CONTEXT_MINOR_OPCODE : Z := 4.
Definition X_GLX_IS_DIRECT_MINOR_OPCODE : Z := 6.
Definition X_GLX_QUERY_VERSION_MINOR_OPCODE : Z := 7.
Definition X_GLX_GET_VISUAL_CONFIGS_MINOR_OPCODE : Z := 14.
Definition X_GLX_QUERY_EXTENSIONS_STRING_MINOR_OPCODE : Z := 18.
Definition X_GLX_QUERY_SERVER_STRING_MINOR_OPCODE : Z := 19.
Definition X_GLX_CLIENT_INFO_MINOR_OPCODE : Z := 20.
Definition X_GLX_GET_FB_CONFIGS_MINOR_OPCODE : Z := 21.
Definition X_GLX_CREATE_NEW_CONTEXT_MINOR_OPCODE : Z := 24.
Definition X_GLX_GET_DRAWABLE_ATTRIBUTES_MINOR_OPCODE : Z := 29.
Definition X_GLX_CREATE_WINDOW_MINOR_OPCODE : Z := 31.
Definition X_GLX_DELETE_WINDOW_MINOR_OPCODE : Z := 32.
Definition X_GLX_SET_CLIENT_INFO_ARB_MINOR_OPCODE : Z := 33.
Definition X_GLX_CREATE_CONTEXT_ATTRIBS_ARB_MINOR_OPCODE : Z := 34.
Definition X_GLX_SET_CLIENT_INFO_2_ARB_MINOR_OPCODE : Z := 35.
Definition X_SYNC_EXTENSION_NAME : list Z := str "SYNC".
Definition X_SYNC_MAJOR_OPCODE : Z := 141.
Definition X_SYNC_FIRST_EVENT : Z := 68.
Definition X_SYNC_INITIALIZE_MINOR_OPCODE : Z := 0.
Definition X_SYNC_DESTROY_FENCE_MINOR_OPCODE : Z := 17.
Definition X_CREATE_WINDOW_REQ_LEN : Z := 32.
Definition X_CHANGE_WINDOW_ATTRIBUTES_REQ_LEN : Z := 12.
Definition X_GET_WINDOW_ATTRIBUTES_REQ_LEN : Z := 8.
Definition X_DESTROY_WINDOW_REQ_LEN : Z := 8.
Definition X_REPARENT_WINDOW_REQ_LEN : Z := 16.
Definition X_MAP_WINDOW_REQ_LEN : Z := 8.
Definition X_MAP_SUBWINDOWS_REQ_LEN : Z := 8.
Definition X_UNMAP_WINDOW_REQ_LEN : Z := 8.
Definition X_CONFIGURE_WINDOW_REQ_LEN : Z := 12.
Definition X_GET_GEOMETRY_REQ_LEN : Z := 8.
Definition X_QUERY_TREE_REQ_LEN : Z := 8.
Definition X_INTERN_ATOM_REQ_LEN : Z := 8.
Definition X_GET_ATOM_NAME_REQ_LEN : Z := 8.
Definition X_CHANGE_PROPERTY_REQ_LEN : Z := 24.
Definition X_DELETE_PROPERTY_REQ_LEN : Z := 12.
Definition X_GET_PROPERTY_REQ_LEN : Z := 24.
Definition X_QUERY_POINTER_REQ_LEN : Z := 8.
Definition X_LIST_PROPERTIES_REQ_LEN : Z := 8.
Definition X_SET_SELECTION_OWNER_REQ_LEN : Z := 16.
Definition X_GET_SELECTION_OWNER_REQ_LEN : Z := 8.
Definition X_CONVERT_SELECTION_REQ_LEN : Z := 24.
Definition X_SEND_EVENT_REQ_LEN : Z := 44.
Definition X_GRAB_BUTTON_REQ_LEN : Z := 24.
Definition X_UNGRAB_BUTTON_REQ_LEN : Z := 12.
Definition X_GRAB_POINTER_REQ_LEN : Z := 24.
Definition X_UNGRAB_POINTER_REQ_LEN : Z := 8.
Definition X_GRAB_KEYBOARD_REQ_LEN : Z := 16.
Definition X_UNGRAB_KEYBOARD_REQ_LEN : Z := 8.
Definition X_GRAB_KEY_REQ_LEN : Z := 16.
Definition X_UNGRAB_KEY_REQ_LEN : Z := 12.
Definition X_ALLOW_EVENTS_REQ_LEN : Z := 8.
Definition X_GRAB_SERVER_REQ_LEN : Z := 4.
Definition X_UNGRAB_SERVER_REQ_LEN : Z := 4.
Definition X_TRANSLATE_COORDINATES_REQ_LEN : Z := 16.
Definition X_SET_INPUT_FOCUS_REQ_LEN : Z := 12.
Definition X_GET_INPUT_FOCUS_REQ_LEN : Z := 4.
Definition X_GET_IMAGE_REQ_LEN : Z := 20.
Definition X_OPEN_FONT_REQ_LEN : Z := 12.
Definition X_CLOSE_FONT_REQ_LEN : Z := 8.
Definition X_QUERY_FONT_REQ_LEN : Z := 8.
Definition X_LIST_FONTS_REQ_LEN : Z := 8.
Definition X_LIST_FONTS_WITH_INFO_REQ_LEN : Z := 8.
Definition X_CREATE_PIXMAP_REQ_LEN : Z := 16.
Definition X_FREE_PIXMAP_REQ_LEN : Z := 8.
Definition X_CREATE_GC_REQ_LEN : Z := 16.
Definition X_CHANGE_GC_REQ_LEN : Z := 12.
Definition X_SET_CLIP_RECTANGLES_REQ_LEN : Z := 12.
Definition X_FREE_GC_REQ_LEN : Z := 8.
Definition X_CLEAR_AREA_REQ_LEN : Z := 16.
Definition X_COPY_AREA_REQ_LEN : Z := 28.
Definition X_POLY_LINE_REQ_LEN : Z := 12.
Definition X_POLY_SEGMENT_REQ_LEN : Z := 12.
Definition X_FILL_POLY_REQ_LEN : Z := 16.
Definition X_POLY_FILL_RECTANGLE_REQ_LEN : Z := 12.
Definition X_POLY_FILL_ARC_REQ_LEN : Z := 12.
Definition X_PUT_IMAGE_REQ_LEN : Z := 24.
Definition X_POLY_TEXT8_REQ_LEN : Z := 16.
Definition X_IMAGE_TEXT8_REQ_LEN : Z := 16.
Definition X_CREATE_COLORMAP_REQ_LEN : Z := 16.
Definition X_FREE_COLORMAP_REQ_LEN : Z := 8.
Definition X_ALLOC_COLOR_REQ_LEN : Z := 16.
Definition X_ALLOC_NAMED_COLOR_REQ_LEN : Z := 12.
Definition X_QUERY_COLORS_REQ_LEN : Z := 8.
Definition X_CREATE_CURSOR_REQ_LEN : Z := 32.
Definition X_CREATE_GLYPH_CURSOR_REQ_LEN : Z := 32.
Definition X_FREE_CURSOR_REQ_LEN : Z := 8.
Definition X_RECOLOR_CURSOR_REQ_LEN : Z := 20.
Definition X_QUERY_EXTENSION_REQ_LEN : Z := 8.
Definition X_LIST_EXTENSIONS_REQ_LEN : Z := 4.
Definition X_GET_KEYBOARD_MAPPING_REQ_LEN : Z := 8.
Definition X_QUERY_BEST_SIZE_REQ_LEN : Z := 12.
Definition X_GET_MODIFIER_MAPPING_REQ_LEN : Z := 4.
Definition X_SOPHIA_PRESENT_PIXMAP_REQ_LEN : Z := 32.
Definition X_MIT_SHM_QUERY_VERSION_REQ_LEN : Z := 4.
Definition X_MIT_SHM_ATTACH_REQ_LEN : Z := 16.
Definition X_MIT_SHM_DETACH_REQ_LEN : Z := 8.
Definition X_MIT_SHM_PUT_IMAGE_REQ_LEN : Z := 40.
Definition X_MIT_SHM_CREATE_PIXMAP_REQ_LEN : Z := 28.
Definition X_RANDR_QUERY_VERSION_REQ_LEN : Z := 12.
Definition X_RANDR_SELECT_INPUT_REQ_LEN : Z := 12.
Definition X_RANDR_GET_SCREEN_SIZE_RANGE_REQ_LEN : Z := 8.
Definition X_RANDR_GET_SCREEN_RESOURCES_REQ_LEN : Z := 8.
Definition X_RANDR_GET_OUTPUT_INFO_REQ_LEN : Z := 12.
Definition X_RANDR_GET_OUTPUT_PROPERTY_REQ_LEN : Z := 28.
Definition X_RANDR_GET_CRTC_INFO_REQ_LEN : Z := 12.
Definition X_RANDR_GET_CRTC_GAMMA_SIZE_REQ_LEN : Z := 8.
Definition X_RANDR_GET_OUTPUT_PRIMARY_REQ_LEN : Z := 8.
Definition X_RANDR_GET_MONITORS_REQ_LEN : Z := 12.
Definition X_KEYBOARD_USE_EXTENSION_REQ_LEN : Z := 8.
Definition X_KEYBOARD_SELECT_EVENTS_REQ_LEN : Z := 16.
Definition X_KEYBOARD_GET_MAP_REQ_LEN : Z := 28.
Definition X_KEYBOARD_GET_CONTROLS_REQ_LEN : Z := 8.
Definition X_KEYBOARD_PER_CLIENT_FLAGS_REQ_LEN : Z := 28.
Definition X_BIG_REQUESTS_ENABLE_REQ_LEN : Z := 4.
Definition X_INPUT_QUERY_VERSION_REQ_LEN : Z := 8.
Definition X_INPUT_GET_CLIENT_POINTER_REQ_LEN : Z := 8.
Definition X_INPUT_QUERY_DEVICE_REQ_LEN : Z := 8.
Definition X_INPUT_SELECT_EVENTS_REQ_LEN : Z := 12.
Definition X_INPUT_GET_FOCUS_REQ_LEN : Z := 8.
Definition X_INPUT_GET_PROPERTY_REQ_LEN : Z := 24.
Definition X_GENERIC_EVENT_QUERY_VERSION_REQ_LEN : Z := 8.
Definition X_PUT_IMAGE_MAX_DATA_BYTES : Z := 256 * 1024.
Definition X_QUERY_COLORS_MAX_PIXELS : Z := 256.
Definition X_POLY_TEXT8_MAX_BYTES : Z := 64 * 1024.
Definition X_IMAGE_TEXT8_MAX_BYTES : Z := 64 * 1024.
Definition X_ALLOC_NAMED_COLOR_MAX_NAME_BYTES : Z := 256.

Record XWireClientContext : Type := mk_wire_context {
  wc_byte_order : XByteOrder; wc_namespace : NamespaceId; wc_transaction : TransactionId;
  wc_resource_id_range : option XWireClientResourceRange;
}.

Inductive XWireRequest : Type :=
| ReqAuthority (p : XAuthorityRequestPacket)
| ReqCreateWindow (packet : XAuthorityRequestPacket) (parent : XResourceId) (depth visual : Z)
    (colormap : option XResourceId) (background_pixel event_mask do_not_propagate_mask : option Z)
| ReqChangeWindowAttributes (window : XResourceId) (event_mask do_not_propagate_mask : option Z)
| ReqGetWindowAttributes (window : XResourceId)
| ReqDestroyWindow (window : XResourceId)
| ReqReparentWindow (window parent : XResourceId) (x y : Z)
| ReqMapSubwindows (window : XResourceId)
| ReqUnmapWindow (window : XResourceId)
| ReqConfigureWindow (window : XResourceId) (value_mask : Z) (x y width height : option Z)
    (sibling : option XResourceId) (stack_mode : option Z)
| ReqGetGeometry (drawable : XResourceId)
| ReqQueryTree (window : XResourceId)
| ReqInternAtom (only_if_exists : bool) (name : list Z)
| ReqGetAtomName (atom : XAtom)
| ReqChangeProperty (p : XPropertyChange)
| ReqGetProperty (p : XPropertyRead)
| ReqListProperties (window : XResourceId)
| ReqGetSelectionOwner (selection : XAtom)
| ReqSendSelectionNotify (destination : XResourceId) (event_mask : Z) (event : XClientEvent)
| ReqGrabPointer (window : XResourceId) (event_mask : Z) (owner_events : bool) (pointer_mode keyboard_mode time : Z)
| ReqUngrabPointer (time : Z)
| ReqGrabButton (window : XResourceId) (event_mask button modifiers : Z) (owner_events : bool)
    (pointer_mode keyboard_mode : Z)
| ReqUngrabButton (window : XResourceId) (button modifiers : Z)
| ReqGrabKeyboard (window : XResourceId) (owner_events : bool) (pointer_mode keyboard_mode time : Z)
| ReqUngrabKeyboard (time : Z)
| ReqGrabKey (window : XResourceId) (key modifiers : Z) (owner_events : bool) (pointer_mode keyboard_mode : Z)
| ReqUngrabKey (window : XResourceId) (key modifiers : Z)
| ReqAllowEvents (mode time : Z)
| ReqGrabServer
| ReqUngrabServer
| ReqCreateGraphicsContext (gc drawable : XResourceId) (values : XGraphicsContextValues)
| ReqChangeGraphicsContext (gc : XResourceId) (value_mask : Z) (values : XGraphicsContextValues)
| ReqSetClipRectangles (gc : XResourceId) (rectangles : list Rect)
| ReqFreeGraphicsContext (gc : XResourceId)
| ReqClearArea (exposures : bool) (window : XResourceId) (x y width height : Z)
| ReqPolyFillRectangle (drawable gc : XResourceId) (rectangles : list Rect)
| ReqPutImage (format : Z) (drawable gc : XResourceId) (width height dst_x dst_y left_pad depth : Z) (data : list Z)
| ReqGetImage (format : Z) (drawable : XResourceId) (x y width height plane_mask : Z)
| ReqPolyText8 (drawable gc : XResourceId) (x y : Z) (text : list Z)
| ReqImageText8 (drawable gc : XResourceId) (x y : Z) (text : list Z)
| ReqCreateColormap (colormap window : XResourceId) (visual : Z)
| ReqFreeColormap (colormap : XResourceId)
| ReqAllocColor (colormap : XResourceId) (red green blue : Z)
| ReqAllocNamedColor (colormap : XResourceId) (name : list Z)
| ReqGetInputFocus
| ReqSetInputFocus (focus : XResourceId) (revert_to time : Z)
| ReqOpenFont (font : XResourceId) (name : list Z)
| ReqCloseFont (font : XResourceId)
| ReqQueryFont (font : XResourceId)
| ReqListFonts (max_names : Z) (pattern : list Z)
| ReqListFontsWithInfo (max_names : Z) (pattern : list Z)
| ReqCreatePixmap (depth : Z) (pixmap drawable : XResourceId) (width height : Z)
| ReqFreePixmap (pixmap : XResourceId)
| ReqQueryExtension (name : list Z)
| ReqDeleteProperty (window : XResourceId) (property : Z)
| ReqQueryPointer (window : XResourceId)
| ReqListExtensions
| ReqQueryBestSize (class : Z) (drawable : XResourceId) (width height : Z)
| ReqCopyArea (source destination gc : XResourceId) (src_x src_y dst_x dst_y width height : Z)
| ReqPolySegment (drawable gc : XResourceId) (damage : list Rect)
| ReqPolyLine (drawable gc : XResourceId) (points : list XPoint)
| ReqFillPoly (drawable gc : XResourceId) (damage : option Rect)
| ReqPolyFillArc (drawable gc : XResourceId) (damage : list Rect)
| ReqShmQueryVersion
| ReqDri3QueryVersion (major_version minor_version : Z)
| ReqDri3Open (drawable : XResourceId) (provider : Z)
| ReqDri3PixmapFromBuffer (pixmap drawable : XResourceId) (size_bytes width height stride depth bits_per_pixel : Z)
| ReqDri3PixmapFromBuffers (pixmap window : XResourceId) (num_buffers width height : Z) (strides offsets : list Z)
    (depth bits_per_pixel modifier : Z)
| ReqDri3FenceFromFd (drawable fence : XResourceId) (initially_triggered : bool)
| ReqDri3GetSupportedModifiers (window : XResourceId) (depth bits_per_pixel : Z)
| ReqXfixesQueryVersion (major_version minor_version : Z)
| ReqXfixesSelectSelectionInput (window : XResourceId) (selection : XAtom) (event_mask : Z)
| ReqXfixesCreateRegion (region : XResourceId) (rectangles : list Rect)
| ReqXfixesDestroyRegion (region : XResourceId)
| ReqXfixesSetRegion (region : XResourceId) (rectangles : list Rect)
| ReqPresentQueryVersion (major_version minor_version : Z)
| ReqPresentPixmap (transaction : TransactionId) (window pixmap : XResourceId)
    (serial valid_region update_region x_offset y_offset target_crtc : Z)
    (wait_fence idle_fence : option XResourceId) (options target_msc divisor remainder : Z) (notifies : list
    (XResourceId * Z))
| ReqPresentSelectInput (event_id window : XResourceId) (event_mask : Z)
| ReqPresentQueryCapabilities (target : XResourceId)
| ReqShmAttach (segment : XResourceId) (shmid : Z) (read_only : bool)
| ReqShmDetach (segment : XResourceId)
| ReqShmPutImage (drawable gc : XResourceId)
    (total_width total_height src_x src_y src_width src_height dst_x dst_y depth format : Z) (send_event : bool)
    (segment : XResourceId) (offset : Z)
| ReqShmCreatePixmap (pixmap drawable : XResourceId) (width height depth : Z) (segment : XResourceId) (offset : Z)
| ReqRandrQueryVersion (major_version minor_version : Z)
| ReqRandrSelectInput (window : XResourceId) (enable : Z)
| ReqRandrGetScreenSizeRange (window : XResourceId)
| ReqRandrGetScreenResources (window : XResourceId) (current : bool)
| ReqRandrGetOutputInfo (output config_timestamp : Z)
| ReqRandrGetOutputProperty (output : Z) (property property_type : XAtom) (long_offset long_length : Z)
    (delete pending : bool)
| ReqRandrGetCrtcInfo (crtc config_timestamp : Z)
| ReqRandrGetCrtcGammaSize (crtc : Z)
| ReqRandrGetOutputPrimary (window : XResourceId)
| ReqRandrGetProviders (window : XResourceId)
| ReqRandrGetMonitors (window : XResourceId) (get_active : bool)
| ReqXkbUseExtension (wanted_major wanted_minor : Z)
| ReqGlxQueryVersion (major_version minor_version : Z)
| ReqGlxGetVisualConfigs (screen : Z)
| ReqGlxGetFbConfigs (screen : Z)
| ReqGlxClientInfo
| ReqGlxCreateContext (context : XResourceId) (fbconfig screen : Z) (share : option XResourceId) (direct : bool)
| ReqGlxDestroyContext (context : XResourceId)
| ReqGlxIsDirect (context : XResourceId)
| ReqGlxCreateWindow (screen fbconfig : Z) (window glx_window : XResourceId)
| ReqGlxDeleteWindow (glx_window : XResourceId)
| ReqGlxGetDrawableAttributes (drawable : XResourceId)
| ReqSyncInitialize (desired_major desired_minor : Z)
| ReqSyncDestroyFence (fence : XResourceId)
| ReqGlxQueryExtensionsString
| ReqGlxQueryServerString (name : Z)
| ReqXkbGetMap (full partial : Z)
| ReqXkbGetCompatMap (device_spec : Z)
| ReqXkbGetIndicatorMap (device_spec : Z)
| ReqXkbGetState
| ReqXkbGetControls
| ReqXkbGetNames (which : Z)
| ReqXkbGetDeviceInfo (device_spec wanted : Z)
| ReqXkbSelectEvents (affect_which clear select_all : Z) (state_details : option (Z * Z))
| ReqXkbPerClientFlags (change value : Z)
| ReqXiQueryVersion (major_version minor_version : Z)
| ReqXiQueryPointer (window : XResourceId) (device_id : Z)
| ReqXiGetClientPointer
| ReqXiDeviceBell
| ReqXiUngrabDevice (device_id time : Z)
| ReqXiChangeCursor (window : XResourceId) (cursor : option XResourceId)
| ReqXiGetExtensionVersion
| ReqXiQueryDevice (device_id : Z)
| ReqXiSelectEvents (window : XResourceId) (masks : list (Z * (list Z)))
| ReqXiGetFocus (device_id : Z)
| ReqXiGetProperty
| ReqGeQueryVersion (major_version minor_version : Z)
| ReqBigRequestsEnable
| ReqQueryColors (colormap : XResourceId) (pixels : list Z)
| ReqCreateCursor (cursor source : XResourceId) (mask : option XResourceId)
| ReqCreateGlyphCursor (cursor source_font : XResourceId) (mask_font : option XResourceId)
| ReqFreeCursor (cursor : XResourceId)
| ReqRecolorCursor (cursor : XResourceId)
| ReqGetModifierMapping
| ReqGetKeyboardMapping (first_keycode count : Z)
| ReqGetKeyboardControl
| ReqBell
| ReqTranslateCoordinates (source destination : XResourceId) (src_x src_y : Z).

Inductive XWireParseError : Type :=
| WpTruncated (needed actual : Z)
| WpInvalidLength (opcode expected_at_least actual : Z)
| WpTrailingBytes (p : Z)
| WpUnknownOpcode (p : Z)
| WpInvalidPropertyMode (p : Z)
| WpInvalidPropertyFormat (p : Z)
| WpInvalidEventType (p : Z)
| WpInvalidValue (p : Z)
| WpPropertyValueTooLarge (len max : Z)
| WpResourceIdOutsideClientRange (resource_id : Z).
#[export] Instance x_wire_parse_error_eq_dec : EqDecision XWireParseError.
Proof. solve_decision. Defined.
