(* ===== verification/XWire.v ===== *)
(** * Decoding X11 requests
    ([sophia-x-authority/src/wire.rs], [XByteOrder] of [setup.rs])

    A decoder reads the bytes of one request, in the byte order of the client.  [None] is a panic:
    an index or a slice out of range. *)

From S2P Require Import Prelude Ids Geometry Packets PortalPackets Text.
From S2P Require Import XAtoms XTables XProperties XSelections XState XProtocol.
From stdpp Require Import strings pretty.
Local Open Scope Z_scope.

(** ** Results and reading *)

Definition W (A : Type) : Type := option (result A XWireParseError).
#[export] Instance w_ret : MRet W := λ A a, Some (Ok a).
#[export] Instance w_bind : MBind W := λ A B k m,
  match m with Some (Ok a) => k a | Some (Err e) => Some (Err e) | None => None end.
Definition w_fail {A} (e : XWireParseError) : W A := Some (Err e).
(** [if bad { return Err(e) }] *)
Definition w_guard (P : Prop) `{Decision P} (e : XWireParseError) : W unit :=
  if decide P then mret () else w_fail e.

(** [&bytes[from..to]] *)
Definition slice (bytes : list Z) (from to : Z) : W (list Z) :=
  if decide (0 ≤ from ≤ to ∧ to ≤ str_len bytes)
  then mret (take (Z.to_nat (to - from)) (drop (Z.to_nat from) bytes)) else None.
Definition ordered (order : XByteOrder) (l : list Z) : Z :=
  from_le_bytes (match order with LittleEndian => l | BigEndian => reverse l end).
Definition int_at (width : Z) (order : XByteOrder) (bytes : list Z) (i : Z) : W Z :=
  l ← slice bytes i (i + width); mret (ordered order l).
Definition u16_at := int_at 2.
Definition u32_at := int_at 4.
Definition u64_at := int_at 8.
Definition i16_at (order : XByteOrder) (bytes : list Z) (i : Z) : W Z :=
  z ← u16_at order bytes i; mret (as_signed 16 z).
Definition byte_at (bytes : list Z) (i : Z) : W Z :=
  l ← slice bytes i (i + 1); mret (default 0 (head l)).
Definition resource_id (raw : Z) : XResourceId := x_resource_id raw 1.
Definition id_at (order : XByteOrder) (bytes : list Z) (i : Z) : W XResourceId :=
  raw ← u32_at order bytes i; mret (resource_id raw).
Definition optional_id (raw : Z) : option XResourceId :=
  if decide (raw = 0) then None else Some (resource_id raw).
Definition flag (z : Z) : bool := bool_decide (z ≠ 0).

Definition padded_len (len : Z) : Z := Z.land (len + 3) (Z.lnot 3).
(** [len.next multiple of unit], as the error messages compute it. *)
Definition round_up (unit len : Z) : Z := Z.land (len + (unit - 1)) (Z.lnot (unit - 1)).
Definition count_ones (mask : Z) : Z :=
  Z.of_nat (length (filter (λ bit, Z.testbit mask bit = true) (seqZ 0 32))).
Definition chunks_exact (n : nat) (l : list Z) : list (list Z) :=
  (λ i, take n (drop (i * n) l)) <$> seq 0 (length l / n).

Definition require_len (opcode expected_at_least actual : Z) : W unit :=
  w_guard (expected_at_least ≤ actual) (WpInvalidLength opcode expected_at_least actual).
Definition require_exact_len (opcode expected actual : Z) : W unit :=
  w_guard (actual = expected) (WpInvalidLength opcode expected actual).
Definition validate_wire_property_format (format : Z) : W unit :=
  w_guard (format = 8 ∨ format = 16 ∨ format = 32) (WpInvalidPropertyFormat format).
Definition validate_wire_image_format (format : Z) : W unit :=
  w_guard (0 ≤ format ≤ 2) (WpInvalidPropertyFormat format).
Definition validate_new_resource_id (c : XWireClientContext) (resource_id : Z) : W unit :=
  match wc_resource_id_range c with
  | Some range => w_guard (owns_new_resource range resource_id) (WpResourceIdOutsideClientRange resource_id)
  | None => mret ()
  end.

(** [u8::try_from(value).unwrap_or(u8::MAX)] and its like for [u16]; [value as i16], [as u16], [as u8]. *)
Definition at_most (max value : Z) : Z := if decide (value ≤ max) then value else max.
Definition cast_u (bits value : Z) : Z := as_unsigned bits value.
Definition cast_i16 (value : Z) : Z := as_signed 16 (as_unsigned 16 value).

(** The values of a value list: one word for each bit of the mask, in the order of the bits. *)
Fixpoint values_at (order : XByteOrder) (bytes : list Z) (bits : list Z) (mask cursor : Z) : W (list (Z * Z)) :=
  match bits with
  | [] => mret []
  | bit :: bits =>
      if Z.testbit mask bit then
        value ← u32_at order bytes cursor;
        rest ← values_at order bytes bits mask (cursor + 4);
        mret ((bit, value) :: rest)
      else values_at order bytes bits mask cursor
  end.
Definition value_of (values : list (Z * Z)) (bit : Z) : option Z :=
  snd <$> head (filter (λ p : Z * Z, p.1 = bit) values).

Definition rect_at (order : XByteOrder) (bytes : list Z) : W Rect :=
  x ← i16_at order bytes 0; y ← i16_at order bytes 2;
  width ← u16_at order bytes 4; height ← u16_at order bytes 6;
  mret (mk_rect x y width height).

Section decoders.
  Context (c : XWireClientContext) (bytes : list Z).
  Notation order := (wc_byte_order c).
  Notation len := (str_len bytes).
  Notation u8 := (byte_at bytes).
  Notation u16 := (u16_at order bytes).
  Notation u32 := (u32_at order bytes).
  Notation u64 := (u64_at order bytes).
  Notation i16 := (i16_at order bytes).
  Notation id := (id_at order bytes).
  Notation exact opcode n := (require_exact_len opcode n len).

(** A new identifier, inside the client's range. *)
Definition new_id_at (i : Z) : W XResourceId :=
  raw ← u32 i; _ ← validate_new_resource_id c raw; mret (resource_id raw).
(** A text of [n] bytes behind a header, padded to the end of the request. *)
Definition text_at (opcode header n : Z) : W (list Z) :=
  let expected := header + padded_len n in
  _ ← exact opcode expected;
  text ← slice bytes header (header + n);
  _ ← w_guard (utf8_ok text) (WpInvalidLength opcode expected len);
  mret text.
(** What is left behind a header, in chunks of [n] bytes; the error names the length [expected] gives
    for what is left. *)
Definition chunks_after (opcode header : Z) (n : nat) (expected : Z → Z) : W (list (list Z)) :=
  _ ← require_len opcode header len;
  rest ← slice bytes header len;
  _ ← w_guard (str_len rest `mod` Z.of_nat n = 0) (WpInvalidLength opcode (expected (str_len rest)) len);
  mret (chunks_exact n rest).
Definition rects_after (opcode header : Z) (expected : Z → Z) : W (list Rect) :=
  chunks ← chunks_after opcode header 8 expected; mapM (rect_at order) chunks.
Definition rounded (header unit left : Z) : Z := header + round_up unit left.

(** ** Windows *)

Definition decode_create_window : W XWireRequest :=
  _ ← require_len X_CREATE_WINDOW X_CREATE_WINDOW_REQ_LEN len;
  value_mask ← u32 28;
  _ ← exact X_CREATE_WINDOW (X_CREATE_WINDOW_REQ_LEN + count_ones value_mask * 4);
  values ← values_at order bytes (seqZ 0 15) value_mask X_CREATE_WINDOW_REQ_LEN;
  window_raw ← u32 4;
  _ ← validate_new_resource_id c window_raw;
  x ← i16 12; y ← i16 14; width ← u16 16; height ← u16 18;
  parent ← id 8; depth ← u8 1; visual ← u32 24;
  mret (ReqCreateWindow
    (mk_request (wc_transaction c) (wc_namespace c)
       (CreateWindow (resource_id window_raw) (surface_id window_raw 1) (mk_rect x y width height)
          (mk_constraints None None) 1))
    parent depth visual (resource_id <$> value_of values 13) (value_of values 1) (value_of values 11)
    (value_of values 12)).

Definition decode_change_window_attributes : W XWireRequest :=
  _ ← require_len X_CHANGE_WINDOW_ATTRIBUTES X_CHANGE_WINDOW_ATTRIBUTES_REQ_LEN len;
  value_mask ← u32 8;
  _ ← exact X_CHANGE_WINDOW_ATTRIBUTES (X_CHANGE_WINDOW_ATTRIBUTES_REQ_LEN + count_ones value_mask * 4);
  values ← values_at order bytes (seqZ 0 15) value_mask X_CHANGE_WINDOW_ATTRIBUTES_REQ_LEN;
  window ← id 4;
  mret (ReqChangeWindowAttributes window (value_of values 11) (value_of values 12)).

Definition decode_configure_window : W XWireRequest :=
  _ ← require_len X_CONFIGURE_WINDOW X_CONFIGURE_WINDOW_REQ_LEN len;
  value_mask ← u16 8;
  _ ← exact X_CONFIGURE_WINDOW (X_CONFIGURE_WINDOW_REQ_LEN + count_ones value_mask * 4);
  values ← values_at order bytes (seqZ 0 7) value_mask X_CONFIGURE_WINDOW_REQ_LEN;
  window ← id 4;
  mret (ReqConfigureWindow window value_mask (cast_i16 <$> value_of values 0) (cast_i16 <$> value_of values 1)
          (cast_u 16 <$> value_of values 2) (cast_u 16 <$> value_of values 3)
          (resource_id <$> value_of values 5) (cast_u 8 <$> value_of values 6)).

(** Requests that name one window, or one other resource. *)
Definition decode_one_id (opcode req_len : Z) (request : XResourceId → XWireRequest) : W XWireRequest :=
  _ ← exact opcode req_len; i ← id 4; mret (request i).
Definition decode_get_window_attributes :=
  decode_one_id X_GET_WINDOW_ATTRIBUTES X_GET_WINDOW_ATTRIBUTES_REQ_LEN ReqGetWindowAttributes.
Definition decode_destroy_window := decode_one_id X_DESTROY_WINDOW X_DESTROY_WINDOW_REQ_LEN ReqDestroyWindow.
Definition decode_unmap_window := decode_one_id X_UNMAP_WINDOW X_UNMAP_WINDOW_REQ_LEN ReqUnmapWindow.
Definition decode_map_subwindows := decode_one_id X_MAP_SUBWINDOWS X_MAP_SUBWINDOWS_REQ_LEN ReqMapSubwindows.
Definition decode_query_tree := decode_one_id X_QUERY_TREE X_QUERY_TREE_REQ_LEN ReqQueryTree.
Definition decode_get_geometry := decode_one_id X_GET_GEOMETRY X_GET_GEOMETRY_REQ_LEN ReqGetGeometry.
Definition decode_query_pointer := decode_one_id X_QUERY_POINTER X_QUERY_POINTER_REQ_LEN ReqQueryPointer.
Definition decode_list_properties := decode_one_id X_LIST_PROPERTIES X_LIST_PROPERTIES_REQ_LEN ReqListProperties.
Definition decode_close_font := decode_one_id X_CLOSE_FONT X_CLOSE_FONT_REQ_LEN ReqCloseFont.
Definition decode_query_font := decode_one_id X_QUERY_FONT X_QUERY_FONT_REQ_LEN ReqQueryFont.
Definition decode_free_pixmap := decode_one_id X_FREE_PIXMAP X_FREE_PIXMAP_REQ_LEN ReqFreePixmap.
Definition decode_free_gc := decode_one_id X_FREE_GC X_FREE_GC_REQ_LEN ReqFreeGraphicsContext.
Definition decode_free_colormap := decode_one_id X_FREE_COLORMAP X_FREE_COLORMAP_REQ_LEN ReqFreeColormap.
Definition decode_free_cursor := decode_one_id X_FREE_CURSOR X_FREE_CURSOR_REQ_LEN ReqFreeCursor.
Definition decode_recolor_cursor := decode_one_id X_RECOLOR_CURSOR X_RECOLOR_CURSOR_REQ_LEN ReqRecolorCursor.
(** Requests that are only their opcode. *)
Definition decode_bare (opcode req_len : Z) (request : XWireRequest) : W XWireRequest :=
  _ ← exact opcode req_len; mret request.
Definition decode_get_input_focus := decode_bare X_GET_INPUT_FOCUS X_GET_INPUT_FOCUS_REQ_LEN ReqGetInputFocus.
Definition decode_get_keyboard_control := decode_bare X_GET_KEYBOARD_CONTROL 4 ReqGetKeyboardControl.
Definition decode_bell := decode_bare X_BELL 4 ReqBell.
Definition decode_list_extensions := decode_bare X_LIST_EXTENSIONS X_LIST_EXTENSIONS_REQ_LEN ReqListExtensions.
Definition decode_get_modifier_mapping :=
  decode_bare X_GET_MODIFIER_MAPPING X_GET_MODIFIER_MAPPING_REQ_LEN ReqGetModifierMapping.
Definition decode_grab_server := decode_bare X_GRAB_SERVER X_GRAB_SERVER_REQ_LEN ReqGrabServer.
Definition decode_ungrab_server := decode_bare X_UNGRAB_SERVER X_UNGRAB_SERVER_REQ_LEN ReqUngrabServer.

Definition decode_map_window : W XWireRequest :=
  decode_one_id X_MAP_WINDOW X_MAP_WINDOW_REQ_LEN (λ window,
    ReqAuthority (mk_request (wc_transaction c) (wc_namespace c) (MapWindow window 2))).
Definition decode_reparent_window : W XWireRequest :=
  _ ← exact X_REPARENT_WINDOW X_REPARENT_WINDOW_REQ_LEN;
  window ← id 4; parent ← id 8; x ← i16 12; y ← i16 14; mret (ReqReparentWindow window parent x y).
Definition decode_translate_coordinates : W XWireRequest :=
  _ ← exact X_TRANSLATE_COORDINATES X_TRANSLATE_COORDINATES_REQ_LEN;
  source ← id 4; destination ← id 8; x ← i16 12; y ← i16 14;
  mret (ReqTranslateCoordinates source destination x y).
Definition decode_set_input_focus : W XWireRequest :=
  _ ← exact X_SET_INPUT_FOCUS X_SET_INPUT_FOCUS_REQ_LEN;
  revert_to ← u8 1;
  _ ← w_guard (revert_to ≤ 2) (WpInvalidValue revert_to);
  focus ← id 4; time ← u32 8; mret (ReqSetInputFocus focus revert_to time).
Definition decode_get_keyboard_mapping : W XWireRequest :=
  _ ← exact X_GET_KEYBOARD_MAPPING X_GET_KEYBOARD_MAPPING_REQ_LEN;
  first_keycode ← u8 4; count ← u8 5; mret (ReqGetKeyboardMapping first_keycode count).

(** ** Atoms, properties and selections *)

Definition decode_intern_atom : W XWireRequest :=
  _ ← require_len X_INTERN_ATOM X_INTERN_ATOM_REQ_LEN len;
  name_len ← u16 4;
  name ← text_at X_INTERN_ATOM X_INTERN_ATOM_REQ_LEN name_len;
  only_if_exists ← u8 1; mret (ReqInternAtom (flag only_if_exists) name).
Definition decode_get_atom_name : W XWireRequest :=
  _ ← exact X_GET_ATOM_NAME X_GET_ATOM_NAME_REQ_LEN; atom ← u32 4; mret (ReqGetAtomName atom).
Definition property_mode (mode : Z) : W XPropertyMode :=
  match mode with
  | 0 => mret Replace | 1 => mret Prepend | 2 => mret Append
  | other => w_fail (WpInvalidPropertyMode other)
  end.
Definition decode_change_property : W XWireRequest :=
  _ ← require_len X_CHANGE_PROPERTY X_CHANGE_PROPERTY_REQ_LEN len;
  mode ← u8 1; mode ← property_mode mode;
  format ← u8 16; _ ← validate_wire_property_format format;
  units ← u32 20;
  let value_len := units * (format / 8) in
  _ ← w_guard (value_len ≤ usize_MAX) (WpPropertyValueTooLarge usize_MAX X_PROPERTY_MAX_VALUE_BYTES);
  _ ← w_guard (value_len ≤ X_PROPERTY_MAX_VALUE_BYTES)
        (WpPropertyValueTooLarge value_len X_PROPERTY_MAX_VALUE_BYTES);
  _ ← exact X_CHANGE_PROPERTY (X_CHANGE_PROPERTY_REQ_LEN + padded_len value_len);
  window ← id 4; property ← u32 8; property_type ← u32 12;
  value ← slice bytes X_CHANGE_PROPERTY_REQ_LEN (X_CHANGE_PROPERTY_REQ_LEN + value_len);
  mret (ReqChangeProperty (mk_property_change mode window property property_type format value)).
Definition decode_delete_property : W XWireRequest :=
  _ ← exact X_DELETE_PROPERTY X_DELETE_PROPERTY_REQ_LEN;
  window ← id 4; property ← u32 8; mret (ReqDeleteProperty window property).
Definition decode_get_property : W XWireRequest :=
  _ ← exact X_GET_PROPERTY X_GET_PROPERTY_REQ_LEN;
  delete ← u8 1; window ← id 4; property ← u32 8; property_type ← u32 12;
  long_offset ← u32 16; long_length ← u32 20;
  mret (ReqGetProperty (mk_property_read (flag delete) window property property_type long_offset long_length)).
Definition decode_set_selection_owner : W XWireRequest :=
  _ ← exact X_SET_SELECTION_OWNER X_SET_SELECTION_OWNER_REQ_LEN;
  owner_raw ← u32 4; selection ← u32 8; time ← u32 12;
  let owner := optional_id owner_raw in
  mret (ReqAuthority (mk_request (wc_transaction c) (wc_namespace c)
          (SetSelectionOwner selection owner time time (if owner then SetOwner else ClearOwner)))).
Definition decode_get_selection_owner : W XWireRequest :=
  _ ← exact X_GET_SELECTION_OWNER X_GET_SELECTION_OWNER_REQ_LEN;
  selection ← u32 4; mret (ReqGetSelectionOwner selection).
Definition decode_convert_selection : W XWireRequest :=
  _ ← exact X_CONVERT_SELECTION X_CONVERT_SELECTION_REQ_LEN;
  target ← u32 12; requestor ← id 4; selection ← u32 8; property ← u32 16; time ← u32 20;
  mret (ReqAuthority (mk_request (wc_transaction c) (wc_namespace c)
          (RequestSelection requestor selection target (str "atom:" ++ str (pretty target)) property time
             (from_raw (raw (wc_transaction c)))))).
Definition decode_send_event : W XWireRequest :=
  _ ← exact X_SEND_EVENT X_SEND_EVENT_REQ_LEN;
  type_ ← u8 12;
  let event_type := Z.land type_ 127 in
  _ ← w_guard (9 ≤ event_type) (WpInvalidEventType event_type);
  destination ← id 4; event_mask ← u32 8;
  if decide (event_type ≠ 31) then
    event ← slice bytes 12 44; mret (ReqSendSelectionNotify destination event_mask (EventClientMessage 0 event))
  else
    requestor ← id 20; time ← u32 16; selection ← u32 24; target ← u32 28; property ← u32 32;
    mret (ReqSendSelectionNotify destination event_mask
            (EventSelectionNotify 0 time requestor selection target property)).

(** ** Grabs *)

Definition decode_grab_button : W XWireRequest :=
  _ ← exact X_GRAB_BUTTON X_GRAB_BUTTON_REQ_LEN;
  window ← id 4; event_mask ← u16 8; button ← u8 20; modifiers ← u16 22; owner_events ← u8 1;
  pointer_mode ← u8 10; keyboard_mode ← u8 11;
  mret (ReqGrabButton window event_mask button modifiers (flag owner_events) pointer_mode keyboard_mode).
Definition decode_grab_pointer : W XWireRequest :=
  _ ← exact X_GRAB_POINTER X_GRAB_POINTER_REQ_LEN;
  window ← id 4; event_mask ← u16 8; owner_events ← u8 1; pointer_mode ← u8 10; keyboard_mode ← u8 11;
  time ← u32 20;
  mret (ReqGrabPointer window event_mask (flag owner_events) pointer_mode keyboard_mode time).
Definition decode_ungrab_pointer : W XWireRequest :=
  _ ← exact X_UNGRAB_POINTER X_UNGRAB_POINTER_REQ_LEN; time ← u32 4; mret (ReqUngrabPointer time).
Definition decode_ungrab_button : W XWireRequest :=
  _ ← exact X_UNGRAB_BUTTON X_UNGRAB_BUTTON_REQ_LEN;
  window ← id 4; button ← u8 1; modifiers ← u16 8; mret (ReqUngrabButton window button modifiers).
Definition decode_grab_keyboard : W XWireRequest :=
  _ ← exact X_GRAB_KEYBOARD X_GRAB_KEYBOARD_REQ_LEN;
  window ← id 4; owner_events ← u8 1; time ← u32 8; pointer_mode ← u8 12; keyboard_mode ← u8 13;
  mret (ReqGrabKeyboard window (flag owner_events) pointer_mode keyboard_mode time).
Definition decode_ungrab_keyboard : W XWireRequest :=
  _ ← exact X_UNGRAB_KEYBOARD X_UNGRAB_KEYBOARD_REQ_LEN; time ← u32 4; mret (ReqUngrabKeyboard time).
Definition decode_grab_key : W XWireRequest :=
  _ ← exact X_GRAB_KEY X_GRAB_KEY_REQ_LEN;
  window ← id 4; modifiers ← u16 8; key ← u8 10; pointer_mode ← u8 11; keyboard_mode ← u8 12; owner_events ← u8 1;
  mret (ReqGrabKey window key modifiers (flag owner_events) pointer_mode keyboard_mode).
Definition decode_ungrab_key : W XWireRequest :=
  _ ← exact X_UNGRAB_KEY X_UNGRAB_KEY_REQ_LEN;
  window ← id 4; key ← u8 1; modifiers ← u16 8; mret (ReqUngrabKey window key modifiers).
Definition decode_allow_events : W XWireRequest :=
  _ ← exact X_ALLOW_EVENTS X_ALLOW_EVENTS_REQ_LEN; mode ← u8 1; time ← u32 4; mret (ReqAllowEvents mode time).

(** ** Graphics contexts, fonts, pixmaps, colours and cursors *)

Definition gc_value (v : XGraphicsContextValues) (p : Z * Z) : XGraphicsContextValues :=
  let set function plane_mask foreground background line_width fill_style font clip_x clip_y :=
    mk_gc_values function plane_mask foreground background line_width fill_style font clip_x clip_y
      (gc_clip_rectangles v) in
  let '(function, plane_mask, foreground, background) :=
    (gc_function v, gc_plane_mask v, gc_foreground v, gc_background v) in
  let '(line_width, fill_style, font, clip_x, clip_y) :=
    (gc_line_width v, gc_fill_style v, gc_font v, gc_clip_x_origin v, gc_clip_y_origin v) in
  let '(bit, value) := p in
  match bit with
  | 0 => set (at_most u8_MAX value) plane_mask foreground background line_width fill_style font clip_x clip_y
  | 1 => set function value foreground background line_width fill_style font clip_x clip_y
  | 2 => set function plane_mask value background line_width fill_style font clip_x clip_y
  | 3 => set function plane_mask foreground value line_width fill_style font clip_x clip_y
  | 4 => set function plane_mask foreground background (at_most u16_MAX value) fill_style font clip_x clip_y
  | 8 => set function plane_mask foreground background line_width (at_most u8_MAX value) font clip_x clip_y
  | 14 => set function plane_mask foreground background line_width fill_style (optional_id value) clip_x clip_y
  | 17 => set function plane_mask foreground background line_width fill_style font (cast_i16 value) clip_y
  | 18 => set function plane_mask foreground background line_width fill_style font clip_x (cast_i16 value)
  | _ => v
  end.
Definition GC_VALUES : Z := 8388607.
Definition decode_create_gc : W XWireRequest :=
  _ ← require_len X_CREATE_GC X_CREATE_GC_REQ_LEN len;
  gc ← new_id_at 4;
  value_mask ← u32 12;
  _ ← w_guard (Z.land value_mask (Z.lnot GC_VALUES) = 0) (WpInvalidLength X_CREATE_GC X_CREATE_GC_REQ_LEN len);
  _ ← exact X_CREATE_GC (X_CREATE_GC_REQ_LEN + count_ones value_mask * 4);
  values ← values_at order bytes (seqZ 0 23) value_mask X_CREATE_GC_REQ_LEN;
  drawable ← id 8;
  mret (ReqCreateGraphicsContext gc drawable (foldl gc_value gc_default values)).
Definition decode_change_gc : W XWireRequest :=
  _ ← require_len X_CHANGE_GC X_CHANGE_GC_REQ_LEN len;
  value_mask ← u32 8;
  _ ← w_guard (Z.land value_mask (Z.lnot GC_VALUES) = 0) (WpInvalidValue value_mask);
  _ ← exact X_CHANGE_GC (X_CHANGE_GC_REQ_LEN + count_ones value_mask * 4);
  values ← values_at order bytes (seqZ 0 23) value_mask X_CHANGE_GC_REQ_LEN;
  gc ← id 4;
  mret (ReqChangeGraphicsContext gc value_mask (foldl gc_value gc_default values)).
Definition decode_set_clip_rectangles : W XWireRequest :=
  rectangles ← rects_after X_SET_CLIP_RECTANGLES X_SET_CLIP_RECTANGLES_REQ_LEN
                 (rounded X_SET_CLIP_RECTANGLES_REQ_LEN 8);
  gc ← id 4; mret (ReqSetClipRectangles gc rectangles).

Definition decode_open_font : W XWireRequest :=
  _ ← require_len X_OPEN_FONT X_OPEN_FONT_REQ_LEN len;
  name_len ← u16 8;
  name ← text_at X_OPEN_FONT X_OPEN_FONT_REQ_LEN name_len;
  font ← new_id_at 4; mret (ReqOpenFont font name).
Definition decode_list (opcode req_len : Z) (request : Z → list Z → XWireRequest) : W XWireRequest :=
  _ ← require_len opcode req_len len;
  pattern_len ← u16 6;
  pattern ← text_at opcode req_len pattern_len;
  max_names ← u16 4; mret (request max_names pattern).
Definition decode_list_fonts := decode_list X_LIST_FONTS X_LIST_FONTS_REQ_LEN ReqListFonts.
Definition decode_list_fonts_with_info :=
  decode_list X_LIST_FONTS_WITH_INFO X_LIST_FONTS_WITH_INFO_REQ_LEN ReqListFontsWithInfo.
Definition decode_query_extension : W XWireRequest :=
  _ ← require_len X_QUERY_EXTENSION X_QUERY_EXTENSION_REQ_LEN len;
  name_len ← u16 4;
  name ← text_at X_QUERY_EXTENSION X_QUERY_EXTENSION_REQ_LEN name_len; mret (ReqQueryExtension name).

Definition decode_create_pixmap : W XWireRequest :=
  _ ← exact X_CREATE_PIXMAP X_CREATE_PIXMAP_REQ_LEN;
  pixmap ← new_id_at 4;
  depth ← u8 1; drawable ← id 8; width ← u16 12; height ← u16 14;
  mret (ReqCreatePixmap depth pixmap drawable width height).
Definition decode_query_best_size : W XWireRequest :=
  _ ← exact X_QUERY_BEST_SIZE X_QUERY_BEST_SIZE_REQ_LEN;
  class ← u8 1; drawable ← id 4; width ← u16 8; height ← u16 10;
  mret (ReqQueryBestSize class drawable width height).
Definition decode_query_colors : W XWireRequest :=
  _ ← require_len X_QUERY_COLORS X_QUERY_COLORS_REQ_LEN len;
  chunks ← chunks_after X_QUERY_COLORS X_QUERY_COLORS_REQ_LEN 4 (rounded X_QUERY_COLORS_REQ_LEN 4);
  _ ← w_guard (Z.of_nat (length chunks) ≤ X_QUERY_COLORS_MAX_PIXELS)
        (WpPropertyValueTooLarge (len - X_QUERY_COLORS_REQ_LEN) (X_QUERY_COLORS_MAX_PIXELS * 4));
  colormap ← id 4;
  mret (ReqQueryColors colormap (ordered order <$> chunks)).
Definition decode_create_colormap : W XWireRequest :=
  _ ← exact X_CREATE_COLORMAP X_CREATE_COLORMAP_REQ_LEN;
  colormap ← new_id_at 4; window ← id 8; visual ← u32 12; mret (ReqCreateColormap colormap window visual).
Definition decode_alloc_color : W XWireRequest :=
  _ ← exact X_ALLOC_COLOR X_ALLOC_COLOR_REQ_LEN;
  colormap ← id 4; red ← u16 8; green ← u16 10; blue ← u16 12; mret (ReqAllocColor colormap red green blue).
Definition decode_alloc_named_color : W XWireRequest :=
  _ ← require_len X_ALLOC_NAMED_COLOR X_ALLOC_NAMED_COLOR_REQ_LEN len;
  name_len ← u16 8;
  _ ← w_guard (name_len ≤ X_ALLOC_NAMED_COLOR_MAX_NAME_BYTES)
        (WpPropertyValueTooLarge name_len X_ALLOC_NAMED_COLOR_MAX_NAME_BYTES);
  name ← text_at X_ALLOC_NAMED_COLOR X_ALLOC_NAMED_COLOR_REQ_LEN name_len;
  colormap ← id 4; mret (ReqAllocNamedColor colormap name).
Definition decode_create_cursor : W XWireRequest :=
  _ ← exact X_CREATE_CURSOR X_CREATE_CURSOR_REQ_LEN;
  cursor ← new_id_at 4; mask ← u32 12; source ← id 8; mret (ReqCreateCursor cursor source (optional_id mask)).
Definition decode_create_glyph_cursor : W XWireRequest :=
  _ ← exact X_CREATE_GLYPH_CURSOR X_CREATE_GLYPH_CURSOR_REQ_LEN;
  cursor ← new_id_at 4; mask_font ← u32 12; source_font ← id 8;
  mret (ReqCreateGlyphCursor cursor source_font (optional_id mask_font)).

(** ** Drawing *)

Definition decode_clear_area : W XWireRequest :=
  _ ← exact X_CLEAR_AREA X_CLEAR_AREA_REQ_LEN;
  exposures ← u8 1; window ← id 4; x ← i16 8; y ← i16 10; width ← u16 12; height ← u16 14;
  mret (ReqClearArea (flag exposures) window x y width height).
Definition decode_copy_area : W XWireRequest :=
  _ ← exact X_COPY_AREA X_COPY_AREA_REQ_LEN;
  source ← id 4; destination ← id 8; gc ← id 12; src_x ← i16 16; src_y ← i16 18; dst_x ← i16 20; dst_y ← i16 22;
  width ← u16 24; height ← u16 26;
  mret (ReqCopyArea source destination gc src_x src_y dst_x dst_y width height).
Definition segment_damage (segment : list Z) : W Rect :=
  x1 ← i16_at order segment 0; y1 ← i16_at order segment 2;
  x2 ← i16_at order segment 4; y2 ← i16_at order segment 6;
  let x := Z.min x1 x2 in let y := Z.min y1 y2 in
  mret (mk_rect x y (i32_saturating_add (i32_saturating_sub (Z.max x1 x2) x) 1)
          (i32_saturating_add (i32_saturating_sub (Z.max y1 y2) y) 1)).
Definition decode_poly_segment : W XWireRequest :=
  chunks ← chunks_after X_POLY_SEGMENT X_POLY_SEGMENT_REQ_LEN 8 (rounded X_POLY_SEGMENT_REQ_LEN 8);
  damage ← mapM segment_damage chunks;
  drawable ← id 4; gc ← id 8; mret (ReqPolySegment drawable gc damage).
Definition xpoint_at (point : list Z) : W XPoint :=
  x ← i16_at order point 0; y ← i16_at order point 2; mret (mk_xpoint x y).
Definition i16_saturating_add (a b : Z) : Z := Z.max (-32768) (Z.min (a + b) 32767).
(** The points so far and the last of them: in mode 1 a point is relative to the one before. *)
Definition add_point (relative : bool) (s : list XPoint * XPoint) (p : XPoint) : list XPoint * XPoint :=
  let '(points, previous) := s in
  let decoded :=
    if decide (relative = true ∧ points ≠ [])
    then mk_xpoint (i16_saturating_add (xp_x previous) (xp_x p)) (i16_saturating_add (xp_y previous) (xp_y p))
    else p in
  (points ++ [decoded], decoded).
Definition decode_poly_line : W XWireRequest :=
  chunks ← chunks_after X_POLY_LINE X_POLY_LINE_REQ_LEN 4 (rounded X_POLY_LINE_REQ_LEN 4);
  points ← mapM xpoint_at chunks;
  mode ← u8 1; drawable ← id 4; gc ← id 8;
  mret (ReqPolyLine drawable gc (foldl (add_point (bool_decide (mode = 1))) ([], mk_xpoint 0 0) points).1).
Definition grow_bounds (s : Z * Z * Z * Z) (p : XPoint) : Z * Z * Z * Z :=
  let '(min_x, min_y, max_x, max_y) := s in
  (Z.min min_x (xp_x p), Z.min min_y (xp_y p), Z.max max_x (xp_x p), Z.max max_y (xp_y p)).
Definition point_damage_bounds (points : list XPoint) : option Rect :=
  let '(min_x, min_y, max_x, max_y) := foldl grow_bounds (i32_MAX, i32_MAX, i32_MIN, i32_MIN) points in
  if decide (min_x = i32_MAX) then None
  else Some (mk_rect min_x min_y (i32_saturating_add (i32_saturating_sub max_x min_x) 1)
               (i32_saturating_add (i32_saturating_sub max_y min_y) 1)).
Definition decode_fill_poly : W XWireRequest :=
  chunks ← chunks_after X_FILL_POLY X_FILL_POLY_REQ_LEN 4 (rounded X_FILL_POLY_REQ_LEN 4);
  points ← mapM xpoint_at chunks;
  drawable ← id 4; gc ← id 8; mret (ReqFillPoly drawable gc (point_damage_bounds points)).
Definition decode_poly_fill_rectangle : W XWireRequest :=
  rectangles ← rects_after X_POLY_FILL_RECTANGLE X_POLY_FILL_RECTANGLE_REQ_LEN
                 (rounded X_POLY_FILL_RECTANGLE_REQ_LEN 8);
  drawable ← id 4; gc ← id 8; mret (ReqPolyFillRectangle drawable gc rectangles).
Definition arc_damage_bounds (opcode header_len : Z) : W (list Rect) :=
  chunks ← chunks_after opcode header_len 12 (λ left, header_len + (left + 11) / 12 * 12);
  mapM (rect_at order) chunks.
Definition decode_poly_fill_arc : W XWireRequest :=
  damage ← arc_damage_bounds X_POLY_FILL_ARC X_POLY_FILL_ARC_REQ_LEN;
  drawable ← id 4; gc ← id 8; mret (ReqPolyFillArc drawable gc damage).
Definition decode_put_image : W XWireRequest :=
  _ ← require_len X_PUT_IMAGE X_PUT_IMAGE_REQ_LEN len;
  format ← u8 1; _ ← validate_wire_image_format format;
  _ ← w_guard (len - X_PUT_IMAGE_REQ_LEN ≤ X_PUT_IMAGE_MAX_DATA_BYTES)
        (WpPropertyValueTooLarge (len - X_PUT_IMAGE_REQ_LEN) X_PUT_IMAGE_MAX_DATA_BYTES);
  drawable ← id 4; gc ← id 8; width ← u16 12; height ← u16 14; dst_x ← i16 16; dst_y ← i16 18;
  left_pad ← u8 20; depth ← u8 21; data ← slice bytes X_PUT_IMAGE_REQ_LEN len;
  mret (ReqPutImage format drawable gc width height dst_x dst_y left_pad depth data).
Definition decode_get_image : W XWireRequest :=
  _ ← exact X_GET_IMAGE X_GET_IMAGE_REQ_LEN;
  format ← u8 1; _ ← validate_wire_image_format format;
  width ← u16 12; height ← u16 14;
  let byte_len := width * height * 4 in
  _ ← w_guard (byte_len ≤ usize_MAX) (WpPropertyValueTooLarge usize_MAX X_PUT_IMAGE_MAX_DATA_BYTES);
  _ ← w_guard (byte_len ≤ X_PUT_IMAGE_MAX_DATA_BYTES)
        (WpPropertyValueTooLarge byte_len X_PUT_IMAGE_MAX_DATA_BYTES);
  drawable ← id 4; x ← i16 8; y ← i16 10; plane_mask ← u32 16;
  mret (ReqGetImage format drawable x y width height plane_mask).

(** The items of a text request: font changes are skipped, the rest is text behind its length and
    its displacement.  The fuel is the number of bytes: every round reads one. *)
Fixpoint text_items (fuel : nat) (items : list Z) (offset : Z) (text : list Z) : W (list Z) :=
  match fuel with
  | O => if decide (offset < str_len items) then None else mret text
  | S fuel =>
      if decide (offset < str_len items) then
        glyph_len ← byte_at items offset;
        let offset := offset + 1 in
        rest ← slice items offset (str_len items);
        if decide (glyph_len = 0 ∧ Forall (λ b, b = 0) rest) then mret text
        else if decide (glyph_len = u8_MAX) then
          _ ← w_guard (4 ≤ str_len items - offset)
                (WpInvalidLength X_POLY_TEXT8 (X_POLY_TEXT8_REQ_LEN + offset + 4) len);
          text_items fuel items (offset + 4) text
        else
          let remaining := str_len items - offset in
          if decide (1 + glyph_len ≤ remaining) then
            glyphs ← slice items (offset + 1) (offset + 1 + glyph_len);
            text_items fuel items (offset + 1 + glyph_len) (text ++ glyphs)
          else if decide (remaining = glyph_len ∧ 0 < glyph_len) then
            glyphs ← slice items (offset + 1) (offset + 1 + glyph_len - 1);
            text_items fuel items (offset + 1 + (glyph_len - 1)) (text ++ glyphs)
          else
            _ ← w_guard (1 + glyph_len ≤ remaining)
                  (WpInvalidLength X_POLY_TEXT8 (X_POLY_TEXT8_REQ_LEN + offset + (1 + glyph_len)) len);
            text_items fuel items offset text
      else mret text
  end.
Definition decode_poly_text8 : W XWireRequest :=
  _ ← require_len X_POLY_TEXT8 X_POLY_TEXT8_REQ_LEN len;
  items ← slice bytes X_POLY_TEXT8_REQ_LEN len;
  _ ← w_guard (str_len items ≤ X_POLY_TEXT8_MAX_BYTES)
        (WpPropertyValueTooLarge (str_len items) X_POLY_TEXT8_MAX_BYTES);
  text ← text_items (length items) items 0 [];
  drawable ← id 4; gc ← id 8; x ← i16 12; y ← i16 14; mret (ReqPolyText8 drawable gc x y text).
Definition decode_image_text8 : W XWireRequest :=
  _ ← require_len X_IMAGE_TEXT8 X_IMAGE_TEXT8_REQ_LEN len;
  text_len ← u8 1;
  _ ← w_guard (text_len ≤ X_IMAGE_TEXT8_MAX_BYTES) (WpPropertyValueTooLarge text_len X_IMAGE_TEXT8_MAX_BYTES);
  _ ← exact X_IMAGE_TEXT8 (X_IMAGE_TEXT8_REQ_LEN + padded_len text_len);
  drawable ← id 4; gc ← id 8; x ← i16 12; y ← i16 14;
  text ← slice bytes X_IMAGE_TEXT8_REQ_LEN (X_IMAGE_TEXT8_REQ_LEN + text_len);
  mret (ReqImageText8 drawable gc x y text).

(** ** Extensions *)

(** [match key { ... }] over opcodes. *)
Definition by_opcode (table : list (Z * W XWireRequest)) (key : Z) (otherwise : W XWireRequest) : W XWireRequest :=
  from_option snd otherwise (find_first (λ p : Z * W XWireRequest, p.1 = key) table).
Definition unknown_minor : W XWireRequest := minor ← u8 1; w_fail (WpUnknownOpcode minor).
Definition unknown_major : W XWireRequest := major ← u8 0; w_fail (WpUnknownOpcode major).
Definition decode_extension_query_version (major_opcode minor_opcode : Z) (request : Z → Z → XWireRequest) :
    W XWireRequest :=
  _ ← exact major_opcode 12;
  minor ← u8 1;
  _ ← w_guard (minor = minor_opcode) (WpUnknownOpcode minor);
  major_version ← u32 4; minor_version ← u32 8; mret (request major_version minor_version).

Notation glx n := (exact X_GLX_MAJOR_OPCODE n).
(** Attribute lists of pairs of words behind a header. *)
Definition glx_attributes (header count_at : Z) : W unit :=
  _ ← require_len X_GLX_MAJOR_OPCODE header len;
  count ← u32 count_at; glx (header + count * 8).
Definition glx_context_request (fbconfig_at screen_at share_at direct_at : Z) : W XWireRequest :=
  context ← new_id_at 4; share ← u32 share_at; fbconfig ← u32 fbconfig_at; screen ← u32 screen_at;
  direct ← u8 direct_at;
  mret (ReqGlxCreateContext context fbconfig screen (optional_id share) (flag direct)).
Definition decode_glx : W XWireRequest :=
  minor ← u8 1;
  let client_info := _ ← require_len X_GLX_MAJOR_OPCODE 16 len; mret ReqGlxClientInfo in
  by_opcode [
    (X_GLX_QUERY_VERSION_MINOR_OPCODE,
      _ ← glx 12; major ← u32 4; minor ← u32 8; mret (ReqGlxQueryVersion major minor));
    (X_GLX_GET_VISUAL_CONFIGS_MINOR_OPCODE, _ ← glx 8; screen ← u32 4; mret (ReqGlxGetVisualConfigs screen));
    (X_GLX_QUERY_EXTENSIONS_STRING_MINOR_OPCODE, _ ← glx 8; mret ReqGlxQueryExtensionsString);
    (X_GLX_QUERY_SERVER_STRING_MINOR_OPCODE, _ ← glx 12; name ← u32 8; mret (ReqGlxQueryServerString name));
    (X_GLX_GET_FB_CONFIGS_MINOR_OPCODE, _ ← glx 8; screen ← u32 4; mret (ReqGlxGetFbConfigs screen));
    (X_GLX_CLIENT_INFO_MINOR_OPCODE, client_info);
    (X_GLX_SET_CLIENT_INFO_ARB_MINOR_OPCODE, client_info);
    (X_GLX_SET_CLIENT_INFO_2_ARB_MINOR_OPCODE, client_info);
    (X_GLX_DESTROY_CONTEXT_MINOR_OPCODE, _ ← glx 8; context ← id 4; mret (ReqGlxDestroyContext context));
    (X_GLX_IS_DIRECT_MINOR_OPCODE, _ ← glx 8; context ← id 4; mret (ReqGlxIsDirect context));
    (X_GLX_CREATE_NEW_CONTEXT_MINOR_OPCODE, _ ← glx 28; glx_context_request 8 12 20 24);
    (X_GLX_CREATE_CONTEXT_ATTRIBS_ARB_MINOR_OPCODE,
      _ ← glx_attributes 28 24; glx_context_request 8 12 16 20);
    (X_GLX_CREATE_WINDOW_MINOR_OPCODE,
      _ ← glx_attributes 24 20; glx_window ← new_id_at 16; screen ← u32 4; fbconfig ← u32 8; window ← id 12;
      mret (ReqGlxCreateWindow screen fbconfig window glx_window));
    (X_GLX_DELETE_WINDOW_MINOR_OPCODE, _ ← glx 8; glx_window ← id 4; mret (ReqGlxDeleteWindow glx_window));
    (X_GLX_GET_DRAWABLE_ATTRIBUTES_MINOR_OPCODE,
      _ ← glx 8; drawable ← id 4; mret (ReqGlxGetDrawableAttributes drawable))
  ] minor unknown_minor.

Notation xfixes n := (exact X_XFIXES_MAJOR_OPCODE n).
Definition xfixes_chunks : W (list (list Z)) := chunks_after X_XFIXES_MAJOR_OPCODE 8 8 (λ _, 8).
Definition decode_xfixes : W XWireRequest :=
  minor ← u8 1;
  by_opcode [
    (X_XFIXES_QUERY_VERSION_MINOR_OPCODE,
      decode_extension_query_version X_XFIXES_MAJOR_OPCODE X_XFIXES_QUERY_VERSION_MINOR_OPCODE ReqXfixesQueryVersion);
    (X_XFIXES_SELECT_SELECTION_INPUT_MINOR_OPCODE,
      _ ← xfixes 16; window ← id 4; selection ← u32 8; event_mask ← u32 12;
      mret (ReqXfixesSelectSelectionInput window selection event_mask));
    (X_XFIXES_CREATE_REGION_MINOR_OPCODE,
      chunks ← xfixes_chunks; region ← new_id_at 4; rectangles ← mapM (rect_at order) chunks;
      mret (ReqXfixesCreateRegion region rectangles));
    (X_XFIXES_SET_REGION_MINOR_OPCODE,
      chunks ← xfixes_chunks; rectangles ← mapM (rect_at order) chunks; region ← id 4;
      mret (ReqXfixesSetRegion region rectangles));
    (X_XFIXES_DESTROY_REGION_MINOR_OPCODE, _ ← xfixes 8; region ← id 4; mret (ReqXfixesDestroyRegion region))
  ] minor unknown_minor.

Notation dri3 n := (exact X_DRI3_MAJOR_OPCODE n).
Definition decode_dri3_pixmap_from_buffers : W XWireRequest :=
  _ ← dri3 64;
  pixmap ← new_id_at 4;
  num_buffers ← u8 12;
  _ ← w_guard (num_buffers ≠ 0 ∧ num_buffers ≤ Z.of_nat DMA_BUF_MAX_PLANES) (WpInvalidValue num_buffers);
  window ← id 8; width ← u16 16; height ← u16 18;
  stride0 ← u32 20; stride1 ← u32 28; stride2 ← u32 36; stride3 ← u32 44;
  offset0 ← u32 24; offset1 ← u32 32; offset2 ← u32 40; offset3 ← u32 48;
  depth ← u8 52; bits_per_pixel ← u8 53; modifier ← u64 56;
  mret (ReqDri3PixmapFromBuffers pixmap window num_buffers width height [stride0; stride1; stride2; stride3]
          [offset0; offset1; offset2; offset3] depth bits_per_pixel modifier).
Definition decode_dri3 : W XWireRequest :=
  minor ← u8 1;
  by_opcode [
    (X_DRI3_QUERY_VERSION_MINOR_OPCODE,
      decode_extension_query_version X_DRI3_MAJOR_OPCODE X_DRI3_QUERY_VERSION_MINOR_OPCODE ReqDri3QueryVersion);
    (X_DRI3_OPEN_MINOR_OPCODE, _ ← dri3 12; drawable ← id 4; provider ← u32 8; mret (ReqDri3Open drawable provider));
    (X_DRI3_PIXMAP_FROM_BUFFER_MINOR_OPCODE,
      _ ← dri3 24; pixmap ← new_id_at 4; drawable ← id 8; size_bytes ← u32 12; width ← u16 16; height ← u16 18;
      stride ← u16 20; depth ← u8 22; bits_per_pixel ← u8 23;
      mret (ReqDri3PixmapFromBuffer pixmap drawable size_bytes width height stride depth bits_per_pixel));
    (X_DRI3_FENCE_FROM_FD_MINOR_OPCODE,
      _ ← dri3 16; fence ← new_id_at 8; drawable ← id 4; initially_triggered ← u8 12;
      mret (ReqDri3FenceFromFd drawable fence (flag initially_triggered)));
    (X_DRI3_GET_SUPPORTED_MODIFIERS_MINOR_OPCODE,
      _ ← dri3 12; window ← id 4; depth ← u8 8; bits_per_pixel ← u8 9;
      mret (ReqDri3GetSupportedModifiers window depth bits_per_pixel));
    (X_DRI3_PIXMAP_FROM_BUFFERS_MINOR_OPCODE, decode_dri3_pixmap_from_buffers)
  ] minor unknown_minor.

Notation present n := (exact X_PRESENT_MAJOR_OPCODE n).
Definition present_notify (notify : list Z) : W (XResourceId * Z) :=
  window ← id_at order notify 0; serial ← u32_at order notify 4; mret (window, serial).
Definition decode_present_pixmap : W XWireRequest :=
  chunks ← chunks_after X_PRESENT_MAJOR_OPCODE 72 8 (λ _, 72);
  notifies ← mapM present_notify chunks;
  window ← id 4; pixmap ← id 8; serial ← u32 12; valid_region ← u32 16; update_region ← u32 20;
  x_offset ← i16 24; y_offset ← i16 26; target_crtc ← u32 28; wait_fence ← u32 32; idle_fence ← u32 36;
  options ← u32 40; target_msc ← u64 48; divisor ← u64 56; remainder ← u64 64;
  mret (ReqPresentPixmap (wc_transaction c) window pixmap serial valid_region update_region x_offset y_offset
          target_crtc (optional_id wait_fence) (optional_id idle_fence) options target_msc divisor remainder notifies).
Definition decode_present : W XWireRequest :=
  minor ← u8 1;
  by_opcode [
    (X_PRESENT_QUERY_VERSION_MINOR_OPCODE,
      decode_extension_query_version X_PRESENT_MAJOR_OPCODE X_PRESENT_QUERY_VERSION_MINOR_OPCODE ReqPresentQueryVersion);
    (X_PRESENT_PIXMAP_MINOR_OPCODE, decode_present_pixmap);
    (X_PRESENT_SELECT_INPUT_MINOR_OPCODE,
      _ ← present 16; event_id ← new_id_at 4; window ← id 8; event_mask ← u32 12;
      mret (ReqPresentSelectInput event_id window event_mask));
    (X_PRESENT_QUERY_CAPABILITIES_MINOR_OPCODE, _ ← present 8; target ← id 4; mret (ReqPresentQueryCapabilities target))
  ] minor unknown_minor.

Notation xinput n := (exact X_INPUT_MAJOR_OPCODE n).
Fixpoint event_masks (count : nat) (offset : Z) : W (list (Z * list Z) * Z) :=
  match count with
  | O => mret ([], offset)
  | S count =>
      _ ← w_guard (offset + 4 ≤ len) (WpInvalidLength X_INPUT_MAJOR_OPCODE (offset + 4) len);
      device_id ← u16 offset;
      words ← u16 (offset + 2);
      _ ← w_guard (words ≤ 8) (WpInvalidValue words);
      let end_ := offset + 4 + words * 4 in
      _ ← w_guard (end_ ≤ len) (WpInvalidLength X_INPUT_MAJOR_OPCODE end_ len);
      mask ← slice bytes (offset + 4) end_;
      '(masks, offset) ← event_masks count end_;
      mret ((device_id, ordered order <$> chunks_exact 4 mask) :: masks, offset)
  end.
Definition decode_xi_select_events : W XWireRequest :=
  _ ← require_len X_INPUT_MAJOR_OPCODE X_INPUT_SELECT_EVENTS_REQ_LEN len;
  window ← id 4;
  count ← u16 8;
  _ ← w_guard (count ≤ 16) (WpInvalidValue count);
  '(masks, offset) ← event_masks (Z.to_nat count) X_INPUT_SELECT_EVENTS_REQ_LEN;
  _ ← w_guard (offset = len) (WpTrailingBytes (len - offset));
  mret (ReqXiSelectEvents window masks).
Definition decode_x_input : W XWireRequest :=
  minor ← u8 1;
  by_opcode [
    (X_INPUT_DEVICE_BELL_MINOR_OPCODE, _ ← xinput 8; mret ReqXiDeviceBell);
    (X_INPUT_QUERY_POINTER_MINOR_OPCODE,
      _ ← xinput X_INPUT_QUERY_POINTER_REQ_LEN; window ← id 4; device_id ← u16 8;
      mret (ReqXiQueryPointer window device_id));
    (X_INPUT_CHANGE_CURSOR_MINOR_OPCODE,
      _ ← xinput X_INPUT_CHANGE_CURSOR_REQ_LEN; cursor ← u32 8; window ← id 4;
      mret (ReqXiChangeCursor window (optional_id cursor)));
    (X_INPUT_GET_CLIENT_POINTER_MINOR_OPCODE,
      _ ← xinput X_INPUT_GET_CLIENT_POINTER_REQ_LEN; mret ReqXiGetClientPointer);
    (X_INPUT_UNGRAB_DEVICE_MINOR_OPCODE,
      _ ← xinput X_INPUT_UNGRAB_DEVICE_REQ_LEN; device_id ← u16 8; time ← u32 4;
      mret (ReqXiUngrabDevice device_id time));
    (X_INPUT_GET_EXTENSION_VERSION_MINOR_OPCODE,
      _ ← require_len X_INPUT_MAJOR_OPCODE 8 len; name_len ← u16 4; _ ← xinput (8 + padded_len name_len);
      mret ReqXiGetExtensionVersion);
    (X_INPUT_QUERY_VERSION_MINOR_OPCODE,
      _ ← xinput X_INPUT_QUERY_VERSION_REQ_LEN; major ← u16 4; minor ← u16 6; mret (ReqXiQueryVersion major minor));
    (X_INPUT_QUERY_DEVICE_MINOR_OPCODE,
      _ ← xinput X_INPUT_QUERY_DEVICE_REQ_LEN; device_id ← u16 4; mret (ReqXiQueryDevice device_id));
    (X_INPUT_GET_FOCUS_MINOR_OPCODE,
      _ ← xinput X_INPUT_GET_FOCUS_REQ_LEN; device_id ← u16 4; mret (ReqXiGetFocus device_id));
    (X_INPUT_GET_PROPERTY_MINOR_OPCODE, _ ← xinput X_INPUT_GET_PROPERTY_REQ_LEN; mret ReqXiGetProperty);
    (X_INPUT_SELECT_EVENTS_MINOR_OPCODE, decode_xi_select_events)
  ] minor unknown_major.

Definition decode_big_requests : W XWireRequest :=
  minor ← u8 1;
  if decide (minor = X_BIG_REQUESTS_ENABLE_MINOR_OPCODE) then
    decode_bare X_BIG_REQUESTS_MAJOR_OPCODE X_BIG_REQUESTS_ENABLE_REQ_LEN ReqBigRequestsEnable
  else unknown_major.

Notation xkb n := (exact X_KEYBOARD_MAJOR_OPCODE n).
Definition decode_xkb_select_events : W XWireRequest :=
  _ ← require_len X_KEYBOARD_MAJOR_OPCODE X_KEYBOARD_SELECT_EVENTS_REQ_LEN len;
  affect_which ← u16 6;
  state_details ←
    (if Z.testbit affect_which 2 then
       let offset := 16 + (if Z.testbit affect_which 0 then 4 else 0) in
       if decide (offset + 4 ≤ len) then
         affect ← u16 offset; details ← u16 (offset + 2); mret (Some (affect, details))
       else mret None
     else mret None);
  clear ← u16 8; select_all ← u16 10;
  mret (ReqXkbSelectEvents affect_which clear select_all state_details).
Definition decode_x_keyboard : W XWireRequest :=
  minor ← u8 1;
  by_opcode [
    (X_KEYBOARD_USE_EXTENSION_MINOR_OPCODE,
      _ ← xkb X_KEYBOARD_USE_EXTENSION_REQ_LEN; major ← u16 4; minor ← u16 6; mret (ReqXkbUseExtension major minor));
    (X_KEYBOARD_GET_MAP_MINOR_OPCODE,
      _ ← xkb X_KEYBOARD_GET_MAP_REQ_LEN; full ← u16 6; partial ← u16 8; mret (ReqXkbGetMap full partial));
    (X_KEYBOARD_GET_COMPAT_MAP_MINOR_OPCODE, _ ← xkb 12; device ← u16 4; mret (ReqXkbGetCompatMap device));
    (X_KEYBOARD_GET_INDICATOR_MAP_MINOR_OPCODE, _ ← xkb 12; device ← u16 4; mret (ReqXkbGetIndicatorMap device));
    (X_KEYBOARD_GET_STATE_MINOR_OPCODE, _ ← xkb 8; mret ReqXkbGetState);
    (X_KEYBOARD_GET_CONTROLS_MINOR_OPCODE, _ ← xkb X_KEYBOARD_GET_CONTROLS_REQ_LEN; mret ReqXkbGetControls);
    (X_KEYBOARD_GET_NAMES_MINOR_OPCODE, _ ← xkb 12; which ← u32 8; mret (ReqXkbGetNames which));
    (X_KEYBOARD_GET_DEVICE_INFO_MINOR_OPCODE,
      _ ← xkb 16; device ← u16 4; wanted ← u16 6; mret (ReqXkbGetDeviceInfo device wanted));
    (X_KEYBOARD_SELECT_EVENTS_MINOR_OPCODE, decode_xkb_select_events);
    (X_KEYBOARD_PER_CLIENT_FLAGS_MINOR_OPCODE,
      _ ← xkb X_KEYBOARD_PER_CLIENT_FLAGS_REQ_LEN; change ← u32 8; value ← u32 12;
      mret (ReqXkbPerClientFlags change value))
  ] minor unknown_major.

Notation randr n := (exact X_RANDR_MAJOR_OPCODE n).
Definition randr_window (req_len : Z) (request : XResourceId → XWireRequest) : W XWireRequest :=
  _ ← randr req_len; window ← id 4; mret (request window).
Definition decode_randr : W XWireRequest :=
  minor ← u8 1;
  let screen_resources :=
    randr_window X_RANDR_GET_SCREEN_RESOURCES_REQ_LEN (λ window,
      ReqRandrGetScreenResources window
        (bool_decide (minor = X_RANDR_GET_SCREEN_RESOURCES_CURRENT_MINOR_OPCODE))) in
  by_opcode [
    (X_RANDR_QUERY_VERSION_MINOR_OPCODE,
      _ ← require_len X_RANDR_MAJOR_OPCODE X_RANDR_QUERY_VERSION_REQ_LEN len; major ← u32 4; minor ← u32 8;
      mret (ReqRandrQueryVersion major minor));
    (X_RANDR_SELECT_INPUT_MINOR_OPCODE,
      _ ← randr X_RANDR_SELECT_INPUT_REQ_LEN; window ← id 4; enable ← u16 8; mret (ReqRandrSelectInput window enable));
    (X_RANDR_GET_SCREEN_SIZE_RANGE_MINOR_OPCODE,
      randr_window X_RANDR_GET_SCREEN_SIZE_RANGE_REQ_LEN ReqRandrGetScreenSizeRange);
    (X_RANDR_GET_SCREEN_RESOURCES_MINOR_OPCODE, screen_resources);
    (X_RANDR_GET_SCREEN_RESOURCES_CURRENT_MINOR_OPCODE, screen_resources);
    (X_RANDR_GET_OUTPUT_INFO_MINOR_OPCODE,
      _ ← randr X_RANDR_GET_OUTPUT_INFO_REQ_LEN; output ← u32 4; config_timestamp ← u32 8;
      mret (ReqRandrGetOutputInfo output config_timestamp));
    (X_RANDR_GET_OUTPUT_PROPERTY_MINOR_OPCODE,
      _ ← randr X_RANDR_GET_OUTPUT_PROPERTY_REQ_LEN; output ← u32 4; property ← u32 8; property_type ← u32 12;
      long_offset ← u32 16; long_length ← u32 20; delete ← u8 24; pending ← u8 25;
      mret (ReqRandrGetOutputProperty output property property_type long_offset long_length (flag delete) (flag pending)));
    (X_RANDR_GET_CRTC_INFO_MINOR_OPCODE,
      _ ← randr X_RANDR_GET_CRTC_INFO_REQ_LEN; crtc ← u32 4; config_timestamp ← u32 8;
      mret (ReqRandrGetCrtcInfo crtc config_timestamp));
    (X_RANDR_GET_CRTC_GAMMA_SIZE_MINOR_OPCODE,
      _ ← randr X_RANDR_GET_CRTC_GAMMA_SIZE_REQ_LEN; crtc ← u32 4; mret (ReqRandrGetCrtcGammaSize crtc));
    (X_RANDR_GET_OUTPUT_PRIMARY_MINOR_OPCODE,
      randr_window X_RANDR_GET_OUTPUT_PRIMARY_REQ_LEN ReqRandrGetOutputPrimary);
    (X_RANDR_GET_PROVIDERS_MINOR_OPCODE, randr_window 8 ReqRandrGetProviders);
    (X_RANDR_GET_MONITORS_MINOR_OPCODE,
      _ ← randr X_RANDR_GET_MONITORS_REQ_LEN; window ← id 4; get_active ← u8 8;
      mret (ReqRandrGetMonitors window (flag get_active)))
  ] minor unknown_major.

Notation shm n := (exact X_MIT_SHM_MAJOR_OPCODE n).
Definition decode_shm_put_image : W XWireRequest :=
  _ ← shm X_MIT_SHM_PUT_IMAGE_REQ_LEN;
  format ← u8 29; _ ← validate_wire_image_format format;
  drawable ← id 4; gc ← id 8; total_width ← u16 12; total_height ← u16 14;
  src_x ← u16 16; src_y ← u16 18; src_width ← u16 20; src_height ← u16 22; dst_x ← i16 24; dst_y ← i16 26;
  depth ← u8 28; send_event ← u8 30; segment ← id 32; offset ← u32 36;
  mret (ReqShmPutImage drawable gc total_width total_height src_x src_y src_width src_height dst_x dst_y depth format
          (flag send_event) segment offset).
Definition decode_mit_shm : W XWireRequest :=
  minor ← u8 1;
  by_opcode [
    (X_MIT_SHM_QUERY_VERSION_MINOR_OPCODE, _ ← shm X_MIT_SHM_QUERY_VERSION_REQ_LEN; mret ReqShmQueryVersion);
    (X_MIT_SHM_ATTACH_MINOR_OPCODE,
      _ ← shm X_MIT_SHM_ATTACH_REQ_LEN; segment ← new_id_at 4; shmid ← u32 8; read_only ← u8 12;
      mret (ReqShmAttach segment shmid (flag read_only)));
    (X_MIT_SHM_DETACH_MINOR_OPCODE, _ ← shm X_MIT_SHM_DETACH_REQ_LEN; segment ← id 4; mret (ReqShmDetach segment));
    (X_MIT_SHM_PUT_IMAGE_MINOR_OPCODE, decode_shm_put_image);
    (X_MIT_SHM_CREATE_PIXMAP_MINOR_OPCODE,
      _ ← shm X_MIT_SHM_CREATE_PIXMAP_REQ_LEN; pixmap ← new_id_at 4; drawable ← id 8; width ← u16 12;
      height ← u16 14; depth ← u8 16; segment ← id 20; offset ← u32 24;
      mret (ReqShmCreatePixmap pixmap drawable width height depth segment offset))
  ] minor unknown_major.

Definition decode_sophia_present : W XWireRequest :=
  minor ← u8 1;
  if decide (minor ≠ X_SOPHIA_PRESENT_PIXMAP_MINOR_OPCODE) then unknown_major
  else
    _ ← exact X_SOPHIA_PRESENT_MAJOR_OPCODE X_SOPHIA_PRESENT_PIXMAP_REQ_LEN;
    window ← id 4; x ← i16 12; y ← i16 14; width ← u16 16; height ← u16 18;
    pixmap ← u32 8; previous_committed_generation ← u64 20; timeout_msec ← u32 28;
    mret (ReqAuthority (mk_request (wc_transaction c) (wc_namespace c)
            (RequestPresentPixmap window pixmap (region_single (mk_rect x y width height))
               previous_committed_generation timeout_msec))).
Definition decode_generic_event : W XWireRequest :=
  _ ← exact X_GENERIC_EVENT_MAJOR_OPCODE X_GENERIC_EVENT_QUERY_VERSION_REQ_LEN;
  minor ← u8 1;
  _ ← w_guard (minor = X_GENERIC_EVENT_QUERY_VERSION_MINOR_OPCODE) (WpUnknownOpcode minor);
  major_version ← u16 4; minor_version ← u16 6; mret (ReqGeQueryVersion major_version minor_version).
Definition decode_sync : W XWireRequest :=
  minor ← u8 1;
  by_opcode [
    (X_SYNC_INITIALIZE_MINOR_OPCODE,
      _ ← exact X_SYNC_MAJOR_OPCODE 8; desired_major ← u8 4; desired_minor ← u8 5;
      mret (ReqSyncInitialize desired_major desired_minor));
    (X_SYNC_DESTROY_FENCE_MINOR_OPCODE, decode_one_id X_SYNC_MAJOR_OPCODE 8 ReqSyncDestroyFence)
  ] minor unknown_minor.

(** ** The decoder *)

Definition core_decoders : list (Z * W XWireRequest) := [
  (X_CREATE_WINDOW, decode_create_window); (X_CHANGE_WINDOW_ATTRIBUTES, decode_change_window_attributes);
  (X_GET_WINDOW_ATTRIBUTES, decode_get_window_attributes); (X_DESTROY_WINDOW, decode_destroy_window);
  (X_REPARENT_WINDOW, decode_reparent_window); (X_MAP_WINDOW, decode_map_window);
  (X_MAP_SUBWINDOWS, decode_map_subwindows); (X_UNMAP_WINDOW, decode_unmap_window);
  (X_CONFIGURE_WINDOW, decode_configure_window); (X_GET_GEOMETRY, decode_get_geometry);
  (X_QUERY_TREE, decode_query_tree); (X_INTERN_ATOM, decode_intern_atom); (X_GET_ATOM_NAME, decode_get_atom_name);
  (X_CHANGE_PROPERTY, decode_change_property); (X_DELETE_PROPERTY, decode_delete_property);
  (X_GET_PROPERTY, decode_get_property); (X_LIST_PROPERTIES, decode_list_properties);
  (X_SET_SELECTION_OWNER, decode_set_selection_owner); (X_GET_SELECTION_OWNER, decode_get_selection_owner);
  (X_CONVERT_SELECTION, decode_convert_selection); (X_SEND_EVENT, decode_send_event);
  (X_GRAB_POINTER, decode_grab_pointer); (X_UNGRAB_POINTER, decode_ungrab_pointer);
  (X_GRAB_BUTTON, decode_grab_button); (X_UNGRAB_BUTTON, decode_ungrab_button);
  (X_GRAB_KEYBOARD, decode_grab_keyboard); (X_UNGRAB_KEYBOARD, decode_ungrab_keyboard);
  (X_GRAB_KEY, decode_grab_key); (X_UNGRAB_KEY, decode_ungrab_key); (X_ALLOW_EVENTS, decode_allow_events);
  (X_GRAB_SERVER, decode_grab_server); (X_UNGRAB_SERVER, decode_ungrab_server);
  (X_TRANSLATE_COORDINATES, decode_translate_coordinates); (X_QUERY_POINTER, decode_query_pointer);
  (X_SET_INPUT_FOCUS, decode_set_input_focus); (X_GET_INPUT_FOCUS, decode_get_input_focus);
  (X_GET_KEYBOARD_CONTROL, decode_get_keyboard_control); (X_BELL, decode_bell);
  (X_OPEN_FONT, decode_open_font); (X_CLOSE_FONT, decode_close_font); (X_QUERY_FONT, decode_query_font);
  (X_LIST_FONTS, decode_list_fonts); (X_LIST_FONTS_WITH_INFO, decode_list_fonts_with_info);
  (X_CREATE_PIXMAP, decode_create_pixmap); (X_FREE_PIXMAP, decode_free_pixmap); (X_CREATE_GC, decode_create_gc);
  (X_SET_CLIP_RECTANGLES, decode_set_clip_rectangles); (X_CHANGE_GC, decode_change_gc); (X_FREE_GC, decode_free_gc);
  (X_CLEAR_AREA, decode_clear_area); (X_COPY_AREA, decode_copy_area); (X_POLY_LINE, decode_poly_line);
  (X_POLY_SEGMENT, decode_poly_segment); (X_FILL_POLY, decode_fill_poly);
  (X_POLY_FILL_RECTANGLE, decode_poly_fill_rectangle); (X_POLY_FILL_ARC, decode_poly_fill_arc);
  (X_PUT_IMAGE, decode_put_image); (X_GET_IMAGE, decode_get_image); (X_POLY_TEXT8, decode_poly_text8);
  (X_IMAGE_TEXT8, decode_image_text8); (X_CREATE_COLORMAP, decode_create_colormap);
  (X_FREE_COLORMAP, decode_free_colormap); (X_ALLOC_COLOR, decode_alloc_color);
  (X_ALLOC_NAMED_COLOR, decode_alloc_named_color); (X_QUERY_COLORS, decode_query_colors);
  (X_CREATE_CURSOR, decode_create_cursor); (X_CREATE_GLYPH_CURSOR, decode_create_glyph_cursor);
  (X_FREE_CURSOR, decode_free_cursor); (X_RECOLOR_CURSOR, decode_recolor_cursor);
  (X_QUERY_BEST_SIZE, decode_query_best_size); (X_QUERY_EXTENSION, decode_query_extension);
  (X_LIST_EXTENSIONS, decode_list_extensions); (X_GET_KEYBOARD_MAPPING, decode_get_keyboard_mapping);
  (X_GET_MODIFIER_MAPPING, decode_get_modifier_mapping); (X_SOPHIA_PRESENT_MAJOR_OPCODE, decode_sophia_present);
  (X_MIT_SHM_MAJOR_OPCODE, decode_mit_shm); (X_RANDR_MAJOR_OPCODE, decode_randr);
  (X_KEYBOARD_MAJOR_OPCODE, decode_x_keyboard); (X_BIG_REQUESTS_MAJOR_OPCODE, decode_big_requests);
  (X_INPUT_MAJOR_OPCODE, decode_x_input); (X_GENERIC_EVENT_MAJOR_OPCODE, decode_generic_event);
  (X_DRI3_MAJOR_OPCODE, decode_dri3); (X_PRESENT_MAJOR_OPCODE, decode_present);
  (X_XFIXES_MAJOR_OPCODE, decode_xfixes); (X_GLX_MAJOR_OPCODE, decode_glx); (X_SYNC_MAJOR_OPCODE, decode_sync)].

Definition decode_x11_core_request : W XWireRequest :=
  _ ← w_guard (4 ≤ len) (WpTruncated 4 len);
  opcode ← u8 0;
  units ← u16 2;
  let declared_len := units * 4 in
  _ ← w_guard (4 ≤ declared_len) (WpInvalidLength opcode 4 declared_len);
  _ ← w_guard (declared_len ≤ len) (WpTruncated declared_len len);
  _ ← w_guard (len ≤ declared_len) (WpTrailingBytes (len - declared_len));
  by_opcode core_decoders opcode unknown_major.
End decoders.

(** The file descriptors that must come with a request. *)
Definition required_fd_count (request : XWireRequest) : Z :=
  match request with
  | ReqDri3PixmapFromBuffer _ _ _ _ _ _ _ _ | ReqDri3FenceFromFd _ _ _ => 1
  | ReqDri3PixmapFromBuffers _ _ num_buffers _ _ _ _ _ _ _ => num_buffers
  | _ => 0
  end.
