(* ===== verification/XDecode.v ===== *)
(** * What decoding an X11 request guarantees
    ([sophia-x-authority/src/wire.rs])

    A calculus of postconditions for the decoders of XWire, and what holds of every decoded request:
    no read is out of range, and a request fits what its client may ask for. *)

From S2P Require Import Prelude Ids Geometry Packets PortalPackets Text.
From S2P Require Import XAtoms XTables XProperties XSelections XState XProtocol XWire.
From stdpp Require Import strings pretty.
Local Open Scope Z_scope.

(** ** Postconditions *)

(** The decoder does not panic, and what it returns satisfies [Q]. *)
Definition wp {A} (m : W A) (Q : A → Prop) : Prop :=
  match m with Some (Ok a) => Q a | Some (Err _) => True | None => False end.

Lemma wp_ret {A} (a : A) Q : Q a → wp (mret a : W A) Q.
Proof. done. Qed.
Lemma wp_bind {A B} (m : W A) (k : A → W B) Q : wp m (λ a, wp (k a) Q) → wp (m ≫= k) Q.
Proof. unfold wp, mbind, w_bind. by destruct m as [[a|e]|]. Qed.
Lemma wp_mono {A} (m : W A) (P Q : A → Prop) : wp m P → (∀ a, P a → Q a) → wp m Q.
Proof. unfold wp. destruct m as [[a|e]|]; auto. Qed.
Lemma wp_fail {A} e (Q : A → Prop) : wp (w_fail e) Q.
Proof. done. Qed.
Lemma wp_guard P `{Decision P} e (Q : unit → Prop) : (P → Q ()) → wp (w_guard P e) Q.
Proof. unfold w_guard, wp. case_decide; [naive_solver|done]. Qed.
Lemma wp_mapM {A B} (f : A → W B) (P : B → Prop) l Q :
  Forall (λ a, wp (f a) P) l → (∀ l', Forall P l' → length l' = length l → Q l') → wp (mapM f l) Q.
Proof.
  intros Hl. revert Q. induction Hl as [|a l Ha _ IH]; intros Q HQ; simpl.
  - apply wp_ret, HQ; [constructor|done].
  - apply wp_bind. eapply wp_mono; [exact Ha|]. intros b Hb. simpl. apply wp_bind, IH.
    intros l' Hl' Hlen. apply wp_ret, HQ; [by constructor|simpl; congruence].
Qed.

(** ** Reading *)

Lemma ordered_range order l : Forall u8_ok l → 0 ≤ ordered order l < 256 ^ Z.of_nat (length l).
Proof.
  intros Hl. unfold ordered. destruct order.
  - by apply from_le_bytes_bound.
  - rewrite <-(length_reverse l). apply from_le_bytes_bound. by apply Forall_reverse.
Qed.

Section reading.
  Context (bytes : list Z) (Hbytes : Forall u8_ok bytes).

Lemma wp_slice from to Q :
  0 ≤ from ≤ to → to ≤ str_len bytes →
  (∀ l, Forall u8_ok l → str_len l = to - from → Q l) → wp (slice bytes from to) Q.
Proof.
  intros Hft Hto HQ. unfold slice. rewrite decide_True by lia. apply wp_ret, HQ.
  - by apply Forall_take, Forall_drop.
  - unfold str_len in *. rewrite length_take, length_drop. lia.
Qed.
Lemma wp_int width order i Q :
  0 ≤ i → 0 ≤ width → i + width ≤ str_len bytes → (∀ z, 0 ≤ z < 256 ^ width → Q z) → wp (int_at width order bytes i) Q.
Proof.
  intros Hi Hw Hl HQ. apply wp_bind, wp_slice; [lia..|]. intros l Hok Hlen. apply wp_ret, HQ.
  pose proof (ordered_range order l Hok) as Hr. unfold str_len in Hlen. by rewrite Hlen, Z.add_simpl_l in Hr.
Qed.
Lemma wp_u16 order i Q : 0 ≤ i → i + 2 ≤ str_len bytes → (∀ z, u16_ok z → Q z) → wp (u16_at order bytes i) Q.
Proof. intros. apply wp_int; [lia..|]. intros z Hz. apply H1. unfold u16_ok, u16_MAX. lia. Qed.
Lemma wp_u32 order i Q : 0 ≤ i → i + 4 ≤ str_len bytes → (∀ z, u32_ok z → Q z) → wp (u32_at order bytes i) Q.
Proof. intros. apply wp_int; [lia..|]. intros z Hz. apply H1. unfold u32_ok, u32_MAX. lia. Qed.
Lemma wp_u64 order i Q : 0 ≤ i → i + 8 ≤ str_len bytes → (∀ z, u64_ok z → Q z) → wp (u64_at order bytes i) Q.
Proof. intros. apply wp_int; [lia..|]. intros z Hz. apply H1. unfold u64_ok, u64_MAX. lia. Qed.
Lemma wp_i16 order i Q :
  0 ≤ i → i + 2 ≤ str_len bytes → (∀ z, -32768 ≤ z ≤ 32767 → Q z) → wp (i16_at order bytes i) Q.
Proof.
  intros Hi Hl HQ. apply wp_bind, wp_u16; [lia..|]. intros z Hz. apply wp_ret, HQ.
  unfold as_signed, u16_ok, u16_MAX in *. case_decide; lia.
Qed.
Lemma wp_byte i Q : 0 ≤ i → i + 1 ≤ str_len bytes → (∀ z, u8_ok z → Q z) → wp (byte_at bytes i) Q.
Proof.
  intros Hi Hl HQ. apply wp_bind, wp_slice; [lia..|]. intros l Hok Hlen. apply wp_ret, HQ.
  destruct Hok; simpl; [unfold u8_ok, u8_MAX; lia|done].
Qed.
(** An identifier as the wire has them: 32 bits, generation 1. *)
Definition raw_ok (id : XResourceId) : Prop := u32_ok (xid_raw id) ∧ id = resource_id (xid_raw id).
Lemma wp_id order i Q : 0 ≤ i → i + 4 ≤ str_len bytes → (∀ id, raw_ok id → Q id) → wp (id_at order bytes i) Q.
Proof. intros Hi Hl HQ. apply wp_bind, wp_u32; [lia..|]. intros z Hz. by apply wp_ret, HQ. Qed.
End reading.
Create HintDb wire_consts.
#[export] Hint Unfold X_INPUT_QUERY_POINTER_REQ_LEN X_INPUT_CHANGE_CURSOR_REQ_LEN X_INPUT_UNGRAB_DEVICE_REQ_LEN
  X_CREATE_WINDOW_REQ_LEN X_CHANGE_WINDOW_ATTRIBUTES_REQ_LEN X_GET_WINDOW_ATTRIBUTES_REQ_LEN
  X_DESTROY_WINDOW_REQ_LEN X_REPARENT_WINDOW_REQ_LEN X_MAP_WINDOW_REQ_LEN X_MAP_SUBWINDOWS_REQ_LEN
  X_UNMAP_WINDOW_REQ_LEN X_CONFIGURE_WINDOW_REQ_LEN X_GET_GEOMETRY_REQ_LEN X_QUERY_TREE_REQ_LEN
  X_INTERN_ATOM_REQ_LEN X_GET_ATOM_NAME_REQ_LEN X_CHANGE_PROPERTY_REQ_LEN X_DELETE_PROPERTY_REQ_LEN
  X_GET_PROPERTY_REQ_LEN X_QUERY_POINTER_REQ_LEN X_LIST_PROPERTIES_REQ_LEN
  X_SET_SELECTION_OWNER_REQ_LEN X_GET_SELECTION_OWNER_REQ_LEN X_CONVERT_SELECTION_REQ_LEN
  X_SEND_EVENT_REQ_LEN X_GRAB_BUTTON_REQ_LEN X_UNGRAB_BUTTON_REQ_LEN X_GRAB_POINTER_REQ_LEN
  X_UNGRAB_POINTER_REQ_LEN X_GRAB_KEYBOARD_REQ_LEN X_UNGRAB_KEYBOARD_REQ_LEN X_GRAB_KEY_REQ_LEN
  X_UNGRAB_KEY_REQ_LEN X_ALLOW_EVENTS_REQ_LEN X_GRAB_SERVER_REQ_LEN X_UNGRAB_SERVER_REQ_LEN
  X_TRANSLATE_COORDINATES_REQ_LEN X_SET_INPUT_FOCUS_REQ_LEN X_GET_INPUT_FOCUS_REQ_LEN
  X_GET_IMAGE_REQ_LEN X_OPEN_FONT_REQ_LEN X_CLOSE_FONT_REQ_LEN X_QUERY_FONT_REQ_LEN
  X_LIST_FONTS_REQ_LEN X_LIST_FONTS_WITH_INFO_REQ_LEN X_CREATE_PIXMAP_REQ_LEN X_FREE_PIXMAP_REQ_LEN
  X_CREATE_GC_REQ_LEN X_CHANGE_GC_REQ_LEN X_SET_CLIP_RECTANGLES_REQ_LEN X_FREE_GC_REQ_LEN
  X_CLEAR_AREA_REQ_LEN X_COPY_AREA_REQ_LEN X_POLY_LINE_REQ_LEN X_POLY_SEGMENT_REQ_LEN
  X_FILL_POLY_REQ_LEN X_POLY_FILL_RECTANGLE_REQ_LEN X_POLY_FILL_ARC_REQ_LEN X_PUT_IMAGE_REQ_LEN
  X_POLY_TEXT8_REQ_LEN X_IMAGE_TEXT8_REQ_LEN X_CREATE_COLORMAP_REQ_LEN X_FREE_COLORMAP_REQ_LEN
  X_ALLOC_COLOR_REQ_LEN X_ALLOC_NAMED_COLOR_REQ_LEN X_QUERY_COLORS_REQ_LEN X_CREATE_CURSOR_REQ_LEN
  X_CREATE_GLYPH_CURSOR_REQ_LEN X_FREE_CURSOR_REQ_LEN X_RECOLOR_CURSOR_REQ_LEN
  X_QUERY_EXTENSION_REQ_LEN X_LIST_EXTENSIONS_REQ_LEN X_GET_KEYBOARD_MAPPING_REQ_LEN
  X_QUERY_BEST_SIZE_REQ_LEN X_GET_MODIFIER_MAPPING_REQ_LEN X_SOPHIA_PRESENT_PIXMAP_REQ_LEN
  X_MIT_SHM_QUERY_VERSION_REQ_LEN X_MIT_SHM_ATTACH_REQ_LEN X_MIT_SHM_DETACH_REQ_LEN
  X_MIT_SHM_PUT_IMAGE_REQ_LEN X_MIT_SHM_CREATE_PIXMAP_REQ_LEN X_RANDR_QUERY_VERSION_REQ_LEN
  X_RANDR_SELECT_INPUT_REQ_LEN X_RANDR_GET_SCREEN_SIZE_RANGE_REQ_LEN
  X_RANDR_GET_SCREEN_RESOURCES_REQ_LEN X_RANDR_GET_OUTPUT_INFO_REQ_LEN
  X_RANDR_GET_OUTPUT_PROPERTY_REQ_LEN X_RANDR_GET_CRTC_INFO_REQ_LEN
  X_RANDR_GET_CRTC_GAMMA_SIZE_REQ_LEN X_RANDR_GET_OUTPUT_PRIMARY_REQ_LEN X_RANDR_GET_MONITORS_REQ_LEN
  X_KEYBOARD_USE_EXTENSION_REQ_LEN X_KEYBOARD_SELECT_EVENTS_REQ_LEN X_KEYBOARD_GET_MAP_REQ_LEN
  X_KEYBOARD_GET_CONTROLS_REQ_LEN X_KEYBOARD_PER_CLIENT_FLAGS_REQ_LEN X_BIG_REQUESTS_ENABLE_REQ_LEN
  X_INPUT_QUERY_VERSION_REQ_LEN X_INPUT_GET_CLIENT_POINTER_REQ_LEN X_INPUT_QUERY_DEVICE_REQ_LEN
  X_INPUT_SELECT_EVENTS_REQ_LEN X_INPUT_GET_FOCUS_REQ_LEN X_INPUT_GET_PROPERTY_REQ_LEN
  X_GENERIC_EVENT_QUERY_VERSION_REQ_LEN X_PUT_IMAGE_MAX_DATA_BYTES X_QUERY_COLORS_MAX_PIXELS
  X_POLY_TEXT8_MAX_BYTES X_IMAGE_TEXT8_MAX_BYTES X_ALLOC_NAMED_COLOR_MAX_NAME_BYTES : wire_consts.

(** ** What a request may be *)

Definition i16_ok (z : Z) : Prop := -32768 ≤ z ≤ 32767.
Definition wire_rect_ok (r : Rect) : Prop :=
  i16_ok (rx r) ∧ i16_ok (ry r) ∧ u16_ok (rwidth r) ∧ u16_ok (rheight r).
(** The bounds of points, at most [2^16] wide. *)
Definition bounds_ok (r : Rect) : Prop :=
  i16_ok (rx r) ∧ i16_ok (ry r) ∧ 1 ≤ rwidth r ≤ 65536 ∧ 1 ≤ rheight r ≤ 65536.
Definition text_ok (limit : Z) (text : list Z) : Prop := Forall u8_ok text ∧ str_len text ≤ limit.
Definition name_ok (limit : Z) (text : list Z) : Prop := text_ok limit text ∧ utf8_ok text.
Definition opt_ok {A} (P : A → Prop) (o : option A) : Prop := from_option P True o.
Definition gc_ok (v : XGraphicsContextValues) : Prop :=
  opt_ok raw_ok (gc_font v) ∧ Forall wire_rect_ok (gc_clip_rectangles v) ∧ u8_ok (gc_function v) ∧ u32_ok (gc_plane_mask v) ∧ u32_ok (gc_foreground v) ∧ u32_ok (gc_background v) ∧
  u16_ok (gc_line_width v) ∧ u8_ok (gc_fill_style v) ∧ i16_ok (gc_clip_x_origin v) ∧ i16_ok (gc_clip_y_origin v).

(** Every field of a request has the width it has on the wire: identifiers, atoms, masks and times 32
    bits, coordinates 16 with a sign, sizes and counts 16, flags and modes 8; what a text carries is bytes. *)
Definition packet_widths (kind : XAuthorityRequestKind) : Prop :=
  match kind with
  | CreateWindow window surface geometry constraints generation =>
      raw_ok window ∧ u32_ok (si_index surface) ∧ u32_ok (si_generation surface) ∧ wire_rect_ok geometry ∧
      constraints = mk_constraints None None ∧ u64_ok generation
  | MapWindow window generation => raw_ok window ∧ u64_ok generation
  | RequestPresentPixmap window pixmap damage generation timeout =>
      raw_ok window ∧ u32_ok pixmap ∧ Forall wire_rect_ok (rects damage) ∧ u64_ok generation ∧ u32_ok timeout
  | SetSelectionOwner selection owner timestamp selection_timestamp _ =>
      u32_ok selection ∧ opt_ok raw_ok owner ∧ u32_ok timestamp ∧ u32_ok selection_timestamp
  | RequestSelection requestor selection target target_name property time _ =>
      raw_ok requestor ∧ u32_ok selection ∧ u32_ok target ∧
      target_name = str "atom:" ++ str (pretty target) ∧ u32_ok property ∧ u32_ok time
  end.
Definition event_widths (event : XClientEvent) : Prop :=
  match event with
  | EventClientMessage _ bytes => Forall u8_ok bytes
  | EventSelectionNotify _ time requestor selection target property =>
      u32_ok time ∧ raw_ok requestor ∧ u32_ok selection ∧ u32_ok target ∧ u32_ok property
  | _ => False
  end.
Definition widths_ok (request : XWireRequest) : Prop :=
  match request with
  | ReqAuthority packet => packet_widths (rq_kind packet)
  | ReqCreateWindow packet parent depth visual colormap background_pixel event_mask do_not_propagate_mask =>
      packet_widths (rq_kind packet) ∧ raw_ok parent ∧ u8_ok depth ∧ u32_ok visual ∧ opt_ok raw_ok colormap ∧
      opt_ok u32_ok background_pixel ∧ opt_ok u32_ok event_mask ∧ opt_ok u32_ok do_not_propagate_mask
  | ReqChangeWindowAttributes window event_mask do_not_propagate_mask =>
      raw_ok window ∧ opt_ok u32_ok event_mask ∧ opt_ok u32_ok do_not_propagate_mask
  | ReqGetWindowAttributes i | ReqDestroyWindow i | ReqMapSubwindows i | ReqUnmapWindow i | ReqGetGeometry i
  | ReqQueryTree i | ReqListProperties i | ReqFreeGraphicsContext i | ReqFreeColormap i | ReqCloseFont i
  | ReqQueryFont i | ReqFreePixmap i | ReqQueryPointer i | ReqXfixesDestroyRegion i | ReqPresentQueryCapabilities i
  | ReqShmDetach i | ReqRandrGetScreenSizeRange i | ReqRandrGetScreenResources i _ | ReqRandrGetOutputPrimary i
  | ReqRandrGetProviders i | ReqRandrGetMonitors i _ | ReqGlxDestroyContext i | ReqGlxIsDirect i
  | ReqGlxDeleteWindow i | ReqGlxGetDrawableAttributes i | ReqSyncDestroyFence i | ReqFreeCursor i
  | ReqRecolorCursor i => raw_ok i
  | ReqReparentWindow window parent x y => raw_ok window ∧ raw_ok parent ∧ i16_ok x ∧ i16_ok y
  | ReqConfigureWindow window value_mask x y width height sibling stack_mode =>
      raw_ok window ∧ u16_ok value_mask ∧ opt_ok i16_ok x ∧ opt_ok i16_ok y ∧ opt_ok u16_ok width ∧
      opt_ok u16_ok height ∧ opt_ok raw_ok sibling ∧ opt_ok u8_ok stack_mode
  | ReqInternAtom _ name | ReqQueryExtension name => Forall u8_ok name
  | ReqGetAtomName z | ReqGetSelectionOwner z | ReqUngrabPointer z | ReqUngrabKeyboard z | ReqRandrGetCrtcGammaSize z
  | ReqGlxGetVisualConfigs z | ReqGlxGetFbConfigs z | ReqGlxQueryServerString z | ReqXkbGetNames z => u32_ok z
  | ReqChangeProperty change =>
      raw_ok (pc_window change) ∧ u32_ok (pc_property change) ∧ u32_ok (pc_property_type change) ∧
      u8_ok (pc_format change) ∧ Forall u8_ok (pc_bytes change)
  | ReqGetProperty read =>
      raw_ok (pd_window read) ∧ u32_ok (pd_property read) ∧ u32_ok (pd_property_type read) ∧
      u32_ok (pd_long_offset read) ∧ u32_ok (pd_long_length read)
  | ReqSendSelectionNotify destination event_mask event => raw_ok destination ∧ u32_ok event_mask ∧ event_widths event
  | ReqGrabPointer window event_mask _ pointer_mode keyboard_mode time =>
      raw_ok window ∧ u16_ok event_mask ∧ u8_ok pointer_mode ∧ u8_ok keyboard_mode ∧ u32_ok time
  | ReqGrabButton window event_mask button modifiers _ pointer_mode keyboard_mode =>
      raw_ok window ∧ u16_ok event_mask ∧ u8_ok button ∧ u16_ok modifiers ∧ u8_ok pointer_mode ∧ u8_ok keyboard_mode
  | ReqUngrabButton window detail modifiers | ReqUngrabKey window detail modifiers =>
      raw_ok window ∧ u8_ok detail ∧ u16_ok modifiers
  | ReqGrabKeyboard window _ pointer_mode keyboard_mode time =>
      raw_ok window ∧ u8_ok pointer_mode ∧ u8_ok keyboard_mode ∧ u32_ok time
  | ReqGrabKey window key modifiers _ pointer_mode keyboard_mode =>
      raw_ok window ∧ u8_ok key ∧ u16_ok modifiers ∧ u8_ok pointer_mode ∧ u8_ok keyboard_mode
  | ReqAllowEvents mode time => u8_ok mode ∧ u32_ok time
  | ReqCreateGraphicsContext gc drawable values => raw_ok gc ∧ raw_ok drawable ∧ gc_ok values
  | ReqChangeGraphicsContext gc value_mask values => raw_ok gc ∧ u32_ok value_mask ∧ gc_ok values
  | ReqSetClipRectangles i rectangles | ReqXfixesCreateRegion i rectangles | ReqXfixesSetRegion i rectangles =>
      raw_ok i ∧ Forall wire_rect_ok rectangles
  | ReqClearArea _ window x y width height => raw_ok window ∧ i16_ok x ∧ i16_ok y ∧ u16_ok width ∧ u16_ok height
  | ReqPolyFillRectangle drawable gc rectangles | ReqPolyFillArc drawable gc rectangles =>
      raw_ok drawable ∧ raw_ok gc ∧ Forall wire_rect_ok rectangles
  | ReqPutImage format drawable gc width height dst_x dst_y left_pad depth data =>
      u8_ok format ∧ raw_ok drawable ∧ raw_ok gc ∧ u16_ok width ∧ u16_ok height ∧ i16_ok dst_x ∧ i16_ok dst_y ∧
      u8_ok left_pad ∧ u8_ok depth ∧ Forall u8_ok data
  | ReqGetImage format drawable x y width height plane_mask =>
      u8_ok format ∧ raw_ok drawable ∧ i16_ok x ∧ i16_ok y ∧ u16_ok width ∧ u16_ok height ∧ u32_ok plane_mask
  | ReqPolyText8 drawable gc x y text | ReqImageText8 drawable gc x y text =>
      raw_ok drawable ∧ raw_ok gc ∧ i16_ok x ∧ i16_ok y ∧ Forall u8_ok text
  | ReqCreateColormap colormap window visual => raw_ok colormap ∧ raw_ok window ∧ u32_ok visual
  | ReqAllocColor colormap red green blue => raw_ok colormap ∧ u16_ok red ∧ u16_ok green ∧ u16_ok blue
  | ReqAllocNamedColor i name | ReqOpenFont i name => raw_ok i ∧ Forall u8_ok name
  | ReqSetInputFocus focus revert_to time => raw_ok focus ∧ u8_ok revert_to ∧ u32_ok time
  | ReqListFonts max_names pattern | ReqListFontsWithInfo max_names pattern => u16_ok max_names ∧ Forall u8_ok pattern
  | ReqCreatePixmap depth pixmap drawable width height =>
      u8_ok depth ∧ raw_ok pixmap ∧ raw_ok drawable ∧ u16_ok width ∧ u16_ok height
  | ReqDeleteProperty window property => raw_ok window ∧ u32_ok property
  | ReqQueryBestSize class drawable width height => u8_ok class ∧ raw_ok drawable ∧ u16_ok width ∧ u16_ok height
  | ReqCopyArea source destination gc src_x src_y dst_x dst_y width height =>
      raw_ok source ∧ raw_ok destination ∧ raw_ok gc ∧ i16_ok src_x ∧ i16_ok src_y ∧ i16_ok dst_x ∧ i16_ok dst_y ∧
      u16_ok width ∧ u16_ok height
  | ReqPolySegment drawable gc damage => raw_ok drawable ∧ raw_ok gc ∧ Forall bounds_ok damage
  | ReqPolyLine drawable gc points =>
      raw_ok drawable ∧ raw_ok gc ∧ Forall (λ p, i16_ok (xp_x p) ∧ i16_ok (xp_y p)) points
  | ReqFillPoly drawable gc damage => raw_ok drawable ∧ raw_ok gc ∧ opt_ok bounds_ok damage
  | ReqDri3QueryVersion a b | ReqXfixesQueryVersion a b | ReqPresentQueryVersion a b | ReqRandrQueryVersion a b
  | ReqRandrGetOutputInfo a b | ReqRandrGetCrtcInfo a b | ReqGlxQueryVersion a b | ReqXkbPerClientFlags a b =>
      u32_ok a ∧ u32_ok b
  | ReqXkbUseExtension a b | ReqXkbGetMap a b | ReqXkbGetDeviceInfo a b | ReqXiQueryVersion a b
  | ReqGeQueryVersion a b => u16_ok a ∧ u16_ok b
  | ReqSyncInitialize a b | ReqGetKeyboardMapping a b => u8_ok a ∧ u8_ok b
  | ReqDri3Open drawable provider => raw_ok drawable ∧ u32_ok provider
  | ReqDri3PixmapFromBuffer pixmap drawable size_bytes width height stride depth bits_per_pixel =>
      raw_ok pixmap ∧ raw_ok drawable ∧ u32_ok size_bytes ∧ u16_ok width ∧ u16_ok height ∧ u16_ok stride ∧
      u8_ok depth ∧ u8_ok bits_per_pixel
  | ReqDri3PixmapFromBuffers pixmap window num_buffers width height strides offsets depth bits_per_pixel modifier =>
      raw_ok pixmap ∧ raw_ok window ∧ u8_ok num_buffers ∧ u16_ok width ∧ u16_ok height ∧ Forall u32_ok strides ∧
      Forall u32_ok offsets ∧ u8_ok depth ∧ u8_ok bits_per_pixel ∧ u64_ok modifier
  | ReqDri3FenceFromFd drawable fence _ => raw_ok drawable ∧ raw_ok fence
  | ReqDri3GetSupportedModifiers window depth bits_per_pixel => raw_ok window ∧ u8_ok depth ∧ u8_ok bits_per_pixel
  | ReqXfixesSelectSelectionInput window selection event_mask => raw_ok window ∧ u32_ok selection ∧ u32_ok event_mask
  | ReqPresentPixmap _ window pixmap serial valid_region update_region x_offset y_offset target_crtc wait_fence
      idle_fence options target_msc divisor remainder notifies =>
      raw_ok window ∧ raw_ok pixmap ∧ u32_ok serial ∧ u32_ok valid_region ∧ u32_ok update_region ∧ i16_ok x_offset ∧
      i16_ok y_offset ∧ u32_ok target_crtc ∧ opt_ok raw_ok wait_fence ∧ opt_ok raw_ok idle_fence ∧ u32_ok options ∧
      u64_ok target_msc ∧ u64_ok divisor ∧ u64_ok remainder ∧ Forall (λ n, raw_ok n.1 ∧ u32_ok n.2) notifies
  | ReqPresentSelectInput event_id window event_mask => raw_ok event_id ∧ raw_ok window ∧ u32_ok event_mask
  | ReqShmAttach segment shmid _ => raw_ok segment ∧ u32_ok shmid
  | ReqShmPutImage drawable gc total_width total_height src_x src_y src_width src_height dst_x dst_y depth format _
      segment offset =>
      raw_ok drawable ∧ raw_ok gc ∧ u16_ok total_width ∧ u16_ok total_height ∧ u16_ok src_x ∧ u16_ok src_y ∧
      u16_ok src_width ∧ u16_ok src_height ∧ i16_ok dst_x ∧ i16_ok dst_y ∧ u8_ok depth ∧ u8_ok format ∧
      raw_ok segment ∧ u32_ok offset
  | ReqShmCreatePixmap pixmap drawable width height depth segment offset =>
      raw_ok pixmap ∧ raw_ok drawable ∧ u16_ok width ∧ u16_ok height ∧ u8_ok depth ∧ raw_ok segment ∧ u32_ok offset
  | ReqRandrSelectInput window enable => raw_ok window ∧ u16_ok enable
  | ReqRandrGetOutputProperty output property property_type long_offset long_length _ _ =>
      u32_ok output ∧ u32_ok property ∧ u32_ok property_type ∧ u32_ok long_offset ∧ u32_ok long_length
  | ReqGlxCreateContext context fbconfig screen share _ =>
      raw_ok context ∧ u32_ok fbconfig ∧ u32_ok screen ∧ opt_ok raw_ok share
  | ReqGlxCreateWindow screen fbconfig window glx_window =>
      u32_ok screen ∧ u32_ok fbconfig ∧ raw_ok window ∧ raw_ok glx_window
  | ReqXkbGetCompatMap device | ReqXkbGetIndicatorMap device | ReqXiQueryDevice device | ReqXiGetFocus device => u16_ok device
  | ReqXkbSelectEvents affect_which clear select_all state_details =>
      u16_ok affect_which ∧ u16_ok clear ∧ u16_ok select_all ∧ opt_ok (λ d, u16_ok d.1 ∧ u16_ok d.2) state_details
  | ReqXiQueryPointer window device => raw_ok window ∧ u16_ok device
  | ReqXiUngrabDevice device time => u16_ok device ∧ u32_ok time
  | ReqXiChangeCursor window cursor => raw_ok window ∧ opt_ok raw_ok cursor
  | ReqXiSelectEvents window masks => raw_ok window ∧ Forall (λ m, u16_ok m.1 ∧ Forall u32_ok m.2) masks
  | ReqQueryColors colormap pixels => raw_ok colormap ∧ Forall u32_ok pixels
  | ReqCreateCursor cursor source mask | ReqCreateGlyphCursor cursor source mask =>
      raw_ok cursor ∧ raw_ok source ∧ opt_ok raw_ok mask
  | ReqTranslateCoordinates source destination src_x src_y =>
      raw_ok source ∧ raw_ok destination ∧ i16_ok src_x ∧ i16_ok src_y
  | ReqGrabServer | ReqUngrabServer | ReqGetInputFocus | ReqListExtensions | ReqShmQueryVersion | ReqGlxClientInfo
  | ReqGlxQueryExtensionsString | ReqXkbGetState | ReqXkbGetControls | ReqXiGetClientPointer | ReqXiDeviceBell
  | ReqXiGetExtensionVersion | ReqXiGetProperty | ReqBigRequestsEnable | ReqGetModifierMapping | ReqGetKeyboardControl
  | ReqBell => True
  end.

Section request_ok.
  Context (c : XWireClientContext).

(** A new identifier is one the client may use. *)
Definition fresh_ok (id : XResourceId) : Prop :=
  raw_ok id ∧
  match wc_resource_id_range c with Some range => owns_new_resource range (xid_raw id) | None => True end.
(** The packet is the client's own: of its transaction and its namespace. *)
Definition packet_ok (packet : XAuthorityRequestPacket) : Prop :=
  rq_transaction packet = wc_transaction c ∧ rq_namespace packet = wc_namespace c ∧
  match rq_kind packet with
  | CreateWindow window surface geometry _ generation =>
      fresh_ok window ∧ surface = surface_id (xid_raw window) 1 ∧ wire_rect_ok geometry ∧ generation = 1
  | MapWindow window generation => raw_ok window ∧ generation = 2
  | RequestPresentPixmap window pixmap damage generation timeout =>
      raw_ok window ∧ u32_ok pixmap ∧ Forall wire_rect_ok (rects damage) ∧ u64_ok generation ∧ u32_ok timeout
  | SetSelectionOwner selection owner timestamp selection_timestamp kind =>
      u32_ok selection ∧ u32_ok timestamp ∧ selection_timestamp = timestamp ∧
      kind = (if owner then SetOwner else ClearOwner)
  | RequestSelection requestor selection target _ property time transfer =>
      raw_ok requestor ∧ u32_ok selection ∧ u32_ok target ∧ u32_ok property ∧ u32_ok time ∧
      raw transfer = raw (wc_transaction c)
  end.
(** Beyond its widths: what it creates is in the client's range, modes and formats are ones there are, and
    texts, images and lists are within their limits. *)
Definition limits_ok (request : XWireRequest) : Prop :=
  match request with
  | ReqAuthority packet => packet_ok packet ∧ match rq_kind packet with CreateWindow _ _ _ _ _ => False | _ => True end
  | ReqCreateWindow packet _ depth visual _ _ _ _ =>
      packet_ok packet ∧ u8_ok depth ∧ u32_ok visual ∧
      match rq_kind packet with CreateWindow _ _ _ _ _ => True | _ => False end
  | ReqConfigureWindow window _ x y width height _ stack_mode =>
      raw_ok window ∧ from_option i16_ok True x ∧ from_option i16_ok True y ∧ from_option u16_ok True width ∧
      from_option u16_ok True height ∧ from_option u8_ok True stack_mode
  | ReqInternAtom _ name => name_ok u16_MAX name
  | ReqChangeProperty change =>
      text_ok X_PROPERTY_MAX_VALUE_BYTES (pc_bytes change) ∧
      (pc_format change = 8 ∨ pc_format change = 16 ∨ pc_format change = 32) ∧
      str_len (pc_bytes change) `mod` (pc_format change / 8) = 0
  | ReqSendSelectionNotify _ event_mask event =>
      u32_ok event_mask ∧
      match event with
      | EventClientMessage sequence bytes => sequence = 0 ∧ text_ok 32 bytes ∧ str_len bytes = 32
      | EventSelectionNotify sequence _ requestor _ _ _ => sequence = 0 ∧ raw_ok requestor
      | _ => False
      end
  | ReqSetInputFocus _ revert_to _ => 0 ≤ revert_to ≤ 2
  | ReqCreateGraphicsContext gc _ values => fresh_ok gc ∧ gc_ok values
  | ReqChangeGraphicsContext _ value_mask values => u32_ok value_mask ∧ gc_ok values
  | ReqSetClipRectangles _ rectangles | ReqPolyFillRectangle _ _ rectangles | ReqPolyFillArc _ _ rectangles
  | ReqXfixesSetRegion _ rectangles => Forall wire_rect_ok rectangles
  | ReqXfixesCreateRegion region rectangles => fresh_ok region ∧ Forall wire_rect_ok rectangles
  | ReqClearArea _ _ x y width height => i16_ok x ∧ i16_ok y ∧ u16_ok width ∧ u16_ok height
  | ReqCopyArea _ _ _ src_x src_y dst_x dst_y width height =>
      i16_ok src_x ∧ i16_ok src_y ∧ i16_ok dst_x ∧ i16_ok dst_y ∧ u16_ok width ∧ u16_ok height
  | ReqPolySegment _ _ damage => Forall bounds_ok damage
  | ReqPolyLine _ _ points => Forall (λ p, i16_ok (xp_x p) ∧ i16_ok (xp_y p)) points
  | ReqFillPoly _ _ damage => from_option bounds_ok True damage
  | ReqPutImage format _ _ width height dst_x dst_y left_pad depth data =>
      0 ≤ format ≤ 2 ∧ u16_ok width ∧ u16_ok height ∧ i16_ok dst_x ∧ i16_ok dst_y ∧ u8_ok left_pad ∧ u8_ok depth ∧
      text_ok X_PUT_IMAGE_MAX_DATA_BYTES data
  | ReqGetImage format _ _ _ width height _ =>
      0 ≤ format ≤ 2 ∧ u16_ok width ∧ u16_ok height ∧ width * height * 4 ≤ X_PUT_IMAGE_MAX_DATA_BYTES
  | ReqPolyText8 _ _ x y text => i16_ok x ∧ i16_ok y ∧ text_ok X_POLY_TEXT8_MAX_BYTES text
  | ReqImageText8 _ _ x y text => i16_ok x ∧ i16_ok y ∧ text_ok u8_MAX text
  | ReqCreateColormap colormap _ _ => fresh_ok colormap
  | ReqAllocNamedColor _ name => name_ok X_ALLOC_NAMED_COLOR_MAX_NAME_BYTES name
  | ReqQueryColors _ pixels =>
      Forall u32_ok pixels ∧ Z.of_nat (length pixels) ≤ X_QUERY_COLORS_MAX_PIXELS
  | ReqOpenFont font name => fresh_ok font ∧ name_ok u16_MAX name
  | ReqListFonts max_names pattern | ReqListFontsWithInfo max_names pattern =>
      u16_ok max_names ∧ name_ok u16_MAX pattern
  | ReqQueryExtension name => name_ok u16_MAX name
  | ReqCreatePixmap _ pixmap _ width height => fresh_ok pixmap ∧ u16_ok width ∧ u16_ok height
  | ReqCreateCursor cursor _ _ | ReqCreateGlyphCursor cursor _ _ => fresh_ok cursor
  | ReqDri3PixmapFromBuffer pixmap _ size_bytes width height stride depth bits_per_pixel =>
      fresh_ok pixmap ∧ u32_ok size_bytes ∧ u16_ok width ∧ u16_ok height ∧ u16_ok stride ∧ u8_ok depth ∧
      u8_ok bits_per_pixel
  | ReqDri3PixmapFromBuffers pixmap _ num_buffers width height strides offsets depth bits_per_pixel modifier =>
      fresh_ok pixmap ∧ 1 ≤ num_buffers ≤ 4 ∧ u16_ok width ∧ u16_ok height ∧ Forall u32_ok strides ∧
      Forall u32_ok offsets ∧ length strides = 4%nat ∧ length offsets = 4%nat ∧ u64_ok modifier
  | ReqDri3FenceFromFd _ fence _ => fresh_ok fence
  | ReqPresentPixmap transaction window pixmap serial _ _ x_offset y_offset _ _ _ _ _ _ _ notifies =>
      transaction = wc_transaction c ∧ raw_ok window ∧ raw_ok pixmap ∧ u32_ok serial ∧ i16_ok x_offset ∧
      i16_ok y_offset ∧ Forall (λ n, raw_ok n.1 ∧ u32_ok n.2) notifies
  | ReqPresentSelectInput event_id _ event_mask => fresh_ok event_id ∧ u32_ok event_mask
  | ReqShmAttach segment shmid _ => fresh_ok segment ∧ u32_ok shmid
  | ReqShmPutImage _ _ total_width total_height src_x src_y src_width src_height _ _ _ format _ _ offset =>
      0 ≤ format ≤ 2 ∧ u16_ok total_width ∧ u16_ok total_height ∧ u16_ok src_x ∧ u16_ok src_y ∧
      u16_ok src_width ∧ u16_ok src_height ∧ u32_ok offset
  | ReqShmCreatePixmap pixmap _ width height _ _ _ => fresh_ok pixmap ∧ u16_ok width ∧ u16_ok height
  | ReqGlxCreateContext context _ _ _ _ => fresh_ok context
  | ReqGlxCreateWindow _ _ _ glx_window => fresh_ok glx_window
  | ReqXiSelectEvents _ masks =>
      (length masks ≤ 16)%nat ∧ Forall (λ m, u16_ok m.1 ∧ (length m.2 ≤ 8)%nat ∧ Forall u32_ok m.2) masks
  | _ => True
  end.
Definition request_ok (request : XWireRequest) : Prop := widths_ok request ∧ limits_ok request.
End request_ok.

(** ** Pieces of the decoders *)

Lemma padded_len_eq n : padded_len n = (n + 3) / 4 * 4.
Proof.
  unfold padded_len. rewrite <-Z.ldiff_land. change 3 with (Z.ones 2) at 2.
  by rewrite Z.ldiff_ones_r, Z.shiftr_div_pow2, Z.shiftl_mul_pow2 by lia.
Qed.
Lemma padded_len_le n : n ≤ padded_len n.
Proof. rewrite padded_len_eq. pose proof (Z.div_mod (n + 3) 4). pose proof (Z.mod_pos_bound (n + 3) 4). lia. Qed.
Lemma chunks_exact_ok n l :
  Forall u8_ok l → Forall (λ chunk, str_len chunk = Z.of_nat n ∧ Forall u8_ok chunk) (chunks_exact n l).
Proof.
  intros Hl. unfold chunks_exact. apply Forall_fmap, Forall_seq. intros i [_ Hi]. simpl in Hi. split.
  - unfold str_len. rewrite length_take, length_drop. destruct n as [|n]; [lia|].
    pose proof (Nat.Div0.mul_div_le (length l) (S n)). assert (S n * (i + 1) ≤ S n * (length l `div` S n))%nat by nia. lia.
  - by apply Forall_take, Forall_drop.
Qed.
Lemma length_chunks_exact n l : length (chunks_exact n l) = (length l / n)%nat.
Proof. unfold chunks_exact. by rewrite length_fmap, length_seq. Qed.

Lemma count_prefix mask n :
  0 ≤ n ≤ 32 → Z.of_nat (length (filter (λ bit, Z.testbit mask bit = true) (seqZ 0 n))) ≤ count_ones mask.
Proof.
  intros Hn. unfold count_ones. rewrite <-(Z.sub_add n 32), (Z.add_comm _ n), (seqZ_app 0 n (32 - n)) by lia.
  rewrite filter_app, length_app. lia.
Qed.
Lemma count_ones_pos mask : 0 ≤ count_ones mask.
Proof. unfold count_ones. lia. Qed.

Section decoders.
  Context (c : XWireClientContext) (bytes : list Z) (Hbytes : Forall u8_ok bytes).
  Notation order := (wc_byte_order c).
  Notation len := (str_len bytes).

Lemma wp_values bits mask cursor Q :
  0 ≤ cursor → cursor + 4 * Z.of_nat (length (filter (λ bit, Z.testbit mask bit = true) bits)) ≤ len →
  (∀ values, Forall (λ p, u32_ok p.2) values → Q values) → wp (values_at order bytes bits mask cursor) Q.
Proof.
  revert cursor Q. induction bits as [|bit bits IH]; intros cursor Q Hc Hlen HQ; simpl.
  - apply wp_ret, HQ. constructor.
  - rewrite filter_cons in Hlen. destruct (Z.testbit mask bit) eqn:Hbit.
    + rewrite decide_True in Hlen by done. simpl in Hlen. apply wp_bind, wp_u32; [done|lia..|]. intros value Hv.
      apply wp_bind, IH; [lia..|]. intros rest Hrest. apply wp_ret, HQ. by constructor.
    + rewrite decide_False in Hlen by done. by apply IH.
Qed.
Lemma wp_values_of header mask n Q :
  0 ≤ header → 0 ≤ n ≤ 32 → len = header + count_ones mask * 4 →
  (∀ values, Forall (λ p, u32_ok p.2) values → Q values) → wp (values_at order bytes (seqZ 0 n) mask header) Q.
Proof. intros Hh Hn Hlen HQ. apply wp_values; [done| |done]. pose proof (count_prefix mask n Hn). lia. Qed.
Lemma value_of_ok values bit (P : Z → Prop) :
  Forall (λ p : Z * Z, u32_ok p.2) values → (∀ z, u32_ok z → P z) → from_option P True (value_of values bit).
Proof.
  intros Hv HP. unfold value_of. destruct (head _) as [p|] eqn:Hh; [|done]. simpl. apply HP.
  rewrite Forall_forall in Hv. apply (Hv p). destruct (filter _ values) as [|q l] eqn:Hf; [done|]. simplify_eq/=.
  assert (p ∈ filter (λ p : Z * Z, p.1 = bit) values) as H%list_elem_of_filter by (rewrite Hf; left). tauto.
Qed.
Lemma wp_validate raw Q :
  u32_ok raw → (fresh_ok c (resource_id raw) → Q ()) → wp (validate_new_resource_id c raw) Q.
Proof.
  intros Hz HQ. unfold validate_new_resource_id, fresh_ok in *. destruct (wc_resource_id_range c) as [range|].
  - apply wp_guard. intros Hown. by apply HQ.
  - by apply wp_ret, HQ.
Qed.
Lemma wp_new_id i Q :
  0 ≤ i → i + 4 ≤ len → (∀ id, fresh_ok c id → Q id) → wp (new_id_at c bytes i) Q.
Proof.
  intros Hi Hl HQ. apply wp_bind, wp_u32; [done|lia..|]. intros z Hz. apply wp_bind, wp_validate; [done|].
  intros Hf. by apply wp_ret, HQ.
Qed.
Lemma wp_text opcode header n Q :
  0 ≤ header → 0 ≤ n → (∀ text, name_ok n text → len = header + padded_len n → Q text) →
  wp (text_at bytes opcode header n) Q.
Proof.
  intros Hh Hn HQ. unfold text_at. cbv zeta. apply wp_bind, wp_guard. intros Hlen. pose proof (padded_len_le n).
  apply wp_bind, wp_slice; [done|lia..|]. intros text Hok Htext. apply wp_bind, wp_guard. intros Hutf.
  apply wp_ret, HQ; [|done]. split; [|done]. split; [done|lia].
Qed.
Lemma wp_chunks opcode header n expected Q :
  0 ≤ header →
  (∀ chunks, header ≤ len → (length chunks = Z.to_nat (len - header) / n)%nat →
     Forall (λ chunk, str_len chunk = Z.of_nat n ∧ Forall u8_ok chunk) chunks → Q chunks) →
  wp (chunks_after bytes opcode header n expected) Q.
Proof.
  intros Hh HQ. unfold chunks_after. apply wp_bind, wp_guard. intros Hlen. apply wp_bind, wp_slice; [done|lia..|].
  intros rest Hok Hrest. apply wp_bind, wp_guard. intros _. apply wp_ret, HQ; [done| |by apply chunks_exact_ok].
  rewrite length_chunks_exact. unfold str_len in Hrest at 1. by rewrite <-Hrest, Nat2Z.id.
Qed.
(** A reader of chunks that is fine on one chunk is fine on all. *)
Lemma wp_each {B} (f : list Z → W B) n (P : B → Prop) chunks Q :
  Forall (λ chunk, str_len chunk = n ∧ Forall u8_ok chunk) chunks →
  (∀ chunk, Forall u8_ok chunk → str_len chunk = n → wp (f chunk) P) →
  (∀ l, Forall P l → length l = length chunks → Q l) → wp (mapM f chunks) Q.
Proof.
  intros Hc Hf HQ. eapply wp_mapM; [|exact HQ]. eapply Forall_impl; [exact Hc|]. intros chunk [? ?]. by apply Hf.
Qed.
Lemma wp_rect chunk : Forall u8_ok chunk → str_len chunk = 8 → wp (rect_at order chunk) wire_rect_ok.
Proof.
  intros Hok Hlen. unfold rect_at.
  do 2 (apply wp_bind, wp_i16; [done|lia..|]; intros ? ?). do 2 (apply wp_bind, wp_u16; [done|lia..|]; intros ? ?).
  by apply wp_ret.
Qed.
Lemma wp_rects opcode header expected Q :
  0 ≤ header → (∀ l, header ≤ len → Forall wire_rect_ok l → Q l) → wp (rects_after c bytes opcode header expected) Q.
Proof.
  intros Hh HQ. apply wp_bind, wp_chunks; [done|]. intros chunks Hlen _ Hc.
  eapply wp_each; [exact Hc|apply wp_rect|]. intros l Hl _. by apply HQ.
Qed.
End decoders.

(** ** The decoders *)

(** One read or test of a decoder; bounds follow from the length tests before it. *)
Ltac wire_bounds := solve [done | lia | autounfold with wire_consts in *; lia].
Ltac wire_step := lazymatch goal with
  | |- wp (_ ≫= _) _ => apply wp_bind
  | |- wp (mret _) _ => apply wp_ret
  | |- wp (w_fail _) _ => apply wp_fail
  | |- wp (w_guard _ _) _ => apply wp_guard; let H := fresh "Hg" in intros H
  | |- wp (require_len _ _ _) _ => apply wp_guard; let H := fresh "Hlen" in intros H
  | |- wp (require_exact_len _ _ _) _ => apply wp_guard; let H := fresh "Hlen" in intros H
  | |- wp (validate_wire_image_format _) _ => apply wp_guard; let H := fresh "Hg" in intros H
  | |- wp (validate_wire_property_format _) _ => apply wp_guard; let H := fresh "Hg" in intros H
  | |- wp (u16_at _ _ _) _ => apply wp_u16; [assumption|wire_bounds..|let H := fresh "Hu" in intros ? H]
  | |- wp (u32_at _ _ _) _ => apply wp_u32; [assumption|wire_bounds..|let H := fresh "Hu" in intros ? H]
  | |- wp (u64_at _ _ _) _ => apply wp_u64; [assumption|wire_bounds..|let H := fresh "Hu" in intros ? H]
  | |- wp (i16_at _ _ _) _ => apply wp_i16; [assumption|wire_bounds..|let H := fresh "Hi" in intros ? H]
  | |- wp (byte_at _ _) _ => apply wp_byte; [assumption|wire_bounds..|let H := fresh "Hb" in intros ? H]
  | |- wp (id_at _ _ _) _ => apply wp_id; [assumption|wire_bounds..|let H := fresh "Hid" in intros ? H]
  | |- wp (new_id_at _ _ _) _ => apply wp_new_id; [assumption|wire_bounds..|let H := fresh "Hnew" in intros ? H]
  | |- wp (validate_new_resource_id _ _) _ =>
      apply wp_validate; [assumption|let H := fresh "Hnew" in intros H]
  | |- wp (values_at _ _ _ _ _) _ =>
      apply wp_values_of; [assumption|wire_bounds..|let H := fresh "Hv" in intros ? H]
  | |- wp (text_at _ _ _ _) _ =>
      apply wp_text; [assumption|wire_bounds|unfold u16_ok, u16_MAX in *; wire_bounds|
        let H := fresh "Ht" in let H' := fresh "Hlen" in intros ? H H']
  | |- wp (slice _ _ _) _ => apply wp_slice; [assumption|wire_bounds..|let H := fresh "Hs" in intros ? H ?]
  | |- wp (rects_after _ _ _ _ _) _ => apply wp_rects; [assumption|wire_bounds|let H := fresh "Hr" in intros ? ? H]
  | |- wp (chunks_after _ _ _ _ _) _ =>
      apply wp_chunks; [assumption|wire_bounds|let H := fresh "Hc" in intros ? ? ? H]
  end.
Ltac wire := repeat (wire_step; cbv beta zeta).
Lemma optional_id_ok z : u32_ok z → opt_ok raw_ok (optional_id z).
Proof. intros Hz. unfold optional_id. by case_decide. Qed.
Lemma value_word values bit : Forall (λ p : Z * Z, u32_ok p.2) values → opt_ok u32_ok (value_of values bit).
Proof. intros Hv. by apply (value_of_ok values bit u32_ok). Qed.
Lemma value_id values bit : Forall (λ p : Z * Z, u32_ok p.2) values → opt_ok raw_ok (resource_id <$> value_of values bit).
Proof. intros Hv%(value_word _ bit). by destruct (value_of values bit). Qed.
Lemma u8_const z : 0 ≤ z ≤ 255 → u8_ok z.
Proof. unfold u8_ok, u8_MAX. lia. Qed.
(** The widths of a request, from those of what was read; new identifiers, texts and values first. *)
Ltac widths := unfold packet_widths, event_widths; simpl; split_and?; first
  [ assumption | reflexivity | (by split) | (apply optional_id_ok; assumption) | (apply value_word; assumption)
  | (apply value_id; assumption) | match goal with H : fresh_ok _ ?i |- raw_ok ?i => exact (proj1 H) end
  | match goal with H : name_ok _ ?l |- Forall u8_ok ?l => exact (proj1 (proj1 H)) end
  | match goal with H : text_ok _ ?l |- Forall u8_ok ?l => exact (proj1 H) end
  | (repeat (apply Forall_cons_2; [assumption|]); apply Forall_nil_2)
  | done | (unfold u8_ok, u16_ok, u32_ok, u64_ok, i16_ok, u8_MAX, u16_MAX, u32_MAX, u64_MAX in *; lia) ].
Ltac wire_done :=
  split; [widths|unfold limits_ok, packet_ok, wire_rect_ok, i16_ok; simpl; split_and?; first [assumption | done | lia]].
Ltac fits := split; [widths|].

Lemma cast_i16_ok z : i16_ok (cast_i16 z).
Proof. unfold i16_ok, cast_i16, as_signed, as_unsigned. pose proof (Z.mod_pos_bound z (2 ^ 16)). case_decide; lia. Qed.
Lemma cast_u16_ok z : u16_ok (cast_u 16 z).
Proof. unfold u16_ok, cast_u, as_unsigned, u16_MAX. pose proof (Z.mod_pos_bound z (2 ^ 16)). lia. Qed.
Lemma cast_u8_ok z : u8_ok (cast_u 8 z).
Proof. unfold u8_ok, cast_u, as_unsigned, u8_MAX. pose proof (Z.mod_pos_bound z (2 ^ 8)). lia. Qed.

Section requests.
  Context (c : XWireClientContext) (bytes : list Z) (Hbytes : Forall u8_ok bytes).
  Notation order := (wc_byte_order c).
  Notation len := (str_len bytes).
  Notation ok m := (wp (m c bytes) (request_ok c)).

Lemma one_id_ok opcode n request :
  8 ≤ n → (∀ id, raw_ok id → request_ok c (request id)) → wp (decode_one_id c bytes opcode n request) (request_ok c).
Proof. intros Hn Hr. unfold decode_one_id. wire. by apply Hr. Qed.
Lemma bare_ok opcode n request : request_ok c request → wp (decode_bare bytes opcode n request) (request_ok c).
Proof. intros Hr. unfold decode_bare. by wire. Qed.

Lemma decode_create_window_ok : ok decode_create_window.
Proof. unfold decode_create_window. wire. wire_done. Qed.
Lemma decode_change_window_attributes_ok : ok decode_change_window_attributes.
Proof. unfold decode_change_window_attributes. wire. wire_done. Qed.
Lemma decode_configure_window_ok : ok decode_configure_window.
Proof.
  unfold decode_configure_window. wire. split.
  { simpl. split_and!; first [assumption|by apply value_id|
      unfold value_of; destruct (head _); simpl; first [exact I|apply cast_i16_ok|apply cast_u16_ok|apply cast_u8_ok]]. }
  simpl. split; [done|]. pose proof cast_i16_ok. pose proof cast_u16_ok. pose proof cast_u8_ok.
  unfold value_of. repeat (destruct (head _); simpl); auto 10.
Qed.
Lemma decode_map_window_ok : ok decode_map_window.
Proof. apply one_id_ok; [done|]. intros id Hid. wire_done. Qed.
Lemma decode_reparent_window_ok : ok decode_reparent_window.
Proof. unfold decode_reparent_window. wire. wire_done. Qed.
Lemma decode_translate_coordinates_ok : ok decode_translate_coordinates.
Proof. unfold decode_translate_coordinates. wire. wire_done. Qed.
Lemma decode_set_input_focus_ok : ok decode_set_input_focus.
Proof. unfold decode_set_input_focus. wire. unfold u8_ok in *. wire_done. Qed.
Lemma decode_get_keyboard_mapping_ok : wp (decode_get_keyboard_mapping bytes) (request_ok c).
Proof. unfold decode_get_keyboard_mapping. wire. wire_done. Qed.

Lemma name_ok_weaken n m text : name_ok n text → n ≤ m → name_ok m text.
Proof. intros [[? ?] ?] ?. split; [|done]. split; [done|lia]. Qed.
Lemma u16_le n : u16_ok n → n ≤ u16_MAX.
Proof. unfold u16_ok. lia. Qed.
Hint Resolve name_ok_weaken u16_le : core.

Lemma decode_intern_atom_ok : ok decode_intern_atom.
Proof. unfold decode_intern_atom. wire. fits. simpl. eauto. Qed.
Lemma decode_get_atom_name_ok : ok decode_get_atom_name.
Proof. unfold decode_get_atom_name. wire. wire_done. Qed.
Lemma decode_change_property_ok : ok decode_change_property.
Proof.
  unfold decode_change_property. do 4 (wire_step; cbv beta). apply wp_bind.
  match goal with |- wp (property_mode ?z) ?Q => assert (∀ m, Q m) as Hall; [|
    unfold property_mode; destruct z as [|[[]|[]|]|]; first [apply wp_ret, Hall|apply wp_fail]] end.
  intros mode. wire. match goal with Hg : z0 = _ ∨ _ |- _ => rename Hg into Hformat end.
  pose proof (padded_len_le (z1 * (z0 / 8))).
  assert (0 ≤ z1 * (z0 / 8)) by (apply Z.mul_nonneg_nonneg; [unfold u32_ok in *; lia|by destruct Hformat as [->|[->| ->]]]).
  wire. fits. simpl. unfold text_ok. split_and!; [done|lia|done|].
  match goal with H : str_len _ = _ |- _ => rewrite H end. rewrite Z.add_simpl_l.
  apply Z.mod_mul. by destruct Hformat as [->|[->| ->]].
Qed.
Lemma decode_delete_property_ok : ok decode_delete_property.
Proof. unfold decode_delete_property. wire. wire_done. Qed.
Lemma decode_get_property_ok : ok decode_get_property.
Proof. unfold decode_get_property. wire. wire_done. Qed.
Lemma decode_set_selection_owner_ok : ok decode_set_selection_owner.
Proof. unfold decode_set_selection_owner. wire. wire_done. Qed.
Lemma decode_get_selection_owner_ok : ok decode_get_selection_owner.
Proof. unfold decode_get_selection_owner. wire. wire_done. Qed.
Lemma decode_convert_selection_ok : ok decode_convert_selection.
Proof. unfold decode_convert_selection. wire. wire_done. Qed.
Lemma decode_send_event_ok : ok decode_send_event.
Proof.
  unfold decode_send_event. wire. case_decide; wire; fits; simpl; [|done]. unfold text_ok. split_and!; [done..|lia|lia].
Qed.

Lemma decode_grab_button_ok : ok decode_grab_button.
Proof. unfold decode_grab_button. wire. wire_done. Qed.
Lemma decode_grab_pointer_ok : ok decode_grab_pointer.
Proof. unfold decode_grab_pointer. wire. wire_done. Qed.
Lemma decode_ungrab_pointer_ok : ok decode_ungrab_pointer.
Proof. unfold decode_ungrab_pointer. wire. wire_done. Qed.
Lemma decode_ungrab_button_ok : ok decode_ungrab_button.
Proof. unfold decode_ungrab_button. wire. wire_done. Qed.
Lemma decode_grab_keyboard_ok : ok decode_grab_keyboard.
Proof. unfold decode_grab_keyboard. wire. wire_done. Qed.
Lemma decode_ungrab_keyboard_ok : ok decode_ungrab_keyboard.
Proof. unfold decode_ungrab_keyboard. wire. wire_done. Qed.
Lemma decode_grab_key_ok : ok decode_grab_key.
Proof. unfold decode_grab_key. wire. wire_done. Qed.
Lemma decode_ungrab_key_ok : ok decode_ungrab_key.
Proof. unfold decode_ungrab_key. wire. wire_done. Qed.
Lemma decode_allow_events_ok : ok decode_allow_events.
Proof. unfold decode_allow_events. wire. wire_done. Qed.

Lemma at_most_u8 z : u32_ok z → u8_ok (at_most u8_MAX z).
Proof. unfold u32_ok, u8_ok, at_most. case_decide; unfold u8_MAX in *; lia. Qed.
Lemma at_most_u16 z : u32_ok z → u16_ok (at_most u16_MAX z).
Proof. unfold u32_ok, u16_ok, at_most. case_decide; unfold u16_MAX in *; lia. Qed.
Lemma gc_value_ok v p : u32_ok p.2 → gc_ok v → gc_ok (gc_value v p).
Proof.
  destruct p as [bit z]. simpl. intros Hz (H1 & H2 & H3 & H4 & H5 & H6 & H7 & H8 & H9 & H10).
  pose proof (optional_id_ok z Hz).
  pose proof (at_most_u8 z Hz). pose proof (at_most_u16 z Hz). pose proof (cast_i16_ok z). unfold gc_value.
  destruct bit as [|bit|bit]; [by split_and!| |by split_and!].
  repeat (try (split_and!; assumption); destruct bit as [bit|bit|]); split_and!; assumption.
Qed.
Lemma gc_values_ok values : Forall (λ p, u32_ok p.2) values → gc_ok (foldl gc_value gc_default values).
Proof.
  assert (gc_ok gc_default) as Hd by (unfold gc_ok, i16_ok, u8_ok, u16_ok, u32_ok, u8_MAX, u16_MAX, u32_MAX; simpl; split_and!; done).
  revert Hd. generalize gc_default. induction values as [|p values IH]; intros v Hv Hp; simpl; [done|].
  apply Forall_cons in Hp as [Hp Hrest]. apply IH; [by apply gc_value_ok|done].
Qed.
Lemma decode_create_gc_ok : ok decode_create_gc.
Proof. unfold decode_create_gc. wire. pose proof (gc_values_ok _ Hv). fits. by split. Qed.
Lemma decode_change_gc_ok : ok decode_change_gc.
Proof. unfold decode_change_gc. wire. pose proof (gc_values_ok _ Hv). fits. by split. Qed.
Lemma decode_set_clip_rectangles_ok : ok decode_set_clip_rectangles.
Proof. unfold decode_set_clip_rectangles. wire. wire_done. Qed.
Lemma decode_open_font_ok : ok decode_open_font.
Proof. unfold decode_open_font. wire. fits. simpl. eauto. Qed.
Lemma list_ok opcode n request :
  8 ≤ n → (∀ max pattern, u16_ok max → name_ok u16_MAX pattern → request_ok c (request max pattern)) →
  wp (decode_list c bytes opcode n request) (request_ok c).
Proof. intros Hn Hr. unfold decode_list. wire. apply Hr; eauto. Qed.
Lemma decode_query_extension_ok : ok decode_query_extension.
Proof. unfold decode_query_extension. wire. fits. simpl. eauto. Qed.
Lemma decode_create_pixmap_ok : ok decode_create_pixmap.
Proof. unfold decode_create_pixmap. wire. wire_done. Qed.
Lemma decode_query_best_size_ok : ok decode_query_best_size.
Proof. unfold decode_query_best_size. wire. wire_done. Qed.
Lemma decode_query_colors_ok : ok decode_query_colors.
Proof.
  unfold decode_query_colors. wire. enough (Forall u32_ok (ordered order <$> chunks)) by (fits; simpl; by rewrite length_fmap).
  apply Forall_fmap. eapply Forall_impl; [exact Hc|]. intros chunk [Hlen4 Hok]. pose proof (ordered_range order chunk Hok) as Hr.
  unfold str_len in Hlen4. rewrite Hlen4 in Hr. unfold u32_ok, u32_MAX. simpl in *. lia.
Qed.
Lemma decode_create_colormap_ok : ok decode_create_colormap.
Proof. unfold decode_create_colormap. wire. wire_done. Qed.
Lemma decode_alloc_color_ok : ok decode_alloc_color.
Proof. unfold decode_alloc_color. wire. wire_done. Qed.
Lemma decode_alloc_named_color_ok : ok decode_alloc_named_color.
Proof. unfold decode_alloc_named_color. wire. fits. simpl. eauto. Qed.
Lemma decode_create_cursor_ok : ok decode_create_cursor.
Proof. unfold decode_create_cursor. wire. wire_done. Qed.
Lemma decode_create_glyph_cursor_ok : ok decode_create_glyph_cursor.
Proof. unfold decode_create_glyph_cursor. wire. wire_done. Qed.

Lemma decode_clear_area_ok : ok decode_clear_area.
Proof. unfold decode_clear_area. wire. wire_done. Qed.
Lemma decode_copy_area_ok : ok decode_copy_area.
Proof. unfold decode_copy_area. wire. wire_done. Qed.
Lemma decode_poly_fill_rectangle_ok : ok decode_poly_fill_rectangle.
Proof. unfold decode_poly_fill_rectangle. wire. wire_done. Qed.

Lemma wp_xpoint chunk :
  Forall u8_ok chunk → str_len chunk = 4 → wp (xpoint_at c chunk) (λ p, i16_ok (xp_x p) ∧ i16_ok (xp_y p)).
Proof. intros Hok Hlen. unfold xpoint_at. wire. done. Qed.
Lemma wp_segment chunk : Forall u8_ok chunk → str_len chunk = 8 → wp (segment_damage c chunk) bounds_ok.
Proof.
  intros Hok Hlen. unfold segment_damage. wire. unfold bounds_ok, i16_ok, i32_saturating_add, i32_saturating_sub, i32_clamp. simpl.
  unfold i32_MIN, i32_MAX. lia.
Qed.
Lemma decode_poly_segment_ok : ok decode_poly_segment.
Proof.
  unfold decode_poly_segment. wire. apply (wp_each _ 8 bounds_ok); [done|apply wp_segment|].
  intros damage Hd _. cbv beta. wire. by fits.
Qed.
Lemma add_points_ok relative points s :
  Forall (λ p, i16_ok (xp_x p) ∧ i16_ok (xp_y p)) points → Forall (λ p, i16_ok (xp_x p) ∧ i16_ok (xp_y p)) s.1 →
  Forall (λ p, i16_ok (xp_x p) ∧ i16_ok (xp_y p)) (foldl (add_point relative) s points).1.
Proof.
  revert s. induction points as [|p points IH]; intros s Hp Hs; simpl; [done|].
  apply Forall_cons in Hp as [Hp Hrest]. apply IH; [done|]. unfold add_point. destruct s as [l previous].
  cbv beta iota zeta. simpl. apply Forall_app. split; [done|]. apply Forall_singleton.
  case_decide; [|done]. simpl. unfold i16_ok, i16_saturating_add. lia.
Qed.
Lemma decode_poly_line_ok : ok decode_poly_line.
Proof.
  unfold decode_poly_line. wire. apply (wp_each _ 4 (λ p, i16_ok (xp_x p) ∧ i16_ok (xp_y p))); [done|apply wp_xpoint|].
  intros points Hp _. cbv beta. wire. match goal with |- context [foldl ?f ?s points] =>
    assert (Forall (λ p, i16_ok (xp_x p) ∧ i16_ok (xp_y p)) (foldl f s points).1) by (by apply add_points_ok) end. by fits.
Qed.

(** The bounds grow around the points seen; before the first they are empty. *)
Definition bounds_state (s : Z * Z * Z * Z) : Prop :=
  let '(min_x, min_y, max_x, max_y) := s in
  s = (i32_MAX, i32_MAX, i32_MIN, i32_MIN) ∨
  (i16_ok min_x ∧ i16_ok min_y ∧ i16_ok max_x ∧ i16_ok max_y ∧ min_x ≤ max_x ∧ min_y ≤ max_y).
Lemma grow_bounds_ok points s :
  Forall (λ p, i16_ok (xp_x p) ∧ i16_ok (xp_y p)) points → bounds_state s → bounds_state (foldl grow_bounds s points).
Proof.
  revert s. induction points as [|p points IH]; intros s Hp Hs; simpl; [done|].
  apply Forall_cons in Hp as [Hp Hrest]. apply IH; [done|]. destruct s as [[[a b] m] n]. unfold bounds_state in *. simpl.
  right. unfold i16_ok in *. destruct Hs as [Hs|Hs].
  - assert (a = i32_MAX ∧ b = i32_MAX ∧ m = i32_MIN ∧ n = i32_MIN) as (-> & -> & -> & ->) by (by simplify_eq).
    unfold i32_MIN, i32_MAX. lia.
  - lia.
Qed.
Lemma point_damage_bounds_ok points :
  Forall (λ p, i16_ok (xp_x p) ∧ i16_ok (xp_y p)) points → from_option bounds_ok True (point_damage_bounds points).
Proof.
  intros Hp. unfold point_damage_bounds.
  pose proof (grow_bounds_ok points (i32_MAX, i32_MAX, i32_MIN, i32_MIN) Hp (or_introl eq_refl)) as Hs.
  destruct (foldl _ _ _) as [[[a b] m] n]. case_decide; [done|]. simpl. destruct Hs as [Hs|Hs]; [by simplify_eq|].
  unfold bounds_ok, i16_ok, i32_saturating_add, i32_saturating_sub, i32_clamp, i32_MIN, i32_MAX in *. simpl. lia.
Qed.
Lemma decode_fill_poly_ok : ok decode_fill_poly.
Proof.
  unfold decode_fill_poly. wire. apply (wp_each _ 4 (λ p, i16_ok (xp_x p) ∧ i16_ok (xp_y p))); [done|apply wp_xpoint|].
  intros points Hp _. cbv beta. wire. pose proof (point_damage_bounds_ok points Hp). by fits.
Qed.
Lemma decode_poly_fill_arc_ok : ok decode_poly_fill_arc.
Proof.
  unfold decode_poly_fill_arc, arc_damage_bounds. wire. eapply (wp_each _ 12 wire_rect_ok); [done| |].
  - intros chunk Hok Hlen. unfold rect_at. wire. done.
  - intros damage Hd _. cbv beta. wire. by fits.
Qed.
Lemma decode_put_image_ok : ok decode_put_image.
Proof. unfold decode_put_image. wire. fits. simpl; unfold text_ok, i16_ok; split_and!; first [done|lia]. Qed.
Lemma decode_get_image_ok : ok decode_get_image.
Proof. unfold decode_get_image. wire. wire_done. Qed.

(** ** Text, event masks and the extensions *)

Lemma str_len_app (l k : list Z) : str_len (l ++ k) = str_len l + str_len k.
Proof. unfold str_len. rewrite length_app. lia. Qed.

(** Every round reads at least one byte, so that as many rounds as bytes are enough, and the text is
    no longer than what has been read. *)
Lemma text_items_ok fuel items offset text Q :
  Forall u8_ok items → 0 ≤ offset → str_len items - offset ≤ Z.of_nat fuel →
  Forall u8_ok text → str_len text ≤ offset ≤ str_len items →
  (∀ text, text_ok (str_len items) text → Q text) → wp (text_items bytes fuel items offset text) Q.
Proof.
  intros Hi. revert offset text. induction fuel as [|fuel IH]; intros offset text Ho Hf Ht Hl HQ; simpl.
  - rewrite decide_False by lia. apply wp_ret, HQ. split; [done|lia].
  - case_decide as Hlt; [|apply wp_ret, HQ; split; [done|lia]]. wire.
    match goal with H : u8_ok ?z |- _ => rename z into n; rename H into Hn end. unfold u8_ok, u8_MAX in Hn.
    case_decide; [wire; apply HQ; split; [done|lia]|].
    case_decide; [wire; apply IH; [lia..|done|lia|done]|].
    case_decide; [wire; apply IH; [lia..|by apply Forall_app|rewrite str_len_app; lia|done]|].
    case_decide; [wire; apply IH; [lia..|by apply Forall_app|rewrite str_len_app; lia|done]|].
    wire. lia.
Qed.
Lemma decode_poly_text8_ok : ok decode_poly_text8.
Proof.
  unfold decode_poly_text8. wire. apply text_items_ok; [done|lia|unfold str_len; lia|constructor|unfold str_len; simpl; lia|].
  intros text [Ht Hlt]. cbv beta. wire. fits. simpl. unfold text_ok, i16_ok. split_and!; first [done | lia].
Qed.
Lemma decode_image_text8_ok : ok decode_image_text8.
Proof.
  unfold decode_image_text8. wire_step. wire_step. wire_step. wire_step. cbv beta. pose proof (padded_len_le z).
  unfold u8_ok in *. wire. fits. simpl. unfold text_ok, i16_ok. split_and!; first [done | lia].
Qed.
Lemma event_masks_ok count offset Q :
  0 ≤ offset →
  (∀ masks offset', length masks = count →
     Forall (λ m : Z * list Z, u16_ok m.1 ∧ (length m.2 ≤ 8)%nat ∧ Forall u32_ok m.2) masks → Q (masks, offset')) →
  wp (event_masks c bytes count offset) Q.
Proof.
  revert offset Q. induction count as [|count IH]; intros offset Q Ho HQ; simpl.
  - apply wp_ret, HQ; [done|constructor].
  - wire_step; wire_step. cbv beta. wire_step; wire_step. cbv beta. wire_step; wire_step. cbv beta.
    match goal with H : u16_ok ?z |- context [?z ≤ 8] => rename z into words; rename H into Hw end. unfold u16_ok in Hw.
    wire. apply IH; [lia|]. intros masks offset' Hlen Hm. apply wp_ret, HQ; [simpl; congruence|]. constructor; [|done].
    simpl. split; [done|]. rewrite length_fmap, length_chunks_exact. split.
    + match goal with H : str_len _ = _ |- _ => unfold str_len in H end.
      apply Nat.Div0.div_le_upper_bound. lia.
    + apply Forall_fmap. eapply Forall_impl; [by apply chunks_exact_ok|]. intros chunk [Hl4 Hok].
      pose proof (ordered_range order chunk Hok) as Hr. unfold str_len in Hl4. rewrite Hl4 in Hr.
      unfold u32_ok, u32_MAX. simpl in *. lia.
Qed.
Lemma decode_xi_select_events_ok : ok decode_xi_select_events.
Proof.
  unfold decode_xi_select_events. wire. apply event_masks_ok; [done|]. intros masks offset Hcount Hm. cbv beta iota. wire.
  split.
  - simpl. split; [done|]. eapply Forall_impl; [exact Hm|]. by intros m (? & _ & ?).
  - simpl. unfold u16_ok in *. split; [lia|done].
Qed.

Lemma by_opcode_ok table key otherwise :
  Forall (λ p : Z * W XWireRequest, wp p.2 (request_ok c)) table → wp otherwise (request_ok c) →
  wp (by_opcode table key otherwise) (request_ok c).
Proof.
  intros Ht Ho. unfold by_opcode. destruct (find_first _ table) as [p|] eqn:Hp; [|done]. simpl.
  apply find_first_Some in Hp as [Hin _]. rewrite Forall_forall in Ht. by apply Ht.
Qed.
Lemma unknown_minor_ok Q : 4 ≤ len → wp (unknown_minor bytes) Q.
Proof. intros Hl. unfold unknown_minor. by wire. Qed.
Lemma unknown_major_ok Q : 4 ≤ len → wp (unknown_major bytes) Q.
Proof. intros Hl. unfold unknown_major. by wire. Qed.
Lemma query_version_ok major minor request :
  (∀ a b, u32_ok a → u32_ok b → request_ok c (request a b)) →
  wp (decode_extension_query_version c bytes major minor request) (request_ok c).
Proof. intros Hr. unfold decode_extension_query_version. wire. by apply Hr. Qed.
Lemma glx_attributes_ok header count_at Q :
  4 ≤ header → 0 ≤ count_at → count_at + 4 ≤ header → (header ≤ len → Q ()) →
  wp (glx_attributes c bytes header count_at) Q.
Proof. intros Hh Hc Ha HQ. unfold glx_attributes. wire. apply HQ. lia. Qed.
Lemma glx_context_ok a b d e :
  0 ≤ a ≤ 24 → 0 ≤ b ≤ 24 → 0 ≤ d ≤ 24 → 0 ≤ e ≤ 24 → 28 ≤ len →
  wp (glx_context_request c bytes a b d e) (request_ok c).
Proof. intros. unfold glx_context_request. wire. by fits. Qed.
Lemma decode_dri3_pixmap_from_buffers_ok : ok decode_dri3_pixmap_from_buffers.
Proof.
  unfold decode_dri3_pixmap_from_buffers. wire. fits.
  unfold DMA_BUF_MAX_PLANES, u8_ok in *. simpl in *.
  rewrite ?Forall_cons. split_and!; first [done | lia | constructor].
Qed.
Lemma decode_present_pixmap_ok : ok decode_present_pixmap.
Proof.
  unfold decode_present_pixmap. wire. apply (wp_each _ 8 (λ n : XResourceId * Z, raw_ok n.1 ∧ u32_ok n.2)); [done| |].
  - intros chunk Hok Hlen. unfold present_notify. wire. done.
  - intros notifies Hn _. cbv beta. wire. fits. simpl. unfold i16_ok. split_and!; first [done|lia].
Qed.
Lemma decode_xkb_select_events_ok : ok decode_xkb_select_events.
Proof.
  unfold decode_xkb_select_events. wire. destruct (Z.testbit _ 2); [|wire; by fits].
  destruct (Z.testbit _ 0); case_decide; wire; by fits.
Qed.
Lemma decode_shm_put_image_ok : ok decode_shm_put_image.
Proof. unfold decode_shm_put_image. wire. wire_done. Qed.
Lemma xfixes_rects_ok Q :
  (∀ chunks, 8 ≤ len → Forall (λ chunk, str_len chunk = 8 ∧ Forall u8_ok chunk) chunks → Q chunks) →
  wp (xfixes_chunks bytes) Q.
Proof. intros HQ. unfold xfixes_chunks. wire. by apply HQ. Qed.
Lemma wp_rect_list chunks Q :
  Forall (λ chunk, str_len chunk = 8 ∧ Forall u8_ok chunk) chunks → (∀ l, Forall wire_rect_ok l → Q l) →
  wp (mapM (rect_at order) chunks) Q.
Proof.
  intros Hc HQ. apply (wp_each _ 8 wire_rect_ok); [done| |intros l Hl _; by apply HQ].
  intros chunk Hok Hlen. unfold rect_at. by wire.
Qed.

Context (Hmin : 4 ≤ len).

(** Goes through a table: every entry is a short decoder of its own. *)
Ltac table := wire; cbv zeta; apply by_opcode_ok;
  [repeat apply Forall_cons_2; [..|apply Forall_nil_2]; cbn [snd]|first [by apply unknown_minor_ok|by apply unknown_major_ok]].
Lemma decode_glx_ok : ok decode_glx.
Proof.
  unfold decode_glx. table; try solve [wire; wire_done].
  - wire. apply glx_context_ok; lia.
  - wire_step. apply glx_attributes_ok; [lia..|]. intros Hl. apply glx_context_ok; lia.
  - wire_step. apply glx_attributes_ok; [lia..|]. intros Hl. wire. by fits.
Qed.
Lemma decode_xfixes_ok : ok decode_xfixes.
Proof.
  unfold decode_xfixes. table; try solve [wire; wire_done].
  - by apply query_version_ok.
  - wire_step. apply xfixes_rects_ok. intros chunks Hl Hc. wire. apply wp_rect_list; [done|]. intros l Hr. wire. by fits.
  - wire_step. apply xfixes_rects_ok. intros chunks Hl Hc. wire. apply wp_rect_list; [done|]. intros l Hr. wire. by fits.
Qed.
Lemma decode_dri3_ok : ok decode_dri3.
Proof.
  unfold decode_dri3. table; try solve [wire; wire_done].
  - by apply query_version_ok.
  - apply decode_dri3_pixmap_from_buffers_ok.
Qed.
Lemma decode_present_ok : ok decode_present.
Proof.
  unfold decode_present. table; try solve [wire; wire_done].
  - by apply query_version_ok.
  - apply decode_present_pixmap_ok.
Qed.
Lemma decode_x_input_ok : ok decode_x_input.
Proof.
  unfold decode_x_input. table; try solve [wire; wire_done].
  apply decode_xi_select_events_ok.
Qed.
Lemma decode_big_requests_ok : wp (decode_big_requests bytes) (request_ok c).
Proof.
  unfold decode_big_requests. wire. case_decide; [by apply bare_ok|by apply unknown_major_ok].
Qed.
Lemma decode_x_keyboard_ok : ok decode_x_keyboard.
Proof.
  unfold decode_x_keyboard. table; try solve [wire; wire_done].
  apply decode_xkb_select_events_ok.
Qed.
Lemma decode_randr_ok : ok decode_randr.
Proof. unfold decode_randr, randr_window. table; solve [wire; wire_done]. Qed.
Lemma decode_mit_shm_ok : ok decode_mit_shm.
Proof.
  unfold decode_mit_shm. table; try solve [wire; wire_done]. apply decode_shm_put_image_ok.
Qed.
Lemma region_single_ok r : wire_rect_ok r → Forall wire_rect_ok (rects (region_single r)).
Proof. intros Hr. unfold region_single. case_decide; simpl; [constructor|by apply Forall_singleton]. Qed.
Lemma decode_sophia_present_ok : ok decode_sophia_present.
Proof.
  unfold decode_sophia_present. wire. case_decide; [by apply unknown_major_ok|]. wire.
  match goal with |- context [region_single ?r] => assert (Forall wire_rect_ok (rects (region_single r))) as Hr by by apply region_single_ok end.
  by split.
Qed.
Lemma decode_generic_event_ok : ok decode_generic_event.
Proof. unfold decode_generic_event. wire. wire_done. Qed.
Lemma decode_sync_ok : ok decode_sync.
Proof. unfold decode_sync. table; [wire; wire_done|]. by apply one_id_ok. Qed.
End requests.

(** ** Every request *)

Create HintDb wire_db.
#[export] Hint Resolve decode_create_window_ok decode_change_window_attributes_ok decode_configure_window_ok
  decode_map_window_ok decode_reparent_window_ok decode_translate_coordinates_ok
  decode_set_input_focus_ok decode_get_keyboard_mapping_ok decode_intern_atom_ok
  decode_get_atom_name_ok decode_change_property_ok decode_delete_property_ok decode_get_property_ok
  decode_set_selection_owner_ok decode_get_selection_owner_ok decode_convert_selection_ok
  decode_send_event_ok decode_grab_button_ok decode_grab_pointer_ok decode_ungrab_pointer_ok
  decode_ungrab_button_ok decode_grab_keyboard_ok decode_ungrab_keyboard_ok decode_grab_key_ok
  decode_ungrab_key_ok decode_allow_events_ok decode_create_gc_ok decode_change_gc_ok
  decode_set_clip_rectangles_ok decode_open_font_ok decode_query_extension_ok decode_create_pixmap_ok
  decode_query_best_size_ok decode_query_colors_ok decode_create_colormap_ok decode_alloc_color_ok
  decode_alloc_named_color_ok decode_create_cursor_ok decode_create_glyph_cursor_ok
  decode_clear_area_ok decode_copy_area_ok decode_poly_fill_rectangle_ok decode_poly_segment_ok
  decode_poly_line_ok decode_fill_poly_ok decode_poly_fill_arc_ok decode_put_image_ok
  decode_get_image_ok decode_poly_text8_ok decode_image_text8_ok decode_xi_select_events_ok
  decode_dri3_pixmap_from_buffers_ok decode_present_pixmap_ok decode_xkb_select_events_ok
  decode_shm_put_image_ok decode_glx_ok decode_xfixes_ok decode_dri3_ok decode_present_ok
  decode_x_input_ok decode_big_requests_ok decode_x_keyboard_ok decode_randr_ok decode_mit_shm_ok
  decode_sophia_present_ok decode_generic_event_ok decode_sync_ok : wire_db.

Lemma core_decoders_ok c bytes :
  Forall u8_ok bytes → 4 ≤ str_len bytes → Forall (λ p : Z * W XWireRequest, wp p.2 (request_ok c)) (core_decoders c bytes).
Proof.
  intros Hb Hm. unfold core_decoders.
  repeat apply Forall_cons_2; [..|apply Forall_nil_2]; cbn [snd];
    first [ solve [auto with wire_db] | by apply bare_ok | (apply one_id_ok; [done..|]; intros; by split)
          | (apply list_ok; [done..|]; intros; fits; by split) ].
Qed.

Lemma decode_core_ok c bytes :
  Forall u8_ok bytes →
  wp (decode_x11_core_request c bytes) (λ request, request_ok c request ∧
    ∃ opcode units, byte_at bytes 0 = Some (Ok opcode) ∧ u16_at (wc_byte_order c) bytes 2 = Some (Ok units) ∧
        str_len bytes = units * 4 ∧ opcode ∈ (core_decoders c bytes).*1).
Proof.
  intros Hb. unfold decode_x11_core_request. wire_step; wire_step; cbv beta.
  apply wp_bind. destruct (byte_at bytes 0) as [[opcode|e]|] eqn:Ho.
  2,3: exfalso; assert (wp (byte_at bytes 0) (λ _, True)) as Hw by (by wire);
    rewrite Ho in Hw; unfold byte_at, slice in Ho; rewrite decide_True in Ho by lia; done.
  simpl. apply wp_bind. destruct (u16_at _ bytes 2) as [[units|e]|] eqn:Hu.
  2,3: exfalso; unfold u16_at, int_at, slice in Hu; rewrite decide_True in Hu by lia; done.
  simpl. wire. unfold by_opcode. destruct (find_first _ _) as [p|] eqn:Hp.
  - apply find_first_Some in Hp as [Hin Hp]. simpl. pose proof (core_decoders_ok c bytes Hb Hg) as Hall.
    rewrite Forall_forall in Hall. eapply wp_mono; [by apply Hall|]. intros request Hr. split; [done|].
    exists opcode, units. split_and!; [done..|lia|]. apply (list_elem_of_fmap fst (core_decoders c bytes) opcode). by exists p.
  - simpl. by apply unknown_major_ok.
Qed.

(** A client of namespace 1 creates a window of 8 by 8 pixels. *)
Definition example_context : XWireClientContext :=
  mk_wire_context LittleEndian (from_raw 1) (from_raw 5) (Some (mk_range 2097152 2097151)).
Definition example_create_window : list Z :=
  [1; 24; 8; 0; 1; 0; 32; 0; 32; 0; 0; 0; 3; 0; 255; 255; 8; 0; 8; 0; 0; 0; 1; 0; 0; 0; 0; 0; 0; 0; 0; 0].
Definition example_created : XWireRequest :=
  ReqCreateWindow
    (mk_request (from_raw 5) (from_raw 1)
       (CreateWindow (resource_id 2097153) (surface_id 2097153 1) (mk_rect 3 (-1) 8 8) (mk_constraints None None) 1))
    (resource_id 32) 24 0 None None None None.
(** Another client's identifier is refused. *)
Lemma foreign_identifier_refused :
  decode_x11_core_request
    (mk_wire_context LittleEndian (from_raw 2) (from_raw 5) (Some (mk_range 4194304 2097151))) example_create_window =
  Some (Err (WpResourceIdOutsideClientRange 2097153)).
Proof. by vm_compute. Qed.
