(* ===== verification/XKeyboard.v ===== *)
(** * Keyboards of the X authority
    ([sophia-x-authority/src/keyboard.rs])

    The keymap clients are shown, compiled by xkbcommon from the session's configuration, and the two
    translations of evdev keys: through xkbcommon's state and by hand.  The C library is a parameter:
    a compiled keymap is the symbols of its keys by level. *)

From S2P Require Import Prelude Text.
From stdpp Require Import strings.
Local Open Scope Z_scope.

(** ** The configuration *)

Definition XKB_RMLVO_FIELD_MAX_BYTES : Z := 128.
Record XkbRmlvoConfig : Type := mk_rmlvo {
  rmlvo_rules : list Z; rmlvo_model : list Z; rmlvo_layout : list Z; rmlvo_variant : list Z; rmlvo_options : list Z;
}.
Definition rmlvo_default : XkbRmlvoConfig := mk_rmlvo (str "evdev") (str "pc105") (str "us") [] [].
Inductive XkbKeyboardError : Type := InvalidConfiguration | KeymapCompilationFailed.
#[export] Instance xkb_error_eq_dec : EqDecision XkbKeyboardError.
Proof. solve_decision. Defined.

Definition rmlvo_field_bad (value : list Z) : Prop := str_len value > XKB_RMLVO_FIELD_MAX_BYTES ∨ 0 ∈ value.
#[export] Instance rmlvo_field_bad_dec value : Decision (rmlvo_field_bad value).
Proof. unfold rmlvo_field_bad; apply _. Defined.
Definition rmlvo_validate (c : XkbRmlvoConfig) : result unit XkbKeyboardError :=
  ensure! (¬ Exists rmlvo_field_bad
             [rmlvo_rules c; rmlvo_model c; rmlvo_layout c; rmlvo_variant c; rmlvo_options c])
    else InvalidConfiguration in
  ensure! (¬ (rmlvo_rules c = [] ∨ rmlvo_model c = [] ∨ rmlvo_layout c = [])) else InvalidConfiguration in
  Ok ().

(** ** The keymap clients see *)

Record XkbKeymapSnapshot : Type := mk_keymap {
  km_config : XkbRmlvoConfig; km_min_keycode : Z; km_max_keycode : Z;
  km_keysyms : list (list Z); km_modifier_map : list (Z * Z);
}.
Definition km_modifiers : list (Z * Z) :=
  [(50, 1); (62, 1); (66, 2); (37, 4); (105, 4); (64, 8); (108, 8); (77, 16); (133, 64); (134, 64)].

(** [Keymap::key_get_syms_by_level] *)
Definition XkbKeymap : Type := Z → Z → Z → list Z.

Section xkbcommon.
(** [Keymap::new_from_names] with the five names. *)
Context (new_from_names : XkbRmlvoConfig → option XkbKeymap).

Definition compile_keymap (config : XkbRmlvoConfig) : result XkbKeymap XkbKeyboardError :=
  let? _ := rmlvo_validate config in ok_or (new_from_names config) KeymapCompilationFailed.
Definition key_pair (keymap : XkbKeymap) (raw : Z) : list Z :=
  let base := default 0 (head (keymap raw 0 0)) in
  let shifted := default base (head (keymap raw 0 1)) in
  [base; shifted].
Definition keymap_new (config : XkbRmlvoConfig) : result XkbKeymapSnapshot XkbKeyboardError :=
  let? keymap := compile_keymap config in
  Ok (mk_keymap config 8 u8_MAX (key_pair keymap <$> seqZ 8 (u8_MAX - 8 + 1)) km_modifiers).

(** [xkb::State]: what it remembers, a key going up or down, and its effective modifiers. *)
Context {S : Type} (state_new : XkbKeymap → S) (update_key : S → Z → bool → S) (serialize_mods : S → Z).

Definition xkb_modifier_mask (s : S) : Z :=
  let mask := Z.land (serialize_mods s) 255 in if decide (mask ≤ u16_MAX) then mask else 0.
Definition keyboard_state_new (config : XkbRmlvoConfig) : result S XkbKeyboardError :=
  let? keymap := compile_keymap config in Ok (state_new keymap).
(** [evdev_keycode.checked_add(8).and_then(u8::try_from)], at least eight. *)
Definition x_keycode (evdev_keycode : Z) : option Z :=
  keycode ← checked_add u32_MAX evdev_keycode 8; if decide (keycode ≤ u8_MAX ∧ 8 ≤ keycode) then Some keycode else None.
Definition xkb_map_evdev_key (s : S) (evdev_keycode : Z) (pressed : bool) : option (Z * Z) * S :=
  match x_keycode evdev_keycode with
  | None => (None, s)
  | Some keycode => (Some (keycode, xkb_modifier_mask s), update_key s keycode pressed)
  end.
End xkbcommon.

Definition core_mapping (m : XkbKeymapSnapshot) (first_keycode count : Z) : list Z :=
  mjoin ((λ offset,
    let keycode := saturating_add u8_MAX first_keycode offset in
    default [0; 0] (index ← checked_sub keycode (km_min_keycode m); km_keysyms m !! Z.to_nat index)) <$>
    seqZ 0 count).

(** ** Modifiers by hand *)

Record XCoreKeyboardMapper : Type := mk_mapper {
  mp_shift : Z; mp_control : Z; mp_alt : Z; mp_caps_lock : bool;
}.
Definition mapper_new : XCoreKeyboardMapper := mk_mapper 0 0 0 false.
Definition update_modifier_bit (bits bit : Z) (pressed : bool) : Z :=
  if pressed then Z.lor bits bit else Z.land bits (Z.lnot bit).
Definition bit_of (b : bool) : Z := if b then 1 else 0.
Definition core_modifier_mask (m : XCoreKeyboardMapper) : Z :=
  Z.lor (Z.lor (Z.lor (bit_of (bool_decide (0 < mp_shift m))) (Z.shiftl (bit_of (mp_caps_lock m)) 1))
           (Z.shiftl (bit_of (bool_decide (0 < mp_control m))) 2))
    (Z.shiftl (bit_of (bool_decide (0 < mp_alt m))) 3).
Definition mapper_key (m : XCoreKeyboardMapper) (evdev_keycode : Z) (pressed : bool) : XCoreKeyboardMapper :=
  let '(mk_mapper shift control alt caps) := m in
  if decide (evdev_keycode = 42) then mk_mapper (update_modifier_bit shift 1 pressed) control alt caps
  else if decide (evdev_keycode = 54) then mk_mapper (update_modifier_bit shift 2 pressed) control alt caps
  else if decide (evdev_keycode = 29) then mk_mapper shift (update_modifier_bit control 1 pressed) alt caps
  else if decide (evdev_keycode = 97) then mk_mapper shift (update_modifier_bit control 2 pressed) alt caps
  else if decide (evdev_keycode = 56) then mk_mapper shift control (update_modifier_bit alt 1 pressed) caps
  else if decide (evdev_keycode = 100) then mk_mapper shift control (update_modifier_bit alt 2 pressed) caps
  else if decide (evdev_keycode = 58) then if pressed then mk_mapper shift control alt (negb caps) else m
  else m.
Definition core_map_evdev_key (m : XCoreKeyboardMapper) (evdev_keycode : Z) (pressed : bool) :
    option (Z * Z) * XCoreKeyboardMapper :=
  if decide (evdev_keycode = 0) then (None, m)
  else
    let state := core_modifier_mask m in
    ((λ keycode, (keycode, state)) <$> x_keycode evdev_keycode, mapper_key m evdev_keycode pressed).

(** ** The two maps describe the same keyboard *)

Lemma compiled_keymap_shape new_from_names config m :
  keymap_new new_from_names config = Ok m →
  km_min_keycode m = 8 ∧ km_max_keycode m = 255 ∧ length (km_keysyms m) = 248%nat ∧
  Forall (λ pair, length pair = 2%nat) (km_keysyms m).
Proof.
  unfold keymap_new. destruct (compile_keymap _ _) as [keymap|]; [|done]. intros [= <-]; simpl.
  split_and!; [done..|]. apply Forall_forall. intros pair Hin.
  change (pair ∈ key_pair keymap <$> seqZ 8 248) in Hin.
  apply list_elem_of_fmap in Hin as (raw & -> & _). done.
Qed.
(** The core map of a keycode is its entry in the map of the keyboard extension; outside the range
    of the map it is empty. *)
Lemma core_mapping_one m keycode :
  0 ≤ keycode ≤ 255 →
  core_mapping m keycode 1 =
    if decide (km_min_keycode m ≤ keycode) then default [0; 0] (km_keysyms m !! Z.to_nat (keycode - km_min_keycode m))
    else [0; 0].
Proof.
  intros Hk. unfold core_mapping. simpl. rewrite app_nil_r. unfold saturating_add, checked_sub, u8_MAX.
  rewrite Z.add_0_r, Z.min_l by lia. repeat case_decide; try lia; done.
Qed.

(** ** The modifiers of a run of keys *)

Definition mapper_run (events : list (Z * bool)) : XCoreKeyboardMapper :=
  foldl (λ m e, (core_map_evdev_key m e.1 e.2).2) mapper_new events.
(** Whether the last event of a key pressed it. *)
Definition held (events : list (Z * bool)) (key : Z) : bool :=
  from_option snd false (last (filter (λ e : Z * bool, e.1 = key) events)).
Definition presses (events : list (Z * bool)) (key : Z) : nat :=
  length (filter (λ e : Z * bool, e = (key, true)) events).

Lemma held_app events key pressed k :
  held (events ++ [(key, pressed)]) k = if decide (key = k) then pressed else held events k.
Proof.
  unfold held. rewrite filter_app, filter_cons, filter_nil. simpl. case_decide; [by rewrite last_snoc|by rewrite app_nil_r].
Qed.
Lemma presses_app events key pressed k :
  presses (events ++ [(key, pressed)]) k = (presses events k + if decide ((key, pressed) = (k, true)) then 1 else 0)%nat.
Proof. unfold presses. rewrite filter_app, filter_cons, filter_nil, length_app. by case_decide. Qed.

(** The two bits of a modifier are its two keys. *)
Definition pair_bits (events : list (Z * bool)) (one two : Z) : Z :=
  bit_of (held events one) + 2 * bit_of (held events two).
Lemma mapper_run_exact events :
  mapper_run events =
  mk_mapper (pair_bits events 42 54) (pair_bits events 29 97) (pair_bits events 56 100) (Nat.odd (presses events 58)).
Proof.
  unfold mapper_run. induction events as [|[key pressed] events IH] using rev_ind; [done|].
  rewrite foldl_snoc, IH. unfold core_map_evdev_key, pair_bits. simpl.
  rewrite !held_app, presses_app, Nat.odd_add.
  destruct (decide (key = 0)) as [->|Hz]; simpl.
  { repeat (rewrite decide_False by done). by rewrite xorb_false_r. }
  unfold mapper_key.
  assert (∀ k b, decide ((key, b) = (k, true)) = decide ((key, b) = (k, true))) as _ by done.
  repeat (case_decide; simplify_eq; try done; simpl); 
    repeat match goal with |- context [held ?e ?k] => destruct (held e k) end;
    try destruct pressed; simplify_eq; simpl; rewrite ?xorb_false_r, ?xorb_true_r; done.
Qed.

Definition held_any (events : list (Z * bool)) (one two : Z) : bool := held events one || held events two.
(** The modifiers as the core protocol numbers them. *)
Definition modifiers_held (events : list (Z * bool)) : Z :=
  bit_of (held_any events 42 54) + 2 * bit_of (Nat.odd (presses events 58)) +
  4 * bit_of (held_any events 29 97) + 8 * bit_of (held_any events 56 100).
Lemma pair_bits_positive events one two : bool_decide (0 < pair_bits events one two) = held_any events one two.
Proof. unfold pair_bits, held_any. by destruct (held events one), (held events two). Qed.
Lemma mapper_mask_exact events : core_modifier_mask (mapper_run events) = modifiers_held events.
Proof.
  rewrite mapper_run_exact. unfold core_modifier_mask, modifiers_held. simpl. rewrite !pair_bits_positive.
  by destruct (held_any events 42 54), (Nat.odd _), (held_any events 29 97), (held_any events 56 100).
Qed.

(** Whatever keys went up and down before, a key event is reported with the keycode of the core
    protocol and the modifiers in force before it: shift, control and alt while one of their two keys
    is held, caps lock after an odd number of presses; keys outside the core range are not reported. *)
Theorem core_keys_reported events key pressed :
  0 ≤ key →
  (core_map_evdev_key (mapper_run events) key pressed).1 =
    if decide (1 ≤ key ≤ 247) then Some (key + 8, modifiers_held events) else None.
Proof.
  intros Hk. rewrite <-mapper_mask_exact. unfold core_map_evdev_key.
  case_decide as Hz; [subst; by rewrite decide_False by lia|]. unfold x_keycode, checked_add, u8_MAX, u32_MAX.
  repeat case_decide; simpl; repeat case_decide; done || lia.
Qed.
Lemma core_keys_reported_witness :
  (core_map_evdev_key (mapper_run [(42, true); (54, true); (42, false); (58, true); (58, false)]) 30 true).1 =
  Some (38, 3).
Proof.
  rewrite (core_keys_reported [(42, true); (54, true); (42, false); (58, true); (58, false)] 30 true) by lia.
  vm_compute. reflexivity.
Defined.

(** The core keyboard mapping and the map of the keyboard extension, which clients read
    independently, describe the same symbols: asking for the whole core range returns the entries of
    the extension's map one after the other, two symbols for each of the 248 keycodes. *)
Theorem keyboard_maps_agree new_from_names config m :
  keymap_new new_from_names config = Ok m →
  core_mapping m (km_min_keycode m) (km_max_keycode m - km_min_keycode m + 1) = mjoin (km_keysyms m) ∧
  length (mjoin (km_keysyms m)) = 496%nat.
Proof.
  intros (Hmin & Hmax & Hlen & Hall)%compiled_keymap_shape. split.
  - rewrite Hmin, Hmax. unfold core_mapping. f_equal. apply list_eq. intros i. rewrite list_lookup_fmap.
    destruct (decide (i < 248)%nat) as [Hi|Hi].
    + rewrite lookup_seqZ_lt by lia. simpl. rewrite Hmin. unfold saturating_add, checked_sub, u8_MAX.
      rewrite Z.min_l by lia. rewrite decide_True by lia. simpl. replace (Z.to_nat _) with i by lia.
      destruct (lookup_lt_is_Some_2 (km_keysyms m) i) as [pair Hpair]; [lia|]. by rewrite Hpair.
    + rewrite lookup_seqZ_ge by lia. simpl. symmetry. apply lookup_ge_None. lia.
  - rewrite length_join. change 496%nat with (2 * 248)%nat. rewrite <-Hlen. clear -Hall. induction Hall as [|pair l Hp _ IH]; [done|]. rewrite fmap_cons. simpl. rewrite Hp, IH. lia.
Qed.
Lemma keyboard_maps_agree_witness :
  let m := mk_keymap rmlvo_default 8 255 (key_pair (λ raw _ level, [raw + level]) <$> seqZ 8 248) km_modifiers in
  core_mapping m 8 248 = mjoin (km_keysyms m).
Proof. exact (proj1 (keyboard_maps_agree (λ _, Some (λ raw _ level, [raw + level])) rmlvo_default _ eq_refl)). Defined.
