(* ===== verification/XDispatch.v ===== *)
(** * Dispatching X11 requests
    ([sophia-x-authority/src/dispatch.rs], errors of [client_output.rs])

    A decoded request becomes operations of the runtime, the input authority, the atoms and the
    properties, and the answers to its client.  [None] is a panic. *)

From S2P Require Import Prelude Ids Geometry Packets PortalPackets Text.
From S2P Require Import XAtoms XTables XProperties XSelections XInputGrabs XSoftware XState XRuntime XResources XDraws.
From S2P Require Import XProtocol XKeyboard.
From stdpp Require Import strings pretty.
Local Open Scope Z_scope.

(** ** State, context and results *)

(** What the requests of all clients act on. *)
Record XServer : Type := mk_server {
  sv_runtime : XAuthorityRuntime; sv_input : XInputAuthorityState; sv_keymap : XkbKeymapSnapshot;
  sv_atoms : XAtomTable; sv_properties : XPropertyTable;
}.
Definition set_sv_runtime (s : XServer) (r : XAuthorityRuntime) : XServer :=
  mk_server r (sv_input s) (sv_keymap s) (sv_atoms s) (sv_properties s).
Definition set_sv_input (s : XServer) (i : XInputAuthorityState) : XServer :=
  mk_server (sv_runtime s) i (sv_keymap s) (sv_atoms s) (sv_properties s).
Definition set_sv_atoms (s : XServer) (a : XAtomTable) : XServer :=
  mk_server (sv_runtime s) (sv_input s) (sv_keymap s) a (sv_properties s).
Definition set_sv_properties (s : XServer) (p : XPropertyTable) : XServer :=
  mk_server (sv_runtime s) (sv_input s) (sv_keymap s) (sv_atoms s) p.

Record XDispatchContext : Type := mk_dispatch_context {
  dc_byte_order : XByteOrder; dc_namespace : NamespaceId; dc_sequence : Z; dc_major_opcode : Z; dc_client_id : Z;
}.
Record XDispatchResult : Type := mk_dispatch {
  dr_response : option XAuthorityResponsePacket; dr_outputs : list XClientOutput;
  dr_metadata_candidates : list XMetadataPropertyCandidate;
}.

(** Steps on the server, which may panic. *)
Definition D (A : Type) : Type := XServer → option (A * XServer).
#[export] Instance d_ret : MRet D := λ A a s, Some (a, s).
#[export] Instance d_bind : MBind D := λ A B k m s,
  match m s with Some (a, s) => k a s | None => None end.
Definition d_get : D XServer := λ s, Some (s, s).
Definition d_panic {A} : D A := λ _, None.
(** [expect] *)
Definition d_expect {A} (o : option A) : D A := λ s, (λ a, (a, s)) <$> o.
(** An operation of the runtime. *)
Definition d_run {A} (m : Rt A) : D (result A XAuthorityRuntimeError) :=
  λ s, let '(a, r) := m (sv_runtime s) in Some (a, set_sv_runtime s r).
Definition d_draw {A} (m : XAuthorityRuntime → A * XAuthorityRuntime) : D A :=
  λ s, let '(a, r) := m (sv_runtime s) in Some (a, set_sv_runtime s r).
Definition d_runtime (f : XAuthorityRuntime → XAuthorityRuntime) : D unit := d_draw (λ r, ((), f r)).
(** An operation of the input authority; a refused one changes nothing. *)
Definition d_input (f : XInputAuthorityState → XInputAuthorityState) : D unit :=
  λ s, Some ((), set_sv_input s (f (sv_input s))).
Definition d_grab (f : XInputAuthorityState → result XInputAuthorityState XInputGrabError) :
    D (result unit XInputGrabError) :=
  λ s, match f (sv_input s) with Ok i => Some (Ok (), set_sv_input s i) | Err e => Some (Err e, s) end.
(** The operations of the properties; a refused change changes nothing. *)
Definition d_change (namespace : NamespaceId) (change : XPropertyChange) : D (result XPropertyRecord XPropertyError) :=
  λ s, match apply_change (sv_properties s) namespace change with
       | Ok (record, properties) => Some (Ok record, set_sv_properties s properties)
       | Err e => Some (Err e, s)
       end.
Definition d_remove (namespace : NamespaceId) (window : XResourceId) (property : XAtom) : D (option XPropertyRecord) :=
  λ s, let '(removed, properties) := property_remove (sv_properties s) namespace window property in
       Some (removed, set_sv_properties s properties).
Definition d_remove_window (namespace : NamespaceId) (window : XResourceId) : D unit :=
  λ s, Some ((), set_sv_properties s (remove_window (sv_properties s) namespace window).2).
Definition d_intern (name : list Z) (only_if_exists : bool) : D (result (option XAtom) XAtomError) :=
  λ s, let '(a, atoms) := intern (sv_atoms s) name only_if_exists in Some (a, set_sv_atoms s atoms).

(** ** Errors *)

Definition x_error_from_wire_parse (error : XWireParseError) (sequence major_code minor_code : Z) : XClientError :=
  let code :=
    match error with
    | WpTruncated _ _ | WpInvalidLength _ _ _ | WpTrailingBytes _ => BadLength
    | WpUnknownOpcode _ => BadRequest
    | WpInvalidPropertyMode _ | WpInvalidPropertyFormat _ | WpInvalidEventType _ | WpInvalidValue _
    | WpPropertyValueTooLarge _ _ => BadValue
    | WpResourceIdOutsideClientRange _ => BadIdChoice
    end in
  mk_client_error code sequence 0 minor_code major_code.
Definition x_error_from_runtime (error : XAuthorityRuntimeError) (sequence major_code resource_id : Z) : XClientError :=
  let code :=
    match error with
    | RtInvalidResource | RtUnknownResource | RtWrongResourceKind | RtInvalidSurface => BadWindow
    | RtInvalidNamespace | RtCrossNamespaceDenied | RtStaleGeneration | RtUnknownRequestorNamespace
    | RtMissingSourceNamespace | RtSameNamespace | RtPortalRejected => BadAccess
    | RtUnknownSourceOwner => BadAtom
    end in
  mk_client_error code sequence resource_id 0 major_code.
Definition x_selection_failure_event (sequence time : Z) (requestor : XResourceId) (selection target : Z) : XClientEvent :=
  EventSelectionNotify sequence time requestor selection target X_ATOM_NONE.
Definition x_error_from_property_read (error : XPropertyError) : XErrorCode :=
  match error with PropInvalidNamespace | InvalidWindow => BadWindow | _ => BadValue end.

(** ** Numbers *)

(** [u32::try_from(id.local.raw()).unwrap_or(0)] and [id.local.raw() as u32] *)
Definition raw_of (id : XResourceId) : Z := if decide (0 ≤ xid_raw id ≤ u32_MAX) then xid_raw id else 0.
Definition raw_cast (id : XResourceId) : Z := as_unsigned 32 (xid_raw id).
(** [try_from(z).unwrap_or(d)] *)
Definition try_or (low high d z : Z) : Z := if decide (low ≤ z ≤ high) then z else d.
Definition i16_or_max := try_or (-32768) 32767 32767.
Definition u16_or_max := try_or 0 u16_MAX u16_MAX.
Definition u32_try := try_or 0 u32_MAX u32_MAX.
Definition u16_exactly (z : Z) : option Z := if decide (0 ≤ z ≤ u16_MAX) then Some z else None.
Definition clamp_i16 (value : Z) : Z := Z.max (-32768) (Z.min value 32767).
Definition clamp_u16 (value : Z) : Z := Z.max 0 (Z.min value u16_MAX).
Definition true_color_pixel_from_rgb16 (red green blue : Z) : Z :=
  Z.lor (Z.lor (Z.shiftl (Z.land red 65280) 8) (Z.land green 65280)) (Z.shiftr blue 8).
Definition to_ascii_lowercase (b : Z) : Z := if decide (65 ≤ b ≤ 90) then b + 32 else b.
Definition eq_ignore_ascii_case (a b : list Z) : bool :=
  bool_decide ((to_ascii_lowercase <$> a) = (to_ascii_lowercase <$> b)).

(** ** Fixed answers *)

Definition DRM_FORMAT_MOD_INVALID : Z := 0x00ffffffffffffff.
Definition X_SETUP_DEFAULT_MAX_REQUEST_UNITS : Z := u16_MAX.
Definition GLX_EXTENSIONS : list Z :=
  str "GLX_EXT_libglvnd GLX_ARB_create_context GLX_ARB_create_context_profile GLX_ARB_framebuffer_sRGB GLX_EXT_framebuffer_sRGB".
Definition glx_visual_configs : list (list Z) := [
  [X_SETUP_DEFAULT_VISUAL; 4; 1; 8; 8; 8; 0; 0; 0; 0; 0; 1; 0; 24; 0; 0; 0; 0];
  [X_SETUP_ARGB_VISUAL; 4; 1; 8; 8; 8; 8; 0; 0; 0; 0; 1; 0; 32; 0; 0; 0; 0]].
Definition glx_fb_config (id visual alpha srgb : Z) : list (Z * Z) := [
  (0x8013, id); (0x800b, visual); (0x8012, 1); (0x8010, 0x3); (0x8011, 0x1); (0x22, 0x8002); (0x2, 24 + alpha);
  (0x3, 0); (0x5, 1); (0x6, 0); (0x7, 0); (0x8, 8); (0x9, 8); (0xa, 8); (0xb, alpha); (0xc, 0); (0xd, 0);
  (0xe, 0); (0xf, 0); (0x10, 0); (0x11, 0); (0x20, 0x8000); (0x23, 0x8000); (0x186a0, 0); (0x186a1, 0); (0x20b2, srgb)].
Definition glx_fb_configs : list (list (Z * Z)) := [
  glx_fb_config 1 X_SETUP_DEFAULT_VISUAL 0 0;
  glx_fb_config 2 X_SETUP_ARGB_VISUAL 8 0;
  glx_fb_config 3 X_SETUP_ARGB_VISUAL 8 1].
Definition glx_server_string (name : Z) : list Z :=
  if decide (name = 1) then str "Sophia" else if decide (name = 2) then str "1.4"
  else if decide (name = 3) then GLX_EXTENSIONS else if decide (name = 0x20f6) then str "mesa" else [].

Record XExtensionQueryResult : Type := mk_extension {
  ex_present : bool; ex_major_opcode : Z; ex_first_event : Z; ex_first_error : Z;
}.
Definition known_extensions : list (list Z * XExtensionQueryResult) := [
  (X_SOPHIA_PRESENT_EXTENSION_NAME, mk_extension true X_SOPHIA_PRESENT_MAJOR_OPCODE 0 0);
  (X_MIT_SHM_EXTENSION_NAME, mk_extension true X_MIT_SHM_MAJOR_OPCODE X_MIT_SHM_FIRST_EVENT 0);
  (X_DRI3_EXTENSION_NAME, mk_extension true X_DRI3_MAJOR_OPCODE 0 0);
  (X_PRESENT_EXTENSION_NAME, mk_extension true X_PRESENT_MAJOR_OPCODE X_PRESENT_FIRST_EVENT 0);
  (X_XFIXES_EXTENSION_NAME, mk_extension true X_XFIXES_MAJOR_OPCODE X_XFIXES_FIRST_EVENT 0);
  (X_GLX_EXTENSION_NAME, mk_extension true X_GLX_MAJOR_OPCODE X_GLX_FIRST_EVENT 0);
  (X_SYNC_EXTENSION_NAME, mk_extension true X_SYNC_MAJOR_OPCODE X_SYNC_FIRST_EVENT 0);
  (X_RANDR_EXTENSION_NAME, mk_extension true X_RANDR_MAJOR_OPCODE X_RANDR_FIRST_EVENT 0);
  (X_KEYBOARD_EXTENSION_NAME, mk_extension true X_KEYBOARD_MAJOR_OPCODE X_KEYBOARD_FIRST_EVENT 0);
  (X_INPUT_EXTENSION_NAME, mk_extension true X_INPUT_MAJOR_OPCODE X_INPUT_FIRST_EVENT X_INPUT_FIRST_ERROR);
  (X_GENERIC_EVENT_EXTENSION_NAME, mk_extension true X_GENERIC_EVENT_MAJOR_OPCODE 0 0);
  (X_BIG_REQUESTS_EXTENSION_NAME, mk_extension true X_BIG_REQUESTS_MAJOR_OPCODE 0 0)].
Definition extension_query_result (name : list Z) : XExtensionQueryResult :=
  from_option snd (mk_extension false 0 0 0)
    (find_first (λ p : list Z * XExtensionQueryResult, p.1 = name) known_extensions).

Definition xi_pointer : XXiDeviceInfo :=
  mk_xi_device 2 1 3 (str "Sophia master pointer")
    [ClassButton 2 5; ClassValuator 2 0 0 (Z.shiftl u16_MAX 32); ClassValuator 2 1 0 (Z.shiftl u16_MAX 32)].
Definition xi_keyboard : XXiDeviceInfo :=
  mk_xi_device 3 2 2 (str "Sophia master keyboard") [ClassKey 3 (seqZ 8 248)].
Definition xi_devices (device_id : Z) : list XXiDeviceInfo :=
  if decide (device_id = 0 ∨ device_id = 1) then [xi_pointer; xi_keyboard]
  else if decide (device_id = 2) then [xi_pointer] else if decide (device_id = 3) then [xi_keyboard] else [].

(** ** Outputs as RandR describes them *)

Record XRandrResources : Type := mk_randr_resources {
  rr_timestamp : Z; rr_crtcs : list Z; rr_outputs : list Z; rr_modes : list XRandrModeInfo;
}.
Definition stable_randr_identity (raw : Z) : Z :=
  let folded := Z.lxor raw (Z.shiftr raw 32) in
  Z.max (try_or 0 u32_MAX 0 (Z.land folded 0x0fffffff)) 1.
Definition stable_randr_mode_id (width height refresh_millihz : Z) : Z :=
  let hash := foldl (λ hash value, as_unsigned 32 (Z.lxor hash value * 0x01000193)) 0x811c9dc5
                [as_unsigned 32 width; as_unsigned 32 height; refresh_millihz] in
  Z.lor 0x30000000 (Z.max (Z.land hash 0x0fffffff) 1).
Definition logical_pixels_to_millimeters (pixels : Z) : Z :=
  Z.max (u32_try (Z.quot (pixels * 254 + 480) 960)) 1.
Definition randr_timestamp (t : OutputTopologySnapshot) : Z := Z.max (u32_try (ots_generation t)) 1.
Definition randr_crtc (e : OutputTopologyEntry) : Z := Z.lor 0x10000000 (stable_randr_identity (raw (ote_output e))).
Definition randr_output (e : OutputTopologyEntry) : Z := Z.lor 0x20000000 (stable_randr_identity (raw (ote_output e))).
Definition randr_mode (e : OutputTopologyEntry) : option XRandrModeInfo :=
  let logical := ote_logical e in
  width ← u16_exactly (rwidth logical); height ← u16_exactly (rheight logical);
  mret (mk_randr_mode (stable_randr_mode_id (rwidth logical) (rheight logical) (ote_refresh_millihz e)) width height
          (ote_refresh_millihz e)
          (str (pretty (rwidth logical)) ++ str "x" ++ str (pretty (rheight logical)) ++ str "@" ++
           str (pretty (ote_refresh_millihz e / 1000)))).
Definition randr_resources (t : OutputTopologySnapshot) : option XRandrResources :=
  modes ← mapM randr_mode (ots_outputs t);
  mret (mk_randr_resources (randr_timestamp t) (randr_crtc <$> ots_outputs t) (randr_output <$> ots_outputs t) modes).
Definition output_name (e : OutputTopologyEntry) : list Z := str "SOPHIA-" ++ str (pretty (raw (ote_output e))).
(** [position(|candidate| *candidate == id)] *)
Definition position (l : list Z) (id : Z) : option nat := fst <$> list_find (λ candidate, candidate = id) l.

Definition atom_or_none (r : result (option XAtom) XAtomError) : option XAtom :=
  match r with Ok (Some atom) => Some atom | _ => None end.
Definition randr_monitor (t : OutputTopologySnapshot) (entry : OutputTopologyEntry) : D XRandrMonitorInfo :=
  name ← d_intern (output_name entry) false;
  let logical := ote_logical entry in
  mret (mk_randr_monitor (default X_ATOM_NONE (atom_or_none name)) (bool_decide (ote_output entry = ots_primary t))
          (i16_or_max (rx logical)) (i16_or_max (ry logical)) (u16_or_max (rwidth logical)) (u16_or_max (rheight logical))
          (logical_pixels_to_millimeters (rwidth logical)) (logical_pixels_to_millimeters (rheight logical))
          [randr_output entry]).
(** [map] over a list with effects, in order. *)
Fixpoint d_mapM {A B} (f : A → D B) (l : list A) : D (list B) :=
  match l with
  | [] => mret []
  | a :: l => b ← f a; rest ← d_mapM f l; mret (b :: rest)
  end.
Definition randr_monitors (t : OutputTopologySnapshot) : D (list XRandrMonitorInfo) :=
  d_mapM (randr_monitor t) (ots_outputs t).

(** ** Images in shared memory *)

(** [copy_bytes] is the copy out of a System V segment: identifier, offset and length. *)
Definition copy_shm_image_region (copy_bytes : Z → Z → Z → option (list Z))
    (shmid offset total_width total_height src_x src_y src_width src_height depth format : Z) : option (list Z) :=
  if decide (format ≠ 2 ∨ ¬ (depth = 24 ∨ depth = 32)) then None
  else
    right ← checked_add usize_MAX src_x src_width;
    bottom ← checked_add usize_MAX src_y src_height;
    if decide (right > total_width ∨ bottom > total_height) then None
    else
      stride ← checked_mul usize_MAX total_width 4;
      total_len ← checked_mul usize_MAX stride total_height;
      if decide (total_len > 64 * 1024 * 1024) then None
      else
        source ← copy_bytes shmid offset total_len;
        row_len ← checked_mul usize_MAX src_width 4;
        _ ← checked_mul usize_MAX row_len src_height;
        rows ← mapM (λ row,
          start ← checked_mul usize_MAX row stride;
          left ← checked_mul usize_MAX src_x 4;
          start ← checked_add usize_MAX start left;
          end_ ← checked_add usize_MAX start row_len;
          if decide (end_ ≤ str_len source)
          then Some (take (Z.to_nat row_len) (drop (Z.to_nat start) source)) else None)
          (seqZ src_y src_height);
        Some (mjoin rows).

(** ** Building answers *)

Section dispatch.
  Context (c : XDispatchContext) (copy_bytes : Z → Z → Z → option (list Z)).
  Notation ns := (dc_namespace c).
  Notation seq := (dc_sequence c).
  Notation transaction := (from_raw (dc_sequence c) : TransactionId).

Definition error_output (code : XErrorCode) (value minor : Z) : XClientOutput :=
  OutError (mk_client_error code seq value minor (dc_major_opcode c)).
Definition runtime_error_value (error : XAuthorityRuntimeError) (value : Z) : XClientOutput :=
  OutError (x_error_from_runtime error seq (dc_major_opcode c) value).
(** [XClientOutput::Error(x_error_from_runtime(error, .., u32::try_from(id.local.raw()).unwrap_or(0)))] *)
Definition runtime_error (error : XAuthorityRuntimeError) (id : XResourceId) : XClientOutput :=
  runtime_error_value error (raw_of id).
(** The same with [error.minor_code] set. *)
Definition runtime_error_minor (error : XAuthorityRuntimeError) (id : XResourceId) (minor : Z) : XClientOutput :=
  let e := x_error_from_runtime error seq (dc_major_opcode c) (raw_of id) in
  OutError (mk_client_error (ce_code e) (ce_sequence e) (ce_resource_id e) minor (ce_major_code e)).
Definition glx_bad_value (value minor : Z) : XClientOutput := error_output BadValue value minor.
Definition grab_access_error (window : XResourceId) : XClientOutput := error_output BadAccess (raw_of window) 0.

Definition plain (outputs : list XClientOutput) : XDispatchResult := mk_dispatch None outputs [].
(** The error of a failed check or operation about [id], or what follows a successful one. *)
Definition checked {A} (m : result A XAuthorityRuntimeError) (id : XResourceId) (ok : list XClientOutput) :
    list XClientOutput :=
  match m with Ok _ => ok | Err error => [runtime_error error id] end.
Definition checked_cast {A} (m : result A XAuthorityRuntimeError) (id : XResourceId) : list XClientOutput :=
  match m with Ok _ => [] | Err error => [runtime_error_value error (raw_cast id)] end.
(** The error of a rejected response. *)
Definition rejection (response : XAuthorityResponsePacket) (id : XResourceId) : list XClientOutput :=
  match rs_outcome response with Accepted => [] | Rejected error => [runtime_error error id] end.
Definition d_answer (f : XServer → list XClientOutput) : D XDispatchResult := s ← d_get; mret (plain (f s)).
(** An operation without answer but its error. *)
Definition d_silent {A} (m : Rt A) (id : XResourceId) : D XDispatchResult :=
  r ← d_run m; mret (plain (checked r id [])).
Definition d_silent_cast {A} (m : Rt A) (id : XResourceId) : D XDispatchResult :=
  r ← d_run m; mret (plain (checked_cast r id)).

Definition is_root (id : XResourceId) : Prop := xid_raw id = X_SETUP_DEFAULT_ROOT.
#[export] Instance is_root_dec id : Decision (is_root id).
Proof. unfold is_root; apply _. Defined.
Definition validate_grab_window (s : XServer) (window : XResourceId) : result unit XAuthorityRuntimeError :=
  if decide (is_root window) then Ok () else validate_window_access (sv_runtime s) ns window.
Definition check_window (s : XServer) (window : XResourceId) := validate_window_access (sv_runtime s) ns window.
Definition check_drawable (s : XServer) (drawable : XResourceId) := validate_drawable_access (sv_runtime s) ns drawable.
(** [option.map_or(Ok(()), check)] *)
Definition check_option (check : XResourceId → result unit XAuthorityRuntimeError) (id : option XResourceId) :
    result unit XAuthorityRuntimeError := match id with Some id => check id | None => Ok () end.
Definition is_ok {A E} (r : result A E) : bool := match r with Ok _ => true | Err _ => false end.

(** ** Responses of the authority *)

Definition resource_from_kind (kind : XAuthorityRequestKind) : Z :=
  raw_of match kind with
         | CreateWindow window _ _ _ _ | MapWindow window _ | RequestPresentPixmap window _ _ _ _ => window
         | SetSelectionOwner _ owner _ _ _ => default XRESOURCE_NONE owner
         | RequestSelection requestor _ _ _ _ _ _ => requestor
         end.
Definition configured (window : XResourceId) (geometry : Rect) : XClientOutput :=
  OutEvent (EventConfigureNotify seq window window None (clamp_i16 (rx geometry)) (clamp_i16 (ry geometry))
              (clamp_u16 (rwidth geometry)) (clamp_u16 (rheight geometry)) 0 false).
Definition exposed (window : XResourceId) (geometry : Rect) : XClientOutput :=
  OutEvent (EventExpose seq window 0 0 (clamp_u16 (rwidth geometry)) (clamp_u16 (rheight geometry)) 0).
Definition map_notified (window : XResourceId) : list XClientOutput :=
  [OutEvent (EventMapNotify seq window window false); OutEvent (EventVisibilityNotify seq window 0)].
Definition selection_event (artifact : XAuthoritySelectionArtifact) (requestor : XResourceId)
    (selection target time : Z) : XClientEvent :=
  match artifact with
  | ArtifactFailure _ => x_selection_failure_event seq time requestor selection target
  | ArtifactRequest request =>
      EventSelectionRequest seq (co_time request) (co_owner request) (co_requestor request) (co_selection request)
        (co_target request) (co_property request)
  | ArtifactClear owner selection time => EventSelectionClear seq time owner selection
  end.
Definition outputs_from_authority_response (kind : XAuthorityRequestKind) (response : XAuthorityResponsePacket) :
    list XClientOutput :=
  let artifact := head (rs_selection_artifacts response) in
  let rest :=
    match rs_outcome response with
    | Rejected error => [runtime_error_value error (resource_from_kind kind)]
    | Accepted =>
        match kind with
        | CreateWindow window _ geometry _ _ => [configured window geometry]
        | MapWindow window _ =>
            map_notified window ++
            (if find_first (λ surface, as_mapped surface = true) (rs_surfaces response) is Some surface
             then [exposed window (as_geometry surface)] else [])
        | _ => []
        end
    end in
  match artifact, kind with
  | Some (ArtifactClear owner selection time), _ => [OutEvent (EventSelectionClear seq time owner selection)]
  | Some artifact, RequestSelection requestor selection target _ _ time _ =>
      [OutEvent (selection_event artifact requestor selection target time)]
  | _, _ => rest
  end.

(** ** Windows *)

Definition dispatch_create_window (packet : XAuthorityRequestPacket) (depth visual : Z) (colormap : option XResourceId)
    (background_pixel : option Z) : D XDispatchResult :=
  let kind := rq_kind packet in
  response ← d_draw (XRuntime.apply packet);
  _ ← match rs_outcome response, kind with
      | Accepted, CreateWindow window _ _ _ _ =>
          _ ← d_run (set_window_background_pixel (rq_namespace packet) window (default 0 background_pixel));
          let resolved_visual := if decide (visual = 0) then X_SETUP_DEFAULT_VISUAL else visual in
          let resolved_depth :=
            if decide (depth = 0) then if decide (resolved_visual = X_SETUP_ARGB_VISUAL) then 32 else 24 else depth in
          d_runtime (set_window_visual window resolved_depth resolved_visual
                       (default (x_resource_id X_SETUP_DEFAULT_COLORMAP 1) colormap))
      | _, _ => mret ()
      end;
  mret (mk_dispatch (Some response) (outputs_from_authority_response kind response) []).

(** The name of the target, where its atom has one. *)
Definition name_target (atoms : XAtomTable) (kind : XAuthorityRequestKind) : XAuthorityRequestKind :=
  match kind with
  | RequestSelection requestor selection target target_name property time transfer =>
      RequestSelection requestor selection target (default target_name (atom_name atoms target)) property time transfer
  | _ => kind
  end.
Definition dispatch_authority (packet : XAuthorityRequestPacket) : D XDispatchResult :=
  s ← d_get;
  let kind := name_target (sv_atoms s) (rq_kind packet) in
  response ← d_draw (XRuntime.apply (mk_request (rq_transaction packet) (rq_namespace packet) kind));
  _ ← match kind with
      | RequestSelection _ _ _ _ _ _ transfer => d_runtime (set_pending_clipboard_byte_order transfer (dc_byte_order c))
      | _ => mret ()
      end;
  mret (mk_dispatch (Some response) (outputs_from_authority_response kind response) []).
Definition dispatch_change_window_attributes (window : XResourceId) : D XDispatchResult :=
  d_answer (λ s, checked (check_drawable s window) window []).
Definition attributes_reply (visual : Z) (colormap : XResourceId) : XClientOutput :=
  OutReply (ReplyGetWindowAttributes seq visual colormap 2 false).
Definition dispatch_get_window_attributes (window : XResourceId) : D XDispatchResult :=
  d_answer (λ s,
    if decide (is_root window) then [attributes_reply X_SETUP_DEFAULT_VISUAL (x_resource_id X_SETUP_DEFAULT_COLORMAP 1)]
    else
      let '(_, visual, colormap) := window_visual (sv_runtime s) window in
      checked (check_window s window) window [attributes_reply visual colormap]).
Definition dispatch_destroy_window (window : XResourceId) : D XDispatchResult :=
  r ← d_run (destroy_window ns window);
  match r with
  | Ok surface =>
      _ ← d_remove_window ns window;
      let response := accepted transaction in
      mret (mk_dispatch (Some (mk_response (rs_transaction response) (rs_outcome response) (rs_surfaces response) [surface]
                                 (rs_transactions response) (rs_portal_commands response)
                                 (rs_selection_artifacts response))) [] [])
  | Err error => mret (mk_dispatch (Some (rejected transaction error)) [runtime_error error window] [])
  end.
Definition dispatch_reparent_window (window parent : XResourceId) : D XDispatchResult :=
  d_answer (λ s,
    checked (let? _ := check_window s window in validate_grab_window s parent) window []).
Definition mapped_events (surface : AuthoritySurface) : list XClientOutput :=
  let window := mk_xid (as_local_id surface) in map_notified window ++ [exposed window (as_geometry surface)].
Definition dispatch_map_subwindows (window : XResourceId) : D XDispatchResult :=
  s ← d_get;
  match check_drawable s window with
  | Err error => mret (plain [runtime_error error window])
  | Ok _ =>
      r ← d_run (map_namespace_windows ns seq);
      mret (plain match r with
                  | Ok surfaces => surfaces ≫= mapped_events
                  | Err error => [runtime_error error window]
                  end)
  end.
Definition dispatch_unmap_window (window : XResourceId) : D XDispatchResult :=
  d_answer (λ s, checked (check_window s window) window []).
Definition dispatch_configure_window (window : XResourceId) (x y width height : option Z) : D XDispatchResult :=
  r ← d_run (configure_window_geometry ns window x y width height seq);
  match r with
  | Err error => mret (plain [runtime_error error window])
  | Ok _ =>
      d_answer (λ s,
        match window_geometry (sv_runtime s) ns window with
        | Ok geometry => [configured window geometry]
        | Err error => [runtime_error error window]
        end)
  end.
Definition root : XResourceId := x_resource_id X_SETUP_DEFAULT_ROOT 1.
Definition root_size (s : XServer) : option Geometry.Size :=
  match topology_validate (rt_output_topology (sv_runtime s)) with Ok size => Some size | Err _ => None end.
Definition dispatch_get_geometry (drawable : XResourceId) : D XDispatchResult :=
  s ← d_get;
  if decide (is_root drawable) then
    size ← d_expect (root_size s);
    mret (plain [OutReply (ReplyGetGeometry seq 24 root (mk_rect 0 0 (sz_width size) (sz_height size)) 0)])
  else
    mret (plain match window_geometry (sv_runtime s) ns drawable with
                | Ok geometry =>
                    [OutReply (ReplyGetGeometry seq (window_visual (sv_runtime s) drawable).1.1 root geometry 0)]
                | Err error => [runtime_error error drawable]
                end).
Definition dispatch_get_image (drawable : XResourceId) (width height : Z) : D XDispatchResult :=
  d_answer (λ s,
    checked (check_drawable s drawable) drawable
      [OutReply (ReplyGetImage seq 24 X_SETUP_DEFAULT_VISUAL (replicate (Z.to_nat (width * height * 4)) 0))]).
Definition dispatch_query_tree (window : XResourceId) : D XDispatchResult :=
  d_answer (λ s,
    if decide (is_root window) then [OutReply (ReplyQueryTree seq root XRESOURCE_NONE [])]
    else checked (check_window s window) window [OutReply (ReplyQueryTree seq root root [])]).

(** ** Atoms, properties and selections *)

Definition dispatch_intern_atom (only_if_exists : bool) (name : list Z) : D XDispatchResult :=
  r ← d_intern name only_if_exists;
  mret (plain [match r with
               | Ok atom => OutReply (ReplyInternAtom seq (default 0 atom))
               | Err _ => error_output BadValue 0 0
               end]).
Definition dispatch_get_atom_name (atom : XAtom) : D XDispatchResult :=
  d_answer (λ s,
    [match atom_name (sv_atoms s) atom with
     | Some name => OutReply (ReplyGetAtomName seq name)
     | None => error_output BadAtom atom 0
     end]).
Definition dispatch_change_property (change : XPropertyChange) : D XDispatchResult :=
  s ← d_get;
  match validate_grab_window s (pc_window change) with
  | Err error => mret (plain [runtime_error error (pc_window change)])
  | Ok _ =>
      changed ← d_change ns change;
      match changed with
      | Ok record =>
          mret (mk_dispatch None
                  [OutEvent (EventPropertyNotify seq (pp_window record) (pp_property record) 0 true)]
                  (option_list (metadata_property_candidate record (sv_atoms s))))
      | Err _ => mret (plain [error_output BadValue (raw_of (pc_window change)) 0])
      end
  end.
Definition dispatch_delete_property (window : XResourceId) (property : XAtom) : D XDispatchResult :=
  s ← d_get;
  match validate_grab_window s window with
  | Err error => mret (plain [runtime_error error window])
  | Ok _ =>
      removed ← d_remove ns window property;
      mret (plain (match removed with
                   | Some _ => [OutEvent (EventPropertyNotify seq window property 0 false)]
                   | None => []
                   end))
  end.
Definition atom_type_is_unknown (atoms : XAtomTable) (atom : XAtom) : Prop :=
  atom ≠ X_PROPERTY_ANY_TYPE ∧ atom_name atoms atom = None.
Definition x_client_output_from_property_read (result : result XPropertyReadReply XPropertyError) : XClientOutput :=
  match result with
  | Ok reply =>
      OutReply (ReplyGetProperty seq (py_property_type reply) (py_format reply) (py_bytes_after reply)
                  (py_item_count reply) (py_bytes reply))
  | Err error => error_output (x_error_from_property_read error) 0 0
  end.
Definition dispatch_get_property (read : XPropertyRead) : D XDispatchResult :=
  s ← d_get;
  let atoms := sv_atoms s in
  if decide (pd_property read = X_PROPERTY_ANY_TYPE ∨ atom_name atoms (pd_property read) = None ∨
             atom_type_is_unknown atoms (pd_property_type read))
  then mret (plain [error_output BadAtom (pd_property read) 0])
  else
    match validate_grab_window s (pd_window read) with
    | Err error => mret (plain [runtime_error error (pd_window read)])
    | Ok _ =>
        reply ← d_expect (read_property (sv_properties s) ns read);
        mret (plain [x_client_output_from_property_read reply])
    end.
Definition dispatch_list_properties (window : XResourceId) : D XDispatchResult :=
  d_answer (λ s,
    checked (validate_grab_window s window) window
      [OutReply (ReplyListProperties seq (properties_for_window (sv_properties s) ns window))]).
Definition dispatch_get_selection_owner : D XDispatchResult :=
  mret (plain [OutReply (ReplyGetSelectionOwner seq None)]).
(** What [SendEvent] may send: the requestor it names, and the event with the server's sequence. *)
Definition sendable_event (event : XClientEvent) : option (option XResourceId * XClientEvent) :=
  match event with
  | EventSelectionNotify _ time requestor selection target property =>
      Some (Some requestor, EventSelectionNotify seq time requestor selection target property)
  | EventClientMessage _ bytes => Some (None, EventClientMessage seq bytes)
  | _ => None
  end.
Definition dispatch_send_selection_notify (destination : XResourceId) (event_mask : Z) (event : XClientEvent) :
    D XDispatchResult :=
  s ← d_get;
  sendable ← d_expect (sendable_event event);
  let '(requestor, event) := sendable in
  let validation :=
    let? _ := validate_grab_window s destination in check_option (check_window s) requestor in
  mret (plain [match validation with
               | Ok _ =>
                   if decide (requestor = None ∨ event_mask = 0 ∧ requestor = Some destination)
                   then OutEvent event else error_output BadValue (raw_of destination) 0
               | Err error => runtime_error error destination
               end]).

(** ** Grabs *)

Definition grab_status (status : Z) : XDispatchResult := plain [OutReply (ReplyGrabStatus seq status)].
Definition dispatch_grab (window : XResourceId)
    (grab : XInputAuthorityState → result XInputAuthorityState XInputGrabError) : D XDispatchResult :=
  s ← d_get;
  match validate_grab_window s window with
  | Err _ => mret (grab_status 3)
  | Ok _ => r ← d_grab grab; mret (grab_status (if is_ok r then 0 else 1))
  end.
Definition dispatch_grab_pointer (window : XResourceId) (event_mask : Z) (owner_events : bool)
    (pointer_mode keyboard_mode : Z) : D XDispatchResult :=
  dispatch_grab window (λ i,
    grab_pointer i ns (mk_active (dc_client_id c) window owner_events pointer_mode keyboard_mode event_mask)).
Definition dispatch_grab_keyboard (window : XResourceId) (owner_events : bool) (pointer_mode keyboard_mode : Z) :
    D XDispatchResult :=
  dispatch_grab window (λ i,
    grab_keyboard i ns (mk_active (dc_client_id c) window owner_events pointer_mode keyboard_mode 0)).
Definition d_input_only (f : XInputAuthorityState → XInputAuthorityState) : D XDispatchResult :=
  _ ← d_input f; mret (plain []).
Definition dispatch_ungrab_pointer : D XDispatchResult := d_input_only (λ i, ungrab_pointer i ns (dc_client_id c)).
Definition dispatch_ungrab_keyboard : D XDispatchResult := d_input_only (λ i, ungrab_keyboard i ns (dc_client_id c)).
Definition dispatch_passive_grab (window : XResourceId)
    (grab : XInputAuthorityState → result XInputAuthorityState XInputGrabError) : D XDispatchResult :=
  s ← d_get;
  match validate_grab_window s window with
  | Err error => mret (plain [runtime_error error window])
  | Ok _ => r ← d_grab grab; mret (plain (if is_ok r then [] else [grab_access_error window]))
  end.
Definition dispatch_grab_button (window : XResourceId) (event_mask button modifiers : Z) (owner_events : bool)
    (pointer_mode keyboard_mode : Z) : D XDispatchResult :=
  dispatch_passive_grab window (λ i,
    grab_button i ns (mk_passive (dc_client_id c) window button modifiers owner_events pointer_mode keyboard_mode
                        event_mask)).
Definition dispatch_grab_key (window : XResourceId) (key modifiers : Z) (owner_events : bool)
    (pointer_mode keyboard_mode : Z) : D XDispatchResult :=
  dispatch_passive_grab window (λ i,
    grab_key i ns (mk_passive (dc_client_id c) window key modifiers owner_events pointer_mode keyboard_mode 0)).
Definition dispatch_ungrab_button (window : XResourceId) (button modifiers : Z) : D XDispatchResult :=
  d_input_only (λ i, ungrab_button i ns (dc_client_id c) window button modifiers).
Definition dispatch_ungrab_key (window : XResourceId) (key modifiers : Z) : D XDispatchResult :=
  d_input_only (λ i, ungrab_key i ns (dc_client_id c) window key modifiers).
Definition dispatch_allow_events (mode : Z) : D XDispatchResult :=
  r ← d_grab (λ i, allow_events i ns (dc_client_id c) mode);
  mret (plain (if is_ok r then [] else [error_output BadValue mode 0])).
Definition dispatch_grab_server : D XDispatchResult :=
  _ ← d_grab (λ i, grab_server i ns (dc_client_id c)); mret (plain []).
Definition dispatch_ungrab_server : D XDispatchResult := d_input_only (λ i, ungrab_server i ns (dc_client_id c)).

(** ** Graphics contexts, fonts, cursors, pixmaps *)

Definition dispatch_create_graphics_context (gc drawable : XResourceId) (values : XGraphicsContextValues) :=
  d_silent (create_graphics_context ns gc drawable values) gc.
Definition dispatch_change_graphics_context (gc : XResourceId) (value_mask : Z) (values : XGraphicsContextValues) :=
  d_silent (change_graphics_context ns gc value_mask values) gc.
Definition dispatch_set_clip_rectangles (gc : XResourceId) (rectangles : list Rect) :=
  d_silent (set_graphics_context_clip_rectangles ns gc rectangles) gc.
Definition dispatch_free_graphics_context (gc : XResourceId) := d_silent (free_graphics_context ns gc) gc.
Definition dispatch_open_font (font : XResourceId) := d_silent (open_font ns font seq) font.
Definition dispatch_close_font (font : XResourceId) := d_silent (close_font ns font) font.
Definition dispatch_query_font (font : XResourceId) : D XDispatchResult :=
  d_answer (λ s, checked (validate_font_access (sv_runtime s) ns font) font [OutReply (ReplyQueryFont seq 8 2)]).
(** [and_then] of an operation behind a check. *)
Definition d_checked {A} (check : XServer → result unit XAuthorityRuntimeError) (m : Rt A) :
    D (result A XAuthorityRuntimeError) :=
  s ← d_get; match check s with Ok _ => d_run m | Err error => mret (Err error) end.
Definition dispatch_create_cursor (cursor source : XResourceId) (mask : option XResourceId) : D XDispatchResult :=
  r ← d_checked (λ s, let? _ := check_drawable s source in check_option (check_drawable s) mask)
        (create_cursor ns cursor seq);
  mret (plain (checked r cursor [])).
Definition dispatch_create_glyph_cursor (cursor source_font : XResourceId) (mask_font : option XResourceId) :
    D XDispatchResult :=
  s ← d_get;
  let check font := validate_font_access (sv_runtime s) ns font in
  match check source_font with
  | Err error => mret (plain [runtime_error error source_font])
  | Ok _ =>
      match mask_font with
      | Some mask_font =>
          match check mask_font with
          | Err error => mret (plain [runtime_error error mask_font])
          | Ok _ => d_silent (create_cursor ns cursor seq) cursor
          end
      | None => d_silent (create_cursor ns cursor seq) cursor
      end
  end.
Definition dispatch_free_cursor (cursor : XResourceId) := d_silent (free_cursor ns cursor) cursor.
Definition dispatch_recolor_cursor (cursor : XResourceId) : D XDispatchResult :=
  d_answer (λ s, checked (validate_cursor_access (sv_runtime s) ns cursor) cursor []).
Definition font_names (max_names : Z) : list (list Z) := if decide (max_names = 0) then [] else [str "fixed"].
Definition dispatch_list_fonts (max_names : Z) : D XDispatchResult :=
  mret (plain [OutReply (ReplyListFonts seq (font_names max_names))]).
Definition dispatch_list_fonts_with_info (max_names : Z) : D XDispatchResult :=
  mret (plain [OutReply (ReplyListFontsWithInfo seq (font_names max_names))]).
(** An operation about [id] behind a check of the drawable it is for. *)
Definition dispatch_for_drawable {A} (drawable : XResourceId) (m : Rt A) (id : XResourceId) : D XDispatchResult :=
  s ← d_get;
  match check_drawable s drawable with
  | Err error => mret (plain [runtime_error error drawable])
  | Ok _ => d_silent m id
  end.
Definition dispatch_create_pixmap (pixmap drawable : XResourceId) : D XDispatchResult :=
  dispatch_for_drawable drawable (create_pixmap ns pixmap seq) pixmap.
Definition dispatch_free_pixmap (pixmap : XResourceId) := d_silent (free_pixmap ns pixmap) pixmap.

(** ** Focus, keyboard and coordinates *)

Definition dispatch_get_input_focus : D XDispatchResult :=
  d_answer (λ s,
    let '(focus, revert_to) := input_focus (sv_runtime s) ns in [OutReply (ReplyGetInputFocus seq focus revert_to)]).
Definition focus_event (focused : bool) (window : XResourceId) : list XClientOutput :=
  if decide (xid_raw window ≠ 0) then [OutEvent (EventFocus seq focused 3 window 0)] else [].
Definition dispatch_set_input_focus (focus : XResourceId) (revert_to : Z) : D XDispatchResult :=
  s ← d_get;
  let previous := (input_focus (sv_runtime s) ns).1 in
  r ← d_run (set_focus ns focus revert_to);
  mret (plain match r with
              | Err error => [runtime_error error focus]
              | Ok _ =>
                  if decide (previous = focus) then [] else focus_event false previous ++ focus_event true focus
              end).
Definition dispatch_get_modifier_mapping : D XDispatchResult :=
  mret (plain [OutReply (ReplyGetModifierMapping seq 2
                 [50; 62; 66; 0; 37; 105; 64; 108; 77; 0; 0; 0; 133; 134; 0; 0])]).
Definition dispatch_get_keyboard_mapping (first_keycode count : Z) : D XDispatchResult :=
  d_answer (λ s, [OutReply (ReplyGetKeyboardMapping seq 2 (core_mapping (sv_keymap s) first_keycode count))]).
Definition dispatch_translate_coordinates (source destination : XResourceId) (src_x src_y : Z) : D XDispatchResult :=
  d_answer (λ s,
    match check_drawable s source with
    | Err error => [runtime_error error source]
    | Ok _ =>
        checked (check_drawable s destination) destination
          [OutReply (ReplyTranslateCoordinates seq true None src_x src_y)]
    end).
Definition dispatch_query_pointer (window : XResourceId) : D XDispatchResult :=
  d_answer (λ s,
    [if is_ok (validate_grab_window s window) then OutReply (ReplyQueryPointer seq root XRESOURCE_NONE 0 0 0 0 0)
     else error_output BadWindow (raw_of window) 0]).
Definition dispatch_query_extension (name : list Z) : D XDispatchResult :=
  let e := extension_query_result name in
  mret (plain [OutReply (ReplyQueryExtension seq (ex_present e) (ex_major_opcode e) (ex_first_event e)
                           (ex_first_error e))]).
Definition dispatch_create_colormap (window : XResourceId) : D XDispatchResult :=
  d_answer (λ s, checked (validate_grab_window s window) window []).
Definition dispatch_alloc_named_color (name : list Z) : D XDispatchResult :=
  let black := eq_ignore_ascii_case name (str "black") in
  let intensity := if black then 0 else u16_MAX in
  mret (plain [OutReply (ReplyAllocNamedColor seq (if black then 0 else 1) intensity intensity intensity)]).
Definition dispatch_alloc_color (red green blue : Z) : D XDispatchResult :=
  mret (plain [OutReply (ReplyAllocColor seq (true_color_pixel_from_rgb16 red green blue) red green blue)]).

(** ** Drawing *)

(** A drawing response with the error of its rejection, about [id]. *)
Definition d_drawing (draw : XAuthorityRuntime → XAuthorityResponsePacket * XAuthorityRuntime) (id : XResourceId) :
    D XDispatchResult :=
  response ← d_draw draw; mret (mk_dispatch (Some response) (rejection response id) []).
(** [match looked_up { Ok(values) => draw(values), Err(error) => rejected(transaction, error) }] *)
Definition or_rejected {A} (looked_up : result A XAuthorityRuntimeError)
    (draw : A → XAuthorityRuntime → XAuthorityResponsePacket * XAuthorityRuntime) (r : XAuthorityRuntime) :
    XAuthorityResponsePacket * XAuthorityRuntime :=
  match looked_up with Ok values => draw values r | Err error => (rejected transaction error, r) end.
(** What is drawn on a pixmap is accepted and forgotten. *)
Definition unless_pixmap (drawable : XResourceId) (outputs : list XClientOutput) (otherwise : D XDispatchResult) :
    D XDispatchResult :=
  s ← d_get;
  if is_ok (validate_pixmap_access (sv_runtime s) ns drawable)
  then mret (mk_dispatch (Some (accepted transaction)) outputs []) else otherwise.
Definition gc_values_of (r : XAuthorityRuntime) (gc : XResourceId) := graphics_context_values r ns gc.

Definition dispatch_clear_area (window : XResourceId) (x y width height : Z) : D XDispatchResult :=
  s ← d_get;
  let geometry := match window_geometry (sv_runtime s) ns window with Ok geometry => Some geometry | Err _ => None end in
  let left_over z side at_ := if decide (z = 0) then
      from_option (λ geometry, Z.max (i32_saturating_sub (side geometry) at_) 0) 0 geometry else z in
  let damage := region_single (mk_rect x y (left_over width rwidth x) (left_over height rheight y)) in
  d_drawing (or_rejected (window_background_pixel (sv_runtime s) ns window)
               (apply_clear_with_pixel transaction ns window damage)) window.
Definition region_of (rectangles : list Rect) : Region := foldl region_push region_empty rectangles.
Definition dispatch_poly_fill_rectangle (drawable gc : XResourceId) (rectangles : list Rect) : D XDispatchResult :=
  unless_pixmap drawable []
    (s ← d_get;
     d_drawing (or_rejected (gc_values_of (sv_runtime s) gc)
                  (apply_core_draw_with_gc transaction ns drawable (region_of rectangles))) drawable).
Definition dispatch_copy_area (source destination gc : XResourceId) (src_x src_y dst_x dst_y width height : Z) :
    D XDispatchResult :=
  s ← d_get;
  d_drawing (or_rejected (gc_values_of (sv_runtime s) gc)
               (apply_copy_area_with_gc transaction ns source destination src_x src_y dst_x dst_y width height))
    destination.
Definition dispatch_poly_line (drawable gc : XResourceId) (points : list XPoint) : D XDispatchResult :=
  if decide (length points < 2)%nat then mret (mk_dispatch (Some (accepted transaction)) [] [])
  else
    unless_pixmap drawable []
      (s ← d_get;
       d_drawing (or_rejected (gc_values_of (sv_runtime s) gc) (apply_line_draw transaction ns drawable points)) drawable).
(** [PolySegment] and [PolyFillArc] *)
Definition dispatch_damage (drawable : XResourceId) (damage : list Rect) : D XDispatchResult :=
  unless_pixmap drawable [] (d_drawing (apply_core_draw transaction ns drawable (region_of damage)) drawable).
Definition dispatch_fill_poly (drawable : XResourceId) (damage : option Rect) : D XDispatchResult :=
  match damage with
  | None => mret (mk_dispatch (Some (accepted transaction)) [] [])
  | Some damage =>
      unless_pixmap drawable [] (d_drawing (apply_core_draw transaction ns drawable (region_single damage)) drawable)
  end.
Definition dispatch_put_image (drawable : XResourceId) (width height dst_x dst_y : Z) (data : list Z) : D XDispatchResult :=
  unless_pixmap drawable []
    (d_drawing (apply_put_image transaction ns drawable (region_single (mk_rect dst_x dst_y width height)) (Some data))
       drawable).
Definition dispatch_text_draw (drawable gc : XResourceId) (x y : Z) (text : list Z) (opaque : bool) : D XDispatchResult :=
  unless_pixmap drawable []
    (s ← d_get;
     match gc_values_of (sv_runtime s) gc with
     | Err error => mret (plain [runtime_error error gc])
     | Ok values => d_drawing (apply_text_draw transaction ns drawable x y text opaque values) drawable
     end).

(** ** Shared memory *)

Definition dispatch_shm_attach (segment : XResourceId) (shmid : Z) (read_only : bool) :=
  d_silent (attach_shm_segment ns segment shmid read_only seq) segment.
Definition dispatch_shm_detach (segment : XResourceId) : D XDispatchResult :=
  r ← d_run (detach_shm_segment ns segment);
  mret (plain match r with
              | Ok _ | Err (RtInvalidResource | RtUnknownResource) => []
              | Err error => [runtime_error error segment]
              end).
Definition valid_shm_shape (width height depth offset : Z) : Prop :=
  width ≠ 0 ∧ height ≠ 0 ∧ (depth = 24 ∨ depth = 32) ∧
  is_Some (pixels ← checked_mul usize_MAX width height; bytes ← checked_mul usize_MAX pixels 4;
           end_ ← checked_add usize_MAX offset bytes; if decide (end_ ≤ 64 * 1024 * 1024) then Some end_ else None).
#[export] Instance valid_shm_shape_dec width height depth offset : Decision (valid_shm_shape width height depth offset).
Proof. unfold valid_shm_shape; apply _. Defined.
Definition dispatch_shm_create_pixmap (pixmap drawable : XResourceId) (width height depth : Z) (segment : XResourceId)
    (offset : Z) : D XDispatchResult :=
  r ← d_checked (λ s,
        let? _ := check_drawable s drawable in
        let? _ := validate_shm_segment_access (sv_runtime s) ns segment in
        ensure! (valid_shm_shape width height depth offset) else RtInvalidResource in Ok ())
        (create_pixmap ns pixmap seq);
  mret (plain (checked r pixmap [])).
Definition shm_completion (drawable segment : XResourceId) (offset : Z) (send_event : bool) : list XClientOutput :=
  if send_event then [OutEvent (EventShmCompletion seq drawable segment offset)] else [].
Definition dispatch_shm_put_image (drawable : XResourceId)
    (total_width total_height src_x src_y src_width src_height dst_x dst_y depth format : Z) (send_event : bool)
    (segment : XResourceId) (offset : Z) : D XDispatchResult :=
  s ← d_get;
  match validate_shm_segment_access (sv_runtime s) ns segment with
  | Err _ => mret (mk_dispatch (Some (accepted transaction)) [error_output BadAccess (raw_of segment) 3] [])
  | Ok _ =>
      unless_pixmap drawable (shm_completion drawable segment offset send_event)
        (let damage := region_single (mk_rect dst_x dst_y src_width src_height) in
         let image :=
           match shm_segment_shmid (sv_runtime s) ns segment with
           | Ok shmid =>
               copy_shm_image_region copy_bytes shmid offset total_width total_height src_x src_y src_width src_height
                 depth format
           | Err _ => None
           end in
         response ← d_draw (apply_put_image transaction ns drawable damage image);
         mret (mk_dispatch (Some response)
                 (match rs_outcome response with
                  | Rejected error => [runtime_error error drawable]
                  | Accepted => shm_completion drawable segment offset send_event
                  end) []))
  end.

(** ** Regions, DMA buffers, fences and presentation *)

Definition dispatch_xfixes_create_region (region : XResourceId) (rectangles : list Rect) :=
  d_silent (create_xfixes_region ns region rectangles seq) region.
Definition dispatch_xfixes_set_region (region : XResourceId) (rectangles : list Rect) :=
  d_silent (set_xfixes_region ns region rectangles) region.
Definition dispatch_xfixes_destroy_region (region : XResourceId) := d_silent (destroy_xfixes_region ns region) region.
Definition dispatch_xfixes_select_selection_input (window : XResourceId) (selection : XAtom) (event_mask : Z) :
    D XDispatchResult :=
  d_answer (λ s,
    let minor := X_XFIXES_SELECT_SELECTION_INPUT_MINOR_OPCODE in
    if decide (Z.land event_mask (Z.lnot 7) ≠ 0) then [error_output BadValue event_mask minor]
    else if decide (atom_name (sv_atoms s) selection = None) then [error_output BadAtom selection minor]
    else match check_window s window with Err error => [runtime_error_minor error window minor] | Ok _ => [] end).
Definition dispatch_dri3_open (drawable : XResourceId) (provider : Z) : D XDispatchResult :=
  d_answer (λ s,
    if decide (provider ≠ 0) then [error_output BadValue provider X_DRI3_OPEN_MINOR_OPCODE]
    else
      match check_drawable s drawable with
      | Err error => [runtime_error_minor error drawable X_DRI3_OPEN_MINOR_OPCODE]
      | Ok _ => [OutReply (ReplyDri3Open seq)]
      end).
Definition dispatch_dri3_pixmap_from_buffer (pixmap drawable : XResourceId)
    (size_bytes width height stride depth bits_per_pixel : Z) : D XDispatchResult :=
  dispatch_for_drawable drawable
    (create_dri3_pixmap ns pixmap seq size_bytes width height stride depth bits_per_pixel) pixmap.
Definition dispatch_dri3_pixmap_from_buffers (pixmap window : XResourceId) (num_buffers width height : Z)
    (strides offsets : list Z) (depth bits_per_pixel modifier : Z) : D XDispatchResult :=
  dispatch_for_drawable window
    (create_dri3_pixmap_from_buffers ns pixmap seq num_buffers width height strides offsets depth bits_per_pixel modifier)
    pixmap.
Definition dispatch_dri3_fence_from_fd (drawable fence : XResourceId) : D XDispatchResult :=
  dispatch_for_drawable drawable (create_dri3_fence ns fence seq) fence.
Definition dispatch_dri3_get_supported_modifiers (window : XResourceId) (depth bits_per_pixel : Z) : D XDispatchResult :=
  d_answer (λ s,
    if decide (¬ ((depth = 24 ∨ depth = 32) ∧ bits_per_pixel = 32))
    then [error_output BadValue depth X_DRI3_GET_SUPPORTED_MODIFIERS_MINOR_OPCODE]
    else
      checked (validate_grab_window s window) window
        [OutReply (ReplyDri3GetSupportedModifiers seq [] [0; DRM_FORMAT_MOD_INVALID])]).
Definition dispatch_sync_destroy_fence (fence : XResourceId) := d_silent (destroy_dri3_fence ns fence) fence.
Definition dispatch_present_query_capabilities (target : XResourceId) : D XDispatchResult :=
  d_answer (λ s,
    [if is_ok (validate_grab_window s target) then OutReply (ReplyPresentQueryCapabilities seq (Z.shiftl 1 1))
     else error_output BadWindow (raw_of target) X_PRESENT_QUERY_CAPABILITIES_MINOR_OPCODE]).
Definition dispatch_present_select_input (window : XResourceId) (event_mask : Z) : D XDispatchResult :=
  d_answer (λ s,
    if decide (Z.land event_mask (Z.lnot 0x0f) ≠ 0)
    then [error_output BadValue event_mask X_PRESENT_SELECT_INPUT_MINOR_OPCODE]
    else checked (check_window s window) window []).
(** A region given by its number, zero for none. *)
Definition check_region (s : XServer) (region : Z) : result unit XAuthorityRuntimeError :=
  let id := x_resource_id region 1 in
  if decide (xid_valid id) then validate_xfixes_region_access (sv_runtime s) ns id else Ok ().
Definition check_fence (s : XServer) (fence : XResourceId) := validate_dri3_fence_access (sv_runtime s) ns fence.
Definition validate_present (s : XServer) (window pixmap : XResourceId) (valid_region update_region target_crtc : Z)
    (wait_fence idle_fence : option XResourceId) (options divisor remainder : Z) : result unit XAuthorityRuntimeError :=
  if decide (target_crtc ≠ 0 ∨ Z.land options (Z.lnot 0x0f) ≠ 0 ∨ (divisor = 0 ∧ remainder ≠ 0) ∨
             (divisor ≠ 0 ∧ divisor ≤ remainder))
  then Err RtInvalidResource
  else
    let? _ := check_window s window in
    let? _ := check_region s valid_region in
    let? _ := check_region s update_region in
    let? _ := validate_pixmap_access (sv_runtime s) ns pixmap in
    let? _ := check_option (check_fence s) wait_fence in
    check_option (check_fence s) idle_fence.
Definition dispatch_present_pixmap (present : TransactionId) (window pixmap : XResourceId)
    (valid_region update_region target_crtc : Z) (wait_fence idle_fence : option XResourceId)
    (options divisor remainder : Z) : D XDispatchResult :=
  s ← d_get;
  match validate_present s window pixmap valid_region update_region target_crtc wait_fence idle_fence options divisor
          remainder with
  | Err error => mret (plain [runtime_error error pixmap])
  | Ok _ => d_drawing (present_standard_pixmap present ns window pixmap) pixmap
  end.

(** ** Outputs *)

Definition dispatch_randr_select_input (window : XResourceId) : D XDispatchResult :=
  d_answer (λ s, checked (validate_grab_window s window) window []).
(** A reply about the screen that [window] names. *)
Definition screen_reply (s : XServer) (window : XResourceId) (reply : XClientReply) : XDispatchResult :=
  plain (checked (validate_grab_window s window) window [OutReply reply]).
Definition topology_of (s : XServer) : OutputTopologySnapshot := rt_output_topology (sv_runtime s).
Definition dispatch_randr_get_screen_size_range (window : XResourceId) : D XDispatchResult :=
  s ← d_get;
  size ← d_expect (root_size s);
  root_width ← d_expect (u16_exactly (sz_width size));
  root_height ← d_expect (u16_exactly (sz_height size));
  mret (screen_reply s window (ReplyRandrGetScreenSizeRange seq root_width root_height root_width root_height)).
Definition dispatch_randr_get_screen_resources (window : XResourceId) : D XDispatchResult :=
  s ← d_get;
  resources ← d_expect (randr_resources (topology_of s));
  mret (screen_reply s window
          (ReplyRandrGetScreenResources seq (rr_timestamp resources) (rr_crtcs resources) (rr_outputs resources)
             (rr_modes resources))).
Definition dispatch_randr_get_output_info (output : Z) : D XDispatchResult :=
  s ← d_get;
  resources ← d_expect (randr_resources (topology_of s));
  match position (rr_outputs resources) output with
  | None => mret (plain [error_output BadValue output X_RANDR_GET_OUTPUT_INFO_MINOR_OPCODE])
  | Some index =>
      entry ← d_expect (ots_outputs (topology_of s) !! index);
      mode ← d_expect (rr_modes resources !! index);
      crtc ← d_expect (rr_crtcs resources !! index);
      mret (plain [OutReply (ReplyRandrGetOutputInfo seq (rr_timestamp resources) crtc
                     (logical_pixels_to_millimeters (rwidth (ote_logical entry)))
                     (logical_pixels_to_millimeters (rheight (ote_logical entry)))
                     [crtc] [rm_id mode] (output_name entry))])
  end.
Definition dispatch_randr_get_output_property (output : Z) (property : XAtom) : D XDispatchResult :=
  s ← d_get;
  resources ← d_expect (randr_resources (topology_of s));
  mret (plain [if decide (output ∈ rr_outputs resources ∧ is_Some (atom_name (sv_atoms s) property))
               then OutReply (ReplyRandrGetOutputProperty seq 0 0 0 [])
               else error_output BadValue output X_RANDR_GET_OUTPUT_PROPERTY_MINOR_OPCODE]).
Definition dispatch_randr_get_crtc_info (crtc : Z) : D XDispatchResult :=
  s ← d_get;
  resources ← d_expect (randr_resources (topology_of s));
  match position (rr_crtcs resources) crtc with
  | None => mret (plain [error_output BadValue crtc X_RANDR_GET_CRTC_INFO_MINOR_OPCODE])
  | Some index =>
      entry ← d_expect (ots_outputs (topology_of s) !! index);
      width ← d_expect (u16_exactly (rwidth (ote_logical entry)));
      height ← d_expect (u16_exactly (rheight (ote_logical entry)));
      mode ← d_expect (rr_modes resources !! index);
      output ← d_expect (rr_outputs resources !! index);
      mret (plain [OutReply (ReplyRandrGetCrtcInfo seq (rr_timestamp resources)
                     (i16_or_max (rx (ote_logical entry))) (i16_or_max (ry (ote_logical entry)))
                     width height (rm_id mode) [output])])
  end.
Definition dispatch_randr_get_crtc_gamma_size (crtc : Z) : D XDispatchResult :=
  s ← d_get;
  resources ← d_expect (randr_resources (topology_of s));
  mret (plain [if decide (crtc ∈ rr_crtcs resources) then OutReply (ReplyRandrGetCrtcGammaSize seq 0)
               else error_output BadValue crtc X_RANDR_GET_CRTC_GAMMA_SIZE_MINOR_OPCODE]).
Definition dispatch_randr_get_output_primary (window : XResourceId) : D XDispatchResult :=
  s ← d_get;
  resources ← d_expect (randr_resources (topology_of s));
  let t := topology_of s in
  index ← d_expect (fst <$> list_find (λ entry, ote_output entry = ots_primary t) (ots_outputs t));
  primary ← d_expect (rr_outputs resources !! index);
  mret (screen_reply s window (ReplyRandrGetOutputPrimary seq primary)).
Definition dispatch_randr_get_providers (window : XResourceId) : D XDispatchResult :=
  s ← d_get; mret (screen_reply s window (ReplyRandrGetProviders seq (randr_timestamp (topology_of s)))).
Definition dispatch_randr_get_monitors (window : XResourceId) : D XDispatchResult :=
  s ← d_get;
  monitors ← randr_monitors (topology_of s);
  mret (screen_reply s window (ReplyRandrGetMonitors seq (randr_timestamp (topology_of s)) monitors)).

(** ** GLX *)

Definition dispatch_glx_get_visual_configs (screen : Z) : D XDispatchResult :=
  mret (plain [if decide (screen = 0) then OutReply (ReplyGlxVisualConfigs seq glx_visual_configs)
               else glx_bad_value screen X_GLX_GET_VISUAL_CONFIGS_MINOR_OPCODE]).
Definition dispatch_glx_get_fb_configs (screen : Z) : D XDispatchResult :=
  mret (plain [if decide (screen = 0) then OutReply (ReplyGlxFbConfigs seq glx_fb_configs)
               else glx_bad_value screen X_GLX_GET_FB_CONFIGS_MINOR_OPCODE]).
Definition dispatch_glx_create_context (id : XResourceId) (fbconfig screen : Z) (share : option XResourceId)
    (direct : bool) : D XDispatchResult :=
  s ← d_get;
  if decide (screen = 0 ∧ 1 ≤ fbconfig ≤ 3 ∧
             from_option (λ share, is_ok (glx_context (sv_runtime s) ns share)) true share = true)
  then d_silent_cast (create_glx_context ns id fbconfig direct) id
  else mret (plain [glx_bad_value fbconfig X_GLX_CREATE_CONTEXT_ATTRIBS_ARB_MINOR_OPCODE]).
Definition dispatch_glx_destroy_context (id : XResourceId) := d_silent_cast (destroy_glx_context ns id) id.
Definition dispatch_glx_is_direct (id : XResourceId) : D XDispatchResult :=
  d_answer (λ s,
    match glx_context (sv_runtime s) ns id with
    | Ok (_, direct) => [OutReply (ReplyGlxIsDirect seq direct)]
    | Err error => [runtime_error_value error (raw_cast id)]
    end).
Definition glx_compatible (fbconfig visual : Z) : Prop :=
  (fbconfig = 1 ∧ visual = X_SETUP_DEFAULT_VISUAL) ∨ ((fbconfig = 2 ∨ fbconfig = 3) ∧ visual = X_SETUP_ARGB_VISUAL).
#[export] Instance glx_compatible_dec fbconfig visual : Decision (glx_compatible fbconfig visual).
Proof. unfold glx_compatible; apply _. Defined.
Definition dispatch_glx_create_window (screen fbconfig : Z) (window glx_window : XResourceId) : D XDispatchResult :=
  s ← d_get;
  if decide (screen = 0 ∧ glx_compatible fbconfig (window_visual (sv_runtime s) window).1.2)
  then d_silent_cast (create_glx_window ns glx_window window fbconfig) glx_window
  else mret (plain [glx_bad_value fbconfig X_GLX_CREATE_WINDOW_MINOR_OPCODE]).
Definition dispatch_glx_delete_window (glx_window : XResourceId) :=
  d_silent_cast (destroy_glx_window ns glx_window) glx_window.
Definition dispatch_glx_get_drawable_attributes (drawable : XResourceId) : D XDispatchResult :=
  d_answer (λ s,
    match (let? ' (window, config) := glx_drawable (sv_runtime s) ns drawable in
           let? geometry := window_geometry (sv_runtime s) ns window in Ok (geometry, config)) with
    | Ok (geometry, config) =>
        [OutReply (ReplyGlxDrawableAttributes seq
           [(0x801D, as_unsigned 32 (rwidth geometry)); (0x801E, as_unsigned 32 (rheight geometry));
            (0x8013, config); (0x800C, 0)])]
    | Err error => [runtime_error_value error (raw_cast drawable)]
    end).

(** ** The keyboard extension *)

Definition XKB_USE_CORE_KBD : Z := 0x0100.
Definition xkb_device_reply (device_spec minor_opcode : Z) (reply : Z → Z → XClientReply) : D XDispatchResult :=
  mret (plain [if decide (device_spec = XKB_USE_CORE_KBD ∨ device_spec = 3) then OutReply (reply seq 3)
               else error_output BadValue device_spec minor_opcode]).
Definition dispatch_xkb_get_map (full partial : Z) : D XDispatchResult :=
  d_answer (λ s, [OutReply (ReplyXkbGetMap seq (Z.lor full partial) (km_keysyms (sv_keymap s))
                              (km_modifier_map (sv_keymap s)))]).
Definition xkb_component_names (config : XkbRmlvoConfig) : list (Z * list Z) :=
  let layout :=
    if decide (rmlvo_variant config = []) then rmlvo_layout config
    else rmlvo_layout config ++ str "(" ++ rmlvo_variant config ++ str ")" in
  [(1, rmlvo_rules config); (2, rmlvo_model config); (4, layout); (8, layout); (16, str "complete"); (32, str "complete")].
(** [filter_map(|name| atoms.intern(name, false).ok().flatten())] *)
Definition intern_all (names : list (list Z)) : D (list XAtom) :=
  atoms ← d_mapM (λ name, d_intern name false) names; mret (omap atom_or_none atoms).
(** [format!("I{keycode:03}")] *)
Definition key_name (keycode : Z) : list Z :=
  str "I" ++ [48 + keycode / 100; 48 + keycode / 10 `mod` 10; 48 + keycode `mod` 10].
Definition dispatch_xkb_get_names (which : Z) : D XDispatchResult :=
  s ← d_get;
  let keymap := sv_keymap s in
  let present := Z.land which 0x3fff in
  component_atoms ← intern_all
    (snd <$> filter (λ p : Z * list Z, Z.land present p.1 ≠ 0) (xkb_component_names (km_config keymap)));
  type_atoms ← intern_all [str "ONE_LEVEL"; str "TWO_LEVEL"; str "ALPHABETIC"; str "KEYPAD"];
  mret (plain [OutReply (ReplyXkbGetNames seq present (km_min_keycode keymap) (km_max_keycode keymap) component_atoms
                 type_atoms (key_name <$> seqZ (km_min_keycode keymap) (km_max_keycode keymap - km_min_keycode keymap + 1)))]).
Definition dispatch_xkb_get_device_info (device_spec wanted : Z) : D XDispatchResult :=
  xkb_device_reply device_spec X_KEYBOARD_GET_DEVICE_INFO_MINOR_OPCODE
    (λ sequence device_id, ReplyXkbGetDeviceInfo sequence device_id 0 wanted).
Definition dispatch_xkb_per_client_flags (change value : Z) : D XDispatchResult :=
  mret (plain [OutReply (ReplyXkbPerClientFlags seq change (Z.land value change))]).

(** ** XInput *)

Definition dispatch_xi_query_pointer (window : XResourceId) : D XDispatchResult :=
  d_answer (λ s,
    [if is_ok (validate_grab_window s window) then OutReply (ReplyXiQueryPointer seq root XRESOURCE_NONE)
     else error_output BadWindow (raw_of window) X_INPUT_QUERY_POINTER_MINOR_OPCODE]).
Definition dispatch_xi_ungrab_device (device_id : Z) : D XDispatchResult :=
  d_input_only (λ i,
    if decide (device_id = 2) then ungrab_pointer i ns (dc_client_id c)
    else if decide (device_id = 3) then ungrab_keyboard i ns (dc_client_id c) else i).
Definition dispatch_xi_change_cursor (window : XResourceId) (cursor : option XResourceId) : D XDispatchResult :=
  d_answer (λ s,
    checked (let? _ := check_window s window in check_option (validate_cursor_access (sv_runtime s) ns) cursor)
      (default window cursor) []).
Definition dispatch_xi_query_device (device_id : Z) : D XDispatchResult :=
  mret (plain [OutReply (ReplyXiQueryDevice seq (xi_devices device_id))]).
Definition dispatch_xi_select_events (window : XResourceId) (masks : list (Z * list Z)) : D XDispatchResult :=
  s ← d_get;
  match validate_grab_window s window with
  | Err error => mret (plain [runtime_error error window])
  | Ok _ => _ ← d_input (λ i, select_xi_events i ns (dc_client_id c) window masks); mret (plain [])
  end.
Definition dispatch_xi_get_focus : D XDispatchResult :=
  d_answer (λ s, [OutReply (ReplyXiGetFocus seq (input_focus (sv_runtime s) ns).1)]).

(** ** Every request *)

Definition d_reply (reply : XClientReply) : D XDispatchResult := mret (plain [OutReply reply]).
Definition d_nothing : D XDispatchResult := mret (plain []).

Definition dispatch_request (request : XWireRequest) : D XDispatchResult :=
  match request with
  | ReqCreateWindow packet _ depth visual colormap background_pixel _ _ =>
      dispatch_create_window packet depth visual colormap background_pixel
  | ReqAuthority packet => dispatch_authority packet
  | ReqChangeWindowAttributes window _ _ => dispatch_change_window_attributes window
  | ReqGetWindowAttributes window => dispatch_get_window_attributes window
  | ReqDestroyWindow window => dispatch_destroy_window window
  | ReqReparentWindow window parent _ _ => dispatch_reparent_window window parent
  | ReqMapSubwindows window => dispatch_map_subwindows window
  | ReqUnmapWindow window => dispatch_unmap_window window
  | ReqConfigureWindow window _ x y width height _ _ => dispatch_configure_window window x y width height
  | ReqGetGeometry drawable => dispatch_get_geometry drawable
  | ReqGetImage _ drawable _ _ width height _ => dispatch_get_image drawable width height
  | ReqQueryTree window => dispatch_query_tree window
  | ReqInternAtom only_if_exists name => dispatch_intern_atom only_if_exists name
  | ReqGetAtomName atom => dispatch_get_atom_name atom
  | ReqChangeProperty change => dispatch_change_property change
  | ReqDeleteProperty window property => dispatch_delete_property window property
  | ReqGetProperty read => dispatch_get_property read
  | ReqListProperties window => dispatch_list_properties window
  | ReqGetSelectionOwner _ => dispatch_get_selection_owner
  | ReqSendSelectionNotify destination event_mask event => dispatch_send_selection_notify destination event_mask event
  | ReqGrabPointer window event_mask owner_events pointer_mode keyboard_mode _ =>
      dispatch_grab_pointer window event_mask owner_events pointer_mode keyboard_mode
  | ReqUngrabPointer _ => dispatch_ungrab_pointer
  | ReqGrabKeyboard window owner_events pointer_mode keyboard_mode _ =>
      dispatch_grab_keyboard window owner_events pointer_mode keyboard_mode
  | ReqUngrabKeyboard _ => dispatch_ungrab_keyboard
  | ReqGrabButton window event_mask button modifiers owner_events pointer_mode keyboard_mode =>
      dispatch_grab_button window event_mask button modifiers owner_events pointer_mode keyboard_mode
  | ReqUngrabButton window button modifiers => dispatch_ungrab_button window button modifiers
  | ReqGrabKey window key modifiers owner_events pointer_mode keyboard_mode =>
      dispatch_grab_key window key modifiers owner_events pointer_mode keyboard_mode
  | ReqUngrabKey window key modifiers => dispatch_ungrab_key window key modifiers
  | ReqAllowEvents mode _ => dispatch_allow_events mode
  | ReqGrabServer => dispatch_grab_server
  | ReqUngrabServer => dispatch_ungrab_server
  | ReqCreateGraphicsContext gc drawable values => dispatch_create_graphics_context gc drawable values
  | ReqChangeGraphicsContext gc value_mask values => dispatch_change_graphics_context gc value_mask values
  | ReqSetClipRectangles gc rectangles => dispatch_set_clip_rectangles gc rectangles
  | ReqFreeGraphicsContext gc => dispatch_free_graphics_context gc
  | ReqClearArea _ window x y width height => dispatch_clear_area window x y width height
  | ReqOpenFont font _ => dispatch_open_font font
  | ReqCloseFont font => dispatch_close_font font
  | ReqQueryFont font => dispatch_query_font font
  | ReqCreateCursor cursor source mask => dispatch_create_cursor cursor source mask
  | ReqCreateGlyphCursor cursor source_font mask_font => dispatch_create_glyph_cursor cursor source_font mask_font
  | ReqFreeCursor cursor => dispatch_free_cursor cursor
  | ReqRecolorCursor cursor => dispatch_recolor_cursor cursor
  | ReqListFonts max_names _ => dispatch_list_fonts max_names
  | ReqListFontsWithInfo max_names _ => dispatch_list_fonts_with_info max_names
  | ReqCreatePixmap _ pixmap drawable _ _ => dispatch_create_pixmap pixmap drawable
  | ReqFreePixmap pixmap => dispatch_free_pixmap pixmap
  | ReqGetInputFocus => dispatch_get_input_focus
  | ReqSetInputFocus focus revert_to _ => dispatch_set_input_focus focus revert_to
  | ReqGetModifierMapping => dispatch_get_modifier_mapping
  | ReqGetKeyboardMapping first_keycode count => dispatch_get_keyboard_mapping first_keycode count
  | ReqGetKeyboardControl => d_reply (ReplyGetKeyboardControl seq)
  | ReqBell => d_nothing
  | ReqTranslateCoordinates source destination src_x src_y =>
      dispatch_translate_coordinates source destination src_x src_y
  | ReqQueryPointer window => dispatch_query_pointer window
  | ReqQueryExtension name => dispatch_query_extension name
  | ReqListExtensions => d_reply (ReplyListExtensions seq)
  | ReqQueryBestSize _ _ width height => d_reply (ReplyQueryBestSize seq width height)
  | ReqQueryColors _ pixels => d_reply (ReplyQueryColors seq pixels)
  | ReqCreateColormap _ window _ => dispatch_create_colormap window
  | ReqFreeColormap _ => d_nothing
  | ReqAllocNamedColor _ name => dispatch_alloc_named_color name
  | ReqAllocColor _ red green blue => dispatch_alloc_color red green blue
  | ReqShmQueryVersion => d_reply (ReplyShmQueryVersion seq 1 2 false 0)
  | ReqDri3QueryVersion _ _ => d_reply (ReplyDri3QueryVersion seq 1 2)
  | ReqXfixesQueryVersion _ _ => d_reply (ReplyXfixesQueryVersion seq 6 0)
  | ReqXfixesCreateRegion region rectangles => dispatch_xfixes_create_region region rectangles
  | ReqXfixesSetRegion region rectangles => dispatch_xfixes_set_region region rectangles
  | ReqXfixesDestroyRegion region => dispatch_xfixes_destroy_region region
  | ReqXfixesSelectSelectionInput window selection event_mask =>
      dispatch_xfixes_select_selection_input window selection event_mask
  | ReqDri3Open drawable provider => dispatch_dri3_open drawable provider
  | ReqDri3PixmapFromBuffer pixmap drawable size_bytes width height stride depth bits_per_pixel =>
      dispatch_dri3_pixmap_from_buffer pixmap drawable size_bytes width height stride depth bits_per_pixel
  | ReqDri3PixmapFromBuffers pixmap window num_buffers width height strides offsets depth bits_per_pixel modifier =>
      dispatch_dri3_pixmap_from_buffers pixmap window num_buffers width height strides offsets depth bits_per_pixel
        modifier
  | ReqDri3FenceFromFd drawable fence _ => dispatch_dri3_fence_from_fd drawable fence
  | ReqDri3GetSupportedModifiers window depth bits_per_pixel =>
      dispatch_dri3_get_supported_modifiers window depth bits_per_pixel
  | ReqPresentQueryVersion _ _ => d_reply (ReplyPresentQueryVersion seq 1 2)
  | ReqPresentQueryCapabilities target => dispatch_present_query_capabilities target
  | ReqPresentSelectInput _ window event_mask => dispatch_present_select_input window event_mask
  | ReqPresentPixmap present window pixmap _ valid_region update_region _ _ target_crtc wait_fence idle_fence options _
      divisor remainder _ =>
      dispatch_present_pixmap present window pixmap valid_region update_region target_crtc wait_fence idle_fence options
        divisor remainder
  | ReqRandrQueryVersion _ _ => d_reply (ReplyRandrQueryVersion seq 1 5)
  | ReqRandrSelectInput window _ => dispatch_randr_select_input window
  | ReqRandrGetScreenSizeRange window => dispatch_randr_get_screen_size_range window
  | ReqRandrGetScreenResources window _ => dispatch_randr_get_screen_resources window
  | ReqRandrGetOutputInfo output _ => dispatch_randr_get_output_info output
  | ReqRandrGetOutputProperty output property _ _ _ _ _ => dispatch_randr_get_output_property output property
  | ReqRandrGetCrtcInfo crtc _ => dispatch_randr_get_crtc_info crtc
  | ReqRandrGetCrtcGammaSize crtc => dispatch_randr_get_crtc_gamma_size crtc
  | ReqRandrGetOutputPrimary window => dispatch_randr_get_output_primary window
  | ReqRandrGetProviders window => dispatch_randr_get_providers window
  | ReqRandrGetMonitors window _ => dispatch_randr_get_monitors window
  | ReqXkbUseExtension _ _ => d_reply (ReplyXkbUseExtension seq true 1 0)
  | ReqGlxQueryVersion _ _ => d_reply (ReplyGlxQueryVersion seq 1 4)
  | ReqGlxGetVisualConfigs screen => dispatch_glx_get_visual_configs screen
  | ReqGlxGetFbConfigs screen => dispatch_glx_get_fb_configs screen
  | ReqGlxClientInfo => d_nothing
  | ReqGlxCreateContext id fbconfig screen share direct => dispatch_glx_create_context id fbconfig screen share direct
  | ReqGlxDestroyContext id => dispatch_glx_destroy_context id
  | ReqGlxIsDirect id => dispatch_glx_is_direct id
  | ReqGlxCreateWindow screen fbconfig window glx_window => dispatch_glx_create_window screen fbconfig window glx_window
  | ReqGlxDeleteWindow glx_window => dispatch_glx_delete_window glx_window
  | ReqGlxGetDrawableAttributes drawable => dispatch_glx_get_drawable_attributes drawable
  | ReqSyncInitialize _ _ => d_reply (ReplySyncInitialize seq 3 1)
  | ReqSyncDestroyFence fence => dispatch_sync_destroy_fence fence
  | ReqGlxQueryExtensionsString => d_reply (ReplyGlxString seq GLX_EXTENSIONS)
  | ReqGlxQueryServerString name => d_reply (ReplyGlxString seq (glx_server_string name))
  | ReqXkbGetMap full partial => dispatch_xkb_get_map full partial
  | ReqXkbGetCompatMap device_spec =>
      xkb_device_reply device_spec X_KEYBOARD_GET_COMPAT_MAP_MINOR_OPCODE ReplyXkbGetCompatMap
  | ReqXkbGetIndicatorMap device_spec =>
      xkb_device_reply device_spec X_KEYBOARD_GET_INDICATOR_MAP_MINOR_OPCODE ReplyXkbGetIndicatorMap
  | ReqXkbGetState => d_reply (ReplyXkbGetState seq 0)
  | ReqXkbGetControls => d_reply (ReplyXkbGetControls seq)
  | ReqXkbGetNames which => dispatch_xkb_get_names which
  | ReqXkbGetDeviceInfo device_spec wanted => dispatch_xkb_get_device_info device_spec wanted
  | ReqXkbSelectEvents _ _ _ _ => d_nothing
  | ReqXkbPerClientFlags change value => dispatch_xkb_per_client_flags change value
  | ReqXiGetExtensionVersion => d_reply (ReplyXiGetExtensionVersion seq 2 0)
  | ReqXiQueryPointer window _ => dispatch_xi_query_pointer window
  | ReqXiUngrabDevice device_id _ => dispatch_xi_ungrab_device device_id
  | ReqXiGetClientPointer => d_reply (ReplyXiGetClientPointer seq 2)
  | ReqXiDeviceBell => d_nothing
  | ReqXiChangeCursor window cursor => dispatch_xi_change_cursor window cursor
  | ReqGeQueryVersion _ _ => d_reply (ReplyGeQueryVersion seq 1 0)
  | ReqXiQueryVersion _ _ => d_reply (ReplyXiQueryVersion seq 2 0)
  | ReqXiQueryDevice device_id => dispatch_xi_query_device device_id
  | ReqXiSelectEvents window masks => dispatch_xi_select_events window masks
  | ReqXiGetFocus _ => dispatch_xi_get_focus
  | ReqXiGetProperty => d_reply (ReplyXiGetProperty seq)
  | ReqBigRequestsEnable => d_reply (ReplyBigRequestsEnable seq X_SETUP_DEFAULT_MAX_REQUEST_UNITS)
  | ReqShmAttach segment shmid read_only => dispatch_shm_attach segment shmid read_only
  | ReqShmDetach segment => dispatch_shm_detach segment
  | ReqShmCreatePixmap pixmap drawable width height depth segment offset =>
      dispatch_shm_create_pixmap pixmap drawable width height depth segment offset
  | ReqShmPutImage drawable _ total_width total_height src_x src_y src_width src_height dst_x dst_y depth format
      send_event segment offset =>
      dispatch_shm_put_image drawable total_width total_height src_x src_y src_width src_height dst_x dst_y depth format
        send_event segment offset
  | ReqPolyFillRectangle drawable gc rectangles => dispatch_poly_fill_rectangle drawable gc rectangles
  | ReqCopyArea source destination gc src_x src_y dst_x dst_y width height =>
      dispatch_copy_area source destination gc src_x src_y dst_x dst_y width height
  | ReqPolyLine drawable gc points => dispatch_poly_line drawable gc points
  | ReqPolySegment drawable _ damage => dispatch_damage drawable damage
  | ReqPolyFillArc drawable _ damage => dispatch_damage drawable damage
  | ReqPolyText8 drawable gc x y text => dispatch_text_draw drawable gc x y text false
  | ReqImageText8 drawable gc x y text => dispatch_text_draw drawable gc x y text true
  | ReqFillPoly drawable _ damage => dispatch_fill_poly drawable damage
  | ReqPutImage _ drawable _ width height dst_x dst_y _ _ data => dispatch_put_image drawable width height dst_x dst_y data
  end.
Definition dispatch_x11_wire_request (request : XWireRequest) : D XDispatchResult :=
  _ ← d_runtime begin_dispatch; dispatch_request request.
Definition dispatch_x11_parse_error (minor_code : Z) (error : XWireParseError) : XDispatchResult :=
  plain [OutError (x_error_from_wire_parse error seq (dc_major_opcode c) minor_code)].
End dispatch.
