(* ===== verification/XServing.v ===== *)
(** * What dispatching an X11 request guarantees
    ([sophia-x-authority/src/dispatch.rs])

    Every decoded request is answered without panicking, with the replies its client waits for and
    its sequence number, as operations of its client's own namespace, which keep the state well
    formed and create only identifiers of the client. *)

From S2P Require Import Prelude Ids Geometry Packets PortalPackets Text.
From S2P Require Import XAtoms XTables XProperties XSelections XInputGrabs XSoftware XState XRuntime XResources XRelease XDraws.
From S2P Require Import XOps XSystem XProtocol XKeyboard XWire XDecode XDispatch.
From stdpp Require Import strings pretty.
Local Open Scope Z_scope.

(** ** Answers *)

Definition event_sequence (e : XClientEvent) : Z :=
  match e with
  | EventKey q _ _ _ _ _ _ | EventFocus q _ _ _ _ | EventXkbStateNotify q _ _ _ _ _
  | EventPointerMotion q _ _ _ _ _ _ _ _ | EventPointerButton q _ _ _ _ _ _ _ _ _ _ | EventExpose q _ _ _ _ _ _
  | EventVisibilityNotify q _ _ | EventMapNotify q _ _ _ | EventConfigureNotify q _ _ _ _ _ _ _ _ _
  | EventPropertyNotify q _ _ _ _ | EventSelectionClear q _ _ _ | EventSelectionRequest q _ _ _ _ _ _
  | EventSelectionNotify q _ _ _ _ _ | EventClientMessage q _ | EventShmCompletion q _ _ _
  | EventPresentCompleteNotify q _ _ _ _ _ _ | EventPresentIdleNotify q _ _ _ _ _ | EventRandrScreenChange q _ _ _ _ _ _ _ _
  | EventRandrCrtcChange q _ _ _ _ _ _ _ _ | EventRandrOutputChange q _ _ _ _ _ | EventRandrResourceChange q _ _ => q
  end.
Definition reply_sequence (r : XClientReply) : Z :=
  match r with
  | ReplyGrabStatus q _ | ReplyInternAtom q _ | ReplyGetAtomName q _ | ReplyGetGeometry q _ _ _ _ | ReplyGetImage q _ _ _
  | ReplyQueryTree q _ _ _ | ReplyGetWindowAttributes q _ _ _ _ | ReplyQueryExtension q _ _ _ _ | ReplyListExtensions q
  | ReplyListFonts q _ | ReplyListFontsWithInfo q _ | ReplyQueryBestSize q _ _ | ReplyShmQueryVersion q _ _ _ _
  | ReplyDri3QueryVersion q _ _ | ReplyDri3Open q | ReplyDri3GetSupportedModifiers q _ _ | ReplyXfixesQueryVersion q _ _
  | ReplyPresentQueryVersion q _ _ | ReplyPresentQueryCapabilities q _ | ReplyRandrQueryVersion q _ _
  | ReplyRandrGetScreenSizeRange q _ _ _ _ | ReplyRandrGetScreenResources q _ _ _ _
  | ReplyRandrGetOutputInfo q _ _ _ _ _ _ _ | ReplyRandrGetOutputProperty q _ _ _ _ | ReplyRandrGetCrtcInfo q _ _ _ _ _ _ _
  | ReplyRandrGetCrtcGammaSize q _ | ReplyRandrGetOutputPrimary q _ | ReplyRandrGetProviders q _
  | ReplyRandrGetMonitors q _ _ | ReplyXkbUseExtension q _ _ _ | ReplyGlxQueryVersion q _ _ | ReplyGlxString q _
  | ReplyGlxVisualConfigs q _ | ReplyGlxFbConfigs q _ | ReplyGlxIsDirect q _ | ReplyGlxDrawableAttributes q _
  | ReplySyncInitialize q _ _ | ReplyXkbGetMap q _ _ _ | ReplyXkbGetCompatMap q _ | ReplyXkbGetIndicatorMap q _
  | ReplyXkbGetState q _ | ReplyXkbGetControls q | ReplyXkbGetNames q _ _ _ _ _ _ | ReplyXkbGetDeviceInfo q _ _ _
  | ReplyXkbPerClientFlags q _ _ | ReplyXiQueryVersion q _ _ | ReplyGeQueryVersion q _ _ | ReplyXiGetClientPointer q _
  | ReplyXiGetExtensionVersion q _ _ | ReplyXiQueryDevice q _ | ReplyXiQueryPointer q _ _ | ReplyXiGetFocus q _
  | ReplyXiGetProperty q | ReplyBigRequestsEnable q _ | ReplyGetInputFocus q _ _ | ReplyQueryPointer q _ _ _ _ _ _ _
  | ReplyGetModifierMapping q _ _ | ReplyGetKeyboardMapping q _ _ | ReplyGetKeyboardControl q
  | ReplyTranslateCoordinates q _ _ _ _ | ReplyQueryFont q _ _ | ReplyGetProperty q _ _ _ _ _ | ReplyGetSelectionOwner q _
  | ReplyAllocNamedColor q _ _ _ _ | ReplyAllocColor q _ _ _ _ | ReplyListProperties q _ | ReplyQueryColors q _ => q
  end.
Definition output_sequence (o : XClientOutput) : Z :=
  match o with OutError e => ce_sequence e | OutEvent e => event_sequence e | OutReply r => reply_sequence r end.
Definition is_event (o : XClientOutput) : Prop := match o with OutEvent _ => True | _ => False end.

(** The requests whose clients wait for a reply, as the protocols say. *)
Definition expects_reply (request : XWireRequest) : bool :=
  match request with
  | ReqGetWindowAttributes _ | ReqGetGeometry _ | ReqGetImage _ _ _ _ _ _ _ | ReqQueryTree _ | ReqInternAtom _ _
  | ReqGetAtomName _ | ReqGetProperty _ | ReqListProperties _ | ReqGetSelectionOwner _ | ReqGrabPointer _ _ _ _ _ _
  | ReqGrabKeyboard _ _ _ _ _ | ReqQueryFont _ | ReqListFonts _ _ | ReqListFontsWithInfo _ _ | ReqGetInputFocus
  | ReqGetModifierMapping | ReqGetKeyboardMapping _ _ | ReqGetKeyboardControl | ReqTranslateCoordinates _ _ _ _
  | ReqQueryPointer _ | ReqQueryExtension _ | ReqListExtensions | ReqQueryBestSize _ _ _ _ | ReqQueryColors _ _
  | ReqAllocNamedColor _ _ | ReqAllocColor _ _ _ _ | ReqShmQueryVersion | ReqDri3QueryVersion _ _
  | ReqXfixesQueryVersion _ _ | ReqDri3Open _ _ | ReqDri3GetSupportedModifiers _ _ _ | ReqPresentQueryVersion _ _
  | ReqPresentQueryCapabilities _ | ReqRandrQueryVersion _ _ | ReqRandrGetScreenSizeRange _ | ReqRandrGetScreenResources _ _
  | ReqRandrGetOutputInfo _ _ | ReqRandrGetOutputProperty _ _ _ _ _ _ _ | ReqRandrGetCrtcInfo _ _
  | ReqRandrGetCrtcGammaSize _ | ReqRandrGetOutputPrimary _ | ReqRandrGetProviders _ | ReqRandrGetMonitors _ _
  | ReqXkbUseExtension _ _ | ReqGlxQueryVersion _ _ | ReqGlxGetVisualConfigs _ | ReqGlxGetFbConfigs _ | ReqGlxIsDirect _
  | ReqGlxGetDrawableAttributes _ | ReqSyncInitialize _ _ | ReqGlxQueryExtensionsString | ReqGlxQueryServerString _
  | ReqXkbGetMap _ _ | ReqXkbGetCompatMap _ | ReqXkbGetIndicatorMap _ | ReqXkbGetState | ReqXkbGetControls
  | ReqXkbGetNames _ | ReqXkbGetDeviceInfo _ _ | ReqXkbPerClientFlags _ _ | ReqXiGetExtensionVersion
  | ReqXiQueryPointer _ _ | ReqXiGetClientPointer | ReqGeQueryVersion _ _ | ReqXiQueryVersion _ _ | ReqXiQueryDevice _
  | ReqXiGetFocus _ | ReqXiGetProperty | ReqBigRequestsEnable => true
  | _ => false
  end.
(** A reply or an error where one is waited for; otherwise events, or an error alone. *)
Definition answers (expected : bool) (outputs : list XClientOutput) : Prop :=
  if expected then ∃ o, outputs = [o] ∧ ¬ is_event o
  else Forall is_event outputs ∨ ∃ e, outputs = [OutError e].

(** ** The state between requests *)

Record server_ok (s : XServer) : Prop := mk_server_ok {
  so_runtime : runtime_ok (sv_runtime s);
  so_atoms : atom_table_ok (sv_atoms s);
  so_properties : properties_ok (sv_properties s);
  so_input : every_ns ns_passive_ok (sv_input s);
}.

(** Operations of namespace [n], or of none, that create only identifiers of [mine]. *)
Definition op_confined (n : NamespaceId) (mine : XResourceId → Prop) (op : XRuntimeOp) : Prop :=
  op_valid op ∧ (op_namespace op = Some n ∨ op_namespace op = None) ∧ Forall mine (op_created op).
(** What serving client [client] of namespace [n] may change: runtime tables by its own operations,
    the input state and the properties of its namespace; atoms are only added. *)
Record confined (n : NamespaceId) (client : Z) (mine : XResourceId → Prop) (s s' : XServer) : Prop := mk_confined {
  cf_runtime : ∃ ops, Forall (op_confined n mine) ops ∧ sv_runtime s' = runtime_run (sv_runtime s) ops;
  cf_input : ∀ m, m ≠ n → namespaces (sv_input s') !! m = namespaces (sv_input s) !! m;
  cf_selections : ∀ k, k.1.1.1 ≠ n ∨ k.1.1.2 ≠ client → xi_selections (sv_input s') !! k = xi_selections (sv_input s) !! k;
  cf_keymap : sv_keymap s' = sv_keymap s;
  cf_atoms : names_by_atom (sv_atoms s) ⊆ names_by_atom (sv_atoms s');
  cf_properties : ∀ k, k.1.1 ≠ n → sv_properties s' !! k = sv_properties s !! k;
}.
#[export] Instance confined_preorder n client mine : PreOrder (confined n client mine).
Proof.
  split.
  - intros s. constructor; try done. by exists [].
  - intros s1 s2 s3 [(ops1 & Ho1 & E1) I1 X1 K1 A1 P1] [(ops2 & Ho2 & E2) I2 X2 K2 A2 P2]. constructor.
    + exists (ops1 ++ ops2). split; [by apply Forall_app|]. unfold runtime_run in *. by rewrite foldl_app, <-E1.
    + intros m Hm. by rewrite I2, I1.
    + intros k Hk. by rewrite X2, X1.
    + congruence.
    + by etrans.
    + intros k Hk. by rewrite P2, P1.
Qed.

(** ** The operations a step of the runtime stands for *)

(** [m] leaves the state that the operations [ops] leave. *)
Class RunsAs {B} (m : XAuthorityRuntime → B * XAuthorityRuntime) (ops : list XRuntimeOp) : Prop :=
  runs_as : ∀ r, (m r).2 = runtime_run r ops.
#[export] Hint Mode RunsAs + + - : typeclass_instances.

Section runs.
  Context (n : NamespaceId) (id other : XResourceId) (z : Z).
  Implicit Types (transaction : TransactionId) (values : XGraphicsContextValues).
#[export] Instance runs_apply request : RunsAs (XRuntime.apply request) [OpRequest request] := λ r, eq_refl.
#[export] Instance runs_background w pixel : RunsAs (set_window_background_pixel n w pixel) [OpSetBackground n w pixel] := λ r, eq_refl.
#[export] Instance runs_destroy_window : RunsAs (destroy_window n id) [OpDestroyWindow n id] := λ r, eq_refl.
#[export] Instance runs_map_namespace : RunsAs (map_namespace_windows n z) [OpMapNamespace n z] := λ r, eq_refl.
#[export] Instance runs_configure x y w h :
  RunsAs (configure_window_geometry n id x y w h z) [OpConfigure n id x y w h z] := λ r, eq_refl.
#[export] Instance runs_create_gc values : RunsAs (create_graphics_context n id other values) [OpCreateGc n id other values] := λ r, eq_refl.
#[export] Instance runs_change_gc mask values : RunsAs (change_graphics_context n id mask values) [OpChangeGc n id mask values] := λ r, eq_refl.
#[export] Instance runs_clip_gc l : RunsAs (set_graphics_context_clip_rectangles n id l) [OpClipGc n id l] := λ r, eq_refl.
#[export] Instance runs_free_gc : RunsAs (free_graphics_context n id) [OpFreeGc n id] := λ r, eq_refl.
#[export] Instance runs_open_font : RunsAs (open_font n id z) [OpOpenFont n id z] := λ r, eq_refl.
#[export] Instance runs_close_font : RunsAs (close_font n id) [OpCloseFont n id] := λ r, eq_refl.
#[export] Instance runs_create_cursor : RunsAs (create_cursor n id z) [OpCreateCursor n id z] := λ r, eq_refl.
#[export] Instance runs_free_cursor : RunsAs (free_cursor n id) [OpFreeCursor n id] := λ r, eq_refl.
#[export] Instance runs_create_pixmap : RunsAs (create_pixmap n id z) [OpCreatePixmap n id z] := λ r, eq_refl.
#[export] Instance runs_free_pixmap : RunsAs (free_pixmap n id) [OpFreePixmap n id] := λ r, eq_refl.
#[export] Instance runs_focus : RunsAs (set_focus n id z) [OpSetFocus n id z] := λ r, eq_refl.
#[export] Instance runs_create_region l : RunsAs (create_xfixes_region n id l z) [OpCreateRegion n id l z] := λ r, eq_refl.
#[export] Instance runs_set_region l : RunsAs (set_xfixes_region n id l) [OpSetRegion n id l] := λ r, eq_refl.
#[export] Instance runs_destroy_region : RunsAs (destroy_xfixes_region n id) [OpDestroyRegion n id] := λ r, eq_refl.
#[export] Instance runs_dri3_pixmap size w h stride depth bits :
  RunsAs (create_dri3_pixmap n id z size w h stride depth bits) [OpCreateDri3Pixmap n id z size w h stride depth bits] := λ r, eq_refl.
#[export] Instance runs_dri3_buffers buffers w h strides offsets depth bits modifier :
  RunsAs (create_dri3_pixmap_from_buffers n id z buffers w h strides offsets depth bits modifier)
    [OpCreateDri3Buffers n id z buffers w h strides offsets depth bits modifier] := λ r, eq_refl.
#[export] Instance runs_create_fence : RunsAs (create_dri3_fence n id z) [OpCreateFence n id z] := λ r, eq_refl.
#[export] Instance runs_destroy_fence : RunsAs (destroy_dri3_fence n id) [OpDestroyFence n id] := λ r, eq_refl.
#[export] Instance runs_attach shmid read_only :
  RunsAs (attach_shm_segment n id shmid read_only z) [OpAttachShm n id shmid read_only z] := λ r, eq_refl.
#[export] Instance runs_detach : RunsAs (detach_shm_segment n id) [OpDetachShm n id] := λ r, eq_refl.
#[export] Instance runs_create_glx_context direct : RunsAs (create_glx_context n id z direct) [OpCreateGlxContext n id z direct] := λ r, eq_refl.
#[export] Instance runs_destroy_glx_context : RunsAs (destroy_glx_context n id) [OpDestroyGlxContext n id] := λ r, eq_refl.
#[export] Instance runs_create_glx_window : RunsAs (create_glx_window n id other z) [OpCreateGlxWindow n id other z] := λ r, eq_refl.
#[export] Instance runs_destroy_glx_window : RunsAs (destroy_glx_window n id) [OpDestroyGlxWindow n id] := λ r, eq_refl.
#[export] Instance runs_present transaction :
  RunsAs (present_standard_pixmap transaction n id other) [OpPresentPixmap transaction n id other] := λ r, eq_refl.
#[export] Instance runs_core_draw_gc transaction damage values :
  RunsAs (apply_core_draw_with_gc transaction n id damage values) [OpCoreDraw transaction n id damage values] := λ r, eq_refl.
#[export] Instance runs_core_draw transaction damage :
  RunsAs (apply_core_draw transaction n id damage) [OpCoreDraw transaction n id damage gc_default] := λ r, eq_refl.
#[export] Instance runs_copy_area transaction sx sy dx dy w h values :
  RunsAs (apply_copy_area_with_gc transaction n id other sx sy dx dy w h values)
    [OpCopyAreaGc transaction n id other sx sy dx dy w h values] := λ r, eq_refl.
#[export] Instance runs_line transaction points values :
  RunsAs (apply_line_draw transaction n id points values) [OpLineDraw transaction n id points values] := λ r, eq_refl.
#[export] Instance runs_put_image transaction damage data :
  RunsAs (apply_put_image transaction n id damage data) [OpPutImage transaction n id damage data] := λ r, eq_refl.
#[export] Instance runs_text transaction x y text opaque values :
  RunsAs (apply_text_draw transaction n id x y text opaque values) [OpTextDraw transaction n id x y text opaque values] := λ r, eq_refl.
#[export] Instance runs_clear transaction damage pixel :
  RunsAs (apply_clear_with_pixel transaction n id damage pixel) [OpClear transaction n id damage pixel] := λ r, eq_refl.
#[export] Instance runs_or_rejected {A} c (looked_up : result A XAuthorityRuntimeError) draw ops :
  (∀ a, RunsAs (draw a) (ops a)) →
  RunsAs (or_rejected c looked_up draw) (match looked_up with Ok a => ops a | Err _ => [] end).
Proof. intros H r. unfold or_rejected. destruct looked_up; [apply H|done]. Qed.
(** Changes that are no method of their own. *)
#[export] Instance runs_visual depth visual colormap :
  RunsAs (λ r, ((), set_window_visual id depth visual colormap r)) [OpSetWindowVisual id depth visual colormap] := λ r, eq_refl.
#[export] Instance runs_byte_order transfer order :
  RunsAs (λ r, ((), set_pending_clipboard_byte_order transfer order r)) [OpClipboardByteOrder transfer order] := λ r, eq_refl.
#[export] Instance runs_begin : RunsAs (λ r, ((), begin_dispatch r)) [OpBeginDispatch] := λ r, eq_refl.
End runs.

(** ** Serving a client *)

Section serving.
  Context (n : NamespaceId) (client : Z) (mine : XResourceId → Prop).

(** [m] never panics, its result satisfies [P], and it keeps to what its client may change. *)
Definition serves {A} (m : D A) (P : A → Prop) : Prop :=
  ∀ s, server_ok s → ∃ a s', m s = Some (a, s') ∧ P a ∧ server_ok s' ∧ confined n client mine s s'.

Lemma serves_ret {A} (a : A) (P : A → Prop) : P a → serves (mret a) P.
Proof. intros HP s Hs. exists a, s. split_and!; [done..|reflexivity]. Qed.
Lemma serves_bind {A B} (m : D A) (k : A → D B) P Q :
  serves m P → (∀ a, P a → serves (k a) Q) → serves (m ≫= k) Q.
Proof.
  intros Hm Hk s Hs. destruct (Hm s Hs) as (a & s1 & E1 & HP & Hs1 & R1).
  destruct (Hk a HP s1 Hs1) as (b & s2 & E2 & HQ & Hs2 & R2). exists b, s2.
  split_and!; [|done..|by etrans]. unfold mbind, d_bind. by rewrite E1.
Qed.
Lemma serves_get Q : (∀ s, server_ok s → Q s) → serves d_get Q.
Proof. intros HQ s Hs. exists s, s. split_and!; [done|by apply HQ|done|reflexivity]. Qed.
Lemma serves_expect {A} (o : option A) (P : A → Prop) a : o = Some a → P a → serves (d_expect o) P.
Proof. intros -> HP s Hs. exists a, s. split_and!; [done..|reflexivity]. Qed.
Lemma serves_same {A} (m : D A) (P : A → Prop) (f : XServer → A) : (∀ s, m s = Some (f s, s)) → (∀ s, P (f s)) → serves m P.
Proof. intros Hm HP s Hs. exists (f s), s. split_and!; [done..|reflexivity]. Qed.

Lemma serves_draw {B} (m : XAuthorityRuntime → B * XAuthorityRuntime) ops :
  RunsAs m ops → Forall (op_confined n mine) ops → serves (d_draw m) (λ _, True).
Proof.
  intros Hm Hops s Hs. unfold d_draw. specialize (Hm (sv_runtime s)). destruct (m (sv_runtime s)) as [b r] eqn:E.
  simpl in Hm. exists b, (set_sv_runtime s r). split_and!; [done..| |].
  - destruct Hs. constructor; simpl; [|done..]. subst r. apply runtime_run_ok; [|done].
    eapply Forall_impl; [done|]. by intros op (? & _).
  - constructor; simpl; try done. by exists ops.
Qed.
Lemma serves_run {A} (m : Rt A) ops :
  RunsAs m ops → Forall (op_confined n mine) ops → serves (d_run m) (λ _, True).
Proof. apply (serves_draw (B := result A XAuthorityRuntimeError)). Qed.

(** Operations of the input authority that clients ask for. *)
Definition own_input (op : XInputOp) : Prop :=
  match op with
  | IGrabPointer ns _ | IUngrabPointer ns _ | IGrabKeyboard ns _ | IUngrabKeyboard ns _ | IGrabButton ns _ | IGrabKey ns _
  | IUngrabButton ns _ _ _ _ | IUngrabKey ns _ _ _ _ | IGrabServer ns _ | IUngrabServer ns _ | IAllowEvents ns _ _ => ns = n
  | ISelectXi ns owner _ _ => ns = n ∧ owner = client
  | _ => False
  end.
Definition input_keeps (i i' : XInputAuthorityState) : Prop :=
  (∀ m, m ≠ n → namespaces i' !! m = namespaces i !! m) ∧
  (∀ k, k.1.1.1 ≠ n ∨ k.1.1.2 ≠ client → xi_selections i' !! k = xi_selections i !! k).
Lemma set_ns_keeps i v : input_keeps i (set_ns i n v).
Proof. split; [|done]. intros m Hm. simpl. by rewrite lookup_insert_ne. Qed.
Lemma with_ns_keeps i f : input_keeps i (with_ns i n f).
Proof. unfold with_ns. destruct (namespaces i !! n); [apply set_ns_keeps|done]. Qed.
Lemma select_keeps i window masks : input_keeps i (select_xi_events i n client window masks).
Proof.
  split; [done|]. intros k Hk. simpl. induction masks as [|mask masks IH] using rev_ind; [done|].
  rewrite foldl_snoc, <-IH. unfold select_xi_step.
  assert ((n, client, window, mask.1) ≠ k) by (intros <-; destruct Hk; done).
  case_decide; [by rewrite lookup_delete_ne|by rewrite lookup_insert_ne].
Qed.
Lemma or_keep_keeps i r : (∀ i', r = Ok i' → input_keeps i i') → input_keeps i (or_keep i r).
Proof. destruct r; simpl; [by intros H; apply H|done]. Qed.
Lemma own_input_keeps op i : own_input op → input_keeps i (input_op i op).
Proof.
  destruct op; cbn [own_input]; try done; [intros ->..|intros [-> ->]]; cbn [input_op];
    try apply with_ns_keeps; try apply select_keeps; apply or_keep_keeps; intros i';
    unfold grab_pointer, grab_keyboard, grab_button, grab_key, grab_server, allow_events, validate_modes; simpl.
  1-2: repeat (case_decide; simpl; try done); intros [= <-]; apply set_ns_keeps.
  1-2: case_decide; simpl; [done|]; destruct (insert_passive _ _); simpl; [|done]; intros [= <-]; apply set_ns_keeps.
  - case_decide; [|done]. intros [= <-]. apply set_ns_keeps.
  - case_decide; [done|]. intros [= <-]. apply with_ns_keeps.
Qed.
Lemma input_serves op s :
  own_input op → server_ok s →
  server_ok (set_sv_input s (input_op (sv_input s) op)) ∧ confined n client mine s (set_sv_input s (input_op (sv_input s) op)).
Proof.
  intros Hop [Hr Ha Hp Hi]. destruct (own_input_keeps op (sv_input s) Hop) as [H1 H2]. split.
  - constructor; simpl; try done. by apply input_op_passive.
  - constructor; simpl; try done. by exists [].
Qed.
Lemma serves_input f op : own_input op → (∀ i, f i = input_op i op) → serves (d_input f) (λ _, True).
Proof.
  intros Hop Hf s Hs. exists (), (set_sv_input s (f (sv_input s))). split; [done|]. rewrite Hf. split; [done|].
  by apply input_serves.
Qed.
Lemma serves_grab f op : own_input op → (∀ i, or_keep i (f i) = input_op i op) → serves (d_grab f) (λ _, True).
Proof.
  intros Hop Hf s Hs. unfold d_grab. destruct (input_serves op s Hop Hs) as [H1 H2]. rewrite <-Hf in H1, H2.
  destruct (f (sv_input s)) as [i|e]; simpl in *; [by exists (Ok ()), (set_sv_input s i)|].
  exists (Err e), s. split_and!; [done..|reflexivity].
Qed.

(** Atoms and properties. *)
Lemma serves_intern name only : serves (d_intern name only) (λ _, True).
Proof.
  intros s [Hr Ha Hp Hi]. unfold d_intern. destruct (intern (sv_atoms s) name only) as [a atoms] eqn:E.
  exists a, (set_sv_atoms s atoms). split_and!; [done..| |].
  - constructor; simpl; try done. by eapply intern_preserves.
  - constructor; simpl; try done; [by exists []|by eapply intern_extends].
Qed.
Lemma serves_properties (f : XPropertyTable → XPropertyTable) op s :
  f (sv_properties s) = property_op (sv_properties s) op →
  (∀ k, k.1.1 ≠ n → f (sv_properties s) !! k = sv_properties s !! k) →
  server_ok s →
  server_ok (set_sv_properties s (f (sv_properties s))) ∧ confined n client mine s (set_sv_properties s (f (sv_properties s))).
Proof.
  intros Hf Hk [Hr Ha Hp Hi]. split.
  - constructor; simpl; try done. rewrite Hf. by apply property_op_preserves.
  - constructor; simpl; try done. by exists [].
Qed.
Lemma serves_change change : serves (d_change n change) (λ _, True).
Proof.
  intros s Hs. unfold d_change. destruct (apply_change (sv_properties s) n change) as [[record t]|e] eqn:E.
  - exists (Ok record), (set_sv_properties s t).
    destruct (serves_properties (λ _, t) (OpChange n change) s) as [H1 H2]; [by simpl; rewrite E| |done|by split_and!].
    intros k Hk. apply apply_change_ok in E as (_ & _ & ->); [|apply (so_properties _ Hs)].
    rewrite lookup_insert_ne; [done|]. intros <-. by apply Hk.
  - exists (Err e), s. split_and!; [done..|reflexivity].
Qed.
Lemma serves_remove window property : serves (d_remove n window property) (λ _, True).
Proof.
  intros s Hs. unfold d_remove, property_remove. eexists _, (set_sv_properties s _). split; [done|]. split; [done|].
  apply (serves_properties (delete (n, window, property)) (OpRemove n window property) s); [done| |done].
  intros k Hk. rewrite lookup_delete_ne; [done|]. intros <-. by apply Hk.
Qed.
Lemma serves_remove_window window : serves (d_remove_window n window) (λ _, True).
Proof.
  intros s Hs. unfold d_remove_window. eexists (), (set_sv_properties s _). split; [done|]. split; [done|].
  apply (serves_properties (λ t, (remove_window t n window).2) (OpRemoveWindow n window) s); [done| |done].
  intros k Hk. simpl. destruct (sv_properties s !! k) eqn:E.
  - apply map_lookup_filter_Some. split; [done|]. by left.
  - apply map_lookup_filter_None. by left.
Qed.
Lemma serves_mapM {A B} (f : A → D B) l : (∀ a, serves (f a) (λ _, True)) → serves (d_mapM f l) (λ _, True).
Proof.
  intros Hf. induction l as [|a l IH]; [by apply serves_ret|]. eapply serves_bind; [apply Hf|]. intros b _.
  eapply serves_bind; [apply IH|]. intros rest _. by apply serves_ret.
Qed.
End serving.

(** ** What the requests of a client are answered with *)

(** The answer fits the request, under the sequence number of the request. *)
Definition answered (expected : bool) (seq : Z) (outputs : list XClientOutput) : Prop :=
  answers expected outputs ∧ Forall (λ o, output_sequence o = seq) outputs.
Section answered.
  Context (seq : Z).
Lemma answered_error expected e : ce_sequence e = seq → answered expected seq [OutError e].
Proof.
  intros He. split; [|by repeat constructor]. destruct expected; simpl; [|right; by exists e]. exists (OutError e). split; [done|]. simpl. tauto.
Qed.
Lemma answered_reply r : reply_sequence r = seq → answered true seq [OutReply r].
Proof. intros Hr. split; [|by repeat constructor]. exists (OutReply r). split; [done|]. simpl. tauto. Qed.
Lemma answered_events l : Forall (λ o, is_event o ∧ output_sequence o = seq) l → answered false seq l.
Proof. intros [H1 H2]%Forall_and. split; [by left|done]. Qed.
Lemma answered_nil : answered false seq [].
Proof. by apply answered_events. Qed.
Lemma answered_checked {A} c expected (r : result A XAuthorityRuntimeError) id ok :
  dc_sequence c = seq → answered expected seq ok → answered expected seq (checked c r id ok).
Proof. intros Hc Hok. destruct r; [done|]. by apply answered_error. Qed.
Lemma answered_cast {A} c (r : result A XAuthorityRuntimeError) id :
  dc_sequence c = seq → answered false seq (checked_cast c r id).
Proof. intros Hc. destruct r; [apply answered_nil|by apply answered_error]. Qed.
Lemma answered_rejection c response id : dc_sequence c = seq → answered false seq (rejection c response id).
Proof. intros Hc. unfold rejection. destruct (rs_outcome response); [apply answered_nil|by apply answered_error]. Qed.
End answered.

(** The outputs of a valid topology fit the numbers of the protocol. *)
Lemma output_fits t size e :
  topology_validate t = Ok size → e ∈ ots_outputs t →
  is_Some (u16_exactly (rwidth (ote_logical e))) ∧ is_Some (u16_exactly (rheight (ote_logical e))).
Proof.
  intros (_ & _ & Hok & _ & _ & Hw & Hh & Hcov & _)%topology_validate_spec He. rewrite Forall_forall in Hok.
  specialize (Hcov e He). destruct (Hok e He) as (_ & H1 & H2 & H3 & H4 & _). unfold u16_exactly.
  rewrite !decide_True by lia. by split.
Qed.
Lemma root_size_fits t size :
  topology_validate t = Ok size → is_Some (u16_exactly (sz_width size)) ∧ is_Some (u16_exactly (sz_height size)).
Proof.
  intros (_ & _ & Hok & _ & _ & Hw & Hh & _ & (e & He & E) & (e' & He' & E'))%topology_validate_spec.
  rewrite Forall_forall in Hok. apply Hok in He, He'. unfold entry_ok in *. unfold u16_exactly.
  rewrite !decide_True by lia. by split.
Qed.
Lemma randr_resources_fit t size :
  topology_validate t = Ok size →
  ∃ resources, randr_resources t = Some resources ∧ rr_crtcs resources = randr_crtc <$> ots_outputs t ∧
    rr_outputs resources = randr_output <$> ots_outputs t ∧ length (rr_modes resources) = length (ots_outputs t).
Proof.
  intros Ht. assert (is_Some (mapM randr_mode (ots_outputs t))) as [modes Hm].
  { apply mapM_is_Some, Forall_forall. intros e He. destruct (output_fits t size e Ht He) as [[w Hw] [h Hh]].
    simpl. unfold randr_mode. simpl. rewrite Hw. simpl. by rewrite Hh. }
  eexists. unfold randr_resources. rewrite Hm. split_and!; [done..|]. symmetry. by eapply length_mapM.
Qed.
