(* ===== verification/XAnswers.v ===== *)
(** * Serving the requests of a client
    ([sophia-x-authority/src/dispatch.rs])

    Every arm of the dispatcher, against the calculus of [XServing]; and what follows for the bytes
    that clients send. *)

From S2P Require Import Prelude Ids Geometry Packets PortalPackets Text.
From S2P Require Import XAtoms XTables XProperties XSelections XInputGrabs XSoftware XState XRuntime XResources XRelease XDraws.
From S2P Require Import XOps XSystem XProtocol XKeyboard XWire XDecode XDispatch XServing.
From stdpp Require Import strings pretty.
Local Open Scope Z_scope.

Create HintDb arms_db.
#[export] Hint Unfold dispatch_change_window_attributes dispatch_get_window_attributes dispatch_destroy_window
  dispatch_reparent_window dispatch_map_subwindows dispatch_unmap_window dispatch_configure_window
  dispatch_get_geometry dispatch_get_image dispatch_query_tree dispatch_intern_atom dispatch_get_atom_name
  dispatch_change_property dispatch_delete_property dispatch_get_property dispatch_list_properties
  dispatch_get_selection_owner dispatch_send_selection_notify dispatch_grab dispatch_grab_pointer
  dispatch_grab_keyboard dispatch_ungrab_pointer dispatch_ungrab_keyboard dispatch_passive_grab
  dispatch_grab_button dispatch_grab_key dispatch_ungrab_button dispatch_ungrab_key dispatch_allow_events
  dispatch_grab_server dispatch_ungrab_server dispatch_create_graphics_context dispatch_change_graphics_context
  dispatch_set_clip_rectangles dispatch_free_graphics_context dispatch_open_font dispatch_close_font
  dispatch_query_font dispatch_create_cursor dispatch_create_glyph_cursor dispatch_free_cursor
  dispatch_recolor_cursor dispatch_list_fonts dispatch_list_fonts_with_info dispatch_for_drawable
  dispatch_create_pixmap dispatch_free_pixmap dispatch_get_input_focus dispatch_set_input_focus
  dispatch_get_modifier_mapping dispatch_get_keyboard_mapping dispatch_translate_coordinates
  dispatch_query_pointer dispatch_query_extension dispatch_create_colormap dispatch_alloc_named_color
  dispatch_alloc_color dispatch_clear_area dispatch_poly_fill_rectangle dispatch_copy_area dispatch_poly_line
  dispatch_damage dispatch_fill_poly dispatch_put_image dispatch_text_draw dispatch_shm_attach
  dispatch_shm_detach dispatch_shm_create_pixmap dispatch_shm_put_image dispatch_xfixes_create_region
  dispatch_xfixes_set_region dispatch_xfixes_destroy_region dispatch_xfixes_select_selection_input
  dispatch_dri3_open dispatch_dri3_pixmap_from_buffer dispatch_dri3_pixmap_from_buffers
  dispatch_dri3_fence_from_fd dispatch_dri3_get_supported_modifiers dispatch_sync_destroy_fence
  dispatch_present_query_capabilities dispatch_present_select_input dispatch_present_pixmap
  dispatch_randr_select_input dispatch_randr_get_screen_size_range dispatch_randr_get_screen_resources
  dispatch_randr_get_output_info dispatch_randr_get_output_property dispatch_randr_get_crtc_info
  dispatch_randr_get_crtc_gamma_size dispatch_randr_get_output_primary dispatch_randr_get_providers
  dispatch_randr_get_monitors dispatch_glx_get_visual_configs dispatch_glx_get_fb_configs
  dispatch_glx_create_context dispatch_glx_destroy_context dispatch_glx_is_direct dispatch_glx_create_window
  dispatch_glx_delete_window dispatch_glx_get_drawable_attributes dispatch_xkb_get_map dispatch_xkb_get_names
  dispatch_xkb_get_device_info dispatch_xkb_per_client_flags dispatch_xi_query_pointer
  dispatch_xi_ungrab_device dispatch_xi_change_cursor dispatch_xi_query_device dispatch_xi_select_events
  dispatch_xi_get_focus d_input_only d_reply d_nothing d_silent d_silent_cast d_drawing d_answer
  unless_pixmap shm_completion focus_event x_client_output_from_property_read xkb_device_reply : arms_db.

Section arms.
  Context (wc : XWireClientContext) (range : XWireClientResourceRange) (c : XDispatchContext)
    (copy_bytes : Z → Z → Z → option (list Z)).
  Hypothesis own_namespace : wc_namespace wc = dc_namespace c.
  Hypothesis own_range : wc_resource_id_range wc = Some range.
  Notation ns := (dc_namespace c).
  Notation mine := (λ id, owns_new_resource range (xid_raw id)).

Definition served (expected : bool) (m : D XDispatchResult) : Prop :=
  serves ns (dc_client_id c) mine m (λ r, answered expected (dc_sequence c) (dr_outputs r)).

Lemma served_ret e r : answered e (dc_sequence c) (dr_outputs r) → served e (mret r).
Proof. intros Hr. by apply serves_ret. Qed.
Lemma served_step {A} e (m : D A) k :
  serves ns (dc_client_id c) mine m (λ _, True) → (∀ a, served e (k a)) → served e (m ≫= k).
Proof. intros Hm Hk. eapply serves_bind; [done|]. intros a _. apply Hk. Qed.
Lemma served_get e k : (∀ s, server_ok s → served e (k s)) → served e (d_get ≫= k).
Proof. intros Hk. eapply serves_bind; [by apply (serves_get _ _ _ server_ok)|done]. Qed.
Lemma served_expect {A} e (o : option A) k : is_Some o → (∀ a, o = Some a → served e (k a)) → served e (d_expect o ≫= k).
Proof. intros [a Ha] Hk. eapply serves_bind; [by apply (serves_expect _ _ _ o (λ a, o = Some a) a)|done]. Qed.
Lemma served_run {A} e (m : Rt A) ops k :
  RunsAs m ops → Forall (op_confined ns mine) ops → (∀ a, served e (k a)) → served e (d_run m ≫= k).
Proof. intros ? ? ?. eapply served_step; [by eapply serves_run|done]. Qed.
Lemma served_draw {A} e (m : XAuthorityRuntime → A * XAuthorityRuntime) ops k :
  RunsAs m ops → Forall (op_confined ns mine) ops → (∀ a, served e (k a)) → served e (d_draw m ≫= k).
Proof. intros ? ? ?. eapply served_step; [by eapply serves_draw|done]. Qed.

Lemma own_op op : op_valid op → op_namespace op = Some ns ∨ op_namespace op = None → Forall mine (op_created op) →
  Forall (op_confined ns mine) [op].
Proof. intros Hv Ho Hm. apply Forall_singleton. by split; [|split]. Qed.
Lemma fresh_mine id : fresh_ok wc id → mine id.
Proof. intros [_ H]. by rewrite own_range in H. Qed.

(** Creating a window and the requests of the authority. *)
Lemma outputs_answered kind response : answered false (dc_sequence c) (outputs_from_authority_response c kind response).
Proof.
  unfold outputs_from_authority_response.
  assert (answered false (dc_sequence c)
    match rs_outcome response with
    | Accepted =>
        match kind with
        | CreateWindow window _ geometry _ _ => [configured c window geometry]
        | MapWindow window _ =>
            map_notified c window ++
            (if find_first (λ surface, as_mapped surface = true) (rs_surfaces response) is Some surface
             then [exposed c window (as_geometry surface)] else [])
        | _ => []
        end
    | Rejected error => [runtime_error_value c error (resource_from_kind kind)]
    end) as Hrest.
  { destruct (rs_outcome response); [|by apply answered_error]. destruct kind; apply answered_events; try by repeat constructor.
    destruct (find_first _ _); by repeat constructor. }
  destruct (head _) as [[]|]; [..|done]; try done; destruct kind; try done; apply answered_events; by repeat constructor.
Qed.

(** Reads a request's arm step by step: what it creates is the client's own, what it answers fits. *)
Ltac confine :=
  repeat match goal with |- Forall _ (match ?r with _ => _ end) => destruct r; [|apply Forall_nil_2] end;
  first [ apply Forall_nil_2
        | apply own_op; simpl; [exact I|by left; congruence|first [apply Forall_nil_2|apply Forall_singleton, fresh_mine; tauto]] ].
Ltac events := apply answered_events; repeat first [apply Forall_nil_2|apply Forall_cons_2]; (split; [exact I|reflexivity]).
Ltac answer :=
  repeat case_match; simpl in *;
  first [ by apply answered_reply | by apply answered_error | apply answered_nil | events
        | apply answered_rejection; reflexivity
        | apply answered_cast; reflexivity
        | apply answered_checked; [reflexivity|answer] ].
Ltac input := match goal with
  | |- serves _ _ _ (d_grab (λ i, grab_pointer i _ ?g)) _ => apply (serves_grab _ _ _ _ (IGrabPointer ns g)); done
  | |- serves _ _ _ (d_grab (λ i, grab_keyboard i _ ?g)) _ => apply (serves_grab _ _ _ _ (IGrabKeyboard ns g)); done
  | |- serves _ _ _ (d_grab (λ i, grab_button i _ ?g)) _ => apply (serves_grab _ _ _ _ (IGrabButton ns g)); done
  | |- serves _ _ _ (d_grab (λ i, grab_key i _ ?g)) _ => apply (serves_grab _ _ _ _ (IGrabKey ns g)); done
  | |- serves _ _ _ (d_grab (λ i, grab_server i _ ?o)) _ => apply (serves_grab _ _ _ _ (IGrabServer ns o)); done
  | |- serves _ _ _ (d_grab (λ i, allow_events i _ ?o ?m)) _ => apply (serves_grab _ _ _ _ (IAllowEvents ns o m)); done
  | |- serves _ _ _ (d_input (λ i, ungrab_pointer i _ ?o)) _ => apply (serves_input _ _ _ _ (IUngrabPointer ns o)); done
  | |- serves _ _ _ (d_input (λ i, ungrab_keyboard i _ ?o)) _ => apply (serves_input _ _ _ _ (IUngrabKeyboard ns o)); done
  | |- serves _ _ _ (d_input (λ i, ungrab_server i _ ?o)) _ => apply (serves_input _ _ _ _ (IUngrabServer ns o)); done
  | |- serves _ _ _ (d_input (λ i, ungrab_button i _ ?o ?w ?d ?m)) _ =>
      apply (serves_input _ _ _ _ (IUngrabButton ns o w d m)); done
  | |- serves _ _ _ (d_input (λ i, ungrab_key i _ ?o ?w ?d ?m)) _ => apply (serves_input _ _ _ _ (IUngrabKey ns o w d m)); done
  | |- serves _ _ _ (d_input (λ i, select_xi_events i _ ?o ?w ?l)) _ => apply (serves_input _ _ _ _ (ISelectXi ns o w l)); done
  end.
Ltac serve :=
  lazymatch goal with
  | |- served _ (mret _) => apply served_ret; simpl; try answer
  | |- served _ (d_get ≫= _) => apply served_get; intros ? ?; cbv beta zeta; serve
  | |- served _ (d_expect _ ≫= _) => apply served_expect; [|intros ? ?; cbv beta zeta; serve]
  | |- served _ (d_run _ ≫= _) => eapply served_run; [apply _|try confine|intros ?; cbv beta zeta; serve]
  | |- served _ (d_draw _ ≫= _) => eapply served_draw; [apply _|try confine|intros ?; cbv beta zeta; serve]
  | |- served _ (_ ≫= _) => eapply served_step; [first [input|apply serves_intern|apply serves_change|apply serves_remove|apply serves_remove_window|idtac]|intros ?; cbv beta zeta; serve]
  | |- served _ (match ?x with _ => _ end) => destruct x eqn:?; simpl in *; serve
  | |- _ => idtac
  end.

(** What the arms compute with, besides. *)
Lemma root_size_total s : server_ok s → is_Some (root_size s).
Proof. intros Hs. destruct (ok_topology _ (so_runtime _ Hs)) as [size Ht]. unfold root_size. by rewrite Ht. Qed.
Lemma root_size_ok s size :
  root_size s = Some size → is_Some (u16_exactly (sz_width size)) ∧ is_Some (u16_exactly (sz_height size)).
Proof.
  unfold root_size. destruct (topology_validate _) eqn:Ht; [|done]. intros [= <-]. by eapply root_size_fits.
Qed.
Lemma randr_total s : server_ok s → is_Some (randr_resources (topology_of s)).
Proof.
  intros Hs. destruct (ok_topology _ (so_runtime _ Hs)) as [size Ht]. destruct (randr_resources_fit _ _ Ht) as (r & Hr & _).
  by exists r.
Qed.
Lemma randr_at s r i :
  server_ok s → randr_resources (topology_of s) = Some r → (i < length (ots_outputs (topology_of s)))%nat →
  is_Some (ots_outputs (topology_of s) !! i) ∧ is_Some (rr_modes r !! i) ∧ is_Some (rr_crtcs r !! i) ∧
  is_Some (rr_outputs r !! i).
Proof.
  intros Hs Hr Hi. destruct (ok_topology _ (so_runtime _ Hs)) as [size Ht].
  destruct (randr_resources_fit _ _ Ht) as (r' & Hr' & Hc & Ho & Hm). unfold topology_of in *. simplify_eq.
  rewrite Hc, Ho, !lookup_lt_is_Some, !length_fmap, Hm. done.
Qed.
Lemma position_lt l id i : position l id = Some i → (i < length l)%nat.
Proof.
  unfold position. intros ([j x] & Hj & ->)%fmap_Some. apply list_find_Some in Hj as (Hl & _).
  by eapply lookup_lt_Some.
Qed.
Lemma randr_position s r id i :
  server_ok s → randr_resources (topology_of s) = Some r →
  position (rr_outputs r) id = Some i ∨ position (rr_crtcs r) id = Some i →
  (i < length (ots_outputs (topology_of s)))%nat.
Proof.
  intros Hs Hr Hp. destruct (ok_topology _ (so_runtime _ Hs)) as [size Ht].
  destruct (randr_resources_fit _ _ Ht) as (r' & Hr' & Hc & Ho & Hm). unfold topology_of in *. simplify_eq.
  rewrite Ho, Hc in Hp. destruct Hp as [Hp%position_lt|Hp%position_lt]; by rewrite length_fmap in Hp.
Qed.
Lemma entry_fits s i e :
  server_ok s → ots_outputs (topology_of s) !! i = Some e →
  is_Some (u16_exactly (rwidth (ote_logical e))) ∧ is_Some (u16_exactly (rheight (ote_logical e))).
Proof.
  intros Hs He. destruct (ok_topology _ (so_runtime _ Hs)) as [size Ht]. eapply output_fits; [done|].
  by eapply list_elem_of_lookup_2.
Qed.
Lemma primary_total s :
  server_ok s →
  ∃ i, fst <$> list_find (λ e, ote_output e = ots_primary (topology_of s)) (ots_outputs (topology_of s)) = Some i ∧
    (i < length (ots_outputs (topology_of s)))%nat.
Proof.
  intros Hs. destruct (ok_topology _ (so_runtime _ Hs)) as [size Ht].
  apply topology_validate_spec in Ht as (_ & _ & _ & _ & (e & He & Hin)%list_elem_of_fmap & _).
  destruct (list_find_elem_of (λ e, ote_output e = ots_primary (topology_of s)) (ots_outputs (topology_of s)) e)
    as [[i x] Hf]; [done..|].
  exists i. rewrite Hf. split; [done|]. apply list_find_Some in Hf as (Hl & _). by eapply lookup_lt_Some.
Qed.
Lemma serves_intern_all names : serves ns (dc_client_id c) mine (intern_all names) (λ _, True).
Proof.
  unfold intern_all. eapply serves_bind; [apply serves_mapM; intros; apply serves_intern|]. intros a _. by apply serves_ret.
Qed.
Lemma serves_monitors t : serves ns (dc_client_id c) mine (randr_monitors t) (λ _, True).
Proof.
  apply serves_mapM. intros e. eapply serves_bind; [apply serves_intern|]. intros a _. by apply serves_ret.
Qed.
Lemma serves_checked check m ops :
  RunsAs m ops → Forall (op_confined ns mine) ops →
  serves ns (dc_client_id c) mine (d_checked (A := unit) check m) (λ _, True).
Proof.
  intros Hm Hops. unfold d_checked. eapply serves_bind; [by apply (serves_get _ _ _ (λ _, True))|]. intros s _.
  destruct (check s); [by eapply serves_run|by apply serves_ret].
Qed.
Lemma serves_xi_ungrab device :
  serves ns (dc_client_id c) mine
    (d_input (λ i, if decide (device = 2) then ungrab_pointer i ns (dc_client_id c)
                   else if decide (device = 3) then ungrab_keyboard i ns (dc_client_id c) else i)) (λ _, True).
Proof.
  destruct (decide (device = 2)); [|destruct (decide (device = 3))].
  - by apply (serves_input _ _ _ _ (IUngrabPointer ns (dc_client_id c))).
  - by apply (serves_input _ _ _ _ (IUngrabKeyboard ns (dc_client_id c))).
  - apply (serves_same _ _ _ _ _ (λ _, ())); [|done]. by intros [].
Qed.
Lemma sendable_sequence e o e' : sendable_event c e = Some (o, e') → event_sequence e' = dc_sequence c.
Proof. destruct e; try done; by intros [= <- <-]. Qed.
Lemma mapped_answered surfaces : answered false (dc_sequence c) (surfaces ≫= mapped_events c).
Proof. apply answered_events, Forall_bind, Forall_true. intros surface. by repeat constructor. Qed.

Lemma served_authority packet :
  request_ok wc (ReqAuthority packet) → served false (dispatch_authority c packet).
Proof.
  intros (_ & (_ & Hn & _) & Hk). unfold dispatch_authority. apply served_get. intros s Hs. cbv zeta.
  eapply served_draw; [apply _| |].
  - apply own_op; simpl; [|left; congruence|]; by destruct (rq_kind packet).
  - intros response. apply served_step; [|intros; apply served_ret, outputs_answered].
    destruct (name_target _ _); try by apply serves_ret. by eapply serves_draw; [apply _|repeat constructor; right].
Qed.
Lemma served_create_window packet parent depth visual colormap background border events :
  request_ok wc (ReqCreateWindow packet parent depth visual colormap background border events) →
  served false (dispatch_create_window c packet depth visual colormap background).
Proof.
  intros (_ & (_ & Hn & Hk) & _). unfold dispatch_create_window. cbv zeta.
  eapply served_draw; [apply _| |].
  - apply own_op; simpl; [|left; congruence|]; destruct (rq_kind packet) as [w sf g cs gen| | | |]; try done; simpl in *.
    + by destruct Hk as (Hf & -> & _).
    + apply Forall_singleton, fresh_mine, Hk.
  - intros response. apply served_step; [|intros; apply served_ret, outputs_answered].
    destruct (rs_outcome response); [|by apply serves_ret]. destruct (rq_kind packet); try by apply serves_ret.
    eapply serves_bind; [eapply serves_run; [apply _|]|].
    + apply own_op; simpl; [done|left; congruence|done].
    + intros a _. eapply serves_draw; [apply _|]. apply own_op; simpl; [done|by right|done].
Qed.

(** The lookups of an arm that cannot miss. *)
Ltac found := match goal with
  | |- is_Some (root_size _) => by apply root_size_total
  | |- is_Some (randr_resources _) => by apply randr_total
  | |- is_Some (read_property _ _ _) => by apply read_property_no_panic, so_properties
  | H : root_size _ = Some ?a |- is_Some (u16_exactly _) => apply (root_size_ok _ _ H)
  | He : ots_outputs _ !! _ = Some ?e |- is_Some (u16_exactly _) => by eapply entry_fits
  | Hr : randr_resources (topology_of ?s) = Some ?r, Hp : position (_ ?r) ?id = Some ?i |- is_Some (_ !! ?i) =>
      destruct (randr_at s r i) as (? & ? & ? & ?); [done|done| |done]; eapply (randr_position s r id); [done|done|tauto]
  end.
Lemma dispatch_served request : request_ok wc request → served (expects_reply request) (dispatch_request c copy_bytes request).
Proof.
  intros [Hw Hok]. destruct request; simpl in Hok; cbn [dispatch_request expects_reply];
    try (by apply (served_create_window packet parent _ _ _ _ event_mask do_not_propagate_mask)); try (by apply served_authority); clear Hw; autounfold with arms_db; serve; try found;
    try apply serves_monitors; try apply serves_intern_all; try apply serves_xi_ungrab;
    try (eapply serves_checked; [apply _|confine]).
  - destruct a0; [apply mapped_answered|by apply answered_error].
  - destruct event; by try destruct (proj2 Hok).
  - destruct (res_bind _ _); [case_decide|]; try by apply answered_error. apply answered_events.
    repeat constructor. by eapply sendable_sequence.
  - destruct (primary_total s) as (i & Hi & _); [done|]. by exists i.
  - destruct (primary_total s) as (i & Hi & Hlt); [done|]. simplify_eq. by eapply randr_at.
Qed.
End arms.
