(* ===== verification/XSetup.v ===== *)
(** * The connection setup of X11 clients
    ([sophia-x-authority/src/setup.rs], setup authorization of [x11_socket.rs])

    The bytes of the setup request and of its two answers, and who may connect.  [None] is a panic:
    a slice out of range. *)

From S2P Require Import Prelude Ids Geometry Packets PortalPackets Text.
From S2P Require Import XState XResources XProtocol XWire XDecode XDispatch.
From stdpp Require Import strings pretty.
Local Open Scope Z_scope.

Definition X_SETUP_CLIENT_PREFIX_LEN : Z := 12.
Definition X_SETUP_REPLY_PREFIX_LEN : Z := 8.
Definition X_SETUP_SUCCESS_BODY_LEN : Z := 32.
Definition X_SETUP_MAX_AUTH_FIELD_LEN : Z := 1024.
Definition X_SETUP_DEFAULT_RESOURCE_ID_BASE : Z := 0x00200000.
Definition X_SETUP_DEFAULT_RESOURCE_ID_MASK : Z := 0x001fffff.
Definition X_PROTOCOL_MAJOR : Z := 11.
Definition X_PROTOCOL_MINOR : Z := 0.
Definition X_SETUP_ROOT_LEN : Z := 40.
Definition X_SETUP_DEPTH_LEN : Z := 8.
Definition X_SETUP_VISUAL_LEN : Z := 24.
Definition X_SETUP_PIXMAP_FORMAT_LEN : Z := 8.

Record XSetupRequest : Type := mk_setup_request {
  sr_byte_order : XByteOrder; sr_major_version : Z; sr_minor_version : Z;
  sr_authorization_protocol_name : list Z; sr_authorization_data : list Z;
}.
Record XSetupSuccess : Type := mk_setup_success {
  ss_major_version : Z; ss_minor_version : Z; ss_release : Z; ss_resource_id_base : Z; ss_resource_id_mask : Z;
  ss_max_request_units : Z; ss_vendor : list Z; ss_roots : Z; ss_formats : Z; ss_root_size : Geometry.Size;
}.
Definition setup_minimal : XSetupSuccess :=
  mk_setup_success X_PROTOCOL_MAJOR X_PROTOCOL_MINOR 1 X_SETUP_DEFAULT_RESOURCE_ID_BASE X_SETUP_DEFAULT_RESOURCE_ID_MASK
    X_SETUP_DEFAULT_MAX_REQUEST_UNITS (str "Sophia") 0 0 (mk_size 1280 720).
Definition setup_client_compatible : XSetupSuccess :=
  let m := setup_minimal in
  mk_setup_success (ss_major_version m) (ss_minor_version m) (ss_release m) (ss_resource_id_base m)
    (ss_resource_id_mask m) (ss_max_request_units m) (ss_vendor m) 1 2 (ss_root_size m).
Record XSetupFailure : Type := mk_setup_failure { sf_major_version : Z; sf_minor_version : Z; sf_reason : list Z }.
Definition setup_failure_new (reason : list Z) : XSetupFailure := mk_setup_failure X_PROTOCOL_MAJOR X_PROTOCOL_MINOR reason.

Inductive XSetupParseError : Type :=
| SpTruncated (needed actual : Z) | SpInvalidByteOrder (marker : Z) | SpUnsupportedMajorVersion (version : Z)
| SpAuthFieldTooLarge (field : string) (len max : Z) | SpTrailingBytes (n : Z)
| SpReplyFieldTooLarge (field : string) (len max : Z).

(** ** Reading and writing in the byte order of the client *)

Definition byte_order_marker (order : XByteOrder) : Z := match order with LittleEndian => 108 | BigEndian => 66 end.
Definition byte_order_parse (marker : Z) : result XByteOrder XSetupParseError :=
  if decide (marker = 108) then Ok LittleEndian else if decide (marker = 66) then Ok BigEndian
  else Err (SpInvalidByteOrder marker).
Definition byte_order_code (order : XByteOrder) : Z := match order with LittleEndian => 0 | BigEndian => 1 end.
Definition in_order (order : XByteOrder) (l : list Z) : list Z := match order with LittleEndian => l | BigEndian => reverse l end.
Definition push_u16 (order : XByteOrder) (value : Z) : list Z := in_order order (to_le_bytes 2 value).
Definition push_u32 (order : XByteOrder) (value : Z) : list Z := in_order order (to_le_bytes 4 value).
Definition zeros (n : Z) : list Z := replicate (Z.to_nat n) 0.
(** [out.resize(padded_len(out.len()), 0)] *)
Definition pad_to_four (out : list Z) : list Z := out ++ zeros (padded_len (str_len out) - str_len out).

(** A parser, which may panic. *)
Definition SP (A : Type) : Type := option (result A XSetupParseError).
#[export] Instance s_ret : MRet SP := λ A a, Some (Ok a).
#[export] Instance s_bind : MBind SP := λ A B k m,
  match m with Some (Ok a) => k a | Some (Err e) => Some (Err e) | None => None end.
Definition s_guard (P : Prop) `{Decision P} (e : XSetupParseError) : SP unit := if decide P then Some (Ok ()) else Some (Err e).
Definition s_slice (bytes : list Z) (from to : Z) : SP (list Z) :=
  if decide (0 ≤ from ≤ to ∧ to ≤ str_len bytes)
  then Some (Ok (take (Z.to_nat (to - from)) (drop (Z.to_nat from) bytes))) else None.
Definition s_u16 (order : XByteOrder) (bytes : list Z) (i : Z) : SP Z :=
  l ← s_slice bytes i (i + 2); mret (ordered order l).
Definition s_byte_order (bytes : list Z) : SP XByteOrder :=
  l ← s_slice bytes 0 1; Some (byte_order_parse (default 0 (head l))).

Definition validate_auth_len (field : string) (len : Z) : SP unit :=
  s_guard (len ≤ X_SETUP_MAX_AUTH_FIELD_LEN) (SpAuthFieldTooLarge field len X_SETUP_MAX_AUTH_FIELD_LEN).
Definition auth_total (name_len data_len : Z) : SP Z :=
  match total ← checked_add usize_MAX X_SETUP_CLIENT_PREFIX_LEN (padded_len name_len);
        checked_add usize_MAX total (padded_len data_len) with
  | Some total => Some (Ok total)
  | None => Some (Err (SpAuthFieldTooLarge "authorization_total" usize_MAX (X_SETUP_MAX_AUTH_FIELD_LEN * 2)))
  end.
Definition parse_x11_setup_request (bytes : list Z) : SP XSetupRequest :=
  _ ← s_guard (X_SETUP_CLIENT_PREFIX_LEN ≤ str_len bytes) (SpTruncated X_SETUP_CLIENT_PREFIX_LEN (str_len bytes));
  order ← s_byte_order bytes;
  major ← s_u16 order bytes 2; minor ← s_u16 order bytes 4;
  _ ← s_guard (major = X_PROTOCOL_MAJOR) (SpUnsupportedMajorVersion major);
  name_len ← s_u16 order bytes 6; data_len ← s_u16 order bytes 8;
  _ ← validate_auth_len "authorization_protocol_name" name_len;
  _ ← validate_auth_len "authorization_data" data_len;
  needed ← auth_total name_len data_len;
  _ ← s_guard (needed ≤ str_len bytes) (SpTruncated needed (str_len bytes));
  _ ← s_guard (str_len bytes ≤ needed) (SpTrailingBytes (str_len bytes - needed));
  let name_start := X_SETUP_CLIENT_PREFIX_LEN in
  let data_start := name_start + padded_len name_len in
  name ← s_slice bytes name_start (name_start + name_len);
  data ← s_slice bytes data_start (data_start + data_len);
  mret (mk_setup_request order major minor name data).
Definition x11_setup_request_total_len (prefix : list Z) : SP Z :=
  _ ← s_guard (X_SETUP_CLIENT_PREFIX_LEN ≤ str_len prefix) (SpTruncated X_SETUP_CLIENT_PREFIX_LEN (str_len prefix));
  order ← s_byte_order prefix;
  name_len ← s_u16 order prefix 6; data_len ← s_u16 order prefix 8;
  _ ← validate_auth_len "authorization_protocol_name" name_len;
  _ ← validate_auth_len "authorization_data" data_len;
  auth_total name_len data_len.

(** ** Answers *)

Definition encode_pixmap_format (depth : Z) : list Z := [depth; 32; 32] ++ zeros 5.
Definition setup_millimeters (pixels : Z) : Z :=
  let millimeters := Z.quot (Z.min (pixels * 254 + 480) (2 ^ 63 - 1)) 960 in
  Z.max (if decide (0 ≤ millimeters ≤ u16_MAX) then millimeters else u16_MAX) 1.
Definition encode_depth (order : XByteOrder) (depth visual : Z) : list Z :=
  [depth; 0] ++ push_u16 order 1 ++ push_u32 order 0 ++
  push_u32 order visual ++ [4; 8] ++ push_u16 order 256 ++ push_u32 order 0xff0000 ++ push_u32 order 0xff00 ++
  push_u32 order 0xff ++ push_u32 order 0.
Definition encode_root (order : XByteOrder) (root_size : Geometry.Size) : list Z :=
  push_u32 order X_SETUP_DEFAULT_ROOT ++ push_u32 order X_SETUP_DEFAULT_COLORMAP ++ push_u32 order 0xffffff ++
  push_u32 order 0 ++ push_u32 order 0 ++
  push_u16 order (as_unsigned 16 (sz_width root_size)) ++ push_u16 order (as_unsigned 16 (sz_height root_size)) ++
  push_u16 order (setup_millimeters (sz_width root_size)) ++ push_u16 order (setup_millimeters (sz_height root_size)) ++
  push_u16 order 1 ++ push_u16 order 1 ++ push_u32 order X_SETUP_DEFAULT_VISUAL ++ [0; 0; 24; 2] ++
  encode_depth order 24 X_SETUP_DEFAULT_VISUAL ++ encode_depth order 32 X_SETUP_ARGB_VISUAL.

(** The answer up to the vendor, whose body is [units] words long. *)
Definition setup_success_head (order : XByteOrder) (setup : XSetupSuccess) (units : Z) : list Z :=
  [1; 0] ++ push_u16 order (ss_major_version setup) ++ push_u16 order (ss_minor_version setup) ++ push_u16 order units ++
  push_u32 order (ss_release setup) ++ push_u32 order (ss_resource_id_base setup) ++
  push_u32 order (ss_resource_id_mask setup) ++ push_u32 order 0 ++
  push_u16 order (as_unsigned 16 (str_len (ss_vendor setup))) ++ push_u16 order (ss_max_request_units setup) ++
  [ss_roots setup; ss_formats setup; byte_order_code order; byte_order_code order; 32; 32; 8; 255] ++
  push_u32 order 0 ++ ss_vendor setup.
Definition encode_x11_setup_success (order : XByteOrder) (setup : XSetupSuccess) : result (list Z) XSetupParseError :=
  let size := ss_root_size setup in
  ensure! (0 < sz_width size ∧ 0 < sz_height size ∧ sz_width size ≤ u16_MAX ∧ sz_height size ≤ u16_MAX)
    else SpReplyFieldTooLarge "root_size" usize_MAX u16_MAX in
  ensure! (str_len (ss_vendor setup) ≤ u16_MAX) else SpReplyFieldTooLarge "vendor" (str_len (ss_vendor setup)) u16_MAX in
  let? root_section_len :=
    ok_or (checked_mul usize_MAX (ss_roots setup) (X_SETUP_ROOT_LEN + 2 * (X_SETUP_DEPTH_LEN + X_SETUP_VISUAL_LEN)))
      (SpReplyFieldTooLarge "setup_roots" usize_MAX (u16_MAX * 4)) in
  let? format_section_len :=
    ok_or (checked_mul usize_MAX (ss_formats setup) X_SETUP_PIXMAP_FORMAT_LEN)
      (SpReplyFieldTooLarge "setup_formats" usize_MAX (u16_MAX * 4)) in
  let body_len := X_SETUP_SUCCESS_BODY_LEN + padded_len (str_len (ss_vendor setup)) + format_section_len + root_section_len in
  ensure! (body_len / 4 ≤ u16_MAX) else SpReplyFieldTooLarge "setup_success_body" body_len (u16_MAX * 4) in
  Ok (pad_to_four (setup_success_head order setup (body_len / 4)) ++
      (seqZ 0 (ss_formats setup) ≫= λ index, encode_pixmap_format (if decide (index = 0) then 24 else 32)) ++
      (seqZ 0 (ss_roots setup) ≫= λ _, encode_root order size)).
Definition encode_x11_setup_failure (order : XByteOrder) (failure : XSetupFailure) : result (list Z) XSetupParseError :=
  let len := str_len (sf_reason failure) in
  ensure! (len ≤ u8_MAX) else SpReplyFieldTooLarge "failure_reason" len u8_MAX in
  ensure! (padded_len len / 4 ≤ u16_MAX) else SpReplyFieldTooLarge "failure_reason" len (u16_MAX * 4) in
  Ok (pad_to_four
        ([0; as_unsigned 8 len] ++ push_u16 order (sf_major_version failure) ++ push_u16 order (sf_minor_version failure) ++
         push_u16 order (padded_len len / 4) ++ sf_reason failure)).

(** ** Who may connect *)

Inductive XServerFrontendSetupAuthorization : Type := UnauthenticatedLocal | SetupMagicCookie (cookie : list Z).
Definition x11_authorization_data_eq (actual expected : list Z) : bool :=
  bool_decide (length actual = length expected) &&
  bool_decide (foldl (λ difference p, Z.lor difference (Z.lxor p.1 p.2)) 0 (zip actual expected) = 0).
Definition permits (authorization : XServerFrontendSetupAuthorization) (request : XSetupRequest) : bool :=
  match authorization with
  | UnauthenticatedLocal => true
  | SetupMagicCookie expected =>
      bool_decide (sr_authorization_protocol_name request = str "MIT-MAGIC-COOKIE-1") &&
      x11_authorization_data_eq (sr_authorization_data request) expected
  end.

(** ** The reader of the socket *)

(** What reading the setup of a client from its stream gives: the request and what follows it. *)
Definition read_x11_setup_request (stream : list Z) : option (result (XSetupRequest * list Z) (option XSetupParseError)) :=
  if decide (str_len stream < X_SETUP_CLIENT_PREFIX_LEN) then Some (Err None)
  else
    match x11_setup_request_total_len (take (Z.to_nat X_SETUP_CLIENT_PREFIX_LEN) stream) with
    | None => None
    | Some (Err e) => Some (Err (Some e))
    | Some (Ok total) =>
        if decide (str_len stream < total) then Some (Err None)
        else
          match parse_x11_setup_request (take (Z.to_nat total) stream) with
          | None => None
          | Some (Err e) => Some (Err (Some e))
          | Some (Ok request) => Some (Ok (request, drop (Z.to_nat total) stream))
          end
    end.

(** ** What the exchange guarantees *)

(** The bytes a client sends, with [u1] and [u2] unused. *)
Definition setup_request_bytes (u1 : Z) (u2 : list Z) (r : XSetupRequest) : list Z :=
  let order := sr_byte_order r in
  [byte_order_marker order; u1] ++ push_u16 order (sr_major_version r) ++ push_u16 order (sr_minor_version r) ++
  push_u16 order (str_len (sr_authorization_protocol_name r)) ++ push_u16 order (str_len (sr_authorization_data r)) ++ u2 ++
  pad_to_four (sr_authorization_protocol_name r) ++ pad_to_four (sr_authorization_data r).
Definition setup_request_ok (r : XSetupRequest) : Prop :=
  sr_major_version r = X_PROTOCOL_MAJOR ∧ u16_ok (sr_minor_version r) ∧
  str_len (sr_authorization_protocol_name r) ≤ X_SETUP_MAX_AUTH_FIELD_LEN ∧
  str_len (sr_authorization_data r) ≤ X_SETUP_MAX_AUTH_FIELD_LEN.

Lemma ordered_in_order order l : ordered order (in_order order l) = from_le_bytes l.
Proof. unfold ordered, in_order. destruct order; [done|]. by rewrite reverse_involutive. Qed.
Lemma length_in_order order l : length (in_order order l) = length l.
Proof. destruct order; [done|]. apply length_reverse. Qed.
Lemma length_push_u16 order z : length (push_u16 order z) = 2%nat.
Proof. unfold push_u16. by rewrite length_in_order, length_to_le_bytes. Qed.
Lemma length_push_u32 order z : length (push_u32 order z) = 4%nat.
Proof. unfold push_u32. by rewrite length_in_order, length_to_le_bytes. Qed.
Lemma length_pad_to_four l : str_len (pad_to_four l) = padded_len (str_len l).
Proof. unfold pad_to_four, zeros, str_len. rewrite length_app, length_replicate. pose proof (padded_len_le (Z.of_nat (length l))). lia. Qed.

Lemma s_slice_in bytes (pre mid post : list Z) from to :
  bytes = pre ++ mid ++ post → str_len pre = from → from + str_len mid = to → s_slice bytes from to = Some (Ok mid).
Proof.
  unfold s_slice, str_len. intros -> <- <-. rewrite !length_app, decide_True by lia.
  replace (Z.to_nat _) with (length mid) by lia. rewrite Nat2Z.id, drop_app_length. by rewrite take_app_length.
Qed.
Lemma s_u16_in bytes pre order z post i :
  bytes = pre ++ push_u16 order z ++ post → str_len pre = i → u16_ok z → s_u16 order bytes i = Some (Ok z).
Proof.
  intros -> Hi Hz. unfold s_u16.
  rewrite (s_slice_in _ pre (push_u16 order z) post); [|done|done|unfold str_len; rewrite length_push_u16; lia].
  change (Some (Ok (E := XSetupParseError) (ordered order (push_u16 order z))) = Some (Ok z)). do 2 f_equal.
  unfold push_u16. rewrite ordered_in_order. apply from_to_le_bytes. word_lia.
Qed.
Lemma s_byte_order_in bytes order rest : bytes = byte_order_marker order :: rest → s_byte_order bytes = Some (Ok order).
Proof.
  intros ->. unfold s_byte_order. rewrite (s_slice_in _ [] [byte_order_marker order] rest); [|done..]. by destruct order.
Qed.
Lemma validate_auth_len_ok field len : len ≤ X_SETUP_MAX_AUTH_FIELD_LEN → validate_auth_len field len = Some (Ok ()).
Proof. intros H. unfold validate_auth_len, s_guard. by rewrite decide_True. Qed.
Lemma auth_total_ok n d :
  0 ≤ n ≤ X_SETUP_MAX_AUTH_FIELD_LEN → 0 ≤ d ≤ X_SETUP_MAX_AUTH_FIELD_LEN →
  auth_total n d = Some (Ok (12 + padded_len n + padded_len d)).
Proof.
  unfold X_SETUP_MAX_AUTH_FIELD_LEN. intros Hn Hd. pose proof (padded_len_le n). pose proof (padded_len_le d).
  assert (padded_len n ≤ n + 3 ∧ padded_len d ≤ d + 3) as [? ?].
  { rewrite !padded_len_eq. pose proof (Z.mul_div_le (n + 3) 4). pose proof (Z.mul_div_le (d + 3) 4). lia. }
  unfold auth_total, checked_add, X_SETUP_CLIENT_PREFIX_LEN. rewrite decide_True by word_lia. simpl.
  rewrite decide_True by word_lia. done.
Qed.

(** The parts of a setup request. *)
Section setup_request.
  Context (u1 : Z) (u2 : list Z) (r : XSetupRequest).
  Hypothesis (unused : length u2 = 2%nat) (ok : setup_request_ok r).
  Notation order := (sr_byte_order r).
  Notation name := (sr_authorization_protocol_name r).
  Notation data := (sr_authorization_data r).
  Notation bytes := (setup_request_bytes u1 u2 r).
  Notation total := (12 + padded_len (str_len name) + padded_len (str_len data)).

Lemma setup_lengths : u16_ok (str_len name) ∧ u16_ok (str_len data).
Proof. destruct ok as (_ & _ & Hn & Hd). unfold X_SETUP_MAX_AUTH_FIELD_LEN, str_len in *. split; word_lia. Qed.
Lemma setup_bytes_len : str_len bytes = total.
Proof.
  pose proof (length_pad_to_four name) as Hn. pose proof (length_pad_to_four data) as Hd.
  unfold setup_request_bytes, str_len in *. rewrite !length_app, !length_push_u16, unused. simpl. lia.
Qed.
(** The fixed part, and the fields read from it. *)
Definition setup_prefix : list Z :=
  [byte_order_marker order; u1] ++ push_u16 order (sr_major_version r) ++ push_u16 order (sr_minor_version r) ++
  push_u16 order (str_len name) ++ push_u16 order (str_len data) ++ u2.
Lemma setup_bytes_split : bytes = setup_prefix ++ pad_to_four name ++ pad_to_four data.
Proof. unfold setup_request_bytes, setup_prefix. by rewrite <-!(assoc_L (++)). Qed.
Lemma setup_prefix_len : length setup_prefix = 12%nat.
Proof. unfold setup_prefix. by rewrite !length_app, !length_push_u16, unused. Qed.
Ltac field pre := eapply (s_u16_in _ pre);
  [ by rewrite <-!(assoc_L (++)) | unfold str_len; repeat match goal with x := _ |- _ => subst x end; by rewrite ?length_app, ?length_push_u16 | done ].
Lemma setup_fields bytes' rest :
  bytes' = setup_prefix ++ rest →
  s_byte_order bytes' = Some (Ok order) ∧ s_u16 order bytes' 2 = Some (Ok (sr_major_version r)) ∧
  s_u16 order bytes' 4 = Some (Ok (sr_minor_version r)) ∧ s_u16 order bytes' 6 = Some (Ok (str_len name)) ∧
  s_u16 order bytes' 8 = Some (Ok (str_len data)).
Proof.
  destruct setup_lengths as [Hn Hd]. destruct ok as (Hmajor & Hminor & _). unfold setup_prefix.
  assert (u16_ok (sr_major_version r)) by (rewrite Hmajor; unfold X_PROTOCOL_MAJOR; word_lia).
  set (h := [byte_order_marker order; u1]). set (m := push_u16 order (sr_major_version r)).
  set (n := push_u16 order (sr_minor_version r)). set (k := push_u16 order (str_len name)).
  intros ->. split_and!.
  - by eapply s_byte_order_in.
  - field h.
  - field (h ++ m).
  - field (h ++ m ++ n).
  - field (h ++ m ++ n ++ k).
Qed.
Lemma setup_reader_total : x11_setup_request_total_len setup_prefix = Some (Ok total).
Proof.
  destruct (setup_fields setup_prefix []) as (Ho & _ & _ & Hn & Hd); [by rewrite (right_id_L [] (++))|].
  destruct ok as (_ & _ & Ln & Ld). unfold x11_setup_request_total_len, s_guard.
  rewrite decide_True by (unfold str_len, X_SETUP_CLIENT_PREFIX_LEN; rewrite setup_prefix_len; lia). simpl.
  rewrite Ho. simpl. rewrite Hn. simpl. rewrite Hd. simpl. rewrite !validate_auth_len_ok by done. simpl.
  apply auth_total_ok; unfold str_len in *; lia.
Qed.
Lemma setup_parsed : parse_x11_setup_request bytes = Some (Ok r).
Proof.
  destruct (setup_fields bytes (pad_to_four name ++ pad_to_four data)) as (Ho & Hmaj & Hmin & Hn & Hd); [apply setup_bytes_split|].
  pose proof setup_bytes_len as Hlen. pose proof (length_pad_to_four name) as Hpn.
  destruct ok as (Em & _ & Ln & Ld). unfold parse_x11_setup_request, s_guard.
  assert (0 ≤ padded_len (str_len name) ∧ 0 ≤ padded_len (str_len data)) as [? ?].
  { pose proof (padded_len_le (str_len name)). pose proof (padded_len_le (str_len data)). unfold str_len in *. lia. }
  rewrite decide_True by (unfold X_SETUP_CLIENT_PREFIX_LEN; lia). simpl.
  rewrite Ho. simpl. rewrite Hmaj. simpl. rewrite Hmin. simpl. rewrite decide_True by done. simpl.
  rewrite Hn. simpl. rewrite Hd. simpl. rewrite !validate_auth_len_ok by done. simpl.
  rewrite auth_total_ok by (unfold str_len in *; lia). simpl. rewrite !decide_True by lia. simpl.
  rewrite (s_slice_in bytes setup_prefix name
    (zeros (padded_len (str_len name) - str_len name) ++ pad_to_four data) X_SETUP_CLIENT_PREFIX_LEN); [|by rewrite setup_bytes_split; unfold pad_to_four; rewrite <-!(assoc_L (++))
    |unfold str_len, X_SETUP_CLIENT_PREFIX_LEN in *; rewrite setup_prefix_len; lia|done]. simpl.
  rewrite (s_slice_in bytes (setup_prefix ++ pad_to_four name) data
    (zeros (padded_len (str_len data) - str_len data))); [|by rewrite setup_bytes_split; unfold pad_to_four; rewrite <-!(assoc_L (++))
    |unfold str_len, X_SETUP_CLIENT_PREFIX_LEN in *; rewrite length_app, setup_prefix_len; lia|done]. simpl.
  by destruct r.
Qed.
End setup_request.

(** C25: What a client says when it connects is what the server reads: the setup request of any byte order
    and any credentials within the limits is read back exactly, whatever the unused bytes are, and what
    follows it on the stream is left for the requests. *)
Theorem setup_exchange u1 u2 r stream :
  length u2 = 2%nat → setup_request_ok r →
  read_x11_setup_request (setup_request_bytes u1 u2 r ++ stream) = Some (Ok (r, stream)).
Proof.
  intros Hu Hr. pose proof (setup_bytes_len u1 u2 r Hu) as Hlen. pose proof (setup_prefix_len u1 u2 r Hu) as Hp.
  set (bytes := setup_request_bytes u1 u2 r) in *. set (prefix := setup_prefix u1 u2 r) in *.
  assert (take 12 (bytes ++ stream) = prefix) as Hpre.
  { unfold bytes. rewrite setup_bytes_split, <-!(assoc_L (++)), take_app_le by (fold prefix; lia). apply take_ge. fold prefix. lia. }
  unfold read_x11_setup_request, X_SETUP_CLIENT_PREFIX_LEN. rewrite decide_False.
  2:{ unfold str_len in *. rewrite length_app. pose proof (padded_len_le (Z.of_nat (length (sr_authorization_protocol_name r)))).
      pose proof (padded_len_le (Z.of_nat (length (sr_authorization_data r)))). lia. }
  change (Z.to_nat 12) with 12%nat. rewrite Hpre. unfold prefix. rewrite setup_reader_total by done.
  rewrite decide_False by (unfold str_len in *; rewrite length_app; lia).
  rewrite <-Hlen. unfold str_len. rewrite Nat2Z.id, take_app_length, drop_app_length. unfold bytes. by rewrite setup_parsed.
Qed.
(** A client of the other byte order with a cookie, and its first request. *)
Definition example_setup : XSetupRequest := mk_setup_request BigEndian 11 0 (str "MIT-MAGIC-COOKIE-1") [1; 2; 3; 4; 5].
Lemma setup_exchange_witness :
  read_x11_setup_request (setup_request_bytes 0 [7; 9] example_setup ++ [43; 0; 1; 0]) = Some (Ok (example_setup, [43; 0; 1; 0])).
Proof.
  apply (setup_exchange 0 [7; 9] example_setup [43; 0; 1; 0]); [reflexivity|].
  split_and!; [reflexivity|by vm_compute|by vm_compute|by vm_compute].
Defined.

Lemma s_slice_total bytes from to : 0 ≤ from ≤ to → to ≤ str_len bytes → ∃ l, s_slice bytes from to = Some (Ok l) ∧ str_len l = to - from.
Proof.
  intros H1 H2. unfold s_slice. rewrite decide_True by lia. eexists. split; [done|]. unfold str_len in *.
  rewrite length_take, length_drop. lia.
Qed.
Lemma ordered_bound order l : Forall u8_ok l → 0 ≤ ordered order l < 256 ^ str_len l.
Proof.
  intros Hl. unfold ordered, str_len. destruct order; [by apply from_le_bytes_bound|].
  rewrite <-(length_reverse l). apply from_le_bytes_bound. by apply Forall_reverse.
Qed.
Lemma s_u16_total order bytes i :
  Forall u8_ok bytes → 0 ≤ i → i + 2 ≤ str_len bytes → ∃ z, s_u16 order bytes i = Some (Ok z) ∧ u16_ok z.
Proof.
  intros Hb Hi Hl. unfold s_u16. destruct (s_slice_total bytes i (i + 2)) as (l & Hs & Hlen); [lia|done|].
  rewrite Hs. exists (ordered order l). split; [done|].
  assert (Forall u8_ok l) as H8.
  { unfold s_slice in Hs. case_decide; [|done]. injection Hs as <-. by apply Forall_take, Forall_drop. }
  apply (ordered_bound order) in H8. rewrite Hlen in H8. replace (i + 2 - i) with 2 in H8 by lia. word_lia.
Qed.
Lemma s_byte_order_total bytes : 1 ≤ str_len bytes → ∃ r, s_byte_order bytes = Some r.
Proof.
  intros Hl. unfold s_byte_order. destruct (s_slice_total bytes 0 1) as (l & Hs & _); [lia|done|]. rewrite Hs. by eexists.
Qed.

(** No panic, and what holds of a result. *)
Definition swp {A} (m : SP A) (Q : A → Prop) : Prop :=
  match m with Some (Ok a) => Q a | Some (Err _) => True | None => False end.
Lemma swp_bind {A B} (m : SP A) (k : A → SP B) Q : swp m (λ a, swp (k a) Q) → swp (m ≫= k) Q.
Proof. by destruct m as [[a|e]|]. Qed.
Lemma swp_guard P `{Decision P} e (Q : unit → Prop) : (P → Q ()) → swp (s_guard P e) Q.
Proof. unfold s_guard. by case_decide; simpl; auto. Qed.
Lemma swp_u16 order bytes i (Q : Z → Prop) :
  Forall u8_ok bytes → 0 ≤ i → i + 2 ≤ str_len bytes → (∀ z, s_u16 order bytes i = Some (Ok z) → u16_ok z → Q z) →
  swp (s_u16 order bytes i) Q.
Proof. intros Hb Hi Hl HQ. destruct (s_u16_total order bytes i Hb Hi Hl) as (z & Hz & Hok). rewrite Hz. by apply HQ. Qed.
Lemma swp_slice bytes from to (Q : list Z → Prop) :
  0 ≤ from ≤ to → to ≤ str_len bytes → (∀ l, str_len l = to - from → Q l) → swp (s_slice bytes from to) Q.
Proof. intros H1 H2 HQ. destruct (s_slice_total bytes from to H1 H2) as (l & -> & Hl). by apply HQ. Qed.
Lemma swp_byte_order bytes (Q : XByteOrder → Prop) :
  1 ≤ str_len bytes → (∀ order, s_byte_order bytes = Some (Ok order) → Q order) → swp (s_byte_order bytes) Q.
Proof.
  intros Hl HQ. destruct (s_byte_order_total bytes Hl) as ([order|e] & Hr); rewrite Hr; [by apply HQ|done].
Qed.
Lemma swp_auth_total n d (Q : Z → Prop) :
  0 ≤ n ≤ X_SETUP_MAX_AUTH_FIELD_LEN → 0 ≤ d ≤ X_SETUP_MAX_AUTH_FIELD_LEN → Q (12 + padded_len n + padded_len d) →
  swp (auth_total n d) Q.
Proof. intros. by rewrite auth_total_ok. Qed.

Ltac swp_step := match goal with
  | |- swp (_ ≫= _) _ => apply swp_bind
  | |- swp (s_guard _ _) _ => apply swp_guard; intros ?
  | |- swp (validate_auth_len _ _) _ => apply swp_guard; intros ?
  | |- swp (s_byte_order _) _ => apply swp_byte_order; [unfold X_SETUP_CLIENT_PREFIX_LEN in *; lia|intros ? ?]
  | |- swp (s_u16 _ _ _) _ => apply swp_u16; [done|unfold X_SETUP_CLIENT_PREFIX_LEN in *; lia..|intros ? ? [? ?]]
  | |- swp (auth_total _ _) _ => apply swp_auth_total; [lia|lia|]
  end.
Lemma setup_total_fits prefix :
  Forall u8_ok prefix → swp (x11_setup_request_total_len prefix) (λ total, 12 ≤ total ≤ 12 + 2 * 1024).
Proof.
  intros Hb. unfold x11_setup_request_total_len. repeat (swp_step; cbv beta). rewrite !padded_len_eq.
  unfold X_SETUP_MAX_AUTH_FIELD_LEN in *.
  pose proof (Z.mul_div_le (z + 3) 4). pose proof (Z.mul_div_le (z0 + 3) 4).
  pose proof (Z.div_le_mono (z + 3) 1027 4). pose proof (Z.div_le_mono (z0 + 3) 1027 4).
  pose proof (Z.div_pos (z + 3) 4). pose proof (Z.div_pos (z0 + 3) 4). change (1027 / 4) with 256 in *. lia.
Qed.
Lemma setup_parse_fits bytes :
  Forall u8_ok bytes →
  swp (parse_x11_setup_request bytes) (λ r, setup_request_ok r ∧
    str_len bytes = 12 + padded_len (str_len (sr_authorization_protocol_name r)) +
                    padded_len (str_len (sr_authorization_data r))).
Proof.
  intros Hb. unfold parse_x11_setup_request. repeat (swp_step; cbv beta).
  pose proof (padded_len_le z1). pose proof (padded_len_le z2). unfold X_SETUP_CLIENT_PREFIX_LEN in *. cbv zeta.
  apply swp_slice; [lia|lia|]. intros name Hname.
  apply swp_bind. apply swp_slice; [lia|lia|]. intros data Hdata.
  simpl. unfold setup_request_ok. simpl. replace (str_len name) with z1 by lia. replace (str_len data) with z2 by lia.
  by split_and!; try done; try lia.
Qed.
Lemma setup_read_total stream :
  Forall u8_ok stream →
  ∃ r, read_x11_setup_request stream = Some r ∧
    ∀ request rest, r = Ok (request, rest) → setup_request_ok request ∧ ∃ consumed, stream = consumed ++ rest ∧
      str_len consumed = 12 + padded_len (str_len (sr_authorization_protocol_name request)) +
                         padded_len (str_len (sr_authorization_data request)).
Proof.
  intros Hb. unfold read_x11_setup_request. case_decide; [by eexists|].
  pose proof (setup_total_fits (take (Z.to_nat X_SETUP_CLIENT_PREFIX_LEN) stream)) as Ht.
  destruct (x11_setup_request_total_len _) as [[total|e]|]; [|by eexists|by destruct Ht; apply Forall_take].
  specialize (Ht (Forall_take _ _ _ Hb)). simpl in Ht. case_decide as Hlen; [by eexists|].
  pose proof (setup_parse_fits (take (Z.to_nat total) stream) (Forall_take _ _ _ Hb)) as Hp.
  destruct (parse_x11_setup_request _) as [[request|e]|]; [|by eexists|done]. simpl in Hp.
  eexists. split; [done|]. intros request' rest [= <- <-]. split; [apply Hp|].
  exists (take (Z.to_nat total) stream). split; [by rewrite take_drop|]. apply Hp.
Qed.

(** [XSetupSuccess { resource_id_base, resource_id_mask, root_size, ..client_compatible() }] *)
Definition setup_of_range (base mask : Z) (root_size : Geometry.Size) : XSetupSuccess :=
  let m := setup_client_compatible in
  mk_setup_success (ss_major_version m) (ss_minor_version m) (ss_release m) base mask (ss_max_request_units m)
    (ss_vendor m) (ss_roots m) (ss_formats m) root_size.
Lemma length_encode_root order size : length (encode_root order size) = 104%nat.
Proof. unfold encode_root, encode_depth. by rewrite !length_app, !length_push_u16, !length_push_u32. Qed.
(** The fields before the vendor, after the first [n] bytes. *)
Lemma setup_success_reply order base mask size :
  0 < sz_width size ≤ u16_MAX → 0 < sz_height size ≤ u16_MAX → u32_ok base → u32_ok mask →
  ∃ reply, encode_x11_setup_success order (setup_of_range base mask size) = Ok reply ∧
    str_len reply = 8 + 4 * 40 ∧ s_u16 order reply 6 = Some (Ok 40) ∧
    s_slice reply 12 16 = Some (Ok (push_u32 order base)) ∧ s_slice reply 16 20 = Some (Ok (push_u32 order mask)).
Proof.
  intros Hw Hh Hb Hm. set (setup := setup_of_range base mask size). set (h := setup_success_head order setup 40).
  assert (length h = 46%nat) as Hlen by (unfold h, setup_success_head; by rewrite !length_app, !length_push_u16, !length_push_u32).
  assert (encode_x11_setup_success order setup = Ok (pad_to_four h ++ (encode_pixmap_format 24 ++ encode_pixmap_format 32) ++
    encode_root order size)) as ->.
  { unfold encode_x11_setup_success. cbv zeta. rewrite decide_True by (unfold setup; simpl; lia).
    rewrite decide_True by (vm_compute; discriminate). simpl. by rewrite (right_id_L [] (++)). }
  eexists. split; [done|]. unfold pad_to_four, h, setup_success_head. split_and!.
  - fold (setup_success_head order setup 40). fold h. unfold str_len. rewrite !length_app, Hlen, length_encode_root. done.
  - eapply (s_u16_in _ ([1; 0] ++ push_u16 order X_PROTOCOL_MAJOR ++ push_u16 order X_PROTOCOL_MINOR));
      [rewrite <-!(assoc_L (++)); reflexivity|unfold str_len; by rewrite !length_app, !length_push_u16|word_lia].
  - eapply (s_slice_in _ ([1; 0] ++ push_u16 order X_PROTOCOL_MAJOR ++ push_u16 order X_PROTOCOL_MINOR ++
      push_u16 order 40 ++ push_u32 order 1)); [rewrite <-!(assoc_L (++)); reflexivity| |];
      unfold str_len; by rewrite ?length_app, ?length_push_u16, ?length_push_u32.
  - eapply (s_slice_in _ ([1; 0] ++ push_u16 order X_PROTOCOL_MAJOR ++ push_u16 order X_PROTOCOL_MINOR ++
      push_u16 order 40 ++ push_u32 order 1 ++ push_u32 order base)); [rewrite <-!(assoc_L (++)); reflexivity| |];
      unfold str_len; by rewrite ?length_app, ?length_push_u16, ?length_push_u32.
Qed.
