(* ===== verification/XClients.v ===== *)
(** * The leases of connected clients
    ([X11CoreSocketServerState] of [sophia-x-authority/src/x11_socket.rs])

    Every connection gets an identity and a range of resource identifiers of its own; a resource
    leads back to the client that may have created it. *)

From S2P Require Import Prelude Ids Geometry Packets PortalPackets Text.
From S2P Require Import XTables XState XResources XProtocol XWire XDecode XDispatch XSetup.
From stdpp Require Import strings pretty.
Local Open Scope Z_scope.

Definition X11_CLIENT_RESOURCE_RANGE_SIZE : Z := X_SETUP_DEFAULT_RESOURCE_ID_MASK + 1.
Definition X11_MAX_CLIENT_RESOURCE_RANGES : Z := as_unsigned 16 (u32_MAX / X11_CLIENT_RESOURCE_RANGE_SIZE).

Record XServerFrontendClientLease : Type := mk_lease { cl_client : Z; cl_range : XWireClientResourceRange }.
Record X11CoreClientLeaseState : Type := mk_lease_state {
  ls_next_range : Z; ls_next_client : Z; ls_leases : gmap Z XServerFrontendClientLease;
}.
Definition lease_state_default : X11CoreClientLeaseState := mk_lease_state 1 1 ∅.

(** What the messages of [X11SetupSocketError] name here. *)
Inductive XLeaseError : Type :=
| LeaseTopologyInvalid (error : OutputTopologyError) | LeaseRangesExhausted | LeaseIdentitiesExhausted | LeaseDuplicate | LeaseLost.

(** [next_client_setup_success]; a failure may have used up a range. *)
Definition next_client_setup_success (topology : OutputTopologySnapshot) (st : X11CoreClientLeaseState) :
    result (XServerFrontendClientLease * XSetupSuccess) XLeaseError * X11CoreClientLeaseState :=
  match topology_validate topology with
  | Err e => (Err (LeaseTopologyInvalid e), st)
  | Ok root_size =>
      if decide (ls_next_range st > X11_MAX_CLIENT_RESOURCE_RANGES) then (Err LeaseRangesExhausted, st)
      else
        let base := ls_next_range st * X11_CLIENT_RESOURCE_RANGE_SIZE in
        let next_range := Z.min (ls_next_range st + 1) u16_MAX in
        let client := ls_next_client st in
        if decide (client + 1 ≤ u64_MAX) then
          (Ok (mk_lease client (mk_range base X_SETUP_DEFAULT_RESOURCE_ID_MASK),
               setup_of_range base X_SETUP_DEFAULT_RESOURCE_ID_MASK root_size),
           mk_lease_state next_range (client + 1) (ls_leases st))
        else (Err LeaseIdentitiesExhausted, mk_lease_state next_range client (ls_leases st))
  end.
(** The lease stays inserted where it replaced another. *)
Definition register_client (lease : XServerFrontendClientLease) (st : X11CoreClientLeaseState) :
    result unit XLeaseError * X11CoreClientLeaseState :=
  (match ls_leases st !! cl_client lease with Some _ => Err LeaseDuplicate | None => Ok () end,
   mk_lease_state (ls_next_range st) (ls_next_client st) (<[cl_client lease := lease]> (ls_leases st))).
Definition release_client (client : Z) (st : X11CoreClientLeaseState) :
    result XServerFrontendClientLease XLeaseError * X11CoreClientLeaseState :=
  (ok_or (ls_leases st !! client) LeaseLost,
   mk_lease_state (ls_next_range st) (ls_next_client st) (delete client (ls_leases st))).
Definition active_client_count (st : X11CoreClientLeaseState) : Z := Z.of_nat (size (ls_leases st)).
Definition client_for_resource (st : X11CoreClientLeaseState) (resource : XResourceId) : option Z :=
  if decide (0 ≤ xid_raw resource ≤ u32_MAX) then
    fst <$> find_first (λ e : Z * XServerFrontendClientLease, owns_new_resource (cl_range e.2) (xid_raw resource))
              (btree_entries (ls_leases st))
  else None.
(** [allocate_transaction], on the counter of the listener. *)
Definition allocate_transaction (next : Z) : option (TransactionId * Z) :=
  if decide (next + 1 ≤ u64_MAX) then Some (from_raw next, next + 1) else None.

(** ** The range of a client *)

Definition range_of (client : Z) : XWireClientResourceRange :=
  mk_range (client * X11_CLIENT_RESOURCE_RANGE_SIZE) X_SETUP_DEFAULT_RESOURCE_ID_MASK.
Lemma masked_base id : 0 ≤ id ≤ u32_MAX → Z.land id (Z.lxor u32_MAX X_SETUP_DEFAULT_RESOURCE_ID_MASK) = id / 2 ^ 21 * 2 ^ 21.
Proof.
  intros Hid. change (Z.lxor u32_MAX X_SETUP_DEFAULT_RESOURCE_ID_MASK) with (Z.shiftl (Z.ones 11) 21).
  rewrite <-Z.shiftr_div_pow2, <-Z.shiftl_mul_pow2 by lia.
  assert (Z.land (Z.shiftr id 21) (Z.ones 11) = Z.shiftr id 21) as E.
  { rewrite Z.land_ones by lia. apply Z.mod_small. rewrite Z.shiftr_div_pow2 by lia. split; [apply Z.div_pos; lia|].
    apply Z.div_lt_upper_bound; [lia|]. unfold u32_MAX in *. lia. }
  rewrite <-E. apply Z.bits_inj'. intros i Hi. rewrite Z.land_spec, !Z.shiftl_spec, Z.land_spec by lia.
  destruct (decide (i < 21)); [rewrite !(Z.testbit_neg_r _ (i - 21)) by lia; by rewrite andb_false_r|].
  rewrite Z.shiftr_spec by lia. by replace (i - 21 + 21) with i by lia.
Qed.
Lemma range_owner client id :
  1 ≤ client → 0 ≤ id ≤ u32_MAX → owns_new_resource (range_of client) id ↔ id / 2 ^ 21 = client.
Proof.
  intros Hc Hid. unfold owns_new_resource, range_of. simpl. rewrite masked_base by done.
  change X11_CLIENT_RESOURCE_RANGE_SIZE with (2 ^ 21). split; [intros [_ H]; by apply Z.mul_reg_r in H|]. intros <-. split; [|done].
  intros ->. by apply Hc.
Qed.

(** ** The leases of a run *)

Definition lease_of (client : Z) : XServerFrontendClientLease := mk_lease client (range_of client).
(** Identities and ranges are handed out in step. *)
Record leases_ok (st : X11CoreClientLeaseState) : Prop := mk_leases_ok {
  lo_next : 1 ≤ ls_next_range st ≤ 2048;
  lo_step : ls_next_client st = ls_next_range st;
  lo_leases : ∀ client lease, ls_leases st !! client = Some lease →
    lease = lease_of client ∧ 1 ≤ client < ls_next_client st;
}.
Lemma leases_default_ok : leases_ok lease_state_default.
Proof. constructor; simpl; [lia|done|]. intros client lease. by rewrite lookup_empty. Qed.
Lemma next_setup_ok topology st :
  leases_ok st →
  ∃ r st', next_client_setup_success topology st = (r, st') ∧ leases_ok st' ∧ ls_leases st' = ls_leases st ∧
    match r with
    | Ok (lease, setup) =>
        lease = lease_of (ls_next_client st) ∧ ls_next_client st ≤ 2047 ∧ ls_next_client st' = ls_next_client st + 1 ∧
        ∃ size, topology_validate topology = Ok size ∧
          setup = setup_of_range (range_base (cl_range lease)) (range_mask (cl_range lease)) size
    | Err e => st' = st ∧ ((∃ t, e = LeaseTopologyInvalid t) ∨ e = LeaseRangesExhausted ∧ ls_next_client st = 2048)
    end.
Proof.
  intros [Hn Hs Hl]. unfold next_client_setup_success.
  destruct (topology_validate topology) as [size|e] eqn:Ht.
  2: { eexists _, st. split_and!; try done. split; [done|]. left. by eexists. }
  change X11_MAX_CLIENT_RESOURCE_RANGES with 2047. case_decide as Hx.
  { eexists _, st. split_and!; try done. split; [done|]. right. split; [done|lia]. }
  cbv zeta. rewrite decide_True by word_lia. eexists _, _. split; [done|]. split_and!; try done.
  - constructor; simpl; [word_lia|word_lia|]. intros client lease Hc. destruct (Hl client lease Hc). split; [done|lia].
  - unfold lease_of, range_of. by rewrite Hs.
  - lia.
  - by exists size.
Qed.
Lemma register_ok client st :
  leases_ok st → ls_leases st !! client = None → 1 ≤ client < ls_next_client st →
  ∃ st', register_client (lease_of client) st = (Ok (), st') ∧ leases_ok st' ∧
    ls_leases st' = <[client := lease_of client]> (ls_leases st) ∧ ls_next_client st' = ls_next_client st.
Proof.
  intros [Hn Hs Hl] Hnone Hc. unfold register_client. simpl. rewrite Hnone. eexists. split; [done|]. split_and!; try done.
  constructor; simpl; try done. intros c lease. rewrite lookup_insert_Some. intros [[<- <-]|[_ H]]; [done|by apply Hl].
Qed.
Lemma release_lease_ok client st :
  leases_ok st →
  ∃ r st', release_client client st = (r, st') ∧ leases_ok st' ∧ ls_leases st' = delete client (ls_leases st) ∧
    ls_next_client st' = ls_next_client st ∧
    r = (if ls_leases st !! client is Some _ then Ok (lease_of client) else Err LeaseLost).
Proof.
  intros [Hn Hs Hl]. eexists _, _. split; [done|]. split_and!; try done.
  - constructor; simpl; try done. intros c lease. rewrite lookup_delete_Some. intros [_ H]. by apply Hl.
  - destruct (ls_leases st !! client) as [lease|] eqn:E; [|done]. by destruct (Hl _ _ E) as [-> _].
Qed.
(** A resource leads to the one client whose range holds it. *)
Lemma client_for_resource_exact st resource client :
  leases_ok st → 0 ≤ xid_raw resource ≤ u32_MAX →
  client_for_resource st resource = Some client ↔
    is_Some (ls_leases st !! client) ∧ owns_new_resource (range_of client) (xid_raw resource).
Proof.
  intros [Hn Hs Hl] Hr. unfold client_for_resource. rewrite decide_True by done. split.
  - intros ([c lease] & Hf & ->)%fmap_Some. apply find_first_Some in Hf as [Hin Ho]. simpl in *.
    apply elem_of_btree_entries in Hin. destruct (Hl _ _ Hin) as [-> _]. split; [by eexists|done].
  - intros [[lease Hc] Ho]. destruct (Hl _ _ Hc) as [-> Hlt].
    destruct (find_first _ (btree_entries (ls_leases st))) as [[c l]|] eqn:Hf.
    + apply find_first_Some in Hf as [Hin Ho']. apply elem_of_btree_entries in Hin. destruct (Hl _ _ Hin) as [-> Hlt'].
      simpl in *. apply range_owner in Ho; [|lia|done]. apply range_owner in Ho'; [|lia|done]. by subst.
    + apply find_first_None in Hf. rewrite Forall_forall in Hf. exfalso. apply (Hf (client, lease_of client)); [|done].
      by apply elem_of_btree_entries.
Qed.
