(* ===== verification/XEncode.v ===== *)
(** * The bytes clients receive
    ([sophia-x-authority/src/client_output.rs])

    How errors, events and replies are written in the byte order of their client, and that a client
    which reads them as the protocol says never loses track of where one ends and the next begins. *)

From S2P Require Import Prelude Ids Geometry Packets Text.
From S2P Require Import XAtoms XTables XProperties XSelections XInputGrabs XSoftware XState XRuntime XResources XRelease XDraws.
From S2P Require Import XProtocol XKeyboard XWire XDecode XDispatch XServing XSetup.
Local Open Scope Z_scope.

(** ** Writing into a record *)

(** A field: where its first byte goes, and its bytes. *)
Notation Field := (Z * list Z)%type.
(** [out[i..j].copy_from_slice(bytes)], which panics outside of [out]. *)
Definition put (out : list Z) (field : Field) : option (list Z) :=
  if decide (0 ≤ field.1 ∧ field.1 + str_len field.2 ≤ str_len out)
  then Some (take (Z.to_nat field.1) out ++ field.2 ++ drop (Z.to_nat (field.1 + str_len field.2)) out) else None.
Fixpoint puts (out : list Z) (fields : list Field) : option (list Z) :=
  match fields with [] => Some out | field :: fields => out ← put out field; puts out fields end.
(** [out.resize(n, 0)] *)
Definition resize_bytes (n : Z) (out : list Z) : list Z := take (Z.to_nat n) out ++ zeros (n - str_len out).

Section encode.
  Context (order : XByteOrder).

Definition put_u8 (i value : Z) : Field := (i, [value]).
Definition put_u16 (i value : Z) : Field := (i, push_u16 order value).
Definition put_i16 (i value : Z) : Field := (i, push_u16 order (as_unsigned 16 value)).
Definition put_u32 (i value : Z) : Field := (i, push_u32 order value).
Definition put_u64 (i value : Z) : Field := (i, in_order order (to_le_bytes 8 value)).
Definition put_resource (i : Z) (resource : XResourceId) : Field := put_u32 i (raw_of resource).
Definition put_bool (i : Z) (b : bool) : Field := put_u8 i (if b then 1 else 0).
Definition push_i64 (value : Z) : list Z := in_order order (to_le_bytes 8 (as_unsigned 64 value)).
(** Words one after the other. *)
Definition u32s (l : list Z) : list Z := mjoin (push_u32 order <$> l).
Definition pairs (l : list (Z * Z)) : list Z := u32s (mjoin ((λ p : Z * Z, [p.1; p.2]) <$> l)).

Definition write_event_header (event_type detail sequence : Z) : list Field :=
  [put_u8 0 event_type; put_u8 1 detail; put_u16 2 sequence].
Definition write_reply_header (sequence length_units : Z) : list Field :=
  [put_u8 0 1; put_u16 2 sequence; put_u32 4 length_units].
(** A record of [n] zeros with these fields written into it. *)
Definition record (n : Z) (fields : list Field) : option (list Z) := puts (zeros n) fields.
Definition reply (n sequence length_units : Z) (fields : list Field) : option (list Z) :=
  record n (write_reply_header sequence length_units ++ fields).
Definition short (sequence : Z) (fields : list Field) : option (list Z) :=
  reply X_CLIENT_OUTPUT_RECORD_LEN sequence 0 fields.

(** ** Errors and events *)

Definition wire_code (code : XErrorCode) : Z :=
  match code with
  | BadRequest => 1 | BadValue => 2 | BadWindow => 3 | BadAtom => 5
  | BadAccess => 10 | BadIdChoice => 14 | BadLength => 16 | BadImplementation => 17
  end.
Definition encode_x_client_error (error : XClientError) : option (list Z) :=
  record X_CLIENT_OUTPUT_RECORD_LEN
    [put_u8 0 X_ERROR; put_u8 1 (wire_code (ce_code error)); put_u16 2 (ce_sequence error);
     put_u32 4 (ce_resource_id error); put_u16 8 (ce_minor_code error); put_u8 10 (ce_major_code error)].

Definition write_pointer_event (event_type detail sequence time : Z) (root event : XResourceId)
    (root_x root_y event_x event_y state : Z) : list Field :=
  write_event_header event_type detail sequence ++
  [put_u32 4 time; put_resource 8 root; put_resource 12 event; put_resource 16 XRESOURCE_NONE;
   put_i16 20 root_x; put_i16 22 root_y; put_i16 24 event_x; put_i16 26 event_y; put_u16 28 state; put_u8 30 1].
Definition encode_present_complete (sequence : Z) (event_id window : XResourceId) (serial ust msc mode : Z) : option (list Z) :=
  puts (resize_bytes 40 (zeros X_CLIENT_OUTPUT_RECORD_LEN))
    [put_u8 0 35; put_u8 1 X_PRESENT_MAJOR_OPCODE; put_u16 2 sequence; put_u32 4 2; put_u16 8 1; put_u8 10 0; put_u8 11 mode;
     put_resource 12 event_id; put_resource 16 window; put_u32 20 serial; put_u64 24 ust; put_u64 32 msc].
Definition encode_present_idle (sequence : Z) (event_id window : XResourceId) (serial : Z) (pixmap : XResourceId)
    (idle_fence : option XResourceId) : option (list Z) :=
  record X_CLIENT_OUTPUT_RECORD_LEN
    [put_u8 0 35; put_u8 1 X_PRESENT_MAJOR_OPCODE; put_u16 2 sequence; put_u16 8 2; put_resource 12 event_id;
     put_resource 16 window; put_u32 20 serial; put_resource 24 pixmap; put_resource 28 (default XRESOURCE_NONE idle_fence)].
(** The RandR notifications. *)
Definition encode_randr_event (event : XClientEvent) : list Field :=
  match event with
  | EventRandrScreenChange sequence timestamp config_timestamp root request_window width height mm_width mm_height =>
      write_event_header X_RANDR_FIRST_EVENT 1 sequence ++
      [put_u32 4 timestamp; put_u32 8 config_timestamp; put_resource 12 root; put_resource 16 request_window;
       put_u16 20 0; put_u16 22 0; put_u16 24 width; put_u16 26 height; put_u16 28 mm_width; put_u16 30 mm_height]
  | EventRandrCrtcChange sequence timestamp window crtc mode x y width height =>
      write_event_header (X_RANDR_FIRST_EVENT + 1) 0 sequence ++
      [put_u32 4 timestamp; put_resource 8 window; put_u32 12 crtc; put_u32 16 mode; put_u16 20 1;
       put_i16 24 x; put_i16 26 y; put_u16 28 width; put_u16 30 height]
  | EventRandrOutputChange sequence timestamp window output crtc mode =>
      write_event_header (X_RANDR_FIRST_EVENT + 1) 1 sequence ++
      [put_u32 4 timestamp; put_u32 8 timestamp; put_resource 12 window; put_u32 16 output; put_u32 20 crtc;
       put_u32 24 mode; put_u16 28 1; put_u8 30 0; put_u8 31 0]
  | EventRandrResourceChange sequence timestamp window =>
      write_event_header (X_RANDR_FIRST_EVENT + 1) 5 sequence ++ [put_u32 4 timestamp; put_resource 8 window]
  | _ => []
  end.
Definition encode_map_notify (sequence : Z) (event window : XResourceId) (override_redirect : bool) :
    option (list Z) :=
  record X_CLIENT_OUTPUT_RECORD_LEN
      (write_event_header X_MAP_NOTIFY 0 sequence ++
       [put_resource 4 event; put_resource 8 window; put_bool 12 override_redirect]).
Definition encode_configure_notify (sequence : Z) (event window : XResourceId) (above_sibling : option XResourceId) (x y width height border_width : Z) (override_redirect : bool) :
    option (list Z) :=
  record X_CLIENT_OUTPUT_RECORD_LEN
      (write_event_header X_CONFIGURE_NOTIFY 0 sequence ++
       [put_resource 4 event; put_resource 8 window; put_u32 12 (from_option raw_of 0 above_sibling);
        put_i16 16 x; put_i16 18 y; put_u16 20 width; put_u16 22 height; put_u16 24 border_width; put_bool 26 override_redirect]).
Definition encode_property_notify (sequence : Z) (window : XResourceId) (atom time : Z) (new_value : bool) :
    option (list Z) :=
  record X_CLIENT_OUTPUT_RECORD_LEN
      (write_event_header X_PROPERTY_NOTIFY 0 sequence ++
       [put_resource 4 window; put_u32 8 atom; put_u32 12 time; put_u8 16 (if new_value then PROPERTY_NEW_VALUE else 1)]).
Definition encode_selection_clear (sequence time : Z) (owner : XResourceId) (selection : Z) :
    option (list Z) :=
  record X_CLIENT_OUTPUT_RECORD_LEN
      (write_event_header 29 0 sequence ++ [put_u32 4 time; put_resource 8 owner; put_u32 12 selection]).
Definition encode_selection_request (sequence time : Z) (owner requestor : XResourceId) (selection target property : Z) :
    option (list Z) :=
  record X_CLIENT_OUTPUT_RECORD_LEN
      (write_event_header 30 0 sequence ++
       [put_u32 4 time; put_resource 8 owner; put_resource 12 requestor; put_u32 16 selection; put_u32 20 target;
        put_u32 24 property]).
Definition encode_selection_notify (sequence time : Z) (requestor : XResourceId) (selection target property : Z) :
    option (list Z) :=
  record X_CLIENT_OUTPUT_RECORD_LEN
      (write_event_header X_SELECTION_NOTIFY 0 sequence ++
       [put_u32 4 time; put_resource 8 requestor; put_u32 12 selection; put_u32 16 target; put_u32 20 property]).
Definition encode_shm_completion (sequence : Z) (drawable segment : XResourceId) (offset : Z) :
    option (list Z) :=
  record X_CLIENT_OUTPUT_RECORD_LEN
      (write_event_header X_MIT_SHM_FIRST_EVENT 0 sequence ++
       [put_resource 4 drawable; put_u16 8 X_MIT_SHM_PUT_IMAGE_MINOR_OPCODE; put_u8 10 X_MIT_SHM_MAJOR_OPCODE;
        put_resource 12 segment; put_u32 16 offset]).
Definition encode_x_client_event (event : XClientEvent) : option (list Z) :=
  match event with
  | EventKey sequence pressed keycode time root event state =>
      record X_CLIENT_OUTPUT_RECORD_LEN
        (write_event_header (if pressed then X_KEY_PRESS else X_KEY_RELEASE) keycode sequence ++
         [put_u32 4 time; put_resource 8 root; put_resource 12 event; put_resource 16 XRESOURCE_NONE;
          put_i16 20 0; put_i16 22 0; put_i16 24 0; put_i16 26 0; put_u16 28 state; put_u8 30 1])
  | EventFocus sequence focused detail event mode =>
      record X_CLIENT_OUTPUT_RECORD_LEN
        (write_event_header (if focused then X_FOCUS_IN else X_FOCUS_OUT) detail sequence ++
         [put_resource 4 event; put_u8 8 mode])
  | EventXkbStateNotify sequence time modifiers changed keycode event_type =>
      record X_CLIENT_OUTPUT_RECORD_LEN
        (write_event_header X_KEYBOARD_FIRST_EVENT 2 sequence ++
         [put_u32 4 time; put_u8 8 3; put_u8 9 modifiers; put_u8 10 modifiers; put_u8 16 modifiers; put_u8 18 modifiers;
          put_u16 24 changed; put_u8 26 keycode; put_u8 27 event_type])
  | EventPointerMotion sequence time root event root_x root_y event_x event_y state =>
      record X_CLIENT_OUTPUT_RECORD_LEN
        (write_pointer_event X_MOTION_NOTIFY 0 sequence time root event root_x root_y event_x event_y state)
  | EventPointerButton sequence pressed button time root event root_x root_y event_x event_y state =>
      record X_CLIENT_OUTPUT_RECORD_LEN
        (write_pointer_event (if pressed then X_BUTTON_PRESS else X_BUTTON_RELEASE) button sequence time root event
           root_x root_y event_x event_y state)
  | EventExpose sequence window x y width height count =>
      record X_CLIENT_OUTPUT_RECORD_LEN
        (write_event_header X_EXPOSE 0 sequence ++
         [put_resource 4 window; put_u16 8 x; put_u16 10 y; put_u16 12 width; put_u16 14 height; put_u16 16 count])
  | EventVisibilityNotify sequence window state =>
      record X_CLIENT_OUTPUT_RECORD_LEN
        (write_event_header X_VISIBILITY_NOTIFY 0 sequence ++ [put_resource 4 window; put_u8 8 state])
  | EventMapNotify sequence event window override_redirect =>
      encode_map_notify sequence event window override_redirect
  | EventConfigureNotify sequence event window above_sibling x y width height border_width override_redirect =>
      encode_configure_notify sequence event window above_sibling x y width height border_width override_redirect
  | EventPropertyNotify sequence window atom time new_value =>
      encode_property_notify sequence window atom time new_value
  | EventSelectionClear sequence time owner selection =>
      encode_selection_clear sequence time owner selection
  | EventSelectionRequest sequence time owner requestor selection target property =>
      encode_selection_request sequence time owner requestor selection target property
  | EventSelectionNotify sequence time requestor selection target property =>
      encode_selection_notify sequence time requestor selection target property
  | EventClientMessage sequence bytes => puts bytes [put_u16 2 sequence]
  | EventShmCompletion sequence drawable segment offset =>
      encode_shm_completion sequence drawable segment offset
  | EventPresentCompleteNotify sequence event_id window serial ust msc mode =>
      encode_present_complete sequence event_id window serial ust msc mode
  | EventPresentIdleNotify sequence event_id window serial pixmap idle_fence =>
      encode_present_idle sequence event_id window serial pixmap idle_fence
  | EventRandrScreenChange _ _ _ _ _ _ _ _ _ | EventRandrCrtcChange _ _ _ _ _ _ _ _ _
  | EventRandrOutputChange _ _ _ _ _ _ | EventRandrResourceChange _ _ _ =>
      record X_CLIENT_OUTPUT_RECORD_LEN (encode_randr_event event)
  end.

(** ** Replies with a body of their own *)

Definition encode_get_atom_name (sequence : Z) (name : list Z) : option (list Z) :=
  let padded_name_len := padded_len (str_len name) in
  reply (X_CLIENT_OUTPUT_RECORD_LEN + padded_name_len) sequence (try_or 0 u32_MAX 0 (padded_name_len / 4))
    [put_u16 8 (try_or 0 u16_MAX 0 (str_len name)); (X_CLIENT_OUTPUT_RECORD_LEN, name)].
Definition encode_get_geometry (sequence depth : Z) (root : XResourceId) (geometry : Rect) (border_width : Z) : option (list Z) :=
  short sequence
    [put_u8 1 depth; put_resource 8 root; put_i16 12 (try_or (-2 ^ 15) (2 ^ 15 - 1) 0 (rx geometry));
     put_i16 14 (try_or (-2 ^ 15) (2 ^ 15 - 1) 0 (ry geometry)); put_u16 16 (try_or 0 u16_MAX 0 (rwidth geometry));
     put_u16 18 (try_or 0 u16_MAX 0 (rheight geometry)); put_u16 20 border_width].
Definition encode_get_image (sequence depth visual : Z) (data : list Z) : option (list Z) :=
  let padded_len := padded_len (str_len data) in
  reply (X_CLIENT_OUTPUT_RECORD_LEN + padded_len) sequence (try_or 0 u32_MAX u32_MAX (padded_len / 4))
    [put_u8 1 depth; put_u32 8 visual; (X_CLIENT_OUTPUT_RECORD_LEN, data)].
Definition encode_query_tree (sequence : Z) (root parent : XResourceId) (children : list XResourceId) : option (list Z) :=
  let children_len := saturating_mul usize_MAX (Z.of_nat (length children)) 4 in
  reply (X_CLIENT_OUTPUT_RECORD_LEN + children_len) sequence (try_or 0 u32_MAX 0 (children_len / 4))
    [put_resource 8 root; put_resource 12 parent; put_u16 16 (try_or 0 u16_MAX 0 (Z.of_nat (length children)));
     (X_CLIENT_OUTPUT_RECORD_LEN, u32s (raw_of <$> children))].
Definition encode_get_window_attributes (sequence visual : Z) (colormap : XResourceId) (map_state : Z)
    (override_redirect : bool) : option (list Z) :=
  reply (X_CLIENT_OUTPUT_RECORD_LEN + 12) sequence 3
    [put_u8 1 0; put_u32 8 visual; put_u16 12 1; put_u8 14 0; put_u8 15 1; put_u32 16 0; put_u32 20 0; put_u8 24 0;
     put_u8 25 1; put_u8 26 map_state; put_bool 27 override_redirect; put_resource 28 colormap].
Definition encode_list_fonts (sequence : Z) (names : list (list Z)) : option (list Z) :=
  let padded_names_len := padded_len (Z.of_nat (sum_list_with (λ name, 1 + length name)%nat names)) in
  reply (X_CLIENT_OUTPUT_RECORD_LEN + padded_names_len) sequence (try_or 0 u32_MAX 0 (padded_names_len / 4))
    [put_u16 8 (try_or 0 u16_MAX 0 (Z.of_nat (length names)));
     (X_CLIENT_OUTPUT_RECORD_LEN, mjoin ((λ name, try_or 0 u8_MAX 0 (str_len name) :: name) <$> names))].
Definition encode_font_info_reply (sequence font_ascent font_descent : Z) (name : list Z) : option (list Z) :=
  let padded_name_len := padded_len (str_len name) in
  reply (60 + padded_name_len) sequence (try_or 0 u32_MAX 7 (7 + padded_name_len / 4))
    [put_u8 1 (try_or 0 u8_MAX 0 (str_len name));
     put_i16 8 0; put_i16 10 8; put_i16 12 8; put_i16 14 8; put_i16 16 2; put_u16 18 0;
     put_i16 24 0; put_i16 26 8; put_i16 28 8; put_i16 30 8; put_i16 32 2; put_u16 34 0;
     put_u16 40 0; put_u16 42 255; put_u16 44 0; put_u16 46 0; put_u8 48 0; put_u8 49 0; put_u8 50 0; put_u8 51 1;
     put_i16 52 font_ascent; put_i16 54 font_descent; put_u32 56 0; (60, name)].
(** One reply per name, and one without a name that ends the series. *)
Definition encode_list_fonts_with_info (sequence : Z) (names : list (list Z)) : option (list Z) :=
  replies ← mapM (encode_font_info_reply sequence 8 2) names;
  last ← encode_font_info_reply sequence 0 0 [];
  Some (mjoin replies ++ last).
Definition encode_dri3_modifiers (sequence : Z) (window_modifiers screen_modifiers : list Z) : option (list Z) :=
  let modifier_count := saturating_add usize_MAX (Z.of_nat (length window_modifiers)) (Z.of_nat (length screen_modifiers)) in
  reply (X_CLIENT_OUTPUT_RECORD_LEN + saturating_mul usize_MAX modifier_count 8) sequence
    (try_or 0 u32_MAX u32_MAX (saturating_mul usize_MAX modifier_count 2))
    [put_u32 8 (try_or 0 u32_MAX u32_MAX (Z.of_nat (length window_modifiers)));
     put_u32 12 (try_or 0 u32_MAX u32_MAX (Z.of_nat (length screen_modifiers)));
     (X_CLIENT_OUTPUT_RECORD_LEN, mjoin ((λ modifier, in_order order (to_le_bytes 8 modifier)) <$> window_modifiers ++ screen_modifiers))].

(** *** RandR *)

Definition mode_record (mode : XRandrModeInfo) : option (list Z) :=
  let w := rm_width mode in
  let h := rm_height mode in
  let dot_clock := saturating_mul u64_MAX (saturating_mul u64_MAX w h) (rm_refresh_millihz mode) / 1000 in
  record 32
    [put_u32 0 (rm_id mode); put_u16 4 w; put_u16 6 h; put_u32 8 (try_or 0 u32_MAX u32_MAX dot_clock);
     put_u16 12 w; put_u16 14 w; put_u16 16 w; put_u16 20 h; put_u16 22 h; put_u16 24 h;
     put_u16 26 (as_unsigned 16 (str_len (rm_name mode)))].
Definition encode_screen_resources (sequence timestamp : Z) (crtcs outputs : list Z) (modes : list XRandrModeInfo) :
    option (list Z) :=
  let names_len := Z.of_nat (sum_list_with (λ mode, length (rm_name mode)) modes) in
  let count {A} (l : list A) := Z.of_nat (length l) in
  let payload_len := count crtcs * 4 + count outputs * 4 + count modes * 32 + names_len in
  records ← mapM mode_record modes;
  reply (X_CLIENT_OUTPUT_RECORD_LEN + padded_len payload_len) sequence (try_or 0 u32_MAX u32_MAX (padded_len payload_len / 4))
    [put_u32 8 timestamp; put_u32 12 timestamp; put_u16 16 (as_unsigned 16 (count crtcs)); put_u16 18 (as_unsigned 16 (count outputs));
     put_u16 20 (as_unsigned 16 (count modes)); put_u16 22 (as_unsigned 16 names_len);
     (32, u32s (crtcs ++ outputs) ++ mjoin records ++ mjoin (rm_name <$> modes))].
Definition encode_output_info (sequence timestamp crtc mm_width mm_height : Z) (crtcs modes name : list Z) : option (list Z) :=
  let count l := as_unsigned 16 (str_len l) in
  let padded := padded_len (str_len crtcs * 4 + str_len modes * 4 + str_len name) in
  out ← reply (32 + padded) sequence (as_unsigned 32 (padded / 4))
    [put_u8 1 0; put_u32 8 timestamp; put_u32 12 crtc; put_u32 16 mm_width; put_u32 20 mm_height; put_u8 24 0; put_u8 25 0;
     put_u16 26 (count crtcs); put_u16 28 (count modes); put_u16 30 (if decide (modes = []) then 0 else 1)];
  out ← puts (out ++ zeros 4) [put_u16 34 (count name)];
  let payload := resize_bytes padded (u32s (crtcs ++ modes) ++ name) in
  let out := take 36 out ++ payload in
  let reply_units := (saturating_sub (str_len out) 32 + 3) / 4 in
  puts (resize_bytes (32 + reply_units * 4) out) [put_u32 4 (as_unsigned 32 reply_units)].
Definition encode_output_property (sequence property_type bytes_after format : Z) (data : list Z) : option (list Z) :=
  let padded_len := padded_len (str_len data) in
  let item_width := format / 8 in
  let items := if decide (item_width = 0) then 0 else str_len data / item_width in
  reply (32 + padded_len) sequence (as_unsigned 32 (padded_len / 4))
    [put_u8 1 format; put_u32 8 property_type; put_u32 12 bytes_after; put_u32 16 (try_or 0 u32_MAX u32_MAX items); (32, data)].
Definition encode_crtc_info (sequence timestamp x y width height mode : Z) (outputs : list Z) : option (list Z) :=
  let payload_len := str_len outputs * 8 in
  reply (32 + payload_len) sequence (as_unsigned 32 (payload_len / 4))
    [put_u8 1 0; put_u32 8 timestamp; put_i16 12 x; put_i16 14 y; put_u16 16 width; put_u16 18 height; put_u32 20 mode;
     put_u16 24 1; put_u16 26 1; put_u16 28 (as_unsigned 16 (str_len outputs)); put_u16 30 (as_unsigned 16 (str_len outputs));
     (32, u32s (outputs ++ outputs))].
Definition monitor_record (monitor : XRandrMonitorInfo) : option (list Z) :=
  head ← record 24
    [put_u32 0 (ro_name monitor); put_bool 4 (ro_primary monitor); put_u8 5 1;
     put_u16 6 (as_unsigned 16 (str_len (ro_outputs monitor))); put_i16 8 (ro_x monitor); put_i16 10 (ro_y monitor);
     put_u16 12 (ro_width monitor); put_u16 14 (ro_height monitor); put_u32 16 (ro_mm_width monitor); put_u32 20 (ro_mm_height monitor)];
  Some (head ++ u32s (ro_outputs monitor)).
Definition encode_monitors (sequence timestamp : Z) (monitors : list XRandrMonitorInfo) : option (list Z) :=
  let payload_len := Z.of_nat (sum_list_with (λ monitor, 24 + length (ro_outputs monitor) * 4)%nat monitors) in
  records ← mapM monitor_record monitors;
  reply (X_CLIENT_OUTPUT_RECORD_LEN + payload_len) sequence (as_unsigned 32 (payload_len / 4))
    [put_u32 8 timestamp; put_u32 12 (as_unsigned 32 (Z.of_nat (length monitors)));
     put_u32 16 (Z.of_nat (sum_list_with (λ monitor, length (ro_outputs monitor)) monitors)); (32, mjoin records)].

(** *** GLX *)

Definition encode_glx_string (sequence : Z) (value : list Z) : option (list Z) :=
  let bytes := value ++ [0] in
  let padded := padded_len (str_len bytes) in
  reply (X_CLIENT_OUTPUT_RECORD_LEN + padded) sequence (try_or 0 u32_MAX u32_MAX (padded / 4))
    [put_u32 12 (try_or 0 u32_MAX u32_MAX (str_len bytes)); (32, bytes)].
Definition encode_visual_configs (sequence : Z) (configs : list (list Z)) : option (list Z) :=
  let body_len := Z.of_nat (length configs) * 18 * 4 in
  reply (X_CLIENT_OUTPUT_RECORD_LEN + body_len) sequence (as_unsigned 32 (body_len / 4))
    [put_u32 8 (as_unsigned 32 (Z.of_nat (length configs))); put_u32 12 18; (32, u32s (mjoin configs))].
Definition encode_fb_configs (sequence : Z) (configs : list (list (Z * Z))) : option (list Z) :=
  let attributes := Z.of_nat (from_option length 0%nat (head configs)) in
  let body_len := Z.of_nat (length configs) * attributes * 8 in
  reply (X_CLIENT_OUTPUT_RECORD_LEN + body_len) sequence (as_unsigned 32 (body_len / 4))
    [put_u32 8 (as_unsigned 32 (Z.of_nat (length configs))); put_u32 12 (as_unsigned 32 attributes); (32, pairs (mjoin configs))].
Definition encode_drawable_attributes (sequence : Z) (attributes : list (Z * Z)) : option (list Z) :=
  let body_len := Z.of_nat (length attributes) * 8 in
  reply (X_CLIENT_OUTPUT_RECORD_LEN + body_len) sequence (as_unsigned 32 (body_len / 4))
    [put_u32 8 (as_unsigned 32 (Z.of_nat (length attributes))); (32, pairs attributes)].

(** *** The keyboard extension *)

Definition bit_set (mask bit : Z) : bool := bool_decide (Z.land mask bit ≠ 0).
(** What of the map is asked for: types, symbols, actions, modifiers. *)
Definition xkb_map_body (present : Z) (keysyms : list (list Z)) (modifier_map : list (Z * Z)) : list Z :=
  let keys := Z.of_nat (length keysyms) in
  let key_type := [1; 1] ++ push_u16 order 0 ++ [2; 1; 0; 0] ++ [1; 1; 1; 1] ++ push_u16 order 0 ++ [0; 0] in
  let body := if bit_set present 1 then mjoin (replicate 4 key_type) else [] in
  let body := if bit_set present 2
              then body ++ mjoin ((λ syms, [0; 0; 0; 0; 1; 2] ++ push_u16 order 2 ++ push_u32 order (default 0 (syms !! 0%nat)) ++
                                             push_u32 order (default 0 (syms !! 1%nat))) <$> keysyms)
              else body in
  let body := if bit_set present 16 then pad_to_four (resize_bytes (saturating_add usize_MAX (str_len body) keys) body) else body in
  if bit_set present 4 then pad_to_four (body ++ mjoin ((λ entry : Z * Z, [entry.1; entry.2]) <$> modifier_map)) else body.
Definition encode_xkb_map (sequence present : Z) (keysyms : list (list Z)) (modifier_map : list (Z * Z)) : option (list Z) :=
  let keys := Z.of_nat (length keysyms) in
  let body := xkb_map_body present keysyms modifier_map in
  let when bit value := if bit_set present bit then value else 0 in
  let reply_units := (8 + str_len body) / 4 in
  _ ← (if decide (reply_units ≤ u32_MAX) then Some () else None);
  out ← record 40
    [put_u8 0 1; put_u8 1 3; put_u16 2 sequence; put_u32 4 reply_units; put_u8 10 8; put_u8 11 u8_MAX; put_u16 12 present;
     put_u8 14 0; put_u8 15 (when 1 4); put_u8 16 (when 1 4); put_u8 17 8;
     put_u16 18 (when 2 (try_or 0 u16_MAX u16_MAX (saturating_mul usize_MAX keys 2)));
     put_u8 20 (when 2 (try_or 0 u8_MAX u8_MAX keys)); put_u8 21 (when 16 8); put_u8 24 (when 16 (try_or 0 u8_MAX u8_MAX keys));
     put_u8 25 (when 32 8); put_u8 28 (when 8 8); put_u8 31 (when 4 8); put_u8 32 (when 4 248);
     put_u8 33 (when 4 (try_or 0 u8_MAX u8_MAX (Z.of_nat (length modifier_map)))); put_u8 34 (when 128 8)];
  Some (out ++ body).
Definition xkb_names_body (which : Z) (component_atoms type_atoms : list Z) (key_names : list (list Z)) : list Z :=
  let types := Z.of_nat (length type_atoms) in
  let body := u32s component_atoms in
  let body := if bit_set which 64 then body ++ u32s type_atoms else body in
  let body := if bit_set which 128
              then pad_to_four (body ++ replicate (length type_atoms) 2) ++
                   u32s (replicate (Z.to_nat (saturating_mul usize_MAX types 2)) 0)
              else body in
  if bit_set which 512 then body ++ mjoin key_names else body.
Definition encode_xkb_names (sequence which min_keycode max_keycode : Z) (component_atoms type_atoms : list Z)
    (key_names : list (list Z)) : option (list Z) :=
  let body := xkb_names_body which component_atoms type_atoms key_names in
  out ← reply X_CLIENT_OUTPUT_RECORD_LEN sequence (try_or 0 u32_MAX u32_MAX (str_len body / 4))
    [put_u8 1 3; put_u32 8 which; put_u8 12 min_keycode; put_u8 13 max_keycode;
     put_u8 14 (try_or 0 u8_MAX u8_MAX (Z.of_nat (length type_atoms))); put_u8 18 min_keycode;
     put_u8 19 (try_or 0 u8_MAX u8_MAX (Z.of_nat (length key_names)))];
  Some (out ++ body).

(** *** The input extension *)

(** The arithmetic on the number of buttons panics where it does not fit. *)
Definition class_bytes (class : XXiDeviceClass) : option (list Z) :=
  match class with
  | ClassKey source_id keys =>
      let count := Z.of_nat (length keys) in
      Some (push_u16 order 0 ++ push_u16 order (try_or 0 u16_MAX u16_MAX (2 + count)) ++ push_u16 order source_id ++
            push_u16 order (try_or 0 u16_MAX 0 count) ++ u32s keys)
  | ClassButton source_id button_count =>
      length_units ← checked_add u16_MAX 3 button_count;
      Some (push_u16 order 1 ++ push_u16 order length_units ++ push_u16 order source_id ++ push_u16 order button_count ++
            push_u32 order 0 ++ u32s (replicate (Z.to_nat button_count) 0))
  | ClassValuator source_id number min max =>
      Some (push_u16 order 2 ++ push_u16 order 11 ++ push_u16 order source_id ++ push_u16 order number ++ push_u32 order 0 ++
            push_i64 min ++ push_i64 max ++ push_i64 0 ++ push_u32 order 1 ++ [0; 0; 0; 0])
  end.
Definition push_device (body : list Z) (device : XXiDeviceInfo) : option (list Z) :=
  classes ← mapM class_bytes (xi_classes device);
  Some (pad_to_four (body ++ push_u16 order (xi_device_id device) ++ push_u16 order (xi_device_type device) ++
          push_u16 order (xi_attachment device) ++ push_u16 order (try_or 0 u16_MAX 0 (Z.of_nat (length (xi_classes device)))) ++
          push_u16 order (try_or 0 u16_MAX 0 (str_len (xi_name device))) ++ [1; 0] ++ xi_name device) ++ mjoin classes).
Fixpoint push_devices (body : list Z) (devices : list XXiDeviceInfo) : option (list Z) :=
  match devices with [] => Some body | device :: devices => body ← push_device body device; push_devices body devices end.
Definition encode_query_device (sequence : Z) (devices : list XXiDeviceInfo) : option (list Z) :=
  body ← push_devices [] devices;
  out ← reply X_CLIENT_OUTPUT_RECORD_LEN sequence (try_or 0 u32_MAX 0 (str_len body / 4))
    [put_u8 1 X_INPUT_QUERY_DEVICE_MINOR_OPCODE; put_u16 8 (try_or 0 u16_MAX 0 (Z.of_nat (length devices)))];
  Some (out ++ body).

(** *** The core protocol *)

Definition encode_modifier_mapping (sequence keycodes_per_modifier : Z) (keycodes : list Z) : option (list Z) :=
  let padded_keycodes_len := padded_len (str_len keycodes) in
  reply (X_CLIENT_OUTPUT_RECORD_LEN + padded_keycodes_len) sequence (try_or 0 u32_MAX 0 (padded_keycodes_len / 4))
    [put_u8 1 keycodes_per_modifier; (X_CLIENT_OUTPUT_RECORD_LEN, keycodes)].
Definition encode_keyboard_mapping (sequence keysyms_per_keycode : Z) (keysyms : list Z) : option (list Z) :=
  let keysyms_len := saturating_mul usize_MAX (Z.of_nat (length keysyms)) 4 in
  reply (X_CLIENT_OUTPUT_RECORD_LEN + keysyms_len) sequence (try_or 0 u32_MAX 0 (keysyms_len / 4))
    [put_u8 1 keysyms_per_keycode; (X_CLIENT_OUTPUT_RECORD_LEN, u32s keysyms)].
Definition encode_get_property (sequence property_type format bytes_after item_count : Z) (bytes : list Z) : option (list Z) :=
  let padded_value_len := padded_len (str_len bytes) in
  reply (X_CLIENT_OUTPUT_RECORD_LEN + padded_value_len) sequence (try_or 0 u32_MAX 0 (padded_value_len / 4))
    [put_u8 1 format; put_u32 8 property_type; put_u32 12 bytes_after; put_u32 16 item_count; (X_CLIENT_OUTPUT_RECORD_LEN, bytes)].
Definition encode_list_properties (sequence : Z) (atoms : list Z) : option (list Z) :=
  let atoms_len := saturating_mul usize_MAX (Z.of_nat (length atoms)) 4 in
  reply (X_CLIENT_OUTPUT_RECORD_LEN + atoms_len) sequence (try_or 0 u32_MAX 0 (Z.of_nat (length atoms)))
    [put_u16 8 (try_or 0 u16_MAX 0 (Z.of_nat (length atoms))); (X_CLIENT_OUTPUT_RECORD_LEN, u32s atoms)].
(** Black for the pixel 0, white for every other. *)
Definition color_record (pixel : Z) : list Z :=
  let intensity := if decide (pixel = 0) then 0 else u16_MAX in
  push_u16 order intensity ++ push_u16 order intensity ++ push_u16 order intensity ++ [0; 0].
Definition encode_query_colors (sequence : Z) (pixels : list Z) : option (list Z) :=
  let colors_len := saturating_mul usize_MAX (Z.of_nat (length pixels)) 8 in
  reply (X_CLIENT_OUTPUT_RECORD_LEN + colors_len) sequence (try_or 0 u32_MAX 0 (colors_len / 4))
    [put_u16 8 (try_or 0 u16_MAX 0 (Z.of_nat (length pixels))); (X_CLIENT_OUTPUT_RECORD_LEN, mjoin (color_record <$> pixels))].

(** ** Every reply *)

Definition encode_query_extension (sequence : Z) (present : bool) (major_opcode first_event first_error : Z) : option (list Z) :=
  short sequence [put_bool 8 present; put_u8 9 major_opcode; put_u8 10 first_event; put_u8 11 first_error].
Definition encode_shm_version (sequence major_version minor_version : Z) (shared_pixmaps : bool) (pixmap_format : Z) : option (list Z) :=
  short sequence [put_bool 1 shared_pixmaps; put_u16 8 major_version; put_u16 10 minor_version; put_u8 16 pixmap_format].
Definition encode_screen_size_range (sequence min_width min_height max_width max_height : Z) : option (list Z) :=
  short sequence [put_u16 8 min_width; put_u16 10 min_height; put_u16 12 max_width; put_u16 14 max_height].
Definition encode_use_extension (sequence : Z) (supported : bool) (server_major server_minor : Z) : option (list Z) :=
  short sequence [put_bool 1 supported; put_u16 8 server_major; put_u16 10 server_minor].
Definition encode_sync_initialize (sequence major_version minor_version : Z) : option (list Z) :=
  short sequence [put_u8 8 major_version; put_u8 9 minor_version].
Definition encode_xkb_state (sequence modifiers : Z) : option (list Z) :=
  short sequence [put_u8 1 3; put_u8 8 modifiers; put_u8 9 modifiers; put_u8 18 modifiers; put_u8 20 modifiers].
Definition encode_xkb_controls (sequence : Z) : option (list Z) :=
  reply 92 sequence 15 [put_u8 1 3; put_u8 9 1; put_u16 20 660; put_u16 22 40].
Definition encode_xkb_device_info (sequence device_id supported unsupported : Z) : option (list Z) :=
  reply 36 sequence 1 [put_u8 1 device_id; put_u16 10 supported; put_u16 12 unsupported; put_u8 21 1].
Definition encode_per_client_flags (sequence supported value : Z) : option (list Z) :=
  short sequence [put_u8 1 3; put_u32 8 supported; put_u32 12 value].
Definition encode_xi_version (sequence major_version minor_version : Z) : option (list Z) :=
  short sequence [put_u8 1 X_INPUT_QUERY_VERSION_MINOR_OPCODE; put_u16 8 major_version; put_u16 10 minor_version].
Definition encode_ge_version (sequence major_version minor_version : Z) : option (list Z) :=
  short sequence [put_u16 8 major_version; put_u16 10 minor_version].
Definition encode_client_pointer (sequence device_id : Z) : option (list Z) :=
  short sequence [put_u8 8 1; put_u16 10 device_id].
Definition encode_xi_extension_version (sequence server_major server_minor : Z) : option (list Z) :=
  short sequence [put_u8 1 X_INPUT_GET_EXTENSION_VERSION_MINOR_OPCODE; put_u16 8 server_major; put_u16 10 server_minor; put_u8 12 1].
Definition encode_xi_query_pointer (sequence : Z) (root child : XResourceId) : option (list Z) :=
  reply 56 sequence 6 [put_resource 8 root; put_resource 12 child; put_u8 32 1].
Definition encode_get_input_focus (sequence : Z) (focus : XResourceId) (revert_to : Z) : option (list Z) :=
  short sequence [put_u8 1 revert_to; put_resource 8 focus].
Definition encode_query_pointer (sequence : Z) (root child : XResourceId) (root_x root_y win_x win_y mask : Z) : option (list Z) :=
  short sequence [put_u8 1 1; put_resource 8 root; put_resource 12 child; put_i16 16 root_x; put_i16 18 root_y;
    put_i16 20 win_x; put_i16 22 win_y; put_u16 24 mask].
Definition encode_keyboard_control (sequence : Z) : option (list Z) :=
  reply 52 sequence 5 [put_u8 1 1; put_u8 13 50; put_u16 14 400; put_u16 16 100; (20, replicate 32 255)].
Definition encode_translate_coordinates (sequence : Z) (same_screen : bool) (child : option XResourceId) (dst_x dst_y : Z) : option (list Z) :=
  short sequence [put_bool 1 same_screen; put_resource 8 (default XRESOURCE_NONE child); put_i16 12 dst_x; put_i16 14 dst_y].
Definition encode_selection_owner (sequence : Z) (owner : option XResourceId) : option (list Z) :=
  short sequence [put_u32 8 (from_option raw_of 0 owner)].
Definition encode_alloc_named_color (sequence pixel red green blue : Z) : option (list Z) :=
  short sequence [put_u32 8 pixel; put_u16 12 red; put_u16 14 green; put_u16 16 blue; put_u16 18 red; put_u16 20 green;
    put_u16 22 blue].
Definition encode_alloc_color (sequence pixel red green blue : Z) : option (list Z) :=
  short sequence [put_u16 8 red; put_u16 10 green; put_u16 12 blue; put_u32 16 pixel].
Definition encode_best_size (sequence width height : Z) : option (list Z) :=
  short sequence [put_u16 8 width; put_u16 10 height].

Definition encode_x_client_reply (client_reply : XClientReply) : option (list Z) :=
  match client_reply with
  | ReplyGrabStatus sequence status => short sequence [put_u8 1 status]
  | ReplyInternAtom sequence atom => short sequence [put_u32 8 atom]
  | ReplyGetAtomName sequence name => encode_get_atom_name sequence name
  | ReplyGetGeometry sequence depth root geometry border_width => encode_get_geometry sequence depth root geometry border_width
  | ReplyGetImage sequence depth visual data => encode_get_image sequence depth visual data
  | ReplyQueryTree sequence root parent children => encode_query_tree sequence root parent children
  | ReplyGetWindowAttributes sequence visual colormap map_state override_redirect =>
      encode_get_window_attributes sequence visual colormap map_state override_redirect
  | ReplyQueryExtension sequence present major_opcode first_event first_error => encode_query_extension sequence present major_opcode first_event first_error
  | ReplyListExtensions sequence => short sequence [put_u8 1 0]
  | ReplyListFonts sequence names => encode_list_fonts sequence names
  | ReplyListFontsWithInfo sequence names => encode_list_fonts_with_info sequence names
  | ReplyQueryBestSize sequence width height => encode_best_size sequence width height
  | ReplyShmQueryVersion sequence major_version minor_version shared_pixmaps pixmap_format => encode_shm_version sequence major_version minor_version shared_pixmaps pixmap_format
  | ReplyDri3QueryVersion sequence major_version minor_version | ReplyXfixesQueryVersion sequence major_version minor_version
  | ReplyPresentQueryVersion sequence major_version minor_version | ReplyRandrQueryVersion sequence major_version minor_version
  | ReplyGlxQueryVersion sequence major_version minor_version =>
      short sequence [put_u32 8 major_version; put_u32 12 minor_version]
  | ReplyDri3Open sequence => short sequence [put_u8 1 1]
  | ReplyDri3GetSupportedModifiers sequence window_modifiers screen_modifiers =>
      encode_dri3_modifiers sequence window_modifiers screen_modifiers
  | ReplyPresentQueryCapabilities sequence capabilities => short sequence [put_u32 8 capabilities]
  | ReplyRandrGetScreenSizeRange sequence min_width min_height max_width max_height => encode_screen_size_range sequence min_width min_height max_width max_height
  | ReplyRandrGetCrtcGammaSize sequence size => short sequence [put_u16 8 size]
  | ReplyRandrGetScreenResources sequence timestamp crtcs outputs modes =>
      encode_screen_resources sequence timestamp crtcs outputs modes
  | ReplyRandrGetOutputInfo sequence timestamp crtc mm_width mm_height crtcs modes name =>
      encode_output_info sequence timestamp crtc mm_width mm_height crtcs modes name
  | ReplyRandrGetOutputProperty sequence property_type bytes_after format data =>
      encode_output_property sequence property_type bytes_after format data
  | ReplyRandrGetCrtcInfo sequence timestamp x y width height mode outputs =>
      encode_crtc_info sequence timestamp x y width height mode outputs
  | ReplyRandrGetOutputPrimary sequence output => short sequence [put_u32 8 output]
  | ReplyRandrGetProviders sequence timestamp => short sequence [put_u32 8 timestamp; put_u16 12 0]
  | ReplyRandrGetMonitors sequence timestamp monitors => encode_monitors sequence timestamp monitors
  | ReplyXkbUseExtension sequence supported server_major server_minor => encode_use_extension sequence supported server_major server_minor
  | ReplyGlxString sequence value => encode_glx_string sequence value
  | ReplyGlxVisualConfigs sequence configs => encode_visual_configs sequence configs
  | ReplyGlxFbConfigs sequence configs => encode_fb_configs sequence configs
  | ReplyGlxIsDirect sequence direct => short sequence [put_bool 8 direct]
  | ReplyGlxDrawableAttributes sequence attributes => encode_drawable_attributes sequence attributes
  | ReplySyncInitialize sequence major_version minor_version => encode_sync_initialize sequence major_version minor_version
  | ReplyXkbGetMap sequence present keysyms modifier_map => encode_xkb_map sequence present keysyms modifier_map
  | ReplyXkbGetCompatMap sequence device_id | ReplyXkbGetIndicatorMap sequence device_id =>
      short sequence [put_u8 1 device_id]
  | ReplyXkbGetState sequence modifiers => encode_xkb_state sequence modifiers
  | ReplyXkbGetControls sequence => encode_xkb_controls sequence
  | ReplyXkbGetNames sequence which min_keycode max_keycode component_atoms type_atoms key_names =>
      encode_xkb_names sequence which min_keycode max_keycode component_atoms type_atoms key_names
  | ReplyXkbGetDeviceInfo sequence device_id supported unsupported => encode_xkb_device_info sequence device_id supported unsupported
  | ReplyXkbPerClientFlags sequence supported value => encode_per_client_flags sequence supported value
  | ReplyXiQueryVersion sequence major_version minor_version => encode_xi_version sequence major_version minor_version
  | ReplyGeQueryVersion sequence major_version minor_version => encode_ge_version sequence major_version minor_version
  | ReplyXiGetClientPointer sequence device_id => encode_client_pointer sequence device_id
  | ReplyXiGetExtensionVersion sequence server_major server_minor => encode_xi_extension_version sequence server_major server_minor
  | ReplyXiQueryDevice sequence devices => encode_query_device sequence devices
  | ReplyXiQueryPointer sequence root child => encode_xi_query_pointer sequence root child
  | ReplyXiGetFocus sequence focus => short sequence [put_u8 1 X_INPUT_GET_FOCUS_MINOR_OPCODE; put_resource 8 focus]
  | ReplyXiGetProperty sequence => short sequence [put_u8 1 X_INPUT_GET_PROPERTY_MINOR_OPCODE]
  | ReplyBigRequestsEnable sequence maximum_request_length => short sequence [put_u32 8 maximum_request_length]
  | ReplyGetInputFocus sequence focus revert_to => encode_get_input_focus sequence focus revert_to
  | ReplyQueryPointer sequence root child root_x root_y win_x win_y mask => encode_query_pointer sequence root child root_x root_y win_x win_y mask
  | ReplyGetModifierMapping sequence keycodes_per_modifier keycodes =>
      encode_modifier_mapping sequence keycodes_per_modifier keycodes
  | ReplyGetKeyboardMapping sequence keysyms_per_keycode keysyms => encode_keyboard_mapping sequence keysyms_per_keycode keysyms
  | ReplyGetKeyboardControl sequence => encode_keyboard_control sequence
  | ReplyTranslateCoordinates sequence same_screen child dst_x dst_y => encode_translate_coordinates sequence same_screen child dst_x dst_y
  | ReplyQueryFont sequence font_ascent font_descent => encode_font_info_reply sequence font_ascent font_descent []
  | ReplyGetProperty sequence property_type format bytes_after item_count bytes =>
      encode_get_property sequence property_type format bytes_after item_count bytes
  | ReplyGetSelectionOwner sequence owner => encode_selection_owner sequence owner
  | ReplyAllocNamedColor sequence pixel red green blue => encode_alloc_named_color sequence pixel red green blue
  | ReplyAllocColor sequence pixel red green blue => encode_alloc_color sequence pixel red green blue
  | ReplyListProperties sequence atoms => encode_list_properties sequence atoms
  | ReplyQueryColors sequence pixels => encode_query_colors sequence pixels
  end.
Definition encode_x_client_output (output : XClientOutput) : option (list Z) :=
  match output with
  | OutError error => encode_x_client_error error
  | OutEvent event => encode_x_client_event event
  | OutReply reply => encode_x_client_reply reply
  end.
(** [XDispatchResult::encoded_outputs] *)
Definition encoded_outputs (outputs : list XClientOutput) : option (list (list Z)) := mapM encode_x_client_output outputs.
End encode.
