(* ===== verification/XMessages.v ===== *)
(** * What clients read
    ([sophia-x-authority/src/client_output.rs])

    A client that reads its connection as the protocol says finds the messages it was sent. *)

From S2P Require Import Prelude Ids Geometry Packets Text.
From S2P Require Import XAtoms XTables XProperties XSelections XInputGrabs XSoftware XState XRuntime XResources XRelease XDraws.
From S2P Require Import XProtocol XKeyboard XWire XDecode XDispatch XServing XSetup XEncode.
From stdpp Require Import strings.
Local Open Scope Z_scope.

(** Bytes sent one after the other. *)
Notation stream_of := (mjoin (M := list) (A := Z)).

(** ** Reading messages *)

Section messages.
  Context (order : XByteOrder).

(** What a client takes from its connection: 32 bytes, and for replies and generic events as many
    words more as they announce. *)
Definition message_kind (m : list Z) : Z := default 0 (head m).
Definition message_sequence (m : list Z) : Z := ordered order (take 2 (drop 2 m)).
Definition message_length (m : list Z) : Z :=
  if decide (message_kind m = 1 ∨ Z.land (message_kind m) 127 = 35) then 32 + 4 * ordered order (take 4 (drop 4 m)) else 32.
Fixpoint read_messages_fuel (fuel : nat) (stream : list Z) : option (list (list Z)) :=
  match fuel, stream with
  | _, [] => Some []
  | O, _ => None
  | S fuel, _ =>
      if decide (str_len stream < 32) then None
      else
        let n := message_length stream in
        if decide (str_len stream < n) then None
        else cons (take (Z.to_nat n) stream) <$> read_messages_fuel fuel (drop (Z.to_nat n) stream)
  end.
Definition read_messages (stream : list Z) : option (list (list Z)) := read_messages_fuel (length stream) stream.

Definition framed (m : list Z) : Prop := 32 ≤ str_len m ∧ message_length m = str_len m.

Lemma message_length_prefix m rest : 8 ≤ str_len m → message_length (m ++ rest) = message_length m.
Proof.
  intros Hm. unfold message_length, message_kind. assert (0 < length m)%nat by (unfold str_len in Hm; lia).
  rewrite drop_app_le, take_app_le by (rewrite ?length_drop; unfold str_len in Hm; lia).
  by destruct m.
Qed.
Lemma read_messages_framed fuel ms :
  Forall framed ms → (length (mjoin ms) ≤ fuel)%nat → read_messages_fuel fuel (mjoin ms) = Some ms.
Proof.
  revert fuel. induction ms as [|m ms IH]; intros fuel Hms Hf; [by destruct fuel|].
  apply Forall_cons in Hms as [[Hm Hl] Hms]. simpl in *. rewrite length_app in Hf.
  assert (32 ≤ length m)%nat as Hm' by (unfold str_len in Hm; lia).
  destruct fuel as [|fuel]; [lia|]. destruct (m ++ mjoin ms) as [|b l] eqn:E; [by destruct m|]. rewrite <-E. clear b l E.
  cbn [read_messages_fuel]. rewrite message_length_prefix by lia. rewrite Hl.
  rewrite !decide_False by (unfold str_len; rewrite length_app; lia).
  unfold str_len. rewrite Nat2Z.id, take_app_length, drop_app_length. destruct (m ++ mjoin ms) eqn:E; [by destruct m|].
  rewrite IH by (done || lia). done.
Qed.
(** *** How a message starts *)

(** The first byte, some detail, and the bytes [tail] after it. *)
Definition headed (kind : Z) (tail m : list Z) : Prop := ∃ detail rest, m = kind :: detail :: tail ++ rest.
(** Fields that leave the head alone, but for the detail. *)
Definition beside (tail : list Z) (n : Z) (f : Field) : Prop :=
  (2 + str_len tail ≤ f.1 ∨ f.1 = 1 ∧ length f.2 = 1%nat) ∧ f.1 + str_len f.2 ≤ n.

Lemma put_inside out i bytes :
  0 ≤ i → i + str_len bytes ≤ str_len out → ∃ out', put out (i, bytes) = Some out' ∧ str_len out' = str_len out.
Proof.
  intros Hi Hb. unfold put. simpl. rewrite decide_True by lia. eexists. split; [done|].
  unfold str_len in *. rewrite !length_app, length_take, length_drop. lia.
Qed.
Lemma put_between pre old post i bytes :
  str_len pre = i → length bytes = length old → put (pre ++ old ++ post) (i, bytes) = Some (pre ++ bytes ++ post).
Proof.
  intros <- Hb. unfold put, str_len. simpl. rewrite decide_True by (rewrite !length_app; lia).
  rewrite Nat2Z.id, take_app_length, <-Nat2Z.inj_add, Nat2Z.id, Hb. f_equal. f_equal. f_equal.
  by rewrite (assoc_L (++)), drop_app_length' by (by rewrite length_app).
Qed.
Lemma put_headed kind tail m f :
  headed kind tail m → beside tail (str_len m) f → ∃ m', put m f = Some m' ∧ str_len m' = str_len m ∧ headed kind tail m'.
Proof.
  intros (detail & rest & ->) [Hf Hl]. destruct f as [i bytes]. simpl in *. destruct Hf as [Hi|[-> Hb]].
  - unfold put. simpl. rewrite decide_True by (unfold str_len in *; lia). eexists. split; [done|]. split.
    + unfold str_len in *. rewrite !length_app, length_take, length_drop. lia.
    + exists detail. eexists. change (kind :: detail :: tail ++ rest) with ((kind :: detail :: tail) ++ rest).
      rewrite take_app_ge by (unfold str_len in Hi; simpl; lia). by rewrite <-(assoc_L (++)).
  - destruct bytes as [|b [|]]; try done. exists (kind :: b :: tail ++ rest).
    rewrite (put_between [kind] [detail] (tail ++ rest)) by done. split; [done|]. split; [done|]. by exists b, rest.
Qed.
Lemma puts_headed kind tail m fs :
  headed kind tail m → Forall (beside tail (str_len m)) fs →
  ∃ m', puts m fs = Some m' ∧ str_len m' = str_len m ∧ headed kind tail m'.
Proof.
  intros Hm Hfs. revert m Hm Hfs. induction fs as [|f fs IH]; intros m Hm Hfs; [by exists m|].
  apply Forall_cons in Hfs as [Hf Hfs]. destruct (put_headed _ _ _ _ Hm Hf) as (m1 & E & Hl & Hm1). simpl. rewrite E. simpl.
  rewrite <-Hl in Hfs. destruct (IH m1 Hm1 Hfs) as (m' & E' & Hl' & Hm'). exists m'. split; [done|]. split; [congruence|done].
Qed.
Lemma puts_app m fs gs : puts m (fs ++ gs) = puts m fs ≫= λ m, puts m gs.
Proof.
  revert m. induction fs as [|f fs IH]; intros m; [done|]. simpl. destruct (put m f); [apply IH|done].
Qed.
Lemma zeros_split n k : 0 ≤ k ≤ n → zeros n = replicate (Z.to_nat k) 0 ++ zeros (n - k).
Proof. intros Hk. unfold zeros. rewrite <-replicate_add. f_equal. lia. Qed.
Lemma str_len_zeros n : 0 ≤ n → str_len (zeros n) = n.
Proof. intros Hn. unfold str_len, zeros. rewrite length_replicate. lia. Qed.

Notation u16 := (push_u16 order).
Notation u32 := (push_u32 order).
Lemma str_len_u16 z : str_len (u16 z) = 2.
Proof. unfold str_len. by rewrite length_push_u16. Qed.
Lemma str_len_u32 z : str_len (u32 z) = 4.
Proof. unfold str_len. by rewrite length_push_u32. Qed.
Lemma str_len_nil : str_len [] = 0.
Proof. done. Qed.
Lemma str_len_cons b l : str_len (b :: l) = 1 + str_len l.
Proof. unfold str_len. simpl. lia. Qed.
Lemma str_len_in_order n z : str_len (in_order order (to_le_bytes n z)) = Z.of_nat n.
Proof. unfold str_len. by rewrite length_in_order, length_to_le_bytes. Qed.
Lemma str_len_replicate n b : str_len (replicate n b) = Z.of_nat n.
Proof. unfold str_len. by rewrite length_replicate. Qed.
(** Pieces of one length each. *)
Lemma str_len_mjoin {A} (f : A → list Z) k l : (∀ a, str_len (f a) = k) → str_len (mjoin (f <$> l)) = k * Z.of_nat (length l).
Proof. intros Hf. induction l as [|a l IH]; [simpl; unfold str_len; simpl; lia|]. rewrite fmap_cons. simpl. rewrite str_len_app, IH, Hf. lia. Qed.
Lemma str_len_mjoin_with {A} (f : A → list Z) (g : A → nat) l :
  (∀ a, str_len (f a) = Z.of_nat (g a)) → str_len (mjoin (f <$> l)) = Z.of_nat (sum_list_with g l).
Proof. intros Hf. induction l as [|a l IH]; [done|]. rewrite fmap_cons. change (mjoin (f a :: (f <$> l))) with (f a ++ mjoin (f <$> l)). rewrite str_len_app, IH, Hf. simpl. lia. Qed.
Lemma str_len_u32s l : str_len (u32s order l) = 4 * Z.of_nat (length l).
Proof. apply str_len_mjoin, str_len_u32. Qed.
Lemma str_len_pairs l : str_len (pairs order l) = 8 * Z.of_nat (length l).
Proof.
  unfold pairs. rewrite str_len_u32s. assert (str_len (mjoin ((λ p : Z * Z, [p.1; p.2]) <$> l)) = 2 * Z.of_nat (length l)) as E.
  { by apply str_len_mjoin. } unfold str_len in E. lia.
Qed.

(** *** Replies *)

Lemma reply_header n sequence units :
  8 ≤ n → puts (zeros n) (write_reply_header order sequence units) = Some ([1; 0] ++ u16 sequence ++ u32 units ++ zeros (n - 8)).
Proof.
  intros Hn. rewrite (zeros_split n 8) by lia. set (z := zeros (n - 8)). unfold write_reply_header, put_u8, put_u16, put_u32.
  cbn [puts]. change (replicate (Z.to_nat 8) 0 ++ z) with ([] ++ [0] ++ ([0; 0; 0; 0; 0; 0; 0] ++ z)).
  rewrite put_between by done. cbn [mbind option_bind].
  change ([] ++ [1] ++ ([0; 0; 0; 0; 0; 0; 0] ++ z)) with ([1; 0] ++ [0; 0] ++ ([0; 0; 0; 0] ++ z)).
  rewrite put_between by (done || by rewrite length_push_u16). cbn [mbind option_bind]. rewrite (assoc_L (++)).
  rewrite put_between; [by rewrite <-(assoc_L (++))|by rewrite str_len_app, str_len_u16|by rewrite length_push_u32].
Qed.
Lemma reply_headed n sequence units fs :
  8 ≤ n → Forall (beside (u16 sequence ++ u32 units) n) fs →
  ∃ m, reply order n sequence units fs = Some m ∧ str_len m = n ∧ headed 1 (u16 sequence ++ u32 units) m.
Proof.
  intros Hn Hfs. unfold reply, record. rewrite puts_app, reply_header by done. cbn [mbind option_bind].
  set (m := [1; 0] ++ _). assert (str_len m = n) as Hm.
  { unfold m. rewrite !str_len_app, str_len_u16, str_len_u32, str_len_zeros, !str_len_cons, str_len_nil by lia. lia. }
  rewrite <-Hm in Hfs. destruct (puts_headed 1 (u16 sequence ++ u32 units) m fs) as (m' & E & Hl & Hm'); [|done|].
  - exists 0, (zeros (n - 8)). unfold m. by rewrite <-!(assoc_L (++)).
  - exists m'. split; [done|]. split; [congruence|done].
Qed.
(** A reply of the sequence number, as long as it says. *)
Definition reply_of (sequence : Z) (m : list Z) : Prop := framed m ∧ message_kind m = 1 ∧ message_sequence m = sequence.
Lemma headed_long kind sequence units m :
  headed kind (u16 sequence ++ u32 units) m → kind = 1 ∨ Z.land kind 127 = 35 → u16_ok sequence → u32_ok units →
  str_len m = 32 + 4 * units → framed m ∧ message_kind m = kind ∧ message_sequence m = sequence.
Proof.
  intros (detail & rest & E) Hkind Hs Hu Hm.
  assert (message_kind m = kind ∧ message_sequence m = sequence ∧ ordered order (take 4 (drop 4 m)) = units) as (Hk & Hq & Hl).
  { subst m. unfold message_kind, message_sequence. split; [done|]. rewrite <-(assoc_L (++)). simpl drop. split.
    - rewrite drop_0, take_app_le, take_ge by (rewrite length_push_u16; lia). unfold push_u16. rewrite ordered_in_order.
      apply from_to_le_bytes. word_lia.
    - rewrite drop_app_ge, length_push_u16, Nat.sub_diag, drop_0 by (rewrite length_push_u16; lia).
      rewrite take_app_le, take_ge by (rewrite length_push_u32; lia). unfold push_u32. rewrite ordered_in_order.
      apply from_to_le_bytes. word_lia. }
  split; [|done]. unfold framed, message_length. rewrite Hk, decide_True, Hl by done. split; word_lia.
Qed.
Lemma headed_reply sequence units m :
  headed 1 (u16 sequence ++ u32 units) m → u16_ok sequence → u32_ok units → str_len m = 32 + 4 * units → reply_of sequence m.
Proof. intros Hm Hs Hu Hl. eapply headed_long; eauto. Qed.
(** A reply written into one record, whose fields leave its head alone. *)
Lemma reply_message n sequence units fs :
  u16_ok sequence → u32_ok units → n = 32 + 4 * units → Forall (beside (u16 sequence ++ u32 units) n) fs →
  ∃ m, reply order n sequence units fs = Some m ∧ reply_of sequence m.
Proof.
  intros Hs Hu Hn Hfs. destruct (reply_headed n sequence units fs) as (m & E & Hl & Hm); [word_lia|done|].
  exists m. split; [done|]. eapply headed_reply; [done..|congruence].
Qed.
(** A reply whose body follows its record. *)
Lemma reply_message_body sequence units fs body :
  u16_ok sequence → u32_ok units → str_len body = 4 * units → Forall (beside (u16 sequence ++ u32 units) 32) fs →
  ∃ m, (out ← reply order 32 sequence units fs; Some (out ++ body)) = Some m ∧ reply_of sequence m.
Proof.
  intros Hs Hu Hn Hfs. destruct (reply_headed 32 sequence units fs) as (m & E & Hl & (d & r & Hm)); [lia|done|].
  rewrite E. exists (m ++ body). split; [done|]. apply (headed_reply sequence units); [|done..|rewrite str_len_app; lia].
  exists d, (r ++ body). rewrite Hm. simpl. by rewrite <-(assoc_L (++)).
Qed.

(** *** Events *)

Lemma event_header n event_type detail sequence :
  4 ≤ n → puts (zeros n) (write_event_header order event_type detail sequence) =
          Some ([event_type; detail] ++ u16 sequence ++ zeros (n - 4)).
Proof.
  intros Hn. rewrite (zeros_split n 4) by lia. set (z := zeros (n - 4)). unfold write_event_header, put_u8, put_u16.
  cbn [puts]. change (replicate (Z.to_nat 4) 0 ++ z) with ([] ++ [0] ++ ([0; 0; 0] ++ z)).
  rewrite put_between by done. cbn [mbind option_bind]. change ([] ++ [event_type] ++ ([0; 0; 0] ++ z)) with ([event_type] ++ [0] ++ ([0; 0] ++ z)).
  rewrite put_between by done. cbn [mbind option_bind]. change ([event_type] ++ [detail] ++ ([0; 0] ++ z)) with ([event_type; detail] ++ [0; 0] ++ z).
  by rewrite put_between by (done || by rewrite length_push_u16).
Qed.
(** A message that is no reply. *)
Definition event_of (kind sequence : Z) (m : list Z) : Prop := framed m ∧ message_kind m = kind ∧ message_sequence m = sequence.
Lemma headed_event kind sequence m :
  headed kind (u16 sequence) m → kind ≠ 1 → Z.land kind 127 ≠ 35 → u16_ok sequence → str_len m = 32 → event_of kind sequence m.
Proof.
  intros (detail & rest & E) H1 H35 Hs Hm. unfold event_of. assert (message_kind m = kind ∧ message_sequence m = sequence) as [Hk Hq].
  { subst m. unfold message_kind, message_sequence. split; [done|]. simpl drop.
    rewrite drop_0, take_app_le, take_ge by (rewrite length_push_u16; lia). unfold push_u16. rewrite ordered_in_order.
    apply from_to_le_bytes. word_lia. }
  split; [|done]. unfold framed, message_length. rewrite Hk, decide_False by tauto. lia.
Qed.
Lemma event_message event_type detail sequence fs :
  event_type ≠ 1 → Z.land event_type 127 ≠ 35 → u16_ok sequence → Forall (beside (u16 sequence) 32) fs →
  ∃ m, record 32 (write_event_header order event_type detail sequence ++ fs) = Some m ∧ event_of event_type sequence m.
Proof.
  intros H1 H35 Hs Hfs. unfold record. rewrite puts_app, event_header by lia. cbn [mbind option_bind].
  set (m := [event_type; detail] ++ _). assert (str_len m = 32) as Hm.
  { unfold m. rewrite !str_len_app, str_len_u16, str_len_zeros, !str_len_cons, str_len_nil by lia. lia. }
  rewrite <-Hm in Hfs. destruct (puts_headed event_type (u16 sequence) m fs) as (m' & E & Hl & Hm'); [|done|].
  - exists detail, (zeros (32 - 4)). done.
  - exists m'. split; [done|]. apply headed_event; try done. congruence.
Qed.

(** *** What fits *)

(** The bytes of the replies that have a body of variable length; the fields that count them have 32 bits. *)
Definition reply_body_len (client_reply : XClientReply) : Z :=
  let bytes {A} (f : A → nat) l := Z.of_nat (sum_list_with f l) in
  match client_reply with
  | ReplyGetAtomName _ l | ReplyGetImage _ _ _ l | ReplyRandrGetOutputProperty _ _ _ _ l | ReplyGetModifierMapping _ _ l
  | ReplyGetProperty _ _ _ _ _ l => str_len l
  | ReplyGlxString _ l => str_len l + 1
  | ReplyQueryTree _ _ _ l => 4 * Z.of_nat (length l)
  | ReplyGetKeyboardMapping _ _ l | ReplyListProperties _ l => 4 * str_len l
  | ReplyRandrGetCrtcInfo _ _ _ _ _ _ _ l | ReplyQueryColors _ l => 8 * str_len l
  | ReplyListFonts _ l => bytes (λ name, 1 + length name)%nat l
  | ReplyListFontsWithInfo _ l => bytes length l
  | ReplyDri3GetSupportedModifiers _ l k => 8 * (str_len l + str_len k)
  | ReplyRandrGetScreenResources _ _ crtcs outputs modes =>
      4 * str_len crtcs + 4 * str_len outputs + 32 * Z.of_nat (length modes) + bytes (λ mode, length (rm_name mode)) modes
  | ReplyRandrGetOutputInfo _ _ _ _ _ crtcs modes name => 4 * str_len crtcs + 4 * str_len modes + str_len name
  | ReplyRandrGetMonitors _ _ l => bytes (λ monitor, 24 + length (ro_outputs monitor) * 4)%nat l
  | ReplyGlxVisualConfigs _ l => 72 * Z.of_nat (length l)
  | ReplyGlxFbConfigs _ l => 8 * Z.of_nat (length l) * Z.of_nat (from_option length 0%nat (head l))
  | ReplyGlxDrawableAttributes _ l => 8 * Z.of_nat (length l)
  | ReplyXkbGetMap _ present keysyms modifier_map => str_len (xkb_map_body order present keysyms modifier_map)
  | ReplyXkbGetNames _ which _ _ component_atoms type_atoms key_names =>
      str_len (xkb_names_body order which component_atoms type_atoms key_names)
  | ReplyXiQueryDevice _ devices => from_option str_len 0 (push_devices order [] devices)
  | _ => 0
  end.
(** Arrays have their length, configurations the same attributes, and buttons can be counted. *)
Definition reply_shape (client_reply : XClientReply) : Prop :=
  match client_reply with
  | ReplyGlxVisualConfigs _ l => Forall (λ config, length config = 18%nat) l
  | ReplyGlxFbConfigs _ l => Forall (λ config, length config = from_option length 0%nat (head l)) l
  | ReplyXkbGetNames _ _ _ _ _ _ key_names => Forall (λ name, length name = 4%nat) key_names
  | ReplyXiQueryDevice _ devices =>
      Forall (λ device, Forall (λ class, match class with ClassButton _ n => 0 ≤ n ≤ u16_MAX - 3 | _ => True end) (xi_classes device)) devices
  | _ => True
  end.
(** A client message is 32 bytes, and does not pretend to be longer, or a reply. *)
Definition event_shape (event : XClientEvent) : Prop :=
  match event with
  | EventClientMessage _ bytes =>
      str_len bytes = 32 ∧ 1 < message_kind bytes ∧ Z.land (message_kind bytes) 127 ≠ 35
  | _ => True
  end.
Definition output_fits (output : XClientOutput) : Prop :=
  u16_ok (output_sequence output) ∧
  match output with
  | OutError _ => True
  | OutEvent event => event_shape event
  | OutReply client_reply => reply_body_len client_reply ≤ u32_MAX ∧ reply_shape client_reply
  end.

(** *** Every reply is a message *)

Lemma try_or_in d z : 0 ≤ z ≤ u32_MAX → try_or 0 u32_MAX d z = z.
Proof. intros H. unfold try_or. by rewrite decide_True. Qed.
Lemma as_unsigned_in z : 0 ≤ z ≤ u32_MAX → as_unsigned 32 z = z.
Proof. intros H. unfold as_unsigned. apply Z.mod_small. word_lia. Qed.
Lemma saturating_in a b : 0 ≤ a * b ≤ u32_MAX → saturating_mul usize_MAX a b = a * b.
Proof. intros H. unfold saturating_mul. word_lia. Qed.
Lemma padded_words n : 0 ≤ n ≤ u32_MAX → ∃ k, padded_len n = 4 * k ∧ n ≤ 4 * k ∧ 0 ≤ k ≤ u32_MAX.
Proof.
  intros Hn. exists ((n + 3) / 4). pose proof (padded_len_le n) as Hp. rewrite padded_len_eq in *.
  pose proof (Z.div_pos (n + 3) 4). pose proof (Z.mul_div_le (n + 3) 4). word_lia.
Qed.
Lemma words_of k : 4 * k / 4 = k.
Proof. rewrite Z.mul_comm. by apply Z.div_mul. Qed.

Lemma str_len_nonneg l : 0 ≤ str_len l.
Proof. unfold str_len. lia. Qed.
Lemma beside_words sequence units n i bytes :
  8 ≤ i → i + str_len bytes ≤ n → beside (u16 sequence ++ u32 units) n (i, bytes).
Proof. intros Hi Hn. split; [left|done]. simpl. rewrite str_len_app, str_len_u16, str_len_u32. lia. Qed.
Lemma beside_detail sequence units n b : 2 ≤ n → beside (u16 sequence ++ u32 units) n (1, [b]).
Proof. intros Hn. split; [by right|]. simpl. unfold str_len. simpl. lia. Qed.
Lemma beside_event q n i bytes : 4 ≤ i → i + str_len bytes ≤ n → beside (u16 q) n (i, bytes).
Proof. intros Hi Hn. split; [left|done]. simpl. rewrite str_len_u16. lia. Qed.
End messages.
#[export] Hint Rewrite str_len_app str_len_u16 str_len_u32 str_len_cons str_len_nil str_len_u32s str_len_pairs str_len_in_order
  str_len_replicate @length_app @length_fmap : messages.
Ltac field_tac :=
  unfold put_bool, put_resource, put_u8, put_u16, put_i16, put_u32, put_u64, X_CLIENT_OUTPUT_RECORD_LEN;
  first [apply beside_detail; lia|apply beside_words; autorewrite with messages; lia].
Ltac fields_tac := repeat (apply Forall_cons_2; [field_tac|]); apply Forall_nil_2.
(** A reply in one record of [32 + 4 * units] bytes. *)
Ltac reply_tac := apply reply_message; [done|first [done|unfold u32_ok; lia]|unfold X_CLIENT_OUTPUT_RECORD_LEN; lia|fields_tac].
(** Fields inside a record of known length. *)
Ltac bounds_tac :=
  repeat (apply Forall_cons_2; [split; unfold put_bool, put_resource, put_u8, put_u16, put_i16, put_u32, put_u64; simpl;
                                autorewrite with messages; lia|]); apply Forall_nil_2.
(** An event in one record of 32 bytes. *)
Ltac event_fields_tac :=
  repeat (apply Forall_cons_2; [unfold put_bool, put_resource, put_u8, put_u16, put_i16, put_u32, put_u64;
                                apply beside_event; autorewrite with messages; lia|]); apply Forall_nil_2.

Section replies.
  Context (order : XByteOrder).
  Notation u16 := (push_u16 order).
  Notation u32 := (push_u32 order).
  (** The reply is written, is one message, and has the sequence number. *)
  Notation written q r := (∃ m, r = Some m ∧ reply_of order q m).

Lemma mapM_records {A} (f : A → option (list Z)) (g : A → nat) l :
  (∀ a, ∃ r, f a = Some r ∧ str_len r = Z.of_nat (g a)) →
  ∃ rs, mapM f l = Some rs ∧ str_len (mjoin rs) = Z.of_nat (sum_list_with g l).
Proof.
  intros Hf. induction l as [|a l (rs & E & Hl)]; [by exists []|]. destruct (Hf a) as (r & Ea & Ha). exists (r :: rs). simpl.
  rewrite Ea. simpl. rewrite E. simpl. split; [done|]. rewrite str_len_app. lia.
Qed.
Lemma puts_length m fs :
  Forall (λ f : Field, 0 ≤ f.1 ∧ f.1 + str_len f.2 ≤ str_len m) fs → ∃ m', puts m fs = Some m' ∧ str_len m' = str_len m.
Proof.
  intros Hfs. revert m Hfs. induction fs as [|[i bytes] fs IH]; intros m Hfs; [by exists m|].
  apply Forall_cons in Hfs as [[Hi Hb] Hfs]. destruct (put_inside m i bytes Hi Hb) as (m1 & E & Hl). simpl. rewrite E. simpl.
  rewrite <-Hl in Hfs. destruct (IH m1 Hfs) as (m' & E' & Hl'). exists m'. split; [done|congruence].
Qed.
Lemma record_length n fs :
  0 ≤ n → Forall (λ f : Field, 0 ≤ f.1 ∧ f.1 + str_len f.2 ≤ n) fs → ∃ m, record n fs = Some m ∧ str_len m = n.
Proof. intros Hn Hfs. destruct (puts_length (zeros n) fs) as (m & E & Hm); rewrite str_len_zeros in *; eauto. Qed.

(** *** Bytes padded to words *)

Lemma get_atom_name_written q name : u16_ok q → str_len name ≤ u32_MAX → written q (encode_get_atom_name order q name).
Proof.
  intros Hq Hn. unfold encode_get_atom_name. destruct (padded_words (str_len name)) as (k & -> & ? & ?); [split; [apply str_len_nonneg|lia]|].
  rewrite words_of, try_or_in by lia. reply_tac.
Qed.
Lemma get_image_written q depth visual l : u16_ok q → str_len l ≤ u32_MAX → written q (encode_get_image order q depth visual l).
Proof.
  intros Hq Hn. unfold encode_get_image. destruct (padded_words (str_len l)) as (k & -> & ? & ?); [split; [apply str_len_nonneg|lia]|].
  rewrite words_of, try_or_in by lia. reply_tac.
Qed.
Lemma output_property_written q a b f l : u16_ok q → str_len l ≤ u32_MAX → written q (encode_output_property order q a b f l).
Proof.
  intros Hq Hn. unfold encode_output_property. destruct (padded_words (str_len l)) as (k & -> & ? & ?); [split; [apply str_len_nonneg|lia]|].
  cbv zeta. rewrite words_of, as_unsigned_in by lia. reply_tac.
Qed.
Lemma modifier_mapping_written q n l : u16_ok q → str_len l ≤ u32_MAX → written q (encode_modifier_mapping order q n l).
Proof.
  intros Hq Hn. unfold encode_modifier_mapping. destruct (padded_words (str_len l)) as (k & -> & ? & ?); [split; [apply str_len_nonneg|lia]|].
  rewrite words_of, try_or_in by lia. reply_tac.
Qed.
Lemma get_property_written q t f a n l : u16_ok q → str_len l ≤ u32_MAX → written q (encode_get_property order q t f a n l).
Proof.
  intros Hq Hn. unfold encode_get_property. destruct (padded_words (str_len l)) as (k & -> & ? & ?); [split; [apply str_len_nonneg|lia]|].
  rewrite words_of, try_or_in by lia. reply_tac.
Qed.
Lemma glx_string_written q l : u16_ok q → str_len l + 1 ≤ u32_MAX → written q (encode_glx_string order q l).
Proof.
  intros Hq Hn. unfold encode_glx_string. destruct (padded_words (str_len (l ++ [0]))) as (k & -> & Hk & ?).
  { autorewrite with messages. pose proof (str_len_nonneg l). lia. }
  autorewrite with messages in Hk. rewrite words_of, try_or_in by lia. reply_tac.
Qed.
Lemma list_fonts_written q names :
  u16_ok q → Z.of_nat (sum_list_with (λ name, 1 + length name)%nat names) ≤ u32_MAX → written q (encode_list_fonts order q names).
Proof.
  intros Hq Hn. unfold encode_list_fonts. set (n := sum_list_with _ _) in *. destruct (padded_words (Z.of_nat n)) as (k & -> & ? & ?); [lia|].
  rewrite words_of, try_or_in by lia.
  assert (str_len (mjoin ((λ name, try_or 0 u8_MAX 0 (str_len name) :: name) <$> names)) = Z.of_nat n) as E.
  { apply str_len_mjoin_with. intros name. rewrite str_len_cons. unfold str_len. lia. }
  apply reply_message; [done|unfold u32_ok; lia|unfold X_CLIENT_OUTPUT_RECORD_LEN; lia|]. apply Forall_cons_2; [field_tac|]. apply Forall_cons_2; [|by apply Forall_nil_2].
  apply beside_words; [done|]. rewrite E. unfold X_CLIENT_OUTPUT_RECORD_LEN. lia.
Qed.
Lemma font_info_written q a d name : u16_ok q → str_len name ≤ u32_MAX → written q (encode_font_info_reply order q a d name).
Proof.
  intros Hq Hn. unfold encode_font_info_reply. destruct (padded_words (str_len name)) as (k & Hp & ? & ?); [split; [apply str_len_nonneg|lia]|].
  rewrite Hp, words_of. assert (k ≤ 2 ^ 30) as Hk.
  { rewrite padded_len_eq in Hp. pose proof (Z.mul_div_le (str_len name + 3) 4). word_lia. }
  rewrite try_or_in by word_lia. apply reply_message; [done|word_lia|lia|fields_tac].
Qed.

(** *** Words *)

Lemma query_tree_written q root parent l : u16_ok q → 4 * Z.of_nat (length l) ≤ u32_MAX → written q (encode_query_tree order q root parent l).
Proof.
  intros Hq Hn. unfold encode_query_tree. rewrite saturating_in by lia. rewrite Z.div_mul, try_or_in by lia. reply_tac.
Qed.
Lemma keyboard_mapping_written q n l : u16_ok q → 4 * str_len l ≤ u32_MAX → written q (encode_keyboard_mapping order q n l).
Proof.
  unfold str_len. intros Hq Hn. unfold encode_keyboard_mapping. rewrite saturating_in by lia. rewrite Z.div_mul, try_or_in by lia. reply_tac.
Qed.
Lemma list_properties_written q l : u16_ok q → 4 * str_len l ≤ u32_MAX → written q (encode_list_properties order q l).
Proof.
  unfold str_len. intros Hq Hn. unfold encode_list_properties. rewrite saturating_in by lia. rewrite try_or_in by lia. reply_tac.
Qed.
Lemma query_colors_written q l : u16_ok q → 8 * str_len l ≤ u32_MAX → written q (encode_query_colors order q l).
Proof.
  unfold str_len. intros Hq Hn. unfold encode_query_colors. rewrite saturating_in by lia.
  replace (Z.of_nat (length l) * 8) with (4 * (2 * Z.of_nat (length l))) by lia. rewrite words_of, try_or_in by lia.
  assert (str_len (mjoin (color_record order <$> l)) = 8 * Z.of_nat (length l)) as E.
  { apply str_len_mjoin. intros a. unfold color_record. autorewrite with messages. lia. }
  apply reply_message; [done|unfold u32_ok; lia|unfold X_CLIENT_OUTPUT_RECORD_LEN; lia|]. apply Forall_cons_2; [field_tac|]. apply Forall_cons_2; [|by apply Forall_nil_2].
  apply beside_words; [done|]. rewrite E. unfold X_CLIENT_OUTPUT_RECORD_LEN. lia.
Qed.
Lemma dri3_modifiers_written q l k : u16_ok q → 8 * (str_len l + str_len k) ≤ u32_MAX → written q (encode_dri3_modifiers order q l k).
Proof.
  unfold str_len. intros Hq Hn. unfold encode_dri3_modifiers.
  replace (saturating_add usize_MAX (Z.of_nat (length l)) (Z.of_nat (length k))) with (Z.of_nat (length (l ++ k)))
    by (unfold saturating_add; rewrite length_app; word_lia).
  assert (8 * Z.of_nat (length (l ++ k)) ≤ u32_MAX) by (rewrite length_app; lia). rewrite !saturating_in by lia.
  rewrite (try_or_in _ (_ * 2)) by lia.
  assert (str_len (mjoin ((λ modifier, in_order order (to_le_bytes 8 modifier)) <$> l ++ k)) = 8 * Z.of_nat (length (l ++ k))) as E.
  { apply str_len_mjoin. intros a. autorewrite with messages. lia. }
  apply reply_message; [done|unfold u32_ok; lia|unfold X_CLIENT_OUTPUT_RECORD_LEN; lia|].
  do 2 (apply Forall_cons_2; [field_tac|]). apply Forall_cons_2; [|by apply Forall_nil_2].
  apply beside_words; [done|]. rewrite E. unfold X_CLIENT_OUTPUT_RECORD_LEN. lia.
Qed.

(** *** RandR and GLX *)

Lemma mode_record_length mode : ∃ r, mode_record order mode = Some r ∧ str_len r = Z.of_nat 32.
Proof.
  unfold mode_record. apply record_length; [done|bounds_tac].
Qed.
Lemma screen_resources_written q t crtcs outputs modes :
  u16_ok q →
  4 * str_len crtcs + 4 * str_len outputs + 32 * Z.of_nat (length modes) + Z.of_nat (sum_list_with (λ mode, length (rm_name mode)) modes)
    ≤ u32_MAX → written q (encode_screen_resources order q t crtcs outputs modes).
Proof.
  intros Hq Hn. unfold encode_screen_resources.
  destruct (mapM_records (mode_record order) (λ _, 32%nat) modes mode_record_length) as (rs & -> & Hrs). cbn [mbind option_bind].
  set (names := sum_list_with _ _) in *. set (n := _ + Z.of_nat names).
  assert (str_len (mjoin rs) = 32 * Z.of_nat (length modes)) as Hm.
  { rewrite Hrs. clear. induction modes; simpl; lia. }
  assert (str_len (mjoin (rm_name <$> modes)) = Z.of_nat names) as Hnames by (by apply str_len_mjoin_with).
  destruct (padded_words n) as (k & -> & ? & ?); [unfold n; unfold str_len in *; lia|]. rewrite words_of, (try_or_in _ k) by lia.
  apply reply_message; [done|unfold u32_ok; lia|unfold X_CLIENT_OUTPUT_RECORD_LEN; lia|].
  do 6 (apply Forall_cons_2; [field_tac|]). apply Forall_cons_2; [|by apply Forall_nil_2].
  apply beside_words; [done|]. rewrite !str_len_app, str_len_u32s, Hm, Hnames, length_app.
  unfold X_CLIENT_OUTPUT_RECORD_LEN, n, str_len in *. lia.
Qed.
Lemma crtc_info_written q t x y w h m l : u16_ok q → 8 * str_len l ≤ u32_MAX → written q (encode_crtc_info order q t x y w h m l).
Proof.
  intros Hq Hn. pose proof (str_len_nonneg l). unfold encode_crtc_info. replace (str_len l * 8) with (4 * (2 * str_len l)) by lia.
  rewrite words_of, (as_unsigned_in (2 * str_len l)) by lia. unfold str_len in *. reply_tac.
Qed.
Lemma monitor_record_length monitor :
  ∃ r, monitor_record order monitor = Some r ∧ str_len r = Z.of_nat (24 + length (ro_outputs monitor) * 4).
Proof.
  unfold monitor_record.
  match goal with |- context [record 24 ?fs] => destruct (record_length 24 fs) as (m & -> & Hm) end; [done| |].
  - bounds_tac.
  - eexists. split; [done|]. rewrite str_len_app, str_len_u32s. lia.
Qed.
Lemma monitors_written q t l :
  u16_ok q → Z.of_nat (sum_list_with (λ monitor, 24 + length (ro_outputs monitor) * 4)%nat l) ≤ u32_MAX →
  written q (encode_monitors order q t l).
Proof.
  intros Hq Hn. unfold encode_monitors.
  destruct (mapM_records (monitor_record order) _ l monitor_record_length) as (rs & -> & Hrs). cbn [mbind option_bind].
  assert (∃ k, Z.of_nat (sum_list_with (λ monitor, 24 + length (ro_outputs monitor) * 4)%nat l) = 4 * k ∧ 0 ≤ k) as (k & Hk & ?).
  { clear. induction l as [|a l (k & IH & ?)]; [by exists 0|]. exists (6 + Z.of_nat (length (ro_outputs a)) + k).
    cbn [sum_list_with]. lia. }
  cbv zeta. rewrite Hk in *. rewrite words_of, (as_unsigned_in k) by lia.
  apply reply_message; [done|unfold u32_ok; lia|unfold X_CLIENT_OUTPUT_RECORD_LEN; lia|].
  do 3 (apply Forall_cons_2; [field_tac|]). apply Forall_cons_2; [|by apply Forall_nil_2].
  apply beside_words; [done|]. unfold X_CLIENT_OUTPUT_RECORD_LEN. lia.
Qed.
Lemma length_join_all {A} (a : nat) (l : list (list A)) : Forall (λ c, length c = a) l → length (mjoin l) = (length l * a)%nat.
Proof.
  induction 1 as [|c l Hc _ IH]; [done|]. change (mjoin (c :: l)) with (c ++ mjoin l). rewrite length_app, IH, Hc. simpl. lia.
Qed.
Lemma visual_configs_written q l :
  u16_ok q → 72 * Z.of_nat (length l) ≤ u32_MAX → Forall (λ config, length config = 18%nat) l → written q (encode_visual_configs order q l).
Proof.
  intros Hq Hn Hl. unfold encode_visual_configs. replace (_ * 18 * 4) with (4 * (18 * Z.of_nat (length l))) by lia.
  rewrite words_of, (as_unsigned_in (18 * _)) by lia.
  apply length_join_all in Hl.
  reply_tac.
Qed.
Lemma fb_configs_written q l :
  u16_ok q → 8 * Z.of_nat (length l) * Z.of_nat (from_option length 0%nat (head l)) ≤ u32_MAX →
  Forall (λ config, length config = from_option length 0%nat (head l)) l → written q (encode_fb_configs order q l).
Proof.
  intros Hq Hn Hl. unfold encode_fb_configs. set (a := from_option length 0%nat (head l)) in *.
  replace (_ * Z.of_nat a * 8) with (4 * (2 * (Z.of_nat (length l) * Z.of_nat a))) by lia.
  rewrite words_of, (as_unsigned_in (2 * _)) by lia.
  apply length_join_all in Hl.
  apply reply_message; [done|unfold u32_ok; lia|unfold X_CLIENT_OUTPUT_RECORD_LEN; lia|].
  do 2 (apply Forall_cons_2; [field_tac|]). apply Forall_cons_2; [|by apply Forall_nil_2].
  apply beside_words; [done|]. rewrite str_len_pairs. unfold X_CLIENT_OUTPUT_RECORD_LEN. lia.
Qed.
Lemma drawable_attributes_written q l :
  u16_ok q → 8 * Z.of_nat (length l) ≤ u32_MAX → written q (encode_drawable_attributes order q l).
Proof.
  intros Hq Hn. unfold encode_drawable_attributes. replace (_ * 8) with (4 * (2 * Z.of_nat (length l))) by lia.
  rewrite words_of, (as_unsigned_in (2 * _)) by lia. reply_tac.
Qed.
Lemma str_len_resize n l : 0 ≤ n → str_len (resize_bytes n l) = n.
Proof.
  intros Hn. unfold resize_bytes. rewrite str_len_app. unfold zeros, str_len. rewrite length_take, length_replicate. lia.
Qed.

(** *** Bodies written on their own *)

Lemma headed_take kind tail n m : headed kind tail m → 2 + str_len tail ≤ Z.of_nat n → headed kind tail (take n m).
Proof.
  intros (d & r & ->) Hn. exists d. eexists. change (kind :: d :: tail ++ r) with ((kind :: d :: tail) ++ r).
  rewrite take_app_ge by (unfold str_len in Hn; simpl; lia). done.
Qed.
Lemma headed_app kind tail m body : headed kind tail m → headed kind tail (m ++ body).
Proof. intros (d & r & ->). exists d, (r ++ body). simpl. by rewrite <-(assoc_L (++)). Qed.
Lemma put_units q old new m :
  headed 1 (u16 q ++ u32 old) m →
  ∃ m', put m (put_u32 order 4 new) = Some m' ∧ str_len m' = str_len m ∧ headed 1 (u16 q ++ u32 new) m'.
Proof.
  intros (d & r & ->). exists (([1; d] ++ u16 q) ++ u32 new ++ r).
  change (1 :: d :: (u16 q ++ u32 old) ++ r) with ([1; d] ++ (u16 q ++ u32 old) ++ r).
  rewrite <-(assoc_L (++) (u16 q)), (assoc_L (++) [1; d]). unfold put_u32.
  rewrite put_between by (by rewrite ?length_push_u32 || by autorewrite with messages). split; [done|]. split.
  - by autorewrite with messages.
  - exists d, r. simpl. by rewrite <-(assoc_L (++)).
Qed.
Lemma output_info_written q t crtc w h crtcs modes name :
  u16_ok q → 4 * str_len crtcs + 4 * str_len modes + str_len name ≤ u32_MAX →
  written q (encode_output_info order q t crtc w h crtcs modes name).
Proof.
  intros Hq Hn. pose proof (str_len_nonneg crtcs). pose proof (str_len_nonneg modes). pose proof (str_len_nonneg name).
  unfold encode_output_info. destruct (padded_words (str_len crtcs * 4 + str_len modes * 4 + str_len name)) as (k & Hk & ? & ?); [lia|].
  assert (k ≤ 2 ^ 30).
  { rewrite padded_len_eq in Hk. pose proof (Z.mul_div_le (str_len crtcs * 4 + str_len modes * 4 + str_len name + 3) 4). word_lia. }
  cbv zeta. rewrite Hk, words_of, (as_unsigned_in k) by lia.
  match goal with |- context [reply order (32 + 4 * k) q k ?fs] =>
    destruct (reply_headed order (32 + 4 * k) q k fs) as (out & -> & Hlen & Hout); [lia|fields_tac|] end.
  cbn [mbind option_bind puts]. apply (headed_app _ _ _ (zeros 4)) in Hout.
  destruct (put_headed _ _ _ (put_u16 order 34 (as_unsigned 16 (str_len name))) Hout) as (out1 & -> & Hlen1 & Hout1).
  { apply beside_words; [done|]. autorewrite with messages. rewrite Hlen. unfold zeros, str_len. simpl. lia. }
  cbn [mbind option_bind]. assert (str_len out1 = 36 + 4 * k) as Hl1.
  { rewrite Hlen1, str_len_app, Hlen. unfold zeros, str_len. simpl. lia. }
  set (payload := resize_bytes (4 * k) _). assert (str_len payload = 4 * k) as Hp by (apply str_len_resize; lia).
  assert (str_len (take 36 out1 ++ payload) = 36 + 4 * k) as Hl2.
  { rewrite str_len_app, Hp. unfold str_len in *. rewrite length_take. lia. }
  rewrite Hl2. replace ((saturating_sub (36 + 4 * k) 32 + 3) / 4) with (k + 1).
  2:{ unfold saturating_sub. rewrite Z.max_l by lia. replace (36 + 4 * k - 32 + 3) with (3 + (k + 1) * 4) by lia. rewrite Z.div_add by lia. done. }
  set (out2 := take 36 out1 ++ payload) in *.
  assert (headed 1 (u16 q ++ u32 k) (resize_bytes (32 + (k + 1) * 4) out2)) as Hout2.
  { unfold resize_bytes. apply headed_app, headed_take; [|autorewrite with messages; lia]. unfold out2. apply headed_app, headed_take; [done|].
    autorewrite with messages. lia. }
  rewrite (as_unsigned_in (k + 1)) by word_lia. destruct (put_units q k (k + 1) _ Hout2) as (m & -> & Hlm & Hm).
  exists m. split; [done|]. eapply headed_reply; [done..|word_lia|]. rewrite Hlm, str_len_resize by lia. lia.
Qed.

(** Bodies of whole words. *)
Definition words (l : list Z) : Prop := (4 | str_len l).
Lemma words_app l k : words l → words k → words (l ++ k).
Proof. unfold words. rewrite str_len_app. apply Z.divide_add_r. Qed.
Lemma words_pad l : words (pad_to_four l).
Proof. unfold words. rewrite length_pad_to_four, padded_len_eq. apply Z.divide_factor_r. Qed.
Lemma words_u32s l : words (u32s order l).
Proof. unfold words. rewrite str_len_u32s. apply Z.divide_factor_l. Qed.
Lemma words_mjoin l : Forall words l → words (mjoin l).
Proof. induction 1; [by exists 0|]. by apply words_app. Qed.
Lemma words_const l n : str_len l = 4 * n → words l.
Proof. intros H. exists n. lia. Qed.
Lemma words_map_body present keysyms modifier_map : words (xkb_map_body order present keysyms modifier_map).
Proof.
  unfold xkb_map_body. cbv zeta. destruct (bit_set present 4); [apply words_pad|]. destruct (bit_set present 16); [apply words_pad|].
  assert (words (if bit_set present 1 then mjoin (replicate 4 ([1; 1] ++ u16 0 ++ [2; 1; 0; 0] ++ [1; 1; 1; 1] ++ u16 0 ++ [0; 0])) else [])).
  { destruct (bit_set present 1); [|by exists 0]. apply words_mjoin, Forall_replicate. apply (words_const _ 4). by autorewrite with messages. }
  destruct (bit_set present 2); [|done]. apply words_app; [done|]. apply words_mjoin, Forall_fmap, Forall_true. intros syms.
  apply (words_const _ 4). simpl. by autorewrite with messages.
Qed.
Lemma words_names_body which component_atoms type_atoms key_names :
  Forall (λ name, length name = 4%nat) key_names → words (xkb_names_body order which component_atoms type_atoms key_names).
Proof.
  intros Hk. unfold xkb_names_body. cbv zeta.
  assert (words (if bit_set which 64 then u32s order component_atoms ++ u32s order type_atoms else u32s order component_atoms)) as H1.
  { destruct (bit_set which 64); [apply words_app|]; apply words_u32s. }
  set (body := if bit_set which 64 then _ else _) in *.
  assert (words (if bit_set which 128
    then pad_to_four (body ++ replicate (length type_atoms) 2) ++ u32s order (replicate (Z.to_nat (saturating_mul usize_MAX (Z.of_nat (length type_atoms)) 2)) 0)
    else body)) as H2.
  { destruct (bit_set which 128); [|done]. apply words_app; [apply words_pad|apply words_u32s]. }
  destruct (bit_set which 512); [|done]. apply words_app; [done|]. apply words_mjoin. eapply Forall_impl; [exact Hk|]. intros name Hname.
  apply (words_const _ 1). unfold str_len. simpl in Hname. by rewrite Hname.
Qed.
Lemma words_class class :
  match class with ClassButton _ n => 0 ≤ n ≤ u16_MAX - 3 | _ => True end → ∃ l, class_bytes order class = Some l ∧ words l.
Proof.
  intros Hc. destruct class as [source keys|source n|source n lo hi]; simpl.
  - eexists. split; [done|]. rewrite !(assoc_L (++)). apply words_app; [|apply words_u32s]. apply (words_const _ 2). by autorewrite with messages.
  - unfold checked_add. rewrite decide_True by word_lia. simpl. eexists. split; [done|]. rewrite !(assoc_L (++)).
    apply words_app; [|apply words_u32s]. apply (words_const _ 3). by autorewrite with messages.
  - eexists. split; [done|]. apply (words_const _ 11). unfold push_i64. by autorewrite with messages.
Qed.
Lemma words_devices devices body :
  words body →
  Forall (λ device, Forall (λ class, match class with ClassButton _ n => 0 ≤ n ≤ u16_MAX - 3 | _ => True end) (xi_classes device)) devices →
  ∃ l, push_devices order body devices = Some l ∧ words l.
Proof.
  intros Hb Hd. revert body Hb. induction Hd as [|device devices Hc _ IH]; intros body Hb; [by exists body|]. simpl.
  assert (∃ ls, mapM (class_bytes order) (xi_classes device) = Some ls ∧ Forall words ls) as (ls & E & Hls).
  { clear -Hc. induction Hc as [|class classes H _ (ls & E & Hls)]; [by exists []|]. destruct (words_class class H) as (l & El & Hl).
    exists (l :: ls). simpl. rewrite El. simpl. rewrite E. simpl. split; [done|]. by constructor. }
  unfold push_device. rewrite E. cbn [mbind option_bind]. apply IH. apply words_app; [apply words_pad|by apply words_mjoin].
Qed.

Lemma words_count l : words l → ∃ k, str_len l = 4 * k ∧ 0 ≤ k ∧ str_len l / 4 = k.
Proof.
  intros [k Hk]. pose proof (str_len_nonneg l). exists k. split; [lia|]. split; [lia|]. rewrite Hk. by apply Z.div_mul.
Qed.
Lemma xkb_map_written q present keysyms modifier_map :
  u16_ok q → str_len (xkb_map_body order present keysyms modifier_map) ≤ u32_MAX →
  written q (encode_xkb_map order q present keysyms modifier_map).
Proof.
  intros Hq Hn. unfold encode_xkb_map. cbv zeta.
  destruct (words_count _ (words_map_body present keysyms modifier_map)) as (k & Hk & ? & _). set (body := xkb_map_body _ _ _ _) in *.
  rewrite Hk. replace ((8 + 4 * k) / 4) with (k + 2) by (replace (8 + 4 * k) with ((k + 2) * 4) by lia; by rewrite Z.div_mul).
  rewrite decide_True by word_lia. cbn [mbind option_bind].
  match goal with |- context [record 40 ?fs] => set (fields := fs) end.
  change fields with (write_event_header order 1 3 q ++ put_u32 order 4 (k + 2) :: drop 4 fields).
  unfold record. rewrite puts_app, event_header by lia. cbn [mbind option_bind puts].
  change ([1; 3] ++ u16 q ++ zeros (40 - 4)) with ([1; 3] ++ u16 q ++ [0; 0; 0; 0] ++ zeros 32).
  rewrite (assoc_L (++) [1; 3]). unfold put_u32 at 1. rewrite put_between by (by rewrite ?length_push_u32 || by autorewrite with messages).
  cbn [mbind option_bind]. set (m := _ ++ u32 (k + 2) ++ _).
  assert (str_len m = 40) as Hm by (unfold m; by autorewrite with messages).
  destruct (puts_headed 1 (u16 q ++ u32 (k + 2)) m (drop 4 fields)) as (m' & -> & Hl & Hm').
  { exists 3, (zeros 32). unfold m. simpl. by rewrite <-(assoc_L (++)). }
  { rewrite Hm. unfold fields. simpl drop. fields_tac. }
  eexists. split; [done|]. eapply headed_reply; [by apply headed_app|done|word_lia|]. rewrite str_len_app, Hl, Hm, Hk. lia.
Qed.
Lemma xkb_names_written q which lo hi component_atoms type_atoms key_names :
  u16_ok q → str_len (xkb_names_body order which component_atoms type_atoms key_names) ≤ u32_MAX →
  Forall (λ name, length name = 4%nat) key_names →
  written q (encode_xkb_names order q which lo hi component_atoms type_atoms key_names).
Proof.
  intros Hq Hn Hk. unfold encode_xkb_names. cbv zeta.
  destruct (words_count _ (words_names_body which component_atoms type_atoms key_names Hk)) as (k & Hb & ? & Hd).
  rewrite Hd, (try_or_in _ k) by lia. apply reply_message_body; [done|unfold u32_ok; lia|done|fields_tac].
Qed.
Lemma query_device_written q devices :
  u16_ok q → from_option str_len 0 (push_devices order [] devices) ≤ u32_MAX →
  Forall (λ device, Forall (λ class, match class with ClassButton _ n => 0 ≤ n ≤ u16_MAX - 3 | _ => True end) (xi_classes device)) devices →
  written q (encode_query_device order q devices).
Proof.
  intros Hq Hn Hd. unfold encode_query_device. destruct (words_devices devices [] (words_const [] 0 eq_refl) Hd) as (body & E & Hw).
  rewrite E in *. simpl in Hn. cbn [mbind option_bind]. destruct (words_count _ Hw) as (k & Hb & ? & Hk).
  rewrite Hk, (try_or_in _ k) by lia. apply reply_message_body; [done|unfold u32_ok; lia|done|fields_tac].
Qed.

(** *** All of them *)

(** The messages of one output: a reply about fonts is a series, every other is one message. *)
Definition message_of (output : XClientOutput) (m : list Z) : Prop :=
  framed order m ∧ message_sequence order m = output_sequence output ∧
  match output with
  | OutError _ => message_kind m = 0
  | OutReply _ => message_kind m = 1
  | OutEvent _ => message_kind m ≠ 0 ∧ message_kind m ≠ 1
  end.
Definition messages_of (output : XClientOutput) (group : list (list Z)) : Prop :=
  Forall (message_of output) group ∧
  match output with OutReply (ReplyListFontsWithInfo _ names) => length group = S (length names) | _ => length group = 1%nat end.

Lemma fonts_written q names :
  u16_ok q → Z.of_nat (sum_list_with length names) ≤ u32_MAX →
  ∃ group, encode_list_fonts_with_info order q names = Some (mjoin group) ∧ Forall (reply_of order q) group ∧
    length group = S (length names).
Proof.
  intros Hq Hn. assert (∃ ms, mapM (encode_font_info_reply order q 8 2) names = Some ms ∧ Forall (reply_of order q) ms ∧
    length ms = length names) as (ms & E & Hms & Hl).
  { induction names as [|name names IH]; [by exists []|]. simpl in Hn. destruct IH as (ms & E & Hms & Hl); [lia|].
    destruct (font_info_written q 8 2 name Hq) as (m & Em & Hm); [unfold str_len; lia|]. exists (m :: ms). simpl. rewrite Em. simpl.
    rewrite E. simpl. split; [done|]. split; [by constructor|]. by rewrite Hl. }
  destruct (font_info_written q 0 0 [] Hq) as (m & Em & Hm); [by vm_compute|]. exists (ms ++ [m]). unfold encode_list_fonts_with_info.
  rewrite E. cbn [mbind option_bind]. rewrite Em. cbn [mbind option_bind]. rewrite join_app. simpl. rewrite (right_id_L [] (++)).
  split; [done|]. split; [apply Forall_app; auto|]. rewrite length_app, Hl. simpl. lia.
Qed.
Lemma single_written client_reply :
  output_fits order (OutReply client_reply) → (∀ q names, client_reply ≠ ReplyListFontsWithInfo q names) →
  written (reply_sequence client_reply) (encode_x_client_reply order client_reply).
Proof.
  intros (Hq & Hn & Hs) Hne.
  destruct client_reply; cbn [reply_sequence reply_body_len reply_shape output_sequence encode_x_client_reply] in Hq, Hn, Hs |- *;
    unfold encode_query_extension, encode_shm_version, encode_screen_size_range, encode_use_extension, encode_sync_initialize, encode_xkb_state, encode_xkb_controls, encode_xkb_device_info, encode_per_client_flags, encode_xi_version, encode_ge_version, encode_client_pointer, encode_xi_extension_version, encode_xi_query_pointer, encode_get_input_focus, encode_query_pointer, encode_keyboard_control, encode_translate_coordinates, encode_selection_owner, encode_alloc_named_color, encode_alloc_color, encode_best_size;
      lazymatch goal with
      | |- context [short _ _ _] => unfold short; reply_tac
      | |- context [reply _ _ _ _ _] => reply_tac
      | |- context [encode_list_fonts_with_info] => by edestruct Hne
      | _ => idtac
      end.
  - by apply get_atom_name_written.
  - unfold encode_get_geometry, short. reply_tac.
  - by apply get_image_written.
  - by apply query_tree_written.
  - unfold encode_get_window_attributes. reply_tac.
  - by apply list_fonts_written.
  - by apply dri3_modifiers_written.
  - by apply screen_resources_written.
  - by apply output_info_written.
  - by apply output_property_written.
  - by apply crtc_info_written.
  - by apply monitors_written.
  - by apply glx_string_written.
  - by apply visual_configs_written.
  - by apply fb_configs_written.
  - by apply drawable_attributes_written.
  - by apply xkb_map_written.
  - by apply xkb_names_written.
  - by apply query_device_written.
  - by apply modifier_mapping_written.
  - by apply keyboard_mapping_written.
  - by apply font_info_written.
  - by apply get_property_written.
  - by apply list_properties_written.
  - by apply query_colors_written.
Qed.
Lemma reply_written client_reply :
  output_fits order (OutReply client_reply) →
  ∃ group, encode_x_client_reply order client_reply = Some (mjoin group) ∧ messages_of (OutReply client_reply) group.
Proof.
  intros Hfit. assert ((∃ q names, client_reply = ReplyListFontsWithInfo q names) ∨ ∀ q names, client_reply ≠ ReplyListFontsWithInfo q names)
    as [(q & names & ->)|Hne] by (destruct client_reply; (by left; eexists _, _) || by right).
  - destruct Hfit as (Hq & Hn & _). destruct (fonts_written q names Hq Hn) as (group & E & Hg & Hl). exists group. split; [done|].
    split; [|done]. eapply Forall_impl; [exact Hg|]. by intros m (? & ? & ?).
  - destruct (single_written client_reply Hfit Hne) as (m & E & Hf & Hk & Hm). exists [m]. rewrite E. simpl. rewrite (right_id_L [] (++)).
    split; [done|]. split; [by apply Forall_singleton|]. destruct client_reply; try done. by edestruct Hne.
Qed.

Definition not_event (m : list Z) : Prop := message_kind m ≠ 0 ∧ message_kind m ≠ 1.
(** The event is written, is one message, and has the sequence number. *)
Notation told q r := (∃ m, r = Some m ∧ framed order m ∧ message_sequence order m = q ∧ message_kind m ≠ 0 ∧ message_kind m ≠ 1).

Lemma event_told event_type detail q fs :
  1 < event_type → Z.land event_type 127 ≠ 35 → u16_ok q → Forall (beside (u16 q) 32) fs →
  told q (record 32 (write_event_header order event_type detail q ++ fs)).
Proof.
  intros H1 H35 Hq Hfs. destruct (event_message order event_type detail q fs) as (m & E & Hf & Hk & Hm); [lia|done..|].
  exists m. split_and!; [done..|rewrite Hk; lia|rewrite Hk; lia].
Qed.
(** A generic event of [units] words more. *)
Lemma generic_told units m q :
  headed 35 (u16 q ++ u32 units) m → u16_ok q → u32_ok units → str_len m = 32 + 4 * units →
  framed order m ∧ message_sequence order m = q ∧ message_kind m ≠ 0 ∧ message_kind m ≠ 1.
Proof.
  intros Hm Hq Hu Hl. destruct (headed_long order 35 q units m) as (Hf & Hk & Hs); [done|by right|done..|]. by rewrite Hk.
Qed.
Lemma present_complete_told q event_id window serial ust msc mode :
  u16_ok q → told q (encode_present_complete order q event_id window serial ust msc mode).
Proof.
  intros Hq. unfold encode_present_complete. change (resize_bytes 40 (zeros X_CLIENT_OUTPUT_RECORD_LEN)) with (zeros 40).
  match goal with |- context [puts _ ?fs] => set (fields := fs) end.
  change fields with (write_event_header order 35 X_PRESENT_MAJOR_OPCODE q ++ put_u32 order 4 2 :: drop 4 fields).
  rewrite puts_app, event_header by lia. cbn [mbind option_bind puts].
  change ([35; X_PRESENT_MAJOR_OPCODE] ++ u16 q ++ zeros (40 - 4)) with ([35; X_PRESENT_MAJOR_OPCODE] ++ u16 q ++ [0; 0; 0; 0] ++ zeros 32).
  rewrite (assoc_L (++) [35; X_PRESENT_MAJOR_OPCODE]). unfold put_u32 at 1.
  rewrite put_between by (by rewrite ?length_push_u32 || by autorewrite with messages).
  cbn [mbind option_bind]. set (m := _ ++ u32 2 ++ _). assert (str_len m = 40) as Hm by (unfold m; by autorewrite with messages).
  destruct (puts_headed 35 (u16 q ++ u32 2) m (drop 4 fields)) as (m' & -> & Hl & Hm').
  { exists X_PRESENT_MAJOR_OPCODE, (zeros 32). unfold m. simpl. by rewrite <-(assoc_L (++)). }
  { rewrite Hm. unfold fields. simpl drop. fields_tac. }
  exists m'. split; [done|]. apply (generic_told 2); [done..|]. by rewrite Hl, Hm.
Qed.
Lemma present_idle_told q event_id window serial pixmap fence :
  u16_ok q → told q (encode_present_idle order q event_id window serial pixmap fence).
Proof.
  intros Hq. unfold encode_present_idle, X_CLIENT_OUTPUT_RECORD_LEN.
  match goal with |- context [record _ ?fs] => set (fields := fs) end.
  change fields with (write_event_header order 35 X_PRESENT_MAJOR_OPCODE q ++ drop 3 fields).
  unfold record. rewrite puts_app, event_header by lia. cbn [mbind option_bind].
  set (m := [35; X_PRESENT_MAJOR_OPCODE] ++ _). assert (str_len m = 32) as Hm.
  { unfold m. rewrite !str_len_app, str_len_u16. done. }
  destruct (puts_headed 35 (u16 q ++ u32 0) m (drop 3 fields)) as (m' & -> & Hl & Hm').
  { exists X_PRESENT_MAJOR_OPCODE, (zeros 24). unfold m. simpl. rewrite <-(assoc_L (++)). by destruct order. }
  { rewrite Hm. unfold fields. simpl drop. fields_tac. }
  exists m'. split; [done|]. apply (generic_told 0); [done..|]. by rewrite Hl, Hm.
Qed.
Lemma client_message_told q bytes :
  u16_ok q → str_len bytes = 32 → 1 < message_kind bytes → Z.land (message_kind bytes) 127 ≠ 35 →
  told q (puts bytes [put_u16 order 2 q]).
Proof.
  intros Hq Hl Hk H35. destruct bytes as [|b0 [|b1 [|b2 [|b3 rest]]]]; try done.
  change (1 < b0) in Hk. change (Z.land b0 127 ≠ 35) in H35. cbn [puts]. unfold put_u16.
  change (b0 :: b1 :: b2 :: b3 :: rest) with ([b0; b1] ++ [b2; b3] ++ rest) in *.
  rewrite put_between by (done || by rewrite length_push_u16). cbn [mbind option_bind]. eexists. split; [done|].
  destruct (headed_event order b0 q ([b0; b1] ++ u16 q ++ rest)) as (Hf & Hk' & Hs); [by exists b1, rest|lia|done..| |].
  - rewrite <-Hl. by autorewrite with messages.
  - rewrite Hk'. split_and!; [done..|lia|lia].
Qed.
Lemma event_written event :
  output_fits order (OutEvent event) → told (event_sequence event) (encode_x_client_event order event).
Proof.
  intros [Hq Hs]. destruct event; cbn [output_sequence event_sequence event_shape encode_x_client_event encode_randr_event] in Hq, Hs |- *;
    unfold write_pointer_event, encode_map_notify, encode_configure_notify, encode_property_notify, encode_selection_clear, encode_selection_request, encode_selection_notify, encode_shm_completion, X_CLIENT_OUTPUT_RECORD_LEN;
    lazymatch goal with
    | |- context [encode_present_complete] => by apply present_complete_told
    | |- context [encode_present_idle] => by apply present_idle_told
    | |- context [puts _ _] => destruct Hs as (? & ? & ?); by apply client_message_told
    | |- context [if ?b then _ else _] => apply event_told; [by destruct b|by destruct b|done|event_fields_tac]
    | _ => apply event_told; [done|done|done|event_fields_tac]
    end.
Qed.
Lemma error_written error : u16_ok (ce_sequence error) →
  ∃ m, encode_x_client_error order error = Some m ∧ framed order m ∧ message_sequence order m = ce_sequence error ∧ message_kind m = 0.
Proof.
  intros Hq. unfold encode_x_client_error.
  match goal with |- context [record _ ?fs] => set (fields := fs) end.
  change fields with (write_event_header order 0 (wire_code (ce_code error)) (ce_sequence error) ++ drop 3 fields).
  destruct (event_message order 0 (wire_code (ce_code error)) (ce_sequence error) (drop 3 fields)) as (m & E & Hf & Hk & Hm);
    [done..|unfold fields; simpl drop; event_fields_tac|]. by exists m.
Qed.

(** C26: A client does not lose its place in what it is sent: whatever errors, events and fitting replies,
    in either byte order, encoding them does not panic, and a client that reads its connection as the
    protocol says, 32 bytes and what a reply or a generic event announces, finds exactly these messages,
    each of its kind and with its sequence number: one per output, and for a list of fonts with their
    data one per font and one that ends the list.  What must fit ([output_fits]): a sequence number of 16
    bits; a reply shorter than [2^32] bytes with arrays of their lengths; a client message of 32 bytes
    of a kind above 1 that is not a generic event.  That last exclusion is real: [SendEvent] takes kind
    35, and such a message swallows what follows it ([generic_event_swallows_reply]). *)
Theorem outputs_read_back outputs :
  Forall (output_fits order) outputs →
  ∃ groups : list (list (list Z)), encoded_outputs order outputs = Some (stream_of <$> groups) ∧ Forall2 messages_of outputs groups ∧
    read_messages order (stream_of (stream_of <$> groups)) = Some (mjoin groups).
Proof.
  intros Hfit. assert (∃ groups : list (list (list Z)), encoded_outputs order outputs = Some (stream_of <$> groups) ∧ Forall2 messages_of outputs groups) as (groups & E & Hg).
  { unfold encoded_outputs. induction Hfit as [|output outputs Ho _ (groups & E & Hg)]; [exists []; by split|].
    assert (∃ group, encode_x_client_output order output = Some (mjoin group) ∧ messages_of output group) as (group & Eo & Hgroup).
    { destruct output as [error|event|client_reply]; simpl.
      - destruct (error_written error (proj1 Ho)) as (m & Em & H). exists [m]. rewrite Em. simpl. rewrite (right_id_L [] (++)).
        split; [done|]. split; [by apply Forall_singleton|done].
      - destruct (event_written event Ho) as (m & Em & H). exists [m]. rewrite Em. simpl. rewrite (right_id_L [] (++)).
        split; [done|]. split; [by apply Forall_singleton|done].
      - by apply reply_written. }
    exists (group :: groups). simpl. rewrite Eo. simpl. rewrite E. split; [done|]. by constructor. }
  exists groups. split_and!; [done..|]. replace (stream_of (stream_of <$> groups)) with (stream_of (mjoin groups)).
  2:{ clear. induction groups as [|g gs IH]; [done|]. rewrite fmap_cons. simpl. rewrite join_app. f_equal. exact IH. }
  apply read_messages_framed; [|done]. apply Forall_join. clear -Hg. induction Hg as [|o g outputs groups [H _] _ IH]; constructor; [|done].
  eapply Forall_impl; [exact H|]. by intros m [? _].
Qed.
End replies.

(** An error, an event, a list of fonts and a property, for a client of the other byte order. *)
Definition example_outputs : list XClientOutput :=
  [OutError (mk_client_error BadWindow 7 2097153 0 8); OutEvent (EventMapNotify 7 (x_resource_id 2097153 1) (x_resource_id 2097153 1) false);
   OutReply (ReplyListFontsWithInfo 8 [str "fixed"]); OutReply (ReplyGetProperty 9 31 8 0 3 (str "abc"))].
(** The lengths of the messages the client reads. *)
Definition example_lengths (order : XByteOrder) (outputs : list XClientOutput) : option (list Z) :=
  match encoded_outputs order outputs with
  | Some chunks => option_map (map str_len) (read_messages order (stream_of chunks))
  | None => None
  end.
Lemma outputs_read_back_witness :
  (∃ groups : list (list (list Z)), encoded_outputs BigEndian example_outputs = Some (stream_of <$> groups) ∧
     Forall2 (messages_of BigEndian) example_outputs groups ∧
     read_messages BigEndian (stream_of (stream_of <$> groups)) = Some (mjoin groups)) ∧
  example_lengths BigEndian example_outputs = Some [32; 32; 68; 60; 36].
Proof.
  split; [|by vm_compute]. apply (outputs_read_back BigEndian example_outputs).
  repeat (apply Forall_cons_2; [by vm_compute|]). apply Forall_nil_2.
Defined.

(** [SendEvent] takes the 32 bytes of a generic event, which may announce more than it has: sent back
    to its sender, it swallows the reply after it. *)
Definition example_generic_event : list Z := [35; 0; 0; 0; 8; 0; 0; 0] ++ replicate 24 0.
Lemma generic_event_swallows_reply :
  (match decode_x11_core_request (mk_wire_context LittleEndian (from_raw 1) (from_raw 1) None)
           ([25; 0; 11; 0; 43; 0; 0; 0; 0; 0; 0; 0] ++ example_generic_event) with
   | Some (Ok (ReqSendSelectionNotify _ _ (EventClientMessage _ bytes))) => bytes = example_generic_event
   | _ => False
   end) ∧
  example_lengths LittleEndian [OutEvent (EventClientMessage 1 example_generic_event); OutReply (ReplyInternAtom 2 7)] = Some [64].
Proof. by vm_compute. Qed.
