(* ===== verification/XFocus.v ===== *)
(** * Which window hears the keyboard
    ([XCoreEventSelectionState] of [sophia-x-authority/src/x11_socket.rs], [close_target.rs])

    What one client selected on its windows, how they are stacked and nested, and where that sends
    keys and close requests. *)

From S2P Require Import Prelude Ids Geometry Packets PortalPackets Text.
From S2P Require Import XTables XState XRuntime XResources XProtocol XWire XDispatch.
From stdpp Require Import strings pretty.
Local Open Scope Z_scope.

Record XCoreWindowEventSelection : Type := mk_event_selection { es_mask : Z; es_do_not_propagate_mask : Z }.
Record XCoreEventSelectionState : Type := mk_selections {
  cs_windows : gmap XResourceId XCoreWindowEventSelection; cs_parents : gmap XResourceId XResourceId;
  cs_stacking : list XResourceId; cs_mapped : gset XResourceId; cs_fallback : XResourceId;
}.
Definition selections_default : XCoreEventSelectionState := mk_selections ∅ ∅ [] ∅ root.
Definition KEY_MASKS : Z := 3.

(** [x11_core_event_selection_update] *)
Definition event_selection_update (request : XWireRequest) : option (XResourceId * option Z * option Z) :=
  match request with
  | ReqCreateWindow packet _ _ _ _ _ event_mask do_not_propagate_mask =>
      match rq_kind packet with CreateWindow window _ _ _ _ => Some (window, event_mask, do_not_propagate_mask) | _ => None end
  | ReqChangeWindowAttributes window event_mask do_not_propagate_mask => Some (window, event_mask, do_not_propagate_mask)
  | _ => None
  end.

Section operations.
  Context (st : XCoreEventSelectionState).
Definition set_stacking (l : list XResourceId) : XCoreEventSelectionState :=
  mk_selections (cs_windows st) (cs_parents st) l (cs_mapped st) (cs_fallback st).
(** [stacking.retain(|candidate| *candidate != window)] *)
Definition without (window : XResourceId) : list XResourceId := filter (λ candidate, candidate ≠ window) (cs_stacking st).

Definition selection_update (window : XResourceId) (event_mask do_not_propagate_mask : option Z) : XCoreEventSelectionState :=
  match event_mask, do_not_propagate_mask with
  | None, None => st
  | _, _ =>
      let selection := default (mk_event_selection 0 0) (cs_windows st !! window) in
      mk_selections
        (<[window := mk_event_selection (default (es_mask selection) event_mask)
                       (default (es_do_not_propagate_mask selection) do_not_propagate_mask)]> (cs_windows st))
        (cs_parents st) (cs_stacking st) (cs_mapped st) (cs_fallback st)
  end.
Definition selection_register (window parent : XResourceId) : XCoreEventSelectionState :=
  mk_selections (cs_windows st) (<[window := parent]> (cs_parents st)) (without window ++ [window]) (cs_mapped st)
    (cs_fallback st).
Definition restack (window : XResourceId) (sibling : option XResourceId) (mode : option Z) : XCoreEventSelectionState :=
  let l := without window in
  let sibling_index := sibling ≫= λ sibling, fst <$> list_find (λ candidate, candidate = sibling) l in
  let below := bool_decide (mode = Some 1 ∨ mode = Some 3) in
  let above := bool_decide (mode = Some 0 ∨ mode = Some 2 ∨ mode = Some 4) in
  let index :=
    match below, above, sibling_index with
    | true, _, Some index => index
    | true, _, None => O
    | _, true, Some index => S index
    | _, _, _ => length l
    end in
  let index := Nat.min index (length l) in
  set_stacking (take index l ++ [window] ++ drop index l).
(** [stacking.iter().rev().find(|window| mapped.contains(window))] *)
Definition topmost_mapped : option XResourceId := find_first (λ window, window ∈ cs_mapped st) (reverse (cs_stacking st)).
Definition observe_mapped (window : XResourceId) : XCoreEventSelectionState :=
  mk_selections (cs_windows st) (cs_parents st) (cs_stacking st) ({[window]} ∪ cs_mapped st) window.
Definition selection_remove (window : XResourceId) : XCoreEventSelectionState :=
  mk_selections (delete window (cs_windows st)) (delete window (cs_parents st)) (without window) (cs_mapped st ∖ {[window]})
    (if decide (cs_fallback st = window) then root else cs_fallback st).
Definition keyboard_fallback (focused : XResourceId) : XResourceId :=
  if decide (focused = root) then default (cs_fallback st) topmost_mapped else focused.
Definition selects_keys (window : XResourceId) : Prop :=
  match cs_windows st !! window with Some selection => Z.land (es_mask selection) KEY_MASKS ≠ 0 | None => False end.
#[export] Instance selects_keys_dec window : Decision (selects_keys window).
Proof. unfold selects_keys. case_match; apply _. Defined.
Fixpoint selected_loop (n : nat) (candidate : XResourceId) : option XResourceId :=
  match n with
  | O => None
  | S n => if decide (selects_keys candidate) then Some candidate else cs_parents st !! candidate ≫= selected_loop n
  end.
Definition selected_keyboard_target (focused : XResourceId) : option XResourceId :=
  selected_loop 64 (keyboard_fallback focused).
Definition keyboard_target (focused : XResourceId) : XResourceId :=
  default (keyboard_fallback focused) (selected_keyboard_target focused).
Fixpoint ancestors_loop (n : nat) (candidate : XResourceId) : list XResourceId :=
  match n with
  | O => []
  | S n => match cs_parents st !! candidate with Some parent => parent :: ancestors_loop n parent | None => [] end
  end.
Definition ancestors : XResourceId → list XResourceId := ancestors_loop 64.
End operations.
Definition observe_unmapped (st : XCoreEventSelectionState) (window : XResourceId) : XCoreEventSelectionState :=
  let st := mk_selections (cs_windows st) (cs_parents st) (cs_stacking st) (cs_mapped st ∖ {[window]}) (cs_fallback st) in
  if decide (cs_fallback st = window) then
    mk_selections (cs_windows st) (cs_parents st) (cs_stacking st) (cs_mapped st) (default root (topmost_mapped st))
  else st.

(** ** Stacking *)

Lemma without_elem st window w : w ∈ without st window ↔ w ≠ window ∧ w ∈ cs_stacking st.
Proof. unfold without. by rewrite list_elem_of_filter. Qed.
Lemma without_nodup st window : NoDup (cs_stacking st) → NoDup (without st window) ∧ window ∉ without st window.
Proof. intros H. split; [by apply NoDup_filter|]. rewrite without_elem. tauto. Qed.
Lemma insert_at_nodup (l : list XResourceId) window i : NoDup l → window ∉ l → NoDup (take i l ++ [window] ++ drop i l).
Proof.
  intros Hl Hw. rewrite (Permutation_app_comm (take i l)), <-(assoc_L (++)), (Permutation_app_comm (drop i l)), take_drop.
  by apply NoDup_cons.
Qed.

(** The order of the windows, and which one the root focus falls back to. *)
Record selections_ok (st : XCoreEventSelectionState) : Prop := mk_selections_ok {
  co_stacking : NoDup (cs_stacking st);
  co_fallback : cs_fallback st = root ∨ cs_fallback st ∈ cs_mapped st;
}.
Inductive XSelectionOp : Type :=
| SelUpdate (window : XResourceId) (event_mask do_not_propagate_mask : option Z)
| SelRegister (window parent : XResourceId)
| SelRestack (window : XResourceId) (sibling : option XResourceId) (mode : option Z)
| SelMapped (window : XResourceId) | SelUnmapped (window : XResourceId) | SelRemove (window : XResourceId).
Definition selection_op (st : XCoreEventSelectionState) (op : XSelectionOp) : XCoreEventSelectionState :=
  match op with
  | SelUpdate w e d => selection_update st w e d
  | SelRegister w p => selection_register st w p
  | SelRestack w s m => restack st w s m
  | SelMapped w => observe_mapped st w
  | SelUnmapped w => observe_unmapped st w
  | SelRemove w => selection_remove st w
  end.
Lemma topmost_mapped_spec st w : topmost_mapped st = Some w → w ∈ cs_mapped st ∧ w ∈ cs_stacking st.
Proof. intros [Hin Hm]%find_first_Some. by rewrite elem_of_reverse in Hin. Qed.
Lemma selection_op_ok st op : selections_ok st → selections_ok (selection_op st op).
Proof.
  intros [Hs Hf]. destruct op as [w e d|w p|w s m|w|w|w]; simpl.
  - unfold selection_update. by destruct e, d.
  - destruct (without_nodup st w Hs) as [Hn Hw]. constructor; [|done]. simpl.
    apply NoDup_app. split_and!; [done| |by apply NoDup_singleton]. intros x Hx ->%list_elem_of_singleton. done.
  - destruct (without_nodup st w Hs) as [Hn Hw]. constructor; [|done]. by apply insert_at_nodup.
  - constructor; [done|]. right. set_solver.
  - unfold observe_unmapped. case_decide as E; simpl in *.
    + constructor; [done|]. simpl. destruct (topmost_mapped _) as [t|] eqn:Ht; [|by left]. right.
      apply topmost_mapped_spec in Ht as [Ht _]. done.
    + constructor; [done|]. simpl. destruct Hf as [Hf|Hf]; [by left|right]. set_solver.
  - constructor; simpl; [by apply without_nodup|]. case_decide; [by left|]. destruct Hf; [by left|right]. set_solver.
Qed.

(** Where a sibling is found. *)
Lemma list_find_split (l : list XResourceId) s i :
  fst <$> list_find (λ candidate, candidate = s) l = Some i → ∃ l1 l2, l = l1 ++ s :: l2 ∧ i = length l1.
Proof.
  intros ([j x] & Hf & ->)%fmap_Some. apply list_find_Some in Hf as (Hl & -> & _).
  exists (take j l), (drop (Datatypes.S j) l). split; [by rewrite take_drop_middle|]. rewrite length_take.
  apply lookup_lt_Some in Hl. simpl. lia.
Qed.
Lemma list_find_found (l : list XResourceId) s : s ∈ l → ∃ i, fst <$> list_find (λ candidate, candidate = s) l = Some i.
Proof.
  intros Hs. destruct (list_find_elem_of (λ candidate, candidate = s) l s) as [[i x] Hf]; [done..|]. exists i. by rewrite Hf.
Qed.
Lemma list_find_missing (l : list XResourceId) s : s ∉ l → fst <$> list_find (λ candidate, candidate = s) l = None.
Proof.
  intros Hs. destruct (list_find _ l) as [[i x]|] eqn:Hf; [|done].
  apply list_find_Some in Hf as (Hl & -> & _). by apply list_elem_of_lookup_2 in Hl.
Qed.
Notation below mode := (mode = Some 1 ∨ mode = Some 3).
Notation above mode := (mode = Some 0 ∨ mode = Some 2 ∨ mode = Some 4).
Lemma restack_beside st window s mode :
  s ∈ without st window →
  ∃ l1 l2, without st window = l1 ++ s :: l2 ∧
    (below mode → cs_stacking (restack st window (Some s) mode) = l1 ++ window :: s :: l2) ∧
    (above mode → cs_stacking (restack st window (Some s) mode) = l1 ++ s :: window :: l2).
Proof.
  intros Hs. destruct (list_find_found _ _ Hs) as [i Hi]. destruct (list_find_split _ _ _ Hi) as (l1 & l2 & Hl & ->).
  exists l1, l2. split; [done|]. unfold restack. simpl. rewrite Hi.
  assert (length (without st window) = length l1 + Datatypes.S (length l2))%nat as Hlen by (rewrite Hl, length_app; done).
  split; intros Hm.
  - rewrite bool_decide_eq_true_2 by done. case_match; rewrite Nat.min_l by lia; by rewrite Hl, take_app_length, drop_app_length.
  - rewrite bool_decide_eq_false_2 by naive_solver. rewrite bool_decide_eq_true_2 by done. rewrite Nat.min_l by lia. rewrite Hl.
    change (l1 ++ s :: l2) with (l1 ++ [s] ++ l2). rewrite (assoc_L (++)).
    assert (Datatypes.S (length l1) = length (l1 ++ [s])) as -> by (rewrite length_app; simpl; lia).
    rewrite take_app_length, drop_app_length. by rewrite <-(assoc_L (++)).
Qed.
Lemma restack_alone st window sibling mode :
  (∀ s, sibling = Some s → s ∉ without st window) →
  (below mode → cs_stacking (restack st window sibling mode) = window :: without st window) ∧
  (¬ below mode → cs_stacking (restack st window sibling mode) = without st window ++ [window]).
Proof.
  intros Hs. unfold restack. simpl.
  assert ((sibling ≫= λ s, fst <$> list_find (λ candidate, candidate = s) (without st window)) = None) as ->.
  { destruct sibling as [s|]; [|done]. simpl. by apply list_find_missing, Hs. }
  split; intros Hm.
  - rewrite bool_decide_eq_true_2 by done. by case_match.
  - rewrite bool_decide_eq_false_2 by done. case_bool_decide; rewrite Nat.min_id, firstn_all, drop_all; done.
Qed.

(** Restacking a window moves that window and no other, whatever the request names: next to the
    sibling it names, below it or above it as the mode says, and at the bottom or at the top where
    there is no such sibling; the order stays without duplicates, and the window that unselected
    keys fall back to is mapped or the root. *)
Theorem restack_places st window sibling mode :
  selections_ok st →
  let st' := restack st window sibling mode in
  selections_ok st' ∧ without st' window = without st window ∧
  match sibling with
  | Some s =>
      if decide (s ∈ without st window) then
        ∃ l1 l2, without st window = l1 ++ s :: l2 ∧
          (below mode → cs_stacking st' = l1 ++ window :: s :: l2) ∧ (above mode → cs_stacking st' = l1 ++ s :: window :: l2)
      else True
  | None => True
  end ∧
  ((∀ s, sibling = Some s → s ∉ without st window) →
   cs_stacking st' = if decide (below mode) then window :: without st window else without st window ++ [window]).
Proof.
  intros Hok st'. split; [by apply (selection_op_ok st (SelRestack window sibling mode))|]. split_and!.
  - unfold st', restack, without. simpl. rewrite filter_app, filter_cons_False by tauto.
    rewrite <-filter_app, take_drop, list_filter_filter. apply list_filter_iff. tauto.
  - destruct sibling as [s|]; [|done]. case_decide; [|done]. by apply restack_beside.
  - intros Hs. destruct (restack_alone st window sibling mode Hs) as [H1 H2]. case_decide; auto.
Qed.

(** ** Keys *)

Lemma selected_loop_first st n c : selected_loop st n c = find_first (selects_keys st) (take n (c :: ancestors_loop st n c)).
Proof.
  revert c. induction n as [|n IH]; intros c; [done|]. simpl. rewrite find_first_cons. case_decide; [done|].
  destruct (cs_parents st !! c) as [p|]; simpl; [apply IH|by destruct n].
Qed.
(** Keys go to the nearest window that selected them: from the focus (for the root focus, from
    the topmost mapped window) upwards through the parents, no further than 63 of them, so that a
    cycle of parents cannot trap the search; where none did, they go to where the search began. *)
Theorem keyboard_target_first st focused :
  let start := if decide (focused = root) then default (cs_fallback st) (topmost_mapped st) else focused in
  keyboard_target st focused = default start (find_first (selects_keys st) (take 64 (start :: ancestors st start))).
Proof. intros start. unfold keyboard_target, selected_keyboard_target. by rewrite selected_loop_first. Qed.

(** ** Close requests *)

(** Where several windows take part but neither the window nor an ancestor does, the close request is
    sent to the window, which never asked for it. *)
Lemma close_reaches_deaf_window :
  let window raw := x_resource_id raw 1 in
  select_x_close_target (window 5) [] [(window 6, true); (window 7, true)] = mk_close_target (window 5) false false 2.
Proof. by vm_compute. Qed.
