(* ===== verification/XRouting.v ===== *)
(** * Routing events to clients
    ([XServerFrontendRouteRegistry] and [XServerFrontendRouteBroker] of
    [sophia-x-authority/src/x11_socket.rs], [pointer.rs])

    Input of the engine, control commands and protocol events reach a client through its private,
    bounded queues.  Grabs redirect input inside the namespace of the surface, frozen devices defer
    it, and presentations are remembered until they are complete and idle. *)

From S2P Require Import Prelude Ids Geometry Packets PortalPackets Text Floats.
From S2P Require Import XTables XInputGrabs XState XResources XProtocol XWire XDispatch.
From S2P Require Input.
From stdpp Require Import strings pretty.
Local Open Scope Z_scope.

(** ** What is routed *)

Record XAuthorityKeyEvent : Type := mk_key_event { ke_keycode : Z; ke_pressed : bool; ke_state : Z; ke_time_msec : Z }.
Inductive XAuthorityPointerEventKind : Type := KindMotion | KindButton (button : Z) (pressed : bool).
Record XAuthorityPointerEvent : Type := mk_pointer_event {
  pv_kind : XAuthorityPointerEventKind; pv_surface : SurfaceId; pv_root_x : Z; pv_root_y : Z; pv_event_x : Z;
  pv_event_y : Z; pv_state : Z; pv_time_msec : Z;
}.
Inductive XAuthorityInputEvent : Type := InputKey (event : XAuthorityKeyEvent) | InputPointer (event : XAuthorityPointerEvent).
Record XAuthorityClientInputEvent : Type := mk_client_input {
  ci_client : Z; ci_event : XAuthorityInputEvent; ci_target_window : option XResourceId; ci_xi_event_type : option Z;
  ci_xi_transition_mask : Z; ci_delivery : option Z;
}.
Record XAuthorityRoutedInput : Type := mk_routed_input { ri_request : Input.RoutedInputRequest; ri_delivery : option Z }.
Inductive XAuthorityInputDeliveryOutcome : Type := DeliveryFlushed | DeliveryRouteRejected | DeliveryWriteFailed.
Record XAuthorityClientInputDelivery : Type := mk_delivery {
  dv_client : Z; dv_delivery : Z; dv_outcome : XAuthorityInputDeliveryOutcome;
}.
Inductive XAuthorityControlCommand : Type :=
| ConfigureSurface (transaction : TransactionId) (surface : SurfaceId) (size : Geometry.Size)
| FocusSurface (transaction : TransactionId) (surface : SurfaceId)
| CloseSurface (transaction : TransactionId) (surface : SurfaceId).
Record XAuthorityClientControlCommand : Type := mk_client_control { cc_client : Z; cc_command : XAuthorityControlCommand }.
Inductive XPresentCompletionMode : Type := ModeCopy | ModeFlip | ModeSkip | ModeSuboptimalCopy.
Definition completion_mode_code (mode : XPresentCompletionMode) : Z :=
  match mode with ModeCopy => 0 | ModeFlip => 1 | ModeSkip => 2 | ModeSuboptimalCopy => 3 end.

Inductive XServerFrontendRouteError : Type :=
| RouteUnknownClient (client : Z) | RouteUnknownSurface (surface : SurfaceId) | RouteClientQueueFull (client : Z)
| RouteDuplicatePresentation (transaction : TransactionId) | RouteClientQueueDisconnected (client : Z)
| RouteDuplicateClient (client : Z) | RouteInputDeliveryQueueFull | RouteRegistryPoisoned.

(** ** Queues *)

(** A [sync_channel]: what waits in it and whether its receiver is still there. *)
Record Channel (A : Type) : Type := mk_channel { chan_items : list A; chan_open : bool }.
Arguments mk_channel {A} chan_items chan_open.
Arguments chan_items {A} c.
Arguments chan_open {A} c.
Inductive TrySend (A : Type) : Type := Sent (channel : Channel A) | SendFull | SendDisconnected.
Arguments Sent {A} channel.
Arguments SendFull {A}.
Arguments SendDisconnected {A}.
Definition try_send {A} (capacity : Z) (channel : Channel A) (value : A) : TrySend A :=
  if chan_open channel then
    if decide (Z.of_nat (length (chan_items channel)) < capacity)
    then Sent (mk_channel (chan_items channel ++ [value]) true) else SendFull
  else SendDisconnected.
Definition channel_new {A} : Channel A := mk_channel [] true.

(** ** Coordinates *)

(** [value.floor().clamp(i16::MIN, i16::MAX) as i16], zero where it is not finite. *)
Definition float_floor (x : F64) : Z :=
  match x with
  | SpecFloat.S754_finite s m e => let z := SpecFloat.cond_Zopp s (Zpos m) in if decide (0 ≤ e) then z * 2 ^ e else z / 2 ^ (- e)
  | _ => 0
  end.
Definition clamp_input_coordinate (bits : Z) : Z := clamp_i16 (float_floor (f64_of_bits bits)).

(** ** The registry *)

Record XServerFrontendSurfaceRoute : Type := mk_surface_route { su_client : Z; su_namespace : NamespaceId; su_window : XResourceId }.
Record XPresentSubscription : Type := mk_subscription { sub_event_id : XResourceId; sub_window : XResourceId; sub_mask : Z }.
Record XPendingPresent : Type := mk_pending {
  pn_client : Z; pn_window : XResourceId; pn_pixmap : XResourceId; pn_serial : Z; pn_idle_fence : option XResourceId;
  pn_completed : bool;
}.
Record XDeferredRoutedInput : Type := mk_deferred { df_client : Z; df_route : XAuthorityRoutedInput }.
Record XServerFrontendClientRoute : Type := mk_client_route {
  cr_input : Channel XAuthorityClientInputEvent; cr_control : Channel XAuthorityControlCommand;
  cr_protocol : Channel XClientEvent;
}.
(** [KS] is the state of the keyboard of a seat, which the XKB library keeps. *)
Record XServerFrontendRouteRegistry (KS : Type) : Type := mk_registry {
  rg_clients : gmap Z XServerFrontendClientRoute; rg_surfaces : gmap SurfaceId XServerFrontendSurfaceRoute;
  rg_randr : gmap Z (XResourceId * Z); rg_present : gmap (Z * XResourceId) XPresentSubscription;
  rg_pending : gmap TransactionId XPendingPresent; rg_pointers : gmap SeatId Z; rg_keyboards : gmap SeatId KS;
  rg_input : XInputAuthorityState; rg_frozen : list XDeferredRoutedInput;
  rg_deliveries : option (Channel XAuthorityClientInputDelivery);
}.
Arguments mk_registry {KS}.
Arguments rg_clients {KS} _.
Arguments rg_surfaces {KS} _.
Arguments rg_randr {KS} _.
Arguments rg_present {KS} _.
Arguments rg_pending {KS} _.
Arguments rg_pointers {KS} _.
Arguments rg_keyboards {KS} _.
Arguments rg_input {KS} _.
Arguments rg_frozen {KS} _.
Arguments rg_deliveries {KS} _.

(** ** Events between clients *)

(** [set_x11_protocol_event_sequence]: only some events are routed. *)
Definition set_protocol_event_sequence (event : XClientEvent) (q : Z) : option XClientEvent :=
  match event with
  | EventSelectionClear _ time owner selection => Some (EventSelectionClear q time owner selection)
  | EventSelectionRequest _ time owner requestor selection target property =>
      Some (EventSelectionRequest q time owner requestor selection target property)
  | EventSelectionNotify _ time requestor selection target property =>
      Some (EventSelectionNotify q time requestor selection target property)
  | EventRandrScreenChange _ timestamp config_timestamp root request_window width height mm_width mm_height =>
      Some (EventRandrScreenChange q timestamp config_timestamp root request_window width height mm_width mm_height)
  | EventRandrCrtcChange _ timestamp window crtc mode x y width height =>
      Some (EventRandrCrtcChange q timestamp window crtc mode x y width height)
  | EventRandrOutputChange _ timestamp window output crtc mode => Some (EventRandrOutputChange q timestamp window output crtc mode)
  | EventRandrResourceChange _ timestamp window => Some (EventRandrResourceChange q timestamp window)
  | EventPresentCompleteNotify _ event_id window serial ust msc mode =>
      Some (EventPresentCompleteNotify q event_id window serial ust msc mode)
  | EventPresentIdleNotify _ event_id window serial pixmap idle_fence =>
      Some (EventPresentIdleNotify q event_id window serial pixmap idle_fence)
  | _ => None
  end.

Section registry.
  Context {KS : Type} (capacity : Z).
  (** The keyboard of a new seat, a key of it, and its modifiers as X knows them. *)
  Context (keyboard_new : KS) (keyboard_key : KS → Z → bool → option (Z * Z) * KS) (keyboard_mask : KS → Z).
  Notation Registry := (XServerFrontendRouteRegistry KS).
  Implicit Types (r : Registry).

Definition set_clients r m : Registry :=
  mk_registry m (rg_surfaces r) (rg_randr r) (rg_present r) (rg_pending r) (rg_pointers r) (rg_keyboards r) (rg_input r)
    (rg_frozen r) (rg_deliveries r).
Definition set_surfaces r m : Registry :=
  mk_registry (rg_clients r) m (rg_randr r) (rg_present r) (rg_pending r) (rg_pointers r) (rg_keyboards r) (rg_input r)
    (rg_frozen r) (rg_deliveries r).
Definition set_randr r m : Registry :=
  mk_registry (rg_clients r) (rg_surfaces r) m (rg_present r) (rg_pending r) (rg_pointers r) (rg_keyboards r) (rg_input r)
    (rg_frozen r) (rg_deliveries r).
Definition set_present r m : Registry :=
  mk_registry (rg_clients r) (rg_surfaces r) (rg_randr r) m (rg_pending r) (rg_pointers r) (rg_keyboards r) (rg_input r)
    (rg_frozen r) (rg_deliveries r).
Definition set_pending r m : Registry :=
  mk_registry (rg_clients r) (rg_surfaces r) (rg_randr r) (rg_present r) m (rg_pointers r) (rg_keyboards r) (rg_input r)
    (rg_frozen r) (rg_deliveries r).
Definition set_seats r pointers keyboards : Registry :=
  mk_registry (rg_clients r) (rg_surfaces r) (rg_randr r) (rg_present r) (rg_pending r) pointers keyboards (rg_input r)
    (rg_frozen r) (rg_deliveries r).
Definition set_input r i : Registry :=
  mk_registry (rg_clients r) (rg_surfaces r) (rg_randr r) (rg_present r) (rg_pending r) (rg_pointers r) (rg_keyboards r) i
    (rg_frozen r) (rg_deliveries r).
Definition set_frozen_input r l : Registry :=
  mk_registry (rg_clients r) (rg_surfaces r) (rg_randr r) (rg_present r) (rg_pending r) (rg_pointers r) (rg_keyboards r)
    (rg_input r) l (rg_deliveries r).
Definition set_deliveries r d : Registry :=
  mk_registry (rg_clients r) (rg_surfaces r) (rg_randr r) (rg_present r) (rg_pending r) (rg_pointers r) (rg_keyboards r)
    (rg_input r) (rg_frozen r) d.

(** A step on the registry; what it did before an error stays done. *)
Definition R (A : Type) : Type := Registry → result A XServerFrontendRouteError * Registry.
#[export] Instance r_ret : MRet R := λ A a r, (Ok a, r).
#[export] Instance r_bind : MBind R := λ A B k m r,
  match m r with (Ok a, r) => k a r | (Err e, r) => (Err e, r) end.
Definition r_get : R Registry := λ r, (Ok r, r).
Definition r_set (r : Registry) : R unit := λ _, (Ok (), r).
Definition r_fail {A} (e : XServerFrontendRouteError) : R A := λ r, (Err e, r).
Definition r_lift {A} (m : result A XServerFrontendRouteError) : R A := λ r, (m, r).
Fixpoint r_for {A} (l : list A) (f : A → R unit) : R unit :=
  match l with [] => mret () | a :: l => _ ← f a; r_for l f end.

(** [with_transports]: nothing is registered. *)
Definition route_registry_new (deliveries : bool) : Registry :=
  mk_registry ∅ ∅ ∅ ∅ ∅ ∅ ∅ input_state_default [] (if deliveries then Some channel_new else None).

(** ** Clients and their queues *)

Definition route_register_client (client : Z) : R unit :=
  r ← r_get;
  match rg_clients r !! client with
  | Some _ => r_fail (RouteDuplicateClient client)
  | None => r_set (set_clients r (<[client := mk_client_route channel_new channel_new channel_new]> (rg_clients r)))
  end.
(** [Drop for XServerFrontendClientRouteRegistration] *)
Definition drop_registration (client : Z) (r : Registry) : Registry :=
  mk_registry (delete client (rg_clients r))
    (filter (λ e : SurfaceId * XServerFrontendSurfaceRoute, su_client e.2 ≠ client) (rg_surfaces r))
    (delete client (rg_randr r))
    (filter (λ e : (Z * XResourceId) * XPresentSubscription, e.1.1 ≠ client) (rg_present r))
    (filter (λ e : TransactionId * XPendingPresent, pn_client e.2 ≠ client) (rg_pending r))
    (rg_pointers r) (rg_keyboards r) (rg_input r) (filter (λ d, df_client d ≠ client) (rg_frozen r)) (rg_deliveries r).
Definition client_senders (client : Z) : R XServerFrontendClientRoute :=
  r ← r_get; r_lift (ok_or (rg_clients r !! client) (RouteUnknownClient client)).
(** [route_to_client]: one of the client's queues, as [update] puts it back. *)
Definition route_to_client {A} (client : Z) (route : XServerFrontendClientRoute) (channel : Channel A)
    (update : Channel A → XServerFrontendClientRoute) (value : A) : R unit :=
  r ← r_get;
  match try_send capacity channel value with
  | Sent channel => r_set (set_clients r (<[client := update channel]> (rg_clients r)))
  | SendFull => r_fail (RouteClientQueueFull client)
  | SendDisconnected =>
      _ ← r_set (set_clients r (delete client (rg_clients r))); r_fail (RouteClientQueueDisconnected client)
  end.
Definition route_input (route : XAuthorityClientInputEvent) : R unit :=
  c ← client_senders (ci_client route);
  route_to_client (ci_client route) c (cr_input c) (λ q, mk_client_route q (cr_control c) (cr_protocol c)) route.
Definition route_control (route : XAuthorityClientControlCommand) : R unit :=
  c ← client_senders (cc_client route);
  route_to_client (cc_client route) c (cr_control c) (λ q, mk_client_route (cr_input c) q (cr_protocol c)) (cc_command route).
(** A client that is gone is no error. *)
Definition or_disconnected (m : R unit) : R unit := λ r,
  match m r with (Err (RouteClientQueueDisconnected _), r) => (Ok (), r) | result => result end.
Definition route_protocol (client : Z) (event : XClientEvent) : R unit :=
  c ← client_senders client;
  or_disconnected
    (route_to_client client c (cr_protocol c) (λ q, mk_client_route (cr_input c) (cr_control c) q) event).
Definition send_input_delivery (client : Z) (delivery : option Z) (outcome : XAuthorityInputDeliveryOutcome) : R unit :=
  r ← r_get;
  match delivery, rg_deliveries r with
  | Some delivery, Some channel =>
      match try_send capacity channel (mk_delivery client delivery outcome) with
      | Sent channel => r_set (set_deliveries r (Some channel))
      | SendDisconnected => mret ()
      | SendFull => r_fail RouteInputDeliveryQueueFull
      end
  | _, _ => mret ()
  end.

(** ** Surfaces and subscriptions *)

Definition register_surface (client : Z) (namespace : NamespaceId) (surface : SurfaceId) (window : XResourceId) (r : Registry) :
    Registry := set_surfaces r (<[surface := mk_surface_route client namespace window]> (rg_surfaces r)).
Definition select_randr_input (client : Z) (window : XResourceId) (mask : Z) (r : Registry) : Registry :=
  set_randr r (if decide (mask = 0) then delete client (rg_randr r) else <[client := (window, mask)]> (rg_randr r)).
Definition select_present_input (client : Z) (event_id window : XResourceId) (mask : Z) (r : Registry) : Registry :=
  set_present r (if decide (mask = 0) then delete (client, event_id) (rg_present r)
                 else <[(client, event_id) := mk_subscription event_id window mask]> (rg_present r)).
Definition broadcast_events (snapshot : OutputTopologySnapshot) (size : Geometry.Size) (width height : Z)
    (window : XResourceId) (mask : Z) : list XClientEvent :=
  let timestamp := randr_timestamp snapshot in
  let mm z := Z.max (try_or 0 u16_MAX u16_MAX (Z.quot (z * 254 + 480) 960)) 1 in
  let has bit := bool_decide (Z.land mask (Z.shiftl 1 bit) ≠ 0) in
  (if has 0 then [EventRandrScreenChange 0 timestamp timestamp root window width height (mm (sz_width size)) (mm (sz_height size))]
   else []) ++
  (ots_outputs snapshot ≫= λ output,
     let logical := ote_logical output in
     let mode := stable_randr_mode_id (rwidth logical) (rheight logical) (ote_refresh_millihz output) in
     (if has 1 then
        [EventRandrCrtcChange 0 timestamp window (randr_crtc output) mode (i16_or_max (rx logical)) (i16_or_max (ry logical))
           (u16_or_max (rwidth logical)) (u16_or_max (rheight logical))] else []) ++
     (if has 2 then [EventRandrOutputChange 0 timestamp window (randr_output output) (randr_crtc output) mode] else [])) ++
  (if has 6 then [EventRandrResourceChange 0 timestamp window] else []).
(** The number of events queued. *)
Definition broadcast_randr_update (snapshot : OutputTopologySnapshot) : R Z :=
  match topology_validate snapshot with
  | Err _ => r_fail RouteRegistryPoisoned
  | Ok size =>
      match u16_exactly (sz_width size), u16_exactly (sz_height size) with
      | Some width, Some height =>
          r ← r_get;
          let sent := btree_entries (rg_randr r) ≫= λ e : Z * (XResourceId * Z),
            (λ event, (e.1, event)) <$> broadcast_events snapshot size width height e.2.1 e.2.2 in
          _ ← r_for sent (λ e, route_protocol e.1 e.2);
          mret (Z.of_nat (length sent))
      | _, _ => r_fail RouteRegistryPoisoned
      end
  end.

(** ** Presentations *)

(** [queue_present] waits up to two seconds for room; here, with the room there is after the wait. *)
Definition queue_present (transaction : TransactionId) (client : Z) (window pixmap : XResourceId) (serial : Z)
    (idle_fence : option XResourceId) : R unit :=
  r ← r_get;
  if decide (find_first (λ e : SurfaceId * XServerFrontendSurfaceRoute, su_client e.2 = client ∧ su_window e.2 = window)
               (btree_entries (rg_surfaces r)) = None)
  then r_fail (RouteUnknownClient client)
  else if decide (is_Some (rg_pending r !! transaction)) then r_fail (RouteDuplicatePresentation transaction)
  else if decide (capacity ≤ count_values (λ p, pn_client p = client) (rg_pending r)) then r_fail (RouteClientQueueFull client)
  else r_set (set_pending r (<[transaction := mk_pending client window pixmap serial idle_fence false]> (rg_pending r))).
(** Who asked for the event of bit [bit] about the window of a presentation. *)
Definition present_subscribers (r : Registry) (p : XPendingPresent) (bit : Z) : list XPresentSubscription :=
  omap (λ e : (Z * XResourceId) * XPresentSubscription,
    if decide (e.1.1 = pn_client p ∧ sub_window e.2 = pn_window p ∧ Z.land (sub_mask e.2) (Z.shiftl 1 bit) ≠ 0)
    then Some e.2 else None) (btree_entries (rg_present r)).
Definition notify_subscribers (p : XPendingPresent) (bit : Z) (event : XPresentSubscription → XClientEvent) : R bool :=
  r ← r_get;
  match present_subscribers r p bit with
  | [] => mret false
  | subscriptions => _ ← r_for subscriptions (λ s, route_protocol (pn_client p) (event s)); mret true
  end.
Definition complete_event (p : XPendingPresent) (ust msc : Z) (mode : XPresentCompletionMode) (s : XPresentSubscription) :
    XClientEvent :=
  EventPresentCompleteNotify 0 (sub_event_id s) (pn_window p) (pn_serial p) ust msc (completion_mode_code mode).
Definition idle_event (p : XPendingPresent) (s : XPresentSubscription) : XClientEvent :=
  EventPresentIdleNotify 0 (sub_event_id s) (pn_window p) (pn_serial p) (pn_pixmap p) (pn_idle_fence p).
Definition route_present_complete (transaction : TransactionId) (ust msc : Z) (mode : XPresentCompletionMode) : R bool :=
  r ← r_get;
  match rg_pending r !! transaction with
  | None => mret false
  | Some p =>
      if pn_completed p then mret false
      else
        let p := mk_pending (pn_client p) (pn_window p) (pn_pixmap p) (pn_serial p) (pn_idle_fence p) true in
        _ ← r_set (set_pending r (<[transaction := p]> (rg_pending r)));
        notify_subscribers p 1 (complete_event p ust msc mode)
  end.
Definition cancel_present (transaction : TransactionId) (r : Registry) : Registry :=
  set_pending r (delete transaction (rg_pending r)).
Definition route_present_idle (transaction : TransactionId) : R bool :=
  r ← r_get;
  match rg_pending r !! transaction with
  | None => mret false
  | Some p =>
      if pn_completed p then
        _ ← r_set (set_pending r (delete transaction (rg_pending r)));
        notify_subscribers p 2 (idle_event p)
      else mret false
  end.

(** ** Input *)

Definition route_is_frozen (r : Registry) (route : XAuthorityRoutedInput) (namespace : NamespaceId) : bool :=
  match Input.rq_kind (ri_request route) with
  | Input.Key _ _ => ns_keyboard_frozen (rg_input r) namespace
  | Input.PointerMotion | Input.PointerButton _ _ => ns_pointer_frozen (rg_input r) namespace
  end.
(** The client a grab sends an event to, and the window. *)
Definition grab_target (surface : XServerFrontendSurfaceRoute) (grab : XActiveInputGrab) : Z * XResourceId :=
  (ag_owner grab,
   if decide (ag_owner_events grab = true ∧ ag_owner grab = su_client surface) then su_window surface else ag_window grab).
Definition redirected (surface : XServerFrontendSurfaceRoute) (grab : option XActiveInputGrab) (target : Z * XResourceId) :
    Z * XResourceId := match grab with Some grab => grab_target surface grab | None => target end.
Definition implicit_grab (surface : XServerFrontendSurfaceRoute) : XActiveInputGrab :=
  mk_active (su_client surface) (su_window surface) true 1 1 u16_MAX.
Definition pointer_event (request : Input.RoutedInputRequest) (kind : XAuthorityPointerEventKind) (state time : Z) :
    XAuthorityInputEvent :=
  let at_ f p := clamp_input_coordinate (f (p request)) in
  InputPointer (mk_pointer_event kind (Input.rq_target_surface request)
    (at_ pt_x Input.rq_global_position) (at_ pt_y Input.rq_global_position)
    (at_ pt_x Input.rq_local_position) (at_ pt_y Input.rq_local_position) state time).
(** The keyboard of a seat, as the worker keeps it. *)
Definition seat_keyboard (r : Registry) (seat : SeatId) : KS := default keyboard_new (rg_keyboards r !! seat).
Definition set_keyboard (r : Registry) (seat : SeatId) (k : KS) : Registry :=
  set_seats r (rg_pointers r) (<[seat := k]> (rg_keyboards r)).

(** What becomes of an input event that is not deferred: the event, its client and window and the
    registry with grabs and devices updated; or nothing, where the device does not know the key. *)
Definition resolve_input (r : Registry) (surface : XServerFrontendSurfaceRoute) (route : XAuthorityRoutedInput) :
    option XAuthorityInputEvent * (Z * XResourceId) * Registry :=
  let request := ri_request route in
  let namespace := su_namespace surface in
  let seat := Input.rq_seat request in
  let button_state := default 0 (rg_pointers r !! seat) in
  let r := set_seats r (<[seat := button_state]> (rg_pointers r)) (rg_keyboards r) in
  let time := try_or 0 u32_MAX u32_MAX (Input.rq_time_msec request) in
  let own := (su_client surface, su_window surface) in
  match Input.rq_kind request with
  | Input.Key keycode pressed =>
      let target := redirected surface (keyboard_grab (rg_input r) namespace) own in
      let '(mapped, keyboard) := keyboard_key (seat_keyboard r seat) keycode pressed in
      let r := set_keyboard r seat keyboard in
      match mapped with
      | None => (None, target, r)
      | Some (keycode, state) =>
          let '(passive, input) :=
            if pressed then activate_key (rg_input r) namespace keycode (Z.land state 255)
            else (None, release_key (rg_input r) namespace keycode) in
          (Some (InputKey (mk_key_event keycode pressed (Z.lor state button_state) time)),
           redirected surface passive target, set_input r input)
      end
  | Input.PointerMotion =>
      let target := redirected surface (pointer_grab (rg_input r) namespace) own in
      let keyboard := seat_keyboard r seat in
      (Some (pointer_event request KindMotion (Z.lor (keyboard_mask keyboard) button_state) time), target,
       set_keyboard r seat keyboard)
  | Input.PointerButton evdev_button pressed =>
      let target := redirected surface (pointer_grab (rg_input r) namespace) own in
      let '(mapped, new_state) := map_evdev_button button_state evdev_button pressed in
      let r := set_seats r (<[seat := new_state]> (rg_pointers r)) (rg_keyboards r) in
      match mapped with
      | None => (None, target, r)
      | Some (button, state) =>
          let '(target, input) :=
            if pressed then
              let '(grab, input) :=
                activate_button (rg_input r) namespace button (Z.land state 255) (implicit_grab surface) in
              (grab_target surface grab, input)
            else (target, release_button (rg_input r) namespace button) in
          let r := set_input r input in
          let keyboard := seat_keyboard r seat in
          (Some (pointer_event request (KindButton button pressed) (Z.lor (keyboard_mask keyboard) state) time), target,
           set_keyboard r seat keyboard)
      end
  end.
(** The XInput2 device of an event, its type, and the types that tell of entering and leaving. *)
Definition xi_types (event : XAuthorityInputEvent) : Z * Z * list Z :=
  match event with
  | InputKey key => (3, if ke_pressed key then 2 else 3, [9; 10])
  | InputPointer p =>
      match pv_kind p with KindButton _ pressed => (2, if pressed then 4 else 5, [7; 8]) | KindMotion => (2, 6, [7; 8]) end
  end.
Definition client_input (r : Registry) (surface : XServerFrontendSurfaceRoute) (route : XAuthorityRoutedInput)
    (event : XAuthorityInputEvent) (client : Z) (window : XResourceId) : XAuthorityClientInputEvent :=
  let '(device, selected_type, transitions) := xi_types event in
  let selected type_ := xi_event_selected (rg_input r) (su_namespace surface) client window device type_ in
  mk_client_input client event (Some window) (if selected selected_type then Some selected_type else None)
    (foldl (λ mask type_, if selected type_ then Z.lor mask (Z.shiftl 1 type_) else mask) 0 transitions)
    (ri_delivery route).
Definition route_engine_input (route : XAuthorityRoutedInput) : R unit :=
  r ← r_get;
  let target := Input.rq_target_surface (ri_request route) in
  surface ← r_lift (ok_or (rg_surfaces r !! target) (RouteUnknownSurface target));
  if route_is_frozen r route (su_namespace surface) then
    if decide (capacity ≤ Z.of_nat (length (rg_frozen r))) then
      _ ← send_input_delivery (su_client surface) (ri_delivery route) DeliveryRouteRejected;
      r_fail (RouteClientQueueFull (su_client surface))
    else r_set (set_frozen_input r (rg_frozen r ++ [mk_deferred (su_client surface) route]))
  else
    let '(event, (client, window), r) := resolve_input r surface route in
    _ ← r_set r;
    match event with
    | None => send_input_delivery client (ri_delivery route) DeliveryRouteRejected
    | Some event => route_input (client_input r surface route event client window)
    end.
(** One turn of the loop of [drain_thawed_input]: whether an event was routed. *)
Definition drain_step : R bool :=
  r ← r_get;
  match rg_frozen r with
  | [] => mret false
  | deferred :: rest =>
      let r := set_frozen_input r rest in
      let route := df_route deferred in
      _ ← r_set r;
      match rg_surfaces r !! Input.rq_target_surface (ri_request route) with
      | None => _ ← send_input_delivery (df_client deferred) (ri_delivery route) DeliveryRouteRejected; mret false
      | Some surface =>
          if route_is_frozen r route (su_namespace surface) then
            _ ← r_set (set_frozen_input r (rest ++ [mk_deferred (df_client deferred) route])); mret false
          else _ ← route_engine_input route; mret true
      end
  end.
Fixpoint drain_loop (queued : nat) (routed : Z) : R Z :=
  match queued with
  | O => mret routed
  | S queued => b ← drain_step; drain_loop queued (if (b : bool) then routed + 1 else routed)
  end.
Definition drain_thawed_input : R Z := r ← r_get; drain_loop (length (rg_frozen r)) 0.

(** ** The broker *)

Record XServerFrontendRouteBroker : Type := mk_broker {
  bk_registry : Registry; bk_routed : list XAuthorityRoutedInput; bk_input : list XAuthorityClientInputEvent;
  bk_control : list XAuthorityClientControlCommand;
}.
Definition set_registry (b : XServerFrontendRouteBroker) (r : Registry) : XServerFrontendRouteBroker :=
  mk_broker r (bk_routed b) (bk_input b) (bk_control b).
(** A step of the registry in the broker. *)
Definition in_broker {A} (m : R A) (b : XServerFrontendRouteBroker) :
    result A XServerFrontendRouteError * XServerFrontendRouteBroker :=
  let '(a, r) := m (bk_registry b) in (a, set_registry b r).
(** Errors of engine input that only say that its target is gone. *)
Definition target_gone (e : XServerFrontendRouteError) : Prop :=
  match e with RouteUnknownSurface _ | RouteClientQueueDisconnected _ | RouteUnknownClient _ => True | _ => False end.
#[export] Instance target_gone_dec e : Decision (target_gone e).
Proof. destruct e; apply _. Defined.

(** One turn of the loop: how many values were routed and whether there was any. *)
Definition broker_routed (b : XServerFrontendRouteBroker) : result (Z * bool) XServerFrontendRouteError * XServerFrontendRouteBroker :=
  match bk_routed b with
  | [] => (Ok (0, false), b)
  | route :: rest =>
      let b := mk_broker (bk_registry b) rest (bk_input b) (bk_control b) in
      match in_broker (route_engine_input route) b with
      | (Ok _, b) => (Ok (1, true), b)
      | (Err e, b) => if decide (target_gone e) then (Ok (0, true), b) else (Err e, b)
      end
  end.
Definition broker_input (b : XServerFrontendRouteBroker) : result (Z * bool) XServerFrontendRouteError * XServerFrontendRouteBroker :=
  match bk_input b with
  | [] => (Ok (0, false), b)
  | route :: rest =>
      let b := mk_broker (bk_registry b) (bk_routed b) rest (bk_control b) in
      match in_broker (route_input route) b with
      | (Ok _, b) => (Ok (1, true), b)
      | (Err error, b) =>
          match in_broker (send_input_delivery (ci_client route) (ci_delivery route) DeliveryRouteRejected) b with
          | (Ok _, b) => (Err error, b)
          | (Err e, b) => (Err e, b)
          end
      end
  end.
Definition broker_control (b : XServerFrontendRouteBroker) : result (Z * bool) XServerFrontendRouteError * XServerFrontendRouteBroker :=
  match bk_control b with
  | [] => (Ok (0, false), b)
  | route :: rest =>
      let b := mk_broker (bk_registry b) (bk_routed b) (bk_input b) rest in
      match in_broker (route_control route) b with
      | (Ok _, b) => (Ok (1, true), b)
      | (Err e, b) => (Err e, b)
      end
  end.
Definition broker_turn (b : XServerFrontendRouteBroker) : result (Z * bool) XServerFrontendRouteError * XServerFrontendRouteBroker :=
  match broker_routed b with
  | (Err e, b) => (Err e, b)
  | (Ok (n1, p1), b) =>
      match broker_input b with
      | (Err e, b) => (Err e, b)
      | (Ok (n2, p2), b) =>
          match broker_control b with
          | (Err e, b) => (Err e, b)
          | (Ok (n3, p3), b) =>
              match in_broker drain_thawed_input b with
              | (Err e, b) => (Err e, b)
              | (Ok thawed, b) => (Ok (n1 + n2 + n3 + thawed, p1 || p2 || p3 || bool_decide (thawed ≠ 0)), b)
              end
          end
      end
  end.
(** [route_pending]; [None] where the fuel does not suffice. *)
Fixpoint route_pending_loop (fuel : nat) (routed : Z) (b : XServerFrontendRouteBroker) :
    option (result Z XServerFrontendRouteError * XServerFrontendRouteBroker) :=
  match fuel with
  | O => None
  | S fuel =>
      match broker_turn b with
      | (Err e, b) => Some (Err e, b)
      | (Ok (n, progressed), b) => if progressed then route_pending_loop fuel (routed + n) b else Some (Ok (routed + n), b)
      end
  end.
Definition route_pending (fuel : nat) (b : XServerFrontendRouteBroker) :
    option (result Z XServerFrontendRouteError * XServerFrontendRouteBroker) := route_pending_loop fuel 0 b.
End registry.
