(* ===== verification/XRoutes.v ===== *)
(** * What the routes to clients guarantee
    ([sophia-x-authority/src/x11_socket.rs]) *)

From S2P Require Import Prelude Ids Geometry Packets PortalPackets Text Floats.
From S2P Require Import XTables XInputGrabs XState XResources XProtocol XWire XDispatch XRouting.
From S2P Require Input.
From stdpp Require Import strings pretty.
Local Open Scope Z_scope.

Section routes.
  Context {KS : Type} (capacity : Z).
  Context (keyboard_new : KS) (keyboard_key : KS → Z → bool → option (Z * Z) * KS) (keyboard_mask : KS → Z).
  Notation Registry := (XServerFrontendRouteRegistry KS).
  Implicit Types (r : Registry) (P : Registry → Prop).
  Notation resolve := (resolve_input keyboard_new keyboard_key keyboard_mask).
  Notation engine := (route_engine_input capacity keyboard_new keyboard_key keyboard_mask).
  Notation drain := (drain_thawed_input capacity keyboard_new keyboard_key keyboard_mask).
  Notation drains := (drain_loop capacity keyboard_new keyboard_key keyboard_mask).
  Notation drain1 := (drain_step capacity keyboard_new keyboard_key keyboard_mask).

(** ** Steps that keep a property of the registry *)

Definition keeps {A} P (m : R A) : Prop := ∀ r, P r → P (m r).2.
Lemma keeps_ret {A} P (a : A) : keeps P (mret a).
Proof. by intros r. Qed.
Lemma keeps_fail {A} P e : keeps P (r_fail (A := A) e).
Proof. by intros r. Qed.
Lemma keeps_lift {A} P (m : result A XServerFrontendRouteError) : keeps P (r_lift m).
Proof. by intros r. Qed.
Lemma keeps_bind {A B} P (m : R A) (k : A → R B) : keeps P m → (∀ a, keeps P (k a)) → keeps P (m ≫= k).
Proof.
  intros Hm Hk r Hr. unfold mbind, r_bind. specialize (Hm r Hr). destruct (m r) as [[a|e] r']; [by apply Hk|done].
Qed.
Lemma keeps_for {A} P (l : list A) f : (∀ a, a ∈ l → keeps P (f a)) → keeps P (r_for l f).
Proof.
  induction l as [|a l IH]; intros Hf; [apply keeps_ret|]. apply keeps_bind; [apply Hf; left|].
  intros _. apply IH. intros b Hb. apply Hf. by right.
Qed.
(** A step that starts from the registry it changes. *)
Lemma keeps_get {A} P (k : Registry → R A) : (∀ r, P r → P (k r r).2) → keeps P (r_get ≫= k).
Proof. intros Hk r Hr. by apply Hk. Qed.
Lemma keeps_set {A} P r' (k : unit → R A) r : P r' → keeps P (k ()) → P ((r_set r' ≫= k) r).2.
Proof. intros Hr Hk. by apply Hk. Qed.

(** Sending to a client puts one value in one of its queues, or forgets the client. *)
Definition sends (client : Z) (route' : XServerFrontendClientRoute) (r r' : Registry) : Prop :=
  r' = r ∨ r' = set_clients r (<[client := route']> (rg_clients r)) ∨ r' = set_clients r (delete client (rg_clients r)).
Lemma route_to_client_cases {A} client route (ch : Channel A) update value r :
  let '(res, r') := route_to_client capacity client route ch update value r in
  match res with
  | Ok _ => chan_open ch = true ∧ Z.of_nat (length (chan_items ch)) < capacity ∧
      r' = set_clients r (<[client := update (mk_channel (chan_items ch ++ [value]) true)]> (rg_clients r))
  | Err (RouteClientQueueFull c) => c = client ∧ r' = r ∧ capacity ≤ Z.of_nat (length (chan_items ch))
  | Err (RouteClientQueueDisconnected c) => c = client ∧ r' = set_clients r (delete client (rg_clients r)) ∧ chan_open ch = false
  | Err _ => False
  end.
Proof.
  unfold route_to_client, mbind, r_bind, r_get, r_set, r_fail, try_send.
  destruct (chan_open ch) eqn:Ho; [|by split_and!]. case_decide; by split_and!; try lia.
Qed.

(** ** Bounded queues *)

Definition channel_bounded {A} (ch : Channel A) : Prop := Z.of_nat (length (chan_items ch)) ≤ capacity.
Definition route_bounded (c : XServerFrontendClientRoute) : Prop :=
  channel_bounded (cr_input c) ∧ channel_bounded (cr_control c) ∧ channel_bounded (cr_protocol c).
Record registry_bounded r : Prop := mk_registry_bounded {
  rb_clients : ∀ client c, rg_clients r !! client = Some c → route_bounded c;
  rb_frozen : Z.of_nat (length (rg_frozen r)) ≤ capacity;
  rb_pending : ∀ client, count_values (λ p, pn_client p = client) (rg_pending r) ≤ capacity;
  rb_deliveries : ∀ ch, rg_deliveries r = Some ch → channel_bounded ch;
}.
Lemma bounded_clients r m :
  registry_bounded r → (∀ client c, m !! client = Some c → route_bounded c) → registry_bounded (set_clients r m).
Proof. intros [? ? ? ?] Hm. by constructor. Qed.
Lemma bounded_insert r client c : registry_bounded r → route_bounded c → registry_bounded (set_clients r (<[client := c]> (rg_clients r))).
Proof.
  intros Hr Hc. apply bounded_clients; [done|]. intros client' c'. rewrite lookup_insert_Some.
  intros [[_ <-]|[_ H]]; [done|by eapply rb_clients].
Qed.
Lemma bounded_delete r client : registry_bounded r → registry_bounded (set_clients r (delete client (rg_clients r))).
Proof. intros Hr. apply bounded_clients; [done|]. intros c' c. rewrite lookup_delete_Some. intros [_ H]. by eapply rb_clients. Qed.
Lemma send_bounded {A} client c (ch : Channel A) update value r :
  registry_bounded r → (∀ q, channel_bounded q → route_bounded (update q)) →
  registry_bounded (route_to_client capacity client c ch update value r).2.
Proof.
  intros Hr Hu. pose proof (route_to_client_cases client c ch update value r) as H.
  destruct (route_to_client _ _ _ _ _ _ _) as [[[]|e] r']; simpl.
  - destruct H as (_ & Hlt & ->). apply bounded_insert; [done|]. apply Hu. unfold channel_bounded. simpl. rewrite length_app. simpl. lia.
  - destruct e; try done; destruct H as (_ & -> & _); [done|by apply bounded_delete].
Qed.
(** A client looked up and sent to. *)
Lemma keeps_senders {A} P client (k : XServerFrontendClientRoute → R A) :
  (∀ c r, P r → rg_clients r !! client = Some c → P (k c r).2) → keeps P (client_senders client ≫= k).
Proof.
  intros Hk r Hr. unfold client_senders, mbind, r_bind, r_get, r_lift. destruct (rg_clients r !! client) as [c|] eqn:E; [|done].
  simpl. by apply Hk.
Qed.
Lemma or_disconnected_at P m r : P (m r).2 → P (or_disconnected (KS := KS) m r).2.
Proof. intros Hm. unfold or_disconnected. destruct (m r) as [[a|[]] r']; done. Qed.
Lemma route_input_bounded e : keeps registry_bounded (route_input (KS := KS) capacity e).
Proof.
  apply keeps_senders. intros c r Hr Hc. destruct (rb_clients _ Hr _ _ Hc) as (? & ? & ?). by apply send_bounded.
Qed.
Lemma route_control_bounded e : keeps registry_bounded (route_control (KS := KS) capacity e).
Proof.
  apply keeps_senders. intros c r Hr Hc. destruct (rb_clients _ Hr _ _ Hc) as (? & ? & ?). by apply send_bounded.
Qed.
Lemma route_protocol_bounded client e : keeps registry_bounded (route_protocol (KS := KS) capacity client e).
Proof.
  apply keeps_senders. intros c r Hr Hc. destruct (rb_clients _ Hr _ _ Hc) as (? & ? & ?).
  by apply or_disconnected_at, send_bounded.
Qed.
Lemma send_delivery_bounded client d o : keeps registry_bounded (send_input_delivery (KS := KS) capacity client d o).
Proof.
  intros r Hr. unfold send_input_delivery, mbind, r_bind, r_get. destruct d as [d|]; [|done].
  destruct (rg_deliveries r) as [ch|] eqn:E; [|done]. unfold try_send. destruct (chan_open ch); [|done]. case_decide; [|done].
  simpl. destruct Hr. constructor; simpl; try done. intros ch' [= <-]. unfold channel_bounded. simpl. rewrite length_app. simpl. lia.
Qed.

(** Resolving input changes the devices and the grabs, and nothing else. *)
Definition same_routes (r r' : Registry) : Prop :=
  rg_clients r' = rg_clients r ∧ rg_surfaces r' = rg_surfaces r ∧ rg_pending r' = rg_pending r ∧
  rg_present r' = rg_present r ∧ rg_randr r' = rg_randr r ∧ rg_frozen r' = rg_frozen r ∧ rg_deliveries r' = rg_deliveries r.
Lemma resolve_same r surface route : same_routes r (resolve r surface route).2.
Proof.
  unfold resolve_input. destruct (Input.rq_kind _) as [|b p|k p]; simpl; [done| |].
  - destruct (map_evdev_button _ b p) as [[[b' st]|] n]; [|done]. destruct p; simpl; [|done].
    by destruct (activate_button _ _ _ _ _).
  - destruct (keyboard_key _ k p) as [[[k' st]|] kb]; [|done]. destruct p; simpl; [|done]. by destruct (activate_key _ _ _ _).
Qed.
Lemma bounded_same r r' : same_routes r r' → registry_bounded r → registry_bounded r'.
Proof. intros (E1 & _ & E3 & _ & _ & E6 & E7) [H1 H2 H3 H4]. constructor; by rewrite ?E1, ?E3, ?E6, ?E7. Qed.
Lemma bounded_frozen r l : registry_bounded r → Z.of_nat (length l) ≤ capacity → registry_bounded (set_frozen_input r l).
Proof. intros [? ? ? ?] Hl. by constructor. Qed.
Lemma bounded_pending r m :
  registry_bounded r → (∀ client, count_values (λ p, pn_client p = client) m ≤ capacity) → registry_bounded (set_pending r m).
Proof. intros [? ? ? ?] Hm. by constructor. Qed.
Lemma engine_bounded route : keeps registry_bounded (engine route).
Proof.
  apply keeps_get. intros r Hr. unfold mbind at 1, r_bind at 1, r_lift. destruct (rg_surfaces r !! _) as [surface|]; [|done].
  simpl. destruct (route_is_frozen _ _ _).
  - case_decide.
    + by apply (keeps_bind registry_bounded); [apply send_delivery_bounded|intros; apply keeps_fail|].
    + apply bounded_frozen; [done|]. rewrite length_app. simpl. lia.
  - pose proof (resolve_same r surface route) as Hsame. destruct (resolve r surface route) as [[event [client window]] r'].
    simpl in Hsame. apply (bounded_same _ _ Hsame) in Hr as Hr'. apply keeps_set; [done|].
    destruct event; [apply route_input_bounded|apply send_delivery_bounded].
Qed.
Lemma drain_step_bounded : keeps registry_bounded drain1.
Proof.
  apply keeps_get. intros r Hr. destruct (rg_frozen r) as [|d rest] eqn:E; [done|]. cbv zeta.
  assert (Z.of_nat (length (d :: rest)) ≤ capacity) as Hlen by (rewrite <-E; apply rb_frozen, Hr). simpl in Hlen.
  assert (registry_bounded (set_frozen_input r rest)) as Hrest by (apply bounded_frozen; [done|lia]).
  apply keeps_set; [done|]. destruct (rg_surfaces _ !! _) as [surface|].
  - destruct (route_is_frozen _ _ _).
    + intros r0 Hr0. simpl. apply bounded_frozen; [done|]. rewrite length_app. simpl. lia.
    + apply keeps_bind; [apply engine_bounded|intros; apply keeps_ret].
  - apply keeps_bind; [apply send_delivery_bounded|intros; apply keeps_ret].
Qed.
Lemma drain_bounded : keeps registry_bounded drain.
Proof.
  apply keeps_get. intros r Hr. generalize (length (rg_frozen r)). intros n.
  assert (∀ n k, keeps registry_bounded (drains n k)) as H; [|by apply H].
  clear. intros n. induction n as [|n IH]; intros k; [apply keeps_ret|].
  apply keeps_bind; [apply drain_step_bounded|intros b; apply IH].
Qed.
Lemma notify_bounded p bit event : keeps registry_bounded (notify_subscribers (KS := KS) capacity p bit event).
Proof.
  apply keeps_get. intros r Hr. destruct (present_subscribers r p bit) as [|s l]; [done|].
  apply keeps_bind; [|intros; apply keeps_ret|done]. apply keeps_for. intros a _. apply route_protocol_bounded.
Qed.
Lemma count_update (m : gmap TransactionId XPendingPresent) tx p p' client :
  m !! tx = Some p → pn_client p' = pn_client p →
  count_values (λ p, pn_client p = client) (<[tx := p']> m) = count_values (λ p, pn_client p = client) m.
Proof.
  intros Hm Hc. pose proof (count_values_replace (λ p, pn_client p = client) m tx p p' Hm) as H. simpl in H.
  rewrite Hc in H. case_decide; lia.
Qed.
Lemma count_delete (m : gmap TransactionId XPendingPresent) tx client :
  count_values (λ p, pn_client p = client) (delete tx m) ≤ count_values (λ p, pn_client p = client) m.
Proof.
  destruct (m !! tx) as [p|] eqn:E; [|by rewrite delete_id].
  rewrite <-(insert_delete_id m tx p E) at 2. rewrite count_values_fresh by apply lookup_delete_eq. case_decide; lia.
Qed.
Lemma complete_bounded tx ust msc mode : keeps registry_bounded (route_present_complete (KS := KS) capacity tx ust msc mode).
Proof.
  apply keeps_get. intros r Hr. destruct (rg_pending r !! tx) as [p|] eqn:E; [|done]. destruct (pn_completed p); [done|].
  cbv zeta. apply keeps_set; [|apply notify_bounded]. apply bounded_pending; [done|]. intros client.
  simpl. rewrite (count_update (rg_pending r) tx p) by done. by apply rb_pending.
Qed.
Lemma idle_bounded tx : keeps registry_bounded (route_present_idle (KS := KS) capacity tx).
Proof.
  apply keeps_get. intros r Hr. destruct (rg_pending r !! tx) as [p|]; [|done]. destruct (pn_completed p); [|done].
  apply keeps_set; [|apply notify_bounded]. apply bounded_pending; [done|]. intros client. etrans; [apply count_delete|].
  by apply rb_pending.
Qed.
Lemma queue_present_bounded tx client window pixmap serial fence :
  keeps registry_bounded (queue_present (KS := KS) capacity tx client window pixmap serial fence).
Proof.
  apply keeps_get. intros r Hr. repeat (case_decide; [done|]). simpl. apply bounded_pending; [done|]. intros c.
  rewrite count_values_fresh by (by apply eq_None_not_Some). simpl. pose proof (rb_pending _ Hr c). case_decide; subst; lia.
Qed.
Lemma broadcast_bounded snapshot : keeps registry_bounded (broadcast_randr_update (KS := KS) capacity snapshot).
Proof.
  unfold broadcast_randr_update. destruct (topology_validate _); [|apply keeps_fail].
  destruct (u16_exactly _); [|apply keeps_fail]. destruct (u16_exactly _); [|apply keeps_fail].
  apply keeps_get. intros r Hr. cbv zeta. apply keeps_bind; [|intros; apply keeps_ret|done].
  apply keeps_for. intros e _. apply route_protocol_bounded.
Qed.

(** ** Input stays in its namespace *)

Lemma Forall_kept {A} (Q : A → Prop) (P0 : A → Prop) `{∀ a, Decision (P0 a)} l : Forall Q l → Forall Q (filter P0 l).
Proof. rewrite !Forall_forall. intros H0 a [_ Ha]%list_elem_of_filter. by apply H0. Qed.

(** The namespace each client was admitted to. *)
Context (namespace_of : Z → NamespaceId).
Record ns_within (ns : NamespaceId) (n : XNamespaceInputAuthority) : Prop := mk_ns_within {
  nw_pointer : ∀ g, pointer n = Some g → namespace_of (ag_owner g) = ns;
  nw_keyboard : ∀ g, keyboard n = Some g → namespace_of (ag_owner g) = ns;
  nw_buttons : Forall (λ g, namespace_of (pg_owner g) = ns) (buttons n);
  nw_keys : Forall (λ g, namespace_of (pg_owner g) = ns) (keys n);
}.
Definition grabs_within (i : XInputAuthorityState) : Prop := ∀ ns n, namespaces i !! ns = Some n → ns_within ns n.
Definition op_within (op : XInputOp) : Prop :=
  match op with
  | IGrabPointer ns g | IGrabKeyboard ns g => namespace_of (ag_owner g) = ns
  | IGrabButton ns g | IGrabKey ns g => namespace_of (pg_owner g) = ns
  | IActivateButton ns _ _ implicit => namespace_of (ag_owner implicit) = ns
  | _ => True
  end.
Lemma entry_within i ns : grabs_within i → ns_within ns (ns_entry i ns).
Proof.
  intros Hi. unfold ns_entry. destruct (namespaces i !! ns) as [n|] eqn:E; simpl; [by apply Hi|]. by constructor.
Qed.
Lemma set_ns_within i ns n : grabs_within i → ns_within ns n → grabs_within (set_ns i ns n).
Proof.
  intros Hi Hn ns' n'. simpl. rewrite lookup_insert_Some. intros [[<- <-]|[_ H]]; [done|by apply Hi].
Qed.
Lemma with_ns_within i ns f :
  grabs_within i → (∀ n, ns_within ns n → ns_within ns (f n)) → grabs_within (with_ns i ns f).
Proof.
  intros Hi Hf. unfold with_ns. destruct (namespaces i !! ns) as [n|] eqn:E; [|done]. apply set_ns_within; [done|]. by apply Hf, Hi.
Qed.
Lemma or_keep_within i m : grabs_within i → (∀ i', m = Ok i' → grabs_within i') → grabs_within (or_keep i m).
Proof. intros Hi Hm. destruct m; [by apply Hm|done]. Qed.
Lemma passive_within ns l g l' :
  Forall (λ g, namespace_of (pg_owner g) = ns) l → namespace_of (pg_owner g) = ns → insert_passive l g = Ok l' →
  Forall (λ g, namespace_of (pg_owner g) = ns) l'.
Proof.
  intros Hl Hg. unfold insert_passive. case_decide; [done|]. intros [= <-]. apply Forall_app. split; [by apply Forall_kept|by constructor].
Qed.
Lemma active_within ns l d m g :
  Forall (λ g, namespace_of (pg_owner g) = ns) l → find_first (matches d m) l = Some g → namespace_of (ag_owner (active_from_passive g)) = ns.
Proof. intros Hl [Hin _]%find_first_Some. rewrite Forall_forall in Hl. by apply Hl. Qed.
Lemma cleanup_within ns owner n : ns_within ns n → ns_within ns (cleanup_ns owner n).
Proof.
  intros [H1 H2 H3 H4]. unfold cleanup_ns, thaw_unheld, cleanup_server, cleanup_keyboard, cleanup_pointer, cleanup_passive.
  repeat (case_decide; simpl); constructor; simpl; auto; try done; by apply Forall_kept.
Qed.
Lemma input_op_within i op : grabs_within i → op_within op → grabs_within (input_op i op).
Proof.
  intros Hi Hop. pose proof (λ ns, entry_within i ns Hi) as He.
  destruct op as [ns g|ns o|ns g|ns o|ns g|ns g|ns o w d m|ns o w d m|ns o|ns o|ns o m|ns k m|ns k|ns b m g|ns b|ns o w l|o];
    simpl in *; try (apply or_keep_within; [done|]; intros i'; unfold grab_pointer, grab_keyboard, grab_button, grab_key,
      grab_server, allow_events, validate_modes; simpl);
    try (apply with_ns_within; [done|]; intros n [? ? ? ?]).
  - repeat (case_decide; simpl; try done). intros [= <-]. destruct (He ns). apply set_ns_within; [done|]. constructor; simpl; try done. by intros ? [= <-].
  - case_decide; [|done]. by constructor.
  - repeat (case_decide; simpl; try done). intros [= <-]. destruct (He ns). apply set_ns_within; [done|]. constructor; simpl; try done. by intros ? [= <-].
  - case_decide; [|done]. by constructor.
  - case_decide; simpl; [done|]. destruct (He ns). destruct (insert_passive _ _) as [l|] eqn:E; simpl; [|done]. intros [= <-].
    apply set_ns_within; [done|]. constructor; simpl; try done. by eapply passive_within; [| |exact E].
  - case_decide; simpl; [done|]. destruct (He ns). destruct (insert_passive _ _) as [l|] eqn:E; simpl; [|done]. intros [= <-].
    apply set_ns_within; [done|]. constructor; simpl; try done. by eapply passive_within; [| |exact E].
  - constructor; simpl; try done. by apply Forall_kept.
  - constructor; simpl; try done. by apply Forall_kept.
  - case_decide; [|done]. intros [= <-]. destruct (He ns). by apply set_ns_within.
  - case_decide; [|done]. by constructor.
  - case_decide; [done|]. intros [= <-]. apply with_ns_within; [done|]. intros n [? ? ? ?]. by constructor.
  - unfold activate_key. destruct (namespaces i !! ns) as [n|] eqn:E; [|done]. destruct (find_first _ _) as [g|] eqn:Hf; [|done].
    destruct (Hi _ _ E). simpl. apply set_ns_within; [done|]. constructor; simpl; try done. intros ? [= <-]. by eapply active_within; [|exact Hf].
  - case_decide; [|done]. by constructor.
  - unfold activate_button. destruct (He ns). destruct (find_first _ _) as [p|] eqn:Hf; simpl; (apply set_ns_within; [done|]);
      constructor; simpl; try done; intros ? [= <-]; [by eapply active_within; [|exact Hf]|done].
  - case_decide; [|done]. by constructor.
  - done.
  - intros ns n. simpl. rewrite lookup_omap. destruct (namespaces i !! ns) as [n0|] eqn:E; simpl; [|done].
    case_decide; [|done]. intros [= <-]. by apply cleanup_within, Hi.
Qed.

(** Properties that see of the queues at most that what is sent to clients satisfies [Q]. *)
Definition protocol_kept (Q : XClientEvent → Prop) (c c' : XServerFrontendClientRoute) : Prop :=
  ∀ e, e ∈ chan_items (cr_protocol c') → e ∈ chan_items (cr_protocol c) ∨ Q e.
Record queue_kept (Q : XClientEvent → Prop) P : Prop := mk_queue_kept {
  qk_send : ∀ r client c c', P r → rg_clients r !! client = Some c → protocol_kept Q c c' →
    P (set_clients r (<[client := c']> (rg_clients r)));
  qk_new : ∀ r client, P r → P (set_clients r (<[client := mk_client_route channel_new channel_new channel_new]> (rg_clients r)));
  qk_forget : ∀ r client, P r → P (set_clients r (delete client (rg_clients r)));
  qk_deliveries : ∀ r d, P r → P (set_deliveries r d);
  qk_frozen : ∀ r l, P r → P (set_frozen_input r l);
  qk_pending : ∀ r m, P r → P (set_pending r m);
}.
(** Events that can be put into a client's sequence. *)
Definition routable (event : XClientEvent) : Prop := is_Some (set_protocol_event_sequence event 0).
#[export] Instance routable_dec event : Decision (routable event) := _.
Section kept.
  Context Q P (kept : queue_kept Q P).
  Hypothesis events : ∀ e, routable e → Q e.
Lemma to_client_kept {A} client c (ch : Channel A) update value r :
  P r → rg_clients r !! client = Some c → protocol_kept Q c (update (mk_channel (chan_items ch ++ [value]) true)) →
  P (route_to_client capacity client c ch update value r).2.
Proof.
  intros Hr Hc Hu. pose proof (route_to_client_cases client c ch update value r) as H.
  destruct (route_to_client _ _ _ _ _ _ _) as [[[]|e] r']; simpl.
  - destruct H as (_ & _ & ->). by eapply qk_send.
  - destruct e; try done; destruct H as (_ & -> & _); [done|by eapply qk_forget].
Qed.
Lemma route_input_kept e : keeps P (route_input (KS := KS) capacity e).
Proof. apply keeps_senders. intros c r Hr Hc. apply to_client_kept; [done..|]. by left. Qed.
Lemma route_control_kept e : keeps P (route_control (KS := KS) capacity e).
Proof. apply keeps_senders. intros c r Hr Hc. apply to_client_kept; [done..|]. by left. Qed.
Lemma route_protocol_kept client e : Q e → keeps P (route_protocol (KS := KS) capacity client e).
Proof.
  intros He. apply keeps_senders. intros c r Hr Hc. apply or_disconnected_at, to_client_kept; [done..|].
  intros e'. simpl. rewrite elem_of_app, list_elem_of_singleton. intros [H| ->]; auto.
Qed.
Lemma send_delivery_kept client d o : keeps P (send_input_delivery (KS := KS) capacity client d o).
Proof.
  apply keeps_get. intros r Hr. destruct d; [|done]. destruct (rg_deliveries r) as [ch|]; [|done].
  destruct (try_send _ _ _); [|done..]. by eapply qk_deliveries.
Qed.
Lemma notify_kept p bit event : (∀ s, Q (event s)) → keeps P (notify_subscribers (KS := KS) capacity p bit event).
Proof.
  intros He. apply keeps_get. intros r Hr. destruct (present_subscribers r p bit) as [|s l]; [done|].
  apply keeps_bind; [|intros; apply keeps_ret|done]. apply keeps_for. intros a _. by apply route_protocol_kept.
Qed.
Lemma complete_kept tx ust msc mode : keeps P (route_present_complete (KS := KS) capacity tx ust msc mode).
Proof.
  apply keeps_get. intros r Hr. destruct (rg_pending r !! tx) as [p|]; [|done]. destruct (pn_completed p); [done|].
  cbv zeta. apply keeps_set; [by eapply qk_pending|apply notify_kept]. intros s. apply events. by eexists.
Qed.
Lemma idle_kept tx : keeps P (route_present_idle (KS := KS) capacity tx).
Proof.
  apply keeps_get. intros r Hr. destruct (rg_pending r !! tx) as [p|]; [|done]. destruct (pn_completed p); [|done].
  apply keeps_set; [by eapply qk_pending|apply notify_kept]. intros s. apply events. by eexists.
Qed.
Lemma queue_present_kept tx client window pixmap serial fence :
  keeps P (queue_present (KS := KS) capacity tx client window pixmap serial fence).
Proof. apply keeps_get. intros r Hr. repeat (case_decide; [done|]). simpl. by eapply qk_pending. Qed.
Lemma broadcast_routable snapshot size width height window mask :
  Forall routable (broadcast_events snapshot size width height window mask).
Proof.
  assert (∀ (b : bool) event, routable event → Forall routable (if b then [event] else [])) as H by (intros [] ?; by constructor).
  unfold broadcast_events. cbv zeta. apply Forall_app_2; [apply H; by eexists|]. apply Forall_app_2; [|apply H; by eexists].
  apply Forall_bind, Forall_true. intros output. apply Forall_app_2; apply H; by eexists.
Qed.
Lemma broadcast_kept snapshot : keeps P (broadcast_randr_update (KS := KS) capacity snapshot).
Proof.
  unfold broadcast_randr_update. destruct (topology_validate _); [|apply keeps_fail].
  destruct (u16_exactly _); [|apply keeps_fail]. destruct (u16_exactly _); [|apply keeps_fail].
  apply keeps_get. intros r Hr. cbv zeta. apply keeps_bind; [|intros; apply keeps_ret|done].
  apply keeps_for. intros e (e' & (event & -> & Hin)%list_elem_of_fmap & _)%list_elem_of_bind. apply route_protocol_kept, events.
  by eapply Forall_forall in Hin; [|apply broadcast_routable].
Qed.
(** Input, where resolving it keeps the property too. *)
Context (resolves : ∀ r surface route,
  P r → rg_surfaces r !! Input.rq_target_surface (ri_request route) = Some surface → P (resolve r surface route).2).
Lemma engine_kept route : keeps P (engine route).
Proof.
  apply keeps_get. intros r Hr. unfold mbind at 1, r_bind at 1, r_lift. destruct (rg_surfaces r !! _) as [surface|] eqn:E; [|done].
  simpl. destruct (route_is_frozen _ _ _).
  - case_decide; [|by eapply qk_frozen]. by apply (keeps_bind P); [apply send_delivery_kept|intros; apply keeps_fail|].
  - pose proof (resolves r surface route Hr E) as Hr'. destruct (resolve r surface route) as [[event [client window]] r'].
    apply keeps_set; [done|]. destruct event; [apply route_input_kept|apply send_delivery_kept].
Qed.
Lemma drain_step_kept : keeps P drain1.
Proof.
  apply keeps_get. intros r Hr. destruct (rg_frozen r) as [|d rest]; [done|]. cbv zeta.
  apply keeps_set; [by eapply qk_frozen|]. destruct (rg_surfaces _ !! _) as [surface|].
  - destruct (route_is_frozen _ _ _).
    + intros r0 Hr0. simpl. by eapply qk_frozen, qk_frozen.
    + apply keeps_bind; [apply engine_kept|intros; apply keeps_ret].
  - apply keeps_bind; [apply send_delivery_kept|intros; apply keeps_ret].
Qed.
Lemma drain_kept : keeps P drain.
Proof.
  apply keeps_get. intros r Hr. generalize (length (rg_frozen r)). intros n.
  assert (∀ n k, keeps P (drains n k)) as H; [|by apply H].
  clear n r Hr. intros n. induction n as [|n IH]; intros k; [apply keeps_ret|].
  apply keeps_bind; [apply drain_step_kept|intros b; apply IH].
Qed.
End kept.

(** Every grab is held in the namespace of its client, every surface is registered in it. *)
Record registry_within r : Prop := mk_registry_within {
  rw_grabs : grabs_within (rg_input r);
  rw_surfaces : ∀ s surface, rg_surfaces r !! s = Some surface → namespace_of (su_client surface) = su_namespace surface;
}.
Lemma within_kept : queue_kept (λ _, True) registry_within.
Proof. constructor; intros r; intros; (match goal with H : registry_within r |- _ => destruct H end); by constructor. Qed.
(** Where an event goes: to a client of the surface's namespace. *)
Lemma grab_target_within surface g : namespace_of (ag_owner g) = su_namespace surface → namespace_of (grab_target surface g).1 = su_namespace surface.
Proof. done. Qed.
Lemma redirected_within surface g target :
  (∀ g', g = Some g' → namespace_of (ag_owner g') = su_namespace surface) → namespace_of target.1 = su_namespace surface →
  namespace_of (redirected surface g target).1 = su_namespace surface.
Proof. intros Hg Ht. destruct g as [g|]; [by apply Hg|done]. Qed.
Lemma held_within (f : XNamespaceInputAuthority → option XActiveInputGrab) i ns g :
  grabs_within i → (∀ n, ns_within ns n → ∀ g, f n = Some g → namespace_of (ag_owner g) = ns) →
  (n ← namespaces i !! ns; f n) = Some g → namespace_of (ag_owner g) = ns.
Proof. intros Hi Hf. destruct (namespaces i !! ns) as [n|] eqn:E; [|done]. simpl. intros H. by eapply Hf; [apply Hi|]. Qed.
Lemma resolve_within r surface route :
  grabs_within (rg_input r) → namespace_of (su_client surface) = su_namespace surface →
  let '(_, (client, _), r') := resolve r surface route in
  namespace_of client = su_namespace surface ∧ grabs_within (rg_input r').
Proof.
  intros Hi Hs. set (ns := su_namespace surface).
  assert (∀ g, pointer_grab (rg_input r) ns = Some g → namespace_of (ag_owner g) = ns) as Hp.
  { intros g. apply held_within; [done|]. intros n H. apply H. }
  assert (∀ g, keyboard_grab (rg_input r) ns = Some g → namespace_of (ag_owner g) = ns) as Hk.
  { intros g. apply held_within; [done|]. intros n H. apply H. }
  unfold resolve_input. fold ns. cbv zeta. destruct (Input.rq_kind _) as [|b p|k p]; simpl.
  - pose proof (redirected_within surface (pointer_grab (rg_input r) ns) (su_client surface, su_window surface) Hp Hs).
    by destruct (redirected _ _ _).
  - pose proof (redirected_within surface (pointer_grab (rg_input r) ns) (su_client surface, su_window surface) Hp Hs) as Ht.
    destruct (map_evdev_button _ b p) as [[[b' st]|] n]; [|by destruct (redirected _ _ _)]. destruct p; simpl.
    + pose proof (input_op_within (rg_input r) (IActivateButton ns b' (Z.land st 255) (implicit_grab surface)) Hi Hs) as Hi'.
      simpl in Hi'. unfold activate_button in *. destruct (find_first _ _) as [g|] eqn:Hf; simpl in *; [|done].
      split; [|done]. eapply active_within; [|exact Hf]. apply (nw_buttons _ _ (entry_within _ ns Hi)).
    + destruct (redirected _ _ _). split; [done|]. by apply (input_op_within _ (IReleaseButton ns b')).
  - pose proof (redirected_within surface (keyboard_grab (rg_input r) ns) (su_client surface, su_window surface) Hk Hs) as Ht.
    destruct (keyboard_key _ k p) as [[[k' st]|] kb]; [|by destruct (redirected _ _ _)]. destruct p; simpl.
    + pose proof (input_op_within (rg_input r) (IActivateKey ns k' (Z.land st 255)) Hi I) as Hi'. simpl in Hi'.
      unfold activate_key in *. destruct (namespaces (rg_input r) !! ns) as [n|] eqn:E; simpl in *; [|by destruct (redirected _ _ _)].
      destruct (find_first _ _) as [g|] eqn:Hf; simpl in *; [|by destruct (redirected _ _ _)].
      split; [|done]. eapply active_within; [|exact Hf]. apply (nw_keys _ _ (Hi _ _ E)).
    + destruct (redirected _ _ _). split; [done|]. by apply (input_op_within _ (IReleaseKey ns k')).
Qed.

(** ** Runs *)

(** What the listener, the dispatcher, the compositor and the clients do to the registry. *)
Inductive XRouteOp : Type :=
| RoRegister (client : Z) | RoDrop (client : Z)
| RoInput (event : XAuthorityClientInputEvent) | RoControl (command : XAuthorityClientControlCommand)
| RoProtocol (client : Z) (event : XClientEvent)
| RoSurface (client : Z) (namespace : NamespaceId) (surface : SurfaceId) (window : XResourceId)
| RoRandr (client : Z) (window : XResourceId) (mask : Z) | RoPresent (client : Z) (event_id window : XResourceId) (mask : Z)
| RoQueuePresent (transaction : TransactionId) (client : Z) (window pixmap : XResourceId) (serial : Z) (fence : option XResourceId)
| RoComplete (transaction : TransactionId) (ust msc : Z) (mode : XPresentCompletionMode)
| RoCancel (transaction : TransactionId) | RoIdle (transaction : TransactionId)
| RoBroadcast (snapshot : OutputTopologySnapshot)
| RoEngineInput (route : XAuthorityRoutedInput) | RoDrain
| RoGrab (op : XInputOp)
(** A client's writers take from its queues, or stop. *)
| RoTake (client : Z) (input control protocol : nat) | RoHangUp (client : Z) | RoTakeDeliveries.

Definition take_channel {A} (n : nat) (ch : Channel A) : Channel A := mk_channel (drop n (chan_items ch)) (chan_open ch).
Definition close_channel {A} (ch : Channel A) : Channel A := mk_channel (chan_items ch) false.
Definition route_op (r : Registry) (op : XRouteOp) : Registry :=
  match op with
  | RoRegister client => (route_register_client client r).2
  | RoDrop client => drop_registration client r
  | RoInput event => (route_input capacity event r).2
  | RoControl command => (route_control capacity command r).2
  | RoProtocol client event => (route_protocol capacity client event r).2
  | RoSurface client namespace surface window => register_surface client namespace surface window r
  | RoRandr client window mask => select_randr_input client window mask r
  | RoPresent client event_id window mask => select_present_input client event_id window mask r
  | RoQueuePresent transaction client window pixmap serial fence =>
      (queue_present capacity transaction client window pixmap serial fence r).2
  | RoComplete transaction ust msc mode => (route_present_complete capacity transaction ust msc mode r).2
  | RoCancel transaction => cancel_present transaction r
  | RoIdle transaction => (route_present_idle capacity transaction r).2
  | RoBroadcast snapshot => (broadcast_randr_update capacity snapshot r).2
  | RoEngineInput route => (engine route r).2
  | RoDrain => (drain r).2
  | RoGrab op => set_input r (input_op (rg_input r) op)
  | RoTake client input control protocol =>
      set_clients r (alter (λ c, mk_client_route (take_channel input (cr_input c)) (take_channel control (cr_control c))
                                   (take_channel protocol (cr_protocol c))) client (rg_clients r))
  | RoHangUp client =>
      set_clients r (alter (λ c, mk_client_route (close_channel (cr_input c)) (close_channel (cr_control c))
                                   (close_channel (cr_protocol c))) client (rg_clients r))
  | RoTakeDeliveries => set_deliveries r (mk_channel [] ∘ chan_open <$> rg_deliveries r)
  end.
Definition route_run (deliveries : bool) (ops : list XRouteOp) : Registry := foldl route_op (route_registry_new deliveries) ops.
(** Clients register surfaces and hold grabs in their own namespaces. *)
Definition route_op_ok (op : XRouteOp) : Prop :=
  match op with
  | RoSurface client namespace _ _ => namespace_of client = namespace
  | RoGrab op => op_within op
  | _ => True
  end.

Lemma count_filter (m : gmap TransactionId XPendingPresent) (Q : TransactionId * XPendingPresent → Prop) `{∀ e, Decision (Q e)} client :
  count_values (λ p, pn_client p = client) (filter Q m) ≤ count_values (λ p, pn_client p = client) m.
Proof.
  rewrite !count_values_size. apply inj_le. rewrite <-!(size_dom (D := gset TransactionId)). apply subseteq_size. intros k.
  rewrite !elem_of_dom. intros [v [[Hv _]%map_lookup_filter_Some Hc]%map_lookup_filter_Some]. exists v. by apply map_lookup_filter_Some.
Qed.
Lemma route_op_bounded r op : 0 ≤ capacity → registry_bounded r → registry_bounded (route_op r op).
Proof.
  intros H0 Hr.
  destruct op as [c|c|e|e|c e|c ns s w|c w m|c i w m|tx c w x n f|tx u m md|tx|tx|sn|i| |g|c i k q|c|]; simpl;
    try (by apply route_input_bounded || by apply route_control_bounded || by apply route_protocol_bounded ||
         by apply queue_present_bounded || by apply complete_bounded || by apply idle_bounded || by apply broadcast_bounded ||
         by apply engine_bounded || by apply drain_bounded).
  - unfold route_register_client, mbind, r_bind, r_get. destruct (rg_clients r !! c); [done|]. by apply bounded_insert.
  - destruct Hr as [H1 H2 H3 H4]. constructor; simpl; try done.
    + intros c' cr. rewrite lookup_delete_Some. intros [_ H]. by eapply H1.
    + pose proof (length_filter (λ d, df_client d ≠ c) (rg_frozen r)). lia.
    + intros client. etrans; [apply count_filter|done].
  - by destruct Hr.
  - by destruct Hr.
  - by destruct Hr.
  - unfold cancel_present. apply bounded_pending; [done|]. intros client. etrans; [apply count_delete|by apply rb_pending].
  - by destruct Hr.
  - apply bounded_clients; [done|]. intros c' cr. rewrite lookup_alter_Some. intros [(-> & x & Hx & ->)|[_ H]]; [|by eapply rb_clients].
    destruct (rb_clients _ Hr _ _ Hx) as (? & ? & ?). unfold route_bounded, channel_bounded in *. simpl. rewrite !length_drop. lia.
  - apply bounded_clients; [done|]. intros c' cr. rewrite lookup_alter_Some. intros [(-> & x & Hx & ->)|[_ H]]; [|by eapply rb_clients].
    by destruct (rb_clients _ Hr _ _ Hx) as (? & ? & ?).
  - destruct Hr. constructor; simpl; try done. intros ch. destruct (rg_deliveries r); simpl; [|done]. by intros [= <-].
Qed.
(** Operations that concern no queue. *)
Definition own_op (op : XRouteOp) : Prop :=
  match op with
  | RoDrop _ | RoSurface _ _ _ _ | RoRandr _ _ _ | RoPresent _ _ _ _ | RoGrab _ => True
  | _ => False
  end.
Lemma alter_kept Q P f r client :
  queue_kept Q P → (∀ c, protocol_kept Q c (f c)) → P r → P (set_clients r (alter f client (rg_clients r))).
Proof.
  intros kept Hf Hr. destruct (rg_clients r !! client) as [c|] eqn:E.
  - replace (alter f client (rg_clients r)) with (<[client := f c]> (rg_clients r)); [by eapply qk_send|].
    apply map_eq. intros k. destruct (decide (k = client)) as [->|Hk].
    + by rewrite lookup_insert_eq, lookup_alter_eq, E.
    + by rewrite lookup_insert_ne, lookup_alter_ne by done.
  - replace (alter f client (rg_clients r)) with (rg_clients r); [by destruct r|]. symmetry. apply alter_id. congruence.
Qed.
Lemma route_op_kept Q P r op :
  queue_kept Q P → (∀ e, routable e → Q e) →
  (∀ r surface route, P r → rg_surfaces r !! Input.rq_target_surface (ri_request route) = Some surface → P (resolve r surface route).2) →
  match op with RoProtocol _ e => Q e | _ => True end → (own_op op → P (route_op r op)) → P r → P (route_op r op).
Proof.
  intros K Hev Hres Hq Hown Hr.
  destruct op as [c|c|e|e|c e|c ns s w|c w m|c i w m|tx c w x n f|tx u m md|tx|tx|sn|i| |g|c i k q|c|]; try (by apply Hown); simpl;
    try (by apply (route_input_kept Q P K) || by apply (route_control_kept Q P K) || by apply (route_protocol_kept Q P K) ||
         by apply (queue_present_kept Q P K) || by apply (complete_kept Q P K Hev) || by apply (idle_kept Q P K Hev) ||
         by apply (broadcast_kept Q P K Hev) || by apply (engine_kept Q P K Hres) || by apply (drain_kept Q P K Hres) ||
         by apply (qk_pending _ _ K) || by apply (qk_deliveries _ _ K)).
  - unfold route_register_client, mbind, r_bind, r_get. destruct (rg_clients r !! c); [done|]. by eapply qk_new.
  - eapply alter_kept; [done| |done]. intros cr e He. left. simpl in He. rewrite <-(take_drop q (chan_items (cr_protocol cr))).
    apply elem_of_app. by right.
  - eapply alter_kept; [done| |done]. by left.
Qed.
Lemma route_op_within r op : route_op_ok op → registry_within r → registry_within (route_op r op).
Proof.
  intros Hop Hr. eapply route_op_kept; [apply within_kept|done| |by destruct op| |done].
  - intros r0 su route [Hg Hs] E. pose proof (resolve_within r0 su route Hg (Hs _ _ E)) as H1.
    pose proof (resolve_same r0 su route) as (_ & H2 & _). destruct (resolve r0 su route) as [[e [cl w]] r']. simpl in *.
    constructor; [apply H1|by rewrite H2].
  - destruct Hr as [Hg Hs]. destruct op; try done; intros _; (constructor; simpl; [first [done|by apply input_op_within]|]); try done;
      intros s0 su.
    + rewrite map_lookup_filter_Some. intros [H _]. by eapply Hs.
    + rewrite lookup_insert_Some. intros [[_ <-]|[_ H]]; [done|by eapply Hs].
Qed.

(** *** What waits for a client can be given its place *)

Definition queues_routable r : Prop :=
  ∀ client c, rg_clients r !! client = Some c → Forall routable (chan_items (cr_protocol c)).
(** The input authority is [i], and what waits is routable. *)
Definition settled (i : XInputAuthorityState) r : Prop := rg_input r = i ∧ queues_routable r.
Lemma routable_kept : queue_kept routable queues_routable.
Proof.
  constructor; try done.
  - intros r client c c' Hr Hc Hk client' cr. simpl. rewrite lookup_insert_Some. intros [[<- <-]|[_ H]]; [|by eapply Hr].
    apply Forall_forall. intros e [He|He]%Hk; [|done]. specialize (Hr _ _ Hc). rewrite Forall_forall in Hr. by apply Hr.
  - intros r client Hr client' cr. simpl. rewrite lookup_insert_Some. intros [[<- <-]|[_ H]]; [by apply Forall_nil_2|by eapply Hr].
  - intros r client Hr client' cr. simpl. rewrite lookup_delete_Some. intros [_ H]. by eapply Hr.
Qed.
Lemma settled_kept i : queue_kept routable (settled i).
Proof.
  destruct routable_kept. constructor; intros r; intros; (match goal with H : settled i r |- _ => destruct H as [? ?] end);
    (split; [done|]); eauto.
Qed.
Definition protocol_routable (op : XRouteOp) : Prop := match op with RoProtocol _ event => routable event | _ => True end.
#[export] Instance protocol_routable_dec op : Decision (protocol_routable op).
Proof. destruct op; simpl; apply _. Defined.
Lemma route_op_routable r op : protocol_routable op → queues_routable r → queues_routable (route_op r op).
Proof.
  intros Hop Hr. eapply route_op_kept; [apply routable_kept|done| |by destruct op| |done].
  - intros r0 su route H _. pose proof (resolve_same r0 su route) as [E _]. intros client c. rewrite E. by apply H.
  - destruct op; try done; intros _ client' c'; simpl; try by apply Hr. rewrite lookup_delete_Some. intros [_ H]. by eapply Hr.
Qed.

(** C27: Whatever is routed, in any order, no queue of a client grows beyond the capacity, and neither
    do the deferred input, the presentations a client has pending, nor the acknowledgements. *)
Theorem routes_bounded deliveries ops : 0 ≤ capacity → registry_bounded (route_run deliveries ops).
Proof.
  intros H0. induction ops as [|op ops IH] using rev_ind; unfold route_run; simpl.
  - constructor; simpl; [intros client c; by rewrite lookup_empty|lia|intros client; by rewrite count_values_empty|].
    intros ch. destruct deliveries; [|done]. by intros [= <-].
  - rewrite foldl_snoc. by apply route_op_bounded.
Qed.
Lemma route_run_within deliveries ops : Forall route_op_ok ops → registry_within (route_run deliveries ops).
Proof.
  induction ops as [|op ops IH] using rev_ind; unfold route_run; intros Hops.
  - by constructor; simpl; intros k x Hx; vm_compute in Hx; destruct k.
  - apply Forall_app in Hops as [Hops [Hop _]%Forall_cons]. rewrite foldl_snoc. by apply route_op_within; [|apply IH].
Qed.

(** Sending one value to one client leaves the others alone. *)
Lemma to_client_others {A} client c (ch : Channel A) update value r c' :
  c' ≠ client → rg_clients (route_to_client capacity client c ch update value r).2 !! c' = rg_clients r !! c'.
Proof.
  intros Hc. pose proof (route_to_client_cases client c ch update value r) as H.
  destruct (route_to_client _ _ _ _ _ _ _) as [[[]|e] r']; simpl.
  - destruct H as (_ & _ & ->). simpl. by rewrite lookup_insert_ne.
  - destruct e; try done; destruct H as (_ & -> & _); [done|]. simpl. by rewrite lookup_delete_ne.
Qed.
Lemma route_input_others e r c' : c' ≠ ci_client e → rg_clients (route_input capacity e r).2 !! c' = rg_clients r !! c'.
Proof.
  intros Hc. unfold route_input, client_senders, mbind, r_bind, r_get, r_lift.
  destruct (rg_clients r !! ci_client e) as [c|]; [|done]. simpl. by apply to_client_others.
Qed.
Lemma route_input_registered e r c c' :
  rg_clients (route_input capacity e r).2 !! c = Some c' → is_Some (rg_clients r !! c).
Proof.
  destruct (decide (c = ci_client e)) as [->|Hne]; [|rewrite route_input_others by done; eauto].
  unfold route_input, client_senders, mbind, r_bind, r_get, r_lift.
  destruct (rg_clients r !! ci_client e) as [c0|] eqn:E; [by eexists|]. simpl. by rewrite E.
Qed.
Lemma send_delivery_clients client d o r : rg_clients (send_input_delivery capacity client d o r).2 = rg_clients r.
Proof.
  unfold send_input_delivery, mbind, r_bind, r_get. destruct d; [|done]. destruct (rg_deliveries r) as [ch|]; [|done].
  by destruct (try_send _ _ _).
Qed.

(** C28: Input for a surface stays in the surface's namespace: whoever holds grabs, whatever devices
    are frozen, the input queue of a client of another namespace is never touched, as long as
    clients register surfaces and take grabs only in the namespace they were admitted to. *)
Theorem input_stays_in_namespace deliveries ops route surface client route' :
  Forall route_op_ok ops →
  let r := route_run deliveries ops in
  rg_surfaces r !! Input.rq_target_surface (ri_request route) = Some surface →
  rg_clients (engine route r).2 !! client = Some route' →
  namespace_of client ≠ su_namespace surface → rg_clients r !! client = Some route'.
Proof.
  intros Hops r Hs Hc Hne. destruct (route_run_within deliveries ops Hops) as [Hg Hsu]. fold r in Hg, Hsu.
  unfold route_engine_input in Hc. unfold mbind at 1, r_bind at 1, r_get in Hc. unfold mbind at 1, r_bind at 1, r_lift in Hc.
  rewrite Hs in Hc. simpl in Hc. destruct (route_is_frozen _ _ _).
  - case_decide; [|done]. unfold mbind, r_bind in Hc.
    pose proof (send_delivery_clients (su_client surface) (ri_delivery route) DeliveryRouteRejected r) as E.
    destruct (send_input_delivery _ _ _ _ r) as [[a|e] r']; simpl in *; by rewrite <-E.
  - pose proof (resolve_within r surface route Hg (Hsu _ _ Hs)) as Hw. pose proof (resolve_same r surface route) as [Hsame _].
    destruct (resolve r surface route) as [[event [target window]] r']. destruct Hw as [Ht _]. simpl in Hsame, Hc.
    unfold mbind, r_bind, r_set in Hc. rewrite <-Hsame. destruct event as [event|].
    + rewrite route_input_others in Hc; [done|]. unfold client_input. destruct (xi_types event) as [[? ?] ?]. simpl. congruence.
    + by rewrite send_delivery_clients in Hc.
Qed.
End routes.

(** ** Two clients of two namespaces *)

(** A keyboard that reports no key; client [n] was admitted to namespace [n]. *)
Notation example_route_run := (route_run (KS := unit) 2 tt (λ _ _ _, (None, tt)) (λ _, 0)).
Definition example_surface : SurfaceId := surface_id 7 1.
Definition example_motion : XAuthorityRoutedInput :=
  mk_routed_input (Input.mk_routed_request 1 (from_raw 1) (from_raw 1) 5 example_surface
    (mk_point 0 0) (mk_point 0 0) Input.PointerMotion) None.
Definition example_route_ops : list XRouteOp :=
  [RoRegister 1; RoRegister 2; RoSurface 1 (from_raw 1) example_surface (x_resource_id 2097153 1);
   RoGrab (IGrabPointer (from_raw 2) (mk_active 2 (x_resource_id 4194305 1) true 1 1 64))].
Definition example_flood : list XRouteOp := example_route_ops ++ replicate 5 (RoEngineInput example_motion).

Definition queued_input (client : Z) (r : XServerFrontendRouteRegistry unit) : option nat :=
  length ∘ chan_items ∘ cr_input <$> rg_clients r !! client.
Definition example_routes : XServerFrontendRouteRegistry unit := example_route_run false example_route_ops.

Lemma routes_bounded_witness :
  registry_bounded 2 (example_route_run false example_flood) ∧ queued_input 1 (example_route_run false example_flood) = Some 2%nat.
Proof. split; [apply (routes_bounded 2 tt (λ _ _ _, (None, tt)) (λ _, 0) false example_flood); lia|by vm_compute]. Defined.
(** The motion reaches the first client; the second holds its own namespace's pointer, and gets nothing. *)
Lemma input_stays_in_namespace_witness :
  let r' := (route_engine_input 2 tt (λ _ _ _, (None, tt)) (λ _, 0) example_motion example_routes).2 in
  queued_input 1 r' = Some 1%nat ∧ rg_clients example_routes !! 2 = rg_clients r' !! 2.
Proof.
  split; [by vm_compute|].
  destruct (rg_clients (route_engine_input 2 tt (λ _ _ _, (None, tt)) (λ _, 0) example_motion example_routes).2 !! 2) as [route'|] eqn:E;
    [|by vm_compute in E].
  apply (input_stays_in_namespace 2 tt (λ _ _ _, (None, tt)) (λ _, 0) from_raw false example_route_ops example_motion
    (mk_surface_route 1 (from_raw 1) (x_resource_id 2097153 1)) 2 route'); [by repeat constructor|by vm_compute|exact E|done].
Defined.
