(* ===== verification/XFrontend.v ===== *)
(** * Serving a client's connection
    ([serve_x11_core_socket_client_with_trace_observer_and_input] of
    [sophia-x-authority/src/x11_socket.rs], with the frontend and its routes)

    One turn of a client's worker: a request is read, decoded, dispatched, its effects recorded for
    the focus, the routes and the observer, and its answers handed to the client or, for selections,
    to the client they are for.  The frontend serves one turn at a time, as its locks make it do. *)

From S2P Require Import Prelude Ids Geometry Packets PortalPackets Text.
From S2P Require Import XAtoms XTables XProperties XSelections XInputGrabs XSoftware XState XRuntime XResources XRelease.
From S2P Require Import XProtocol XKeyboard XWire XDispatch XSetup XClients XFocus XRouting.
From stdpp Require Import strings pretty.
Local Open Scope Z_scope.

(** ** Errors of a connection *)

(** What the message says, without the numbers in it, and whether only the client is concerned. *)
Record X11SetupSocketError : Type := mk_socket_error {
  se_message : string; se_client_disconnect : bool; se_client_failure : bool;
}.
Definition socket_error (message : string) : X11SetupSocketError := mk_socket_error message false false.
Definition client_failure (message : string) : X11SetupSocketError := mk_socket_error message false true.
(** [reap_client_worker]: what the end of a worker is to the frontend. *)
Definition reaped (result : result unit X11SetupSocketError) : Prelude.result unit X11SetupSocketError :=
  match result with
  | Err e => if se_client_failure e || se_client_disconnect e then Ok () else Err e
  | Ok _ => Ok ()
  end.

(** ** Reading requests *)

Record X11ReceivedCoreRequest : Type := mk_received { rc_major_opcode : Z; rc_bytes : list Z; rc_fds : list Z }.
(** What the stream holds until its end, and the descriptors that came with the first bytes. *)
Definition read_x11_core_request (order : XByteOrder) (stream fds : list Z) :
    result (option (X11ReceivedCoreRequest * list Z)) X11SetupSocketError :=
  match stream with
  | [] => Ok None
  | major_opcode :: _ =>
      if decide (DMA_BUF_MAX_PLANES < length fds)%nat then
        Err (socket_error "X11 request carried too many file descriptors")
      else if decide (str_len stream < 4) then Ok None
      else
        let len := ordered order (take 2 (drop 2 stream)) * 4 in
        if decide (len < 4) then Ok (Some (mk_received major_opcode (take 4 stream) fds, drop 4 stream))
        else if decide (X_SETUP_DEFAULT_MAX_REQUEST_UNITS * 4 < len) then
          Err (socket_error "X11 request payload too large")
        else if decide (str_len stream < len) then Err (socket_error "failed to read X11 request payload")
        else Ok (Some (mk_received major_opcode (take (Z.to_nat len) stream) fds, drop (Z.to_nat len) stream))
  end.

(** ** The state of the workers *)

Record XClientWorker : Type := mk_worker {
  wk_order : XByteOrder; wk_namespace : NamespaceId; wk_range : XWireClientResourceRange; wk_sequence : Z;
  wk_event_sequence : Z; wk_focus : Z; wk_selections : XCoreEventSelectionState; wk_xkb_details : Z; wk_modifiers : Z;
  wk_surfaces : gmap SurfaceId XResourceId; wk_fds : list Z;
  (** Where the input writer last sent the keyboard and the pointer. *)
  wk_focus_sent : option XResourceId; wk_pointer_sent : option XResourceId;
}.
Definition worker_new (order : XByteOrder) (namespace : NamespaceId) (range : XWireClientResourceRange) : XClientWorker :=
  mk_worker order namespace range 0 0 X_SETUP_DEFAULT_ROOT selections_default 0 0 ∅ [] None None.
Definition set_sequence (w : XClientWorker) (sequence : Z) : XClientWorker :=
  mk_worker (wk_order w) (wk_namespace w) (wk_range w) sequence (wk_event_sequence w) (wk_focus w) (wk_selections w)
    (wk_xkb_details w) (wk_modifiers w) (wk_surfaces w) (wk_fds w) (wk_focus_sent w) (wk_pointer_sent w).
Definition set_event_sequence (w : XClientWorker) (sequence : Z) : XClientWorker :=
  mk_worker (wk_order w) (wk_namespace w) (wk_range w) (wk_sequence w) sequence (wk_focus w) (wk_selections w)
    (wk_xkb_details w) (wk_modifiers w) (wk_surfaces w) (wk_fds w) (wk_focus_sent w) (wk_pointer_sent w).
Definition set_observed (w : XClientWorker) (focus : Z) (selections : XCoreEventSelectionState) (details : Z) : XClientWorker :=
  mk_worker (wk_order w) (wk_namespace w) (wk_range w) (wk_sequence w) (wk_event_sequence w) focus selections
    details (wk_modifiers w) (wk_surfaces w) (wk_fds w) (wk_focus_sent w) (wk_pointer_sent w).
Definition set_worker_surfaces (w : XClientWorker) (surfaces : gmap SurfaceId XResourceId) : XClientWorker :=
  mk_worker (wk_order w) (wk_namespace w) (wk_range w) (wk_sequence w) (wk_event_sequence w) (wk_focus w) (wk_selections w)
    (wk_xkb_details w) (wk_modifiers w) surfaces (wk_fds w) (wk_focus_sent w) (wk_pointer_sent w).
Definition set_fds (w : XClientWorker) (fds : list Z) : XClientWorker :=
  mk_worker (wk_order w) (wk_namespace w) (wk_range w) (wk_sequence w) (wk_event_sequence w) (wk_focus w) (wk_selections w)
    (wk_xkb_details w) (wk_modifiers w) (wk_surfaces w) fds (wk_focus_sent w) (wk_pointer_sent w).
Definition set_sent (w : XClientWorker) (modifiers : Z) (focus pointer : option XResourceId) : XClientWorker :=
  mk_worker (wk_order w) (wk_namespace w) (wk_range w) (wk_sequence w) (wk_event_sequence w) (wk_focus w) (wk_selections w)
    (wk_xkb_details w) modifiers (wk_surfaces w) (wk_fds w) focus pointer.

(** What the observer of a dispatch is shown. *)
Record XAuthorityPresentSubmission : Type := mk_submission {
  ps_transaction : TransactionId; ps_surface : SurfaceId; ps_buffer : BufferHandle;
  ps_acquire_fence : option FenceHandle; ps_idle_fence : option FenceHandle;
}.
Record X11CoreDispatchTrace : Type := mk_trace {
  tr_client : Z; tr_range : XWireClientResourceRange; tr_sequence : Z; tr_major_opcode : Z; tr_result : XDispatchResult;
  tr_cpu_buffer_update : option XAuthorityCpuBufferUpdate; tr_received_fds : list Z;
  tr_dri3_pixmap_import : option (XResourceId * DmaBufDescriptor);
  tr_dri3_fence_import : option (XResourceId * FenceHandle * bool);
  tr_present_submission : option XAuthorityPresentSubmission;
  tr_released_dma_bufs : list BufferHandle; tr_released_fences : list FenceHandle; tr_reply_fds : list Z;
}.
(** What a dispatch leaves for the rest of its turn. *)
Record XServedRequest : Type := mk_served {
  sd_result : XDispatchResult; sd_cpu_buffer_update : option XAuthorityCpuBufferUpdate; sd_received_fds : list Z;
  sd_pixmap_import : option (XResourceId * DmaBufDescriptor); sd_fence_import : option (XResourceId * FenceHandle * bool);
  sd_present_submission : option XAuthorityPresentSubmission;
  sd_released_dma_bufs : list BufferHandle; sd_released_fences : list FenceHandle; sd_reply_fds : list Z;
}.
Definition with_outputs (d : XDispatchResult) (outputs : list XClientOutput) : XDispatchResult :=
  mk_dispatch (dr_response d) outputs (dr_metadata_candidates d).

(** ** The frontend *)

Record XFrontend (KS : Type) : Type := mk_frontend {
  fe_server : XServer; fe_leases : X11CoreClientLeaseState; fe_registry : XServerFrontendRouteRegistry KS;
  fe_next_transaction : Z; fe_payloads : Channel (PortalTransferId * list Z); fe_workers : gmap Z XClientWorker;
}.
Arguments mk_frontend {KS}.
Arguments fe_server {KS} _.
Arguments fe_leases {KS} _.
Arguments fe_registry {KS} _.
Arguments fe_next_transaction {KS} _.
Arguments fe_payloads {KS} _.
Arguments fe_workers {KS} _.

Section frontend.
  Context {KS : Type}.
  (** The capacity of the queues; whether DRI3 has a render device, and the descriptor it opens; the
      reader of shared segments; and the observer of the dispatches. *)
  Context (capacity : Z) (has_render_device : bool) (render_device_fd : option Z)
    (copy_bytes : Z → Z → Z → option (list Z)) (observe : X11CoreDispatchTrace → result unit string).
  Notation Frontend := (XFrontend KS).
  Notation Registry := (XServerFrontendRouteRegistry KS).

(** The input authority is one, shared by the server and the routes. *)
Definition set_server (fe : Frontend) (s : XServer) : Frontend :=
  mk_frontend s (fe_leases fe) (set_input (fe_registry fe) (sv_input s)) (fe_next_transaction fe) (fe_payloads fe) (fe_workers fe).
Definition set_fe_registry (fe : Frontend) (r : Registry) : Frontend :=
  mk_frontend (set_sv_input (fe_server fe) (rg_input r)) (fe_leases fe) r (fe_next_transaction fe) (fe_payloads fe) (fe_workers fe).
Definition set_leases (fe : Frontend) (l : X11CoreClientLeaseState) : Frontend :=
  mk_frontend (fe_server fe) l (fe_registry fe) (fe_next_transaction fe) (fe_payloads fe) (fe_workers fe).
Definition set_next_transaction (fe : Frontend) (n : Z) : Frontend :=
  mk_frontend (fe_server fe) (fe_leases fe) (fe_registry fe) n (fe_payloads fe) (fe_workers fe).
Definition set_payloads (fe : Frontend) (q : Channel (PortalTransferId * list Z)) : Frontend :=
  mk_frontend (fe_server fe) (fe_leases fe) (fe_registry fe) (fe_next_transaction fe) q (fe_workers fe).
Definition set_workers (fe : Frontend) (m : gmap Z XClientWorker) : Frontend :=
  mk_frontend (fe_server fe) (fe_leases fe) (fe_registry fe) (fe_next_transaction fe) (fe_payloads fe) m.

(** Steps of a worker: a panic, or a result; what was done before an error stays done. *)
Definition F (A : Type) : Type := Frontend → option (result A X11SetupSocketError * Frontend).
#[export] Instance f_ret : MRet F := λ A a fe, Some (Ok a, fe).
#[export] Instance f_bind : MBind F := λ A B k m fe,
  match m fe with
  | Some (Ok a, fe) => k a fe
  | Some (Err e, fe) => Some (Err e, fe)
  | None => None
  end.
Definition f_get : F Frontend := λ fe, Some (Ok fe, fe).
Definition f_fail {A} (e : X11SetupSocketError) : F A := λ fe, Some (Err e, fe).
Definition f_guard (P : Prop) `{Decision P} (e : X11SetupSocketError) : F unit := if decide P then mret () else f_fail e.
Definition f_dispatch {A} (m : D A) : F A := λ fe,
  match m (fe_server fe) with Some (a, s) => Some (Ok a, set_server fe s) | None => None end.
Definition f_runtime {A} (f : XAuthorityRuntime → A * XAuthorityRuntime) : F A := f_dispatch (d_draw f).
Definition f_registry (f : Registry → Registry) : F unit := λ fe, Some (Ok (), set_fe_registry fe (f (fe_registry fe))).
Definition f_route {A} (m : R A) (e : X11SetupSocketError) : F A := λ fe,
  let '(a, r) := m (fe_registry fe) in
  Some (match a with Ok a => Ok a | Err _ => Err e end, set_fe_registry fe r).
Definition f_set_worker (client : Z) (w : XClientWorker) : F unit := λ fe,
  Some (Ok (), set_workers fe (<[client := w]> (fe_workers fe))).
Definition f_set_payloads (q : Channel (PortalTransferId * list Z)) : F unit := λ fe, Some (Ok (), set_payloads fe q).
Definition f_allocate_transaction : F TransactionId := λ fe,
  match allocate_transaction (fe_next_transaction fe) with
  | Some (transaction, next) => Some (Ok transaction, set_next_transaction fe next)
  | None => Some (Err (socket_error "Sophia X Server Frontend exhausted transaction IDs"), fe)
  end.

(** *** What a request leaves on its client's worker *)

(** The window a request hangs in the hierarchy, and where it stacks one. *)
Definition hierarchy_create (request : XWireRequest) : option (XResourceId * XResourceId) :=
  match request with
  | ReqCreateWindow packet parent _ _ _ _ _ _ =>
      match rq_kind packet with CreateWindow window _ _ _ _ => Some (window, parent) | _ => None end
  | ReqReparentWindow window parent _ _ => Some (window, parent)
  | _ => None
  end.
Definition observe_selections (request : XWireRequest) (st : XCoreEventSelectionState) : XCoreEventSelectionState :=
  let st := match event_selection_update request with
            | Some (window, event_mask, do_not_propagate_mask) => selection_update st window event_mask do_not_propagate_mask
            | None => st
            end in
  let st := match hierarchy_create request with Some (window, parent) => selection_register st window parent | None => st end in
  match request with
  | ReqConfigureWindow window _ _ _ _ _ sibling stack_mode => restack st window sibling stack_mode
  | ReqAuthority packet => match rq_kind packet with MapWindow window _ => observe_mapped st window | _ => st end
  | ReqUnmapWindow window => observe_unmapped st window
  | ReqDestroyWindow window => selection_remove st window
  | _ => st
  end.
Definition observe_xkb (request : XWireRequest) (details : Z) : Z :=
  match request with
  | ReqXkbSelectEvents affect_which clear select_all state =>
      let details := if decide (Z.land clear 4 ≠ 0) then 0 else details in
      let details := if decide (Z.land select_all 4 ≠ 0) then u16_MAX else details in
      match state with
      | Some (affect, selected) =>
          if decide (Z.land affect_which 4 ≠ 0)
          then Z.lor (Z.land details (Z.lxor u16_MAX affect)) (Z.land selected affect) else details
      | None => details
      end
  | _ => details
  end.
Definition observe_request (request : XWireRequest) (w : XClientWorker) : XClientWorker :=
  let focus := match request with ReqSetInputFocus focus _ _ => xid_raw focus | _ => wk_focus w end in
  set_observed w focus (observe_selections request (wk_selections w)) (observe_xkb request (wk_xkb_details w)).
(** Without a render device DRI3 is not there; the modifiers are those of the client's keyboard. *)
Definition patch_output (request : XWireRequest) (modifiers : Z) (output : XClientOutput) : XClientOutput :=
  match request, output with
  | ReqQueryExtension name, OutReply (ReplyQueryExtension sequence _ _ _ _) =>
      if decide (name = X_DRI3_EXTENSION_NAME ∧ has_render_device = false)
      then OutReply (ReplyQueryExtension sequence false 0 0 0) else output
  | ReqXkbGetState, OutReply (ReplyXkbGetState sequence _) => OutReply (ReplyXkbGetState sequence (as_unsigned 8 modifiers))
  | _, _ => output
  end.
Definition is_error (output : XClientOutput) : Prop := match output with OutError _ => True | _ => False end.
#[export] Instance is_error_dec output : Decision (is_error output).
Proof. destruct output; simpl; apply _. Defined.

(** *** A request, decoded *)

Definition wire_context (w : XClientWorker) (transaction : TransactionId) : XWireClientContext :=
  mk_wire_context (wk_order w) (wk_namespace w) transaction (Some (wk_range w)).
Definition dispatch_context (client : Z) (w : XClientWorker) (major_opcode : Z) : XDispatchContext :=
  mk_dispatch_context (wk_order w) (wk_namespace w) (wk_sequence w) major_opcode client.
Definition MAX_PENDING_REQUEST_FDS : nat := DMA_BUF_MAX_PLANES * 16.

(** The descriptors of a request are those that came first and were not used yet. *)
Definition take_fds (request : XWireRequest) (fds : list Z) (w : XClientWorker) : F (list Z * XClientWorker) :=
  let pending := wk_fds w ++ fds in
  _ ← f_guard (length pending ≤ MAX_PENDING_REQUEST_FDS)%nat
        (socket_error "X11 request stream carried too many pending file descriptors");
  let required := Z.to_nat (required_fd_count request) in
  _ ← f_guard (required ≤ length pending)%nat (socket_error "X11 request required more file descriptors");
  mret (take required pending, set_fds w (drop required pending)).
(** A window's surface gets its route before the window is made. *)
Definition route_created (client : Z) (request : XWireRequest) (w : XClientWorker) : F XClientWorker :=
  match request with
  | ReqCreateWindow packet _ _ _ _ _ _ _ =>
      match rq_kind packet with
      | CreateWindow window surface _ _ _ =>
          _ ← f_registry (register_surface client (wk_namespace w) surface window);
          mret (set_worker_surfaces w (<[surface := window]> (wk_surfaces w)))
      | _ => mret w
      end
  | _ => mret w
  end.
Definition queue_request_present (client : Z) (transaction : TransactionId) (request : XWireRequest) : F bool :=
  match request with
  | ReqPresentPixmap _ window pixmap serial _ _ _ _ _ _ idle_fence _ _ _ _ _ =>
      _ ← f_route (queue_present capacity transaction client window pixmap serial idle_fence)
            (client_failure "failed to queue Present feedback");
      mret true
  | _ => mret false
  end.
Definition subscribe (client : Z) (request : XWireRequest) : F unit :=
  match request with
  | ReqRandrSelectInput window enable => f_registry (select_randr_input client window enable)
  | ReqPresentSelectInput event_id window event_mask => f_registry (select_present_input client event_id window event_mask)
  | _ => mret ()
  end.
Definition pixmap_imported (r : XAuthorityRuntime) (namespace : NamespaceId) (request : XWireRequest) :
    option (XResourceId * DmaBufDescriptor) :=
  match request with
  | ReqDri3PixmapFromBuffer pixmap _ _ _ _ _ _ _ | ReqDri3PixmapFromBuffers pixmap _ _ _ _ _ _ _ _ _ =>
      (λ descriptor, (pixmap, descriptor)) <$> res_ok (dri3_pixmap_descriptor r namespace pixmap)
  | _ => None
  end.
Definition fence_imported (r : XAuthorityRuntime) (namespace : NamespaceId) (request : XWireRequest) :
    option (XResourceId * FenceHandle * bool) :=
  match request with
  | ReqDri3FenceFromFd _ fence initially_triggered =>
      (λ handle, (fence, handle, initially_triggered)) <$> res_ok (dri3_fence_handle r namespace fence)
  | _ => None
  end.
Definition present_submitted (r : XAuthorityRuntime) (namespace : NamespaceId) (request : XWireRequest)
    (response : option XAuthorityResponsePacket) : option XAuthorityPresentSubmission :=
  match request with
  | ReqPresentPixmap _ _ _ _ _ _ _ _ _ wait_fence idle_fence _ _ _ _ _ =>
      response ← response;
      transaction ← head (rs_transactions response);
      let fence_handle fence := fence ← fence; res_ok (dri3_fence_handle r namespace fence) in
      match st_target_buffer transaction with
      | DmaBuf handle =>
          Some (mk_submission (rs_transaction response) (st_surface transaction) (from_raw handle)
                  (fence_handle wait_fence) (fence_handle idle_fence))
      | _ => None
      end
  | _ => None
  end.

Definition serve_decoded (client : Z) (transaction : TransactionId) (c : XDispatchContext) (fds : list Z)
    (request : XWireRequest) (w : XClientWorker) : F (XServedRequest * XClientWorker) :=
  let namespace := wk_namespace w in
  received ← take_fds request fds w;
  let '(received_fds, w) := received in
  w ← route_created client request w;
  queued_present ← queue_request_present client transaction request;
  fe ← f_get;
  let runtime := sv_runtime (fe_server fe) in
  let released_dma_buf := match request with
    | ReqFreePixmap pixmap => db_handle <$> res_ok (dri3_pixmap_descriptor runtime namespace pixmap)
    | _ => None
    end in
  let released_fence := match request with
    | ReqSyncDestroyFence fence => res_ok (dri3_fence_handle runtime namespace fence)
    | _ => None
    end in
  d ← f_dispatch (dispatch_x11_wire_request c copy_bytes request);
  let d := with_outputs d (patch_output request (wk_modifiers w) <$> dr_outputs d) in
  let succeeded := bool_decide (Forall (λ output, ¬ is_error output) (dr_outputs d)) in
  w ← (if succeeded then _ ← subscribe client request; mret (observe_request request w) else mret w);
  _ ← (if queued_present && negb succeeded then f_registry (cancel_present transaction) else mret ());
  update ← f_runtime take_cpu_buffer_update;
  fe ← f_get;
  let runtime := sv_runtime (fe_server fe) in
  let fence_import := if succeeded then fence_imported runtime namespace request else None in
  let submission := if succeeded then present_submitted runtime namespace request (dr_response d) else None in
  let '(d, reply_fds) :=
    match request with
    | ReqDri3Open _ _ =>
        if succeeded then
          match render_device_fd with
          | Some fd => (d, [fd])
          | None =>
              (with_outputs d [OutError (mk_client_error BadImplementation (wk_sequence w) 0 X_DRI3_OPEN_MINOR_OPCODE
                                           X_DRI3_MAJOR_OPCODE)], [])
          end
        else (d, [])
    | _ => (d, [])
    end in
  mret (mk_served d update received_fds (pixmap_imported runtime namespace request) fence_import submission
          (option_list released_dma_buf) (option_list released_fence) reply_fds, w).

(** A request that cannot be decoded is answered with an error; its descriptors are closed. *)
Definition serve_request (client : Z) (transaction : TransactionId) (received : X11ReceivedCoreRequest) (w : XClientWorker) :
    F (XServedRequest * XClientWorker) :=
  let c := dispatch_context client w (rc_major_opcode received) in
  let minor_code :=
    if decide (128 ≤ rc_major_opcode received) then default 0 (rc_bytes received !! 1%nat) else 0 in
  match decode_x11_core_request (wire_context w transaction) (rc_bytes received) with
  | None => λ _, None
  | Some (Ok request) => serve_decoded client transaction c (rc_fds received) request w
  | Some (Err error) =>
      mret (mk_served (dispatch_x11_parse_error c minor_code error) None [] None None None [] [] [], w)
  end.

(** *** Selections *)

Definition find_output {A} (f : XClientOutput → option A) (outputs : list XClientOutput) : option (nat * A) :=
  p ← list_find (λ output, is_Some (f output)) outputs; (λ a, (p.1, a)) <$> f p.2.
(** A selection converted for the clipboard proxy of the client's namespace is taken from it. *)
Definition capture_payload (w : XClientWorker) (d : XDispatchResult) : F XDispatchResult :=
  match find_output (λ output, match output with
                               | OutEvent (EventSelectionNotify _ _ requestor _ _ property) => Some (requestor, property)
                               | _ => None
                               end) (dr_outputs d) with
  | None => mret d
  | Some (index, (requestor, property)) =>
      fe ← f_get;
      if decide (is_clipboard_proxy (sv_runtime (fe_server fe)) (wk_namespace w) requestor) then
        payload ← f_dispatch (λ s,
          let '(payload, properties, runtime) :=
            capture_clipboard_source_payload requestor property (sv_properties s) (sv_runtime s) in
          Some (payload, set_sv_properties (set_sv_runtime s runtime) properties));
        match payload with
        | Err _ => f_fail (socket_error "failed to capture clipboard source payload")
        | Ok payload =>
            fe ← f_get;
            match try_send capacity (fe_payloads fe) payload with
            | Sent queue => _ ← f_set_payloads queue; mret (with_outputs d (delete index (dr_outputs d)))
            | SendFull => f_fail (socket_error "clipboard source payload queue is full")
            | SendDisconnected => f_fail (socket_error "clipboard source payload queue is disconnected")
            end
        end
      else mret d
  end.
(** Whom the first selection event is for. *)
Definition selection_destination (output : XClientOutput) : option (XResourceId * XClientEvent) :=
  match output with
  | OutEvent (EventSelectionNotify _ _ requestor _ _ _ as event) => Some (requestor, event)
  | OutEvent (EventSelectionRequest _ _ owner _ _ _ _ as event) => Some (owner, event)
  | OutEvent (EventSelectionClear _ _ owner _ as event) => Some (owner, event)
  | _ => None
  end.
Definition forward_selection (client : Z) (d : XDispatchResult) : F (XDispatchResult * option (Z * XClientEvent)) :=
  match find_output selection_destination (dr_outputs d) with
  | None => mret (d, None)
  | Some (index, (destination, event)) =>
      fe ← f_get;
      match client_for_resource (fe_leases fe) destination with
      | Some target =>
          if decide (target = client) then mret (d, None)
          else
            _ ← f_route (route_protocol capacity target event) (socket_error "failed to route X11 protocol event");
            mret (with_outputs d (delete index (dr_outputs d)), Some (target, event))
      | None => mret (d, None)
      end
  end.

(** *** A turn *)

(** What goes to the client, with the descriptors of the first record. *)
Record XTurn : Type := mk_turn { tn_outputs : list XClientOutput; tn_fds : list Z; tn_forwarded : option (Z * XClientEvent) }.
(** While another client holds the server, the worker waits. *)
Definition may_serve (fe : Frontend) (client : Z) (w : XClientWorker) : Prop :=
  match ns_server_owner (sv_input (fe_server fe)) (wk_namespace w) with None => True | Some owner => owner = client end.
#[export] Instance may_serve_dec fe client w : Decision (may_serve fe client w).
Proof. unfold may_serve. destruct (ns_server_owner _ _); apply _. Defined.
Definition report (trace : X11CoreDispatchTrace) : F unit :=
  match observe trace with Ok _ => mret () | Err message => f_fail (socket_error message) end.
Definition turn_body (client : Z) (received : X11ReceivedCoreRequest) (w : XClientWorker) : F (XTurn * XClientWorker) :=
  transaction ← f_allocate_transaction;
  served ← serve_request client transaction received w;
  let '(served, w) := served in
  d ← capture_payload w (sd_result served);
  forwarded ← forward_selection client d;
  let '(d, forwarded) := forwarded in
  _ ← report (mk_trace client (wk_range w) (wk_sequence w) (rc_major_opcode received) d (sd_cpu_buffer_update served)
         (sd_received_fds served) (sd_pixmap_import served) (sd_fence_import served) (sd_present_submission served)
         (sd_released_dma_bufs served) (sd_released_fences served) (sd_reply_fds served));
  mret (mk_turn (dr_outputs d) (sd_reply_fds served) forwarded, w).
(** The sequence number is published when the answers are written. *)
Definition serve_turn (client : Z) (received : X11ReceivedCoreRequest) (w : XClientWorker) : F XTurn :=
  turn ← turn_body client received (set_sequence w (as_unsigned 16 (wk_sequence w + 1)));
  _ ← f_set_worker client (set_event_sequence turn.2 (wk_sequence turn.2));
  mret turn.1.

(** *** Connecting *)

Inductive XServerFrontendAdmissionError : Type := AdmissionDenied | AdmissionUnavailable.
#[export] Instance admission_error_eq_dec : EqDecision XServerFrontendAdmissionError.
Proof. solve_decision. Defined.
(** A client gets in, with what follows its setup on the stream, or is turned away. *)
Inductive XConnection : Type :=
| Connected (client : Z) (reply rest : list Z)
| TurnedAway (reply : list Z).

Definition f_result {A E} (r : result A E) (message : string) : F A :=
  match r with Ok a => mret a | Err _ => f_fail (socket_error message) end.
Definition turn_away (order : XByteOrder) (reason : string) : F XConnection :=
  reply ← f_result (encode_x11_setup_failure order (setup_failure_new (str reason))) "failed to encode X11 setup failure";
  mret (TurnedAway reply).
(** The namespace the policy admits to, if there is a policy. *)
Definition admitted_namespace (namespace : NamespaceId)
    (admission : option (result ClientAdmissionContext XServerFrontendAdmissionError)) :
    result NamespaceId XServerFrontendAdmissionError :=
  match admission with
  | None => Ok namespace
  | Some (Ok context) =>
      if decide (admission_valid context) then Ok (nx_id (ad_namespace context)) else Err AdmissionUnavailable
  | Some (Err e) => Err e
  end.
Definition f_lease {A} (step : X11CoreClientLeaseState → result A XLeaseError * X11CoreClientLeaseState) (message : string) : F A :=
  λ fe, let '(a, leases) := step (fe_leases fe) in
        Some (match a with Ok a => Ok a | Err _ => Err (socket_error message) end, set_leases fe leases).
(** What a failure of [m] undoes. *)
Definition f_undo {A} (m : F A) (undo : Frontend → Frontend) : F A := λ fe,
  match m fe with Some (Err e, fe) => Some (Err e, undo fe) | r => r end.
Definition register_worker (lease : XServerFrontendClientLease) : F unit :=
  let client := cl_client lease in
  _ ← f_undo (f_route (route_register_client client) (socket_error "failed to register X11 client route"))
        (λ fe, set_leases fe (release_client client (fe_leases fe)).2);
  f_undo (f_lease (register_client lease) "duplicate X11 client lease")
    (λ fe, set_fe_registry fe (drop_registration client (fe_registry fe))).
Definition connect (authorization : XServerFrontendSetupAuthorization) (namespace : NamespaceId)
    (admission : option (result ClientAdmissionContext XServerFrontendAdmissionError)) (stream : list Z) : F XConnection :=
  match read_x11_setup_request stream with
  | None => λ _, None
  | Some (Err _) => f_fail (socket_error "invalid X11 setup request")
  | Some (Ok (request, rest)) =>
      let order := sr_byte_order request in
      if permits authorization request then
        match admitted_namespace namespace admission with
        | Err e =>
            away ← turn_away order "Sophia X11 admission failed";
            if decide (e = AdmissionUnavailable)
            then f_fail (socket_error "Sophia X Server Frontend admission policy unavailable") else mret away
        | Ok namespace =>
            fe ← f_get;
            leased ← f_lease (next_client_setup_success (rt_output_topology (sv_runtime (fe_server fe))))
                       "X11 client identities exhausted";
            let '(lease, setup) := leased in
            let client := cl_client lease in
            reply ← f_result (encode_x11_setup_success order setup) "failed to encode X11 setup success";
            _ ← register_worker lease;
            _ ← f_set_worker client (worker_new order namespace (cl_range lease));
            mret (Connected client reply rest)
        end
      else turn_away order "Sophia X11 authorization failed"
  end.

(** *** Disconnecting *)

(** [release_x11_client_lease] *)
Definition release_lease (namespace : NamespaceId) (lease : XServerFrontendClientLease) : F XAuthorityClientResourceRelease :=
  released ← f_dispatch (d_run (release_client_resource_range namespace (cl_range lease)));
  release ← f_result released "failed to release X11 client resources";
  _ ← f_dispatch (λ s, Some ((), set_sv_properties s
        (foldl (λ properties window, (remove_window properties namespace window).2) (sv_properties s)
           (rl_destroyed_windows release))));
  mret release.
(** The routes of a client go with its worker, however the worker ends. *)
Definition drop_worker (client : Z) (fe : Frontend) : Frontend :=
  let fe := set_workers fe (delete client (fe_workers fe)) in
  set_fe_registry fe (drop_registration client (fe_registry fe)).
Definition report_release (client : Z) (w : XClientWorker) (release : XAuthorityClientResourceRelease) : F unit :=
  if decide (rl_removed_surfaces release = [] ∧ rl_released_dma_bufs release = [] ∧ rl_released_fences release = [])
  then mret ()
  else
    transaction ← f_allocate_transaction;
    let response := mk_response transaction Accepted [] (rl_removed_surfaces release) [] [] [] in
    report (mk_trace client (wk_range w) (as_unsigned 16 (wk_sequence w + 1)) 0 (mk_dispatch (Some response) [] [])
              None [] None None None (rl_released_dma_bufs release) (rl_released_fences release) []).
Definition f_finally {A} (m : F A) (finally : Frontend → Frontend) : F A := λ fe,
  match m fe with Some (a, fe) => Some (a, finally fe) | None => None end.
Definition disconnect (client : Z) (w : XClientWorker) : F unit :=
  release ← f_finally
    (_ ← f_dispatch (d_input (λ i, cleanup_owner i client));
     lease ← f_lease (release_client client) "X11 client lease is gone";
     release_lease (wk_namespace w) lease) (drop_worker client);
  report_release client w release.

(** *** The output topology *)

Inductive XAuthorityOutputUpdateOutcome : Type :=
| OutputApplied (generation notifications : Z) | OutputRejectedStale (generation : Z)
| OutputRejectedInvalid (generation : Z) (error : OutputTopologyError).
(** [UpdateOutputTopology] of the service: applied, then told to the clients. *)
Definition update_topology (snapshot : OutputTopologySnapshot) : F XAuthorityOutputUpdateOutcome :=
  outcome ← f_runtime (update_output_topology snapshot);
  match outcome with
  | Err error => mret (OutputRejectedInvalid (ots_generation snapshot) error)
  | Ok false => mret (OutputRejectedStale (ots_generation snapshot))
  | Ok true =>
      notifications ← f_route (broadcast_randr_update capacity snapshot) (socket_error "failed to broadcast RandR update");
      mret (OutputApplied (ots_generation snapshot) notifications)
  end.

(** [XServerFrontend::bind], with a route broker that shares its input authority. *)
Definition frontend_new (topology : OutputTopologySnapshot) (keymap : XkbKeymapSnapshot) (deliveries : bool) :
    result Frontend OutputTopologyError :=
  let? runtime := with_output_topology topology in
  Ok (mk_frontend (mk_server runtime input_state_default keymap atom_table_new ∅) lease_state_default
        (route_registry_new deliveries) 1 channel_new ∅).
End frontend.
