(* ===== verification/XWriters.v ===== *)
(** * The writers of a client's connection
    ([spawn_x11_protocol_event_writer], [spawn_x11_control_writer] and [spawn_x11_input_event_writer] of
    [sophia-x-authority/src/x11_socket.rs])

    Beside the worker that answers a client's requests, three writers send it what others have for
    it: protocol events, the commands of the engine, and input.  Each takes one item of its queue
    at a time and writes under the lock of the client's output. *)

From S2P Require Import Prelude Ids Geometry Packets PortalPackets Text.
From S2P Require Import XAtoms XTables XProperties XSelections XInputGrabs XSoftware XState XRuntime XResources XRelease.
From S2P Require Import XProtocol XKeyboard XWire XDispatch XSetup XClients XEncode XFocus XRouting XFrontend.
From stdpp Require Import strings.
Local Open Scope Z_scope.

(** ** Events of the input extension *)

Section encode.
  Context (order : XByteOrder).

(** [(i32::from(x) << 16) as u32] *)
Definition fixed_point (x : Z) : Z := as_unsigned 32 (Z.shiftl x 16).
Definition X_INPUT_DEVICE_POINTER : Z := 2.
Definition X_INPUT_DEVICE_KEYBOARD : Z := 3.
(** Device, time, detail, the four coordinates and the state. *)
Definition xi_fields (event : XAuthorityInputEvent) : Z * Z * Z * (Z * Z * Z * Z) * Z :=
  match event with
  | InputKey key => (X_INPUT_DEVICE_KEYBOARD, ke_time_msec key, ke_keycode key, (0, 0, 0, 0), ke_state key)
  | InputPointer pointer =>
      (X_INPUT_DEVICE_POINTER, pv_time_msec pointer, match pv_kind pointer with KindButton button _ => button | KindMotion => 0 end,
       (pv_root_x pointer, pv_root_y pointer, pv_event_x pointer, pv_event_y pointer), pv_state pointer)
  end.
Definition encode_xi_device_event (sequence event_type : Z) (event : XAuthorityInputEvent) (event_window : XResourceId) :
    option (list Z) :=
  let '(device, time, detail, (root_x, root_y, event_x, event_y), state) := xi_fields event in
  record 80
    [put_u8 0 35; put_u8 1 X_INPUT_MAJOR_OPCODE; put_u16 order 2 sequence; put_u32 order 4 12; put_u16 order 8 event_type;
     put_u16 order 10 device; put_u32 order 12 time; put_u32 order 16 detail; put_u32 order 20 X_SETUP_DEFAULT_ROOT;
     put_u32 order 24 (raw_of event_window); put_u32 order 32 (fixed_point root_x); put_u32 order 36 (fixed_point root_y);
     put_u32 order 40 (fixed_point event_x); put_u32 order 44 (fixed_point event_y); put_u16 order 52 device;
     put_u32 order 72 (Z.land state 255)].
Definition encode_xi_crossing_event (sequence event_type : Z) (event : XAuthorityInputEvent) (event_window : XResourceId) :
    option (list Z) :=
  let '(device, time, _, (root_x, root_y, event_x, event_y), state) := xi_fields event in
  record 72
    [put_u8 0 35; put_u8 1 X_INPUT_MAJOR_OPCODE; put_u16 order 2 sequence; put_u32 order 4 10; put_u16 order 8 event_type;
     put_u16 order 10 device; put_u32 order 12 time; put_u16 order 16 device; put_u8 18 0; put_u8 19 3;
     put_u32 order 20 X_SETUP_DEFAULT_ROOT; put_u32 order 24 (raw_of event_window); put_u32 order 32 (fixed_point root_x);
     put_u32 order 36 (fixed_point root_y); put_u32 order 40 (fixed_point event_x); put_u32 order 44 (fixed_point event_y);
     put_u8 48 1; put_u8 49 1; put_u32 order 64 (Z.land state 255)].
(** [write_xi_u16(byte_order, &mut record[2..4], sequence)] *)
Definition renumber (sequence : Z) (record : list Z) : option (list Z) := put record (put_u16 order 2 sequence).
End encode.

(** ** Commands of the engine *)

Inductive XAuthorityControlOutcome : Type :=
| ControlDelivered | ControlUnknownSurface | ControlInvalidSize | ControlAuthorityRejected.
#[export] Instance control_outcome_eq_dec : EqDecision XAuthorityControlOutcome.
Proof. solve_decision. Defined.
Record XAuthorityClientControlAck : Type := mk_control_ack {
  ca_client : Z; ca_transaction : TransactionId; ca_surface : SurfaceId; ca_outcome : XAuthorityControlOutcome;
}.
Definition control_transaction (command : XAuthorityControlCommand) : TransactionId :=
  match command with ConfigureSurface transaction _ _ | FocusSurface transaction _ | CloseSurface transaction _ => transaction end.
Definition control_surface (command : XAuthorityControlCommand) : SurfaceId :=
  match command with ConfigureSurface _ surface _ | FocusSurface _ surface | CloseSurface _ surface => surface end.

(** The windows with [WM_PROTOCOLS], and whether they are the client's and list [WM_DELETE_WINDOW]. *)
Definition advertises_delete (order : XByteOrder) (range : XWireClientResourceRange) (properties : XPropertyTable)
    (namespace : NamespaceId) (protocols delete : Z) (candidate : XResourceId) : bool :=
  bool_decide (0 ≤ xid_raw candidate ≤ u32_MAX ∧ owns_new_resource range (xid_raw candidate)) &&
  match property_get properties namespace candidate protocols with
  | Some record =>
      bool_decide (pp_format record = 32 ∧ Exists (λ bytes, ordered order bytes = delete) (chunks_exact 4 (pp_bytes record)))
  | None => false
  end.
Definition close_target (w : XClientWorker) (properties : XPropertyTable) (protocols delete : Z) (window : XResourceId) :
    XCloseTargetDecision :=
  let candidates :=
    (λ candidate, (candidate, advertises_delete (wk_order w) (wk_range w) properties (wk_namespace w) protocols delete candidate)) <$>
      windows_with_property properties (wk_namespace w) protocols in
  select_x_close_target window (ancestors (wk_selections w) window) candidates.
(** The message of the window manager's protocols, marked as sent by another client. *)
Definition close_message (order : XByteOrder) (sequence protocols delete : Z) (window : XResourceId) : option (list Z) :=
  bytes ← record 32 [put_u8 0 161; put_u8 1 32; put_u32 order 4 (as_unsigned 32 (xid_raw window)); put_u32 order 8 protocols;
                     put_u32 order 12 delete];
  encode_x_client_event order (EventClientMessage sequence bytes).

(** ** A step of each writer *)

Section writers.
  Context {KS : Type} (capacity : Z).
  (** Whether the engine's queue takes an acknowledgement, or is gone. *)
  Context (acknowledge : XAuthorityClientControlAck → bool).
  Notation Frontend := (XFrontend KS).

(** What the writer finds in its queue, while the queue is its own. *)
Definition f_take {A} (client : Z) (queue : XServerFrontendClientRoute → Channel A)
    (update : Channel A → XServerFrontendClientRoute → XServerFrontendClientRoute) : F (KS := KS) (option A) :=
  fe ← f_get;
  match rg_clients (fe_registry fe) !! client with
  | Some c =>
      match chan_open (queue c), chan_items (queue c) with
      | true, item :: items =>
          _ ← f_registry (λ r, set_clients r (<[client := update (mk_channel items true) c]> (rg_clients r)));
          mret (Some item)
      | _, _ => mret None
      end
  | None => mret None
  end.
Definition set_cr_input (q : Channel XAuthorityClientInputEvent) (c : XServerFrontendClientRoute) : XServerFrontendClientRoute :=
  mk_client_route q (cr_control c) (cr_protocol c).
Definition set_cr_control (q : Channel XAuthorityControlCommand) (c : XServerFrontendClientRoute) : XServerFrontendClientRoute :=
  mk_client_route (cr_input c) q (cr_protocol c).
Definition set_cr_protocol (q : Channel XClientEvent) (c : XServerFrontendClientRoute) : XServerFrontendClientRoute :=
  mk_client_route (cr_input c) (cr_control c) q.
(** What must be there, or the writer panics. *)
Definition f_expect {A} (a : option A) : F (KS := KS) A := λ fe, a ← a; Some (Ok a, fe).

Definition write_protocol (client : Z) (w : XClientWorker) : F (list Z) :=
  event ← f_take client cr_protocol set_cr_protocol;
  match event with
  | None => mret []
  | Some event =>
      event ← f_expect (set_protocol_event_sequence event (wk_event_sequence w));
      f_expect (encode_x_client_event (wk_order w) event)
  end.

(** What a command leaves: bytes for the client, the end of its connection, or nothing but an answer. *)
Inductive XControlWrite : Type := CtlRecords (records : list (list Z)) | CtlTerminated | CtlAnswered.
Definition send_ack (client : Z) (command : XAuthorityControlCommand) (outcome : XAuthorityControlOutcome) :
    F (KS := KS) XAuthorityClientControlAck :=
  let ack := mk_control_ack client (control_transaction command) (control_surface command) outcome in
  _ ← f_guard (acknowledge ack = true) (socket_error "X11 control acknowledgement channel is full"); mret ack.
Definition clamp_engine_i16 (value : Z) : Z := Z.max (-32768) (Z.min value 32767).
Definition configure_records (w : XClientWorker) (window : XResourceId) (geometry : Rect) : option (list (list Z)) :=
  let q := wk_event_sequence w in
  _ ← (if decide (0 ≤ rwidth geometry ≤ u16_MAX ∧ 0 ≤ rheight geometry ≤ u16_MAX) then Some () else None);
  configure ← encode_x_client_event (wk_order w)
    (EventConfigureNotify q window window None (clamp_engine_i16 (rx geometry)) (clamp_engine_i16 (ry geometry))
       (rwidth geometry) (rheight geometry) 0 false);
  expose ← encode_x_client_event (wk_order w) (EventExpose q window 0 0 (rwidth geometry) (rheight geometry) 0);
  Some [configure; expose].
Definition focus_records (w : XClientWorker) (previous window : XResourceId) : option (list (list Z)) :=
  let q := wk_event_sequence w in
  out ← (if decide (previous ≠ window ∧ xid_raw previous ≠ X_SETUP_DEFAULT_ROOT)
         then bytes ← encode_x_client_event (wk_order w) (EventFocus q false 3 previous 0); Some [bytes] else Some []);
  focus ← encode_x_client_event (wk_order w) (EventFocus q true 3 window 0);
  Some (out ++ [focus]).
(** The records are numbered when they are written, and the command is acknowledged then. *)
Definition write_records (client : Z) (w : XClientWorker) (command : XAuthorityControlCommand) (records : list (list Z)) :
    F (KS := KS) (XControlWrite * XAuthorityClientControlAck * XClientWorker) :=
  records ← f_expect (mapM (renumber (wk_order w) (wk_event_sequence w)) records);
  ack ← send_ack client command ControlDelivered; mret (CtlRecords records, ack, w).
(** What becomes of a command for a window the client has. *)
Definition control_command (client : Z) (w : XClientWorker) (command : XAuthorityControlCommand) (window : XResourceId) :
    F (XControlWrite * XAuthorityClientControlAck * XClientWorker) :=
  let namespace := wk_namespace w in
  let answer outcome := ack ← send_ack client command outcome; mret (CtlAnswered, ack, w) in
  let write records w := write_records client w command records in
  match command with
  | ConfigureSurface _ _ size =>
      if decide (sz_width size ≤ 0 ∨ sz_height size ≤ 0 ∨ u16_MAX < sz_width size ∨ u16_MAX < sz_height size)
      then answer ControlInvalidSize
      else
        geometry ← f_dispatch (d_run (configure_window_size_from_engine namespace window size));
        match geometry with
        | Err _ => answer ControlAuthorityRejected
        | Ok geometry => records ← f_expect (configure_records w window geometry); write records w
        end
  | CloseSurface _ _ =>
      fe ← f_get;
      let s := fe_server fe in
      match atom_of (sv_atoms s) (str "WM_PROTOCOLS"), atom_of (sv_atoms s) (str "WM_DELETE_WINDOW") with
      | Some protocols, Some delete =>
          let decision := close_target w (sv_properties s) protocols delete window in
          if decide (ct_protocol_window_count decision = 0%nat)
          then ack ← send_ack client command ControlDelivered; mret (CtlTerminated, ack, w)
          else message ← f_expect (close_message (wk_order w) (wk_event_sequence w) protocols delete (ct_window decision));
               write [message] w
      | _, _ => ack ← send_ack client command ControlDelivered; mret (CtlTerminated, ack, w)
      end
  | FocusSurface _ _ =>
      fe ← f_get;
      let previous := (input_focus (sv_runtime (fe_server fe)) namespace).1 in
      focused ← f_dispatch (d_run (set_focus namespace window 1));
      match focused with
      | Err _ => answer ControlAuthorityRejected
      | Ok _ =>
          let previous_routed := x_resource_id (wk_focus w) 1 in
          let w := set_observed w (xid_raw window) (wk_selections w) (wk_xkb_details w) in
          if decide (previous = window ∧ previous_routed = window)
          then ack ← send_ack client command ControlDelivered; mret (CtlAnswered, ack, w)
          else records ← f_expect (focus_records w previous_routed window); write records w
      end
  end.
(** [None] where nothing waits. *)
Definition write_control (client : Z) (w : XClientWorker) :
    F (option (XControlWrite * XAuthorityClientControlAck) * XClientWorker) :=
  command ← f_take client cr_control set_cr_control;
  match command with
  | None => mret (None, w)
  | Some command =>
      match wk_surfaces w !! control_surface command with
      | None => ack ← send_ack client command ControlUnknownSurface; mret (Some (CtlAnswered, ack), w)
      | Some window => done ← control_command client w command window; mret (Some (done.1.1, done.1.2), done.2)
      end
  end.

(** ** Input *)

(** Where keys go when they need not wait for the client to select them any longer. *)
Definition key_targets (w : XClientWorker) (target : option XResourceId) : XResourceId * option XResourceId :=
  let st := wk_selections w in
  let focused := x_resource_id (wk_focus w) 1 in
  (default (keyboard_target st focused) (selected_keyboard_target st focused),
   match target ≫= selected_keyboard_target st with Some window => Some window | None => keyboard_target st <$> target end).
(** The surface of a pointer event must be the client's, whatever its target. *)
Definition delivered_window (w : XClientWorker) (item : XAuthorityClientInputEvent) : option XResourceId :=
  match ci_event item with
  | InputKey _ => let '(focused_window, routed) := key_targets w (ci_target_window item) in Some (default focused_window routed)
  | InputPointer pointer => (λ window, default window (ci_target_window item)) <$> wk_surfaces w !! pv_surface pointer
  end.
Definition core_event (event : XAuthorityInputEvent) (window : XResourceId) : XClientEvent :=
  let root := x_resource_id X_SETUP_DEFAULT_ROOT 1 in
  match event with
  | InputKey key => EventKey 0 (ke_pressed key) (ke_keycode key) (ke_time_msec key) root window (ke_state key)
  | InputPointer p =>
      match pv_kind p with
      | KindMotion =>
          EventPointerMotion 0 (pv_time_msec p) root window (pv_root_x p) (pv_root_y p) (pv_event_x p) (pv_event_y p) (pv_state p)
      | KindButton button pressed =>
          EventPointerButton 0 pressed button (pv_time_msec p) root window (pv_root_x p) (pv_root_y p) (pv_event_x p)
            (pv_event_y p) (pv_state p)
      end
  end.
Definition is_key (event : XAuthorityInputEvent) : bool := match event with InputKey _ => true | InputPointer _ => false end.
(** The window the keyboard or the pointer left, if it is another, with the types of leaving and entering. *)
Definition xi_transition (event : XAuthorityInputEvent) (focus_sent pointer_sent : option XResourceId) (window : XResourceId) :
    option (option XResourceId * Z * Z) :=
  if is_key event then if decide (focus_sent ≠ Some window) then Some (focus_sent, 10, 9) else None
  else if decide (pointer_sent ≠ Some window) then Some (pointer_sent, 8, 7) else None.
Definition crossing_records (order : XByteOrder) (q mask : Z) (event : XAuthorityInputEvent) (window : XResourceId)
    (transition : option (option XResourceId * Z * Z)) : option (list (list Z)) :=
  match transition with
  | None => Some []
  | Some (previous, out_type, in_type) =>
      left ← (match previous with
              | Some previous =>
                  if bit_set mask (Z.shiftl 1 out_type)
                  then bytes ← encode_xi_crossing_event order q out_type event previous; Some [bytes] else Some []
              | None => Some []
              end);
      entered ← (if bit_set mask (Z.shiftl 1 in_type)
                 then bytes ← encode_xi_crossing_event order q in_type event window; Some [bytes] else Some []);
      Some (left ++ entered)
  end.
Definition focus_in_records (order : XByteOrder) (q : Z) (event : XAuthorityInputEvent) (focus_sent : option XResourceId)
    (window : XResourceId) : option (list (list Z)) :=
  if decide (is_key event = true ∧ focus_sent ≠ Some window)
  then bytes ← encode_x_client_event order (EventFocus q true 3 window 0); Some [bytes] else Some [].
Definition core_record (order : XByteOrder) (q : Z) (event : XAuthorityInputEvent) (window : XResourceId) : option (list (list Z)) :=
  bytes ← encode_x_client_event order (core_event event window); bytes ← renumber order q bytes; Some [bytes].
(** A change of the modifiers, for a client that asked for it. *)
Definition xkb_records (order : XByteOrder) (q details modifiers : Z) (event : XAuthorityInputEvent) : option (list (list Z)) :=
  match event with
  | InputKey key =>
      if decide (Z.lxor modifiers (ke_state key) ≠ 0 ∧ Z.land details 1 ≠ 0)
      then bytes ← encode_x_client_event order
             (EventXkbStateNotify q (ke_time_msec key) (as_unsigned 8 (ke_state key)) 1 (ke_keycode key) (if ke_pressed key then 2 else 3));
           Some [bytes]
      else Some []
  | InputPointer _ => Some []
  end.
Definition xi_records (order : XByteOrder) (q : Z) (xi_event_type : option Z) (event : XAuthorityInputEvent) (window : XResourceId) :
    option (list (list Z)) :=
  match xi_event_type with
  | Some event_type => bytes ← encode_xi_device_event order q event_type event window; Some [bytes]
  | None => Some []
  end.
(** Everything the client is told about one event, and what the writer and the worker remember of it. *)
Definition input_records (w : XClientWorker) (item : XAuthorityClientInputEvent) (window : XResourceId) :
    option (list (list Z) * XClientWorker) :=
  let order := wk_order w in
  let q := wk_event_sequence w in
  let event := ci_event item in
  let focus_sent := if decide (is_key event = true ∧ wk_focus w = xid_raw window) then Some window else wk_focus_sent w in
  crossing ← crossing_records order q (ci_xi_transition_mask item) event window
               (xi_transition event focus_sent (wk_pointer_sent w) window);
  focus ← focus_in_records order q event focus_sent window;
  core ← core_record order q event window;
  xkb ← xkb_records order q (wk_xkb_details w) (wk_modifiers w) event;
  xi ← xi_records order q (ci_xi_event_type item) event window;
  let w := match event with
           | InputKey key => set_sent w (ke_state key) (Some window) (wk_pointer_sent w)
           | InputPointer _ => set_sent w (wk_modifiers w) focus_sent (Some window)
           end in
  Some (crossing ++ focus ++ core ++ xkb ++ xi, w).
(** Routed to another client by mistake, an event is dropped. *)
Definition write_input (client : Z) (w : XClientWorker) : F (KS := KS) (list (list Z) * XClientWorker) :=
  item ← f_take client cr_input set_cr_input;
  match item with
  | None => mret ([], w)
  | Some item =>
      if decide (ci_client item = client) then
        match delivered_window w item with
        | None => f_fail (socket_error "X11 pointer target surface is unknown")
        | Some window =>
            written ← f_expect (input_records w item window);
            _ ← f_route (send_input_delivery capacity client (ci_delivery item) DeliveryFlushed)
                  (socket_error "X11 input delivery acknowledgement channel is full");
            mret written
        end
      else mret ([], w)
  end.
End writers.
