(* ===== verification/XService.v ===== *)
(** * What the frontend guarantees to its clients
    ([sophia-x-authority/src/x11_socket.rs])

    A turn of a client's worker never panics, whatever bytes the client sent, answers what is waited
    for under the request's sequence number, and changes only what is the client's; a client that
    leaves leaves nothing behind. *)

From S2P Require Import Prelude Ids Geometry Packets PortalPackets Text.
From S2P Require Import XAtoms XTables XProperties XSelections XInputGrabs XSoftware XState XRuntime XResources XRelease XOps XSystem.
From S2P Require Import XProtocol XKeyboard XWire XDecode XDispatch XServing XAnswers XSetup XClients XFocus XRouting XRoutes XFrontend.
From stdpp Require Import strings pretty.
Local Open Scope Z_scope.

(** ** The state between turns *)

Record worker_ok {KS} (fe : XFrontend KS) (client : Z) (w : XClientWorker) : Prop := mk_worker_ok {
  wo_lease : ls_leases (fe_leases fe) !! client = Some (lease_of client);
  wo_range : wk_range w = range_of client;
  wo_fds : (length (wk_fds w) ≤ MAX_PENDING_REQUEST_FDS)%nat;
  wo_numbered : u16_ok (wk_event_sequence w);
}.
Record frontend_ok {KS} (fe : XFrontend KS) : Prop := mk_frontend_ok {
  fo_server : server_ok (fe_server fe);
  fo_input : rg_input (fe_registry fe) = sv_input (fe_server fe);
  fo_leases : leases_ok (fe_leases fe);
  fo_routes : queues_routable (fe_registry fe);
  fo_workers : ∀ client w, fe_workers fe !! client = Some w → worker_ok fe client w;
}.

Lemma set_input_same s : set_sv_input s (sv_input s) = s.
Proof. by destruct s. Qed.

#[export] Instance runs_take_update : RunsAs take_cpu_buffer_update [OpTakeCpuBufferUpdate] := λ r, eq_refl.

Section serving.
  Context {KS : Type} (capacity : Z) (has_render_device : bool) (render_device_fd : option Z)
    (copy_bytes : Z → Z → Z → option (list Z)) (observe : X11CoreDispatchTrace → result unit string).
  Notation Frontend := (XFrontend KS).
  Implicit Types (fe : Frontend).
  Context (client : Z) (ns : NamespaceId).
  Notation mine := (λ id, owns_new_resource (range_of client) (xid_raw id)).

(** A step of the client's worker does not panic and changes only what is the client's. *)
Record within (fe fe' : Frontend) : Prop := mk_within {
  wi_server : confined ns client mine (fe_server fe) (fe_server fe');
  wi_leases : fe_leases fe' = fe_leases fe;
  wi_workers : fe_workers fe' = fe_workers fe;
}.
#[export] Instance within_preorder : PreOrder within.
Proof.
  split.
  - intros fe. by constructor.
  - intros fe1 fe2 fe3 [S1 L1 W1] [S2 L2 W2]. constructor; [by etrans|congruence..].
Qed.
Definition step_at {A} fe (m : F (KS := KS) A) (P : A → Prop) : Prop :=
  ∃ r fe', m fe = Some (r, fe') ∧ (∀ a, r = Ok a → P a) ∧ frontend_ok fe' ∧ within fe fe'.
Definition steps_ok {A} (m : F A) (P : A → Prop) : Prop := ∀ fe, frontend_ok fe → step_at fe m P.

Lemma fs_ret {A} (a : A) (P : A → Prop) : P a → steps_ok (mret a) P.
Proof. intros HP fe Hfe. exists (Ok a), fe. split_and!; [done|by intros ? [= <-]|done|reflexivity]. Qed.
Lemma at_bind {A B} fe (m : F A) (k : A → F B) P Q :
  step_at fe m P → (∀ a, P a → steps_ok (k a) Q) → step_at fe (m ≫= k) Q.
Proof.
  intros (r & fe1 & E1 & HP & Hfe1 & R1) Hk. unfold step_at, mbind, f_bind. rewrite E1.
  destruct r as [a|e]; [|by exists (Err e), fe1; split_and!].
  destruct (Hk a (HP a eq_refl) fe1 Hfe1) as (r & fe2 & E2 & HQ & Hfe2 & R2). exists r, fe2.
  split_and!; [done..|by etrans].
Qed.
Lemma fs_bind {A B} (m : F A) (k : A → F B) P Q :
  steps_ok m P → (∀ a, P a → steps_ok (k a) Q) → steps_ok (m ≫= k) Q.
Proof. intros Hm Hk fe Hfe. eapply at_bind; [by apply Hm|done]. Qed.
Lemma fs_at {A} (k : Frontend → F A) P : (∀ fe, frontend_ok fe → step_at fe (k fe) P) → steps_ok (f_get ≫= k) P.
Proof. intros Hk fe Hfe. destruct (Hk fe Hfe) as (r & fe' & H). by exists r, fe'. Qed.
Lemma fs_then {A B} (m : F A) (k : A → F B) Q :
  steps_ok m (λ _, True) → (∀ a, steps_ok (k a) Q) → steps_ok (m ≫= k) Q.
Proof. intros Hm Hk. by eapply fs_bind; [done|intros a _; apply Hk]. Qed.
Lemma fs_weaken {A} (m : F A) (P Q : A → Prop) : steps_ok m P → (∀ a, P a → Q a) → steps_ok m Q.
Proof.
  intros Hm HPQ fe Hfe. destruct (Hm fe Hfe) as (r & fe' & E & HP & H). exists r, fe'. split; [done|]. split; [|done].
  intros a Ha. by apply HPQ, HP.
Qed.
Lemma fs_fail {A} e (P : A → Prop) : steps_ok (f_fail e) P.
Proof. intros fe Hfe. exists (Err e), fe. split_and!; [done..|reflexivity]. Qed.
Lemma fs_guard P `{Decision P} e : steps_ok (f_guard P e) (λ _, P).
Proof. unfold f_guard. case_decide; [by apply fs_ret|apply fs_fail]. Qed.
Lemma fs_get Q : (∀ fe, frontend_ok fe → Q fe) → steps_ok f_get Q.
Proof. intros HQ fe Hfe. exists (Ok fe), fe. split_and!; [done|by intros ? [= <-]; apply HQ|done|reflexivity]. Qed.
Lemma at_dispatch {A} fe (m : D A) (P : A → Prop) a s :
  frontend_ok fe → m (fe_server fe) = Some (a, s) → P a → server_ok s → confined ns client mine (fe_server fe) s →
  step_at fe (f_dispatch m) P.
Proof.
  intros Hfe E HP Hs R. unfold step_at, f_dispatch. rewrite E.
  exists (Ok a), (set_server fe s). split_and!; [done|by intros ? [= <-]| |].
  - destruct Hfe as [_ _ Hl Hq Hw]. constructor; simpl; try done. intros c w Hc. by destruct (Hw c w Hc).
  - by constructor.
Qed.
Lemma fs_dispatch {A} (m : D A) P : serves ns client mine m P → steps_ok (f_dispatch m) P.
Proof.
  intros Hm fe Hfe. destruct (Hm (fe_server fe) (fo_server _ Hfe)) as (a & s & E & HP & Hs & R). by eapply at_dispatch.
Qed.
Lemma fs_runtime {A} (f : XAuthorityRuntime → A * XAuthorityRuntime) ops :
  RunsAs f ops → Forall (op_confined ns mine) ops → steps_ok (f_runtime f) (λ _, True).
Proof. intros Hf Hops. by eapply fs_dispatch, serves_draw. Qed.
(** The routes share nothing with the server but the input authority. *)
Lemma fs_route {A} (m : R A) e : (∀ i, keeps (settled i) m) → steps_ok (f_route m e) (λ _, True).
Proof.
  intros Hm fe Hfe. unfold step_at, f_route. specialize (Hm _ (fe_registry fe) (conj (fo_input _ Hfe) (fo_routes _ Hfe))).
  destruct (m (fe_registry fe)) as [a r].
  eexists _, _. split; [done|]. destruct Hm as [Hm Hq]. simpl in Hm, Hq. unfold set_fe_registry. rewrite Hm, set_input_same.
  split_and!; [done| |].
  - destruct Hfe as [Hs _ Hl _ Hw]. constructor; simpl; try done. intros c w Hc. by destruct (Hw c w Hc).
  - by constructor.
Qed.
Lemma fs_registry f : (∀ i r, settled i r → settled i (f r)) → steps_ok (f_registry f) (λ _, True).
Proof. intros Hf. apply (fs_route (λ r, (Ok (), f r)) (socket_error "")). intros i r. apply Hf. Qed.
Lemma fs_payloads q : steps_ok (f_set_payloads q) (λ _, True).
Proof.
  intros fe [Hs Hi Hl Hq Hw]. eexists _, _. split; [done|]. split_and!; [done| |by constructor].
  constructor; simpl; try done. intros c w Hc. by destruct (Hw c w Hc).
Qed.
Lemma at_transaction fe :
  frontend_ok fe → step_at fe f_allocate_transaction (λ transaction, transaction = from_raw (fe_next_transaction fe)).
Proof.
  intros Hfe. unfold step_at, f_allocate_transaction, allocate_transaction. case_decide.
  - destruct Hfe as [Hs Hi Hl Hq Hw]. eexists _, _. split; [done|]. split_and!; [by intros ? [= <-]| |by constructor].
    constructor; simpl; try done. intros c w Hc. by destruct (Hw c w Hc).
  - eexists _, _. split; [done|]. split_and!; [done..|reflexivity].
Qed.
Lemma worker_stored fe w :
  frontend_ok fe → is_Some (fe_workers fe !! client) →
  wk_range w = range_of client → (length (wk_fds w) ≤ MAX_PENDING_REQUEST_FDS)%nat → u16_ok (wk_event_sequence w) →
  frontend_ok (set_workers fe (<[client := w]> (fe_workers fe))).
Proof.
  intros [Hs Hi Hl Hq Hw] [w0 Hw0] Hr Hf Hn. constructor; simpl; try done. intros c w'. rewrite lookup_insert_Some.
  intros [[<- <-]|[_ Hc]]; [|by destruct (Hw c w' Hc)]. constructor; try done. apply (wo_lease _ _ _ (Hw _ _ Hw0)).
Qed.

(** ** The answers of a turn *)

Lemma answered_patch expected seq request modifiers outputs :
  answered expected seq outputs → answered expected seq (patch_output has_render_device request modifiers <$> outputs).
Proof.
  assert (∀ o, output_sequence (patch_output has_render_device request modifiers o) = output_sequence o ∧
    (is_event (patch_output has_render_device request modifiers o) ↔ is_event o) ∧
    (∀ e, o = OutError e → patch_output has_render_device request modifiers o = OutError e)) as Hp.
  { intros o. unfold patch_output. by destruct request; try done; destruct o as [e|ev|[]]; try done; case_decide. }
  intros [Ha Hs]. split.
  - destruct expected; simpl in *.
    + destruct Ha as (o & -> & Ho). eexists. split; [done|]. by destruct (Hp o) as (_ & -> & _).
    + destruct Ha as [Ha|(e & ->)].
      * left. apply Forall_fmap. eapply Forall_impl; [exact Ha|]. intros o Ho. by apply (Hp o).
      * right. exists e. simpl. by rewrite (proj2 (proj2 (Hp _)) e).
  - apply Forall_fmap. eapply Forall_impl; [exact Hs|]. intros o Ho. simpl. by destruct (Hp o) as (-> & _).
Qed.
Lemma find_output_Some {A} (f : XClientOutput → option A) outputs i a :
  find_output f outputs = Some (i, a) → ∃ o, outputs !! i = Some o ∧ f o = Some a.
Proof.
  unfold find_output. intros ([j o] & Hf & Ha)%bind_Some. apply fmap_Some in Ha as (a' & Ha & [= -> ->]).
  apply list_find_Some in Hf as (Hl & _). by exists o.
Qed.
(** An event is taken out only where no reply is waited for. *)
Lemma answered_delete expected seq outputs i o :
  answered expected seq outputs → outputs !! i = Some o → is_event o → expected = false ∧ answered expected seq (delete i outputs).
Proof.
  intros [Ha Hs] Hi Ho.
  assert (∀ P, Forall P outputs → Forall P (delete i outputs)) as Hdel.
  { intros P HP. rewrite delete_take_drop. apply Forall_app. split; [by apply Forall_take|by apply Forall_drop]. }
  destruct expected; simpl in *.
  - destruct Ha as (o' & -> & Hn). destruct i; [|done]. by injection Hi as ->.
  - split; [done|]. split; [|by apply Hdel]. destruct Ha as [Ha|(e & ->)]; [left; by apply Hdel|].
    destruct i; [|done]. injection Hi as <-. done.
Qed.

(** ** A turn *)

(** What a turn keeps of the worker it began with. *)
Record same_worker (w w' : XClientWorker) : Prop := mk_same_worker {
  sw_order : wk_order w' = wk_order w; sw_namespace : wk_namespace w' = wk_namespace w; sw_range : wk_range w' = wk_range w;
  sw_sequence : wk_sequence w' = wk_sequence w; sw_fds : (length (wk_fds w') ≤ MAX_PENDING_REQUEST_FDS)%nat;
}.
Lemma take_fds_ok request fds w :
  steps_ok (take_fds request fds w) (λ p, same_worker w p.2 ∧ length p.1 = Z.to_nat (required_fd_count request) ∧
    p.1 ++ wk_fds p.2 = wk_fds w ++ fds).
Proof.
  unfold take_fds. eapply fs_bind; [apply fs_guard|]. intros ? Hmax. simpl in Hmax.
  eapply fs_bind; [apply fs_guard|]. intros ? Hreq. simpl in Hreq. apply fs_ret. simpl. split_and!.
  - constructor; try done. simpl. rewrite length_drop. lia.
  - rewrite length_take. lia.
  - apply take_drop.
Qed.
Lemma route_created_ok request w : steps_ok (route_created client request w)
  (λ w', (length (wk_fds w) ≤ MAX_PENDING_REQUEST_FDS)%nat → same_worker w w').
Proof.
  unfold route_created. destruct request; try (by apply fs_ret).
  destruct (rq_kind packet); try (by apply fs_ret).
  eapply fs_then; [by apply fs_registry|]. intros _. apply fs_ret. by constructor.
Qed.
Lemma queue_request_present_ok transaction request :
  steps_ok (queue_request_present capacity client transaction request) (λ _, True).
Proof.
  unfold queue_request_present. destruct request; try (by apply fs_ret).
  eapply fs_then; [apply fs_route; intros i; apply (queue_present_kept capacity _ _ (settled_kept i))|]. intros _. by apply fs_ret.
Qed.
Lemma subscribe_ok request : steps_ok (subscribe client request) (λ _, True).
Proof. unfold subscribe. destruct request; first [by apply fs_ret|by apply fs_registry]. Qed.
Lemma same_worker_observe request w w' : same_worker w w' → same_worker w (observe_request request w').
Proof. intros []. by constructor. Qed.
Lemma same_worker_trans w1 w2 w3 : same_worker w1 w2 → same_worker w2 w3 → same_worker w1 w3.
Proof. intros [] []. constructor; congruence. Qed.

Section turn.
  Context (w : XClientWorker) (transaction : TransactionId) (major_opcode : Z).
  Hypothesis own_namespace : wk_namespace w = ns.
  Hypothesis own_range : wk_range w = range_of client.
  Notation c := (dispatch_context client w major_opcode).

Lemma dispatched request :
  request_ok (wire_context w transaction) request →
  steps_ok (f_dispatch (dispatch_x11_wire_request c copy_bytes request))
    (λ d, answered (expects_reply request) (wk_sequence w) (dr_outputs d)).
Proof.
  intros Hok. apply fs_dispatch. unfold dispatch_x11_wire_request.
  assert (serves ns client (λ id, owns_new_resource (range_of client) (xid_raw id)) (d_runtime begin_dispatch) (λ _, True)) as Hb.
  { eapply serves_draw; [apply runs_begin|]. apply Forall_singleton. split; [done|]. split; [by right|apply Forall_nil_2]. }
  eapply serves_bind; [exact Hb|]. intros _ _. rewrite <-own_namespace.
  eapply (dispatch_served (wire_context w transaction) (range_of client) c copy_bytes); simpl; try done. by rewrite own_range.
Qed.

Lemma serve_decoded_ok fds request :
  (length (wk_fds w) ≤ MAX_PENDING_REQUEST_FDS)%nat → request_ok (wire_context w transaction) request →
  steps_ok (serve_decoded capacity has_render_device render_device_fd copy_bytes client transaction c fds request w)
    (λ p, answered (expects_reply request) (wk_sequence w) (dr_outputs (sd_result p.1)) ∧ same_worker w p.2).
Proof.
  intros Hf Hok. unfold serve_decoded. eapply fs_bind; [apply take_fds_ok|]. intros [received w1] (H1 & _). simpl in H1.
  eapply fs_bind; [apply route_created_ok|]. intros w2 H2. pose proof (same_worker_trans _ _ _ H1 (H2 (sw_fds _ _ H1))) as H3.
  eapply fs_then; [apply queue_request_present_ok|]. intros queued. eapply fs_then; [by apply (fs_get (λ _, True))|]. intros fe.
  cbv zeta. eapply fs_bind; [by apply dispatched|]. intros d Hd. simpl in Hd.
  pose proof (answered_patch _ _ request (wk_modifiers w2) _ Hd) as Ha.
  set (d' := with_outputs d _).
  change (answered (expects_reply request) (wk_sequence w) (dr_outputs d')) in Ha. clearbody d'.
  eapply (fs_bind _ _ (same_worker w)).
  { case_bool_decide; [|by apply fs_ret]. eapply fs_then; [apply subscribe_ok|]. intros _. by apply fs_ret, same_worker_observe. }
  intros w3 H4. eapply fs_then.
  { destruct (_ && _); [by apply fs_registry|by apply fs_ret]. }
  intros _. eapply fs_then; [eapply fs_runtime; [apply runs_take_update|apply Forall_singleton; split; [done|]; split; [by right|apply Forall_nil_2]]|].
  intros update. eapply fs_then; [by apply (fs_get (λ _, True))|]. intros fe'.
  destruct request; try (by apply fs_ret). simpl in *.
  case_bool_decide; [|by apply fs_ret]. destruct render_device_fd; [by apply fs_ret|].
  apply fs_ret. split; [|done]. simpl. apply answered_error. simpl. by destruct H4.
Qed.
Lemma serve_request_ok received :
  (length (wk_fds w) ≤ MAX_PENDING_REQUEST_FDS)%nat → Forall u8_ok (rc_bytes received) → rc_major_opcode received = major_opcode →
  steps_ok (serve_request capacity has_render_device render_device_fd copy_bytes client transaction received w)
    (λ p, same_worker w p.2 ∧ ∃ expected, answered expected (wk_sequence w) (dr_outputs (sd_result p.1)) ∧
      match decode_x11_core_request (wire_context w transaction) (rc_bytes received) with
      | Some (Ok request) => expected = expects_reply request
      | _ => expected = true ∧ ∃ e, dr_outputs (sd_result p.1) = [OutError e]
      end).
Proof.
  intros Hf Hb Hm. unfold serve_request. pose proof (decode_core_ok (wire_context w transaction) _ Hb) as Hd. unfold wp in Hd.
  destruct (decode_x11_core_request _ _) as [[request|e]|]; [..|done].
  - rewrite Hm. eapply fs_weaken; [apply serve_decoded_ok; [done|apply Hd]|]. intros p [H1 H2]. split; [done|]. by eexists.
  - apply fs_ret. split; [by constructor|]. exists true. simpl. split; [by apply answered_error|]. split; [done|by eexists].
Qed.

Lemma captured requestor property s :
  is_clipboard_proxy (sv_runtime s) ns requestor → server_ok s →
  ∃ payload properties runtime,
    capture_clipboard_source_payload requestor property (sv_properties s) (sv_runtime s) = (payload, properties, runtime) ∧
    server_ok (set_sv_properties (set_sv_runtime s runtime) properties) ∧
    confined ns client mine s (set_sv_properties (set_sv_runtime s runtime) properties).
Proof.
  intros Hp Hs. destruct (capture_clipboard_source_payload _ _ _ _) as [[payload properties] runtime] eqn:E.
  assert (runtime = runtime_run (sv_runtime s) [OpClipboardCapture requestor property (sv_properties s)]) as Hr by (simpl; by rewrite E).
  assert (properties = sv_properties s ∨ ∃ window, properties = (remove_window (sv_properties s) ns window).2) as Hprop.
  { unfold is_clipboard_proxy in Hp. unfold capture_clipboard_source_payload in E.
    destruct (rt_clipboard_proxies (sv_runtime s) !! requestor) as [proxy|] eqn:Hx; [|done]. cbv zeta in E. simpl in Hp. injection Hp as Hp.
    rewrite Hp in E. case_decide; [injection E as _ <- _; eauto|]. destruct (property_get _ _ _ _); [|injection E as _ <- _; by left].
    case_decide; injection E as _ <- _; eauto. }
  exists payload, properties, runtime. split; [done|]. split.
  - destruct Hs as [H1 H2 H3 H4]. constructor; simpl; try done.
    + rewrite Hr. apply runtime_run_ok; [by repeat constructor|done].
    + destruct Hprop as [->|[window ->]]; [done|]. by apply (property_op_preserves _ (OpRemoveWindow ns window)).
  - constructor; simpl; try done.
    + exists [OpClipboardCapture requestor property (sv_properties s)]. split; [|done]. apply Forall_singleton.
      split; [done|]. split; [by right|apply Forall_nil_2].
    + intros k Hk. destruct Hprop as [->|[window ->]]; [done|]. simpl. destruct (sv_properties s !! k) eqn:Ek.
      * apply map_lookup_filter_Some. split; [done|]. by left.
      * apply map_lookup_filter_None. by left.
Qed.

Lemma capture_ok w' d expected seq :
  wk_namespace w' = ns → answered expected seq (dr_outputs d) →
  steps_ok (capture_payload capacity w' d) (λ d', answered expected seq (dr_outputs d') ∧ (expected = true → d' = d)).
Proof.
  intros Hw Ha. unfold capture_payload. destruct (find_output _ _) as [[i [requestor property]]|] eqn:Hf; [|by apply fs_ret].
  apply find_output_Some in Hf as (o & Ho & Hf).
  assert (is_event o) as He by (destruct o as [|[]|]; done).
  destruct (answered_delete _ _ _ _ _ Ha Ho He) as [-> Hdel].
  apply fs_at. intros fe Hfe. rewrite Hw. case_decide as Hp; [|by apply fs_ret].
  destruct (captured requestor property _ Hp (fo_server _ Hfe)) as (payload & properties & runtime & E & Hs & Hc).
  eapply (at_bind _ _ _ (λ _, True)); [eapply at_dispatch; [done| |done..]; simpl; by rewrite E|].
  intros r _. destruct r as [r|r]; [|apply fs_fail]. eapply fs_then; [by apply (fs_get (λ _, True))|]. intros fe'.
  destruct (try_send _ _ _); [|apply fs_fail..]. eapply fs_then; [apply fs_payloads|]. intros _. by apply fs_ret.
Qed.
Lemma forward_ok d expected seq :
  answered expected seq (dr_outputs d) →
  steps_ok (forward_selection capacity client d)
    (λ p, answered expected seq (dr_outputs p.1) ∧ (expected = true → p = (d, None)) ∧
      ∀ target event, p.2 = Some (target, event) → event_sequence event = seq ∧ OutEvent event ∈ dr_outputs d).
Proof.
  intros Ha. unfold forward_selection. destruct (find_output _ _) as [[i [destination event]]|] eqn:Hf; [|by apply fs_ret].
  apply find_output_Some in Hf as (o & Ho & Hf).
  assert (o = OutEvent event ∧ routable event) as [-> Hroutable] by (destruct o as [|[]|]; simpl in Hf; simplify_eq; split; done || by eexists).
  destruct (answered_delete _ _ _ _ _ Ha Ho I) as [-> Hdel].
  eapply fs_then; [by apply (fs_get (λ _, True))|]. intros fe.
  destruct (client_for_resource _ _) as [target|]; [|by apply fs_ret]. case_decide; [by apply fs_ret|].
  eapply fs_then; [apply fs_route; intros input; by apply (route_protocol_kept capacity _ _ (settled_kept input))|]. intros _. apply fs_ret. split_and!; [done..|].
  intros t e [= <- <-]. apply list_elem_of_lookup_2 in Ho as Hin. destruct Ha as [_ Hs]. rewrite Forall_forall in Hs. split; [|done].
  by apply (Hs _ Hin).
Qed.
End turn.

(** What the client of worker [w] gets for its bytes. *)
Definition turn_answers (fe : Frontend) (w : XClientWorker) (bytes : list Z) (turn : XTurn) : Prop :=
  Forall (λ o, output_sequence o = as_unsigned 16 (wk_sequence w + 1)) (tn_outputs turn) ∧
  match decode_x11_core_request (wire_context w (from_raw (fe_next_transaction fe))) bytes with
  | Some (Ok request) =>
      if expects_reply request then ∃ o, tn_outputs turn = [o] ∧ ¬ is_event o ∧ tn_forwarded turn = None
      else Forall is_event (tn_outputs turn) ∨ ∃ e, tn_outputs turn = [OutError e]
  | _ => ∃ e, tn_outputs turn = [OutError e]
  end.
Lemma turn_body_ok fe w received :
  frontend_ok fe → wk_namespace w = ns → wk_range w = range_of client →
  (length (wk_fds w) ≤ MAX_PENDING_REQUEST_FDS)%nat → Forall u8_ok (rc_bytes received) →
  let w1 := set_sequence w (as_unsigned 16 (wk_sequence w + 1)) in
  step_at fe (turn_body capacity has_render_device render_device_fd copy_bytes observe client received w1)
    (λ p, turn_answers fe w (rc_bytes received) p.1 ∧ same_worker w1 p.2).
Proof.
  intros Hfe Hns Hr Hf Hb w1. unfold turn_body. eapply at_bind; [by apply at_transaction|]. intros transaction ->.
  eapply fs_bind; [by apply (serve_request_ok w1 (from_raw (fe_next_transaction fe)) (rc_major_opcode received))|].
  intros [sd w2] (Hsame & expected & Ha & Hd). simpl in Ha, Hd, Hsame.
  eapply fs_bind; [eapply capture_ok; [|exact Ha]; rewrite (sw_namespace _ _ Hsame); exact Hns|]. intros d [Ha' Hd'].
  eapply fs_bind; [eapply forward_ok; exact Ha'|]. intros [d2 fwd] (Ha2 & Hd2 & _). simpl in Ha2, Hd2.
  eapply fs_then; [unfold report; destruct (observe _); [by apply fs_ret|apply fs_fail]|]. intros _. apply fs_ret.
  split; [|done]. split; [apply Ha2|]. cbn [tn_outputs tn_forwarded fst].
  change (wire_context w1 _) with (wire_context w (from_raw (fe_next_transaction fe))) in Hd.
  destruct (decode_x11_core_request _ _) as [[request|e]|].
  - subst expected. destruct (expects_reply request); [|apply Ha2]. destruct Ha2 as [(o & Ho & He) _].
    specialize (Hd2 eq_refl). injection Hd2 as -> ->. by exists o.
  - destruct Hd as [-> [e' Hd]]. specialize (Hd2 eq_refl). injection Hd2 as -> _. specialize (Hd' eq_refl). subst d. by exists e'.
  - destruct Hd as [-> [e' Hd]]. specialize (Hd2 eq_refl). injection Hd2 as -> _. specialize (Hd' eq_refl). subst d. by exists e'.
Qed.
(** After a turn: the worker has moved on, or its connection ends. *)
Record turn_done (fe : Frontend) (w : XClientWorker) (received : X11ReceivedCoreRequest) (r : result XTurn X11SetupSocketError)
    (fe' : Frontend) : Prop := mk_turn_done {
  td_ok : frontend_ok fe';
  td_server : confined ns client mine (fe_server fe) (fe_server fe');
  td_leases : fe_leases fe' = fe_leases fe;
  td_worker : match r with
              | Ok turn => turn_answers fe w (rc_bytes received) turn ∧
                  ∃ w', fe_workers fe' = <[client := w']> (fe_workers fe) ∧ wk_namespace w' = ns ∧
                    wk_sequence w' = as_unsigned 16 (wk_sequence w + 1) ∧ wk_event_sequence w' = wk_sequence w'
              | Err _ => fe_workers fe' = fe_workers fe
              end;
}.
Lemma turn_ok fe w received :
  frontend_ok fe → fe_workers fe !! client = Some w → wk_namespace w = ns → Forall u8_ok (rc_bytes received) →
  ∃ r fe', serve_turn capacity has_render_device render_device_fd copy_bytes observe client received w fe = Some (r, fe') ∧
    turn_done fe w received r fe'.
Proof.
  intros Hfe Hw Hns Hb. pose proof (fo_workers _ Hfe _ _ Hw) as [Hl Hr Hf _].
  destruct (turn_body_ok fe w received Hfe Hns Hr Hf Hb) as (r & fe1 & E & HP & Hfe1 & [R1 L1 W1]).
  unfold serve_turn, mbind, f_bind. rewrite E. destruct r as [[turn w2]|e]; [|by exists (Err e), fe1].
  destruct (HP _ eq_refl) as [Ha [Ho Hn Hra Hs Hfd]]. simpl in Ha, Ho, Hn, Hra, Hs, Hfd.
  eexists (Ok turn), _. split; [done|]. constructor; [|done..|].
  - apply worker_stored; simpl; [done|rewrite W1; by eexists|congruence|done|]. rewrite Hs. apply cast_u16_ok.
  - split; [done|]. eexists. simpl. rewrite W1. split; [done|]. split_and!; [simpl; congruence|done..].
Qed.
End serving.
