(* ===== verification/XWriting.v ===== *)
(** * What the writers of a connection send
    ([sophia-x-authority/src/x11_socket.rs])

    The writers send whole messages, numbered as the client's last request; what they say is what was
    routed: input to its window, after the focus it needs, and the commands of the engine, each
    acknowledged once. *)

From S2P Require Import Prelude Ids Geometry Packets PortalPackets Text.
From S2P Require Import XAtoms XTables XProperties XSelections XInputGrabs XSoftware XState XRuntime XResources XRelease XDraws XOps XSystem.
From S2P Require Import XProtocol XKeyboard XWire XDecode XDispatch XServing XAnswers XSetup XClients XEncode XMessages XFocus.
From S2P Require Import XRouting XRoutes XFrontend XWriters XService.
From stdpp Require Import strings.
Local Open Scope Z_scope.

(** ** Reading fields back *)

Definition bytes_at (i n : Z) (m : list Z) : list Z := take (Z.to_nat n) (drop (Z.to_nat i) m).
Lemma put_lookup m i b m' k :
  0 ≤ i → put m (i, b) = Some m' →
  m' !! k = if decide (Z.to_nat i ≤ k < Z.to_nat i + length b)%nat then b !! (k - Z.to_nat i)%nat else m !! k.
Proof.
  intros Hi. unfold put, str_len. simpl. case_decide as Hb; [|done]. intros [= <-].
  assert (length (take (Z.to_nat i) m) = Z.to_nat i) as Ht by (rewrite length_take; lia).
  destruct (decide (k < Z.to_nat i)%nat).
  { rewrite decide_False by lia. rewrite lookup_app_l by lia. by rewrite lookup_take_lt. }
  rewrite lookup_app_r by lia. rewrite Ht. destruct (decide (k - Z.to_nat i < length b)%nat).
  - rewrite decide_True by lia. by rewrite lookup_app_l by lia.
  - rewrite decide_False by lia. rewrite lookup_app_r by lia. rewrite lookup_drop. f_equal. lia.
Qed.
Lemma slice_lookup i n m k : bytes_at i n m !! k = if decide (k < Z.to_nat n)%nat then m !! (Z.to_nat i + k)%nat else None.
Proof.
  unfold bytes_at. case_decide; [by rewrite lookup_take_lt, lookup_drop by lia|]. apply lookup_take_ge. lia.
Qed.
Lemma put_slice m i b m' : 0 ≤ i → put m (i, b) = Some m' → bytes_at i (str_len b) m' = b.
Proof.
  intros Hi E. apply list_eq. intros k. rewrite slice_lookup. unfold str_len. rewrite Nat2Z.id. case_decide.
  - rewrite (put_lookup _ _ _ _ _ Hi E), decide_True by lia. f_equal. lia.
  - symmetry. apply lookup_ge_None. lia.
Qed.
(** Fields that do not touch the [n] bytes from [i]. *)
Definition apart (i n : Z) (f : Z * list Z) : Prop := 0 ≤ f.1 ∧ (f.1 + str_len f.2 ≤ i ∨ i + n ≤ f.1).
Lemma put_apart m f m' i n : 0 ≤ i → apart i n f → put m f = Some m' → bytes_at i n m' = bytes_at i n m.
Proof.
  destruct f as [j b]. intros Hi [Hj Hb] E. simpl in *. apply list_eq. intros k. rewrite !slice_lookup. case_decide; [|done].
  rewrite (put_lookup _ _ _ _ _ Hj E), decide_False; [done|]. unfold str_len in Hb. lia.
Qed.
Lemma puts_apart m fs m' i n : 0 ≤ i → Forall (apart i n) fs → puts m fs = Some m' → bytes_at i n m' = bytes_at i n m.
Proof.
  intros Hi Hfs. revert m. induction Hfs as [|f fs Hf _ IH]; intros m; [by intros [= <-]|]. simpl.
  destruct (put m f) as [m1|] eqn:E; [|done]. simpl. intros E'. rewrite (IH m1 E'). by eapply put_apart.
Qed.
(** The [k]th field is there when no later one is written over it. *)
Lemma puts_field k m fs m' i b :
  puts m fs = Some m' → fs !! k = Some (i, b) → 0 ≤ i → Forall (apart i (str_len b)) (drop (S k) fs) → bytes_at i (str_len b) m' = b.
Proof.
  intros E Hk Hi Hfs. rewrite <-(take_drop_middle fs k (i, b) Hk), puts_app in E. simpl in E.
  destruct (puts m (take k fs)) as [m1|]; [|done]. simpl in E. destruct (put m1 (i, b)) as [m2|] eqn:E2; [|done]. simpl in E.
  rewrite (puts_apart _ _ _ _ _ Hi Hfs E). by eapply put_slice.
Qed.

Section reading.
  Context (order : XByteOrder).

Definition half_at (i : Z) (m : list Z) : Z := ordered order (bytes_at i 2 m).
Definition word_at (i : Z) (m : list Z) : Z := ordered order (bytes_at i 4 m).
Lemma kind_slice m : message_kind m = default 0 (head (bytes_at 0 1 m)).
Proof. by destruct m. Qed.
Lemma sequence_slice m : message_sequence order m = half_at 2 m.
Proof. done. Qed.
Lemma ordered_u16 v : u16_ok v → ordered order (push_u16 order v) = v.
Proof. intros Hv. unfold push_u16. rewrite ordered_in_order. apply from_to_le_bytes. word_lia. Qed.
Lemma ordered_u32 v : u32_ok v → ordered order (push_u32 order v) = v.
Proof. intros Hv. unfold push_u32. rewrite ordered_in_order. apply from_to_le_bytes. word_lia. Qed.

Section fields.
  Context (k : nat) (m : list Z) (fs : list (Z * list Z)) (m' : list Z) (i : Z).
  Hypothesis written : puts m fs = Some m'.
  Hypothesis inside : 0 ≤ i.
Lemma kind_field v : i = 0 → fs !! k = Some (put_u8 0 v) → Forall (apart 0 1) (drop (S k) fs) → message_kind m' = v.
Proof. intros _ Hk Hfs. rewrite kind_slice. change (bytes_at 0 1 m') with (bytes_at 0 (str_len [v]) m'). by rewrite (puts_field k m fs m' 0 [v]). Qed.
Lemma half_field v : u16_ok v → fs !! k = Some (put_u16 order i v) → Forall (apart i 2) (drop (S k) fs) → half_at i m' = v.
Proof.
  intros Hv Hk Hfs. unfold half_at. rewrite <-(str_len_u16 order v).
  rewrite (puts_field k m fs m' i (push_u16 order v)); [by apply ordered_u16|done..|by rewrite str_len_u16].
Qed.
Lemma word_field v : u32_ok v → fs !! k = Some (put_u32 order i v) → Forall (apart i 4) (drop (S k) fs) → word_at i m' = v.
Proof.
  intros Hv Hk Hfs. unfold word_at. rewrite <-(str_len_u32 order v).
  rewrite (puts_field k m fs m' i (push_u32 order v)); [by apply ordered_u32|done..|by rewrite str_len_u32].
Qed.
End fields.

(** What a client makes of the messages of the writers. *)
Inductive XNote : Type :=
| NoteInput (kind window : Z) | NoteFocusOut (window : Z) | NoteFocusIn (window : Z) | NoteModifiers
| NoteXi (event_type window : Z) | NoteSize (window width height : Z) | NoteExposed (window width height : Z)
| NoteMessage (window atom value : Z) | NoteOther.
Definition message_note (m : list Z) : XNote :=
  let kind := message_kind m in
  if decide (kind = 35) then NoteXi (half_at 8 m) (word_at 24 m)
  else if decide (kind = X_FOCUS_IN) then NoteFocusIn (word_at 4 m)
  else if decide (kind = X_FOCUS_OUT) then NoteFocusOut (word_at 4 m)
  else if decide (kind = X_KEYBOARD_FIRST_EVENT) then NoteModifiers
  else if decide (kind = X_CONFIGURE_NOTIFY) then NoteSize (word_at 8 m) (half_at 20 m) (half_at 22 m)
  else if decide (kind = X_EXPOSE) then NoteExposed (word_at 4 m) (half_at 12 m) (half_at 14 m)
  else if decide (kind = 161) then NoteMessage (word_at 4 m) (word_at 8 m) (word_at 12 m)
  else if decide (2 ≤ kind ≤ 6) then NoteInput kind (word_at 12 m)
  else NoteOther.
(** The message is written, is read as one, has the sequence number, and says this. *)
Definition says (q : Z) (note : XNote) (m : list Z) : Prop :=
  framed order m ∧ message_sequence order m = q ∧ message_note m = note.

Lemma short_framed m kind : message_kind m = kind → kind ≠ 1 → Z.land kind 127 ≠ 35 → str_len m = 32 → framed order m.
Proof. intros Hk H1 H35 Hm. unfold framed, message_length. rewrite Hk, decide_False by tauto. lia. Qed.
Lemma generic_framed m units : message_kind m = 35 → word_at 4 m = units → 0 ≤ units → str_len m = 32 + 4 * units → framed order m.
Proof.
  intros Hk Hw Hu Hm. unfold framed, message_length. rewrite Hk, decide_True by (by right).
  change (take 4 (drop 4 m)) with (bytes_at 4 4 m). unfold word_at in Hw. rewrite Hw. lia.
Qed.
(** Numbering a message again changes only its number. *)
Lemma renumbered q q' note m : says q note m → u16_ok q' → ∃ m', renumber order q' m = Some m' ∧ says q' note m'.
Proof.
  intros ((Hl & Hf) & _ & Hn) Hq. destruct (put_inside m 2 (push_u16 order q')) as (m' & E & Hl'); [lia|rewrite str_len_u16; lia|].
  exists m'. split; [exact E|]. 
  assert (∀ i n, 0 ≤ i → 0 ≤ n → i + n ≤ 2 ∨ 4 ≤ i → bytes_at i n m' = bytes_at i n m) as Hs.
  { intros i n Hi Hn' Hor. eapply (put_apart m (put_u16 order 2 q')); [done| |exact E]. split; simpl; [lia|]. rewrite str_len_u16. lia. }
  assert (message_kind m' = message_kind m) as Hk by (by rewrite !kind_slice, Hs by lia).
  assert (∀ i, 4 ≤ i → half_at i m' = half_at i m) as Hh by (intros i Hi; unfold half_at; by rewrite Hs by lia).
  assert (∀ i, 4 ≤ i → word_at i m' = word_at i m) as Hw by (intros i Hi; unfold word_at; by rewrite Hs by lia).
  split_and!.
  - unfold framed, message_length. rewrite Hk. change (take 4 (drop 4 m')) with (bytes_at 4 4 m'). rewrite Hs, Hl' by lia. done.
  - rewrite sequence_slice. apply (half_field 0 m [put_u16 order 2 q'] m' 2); [|lia|done|done|apply Forall_nil_2].
    change (put m (put_u16 order 2 q') = Some m') in E. simpl. by rewrite E.
  - rewrite <-Hn. unfold message_note. rewrite Hk, !Hh, !Hw by lia. done.
Qed.
End reading.
Ltac apart_tac :=
  cbn [drop app]; repeat (apply Forall_cons_2; [split; unfold put_u8, put_u16, put_i16, put_u32, put_resource, put_bool; simpl;
                                  autorewrite with messages; lia|]); apply Forall_nil_2.

Section said.
  Context (order : XByteOrder).
  Notation said q note r := (∃ m, r = Some m ∧ says order q note m).

Lemma raw_of_ok id : u32_ok (raw_of id).
Proof. unfold raw_of, u32_ok. case_decide; word_lia. Qed.
Lemma cast_word_ok z : u32_ok (as_unsigned 32 z).
Proof. unfold as_unsigned. pose proof (Z.mod_pos_bound z (2 ^ 32)). word_lia. Qed.
Lemma record_said n fs q note :
  0 ≤ n → Forall (λ f : Z * list Z, 0 ≤ f.1 ∧ f.1 + str_len f.2 ≤ n) fs →
  (∀ m, puts (zeros n) fs = Some m → str_len m = n → says order q note m) → said q note (record n fs).
Proof. intros Hn Hfs Hm. destruct (record_length n fs Hn Hfs) as (m & E & Hl). exists m. split; [done|]. by apply Hm. Qed.
(** The kind and the number of a message, which come first. *)
Lemma event_head n kind detail q fs m :
  puts (zeros n) (write_event_header order kind detail q ++ fs) = Some m → u16_ok q → Forall (λ f : Z * list Z, 4 ≤ f.1) fs →
  message_kind m = kind ∧ message_sequence order m = q.
Proof.
  intros E Hq Hfs. split.
  - apply (kind_field 0 _ _ _ 0 E); [done..|]. simpl. apply Forall_cons_2; [split; simpl; lia|]. apply Forall_cons_2; [split; simpl; [lia|]; lia|].
    eapply Forall_impl; [exact Hfs|]. intros f Hf. simpl in Hf. split; [lia|]. lia.
  - apply (half_field order 2 _ _ _ 2 E); [lia|done..|]. simpl. eapply Forall_impl; [exact Hfs|]. intros f Hf. simpl in Hf. split; lia.
Qed.
Lemma focus_said q focused window :
  u16_ok q → said q (if focused then NoteFocusIn (raw_of window) else NoteFocusOut (raw_of window))
    (encode_x_client_event order (EventFocus q focused 3 window 0)).
Proof.
  intros Hq. cbn [encode_x_client_event]. unfold X_CLIENT_OUTPUT_RECORD_LEN. apply record_said; [done|bounds_tac|]. intros m E Hl.
  destruct (event_head _ _ _ _ _ _ E Hq) as [Hk Hs]; [repeat constructor; done|].
  split_and!; [apply (short_framed order m _ Hk); [by destruct focused..|done]|done|].
  unfold message_note. rewrite Hk. rewrite (word_field order 3 _ _ _ 4 E) with (v := raw_of window); [|done|apply raw_of_ok|done|apart_tac].
  by destruct focused.
Qed.
(** An event of 32 bytes and what is read from it. *)
Lemma event_said n kind detail q fs note :
  n = 32 → u16_ok q → kind ≠ 1 → Z.land kind 127 ≠ 35 → Forall (λ f : Z * list Z, 4 ≤ f.1 ∧ f.1 + str_len f.2 ≤ 32) fs →
  (∀ m, puts (zeros 32) (write_event_header order kind detail q ++ fs) = Some m → message_kind m = kind → message_note order m = note) →
  said q note (record n (write_event_header order kind detail q ++ fs)).
Proof.
  intros -> Hq H1 H35 Hfs Hm. apply record_said; [done| |].
  - apply Forall_app. split; [bounds_tac|]. eapply Forall_impl; [exact Hfs|]. simpl. lia.
  - intros m E Hl. destruct (event_head _ _ _ _ _ _ E Hq) as [Hk Hs]; [eapply Forall_impl; [exact Hfs|]; simpl; lia|].
    split_and!; [by apply (short_framed order m _ Hk)|done|by apply Hm].
Qed.
Lemma configured_said q window x y width height :
  u16_ok q → u16_ok width → u16_ok height →
  said q (NoteSize (raw_of window) width height)
    (encode_x_client_event order (EventConfigureNotify q window window None x y width height 0 false)).
Proof.
  intros Hq Hw Hh. apply event_said; [done..|bounds_tac|]. intros m E Hk. unfold message_note. rewrite Hk. simpl.
  rewrite (word_field order 4 _ _ _ 8 E) with (v := raw_of window); [|done|apply raw_of_ok|done|apart_tac].
  rewrite (half_field order 8 _ _ _ 20 E) with (v := width); [|done|done|done|apart_tac].
  by rewrite (half_field order 9 _ _ _ 22 E) with (v := height); [|done|done|done|apart_tac].
Qed.
Lemma exposed_said q window width height :
  u16_ok q → u16_ok width → u16_ok height →
  said q (NoteExposed (raw_of window) width height) (encode_x_client_event order (EventExpose q window 0 0 width height 0)).
Proof.
  intros Hq Hw Hh. apply event_said; [done..|bounds_tac|]. intros m E Hk. unfold message_note. rewrite Hk. simpl.
  rewrite (word_field order 3 _ _ _ 4 E) with (v := raw_of window); [|done|apply raw_of_ok|done|apart_tac].
  rewrite (half_field order 6 _ _ _ 12 E) with (v := width); [|done|done|done|apart_tac].
  by rewrite (half_field order 7 _ _ _ 14 E) with (v := height); [|done|done|done|apart_tac].
Qed.
(** The types of the core events of input. *)
Definition core_kind (event : XAuthorityInputEvent) : Z :=
  match event with
  | InputKey key => if ke_pressed key then X_KEY_PRESS else X_KEY_RELEASE
  | InputPointer p =>
      match pv_kind p with
      | KindMotion => X_MOTION_NOTIFY
      | KindButton _ pressed => if pressed then X_BUTTON_PRESS else X_BUTTON_RELEASE
      end
  end.
Lemma core_said event window :
  said 0 (NoteInput (core_kind event) (raw_of window)) (encode_x_client_event order (core_event event window)).
Proof.
  destruct event as [[keycode pressed state time]|[[|button pressed] surface rx ry ex ey state time]]; simpl.
  - apply event_said; [done..|by destruct pressed|by destruct pressed|bounds_tac|]. intros m E Hk. unfold message_note. rewrite Hk.
    rewrite (word_field order 5 _ _ _ 12 E) with (v := raw_of window); [|done|apply raw_of_ok|done|apart_tac].
    by destruct pressed.
  - apply event_said; [done..|bounds_tac|]. intros m E Hk. unfold message_note. rewrite Hk.
    by rewrite (word_field order 5 _ _ _ 12 E) with (v := raw_of window); [|done|apply raw_of_ok|done|apart_tac].
  - apply event_said; [done..|by destruct pressed|by destruct pressed|bounds_tac|]. intros m E Hk. unfold message_note. rewrite Hk.
    rewrite (word_field order 5 _ _ _ 12 E) with (v := raw_of window); [|done|apply raw_of_ok|done|apart_tac].
    by destruct pressed.
Qed.
Lemma modifiers_said q time modifiers keycode event_type :
  u16_ok q → said q NoteModifiers (encode_x_client_event order (EventXkbStateNotify q time modifiers 1 keycode event_type)).
Proof. intros Hq. apply event_said; [done..|bounds_tac|]. intros m E Hk. unfold message_note. by rewrite Hk. Qed.
Lemma close_said q protocols delete window :
  u16_ok q → u32_ok protocols → u32_ok delete →
  said q (NoteMessage (as_unsigned 32 (xid_raw window)) protocols delete) (close_message order q protocols delete window).
Proof.
  intros Hq Hp Hd. unfold close_message.
  set (fs := [put_u8 0 161; put_u8 1 32; put_u32 order 4 (as_unsigned 32 (xid_raw window)); put_u32 order 8 protocols; put_u32 order 12 delete]).
  destruct (record_said 32 fs 0 (NoteMessage (as_unsigned 32 (xid_raw window)) protocols delete)) as (m & -> & Hm); [done|unfold fs; bounds_tac| |].
  - intros m E Hl. assert (message_kind m = 161) as Hk by (apply (kind_field 0 _ _ _ 0 E 161); [done..|apart_tac]).
    split_and!; [by apply (short_framed order m _ Hk)| |].
    + rewrite sequence_slice. unfold half_at. rewrite (puts_apart (zeros 32) fs m 2 2); [by destruct order|done|unfold fs; apart_tac|done].
    + unfold message_note. rewrite Hk. simpl.
      rewrite (word_field order 2 _ _ _ 4 E) with (v := as_unsigned 32 (xid_raw window)); [|done|apply cast_word_ok|done|apart_tac].
      rewrite (word_field order 3 _ _ _ 8 E) with (v := protocols); [|done|done|done|apart_tac].
      by rewrite (word_field order 4 _ _ _ 12 E) with (v := delete); [|done|done|done|apart_tac].
  - cbn [mbind option_bind encode_x_client_event puts]. destruct (renumbered order 0 q _ m Hm Hq) as (m' & E & Hm'). exists m'.
    unfold renumber in E. rewrite E. done.
Qed.
(** The events of the input extension, which share their first fields. *)
Lemma xi_said n units q event_type device time detail window_field m fs :
  let head := [put_u8 0 35; put_u8 1 X_INPUT_MAJOR_OPCODE; put_u16 order 2 q; put_u32 order 4 units; put_u16 order 8 event_type;
               put_u16 order 10 device; put_u32 order 12 time; detail] in
  puts (zeros n) (head ++ fs) = Some m → str_len m = n → n = 32 + 4 * units → u16_ok q → u16_ok event_type → u32_ok units →
  Forall (λ f : Z * list Z, 16 ≤ f.1) (detail :: fs) → word_at order 24 m = window_field →
  says order q (NoteXi event_type window_field) m.
Proof.
  intros head E Hl Hn Hq Ht Hu Hfs Hw.
  assert (∀ i n, 0 ≤ i → i + n ≤ 16 → Forall (apart i n) (detail :: fs)) as Hlate.
  { intros i k Hi Hk. eapply Forall_impl; [exact Hfs|]. intros f Hf. simpl in Hf. split; lia. }
  assert (message_kind m = 35) as Hk.
  { apply (kind_field 0 _ _ _ 0 E); [done..|]. simpl. do 6 (apply Forall_cons_2; [split; simpl; autorewrite with messages; lia|]). by apply Hlate. }
  split_and!.
  - apply (generic_framed order m units Hk); [|word_lia|lia]. apply (word_field order 3 _ _ _ 4 E); [lia|done..|].
    simpl. do 3 (apply Forall_cons_2; [split; simpl; autorewrite with messages; lia|]). by apply Hlate.
  - rewrite sequence_slice. apply (half_field order 2 _ _ _ 2 E); [lia|done..|].
    simpl. do 4 (apply Forall_cons_2; [split; simpl; autorewrite with messages; lia|]). by apply Hlate.
  - unfold message_note. rewrite Hk, Hw. simpl. f_equal. apply (half_field order 4 _ _ _ 8 E); [lia|done..|].
    simpl. do 2 (apply Forall_cons_2; [split; simpl; autorewrite with messages; lia|]). by apply Hlate.
Qed.
Ltac late_tac := repeat (apply Forall_cons_2; [simpl; lia|]); apply Forall_nil_2.
Lemma device_said q event_type event window :
  u16_ok q → u16_ok event_type → said q (NoteXi event_type (raw_of window)) (encode_xi_device_event order q event_type event window).
Proof.
  intros Hq Ht. unfold encode_xi_device_event. destruct (xi_fields event) as [[[[device time] detail] [[[rx ry] ex] ey]] state].
  apply record_said; [done|bounds_tac|]. intros m E Hl.
  match type of E with puts _ ?fs = _ => apply (xi_said 80 12 q event_type device time (put_u32 order 16 detail) _ m (drop 8 fs)) end;
    [exact E|done|done|done|done|done|late_tac|].
  apply (word_field order 9 _ _ _ 24 E); [lia|apply raw_of_ok|done|apart_tac].
Qed.
Lemma crossing_said q event_type event window :
  u16_ok q → u16_ok event_type → said q (NoteXi event_type (raw_of window)) (encode_xi_crossing_event order q event_type event window).
Proof.
  intros Hq Ht. unfold encode_xi_crossing_event. destruct (xi_fields event) as [[[[device time] detail] [[[rx ry] ex] ey]] state].
  apply record_said; [done|bounds_tac|]. intros m E Hl.
  match type of E with puts _ ?fs = _ => apply (xi_said 72 10 q event_type device time (put_u16 order 16 device) _ m (drop 8 fs)) end;
    [exact E|done|done|done|done|done|late_tac|].
  apply (word_field order 11 _ _ _ 24 E); [lia|apply raw_of_ok|done|apart_tac].
Qed.
End said.

(** ** Input *)

(** What the client is told about an event: that the keyboard or the pointer went to another window, if
    it asked the input extension for that; that the focus did; the event; a change of the modifiers; and
    the event of the input extension. *)
Definition crossing_notes (mask : Z) (window : XResourceId) (transition : option (option XResourceId * Z * Z)) : list XNote :=
  match transition with
  | None => []
  | Some (previous, out_type, in_type) =>
      (match previous with
       | Some previous => if bit_set mask (Z.shiftl 1 out_type) then [NoteXi out_type (raw_of previous)] else []
       | None => []
       end) ++
      (if bit_set mask (Z.shiftl 1 in_type) then [NoteXi in_type (raw_of window)] else [])
  end.
(** Where the client knows the focus: where the engine or itself put it, or where keys went last. *)
Definition focus_known (w : XClientWorker) (event : XAuthorityInputEvent) (window : XResourceId) : option XResourceId :=
  if decide (is_key event = true ∧ wk_focus w = xid_raw window) then Some window else wk_focus_sent w.
Definition modifiers_changed (w : XClientWorker) (event : XAuthorityInputEvent) : Prop :=
  match event with
  | InputKey key => Z.lxor (wk_modifiers w) (ke_state key) ≠ 0 ∧ Z.land (wk_xkb_details w) 1 ≠ 0
  | InputPointer _ => False
  end.
#[export] Instance modifiers_changed_dec w event : Decision (modifiers_changed w event).
Proof. destruct event; apply _. Defined.
Definition input_notes (w : XClientWorker) (item : XAuthorityClientInputEvent) (window : XResourceId) : list XNote :=
  let event := ci_event item in
  let known := focus_known w event window in
  crossing_notes (ci_xi_transition_mask item) window (xi_transition event known (wk_pointer_sent w) window) ++
  (if decide (is_key event = true ∧ known ≠ Some window) then [NoteFocusIn (raw_of window)] else []) ++
  [NoteInput (core_kind event) (raw_of window)] ++
  (if decide (modifiers_changed w event) then [NoteModifiers] else []) ++
  (match ci_xi_event_type item with Some event_type => [NoteXi event_type (raw_of window)] | None => [] end).
(** What the writer remembers of it. *)
Definition input_remembered (w : XClientWorker) (event : XAuthorityInputEvent) (window : XResourceId) : XClientWorker :=
  match event with
  | InputKey key => set_sent w (ke_state key) (Some window) (wk_pointer_sent w)
  | InputPointer _ => set_sent w (wk_modifiers w) (wk_focus_sent w) (Some window)
  end.

Section input.
  Context (order : XByteOrder) (q : Z).
  Hypothesis numbered : u16_ok q.
  Notation said note r := (∃ m, r = Some m ∧ says order q note m).
  Notation said_all notes r := (∃ ms, r = Some ms ∧ Forall2 (says order q) notes ms).
Lemma said_one note r : said note r → said_all [note] (m ← r; Some [m]).
Proof. intros (m & -> & Hm). exists [m]. split; [done|]. constructor; [done|constructor]. Qed.
Lemma said_none : said_all [] (Some []).
Proof. by exists []. Qed.
Lemma said_app notes notes' r r' :
  said_all notes r → said_all notes' r' → said_all (notes ++ notes') (ms ← r; ms' ← r'; Some (ms ++ ms')).
Proof. intros (ms & -> & H) (ms' & -> & H'). exists (ms ++ ms'). split; [done|]. by apply Forall2_app. Qed.
Lemma crossings_said mask event window previous pointer :
  said_all (crossing_notes mask window (xi_transition event previous pointer window))
    (crossing_records order q mask event window (xi_transition event previous pointer window)).
Proof.
  assert (∀ previous out_type in_type, u16_ok out_type → u16_ok in_type →
    said_all (crossing_notes mask window (Some (previous, out_type, in_type)))
      (crossing_records order q mask event window (Some (previous, out_type, in_type)))) as H.
  { intros p o i Ho Hi. unfold crossing_notes, crossing_records. apply said_app.
    - destruct p; [|apply said_none]. destruct (bit_set _ _); [by apply said_one, crossing_said|apply said_none].
    - destruct (bit_set _ _); [by apply said_one, crossing_said|apply said_none]. }
  unfold xi_transition. destruct (is_key event); case_decide; first [by apply H|apply said_none].
Qed.
Lemma focus_in_said event known window :
  said_all (if decide (is_key event = true ∧ known ≠ Some window) then [NoteFocusIn (raw_of window)] else [])
    (focus_in_records order q event known window).
Proof. unfold focus_in_records. case_decide; [|apply said_none]. by apply said_one, (focus_said order q true). Qed.
Lemma core_record_said event window : said_all [NoteInput (core_kind event) (raw_of window)] (core_record order q event window).
Proof.
  unfold core_record. destruct (core_said order event window) as (m & -> & Hm). cbn [mbind option_bind].
  apply said_one. by apply (renumbered order 0).
Qed.
Lemma xkb_said w event :
  said_all (if decide (modifiers_changed w event) then [NoteModifiers] else [])
    (xkb_records order q (wk_xkb_details w) (wk_modifiers w) event).
Proof.
  destruct event as [key|]; [|apply said_none]. unfold xkb_records.
  destruct (decide (modifiers_changed w (InputKey key))) as [H|H]; unfold modifiers_changed in H.
  - rewrite decide_True by done. by apply said_one, modifiers_said.
  - rewrite decide_False by done. apply said_none.
Qed.
Lemma xi_records_said xi_event_type event window :
  (∀ t, xi_event_type = Some t → u16_ok t) →
  said_all (match xi_event_type with Some t => [NoteXi t (raw_of window)] | None => [] end)
    (xi_records order q xi_event_type event window).
Proof. intros Ht. destruct xi_event_type as [t|]; [|apply said_none]. by apply said_one, device_said, Ht. Qed.
End input.

(** An event of the input extension has a type of 16 bits. *)
Definition item_ok (item : XAuthorityClientInputEvent) : Prop := ∀ t, ci_xi_event_type item = Some t → u16_ok t.
Lemma input_said w item window :
  u16_ok (wk_event_sequence w) → item_ok item →
  ∃ records, input_records w item window = Some (records, input_remembered w (ci_event item) window) ∧
    Forall2 (says (wk_order w) (wk_event_sequence w)) (input_notes w item window) records.
Proof.
  intros Hq Hi. unfold input_records, input_notes. cbv zeta. fold (focus_known w (ci_event item) window).
  destruct (crossings_said (wk_order w) (wk_event_sequence w) Hq (ci_xi_transition_mask item) (ci_event item) window
              (focus_known w (ci_event item) window) (wk_pointer_sent w)) as (crossing & -> & H1).
  destruct (focus_in_said (wk_order w) (wk_event_sequence w) Hq (ci_event item) (focus_known w (ci_event item) window) window) as (focus & -> & H2).
  destruct (core_record_said (wk_order w) (wk_event_sequence w) Hq (ci_event item) window) as (core & -> & H3).
  destruct (xkb_said (wk_order w) (wk_event_sequence w) Hq w (ci_event item)) as (xkb & -> & H4).
  destruct (xi_records_said (wk_order w) (wk_event_sequence w) Hq (ci_xi_event_type item) (ci_event item) window Hi) as (xi & -> & H5).
  cbn [mbind option_bind]. eexists. split.
  - f_equal. f_equal. unfold input_remembered, focus_known. destruct (ci_event item); [done|]. rewrite decide_False; [done|]. by intros [].
  - repeat apply Forall2_app; done.
Qed.

(** Whatever its type, an event is written. *)
Lemma input_written w item window :
  u16_ok (wk_event_sequence w) → ∃ records, input_records w item window = Some (records, input_remembered w (ci_event item) window).
Proof.
  intros Hq. destruct (input_said w (mk_client_input (ci_client item) (ci_event item) (ci_target_window item) None
    (ci_xi_transition_mask item) (ci_delivery item)) window Hq) as (records & E & _); [done|].
  assert (∃ ms, xi_records (wk_order w) (wk_event_sequence w) (ci_xi_event_type item) (ci_event item) window = Some ms) as [ms Hxi].
  { destruct (ci_xi_event_type item) as [t|]; [|by eexists]. simpl. unfold encode_xi_device_event.
    destruct (xi_fields (ci_event item)) as [[[[device time] detail] [[[rx ry] ex] ey]] state].
    match goal with |- context [record ?n ?fs] => destruct (record_length n fs) as (m & -> & _); [done|bounds_tac|by eexists] end. }
  revert E. unfold input_records. rewrite Hxi. simpl.
  repeat match goal with |- (?o ≫= _) = _ → _ => destruct o; simpl; [|done] end.
  intros E. apply (f_equal (from_option snd w)) in E. simpl in E. rewrite <-E. by eexists.
Qed.

(** The items of a queue, one after the other, up to one without a window, which ends the writer
    ([write_input]): what was written, and how it ended. *)
Definition lost_target : X11SetupSocketError := socket_error "X11 pointer target surface is unknown".
Fixpoint input_session (w : XClientWorker) (items : list XAuthorityClientInputEvent) :
    option (list (list Z) * XClientWorker * result unit X11SetupSocketError) :=
  match items with
  | [] => Some ([], w, Ok ())
  | item :: items =>
      match delivered_window w item with
      | None => Some ([], w, Err lost_target)
      | Some window =>
          first ← input_records w item window;
          rest ← input_session first.2 items;
          Some (first.1 ++ rest.1.1, rest.1.2, rest.2)
      end
  end.
Fixpoint delivered_items (w : XClientWorker) (items : list XAuthorityClientInputEvent) : list XAuthorityClientInputEvent :=
  match items with
  | [] => []
  | item :: items => if delivered_window w item is Some _ then item :: delivered_items w items else []
  end.
(** Everything was delivered, or the writer ended at an item that has no window. *)
Definition session_end (w : XClientWorker) (items : list XAuthorityClientInputEvent) (r : result unit X11SetupSocketError) : Prop :=
  match r with
  | Ok _ => delivered_items w items = items
  | Err e => e = lost_target ∧ ∃ item rest, items = delivered_items w items ++ item :: rest ∧ delivered_window w item = None
  end.
Definition item_window (w : XClientWorker) (item : XAuthorityClientInputEvent) : XResourceId :=
  default XRESOURCE_NONE (delivered_window w item).
Fixpoint session_notes (w : XClientWorker) (items : list XAuthorityClientInputEvent) : list XNote :=
  match items with
  | [] => []
  | item :: items =>
      input_notes w item (item_window w item) ++ session_notes (input_remembered w (ci_event item) (item_window w item)) items
  end.
(** Keys come to the window where the client was last told, or knows, that the focus is. *)
Definition told_after (told : option Z) (note : XNote) : option Z :=
  match note with NoteFocusIn window => Some window | NoteFocusOut _ => None | _ => told end.
Definition is_key_kind (kind : Z) : Prop := kind = X_KEY_PRESS ∨ kind = X_KEY_RELEASE.
Fixpoint keys_follow (focus : Z) (told : option Z) (notes : list XNote) : Prop :=
  match notes with
  | [] => True
  | note :: notes =>
      match note with NoteInput kind window => is_key_kind kind → window = focus ∨ told = Some window | _ => True end ∧
      keys_follow focus (told_after told note) notes
  end.
Definition note_input (note : XNote) : option (Z * Z) := match note with NoteInput kind window => Some (kind, window) | _ => None end.

Lemma remembered_window w event window item : delivered_window (input_remembered w event window) item = delivered_window w item.
Proof. by destruct event. Qed.
Lemma remembered_items w event window items : delivered_items (input_remembered w event window) items = delivered_items w items.
Proof. induction items as [|item items IH]; [done|]. simpl. by rewrite remembered_window, IH. Qed.
Lemma session_said w items :
  u16_ok (wk_event_sequence w) → Forall item_ok items →
  ∃ records w' r, input_session w items = Some (records, w', r) ∧ session_end w items r ∧
    Forall2 (says (wk_order w) (wk_event_sequence w)) (session_notes w (delivered_items w items)) records.
Proof.
  intros Hq Hitems. revert w Hq Hitems. induction items as [|item items IH]; intros w Hq Hitems; [by exists [], w, (Ok ())|].
  apply Forall_cons in Hitems as [Hi Hitems]. simpl. destruct (delivered_window w item) as [window|] eqn:Hw.
  2: { exists [], w, (Err lost_target). split; [done|]. split; [|done]. split; [done|]. exists item, items. simpl. by rewrite Hw. }
  destruct (input_said w item window Hq Hi) as (first & -> & Hfirst). cbn [mbind option_bind fst snd].
  destruct (IH (input_remembered w (ci_event item) window)) as (records & w' & r & -> & Hend & Hrest); [by destruct (ci_event item)|done|].
  eexists _, _, r. split; [done|]. split.
  - unfold session_end in *. rewrite remembered_items in Hend. simpl. rewrite Hw. destruct r as [u|e]; [by rewrite Hend|].
    destruct Hend as (-> & i & rest & E & Hi'). split; [done|]. exists i, rest. rewrite remembered_window in Hi'. simpl. split; [by f_equal|done].
  - simpl. unfold item_window. rewrite Hw. simpl. rewrite remembered_items in Hrest.
    apply Forall2_app; [done|]. by destruct (ci_event item).
Qed.
Lemma keys_follow_app focus told l k :
  keys_follow focus told (l ++ k) ↔ keys_follow focus told l ∧ keys_follow focus (foldl told_after told l) k.
Proof. revert told. induction l as [|note l IH]; intros told; simpl; [tauto|]. rewrite IH. tauto. Qed.
(** Notes that tell nothing of the focus and bring no input. *)
Definition aside (note : XNote) : Prop := told_after None note = None ∧ told_after (Some 0) note = Some 0 ∧ note_input note = None.
Lemma asides focus told l : Forall aside l → keys_follow focus told l ∧ foldl told_after told l = told ∧ omap note_input l = [].
Proof.
  intros Hl. revert told. induction Hl as [|note l (H1 & H2 & H3) _ IH]; intros told; [done|]. simpl. rewrite H3.
  destruct note; try done; by destruct (IH told) as (? & ? & ?).
Qed.
Lemma crossing_aside mask window transition : Forall aside (crossing_notes mask window transition).
Proof.
  destruct transition as [[[previous o] i]|]; [|by apply Forall_nil_2]. apply Forall_app_2.
  - destruct previous; [|by apply Forall_nil_2]. destruct (bit_set _ _); by repeat constructor.
  - destruct (bit_set _ _); by repeat constructor.
Qed.
Lemma rest_aside w event xi_event_type window :
  Forall aside ((if decide (modifiers_changed w event) then [NoteModifiers] else []) ++
                (match xi_event_type with Some event_type => [NoteXi event_type (raw_of window)] | None => [] end)).
Proof. apply Forall_app_2; [by case_decide; repeat constructor|]. destruct xi_event_type; by repeat constructor. Qed.
Definition focus_of (w : XClientWorker) : Z := raw_of (x_resource_id (wk_focus w) 1).
(** The writer remembers what it told, or what the client knew. *)
Definition remembers (w : XClientWorker) (told : option Z) : Prop :=
  ∀ window, wk_focus_sent w = Some window → told = Some (raw_of window) ∨ raw_of window = focus_of w.
Definition focus_notes (w : XClientWorker) (event : XAuthorityInputEvent) (window : XResourceId) : list XNote :=
  if decide (is_key event = true ∧ focus_known w event window ≠ Some window) then [NoteFocusIn (raw_of window)] else [].
Lemma focus_follows w event window told :
  remembers w told →
  keys_follow (focus_of w) told (focus_notes w event window) ∧ omap note_input (focus_notes w event window) = [] ∧
  let told' := foldl told_after told (focus_notes w event window) in
  if is_key event then told' = Some (raw_of window) ∨ raw_of window = focus_of w else told' = told.
Proof.
  intros Hr. unfold focus_notes. destruct (is_key event) eqn:Hk; [|by rewrite decide_False by (by intros [])].
  destruct (decide (focus_known w event window = Some window)) as [E|E].
  - rewrite decide_False by tauto. split_and!; [done..|]. simpl. unfold focus_known in E. rewrite Hk in E.
    case_decide as Hf; [|by apply Hr]. right. unfold focus_of, raw_of. simpl. by destruct Hf as [_ ->].
  - rewrite decide_True by done. split_and!; [done..|]. by left.
Qed.
Lemma note_follows w item window told :
  remembers w told →
  keys_follow (focus_of w) told (input_notes w item window) ∧
  remembers (input_remembered w (ci_event item) window) (foldl told_after told (input_notes w item window)) ∧
  omap note_input (input_notes w item window) = [(core_kind (ci_event item), raw_of window)].
Proof.
  intros Hr. unfold input_notes. cbv zeta. fold (focus_notes w (ci_event item) window).
  rewrite !keys_follow_app, !foldl_app, !omap_app.
  pose proof (crossing_aside (ci_xi_transition_mask item) window
    (xi_transition (ci_event item) (focus_known w (ci_event item) window) (wk_pointer_sent w) window)) as Hc.
  destruct (asides (focus_of w) told _ Hc) as (H1 & H2 & H3). rewrite H2, H3. clear Hc H2 H3.
  destruct (focus_follows w (ci_event item) window told Hr) as (F1 & -> & F2). cbv zeta in F2.
  set (told' := foldl told_after told (focus_notes w (ci_event item) window)) in *.
  change (foldl told_after told' [NoteInput (core_kind (ci_event item)) (raw_of window)]) with told'.
  pose proof (rest_aside w (ci_event item) (ci_xi_event_type item) window) as [Hm Hx]%Forall_app.
  destruct (asides (focus_of w) told' _ Hm) as (M1 & -> & ->). destruct (asides (focus_of w) told' _ Hx) as (X1 & -> & ->).
  split_and!; [exact H1|exact F1| |exact M1|exact X1| |].
  - simpl. split; [|done]. destruct (ci_event item) as [key|p]; [destruct F2; auto|].
    intros Hk. simpl in Hk. destruct (pv_kind p) as [|button []]; by destruct Hk.
  - intros v. destruct (ci_event item); simpl in *.
    + intros [= <-]. exact F2.
    + rewrite F2. apply Hr.
  - done.
Qed.
Lemma session_follows w items told :
  remembers w told →
  keys_follow (focus_of w) told (session_notes w items) ∧
  omap note_input (session_notes w items) = (λ item, (core_kind (ci_event item), raw_of (item_window w item))) <$> items.
Proof.
  revert w told. induction items as [|item items IH]; intros w told Hr; [done|]. simpl. rewrite keys_follow_app, omap_app.
  destruct (note_follows w item (item_window w item) told Hr) as (H1 & H2 & ->).
  destruct (IH _ _ H2) as (H3 & ->). split; [split; [done|by destruct (ci_event item)]|]. simpl. f_equal.
  apply list_fmap_ext. intros i x _. unfold item_window. by rewrite remembered_window.
Qed.
Lemma said_read order q notes records :
  Forall2 (says order q) notes records →
  read_messages order (stream_of records) = Some records ∧ Forall (λ m, message_sequence order m = q) records ∧
  message_note order <$> records = notes.
Proof.
  intros H. split; [|split].
  - apply read_messages_framed; [|done]. induction H as [|? ? ? ? Hm]; constructor; [apply Hm|done].
  - induction H as [|? ? ? ? Hm]; constructor; [apply Hm|done].
  - induction H as [|? ? ? ? (_ & _ & Hm)]; [done|]. rewrite fmap_cons. by f_equal.
Qed.


(** A key for the first window, a motion over the second, and another key, which the client did not
    expect there. *)
Definition example_client : XClientWorker :=
  set_worker_surfaces (set_event_sequence (worker_new BigEndian (from_raw 1) (range_of 1)) 9)
    {[surface_id 7 1 := x_resource_id 2097153 1; surface_id 8 1 := x_resource_id 2097154 1]}.
Definition example_key (target : Z) (pressed : bool) : XAuthorityClientInputEvent :=
  mk_client_input 1 (InputKey (mk_key_event 38 pressed 0 5)) (Some (x_resource_id target 1)) None 0 None.
Definition example_motion_item : XAuthorityClientInputEvent :=
  mk_client_input 1 (InputPointer (mk_pointer_event KindMotion (surface_id 8 1) 3 4 3 4 0 6)) None (Some 6) 128 None.
Definition example_items : list XAuthorityClientInputEvent :=
  [example_key 2097153 true; example_motion_item; example_key 2097153 false].
(** A motion over a surface of somebody else. *)
Definition example_lost : XAuthorityClientInputEvent :=
  mk_client_input 1 (InputPointer (mk_pointer_event KindMotion (surface_id 9 1) 3 4 3 4 0 6)) None (Some 6) 128 None.
Definition notes_of (order : XByteOrder) (written : option (list (list Z) * XClientWorker * result unit X11SetupSocketError)) :
    option (list XNote * result unit X11SetupSocketError) :=
  match written with Some (records, _, r) => Some (message_note order <$> records, r) | None => None end.
(** When the focus comes back from another window to where the engine put it, the client is not told. *)
Lemma focus_returns_untold :
  let w := set_observed example_client 2097153 (wk_selections example_client) 0 in
  notes_of BigEndian (input_session w [example_key 2097153 true; example_key 2097154 true; example_key 2097153 true]) =
    Some ([NoteInput 2 2097153; NoteFocusIn 2097154; NoteInput 2 2097154; NoteInput 2 2097153], Ok ()).
Proof. by vm_compute. Qed.
