(* ===== verification/XCommands.v ===== *)
(** * What becomes of the commands of the engine
    ([spawn_x11_control_writer] of [sophia-x-authority/src/x11_socket.rs], and a step of each writer)

    A command is done and its client told, or refused and nothing changed, and it is acknowledged
    once, with what became of it.  No step of a writer panics or leaves its client's namespace. *)

From S2P Require Import Prelude Ids Geometry Packets PortalPackets Text.
From S2P Require Import XAtoms XTables XProperties XSelections XInputGrabs XSoftware XState XRuntime XResources XRelease XDraws XOps XSystem.
From S2P Require Import XProtocol XKeyboard XWire XDecode XDispatch XServing XAnswers XSetup XClients XEncode XMessages XFocus.
From S2P Require Import XRouting XRoutes XFrontend XWriters XService XWriting.
From stdpp Require Import strings.
Local Open Scope Z_scope.

(** ** What the engine's operations do to a window *)

Lemma configured_size ns window size r g r' :
  configure_window_size_from_engine ns window size r = (Ok g, r') →
  rwidth g = sz_width size ∧ rheight g = sz_height size ∧ window_geometry r' ns window = Ok g.
Proof.
  unfold configure_window_size_from_engine, x_guard. case_decide; [|done]. rewrite x_bind_eq. unfold mret at 1, x_ret at 1. rewrite x_get_eq, x_bind_eq.
  unfold x_lift at 1. destruct (window_geometry r ns window) as [current|] eqn:Hg; [|done]. rewrite x_bind_eq. unfold x_lift at 1.
  destruct (rt_windows r !! window) as [record|] eqn:Hw; [|done]. simpl ok_or. cbv iota.
  unfold configure_window_geometry. rewrite !x_bind_eq, lookup_resource_eq.
  unfold window_geometry in Hg. destruct (resource_lookup _ _ _ _) as [res|] eqn:Hl; [|done]. rewrite Hw in Hg. simpl in Hg. injection Hg as <-.
  simpl map_err. cbv iota. rewrite x_bind_eq, apply_window_event_eq. simpl. unfold change_window. rewrite Hw. simpl.
  intros [= <- <-]. split_and!; [done..|]. unfold window_geometry. simpl. rewrite Hl. simpl. by rewrite lookup_insert_eq.
Qed.
Lemma configure_refused ns window size r e r' : configure_window_size_from_engine ns window size r = (Err e, r') → r' = r.
Proof.
  unfold configure_window_size_from_engine, x_guard. case_decide; [|by intros [= _ <-]]. rewrite x_bind_eq. unfold mret at 1, x_ret at 1.
  rewrite x_get_eq, x_bind_eq. unfold x_lift at 1. destruct (window_geometry r ns window) as [current|] eqn:Hg; [|by intros [= _ <-]].
  rewrite x_bind_eq. unfold x_lift at 1. destruct (rt_windows r !! window) as [record|] eqn:Hw; [|by intros [= _ <-]]. simpl ok_or. cbv iota.
  unfold configure_window_geometry. rewrite !x_bind_eq, lookup_resource_eq.
  destruct (resource_lookup _ _ _ _) as [res|]; [|by intros [= _ <-]]. simpl map_err. cbv iota.
  rewrite x_bind_eq, apply_window_event_eq. simpl. unfold change_window. rewrite Hw. done.
Qed.
Lemma focused ns window r a r' :
  set_focus ns window 1 r = (a, r') → match a with Ok _ => input_focus r' ns = (window, 1) | Err _ => r' = r end.
Proof.
  unfold set_focus, x_guard. rewrite decide_True by done. rewrite x_bind_eq. unfold mret at 1, x_ret at 1. rewrite x_get_eq, x_bind_eq.
  assert (∀ a0, (Ok a0, set_input_focus r (<[ns:=(window, 1)]> (rt_input_focus r))) = (a, r') →
    match a with Ok _ => input_focus r' ns = (window, 1) | Err _ => r' = r end) as Hdone.
  { intros a0 [= <- <-]. unfold input_focus. simpl. by rewrite lookup_insert_eq. }
  case_decide; [|by apply Hdone]. unfold x_lift. destruct (validate_window_access r ns window); [by apply Hdone|by intros [= <- <-]].
Qed.

#[export] Instance runs_configure_size ns window size :
  RunsAs (configure_window_size_from_engine ns window size) [OpConfigureSize ns window size] := λ r, eq_refl.

Lemma own_op_confined ns mine op : op_valid op → op_namespace op = Some ns → op_created op = [] → Forall (op_confined ns mine) [op].
Proof. intros Hv Hn Hc. apply Forall_singleton. split; [done|]. split; [by left|]. rewrite Hc. apply Forall_nil_2. Qed.

(** ** A step of a writer, and what it leaves *)

Section steps.
  Context {KS : Type} (client : Z) (ns : NamespaceId).
  Notation Frontend := (XFrontend KS).
  Notation within := (within client ns).
Definition ends {A} (fe : Frontend) (m : F A) (Post : result A X11SetupSocketError → Frontend → Prop) : Prop :=
  ∃ r fe', m fe = Some (r, fe') ∧ frontend_ok fe' ∧ within fe fe' ∧ Post r fe'.
Lemma ends_ret {A} fe (a : A) (Post : result A _ → Frontend → Prop) : frontend_ok fe → Post (Ok a) fe → ends fe (mret a) Post.
Proof. intros Hfe HP. exists (Ok a), fe. split_and!; [done..|reflexivity|done]. Qed.
Lemma ends_fail {A} fe e (Post : result A _ → Frontend → Prop) : frontend_ok fe → Post (Err e) fe → ends fe (f_fail e) Post.
Proof. intros Hfe HP. exists (Err e), fe. split_and!; [done..|reflexivity|done]. Qed.
Lemma ends_bind {A B} fe (m : F A) (k : A → F B) Post1 Post2 :
  ends fe m Post1 → (∀ a fe1, frontend_ok fe1 → Post1 (Ok a) fe1 → ends fe1 (k a) Post2) →
  (∀ e fe1, Post1 (Err e) fe1 → Post2 (Err e) fe1) → ends fe (m ≫= k) Post2.
Proof.
  intros (r & fe1 & E & Hfe1 & W1 & P1) Hk He. unfold ends, mbind, f_bind. rewrite E. destruct r as [a|e].
  - destruct (Hk a fe1 Hfe1 P1) as (r & fe2 & E2 & Hfe2 & W2 & P2). exists r, fe2. split_and!; [done..|by etrans|done].
  - exists (Err e), fe1. split_and!; auto.
Qed.
Lemma ends_get {B} fe (k : Frontend → F B) Post : ends fe (k fe) Post → ends fe (f_get ≫= k) Post.
Proof. done. Qed.
Lemma ends_expect {A B} fe (o : option A) a (k : A → F B) Post : o = Some a → ends fe (k a) Post → ends fe (f_expect o ≫= k) Post.
Proof. by intros ->. Qed.
(** An operation of the runtime that clients could have asked for. *)
Lemma ends_run {A} fe (m : Rt A) ops (Post : result (result A _) _ → Frontend → Prop) :
  RunsAs m ops → Forall (op_confined ns (λ id, owns_new_resource (range_of client) (xid_raw id))) ops → frontend_ok fe →
  (∀ a r, m (sv_runtime (fe_server fe)) = (a, r) → Post (Ok a) (set_server fe (set_sv_runtime (fe_server fe) r))) →
  ends fe (f_dispatch (d_run m)) Post.
Proof.
  intros Hm Hops Hfe HP. destruct (fs_dispatch (KS := KS) client ns (d_run m) (λ _, True)) with (fe := fe) as (r & fe' & E & _ & Hfe' & Hw);
    [by eapply serves_run|done|].
  exists r, fe'. split_and!; [done..|]. unfold f_dispatch, d_run in E. destruct (m (sv_runtime (fe_server fe))) as [a r0] eqn:Em.
  injection E as <- <-. by apply HP.
Qed.
(** Taking an item leaves the rest, and nothing else changes. *)
Lemma ends_take {A} fe (queue : XServerFrontendClientRoute → Channel A) update (Post : result (option A) _ → Frontend → Prop) :
  (∀ c item items, queue c = mk_channel (item :: items) true → protocol_kept routable c (update (mk_channel items true) c)) →
  frontend_ok fe →
  ((∀ c item items, rg_clients (fe_registry fe) !! client = Some c → queue c ≠ mk_channel (item :: items) true) → Post (Ok None) fe) →
  (∀ c item items fe1, rg_clients (fe_registry fe) !! client = Some c → queue c = mk_channel (item :: items) true →
    fe_server fe1 = fe_server fe → fe_workers fe1 = fe_workers fe →
    rg_clients (fe_registry fe1) = <[client := update (mk_channel items true) c]> (rg_clients (fe_registry fe)) → Post (Ok (Some item)) fe1) →
  ends fe (f_take client queue update) Post.
Proof.
  intros Hup Hfe Hnone Hsome.
  assert ((∀ c item items, rg_clients (fe_registry fe) !! client = Some c → queue c ≠ mk_channel (item :: items) true) →
    ends fe (mret None) Post) as Hret by (intros H; apply ends_ret; auto). unfold f_take. apply ends_get.
  destruct (rg_clients (fe_registry fe) !! client) as [c|] eqn:Hc; [|by apply Hret].
  destruct (queue c) as [items open] eqn:Hq. simpl.
  destruct open; [|by apply Hret; intros c' item' items' [= <-] Hq'; rewrite Hq in Hq'].
  destruct items as [|item items]; [by apply Hret; intros c' item' items' [= <-] Hq'; rewrite Hq in Hq'|].
  assert (settled (rg_input (fe_registry fe)) (fe_registry fe)) as Hs by (split; [done|apply (fo_routes _ Hfe)]).
  pose proof (qk_send _ _ (settled_kept (rg_input (fe_registry fe))) _ client c _ Hs Hc (Hup c item items Hq)) as [_ Hr].
  set (r := set_clients _ _) in *.
  assert (fe_server (set_fe_registry fe r) = fe_server fe) as Hsv by
    (change (set_sv_input (fe_server fe) (rg_input (fe_registry fe)) = fe_server fe); by rewrite (fo_input _ Hfe), set_input_same).
  exists (Ok (Some item)), (set_fe_registry fe r). split; [reflexivity|].
  split_and!.
  - destruct Hfe as [Hs0 Hi0 Hl _ Hw]. apply mk_frontend_ok; [by rewrite Hsv|by rewrite Hsv|done|done|].
    intros c' w' Hcw. by destruct (Hw c' w' Hcw).
  - apply mk_within; [by rewrite Hsv|done|done].
  - by eapply Hsome.
Qed.
Lemma ends_route {A} fe (m : R A) e (Post : result A _ → Frontend → Prop) :
  (∀ i, keeps (settled i) m) → frontend_ok fe →
  (∀ r fe1, fe_workers fe1 = fe_workers fe → match r with Ok _ => True | Err e' => e' = e end → Post r fe1) →
  ends fe (f_route m e) Post.
Proof.
  intros Hm Hfe HP. destruct (fs_route client ns m e Hm fe Hfe) as (r & fe1 & E & _ & Hfe1 & W). exists r, fe1. split_and!; [done..|].
  apply HP; [apply W|]. unfold f_route in E. destruct (m _) as [[a|e0] r1]; by injection E as <- _.
Qed.
End steps.

Section writers.
  Context {KS : Type} (capacity : Z) (acknowledge : XAuthorityClientControlAck → bool) (client : Z) (w : XClientWorker).
  Notation Frontend := (XFrontend KS).
  Notation order := (wk_order w).
  Notation q := (wk_event_sequence w).
  Notation ends := (ends client (wk_namespace w)).
  Hypothesis numbered : u16_ok q.

(** What a writer keeps of the worker it shares. *)
Definition same_connection (w' : XClientWorker) : Prop :=
  wk_order w' = order ∧ wk_namespace w' = wk_namespace w ∧ wk_range w' = wk_range w ∧ wk_sequence w' = wk_sequence w ∧
  wk_event_sequence w' = q ∧ wk_fds w' = wk_fds w.

(** ** Events of other clients and of the outputs *)

Lemma routable_told event :
  routable event → ∃ event' m, set_protocol_event_sequence event q = Some event' ∧ encode_x_client_event order event' = Some m ∧
    framed order m ∧ message_sequence order m = q.
Proof.
  intros [e He]. destruct event; try done; simpl; (eexists; match goal with |- ∃ m, Some ?e = _ ∧ _ => 
    destruct (event_written order e) as (m & E & Hf & Hs & _); [by split|exists m; by split_and!] end).
Qed.
Lemma protocol_ends (fe : Frontend) :
  frontend_ok fe → ends fe (write_protocol client w)
    (λ r fe', fe_workers fe' = fe_workers fe ∧ ∃ bytes, r = Ok bytes ∧ (bytes = [] ∨ framed order bytes ∧ message_sequence order bytes = q)).
Proof.
  intros Hfe. eapply (ends_bind client (wk_namespace w) fe _ _
    (λ r fe1, fe_workers fe1 = fe_workers fe ∧ ∃ o, r = Ok o ∧ ∀ e, o = Some e → routable e)).
  - apply ends_take; [|done|by split; [|eexists]|].
    + intros c item items Hq e. simpl. rewrite Hq. left. by right.
    + intros c item items fe1 Hc Hq _ Hw _. split; [done|]. eexists. split; [done|]. intros e [= <-].
      pose proof (fo_routes _ Hfe _ _ Hc) as Hr. rewrite Hq in Hr. by inversion Hr.
  - intros o fe1 Hfe1 (Hw & ? & [= <-] & Ho). destruct o as [e|]; [|apply ends_ret; [done|]; split; [done|]; eexists; split; [done|by left]].
    destruct (routable_told e (Ho e eq_refl)) as (e' & m & E1 & E2 & Hm). eapply ends_expect; [exact E1|].
    rewrite E2. apply ends_ret; [done|]. split; [done|]. eexists. split; [done|by right].
  - intros e fe1 (_ & ? & [=] & _).
Qed.
(** ** Input *)

Lemma input_ends (fe : Frontend) :
  frontend_ok fe → ends fe (write_input capacity client w)
    (λ r fe', fe_workers fe' = fe_workers fe ∧
      ∀ records w', r = Ok (records, w') → same_connection w' ∧ (records = [] ∧ w' = w ∨
        ∃ item window, delivered_window w item = Some window ∧ input_records w item window = Some (records, w'))).
Proof.
  intros Hfe. eapply (ends_bind client (wk_namespace w) fe _ _ (λ r fe1, fe_workers fe1 = fe_workers fe ∧ ∃ o, r = Ok o)).
  - apply ends_take; [|done|by split; [|eexists]|by intros; split; [|eexists]]. intros c item items Hq e He. by left.
  - intros o fe1 Hfe1 (Hw & ? & [= <-]). destruct o as [item|]; [|apply ends_ret; [done|]; split; [done|intros ?? [= <- <-]; split; [done|by left]]].
    case_decide; [|apply ends_ret; [done|]; split; [done|intros ?? [= <- <-]; split; [done|by left]]].
    destruct (delivered_window w item) as [window|] eqn:Hwin; [|by apply ends_fail].
    destruct (input_written w item window numbered) as [records E]. eapply ends_expect; [exact E|].
    eapply (ends_bind client (wk_namespace w) fe1 _ _ (λ r fe2, fe_workers fe2 = fe_workers fe1)).
    + apply ends_route; [|done|done]. intros i. apply (send_delivery_kept capacity _ _ (settled_kept i)).
    + intros _ fe2 Hfe2 Hw2. apply ends_ret; [done|]. split; [congruence|]. intros ?? [= <- <-].
      split; [by destruct (ci_event item)|]. right. by exists item, window.
    + intros e fe2 Hw2. split; [congruence|]. done.
  - intros e fe1 (_ & ? & [=]).
Qed.
(** ** Commands *)

(** What a client is told that is asked to close a window, if any window of it can be asked. *)
Definition close_notes (s : XServer) (window : XResourceId) : list XNote :=
  match atom_of (sv_atoms s) (str "WM_PROTOCOLS"), atom_of (sv_atoms s) (str "WM_DELETE_WINDOW") with
  | Some protocols, Some delete =>
      let decision := close_target w (sv_properties s) protocols delete window in
      if decide (ct_protocol_window_count decision = 0%nat) then []
      else [NoteMessage (as_unsigned 32 (xid_raw (ct_window decision))) protocols delete]
  | _, _ => []
  end.
Definition command_notes (s : XServer) (command : XAuthorityControlCommand) (window : XResourceId) : list XNote :=
  match command with
  | ConfigureSurface _ _ size =>
      [NoteSize (raw_of window) (sz_width size) (sz_height size); NoteExposed (raw_of window) (sz_width size) (sz_height size)]
  | CloseSurface _ _ => close_notes s window
  | FocusSurface _ _ =>
      let previous := x_resource_id (wk_focus w) 1 in
      (if decide (previous ≠ window ∧ wk_focus w ≠ X_SETUP_DEFAULT_ROOT) then [NoteFocusOut (raw_of previous)] else []) ++
      [NoteFocusIn (raw_of window)]
  end.
(** The records are read as these messages, with the number of the client's last request. *)
Definition reads (notes : list XNote) (records : list (list Z)) : Prop :=
  read_messages order (stream_of records) = Some records ∧ Forall (λ m, message_sequence order m = q) records ∧
  message_note order <$> records = notes.
(** The command took effect: the window has the size or the focus. *)
Definition command_took (s s' : XServer) (command : XAuthorityControlCommand) (window : XResourceId) : Prop :=
  match command with
  | ConfigureSurface _ _ size =>
      ∃ g, window_geometry (sv_runtime s') (wk_namespace w) window = Ok g ∧ rwidth g = sz_width size ∧ rheight g = sz_height size
  | CloseSurface _ _ => s' = s
  | FocusSurface _ _ => input_focus (sv_runtime s') (wk_namespace w) = (window, 1)
  end.
(** A client that cannot be asked to close is cut off; one that already has the focus is told nothing. *)
Definition command_written (s : XServer) (command : XAuthorityControlCommand) (window : XResourceId) (write : XControlWrite) : Prop :=
  match write with
  | CtlRecords records => reads (command_notes s command window) records ∧ records ≠ []
  | CtlTerminated => (∃ transaction surface, command = CloseSurface transaction surface) ∧ close_notes s window = []
  | CtlAnswered => (∃ transaction surface, command = FocusSurface transaction surface) ∧ wk_focus w = xid_raw window
  end.
Definition size_invalid (command : XAuthorityControlCommand) : Prop :=
  match command with
  | ConfigureSurface _ _ size => sz_width size ≤ 0 ∨ sz_height size ≤ 0 ∨ u16_MAX < sz_width size ∨ u16_MAX < sz_height size
  | _ => False
  end.
(** What became of a command, by the outcome of its acknowledgement. *)
Definition command_became (s s' : XServer) (command : XAuthorityControlCommand) (write : XControlWrite)
    (outcome : XAuthorityControlOutcome) : Prop :=
  match wk_surfaces w !! control_surface command, outcome with
  | None, ControlUnknownSurface => write = CtlAnswered ∧ s' = s
  | Some _, ControlInvalidSize => size_invalid command ∧ write = CtlAnswered ∧ s' = s
  | Some _, ControlAuthorityRejected => ¬ size_invalid command ∧ write = CtlAnswered ∧ s' = s
  | Some window, ControlDelivered =>
      ¬ size_invalid command ∧ command_took s s' command window ∧ command_written s command window write
  | _, _ => False
  end.
Definition ack_of (command : XAuthorityControlCommand) (outcome : XAuthorityControlOutcome) : XAuthorityClientControlAck :=
  mk_control_ack client (control_transaction command) (control_surface command) outcome.
(** The command was acknowledged as done or refused, or the queue of the acknowledgements is full. *)
Definition command_ended (s : XServer) (command : XAuthorityControlCommand)
    (r : result (XControlWrite * XAuthorityClientControlAck * XClientWorker) X11SetupSocketError) (fe' : Frontend) : Prop :=
  match r with
  | Ok (write, ack, w') => same_connection w' ∧ ∃ outcome, ack = ack_of command outcome ∧ acknowledge ack = true ∧
      command_became s (fe_server fe') command write outcome
  | Err _ => ∃ outcome, acknowledge (ack_of command outcome) = false
  end.
Lemma ack_ends (fe : Frontend) command outcome :
  frontend_ok fe → ends fe (send_ack acknowledge client command outcome)
    (λ r fe1, fe1 = fe ∧ match r with
                         | Ok ack => ack = ack_of command outcome ∧ acknowledge ack = true
                         | Err _ => acknowledge (ack_of command outcome) = false
                         end).
Proof.
  intros Hfe. unfold send_ack, f_guard. cbv zeta. fold (ack_of command outcome). case_decide as Ha.
  - apply ends_ret; [done|]. by split_and!.
  - apply ends_fail; [done|]. split; [done|]. by apply not_true_is_false.
Qed.
(** An acknowledged command has ended. *)
Lemma acked (fe : Frontend) s command outcome write w' :
  frontend_ok fe → same_connection w' → command_became s (fe_server fe) command write outcome →
  ends fe (ack ← send_ack acknowledge client command outcome; mret (write, ack, w')) (command_ended s command).
Proof.
  intros Hfe Hsame Hb. eapply ends_bind; [by apply ack_ends| |].
  - intros ack fe1 Hfe1 (-> & -> & Ha). apply ends_ret; [done|]. split; [done|]. by exists outcome.
  - intros e fe1 (-> & Ha). by exists outcome.
Qed.
Lemma written_acked (fe : Frontend) s command window notes records w' :
  frontend_ok fe → same_connection w' → wk_surfaces w !! control_surface command = Some window → ¬ size_invalid command →
  command_took s (fe_server fe) command window → command_notes s command window = notes → notes ≠ [] →
  Forall2 (says order q) notes records →
  ends fe (records ← f_expect (mapM (renumber order q) records);
           ack ← send_ack acknowledge client command ControlDelivered; mret (CtlRecords records, ack, w')) (command_ended s command).
Proof.
  intros Hfe Hsame Hw Hs Ht <- Hne Hsays.
  assert (∃ rs, mapM (renumber order q) records = Some rs ∧ Forall2 (says order q) (command_notes s command window) rs) as (rs & E & Hrs).
  { clear -Hsays numbered. induction Hsays as [|note m notes ms Hm _ (rs & E & Hrs)]; [by exists []|].
    destruct (renumbered order q q note m Hm numbered) as (m' & E' & Hm'). exists (m' :: rs). simpl. rewrite E'. simpl. rewrite E. split; [done|].
    by constructor. }
  eapply ends_expect; [exact E|]. apply acked; [done..|]. unfold command_became. rewrite Hw. split_and!; [done..|].
  split; [by apply said_read|]. intros ->. by inversion Hrs as [Hn|]; rewrite <-Hn in Hne.
Qed.
Lemma configure_said window geometry :
  u16_ok (rwidth geometry) → u16_ok (rheight geometry) →
  ∃ records, configure_records w window geometry = Some records ∧
    Forall2 (says order q) [NoteSize (raw_of window) (rwidth geometry) (rheight geometry);
                            NoteExposed (raw_of window) (rwidth geometry) (rheight geometry)] records.
Proof.
  intros Hw Hh. unfold configure_records. cbv zeta. rewrite decide_True by (split; [apply Hw|apply Hh]). cbn [mbind option_bind].
  destruct (configured_said order q window (clamp_engine_i16 (rx geometry)) (clamp_engine_i16 (ry geometry)) _ _ numbered Hw Hh) as (m & -> & Hm).
  cbn [mbind option_bind]. destruct (exposed_said order q window _ _ numbered Hw Hh) as (m' & -> & Hm'). cbn [mbind option_bind].
  eexists. split; [done|]. constructor; [done|]. by constructor.
Qed.
Lemma focus_records_said previous window :
  ∃ records, focus_records w previous window = Some records ∧
    Forall2 (says order q) ((if decide (previous ≠ window ∧ xid_raw previous ≠ X_SETUP_DEFAULT_ROOT) then [NoteFocusOut (raw_of previous)] else []) ++
                            [NoteFocusIn (raw_of window)]) records.
Proof.
  unfold focus_records. cbv zeta. destruct (focus_said order q true window numbered) as (m & E & Hm). case_decide.
  - destruct (focus_said order q false previous numbered) as (m' & -> & Hm'). cbn [mbind option_bind]. rewrite E. cbn [mbind option_bind].
    eexists. split; [done|]. constructor; [done|]. by constructor.
  - cbn [mbind option_bind]. rewrite E. eexists. split; [done|]. by constructor.
Qed.
Lemma configure_ends (fe : Frontend) transaction surface size window :
  frontend_ok fe → wk_surfaces w !! surface = Some window →
  ends fe (control_command acknowledge client w (ConfigureSurface transaction surface size) window)
    (command_ended (fe_server fe) (ConfigureSurface transaction surface size)).
Proof.
  intros Hfe Hw. unfold control_command. cbv zeta. change (wk_surfaces w !! control_surface (ConfigureSurface transaction surface size) = Some window) in Hw.
  case_decide as Hs; [apply acked; [done..|]; unfold command_became; by rewrite Hw|].
  eapply (ends_bind client (wk_namespace w) fe _ _ (λ r fe1, ∃ a r0, r = Ok a ∧
    configure_window_size_from_engine (wk_namespace w) window size (sv_runtime (fe_server fe)) = (a, r0) ∧
    fe_server fe1 = set_sv_runtime (fe_server fe) r0)).
  - eapply ends_run; [apply runs_configure_size| |done|by intros a r E; exists a, r].
    by apply own_op_confined.
  - intros a fe1 Hfe1 (? & r0 & [= <-] & E & Hsv). destruct a as [geometry|e].
    + destruct (configured_size _ _ _ _ _ _ E) as (Ew & Eh & Hg).
      destruct (configure_said window geometry) as (records & Er & Hr); [unfold u16_ok; lia..|]. eapply ends_expect; [exact Er|].
      eapply written_acked; [done|done|exact Hw|done| |reflexivity|done|].
      * exists geometry. rewrite Hsv. done.
      * by rewrite Ew, Eh in Hr.
    + apply configure_refused in E as ->. apply acked; [done..|]. unfold command_became. rewrite Hw. split_and!; [done..|].
      rewrite Hsv. by destruct (fe_server fe).
  - intros e fe1 (? & ? & [=] & _).
Qed.
Lemma atom_word (s : XServer) name a : server_ok s → atom_of (sv_atoms s) name = Some a → u32_ok a.
Proof.
  intros Hs Ha. pose proof (atoms_next _ (so_atoms _ Hs)). apply (atoms_inverse _ (so_atoms _ Hs)) in Ha.
  destruct (atoms_named _ (so_atoms _ Hs) _ _ Ha) as [_ ?]. unfold u32_ok. lia.
Qed.
Lemma close_ends (fe : Frontend) transaction surface window :
  frontend_ok fe → wk_surfaces w !! surface = Some window →
  ends fe (control_command acknowledge client w (CloseSurface transaction surface) window)
    (command_ended (fe_server fe) (CloseSurface transaction surface)).
Proof.
  intros Hfe Hw. unfold control_command. cbv zeta. change (wk_surfaces w !! control_surface (CloseSurface transaction surface) = Some window) in Hw.
  apply ends_get.
  assert (close_notes (fe_server fe) window = [] →
    ends fe (ack ← send_ack acknowledge client (CloseSurface transaction surface) ControlDelivered; mret (CtlTerminated, ack, w))
      (command_ended (fe_server fe) (CloseSurface transaction surface))) as Hnone.
  { intros Hn. apply acked; [done..|]. unfold command_became. rewrite Hw. split_and!; [by intros []|done|]. split; [by eexists _, _|done]. }
  unfold close_notes in Hnone.
  destruct (atom_of (sv_atoms (fe_server fe)) (str "WM_PROTOCOLS")) as [protocols|] eqn:Hp; [|by apply Hnone].
  destruct (atom_of (sv_atoms (fe_server fe)) (str "WM_DELETE_WINDOW")) as [delete|] eqn:Hd; [|by apply Hnone].
  case_decide as Hz; [by apply Hnone|].
  destruct (close_said order q protocols delete (ct_window (close_target w (sv_properties (fe_server fe)) protocols delete window)) numbered)
    as (m & E & Hm); [by eapply atom_word; [apply (fo_server _ Hfe)|]..|].
  eapply ends_expect; [exact E|].
  eapply (written_acked fe _ _ window [_] [m]); [done|done|exact Hw|by intros []|done| |done|by constructor].
  simpl. unfold close_notes. by rewrite Hp, Hd, decide_False.
Qed.
Lemma focus_ends (fe : Frontend) transaction surface window :
  frontend_ok fe → wk_surfaces w !! surface = Some window →
  ends fe (control_command acknowledge client w (FocusSurface transaction surface) window)
    (command_ended (fe_server fe) (FocusSurface transaction surface)).
Proof.
  intros Hfe Hw. unfold control_command. cbv zeta. change (wk_surfaces w !! control_surface (FocusSurface transaction surface) = Some window) in Hw.
  apply ends_get. eapply (ends_bind client (wk_namespace w) fe _ _ (λ r fe1, ∃ a r0, r = Ok a ∧
    set_focus (wk_namespace w) window 1 (sv_runtime (fe_server fe)) = (a, r0) ∧ fe_server fe1 = set_sv_runtime (fe_server fe) r0)).
  - eapply ends_run; [apply runs_focus|by apply own_op_confined|done|by intros a r E; exists a, r].
  - intros a fe1 Hfe1 (? & r0 & [= <-] & E & Hsv). apply focused in E. destruct a as [u|e].
    + assert (command_took (fe_server fe) (fe_server fe1) (FocusSurface transaction surface) window) as Ht by (simpl; by rewrite Hsv).
      case_decide as Hsame.
      * apply acked; [done..|]. unfold command_became. rewrite Hw. split_and!; [by intros []|done|]. split; [by eexists _, _|].
        by destruct Hsame as [_ <-].
      * destruct (focus_records_said (x_resource_id (wk_focus w) 1) window) as (records & Er & Hr). eapply ends_expect; [exact Er|].
        eapply written_acked; [done|done|exact Hw|by intros []|done|reflexivity| |exact Hr]. unfold command_notes. cbv zeta. by intros [_ [=]]%app_nil.
    + subst r0. apply acked; [done..|]. unfold command_became. rewrite Hw. split_and!; [by intros []|done|]. rewrite Hsv. by destruct (fe_server fe).
  - intros e fe1 (? & ? & [=] & _).
Qed.
(** Beside its queue, a command touches no route. *)
Definition routes_kept {A} (m : F (KS := KS) A) : Prop :=
  ∀ fe r fe', m fe = Some (r, fe') → rg_clients (fe_registry fe') = rg_clients (fe_registry fe).
Lemma kept_same {A} (m : F A) : (∀ fe r fe', m fe = Some (r, fe') → fe' = fe) → routes_kept m.
Proof. intros Hm fe r fe' E. by rewrite (Hm _ _ _ E). Qed.
Lemma kept_bind {A B} (m : F A) (k : A → F B) : routes_kept m → (∀ a, routes_kept (k a)) → routes_kept (m ≫= k).
Proof.
  intros Hm Hk fe r fe'. unfold mbind, f_bind. destruct (m fe) as [[[a|e] fe1]|] eqn:E; [..|done].
  - intros E'. rewrite (Hk a _ _ _ E'). by eapply Hm.
  - intros [= _ <-]. by eapply Hm.
Qed.
Lemma kept_dispatch {A} (m : D A) : routes_kept (f_dispatch (KS := KS) m).
Proof. intros fe r fe'. unfold f_dispatch. destruct (m _) as [[a s]|]; [|done]. by intros [= _ <-]. Qed.
Lemma kept_ret {A} (a : A) : routes_kept (mret a).
Proof. apply kept_same. by intros fe r fe' [= _ <-]. Qed.
Lemma kept_ack command outcome : routes_kept (send_ack acknowledge client command outcome).
Proof. apply kept_same. intros fe r fe'. unfold send_ack, f_guard. cbv zeta. case_decide; by intros [= _ <-]. Qed.
Lemma kept_expect {A} (o : option A) : routes_kept (f_expect o).
Proof. apply kept_same. intros fe r fe'. unfold f_expect. destruct o; [by intros [= _ <-]|done]. Qed.
Lemma kept_get : routes_kept (f_get (KS := KS)).
Proof. apply kept_same. by intros fe r fe' [= _ <-]. Qed.
Lemma command_kept command window : routes_kept (control_command acknowledge client w command window).
Proof.
  unfold control_command, write_records. cbv zeta. destruct command;
    repeat first [apply kept_ret|apply kept_ack|apply kept_expect|apply kept_get|apply kept_dispatch|apply kept_bind; [|intros]
                 |case_decide|case_match].
Qed.

(** What a step of the writer of the commands leaves. *)
Definition control_done (fe : Frontend) (r : result (option (XControlWrite * XAuthorityClientControlAck) * XClientWorker) X11SetupSocketError)
    (fe' : Frontend) : Prop :=
  (∀ c command rest, rg_clients (fe_registry fe) !! client = Some c → cr_control c ≠ mk_channel (command :: rest) true) ∧ r = Ok (None, w) ∨
  ∃ c command rest, rg_clients (fe_registry fe) !! client = Some c ∧ cr_control c = mk_channel (command :: rest) true ∧
    (cr_control <$> rg_clients (fe_registry fe') !! client) = Some (mk_channel rest true) ∧
    match r with
    | Ok (o, w') => same_connection w' ∧ ∃ write outcome, o = Some (write, ack_of command outcome) ∧ acknowledge (ack_of command outcome) = true ∧
        command_became (fe_server fe) (fe_server fe') command write outcome
    | Err _ => ∃ outcome, acknowledge (ack_of command outcome) = false
    end.
Lemma control_ends (fe : Frontend) : frontend_ok fe → ends fe (write_control acknowledge client w) (control_done fe).
Proof.
  intros Hfe. eapply (ends_bind client (wk_namespace w) fe _ _ (λ r fe1,
    (∀ c command rest, rg_clients (fe_registry fe) !! client = Some c → cr_control c ≠ mk_channel (command :: rest) true) ∧ r = Ok None ∨
    ∃ c command rest, rg_clients (fe_registry fe) !! client = Some c ∧ cr_control c = mk_channel (command :: rest) true ∧
      r = Ok (Some command) ∧ fe_server fe1 = fe_server fe ∧
      (cr_control <$> rg_clients (fe_registry fe1) !! client) = Some (mk_channel rest true))).
  - apply ends_take; [|done|by left|].
    + intros c item items Hq e He. by left.
    + intros c item items fe1 Hc Hq Hs _ Hr. right. exists c, item, items. split_and!; [done..|]. by rewrite Hr, lookup_insert_eq.
  - intros o fe1 Hfe1 [[Hno [= ->]]|(c & command & rest & Hc & Hq & [= ->] & Hs & Hr)]; [apply ends_ret; [done|]; by left|].
    destruct (wk_surfaces w !! control_surface command) as [window|] eqn:Hw.
    + assert (ends fe1 (control_command acknowledge client w command window) (command_ended (fe_server fe1) command)) as (r & fe2 & E & Hfe2 & Hwi & Hend).
      { destruct command; [by apply configure_ends|by apply focus_ends|by apply close_ends]. }
      rewrite <-(command_kept _ _ _ _ _ E) in Hr. rewrite Hs in Hend.
      unfold ends, mbind, f_bind. rewrite E. destruct r as [[[write ack] w']|e].
      * destruct Hend as (Hsame & outcome & -> & Ha & Hb). eexists _, fe2. split; [reflexivity|]. split_and!; [done..|]. right.
        exists c, command, rest. do 4 (split; [done|]). by exists write, outcome.
      * exists (Err e), fe2. split_and!; [done..|]. right. exists c, command, rest. by split_and!.
    + eapply ends_bind; [by apply ack_ends| |].
      * intros ack fe2 Hfe2 (-> & -> & Ha). apply ends_ret; [done|]. right. exists c, command, rest. do 4 (split; [done|]).
        exists CtlAnswered, ControlUnknownSurface. split_and!; [done..|]. unfold command_became. by rewrite Hw.
      * intros e fe2 (-> & Ha). right. exists c, command, rest. split_and!; [done..|]. by exists ControlUnknownSurface.
  - intros e fe1 [[_ [=]]|(c & command & rest & _ & _ & [=] & _)].
Qed.
End writers.
