(* ===== verification/XConnections.v ===== *)
(** * The frontend over its clients' lives
    ([sophia-x-authority/src/x11_socket.rs])

    Clients connect, are served, and leave; outputs change and the engine sends input.  The frontend
    never panics on the way, keeps its clients apart, and forgets a client that left. *)

From S2P Require Import Prelude Ids Geometry Packets PortalPackets Text Floats.
From S2P Require Import XAtoms XTables XProperties XSelections XInputGrabs XSoftware XState XRuntime XResources XRelease XOps XSystem.
From S2P Require Import XProtocol XKeyboard XWire XDecode XDispatch XServing XAnswers XSetup XClients XFocus XRouting XRoutes XFrontend.
From S2P Require Import XWriters XService XMessages XWriting XCommands.
From S2P Require Input.
From stdpp Require Import strings pretty.
Local Open Scope Z_scope.

Section lives.
  Context {KS : Type} (capacity : Z) (keyboard_new : KS) (keyboard_key : KS → Z → bool → option (Z * Z) * KS)
    (keyboard_mask : KS → Z).
  Context (has_render_device : bool) (render_device_fd : option Z)
    (copy_bytes : Z → Z → Z → option (list Z)) (observe : X11CoreDispatchTrace → result unit string)
    (acknowledge : XAuthorityClientControlAck → bool).
  Notation Frontend := (XFrontend KS).
  Implicit Types (fe : Frontend).
  Notation turn := (serve_turn capacity has_render_device render_device_fd copy_bytes observe).

(** ** What happens to the frontend *)

Inductive XFrontendEvent : Type :=
| EvConnect (authorization : XServerFrontendSetupAuthorization) (namespace : NamespaceId)
    (admission : option (result ClientAdmissionContext XServerFrontendAdmissionError)) (stream : list Z)
| EvTurn (client : Z) (received : X11ReceivedCoreRequest)
| EvDisconnect (client : Z)
| EvTopology (snapshot : OutputTopologySnapshot)
(** What the engine, the compositor and the listener do to the routes. *)
| EvRoute (op : XRouteOp)
(** A writer of the client takes the next item of its queue. *)
| EvProtocol (client : Z) | EvInput (client : Z) | EvControl (client : Z).
(** What a writer wrote, with the worker as it left it. *)
Definition write_step {A} (client : Z) (m : F (KS := KS) (A * XClientWorker)) : F A :=
  written ← m; _ ← f_set_worker client written.2; mret written.1.
(** A request of a client that waits, or is not there, changes nothing yet. *)
Definition front_step fe (ev : XFrontendEvent) : option Frontend :=
  match ev with
  | EvConnect authorization namespace admission stream => snd <$> connect authorization namespace admission stream fe
  | EvTurn client received =>
      match fe_workers fe !! client with
      | Some w => if decide (may_serve fe client w) then snd <$> turn client received w fe else Some fe
      | None => Some fe
      end
  | EvDisconnect client =>
      match fe_workers fe !! client with Some w => snd <$> disconnect observe client w fe | None => Some fe end
  | EvTopology snapshot => snd <$> update_topology capacity snapshot fe
  | EvRoute op => Some (set_fe_registry fe (route_op capacity keyboard_new keyboard_key keyboard_mask (fe_registry fe) op))
  | EvProtocol client =>
      match fe_workers fe !! client with Some w => snd <$> write_protocol client w fe | None => Some fe end
  | EvInput client =>
      match fe_workers fe !! client with Some w => snd <$> write_step client (write_input capacity client w) fe | None => Some fe end
  | EvControl client =>
      match fe_workers fe !! client with Some w => snd <$> write_step client (write_control acknowledge client w) fe | None => Some fe end
  end.
Fixpoint front_run fe (evs : list XFrontendEvent) : option Frontend :=
  match evs with [] => Some fe | ev :: evs => fe ← front_step fe ev; front_run fe evs end.
(** Bytes are bytes; what is routed to a client has a place in its sequence. *)
Definition event_ok (ev : XFrontendEvent) : Prop :=
  match ev with
  | EvConnect _ _ _ stream => Forall u8_ok stream
  | EvTurn client received => Forall u8_ok (rc_bytes received)
  | EvRoute op => protocol_routable op
  | _ => True
  end.

(** ** Each of them keeps the frontend in order *)

Lemma ok_server fe s : frontend_ok fe → server_ok s → frontend_ok (set_server fe s).
Proof.
  intros [_ _ Hl Hq Hw] Hs. constructor; simpl; try done. intros c w Hc. by destruct (Hw c w Hc).
Qed.
Lemma registry_same fe (r : XServerFrontendRouteRegistry KS) :
  frontend_ok fe → rg_input r = rg_input (fe_registry fe) → fe_server (set_fe_registry fe r) = fe_server fe.
Proof. intros Hfe Hr. unfold set_fe_registry. simpl. by rewrite Hr, (fo_input _ Hfe), set_input_same. Qed.
Lemma ok_registry fe (r : XServerFrontendRouteRegistry KS) :
  frontend_ok fe → every_ns ns_passive_ok (rg_input r) → queues_routable r → frontend_ok (set_fe_registry fe r).
Proof.
  intros [[H1 H2 H3 _] _ Hl _ Hw] Hr Hq. constructor; simpl; [by constructor|done..|]. intros c w Hc. by destruct (Hw c w Hc).
Qed.
Lemma ok_registry_same fe (r : XServerFrontendRouteRegistry KS) :
  frontend_ok fe → settled (rg_input (fe_registry fe)) r → frontend_ok (set_fe_registry fe r).
Proof. intros Hfe [Hr Hq]. apply ok_registry; [done| |done]. rewrite Hr, (fo_input _ Hfe). apply (so_input _ (fo_server _ Hfe)). Qed.
Lemma ok_leases fe l :
  frontend_ok fe → leases_ok l →
  (∀ c, is_Some (fe_workers fe !! c) → ls_leases l !! c = ls_leases (fe_leases fe) !! c) → frontend_ok (set_leases fe l).
Proof.
  intros [Hs Hi _ Hq Hw] Hl Hsame. constructor; simpl; try done. intros c w Hc. destruct (Hw c w Hc). constructor; try done.
  simpl. by rewrite Hsame.
Qed.
Lemma ok_workers_without fe client : frontend_ok fe → frontend_ok (set_workers fe (delete client (fe_workers fe))).
Proof.
  intros [Hs Hi Hl Hq Hw]. constructor; simpl; try done. intros c w. rewrite lookup_delete_Some. intros [_ Hc].
  by destruct (Hw c w Hc).
Qed.
Lemma ok_transaction fe n : frontend_ok fe → frontend_ok (set_next_transaction fe n).
Proof. intros [Hs Hi Hl Hq Hw]. constructor; simpl; try done. intros c w Hc. by destruct (Hw c w Hc). Qed.
Lemma new_client fe : frontend_ok fe → fe_workers fe !! ls_next_client (fe_leases fe) = None ∧
  ls_leases (fe_leases fe) !! ls_next_client (fe_leases fe) = None.
Proof.
  intros Hfe.
  assert (ls_leases (fe_leases fe) !! ls_next_client (fe_leases fe) = None) as Hn.
  { apply eq_None_not_Some. intros [l Hl]. destruct (lo_leases _ (fo_leases _ Hfe) _ _ Hl) as [_ ?]. lia. }
  split; [|done]. apply eq_None_not_Some. intros [w Hw]. pose proof (wo_lease _ _ _ (fo_workers _ Hfe _ _ Hw)) as E.
  by rewrite Hn in E.
Qed.

Lemma register_route_settled i client : keeps (settled i) (route_register_client (KS := KS) client).
Proof.
  intros r Hr. unfold route_register_client, mbind, r_bind, r_get. destruct (rg_clients r !! client); [done|].
  by apply (qk_new _ _ (settled_kept i)).
Qed.

(** Neither turning a client away nor a failure on the way leaves anything. *)
Definition safe {A} (m : F (KS := KS) A) : Prop := ∀ fe, frontend_ok fe → ∃ r fe', m fe = Some (r, fe') ∧ frontend_ok fe'.
Lemma safe_ret {A} (a : A) : safe (mret a).
Proof. intros fe Hfe. by exists (Ok a), fe. Qed.
Lemma safe_fail {A} e : safe (f_fail (A := A) e).
Proof. intros fe Hfe. by exists (Err e), fe. Qed.
Lemma safe_bind {A B} (m : F A) (k : A → F B) : safe m → (∀ a, safe (k a)) → safe (m ≫= k).
Proof.
  intros Hm Hk fe Hfe. destruct (Hm fe Hfe) as (r & fe1 & E & Hfe1). unfold mbind, f_bind. rewrite E.
  destruct r as [a|e]; [by apply Hk|by exists (Err e), fe1].
Qed.
Lemma safe_result {A E} (r : result A E) message : safe (f_result (KS := KS) r message).
Proof. destruct r; [apply safe_ret|apply safe_fail]. Qed.
Lemma safe_turn_away order reason : safe (turn_away (KS := KS) order reason).
Proof. apply safe_bind; [apply safe_result|intros; apply safe_ret]. Qed.
Lemma safe_route {A} (m : R A) e : (∀ i, keeps (settled i) m) → safe (f_route m e).
Proof.
  intros Hm fe Hfe. unfold f_route. specialize (Hm _ (fe_registry fe) (conj eq_refl (fo_routes _ Hfe))). destruct (m (fe_registry fe)) as [a r]. simpl in Hm.
  eexists _, _. split; [done|]. by apply ok_registry_same.
Qed.
Lemma safe_transaction : safe (f_allocate_transaction (KS := KS)).
Proof.
  intros fe Hfe. unfold f_allocate_transaction. destruct (allocate_transaction _) as [[t n]|]; eexists _, _; (split; [done|]);
    [by apply ok_transaction|done].
Qed.

Lemma connect_ok authorization namespace admission stream fe :
  Forall u8_ok stream → frontend_ok fe →
  ∃ r fe', connect authorization namespace admission stream fe = Some (r, fe') ∧ frontend_ok fe' ∧
    fe_server fe' = fe_server fe.
Proof.
  intros Hb Hfe. unfold connect. destruct (setup_read_total stream Hb) as (r & Hr & _). rewrite Hr.
  destruct r as [[request rest]|e]; [|by exists (Err (socket_error "invalid X11 setup request")), fe].
  assert (∀ reason, ∃ r, turn_away (KS := KS) (sr_byte_order request) reason fe = Some (r, fe)) as Haway.
  { intros reason. unfold turn_away, mbind, f_bind, f_result. destruct (encode_x11_setup_failure _ _); by eexists. }
  destruct (permits _ _); [|destruct (Haway "Sophia X11 authorization failed"%string) as [r Hx]; exists r, fe; by split_and!].
  destruct (admitted_namespace _ _) as [ns|e].
  2: { destruct (Haway "Sophia X11 admission failed"%string) as [r Hx]. unfold mbind, f_bind. rewrite Hx. destruct r as [|e0].
       - case_decide; by eexists _, fe.
       - by exists (Err e0), fe. }
  unfold mbind at 1, f_bind at 1, f_get. unfold mbind at 1, f_bind at 1, f_lease at 1.
  destruct (next_setup_ok (rt_output_topology (sv_runtime (fe_server fe))) (fe_leases fe) (fo_leases _ Hfe))
    as (r & leases & E & Hleases & Hsame & Hres). rewrite E.
  assert (frontend_ok (set_leases fe leases)) as Hfe1 by (apply ok_leases; [done..|intros; by rewrite Hsame]).
  destruct r as [[lease setup]|e]; [|by eexists _, _]. destruct Hres as (-> & Hmax & Hnext & _). cbv zeta.
  unfold mbind at 1, f_bind at 1. unfold f_result. destruct (encode_x11_setup_success _ _) as [reply|e]; [|by eexists _, _].
  set (fe1 := set_leases fe leases) in *. set (client := ls_next_client (fe_leases fe)) in *.
  destruct (new_client fe Hfe) as [Hnw Hnl]. fold client in Hnw, Hnl.
  unfold mret at 1, f_ret at 1. unfold register_worker. cbv zeta. change (cl_client (lease_of client)) with client.
  unfold mbind at 1, f_bind at 1. unfold mbind at 1, f_bind at 1. unfold f_undo at 1, f_route.
  pose proof (register_route_settled (rg_input (fe_registry fe1)) client (fe_registry fe1) (conj eq_refl (fo_routes _ Hfe1))) as Hri.
  destruct (route_register_client client (fe_registry fe1)) as [a reg]. simpl in Hri.
  pose proof (registry_same fe1 reg Hfe1 (proj1 Hri)) as Hsv. pose proof (ok_registry_same fe1 reg Hfe1 Hri) as Hfe2.
  set (fe2 := set_fe_registry fe1 reg) in *. destruct a as [u|e].
  - unfold f_undo at 1, f_lease. destruct (register_ok client (fe_leases fe2)) as (l' & E' & Hl' & Hm & _).
    { exact Hleases. } { simpl. by rewrite Hsame. } { destruct (fo_leases _ Hfe). unfold client. simpl. lia. }
    rewrite E'. unfold mbind, f_bind, f_set_worker. eexists _, _. split; [done|]. split; [|exact Hsv].
    destruct Hfe2 as [Hs Hi _ Hq Hw]. constructor; simpl; try done. intros c w. rewrite lookup_insert_Some.
    intros [[<- <-]|[Hne Hc]].
    + constructor; [|done|simpl; lia|done]. simpl. by rewrite Hm, lookup_insert_eq.
    + destruct (Hw c w Hc). constructor; try done. simpl. by rewrite Hm, lookup_insert_ne.
  - eexists _, _. split; [done|]. split; [|exact Hsv]. destruct (release_lease_ok client (fe_leases fe2)) as (x & l' & E' & Hl' & Hm & _); [exact Hleases|].
    rewrite E'. simpl. apply ok_leases; [done..|]. intros c [w Hc]. rewrite Hm, lookup_delete_ne; [done|].
    intros <-. simpl in Hc. by rewrite Hnw in Hc.
Qed.

Lemma removed_properties_ok namespace l t :
  properties_ok t → properties_ok (foldl (λ properties window, (remove_window properties namespace window).2) t l).
Proof.
  revert t. induction l as [|w l IH]; intros t Ht; [done|]. apply IH. by apply (property_op_preserves t (OpRemoveWindow namespace w)).
Qed.
Lemma released_ok namespace lease fe :
  server_ok (fe_server fe) → rg_input (fe_registry fe) = sv_input (fe_server fe) →
  ∃ r fe', release_lease namespace lease fe = Some (r, fe') ∧ server_ok (fe_server fe') ∧
    rg_input (fe_registry fe') = sv_input (fe_server fe') ∧ fe_workers fe' = fe_workers fe ∧ fe_leases fe' = fe_leases fe ∧
    rg_clients (fe_registry fe') = rg_clients (fe_registry fe).
Proof.
  intros Hs Hi. unfold release_lease. unfold mbind at 1, f_bind at 1. unfold f_dispatch at 1, d_run.
  destruct (release_client_resource_range namespace (cl_range lease) (sv_runtime (fe_server fe))) as [released runtime] eqn:E.
  assert (runtime_ok runtime) as Hr.
  { assert (runtime = runtime_run (sv_runtime (fe_server fe)) [OpReleaseClient namespace (cl_range lease)]) as -> by (simpl; by rewrite E).
    apply runtime_run_ok; [by apply Forall_singleton|apply (so_runtime _ Hs)]. }
  unfold mbind at 1, f_bind at 1. destruct Hs as [_ Ha Hp Hn]. destruct released as [release|e]; simpl.
  - eexists _, _. split; [done|]. split_and!; try done. constructor; simpl; try done. by apply removed_properties_ok.
  - eexists _, _. split; [done|]. by split_and!.
Qed.
Lemma safe_report_release client w release : safe (report_release (KS := KS) observe client w release).
Proof.
  unfold report_release. case_decide; [apply safe_ret|]. apply safe_bind; [apply safe_transaction|]. intros transaction. cbv zeta.
  unfold report. destruct (observe _); [apply safe_ret|apply safe_fail].
Qed.
Lemma drop_worker_ok client fe :
  queues_routable (fe_registry fe) → server_ok (fe_server fe) → rg_input (fe_registry fe) = sv_input (fe_server fe) → leases_ok (fe_leases fe) →
  (∀ c w, c ≠ client → fe_workers fe !! c = Some w → worker_ok fe c w) → frontend_ok (drop_worker client fe).
Proof.
  intros Hq Hs Hi Hl Hw. unfold drop_worker. simpl. constructor; simpl; try done.
  - rewrite Hi, set_input_same. done.
  - by apply (route_op_routable capacity keyboard_new keyboard_key keyboard_mask _ (RoDrop client)).
  - intros c w. rewrite lookup_delete_Some. intros [Hc Hcw]. by destruct (Hw c w (not_eq_sym Hc) Hcw).
Qed.
Lemma disconnect_ok client w fe :
  frontend_ok fe → fe_workers fe !! client = Some w →
  ∃ r fe', disconnect observe client w fe = Some (r, fe') ∧ frontend_ok fe'.
Proof.
  intros Hfe Hw. unfold disconnect. unfold mbind at 1, f_bind at 1. unfold f_finally.
  unfold mbind at 1, f_bind at 1. unfold f_dispatch at 1, d_input.
  set (fe1 := set_server fe _).
  assert (frontend_ok fe1) as Hfe1.
  { apply ok_server; [done|]. destruct (fo_server _ Hfe). constructor; simpl; try done. by apply (input_op_passive _ (ICleanup client)). }
  unfold mbind at 1, f_bind at 1. unfold f_lease at 1.
  destruct (release_lease_ok client (fe_leases fe1)) as (x & l' & E & Hl' & Hm & _ & Hx); [apply (fo_leases _ Hfe1)|]. rewrite E.
  change (fe_leases fe1) with (fe_leases fe) in Hx, Hm. rewrite (wo_lease _ _ _ (fo_workers _ Hfe _ _ Hw)) in Hx. subst x.
  destruct (released_ok (wk_namespace w) (lease_of client) (set_leases fe1 l')) as (r & fe2 & E2 & Hs2 & Hi2 & Hw2 & Hl2 & Hc2);
    [apply (fo_server _ Hfe1)|apply (fo_input _ Hfe1)|]. rewrite E2.
  assert (frontend_ok (drop_worker client fe2)) as Hfe2.
  { apply drop_worker_ok; [unfold queues_routable; rewrite Hc2; apply (fo_routes _ Hfe)|done..|by rewrite Hl2|]. intros c w' Hc. rewrite Hw2. intros Hcw.
    destruct (fo_workers _ Hfe c w' Hcw). constructor; try done. rewrite Hl2. simpl. by rewrite Hm, lookup_delete_ne. }
  destruct r as [release|e]; [|by eexists (Err e), _]. by apply safe_report_release.
Qed.

Notation passive_ok := (λ r : XServerFrontendRouteRegistry KS, every_ns ns_passive_ok (rg_input r)).
Lemma passive_kept : queue_kept (λ _, True) passive_ok.
Proof. by constructor. Qed.
Lemma resolve_passive r surface route :
  every_ns ns_passive_ok (rg_input r) →
  every_ns ns_passive_ok (rg_input (resolve_input keyboard_new keyboard_key keyboard_mask r surface route).2).
Proof.
  intros Hi. unfold resolve_input. set (ns := su_namespace surface). cbv zeta. destruct (Input.rq_kind _) as [|b p|k p]; simpl; [done| |].
  - destruct (map_evdev_button _ b p) as [[[b' st]|] n]; [|done]. destruct p; simpl.
    + pose proof (input_op_passive (rg_input r) (IActivateButton ns b' (Z.land st 255) (implicit_grab surface)) Hi) as H. simpl in H.
      by destruct (activate_button _ _ _ _ _).
    + by apply (input_op_passive _ (IReleaseButton ns b')).
  - destruct (keyboard_key _ k p) as [[[k' st]|] kb]; [|done]. destruct p; simpl.
    + pose proof (input_op_passive (rg_input r) (IActivateKey ns k' (Z.land st 255)) Hi) as H. simpl in H.
      by destruct (activate_key _ _ _ _).
    + by apply (input_op_passive _ (IReleaseKey ns k')).
Qed.
Lemma topology_ok snapshot fe :
  frontend_ok fe → ∃ r fe', update_topology capacity snapshot fe = Some (r, fe') ∧ frontend_ok fe'.
Proof.
  intros Hfe. unfold update_topology. unfold mbind at 1, f_bind at 1. unfold f_runtime, f_dispatch, d_draw.
  destruct (update_output_topology snapshot (sv_runtime (fe_server fe))) as [outcome runtime] eqn:E.
  assert (frontend_ok (set_server fe (set_sv_runtime (fe_server fe) runtime))) as Hfe1.
  { apply ok_server; [done|]. destruct (fo_server _ Hfe) as [Hr ? ? ?]. constructor; simpl; try done.
    assert (runtime = runtime_run (sv_runtime (fe_server fe)) [OpUpdateOutputTopology snapshot]) as -> by (simpl; by rewrite E).
    by apply runtime_run_ok; [apply Forall_singleton|]. }
  destruct outcome as [[]|e]; [|by eexists _, _..]. revert Hfe1. generalize (set_server fe (set_sv_runtime (fe_server fe) runtime)).
  intros fe1 Hfe1. apply safe_bind; [|intros; apply safe_ret|done]. apply safe_route. intros r.
  by apply (broadcast_kept capacity _ _ (settled_kept r)).
Qed.
Lemma route_op_passive r op : passive_ok r → passive_ok (route_op capacity keyboard_new keyboard_key keyboard_mask r op).
Proof.
  intros Hr. apply (route_op_kept capacity keyboard_new keyboard_key keyboard_mask _ _ _ _ passive_kept); [done| |by destruct op| |done].
  - intros r0 surface route H0 _. by apply resolve_passive.
  - destruct op; try done; intros _; simpl. by apply input_op_passive.
Qed.
(** A writer keeps its client's connection. *)
Lemma write_step_ok {A} client w fe (m : F (A * XClientWorker)) (Post : result (A * XClientWorker) _ → Frontend → Prop) :
  frontend_ok fe → fe_workers fe !! client = Some w → ends client (wk_namespace w) fe m Post →
  (∀ a w' fe', Post (Ok (a, w')) fe' → same_connection w w') →
  ∃ r fe', write_step client m fe = Some (r, fe') ∧ frontend_ok fe'.
Proof.
  intros Hfe Hw (r & fe1 & E & Hfe1 & Hwi & HP) Hsame. unfold write_step, mbind, f_bind. rewrite E.
  destruct r as [[a w']|e]; [|by exists (Err e), fe1]. eexists _, _. split; [reflexivity|]. simpl.
  destruct (fo_workers _ Hfe _ _ Hw). destruct (Hsame _ _ _ HP) as (_ & _ & Hr & _ & Hn & Hf).
  apply worker_stored; [done|rewrite (wi_workers _ _ _ _ Hwi); by eexists|congruence|by rewrite Hf|by rewrite Hn].
Qed.
Lemma front_step_ok fe ev : frontend_ok fe → event_ok ev → ∃ fe', front_step fe ev = Some fe' ∧ frontend_ok fe'.
Proof.
  intros Hfe Hev. destruct ev as [authorization namespace admission stream|client received|client|snapshot|op|client|client|client]; simpl.
  - destruct (connect_ok authorization namespace admission stream fe Hev Hfe) as (r & fe' & E & Hfe' & _). rewrite E. by exists fe'.
  - destruct (fe_workers fe !! client) as [w|] eqn:Hw; [|by exists fe]. case_decide; [|by exists fe].
    destruct (turn_ok capacity has_render_device render_device_fd copy_bytes observe client (wk_namespace w) fe w received)
      as (r & fe' & E & [Hfe' _ _ _]); [done..|]. rewrite E. by exists fe'.
  - destruct (fe_workers fe !! client) as [w|] eqn:Hw; [|by exists fe].
    destruct (disconnect_ok client w fe Hfe Hw) as (r & fe' & E & Hfe'). rewrite E. by exists fe'.
  - destruct (topology_ok snapshot fe Hfe) as (r & fe' & E & Hfe'). rewrite E. by exists fe'.
  - eexists. split; [done|]. apply ok_registry; [done|..].
    + apply route_op_passive. rewrite (fo_input _ Hfe). apply (so_input _ (fo_server _ Hfe)).
    + apply route_op_routable; [done|apply (fo_routes _ Hfe)].
  - destruct (fe_workers fe !! client) as [w|] eqn:Hw; [|by exists fe].
    destruct (protocol_ends client w (wo_numbered _ _ _ (fo_workers _ Hfe _ _ Hw)) fe Hfe) as (r & fe' & -> & Hfe' & _). by exists fe'.
  - destruct (fe_workers fe !! client) as [w|] eqn:Hw; [|by exists fe].
    destruct (write_step_ok client w fe _ _ Hfe Hw (input_ends capacity client w (wo_numbered _ _ _ (fo_workers _ Hfe _ _ Hw)) fe Hfe))
      as (r & fe' & -> & Hfe'); [|by exists fe']. intros a w' fe1 [_ H]. by apply (H a w').
  - destruct (fe_workers fe !! client) as [w|] eqn:Hw; [|by exists fe].
    destruct (write_step_ok client w fe _ _ Hfe Hw (control_ends acknowledge client w (wo_numbered _ _ _ (fo_workers _ Hfe _ _ Hw)) fe Hfe))
      as (r & fe' & -> & Hfe'); [|by exists fe'].
    intros a w' fe1 [[_ [= _ <-]]|(c & command & rest & _ & _ & _ & H & _)]; [by split_and!|done].
Qed.
Lemma front_run_ok fe evs : frontend_ok fe → Forall event_ok evs → ∃ fe', front_run fe evs = Some fe' ∧ frontend_ok fe'.
Proof.
  intros Hfe Hevs. revert fe Hfe. induction Hevs as [|ev evs Hev _ IH]; intros fe Hfe; [by exists fe|]. simpl.
  destruct (front_step_ok fe ev Hfe Hev) as (fe1 & E & Hfe1). rewrite E. by apply IH.
Qed.

Lemma frontend_new_ok topology keymap deliveries fe : frontend_new topology keymap deliveries = Ok fe → frontend_ok fe.
Proof.
  unfold frontend_new. destruct (with_output_topology topology) as [runtime|] eqn:E; [|done]. intros [= <-].
  constructor; simpl; [|done|apply leases_default_ok|intros c cr; simpl; by rewrite lookup_empty|intros c w; by rewrite lookup_empty].
  constructor; simpl; [by eapply new_runtime_ok|apply atom_table_new_ok|done|intros ns n Hn; vm_compute in Hn; by destruct ns].
Qed.

(** C7: No client can bring the frontend down by what it sends: whoever connects with whatever bytes,
    is served, disconnects, in any order, while outputs change, the engine routes input and commands
    and the writers send them on, no step panics, and the tables of the authority, the leases, the routes and the workers stay
    well formed. *)
Theorem frontend_never_panics topology keymap deliveries fe evs :
  frontend_new topology keymap deliveries = Ok fe → Forall event_ok evs →
  ∃ fe', front_run fe evs = Some fe' ∧ frontend_ok fe'.
Proof. intros Hfe Hevs. apply front_run_ok; [by eapply frontend_new_ok|done]. Qed.

(** C8: Every request is answered as its client expects: in whatever state the frontend got to, a turn
    that does not end the connection answers under the next sequence number; a request that waits
    for a reply gets exactly one reply or error, and nothing else of it goes elsewhere; any other
    request gets events or one error; what cannot be decoded gets one error. *)
Theorem requests_answered topology keymap deliveries fe0 evs fe client w received :
  frontend_new topology keymap deliveries = Ok fe0 → Forall event_ok evs → front_run fe0 evs = Some fe →
  fe_workers fe !! client = Some w → event_ok (EvTurn client received) →
  ∃ r fe', turn client received w fe = Some (r, fe') ∧
    match r with
    | Ok turn => turn_answers fe w (rc_bytes received) turn ∧
        ∃ w', fe_workers fe' = <[client := w']> (fe_workers fe) ∧ wk_namespace w' = wk_namespace w ∧
          wk_sequence w' = as_unsigned 16 (wk_sequence w + 1) ∧ wk_event_sequence w' = wk_sequence w'
    | Err _ => fe_workers fe' = fe_workers fe
    end.
Proof.
  intros H0 Hevs Hrun Hw Hb. destruct (front_run_ok fe0 evs) as (fe1 & E & Hfe); [by eapply frontend_new_ok|done|].
  rewrite Hrun in E. injection E as <-.
  destruct (turn_ok capacity has_render_device render_device_fd copy_bytes observe client (wk_namespace w) fe w received)
    as (r & fe' & E & [_ _ _ Hd]); [done..|]. by exists r, fe'.
Qed.

Lemma ranges_apart c c' id : c ≠ c' → owns_new_resource (range_of c) id → ¬ owns_new_resource (range_of c') id.
Proof.
  unfold owns_new_resource, range_of. simpl. intros Hc [_ H1] [_ H2]. rewrite H1 in H2.
  unfold X11_CLIENT_RESOURCE_RANGE_SIZE, X_SETUP_DEFAULT_RESOURCE_ID_MASK in H2. lia.
Qed.
(** C9: A client's turn does not reach into these tables of another namespace: every resource record,
    window record, segment, graphics context and GLX context that another client owns there, with the
    DMA-buffer descriptor, fence and region kept under such a resource, is as it was, and so are that
    namespace's focus, its grabs and frozen devices, and its properties.  Not in this: the pixels of
    software buffers, which a refused drawing request still paints ([XSystem.foreign_draw_paints]), the
    selections ([selection_cleared_across_namespaces]) and the events sent ([notice_crosses_namespaces]). *)
Theorem turns_stay_in_namespace fe client w received r fe' other ns :
  frontend_ok fe → fe_workers fe !! client = Some w → event_ok (EvTurn client received) →
  turn client received w fe = Some (r, fe') → other ≠ client → ns ≠ wk_namespace w →
  untouched ns (λ id, owns_new_resource (range_of other) (xid_raw id)) (sv_runtime (fe_server fe)) (sv_runtime (fe_server fe')) ∧
  namespaces (sv_input (fe_server fe')) !! ns = namespaces (sv_input (fe_server fe)) !! ns ∧
  ∀ window property, sv_properties (fe_server fe') !! (ns, window, property) = sv_properties (fe_server fe) !! (ns, window, property).
Proof.
  intros Hfe Hw Hb Ht Ho Hns.
  destruct (turn_ok capacity has_render_device render_device_fd copy_bytes observe client (wk_namespace w) fe w received)
    as (r' & fe1 & E & [_ [(ops & Hops & Hrun) Hin _ _ _ Hp] _ _]); [done..|]. rewrite Ht in E. injection E as <- <-. split_and!.
  - rewrite Hrun. apply runtime_run_untouched.
    + eapply Forall_impl; [exact Hops|]. by intros op [H _].
    + apply (so_runtime _ (fo_server _ Hfe)).
    + eapply Forall_impl; [exact Hops|]. intros op (_ & Hon & Hcr). split; [destruct Hon; congruence|].
      eapply Forall_impl; [exact Hcr|]. intros id. simpl. by apply ranges_apart.
  - by apply Hin.
  - intros window property. by apply Hp.
Qed.

(** ** What a client leaves *)

(** Nothing of the client is left in the routes and the input authority. *)
Record forgotten (client : Z) (fe : Frontend) : Prop := mk_forgotten {
  fg_worker : fe_workers fe !! client = None;
  fg_lease : ls_leases (fe_leases fe) !! client = None;
  fg_queues : rg_clients (fe_registry fe) !! client = None;
  fg_surfaces : ∀ surface route, rg_surfaces (fe_registry fe) !! surface = Some route → su_client route ≠ client;
  fg_randr : rg_randr (fe_registry fe) !! client = None;
  fg_present : ∀ event_id, rg_present (fe_registry fe) !! (client, event_id) = None;
  fg_pending : ∀ transaction p, rg_pending (fe_registry fe) !! transaction = Some p → pn_client p ≠ client;
  fg_deferred : Forall (λ d, df_client d ≠ client) (rg_frozen (fe_registry fe));
  fg_grabs : ∀ ns n, namespaces (sv_input (fe_server fe)) !! ns = Some n →
    ¬ owned_by (pointer n) client ∧ ¬ owned_by (keyboard n) client ∧ server_owner n ≠ Some client ∧
    Forall (λ g, pg_owner g ≠ client) (buttons n ++ keys n);
  fg_selected : ∀ k masks, xi_selections (sv_input (fe_server fe)) !! k = Some masks → k.1.1.2 ≠ client;
}.
Lemma cleanup_selected client i k masks : xi_selections (cleanup_owner i client) !! k = Some masks → k.1.1.2 ≠ client.
Proof. simpl. by intros [_ H]%map_lookup_filter_Some. Qed.
Lemma cleanup_forgets client i ns n :
  namespaces (cleanup_owner i client) !! ns = Some n →
  ¬ owned_by (pointer n) client ∧ ¬ owned_by (keyboard n) client ∧ server_owner n ≠ Some client ∧
  Forall (λ g, pg_owner g ≠ client) (buttons n ++ keys n).
Proof.
  unfold cleanup_owner. simpl. rewrite lookup_omap. intros (n0 & _ & Hn)%bind_Some. simpl in Hn. case_decide; [|done].
  injection Hn as <-. destruct (cleanup_ns_exact client n0) as (-> & -> & -> & -> & -> & _). unfold released.
  split_and!; [by case_decide as H1; [intros (? & ? & _)|]|by case_decide as H1; [intros (? & ? & _)|]|by case_decide|].
  apply Forall_app. split; apply Forall_forall; intros g; rewrite list_elem_of_filter; by intros [? _].
Qed.
Lemma dropped client fe l input :
  ls_leases l !! client = None →
  (∀ ns n, namespaces input !! ns = Some n →
    ¬ owned_by (pointer n) client ∧ ¬ owned_by (keyboard n) client ∧ server_owner n ≠ Some client ∧
    Forall (λ g, pg_owner g ≠ client) (buttons n ++ keys n)) →
  (∀ k masks, xi_selections input !! k = Some masks → k.1.1.2 ≠ client) →
  fe_leases fe = l → rg_input (fe_registry fe) = input → forgotten client (drop_worker client fe).
Proof.
  intros Hl Hg Hx El Ei. unfold drop_worker. constructor; simpl; try by rewrite lookup_delete_eq.
  - by rewrite El.
  - intros surface route. rewrite map_lookup_filter_Some. by intros [_ H].
  - intros event_id. apply map_lookup_filter_None. right. simpl. tauto.
  - intros transaction p. rewrite map_lookup_filter_Some. by intros [_ H].
  - apply Forall_forall. intros d. rewrite list_elem_of_filter. by intros [H _].
  - intros ns n. rewrite Ei. apply Hg.
  - intros k masks. rewrite Ei. apply Hx.
Qed.
(** What its range held is released ([XRelease]), with the properties of its windows, and nothing else changes. *)
Record range_let_go (ns : NamespaceId) (client : Z) (s s' : XServer) : Prop := mk_let_go {
  lg_runtime : range_released ns (range_of client) (sv_runtime s) (sv_runtime s');
  lg_nothing_left : nothing_left ns (range_of client) (sv_runtime s');
  lg_properties : ∀ k, sv_properties s' !! k =
    if decide (k.1.1 = ns ∧ XRelease.held KWindow ns (range_of client) (sv_runtime s) k.1.2) then None else sv_properties s !! k;
  lg_atoms : sv_atoms s' = sv_atoms s;
  lg_keymap : sv_keymap s' = sv_keymap s;
}.
Lemma properties_removed (ns : NamespaceId) (l : list XResourceId) (P : XPropertyTable) (k : XPropertyKey) :
  foldl (λ properties window, (remove_window properties ns window).2) P l !! k =
    if decide (k.1.1 = ns ∧ k.1.2 ∈ l) then None else P !! k.
Proof.
  revert P. induction l as [|w l IH]; intros P; simpl.
  { rewrite decide_False; [done|]. by intros [_ ?%not_elem_of_nil]. }
  rewrite IH. destruct (decide (k.1.1 = ns ∧ k.1.2 ∈ l)) as [H|H].
  { rewrite decide_True; [done|]. split; [tauto|]. right. tauto. }
  destruct (decide (k.1.1 = ns ∧ k.1.2 ∈ w :: l)) as [H1|H1].
  - apply map_lookup_filter_None. right. intros v _. simpl. destruct H1 as [? [?|?]%elem_of_cons]; tauto.
  - destruct (P !! k) as [v|] eqn:Hk; [|apply map_lookup_filter_None; by left]. apply map_lookup_filter_Some. split; [done|]. simpl.
    destruct (decide (k.1.1 = ns)) as [|?]; [right|by left]. intros E. apply H1. split; [done|]. rewrite E. left.
Qed.
Lemma released_windows ns range r (i : XResourceId) :
  resources_ok (rt_resources r) →
  i ∈ window_ids (records_for_namespace_in_client_range (rt_resources r) ns range) ↔ XRelease.held KWindow ns range r i.
Proof.
  intros Hr. destruct (records_in_range ns range r Hr) as (_ & _ & _ & Hkinds). rewrite <-Hkinds. unfold window_ids, freed_kind.
  rewrite list_elem_of_fmap, Exists_exists. split.
  - intros (x & -> & [Hk Hx]%list_elem_of_filter). by exists x.
  - intros (x & Hx & <- & Hk). exists x. by rewrite list_elem_of_filter.
Qed.
(** Only the last of the clients can name the identifier of a window without a record. *)
Lemma half_made_last ns client r : 1 ≤ client → half_made ns (range_of client) r → client = 2047.
Proof.
  intros Hc (id & record & _ & _ & [_ [_ Hin]] & E). rewrite E in Hin. by apply range_owner in Hin.
Qed.
Lemma report_release_same client w release fe :
  ∃ r fe', report_release (KS := KS) observe client w release fe = Some (r, fe') ∧ fe' = set_next_transaction fe (fe_next_transaction fe').
Proof.
  unfold report_release. case_decide; [by exists (Ok ()), fe; destruct fe|]. unfold mbind, f_bind, f_allocate_transaction, report.
  destruct (allocate_transaction _) as [[t n]|]; [|by eexists (Err _), fe; destruct fe].
  destruct (observe _); by eexists _, (set_next_transaction fe n).
Qed.
Lemma release_lease_gives ns client fe :
  id_valid ns → runtime_ok (sv_runtime (fe_server fe)) →
  ∃ x fe', release_lease ns (lease_of client) fe = Some (x, fe') ∧
    (¬ half_made ns (range_of client) (sv_runtime (fe_server fe)) → range_let_go ns client (fe_server fe) (fe_server fe')) ∧
    fe_leases fe' = fe_leases fe ∧ rg_input (fe_registry fe') = sv_input (fe_server fe).
Proof.
  intros Hns Hrok. unfold release_lease. unfold mbind at 1, f_bind at 1. unfold f_dispatch at 1, d_run.
  change (cl_range (lease_of client)) with (range_of client).
  destruct (release_client_resource_range ns (range_of client) (sv_runtime (fe_server fe))) as [released runtime] eqn:Er.
  assert (¬ half_made ns (range_of client) (sv_runtime (fe_server fe)) → range_released ns (range_of client) (sv_runtime (fe_server fe)) runtime ∧
    released = Ok (release_of ns (range_of client) (sv_runtime (fe_server fe)) runtime)) as Hrel.
  { intros Hh. destruct (release_ok ns (range_of client) _ Hns (runtime_ok_ready _ _ _ Hrok Hh)) as (r' & E' & Hrel).
    rewrite Er in E'. by injection E' as -> <-. }
  unfold mbind, f_bind. simpl. destruct released as [release|e]; simpl; (eexists _, _; split; [reflexivity|]; split; [|done]).
  - intros [Hrr [= ->]]%Hrel. constructor; simpl; try done; [by eapply released_nothing_left|]. intros k.
    etrans; [apply (properties_removed ns (window_ids (records_for_namespace_in_client_range _ ns (range_of client))))|]. apply decide_ext. by rewrite released_windows by apply Hrok.
  - by intros [_ ?]%Hrel.
Qed.
(** C10: A client that leaves is forgotten: disconnecting it does not panic, its worker, lease, queues,
    routed surfaces, subscriptions, pending presentations, deferred input, grabs and XI2 selections are
    gone, and no resource leads to it any more.  Unless it is the 2047th client and made a window of the
    last identifier, which leaves a resource without a window, its range is released as well: in every
    table of the runtime ([range_released]) exactly what it held is gone, no resource, context, segment
    or GLX object of the range is left in its namespace, the properties of its windows are gone, and
    every other property, the atoms and the keymap are as they were.  The clipboard transfers that its
    windows asked for are not dropped, nor is an acquisition of another namespace's selection undone. *)
Theorem disconnect_forgets fe client w :
  frontend_ok fe → fe_workers fe !! client = Some w → id_valid (wk_namespace w) →
  ∃ r fe', disconnect observe client w fe = Some (r, fe') ∧ forgotten client fe' ∧
    (∀ resource, 0 ≤ xid_raw resource ≤ u32_MAX → client_for_resource (fe_leases fe') resource ≠ Some client) ∧
    ((client = 2047 → ¬ half_made (wk_namespace w) (range_of client) (sv_runtime (fe_server fe))) →
     range_let_go (wk_namespace w) client (fe_server fe) (fe_server fe')).
Proof.
  intros Hfe Hw Hns. unfold disconnect. unfold mbind at 1, f_bind at 1. unfold f_finally.
  unfold mbind at 1, f_bind at 1. unfold f_dispatch at 1, d_input.
  set (fe1 := set_server fe _). unfold mbind at 1, f_bind at 1. unfold f_lease at 1.
  destruct (release_lease_ok client (fe_leases fe1)) as (x & l' & E & Hl' & Hm & _ & Hx); [apply (fo_leases _ Hfe)|]. rewrite E.
  change (fe_leases fe1) with (fe_leases fe) in Hx, Hm. rewrite (wo_lease _ _ _ (fo_workers _ Hfe _ _ Hw)) in Hx. subst x.
  assert (ls_leases l' !! client = None) as Hnone by (by rewrite Hm, lookup_delete_eq).
  destruct (lo_leases _ (fo_leases _ Hfe) _ _ (wo_lease _ _ _ (fo_workers _ Hfe _ _ Hw))) as [_ Hclient].
  set (ns := wk_namespace w) in *. set (runtime := sv_runtime (fe_server fe)).
  pose proof (so_runtime _ (fo_server _ Hfe)) as Hrok. fold runtime in Hrok.
  destruct (release_lease_gives ns client (set_leases fe1 l') Hns) as (x & fe2 & -> & Hlg & El & Ei).
  { exact Hrok. }
  assert (forgotten client (drop_worker client fe2)) as Hfg.
  { apply (dropped client _ l' (cleanup_owner (sv_input (fe_server fe)) client)); [done|intros m n; apply cleanup_forgets|apply cleanup_selected|done..]. }
  assert (∃ r fe', (match x with Ok release => report_release observe client w release (drop_worker client fe2) | Err e => Some (Err e, drop_worker client fe2) end)
    = Some (r, fe') ∧ fe' = set_next_transaction (drop_worker client fe2) (fe_next_transaction fe')) as (r & fe' & Ef & Hfe').
  { destruct x as [release|e]; [|by exists (Err e), (drop_worker client fe2); destruct (drop_worker client fe2)].
    apply report_release_same. }
  exists r, fe'. split; [destruct x; exact Ef|]. rewrite Hfe'. split; [destruct Hfg; by constructor|]. split.
  - intros resource Hraw. simpl. rewrite El. intros [Hsome _]%client_for_resource_exact; [|done..]. simpl in Hsome. by rewrite Hnone in Hsome; destruct Hsome.
  - intros Hhm. simpl. destruct Hlg as [Hp1 Hp2 Hp3 Hp4 Hp5]; [|by constructor].
    intros Hh. apply Hhm; [|done]. by eapply half_made_last; [|exact Hh]; lia.
Qed.

(** C11: Every command of the engine is acknowledged once, with what became of it: the writer takes the
    first command that waits, does not panic, and unless the queue of the acknowledgements is full,
    answers that it is done, and then the window has the size or the focus, and the client reads
    exactly the messages that say so, is asked to close, or is cut off where it cannot be asked;
    or that it is refused, and then nothing changed and the client is told nothing. *)
Theorem commands_acknowledged fe client w :
  frontend_ok fe → fe_workers fe !! client = Some w →
  ∃ r fe', write_control acknowledge client w fe = Some (r, fe') ∧ control_done acknowledge client w fe r fe' ∧
    confined (wk_namespace w) client (λ id, owns_new_resource (range_of client) (xid_raw id)) (fe_server fe) (fe_server fe').
Proof.
  intros Hfe Hw. destruct (control_ends acknowledge client w (wo_numbered _ _ _ (fo_workers _ Hfe _ _ Hw)) fe Hfe) as (r & fe' & E & _ & Hwi & H).
  exists r, fe'. split_and!; [done..|apply Hwi].
Qed.
End lives.
#[export] Instance event_ok_dec ev : Decision (event_ok ev).
Proof. destruct ev; simpl; apply _. Defined.

(** ** Two clients *)

(** A keyboard without keys, a render device that opens descriptor 3, an observer that looks away. *)
Notation example_step := (front_step (KS := unit) 8 tt (λ _ _ _, (None, tt)) (λ _, 0) true (Some 3) (λ _ _ _, None) (λ _, Ok ()) (λ _, true)).
Notation example_run := (front_run (KS := unit) 8 tt (λ _ _ _, (None, tt)) (λ _, 0) true (Some 3) (λ _ _ _, None) (λ _, Ok ()) (λ _, true)).
Notation example_turn := (serve_turn (KS := unit) 8 true (Some 3) (λ _ _ _, None) (λ _, Ok ())).
Definition example_keymap : XkbKeymapSnapshot := mk_keymap rmlvo_default 8 255 [] [].
Definition example_start : XFrontend unit :=
  mk_frontend (mk_server runtime_new input_state_default example_keymap atom_table_new ∅) lease_state_default
    (route_registry_new false) 1 channel_new ∅.
Definition example_connect (namespace : Z) : XFrontendEvent :=
  EvConnect UnauthenticatedLocal (from_raw namespace) None
    (setup_request_bytes 0 [0; 0] (mk_setup_request LittleEndian 11 0 [] [])).
Definition example_window_request : X11ReceivedCoreRequest := mk_received 1 example_create_window [].
(** Two clients of two namespaces, the first of which makes a window. *)
Definition example_evs : list XFrontendEvent := [example_connect 1; example_connect 2; EvTurn 1 example_window_request].
Definition example_frontend : XFrontend unit := default example_start (example_run example_start example_evs).
(** [GetInputFocus] *)
Definition example_focus_request : X11ReceivedCoreRequest := mk_received 43 [43; 0; 1; 0] [].
Definition example_worker (client : Z) : XClientWorker :=
  default (worker_new LittleEndian (from_raw 1) (range_of 1)) (fe_workers example_frontend !! client).

Definition outputs_of (p : option (result XTurn X11SetupSocketError * XFrontend unit)) : option (list XClientOutput) :=
  p ← p; match p.1 with Ok turn => Some (tn_outputs turn) | Err _ => None end.

Lemma example_new : frontend_new topology_deterministic example_keymap false = Ok example_start.
Proof.
  unfold frontend_new, example_start. assert (with_output_topology topology_deterministic = Ok runtime_new) as -> by (vm_compute; reflexivity).
  reflexivity.
Qed.
Lemma example_evs_ok : Forall event_ok example_evs.
Proof. apply (bool_decide_unpack _). by vm_compute. Qed.
Lemma example_ran : example_run example_start example_evs = Some example_frontend.
Proof.
  assert (is_Some (example_run example_start example_evs)) as [fe E] by (apply (bool_decide_unpack _); vm_compute; exact I).
  unfold example_frontend. rewrite E. reflexivity.
Qed.
Lemma example_workers client : client = 1 ∨ client = 2 → fe_workers example_frontend !! client = Some (example_worker client).
Proof. by intros [->| ->]; vm_compute. Qed.
Lemma example_ok : frontend_ok example_frontend.
Proof.
  destruct (front_run_ok 8 tt (λ _ _ _, (None, tt)) (λ _, 0) true (Some 3) (λ _ _ _, None) (λ _, Ok ()) (λ _, true) example_start example_evs)
    as (fe & E & Hfe); [by eapply frontend_new_ok, example_new|apply example_evs_ok|]. rewrite example_ran in E.
  apply (inj Some) in E. exact (eq_ind_r frontend_ok Hfe E).
Qed.

Lemma frontend_never_panics_witness :
  ∃ fe, example_run example_start example_evs = Some fe ∧ frontend_ok fe.
Proof.
  apply (frontend_never_panics 8 tt (λ _ _ _, (None, tt)) (λ _, 0) true (Some 3) (λ _ _ _, None) (λ _, Ok ()) (λ _, true)
           topology_deterministic example_keymap false example_start example_evs);
    [exact example_new|exact example_evs_ok].
Defined.
Lemma requests_answered_witness :
  ∃ r fe', example_turn 1 example_focus_request (example_worker 1) example_frontend = Some (r, fe') ∧
    (∃ turn, r = Ok turn ∧ tn_outputs turn = [OutReply (ReplyGetInputFocus 2 root 1)]) ∧
    match r with Ok turn => turn_answers example_frontend (example_worker 1) [43; 0; 1; 0] turn | Err _ => True end.
Proof.
  destruct (requests_answered 8 tt (λ _ _ _, (None, tt)) (λ _, 0) true (Some 3) (λ _ _ _, None) (λ _, Ok ()) (λ _, true)
              topology_deterministic example_keymap false example_start example_evs example_frontend 1 (example_worker 1)
              example_focus_request example_new example_evs_ok example_ran (example_workers 1 (or_introl eq_refl)))
    as (r & fe' & E & Ha); [apply (bool_decide_unpack _); by vm_compute|].
  exists r, fe'. split; [exact E|]. split.
  - assert (outputs_of (example_turn 1 example_focus_request (example_worker 1) example_frontend) =
      Some [OutReply (ReplyGetInputFocus 2 root 1)]) as Ho by (vm_compute; reflexivity).
    rewrite E in Ho. destruct r as [turn|]; [|discriminate Ho]. exists turn. split; [reflexivity|]. by injection Ho.
  - destruct r; [apply Ha|exact I].
Defined.
Lemma turns_stay_in_namespace_witness :
  ∃ r fe', example_turn 2 example_focus_request (example_worker 2) example_frontend = Some (r, fe') ∧
    untouched (from_raw 1) (λ id, owns_new_resource (range_of 1) (xid_raw id)) (sv_runtime (fe_server example_frontend))
      (sv_runtime (fe_server fe')).
Proof.
  assert (is_Some (example_turn 2 example_focus_request (example_worker 2) example_frontend)) as [[r fe'] E]
    by (apply (bool_decide_unpack _); vm_compute; exact I).
  exists r, fe'. split; [exact E|].
  apply (turns_stay_in_namespace 8 true (Some 3) (λ _ _ _, None) (λ _, Ok ())
           example_frontend 2 (example_worker 2) example_focus_request r fe' 1 (from_raw 1));
    [exact example_ok|exact (example_workers 2 (or_intror eq_refl))|apply (bool_decide_unpack _); by vm_compute|exact E|done|by vm_compute].
Defined.
Lemma disconnect_forgets_witness :
  is_Some (rt_windows (sv_runtime (fe_server example_frontend)) !! x_resource_id 2097153 1) ∧
  ∃ r fe', disconnect (λ _, Ok ()) 1 (example_worker 1) example_frontend = Some (r, fe') ∧ forgotten 1 fe' ∧
    range_let_go (from_raw 1) 1 (fe_server example_frontend) (fe_server fe').
Proof.
  split; [vm_compute; by eexists|].
  destruct (disconnect_forgets 8 tt (λ _ _ _, (None, tt)) (λ _, 0) true (λ _ _ _, None) (λ _, Ok ()) example_frontend 1 (example_worker 1) example_ok
              (example_workers 1 (or_introl eq_refl))) as (r & fe' & E & Hf & _ & Hg); [by vm_compute|].
  exists r, fe'. split; [exact E|]. split; [exact Hf|]. apply Hg. intros E1. discriminate E1.
Defined.

(** The engine gives the first client's window a size. *)
Definition example_command : XAuthorityControlCommand :=
  ConfigureSurface (from_raw 5) (surface_id 2097153 1) (mk_size 640 480).
Definition example_control : XFrontendEvent := EvRoute (RoControl (mk_client_control 1 example_command)).
Definition example_commanded : XFrontend unit := default example_start (example_step example_frontend example_control).
Definition control_view (p : option (result (option (XControlWrite * XAuthorityClientControlAck) * XClientWorker) X11SetupSocketError * XFrontend unit)) :
    option (list XNote * XAuthorityControlOutcome) :=
  match p with
  | Some (Ok (Some (CtlRecords records, ack), _), _) => Some (message_note LittleEndian <$> records, ca_outcome ack)
  | _ => None
  end.
Lemma example_commanded_ok : frontend_ok example_commanded.
Proof.
  destruct (front_step_ok 8 tt (λ _ _ _, (None, tt)) (λ _, 0) true (Some 3) (λ _ _ _, None) (λ _, Ok ()) (λ _, true) example_frontend example_control)
    as (fe & E & Hfe); [exact example_ok|exact I|]. unfold example_commanded. rewrite E. exact Hfe.
Qed.
Lemma commands_acknowledged_witness :
  (∃ r fe', write_control (λ _, true) 1 (example_worker 1) example_commanded = Some (r, fe') ∧
     control_done (λ _, true) 1 (example_worker 1) example_commanded r fe') ∧
  control_view (write_control (λ _, true) 1 (example_worker 1) example_commanded) =
    Some ([NoteSize 2097153 640 480; NoteExposed 2097153 640 480], ControlDelivered).
Proof.
  split; [|vm_compute; reflexivity].
  destruct (commands_acknowledged (λ _, true) example_commanded 1 (example_worker 1) example_commanded_ok) as (r & fe' & E & H & _);
    [vm_compute; reflexivity|]. exists r, fe'. split; [exact E|exact H].
Defined.

(** ** Where clients reach further than they should *)

Definition example_view (p : option (result XTurn X11SetupSocketError * XFrontend unit)) :
    option (result (list XClientOutput * option (Z * XClientEvent)) X11SetupSocketError) :=
  p ← p; Some (let? turn := p.1 in Ok (tn_outputs turn, tn_forwarded turn)).
Definition example_words (head words : list Z) : X11ReceivedCoreRequest :=
  mk_received (default 0 (list.head head)) (head ++ (words ≫= push_u32 LittleEndian)) [].
Definition example_window : XResourceId := x_resource_id 2097153 1.
(** [FenceFromFD] without a descriptor. *)
Definition example_fence : X11ReceivedCoreRequest := example_words [137; 4; 4; 0] [2097153; 2097154; 0].
(** [ConvertSelection] for the window of the first client, and [SetSelectionOwner]. *)
Definition example_convert : X11ReceivedCoreRequest := example_words [24; 0; 6; 0] [2097153; 1; 31; 0; 0].
Definition example_own (owner : Z) : X11ReceivedCoreRequest := example_words [22; 0; 4; 0] [owner; 1; 0].
Definition example_after (events : list XFrontendEvent) : XFrontend unit := default example_start (example_run example_frontend events).
Definition example_owner (fe : XFrontend unit) : option XResourceId :=
  record ← current_owner_for_selection (rt_selections (sv_runtime (fe_server fe))) 1; so_owner record.

(** A request that came without its descriptors ends the connection with an error that is not put down
    to the client, so that the whole frontend stops with it. *)
Lemma missing_descriptor_stops_frontend :
  let e := socket_error "X11 request required more file descriptors" in
  example_view (example_turn 1 example_fence (example_worker 1) example_frontend) = Some (Err e) ∧ reaped (Err e) = Err e.
Proof. split; vm_compute; reflexivity. Qed.
(** A client sends a client of another namespace a notice, by converting a selection for its window. *)
Lemma notice_crosses_namespaces :
  wk_namespace (example_worker 1) = from_raw 1 ∧ wk_namespace (example_worker 2) = from_raw 2 ∧
  example_view (example_turn 2 example_convert (example_worker 2) example_frontend) =
    Some (Ok ([], Some (1, EventSelectionNotify 1 0 example_window 1 31 0))).
Proof. split_and!; vm_compute; reflexivity. Qed.
(** With eight of them the other client's queue is full, and the ninth stops the frontend. *)
Lemma notices_stop_frontend :
  let e := socket_error "failed to route X11 protocol event" in
  let fe := example_after (replicate 8 (EvTurn 2 example_convert)) in
  example_view (example_turn 2 example_convert (default (example_worker 2) (fe_workers fe !! 2)) fe) = Some (Err e) ∧
  reaped (Err e) = Err e.
Proof. split; vm_compute; reflexivity. Qed.
(** A client takes a selection away from the owner in another namespace, by giving it up. *)
Lemma selection_cleared_across_namespaces :
  let fe := example_after [EvTurn 1 (example_own 2097153)] in
  let fe' := example_after [EvTurn 1 (example_own 2097153); EvTurn 2 (example_own 0)] in
  example_owner fe = Some example_window ∧ example_owner fe' = None ∧
  example_view (example_turn 2 (example_own 0) (example_worker 2) fe) =
    Some (Ok ([], Some (1, EventSelectionClear 1 0 example_window 1))).
Proof. split_and!; vm_compute; reflexivity. Qed.
(** A client that holds the pointer while it is over a window of another client of its namespace is
    sent the event there, but its writer looks the other client's surface up among its own: input ends. *)
Definition example_grabbed : XFrontend unit :=
  default example_start (example_run example_start
    [example_connect 1; example_connect 1; EvTurn 1 example_window_request;
     EvRoute (RoGrab (IGrabPointer (from_raw 1) (mk_active 2 (x_resource_id 4194305 1) true 1 1 64)));
     EvRoute (RoEngineInput (mk_routed_input (Input.mk_routed_request 1 (from_raw 1) (from_raw 1) 5 (surface_id 2097153 1)
       (mk_point 0 0) (mk_point 0 0) Input.PointerMotion) None))]).
Lemma pointer_grab_stops_input :
  from_option (λ w, from_option (λ p, Some p.1) None (write_input 8 2 w example_grabbed)) None (fe_workers example_grabbed !! 2) =
    Some (Err (socket_error "X11 pointer target surface is unknown")).
Proof. vm_compute. reflexivity. Qed.
