(* ===== verification/LiveSources.v ===== *)
(** * Buffers and fences of the live renderer
    ([sophia-renderer-live/src/buffer_registry.rs])

    The registry of single-use DMA-BUFs, the lifetimes of CPU buffers, and the registry of reusable
    DMA-BUF sources with the presentations that are in flight.  A file descriptor is a number; what
    the operating system and the fence library answer is the argument [os] of the operations that
    ask.  [None] is a panic: a failed [expect] or an overflow. *)

From S2P Require Import Prelude Ids Geometry Packets.
Local Open Scope Z_scope.

Definition LIVE_PRESENTATION_REGISTRY_CAPACITY : Z := 256.

Inductive LiveBufferState : Type := WaitingForAcquireFence | BufferReady | BufferSubmitted.
#[export] Instance live_buffer_state_eq_dec : EqDecision LiveBufferState.
Proof. solve_decision. Defined.

Record LiveDmaBufRegistration : Type := mk_dma_registration {
  dr_descriptor : DmaBufDescriptor; dr_plane_fds : list Z; dr_acquire_fence : option Z; dr_state : LiveBufferState;
}.
Inductive LiveBufferRegistryError : Type :=
| InvalidDescriptor (error : DmaBufDescriptorError)
| PlaneFdCountMismatch | DuplicateHandle | UnknownHandle | AcquireFencePending | AlreadySubmitted
| FenceQueryFailed | FdCloneFailed | DuplicateFence | UnknownFence | SourceInUse | DuplicatePresentation
| UnknownPresentation | CapacityExceeded | SourceReleasePending | FenceReleasePending.

(** The answers to [OwnedFd::try_clone], [sophia_xshmfence::query] and [trigger]. *)
Record LiveFdOs : Type := mk_fd_os {
  os_try_clone : Z → option Z; os_query : Z → option bool; os_trigger : Z → bool;
}.

(** ** Single-use buffers *)

Notation LiveBufferRegistry := (gmap BufferHandle LiveDmaBufRegistration) (only parsing).

Definition set_dr_state (b : LiveDmaBufRegistration) (s : LiveBufferState) : LiveDmaBufRegistration :=
  mk_dma_registration (dr_descriptor b) (dr_plane_fds b) (dr_acquire_fence b) s.
Definition register_buffer (r : LiveBufferRegistry) (descriptor : DmaBufDescriptor) (plane_fds : list Z)
    (acquire_fence : option Z) : result LiveBufferRegistry LiveBufferRegistryError :=
  let? _ := map_err InvalidDescriptor (dma_buf_validate descriptor) in
  ensure! (Z.of_nat (length plane_fds) = db_plane_count descriptor) else PlaneFdCountMismatch in
  ensure! (r !! db_handle descriptor = None) else DuplicateHandle in
  let state := if acquire_fence then WaitingForAcquireFence else BufferReady in
  Ok (<[db_handle descriptor := mk_dma_registration descriptor plane_fds acquire_fence state]> r).
Definition signal_acquire_fence (r : LiveBufferRegistry) (handle : BufferHandle) :
    result LiveBufferRegistry LiveBufferRegistryError :=
  let? buffer := ok_or (r !! handle) UnknownHandle in
  let state := if decide (dr_state buffer = WaitingForAcquireFence) then BufferReady else dr_state buffer in
  Ok (<[handle := mk_dma_registration (dr_descriptor buffer) (dr_plane_fds buffer) None state]> r).
Definition poll_buffer_fence (os : LiveFdOs) (r : LiveBufferRegistry) (handle : BufferHandle) :
    result (bool * LiveBufferRegistry) LiveBufferRegistryError :=
  let? buffer := ok_or (r !! handle) UnknownHandle in
  if decide (dr_state buffer ≠ WaitingForAcquireFence) then Ok (true, r)
  else
    let? fence := ok_or (dr_acquire_fence buffer) FenceQueryFailed in
    let? signaled := ok_or (os_query os fence) FenceQueryFailed in
    if (signaled : bool) then let? r := signal_acquire_fence r handle in Ok (true, r) else Ok (false, r).
Definition submit_buffer (r : LiveBufferRegistry) (handle : BufferHandle) :
    result LiveBufferRegistry LiveBufferRegistryError :=
  let? buffer := ok_or (r !! handle) UnknownHandle in
  match dr_state buffer with
  | WaitingForAcquireFence => Err AcquireFencePending
  | BufferReady => Ok (<[handle := set_dr_state buffer BufferSubmitted]> r)
  | BufferSubmitted => Err AlreadySubmitted
  end.
Definition retire_buffer (r : LiveBufferRegistry) (handle : BufferHandle) : option BufferSource * LiveBufferRegistry :=
  if decide (dr_state <$> r !! handle = Some BufferSubmitted)
  then (Some (DmaBuf (raw handle)), delete handle r) else (None, r).
Definition reject_buffer (r : LiveBufferRegistry) (handle : BufferHandle) : option BufferSource * LiveBufferRegistry :=
  ((λ _, DmaBuf (raw handle)) <$> r !! handle, delete handle r).
Definition disconnect_buffers (r : LiveBufferRegistry) : list BufferSource * LiveBufferRegistry :=
  foldl (λ acc handle, let rejected := reject_buffer acc.2 handle in (acc.1 ++ option_list rejected.1, rejected.2))
    ([], r) (btree_keys r).

(** ** The lifetimes of CPU buffers *)

Record PendingCpuPresentation : Type := mk_pending_cpu { pc_handle : Z; pc_previous_committed_handle : option Z }.
Record LiveCpuBufferLifetimeRegistry : Type := mk_lifetimes {
  lt_committed : gmap SurfaceId Z; lt_pending : gmap SurfaceId PendingCpuPresentation;
}.
Definition lifetimes_new : LiveCpuBufferLifetimeRegistry := mk_lifetimes ∅ ∅.

Definition submit_cpu (r : LiveCpuBufferLifetimeRegistry) (surface : SurfaceId) (handle : Z) :
    option BufferSource * LiveCpuBufferLifetimeRegistry :=
  ((λ pending, CpuBuffer (pc_handle pending)) <$> lt_pending r !! surface,
   mk_lifetimes (lt_committed r) (<[surface := mk_pending_cpu handle (lt_committed r !! surface)]> (lt_pending r))).
Definition retire_cpu (r : LiveCpuBufferLifetimeRegistry) (surface : SurfaceId) (handle : Z) :
    list BufferSource * LiveCpuBufferLifetimeRegistry :=
  match lt_pending r !! surface with
  | None => ([], r)
  | Some pending =>
      if decide (pc_handle pending ≠ handle) then ([], r)
      else
        let r := mk_lifetimes (<[surface := handle]> (lt_committed r)) (delete surface (lt_pending r)) in
        match pc_previous_committed_handle pending with
        | Some previous => (if decide (previous ≠ handle) then [CpuBuffer previous] else [], r)
        | None => ([], r)
        end
  end.
Definition reject_cpu (r : LiveCpuBufferLifetimeRegistry) (surface : SurfaceId) (handle : Z) :
    option BufferSource * LiveCpuBufferLifetimeRegistry :=
  if decide (pc_handle <$> lt_pending r !! surface = Some handle)
  then (Some (CpuBuffer handle), mk_lifetimes (lt_committed r) (delete surface (lt_pending r)))
  else (None, r).
(** [sort_unstable] and [dedup] *)
Definition sorted_once (l : list Z) : list Z := btree_elements (list_to_set l : gset Z).
Definition disconnect_cpu (r : LiveCpuBufferLifetimeRegistry) : list BufferSource * LiveCpuBufferLifetimeRegistry :=
  (CpuBuffer <$> sorted_once ((pc_handle <$> btree_values (lt_pending r)) ++ btree_values (lt_committed r)),
   lifetimes_new).

(** ** Sources and presentations *)

Record LiveDmaBufSourceRegistration : Type := mk_source {
  ls_descriptor : DmaBufDescriptor; ls_plane_fds : list Z; ls_references : Z; ls_release_pending : bool;
}.
Record LiveFenceSourceRegistration : Type := mk_fence {
  lf_fd : Z; lf_references : Z; lf_release_pending : bool;
}.
Record LivePresentRegistration : Type := mk_present {
  lp_source : BufferHandle; lp_acquire_fence : option FenceHandle; lp_idle_fence : option FenceHandle;
  lp_plane_fds : list Z; lp_acquire_fence_fd : option Z; lp_idle_fence_fd : option Z; lp_state : LiveBufferState;
}.
Record LivePresentationRegistryLimits : Type := mk_limits { lim_sources : Z; lim_fences : Z; lim_presentations : Z }.
Definition limits_default : LivePresentationRegistryLimits :=
  mk_limits LIVE_PRESENTATION_REGISTRY_CAPACITY LIVE_PRESENTATION_REGISTRY_CAPACITY LIVE_PRESENTATION_REGISTRY_CAPACITY.
Inductive LiveResourceReleaseStatus : Type := ReleaseUnknown | ReleaseDeferred | ReleaseReleased.
Inductive LiveIdleFenceStatus : Type := IdleNotRequested | IdleTriggered | IdleTriggerFailed.
Record LivePresentationRetirement : Type := mk_present_retirement {
  pt_transaction : TransactionId; pt_source : BufferSource; pt_idle_fence : LiveIdleFenceStatus;
  pt_released_source : bool; pt_released_fences : list FenceHandle;
}.
Record LivePresentationDisconnectReport : Type := mk_disconnect_report {
  dc_retired_presentations : Z; dc_triggered_idle_fences : Z; dc_failed_idle_fences : Z;
  dc_released_sources : list BufferSource; dc_released_fences : list FenceHandle;
}.
Record LiveDmaBufPresentationRegistry : Type := mk_presentations {
  lr_sources : gmap BufferHandle LiveDmaBufSourceRegistration;
  lr_fences : gmap FenceHandle LiveFenceSourceRegistration;
  lr_presentations : gmap TransactionId LivePresentRegistration;
  lr_limits : LivePresentationRegistryLimits;
}.
Definition with_limits (limits : LivePresentationRegistryLimits) : LiveDmaBufPresentationRegistry :=
  mk_presentations ∅ ∅ ∅ limits.

Definition set_sources (r : LiveDmaBufPresentationRegistry) m : LiveDmaBufPresentationRegistry :=
  mk_presentations m (lr_fences r) (lr_presentations r) (lr_limits r).
Definition set_fences (r : LiveDmaBufPresentationRegistry) m : LiveDmaBufPresentationRegistry :=
  mk_presentations (lr_sources r) m (lr_presentations r) (lr_limits r).
Definition set_presentations (r : LiveDmaBufPresentationRegistry) m : LiveDmaBufPresentationRegistry :=
  mk_presentations (lr_sources r) (lr_fences r) m (lr_limits r).

Definition register_source (r : LiveDmaBufPresentationRegistry) (descriptor : DmaBufDescriptor) (plane_fds : list Z) :
    result LiveDmaBufPresentationRegistry LiveBufferRegistryError :=
  let? _ := map_err InvalidDescriptor (dma_buf_validate descriptor) in
  ensure! (Z.of_nat (length plane_fds) = db_plane_count descriptor) else PlaneFdCountMismatch in
  ensure! (lr_sources r !! db_handle descriptor = None) else DuplicateHandle in
  ensure! (Z.of_nat (size (lr_sources r)) < lim_sources (lr_limits r)) else CapacityExceeded in
  Ok (set_sources r (<[db_handle descriptor := mk_source descriptor plane_fds 0 false]> (lr_sources r))).
Definition register_fence (r : LiveDmaBufPresentationRegistry) (fence : FenceHandle) (fd : Z) :
    result LiveDmaBufPresentationRegistry LiveBufferRegistryError :=
  ensure! (lr_fences r !! fence = None) else DuplicateFence in
  ensure! (Z.of_nat (size (lr_fences r)) < lim_fences (lr_limits r)) else CapacityExceeded in
  Ok (set_fences r (<[fence := mk_fence fd 0 false]> (lr_fences r))).

(** [option.map(f).transpose()?] *)
Definition opt_try {A B E} (f : A → result B E) (o : option A) : result (option B) E :=
  match o with Some a => let? b := f a in Ok (Some b) | None => Ok None end.
Definition clone_fence (os : LiveFdOs) (r : LiveDmaBufPresentationRegistry) (fence : FenceHandle) :
    result Z LiveBufferRegistryError :=
  let? fence := ok_or (lr_fences r !! fence) UnknownFence in
  ensure! (lf_release_pending fence = false) else FenceReleasePending in
  ok_or (os_try_clone os (lf_fd fence)) FdCloneFailed.
(** [references += 1] of a registration that is there. *)
Definition reference_source (m : gmap BufferHandle LiveDmaBufSourceRegistration) (handle : BufferHandle) :
    option (gmap BufferHandle LiveDmaBufSourceRegistration) :=
  s ← m !! handle; n ← checked_add usize_MAX (ls_references s) 1;
  Some (<[handle := mk_source (ls_descriptor s) (ls_plane_fds s) n (ls_release_pending s)]> m).
Definition reference_fence (m : gmap FenceHandle LiveFenceSourceRegistration) (fence : FenceHandle) :
    option (gmap FenceHandle LiveFenceSourceRegistration) :=
  f ← m !! fence; n ← checked_add usize_MAX (lf_references f) 1;
  Some (<[fence := mk_fence (lf_fd f) n (lf_release_pending f)]> m).
(** [[acquire_fence, idle_fence].into_iter().flatten()] *)
Definition present_fences (acquire_fence idle_fence : option FenceHandle) : list FenceHandle :=
  option_list acquire_fence ++ option_list idle_fence.

Definition begin_checks (os : LiveFdOs) (r : LiveDmaBufPresentationRegistry) (transaction : TransactionId)
    (handle : BufferHandle) (acquire_fence idle_fence : option FenceHandle) :
    result LivePresentRegistration LiveBufferRegistryError :=
  ensure! (lr_presentations r !! transaction = None) else DuplicatePresentation in
  ensure! (Z.of_nat (size (lr_presentations r)) < lim_presentations (lr_limits r)) else CapacityExceeded in
  let? source := ok_or (lr_sources r !! handle) UnknownHandle in
  ensure! (ls_release_pending source = false) else SourceReleasePending in
  let? plane_fds := try_map (λ fd, ok_or (os_try_clone os fd) FdCloneFailed) (ls_plane_fds source) in
  let? acquire_fence_fd := opt_try (clone_fence os r) acquire_fence in
  let? idle_fence_fd := opt_try (clone_fence os r) idle_fence in
  let? acquire_ready := opt_try (λ fd, ok_or (os_query os fd) FenceQueryFailed) acquire_fence_fd in
  let acquire_ready := default true acquire_ready in
  Ok (mk_present handle acquire_fence idle_fence plane_fds (if acquire_ready then None else acquire_fence_fd)
        idle_fence_fd (if acquire_ready then BufferReady else WaitingForAcquireFence)).
Definition begin_present (os : LiveFdOs) (r : LiveDmaBufPresentationRegistry) (transaction : TransactionId)
    (handle : BufferHandle) (acquire_fence idle_fence : option FenceHandle) :
    option (result LiveDmaBufPresentationRegistry LiveBufferRegistryError) :=
  match begin_checks os r transaction handle acquire_fence idle_fence with
  | Err e => Some (Err e)
  | Ok presentation =>
      sources ← reference_source (lr_sources r) handle;
      fences ← foldl (λ m fence, m ≫= λ m, reference_fence m fence) (Some (lr_fences r))
                 (present_fences acquire_fence idle_fence);
      Some (Ok (mk_presentations sources fences (<[transaction := presentation]> (lr_presentations r)) (lr_limits r)))
  end.

Definition poll_acquire_fence (os : LiveFdOs) (r : LiveDmaBufPresentationRegistry) (transaction : TransactionId) :
    result (bool * LiveDmaBufPresentationRegistry) LiveBufferRegistryError :=
  let? p := ok_or (lr_presentations r !! transaction) UnknownPresentation in
  if decide (lp_state p ≠ WaitingForAcquireFence) then Ok (true, r)
  else
    let? fd := ok_or (lp_acquire_fence_fd p) FenceQueryFailed in
    let? signaled := ok_or (os_query os fd) FenceQueryFailed in
    Ok (signaled,
        if (signaled : bool)
        then set_presentations r (<[transaction := mk_present (lp_source p) (lp_acquire_fence p) (lp_idle_fence p)
               (lp_plane_fds p) None (lp_idle_fence_fd p) BufferReady]> (lr_presentations r))
        else r).
Definition submit_present (r : LiveDmaBufPresentationRegistry) (transaction : TransactionId) :
    result LiveDmaBufPresentationRegistry LiveBufferRegistryError :=
  let? p := ok_or (lr_presentations r !! transaction) UnknownPresentation in
  match lp_state p with
  | WaitingForAcquireFence => Err AcquireFencePending
  | BufferReady =>
      Ok (set_presentations r (<[transaction := mk_present (lp_source p) (lp_acquire_fence p) (lp_idle_fence p)
            (lp_plane_fds p) (lp_acquire_fence_fd p) (lp_idle_fence_fd p) BufferSubmitted]> (lr_presentations r)))
  | BufferSubmitted => Err AlreadySubmitted
  end.

(** One reference less; the registration goes with its last one when its release is pending. *)
Definition release_source_reference (m : gmap BufferHandle LiveDmaBufSourceRegistration) (handle : BufferHandle) :
    option (bool * gmap BufferHandle LiveDmaBufSourceRegistration) :=
  s ← m !! handle;
  let references := saturating_sub (ls_references s) 1 in
  Some (if decide (references = 0 ∧ ls_release_pending s = true) then (true, delete handle m)
        else (false, <[handle := mk_source (ls_descriptor s) (ls_plane_fds s) references (ls_release_pending s)]> m)).
Definition release_fence_reference (acc : list FenceHandle * gmap FenceHandle LiveFenceSourceRegistration)
    (fence : FenceHandle) : list FenceHandle * gmap FenceHandle LiveFenceSourceRegistration :=
  let '(released, m) := acc in
  match m !! fence with
  | None => acc
  | Some f =>
      let references := saturating_sub (lf_references f) 1 in
      if decide (references = 0 ∧ lf_release_pending f = true) then (released ++ [fence], delete fence m)
      else (released, <[fence := mk_fence (lf_fd f) references (lf_release_pending f)]> m)
  end.
Definition finish_present (os : LiveFdOs) (r : LiveDmaBufPresentationRegistry) (transaction : TransactionId) :
    option (LivePresentationRetirement * LiveDmaBufPresentationRegistry) :=
  p ← lr_presentations r !! transaction;
  let idle_fence := match lp_idle_fence_fd p with
                    | None => IdleNotRequested
                    | Some fd => if os_trigger os fd then IdleTriggered else IdleTriggerFailed
                    end in
  released ← release_source_reference (lr_sources r) (lp_source p);
  let fences := foldl release_fence_reference ([], lr_fences r) (present_fences (lp_acquire_fence p) (lp_idle_fence p)) in
  Some (mk_present_retirement transaction (DmaBuf (raw (lp_source p))) idle_fence released.1 fences.1,
        mk_presentations released.2 fences.2 (delete transaction (lr_presentations r)) (lr_limits r)).

(** [condition.then(|| self.finish_present(transaction))] *)
Definition finish_if (os : LiveFdOs) (condition : bool) (r : LiveDmaBufPresentationRegistry) (transaction : TransactionId) :
    option (option LivePresentationRetirement * LiveDmaBufPresentationRegistry) :=
  if condition then finished ← finish_present os r transaction; Some (Some finished.1, finished.2) else Some (None, r).
Definition retire_page_flip (os : LiveFdOs) (r : LiveDmaBufPresentationRegistry) (transaction : TransactionId) :=
  finish_if os (bool_decide (lp_state <$> lr_presentations r !! transaction = Some BufferSubmitted)) r transaction.
Definition reject_present (os : LiveFdOs) (r : LiveDmaBufPresentationRegistry) (transaction : TransactionId) :=
  finish_if os (bool_decide (is_Some (lr_presentations r !! transaction))) r transaction.

Definition remove_source (r : LiveDmaBufPresentationRegistry) (handle : BufferHandle) :
    LiveResourceReleaseStatus * LiveDmaBufPresentationRegistry :=
  match lr_sources r !! handle with
  | None => (ReleaseUnknown, r)
  | Some s =>
      if decide (0 < ls_references s)
      then (ReleaseDeferred, set_sources r
              (<[handle := mk_source (ls_descriptor s) (ls_plane_fds s) (ls_references s) true]> (lr_sources r)))
      else (ReleaseReleased, set_sources r (delete handle (lr_sources r)))
  end.
Definition remove_fence (r : LiveDmaBufPresentationRegistry) (fence : FenceHandle) :
    LiveResourceReleaseStatus * LiveDmaBufPresentationRegistry :=
  match lr_fences r !! fence with
  | None => (ReleaseUnknown, r)
  | Some f =>
      if decide (0 < lf_references f)
      then (ReleaseDeferred, set_fences r (<[fence := mk_fence (lf_fd f) (lf_references f) true]> (lr_fences r)))
      else (ReleaseReleased, set_fences r (delete fence (lr_fences r)))
  end.

Definition source_descriptor (r : LiveDmaBufPresentationRegistry) (handle : BufferHandle) : option DmaBufDescriptor :=
  ls_descriptor <$> lr_sources r !! handle.
Definition try_clone_presentation_plane_fd (os : LiveFdOs) (r : LiveDmaBufPresentationRegistry)
    (transaction : TransactionId) (plane : nat) : result Z LiveBufferRegistryError :=
  let? p := ok_or (lr_presentations r !! transaction) UnknownPresentation in
  let? fd := ok_or (lp_plane_fds p !! plane) PlaneFdCountMismatch in
  ok_or (os_try_clone os fd) FdCloneFailed.
Definition present_state (r : LiveDmaBufPresentationRegistry) (transaction : TransactionId) : option LiveBufferState :=
  lp_state <$> lr_presentations r !! transaction.
Definition source_for_presentation (r : LiveDmaBufPresentationRegistry) (transaction : TransactionId) : option BufferHandle :=
  lp_source <$> lr_presentations r !! transaction.

Definition count_retirement (report : LivePresentationDisconnectReport) (t : LivePresentationRetirement) :
    LivePresentationDisconnectReport :=
  mk_disconnect_report (dc_retired_presentations report + 1)
    (dc_triggered_idle_fences report + match pt_idle_fence t with IdleTriggered => 1 | _ => 0 end)
    (dc_failed_idle_fences report + match pt_idle_fence t with IdleTriggerFailed => 1 | _ => 0 end)
    (dc_released_sources report ++ if pt_released_source t then [pt_source t] else [])
    (dc_released_fences report ++ pt_released_fences t).
Definition disconnect_step (os : LiveFdOs) (acc : option (LivePresentationDisconnectReport * LiveDmaBufPresentationRegistry))
    (transaction : TransactionId) : option (LivePresentationDisconnectReport * LiveDmaBufPresentationRegistry) :=
  '(report, r) ← acc;
  finished ← finish_present os r transaction;
  Some (count_retirement report finished.1, finished.2).
Definition disconnect_presentations (os : LiveFdOs) (r : LiveDmaBufPresentationRegistry) :
    option (LivePresentationDisconnectReport * LiveDmaBufPresentationRegistry) :=
  '(report, r) ← foldl (disconnect_step os) (Some (mk_disconnect_report 0 0 0 [] [], r)) (btree_keys (lr_presentations r));
  Some (mk_disconnect_report (dc_retired_presentations report) (dc_triggered_idle_fences report)
          (dc_failed_idle_fences report)
          (dc_released_sources report ++ ((λ handle, DmaBuf (raw handle)) <$> btree_keys (lr_sources r)))
          (dc_released_fences report ++ btree_keys (lr_fences r)),
        mk_presentations ∅ ∅ (lr_presentations r) (lr_limits r)).

(** ** Counting references *)

Section counting.
Context {K V : Type} `{Countable K, !BTreeKey K} (P : V → Prop) `{!∀ v, Decision (P v)}.
Implicit Types m : gmap K V.

Lemma count_values_remove m k v : m !! k = Some v →
  count_values P (delete k m) = count_values P m - (if decide (P v) then 1 else 0).
Proof.
  intros Hk. rewrite <-(insert_delete_id m k v Hk) at 2. rewrite count_values_fresh by apply lookup_delete_eq. lia.
Qed.
Lemma count_values_at_most m : count_values P m ≤ Z.of_nat (size m).
Proof.
  unfold count_values. rewrite <-length_btree_entries. pose proof (length_filter P (btree_values m)) as Hl.
  unfold btree_values in *. rewrite length_fmap in Hl. lia.
Qed.
Lemma count_values_pos m k v : m !! k = Some v → P v → 0 < count_values P m.
Proof.
  intros Hk HP. pose proof (count_values_remove m k v Hk) as H1. rewrite decide_True in H1 by done.
  pose proof (count_values_nonneg P (delete k m)). lia.
Qed.
Lemma count_values_witness m : 0 < count_values P m → ∃ k v, m !! k = Some v ∧ P v.
Proof.
  intros Hc. unfold count_values in Hc. destruct (filter P (btree_values m)) as [|v l] eqn:E; [simpl in Hc; lia|].
  assert (v ∈ filter P (btree_values m)) as [HP [k Hk]%elem_of_btree_values]%list_elem_of_filter by (rewrite E; left).
  eauto.
Qed.
(** Changing a value in a way [P] does not see. *)
Lemma count_values_update m k v0 v : m !! k = Some v0 → (P v ↔ P v0) → count_values P (<[k := v]> m) = count_values P m.
Proof. intros Hk HP. pose proof (count_values_replace P m k v0 v Hk). destruct (decide (P v)), (decide (P v0)); tauto || lia. Qed.
End counting.

(** How often [x] occurs in [l]. *)
Definition occurrences {A} `{EqDecision A} (x : A) (l : list A) : Z := Z.of_nat (length (filter (x =.) l)).
Lemma occurrences_cons {A} `{EqDecision A} (x y : A) l :
  occurrences x (y :: l) = (if decide (x = y) then 1 else 0) + occurrences x l.
Proof. unfold occurrences. rewrite filter_cons. case_decide; simpl; lia. Qed.
Lemma occurrences_app {A} `{EqDecision A} (x : A) l k : occurrences x (l ++ k) = occurrences x l + occurrences x k.
Proof. unfold occurrences. rewrite filter_app, length_app. lia. Qed.
Lemma occurrences_in {A} `{EqDecision A} (x : A) l : x ∈ l ↔ 0 < occurrences x l.
Proof.
  unfold occurrences. split.
  - intros Hx. assert (x ∈ filter (x =.) l) as Hf by by apply list_elem_of_filter.
    destruct (filter _ _); [by apply elem_of_nil in Hf|simpl; lia].
  - destruct (filter (x =.) l) as [|y k] eqn:E; [simpl; lia|]. intros _.
    assert (y ∈ filter (x =.) l) as [-> Hy]%list_elem_of_filter by (rewrite E; left). done.
Qed.

Definition source_uses (m : gmap TransactionId LivePresentRegistration) (handle : BufferHandle) : Z :=
  count_values (λ p, lp_source p = handle) m.
Definition fence_uses (m : gmap TransactionId LivePresentRegistration) (fence : FenceHandle) : Z :=
  count_values (λ p, lp_acquire_fence p = Some fence) m + count_values (λ p, lp_idle_fence p = Some fence) m.

(** Every reference is a presentation's, nothing a presentation uses is missing, and what is to be
    released is still in use. *)
Record presentations_ok (r : LiveDmaBufPresentationRegistry) : Prop := {
  po_sources : ∀ h s, lr_sources r !! h = Some s →
    ls_references s = source_uses (lr_presentations r) h ∧ (ls_release_pending s = true → 0 < ls_references s);
  po_fences : ∀ f s, lr_fences r !! f = Some s →
    lf_references s = fence_uses (lr_presentations r) f ∧ (lf_release_pending s = true → 0 < lf_references s);
  po_present : ∀ t p, lr_presentations r !! t = Some p →
    is_Some (lr_sources r !! lp_source p) ∧
    (∀ f, f ∈ present_fences (lp_acquire_fence p) (lp_idle_fence p) → is_Some (lr_fences r !! f)) ∧
    (lp_state p = WaitingForAcquireFence ↔ is_Some (lp_acquire_fence_fd p));
  po_limits : Z.of_nat (size (lr_sources r)) ≤ lim_sources (lr_limits r) ∧
    Z.of_nat (size (lr_fences r)) ≤ lim_fences (lr_limits r) ∧
    Z.of_nat (size (lr_presentations r)) ≤ lim_presentations (lr_limits r);
}.

Lemma fence_uses_fresh m t p f : m !! t = None →
  fence_uses (<[t := p]> m) f = fence_uses m f + occurrences f (present_fences (lp_acquire_fence p) (lp_idle_fence p)).
Proof.
  intros Ht. unfold fence_uses, present_fences. rewrite !count_values_fresh, occurrences_app by done.
  destruct (lp_acquire_fence p) as [a|], (lp_idle_fence p) as [i|]; simpl; rewrite ?occurrences_cons;
    unfold occurrences; simpl; repeat case_decide; simplify_eq; try lia; try (by destruct_and?); congruence.
Qed.
Lemma source_uses_fresh m t p h : m !! t = None →
  source_uses (<[t := p]> m) h = source_uses m h + (if decide (lp_source p = h) then 1 else 0).
Proof. intros Ht. unfold source_uses. by rewrite count_values_fresh. Qed.
Lemma uses_remove m t p : m !! t = Some p →
  (∀ h, source_uses m h = source_uses (delete t m) h + (if decide (lp_source p = h) then 1 else 0)) ∧
  (∀ f, fence_uses m f = fence_uses (delete t m) f + occurrences f (present_fences (lp_acquire_fence p) (lp_idle_fence p))).
Proof.
  intros Ht. rewrite <-(insert_delete_id m t p Ht). rewrite delete_insert_eq, (delete_id (delete t m)) by apply lookup_delete_eq.
  split; intros ?; [apply source_uses_fresh|apply fence_uses_fresh]; apply lookup_delete_eq.
Qed.
Lemma uses_nonneg m : (∀ h, 0 ≤ source_uses m h) ∧ (∀ f, 0 ≤ fence_uses m f).
Proof.
  unfold source_uses, fence_uses. split; intros ?; [apply count_values_nonneg|].
  apply Z.add_nonneg_nonneg; apply count_values_nonneg.
Qed.
Lemma uses_bound m : (∀ h, source_uses m h ≤ Z.of_nat (size m)) ∧ (∀ f, fence_uses m f ≤ 2 * Z.of_nat (size m)).
Proof.
  unfold source_uses, fence_uses. split; intros x; [apply count_values_at_most|].
  pose proof (count_values_at_most (λ p, lp_acquire_fence p = Some x) m).
  pose proof (count_values_at_most (λ p, lp_idle_fence p = Some x) m). lia.
Qed.
Lemma fence_uses_witness m f : 0 < fence_uses m f →
  ∃ t p, m !! t = Some p ∧ f ∈ present_fences (lp_acquire_fence p) (lp_idle_fence p).
Proof.
  unfold fence_uses. intros Hc.
  assert (0 < count_values (λ p, lp_acquire_fence p = Some f) m ∨ 0 < count_values (λ p, lp_idle_fence p = Some f) m)
    as [(t & p & Ht & Hp)%count_values_witness|(t & p & Ht & Hp)%count_values_witness] by lia;
    exists t, p; (split; [done|]); unfold present_fences; rewrite Hp; set_solver.
Qed.
(** A change of a presentation that keeps what it uses. *)
Lemma uses_update m t p0 p : m !! t = Some p0 → lp_source p = lp_source p0 →
  lp_acquire_fence p = lp_acquire_fence p0 → lp_idle_fence p = lp_idle_fence p0 →
  (∀ h, source_uses (<[t := p]> m) h = source_uses m h) ∧ (∀ f, fence_uses (<[t := p]> m) f = fence_uses m f).
Proof.
  intros Ht H1 H2 H3. unfold source_uses, fence_uses.
  split; intros x; [|f_equal]; (eapply count_values_update; [done|]); by rewrite ?H1, ?H2, ?H3.
Qed.

(** ** Taking and giving up references *)

Section references.
Context (uses : FenceHandle → Z).
Hypothesis uses_nonneg : ∀ f, 0 ≤ uses f.

(** [m] counts the uses beside the fences of [l] still to be visited. *)
Definition fences_count (m : gmap FenceHandle LiveFenceSourceRegistration) (n : FenceHandle → Z) : Prop :=
  ∀ f s, m !! f = Some s → lf_references s = n f ∧ (lf_release_pending s = true → 0 < lf_references s).

Lemma release_fences_count l out m :
  fences_count m (λ f, uses f + occurrences f l) → (∀ f, f ∈ l → is_Some (m !! f)) →
  ∃ released m', foldl release_fence_reference (out, m) l = (out ++ released, m') ∧ fences_count m' uses ∧
    NoDup released ∧ (∀ f, f ∈ released → is_Some (m !! f) ∧ uses f = 0) ∧
    (∀ f, is_Some (m' !! f) ↔ is_Some (m !! f) ∧ f ∉ released).
Proof.
  revert out m. induction l as [|g l IH]; intros out m Hm Hl; simpl.
  { exists [], m. rewrite app_nil_r. split_and!; [done| |constructor|set_solver|set_solver].
    intros f s Hf. destruct (Hm f s Hf). unfold occurrences in *. simpl in *. split; [lia|done]. }
  destruct (Hl g) as [s Hs]; [left|]. rewrite Hs. destruct (Hm g s Hs) as [Hr Hp].
  rewrite occurrences_cons, decide_True in Hr by done. pose proof (uses_nonneg g).
  assert (0 ≤ occurrences g l) by (unfold occurrences; lia).
  assert (saturating_sub (lf_references s) 1 = uses g + occurrences g l) as -> by (unfold saturating_sub; lia).
  case_decide as Hd; simpl.
  - assert (uses g = 0 ∧ occurrences g l = 0) as [Hu Ho] by lia.
    assert (g ∉ l) as Hg by (rewrite occurrences_in; lia).
    destruct (IH (out ++ [g]) (delete g m)) as (rel & m' & E & Hc & Hnd & Hrel & Hdom).
    + intros f s' Hf. apply lookup_delete_Some in Hf as [Hne Hf]. destruct (Hm f s' Hf) as [H1 H2].
      rewrite occurrences_cons, decide_False in H1 by done. split; [lia|done].
    + intros f Hf. rewrite lookup_delete_ne by (by intros ->). apply Hl. by right.
    + exists (g :: rel), m'. rewrite E, <-(assoc_L (++)). split_and!; [done|done| | |].
      * constructor; [|done]. intros [Hs' _]%Hrel. rewrite lookup_delete_eq in Hs'. by destruct Hs'.
      * intros f [->|Hf]%elem_of_cons; [by rewrite Hs; eauto|]. destruct (Hrel f Hf) as [[s' Hs'] ?].
        apply lookup_delete_Some in Hs' as [_ Hs']. eauto.
      * intros f. rewrite Hdom, elem_of_cons. destruct (decide (f = g)) as [->|Hne].
        -- rewrite lookup_delete_eq. split; [by intros [[] _]|naive_solver].
        -- rewrite lookup_delete_ne by done. naive_solver.
  - destruct (IH out (<[g := mk_fence (lf_fd s) (uses g + occurrences g l) (lf_release_pending s)]> m))
      as (rel & m' & E & Hc & Hnd & Hrel & Hdom).
    + intros f s' Hf. apply lookup_insert_Some in Hf as [[-> <-]|[Hne Hf]]; simpl.
      * split; [done|]. intros Hpend. apply not_and_l in Hd as [Hd|Hd]; [lia|done].
      * destruct (Hm f s' Hf) as [H1 H2]. rewrite occurrences_cons, decide_False in H1 by done. split; [lia|done].
    + intros f Hf. destruct (decide (f = g)) as [->|]; [rewrite lookup_insert_eq; eauto|].
      rewrite lookup_insert_ne by done. apply Hl. by right.
    + assert (∀ f, is_Some (<[g := mk_fence (lf_fd s) (uses g + occurrences g l) (lf_release_pending s)]> m !! f) ↔ is_Some (m !! f))
        as Hsame.
      { intros f. destruct (decide (f = g)) as [->|]; [rewrite lookup_insert_eq, Hs; naive_solver|by rewrite lookup_insert_ne]. }
      exists rel, m'. split_and!; [done|done|done|intros f Hf; rewrite <-Hsame; by apply Hrel|].
      intros f. rewrite <-Hsame. apply Hdom.
Qed.
End references.

Lemma reference_fences_count uses l m :
  fences_count m uses → (∀ f, f ∈ l → is_Some (m !! f)) → (∀ f, uses f + occurrences f l ≤ usize_MAX) →
  ∃ m', foldl (λ m fence, m ≫= λ m, reference_fence m fence) (Some m) l = Some m' ∧
    fences_count m' (λ f, uses f + occurrences f l) ∧ dom m' = dom m.
Proof.
  revert uses m. induction l as [|g l IH]; intros uses m Hm Hl Hmax; simpl.
  { exists m. split_and!; [done| |done]. intros f s Hf. destruct (Hm f s Hf). unfold occurrences. simpl. split; [lia|done]. }
  destruct (Hl g) as [s Hs]; [left|]. destruct (Hm g s Hs) as [Hr Hp].
  assert (0 ≤ occurrences g l) by (unfold occurrences; lia).
  unfold reference_fence at 2. rewrite Hs. simpl. unfold checked_add.
  pose proof (Hmax g) as Hg. rewrite occurrences_cons, decide_True in Hg by done. rewrite decide_True by lia. simpl.
  destruct (IH (λ f, uses f + if decide (f = g) then 1 else 0)
              (<[g := mk_fence (lf_fd s) (lf_references s + 1) (lf_release_pending s)]> m)) as (m' & E & Hc & Hdom).
  - intros f s' Hf. apply lookup_insert_Some in Hf as [[<- <-]|[Hne Hf]]; simpl.
    + rewrite decide_True by done. split; [lia|intros ?; specialize (Hp ltac:(done)); lia].
    + rewrite decide_False by done. destruct (Hm f s' Hf). split; [lia|done].
  - intros f Hf. destruct (decide (f = g)) as [->|]; [rewrite lookup_insert_eq; eauto|].
    rewrite lookup_insert_ne by done. apply Hl. by right.
  - intros f. specialize (Hmax f). rewrite occurrences_cons in Hmax. lia.
  - exists m'. split_and!; [done| |].
    + intros f s' Hf. destruct (Hc f s' Hf) as [H1 H2]. rewrite occurrences_cons. split; [lia|done].
    + rewrite Hdom. apply dom_insert_lookup_L. eauto.
Qed.

(** ** The registry over its operations *)

Inductive LiveResource : Type := ASource (handle : BufferHandle) | AFence (fence : FenceHandle) | APresent (transaction : TransactionId).
#[export] Instance live_resource_eq_dec : EqDecision LiveResource.
Proof. solve_decision. Defined.
Inductive LiveEvent : Type := Entered (x : LiveResource) | Gone (x : LiveResource).
#[export] Instance live_event_eq_dec : EqDecision LiveEvent.
Proof. solve_decision. Defined.
Definition is_held (r : LiveDmaBufPresentationRegistry) (x : LiveResource) : Prop :=
  match x with
  | ASource handle => is_Some (lr_sources r !! handle)
  | AFence fence => is_Some (lr_fences r !! fence)
  | APresent transaction => is_Some (lr_presentations r !! transaction)
  end.
#[export] Instance is_held_dec r x : Decision (is_held r x).
Proof. destruct x; simpl; apply _. Defined.
Definition held (r : LiveDmaBufPresentationRegistry) (x : LiveResource) : Z := if decide (is_held r x) then 1 else 0.
Definition balance (events : list LiveEvent) (x : LiveResource) : Z :=
  occurrences (Entered x) events - occurrences (Gone x) events.

(** What a caller learns from the answers: which resources came and which went. *)
Definition source_of (source : BufferSource) : list LiveResource :=
  match source with DmaBuf handle => [ASource (from_raw handle)] | _ => [] end.
Definition retirement_events (t : LivePresentationRetirement) : list LiveEvent :=
  Gone <$> (APresent (pt_transaction t) :: (if pt_released_source t then source_of (pt_source t) else [])
            ++ (AFence <$> pt_released_fences t)).
Inductive LiveOp : Type :=
| OpRegisterSource (descriptor : DmaBufDescriptor) (plane_fds : list Z)
| OpRegisterFence (fence : FenceHandle) (fd : Z)
| OpBegin (os : LiveFdOs) (transaction : TransactionId) (handle : BufferHandle) (acquire_fence idle_fence : option FenceHandle)
| OpPoll (os : LiveFdOs) (transaction : TransactionId)
| OpSubmit (transaction : TransactionId)
| OpRetire (os : LiveFdOs) (transaction : TransactionId)
| OpReject (os : LiveFdOs) (transaction : TransactionId)
| OpRemoveSource (handle : BufferHandle)
| OpRemoveFence (fence : FenceHandle)
| OpDisconnect (os : LiveFdOs).
Definition released_event (status : LiveResourceReleaseStatus) (x : LiveResource) : list LiveEvent :=
  match status with ReleaseReleased => [Gone x] | _ => [] end.
(** A failed operation leaves the registry as it was and reports nothing. *)
Definition on_ok {E} (r : LiveDmaBufPresentationRegistry) (events : list LiveEvent)
    (out : result LiveDmaBufPresentationRegistry E) : list LiveEvent * LiveDmaBufPresentationRegistry :=
  match out with Ok r => (events, r) | Err _ => ([], r) end.
Definition live_step (op : LiveOp) (r : LiveDmaBufPresentationRegistry) :
    option (list LiveEvent * LiveDmaBufPresentationRegistry) :=
  match op with
  | OpRegisterSource d fds => Some (on_ok r [Entered (ASource (db_handle d))] (register_source r d fds))
  | OpRegisterFence fence fd => Some (on_ok r [Entered (AFence fence)] (register_fence r fence fd))
  | OpBegin os t h a i => out ← begin_present os r t h a i; Some (on_ok r [Entered (APresent t)] out)
  | OpPoll os t => Some (match poll_acquire_fence os r t with Ok (_, r) => ([], r) | Err _ => ([], r) end)
  | OpSubmit t => Some (on_ok r [] (submit_present r t))
  | OpRetire os t => out ← retire_page_flip os r t; Some (default [] (retirement_events <$> out.1), out.2)
  | OpReject os t => out ← reject_present os r t; Some (default [] (retirement_events <$> out.1), out.2)
  | OpRemoveSource h => let out := remove_source r h in Some (released_event out.1 (ASource h), out.2)
  | OpRemoveFence f => let out := remove_fence r f in Some (released_event out.1 (AFence f), out.2)
  | OpDisconnect os =>
      out ← disconnect_presentations os r;
      Some (Gone <$> (APresent <$> btree_keys (lr_presentations r)) ++ (dc_released_sources out.1 ≫= source_of)
              ++ (AFence <$> dc_released_fences out.1), out.2)
  end.
Fixpoint live_run (ops : list LiveOp) (r : LiveDmaBufPresentationRegistry) :
    option (list LiveEvent * LiveDmaBufPresentationRegistry) :=
  match ops with
  | [] => Some ([], r)
  | op :: ops => done ← live_step op r; rest ← live_run ops done.2; Some (done.1 ++ rest.1, rest.2)
  end.

(** [r'] is as sound as [r], and holds what [events] say. *)
Definition follows (r : LiveDmaBufPresentationRegistry) (events : list LiveEvent) (r' : LiveDmaBufPresentationRegistry) : Prop :=
  presentations_ok r' ∧ lr_limits r' = lr_limits r ∧ ∀ x, held r' x = held r x + balance events x.

Lemma balance_app l k x : balance (l ++ k) x = balance l x + balance k x.
Proof. unfold balance. rewrite !occurrences_app. lia. Qed.
Lemma balance_nil x : balance [] x = 0.
Proof. done. Qed.
Lemma balance_entered y x : balance [Entered y] x = if decide (x = y) then 1 else 0.
Proof. unfold balance. rewrite !occurrences_cons. unfold occurrences. simpl. repeat case_decide; simplify_eq; done. Qed.
Lemma balance_gone l x : balance (Gone <$> l) x = - occurrences x l.
Proof.
  unfold balance. induction l as [|y l IH]; [done|]. csimpl. rewrite !occurrences_cons.
  repeat case_decide; simplify_eq; lia.
Qed.
Lemma occurrences_NoDup {A} `{EqDecision A} (x : A) l : NoDup l → occurrences x l = if decide (x ∈ l) then 1 else 0.
Proof.
  induction 1 as [|y l Hy Hl IH]; [done|]. rewrite occurrences_cons, IH.
  repeat case_decide; simplify_eq; set_solver.
Qed.
Lemma occurrences_fmap {A B} `{EqDecision A, EqDecision B} (f : A → B) `{!Inj (=) (=) f} x l :
  occurrences (f x) (f <$> l) = occurrences x l.
Proof. induction l as [|y l IH]; [done|]. csimpl. rewrite !occurrences_cons, IH. repeat case_decide; naive_solver. Qed.
Lemma occurrences_other {A B} `{EqDecision B} (f : A → B) x l : (∀ y, x ≠ f y) → occurrences x (f <$> l) = 0.
Proof. intros Hf. induction l as [|y l IH]; [done|]. csimpl. rewrite occurrences_cons, IH. case_decide; naive_solver. Qed.
#[export] Instance AFence_inj : Inj (=) (=) AFence.
Proof. by intros ?? [=]. Qed.
#[export] Instance ASource_inj : Inj (=) (=) ASource.
Proof. by intros ?? [=]. Qed.
#[export] Instance APresent_inj : Inj (=) (=) APresent.
Proof. by intros ?? [=]. Qed.

Lemma follows_refl r : presentations_ok r → follows r [] r.
Proof. intros Hr. split_and!; [done|done|]. intros x. rewrite balance_nil. lia. Qed.
Lemma follows_trans r1 e1 r2 e2 r3 : follows r1 e1 r2 → follows r2 e2 r3 → follows r1 (e1 ++ e2) r3.
Proof. intros (_ & H1 & H2) (H3 & H4 & H5). split_and!; [done|congruence|]. intros x. rewrite balance_app, H5, H2. lia. Qed.
Lemma held_insert r x : is_held r x → held r x = 1.
Proof. intros. unfold held. by rewrite decide_True. Qed.
Lemma held_missing r x : ¬ is_held r x → held r x = 0.
Proof. intros. unfold held. by rewrite decide_False. Qed.
Lemma held_ext r r' x : (is_held r' x ↔ is_held r x) → held r' x = held r x.
Proof. intros. unfold held. destruct (decide (is_held r' x)), (decide (is_held r x)); tauto. Qed.
(** One more thing, or one less. *)
Lemma entered_follows r r' y : ¬ is_held r y → is_held r' y → (∀ x, x ≠ y → is_held r' x ↔ is_held r x) →
  ∀ x, held r' x = held r x + balance [Entered y] x.
Proof.
  intros H1 H2 H3 x. rewrite balance_entered. case_decide as Hx; [subst|].
  - by rewrite held_insert, held_missing.
  - rewrite (held_ext r r') by auto. lia.
Qed.
Lemma gone_follows r r' l : NoDup l → (∀ x, is_held r' x ↔ is_held r x ∧ x ∉ l) → (∀ x, x ∈ l → is_held r x) →
  ∀ x, held r' x = held r x + balance (Gone <$> l) x.
Proof.
  intros Hl H1 H2 x. rewrite balance_gone, occurrences_NoDup by done. unfold held.
  specialize (H1 x). specialize (H2 x). repeat case_decide; tauto.
Qed.

Lemma size_insert_fresh {K V} `{Countable K} (m : gmap K V) k v limit :
  m !! k = None → Z.of_nat (size m) < limit → Z.of_nat (size (<[k := v]> m)) ≤ limit.
Proof. intros Hk Hs. rewrite map_size_insert_None by done. lia. Qed.
Lemma size_insert_there {K V} `{Countable K} (m : gmap K V) k v : is_Some (m !! k) → size (<[k := v]> m) = size m.
Proof. intros Hk. by rewrite map_size_insert_Some. Qed.
Lemma size_delete_le {K V} `{Countable K} (m : gmap K V) k : (size (delete k m) ≤ size m)%nat.
Proof. destruct (m !! k) eqn:Hk; [rewrite map_size_delete_Some by eauto|rewrite delete_id by done]; lia. Qed.
Lemma size_same_dom {K V} `{Countable K} (m m' : gmap K V) : dom m' = dom m → size m' = size m.
Proof. intros Hd. by rewrite <-!(size_dom (D := gset K)), Hd. Qed.
Lemma same_dom_is_Some {K V W} `{Countable K} (m : gmap K V) (m' : gmap K W) : dom m' = dom m → ∀ k, is_Some (m' !! k) ↔ is_Some (m !! k).
Proof. intros Hd k. by rewrite <-!elem_of_dom, Hd. Qed.
Lemma uses_absent r t p : presentations_ok r → lr_presentations r !! t = Some p →
  0 < source_uses (lr_presentations r) (lp_source p).
Proof. intros _ Ht. unfold source_uses. by eapply count_values_pos. Qed.

Section steps.
Context (r : LiveDmaBufPresentationRegistry).
Hypothesis Hr : presentations_ok r.

(** A handle nothing is registered under is not used. *)
Lemma unused_source h : lr_sources r !! h = None → source_uses (lr_presentations r) h = 0.
Proof.
  intros Hh. unfold source_uses. apply count_values_zero. intros t p Ht <-.
  destruct (po_present r Hr t p Ht) as ([s Hs] & _). congruence.
Qed.
Lemma unused_fence f : lr_fences r !! f = None → fence_uses (lr_presentations r) f = 0.
Proof.
  intros Hf. unfold fence_uses. rewrite !count_values_zero; [done|..]; intros t p Ht Hp;
    destruct (po_present r Hr t p Ht) as (_ & Hl & _); destruct (Hl f) as [s Hs]; try congruence;
    unfold present_fences; rewrite Hp; set_solver.
Qed.

Lemma register_source_follows d fds r' :
  register_source r d fds = Ok r' → follows r [Entered (ASource (db_handle d))] r'.
Proof.
  unfold register_source. destruct (dma_buf_validate d); simpl; [|done].
  intros E. case_decide; [|done]. case_decide as Hfree; [|done]. case_decide; [|done]. injection E as <-. split_and!.
  - destruct Hr as [A1 A2 A3 (A4 & A5 & A6)]. constructor; simpl; [|done| |].
    + intros h s [[<- <-]|[Hne Hs]]%lookup_insert_Some; [|by apply A1]. simpl. split; [|done]. symmetry. by apply unused_source.
    + intros t p Ht. destruct (A3 t p Ht) as ([s Hs] & ? & ?). split_and!; [|done..].
      destruct (decide (db_handle d = lp_source p)) as [->|]; [rewrite lookup_insert_eq; eauto|rewrite lookup_insert_ne by done; eauto].
    + split_and!; [|done..]. by apply size_insert_fresh.
  - done.
  - apply entered_follows; simpl; [rewrite Hfree; by intros []|rewrite lookup_insert_eq; eauto|].
    intros [h|f|t] Hx; simpl; [|done..]. rewrite lookup_insert_ne; [done|congruence].
Qed.
Lemma register_fence_follows f fd r' : register_fence r f fd = Ok r' → follows r [Entered (AFence f)] r'.
Proof.
  unfold register_fence. intros E. case_decide as Hfree; [|done]. case_decide; [|done]. injection E as <-. split_and!.
  - destruct Hr as [A1 A2 A3 (A4 & A5 & A6)]. constructor; simpl; [done| | |].
    + intros g s [[<- <-]|[Hne Hs]]%lookup_insert_Some; [|by apply A2]. simpl. split; [|done]. symmetry. by apply unused_fence.
    + intros t p Ht. destruct (A3 t p Ht) as (? & Hl & ?). split_and!; [done| |done].
      intros g [s Hs]%Hl. destruct (decide (f = g)) as [->|]; [rewrite lookup_insert_eq; eauto|rewrite lookup_insert_ne by done; eauto].
    + split_and!; [done| |done]. by apply size_insert_fresh.
  - done.
  - apply entered_follows; simpl; [rewrite Hfree; by intros []|rewrite lookup_insert_eq; eauto|].
    intros [h|g|t] Hx; simpl; [done| |done]. rewrite lookup_insert_ne; [done|congruence].
Qed.

(** A presentation changes its state. *)
Lemma update_follows t p0 p : lr_presentations r !! t = Some p0 → lp_source p = lp_source p0 →
  lp_acquire_fence p = lp_acquire_fence p0 → lp_idle_fence p = lp_idle_fence p0 →
  (lp_state p = WaitingForAcquireFence ↔ is_Some (lp_acquire_fence_fd p)) →
  follows r [] (set_presentations r (<[t := p]> (lr_presentations r))).
Proof.
  intros Ht E1 E2 E3 Hfd. destruct (uses_update _ _ _ _ Ht E1 E2 E3) as [Hs Hf]. split_and!.
  - destruct Hr as [A1 A2 A3 (A4 & A5 & A6)]. constructor; simpl.
    + intros h s Hh. rewrite Hs. by apply A1.
    + intros f s Hh. rewrite Hf. by apply A2.
    + intros t' p' [[<- <-]|[Hne Ht']]%lookup_insert_Some; [|by apply (A3 t')].
      destruct (A3 t p0 Ht) as (? & ? & ?). rewrite E1, E2, E3. by split_and!.
    + split_and!; [done..|]. by rewrite size_insert_there by eauto.
  - done.
  - intros x. rewrite balance_nil, Z.add_0_r. apply held_ext. destruct x as [h|f|t']; simpl; [done..|].
    destruct (decide (t = t')) as [<-|]; [rewrite lookup_insert_eq, Ht; naive_solver|by rewrite lookup_insert_ne].
Qed.
Lemma poll_follows os t ready r' : poll_acquire_fence os r t = Ok (ready, r') → follows r [] r'.
Proof.
  unfold poll_acquire_fence. destruct (lr_presentations r !! t) as [p|] eqn:Ht; [|done]. simpl.
  case_decide; [intros [= <- <-]; by apply follows_refl|].
  destruct (lp_acquire_fence_fd p); [|done]. simpl. destruct (os_query os z) as [[]|]; [..|done]; simpl; intros [= <- <-].
  - eapply update_follows; [done..|]. simpl. split; [done|by intros []].
  - by apply follows_refl.
Qed.
Lemma submit_follows t r' : submit_present r t = Ok r' → follows r [] r'.
Proof.
  unfold submit_present. destruct (lr_presentations r !! t) as [p|] eqn:Ht; [|done]. simpl.
  destruct (lp_state p) eqn:Es; [done| |done]. intros [= <-]. eapply update_follows; [done..|]. simpl.
  destruct (po_present r Hr t p Ht) as (_ & _ & Hp). rewrite <-Hp, Es. split; done.
Qed.
Lemma remove_source_follows h : let out := remove_source r h in follows r (released_event out.1 (ASource h)) out.2.
Proof.
  unfold remove_source. destruct (lr_sources r !! h) as [s|] eqn:Hh; [|by apply follows_refl].
  destruct (po_sources r Hr h s Hh) as [Href _]. destruct Hr as [A1 A2 A3 (A4 & A5 & A6)]. case_decide as Hd; simpl.
  - split_and!; [|done|].
    + constructor; simpl; [|done| |].
      * intros h' s' [[<- <-]|[Hne Hs]]%lookup_insert_Some; [by simpl|by apply A1].
      * intros t p Ht. destruct (A3 t p Ht) as ([s' Hs'] & ? & ?). split_and!; [|done..].
        destruct (decide (h = lp_source p)) as [->|]; [rewrite lookup_insert_eq; eauto|rewrite lookup_insert_ne by done; eauto].
      * split_and!; [|done..]. by rewrite size_insert_there by eauto.
    + intros x. rewrite balance_nil, Z.add_0_r. apply held_ext. destruct x as [h'|f|t]; simpl; [|done..].
      destruct (decide (h = h')) as [<-|]; [rewrite lookup_insert_eq, Hh; naive_solver|by rewrite lookup_insert_ne].
  - assert (source_uses (lr_presentations r) h = 0) as H0 by (pose proof (proj1 (uses_nonneg (lr_presentations r)) h); lia).
    split_and!; [|done|].
    + constructor; simpl; [|done| |].
      * intros h' s' [Hne Hs]%lookup_delete_Some. by apply A1.
      * intros t p Ht. destruct (A3 t p Ht) as ([s' Hs'] & ? & ?). split_and!; [|done..].
        destruct (decide (h = lp_source p)) as [->|]; [|rewrite lookup_delete_ne by done; eauto].
        pose proof (uses_absent r t p Hr Ht). lia.
      * split_and!; [|done..]. pose proof (size_delete_le (lr_sources r) h). lia.
    + apply (gone_follows _ _ [ASource h]); [apply NoDup_singleton| |].
      * intros [h'|f|t]; simpl; rewrite list_elem_of_singleton; [|naive_solver..].
        destruct (decide (h = h')) as [<-|]; [rewrite lookup_delete_eq; split; [by intros []|naive_solver]|].
        rewrite lookup_delete_ne by done. naive_solver.
      * intros x ->%list_elem_of_singleton. simpl. eauto.
Qed.
Lemma fence_used t p f : lr_presentations r !! t = Some p → f ∈ present_fences (lp_acquire_fence p) (lp_idle_fence p) →
  0 < fence_uses (lr_presentations r) f.
Proof.
  intros Ht Hf. destruct (uses_remove _ _ _ Ht) as [_ Hu]. rewrite Hu.
  pose proof (proj2 (uses_nonneg (delete t (lr_presentations r))) f). apply occurrences_in in Hf. lia.
Qed.
Lemma remove_fence_follows f : let out := remove_fence r f in follows r (released_event out.1 (AFence f)) out.2.
Proof.
  unfold remove_fence. destruct (lr_fences r !! f) as [s|] eqn:Hh; [|by apply follows_refl].
  destruct (po_fences r Hr f s Hh) as [Href _]. destruct Hr as [A1 A2 A3 (A4 & A5 & A6)]. case_decide as Hd; simpl.
  - assert (∀ g, is_Some (<[f := mk_fence (lf_fd s) (lf_references s) true]> (lr_fences r) !! g) ↔ is_Some (lr_fences r !! g)) as Hsame.
    { intros g. destruct (decide (f = g)) as [<-|]; [rewrite lookup_insert_eq, Hh; naive_solver|by rewrite lookup_insert_ne]. }
    split_and!; [|done|].
    + constructor; simpl; [done| | |].
      * intros h' s' [[<- <-]|[Hne Hs]]%lookup_insert_Some; [by simpl|by apply A2].
      * intros t p Ht. destruct (A3 t p Ht) as (? & Hl & ?). split_and!; [done| |done]. intros g Hg. by apply Hsame, Hl.
      * split_and!; [done| |done]. by rewrite size_insert_there by eauto.
    + intros x. rewrite balance_nil, Z.add_0_r. apply held_ext. destruct x as [h'|g|t]; simpl; [done|apply Hsame|done].
  - assert (fence_uses (lr_presentations r) f = 0) as H0 by (pose proof (proj2 (uses_nonneg (lr_presentations r)) f); lia).
    split_and!; [|done|].
    + constructor; simpl; [done| | |].
      * intros h' s' [Hne Hs]%lookup_delete_Some. by apply A2.
      * intros t p Ht. destruct (A3 t p Ht) as (? & Hl & ?). split_and!; [done| |done].
        intros g Hg. pose proof (fence_used t p g Ht Hg). destruct (decide (f = g)) as [->|]; [lia|].
        rewrite lookup_delete_ne by done. by apply Hl.
      * split_and!; [done| |done]. pose proof (size_delete_le (lr_fences r) f). lia.
    + apply (gone_follows _ _ [AFence f]); [apply NoDup_singleton| |].
      * intros [h'|g|t]; simpl; rewrite list_elem_of_singleton; [naive_solver| |naive_solver].
        destruct (decide (f = g)) as [<-|]; [rewrite lookup_delete_eq; split; [by intros []|naive_solver]|].
        rewrite lookup_delete_ne by done. naive_solver.
      * intros x ->%list_elem_of_singleton. simpl. eauto.
Qed.
End steps.

(** ** Beginning and finishing a presentation *)

Lemma begin_checks_ok os r t h a i p : begin_checks os r t h a i = Ok p →
  lr_presentations r !! t = None ∧ Z.of_nat (size (lr_presentations r)) < lim_presentations (lr_limits r) ∧
  is_Some (lr_sources r !! h) ∧ (∀ f, f ∈ present_fences a i → is_Some (lr_fences r !! f)) ∧
  lp_source p = h ∧ lp_acquire_fence p = a ∧ lp_idle_fence p = i ∧
  (lp_state p = WaitingForAcquireFence ↔ is_Some (lp_acquire_fence_fd p)).
Proof.
  unfold begin_checks. case_decide as H1; [|done]. case_decide as H2; [|done].
  destruct (lr_sources r !! h) as [s|] eqn:Hs; [|done]. simpl. case_decide; [|done].
  rewrite res_bind_ok. intros (fds & _ & E).
  assert (∀ o fd, opt_try (clone_fence os r) o = Ok fd →
            (∀ f, o = Some f → is_Some (lr_fences r !! f)) ∧ (is_Some fd ↔ is_Some o)) as Hclone.
  { intros [f|] fd; simpl; [|intros [= <-]; done]. rewrite res_bind_ok. unfold clone_fence. intros (x & Hx & [= <-]).
    destruct (lr_fences r !! f) eqn:Hf; [|done]. split; [intros f' [= <-]; eauto|done]. }
  rewrite res_bind_ok in E. destruct E as (afd & [Ha Hafd]%Hclone & E).
  rewrite res_bind_ok in E. destruct E as (ifd & [Hi Hifd]%Hclone & E).
  rewrite res_bind_ok in E. destruct E as (ready & Hq & [= <-]). simpl. split_and!; [done|done|eauto| |done|done|done|].
  - intros f. unfold present_fences. destruct a as [a|], i as [i|]; simpl; intros Hf; set_solver.
  - destruct afd as [fd|]; simpl in Hq; [|injection Hq as <-; simpl; split; [done|by intros []]].
    rewrite res_bind_ok in Hq. destruct Hq as (b & _ & [= <-]). destruct b; simpl; [split; [done|by intros []]|naive_solver].
Qed.

Lemma reference_source_count m h s : m !! h = Some s → ls_references s + 1 ≤ usize_MAX →
  ∃ m', reference_source m h = Some m' ∧ dom m' = dom m ∧
    ∀ h' s', m' !! h' = Some s' → ∃ s0, m !! h' = Some s0 ∧ ls_release_pending s' = ls_release_pending s0 ∧
      ls_references s' = ls_references s0 + (if decide (h = h') then 1 else 0).
Proof.
  intros Hh Hmax. unfold reference_source. rewrite Hh. simpl. unfold checked_add. rewrite decide_True by done. simpl.
  eexists. split_and!; [done|apply dom_insert_lookup_L; eauto|].
  intros h' s' [[<- <-]|[Hne Hs]]%lookup_insert_Some; simpl; [exists s; by rewrite decide_True|].
  exists s'. rewrite decide_False by done. split_and!; [done|done|lia].
Qed.

(** The resources that go with a presentation. *)
Definition retired (t : TransactionId) (h : BufferHandle) (released : bool) (fences : list FenceHandle) : list LiveResource :=
  APresent t :: (if released then [ASource h] else []) ++ (AFence <$> fences).
Lemma retirement_gone t h idle released fences :
  retirement_events (mk_present_retirement t (DmaBuf (raw h)) idle released fences) = Gone <$> retired t h released fences.
Proof. unfold retirement_events, retired. simpl. by destruct h, released. Qed.
Lemma elem_of_retired t h released fences x : x ∈ retired t h released fences ↔
  match x with APresent t' => t' = t | ASource h' => released = true ∧ h' = h | AFence f => f ∈ fences end.
Proof.
  unfold retired. rewrite elem_of_cons, elem_of_app, list_elem_of_fmap.
  destruct x, released; rewrite ?list_elem_of_singleton, ?elem_of_nil; naive_solver.
Qed.
Lemma NoDup_retired t h released fences : NoDup fences → NoDup (retired t h released fences).
Proof.
  intros Hf. unfold retired. apply NoDup_cons. split.
  - rewrite elem_of_app, list_elem_of_fmap. destruct released; set_solver.
  - apply NoDup_app. split_and!; [destruct released; [apply NoDup_singleton|apply NoDup_nil_2]| |by apply (NoDup_fmap_2 AFence)].
    destruct released; set_solver.
Qed.

Section presents.
Context (r : LiveDmaBufPresentationRegistry).
Hypothesis Hr : presentations_ok r.

(** References cannot overflow where the presentations allowed are half as many as a [usize] holds. *)
Lemma begin_follows os t h a i : 2 * lim_presentations (lr_limits r) ≤ usize_MAX →
  ∃ out, begin_present os r t h a i = Some out ∧
    match out with Ok r' => follows r [Entered (APresent t)] r' | Err _ => True end.
Proof.
  intros Hlim. unfold begin_present. destruct (begin_checks os r t h a i) as [p|e] eqn:E; [|by exists (Err e)].
  apply begin_checks_ok in E as (Ht & Hsz & [s Hs] & Hfs & Hps & Hpa & Hpi & Hst).
  destruct Hr as [A1 A2 A3 (A4 & A5 & A6)].
  destruct (uses_bound (lr_presentations r)) as [Bs Bf]. destruct (uses_bound (<[t := p]> (lr_presentations r))) as [_ Bf'].
  destruct (A1 h s Hs) as [Hrs _].
  destruct (reference_source_count (lr_sources r) h s Hs) as (ms & -> & Hdom & Hms); [pose proof (Bs h); word_lia|]. simpl.
  destruct (reference_fences_count (fence_uses (lr_presentations r)) (present_fences a i) (lr_fences r)) as (mf & -> & Hmf & Hdomf);
    [by intros f s' ?%A2|done| |].
  { intros f. pose proof (Bf' f) as Hb. rewrite fence_uses_fresh, Hpa, Hpi, map_size_insert_None in Hb by done. word_lia. }
  simpl. eexists. split; [done|]. split_and!; [|done|].
  - constructor; simpl.
    + intros h' s' Hh'. destruct (Hms h' s' Hh') as (s0 & Hs0 & Hp0 & Hn0). destruct (A1 h' s0 Hs0) as [Hn Hpend].
      rewrite source_uses_fresh, Hps, Hn0, Hp0, Hn by done. split; [done|]. intros Hp. specialize (Hpend Hp). case_decide; lia.
    + intros f s' Hf. rewrite fence_uses_fresh, Hpa, Hpi by done. by apply Hmf.
    + intros t' p' [[<- <-]|[Hne Ht']]%lookup_insert_Some.
      * rewrite Hps, Hpa, Hpi. split_and!; [apply (same_dom_is_Some _ _ Hdom); eauto| |done].
        intros f Hf. by apply (same_dom_is_Some _ _ Hdomf), Hfs.
      * destruct (A3 t' p' Ht') as (H1 & H2 & H3). split_and!; [by apply (same_dom_is_Some _ _ Hdom)| |done].
        intros f Hf. by apply (same_dom_is_Some _ _ Hdomf), H2.
    + rewrite (size_same_dom _ _ Hdom), (size_same_dom _ _ Hdomf). split_and!; [done..|]. by apply size_insert_fresh.
  - apply entered_follows; simpl; [rewrite Ht; by intros []|rewrite lookup_insert_eq; eauto|].
    intros [h'|f|t'] Hx; simpl; [by apply (same_dom_is_Some _ _ Hdom)|by apply (same_dom_is_Some _ _ Hdomf)|].
    rewrite lookup_insert_ne; [done|congruence].
Qed.

Lemma release_source_count h uses :
  (∀ h' s, lr_sources r !! h' = Some s →
     ls_references s = uses h' + (if decide (h = h') then 1 else 0) ∧ (ls_release_pending s = true → 0 < ls_references s)) →
  (∀ h', 0 ≤ uses h') → is_Some (lr_sources r !! h) →
  ∃ released m, release_source_reference (lr_sources r) h = Some (released, m) ∧
    (∀ h' s, m !! h' = Some s → ls_references s = uses h' ∧ (ls_release_pending s = true → 0 < ls_references s)) ∧
    (∀ h', is_Some (m !! h') ↔ is_Some (lr_sources r !! h') ∧ ¬ (released = true ∧ h' = h)) ∧
    (released = true → uses h = 0) ∧ (size m ≤ size (lr_sources r))%nat.
Proof.
  intros Hm Huses [s Hs]. unfold release_source_reference. rewrite Hs. simpl. destruct (Hm h s Hs) as [Hn Hp].
  rewrite decide_True in Hn by done. pose proof (Huses h).
  assert (saturating_sub (ls_references s) 1 = uses h) as -> by (unfold saturating_sub; lia). case_decide as Hd.
  - eexists true, _. split_and!; [done| | |intros _; lia|apply size_delete_le].
    + intros h' s' [Hne Hs']%lookup_delete_Some. destruct (Hm h' s' Hs') as [H1 H2]. rewrite decide_False in H1 by done. split; [lia|done].
    + intros h'. destruct (decide (h = h')) as [<-|]; [rewrite lookup_delete_eq; split; [by intros []|naive_solver]|].
      rewrite lookup_delete_ne by done. naive_solver.
  - eexists false, _. split_and!; [done| | |done|by rewrite size_insert_there by eauto].
    + intros h' s' [[<- <-]|[Hne Hs']]%lookup_insert_Some; simpl.
      * split; [done|]. intros Hpend. apply not_and_l in Hd as [Hd|Hd]; [lia|done].
      * destruct (Hm h' s' Hs') as [H1 H2]. rewrite decide_False in H1 by done. split; [lia|done].
    + intros h'. destruct (decide (h = h')) as [<-|]; [rewrite lookup_insert_eq, Hs; naive_solver|].
      rewrite lookup_insert_ne by done. naive_solver.
Qed.

Lemma finish_follows os t : is_Some (lr_presentations r !! t) →
  ∃ out, finish_present os r t = Some out ∧ follows r (retirement_events out.1) out.2 ∧
    lr_presentations out.2 = delete t (lr_presentations r) ∧ pt_transaction out.1 = t.
Proof.
  intros [p Ht]. unfold finish_present. rewrite Ht. simpl. destruct (uses_remove _ _ _ Ht) as [Us Uf].
  destruct (uses_nonneg (delete t (lr_presentations r))) as [Ns Nf]. destruct (po_present r Hr t p Ht) as (Psrc & Pf & _).
  destruct (release_source_count (lp_source p) (source_uses (delete t (lr_presentations r)))) as (rel & ms & -> & Hms & Hdom & Hrel & Hsz);
    [intros h s Hs; rewrite <-Us; by apply (po_sources r Hr)|done|done|]. simpl.
  destruct (release_fences_count (fence_uses (delete t (lr_presentations r))) Nf
              (present_fences (lp_acquire_fence p) (lp_idle_fence p)) [] (lr_fences r)) as (rels & mf & -> & Hmf & Hnd & Hrels & Hdomf);
    [intros f s Hs; rewrite <-Uf; by apply (po_fences r Hr)|done|]. simpl.
  destruct Hr as [A1 A2 A3 (A4 & A5 & A6)]. eexists. split; [done|]. split; [|done]. split_and!; [|done|].
  - constructor; simpl; [done|done| |].
    + intros t' p' [Hne Ht']%lookup_delete_Some. destruct (A3 t' p' Ht') as (H1 & H2 & H3).
      assert (delete t (lr_presentations r) !! t' = Some p') as Ht'' by by rewrite lookup_delete_ne.
      split_and!; [| |done].
      * apply Hdom. split; [done|]. intros [Hreal Hsame]. specialize (Hrel Hreal).
        assert (0 < source_uses (delete t (lr_presentations r)) (lp_source p')) by by eapply count_values_pos. rewrite Hsame in *. lia.
      * intros f Hf. apply Hdomf. split; [by apply H2|]. intros [_ H0]%Hrels.
        destruct (uses_remove _ _ _ Ht'') as [_ Uf']. rewrite Uf' in H0.
        pose proof (proj2 (uses_nonneg (delete t' (delete t (lr_presentations r)))) f). apply occurrences_in in Hf. lia.
    + pose proof (size_delete_le (lr_presentations r) t). split_and!; [lia| |lia].
      assert (size mf ≤ size (lr_fences r))%nat; [|lia]. rewrite <-!(size_dom (D := gset FenceHandle)). apply subseteq_size.
      intros f. rewrite !elem_of_dom, Hdomf. naive_solver.
  - intros x. cbn [fst snd]. rewrite retirement_gone. apply gone_follows; [by apply NoDup_retired|..].
    + intros [h|f|t']; rewrite elem_of_retired; simpl; [rewrite Hdom; naive_solver|by rewrite Hdomf|].
      destruct (decide (t = t')) as [<-|]; [rewrite lookup_delete_eq; split; [by intros []|naive_solver]|].
      rewrite lookup_delete_ne by done. naive_solver.
    + intros [h|f|t']; rewrite elem_of_retired; simpl; [by intros [_ ->]|by intros [? _]%Hrels|intros ->; eauto].
Qed.
End presents.

(** ** Disconnecting *)

Definition gone_resources (transactions : list TransactionId) (sources : list BufferSource) (fences : list FenceHandle) :
    list LiveResource := (APresent <$> transactions) ++ (sources ≫= source_of) ++ (AFence <$> fences).
Lemma occurrences_gone_app ts1 ts2 s1 s2 f1 f2 x :
  occurrences x (gone_resources (ts1 ++ ts2) (s1 ++ s2) (f1 ++ f2)) =
  occurrences x (gone_resources ts1 s1 f1) + occurrences x (gone_resources ts2 s2 f2).
Proof. unfold gone_resources. rewrite !fmap_app, bind_app, !occurrences_app. lia. Qed.
Lemma retirement_resources t x :
  balance (retirement_events t) x = - occurrences x (gone_resources [pt_transaction t]
    (if pt_released_source t then [pt_source t] else []) (pt_released_fences t)).
Proof.
  unfold retirement_events, gone_resources. rewrite balance_gone. do 2 f_equal. csimpl. f_equal.
  destruct (pt_released_source t); simpl; [by rewrite (right_id_L [] (++))|done].
Qed.

Lemma disconnect_fold os l report r :
  presentations_ok r → NoDup l → (∀ t, t ∈ l → is_Some (lr_presentations r !! t)) →
  ∃ report' r' sources fences,
    foldl (disconnect_step os) (Some (report, r)) l = Some (report', r') ∧ presentations_ok r' ∧ lr_limits r' = lr_limits r ∧
    dc_retired_presentations report' = dc_retired_presentations report + Z.of_nat (length l) ∧
    dc_released_sources report' = dc_released_sources report ++ sources ∧
    dc_released_fences report' = dc_released_fences report ++ fences ∧
    (∀ t, is_Some (lr_presentations r' !! t) ↔ is_Some (lr_presentations r !! t) ∧ t ∉ l) ∧
    ∀ x, held r' x = held r x - occurrences x (gone_resources l sources fences).
Proof.
  revert report r. induction l as [|t l IH]; intros report r Hr Hnd Hl.
  { exists report, r, [], []. simpl. rewrite !app_nil_r. split_and!; try done; [lia|set_solver|].
    intros x. unfold occurrences. simpl. lia. }
  apply NoDup_cons in Hnd as [Ht Hnd].
  destruct (finish_follows r Hr os t) as ([fin r1] & E & (Hr1 & Hl1 & Hh1) & Hp1 & Hpt); [apply Hl; left|]. simpl in *. rewrite E. simpl.
  destruct (IH (count_retirement report fin) r1 Hr1 Hnd) as (report' & r' & ss & fs & E' & Hr' & Hl' & Hn & Hs & Hf & Hdom & Hh).
  { intros t' Ht'. rewrite Hp1, lookup_delete_ne by (by intros ->). apply Hl. by right. }
  exists report', r', ((if pt_released_source fin then [pt_source fin] else []) ++ ss), (pt_released_fences fin ++ fs).
  rewrite E'. split_and!; [done|done|congruence| | | | |].
  - rewrite Hn. simpl. lia.
  - by rewrite Hs, (assoc_L (++)).
  - by rewrite Hf, (assoc_L (++)).
  - intros t'. rewrite Hdom, Hp1, not_elem_of_cons. destruct (decide (t = t')) as [<-|].
    + rewrite lookup_delete_eq. split; [by intros [[] _]|naive_solver].
    + rewrite lookup_delete_ne by done. naive_solver.
  - intros x. rewrite Hh, Hh1, retirement_resources, Hpt. change (t :: l) with ([t] ++ l). rewrite occurrences_gone_app. lia.
Qed.

Lemma occurrences_keys {K V} `{Countable K, !BTreeKey K} (m : gmap K V) k : occurrences k (btree_keys m) = if decide (is_Some (m !! k)) then 1 else 0.
Proof.
  rewrite occurrences_NoDup by apply NoDup_btree_keys. pose proof (elem_of_btree_keys m k). repeat case_decide; tauto.
Qed.
Lemma sources_of_handles l : ((λ handle : BufferHandle, DmaBuf (raw handle)) <$> l) ≫= source_of = ASource <$> l.
Proof. induction l as [|h l IH]; [done|]. csimpl. rewrite IH. by destruct h. Qed.
(** Everything goes, once. *)
Lemma disconnect_follows os r : presentations_ok r →
  ∃ report, disconnect_presentations os r = Some (report, mk_presentations ∅ ∅ ∅ (lr_limits r)) ∧
    dc_retired_presentations report = Z.of_nat (size (lr_presentations r)) ∧
    ∀ x, occurrences x (gone_resources (btree_keys (lr_presentations r)) (dc_released_sources report) (dc_released_fences report)) = held r x.
Proof.
  intros Hr. unfold disconnect_presentations.
  destruct (disconnect_fold os (btree_keys (lr_presentations r)) (mk_disconnect_report 0 0 0 [] []) r Hr (NoDup_btree_keys _))
    as (report & r' & ss & fs & -> & Hr' & Hlim & Hn & Hs & Hf & Hdom & Hh); [by intros t ?%elem_of_btree_keys|]. simpl.
  assert (lr_presentations r' = ∅) as ->.
  { apply map_eq. intros t. rewrite lookup_empty, eq_None_not_Some, Hdom, elem_of_btree_keys. tauto. }
  rewrite Hlim. eexists. split; [done|]. simpl in *. split.
  { rewrite Hn. unfold btree_keys. rewrite length_fmap, length_btree_entries. lia. }
  intros x. rewrite Hs, Hf. rewrite <-(app_nil_r (btree_keys (lr_presentations r))), occurrences_gone_app.
  assert (occurrences x (gone_resources [] ((λ handle : BufferHandle, DmaBuf (raw handle)) <$> btree_keys (lr_sources r'))
            (btree_keys (lr_fences r'))) = held r' x) as ->; [|rewrite Hh; lia].
  unfold gone_resources. rewrite sources_of_handles. simpl. rewrite occurrences_app. unfold held. destruct x as [h|f|t]; simpl.
  - rewrite occurrences_fmap, (occurrences_other AFence), occurrences_keys by (done || apply _). lia.
  - rewrite occurrences_fmap, (occurrences_other ASource), occurrences_keys by (done || apply _). lia.
  - rewrite (occurrences_other AFence), (occurrences_other ASource) by done. rewrite decide_False; [done|].
    rewrite Hdom, elem_of_btree_keys. tauto.
Qed.

(** ** Runs *)

Lemma presentations_ok_new limits : 0 ≤ lim_sources limits → 0 ≤ lim_fences limits → 0 ≤ lim_presentations limits →
  presentations_ok (with_limits limits).
Proof. intros. constructor; simpl; [by intros ???%lookup_empty_Some..|]. by rewrite !map_size_empty. Qed.
Lemma on_ok_follows r events (out : result LiveDmaBufPresentationRegistry LiveBufferRegistryError) : presentations_ok r →
  (∀ r', out = Ok r' → follows r events r') → follows r (on_ok r events out).1 (on_ok r events out).2.
Proof. intros Hr Ho. destruct out as [r'|e]; simpl; [by apply Ho|by apply follows_refl]. Qed.
Lemma finish_if_follows os b r t : presentations_ok r → (b = true → is_Some (lr_presentations r !! t)) →
  ∃ out, finish_if os b r t = Some out ∧ follows r (default [] (retirement_events <$> out.1)) out.2.
Proof.
  intros Hr Hb. unfold finish_if. destruct b; [|eexists; split; [done|by apply follows_refl]].
  destruct (finish_follows r Hr os t) as (out & -> & Hf & _); [auto|]. simpl. by eexists.
Qed.
Lemma live_step_follows op r : presentations_ok r → 2 * lim_presentations (lr_limits r) ≤ usize_MAX →
  ∃ events r', live_step op r = Some (events, r') ∧ follows r events r'.
Proof.
  intros Hr Hlim. destruct op as [d fds|f fd|os t h a i|os t|t|os t|os t|h|f|os]; cbn [live_step].
  - eexists _, _. rewrite <-surjective_pairing. split; [done|]. apply on_ok_follows; [done|]. intros r'. by apply register_source_follows.
  - eexists _, _. rewrite <-surjective_pairing. split; [done|]. apply on_ok_follows; [done|]. intros r'. by apply register_fence_follows.
  - destruct (begin_follows r Hr os t h a i Hlim) as (out & -> & Hout). simpl. eexists _, _. rewrite <-surjective_pairing.
    split; [done|]. apply on_ok_follows; [done|]. by intros r' ->.
  - destruct (poll_acquire_fence os r t) as [[b r']|e] eqn:E; eexists _, _; (split; [done|]); [by eapply poll_follows|by apply follows_refl].
  - eexists _, _. rewrite <-surjective_pairing. split; [done|]. apply on_ok_follows; [done|]. intros r'. by apply submit_follows.
  - destruct (finish_if_follows os (bool_decide (lp_state <$> lr_presentations r !! t = Some BufferSubmitted)) r t Hr) as (out & E & Hf).
    { intros Hs%bool_decide_eq_true. destruct (lr_presentations r !! t); [eauto|done]. }
    unfold retire_page_flip. rewrite E. by eexists _, _.
  - destruct (finish_if_follows os (bool_decide (is_Some (lr_presentations r !! t))) r t Hr) as (out & E & Hf).
    { by intros ?%bool_decide_eq_true. }
    unfold reject_present. rewrite E. by eexists _, _.
  - eexists _, _. split; [done|]. by apply remove_source_follows.
  - eexists _, _. split; [done|]. by apply remove_fence_follows.
  - destruct (disconnect_follows os r Hr) as (report & -> & _ & Hx). simpl. eexists _, _. split; [done|]. split_and!; [|done|].
    + destruct (po_limits r Hr) as (H1 & H2 & H3). apply (presentations_ok_new (lr_limits r)); lia.
    + intros x. rewrite balance_gone. unfold gone_resources in Hx. rewrite Hx. rewrite (held_missing (mk_presentations ∅ ∅ ∅ _)); [lia|].
      destruct x; simpl; rewrite lookup_empty; by intros [].
Qed.

(** C24: The buffers of presentations live as long as they are used: over any sequence of operations,
    failed ones included and whatever the operating system answers, the registry does not panic; every
    source, fence and presentation that was taken in has gone exactly once or is still there; every
    source and fence a presentation uses is still there; one whose release was asked for goes with its
    last presentation; and the limits hold. *)
Theorem live_resources_accounted ops limits :
  0 ≤ lim_sources limits → 0 ≤ lim_fences limits → 0 ≤ lim_presentations limits → 2 * lim_presentations limits ≤ usize_MAX →
  ∃ events r, live_run ops (with_limits limits) = Some (events, r) ∧
    (∀ x, occurrences (Entered x) events = occurrences (Gone x) events + held r x) ∧
    (∀ t p, lr_presentations r !! t = Some p → is_held r (ASource (lp_source p)) ∧
       ∀ f, f ∈ present_fences (lp_acquire_fence p) (lp_idle_fence p) → is_held r (AFence f)) ∧
    (∀ h s, lr_sources r !! h = Some s → ls_release_pending s = true → ∃ t p, lr_presentations r !! t = Some p ∧ lp_source p = h) ∧
    (∀ f s, lr_fences r !! f = Some s → lf_release_pending s = true →
       ∃ t p, lr_presentations r !! t = Some p ∧ f ∈ present_fences (lp_acquire_fence p) (lp_idle_fence p)) ∧
    Z.of_nat (size (lr_sources r)) ≤ lim_sources limits ∧ Z.of_nat (size (lr_fences r)) ≤ lim_fences limits ∧
    Z.of_nat (size (lr_presentations r)) ≤ lim_presentations limits.
Proof.
  intros H1 H2 H3 Hlim. assert (∃ events r, live_run ops (with_limits limits) = Some (events, r) ∧ follows (with_limits limits) events r)
    as (events & r & E & Hr & Hl & Hh).
  { pose proof (presentations_ok_new limits H1 H2 H3) as Hr. change limits with (lr_limits (with_limits limits)) in Hlim.
    clear H1 H2 H3. revert Hr Hlim. generalize (with_limits limits). induction ops as [|op ops IH]; intros r Hr Hlim.
    - eexists _, _. split; [done|]. by apply follows_refl.
    - destruct (live_step_follows op r Hr Hlim) as (e & r1 & E & Hf). simpl. rewrite E. simpl. pose proof Hf as (Hr1 & Hl1 & _).
      destruct (IH r1 Hr1) as (es & r2 & -> & Hf2); [by rewrite Hl1|]. simpl. eexists _, _. split; [done|]. by eapply follows_trans. }
  pose proof (po_limits r Hr) as (L1 & L2 & L3). rewrite Hl in L1, L2, L3.
  exists events, r. split_and!; [done| | | | |done..].
  - intros x. specialize (Hh x). rewrite (held_missing (with_limits limits)) in Hh by (destruct x; simpl; rewrite lookup_empty; by intros []).
    unfold balance in Hh. lia.
  - intros t p Ht. by destruct (po_present r Hr t p Ht) as (? & ? & _).
  - intros h s Hs Hp. destruct (po_sources r Hr h s Hs) as [Hn Hpos]. specialize (Hpos Hp). rewrite Hn in Hpos.
    by apply count_values_witness in Hpos.
  - intros f s Hs Hp. destruct (po_fences r Hr f s Hs) as [Hn Hpos]. specialize (Hpos Hp). rewrite Hn in Hpos.
    by apply fence_uses_witness.
Qed.

(** A buffer presented twice at once, whose release is asked for in between. *)
Definition example_os : LiveFdOs := mk_fd_os (λ fd, Some (fd + 100)) (λ _, Some true) (λ _, true).
Definition example_buffer : DmaBufDescriptor :=
  mk_dma_buf (from_raw 5) (mk_size 4 4) 875713112 0 1 [Some (mk_plane 0 16); None; None; None].
Definition example_ops : list LiveOp :=
  [OpRegisterSource example_buffer [7]; OpRegisterFence (from_raw 9) 8;
   OpBegin example_os (from_raw 1) (from_raw 5) None (Some (from_raw 9));
   OpBegin example_os (from_raw 2) (from_raw 5) (Some (from_raw 9)) None;
   OpRemoveSource (from_raw 5); OpSubmit (from_raw 1); OpRetire example_os (from_raw 1); OpReject example_os (from_raw 2)].
Lemma live_resources_accounted_witness :
  (∃ events r, live_run example_ops (with_limits limits_default) = Some (events, r) ∧
     ∀ x, occurrences (Entered x) events = occurrences (Gone x) events + held r x) ∧
  (fst <$> live_run example_ops (with_limits limits_default)) =
    Some [Entered (ASource (from_raw 5)); Entered (AFence (from_raw 9)); Entered (APresent (from_raw 1));
          Entered (APresent (from_raw 2)); Gone (APresent (from_raw 1)); Gone (APresent (from_raw 2)); Gone (ASource (from_raw 5))].
Proof.
  split; [|vm_compute; reflexivity].
  destruct (live_resources_accounted example_ops limits_default) as (events & r & E & H & _); [vm_compute; discriminate..|].
  exact (ex_intro _ events (ex_intro _ r (conj E H))).
Defined.

(** ** Single buffers and CPU buffers *)

(** A buffer handed in again while it waits is handed back although it is to be shown. *)
Lemma resubmitted_buffer_handed_back surface handle :
  let first := submit_cpu lifetimes_new surface handle in
  let again := submit_cpu first.2 surface handle in
  again.1 = Some (CpuBuffer handle) ∧ pc_handle <$> lt_pending again.2 !! surface = Some handle.
Proof. simpl. by rewrite !lookup_insert_eq. Qed.
(** Rejecting the buffer that is already shown hands it back. *)
Lemma shown_buffer_handed_back surface handle :
  let shown := retire_cpu (submit_cpu lifetimes_new surface handle).2 surface handle in
  let rejected := reject_cpu (submit_cpu shown.2 surface handle).2 surface handle in
  rejected.1 = Some (CpuBuffer handle) ∧ lt_committed rejected.2 !! surface = Some handle.
Proof.
  cbn zeta. assert (∃ r, (retire_cpu (submit_cpu lifetimes_new surface handle).2 surface handle).2 = r ∧
    lt_committed r !! surface = Some handle) as (r & -> & Hr).
  { eexists. split; [done|]. unfold retire_cpu, submit_cpu. simpl. rewrite lookup_insert_eq. simpl.
    case_decide as Hd; [by destruct Hd|]. rewrite lookup_empty. simpl. by rewrite lookup_insert_eq. }
  unfold reject_cpu, submit_cpu. simpl. rewrite lookup_insert_eq. simpl. by case_decide.
Qed.
