(* ===== verification/LiveCpu.v ===== *)
(** * CPU buffers of the live renderer
    ([sophia-renderer-live/src/cpu_buffer_registry.rs], [renderer_cpu_buffer_update] of
    [sophia-cli/src/commands/live_session.rs])

    The renderer's copies of the buffers the authority draws: whole buffers and patches, applied by
    generation, and how they follow the authority's own buffers.  An operation that changes a buffer
    in place returns the registry also where it fails. *)

From S2P Require Import Prelude Ids Geometry Packets XTables XSoftware XPainting.
Local Open Scope Z_scope.

Record LiveCpuBufferSource : Type := mk_cpu_source {
  cb_handle : Z; cb_size : Size; cb_stride : Z; cb_format : Z; cb_generation : Z; cb_bytes : list Z;
}.
Record LiveCpuBufferPatch : Type := mk_cpu_patch {
  cp_handle : Z; cp_size : Size; cp_stride : Z; cp_format : Z; cp_generation : Z; cp_rect : Rect; cp_bytes : list Z;
}.
Inductive LiveCpuBufferUpdate : Type := LiveReplace (buffer : LiveCpuBufferSource) | LivePatch (patch : LiveCpuBufferPatch).
Definition live_update_handle (u : LiveCpuBufferUpdate) : Z :=
  match u with LiveReplace b => cb_handle b | LivePatch p => cp_handle p end.
Definition live_update_generation (u : LiveCpuBufferUpdate) : Z :=
  match u with LiveReplace b => cb_generation b | LivePatch p => cp_generation p end.
Inductive LiveCpuBufferRegistryError : Type :=
| InvalidBufferMetadata | MissingPatchBase | PatchMetadataMismatch | InvalidPatchBounds | InvalidPatchBytes.
#[export] Instance cpu_registry_error_eq_dec : EqDecision LiveCpuBufferRegistryError.
Proof. solve_decision. Defined.
Notation LiveCpuBufferRegistry := (gmap Z LiveCpuBufferSource) (only parsing).

(** [usize::try_from] of an [i32] or a [u32] *)
Definition cpu_usize (z : Z) : option Z := if decide (0 ≤ z) then Some z else None.
Definition LIVE_CPU_BUFFER_MAX_BYTES : Z := 64 * 1024 * 1024.

Definition valid_buffer (b : LiveCpuBufferSource) : bool :=
  from_option id false
    (width ← cpu_usize (sz_width (cb_size b));
     height ← cpu_usize (sz_height (cb_size b));
     stride ← cpu_usize (cb_stride b);
     row_bytes ← checked_mul usize_MAX width 4;
     byte_len ← checked_mul usize_MAX stride height;
     Some (bool_decide (0 < width ∧ 0 < height ∧ row_bytes ≤ stride ∧ byte_len ≤ LIVE_CPU_BUFFER_MAX_BYTES ∧
                        Z.of_nat (length (cb_bytes b)) = byte_len))).

(** One row of the patch; an error leaves the rows before it copied. *)
Definition patch_buffer_row (patch : LiveCpuBufferPatch) (x y row_bytes stride : Z)
    (acc : result unit LiveCpuBufferRegistryError * list Z) (row : Z) : result unit LiveCpuBufferRegistryError * list Z :=
  match acc.1 with
  | Err _ => acc
  | Ok _ =>
      match
        source ← checked_mul usize_MAX row row_bytes;
        target_row ← checked_add usize_MAX y row;
        target_row ← checked_mul usize_MAX target_row stride;
        target ← checked_add usize_MAX target_row (saturating_mul usize_MAX x 4);
        target_end ← checked_add usize_MAX target row_bytes;
        _ ← slice_range acc.2 target target_end;
        Some (set_range acc.2 target (take (Z.to_nat row_bytes) (drop (Z.to_nat source) (cp_bytes patch))))
      with
      | Some bytes => (Ok (), bytes)
      | None => (Err InvalidPatchBounds, acc.2)
      end
  end.
Definition ends_within (start length limit : Z) : bool :=
  match checked_add usize_MAX start length with Some stop => bool_decide (stop ≤ limit) | None => false end.
(** Where the patch goes: its corner, its extent and the length of a row. *)
Definition patch_bounds (b : LiveCpuBufferSource) (patch : LiveCpuBufferPatch) :
    result (Z * Z * Z * Z) LiveCpuBufferRegistryError :=
  let? x := ok_or (cpu_usize (rx (cp_rect patch))) InvalidPatchBounds in
  let? y := ok_or (cpu_usize (ry (cp_rect patch))) InvalidPatchBounds in
  let? width := ok_or (cpu_usize (rwidth (cp_rect patch))) InvalidPatchBounds in
  let? height := ok_or (cpu_usize (rheight (cp_rect patch))) InvalidPatchBounds in
  let? buffer_width := ok_or (cpu_usize (sz_width (cb_size b))) InvalidPatchBounds in
  let? buffer_height := ok_or (cpu_usize (sz_height (cb_size b))) InvalidPatchBounds in
  let? row_bytes := ok_or (checked_mul usize_MAX width 4) InvalidPatchBounds in
  let? expected := ok_or (checked_mul usize_MAX row_bytes height) InvalidPatchBytes in
  ensure! (Z.of_nat (length (cp_bytes patch)) = expected) else InvalidPatchBytes in
  ensure! (width ≠ 0 ∧ height ≠ 0 ∧ ends_within x width buffer_width = true ∧ ends_within y height buffer_height = true)
    else InvalidPatchBounds in
  Ok (x, y, height, row_bytes).
Definition with_cpu_bytes (b : LiveCpuBufferSource) (generation : Z) (bytes : list Z) : LiveCpuBufferSource :=
  mk_cpu_source (cb_handle b) (cb_size b) (cb_stride b) (cb_format b) generation bytes.
Definition apply_patch (r : LiveCpuBufferRegistry) (patch : LiveCpuBufferPatch) :
    result unit LiveCpuBufferRegistryError * LiveCpuBufferRegistry :=
  match r !! cp_handle patch with
  | None => (Err MissingPatchBase, r)
  | Some b =>
      if decide (cb_size b ≠ cp_size patch ∨ cb_stride b ≠ cp_stride patch ∨ cb_format b ≠ cp_format patch ∨
                 cp_generation patch < cb_generation b)
      then (Err PatchMetadataMismatch, r)
      else
        match patch_bounds b patch with
        | Err e => (Err e, r)
        | Ok (x, y, height, row_bytes) =>
            match foldl (patch_buffer_row patch x y row_bytes (cb_stride b)) (Ok (), cb_bytes b) (range 0 height) with
            | (Err e, bytes) => (Err e, <[cp_handle patch := with_cpu_bytes b (cb_generation b) bytes]> r)
            | (Ok _, bytes) => (Ok (), <[cp_handle patch := with_cpu_bytes b (cp_generation patch) bytes]> r)
            end
        end
  end.
Definition is_stale (r : LiveCpuBufferRegistry) (update : LiveCpuBufferUpdate) : bool :=
  match r !! live_update_handle update with
  | Some current => bool_decide (live_update_generation update < cb_generation current)
  | None => false
  end.
(** [Ok(false)] is an update that is older than the buffer. *)
Definition registry_apply (r : LiveCpuBufferRegistry) (update : LiveCpuBufferUpdate) :
    result bool LiveCpuBufferRegistryError * LiveCpuBufferRegistry :=
  if is_stale r update then (Ok false, r)
  else
    match update with
    | LiveReplace buffer =>
        if valid_buffer buffer then (Ok true, <[cb_handle buffer := buffer]> r) else (Err InvalidBufferMetadata, r)
    | LivePatch patch =>
        match apply_patch r patch with (Ok _, r) => (Ok true, r) | (Err e, r) => (Err e, r) end
    end.
Definition retain_handles (r : LiveCpuBufferRegistry) (retain : Z → bool) : LiveCpuBufferRegistry :=
  filter (λ entry, retain entry.1 = true) r.
Definition FNV_OFFSET : Z := 14695981039346656037. (* 0xcbf29ce484222325 *)
Definition FNV_PRIME : Z := 1099511628211. (* 0x100000001b3 *)
Definition fnv_step (hash word : Z) : Z := (Z.lxor hash word * FNV_PRIME) mod (u64_MAX + 1).
Definition buffers_checksum (r : LiveCpuBufferRegistry) : Z :=
  foldl (λ hash b, foldl fnv_step hash (cb_bytes b)) FNV_OFFSET (btree_values r).

(** The authority's updates as the renderer takes them. *)
Definition live_source (b : XAuthorityCpuBufferSnapshot) : LiveCpuBufferSource :=
  mk_cpu_source (bf_handle b) (bf_size b) (bf_stride b) (bf_format b) (bf_generation b) (bf_bytes b).
Definition renderer_cpu_buffer_update (u : XAuthorityCpuBufferUpdate) : LiveCpuBufferUpdate :=
  match u with
  | BufferReplace b => LiveReplace (live_source b)
  | BufferPatch p =>
      LivePatch (mk_cpu_patch (ph_handle p) (ph_size p) (ph_stride p) (ph_format p) (ph_generation p) (ph_rect p) (ph_bytes p))
  end.

(** ** Pixels by their place in the bytes *)

(** The four bytes of the pixel in column [x] of row [y]. *)
Definition quad (bytes : list Z) (stride x y : Z) : option (list Z) :=
  slice_range bytes (y * stride + 4 * x) (y * stride + 4 * x + 4).

Lemma slice_set_inside bytes a src c n :
  0 ≤ a → a + Z.of_nat (length src) ≤ Z.of_nat (length bytes) → a ≤ c → 0 ≤ n → c + n ≤ a + Z.of_nat (length src) →
  slice_range (set_range bytes a src) c (c + n) = slice_range src (c - a) (c - a + n).
Proof.
  intros Ha Hl Hc Hn Hcn. rewrite !slice_range_in by (rewrite ?length_set_range by lia; lia).
  f_equal. apply list_eq. intros i. destruct (decide (i < Z.to_nat n)%nat).
  - rewrite !lookup_take_lt, !lookup_drop, lookup_set_range, decide_True by lia. f_equal. lia.
  - by rewrite !lookup_take_ge by lia.
Qed.

Section blit.
Context (stride tx ty cw : Z) (src : Z → list Z).
(** Rows of [cw] pixels to column [tx] from row [ty] on. *)
Definition blit (bytes : list Z) (rows : list Z) : list Z :=
  foldl (λ bytes row, set_range bytes ((ty + row) * stride + 4 * tx) (src row)) bytes rows.
Hypothesis Hx : 0 ≤ tx ∧ 0 ≤ cw ∧ 4 * (tx + cw) ≤ stride.
Hypothesis Hy : 0 ≤ ty.

Lemma row_in_bytes row (bytes : list Z) : 0 ≤ row → (ty + Z.succ row) * stride ≤ Z.of_nat (length bytes) →
  0 ≤ (ty + row) * stride + 4 * tx ∧ (ty + row) * stride + 4 * tx + 4 * cw ≤ Z.of_nat (length bytes) ∧
  (ty + row + 1) * stride ≤ Z.of_nat (length bytes).
Proof.
  intros Hr Hl. assert (0 ≤ (ty + row) * stride) by (apply Z.mul_nonneg_nonneg; lia).
  replace ((ty + Z.succ row) * stride) with ((ty + row) * stride + stride) in Hl by ring.
  replace ((ty + row + 1) * stride) with ((ty + row) * stride + stride) by ring. lia.
Qed.
Lemma quad_set_row bytes row x y :
  Z.of_nat (length (src row)) = 4 * cw → 0 ≤ row → (ty + row + 1) * stride ≤ Z.of_nat (length bytes) →
  0 ≤ x → 4 * x + 4 ≤ stride → 0 ≤ y → (y + 1) * stride ≤ Z.of_nat (length bytes) →
  quad (set_range bytes ((ty + row) * stride + 4 * tx) (src row)) stride x y =
    if decide (y = ty + row ∧ tx ≤ x < tx + cw) then slice_range (src row) (4 * (x - tx)) (4 * (x - tx) + 4) else quad bytes stride x y.
Proof.
  intros Hsrc Hrow Hlen H1 H2 H3 H4. unfold quad.
  assert (0 ≤ (ty + row) * stride) by nia. case_decide as Hd.
  - destruct Hd as [-> Hd]. rewrite slice_set_inside by lia. f_equal; lia.
  - destruct (get_set_range bytes ((ty + row) * stride + 4 * tx) (src row) (y * stride + 4 * x) 4) as [_ Hget]; try nia.
    apply Hget. rewrite Hsrc. destruct (decide (y = ty + row)) as [->|]; [lia|].
    destruct (decide (y < ty + row)); [left|right]; nia.
Qed.
Lemma quad_blit bytes (n : nat) x y :
  (∀ row, 0 ≤ row < Z.of_nat n → Z.of_nat (length (src row)) = 4 * cw) → (ty + Z.of_nat n) * stride ≤ Z.of_nat (length bytes) →
  0 ≤ x → 4 * x + 4 ≤ stride → 0 ≤ y → (y + 1) * stride ≤ Z.of_nat (length bytes) →
  let bytes' := blit bytes (seqZ 0 (Z.of_nat n)) in
  length bytes' = length bytes ∧
  quad bytes' stride x y =
    if decide (ty ≤ y < ty + Z.of_nat n ∧ tx ≤ x < tx + cw)
    then slice_range (src (y - ty)) (4 * (x - tx)) (4 * (x - tx) + 4) else quad bytes stride x y.
Proof.
  intros Hsrc Hlen H1 H2 H3 H4. cbv zeta. induction n as [|n IH].
  { simpl. rewrite decide_False by lia. done. }
  destruct IH as [IHl IHq]; [intros; apply Hsrc; lia|nia|].
  rewrite seqZ_S. unfold blit in *. rewrite foldl_app. cbn [foldl]. rewrite Z.add_0_l. set (b := foldl _ bytes (seqZ 0 (Z.of_nat n))) in *.
  pose proof (Hsrc (Z.of_nat n) ltac:(lia)) as Hn. destruct (row_in_bytes (Z.of_nat n) bytes) as (R1 & R2 & R3); [lia|nia|]. split.
  - rewrite length_set_range; [done|lia|lia].
  - rewrite quad_set_row; [|done|lia|rewrite IHl; lia|done|done|done|rewrite IHl; done]. rewrite IHq.
    destruct (decide (y = ty + Z.of_nat n)) as [->|].
    + replace (ty + Z.of_nat n - ty) with (Z.of_nat n) by lia.
      destruct (decide (tx ≤ x < tx + cw)); [rewrite !decide_True by lia; done|rewrite !decide_False by lia; done].
    + rewrite (decide_False (P := y = _ ∧ _)) by lia.
      destruct (decide (ty ≤ y < ty + Z.of_nat n ∧ tx ≤ x < tx + cw)); [rewrite decide_True by lia; done|rewrite decide_False by lia; done].
Qed.
Lemma length_blit bytes (n : nat) :
  (∀ row, 0 ≤ row < Z.of_nat n → Z.of_nat (length (src row)) = 4 * cw) → (ty + Z.of_nat n) * stride ≤ Z.of_nat (length bytes) →
  length (blit bytes (seqZ 0 (Z.of_nat n))) = length bytes.
Proof.
  intros Hsrc Hlen. induction n as [|n IH]; [done|]. destruct (row_in_bytes (Z.of_nat n) bytes) as (R1 & R2 & R3); [lia|nia|].
  rewrite seqZ_S. unfold blit in *. rewrite foldl_app. cbn [foldl]. rewrite Z.add_0_l. pose proof (Hsrc (Z.of_nat n) ltac:(lia)) as Hn.
  assert (length (foldl (λ bytes row, set_range bytes ((ty + row) * stride + 4 * tx) (src row)) bytes (seqZ 0 (Z.of_nat n))) = length bytes)
    as IHl by (apply IH; [intros; apply Hsrc; lia|nia]).
  rewrite length_set_range; lia.
Qed.
End blit.

(** ** The buffers of the registry *)

Definition cpu_buffer_ok (b : LiveCpuBufferSource) : Prop :=
  0 < sz_width (cb_size b) ∧ 0 < sz_height (cb_size b) ∧ 4 * sz_width (cb_size b) ≤ cb_stride b ∧
  cb_stride b * sz_height (cb_size b) ≤ LIVE_CPU_BUFFER_MAX_BYTES ∧
  Z.of_nat (length (cb_bytes b)) = cb_stride b * sz_height (cb_size b).
#[export] Instance cpu_buffer_ok_dec b : Decision (cpu_buffer_ok b).
Proof. unfold cpu_buffer_ok; apply _. Defined.
Lemma live_max_bytes_usize : LIVE_CPU_BUFFER_MAX_BYTES = 67108864 ∧ usize_MAX = 18446744073709551615.
Proof. done. Qed.
Lemma valid_buffer_ok b : valid_buffer b = true ↔ cpu_buffer_ok b.
Proof.
  unfold valid_buffer, cpu_buffer_ok, cpu_usize, checked_mul. destruct live_max_bytes_usize as [Hm Hu].
  assert (cpu_buffer_ok b → cb_stride b ≤ cb_stride b * sz_height (cb_size b)) as Hs by (unfold cpu_buffer_ok; nia).
  unfold cpu_buffer_ok in Hs.
  destruct (decide (0 ≤ sz_width (cb_size b))); simpl; [|split; [done|lia]].
  destruct (decide (0 ≤ sz_height (cb_size b))); simpl; [|split; [done|lia]].
  destruct (decide (0 ≤ cb_stride b)); simpl; [|split; [done|lia]].
  destruct (decide (sz_width (cb_size b) * 4 ≤ usize_MAX)); simpl; [|split; [done|lia]].
  destruct (decide (cb_stride b * sz_height (cb_size b) ≤ usize_MAX)); simpl; [|split; [done|lia]].
  rewrite bool_decide_eq_true. lia.
Qed.
Definition cpu_registry_ok (r : LiveCpuBufferRegistry) : Prop :=
  map_Forall (λ handle b, cb_handle b = handle ∧ cpu_buffer_ok b) r.
#[export] Instance cpu_registry_ok_dec r : Decision (cpu_registry_ok r).
Proof. unfold cpu_registry_ok; apply _. Defined.

Lemma ends_within_true start length limit : limit ≤ usize_MAX → ends_within start length limit = true ↔ start + length ≤ limit.
Proof. intros Hl. unfold ends_within, checked_add. case_decide; rewrite ?bool_decide_eq_true; lia || (split; [done|lia]). Qed.
(** Where a patch that is accepted goes. *)
Lemma patch_bounds_ok b p x y height row_bytes : cpu_buffer_ok b → patch_bounds b p = Ok (x, y, height, row_bytes) →
  let rect := cp_rect p in
  x = rx rect ∧ y = ry rect ∧ height = rheight rect ∧ row_bytes = 4 * rwidth rect ∧ 0 ≤ rx rect ∧ 0 ≤ ry rect ∧
  0 < rwidth rect ∧ 0 < rheight rect ∧ rx rect + rwidth rect ≤ sz_width (cb_size b) ∧ ry rect + rheight rect ≤ sz_height (cb_size b) ∧
  Z.of_nat (length (cp_bytes p)) = 4 * rwidth rect * rheight rect.
Proof.
  intros (B1 & B2 & B3 & B4 & B5). destruct live_max_bytes_usize as [Hm Hu]. unfold patch_bounds, cpu_usize, checked_mul.
  assert (cb_stride b ≤ cb_stride b * sz_height (cb_size b)) by nia.
  assert (sz_height (cb_size b) ≤ cb_stride b * sz_height (cb_size b)) by nia.
  intros E. res_inv E.
  destruct_and!. repeat match goal with H : ends_within _ _ _ = true |- _ => apply ends_within_true in H; [|lia] end. simpl. split_and!; lia.
Qed.

Definition patch_row_bytes (patch_bytes : list Z) (width row : Z) : list Z :=
  take (Z.to_nat (4 * width)) (drop (Z.to_nat (row * (4 * width))) patch_bytes).
Lemma length_patch_row patch_bytes width height row :
  0 < width → Z.of_nat (length patch_bytes) = 4 * width * height → 0 ≤ row < height →
  Z.of_nat (length (patch_row_bytes patch_bytes width row)) = 4 * width.
Proof.
  intros Hw Hp Hrow. unfold patch_row_bytes. rewrite length_take, length_drop.
  assert ((row + 1) * (4 * width) ≤ height * (4 * width)) by (apply Z.mul_le_mono_nonneg_r; lia).
  assert (0 ≤ row * (4 * width)) by (apply Z.mul_nonneg_nonneg; lia). lia.
Qed.

Section rows.
Context (bytes patch_bytes : list Z) (stride x y width height : Z).
Hypothesis Hx : 0 ≤ x ∧ 0 < width ∧ 4 * (x + width) ≤ stride.
Hypothesis Hy : 0 ≤ y ∧ 0 ≤ height.
Hypothesis Hlen : (y + height) * stride ≤ Z.of_nat (length bytes).
Hypothesis Hpatch : Z.of_nat (length patch_bytes) = 4 * width * height.
Hypothesis Hmax : Z.of_nat (length bytes) ≤ LIVE_CPU_BUFFER_MAX_BYTES.

(** The offsets of a row are those of the blit, and in range. *)
Lemma row_offsets row : 0 ≤ row < height →
  0 ≤ row * (4 * width) ∧ row * (4 * width) + 4 * width ≤ 4 * width * height ∧
  0 ≤ (y + row) * stride ∧ (y + row) * stride + 4 * x + 4 * width ≤ Z.of_nat (length bytes) ∧
  0 ≤ y + row ≤ usize_MAX ∧ Z.of_nat (length patch_bytes) ≤ usize_MAX.
Proof.
  intros Hrow. destruct live_max_bytes_usize as [Hm Hu].
  assert ((row + 1) * (4 * width) ≤ height * (4 * width)) by (apply Z.mul_le_mono_nonneg_r; lia).
  assert (0 ≤ row * (4 * width)) by (apply Z.mul_nonneg_nonneg; lia).
  assert (0 ≤ (y + row) * stride) by (apply Z.mul_nonneg_nonneg; lia).
  assert ((y + row + 1) * stride ≤ (y + height) * stride) by (apply Z.mul_le_mono_nonneg_r; lia).
  assert (y + height ≤ (y + height) * stride) by nia.
  assert (4 * width * height ≤ (y + height) * stride) by nia.
  split_and!; lia.
Qed.

(** Steps that each copy their row copy them all. *)
Lemma fold_rows {E} (step : result unit E * list Z → Z → result unit E * list Z) (n : nat) :
  Z.of_nat n ≤ height →
  (∀ row l, 0 ≤ row < height → length l = length bytes →
     step (Ok (), l) row = (Ok (), set_range l ((y + row) * stride + 4 * x) (patch_row_bytes patch_bytes width row))) →
  foldl step (Ok (), bytes) (seqZ 0 (Z.of_nat n)) = (Ok (), blit stride x y (patch_row_bytes patch_bytes width) bytes (seqZ 0 (Z.of_nat n))).
Proof.
  intros Hn Hstep. induction n as [|n IH]; [done|]. rewrite seqZ_S, foldl_app, IH by lia. unfold blit at 2. rewrite foldl_app.
  cbn [foldl]. rewrite Z.add_0_l. apply Hstep; [lia|].
  apply (length_blit stride x y width); [lia|lia|intros; apply (length_patch_row _ _ height); [lia|done|lia]|nia].
Qed.
Lemma fold_height {E} (step : result unit E * list Z → Z → result unit E * list Z) :
  (∀ row l, 0 ≤ row < height → length l = length bytes →
     step (Ok (), l) row = (Ok (), set_range l ((y + row) * stride + 4 * x) (patch_row_bytes patch_bytes width row))) →
  foldl step (Ok (), bytes) (seqZ 0 height) = (Ok (), blit stride x y (patch_row_bytes patch_bytes width) bytes (seqZ 0 height)).
Proof.
  intros Hstep. replace (seqZ 0 height) with (seqZ 0 (Z.of_nat (Z.to_nat height))) by (f_equal; lia). apply fold_rows; [lia|done].
Qed.
Lemma quad_patched px py (n : nat) : height = Z.of_nat n → 0 ≤ px → 4 * px + 4 ≤ stride → 0 ≤ py → (py + 1) * stride ≤ Z.of_nat (length bytes) →
  quad (blit stride x y (patch_row_bytes patch_bytes width) bytes (seqZ 0 (Z.of_nat n))) stride px py =
    if decide (x ≤ px < x + width ∧ y ≤ py < y + height) then quad patch_bytes (4 * width) (px - x) (py - y) else quad bytes stride px py.
Proof.
  intros Hn H1 H2 H3 H4. destruct (quad_blit stride x y width (patch_row_bytes patch_bytes width) ltac:(lia) ltac:(lia) bytes n px py) as [_ ->];
    [intros; apply (length_patch_row _ _ height); [lia|done|lia]|nia|done..|]. rewrite <-Hn.
  destruct (decide (x ≤ px < x + width ∧ y ≤ py < y + height)) as [Hd|Hd]; [rewrite decide_True by lia|by rewrite decide_False by lia].
  destruct (row_offsets (py - y)) as (R1 & R2 & _); [lia|]. pose proof (length_patch_row patch_bytes width height (py - y) ltac:(lia) Hpatch ltac:(lia)).
  unfold quad. rewrite !slice_range_in by (rewrite ?Hpatch; lia). f_equal. unfold patch_row_bytes. apply list_eq. intros i.
  destruct (decide (i < Z.to_nat 4)%nat).
  - rewrite !lookup_take_lt, !lookup_drop, lookup_take_lt, lookup_drop by lia. f_equal. lia.
  - by rewrite !lookup_take_ge by lia.
Qed.
End rows.

Lemma apply_patch_rows b p x y height row_bytes : cpu_buffer_ok b → patch_bounds b p = Ok (x, y, height, row_bytes) →
  foldl (patch_buffer_row p x y row_bytes (cb_stride b)) (Ok (), cb_bytes b) (range 0 height) =
    (Ok (), blit (cb_stride b) x y (patch_row_bytes (cp_bytes p) (rwidth (cp_rect p))) (cb_bytes b) (range 0 height)).
Proof.
  intros Hb Hp. destruct (patch_bounds_ok b p x y height row_bytes Hb Hp) as (-> & -> & -> & -> & P1 & P2 & P3 & P4 & P5 & P6 & P7).
  destruct Hb as (B1 & B2 & B3 & B4 & B5). unfold range. rewrite Z.sub_0_r.
  assert (0 ≤ cb_stride b) by lia.
  assert ((ry (cp_rect p) + rheight (cp_rect p)) * cb_stride b ≤ Z.of_nat (length (cb_bytes b))) as Hl.
  { rewrite B5, (Z.mul_comm (cb_stride b)). apply Z.mul_le_mono_nonneg_r; lia. }
  apply (fold_height _ _ _ _ _ _ (rheight (cp_rect p))); [lia|lia|done|done|].
  intros row l Hrow Hlen. destruct live_max_bytes_usize as [Hm Hu].
  destruct (row_offsets (cb_bytes b) (cp_bytes p) (cb_stride b) (rx (cp_rect p)) (ry (cp_rect p)) (rwidth (cp_rect p)) (rheight (cp_rect p))
    ltac:(lia) ltac:(lia) Hl P7 ltac:(lia) row Hrow) as (R1 & R2 & R3 & R4 & R5 & R6).
  unfold patch_buffer_row. cbn [fst snd]. unfold checked_mul, checked_add, saturating_mul.
  rewrite decide_True by lia. cbn [mbind option_bind]. rewrite decide_True by lia. cbn [mbind option_bind]. rewrite decide_True by lia. cbn [mbind option_bind].
  rewrite (Z.min_l (rx (cp_rect p) * 4)) by lia. rewrite decide_True by lia. cbn [mbind option_bind]. rewrite decide_True by lia. cbn [mbind option_bind].
  unfold slice_range. rewrite decide_True by lia. cbn [mbind option_bind]. unfold patch_row_bytes. do 2 f_equal; lia.
Qed.

(** ** What an update does *)

(** The patched buffer. *)
Definition patched (b : LiveCpuBufferSource) (p : LiveCpuBufferPatch) : LiveCpuBufferSource :=
  with_cpu_bytes b (cp_generation p)
    (blit (cb_stride b) (rx (cp_rect p)) (ry (cp_rect p)) (patch_row_bytes (cp_bytes p) (rwidth (cp_rect p))) (cb_bytes b)
       (range 0 (rheight (cp_rect p)))).
(** A patch goes in as a whole or not at all. *)
Lemma apply_patch_exact r p : cpu_registry_ok r →
  match apply_patch r p with
  | (Ok _, r') => ∃ b bounds, r !! cp_handle p = Some b ∧ cb_size b = cp_size p ∧ cb_stride b = cp_stride p ∧ cb_format b = cp_format p ∧
      cb_generation b ≤ cp_generation p ∧ patch_bounds b p = Ok bounds ∧ r' = <[cp_handle p := patched b p]> r
  | (Err _, r') => r' = r
  end.
Proof.
  intros Hr. unfold apply_patch. destruct (r !! cp_handle p) as [b|] eqn:Hb; [|done]. case_decide as Hm; [done|].
  destruct (Hr _ _ Hb) as [_ Hok]. destruct (patch_bounds b p) as [[[[x y] height] row_bytes]|e] eqn:E; [|done].
  rewrite (apply_patch_rows b p x y height row_bytes Hok E).
  destruct (patch_bounds_ok b p x y height row_bytes Hok E) as (-> & -> & -> & -> & _).
  exists b. eexists. split_and!; try done; [apply dec_stable; naive_solver..|apply Z.nlt_ge; naive_solver].
Qed.
Lemma patched_ok b p bounds : cpu_buffer_ok b → patch_bounds b p = Ok bounds →
  cpu_buffer_ok (patched b p) ∧
  ∀ x y, 0 ≤ x < sz_width (cb_size b) → 0 ≤ y < sz_height (cb_size b) →
    quad (cb_bytes (patched b p)) (cb_stride b) x y =
      if decide (in_rect x y (cp_rect p))
      then quad (cp_bytes p) (4 * rwidth (cp_rect p)) (x - rx (cp_rect p)) (y - ry (cp_rect p)) else quad (cb_bytes b) (cb_stride b) x y.
Proof.
  intros Hb. destruct bounds as [[[bx by_] height] row_bytes]. intros E.
  destruct (patch_bounds_ok b p _ _ _ _ Hb E) as (_ & _ & _ & _ & P1 & P2 & P3 & P4 & P5 & P6 & P7).
  pose proof Hb as (B1 & B2 & B3 & B4 & B5). unfold patched, range. rewrite Z.sub_0_r.
  set (n := Z.to_nat (rheight (cp_rect p))). replace (rheight (cp_rect p)) with (Z.of_nat n) in * by lia.
  assert (∀ k, k ≤ sz_height (cb_size b) → k * cb_stride b ≤ Z.of_nat (length (cb_bytes b))) as Hl.
  { intros k Hk. rewrite B5, (Z.mul_comm (cb_stride b)). apply Z.mul_le_mono_nonneg_r; lia. }
  split.
  - unfold cpu_buffer_ok. simpl. split_and!; [done..|].
    rewrite (length_blit _ _ _ (rwidth (cp_rect p))); [done|lia|lia| |by apply Hl].
    intros row Hrow. by apply (length_patch_row _ _ (Z.of_nat n)).
  - intros x y Hx Hy. cbn [cb_bytes with_cpu_bytes]. rewrite (quad_patched _ _ _ _ _ (rwidth (cp_rect p)) (Z.of_nat n));
      [|lia|lia|by apply Hl|done|lia|done|lia|lia|lia|apply Hl; lia].
    unfold in_rect. destruct (decide (rx (cp_rect p) ≤ x < rx (cp_rect p) + rwidth (cp_rect p) ∧ ry (cp_rect p) ≤ y < ry (cp_rect p) + Z.of_nat n)).
    + rewrite decide_True by lia. done.
    + rewrite decide_False by lia. done.
Qed.

Lemma registry_apply_ok r u : cpu_registry_ok r → cpu_registry_ok (registry_apply r u).2.
Proof.
  intros Hr. unfold registry_apply. destruct (is_stale r u); [done|]. destruct u as [buffer|p].
  - destruct (valid_buffer buffer) eqn:Hv; [|done]. apply valid_buffer_ok in Hv. by apply map_Forall_insert_2.
  - pose proof (apply_patch_exact r p Hr) as Hp. destruct (apply_patch r p) as [[[]|e] r']; simpl; [|by subst].
    destruct Hp as (b & bounds & Hb & _ & _ & _ & _ & E & ->). destruct (Hr _ _ Hb) as [Hh Hok].
    apply map_Forall_insert_2; [|done]. split; [done|]. by eapply patched_ok.
Qed.

(** C23: The renderer's buffers are what the updates say: an update that is older than the buffer or is
    refused changes nothing, never part of a patch; otherwise a whole buffer takes the place of the
    old one, and a patch changes exactly the pixels of its rectangle to its own; no other buffer
    changes, none grows older, and every one stays well formed. *)
Theorem cpu_update_exact r u :
  cpu_registry_ok r →
  let '(out, r') := registry_apply r u in
  cpu_registry_ok r' ∧ (∀ handle, handle ≠ live_update_handle u → r' !! handle = r !! handle) ∧
  (∀ handle b, r !! handle = Some b → ∃ b', r' !! handle = Some b' ∧ cb_generation b ≤ cb_generation b') ∧
  match out, u with
  | Ok true, LiveReplace buffer => r' !! cb_handle buffer = Some buffer
  | Ok true, LivePatch p => ∃ b b', r !! cp_handle p = Some b ∧ r' !! cp_handle p = Some b' ∧
      cb_generation b' = cp_generation p ∧ cb_size b' = cb_size b ∧ cb_stride b' = cb_stride b ∧ cb_format b' = cb_format b ∧
      ∀ x y, 0 ≤ x < sz_width (cb_size b) → 0 ≤ y < sz_height (cb_size b) →
        quad (cb_bytes b') (cb_stride b') x y =
          if decide (in_rect x y (cp_rect p))
          then quad (cp_bytes p) (4 * rwidth (cp_rect p)) (x - rx (cp_rect p)) (y - ry (cp_rect p)) else quad (cb_bytes b) (cb_stride b) x y
  | _, _ => r' = r
  end.
Proof.
  intros Hr. unfold registry_apply. destruct (is_stale r u) eqn:Es; [split_and!; [done|done|intros h b Hb; by exists b|done]|].
  assert (∀ b, r !! live_update_handle u = Some b → cb_generation b ≤ live_update_generation u) as Hold.
  { intros b Hb. unfold is_stale in Es. rewrite Hb in Es. apply bool_decide_eq_false in Es. lia. }
  destruct u as [buffer|p]; cbn [live_update_handle live_update_generation] in *.
  - destruct (valid_buffer buffer) eqn:Hv; [|split_and!; [done|done|intros h b Hb; by exists b|done]].
    apply valid_buffer_ok in Hv. split_and!; [by apply map_Forall_insert_2|intros h Hne; by rewrite lookup_insert_ne| |by rewrite lookup_insert_eq].
    intros h b Hb. destruct (decide (cb_handle buffer = h)) as [<-|]; [rewrite lookup_insert_eq; eauto|rewrite lookup_insert_ne by done; by exists b].
  - pose proof (apply_patch_exact r p Hr) as Hp. destruct (apply_patch r p) as [[[]|e] r']; [|subst; split_and!; [done|done|intros h b Hb; by exists b|done]].
    destruct Hp as (b & bounds & Hb & E1 & E2 & E3 & E4 & E5 & ->). destruct (Hr _ _ Hb) as [Hh Hok].
    destruct (patched_ok b p bounds Hok E5) as [Hok' Hq].
    split_and!; [by apply map_Forall_insert_2|intros h Hne; by rewrite lookup_insert_ne| |].
    + intros h b0 Hb0. destruct (decide (cp_handle p = h)) as [<-|]; [|rewrite lookup_insert_ne by done; by exists b0].
      rewrite lookup_insert_eq. rewrite Hb in Hb0. simplify_eq. eauto.
    + exists b, (patched b p). rewrite lookup_insert_eq. by split_and!.
Qed.
Definition example_source : LiveCpuBufferSource := mk_cpu_source 3 (mk_size 2 2) 8 875713112 4 (replicate 16 0).
Definition example_cpu_patch : LiveCpuBufferPatch :=
  mk_cpu_patch 3 (mk_size 2 2) 8 875713112 5 (mk_rect 1 0 1 2) [1; 2; 3; 4; 5; 6; 7; 8].
Lemma cpu_update_exact_witness :
  let r : LiveCpuBufferRegistry := {[3 := example_source]} in
  (cpu_registry_ok (registry_apply r (LivePatch example_cpu_patch)).2) ∧
  (cb_bytes <$> (registry_apply r (LivePatch example_cpu_patch)).2 !! 3) = Some [0; 0; 0; 0; 1; 2; 3; 4; 0; 0; 0; 0; 5; 6; 7; 8].
Proof.
  intros r. split; [|vm_compute; reflexivity].
  pose proof (cpu_update_exact r (LivePatch example_cpu_patch)) as H.
  destruct (registry_apply r (LivePatch example_cpu_patch)) as [out r']. apply H.
  apply (bool_decide_unpack _). vm_compute. exact I.
Defined.

(** ** The authority's buffers and the renderer's *)

Lemma buffer_ok_live b : buffer_ok b → cpu_buffer_ok (live_source b).
Proof.
  intros ((Hw & Hh & Hm) & Hst & Hl). unfold cpu_buffer_ok. simpl.
  unfold X_AUTHORITY_SOFTWARE_BUFFER_MAX_BYTES in Hm. rewrite Hl, Hst in *. unfold LIVE_CPU_BUFFER_MAX_BYTES. lia.
Qed.
Lemma seqZ_shift a n : seqZ a n = Z.add a <$> seqZ 0 n.
Proof. rewrite fmap_add_seqZ. f_equal; lia. Qed.
Lemma foldl_fmap_l {A B C} (f : C → B → C) (g : A → B) c l : foldl f c (g <$> l) = foldl (λ c a, f c (g a)) c l.
Proof. revert c. induction l as [|a l IH]; intros c; simpl; auto. Qed.

(** The authority copies a patch as the renderer does. *)
Lemma authority_patch_rows b p : buffer_ok b → (apply_packed_patch b p).1 = Ok () →
  patch_bounds (live_source b) (mk_cpu_patch (ph_handle p) (ph_size p) (ph_stride p) (ph_format p) (ph_generation p) (ph_rect p) (ph_bytes p)) =
    Ok (rx (ph_rect p), ry (ph_rect p), rheight (ph_rect p), 4 * rwidth (ph_rect p)) ∧
  (apply_packed_patch b p).2 = with_bytes b
    (blit (bf_stride b) (rx (ph_rect p)) (ry (ph_rect p)) (patch_row_bytes (ph_bytes p) (rwidth (ph_rect p))) (bf_bytes b)
       (range 0 (rheight (ph_rect p)))).
Proof.
  intros Hb. pose proof Hb as ((Hw & Hh & Hsz) & Hst & Hl). destruct live_max_bytes_usize as [Hm Hu]. unfold apply_packed_patch.
  destruct (clipped_bounds (bf_size b) (ph_rect p)) as [[[[x0 y0] x1] y1]|] eqn:Hc; [|done].
  pose proof (clipped_bounds_ok _ _ _ Hc) as (C1 & C2 & C3 & C4). simpl in C1, C2, C3, C4.
  destruct (decide (_ ∨ _)) as [|Hd]; [done|]. unfold saturating_sub, i32_or_max in Hd.
  rewrite !Z.max_l, !(decide_True (P := _ ≤ i32_MAX)) in Hd by lia.
  assert (x0 = rx (ph_rect p) ∧ y0 = ry (ph_rect p) ∧ x1 = rx (ph_rect p) + rwidth (ph_rect p) ∧ y1 = ry (ph_rect p) + rheight (ph_rect p))
    as (-> & -> & -> & ->) by lia. clear Hd.
  set (x := rx (ph_rect p)) in *. set (y := ry (ph_rect p)) in *. set (w := rwidth (ph_rect p)) in *. set (h := rheight (ph_rect p)) in *.
  assert (4 * w * h ≤ 4 * sz_width (bf_size b) * sz_height (bf_size b)) as Harea by (apply Z.mul_le_mono_nonneg; lia).
  change X_AUTHORITY_SOFTWARE_BUFFER_MAX_BYTES with LIVE_CPU_BUFFER_MAX_BYTES in Hsz.
  unfold saturating_sub. replace (Z.max (x + w - x) 0) with w by lia. replace (Z.max (y + h - y) 0) with h by lia.
  assert (4 * w ≤ 4 * w * h) by nia.
  assert (u_sat_mul w 4 = 4 * w) as -> by (unfold u_sat_mul, saturating_mul; lia).
  assert (u_sat_mul (4 * w) h = 4 * w * h) as -> by (unfold u_sat_mul, saturating_mul; lia).
  destruct (decide (_ ≠ _)) as [|Hlen]; [done|]. apply dec_stable in Hlen.
  assert ((y + h) * bf_stride b ≤ Z.of_nat (length (bf_bytes b))) as Hrows.
  { rewrite Hl, (Z.mul_comm (bf_stride b)). apply Z.mul_le_mono_nonneg_r; lia. }
  assert (Z.of_nat (length (bf_bytes b)) ≤ LIVE_CPU_BUFFER_MAX_BYTES) by (rewrite Hl, Hst; lia).
  unfold range. replace (y + h - y) with h by lia. rewrite Z.sub_0_r.
  rewrite seqZ_shift, foldl_fmap_l.
  rewrite (fold_height (bf_bytes b) (ph_bytes p) (bf_stride b) x y w h); [|lia|lia|done|done|].
  - intros _. split; [|done].
    unfold patch_bounds, cpu_usize, checked_mul. cbn [cp_rect cp_bytes live_source cb_size]. fold x y w h.
    rewrite !(decide_True (P := 0 ≤ _)) by lia. cbn [ok_or res_bind].
    rewrite (decide_True (P := w * 4 ≤ _)) by lia. cbn [ok_or res_bind].
    rewrite (decide_True (P := w * 4 * h ≤ _)) by lia. cbn [ok_or res_bind]. rewrite (decide_True (P := _ = _)) by lia.
    rewrite decide_True; [by rewrite (Z.mul_comm w 4)|]. rewrite !ends_within_true by (unfold i32_MAX in *; lia). lia.
  - intros row l Hrow Hll. unfold patch_row. cbn [fst snd]. replace (y + row - y) with row by lia.
    destruct (row_offsets (bf_bytes b) (ph_bytes p) (bf_stride b) x y w h ltac:(lia) ltac:(lia) Hrows Hlen ltac:(lia) row Hrow)
      as (R1 & R2 & R3 & R4 & R5 & R6).
    unfold u_sat_mul, u_sat_add, saturating_mul, saturating_add.
    rewrite (Z.min_l (row * (4 * w))), (Z.min_l (row * (4 * w) + 4 * w)) by lia.
    rewrite (Z.min_l ((y + row) * bf_stride b)), (Z.min_l (x * 4)) by lia.
    rewrite (Z.min_l ((y + row) * bf_stride b + x * 4)), (Z.min_l ((y + row) * bf_stride b + x * 4 + 4 * w)) by lia.
    rewrite slice_range_in by lia. unfold slice_range. rewrite decide_True by lia. unfold patch_row_bytes.
    by rewrite (Z.mul_comm x 4).
Qed.

Definition copies_ok (copies : gmap Z XAuthorityCpuBufferSnapshot) : Prop :=
  map_Forall (λ handle b, bf_handle b = handle ∧ buffer_ok b) copies.
#[export] Instance copies_ok_dec copies : Decision (copies_ok copies).
Proof. unfold copies_ok; apply _. Defined.
(** Any copy of the authority's buffers takes an update so ([apply_to]). *)
Definition copy_step (copies : option (gmap Z XAuthorityCpuBufferSnapshot)) (u : XAuthorityCpuBufferUpdate) :
    option (gmap Z XAuthorityCpuBufferSnapshot) :=
  copies ← copies; match apply_to u copies with (Ok _, copies) => Some copies | (Err _, _) => None end.
(** An update the authority may send a holder of these copies: a whole buffer is well formed, and none is
    older than the buffer it is for. *)
Definition in_order (copies : gmap Z XAuthorityCpuBufferSnapshot) (u : XAuthorityCpuBufferUpdate) : Prop :=
  (match u with BufferReplace b => buffer_ok b | BufferPatch _ => True end) ∧
  ∀ b, copies !! update_handle u = Some b → bf_generation b ≤ update_generation u.
Fixpoint all_in_order (copies : gmap Z XAuthorityCpuBufferSnapshot) (us : list XAuthorityCpuBufferUpdate) : Prop :=
  match us with
  | [] => True
  | u :: us => in_order copies u ∧ ∀ copies', copy_step (Some copies) u = Some copies' → all_in_order copies' us
  end.
Definition render_step (r : option LiveCpuBufferRegistry) (u : LiveCpuBufferUpdate) : option LiveCpuBufferRegistry :=
  r ← r; match registry_apply r u with (Ok true, r) => Some r | _ => None end.

Lemma copy_step_renders copies u copies' : copies_ok copies → in_order copies u → copy_step (Some copies) u = Some copies' →
  copies_ok copies' ∧ render_step (Some (live_source <$> copies)) (renderer_cpu_buffer_update u) = Some (live_source <$> copies').
Proof.
  intros Hc [Hu Hold]. unfold copy_step. cbn [mbind option_bind].
  assert (live_update_handle (renderer_cpu_buffer_update u) = update_handle u ∧
          live_update_generation (renderer_cpu_buffer_update u) = update_generation u) as [Eh Eg] by by destruct u.
  unfold render_step, registry_apply, is_stale. cbn [mbind option_bind]. rewrite Eh, Eg, lookup_fmap.
  destruct u as [b|p]; cbn [update_handle update_generation renderer_cpu_buffer_update] in *.
  - cbn [apply_to]. intros [= <-].
    split; [by apply map_Forall_insert_2|].
    assert (match live_source <$> copies !! bf_handle b with
            | Some current => bool_decide (bf_generation b < cb_generation current) | None => false end = false) as ->.
    { destruct (copies !! bf_handle b) as [b0|]; [|done]. simpl. apply bool_decide_eq_false. specialize (Hold b0 eq_refl). lia. }
    rewrite (proj2 (valid_buffer_ok _)) by by apply buffer_ok_live. by rewrite fmap_insert.
  - cbn [apply_to]. destruct (copies !! ph_handle p) as [b|] eqn:Hb; [|done].
    destruct (Hc _ _ Hb) as [Hh Hok]. pose proof (Hold b eq_refl) as Hg.
    destruct (decide (_ ∨ _)) as [|Hm]; [done|].
    pose proof (authority_patch_rows b p Hok) as Hrows. destruct (apply_packed_patch b p) as [[[]|e] b'] eqn:Ep; [|done].
    destruct (Hrows eq_refl) as [Hbounds Hb']. cbn [fst snd] in Hb'. intros [= <-].
    pose proof (buffer_ok_live b Hok) as Hlive.
    set (lp := mk_cpu_patch (ph_handle p) (ph_size p) (ph_stride p) (ph_format p) (ph_generation p) (ph_rect p) (ph_bytes p)) in *.
    destruct (patched_ok (live_source b) lp _ Hlive Hbounds) as [[_ (_ & _ & _ & Hlen)] _].
    assert (live_source (with_buffer_generation b' (ph_generation p)) = patched (live_source b) lp) as Hl by by rewrite Hb'.
    split.
    { apply map_Forall_insert_2; [|done]. rewrite Hb'. split; [done|]. destruct Hok as (H1 & H2 & H3). split_and!; [done|done|].
      exact Hlen. }
    simpl. rewrite bool_decide_false by lia. unfold apply_patch. change (cp_handle lp) with (ph_handle p). rewrite lookup_fmap, Hb. cbn [fmap option_fmap option_map].
    rewrite decide_False by (simpl; intros [?|[?|[?|?]]]; [naive_solver..|lia]). rewrite Hbounds.
    rewrite (apply_patch_rows _ _ _ _ _ _ Hlive Hbounds). rewrite fmap_insert, Hl. done.
Qed.

(** The store's own updates come in order: each is a whole buffer under a handle that no copy has,
    as long as the handles last. *)
Lemma store_updates_in_order ops s copies :
  store_ok s → map_Forall (λ handle _, handle < Z.max (next_handle s) 1) copies →
  Z.max (next_handle s) 1 + Z.of_nat (length ops) ≤ u64_MAX → all_in_order copies (paint_run s ops).1.
Proof.
  revert s copies. induction ops as [|op ops IH]; intros s copies Hs Hc Hm; [done|]. cbn [paint_run length] in *.
  destruct (paint_op_emits s op Hs) as [[Hnext Hup] Hs']. destruct (paint_op s op) as [u s1]. simpl in Hnext, Hup, Hs'.
  assert (s1 = s ∧ u = None ∨ Z.max (next_handle s1) 1 = Z.max (next_handle s) 1 + 1) as Hn.
  { destruct Hnext as [[= Hu1 Hs1]|Hn]; [by left|]. right. rewrite Hn. unfold u64_succ, saturating_add. lia. }
  specialize (IH s1). destruct (paint_run s1 ops) as [us s2]. simpl in *. clear Hnext. destruct u as [u|]; simpl.
  - destruct (Hup u eq_refl) as (b & -> & Hb & Hh). destruct Hn as [[_ ?]|Hn]; [done|]. split.
    + split; [done|]. simpl. intros b0 Hb0. apply Hc in Hb0. lia.
    + simpl. intros copies' [= <-]. apply IH; [done| |lia]. apply map_Forall_insert_2; [lia|].
      eapply map_Forall_impl; [exact Hc|]. intros h b0 ?. simpl in *. lia.
  - assert (Z.max (next_handle s) 1 ≤ Z.max (next_handle s1) 1 ≤ Z.max (next_handle s) 1 + 1) by (destruct Hn as [[-> _]|]; lia).
    apply IH; [done| |lia]. eapply map_Forall_impl; [exact Hc|]. intros h b0 ?. simpl in *. lia.
Qed.

(** C22: The renderer shows what the authority drew: every sequence of updates, whole buffers and patches,
    that a copy of the authority's buffers takes ([apply_to]) the renderer's registry takes as well, and it
    ends with the same buffers, byte for byte; provided that whole buffers are well formed and no update
    is older than the buffer it is for, which the renderer checks and [apply_to] does not.  The updates
    of every run of painting operations of the store are such ([store_updates_in_order]). *)
Theorem renderer_follows_authority us copies copies' :
  copies_ok copies → all_in_order copies us → foldl copy_step (Some copies) us = Some copies' →
  foldl render_step (Some (live_source <$> copies)) (renderer_cpu_buffer_update <$> us) = Some (live_source <$> copies').
Proof.
  revert copies. induction us as [|u us IH]; intros copies Hc Ho; cbn [foldl fmap list_fmap]; [by intros [= <-]|].
  destruct Ho as [Hu Hrest]. intros E. destruct (copy_step (Some copies) u) as [copies1|] eqn:E1.
  - destruct (copy_step_renders _ _ _ Hc Hu E1) as [Hc1 ->]. apply IH; [done| |done]. by apply Hrest.
  - exfalso. clear -E. induction us as [|v us IH]; [done|]. by apply IH.
Qed.
Definition example_snapshot : XAuthorityCpuBufferSnapshot :=
  mk_buffer 3 (x_resource_id 7 1) (mk_size 2 2) 8 X_AUTHORITY_CPU_BUFFER_FORMAT_XRGB8888 4 (replicate 16 0).
Definition example_updates : list XAuthorityCpuBufferUpdate :=
  [BufferReplace example_snapshot;
   BufferPatch (mk_patch 3 (x_resource_id 7 1) (mk_size 2 2) 8 X_AUTHORITY_CPU_BUFFER_FORMAT_XRGB8888 5 (mk_rect 1 0 1 2) [1; 2; 3; 4; 5; 6; 7; 8])].
Lemma renderer_follows_authority_witness :
  let copies' := default ∅ (foldl copy_step (Some ∅) example_updates) in
  foldl render_step (Some ∅) (renderer_cpu_buffer_update <$> example_updates) = Some (live_source <$> copies') ∧
  (cb_bytes <$> (live_source <$> copies') !! 3) = Some [0; 0; 0; 0; 1; 2; 3; 4; 0; 0; 0; 0; 5; 6; 7; 8].
Proof.
  intros copies'. split; [|vm_compute; reflexivity].
  rewrite <-(fmap_empty live_source).
  apply (renderer_follows_authority example_updates ∅ copies'); [apply (bool_decide_unpack _); vm_compute; exact I| |vm_compute; reflexivity].
  split; [split; [apply (bool_decide_unpack _); vm_compute; exact I|intros b; by rewrite lookup_empty]|].
  intros copies1 [= <-]. split; [|done]. split; [done|]. intros b [= <-]. by vm_compute.
Defined.

(** What the checks are for: a whole buffer that is older than the copy it replaces is taken by [apply_to],
    and refused by the renderer. *)
Lemma stale_buffer_refused :
  let old := mk_buffer 3 (x_resource_id 7 1) (mk_size 2 2) 8 X_AUTHORITY_CPU_BUFFER_FORMAT_XRGB8888 3 (replicate 16 1) in
  is_Some (copy_step (Some {[3 := example_snapshot]}) (BufferReplace old)) ∧
  render_step (Some (live_source <$> {[3 := example_snapshot]})) (renderer_cpu_buffer_update (BufferReplace old)) = None.
Proof. split; [by eexists|by vm_compute]. Qed.
