(* ===== verification/LiveComposition.v ===== *)
(** * Composing CPU frames
    ([sophia-renderer-live/src/{cpu_composition,production_cpu_scene}.rs])

    The frame of an output from the buffers of its layers, bottom to top, with the software cursor
    over them; the scene that keeps the buffers of the committed surfaces and composes them. *)

From Stdlib Require Import Strings.String Strings.Ascii.
From Stdlib Require Import Floats.SpecFloat.
From S2P Require Import Prelude Ids Geometry Packets Floats Outputs XTables XSoftware LiveCpu.
Local Open Scope Z_scope.

Definition LIVE_RENDERER_SCANOUT_FORMAT_XRGB8888 : Z := 875713112.

(** A layer that owns its buffer, and one that borrows it, are the same value here. *)
Record LiveCpuCompositionLayer : Type := mk_cpu_layer { ll_geometry : Rect; ll_buffer : LiveCpuBufferSource }.
Record LiveCpuComposedFrame : Type := mk_composed { cf_size : Size; cf_stride : Z; cf_format : Z; cf_bytes : list Z }.
Record LiveCpuCompositionReport : Type := mk_composition_report {
  cc_frame : LiveCpuComposedFrame; cc_layers_input : Z; cc_layers_composed : Z; cc_nonzero_pixel_bytes : Z; cc_checksum : Z;
}.
Inductive LiveCpuCompositionError : Type := InvalidOutputSize | OutputTooLarge.

Definition usize_or (d z : Z) : Z := default d (cpu_usize z).
Definition i32_saturating_neg (z : Z) : Z := i32_clamp (- z).

(** One row of a layer; a row out of range is passed over. *)
Definition compose_row (source_bytes : list Z) (source_x source_y source_stride target_x target_y target_stride row_bytes : Z)
    (acc : bool * list Z) (row : Z) : bool * list Z :=
  let source_offset := u_sat_add (u_sat_mul (u_sat_add source_y row) source_stride) (u_sat_mul source_x 4) in
  let target_offset := u_sat_add (u_sat_mul (u_sat_add target_y row) target_stride) (u_sat_mul target_x 4) in
  match slice_range source_bytes source_offset (u_sat_add source_offset row_bytes) with
  | None => acc
  | Some source =>
      match slice_range acc.2 target_offset (u_sat_add target_offset row_bytes) with
      | None => acc
      | Some _ => (true, set_range acc.2 target_offset source)
      end
  end.
Definition with_frame_bytes (f : LiveCpuComposedFrame) (bytes : list Z) : LiveCpuComposedFrame :=
  mk_composed (cf_size f) (cf_stride f) (cf_format f) bytes.
Definition compose_layer (frame : LiveCpuComposedFrame) (layer : LiveCpuCompositionLayer) : bool * LiveCpuComposedFrame :=
  let b := ll_buffer layer in
  let g := ll_geometry layer in
  if decide (cb_format b ≠ LIVE_RENDERER_SCANOUT_FORMAT_XRGB8888 ∨ rwidth g ≤ 0 ∨ rheight g ≤ 0 ∨
             sz_width (cb_size b) ≤ 0 ∨ sz_height (cb_size b) ≤ 0)
  then (false, frame)
  else
    let source_width := usize_or 0 (sz_width (cb_size b)) in
    let source_height := usize_or 0 (sz_height (cb_size b)) in
    let source_stride := usize_or 0 (cb_stride b) in
    if decide (source_stride < u_sat_mul source_width 4 ∨ Z.of_nat (length (cb_bytes b)) < u_sat_mul source_stride source_height)
    then (false, frame)
    else
      let frame_width := usize_or 0 (sz_width (cf_size frame)) in
      let frame_height := usize_or 0 (sz_height (cf_size frame)) in
      let target_stride := usize_or 0 (cf_stride frame) in
      let source_x := usize_or 0 (i32_saturating_neg (rx g)) in
      let source_y := usize_or 0 (i32_saturating_neg (ry g)) in
      let target_x := usize_or frame_width (Z.max (rx g) 0) in
      let target_y := usize_or frame_height (Z.max (ry g) 0) in
      if decide (source_width ≤ source_x ∨ source_height ≤ source_y ∨ frame_width ≤ target_x ∨ frame_height ≤ target_y)
      then (false, frame)
      else
        let copy_width := Z.min (Z.min (saturating_sub (usize_or 0 (rwidth g)) source_x) (saturating_sub source_width source_x))
                            (saturating_sub frame_width target_x) in
        let copy_height := Z.min (Z.min (saturating_sub (usize_or 0 (rheight g)) source_y) (saturating_sub source_height source_y))
                             (saturating_sub frame_height target_y) in
        if decide (copy_width = 0 ∨ copy_height = 0) then (false, frame)
        else
          let copied := foldl (compose_row (cb_bytes b) source_x source_y source_stride target_x target_y target_stride
                                 (u_sat_mul copy_width 4)) (false, cf_bytes frame) (range 0 copy_height) in
          (copied.1, with_frame_bytes frame copied.2).

(** ** The software cursor *)

Definition CLASSIC_X11_CURSOR_EDGE : nat := 16.
Definition CLASSIC_X11_CURSOR_HOTSPOT : Z * Z := (0, 0).
Definition CLASSIC_X11_CURSOR_SHAPE : list (list ascii) := list_ascii_of_string <$>
  ["##..............";
   "#W#.............";
   "#WW#............";
   "#WWW#...........";
   "#WWWW#..........";
   "#WWWWW#.........";
   "#WWWWWW#........";
   "#WWWWWWW#.......";
   "#WWWWWWWW#......";
   "#WWWWW#####.....";
   "#WWW#W#.........";
   "#WW#.#W#........";
   "#W#..#W#........";
   "##...#WW#.......";
   "#....#WW#.......";
   ".....#WW#......."]%string.
Definition cursor_color (pixel : ascii) : option (list Z) :=
  if decide (pixel = "W"%char) then Some [255; 255; 255; 255]
  else if decide (pixel = "#"%char) then Some [0; 0; 0; 255] else None.
Definition cursor_at (column row : nat) : option (list Z) :=
  pixels ← CLASSIC_X11_CURSOR_SHAPE !! row; pixel ← pixels !! column; cursor_color pixel.

Definition put_pixel (frame : LiveCpuComposedFrame) (x y : Z) (pixel : list Z) : LiveCpuComposedFrame :=
  match x ← cpu_usize x; y ← cpu_usize y; Some (x, y) with
  | None => frame
  | Some (x, y) =>
      let width := usize_or 0 (sz_width (cf_size frame)) in
      let height := usize_or 0 (sz_height (cf_size frame)) in
      let stride := usize_or 0 (cf_stride frame) in
      if decide (width ≤ x ∨ height ≤ y) then frame
      else
        match
          row ← checked_mul usize_MAX y stride;
          offset ← checked_add usize_MAX row (u_sat_mul x 4);
          _ ← slice_range (cf_bytes frame) offset (u_sat_add offset 4);
          Some (set_range (cf_bytes frame) offset pixel)
        with
        | Some bytes => with_frame_bytes frame bytes
        | None => frame
        end
  end.
(** [x.floor() as i32] of a finite number *)
Definition f64_floor (x : F64) : Z :=
  match x with
  | S754_finite s m e => let v := cond_Zopp s (Zpos m) in if decide (0 ≤ e) then v * 2 ^ e else v / 2 ^ (- e)
  | _ => 0
  end.
Definition cursor_origin (position : Point) : option (Z * Z) :=
  let x := f64_of_bits (pt_x position) in
  let y := f64_of_bits (pt_y position) in
  let lowest := f64_from_i32 i32_MIN in
  let highest := f64_from_i32 i32_MAX in
  if decide (¬ is_finite x ∨ ¬ is_finite y ∨ flt x lowest ∨ flt highest x ∨ flt y lowest ∨ flt highest y) then None
  else Some (i32_clamp (f64_floor x), i32_clamp (f64_floor y)).
Definition cursor_pixel (origin : Z * Z) (row : nat) (frame : LiveCpuComposedFrame) (column : nat) : LiveCpuComposedFrame :=
  match cursor_at column row with
  | None => frame
  | Some color => put_pixel frame (i32_saturating_add origin.1 (Z.of_nat column)) (i32_saturating_add origin.2 (Z.of_nat row)) color
  end.
Definition compose_software_cursor (frame : LiveCpuComposedFrame) (position : Point) : LiveCpuComposedFrame :=
  match cursor_origin position with
  | None => frame
  | Some origin =>
      foldl (λ frame row, foldl (cursor_pixel origin row) frame (seq 0 CLASSIC_X11_CURSOR_EDGE)) frame (seq 0 CLASSIC_X11_CURSOR_EDGE)
  end.

(** ** Frames *)

Definition count_nonzero (bytes : list Z) : Z := Z.of_nat (length (filter (λ b, b ≠ 0) bytes)).
(** Eight bytes at a time, then the rest one by one. *)
Fixpoint frame_metrics (nonzero checksum : Z) (bytes : list Z) : Z * Z :=
  match bytes with
  | b0 :: b1 :: b2 :: b3 :: b4 :: b5 :: b6 :: b7 :: rest =>
      let word := [b0; b1; b2; b3; b4; b5; b6; b7] in
      frame_metrics (saturating_add usize_MAX nonzero (count_nonzero word)) (fnv_step checksum (from_le_bytes word)) rest
  | rest =>
      foldl (λ acc b, (saturating_add usize_MAX acc.1 (if decide (b ≠ 0) then 1 else 0), fnv_step acc.2 b)) (nonzero, checksum) rest
  end.
Definition cpu_frame_metrics (bytes : list Z) : Z * Z := frame_metrics 0 FNV_OFFSET bytes.

(** The row and frame lengths of an output, which is neither empty nor too large. *)
Definition frame_lengths (output_size : Size) : result (Z * Z) LiveCpuCompositionError :=
  let? width := ok_or (w ← cpu_usize (sz_width output_size); if decide (0 < w) then Some w else None) InvalidOutputSize in
  let? height := ok_or (h ← cpu_usize (sz_height output_size); if decide (0 < h) then Some h else None) InvalidOutputSize in
  let? stride := ok_or (checked_mul usize_MAX width 4) OutputTooLarge in
  let? byte_len := ok_or (len ← checked_mul usize_MAX stride height;
                          if decide (len ≤ LIVE_CPU_BUFFER_MAX_BYTES) then Some len else None) OutputTooLarge in
  ensure! (stride ≤ u32_MAX) else OutputTooLarge in
  Ok (stride, byte_len).
(** A single layer that is the whole frame is copied. *)
Definition is_direct (output_size : Size) (stride byte_len : Z) (layer : LiveCpuCompositionLayer) : Prop :=
  ll_geometry layer = mk_rect 0 0 (sz_width output_size) (sz_height output_size) ∧ cb_size (ll_buffer layer) = output_size ∧
  cb_stride (ll_buffer layer) = stride ∧ cb_format (ll_buffer layer) = LIVE_RENDERER_SCANOUT_FORMAT_XRGB8888 ∧
  Z.of_nat (length (cb_bytes (ll_buffer layer))) = byte_len.
#[export] Instance is_direct_dec size stride len layer : Decision (is_direct size stride len layer).
Proof. unfold is_direct; apply _. Defined.
Definition direct_layer (output_size : Size) (stride byte_len : Z) (layers : list LiveCpuCompositionLayer) :
    option LiveCpuCompositionLayer :=
  match layers with
  | [layer] => if decide (is_direct output_size stride byte_len layer) then Some layer else None
  | _ => None
  end.
Definition compose_layers (frame : LiveCpuComposedFrame) (layers : list LiveCpuCompositionLayer) : Z * LiveCpuComposedFrame :=
  foldl (λ acc layer, let composed := compose_layer acc.2 layer in
           ((if composed.1 then saturating_add usize_MAX acc.1 1 else acc.1), composed.2)) (0, frame) layers.
Definition compose_live_cpu_frame_ref_with_cursor (output_size : Size) (layers : list LiveCpuCompositionLayer)
    (cursor_position : option Point) : result LiveCpuCompositionReport LiveCpuCompositionError :=
  let? ' (stride, byte_len) := frame_lengths output_size in
  let frame bytes := mk_composed output_size stride LIVE_RENDERER_SCANOUT_FORMAT_XRGB8888 bytes in
  let '(layers_composed, frame) :=
    match direct_layer output_size stride byte_len layers with
    | Some layer => (1, frame (cb_bytes (ll_buffer layer)))
    | None => compose_layers (frame (replicate (Z.to_nat byte_len) 0)) layers
    end in
  let frame := match cursor_position with Some position => compose_software_cursor frame position | None => frame end in
  let '(nonzero_pixel_bytes, checksum) := cpu_frame_metrics (cf_bytes frame) in
  Ok (mk_composition_report frame (Z.of_nat (length layers)) layers_composed nonzero_pixel_bytes checksum).
Definition compose_live_cpu_frame (output_size : Size) (layers : list LiveCpuCompositionLayer) :=
  compose_live_cpu_frame_ref_with_cursor output_size layers None.

(** ** What a layer shows *)

Definition frame_ok (f : LiveCpuComposedFrame) : Prop :=
  0 < sz_width (cf_size f) ≤ i32_MAX ∧ 0 < sz_height (cf_size f) ≤ i32_MAX ∧ cf_stride f = 4 * sz_width (cf_size f) ∧
  Z.of_nat (length (cf_bytes f)) = cf_stride f * sz_height (cf_size f) ∧
  cf_stride f * sz_height (cf_size f) ≤ LIVE_CPU_BUFFER_MAX_BYTES.
Definition layer_ok (layer : LiveCpuCompositionLayer) : Prop :=
  let g := ll_geometry layer in let b := ll_buffer layer in
  (i32_ok (rx g) ∧ i32_ok (ry g) ∧ i32_ok (rwidth g) ∧ i32_ok (rheight g)) ∧
  (i32_ok (sz_width (cb_size b)) ∧ i32_ok (sz_height (cb_size b)) ∧ u32_ok (cb_stride b)) ∧
  Z.of_nat (length (cb_bytes b)) < usize_MAX.
#[export] Instance layer_ok_dec layer : Decision (layer_ok layer).
Proof. unfold layer_ok; apply _. Defined.
Definition frame_quad (f : LiveCpuComposedFrame) (x y : Z) : option (list Z) := quad (cf_bytes f) (cf_stride f) x y.
Definition same_frame (f f' : LiveCpuComposedFrame) : Prop :=
  cf_size f' = cf_size f ∧ cf_stride f' = cf_stride f ∧ cf_format f' = cf_format f ∧ length (cf_bytes f') = length (cf_bytes f).
Lemma same_frame_refl f : same_frame f f.
Proof. unfold same_frame. tauto. Qed.
Lemma same_frame_trans f1 f2 f3 : same_frame f1 f2 → same_frame f2 f3 → same_frame f1 f3.
Proof. unfold same_frame. intros (->&->&->&->) (->&->&->&->). tauto. Qed.
Lemma same_frame_ok f f' : same_frame f f' → frame_ok f → frame_ok f'.
Proof. unfold same_frame, frame_ok. intros (->&->&_&->). done. Qed.

(** A layer that can be drawn, and the part of the plane its buffer fills. *)
Definition drawable (layer : LiveCpuCompositionLayer) : Prop :=
  let b := ll_buffer layer in
  cb_format b = LIVE_RENDERER_SCANOUT_FORMAT_XRGB8888 ∧ 4 * sz_width (cb_size b) ≤ cb_stride b ∧
  cb_stride b * sz_height (cb_size b) ≤ Z.of_nat (length (cb_bytes b)).
Definition shown_rect (layer : LiveCpuCompositionLayer) : Rect :=
  let g := ll_geometry layer in
  mk_rect (rx g) (ry g) (Z.min (rwidth g) (sz_width (cb_size (ll_buffer layer)))) (Z.min (rheight g) (sz_height (cb_size (ll_buffer layer)))).
Definition covers (layer : LiveCpuCompositionLayer) (x y : Z) : Prop := drawable layer ∧ in_rect x y (shown_rect layer).
#[export] Instance drawable_dec layer : Decision (drawable layer).
Proof. unfold drawable; apply _. Defined.
#[export] Instance covers_dec layer x y : Decision (covers layer x y).
Proof. unfold covers; apply _. Defined.
Definition layer_quad (layer : LiveCpuCompositionLayer) (x y : Z) : option (list Z) :=
  quad (cb_bytes (ll_buffer layer)) (cb_stride (ll_buffer layer)) (x - rx (ll_geometry layer)) (y - ry (ll_geometry layer)).
(** Some of the layer is in the output. *)
Definition visible (size : Size) (layer : LiveCpuCompositionLayer) : Prop :=
  let r := shown_rect layer in
  drawable layer ∧ 0 < rwidth r ∧ 0 < rheight r ∧ rx r < sz_width size ∧ 0 < rx r + rwidth r ∧ ry r < sz_height size ∧ 0 < ry r + rheight r.
#[export] Instance visible_dec size layer : Decision (visible size layer).
Proof. unfold visible; apply _. Defined.
Lemma visible_covers size layer : 0 < sz_width size → 0 < sz_height size →
  visible size layer ↔ ∃ x y, in_size size x y ∧ covers layer x y.
Proof.
  intros Hw Hh. unfold visible, covers, in_rect, in_size. split.
  - intros (Hd & H1 & H2 & H3 & H4 & H5 & H6). exists (Z.max 0 (rx (shown_rect layer))), (Z.max 0 (ry (shown_rect layer))).
    split_and!; lia || done.
  - intros (x & y & Hin & Hd & Hr). split_and!; lia || done.
Qed.

(** Steps that each copy their row copy them all. *)
Lemma fold_compose_rows source sx sy sst tx ty tst rb (bytes : list Z) (src : Z → list Z) (copied : bool) (n : nat) :
  (∀ row acc, 0 ≤ row < Z.of_nat n → length acc.2 = length bytes →
     compose_row source sx sy sst tx ty tst rb acc row = (true, set_range acc.2 ((ty + row) * tst + 4 * tx) (src row))) →
  (∀ row, 0 ≤ row < Z.of_nat n → length (blit tst tx ty src bytes (seqZ 0 row)) = length bytes) →
  foldl (compose_row source sx sy sst tx ty tst rb) (copied, bytes) (seqZ 0 (Z.of_nat n)) =
    ((if decide (n = 0%nat) then copied else true), blit tst tx ty src bytes (seqZ 0 (Z.of_nat n))).
Proof.
  induction n as [|n IH]; intros Hstep Hlen; [done|]. rewrite seqZ_S, foldl_app, IH by (intros; (apply Hstep || apply Hlen); lia || done).
  unfold blit at 2. rewrite foldl_app. cbn [foldl]. rewrite Z.add_0_l. rewrite Hstep; [|lia|apply Hlen; lia]. done.
Qed.

Lemma not_or_and (P Q : Prop) : ¬ (P ∨ Q) → ¬ P ∧ ¬ Q.
Proof. tauto. Qed.

Section layer.
Context (frame : LiveCpuComposedFrame) (layer : LiveCpuCompositionLayer).
Hypothesis Hf : frame_ok frame.
Hypothesis Hl : layer_ok layer.
Notation b := (ll_buffer layer).
Notation g := (ll_geometry layer).
Notation fw := (sz_width (cf_size frame)).
Notation fh := (sz_height (cf_size frame)).
(** The corner of the part that is copied, in the buffer and in the frame, and its extent. *)
Notation sx := (Z.max (- rx g) 0).
Notation sy := (Z.max (- ry g) 0).
Notation tx := (Z.max (rx g) 0).
Notation ty := (Z.max (ry g) 0).
Notation cw := (Z.min (Z.min (rwidth g - sx) (sz_width (cb_size b) - sx)) (fw - tx)).
Notation ch := (Z.min (Z.min (rheight g - sy) (sz_height (cb_size b) - sy)) (fh - ty)).
Definition source_row (row : Z) : list Z :=
  take (Z.to_nat (4 * cw)) (drop (Z.to_nat ((sy + row) * cb_stride b + 4 * sx)) (cb_bytes b)).

Lemma usize_or_eq d z : usize_or d z = if decide (0 ≤ z) then z else d.
Proof. unfold usize_or, cpu_usize. by case_decide. Qed.
Lemma saturating_neg_eq z : i32_ok z → usize_or 0 (i32_saturating_neg z) = Z.min (Z.max (- z) 0) i32_MAX.
Proof.
  intros Hz. rewrite usize_or_eq. unfold i32_saturating_neg, i32_clamp. unfold i32_ok, i32_MIN, i32_MAX in *. case_decide; lia.
Qed.

Lemma source_row_range row : drawable layer → 0 < cw → 0 ≤ row < ch →
  0 ≤ (sy + row) * cb_stride b + 4 * sx ∧ (sy + row) * cb_stride b + 4 * sx + 4 * cw ≤ Z.of_nat (length (cb_bytes b)) ∧
  0 ≤ (ty + row) * cf_stride frame ∧ (ty + row) * cf_stride frame + 4 * tx + 4 * cw ≤ Z.of_nat (length (cf_bytes frame)).
Proof.
  intros (_ & Hd1 & Hd2) Hcw Hrow. destruct Hf as (F1 & F2 & F3 & F4 & F5). destruct Hl as (_ & (_ & _ & L) & _). unfold u32_ok in L.
  assert (0 ≤ (sy + row) * cb_stride b) by (apply Z.mul_nonneg_nonneg; lia).
  assert ((sy + row + 1) * cb_stride b ≤ sz_height (cb_size b) * cb_stride b) by (apply Z.mul_le_mono_nonneg_r; lia).
  assert (0 ≤ (ty + row) * cf_stride frame) by (apply Z.mul_nonneg_nonneg; lia).
  assert ((ty + row + 1) * cf_stride frame ≤ fh * cf_stride frame) by (apply Z.mul_le_mono_nonneg_r; lia).
  split_and!; lia.
Qed.
Lemma length_source_row row : drawable layer → 0 < cw → 0 ≤ row < ch → Z.of_nat (length (source_row row)) = 4 * cw.
Proof.
  intros Hd Hcw Hrow. destruct (source_row_range row Hd Hcw Hrow) as (R1 & R2 & _). unfold source_row. rewrite length_take, length_drop. lia.
Qed.

(** A layer that shows something is copied row by row. *)
Lemma compose_layer_rows : visible (cf_size frame) layer →
  compose_layer frame layer =
    (true, with_frame_bytes frame (blit (cf_stride frame) tx ty source_row (cf_bytes frame) (seqZ 0 ch))) ∧ 0 < cw ∧ 0 < ch.
Proof.
  intros (Hd & V1 & V2 & V3 & V4 & V5 & V6). simpl in V1, V2, V3, V4, V5, V6. pose proof Hd as (D1 & D2 & D3).
  pose proof Hf as (F1 & F2 & F3 & F4 & F5). pose proof Hl as ((L1 & L2 & L3 & L4) & (L5 & L6 & L7) & L8).
  destruct live_max_bytes_usize as [Hm Hu]. assert (0 < cw ∧ 0 < ch) as [Hcw Hch] by lia. split; [|done].
  unfold compose_layer. rewrite decide_False by (unfold LIVE_RENDERER_SCANOUT_FORMAT_XRGB8888 in *; lia).
  rewrite !saturating_neg_eq, !usize_or_eq by done. unfold u32_ok, u32_MAX in L7. unfold i32_ok, i32_MAX, i32_MIN in *.
  rewrite !(decide_True (P := 0 ≤ _)) by lia.
  assert (cb_stride b * sz_height (cb_size b) < usize_MAX) by lia.
  unfold u_sat_mul, saturating_mul. rewrite (Z.min_l (sz_width (cb_size b) * 4)), (Z.min_l (cb_stride b * _)) by lia.
  rewrite decide_False by lia. rewrite (Z.min_l sx), (Z.min_l sy) by lia. rewrite decide_False by lia. unfold saturating_sub.
  rewrite !(Z.max_l (_ - _) 0) by lia. rewrite decide_False by lia. rewrite (Z.min_l (cw * 4)) by lia.
  unfold range. rewrite Z.sub_0_r. replace ch with (Z.of_nat (Z.to_nat ch)) by lia.
  rewrite (fold_compose_rows _ _ _ _ _ _ _ _ _ source_row).
  - rewrite decide_False by lia. done.
  - intros row [copied acc] Hrow Hlen. cbn [snd] in Hlen. destruct (source_row_range row Hd Hcw ltac:(lia)) as (R1 & R2 & R3 & R4).
    assert (0 ≤ (sy + row) * cb_stride b) by (apply Z.mul_nonneg_nonneg; lia).
    unfold compose_row, u_sat_add, u_sat_mul, saturating_add, saturating_mul. cbn [snd].
    rewrite (Z.min_l (sy + row)), (Z.min_l (ty + row)) by lia.
    rewrite (Z.min_l ((sy + row) * _)), (Z.min_l ((ty + row) * _)), (Z.min_l (sx * 4)), (Z.min_l (tx * 4)) by lia.
    rewrite (Z.min_l (_ + sx * 4)), (Z.min_l (_ + tx * 4)) by lia. rewrite (Z.mul_comm sx 4), (Z.mul_comm tx 4), (Z.mul_comm cw 4).
    rewrite (Z.min_l (_ + 4 * sx + _)), (Z.min_l (_ + 4 * tx + _)) by lia.
    rewrite slice_range_in by lia. unfold slice_range. rewrite decide_True by lia. done.
  - intros row Hrow. replace row with (Z.of_nat (Z.to_nat row)) by lia. apply (length_blit _ _ _ cw); [lia|lia| |].
    + intros r Hr. apply length_source_row; [done|lia|lia].
    + rewrite F4, (Z.mul_comm (cf_stride frame)). apply Z.mul_le_mono_nonneg_r; lia.
Qed.
(** What shows nothing changes nothing. *)
Lemma compose_layer_hidden : ¬ visible (cf_size frame) layer → compose_layer frame layer = (false, frame).
Proof.
  intros Hv. pose proof Hf as (F1 & F2 & F3 & F4 & F5). pose proof Hl as ((L1 & L2 & L3 & L4) & (L5 & L6 & L7) & L8).
  destruct live_max_bytes_usize as [Hm Hu]. unfold u32_ok, u32_MAX in L7. unfold compose_layer. case_decide as H1; [done|].
  rewrite !saturating_neg_eq, !usize_or_eq by done. unfold i32_ok, i32_MAX, i32_MIN in *. rewrite !(decide_True (P := 0 ≤ _)) by lia.
  case_decide as H3; [done|]. case_decide as H4; [done|]. unfold saturating_sub. case_decide as H5; [done|]. exfalso. apply Hv.
  assert (cb_stride b * sz_height (cb_size b) < 9223372036854775808).
  { assert (cb_stride b * sz_height (cb_size b) ≤ 4294967295 * 2147483647) by (apply Z.mul_le_mono_nonneg; lia). lia. }
  unfold u_sat_mul, saturating_mul in H3. rewrite (Z.min_l (sz_width (cb_size b) * 4)), (Z.min_l (cb_stride b * _)) in H3 by lia.
  assert (4 * sz_width (cb_size b) ≤ cb_stride b ∧ cb_stride b * sz_height (cb_size b) ≤ Z.of_nat (length (cb_bytes b))) as [D1 D2]
    by (clear -H3; lia).
  assert (cb_format b = LIVE_RENDERER_SCANOUT_FORMAT_XRGB8888 ∧ 0 < rwidth g ∧ 0 < rheight g ∧ 0 < sz_width (cb_size b) ∧ 0 < sz_height (cb_size b))
    as (E1 & E2 & E3 & E4 & E5) by (clear -H1; lia).
  assert (Z.min sx 2147483647 < sz_width (cb_size b) ∧ Z.min sy 2147483647 < sz_height (cb_size b) ∧ tx < fw ∧ ty < fh)
    as (A1 & A2 & A3 & A4) by (split_and!; apply Z.nle_gt; tauto).
  assert (Z.min sx 2147483647 = sx ∧ Z.min sy 2147483647 = sy) as [A5 A6] by (clear -A1 A2 L5 L6; lia).
  rewrite A5, A6 in *. apply not_or_and in H5 as [B1 B2].
  unfold visible, drawable. cbn [shown_rect rx ry rwidth rheight]. split; [done|].
  split_and!; [clear -E2 E4; lia|clear -E3 E5; lia|clear -A3; lia|clear -B1 A1 A3 E2 E4; lia|clear -A4; lia|clear -B2 A2 A4 E3 E5; lia].
Qed.
Lemma compose_layer_pixels :
  let composed := compose_layer frame layer in
  same_frame frame composed.2 ∧ composed.1 = bool_decide (visible (cf_size frame) layer) ∧
  ∀ x y, in_size (cf_size frame) x y →
    frame_quad composed.2 x y = if decide (covers layer x y) then layer_quad layer x y else frame_quad frame x y.
Proof.
  pose proof Hf as (F1 & F2 & F3 & F4 & F5). cbv zeta. destruct (decide (visible (cf_size frame) layer)) as [Hv|Hv].
  - destruct (compose_layer_rows Hv) as (-> & Hcw & Hch). cbn [fst snd]. pose proof (proj1 Hv) as Hd. rewrite bool_decide_true by done.
    assert (∀ row, 0 ≤ row < Z.of_nat (Z.to_nat ch) → Z.of_nat (length (source_row row)) = 4 * cw) as Hlen
      by (intros; apply length_source_row; [done|lia|lia]).
    assert ((ty + Z.of_nat (Z.to_nat ch)) * cf_stride frame ≤ Z.of_nat (length (cf_bytes frame))) as Hrows
      by (rewrite F4, (Z.mul_comm (cf_stride frame)); apply Z.mul_le_mono_nonneg_r; lia).
    replace (seqZ 0 ch) with (seqZ 0 (Z.of_nat (Z.to_nat ch))) by (f_equal; lia).
    split_and!; [|done|].
    + unfold same_frame. simpl. split_and!; try done. apply (length_blit _ _ _ cw); [lia|lia|done|done].
    + intros x y [Hx Hy]. unfold frame_quad. cbn [with_frame_bytes cf_bytes cf_stride].
      assert ((y + 1) * cf_stride frame ≤ Z.of_nat (length (cf_bytes frame)))
        by (rewrite F4, (Z.mul_comm (cf_stride frame)); apply Z.mul_le_mono_nonneg_r; lia).
      destruct (quad_blit (cf_stride frame) tx ty cw source_row ltac:(lia) ltac:(lia) (cf_bytes frame) (Z.to_nat ch) x y Hlen Hrows)
        as [_ ->]; [lia..|].
      unfold covers, in_rect. cbn [shown_rect rx ry rwidth rheight].
      destruct (decide (ty ≤ y < ty + Z.of_nat (Z.to_nat ch) ∧ tx ≤ x < tx + cw)) as [Hin|Hin].
      * rewrite decide_True by (split; [done|lia]).
        destruct (source_row_range (y - ty) Hd Hcw ltac:(lia)) as (R1 & R2 & _).
        pose proof (length_source_row (y - ty) Hd Hcw ltac:(lia)).
        assert (0 ≤ (y - ry g) * cb_stride b) by (apply Z.mul_nonneg_nonneg; [lia|destruct Hl as (_ & (_ & _ & [? _]) & _); lia]).
        replace (sy + (y - ty)) with (y - ry g) in * by lia.
        unfold layer_quad, quad. rewrite !slice_range_in by lia. f_equal. apply list_eq. intros i.
        destruct (decide (i < Z.to_nat 4)%nat); [|by rewrite !lookup_take_ge by lia]. unfold source_row.
        replace (sy + (y - ty)) with (y - ry g) by lia.
        rewrite !lookup_take_lt, !lookup_drop, lookup_take_lt, lookup_drop by lia. f_equal. lia.
      * rewrite decide_False by (intros [_ Hr]; lia). done.
  - rewrite compose_layer_hidden by done. rewrite bool_decide_false by done. split_and!; [apply same_frame_refl|done|].
    intros x y Hin. rewrite decide_False; [done|]. intros Hc. apply Hv, visible_covers; [lia|lia|]. eauto.
Qed.
End layer.

(** The layers, the last one on top. *)
Definition shown (layers : list LiveCpuCompositionLayer) (x y : Z) (below : option (list Z)) : option (list Z) :=
  foldl (λ q layer, if decide (covers layer x y) then layer_quad layer x y else q) below layers.

Lemma compose_layers_pixels frame layers n : frame_ok frame → Forall layer_ok layers → 0 ≤ n → n + Z.of_nat (length layers) ≤ usize_MAX →
  let composed := foldl (λ acc layer, let composed := compose_layer acc.2 layer in
                     ((if composed.1 then saturating_add usize_MAX acc.1 1 else acc.1), composed.2)) (n, frame) layers in
  same_frame frame composed.2 ∧ composed.1 = n + Z.of_nat (length (filter (visible (cf_size frame)) layers)) ∧
  ∀ x y, in_size (cf_size frame) x y → frame_quad composed.2 x y = shown layers x y (frame_quad frame x y).
Proof.
  intros Hf Hls. revert frame n Hf. induction Hls as [|layer layers Hl Hls IH]; intros frame n Hf Hn Hmax; cbv zeta.
  { simpl. split_and!; [apply same_frame_refl|lia|done]. }
  destruct (compose_layer_pixels frame layer Hf Hl) as (Hs & Hv & Hq). cbn [foldl length fst snd] in *. cbv zeta in Hs, Hv, Hq. rewrite Hv.
  pose proof (same_frame_ok _ _ Hs Hf) as Hf'. pose proof Hs as (Hsize & _).
  set (k := if bool_decide (visible (cf_size frame) layer) then saturating_add usize_MAX n 1 else n).
  assert (k = n + (if decide (visible (cf_size frame) layer) then 1 else 0)) as Hk.
  { unfold k, saturating_add. case_bool_decide; case_decide; try done; lia. }
  destruct (IH (compose_layer frame layer).2 k Hf') as (Hs2 & Hc & Hq2); [rewrite Hk; case_decide; lia|rewrite Hk; case_decide; lia|].
  rewrite Hsize in Hc, Hq2. split_and!; [by eapply same_frame_trans| |].
  - rewrite Hc, Hk, filter_cons. case_decide; cbn [length]; lia.
  - intros x y Hin. rewrite Hq2, Hq by done. done.
Qed.

(** ** What the cursor shows *)

Lemma quad_set_quad bytes stride x y c x' y' : Z.of_nat (length c) = 4 →
  0 ≤ x → 4 * x + 4 ≤ stride → 0 ≤ y → (y + 1) * stride ≤ Z.of_nat (length bytes) →
  0 ≤ x' → 4 * x' + 4 ≤ stride → 0 ≤ y' → (y' + 1) * stride ≤ Z.of_nat (length bytes) →
  quad (set_range bytes (y * stride + 4 * x) c) stride x' y' = if decide (x' = x ∧ y' = y) then Some c else quad bytes stride x' y'.
Proof.
  intros Hc H1 H2 H3 H4 H5 H6 H7 H8. pose proof (quad_set_row stride x y 1 (λ _, c) ltac:(lia) ltac:(lia) bytes 0 x' y') as Hq.
  rewrite Z.add_0_r in Hq. rewrite Hq by (done || lia). clear Hq.
  destruct (decide (x' = x ∧ y' = y)) as [[-> ->]|Hd]; [|by rewrite decide_False by lia].
  rewrite decide_True by lia. rewrite Z.sub_diag, Z.mul_0_r. replace (0 + 4) with (Z.of_nat (length c)) by lia.
  unfold slice_range. rewrite decide_True by lia. rewrite Z.sub_0_r, Nat2Z.id. by rewrite drop_0, take_ge by lia.
Qed.
Lemma put_pixel_spec f x y c : frame_ok f → Z.of_nat (length c) = 4 →
  same_frame f (put_pixel f x y c) ∧
  ∀ x' y', in_size (cf_size f) x' y' → frame_quad (put_pixel f x y c) x' y' = if decide (x' = x ∧ y' = y) then Some c else frame_quad f x' y'.
Proof.
  intros Hf Hc. pose proof Hf as (F1 & F2 & F3 & F4 & F5). destruct live_max_bytes_usize as [Hm Hu].
  assert (∀ z, z < sz_height (cf_size f) → (z + 1) * cf_stride f ≤ Z.of_nat (length (cf_bytes f))) as Hrow.
  { intros z Hz. rewrite F4, (Z.mul_comm (cf_stride f)). apply Z.mul_le_mono_nonneg_r; lia. }
  destruct (decide (in_size (cf_size f) x y)) as [[Hx Hy]|Hout].
  - assert (0 ≤ y * cf_stride f) by (apply Z.mul_nonneg_nonneg; lia). pose proof (Hrow y ltac:(lia)) as Hr.
    assert (put_pixel f x y c = with_frame_bytes f (set_range (cf_bytes f) (y * cf_stride f + 4 * x) c)) as ->.
    { unfold put_pixel, cpu_usize. rewrite !(decide_True (P := 0 ≤ _)) by lia. cbn [mbind option_bind]. rewrite !usize_or_eq.
      rewrite !(decide_True (P := 0 ≤ _)) by lia. rewrite decide_False by lia.
      unfold checked_mul, checked_add, u_sat_mul, saturating_mul, u_sat_add, saturating_add.
      rewrite (decide_True (P := y * _ ≤ _)) by lia. cbn [mbind option_bind]. rewrite (Z.min_l (x * 4)), (Z.mul_comm x 4) by lia.
      rewrite decide_True by lia. cbn [mbind option_bind]. rewrite Z.min_l by lia. unfold slice_range. by rewrite decide_True by lia. }
    split.
    + unfold same_frame. simpl. split_and!; try done. apply length_set_range; lia.
    + intros x' y' [Hx' Hy']. unfold frame_quad. cbn [with_frame_bytes cf_bytes cf_stride]. apply quad_set_quad; try lia; apply Hrow; lia.
  - assert (put_pixel f x y c = f) as ->.
    { unfold put_pixel, cpu_usize. destruct (decide (0 ≤ x)), (decide (0 ≤ y)); cbn [mbind option_bind]; try done.
      rewrite !usize_or_eq, !(decide_True (P := 0 ≤ _)) by lia. rewrite decide_True; [done|]. unfold in_size in Hout. lia. }
    split; [apply same_frame_refl|]. intros x' y' Hin. rewrite decide_False; [done|]. by intros [-> ->].
Qed.

Definition cursor_quad (origin : Z * Z) (x y : Z) : option (list Z) :=
  if decide (in_rect x y (mk_rect origin.1 origin.2 16 16)) then cursor_at (Z.to_nat (x - origin.1)) (Z.to_nat (y - origin.2)) else None.
Lemma cursor_at_length column row c : cursor_at column row = Some c → Z.of_nat (length c) = 4.
Proof.
  unfold cursor_at. intros (pixels & _ & (pixel & _ & Hc)%bind_Some)%bind_Some. unfold cursor_color in Hc.
  repeat (case_decide; [by injection Hc as <-|]). done.
Qed.
(** [over] where it has a colour. *)
Definition over (o below : option (list Z)) : option (list Z) := match o with Some c => Some c | None => below end.

Section cursor.
Context (origin : Z * Z) (Horigin : i32_ok origin.1 ∧ i32_ok origin.2).

Lemma origin_added a n x w : i32_ok a → 0 ≤ n ≤ 16 → 0 ≤ x < w → w ≤ i32_MAX → x = i32_saturating_add a n ↔ x = a + n.
Proof. unfold i32_ok, i32_saturating_add, i32_clamp, i32_MAX, i32_MIN. lia. Qed.
Lemma cursor_pixel_spec f row column : frame_ok f → (row ≤ 16)%nat → (column ≤ 16)%nat →
  same_frame f (cursor_pixel origin row f column) ∧
  ∀ x y, in_size (cf_size f) x y → frame_quad (cursor_pixel origin row f column) x y =
    if decide (x = origin.1 + Z.of_nat column ∧ y = origin.2 + Z.of_nat row) then over (cursor_at column row) (frame_quad f x y) else frame_quad f x y.
Proof.
  intros Hf Hrow Hcol. unfold cursor_pixel. destruct (cursor_at column row) as [c|] eqn:Hc.
  - pose proof Hf as (F1 & F2 & _). apply cursor_at_length in Hc. edestruct (put_pixel_spec f) as [Hs Hq]; [done..|]. split; [exact Hs|].
    intros x y Hin. rewrite Hq by done. destruct Horigin as [O1 O2], Hin as [Hx Hy].
    pose proof (origin_added origin.1 (Z.of_nat column) x (sz_width (cf_size f)) O1 ltac:(lia) Hx ltac:(lia)) as E1.
    pose proof (origin_added origin.2 (Z.of_nat row) y (sz_height (cf_size f)) O2 ltac:(lia) Hy ltac:(lia)) as E2.
    repeat case_decide; tauto || done.
  - split; [apply same_frame_refl|]. intros x y _. by case_decide.
Qed.
Lemma cursor_columns f row (n : nat) : frame_ok f → (row ≤ 16)%nat → (n ≤ 16)%nat →
  let f' := foldl (cursor_pixel origin row) f (seq 0 n) in
  same_frame f f' ∧ ∀ x y, in_size (cf_size f) x y → frame_quad f' x y =
    if decide (origin.1 ≤ x < origin.1 + Z.of_nat n ∧ y = origin.2 + Z.of_nat row)
    then over (cursor_at (Z.to_nat (x - origin.1)) row) (frame_quad f x y) else frame_quad f x y.
Proof.
  intros Hf Hrow Hn. cbv zeta. induction n as [|n IH].
  { simpl. split; [apply same_frame_refl|]. intros x y _. by rewrite decide_False by lia. }
  destruct IH as [Hs Hq]; [lia|]. rewrite seq_S, foldl_app. cbn [foldl Nat.add]. set (f1 := foldl _ f (seq 0 n)) in *.
  destruct (cursor_pixel_spec f1 row n) as [Hs1 Hq1]; [by apply (same_frame_ok f)|lia|lia|].
  split; [by eapply same_frame_trans|]. intros x y Hin. rewrite Hq1 by (by destruct Hs as (-> & _)). rewrite Hq by done.
  destruct (decide (x = origin.1 + Z.of_nat n ∧ y = origin.2 + Z.of_nat row)) as [[-> ->]|Hd].
  - rewrite decide_False, decide_True by lia. do 2 f_equal. lia.
  - destruct (decide (origin.1 ≤ x < origin.1 + Z.of_nat n ∧ y = origin.2 + Z.of_nat row)).
    + by rewrite decide_True by lia.
    + by rewrite decide_False by lia.
Qed.
Lemma cursor_rows f (n : nat) : frame_ok f → (n ≤ 16)%nat →
  let f' := foldl (λ frame row, foldl (cursor_pixel origin row) frame (seq 0 CLASSIC_X11_CURSOR_EDGE)) f (seq 0 n) in
  same_frame f f' ∧ ∀ x y, in_size (cf_size f) x y → frame_quad f' x y =
    if decide (origin.1 ≤ x < origin.1 + 16 ∧ origin.2 ≤ y < origin.2 + Z.of_nat n)
    then over (cursor_at (Z.to_nat (x - origin.1)) (Z.to_nat (y - origin.2))) (frame_quad f x y) else frame_quad f x y.
Proof.
  intros Hf Hn. cbv zeta. induction n as [|n IH].
  { simpl. split; [apply same_frame_refl|]. intros x y _. by rewrite decide_False by lia. }
  destruct IH as [Hs Hq]; [lia|]. rewrite (seq_S n), foldl_app. cbn [foldl Nat.add]. set (f1 := foldl _ f (seq 0 n)) in *.
  destruct (cursor_columns f1 n CLASSIC_X11_CURSOR_EDGE) as [Hs1 Hq1]; [by apply (same_frame_ok f)|lia|unfold CLASSIC_X11_CURSOR_EDGE; lia|].
  split; [by eapply same_frame_trans|]. intros x y Hin. rewrite Hq1 by (by destruct Hs as (-> & _)). rewrite Hq by done.
  change (Z.of_nat CLASSIC_X11_CURSOR_EDGE) with 16.
  destruct (decide (origin.1 ≤ x < origin.1 + 16 ∧ y = origin.2 + Z.of_nat n)) as [[Hx ->]|Hd].
  - rewrite decide_False, decide_True by lia. do 2 f_equal. lia.
  - destruct (decide (origin.1 ≤ x < origin.1 + 16 ∧ origin.2 ≤ y < origin.2 + Z.of_nat n)).
    + by rewrite decide_True by lia.
    + by rewrite decide_False by lia.
Qed.
End cursor.

(** The colour of the cursor at a pixel, where there is one. *)
Definition cursor_shown (position : option Point) (x y : Z) : option (list Z) :=
  position ← position; origin ← cursor_origin position; cursor_quad origin x y.
Lemma i32_clamp_ok z : i32_ok (i32_clamp z).
Proof. unfold i32_ok, i32_clamp, i32_MAX, i32_MIN. lia. Qed.
Lemma compose_cursor_pixels f position : frame_ok f →
  let f' := match position with Some position => compose_software_cursor f position | None => f end in
  same_frame f f' ∧ ∀ x y, in_size (cf_size f) x y → frame_quad f' x y = over (cursor_shown position x y) (frame_quad f x y).
Proof.
  intros Hf. destruct position as [position|]; [|by split; [apply same_frame_refl|]]. cbv zeta. unfold compose_software_cursor, cursor_shown.
  cbn [mbind option_bind]. destruct (cursor_origin position) as [origin|] eqn:Ho; [|by split; [apply same_frame_refl|]]. cbn [mbind option_bind].
  assert (i32_ok origin.1 ∧ i32_ok origin.2) as Horigin.
  { unfold cursor_origin in Ho. case_decide; [done|]. injection Ho as <-. split; apply i32_clamp_ok. }
  destruct (cursor_rows origin Horigin f CLASSIC_X11_CURSOR_EDGE Hf) as [Hs Hq]; [done|]. split; [exact Hs|].
  intros x y Hin. rewrite Hq by done. unfold cursor_quad, in_rect. cbn [rx ry rwidth rheight]. change (Z.of_nat CLASSIC_X11_CURSOR_EDGE) with 16.
  repeat case_decide; tauto || done.
Qed.

(** ** Frames *)

Lemma fold_metrics_rest bytes nonzero checksum : 0 ≤ nonzero → nonzero + Z.of_nat (length bytes) ≤ usize_MAX →
  (foldl (λ acc b, (saturating_add usize_MAX acc.1 (if decide (b ≠ 0) then 1 else 0), fnv_step acc.2 b)) (nonzero, checksum) bytes).1 =
    nonzero + count_nonzero bytes.
Proof.
  revert nonzero checksum. induction bytes as [|b bytes IH]; intros nonzero checksum H0 H1; cbn [foldl length fst snd] in *.
  { unfold count_nonzero. simpl. lia. }
  assert (saturating_add usize_MAX nonzero (if decide (b ≠ 0) then 1 else 0) = nonzero + (if decide (b ≠ 0) then 1 else 0)) as ->.
  { unfold saturating_add. case_decide; lia. }
  rewrite IH by (case_decide; lia). unfold count_nonzero. rewrite filter_cons. case_decide; cbn [length]; lia.
Qed.
Lemma count_nonzero_app l k : count_nonzero (l ++ k) = count_nonzero l + count_nonzero k.
Proof. unfold count_nonzero. rewrite filter_app, length_app. lia. Qed.
Lemma count_nonzero_le l : 0 ≤ count_nonzero l ≤ Z.of_nat (length l).
Proof. unfold count_nonzero. pose proof (length_filter (λ b, b ≠ 0) l). lia. Qed.
Lemma frame_metrics_count (n : nat) bytes nonzero checksum : (length bytes ≤ n)%nat → 0 ≤ nonzero →
  nonzero + Z.of_nat (length bytes) ≤ usize_MAX → (frame_metrics nonzero checksum bytes).1 = nonzero + count_nonzero bytes.
Proof.
  revert bytes nonzero checksum. induction n as [|n IH]; intros bytes nonzero checksum Hn H0 H1.
  { destruct bytes; [|simpl in Hn; lia]. unfold count_nonzero. simpl. lia. }
  do 8 (destruct bytes as [|? bytes]; [by apply fold_metrics_rest|]). cbn [frame_metrics].
  set (word := [_; _; _; _; _; _; _; _]). pose proof (count_nonzero_le word). cbn [length] in *.
  assert (saturating_add usize_MAX nonzero (count_nonzero word) = nonzero + count_nonzero word) as ->.
  { unfold saturating_add. change (Z.of_nat (length word)) with 8 in *. lia. }
  change (Z.of_nat (length word)) with 8 in *. rewrite IH by lia.
  change (z :: z0 :: z1 :: z2 :: z3 :: z4 :: z5 :: z6 :: bytes) with (word ++ bytes). rewrite count_nonzero_app. lia.
Qed.

Lemma frame_lengths_spec size : i32_ok (sz_width size) → i32_ok (sz_height size) →
  frame_lengths size =
    (if decide (sz_width size ≤ 0 ∨ sz_height size ≤ 0) then Err InvalidOutputSize
     else if decide (LIVE_CPU_BUFFER_MAX_BYTES < 4 * sz_width size * sz_height size) then Err OutputTooLarge
     else Ok (4 * sz_width size, 4 * sz_width size * sz_height size)).
Proof.
  intros Hw Hh. destruct live_max_bytes_usize as [Hm Hu]. unfold frame_lengths, cpu_usize, checked_mul, i32_ok, i32_MAX, i32_MIN in *.
  destruct (decide (0 ≤ sz_width size)); cbn [mbind option_bind]; [|by rewrite (decide_True (P := _ ∨ _)) by lia].
  destruct (decide (0 < sz_width size)); cbn [ok_or res_bind]; [|by rewrite (decide_True (P := _ ∨ _)) by lia].
  destruct (decide (0 ≤ sz_height size)); cbn [mbind option_bind]; [|by rewrite (decide_True (P := _ ∨ _)) by lia].
  destruct (decide (0 < sz_height size)); cbn [ok_or res_bind]; [|by rewrite (decide_True (P := _ ∨ _)) by lia].
  rewrite (decide_False (P := _ ∨ _)) by lia. rewrite (decide_True (P := sz_width size * 4 ≤ _)) by lia. cbn [ok_or res_bind].
  assert (sz_width size * sz_height size ≤ 2147483647 * 2147483647) by (apply Z.mul_le_mono_nonneg; lia).
  rewrite (decide_True (P := _ ≤ usize_MAX)) by lia. cbn [mbind option_bind].
  destruct (decide (sz_width size * 4 * sz_height size ≤ LIVE_CPU_BUFFER_MAX_BYTES)); cbn [ok_or res_bind].
  - rewrite (decide_False (P := LIVE_CPU_BUFFER_MAX_BYTES < _)) by lia.
    assert (sz_width size ≤ sz_width size * sz_height size) by nia.
    rewrite decide_True by (unfold u32_MAX; lia). by rewrite (Z.mul_comm (sz_width size) 4).
  - by rewrite (decide_True (P := LIVE_CPU_BUFFER_MAX_BYTES < _)) by lia.
Qed.

Lemma direct_layer_Some size stride len layers layer : direct_layer size stride len layers = Some layer →
  layers = [layer] ∧ is_direct size stride len layer.
Proof. unfold direct_layer. destruct layers as [|l [|]]; [done| |done]. case_decide; [|done]. by intros [= ->]. Qed.
Lemma quad_zeros n stride x y : 0 ≤ y * stride + 4 * x → y * stride + 4 * x + 4 ≤ Z.of_nat n → quad (replicate n 0) stride x y = Some [0; 0; 0; 0].
Proof.
  intros H1 H2. unfold quad. rewrite slice_range_in by (rewrite ?length_replicate; lia). f_equal.
  rewrite drop_replicate, take_replicate. replace (Nat.min (Z.to_nat 4) (n - Z.to_nat (y * stride + 4 * x))) with 4%nat by lia. done.
Qed.

(** The frame before the cursor, copied or drawn layer by layer. *)
Lemma layers_pixels size layers : 0 < sz_width size → 0 < sz_height size → i32_ok (sz_width size) → i32_ok (sz_height size) →
  4 * sz_width size * sz_height size ≤ LIVE_CPU_BUFFER_MAX_BYTES → Forall layer_ok layers → Z.of_nat (length layers) ≤ usize_MAX →
  let stride := 4 * sz_width size in
  let byte_len := 4 * sz_width size * sz_height size in
  let frame bytes := mk_composed size stride LIVE_RENDERER_SCANOUT_FORMAT_XRGB8888 bytes in
  let composed := match direct_layer size stride byte_len layers with
                  | Some layer => (1, frame (cb_bytes (ll_buffer layer)))
                  | None => compose_layers (frame (replicate (Z.to_nat byte_len) 0)) layers
                  end in
  frame_ok composed.2 ∧ cf_size composed.2 = size ∧ cf_stride composed.2 = stride ∧
  cf_format composed.2 = LIVE_RENDERER_SCANOUT_FORMAT_XRGB8888 ∧
  composed.1 = Z.of_nat (length (filter (visible size) layers)) ∧
  ∀ x y, in_size size x y → frame_quad composed.2 x y = shown layers x y (Some [0; 0; 0; 0]).
Proof.
  intros Hw Hh Hw32 Hh32 Hmax Hls Hn. unfold i32_ok in *. cbv zeta.
  destruct (direct_layer size (4 * sz_width size) (4 * sz_width size * sz_height size) layers) as [layer|] eqn:Hd.
  - apply direct_layer_Some in Hd as (-> & D1 & D2 & D3 & D4 & D5). cbn [fst snd cf_size cf_stride cf_format].
    assert (drawable layer) as Hdraw by (unfold drawable; rewrite D2, D3, D5; split_and!; [done|lia|lia]).
    assert (shown_rect layer = mk_rect 0 0 (sz_width size) (sz_height size)) as Hr.
    { unfold shown_rect. rewrite D1, D2. cbn [rx ry rwidth rheight]. by rewrite !Z.min_id. }
    split_and!; [unfold frame_ok; cbn [cf_size cf_stride cf_bytes]; split_and!; lia|done..| |].
    + rewrite filter_cons_True; [done|]. unfold visible. rewrite Hr. cbn [rx ry rwidth rheight]. split_and!; [done|lia..].
    + intros x y [Hx Hy]. unfold shown. cbn [foldl]. rewrite decide_True.
      * unfold layer_quad, frame_quad. rewrite D1, D3. cbn [rx ry cf_bytes cf_stride]. by rewrite !Z.sub_0_r.
      * split; [done|]. rewrite Hr. unfold in_rect. cbn [rx ry rwidth rheight]. lia.
  - set (frame := mk_composed size _ _ _).
    assert (frame_ok frame) as Hf.
    { unfold frame_ok, frame. cbn [cf_size cf_stride cf_bytes]. rewrite length_replicate. split_and!; lia. }
    destruct (compose_layers_pixels frame layers 0 Hf Hls) as (Hs & Hc & Hq); [lia|lia|]. unfold compose_layers. cbv zeta in Hs, Hc, Hq.
    pose proof Hs as (E1 & E2 & E3 & _). rewrite E1, E2, E3. split_and!; [by apply (same_frame_ok frame)|done|done|done|by rewrite Hc|].
    intros x y Hin. rewrite Hq by done. f_equal. unfold frame_quad, frame. cbn [cf_bytes cf_stride]. destruct Hin as [Hx Hy].
    assert (0 ≤ y * (4 * sz_width size)) by (apply Z.mul_nonneg_nonneg; lia).
    assert ((y + 1) * (4 * sz_width size) ≤ sz_height size * (4 * sz_width size)) by (apply Z.mul_le_mono_nonneg_r; lia).
    apply quad_zeros; lia.
Qed.

(** An output that is neither empty nor larger than 64 MiB is composed: every pixel of its frame is the
    cursor's where the cursor has a colour, else the topmost layer's that covers it, else black. *)
Lemma composition_spec size layers cursor :
  i32_ok (sz_width size) → i32_ok (sz_height size) → Forall layer_ok layers → Z.of_nat (length layers) ≤ usize_MAX →
  match compose_live_cpu_frame_ref_with_cursor size layers cursor with
  | Err InvalidOutputSize => sz_width size ≤ 0 ∨ sz_height size ≤ 0
  | Err OutputTooLarge => 0 < sz_width size ∧ 0 < sz_height size ∧ LIVE_CPU_BUFFER_MAX_BYTES < 4 * sz_width size * sz_height size
  | Ok report =>
      let frame := cc_frame report in
      cf_size frame = size ∧ cf_stride frame = 4 * sz_width size ∧ cf_format frame = LIVE_RENDERER_SCANOUT_FORMAT_XRGB8888 ∧
      Z.of_nat (length (cf_bytes frame)) = 4 * sz_width size * sz_height size ∧
      (∀ x y, in_size size x y → frame_quad frame x y = over (cursor_shown cursor x y) (shown layers x y (Some [0; 0; 0; 0]))) ∧
      cc_layers_input report = Z.of_nat (length layers) ∧
      cc_layers_composed report = Z.of_nat (length (filter (visible size) layers)) ∧
      cc_nonzero_pixel_bytes report = count_nonzero (cf_bytes frame)
  end.
Proof.
  intros Hw Hh Hls Hn. unfold compose_live_cpu_frame_ref_with_cursor. rewrite frame_lengths_spec by done.
  destruct (decide (sz_width size ≤ 0 ∨ sz_height size ≤ 0)) as [Hz|Hz]; [exact Hz|]. apply not_or_and in Hz as [Hzw Hzh].
  case_decide as Hmax; [cbn [res_bind]; lia|]. cbn [res_bind].
  destruct (layers_pixels size layers ltac:(lia) ltac:(lia) Hw Hh ltac:(lia) Hls Hn) as (Hf & E1 & E2 & E3 & E4 & Hq). cbv zeta in Hf, E1, E2, E3, E4, Hq.
  destruct (match direct_layer _ _ _ _ with Some _ => _ | None => _ end) as [n frame]. cbn [fst snd] in *.
  destruct (compose_cursor_pixels frame cursor Hf) as [Hs Hc]. cbv zeta in Hs, Hc.
  set (frame' := match cursor with Some position => compose_software_cursor frame position | None => frame end) in *.
  pose proof (same_frame_ok _ _ Hs Hf) as (_ & _ & G3 & G4 & G5). destruct Hs as (S1 & S2 & S3 & _).
  pose proof (frame_metrics_count (length (cf_bytes frame')) (cf_bytes frame') 0 FNV_OFFSET) as Hmet. unfold cpu_frame_metrics.
  destruct (frame_metrics 0 FNV_OFFSET (cf_bytes frame')) as [nz ck]. cbn [fst] in Hmet.
  cbn [cc_frame cc_layers_input cc_layers_composed cc_nonzero_pixel_bytes]. rewrite S1, E1 in *. rewrite S2, E2, S3, E3 in *.
  destruct live_max_bytes_usize as [Hm Hu]. split_and!; [done..|lia| |done|done|rewrite Hmet; lia].
  intros x y Hin. rewrite Hc, Hq by done. done.
Qed.

(** ** The scene ([production_cpu_scene.rs]) *)

Record LiveProductionComposedFrame : Type := mk_production_frame {
  pf_frame : LiveCpuComposedFrame; pf_checksum : Z; pf_nonzero_pixel_bytes : Z;
}.
Record LiveProductionCpuScene : Type := mk_scene {
  sn_output_size : Size; sn_buffers : LiveCpuBufferRegistry; sn_last_report : option LiveCpuCompositionReport;
  sn_max_nonzero_pixel_bytes : Z; sn_nonzero_frames : Z;
}.
Definition scene_new (output_size : Size) : LiveProductionCpuScene := mk_scene output_size ∅ None 0 0.
(** The texts of the errors, by what they report. *)
Inductive SceneError : Type :=
| BufferUpdateFailed (error : LiveCpuBufferRegistryError) | CompositionFailed (error : LiveCpuCompositionError)
| NoPrimaryFrame | MarkerOverflow | SecondaryCompositionFailed (error : LiveCpuCompositionError).

Definition set_buffers (s : LiveProductionCpuScene) (buffers : LiveCpuBufferRegistry) : LiveProductionCpuScene :=
  mk_scene (sn_output_size s) buffers (sn_last_report s) (sn_max_nonzero_pixel_bytes s) (sn_nonzero_frames s).
Definition update_buffers (acc : result unit SceneError * LiveCpuBufferRegistry) (update : LiveCpuBufferUpdate) :
    result unit SceneError * LiveCpuBufferRegistry :=
  match acc.1 with
  | Err _ => acc
  | Ok _ => match registry_apply acc.2 update with (Ok _, r) => (Ok (), r) | (Err e, r) => (Err (BufferUpdateFailed e), r) end
  end.
Definition cpu_handle_of (surface : CommittedSurfaceState) : option Z :=
  match cs_buffer surface with CpuBuffer handle => Some handle | _ => None end.
Definition apply_updates (s : LiveProductionCpuScene) (updates : list LiveCpuBufferUpdate)
    (committed_surfaces : list CommittedSurfaceState) : result unit SceneError * LiveProductionCpuScene :=
  match foldl update_buffers (Ok (), sn_buffers s) updates with
  | (Err e, r) => (Err e, set_buffers s r)
  | (Ok _, r) =>
      let retained_handles : gset Z := list_to_set (omap cpu_handle_of committed_surfaces) in
      (Ok (), set_buffers s (retain_handles r (λ handle, bool_decide (handle ∈ retained_handles))))
  end.

(** The committed surfaces as they are stacked: a raised one comes last. *)
Definition surface_order (committed_surfaces : list CommittedSurfaceState) (raised_surface : option SurfaceId) :
    list CommittedSurfaceState :=
  filter (λ s, Some (cs_surface s) ≠ raised_surface) committed_surfaces ++
  option_list (raised ← raised_surface; find_first (λ s, cs_surface s = raised) committed_surfaces).
Definition surface_layer (buffers : LiveCpuBufferRegistry) (surface : CommittedSurfaceState) : option LiveCpuCompositionLayer :=
  handle ← cpu_handle_of surface; buffer ← buffers !! handle; Some (mk_cpu_layer (cs_geometry surface) buffer).
Definition scene_layers (s : LiveProductionCpuScene) (committed_surfaces : list CommittedSurfaceState)
    (raised_surface : option SurfaceId) : list LiveCpuCompositionLayer :=
  omap (surface_layer (sn_buffers s)) (surface_order committed_surfaces raised_surface).
Definition scene_compose (s : LiveProductionCpuScene) (committed_surfaces : list CommittedSurfaceState)
    (raised_surface : option SurfaceId) (cursor_position : option Point) :
    result LiveCpuCompositionReport SceneError * LiveProductionCpuScene :=
  match compose_live_cpu_frame_ref_with_cursor (sn_output_size s) (scene_layers s committed_surfaces raised_surface) cursor_position with
  | Err e => (Err (CompositionFailed e), s)
  | Ok report =>
      let nonzero := cc_nonzero_pixel_bytes report in
      (Ok report, mk_scene (sn_output_size s) (sn_buffers s) (Some report) (Z.max (sn_max_nonzero_pixel_bytes s) nonzero)
         (saturating_add usize_MAX (sn_nonzero_frames s) (if decide (0 < nonzero) then 1 else 0)))
  end.
Definition surface_buffer_generation (s : LiveProductionCpuScene) (committed_surfaces : list CommittedSurfaceState)
    (surface : SurfaceId) : option Z :=
  committed ← find_first (λ c, cs_surface c = surface) committed_surfaces;
  handle ← cpu_handle_of committed; cb_generation <$> sn_buffers s !! handle.
(** [bytes.chunks_exact(4).any(|pixel| pixel != first)] *)
Fixpoint any_pixel_differs (first bytes : list Z) : bool :=
  match bytes with
  | a :: b :: c :: d :: rest => bool_decide ([a; b; c; d] ≠ first) || any_pixel_differs first rest
  | _ => false
  end.
Definition surface_has_visual_detail (s : LiveProductionCpuScene) (committed_surfaces : list CommittedSurfaceState)
    (surface : SurfaceId) : bool :=
  default false
    (committed ← find_first (λ c, cs_surface c = surface) committed_surfaces;
     handle ← cpu_handle_of committed;
     buffer ← sn_buffers s !! handle;
     width ← cpu_usize (sz_width (cb_size buffer));
     height ← cpu_usize (sz_height (cb_size buffer));
     stride ← cpu_usize (cb_stride buffer);
     row_bytes ← checked_mul usize_MAX width 4;
     if decide (width = 0 ∨ height = 0 ∨ stride < row_bytes ∨ (length (cb_bytes buffer) < 4)%nat) then Some false
     else
       let first := take 4 (cb_bytes buffer) in
       Some (existsb (λ row, default false
               (start ← checked_mul usize_MAX row stride; stop ← checked_add usize_MAX start row_bytes;
                any_pixel_differs first <$> slice_range (cb_bytes buffer) start stop)) (range 0 height))).

(** The frame of another output: a marker in its corner. *)
Definition marker_layer (index : nat) (output : HeadlessOutput) : result LiveCpuCompositionLayer SceneError :=
  let marker_size := mk_size (Z.max (Z.min (sz_width (ho_size output)) 64) 1) (Z.max (Z.min (sz_height (ho_size output)) 64) 1) in
  let? marker_stride := ok_or (checked_mul usize_MAX (sz_width marker_size) 4) MarkerOverflow in
  let marker_byte := Z.min (Z.of_nat index + 1) 255 in
  Ok (mk_cpu_layer (mk_rect 0 0 (sz_width marker_size) (sz_height marker_size))
        (mk_cpu_source (saturating_add u64_MAX 1397770240 (Z.of_nat index)) marker_size marker_stride
           LIVE_RENDERER_SCANOUT_FORMAT_XRGB8888 1
           (replicate (Z.to_nat (saturating_mul usize_MAX marker_stride (sz_height marker_size))) marker_byte))).
Definition output_frame (primary : LiveCpuCompositionReport) (entry : nat * HeadlessOutput) :
    result LiveProductionComposedFrame SceneError :=
  let '(index, output) := entry in
  if decide (index = 0%nat ∧ ho_size output = cf_size (cc_frame primary))
  then Ok (mk_production_frame (cc_frame primary) (cc_checksum primary) (cc_nonzero_pixel_bytes primary))
  else
    let? marker := marker_layer index output in
    let? report := map_err SecondaryCompositionFailed (compose_live_cpu_frame (ho_size output) [marker]) in
    Ok (mk_production_frame (cc_frame report) (cc_checksum report) (cc_nonzero_pixel_bytes report)).
Definition frames_for_outputs (s : LiveProductionCpuScene) (outputs : list HeadlessOutput) :
    result (list LiveProductionComposedFrame) SceneError :=
  let? primary := ok_or (sn_last_report s) NoPrimaryFrame in
  try_map (output_frame primary) (imap pair outputs).

(** ** What the scene shows *)

Inductive SceneOp : Type :=
| SceneUpdate (updates : list LiveCpuBufferUpdate) (committed_surfaces : list CommittedSurfaceState)
| SceneCompose (committed_surfaces : list CommittedSurfaceState) (raised_surface : option SurfaceId) (cursor_position : option Point).
Definition scene_step (s : LiveProductionCpuScene) (op : SceneOp) : LiveProductionCpuScene :=
  match op with
  | SceneUpdate updates committed => (apply_updates s updates committed).2
  | SceneCompose committed raised cursor => (scene_compose s committed raised cursor).2
  end.
Definition geometry_ok (surface : CommittedSurfaceState) : Prop :=
  let g := cs_geometry surface in i32_ok (rx g) ∧ i32_ok (ry g) ∧ i32_ok (rwidth g) ∧ i32_ok (rheight g).
#[export] Instance geometry_ok_dec surface : Decision (geometry_ok surface).
Proof. unfold geometry_ok; apply _. Defined.

Lemma update_buffers_ok updates acc : cpu_registry_ok acc.2 → cpu_registry_ok (foldl update_buffers acc updates).2.
Proof.
  revert acc. induction updates as [|u updates IH]; intros [out r] Hr; [done|]. cbn [foldl]. apply IH. unfold update_buffers. cbn [fst snd] in *.
  destruct out; [|done]. pose proof (registry_apply_ok r u Hr) as Ha. by destruct (registry_apply r u) as [[]].
Qed.
(** Only the buffers of committed surfaces are kept. *)
Lemma updates_retained s updates committed : (apply_updates s updates committed).1 = Ok () →
  ∀ handle, is_Some (sn_buffers (apply_updates s updates committed).2 !! handle) → handle ∈ omap cpu_handle_of committed.
Proof.
  unfold apply_updates. destruct (foldl update_buffers (Ok (), sn_buffers s) updates) as [[]]; [|done]. intros _ handle [b Hb].
  unfold retain_handles in Hb. cbn [snd set_buffers sn_buffers] in Hb. apply map_lookup_filter_Some in Hb as [_ Hh].
  cbn [fst] in Hh. apply bool_decide_eq_true in Hh. by apply elem_of_list_to_set in Hh.
Qed.
Lemma scene_step_ok s op : cpu_registry_ok (sn_buffers s) →
  cpu_registry_ok (sn_buffers (scene_step s op)) ∧ sn_output_size (scene_step s op) = sn_output_size s.
Proof.
  intros Hs. destruct op as [updates committed|committed raised cursor]; cbn [scene_step].
  - unfold apply_updates. pose proof (update_buffers_ok updates (Ok (), sn_buffers s) Hs) as Hu.
    destruct (foldl update_buffers (Ok (), sn_buffers s) updates) as [[] r]; cbn [snd set_buffers sn_buffers sn_output_size] in *; [|done].
    split; [|done]. intros handle b [Hb _]%map_lookup_filter_Some. by apply Hu.
  - unfold scene_compose. by destruct (compose_live_cpu_frame_ref_with_cursor _ _ _).
Qed.
Lemma scene_run_ok size ops : let s := foldl scene_step (scene_new size) ops in cpu_registry_ok (sn_buffers s) ∧ sn_output_size s = size.
Proof.
  cbv zeta. induction ops as [|op ops [IH1 IH2]] using rev_ind; [by split; [apply map_Forall_empty|]|].
  rewrite foldl_app. cbn [foldl]. destruct (scene_step_ok _ op IH1) as [H1 H2]. by rewrite H2.
Qed.

Lemma registry_layer_ok r handle b surface : cpu_registry_ok r → r !! handle = Some b → geometry_ok surface → layer_ok (mk_cpu_layer (cs_geometry surface) b).
Proof.
  intros Hr Hb Hg. destruct (Hr _ _ Hb) as [_ (B1 & B2 & B3 & B4 & B5)]. destruct live_max_bytes_usize as [Hm Hu].
  assert (cb_stride b ≤ cb_stride b * sz_height (cb_size b)) by nia.
  assert (sz_height (cb_size b) ≤ cb_stride b * sz_height (cb_size b)) by nia.
  unfold layer_ok. cbn [ll_geometry ll_buffer]. split_and!; [apply Hg..|unfold i32_ok, i32_MAX, i32_MIN; lia|unfold i32_ok, i32_MAX, i32_MIN; lia|unfold u32_ok, u32_MAX; lia|lia].
Qed.
Lemma surface_order_subset committed raised surface : surface ∈ surface_order committed raised → surface ∈ committed.
Proof.
  unfold surface_order. rewrite elem_of_app. intros [[_ H]%list_elem_of_filter|H]; [done|]. destruct raised as [raised|]; [|by apply elem_of_nil in H].
  cbn [mbind option_bind] in H. destruct (find_first _ committed) as [c|] eqn:E; [|by apply elem_of_nil in H].
  apply list_elem_of_singleton in H as ->. by apply find_first_Some in E as [E _].
Qed.
Lemma scene_layers_ok s committed raised : cpu_registry_ok (sn_buffers s) → Forall geometry_ok committed → Forall layer_ok (scene_layers s committed raised).
Proof.
  intros Hs Hg. apply Forall_forall. intros layer (surface & Hin & Hl)%list_elem_of_omap. apply surface_order_subset in Hin.
  unfold surface_layer in Hl. apply bind_Some in Hl as (handle & _ & (b & Hb & [= <-])%bind_Some).
  eapply registry_layer_ok; [done..|]. rewrite Forall_forall in Hg. by apply Hg.
Qed.
Lemma length_omap_le {A B} (f : A → option B) l : (length (omap f l) ≤ length l)%nat.
Proof. induction l as [|a l IH]; [done|]. cbn [omap list_omap length]. destruct (f a); cbn [length]; unfold omap in *; lia. Qed.
Lemma length_surface_order committed raised : (length (surface_order committed raised) ≤ length committed + 1)%nat.
Proof.
  unfold surface_order. rewrite length_app. pose proof (length_filter (λ s, Some (cs_surface s) ≠ raised) committed).
  assert (∀ o : option CommittedSurfaceState, length (option_list o) ≤ 1)%nat as Ho by (intros []; simpl; lia).
  specialize (Ho (raised ← raised; find_first (λ s, cs_surface s = raised) committed)). lia.
Qed.

(** C21: The screen shows the committed surfaces: whatever buffers and patches arrived and whatever was
    composed before, an output that is neither empty nor larger than 64 MiB is composed, and every
    pixel of its frame is the cursor's where the cursor has a colour, else that of the topmost
    committed surface whose buffer covers it, the raised surface being the topmost, else black,
    whether the layers are drawn one by one or the only one is copied as it is. *)
Theorem scene_shows_committed size ops committed raised cursor :
  i32_ok (sz_width size) → i32_ok (sz_height size) → Forall geometry_ok committed → Z.of_nat (length committed) < usize_MAX →
  let s := foldl scene_step (scene_new size) ops in
  match scene_compose s committed raised cursor with
  | (Ok report, s') =>
      sn_last_report s' = Some report ∧ cf_size (cc_frame report) = size ∧
      (∀ x y, in_size size x y →
         frame_quad (cc_frame report) x y = over (cursor_shown cursor x y) (shown (scene_layers s committed raised) x y (Some [0; 0; 0; 0]))) ∧
      (∀ x y surface layer, in_size size x y → raised ≫= (λ r, find_first (λ c, cs_surface c = r) committed) = Some surface →
         surface_layer (sn_buffers s) surface = Some layer → covers layer x y →
         frame_quad (cc_frame report) x y = over (cursor_shown cursor x y) (layer_quad layer x y)) ∧
      cc_nonzero_pixel_bytes report = count_nonzero (cf_bytes (cc_frame report))
  | (Err (CompositionFailed _), s') => s' = s ∧
      (sz_width size ≤ 0 ∨ sz_height size ≤ 0 ∨ LIVE_CPU_BUFFER_MAX_BYTES < 4 * sz_width size * sz_height size)
  | (Err _, _) => False
  end.
Proof.
  intros Hw Hh Hg Hn s. destruct (scene_run_ok size ops) as [Hr Hs]. fold s in Hr, Hs. unfold scene_compose. rewrite Hs.
  pose proof (scene_layers_ok s committed raised Hr Hg) as Hls.
  assert (Z.of_nat (length (scene_layers s committed raised)) ≤ usize_MAX) as Hlen.
  { unfold scene_layers. pose proof (length_omap_le (surface_layer (sn_buffers s)) (surface_order committed raised)).
    pose proof (length_surface_order committed raised). lia. }
  pose proof (composition_spec size _ cursor Hw Hh Hls Hlen) as Hc.
  destruct (compose_live_cpu_frame_ref_with_cursor _ _ _) as [report|[]]; [|split; [done|tauto]|split; [done|tauto]].
  cbn [sn_last_report]. destruct Hc as (C1 & _ & _ & _ & C5 & _ & _ & C8). split_and!; [done|done|done| |done].
  intros x y surface layer Hin Hsurf Hlayer Hcov. rewrite C5 by done. f_equal. unfold scene_layers, surface_order. rewrite Hsurf.
  rewrite omap_app. assert (omap (surface_layer (sn_buffers s)) (option_list (Some surface)) = [layer]) as -> by (simpl; by rewrite Hlayer).
  unfold shown. rewrite foldl_app. cbn [foldl]. by rewrite decide_True.
Qed.

(** A window of four pixels under one of a single pixel, the pointer at their corner. *)
Definition example_surfaces : list CommittedSurfaceState :=
  [mk_committed (surface_id 1 1) 1 (mk_rect 0 0 2 2) (CpuBuffer 3) (mk_region []);
   mk_committed (surface_id 2 1) 1 (mk_rect 1 (-1) 4 2) (CpuBuffer 4) (mk_region [])].
Definition example_scene_ops : list SceneOp :=
  [SceneUpdate [LiveReplace (mk_cpu_source 3 (mk_size 2 2) 8 LIVE_RENDERER_SCANOUT_FORMAT_XRGB8888 1 (seqZ 1 16));
                LiveReplace (mk_cpu_source 4 (mk_size 1 2) 4 LIVE_RENDERER_SCANOUT_FORMAT_XRGB8888 1 (seqZ 21 8))] example_surfaces].
Definition example_composed := (scene_compose (foldl scene_step (scene_new (mk_size 3 2)) example_scene_ops) example_surfaces None None).1.
Lemma scene_shows_committed_witness :
  match example_composed with
  | Ok report => (∀ x y, in_size (mk_size 3 2) x y → frame_quad (cc_frame report) x y =
      over None (shown (scene_layers (foldl scene_step (scene_new (mk_size 3 2)) example_scene_ops) example_surfaces None) x y (Some [0; 0; 0; 0]))) ∧
      cf_bytes (cc_frame report) = [1; 2; 3; 4; 25; 26; 27; 28; 0; 0; 0; 0; 9; 10; 11; 12; 13; 14; 15; 16; 0; 0; 0; 0]
  | Err _ => False
  end.
Proof.
  pose proof (scene_shows_committed (mk_size 3 2) example_scene_ops example_surfaces None None) as H.
  assert (match example_composed with Ok report => cf_bytes (cc_frame report) = [1; 2; 3; 4; 25; 26; 27; 28; 0; 0; 0; 0; 9; 10; 11; 12; 13; 14; 15; 16; 0; 0; 0; 0] | Err _ => False end) as Hb by (vm_compute; reflexivity).
  unfold example_composed in *. destruct (scene_compose _ _ _ _) as [[report|e] s']; cbn [fst] in *; [|destruct Hb].
  split; [|exact Hb]. apply H; [vm_compute; split; discriminate|vm_compute; split; discriminate|apply (bool_decide_unpack _); vm_compute; exact I|vm_compute; reflexivity].
Defined.
